(* ===== verification/_CoqProject ===== *)
-Q . S2P
Prelude.v
Pmm.v
Vmm.v
VmmTables.v
VmmOwn.v
VmmOps.v
VmmCreate.v
VmmDestroy.v
VmmFault.v
VmmActive.v
VmmCow.v
VmmBoot.v
VmmSystem.v
Ring.v
Pipe.v
StdinBuf.v
OpBudget.v
BlockDevice.v
Storage.v
Dll.v
Kheap.v
Sched.v
SchedInv.v
SchedOps.v
SchedFair.v
Scheduler.v
BufferCache.v
BufferCoherence.v
Buffers.v
CapyFs.v
CapyFsDisk.v
CapyFsFile.v
CapyFsDir.v
CapyFsTree.v
CapyFsMove.v
CapyFsFormat.v
CapyFsSystem.v
Vfs.v
VfsCache.v
VfsResolve.v
VfsOps.v
VfsNames.v
VfsRemoval.v
VfsSystem.v
Sha256.v
Crypt.v
AesXts.v
Journal.v
JournalCrash.v
JournalMount.v
JournalSafety.v
