(* ===== verification/Prelude.v ===== *)
(** * CapyOS: a verification library for the kernel core

    CapyOS is a 64-bit kernel with its drivers, file system, network stack and
    programs.  This library models the parts of the kernel that keep state other
    parts rely on, as shallow embeddings of the C functions, and proves what each
    promises to its callers.

    ** How the code is modelled

    A C function is a Rocq function of the same name.  Statics and structures it
    changes are passed in and returned; an early [return] is a branch; a call that
    fails returns the code's error value.  Integers are [Z] with the wrap-around of
    each operation written out ([u8] .. [u64] below); buffers are lists of byte
    values; a pointer is an index or an address, [None] when it may be NULL.  Code
    outside the repository or below it (device registers, the hash of argon2, the
    outcome of an allocation where the heap is not the subject) is an argument.
    Definitions run: the witnesses of the theorems evaluate them.

    ** Parts and files (paths are under src/)

    - Prelude: machine integers, arrays, loops, little-endian encoding, tactics.
    - Memory.  Pmm: physical frames (src/memory/pmm.c, pmm_refcount.c).  Kheap: the
      kernel heap (src/arch/x86_64/kmem64.c).
      Vmm: address spaces, page tables and page faults (src/memory/vmm.c, vmm_fault.c,
      vmm_cow.c, vmm_regions.c, vmm_active.c, vmm_mmio.c) over Pmm; page tables are words
      of the physical memory of its state.  VmmTables: entries, proof rules of its steps,
      the walk of the processor.  VmmOwn: the frames each address space owns and the
      invariant [ok].  VmmOps, VmmCreate, VmmDestroy, VmmFault, VmmCow, VmmBoot: mapping,
      creation, destruction, demand paging, copy on write and the sharing of a page table,
      [vmm_init].  VmmActive: the fault handler with its zeros stored through the active
      tables.  VmmSystem: runs of the operations, and the theorems.
    - Tasks.  Sched: the task table and the scheduler (src/kernel/task.c, scheduler.c,
      src/arch/x86_64/cpu/context_switch.S, arch_sched_hooks.c); kernel stacks come
      from Kheap.  SchedInv, SchedOps: its invariant and the preservation lemmas over
      Dll (linked lists); SchedFair: the order in which tasks come up; Scheduler: the
      operations as steps of a machine started at boot, and the theorems.
    - Communication.  Ring: the arithmetic of circular buffers.  Pipe, StdinBuf: the
      two rings of the kernel (src/kernel/pipe.c, stdin_buf.c).  OpBudget:
      src/util/op_budget.c.
    - Storage.  BlockDevice: devices, error classes and the retry policy
      (src/fs/storage/block_device.c, src/drivers/storage/block_error.c); its class
      [DiskSpec] is the interface every layer above is proved against.  Storage: RAM
      disk, offset and chunk wrappers, MBR (src/drivers/storage/ramdisk.c,
      src/fs/storage/).  BufferCache: src/fs/cache/buffer_cache.c; BufferCoherence:
      its invariant and transparency, over the class [DevEnv] of the devices below.
    - Cryptography.  Sha256, Crypt, AesXts: src/security/sha256.c, crypt.c,
      crypt_kdf.c, crypt_hkdf.c, crypt_aes_xts.c, each against a reference written
      from its standard; the encrypting block device implements [DiskSpec] again.
    - Journal.  Journal: src/fs/journal/journal.c.  JournalCrash: what a crash at any
      block write of a commit leaves.  JournalMount: keys, mount hook and journaled
      writes (src/fs/capyfs/capyfs_journal_integration.c), crash atomicity.
      JournalSafety: replay of an arbitrary disk.
    - File system.  Buffers: the calls a file system makes on the cache and what it
      relies on, as the classes [Buffers] and [BufferSpec], and the proof that the
      cache of BufferCache meets them.  CapyFs: src/fs/capyfs/runtime/ over that
      interface.  CapyFsDisk: the disk as inodes, bitmaps and blocks.  CapyFsFile,
      CapyFsDir, CapyFsTree: the block map and file contents, directories, the name
      space with its invariant [fs_ok].  CapyFsMove: renames and listings.
      CapyFsFormat: format and mount.  CapyFsSystem: the operations as steps of a
      mounted system, and the theorems.
    - Paths.  Vfs: src/fs/vfs/vfs.c over the operations of CapyFs.  Its state is the
      maps of dentries and open files by address, the user of the session, the last
      error and the file system below; an address is not used again, so an access
      through a stale pointer is the outcome [Wild], and [Spin] is a loop that outlasts
      its fuel.  VfsCache: the dentries as a tree that shows a part of the name space.
      VfsResolve: paths, and what the disk says they mean.  VfsOps, VfsNames,
      VfsRemoval: the operations on one state that agrees with the disk: files and
      metadata; creation, removal and renames; removal of a tree.  VfsSystem: the
      operations as steps from a mount, and the theorems.

    ** What the theorems show

    Invariants: no frame of an address space is owned twice, so a process reaches no
    table and no page of another; heap blocks, run queue and task table, kernel stacks, the buffer cache
    and the tree of a formatted disk stay well formed under any sequence of operations.
    Refinement: pipes and
    the keyboard ring are bounded queues; the buffer cache is an array of blocks per
    device; a stack of wrappers over a disk is a disk; a path means what the directory
    entries on the disk say, whatever dentries are cached.  Safety: no sequence of calls
    on paths and files touches a freed dentry, as long as what is removed is not open;
    without that condition one does, as a theorem shows.  The theorems on files, paths
    and the journal are about a device that works and memory that is granted; where an
    operation stops half way otherwise, a finding of the manifest says so.  Creation, mapping, faults and
    destruction of address spaces change only their target; fork is shown to share pages
    that the counters do not know to be shared.  Equivalence: the hashes, key
    derivations and ciphers compute their standards.  Crash safety: after a stop at
    any block write of a commit, mount finds the metadata before or after the
    transaction.  Liveness: a ready task runs within a bounded number of ticks.
    Termination: every search and replay loop ends, where it does.  A few theorems
    show where the code falls short of its comments; the manifest lists them.

    ** Bounds and fuel

    A loop over a list threaded through a table takes the size of the table as fuel:
    64 tasks ([queue_fuel]), 64 buffers, the headers that fit in the heap
    ([heap_fuel]).  The invariants prove that the lists have no repetition, so the
    fuel is never what ends a loop.  Journal replay takes the number of ring blocks,
    which [JournalSafety] proves enough for head and tail inside the ring.  A walk over
    dentries takes their number, a walk over a path its length, and the removal of a
    tree the 256 bytes of its path buffer, since each level adds a slash and a name:
    [VfsSystem] proves that none runs out.  Counted
    loops use [for_range] and [until_range].

    ** Not modelled

    Device registers, interrupts, firmware calls and assembly other than the context
    switch: their meaning is the machine's.  Console and log output.  Concurrency
    between processors: the kernel runs these parts on one, with the timer interrupt
    between operations.  The file system check reads the layout of CapyFs and keeps no
    state.  Translation caches, and the accesses of the kernel to page tables on an address
    space that maps pages over the identity map (VmmActive has those that clear frames).  Processes, boot slots, the network stack, the remaining
    cryptography, services and user programs are separate components with no part in
    what is proved here. *)
From stdpp Require Export prelude gmap list_numbers.
From Stdlib Require Export ZArith Lia.

#[global] Open Scope Z_scope.

(** ** Machine integers

    A w-bit unsigned C integer is a [Z] kept in [0, 2^w); the wrap-around of an
    arithmetic operation is written out with one of the four functions below. *)
Definition u8 (z : Z) : Z := z `mod` 2 ^ 8.
Definition u16 (z : Z) : Z := z `mod` 2 ^ 16.
Definition u32 (z : Z) : Z := z `mod` 2 ^ 32.
Definition u64 (z : Z) : Z := z `mod` 2 ^ 64.

Declare Scope capy_scope.
Delimit Scope capy_scope with capy.

(** C truth values: [if (e)] on an integer expression. *)
Definition truthy (z : Z) : bool := negb (z =? 0).
Definition of_bool (b : bool) : Z := if b then 1 else 0.

(** ** C arrays as lists indexed by [Z]

    [aget d l i] is [l[i]] for an index inside the array and [d] outside it;
    [aset l i v] is [l[i] = v], and leaves the list alone outside it.  Every use
    in the models is guarded by the bounds test the source makes. *)
Definition zlen {A} (l : list A) : Z := Z.of_nat (length l).
Definition aget {A} (d : A) (l : list A) (i : Z) : A := default d (l !! Z.to_nat i).
Definition aset {A} (l : list A) (i : Z) (v : A) : list A := <[Z.to_nat i := v]> l.
Definition zrep {A} (n : Z) (x : A) : list A := replicate (Z.to_nat n) x.
Definition ztake {A} (n : Z) (l : list A) : list A := take (Z.to_nat n) l.
Definition zdrop {A} (n : Z) (l : list A) : list A := drop (Z.to_nat n) l.

Notation "l .[ i ]" := (aget 0 l i) (at level 1, left associativity, format "l .[ i ]") : capy_scope.

(** [splice l off d]: [for (k = 0; k < len d; k++) l[off + k] = d[k];] *)
Definition splice {A} (l : list A) (off : Z) (d : list A) : list A :=
  ztake off l ++ d ++ zdrop (off + zlen d) l.

(** [sub_bytes l off n]: the [n] bytes of [l] from offset [off]. *)
Definition sub_bytes {A} (l : list A) (off n : Z) : list A := ztake n (zdrop off l).

(** ** Counted loops

    [for_range lo hi body s] is [for (i = lo; i < hi; i++) s = body(i, s)];
    [until_range] is the same loop with an early [return]/[break], whose value
    is the [inr]. *)
Fixpoint for_n {S} (n : nat) (i : Z) (body : Z -> S -> S) (s : S) : S :=
  match n with
  | O => s
  | S n' => for_n n' (i + 1) body (body i s)
  end.

Definition for_range {S} (lo hi : Z) (body : Z -> S -> S) (s : S) : S :=
  for_n (Z.to_nat (hi - lo)) lo body s.

Fixpoint until_n {S R} (n : nat) (i : Z) (body : Z -> S -> S + R) (s : S) : S + R :=
  match n with
  | O => inl s
  | S n' => match body i s with
            | inl s' => until_n n' (i + 1) body s'
            | inr r => inr r
            end
  end.

Definition until_range {S R} (lo hi : Z) (body : Z -> S -> S + R) (s : S) : S + R :=
  until_n (Z.to_nat (hi - lo)) lo body s.

(** ** Copy loops

    [memcpy_loop] is [for (i = 0; i < n; i++) dst[doff + i] = src[soff + i];] and
    [memset_loop] is [for (i = 0; i < n; i++) dst[off + i] = v;]. *)
Definition memcpy_loop (dst : list Z) (doff : Z) (src : list Z) (soff n : Z) : list Z :=
  for_range 0 n (fun i d => aset d (doff + i) (aget 0 src (soff + i))) dst.

Definition memset_loop (dst : list Z) (off n v : Z) : list Z :=
  for_range 0 n (fun i d => aset d (off + i) v) dst.

(** ** Little-endian encoding

    The byte image of an integer on the x86_64 target, as structure copies and
    the explicit put/get helpers produce it. *)
Fixpoint le_bytes (n : nat) (v : Z) : list Z :=
  match n with
  | O => []
  | S n' => v `mod` 256 :: le_bytes n' (v / 256)
  end.

Fixpoint le_val (l : list Z) : Z :=
  match l with
  | [] => 0
  | b :: l' => b + 256 * le_val l'
  end.

Definition byte_ok (b : Z) : Prop := 0 <= b < 256.
Definition bytes_ok (l : list Z) : Prop := Forall byte_ok l.

Definition bytes_okb (l : list Z) : bool := forallb (fun b => (0 <=? b) && (b <? 256)) l.

(** The reflexive-transitive closure used for reachable states. *)
Inductive star {A} (R : A -> A -> Prop) : A -> A -> Prop :=
| star_refl x : star R x x
| star_step x y z : R x y -> star R y z -> star R x z.

(** ** Tactics and hint database *)
Create HintDb capy.
Create Rewrite HintDb capy.

Ltac destr_if :=
  match goal with
  | |- context [if ?b then _ else _] => destruct b eqn:?
  | H : context [if ?b then _ else _] |- _ => destruct b eqn:?
  end.

(** Split conjunctions only. *)
Ltac splits := repeat match goal with |- _ /\ _ => split end.

(** Turn boolean comparisons in hypotheses into propositions. *)
Ltac bools :=
  repeat match goal with
  | H : (_ && _)%bool = true |- _ => apply andb_true_iff in H as [? ?]
  | H : (_ || _)%bool = false |- _ => apply orb_false_iff in H as [? ?]
  | H : negb _ = true |- _ => apply negb_true_iff in H
  | H : negb _ = false |- _ => apply negb_false_iff in H
  | H : (_ =? _) = true |- _ => apply Z.eqb_eq in H
  | H : (_ =? _) = false |- _ => apply Z.eqb_neq in H
  | H : (_ <? _) = true |- _ => apply Z.ltb_lt in H
  | H : (_ <? _) = false |- _ => apply Z.ltb_ge in H
  | H : (_ <=? _) = true |- _ => apply Z.leb_le in H
  | H : (_ <=? _) = false |- _ => apply Z.leb_gt in H
  end.

(** ** Arrays *)
Section arrays.
Context {A : Type}.
Implicit Types (l : list A) (d v : A) (i j : Z).

Lemma zlen_nonneg l : 0 <= zlen l.
Proof. unfold zlen. lia. Qed.

Lemma zlen_aset l i v : zlen (aset l i v) = zlen l.
Proof. unfold zlen, aset. by rewrite length_insert. Qed.

Lemma zlen_app l1 l2 : zlen (l1 ++ l2) = zlen l1 + zlen l2.
Proof. unfold zlen. rewrite length_app. lia. Qed.

Lemma zlen_cons v l : zlen (v :: l) = 1 + zlen l.
Proof. unfold zlen. simpl. lia. Qed.

Lemma zlen_rep (n : Z) v : 0 <= n -> zlen (zrep n v) = n.
Proof. intros. unfold zlen, zrep. rewrite length_replicate. lia. Qed.

Lemma zlen_take (n : Z) l : 0 <= n -> zlen (ztake n l) = Z.min n (zlen l).
Proof. intros. unfold zlen, ztake. rewrite length_take. lia. Qed.

Lemma zlen_drop (n : Z) l : 0 <= n -> zlen (zdrop n l) = Z.max 0 (zlen l - n).
Proof. intros. unfold zlen, zdrop. rewrite length_drop. lia. Qed.

Lemma aget_aset_eq d l i v : 0 <= i < zlen l -> aget d (aset l i v) i = v.
Proof.
  unfold zlen, aget, aset. intros. rewrite list_lookup_insert_eq by lia. done.
Qed.

Lemma aget_aset_ne d l i j v : 0 <= i -> 0 <= j -> i <> j ->
  aget d (aset l i v) j = aget d l j.
Proof. unfold aget, aset. intros. by rewrite list_lookup_insert_ne by lia. Qed.

Lemma aget_aset d l i j v : 0 <= i < zlen l -> 0 <= j ->
  aget d (aset l i v) j = if j =? i then v else aget d l j.
Proof.
  intros. destruct (Z.eqb_spec j i); subst.
  - by apply aget_aset_eq.
  - apply aget_aset_ne; lia.
Qed.

Lemma aget_rep d (n : Z) v i : 0 <= i < n -> aget d (zrep n v) i = v.
Proof.
  intros. unfold aget, zrep. rewrite lookup_replicate_2 by lia. done.
Qed.

Lemma aget_out d l i : zlen l <= i -> aget d l i = d.
Proof. unfold zlen, aget. intros. by rewrite lookup_ge_None_2 by lia. Qed.

Lemma aget_lookup d l i v : 0 <= i -> l !! Z.to_nat i = Some v -> aget d l i = v.
Proof. intros ? E. unfold aget. by rewrite E. Qed.

Lemma aget_app_l d l1 l2 i : 0 <= i < zlen l1 -> aget d (l1 ++ l2) i = aget d l1 i.
Proof. unfold zlen, aget. intros. by rewrite lookup_app_l by lia. Qed.

Lemma aget_app_r d l1 l2 i : zlen l1 <= i -> aget d (l1 ++ l2) i = aget d l2 (i - zlen l1).
Proof.
  unfold zlen, aget. intros. rewrite lookup_app_r by lia.
  by replace (Z.to_nat (i - Z.of_nat (length l1))) with (Z.to_nat i - length l1)%nat by lia.
Qed.

Lemma aget_take d l (n : Z) i : 0 <= i < n -> aget d (ztake n l) i = aget d l i.
Proof. unfold aget, ztake. intros. by rewrite lookup_take_lt by lia. Qed.

Lemma aget_drop d l (n : Z) i : 0 <= n -> 0 <= i -> aget d (zdrop n l) i = aget d l (n + i).
Proof.
  unfold aget, zdrop. intros. rewrite lookup_drop.
  by replace (Z.to_nat n + Z.to_nat i)%nat with (Z.to_nat (n + i)) by lia.
Qed.

(** Two arrays of the same length that agree at every index are equal. *)
Lemma array_ext d l1 l2 : zlen l1 = zlen l2 ->
  (forall i, 0 <= i < zlen l1 -> aget d l1 i = aget d l2 i) -> l1 = l2.
Proof.
  unfold zlen. intros Hl H. apply list_eq_same_length with (length l1); [lia | lia |].
  intros k x y Hk E1 E2. specialize (H (Z.of_nat k) ltac:(lia)).
  unfold aget in H. rewrite Nat2Z.id, E1, E2 in H. done.
Qed.

Lemma zlen_splice l off (x : list A) : 0 <= off -> off + zlen x <= zlen l ->
  zlen (splice l off x) = zlen l.
Proof.
  intros. pose proof (zlen_nonneg x). unfold splice.
  rewrite !zlen_app, zlen_take, zlen_drop by lia. lia.
Qed.

Lemma aget_splice d l off (x : list A) i : 0 <= off -> off + zlen x <= zlen l -> 0 <= i ->
  aget d (splice l off x) i =
  if (off <=? i) && (i <? off + zlen x) then aget d x (i - off) else aget d l i.
Proof.
  intros. pose proof (zlen_nonneg x). unfold splice.
  assert (Ht : zlen (ztake off l) = off) by (rewrite zlen_take; lia).
  destruct (Z.leb_spec off i), (Z.ltb_spec i (off + zlen x)); simpl.
  - rewrite aget_app_r, Ht, aget_app_l by lia. done.
  - rewrite aget_app_r, Ht, aget_app_r, aget_drop by lia. f_equal. lia.
  - rewrite aget_app_l, aget_take by lia. done.
  - rewrite aget_app_l, aget_take by lia. done.
Qed.

Lemma zlen_sub l off (n : Z) : 0 <= off -> 0 <= n -> off + n <= zlen l ->
  zlen (sub_bytes l off n) = n.
Proof. intros. unfold sub_bytes. rewrite zlen_take, zlen_drop by lia. lia. Qed.

Lemma aget_sub d l off (n : Z) i : 0 <= off -> 0 <= i < n ->
  aget d (sub_bytes l off n) i = aget d l (off + i).
Proof. intros. unfold sub_bytes. rewrite aget_take, aget_drop by lia. done. Qed.

(** Reading back what was spliced in, and reading around it. *)
Lemma sub_splice_same l off (x : list A) : 0 <= off -> off + zlen x <= zlen l ->
  sub_bytes (splice l off x) off (zlen x) = x.
Proof.
  intros. pose proof (zlen_nonneg x). destruct x as [|a x'] eqn:Ex; [done|].
  rewrite <- Ex in *. apply (array_ext a).
  - rewrite zlen_sub; [done | lia | lia | rewrite zlen_splice by lia; lia].
  - intros i Hi. rewrite zlen_sub in Hi by (try rewrite zlen_splice; lia).
    rewrite aget_sub, aget_splice by lia.
    replace ((off <=? off + i) && (off + i <? off + zlen x)) with true by lia.
    f_equal. lia.
Qed.

Lemma sub_splice_other l off (x : list A) o n : 0 <= off -> off + zlen x <= zlen l ->
  0 <= o -> 0 <= n -> o + n <= zlen l -> (o + n <= off \/ off + zlen x <= o) ->
  sub_bytes (splice l off x) o n = sub_bytes l o n.
Proof.
  intros. pose proof (zlen_nonneg x).
  destruct l as [|a l'] eqn:El.
  { unfold zlen in *; simpl in *. unfold splice, sub_bytes, ztake, zdrop.
    assert (x = []) as -> by (destruct x; simpl in *; [done | lia]).
    rewrite !take_nil, !drop_nil. simpl. by rewrite drop_nil, take_nil. }
  rewrite <- El in *. apply (array_ext a).
  - rewrite !zlen_sub; try done; rewrite ?zlen_splice; lia.
  - intros i Hi. rewrite zlen_sub in Hi by (try rewrite zlen_splice; lia).
    rewrite !aget_sub, aget_splice by lia.
    by replace ((off <=? o + i) && (o + i <? off + zlen x)) with false by lia.
Qed.

(** One store of a copy loop, then the rest of the copy. *)
Lemma splice_aset l n v (x : list A) : 0 <= n -> n + 1 + zlen x <= zlen l ->
  splice (aset l n v) (n + 1) x = splice l n (v :: x).
Proof.
  intros. pose proof (zlen_nonneg x).
  apply (array_ext v); [rewrite !zlen_splice; rewrite ?zlen_aset, ?zlen_cons; lia|].
  intros i Hi. rewrite zlen_splice in Hi by (rewrite ?zlen_aset; lia). rewrite ?zlen_aset in Hi.
  rewrite !aget_splice by (rewrite ?zlen_aset, ?zlen_cons; lia). rewrite zlen_cons.
  destruct (Z.eq_dec i n) as [->|].
  - replace (n + 1 <=? n) with false by lia. simpl.
    replace ((n <=? n) && (n <? n + (1 + zlen x))) with true by lia.
    by rewrite aget_aset_eq, Z.sub_diag by lia.
  - replace ((n <=? i) && (i <? n + (1 + zlen x))) with ((n + 1 <=? i) && (i <? n + 1 + zlen x)) by lia.
    destruct ((n + 1 <=? i) && (i <? n + 1 + zlen x)) eqn:E; [|apply aget_aset_ne; lia].
    change (v :: x) with ([v] ++ x). rewrite aget_app_r; unfold zlen at 1; simpl; [|lia].
    f_equal. lia.
Qed.

Lemma ztake_step d l (k : Z) : 0 < k -> 0 < zlen l ->
  ztake k l = aget d l 0 :: ztake (k - 1) (zdrop 1 l).
Proof.
  intros. destruct l as [|a l]; [done|]. unfold ztake, zdrop, aget.
  replace (Z.to_nat k) with (Datatypes.S (Z.to_nat (k - 1))) by lia. done.
Qed.

Lemma sub_bytes_all l : sub_bytes l 0 (zlen l) = l.
Proof.
  unfold sub_bytes, ztake, zdrop, zlen. rewrite drop_0, Nat2Z.id.
  apply take_ge. lia.
Qed.

Lemma Forall_aset (P : A -> Prop) l i v : Forall P l -> P v -> Forall P (aset l i v).
Proof. intros. unfold aset. by apply Forall_insert. Qed.

Lemma Forall_aget (P : A -> Prop) d l i : Forall P l -> P d -> P (aget d l i).
Proof.
  intros Hl Hd. unfold aget. destruct (l !! Z.to_nat i) eqn:E; [|done].
  simpl. by apply (Forall_lookup_1 _ _ _ _ Hl E).
Qed.

Lemma Forall_splice (P : A -> Prop) l off (x : list A) :
  Forall P l -> Forall P x -> Forall P (splice l off x).
Proof.
  intros. unfold splice, ztake, zdrop.
  repeat apply Forall_app_2; auto using Forall_take, Forall_drop.
Qed.
End arrays.

#[export] Hint Rewrite @zlen_aset @zlen_app @zlen_cons : capy.
#[export] Hint Resolve zlen_nonneg Forall_aset Forall_splice : capy.

(** ** Loops *)
Section loops.
Context {S R : Type}.

Lemma for_range_nil lo hi (body : Z -> S -> S) s : hi <= lo -> for_range lo hi body s = s.
Proof. intros. unfold for_range. by replace (Z.to_nat (hi - lo)) with O by lia. Qed.

Lemma for_range_step lo hi (body : Z -> S -> S) s : lo < hi ->
  for_range lo hi body s = for_range (lo + 1) hi body (body lo s).
Proof.
  intros. unfold for_range.
  by replace (Z.to_nat (hi - lo)) with (Datatypes.S (Z.to_nat (hi - (lo + 1)))) by lia.
Qed.

Lemma for_range_ind (P : Z -> S -> Prop) lo hi (body : Z -> S -> S) s :
  lo <= hi -> P lo s ->
  (forall i s, lo <= i < hi -> P i s -> P (i + 1) (body i s)) ->
  P hi (for_range lo hi body s).
Proof.
  intros Hle. unfold for_range. remember (Z.to_nat (hi - lo)) as n eqn:En.
  revert lo s Hle En. induction n as [|n IH]; intros lo s Hle En H0 Hstep; simpl.
  - by replace hi with lo by lia.
  - apply IH; [lia | lia | apply Hstep; [lia | done] |].
    intros. apply Hstep; [lia | done].
Qed.

Lemma for_range_ext lo hi (f g : Z -> S -> S) s :
  (forall k t, lo <= k < hi -> f k t = g k t) -> for_range lo hi f s = for_range lo hi g s.
Proof.
  unfold for_range. remember (Z.to_nat (hi - lo)) as n eqn:En.
  revert lo s En. induction n as [|n IH]; intros lo s En H; simpl; [done|].
  rewrite H by lia. apply IH; [lia|]. intros. apply H. lia.
Qed.

Lemma until_range_ind (P : Z -> S -> Prop) (Q : R -> Prop) lo hi
    (body : Z -> S -> S + R) s :
  lo <= hi -> P lo s ->
  (forall i s, lo <= i < hi -> P i s ->
     match body i s with inl s' => P (i + 1) s' | inr r => Q r end) ->
  match until_range lo hi body s with inl s' => P hi s' | inr r => Q r end.
Proof.
  intros Hle. unfold until_range. remember (Z.to_nat (hi - lo)) as n eqn:En.
  revert lo s Hle En. induction n as [|n IH]; intros lo s Hle En H0 Hstep; simpl.
  - by replace hi with lo by lia.
  - pose proof (Hstep lo s ltac:(lia) H0) as H1. destruct (body lo s) as [s'|r]; [|done].
    apply IH; [lia | lia | done |]. intros. apply Hstep; [lia | done].
Qed.

Lemma until_range_nil lo hi (body : Z -> S -> S + R) s :
  hi <= lo -> until_range lo hi body s = inl s.
Proof. intros. unfold until_range. by replace (Z.to_nat (hi - lo)) with O by lia. Qed.

Lemma until_range_step lo hi (body : Z -> S -> S + R) s : lo < hi ->
  until_range lo hi body s =
  match body lo s with inl s' => until_range (lo + 1) hi body s' | inr r => inr r end.
Proof.
  intros. unfold until_range.
  by replace (Z.to_nat (hi - lo)) with (Datatypes.S (Z.to_nat (hi - (lo + 1)))) by lia.
Qed.
End loops.

(** A search loop: continue while [f] holds, stop at the first failure. *)
Lemma until_find (f : Z -> bool) lo hi :
  match until_range lo hi (fun i (_ : unit) => if f i then inl tt else inr i) tt with
  | inr i => lo <= i < hi /\ f i = false /\ forall j, lo <= j < i -> f j = true
  | inl _ => forall j, lo <= j < hi -> f j = true
  end.
Proof.
  destruct (Z.le_gt_cases hi lo).
  { rewrite until_range_nil by lia. lia. }
  pose proof (until_range_ind (fun i (_ : unit) => forall j, lo <= j < i -> f j = true)
    (fun i => lo <= i < hi /\ f i = false /\ forall j, lo <= j < i -> f j = true)
    lo hi (fun i _ => if f i then inl tt else inr i) tt) as Hi.
  destruct (until_range _ _ _ _); apply Hi; try lia.
  all: intros i ? Hr Hj; destruct (f i) eqn:E; [|auto with lia].
  all: intros j Hlt; destruct (Z.eq_dec j i); [by subst | apply Hj; lia].
Qed.

(** ** Machine integers *)
Lemma u8_small z : 0 <= z < 2 ^ 8 -> u8 z = z.
Proof. intros. by apply Z.mod_small. Qed.
Lemma u16_small z : 0 <= z < 2 ^ 16 -> u16 z = z.
Proof. intros. by apply Z.mod_small. Qed.
Lemma u32_small z : 0 <= z < 2 ^ 32 -> u32 z = z.
Proof. intros. by apply Z.mod_small. Qed.
Lemma u64_small z : 0 <= z < 2 ^ 64 -> u64 z = z.
Proof. intros. by apply Z.mod_small. Qed.
Lemma u8_range z : 0 <= u8 z < 256.
Proof. unfold u8. apply Z.mod_pos_bound. lia. Qed.
Lemma u16_range z : 0 <= u16 z < 65536.
Proof. unfold u16. apply Z.mod_pos_bound. lia. Qed.
Lemma u32_range z : 0 <= u32 z < 2 ^ 32.
Proof. apply Z.mod_pos_bound. lia. Qed.
Lemma u64_range z : 0 <= u64 z < 2 ^ 64.
Proof. apply Z.mod_pos_bound. lia. Qed.

#[export] Hint Resolve u8_range u16_range u32_range u64_range : capy.

(** ** Copy loops *)
Lemma store_loop_spec (f : Z -> Z) dst off n : 0 <= off -> 0 <= n -> off + n <= zlen dst ->
  let d := for_range 0 n (fun i d => aset d (off + i) (f i)) dst in
  zlen d = zlen dst /\
  forall k, 0 <= k -> aget 0 d k = if (off <=? k) && (k <? off + n) then f (k - off) else aget 0 dst k.
Proof.
  intros Ho Hn Hd. cbv zeta.
  apply (for_range_ind (fun m d => m <= n -> zlen d = zlen dst /\ forall k, 0 <= k -> aget 0 d k =
    if (off <=? k) && (k <? off + m) then f (k - off) else aget 0 dst k)); [lia | | | lia].
  - intros _. split; [done|]. intros k Hk. by replace ((off <=? k) && (k <? off + 0)) with false by lia.
  - intros i d Hi IH _. destruct IH as [Hl Hg]; [lia|]. split; [by rewrite zlen_aset|]. intros k Hk.
    rewrite aget_aset by lia. destruct (Z.eqb_spec k (off + i)) as [->|].
    + replace ((off <=? off + i) && (off + i <? off + (i + 1))) with true by lia. f_equal. lia.
    + rewrite Hg by done.
      by replace ((off <=? k) && (k <? off + (i + 1))) with ((off <=? k) && (k <? off + i)) by lia.
Qed.

Lemma memcpy_spec dst doff src soff n : 0 <= doff -> 0 <= soff -> 0 <= n ->
  doff + n <= zlen dst -> soff + n <= zlen src ->
  memcpy_loop dst doff src soff n = splice dst doff (sub_bytes src soff n).
Proof.
  intros Hd Hs Hn Hfd Hfs. unfold memcpy_loop.
  destruct (store_loop_spec (fun i => aget 0 src (soff + i)) dst doff n) as [Hl Hg]; [done..|].
  assert (Hsub : zlen (sub_bytes src soff n) = n) by (by apply zlen_sub).
  apply (array_ext 0); [rewrite zlen_splice; lia|].
  intros k Hk. rewrite Hg, aget_splice, Hsub by lia. destr_if; [|done]. bools.
  by rewrite aget_sub by lia.
Qed.

Lemma memset_spec dst off n v : 0 <= off -> 0 <= n -> off + n <= zlen dst ->
  memset_loop dst off n v = splice dst off (zrep n v).
Proof.
  intros Ho Hn Hf. unfold memset_loop.
  destruct (store_loop_spec (fun _ => v) dst off n) as [Hl Hg]; [done..|].
  assert (Hrep : zlen (zrep n v) = n) by (by apply zlen_rep).
  apply (array_ext 0); [rewrite zlen_splice; lia|].
  intros k Hk. rewrite Hg, aget_splice, Hrep by lia. destr_if; [|done]. bools.
  by rewrite aget_rep by lia.
Qed.

Lemma sub_bytes_sub {A} (l : list A) o n o' n' : 0 <= o -> 0 <= n -> 0 <= o' -> 0 <= n' -> o' + n' <= n ->
  sub_bytes (sub_bytes l o n) o' n' = sub_bytes l (o + o') n'.
Proof.
  intros. unfold sub_bytes, ztake, zdrop. rewrite skipn_firstn_comm, drop_drop, take_take. f_equal; [lia|].
  f_equal. lia.
Qed.

Lemma splice_all {A} (l x : list A) : zlen x = zlen l -> splice l 0 x = x.
Proof.
  intros H. unfold splice, ztake, zdrop, zlen in *. simpl.
  rewrite drop_ge by lia. apply app_nil_r.
Qed.

(** ** Arrays of blocks *)
Definition blocks (f : Z -> list Z) (lo n : Z) : list Z := mjoin (f <$> seqZ lo n).

Lemma blocks_step f lo n : 0 < n -> blocks f lo n = f lo ++ blocks f (lo + 1) (n - 1).
Proof. intros. unfold blocks. rewrite seqZ_cons by lia. simpl. by rewrite Z.add_1_r, <- Z.sub_1_r. Qed.

Lemma blocks_ext f g lo n : (forall i, lo <= i < lo + n -> f i = g i) -> blocks f lo n = blocks g lo n.
Proof.
  intros H. unfold blocks. f_equal. apply list_fmap_ext. intros k x Hx.
  apply lookup_seqZ in Hx as [-> ?]. apply H. lia.
Qed.

Lemma zlen_blocks f lo n bs : 0 <= n -> (forall i, lo <= i < lo + n -> zlen (f i) = bs) ->
  zlen (blocks f lo n) = n * bs.
Proof.
  intros Hn. revert lo. apply (natlike_ind (fun n => forall lo, (forall i, lo <= i < lo + n -> zlen (f i) = bs) ->
    zlen (blocks f lo n) = n * bs)); [done | | done].
  intros m Hm IH lo H. rewrite blocks_step by lia. rewrite zlen_app, H, Z.sub_1_r, Z.pred_succ by lia.
  rewrite IH; [lia|]. intros. apply H. lia.
Qed.

(** A byte array is its sequence of blocks. *)
Lemma blocks_split data f lo n bs : 0 <= n -> 0 <= bs -> zlen data = n * bs ->
  (forall i, 0 <= i < n -> sub_bytes data (i * bs) bs = f (lo + i)) -> data = blocks f lo n.
Proof.
  intros Hn Hbs. revert lo data. apply (natlike_ind (fun n => forall lo data, zlen data = n * bs ->
    (forall i, 0 <= i < n -> sub_bytes data (i * bs) bs = f (lo + i)) -> data = blocks f lo n)); [| |done].
  - intros lo data Hl _. unfold zlen in Hl. destruct data; [done | simpl in Hl; lia].
  - intros m Hm IH lo data Hl H. rewrite blocks_step by lia.
    pose proof (H 0 ltac:(lia)) as H0. rewrite Z.mul_0_l, Z.add_0_r in H0.
    rewrite <- H0. replace (Z.succ m - 1) with m by lia.
    rewrite <- (IH (lo + 1) (zdrop bs data)).
    + unfold sub_bytes, ztake, zdrop. by rewrite drop_0, take_drop.
    + rewrite zlen_drop by lia. lia.
    + intros i Hi. rewrite <- Z.add_assoc, <- (H (1 + i)) by lia.
      unfold sub_bytes, zdrop. rewrite drop_drop. do 2 f_equal. nia.
Qed.

(** ** Little-endian encoding: the two round trips *)
Lemma zlen_le_bytes n v : zlen (le_bytes n v) = Z.of_nat n.
Proof.
  revert v. induction n as [|n IH]; intros v; [done|].
  change (le_bytes (S n) v) with (v `mod` 256 :: le_bytes n (v / 256)).
  rewrite zlen_cons, IH. lia.
Qed.

Lemma le_bytes_ok n v : bytes_ok (le_bytes n v).
Proof.
  revert v. induction n as [|n IH]; intros v; [constructor|].
  constructor; [|apply IH]. unfold byte_ok. apply Z.mod_pos_bound. lia.
Qed.

Lemma le_val_bytes n v : 0 <= v < 256 ^ Z.of_nat n -> le_val (le_bytes n v) = v.
Proof.
  revert v. induction n as [|n IH]; intros v Hv; [simpl in *; lia|].
  change (le_bytes (S n) v) with (v `mod` 256 :: le_bytes n (v / 256)).
  change (v `mod` 256 + 256 * le_val (le_bytes n (v / 256)) = v).
  rewrite Nat2Z.inj_succ, Z.pow_succ_r in Hv by lia.
  rewrite IH.
  - pose proof (Z.div_mod v 256 ltac:(lia)). lia.
  - split; [apply Z.div_pos; lia | apply Z.div_lt_upper_bound; lia].
Qed.

Lemma le_val_range l : bytes_ok l -> 0 <= le_val l < 256 ^ zlen l.
Proof.
  induction 1 as [|b l Hb Hl IH]; [simpl; unfold zlen; simpl; lia|].
  rewrite zlen_cons. pose proof (zlen_nonneg l).
  rewrite Z.pow_add_r, Z.pow_1_r by lia. simpl. unfold byte_ok in Hb.
  change (0 <= b + 256 * le_val l < 256 * 256 ^ zlen l). nia.
Qed.

Lemma le_bytes_val l : bytes_ok l -> le_bytes (length l) (le_val l) = l.
Proof.
  induction 1 as [|b l Hb Hl IH]; [done|].
  unfold byte_ok in Hb.
  change (le_val (b :: l)) with (b + 256 * le_val l).
  change ((b + 256 * le_val l) `mod` 256 :: le_bytes (length l) ((b + 256 * le_val l) / 256)
          = b :: l).
  replace (b + 256 * le_val l) with (b + le_val l * 256) by lia.
  rewrite Z.mod_add, Z.mod_small, Z.div_add, Z.div_small by lia. simpl.
  f_equal. by rewrite Z.add_0_l.
Qed.

Lemma bytes_okb_ok l : bytes_okb l = true -> bytes_ok l.
Proof.
  intros H. induction l as [|b l IH]; [constructor|]. simpl in H. bools.
  constructor; [split; lia | by apply IH].
Qed.

(** ** Bits of a byte *)
Lemma land_bit b k : 0 <= k -> (Z.land b (Z.shiftl 1 k) =? 0) = negb (Z.testbit b k).
Proof.
  intros. destruct (Z.testbit b k) eqn:E; simpl.
  - apply Z.eqb_neq. intros H0.
    assert (Z.testbit (Z.land b (Z.shiftl 1 k)) k = true) as H1.
    { rewrite Z.land_spec, Z.shiftl_1_l, Z.pow2_bits_true, E by lia. done. }
    rewrite H0, Z.bits_0 in H1. done.
  - apply Z.eqb_eq. apply Z.bits_inj'. intros m Hm.
    rewrite Z.land_spec, Z.shiftl_1_l, Z.pow2_bits_eqb, Z.bits_0 by lia.
    destruct (Z.eqb_spec k m); subst; [by rewrite E | by rewrite andb_false_r].
Qed.

Lemma testbit_u8 z k : 0 <= k < 8 -> Z.testbit (u8 z) k = Z.testbit z k.
Proof. intros. unfold u8. apply Z.mod_pow2_bits_low. lia. Qed.

Lemma testbit_set b k m : 0 <= k -> 0 <= m ->
  Z.testbit (Z.lor b (Z.shiftl 1 k)) m = (m =? k) || Z.testbit b m.
Proof.
  intros. rewrite Z.lor_spec, Z.shiftl_1_l, Z.pow2_bits_eqb by lia.
  rewrite orb_comm. f_equal. lia.
Qed.

Lemma testbit_clear b k m : 0 <= k -> 0 <= m ->
  Z.testbit (Z.land b (Z.lnot (Z.shiftl 1 k))) m = negb (m =? k) && Z.testbit b m.
Proof.
  intros. rewrite Z.land_spec, Z.lnot_spec, Z.shiftl_1_l, Z.pow2_bits_eqb by lia.
  rewrite andb_comm. do 2 f_equal. lia.
Qed.

(** Disjoint fields: [x | (y << k)] is an addition. *)
Lemma lor_shiftl_add x y k : 0 <= k -> 0 <= x < 2 ^ k -> Z.lor x (Z.shiftl y k) = x + y * 2 ^ k.
Proof.
  intros Hk Hx. rewrite <- Z.shiftl_mul_pow2 by lia.
  assert (Z.land x (Z.shiftl y k) = 0) as E.
  { apply Z.bits_inj'. intros i Hi. rewrite Z.land_spec, Z.bits_0.
    destruct (Z.lt_ge_cases i k).
    - rewrite Z.shiftl_spec_low by lia. apply andb_false_r.
    - rewrite <- (Z.mod_small x (2 ^ k)), Z.mod_pow2_bits_high by lia. done. }
  pose proof (Z.add_lor_land x (Z.shiftl y k)) as H. lia.
Qed.

(** The little-endian word built by shifts is the value of its four bytes. *)
Lemma lor4_val a b c d : byte_ok a -> byte_ok b -> byte_ok c -> byte_ok d ->
  Z.lor (Z.lor (Z.lor a (Z.shiftl b 8)) (Z.shiftl c 16)) (Z.shiftl d 24) = le_val [a; b; c; d].
Proof.
  unfold byte_ok. intros. rewrite (lor_shiftl_add a b 8) by lia.
  rewrite (lor_shiftl_add _ c 16) by lia. rewrite (lor_shiftl_add _ d 24) by lia. unfold le_val. lia.
Qed.

(** ** More on slices, loops and byte strings *)
Local Open Scope capy_scope.
Lemma ztake_all {A} (l : list A) n : zlen l <= n -> ztake n l = l.
Proof. intros. unfold ztake. apply take_ge. unfold zlen in *. lia. Qed.

Lemma ztake_app_len {A} (x y : list A) n : n = zlen x -> ztake n (x ++ y) = x.
Proof. intros ->. unfold ztake, zlen. rewrite Nat2Z.id. apply take_app_length. Qed.

Lemma zlen_nil {A} (l : list A) : zlen l = 0 -> l = [].
Proof. destruct l; [done|]. unfold zlen. simpl. lia. Qed.

Lemma splice_nil {A} (l : list A) n : 0 <= n -> splice l n [] = l.
Proof.
  intros. unfold splice, ztake, zdrop, zlen. simpl. rewrite Z.add_0_r. apply take_drop.
Qed.

Lemma splice_app (l x y : list Z) n : 0 <= n -> n + zlen x + zlen y <= zlen l ->
  splice (splice l n x) (n + zlen x) y = splice l n (x ++ y).
Proof.
  intros. pose proof (zlen_nonneg x). pose proof (zlen_nonneg y).
  apply (array_ext 0); [rewrite !zlen_splice; rewrite ?zlen_app, ?zlen_splice; lia|].
  intros i Hi. rewrite !zlen_splice in Hi by (rewrite ?zlen_splice; lia).
  rewrite !aget_splice by (rewrite ?zlen_app, ?zlen_splice; lia). rewrite zlen_app.
  destruct (Z.leb_spec n i), (Z.ltb_spec i (n + zlen x)), (Z.leb_spec (n + zlen x) i),
    (Z.ltb_spec i (n + zlen x + zlen y)), (Z.ltb_spec i (n + (zlen x + zlen y))); simpl; try lia; try done.
  - by rewrite aget_app_l by lia.
  - rewrite aget_app_r by lia. f_equal. lia.
Qed.

Lemma aset_app_rep (l : list Z) v k : 0 < k ->
  aset (l ++ zrep k 0) (zlen l) v = (l ++ [v]) ++ zrep (k - 1) 0.
Proof.
  intros. unfold aset, zrep, zlen. rewrite Nat2Z.id.
  replace (Z.to_nat k) with (S (Z.to_nat (k - 1))) by lia. simpl.
  rewrite insert_app_r_alt, Nat.sub_diag by lia. simpl. by rewrite <- app_assoc.
Qed.

Lemma Forall_sub_bytes {A} (P : A -> Prop) l o n : Forall P l -> Forall P (sub_bytes l o n).
Proof. intros. unfold sub_bytes, ztake, zdrop. by apply Forall_take, Forall_drop. Qed.

Lemma foldl_snoc {A B} (f : A -> B -> A) a l x : foldl f a (l ++ [x]) = f (foldl f a l) x.
Proof. by rewrite foldl_app. Qed.

Lemma zlen_concat ls (n : Z) : Forall (fun l : list Z => zlen l = n) ls -> zlen (concat ls) = n * zlen ls.
Proof.
  induction 1 as [|l ls Hl _ IH]; [unfold zlen; simpl; lia|]. simpl. rewrite zlen_app, zlen_cons. lia.
Qed.

(** Any string whose length is a multiple of [n] is such a concatenation. *)
Lemma split_pieces n (l : list Z) m : 0 < n -> 0 <= m -> zlen l = n * m ->
  l = concat (map (fun k => sub_bytes l (n * k) n) (seqZ 0 m)).
Proof.
  intros Hn Hm. revert l. refine (natlike_ind (fun m => forall l : list Z, zlen l = n * m ->
    l = concat (map (fun k => sub_bytes l (n * k) n) (seqZ 0 m))) _ _ m Hm).
  { intros l Hl. destruct l; [done|]. unfold zlen in Hl; simpl in Hl; lia. }
  clear m Hm. intros m Hm IH l Hl. rewrite seqZ_cons by lia. cbn [map concat].
  replace (n * 0) with 0 by lia. replace (Z.pred (Z.succ m)) with m by lia.
  transitivity (ztake n l ++ zdrop n l); [by unfold ztake, zdrop; rewrite take_drop|].
  f_equal. rewrite (IH (zdrop n l)) at 1 by (rewrite zlen_drop; lia). apply (f_equal (@concat Z)).
  replace (Z.succ 0) with (1 + 0) by lia.
  rewrite <- (fmap_add_seqZ 1 0). change (map ?f ?x) with (f <$> x). rewrite <- list_fmap_compose. simpl.
  apply list_fmap_ext. intros i k Hk. apply lookup_seqZ in Hk as [-> ?].
  unfold sub_bytes, zdrop. simpl. rewrite drop_drop. do 2 f_equal. lia.
Qed.

Lemma sub_concat (n i : Z) (ls : list (list Z)) : 0 < n -> Forall (fun l => zlen l = n) ls -> 0 <= i < zlen ls ->
  sub_bytes (concat ls) (n * i) n = aget [] ls i.
Proof.
  intros Hn Hls. revert i. induction Hls as [|l ls Hl Hls IH]; intros i Hi; [unfold zlen in Hi; simpl in Hi; lia|].
  rewrite zlen_cons in Hi. simpl. destruct (Z.eq_dec i 0) as [->|].
  - replace (n * 0) with 0 by lia. unfold sub_bytes. change (zdrop 0 ?x) with x. by apply ztake_app_len.
  - unfold sub_bytes, zdrop. replace (Z.to_nat (n * i)) with (length l + Z.to_nat (n * (i - 1)))%nat
      by (unfold zlen in Hl; nia).
    rewrite drop_app_add. change (sub_bytes (concat ls) (n * (i - 1)) n = aget [] (l :: ls) i).
    rewrite IH by lia. unfold aget. by replace (Z.to_nat i) with (S (Z.to_nat (i - 1))) by lia.
Qed.

Lemma seqZ_snoc lo n : 0 <= n -> seqZ lo (n + 1) = seqZ lo n ++ [lo + n].
Proof.
  intros. replace [lo + n] with (seqZ (lo + n) 1); [by rewrite <- seqZ_app by lia|].
  unfold seqZ. simpl. by f_equal.
Qed.

Lemma aget_map_seqZ (f : Z -> Z) n j : 0 <= j < n -> (map f (seqZ 0 n)).[j] = f j.
Proof.
  intros. unfold aget. rewrite list_lookup_fmap, lookup_seqZ_lt by lia. simpl. f_equal. lia.
Qed.

Lemma zlen_map_seqZ {A} (f : Z -> A) lo n : 0 <= n -> zlen (map f (seqZ lo n)) = n.
Proof. intros. unfold zlen. rewrite length_map, length_seqZ. lia. Qed.

Lemma for_n_S {S} n i (f : Z -> S -> S) a : for_n (Datatypes.S n) i f a = for_n n (i + 1) f (f i a).
Proof. reflexivity. Qed.

Lemma for_range_shift {S} lo hi (body : Z -> S -> S) s :
  for_range lo hi body s = for_range 0 (hi - lo) (fun k => body (lo + k)) s.
Proof.
  unfold for_range. rewrite Z.sub_0_r. generalize (Z.to_nat (hi - lo)) as n. intros n.
  assert (H : forall n i, for_n n (lo + i) body s = for_n n i (fun k => body (lo + k)) s).
  { clear n. intros n. revert s. induction n as [|n IH]; intros s i; [done|]. simpl.
    rewrite <- IH. f_equal. lia. }
  rewrite <- H. f_equal. lia.
Qed.

Lemma for_range_pair {A B} lo hi (f : Z -> A -> A) (g : Z -> B -> B) a b :
  for_range lo hi (fun i p => (f i p.1, g i p.2)) (a, b) = (for_range lo hi f a, for_range lo hi g b).
Proof.
  unfold for_range. generalize (Z.to_nat (hi - lo)). intros n. revert lo a b.
  induction n as [|n IH]; intros; [done|]. simpl. apply IH.
Qed.

Lemma for_range_snoc {S} lo hi (body : Z -> S -> S) s : lo <= hi ->
  for_range lo (hi + 1) body s = body hi (for_range lo hi body s).
Proof.
  intros Hle. unfold for_range. replace (Z.to_nat (hi + 1 - lo)) with (Datatypes.S (Z.to_nat (hi - lo))) by lia.
  assert (H : forall n i s, for_n (Datatypes.S n) i body s = body (i + Z.of_nat n) (for_n n i body s)).
  { clear. induction n as [|n IH]; intros i s; [simpl; by rewrite Z.add_0_r|].
    rewrite for_n_S, IH, <- for_n_S. f_equal. lia. }
  rewrite H. f_equal. lia.
Qed.

Lemma fill_loop_spec (f : Z -> Z) n p : 0 <= n -> n <= zlen p ->
  for_range 0 n (fun i p => aset p i (f i)) p = splice p 0 (map f (seqZ 0 n)).
Proof.
  intros Hn Hp. destruct (store_loop_spec f p 0 n) as [Hl Hg]; [lia..|]. 
  pose proof (zlen_map_seqZ f 0 n Hn) as Hm.
  rewrite (for_range_ext 0 n _ (fun i d => aset d (0 + i) (f i))) by done.
  apply (array_ext 0); [rewrite Hl, zlen_splice; lia|].
  intros i Hi. rewrite Hl in Hi. rewrite aget_splice, Hm by lia.
  rewrite Hg by lia. destr_if; [|done]. bools. rewrite aget_map_seqZ by lia. done.
Qed.

Lemma sub_splice_in {A} (l x : list A) o off n : 0 <= o -> o + zlen x <= zlen l ->
  o <= off -> 0 <= n -> off + n <= o + zlen x ->
  sub_bytes (splice l o x) off n = sub_bytes x (off - o) n.
Proof.
  intros. pose proof (sub_splice_same l o x ltac:(lia) ltac:(lia)) as E. rewrite <- E at 2.
  rewrite sub_bytes_sub by lia. f_equal. lia.
Qed.

Lemma sub_app_r {A} (x y : list A) off n : zlen x <= off -> sub_bytes (x ++ y) off n = sub_bytes y (off - zlen x) n.
Proof.
  intros. pose proof (zlen_nonneg x). unfold sub_bytes, zdrop.
  replace (Z.to_nat off) with (length x + Z.to_nat (off - zlen x))%nat by (unfold zlen in *; lia).
  by rewrite drop_app_add.
Qed.

Lemma sub_app_l {A} (x y : list A) off n : 0 <= off -> 0 <= n -> off + n <= zlen x ->
  sub_bytes (x ++ y) off n = sub_bytes x off n.
Proof.
  intros. unfold sub_bytes, ztake, zdrop, zlen in *.
  rewrite drop_app_le by lia. rewrite take_app_le; [done|]. rewrite length_drop. lia.
Qed.

Lemma sub_app_all {A} (x y : list A) n : n = zlen x -> sub_bytes (x ++ y) 0 n = x.
Proof. intros ->. rewrite sub_app_l by (pose proof (zlen_nonneg x); lia). apply sub_bytes_all. Qed.

Lemma byte0 : byte_ok 0.
Proof. unfold byte_ok. lia. Qed.

Lemma aget_byte l i : bytes_ok l -> byte_ok l.[i].
Proof. intros. apply Forall_aget; [done | apply byte0]. Qed.

Lemma aset_byte l i b : bytes_ok l -> byte_ok b -> bytes_ok (aset l i b).
Proof. apply Forall_aset. Qed.

Lemma zrep_ok n b : byte_ok b -> bytes_ok (zrep n b).
Proof. intros. by apply Forall_replicate. Qed.

Lemma bytes_map (f : Z -> Z) l : (forall b, byte_ok b -> byte_ok (f b)) -> bytes_ok l -> bytes_ok (map f l).
Proof. intros Hf Hl. apply Forall_fmap. eapply Forall_impl; [exact Hl|]. intros. by apply Hf. Qed.

Lemma u8_lxor x y : u8 (Z.lxor x y) = Z.lxor (u8 x) (u8 y).
Proof.
  unfold u8. apply Z.bits_inj'. intros k Hk. rewrite Z.lxor_spec, !Z.testbit_mod_pow2 by lia.
  rewrite Z.lxor_spec. by destruct (k <? 8), (Z.testbit x k), (Z.testbit y k).
Qed.

Lemma byte_lxor x y : byte_ok x -> byte_ok y -> byte_ok (Z.lxor x y).
Proof.
  intros [Hx Hx'] [Hy Hy']. split; [apply Z.lxor_nonneg; lia|].
  destruct (Z.eq_dec (Z.lxor x y) 0) as [->|]; [lia|].
  assert (0 <= Z.lxor x y) by (apply Z.lxor_nonneg; lia).
  change 256 with (2 ^ 8). apply Z.log2_lt_pow2; [lia|].
  pose proof (Z.log2_lxor x y Hx Hy). 
  assert (Hb : forall z, 0 <= z < 256 -> Z.log2 z < 8).
  { intros z Hz. destruct (Z.eq_dec z 0) as [->|]; [simpl; lia|]. apply Z.log2_lt_pow2; lia. }
  pose proof (Hb x). pose proof (Hb y). lia.
Qed.

(** ** Reachability *)
Lemma star_one {A} (R : A -> A -> Prop) x y : R x y -> star R x y.
Proof. intros. eapply star_step; [done | constructor]. Qed.

Lemma star_trans {A} (R : A -> A -> Prop) x y z : star R x y -> star R y z -> star R x z.
Proof. induction 1; eauto using star. Qed.

(** An invariant of the step relation holds of every reachable state. *)
Lemma star_invariant {A} (R : A -> A -> Prop) (I : A -> Prop) :
  (forall x y, I x -> R x y -> I y) -> forall x y, star R x y -> I x -> I y.
Proof. intros Hstep x y Hs. induction Hs; eauto. Qed.

#[export] Hint Constructors star : capy.
