(* ===== verification/Pmm.v ===== *)
(** * Physical memory manager

    Models src/memory/pmm.c (the frame bitmap, its counters and every
    operation on them), src/memory/pmm_refcount.c (the per-frame reference
    counters) and the identity-map query of src/memory/vmm.c that
    [pmm_init] consults.  Physical memory itself is an argument: [phys_read a]
    is the 64-bit word at physical address [a]. *)
From S2P Require Import Prelude.
Local Open Scope capy_scope.

(** ** The identity-map query (vmm.c) *)
Module IdentityMap.

Definition VMM_PTE_PHYS_MASK : Z := 0x000FFFFFFFFFF000.
Definition VMM_PAGE_PRESENT : Z := Z.shiftl 1 0.
Definition VMM_PAGE_WRITE : Z := Z.shiftl 1 1.
Definition VMM_PAGE_HUGE : Z := Z.shiftl 1 7.

(** [&tbl[(va >> sh) & 0x1FF]], dereferenced. *)
Definition pt_entry (phys_read : Z -> Z) (tbl va sh : Z) : Z :=
  phys_read (tbl + 8 * Z.land (Z.shiftr va sh) 0x1FF).

Definition vmm_identity_is_writable (phys_read : Z -> Z) (cr3 phys : Z) : bool :=
  let leaf e := truthy (Z.land e VMM_PAGE_WRITE) in
  let va := phys in
  let e := pt_entry phys_read (Z.land cr3 VMM_PTE_PHYS_MASK) va 39 in
  if negb (truthy (Z.land e VMM_PAGE_PRESENT)) then false else
  let e := pt_entry phys_read (Z.land e VMM_PTE_PHYS_MASK) va 30 in
  if negb (truthy (Z.land e VMM_PAGE_PRESENT)) then false else
  if truthy (Z.land e VMM_PAGE_HUGE) then leaf e else
  let e := pt_entry phys_read (Z.land e VMM_PTE_PHYS_MASK) va 21 in
  if negb (truthy (Z.land e VMM_PAGE_PRESENT)) then false else
  if truthy (Z.land e VMM_PAGE_HUGE) then leaf e else
  let e := pt_entry phys_read (Z.land e VMM_PTE_PHYS_MASK) va 12 in
  if negb (truthy (Z.land e VMM_PAGE_PRESENT)) then false else leaf e.

End IdentityMap.
Export IdentityMap.

(** ** State *)
Definition PMM_BITMAP_SIZE : Z := 64 * 1024 / 8.
Definition PMM_PAGE_SIZE : Z := 4096.

Record pmm_region := mkRegion { rg_base : Z; rg_length : Z; rg_type : Z }.

Record pmm := mkPmm {
  pmm_bitmap : list Z;
  pmm_total_pages : Z;
  pmm_free_count : Z;
  pmm_used_pages : Z;
  pmm_reserved_pages : Z;
  pmm_base_addr : Z;
  fw_ro_reserved : Z;
  fw_ro_first : Z }.

Definition bitmap_set (page : Z) (bm : list Z) : list Z :=
  let idx := page / 8 in
  let bit := u8 (Z.shiftl 1 (page `mod` 8)) in
  if idx <? PMM_BITMAP_SIZE then aset bm idx (Z.lor bm.[idx] bit) else bm.

Definition bitmap_clear (page : Z) (bm : list Z) : list Z :=
  let idx := page / 8 in
  let bit := u8 (Z.shiftl 1 (page `mod` 8)) in
  if idx <? PMM_BITMAP_SIZE then aset bm idx (u8 (Z.land bm.[idx] (Z.lnot bit))) else bm.

Definition bitmap_test (page : Z) (bm : list Z) : bool :=
  let idx := page / 8 in
  let bit := u8 (Z.shiftl 1 (page `mod` 8)) in
  if PMM_BITMAP_SIZE <=? idx then true else truthy (Z.land bm.[idx] bit).

(** The three field updates the operations share. *)
Definition with_bitmap (bm : list Z) (s : pmm) : pmm :=
  mkPmm bm (pmm_total_pages s) (pmm_free_count s) (pmm_used_pages s)
        (pmm_reserved_pages s) (pmm_base_addr s) (fw_ro_reserved s) (fw_ro_first s).
Definition with_counts (free used reserved : Z) (s : pmm) : pmm :=
  mkPmm (pmm_bitmap s) (pmm_total_pages s) free used reserved
        (pmm_base_addr s) (fw_ro_reserved s) (fw_ro_first s).
Definition with_fw_ro (reserved first : Z) (s : pmm) : pmm :=
  mkPmm (pmm_bitmap s) (pmm_total_pages s) (pmm_free_count s) (pmm_used_pages s)
        (pmm_reserved_pages s) (pmm_base_addr s) reserved first.

(** ** Operations *)

(** One step of the reservation loops: [bitmap_set(p)], the guarded decrement of
    the free count and the increment of the reserved count. *)
Definition reserve_page (p : Z) (s : pmm) : pmm :=
  let free := if 0 <? pmm_free_count s then pmm_free_count s - 1 else pmm_free_count s in
  with_counts free (pmm_used_pages s) (u64 (pmm_reserved_pages s + 1))
    (with_bitmap (bitmap_set p (pmm_bitmap s)) s).

Definition pmm_reserve_range (start length : Z) (s : pmm) : pmm :=
  let page_start := start / PMM_PAGE_SIZE in
  let page_end := u64 (start + length + PMM_PAGE_SIZE - 1) / PMM_PAGE_SIZE in
  for_range page_start (Z.min page_end (pmm_total_pages s))
    (fun p s => if bitmap_test p (pmm_bitmap s) then s else reserve_page p s) s.

Definition pmm_reserve_firmware_readonly (writable : Z -> bool) (s : pmm) : pmm :=
  for_range 0 (pmm_total_pages s)
    (fun i s =>
       if bitmap_test i (pmm_bitmap s) then s else
       if writable (i * PMM_PAGE_SIZE) then s else
       let s := reserve_page i s in
       with_fw_ro (u64 (fw_ro_reserved s + 1))
         (if fw_ro_reserved s =? 0 then i * PMM_PAGE_SIZE else fw_ro_first s) s) s.

Definition page_align_down (a : Z) : Z := Z.land a (u64 (Z.lnot (PMM_PAGE_SIZE - 1))).

(** First loop of [pmm_init]: highest end address and lowest base. *)
Definition scan_regions (regions : list pmm_region) : Z * Z :=
  fold_left (fun '(max_addr, base) r =>
    let e := u64 (rg_base r + rg_length r) in
    (if max_addr <? e then e else max_addr,
     if (base =? 0) || (rg_base r <? base) then rg_base r else base))
    regions (0, 0).

(** Second loop of [pmm_init], one region: mark its whole pages free. *)
Definition free_region (s : pmm) (r : pmm_region) : pmm :=
  if negb (rg_type r =? 1) then s else
  let start := page_align_down (u64 (rg_base r + PMM_PAGE_SIZE - 1)) in
  let end_ := page_align_down (u64 (rg_base r + rg_length r)) in
  for_range (start / PMM_PAGE_SIZE) (end_ / PMM_PAGE_SIZE)
    (fun page s =>
       if page <? pmm_total_pages s then
         with_counts (u64 (pmm_free_count s + 1)) (pmm_used_pages s) (pmm_reserved_pages s)
           (with_bitmap (bitmap_clear page (pmm_bitmap s)) s)
       else s) s.

(** [fw] carries the two diagnostic globals [pmm_init] does not reset. *)
Definition pmm_init (writable : Z -> bool) (fw : Z * Z) (regions : list pmm_region) : pmm :=
  let '(max_addr, base) := scan_regions regions in
  let total := max_addr / PMM_PAGE_SIZE in
  let total := if PMM_BITMAP_SIZE * 8 <? total then PMM_BITMAP_SIZE * 8 else total in
  let s := mkPmm (zrep PMM_BITMAP_SIZE 0xFF) total 0 0 0 base fw.1 fw.2 in
  let s := fold_left free_region regions s in
  let s := pmm_reserve_range 0 PMM_PAGE_SIZE s in
  let s := pmm_reserve_range PMM_PAGE_SIZE (PMM_PAGE_SIZE * 256) s in
  pmm_reserve_firmware_readonly writable s.

(** [bitmap_set(i)] for [n] pages from [i], and the counter updates of an
    allocation of [n] pages. *)
Definition take_pages (i n : Z) (s : pmm) : pmm :=
  with_counts (u64 (pmm_free_count s - n)) (u64 (pmm_used_pages s + n)) (pmm_reserved_pages s)
    (with_bitmap (for_range 0 n (fun j bm => bitmap_set (i + j) bm) (pmm_bitmap s)) s).

Definition pmm_alloc_page (s : pmm) : Z * pmm :=
  match until_range 0 (pmm_total_pages s)
          (fun i (_ : unit) =>
             if bitmap_test i (pmm_bitmap s) then inl tt else inr i) tt with
  | inr i => (i * PMM_PAGE_SIZE,
              with_counts (u64 (pmm_free_count s - 1)) (u64 (pmm_used_pages s + 1))
                (pmm_reserved_pages s) (with_bitmap (bitmap_set i (pmm_bitmap s)) s))
  | inl _ => (0, s)
  end.

(** The body shared by [pmm_free_page] and [pmm_free_pages]. *)
Definition release_page (page : Z) (s : pmm) : pmm :=
  if bitmap_test page (pmm_bitmap s) then
    with_counts (u64 (pmm_free_count s + 1))
      (if 0 <? pmm_used_pages s then pmm_used_pages s - 1 else pmm_used_pages s)
      (pmm_reserved_pages s) (with_bitmap (bitmap_clear page (pmm_bitmap s)) s)
  else s.

Definition pmm_free_page (phys_addr : Z) (s : pmm) : pmm :=
  let page := phys_addr / PMM_PAGE_SIZE in
  if pmm_total_pages s <=? page then s else release_page page s.

(** The inner scan of [pmm_alloc_pages]: the first used page of the window. *)
Definition window_used (i count : Z) (bm : list Z) : unit + Z :=
  until_range 0 count
    (fun j (_ : unit) => if bitmap_test (u64 (i + j)) bm then inr j else inl tt) tt.

(** The outer loop, with fuel: [i] jumps past the used page it met. *)
Fixpoint alloc_pages_loop (fuel : nat) (i count : Z) (s : pmm) : option (Z * pmm) :=
  match fuel with
  | O => None
  | S fuel =>
      if i <=? u64 (pmm_total_pages s - count) then
        match window_used i count (pmm_bitmap s) with
        | inr j => alloc_pages_loop fuel (u64 (i + j + 1)) count s
        | inl _ => Some (i * PMM_PAGE_SIZE, take_pages i count s)
        end
      else Some (0, s)
  end.

Definition pmm_alloc_pages (fuel : nat) (count : Z) (s : pmm) : option (Z * pmm) :=
  if count =? 0 then Some (0, s) else alloc_pages_loop fuel 0 count s.

Definition pmm_free_pages (phys_addr count : Z) (s : pmm) : pmm :=
  let page := phys_addr / PMM_PAGE_SIZE in
  for_range 0 count
    (fun i s => if u64 (page + i) <? pmm_total_pages s then release_page (u64 (page + i)) s
                else s) s.

Record pmm_stats := mkStats {
  st_total_pages : Z; st_free_pages : Z; st_used_pages : Z;
  st_reserved_pages : Z; st_total_bytes : Z; st_free_bytes : Z }.

Definition pmm_stats_get (s : pmm) : pmm_stats :=
  mkStats (pmm_total_pages s) (pmm_free_count s) (pmm_used_pages s) (pmm_reserved_pages s)
    (u64 (pmm_total_pages s * PMM_PAGE_SIZE)) (u64 (pmm_free_count s * PMM_PAGE_SIZE)).

Definition pmm_is_free (phys_addr : Z) (s : pmm) : bool :=
  let page := phys_addr / PMM_PAGE_SIZE in
  if pmm_total_pages s <=? page then false else negb (bitmap_test page (pmm_bitmap s)).

Definition pmm_low_memory (s : pmm) : bool :=
  let threshold := pmm_total_pages s / 16 in
  let threshold := if threshold <? 32 then 32 else threshold in
  pmm_free_count s <? threshold.

(** [cb] is the registered reclaim callback, [None] when there is none. *)
Definition pmm_alloc_page_reclaim (cb : option (pmm -> pmm)) (s : pmm) : Z * pmm :=
  let '(page, s) := pmm_alloc_page s in
  if truthy page then (page, s) else
  match cb with
  | Some reclaim => pmm_alloc_page (reclaim s)
  | None => (page, s)
  end.

(** ** Frame reference counters (pmm_refcount.c) *)
Module Refcount.

Definition PMM_REFCOUNT_MAX_PAGES : Z := 64 * 1024.
Definition PMM_REFCOUNT_PAGE_SIZE : Z := 4096.

Definition pfn_from_phys (phys_addr : Z) : Z := phys_addr / PMM_REFCOUNT_PAGE_SIZE.

Definition pmm_frame_refcount_init : list Z := zrep PMM_REFCOUNT_MAX_PAGES 0.

Definition pmm_frame_refcount_inc (phys_addr : Z) (g : list Z) : list Z :=
  let pfn := pfn_from_phys phys_addr in
  if PMM_REFCOUNT_MAX_PAGES <=? pfn then g else
  if g.[pfn] =? 0xFFFF then g else aset g pfn (u16 (g.[pfn] + 1)).

Definition pmm_frame_refcount_dec (phys_addr : Z) (g : list Z) : Z * list Z :=
  let pfn := pfn_from_phys phys_addr in
  if PMM_REFCOUNT_MAX_PAGES <=? pfn then (0, g) else
  if g.[pfn] =? 0 then (0, g) else
  let g := aset g pfn (u16 (g.[pfn] - 1)) in (g.[pfn], g).

Definition pmm_frame_refcount_get (phys_addr : Z) (g : list Z) : Z :=
  let pfn := pfn_from_phys phys_addr in
  if PMM_REFCOUNT_MAX_PAGES <=? pfn then 0 else g.[pfn].

(** The table keeps its size and its entries stay 16-bit. *)
Definition refcounts_ok (g : list Z) : Prop :=
  zlen g = PMM_REFCOUNT_MAX_PAGES /\ Forall (fun c => 0 <= c <= 0xFFFF) g.

(** A run of [n] increments and then [k] decrements of one frame. *)
Definition share_unshare (n k : nat) (phys_addr : Z) (g : list Z) : list Z :=
  Nat.iter k (fun g => (pmm_frame_refcount_dec phys_addr g).2)
    (Nat.iter n (pmm_frame_refcount_inc phys_addr) g).

Section lemmas.
Implicit Types (g : list Z) (a b : Z).

Lemma entry_range g i : refcounts_ok g -> 0 <= g.[i] <= 0xFFFF.
Proof. intros [_ H]. by apply (Forall_aget (fun c => 0 <= c <= 0xFFFF)). Qed.

Lemma init_ok : refcounts_ok pmm_frame_refcount_init.
Proof.
  split; [by apply zlen_rep|]. unfold pmm_frame_refcount_init, zrep.
  apply Forall_replicate. lia.
Qed.

Lemma inc_ok a g : refcounts_ok g -> refcounts_ok (pmm_frame_refcount_inc a g).
Proof.
  intros Hg. unfold pmm_frame_refcount_inc. repeat destr_if; try done.
  destruct Hg as [? ?]. split; [by rewrite zlen_aset|].
  apply Forall_aset; [done|]. pose proof (u16_range (g.[pfn_from_phys a] + 1)). lia.
Qed.

Lemma dec_ok a g : refcounts_ok g -> refcounts_ok (pmm_frame_refcount_dec a g).2.
Proof.
  intros Hg. unfold pmm_frame_refcount_dec. repeat destr_if; try done.
  destruct Hg as [? ?]. split; simpl; [by rewrite zlen_aset|].
  apply Forall_aset; [done|]. pose proof (u16_range (g.[pfn_from_phys a] - 1)). lia.
Qed.

Lemma inc_get a g : refcounts_ok g -> 0 <= a < PMM_REFCOUNT_MAX_PAGES * 4096 ->
  pmm_frame_refcount_get a (pmm_frame_refcount_inc a g) =
  Z.min 0xFFFF (pmm_frame_refcount_get a g + 1).
Proof.
  intros Hg Ha. pose proof (entry_range g (pfn_from_phys a) Hg).
  unfold pmm_frame_refcount_get, pmm_frame_refcount_inc.
  assert (0 <= pfn_from_phys a < PMM_REFCOUNT_MAX_PAGES).
  { split; [apply Z.div_pos | apply Z.div_lt_upper_bound]; unfold PMM_REFCOUNT_PAGE_SIZE; lia. }
  replace (PMM_REFCOUNT_MAX_PAGES <=? pfn_from_phys a) with false by lia.
  destruct (Z.eqb_spec g.[pfn_from_phys a] 0xFFFF); [lia|].
  destruct Hg. rewrite aget_aset_eq, u16_small by lia. lia.
Qed.

Lemma dec_get a g : refcounts_ok g -> 0 <= a < PMM_REFCOUNT_MAX_PAGES * 4096 ->
  pmm_frame_refcount_get a (pmm_frame_refcount_dec a g).2 =
  Z.max 0 (pmm_frame_refcount_get a g - 1).
Proof.
  intros Hg Ha. pose proof (entry_range g (pfn_from_phys a) Hg).
  unfold pmm_frame_refcount_get, pmm_frame_refcount_dec.
  assert (0 <= pfn_from_phys a < PMM_REFCOUNT_MAX_PAGES).
  { split; [apply Z.div_pos | apply Z.div_lt_upper_bound]; unfold PMM_REFCOUNT_PAGE_SIZE; lia. }
  replace (PMM_REFCOUNT_MAX_PAGES <=? pfn_from_phys a) with false by lia.
  destruct (Z.eqb_spec g.[pfn_from_phys a] 0); simpl; [lia|].
  destruct Hg. rewrite aget_aset_eq, u16_small by lia. lia.
Qed.

Lemma other_frame a b g : 0 <= a -> 0 <= b -> pfn_from_phys a <> pfn_from_phys b ->
  pmm_frame_refcount_get b (pmm_frame_refcount_inc a g) = pmm_frame_refcount_get b g /\
  pmm_frame_refcount_get b (pmm_frame_refcount_dec a g).2 = pmm_frame_refcount_get b g.
Proof.
  intros Ha Hb Hne. unfold pmm_frame_refcount_get, pmm_frame_refcount_inc, pmm_frame_refcount_dec.
  assert (0 <= pfn_from_phys a) by (apply Z.div_pos; unfold PMM_REFCOUNT_PAGE_SIZE; lia).
  assert (0 <= pfn_from_phys b) by (apply Z.div_pos; unfold PMM_REFCOUNT_PAGE_SIZE; lia).
  repeat destr_if; simpl; rewrite ?aget_aset_ne by lia; done.
Qed.
End lemmas.
End Refcount.

(** ** Specification *)

(** The number of clear bits among pages [0, n). *)
Fixpoint count_clear (n : nat) (bm : list Z) : Z :=
  match n with
  | O => 0
  | S n' => count_clear n' bm + (if bitmap_test (Z.of_nat n') bm then 0 else 1)
  end.

Definition free_pages (s : pmm) : Z := count_clear (Z.to_nat (pmm_total_pages s)) (pmm_bitmap s).

(** The representation invariant: the bitmap has its size, the page count fits
    it, no page beyond the count is ever free, and the free counter is the number
    of clear bits. *)
Record wf (s : pmm) : Prop := {
  wf_len : zlen (pmm_bitmap s) = PMM_BITMAP_SIZE;
  wf_total : 0 <= pmm_total_pages s <= PMM_BITMAP_SIZE * 8;
  wf_beyond : forall q, pmm_total_pages s <= q -> bitmap_test q (pmm_bitmap s) = true;
  wf_free : pmm_free_count s = free_pages s }.

(** The state machine of the allocator, with the multiset of outstanding
    frames as ghost state: what clients were handed and did not return. *)
Inductive pmm_step : pmm * list Z -> pmm * list Z -> Prop :=
| step_alloc s s' a out :
    pmm_alloc_page s = (a, s') -> a <> 0 ->
    pmm_step (s, out) (s', a / PMM_PAGE_SIZE :: out)
| step_alloc_fail s s' out : pmm_alloc_page s = (0, s') -> pmm_step (s, out) (s', out)
| step_alloc_pages fuel s s' a n out :
    0 < n < 2 ^ 63 -> pmm_alloc_pages fuel n s = Some (a, s') -> a <> 0 ->
    pmm_step (s, out) (s', seqZ (a / PMM_PAGE_SIZE) n ++ out)
| step_free s p out out' :
    out ≡ₚ p :: out' ->
    pmm_step (s, out) (pmm_free_page (p * PMM_PAGE_SIZE) s, out')
| step_reserve s start len out :
    0 <= start -> 0 <= len -> start + len + PMM_PAGE_SIZE <= 2 ^ 64 ->
    pmm_step (s, out) (pmm_reserve_range start len s, out).

(** ** Bitmap lemmas *)
Section bitmap.
Implicit Types (p q : Z) (bm : list Z).

Lemma page_bit_range p : 0 <= p `mod` 8 < 8.
Proof. apply Z.mod_pos_bound. lia. Qed.

Lemma page_bit_u8 p : u8 (Z.shiftl 1 (p `mod` 8)) = Z.shiftl 1 (p `mod` 8).
Proof.
  apply u8_small. pose proof (page_bit_range p). rewrite Z.shiftl_1_l.
  split; [apply Z.pow_nonneg; lia | apply Z.pow_lt_mono_r; lia].
Qed.

Lemma bitmap_test_bit p bm : p / 8 < PMM_BITMAP_SIZE ->
  bitmap_test p bm = Z.testbit bm.[p / 8] (p `mod` 8).
Proof.
  intros. unfold bitmap_test, truthy. pose proof (page_bit_range p).
  rewrite page_bit_u8, land_bit, negb_involutive by lia.
  by replace (PMM_BITMAP_SIZE <=? p / 8) with false by lia.
Qed.

Lemma bitmap_test_out p bm : PMM_BITMAP_SIZE * 8 <= p -> bitmap_test p bm = true.
Proof.
  intros. unfold bitmap_test.
  by replace (PMM_BITMAP_SIZE <=? p / 8) with true by (symmetry; apply Z.leb_le, Z.div_le_lower_bound; lia).
Qed.

Lemma same_page p q : p / 8 = q / 8 -> p `mod` 8 = q `mod` 8 -> p = q.
Proof. intros. pose proof (Z.div_mod p 8). pose proof (Z.div_mod q 8). lia. Qed.

Lemma zlen_bitmap_set p bm : zlen (bitmap_set p bm) = zlen bm.
Proof. unfold bitmap_set. destr_if; by rewrite ?zlen_aset. Qed.

Lemma zlen_bitmap_clear p bm : zlen (bitmap_clear p bm) = zlen bm.
Proof. unfold bitmap_clear. destr_if; by rewrite ?zlen_aset. Qed.

Lemma bitmap_test_set p q bm : zlen bm = PMM_BITMAP_SIZE -> 0 <= p < PMM_BITMAP_SIZE * 8 ->
  0 <= q -> bitmap_test q (bitmap_set p bm) = (q =? p) || bitmap_test q bm.
Proof.
  intros Hl Hp Hq. destruct (Z.le_gt_cases (PMM_BITMAP_SIZE * 8) q).
  { rewrite !bitmap_test_out by lia. by rewrite orb_true_r. }
  assert (p / 8 < PMM_BITMAP_SIZE) by (apply Z.div_lt_upper_bound; lia).
  assert (q / 8 < PMM_BITMAP_SIZE) by (apply Z.div_lt_upper_bound; lia).
  pose proof (Z.div_pos p 8 ltac:(lia) ltac:(lia)).
  pose proof (Z.div_pos q 8 ltac:(lia) ltac:(lia)).
  pose proof (page_bit_range p). pose proof (page_bit_range q).
  rewrite !bitmap_test_bit by done. unfold bitmap_set.
  replace (p / 8 <? PMM_BITMAP_SIZE) with true by lia.
  rewrite aget_aset, page_bit_u8 by lia.
  destruct (Z.eqb_spec (q / 8) (p / 8)) as [E|E].
  - rewrite testbit_set, E by lia. f_equal.
    destruct (Z.eqb_spec q p); [subst; lia |].
    destruct (Z.eqb_spec (q `mod` 8) (p `mod` 8)); [|done].
    by apply same_page in E.
  - destruct (Z.eqb_spec q p); [by subst | done].
Qed.

Lemma bitmap_test_clear p q bm : zlen bm = PMM_BITMAP_SIZE -> 0 <= p < PMM_BITMAP_SIZE * 8 ->
  0 <= q -> bitmap_test q (bitmap_clear p bm) = negb (q =? p) && bitmap_test q bm.
Proof.
  intros Hl Hp Hq. destruct (Z.le_gt_cases (PMM_BITMAP_SIZE * 8) q).
  { rewrite !bitmap_test_out by lia. by replace (q =? p) with false by lia. }
  assert (p / 8 < PMM_BITMAP_SIZE) by (apply Z.div_lt_upper_bound; lia).
  assert (q / 8 < PMM_BITMAP_SIZE) by (apply Z.div_lt_upper_bound; lia).
  pose proof (Z.div_pos p 8 ltac:(lia) ltac:(lia)).
  pose proof (Z.div_pos q 8 ltac:(lia) ltac:(lia)).
  pose proof (page_bit_range p). pose proof (page_bit_range q).
  rewrite !bitmap_test_bit by done. unfold bitmap_clear.
  replace (p / 8 <? PMM_BITMAP_SIZE) with true by lia.
  rewrite aget_aset, page_bit_u8 by lia.
  destruct (Z.eqb_spec (q / 8) (p / 8)) as [E|E].
  - rewrite testbit_u8, testbit_clear, E by lia. f_equal. f_equal.
    destruct (Z.eqb_spec q p); [subst; lia |].
    destruct (Z.eqb_spec (q `mod` 8) (p `mod` 8)); [|done].
    by apply same_page in E.
  - destruct (Z.eqb_spec q p); [by subst | done].
Qed.

(** Counting: a flip of one bit inside the window changes the count by one. *)
Lemma count_clear_ext n bm bm' :
  (forall q, 0 <= q < Z.of_nat n -> bitmap_test q bm' = bitmap_test q bm) ->
  count_clear n bm' = count_clear n bm.
Proof.
  induction n as [|n IH]; intros H; [done|]. simpl.
  rewrite IH, (H (Z.of_nat n)) by (intros; try apply H; lia). done.
Qed.

Lemma count_clear_flip n bm bm' p (b : bool) : 0 <= p < Z.of_nat n ->
  (forall q, 0 <= q -> q <> p -> bitmap_test q bm' = bitmap_test q bm) ->
  bitmap_test p bm = b -> bitmap_test p bm' = negb b ->
  count_clear n bm' = count_clear n bm + (if b then 1 else -1).
Proof.
  intros Hp Hne Hb Hb'. induction n as [|n IH]; [lia|]. simpl.
  destruct (Z.eq_dec p (Z.of_nat n)) as [->|Hn].
  - rewrite Hb, Hb', (count_clear_ext n bm bm') by (intros; apply Hne; lia).
    destruct b; simpl; lia.
  - rewrite IH, (Hne (Z.of_nat n)) by lia. lia.
Qed.

Lemma count_clear_range n bm : 0 <= count_clear n bm <= Z.of_nat n.
Proof.
  induction n as [|n IH]; [simpl; lia|].
  change (count_clear (S n) bm)
    with (count_clear n bm + (if bitmap_test (Z.of_nat n) bm then 0 else 1)).
  destruct (bitmap_test _ _); lia.
Qed.

Lemma count_clear_pos n bm p : 0 <= p < Z.of_nat n -> bitmap_test p bm = false ->
  0 < count_clear n bm.
Proof.
  intros Hp Ht. induction n as [|n IH]; [lia|].
  change (count_clear (S n) bm)
    with (count_clear n bm + (if bitmap_test (Z.of_nat n) bm then 0 else 1)).
  pose proof (count_clear_range n bm).
  destruct (Z.eq_dec p (Z.of_nat n)) as [->|].
  - rewrite Ht. lia.
  - specialize (IH ltac:(lia)). destr_if; lia.
Qed.
End bitmap.

(** ** Operation lemmas *)
Section operations.
Implicit Types (s : pmm) (p q : Z).

Lemma free_pages_set s p : zlen (pmm_bitmap s) = PMM_BITMAP_SIZE ->
  0 <= p < pmm_total_pages s -> pmm_total_pages s <= PMM_BITMAP_SIZE * 8 -> bitmap_test p (pmm_bitmap s) = false ->
  free_pages (with_bitmap (bitmap_set p (pmm_bitmap s)) s) = free_pages s - 1.
Proof.
  intros Hl Hp Hm Ht. unfold free_pages; simpl.
  rewrite (count_clear_flip _ (pmm_bitmap s) _ p false); try lia; try done.
  - intros. rewrite bitmap_test_set by lia. by replace (q =? p) with false by lia.
  - rewrite bitmap_test_set by lia. by rewrite Z.eqb_refl.
Qed.

Lemma free_pages_clear s p : zlen (pmm_bitmap s) = PMM_BITMAP_SIZE ->
  0 <= p < pmm_total_pages s -> pmm_total_pages s <= PMM_BITMAP_SIZE * 8 -> bitmap_test p (pmm_bitmap s) = true ->
  free_pages (with_bitmap (bitmap_clear p (pmm_bitmap s)) s) = free_pages s + 1.
Proof.
  intros Hl Hp Hm Ht. unfold free_pages; simpl.
  rewrite (count_clear_flip _ (pmm_bitmap s) _ p true); try lia; try done.
  - intros. rewrite bitmap_test_clear by lia. by replace (q =? p) with false by lia.
  - rewrite bitmap_test_clear by lia. by rewrite Z.eqb_refl.
Qed.

Lemma free_pages_range s : 0 <= pmm_total_pages s ->
  0 <= free_pages s <= pmm_total_pages s.
Proof. intros. pose proof (count_clear_range (Z.to_nat (pmm_total_pages s)) (pmm_bitmap s)).
  unfold free_pages. lia. Qed.

Lemma free_pages_pos s p : 0 <= p < pmm_total_pages s ->
  bitmap_test p (pmm_bitmap s) = false -> 0 < free_pages s.
Proof. intros. apply count_clear_pos with p; [lia | done]. Qed.

Lemma bitmap_bits : PMM_BITMAP_SIZE * 8 = 65536.
Proof. done. Qed.

Lemma free_count_u64 s k : wf s -> -1 <= k <= 1 -> 0 <= free_pages s + k ->
  u64 (pmm_free_count s + k) = free_pages s + k.
Proof.
  intros [] Hk. pose proof (free_pages_range s ltac:(lia)). pose proof bitmap_bits.
  rewrite wf_free0. intros. apply u64_small. lia.
Qed.

(** [reserve_page] on a free page of the window. *)
Lemma reserve_page_wf s p : wf s -> 0 <= p < pmm_total_pages s ->
  bitmap_test p (pmm_bitmap s) = false -> wf (reserve_page p s).
Proof.
  intros Hwf Hp Ht. pose proof (free_pages_pos s p Hp Ht). destruct Hwf.
  pose proof (free_pages_set s p wf_len0 Hp ltac:(lia) Ht) as E.
  constructor; simpl; [by rewrite zlen_bitmap_set | done | |].
  { intros q Hq. rewrite bitmap_test_set, wf_beyond0 by lia. apply orb_true_r. }
  replace (0 <? pmm_free_count s) with true by lia.
  unfold free_pages in *; simpl in *. lia.
Qed.

Lemma reserve_page_test s p q : wf s -> 0 <= p < pmm_total_pages s -> 0 <= q ->
  bitmap_test q (pmm_bitmap (reserve_page p s)) = (q =? p) || bitmap_test q (pmm_bitmap s).
Proof. intros [] ? ?. simpl. apply bitmap_test_set; lia. Qed.

(** [release_page] on a page of the window. *)
Lemma release_page_wf s p : wf s -> 0 <= p < pmm_total_pages s -> wf (release_page p s).
Proof.
  intros Hwf Hp. unfold release_page. destruct (bitmap_test _ _) eqn:Ht; [|done].
  pose proof (free_count_u64 s 1 Hwf) as E. pose proof Hwf as [].
  pose proof (free_pages_range s ltac:(lia)).
  pose proof (free_pages_clear s p wf_len0 Hp ltac:(lia) Ht).
  constructor; simpl; [by rewrite zlen_bitmap_clear | done | |].
  { intros q Hq. rewrite bitmap_test_clear, wf_beyond0 by lia. lia. }
  unfold free_pages in *; simpl in *. rewrite E by lia. lia.
Qed.

Lemma release_page_test s p q : wf s -> 0 <= p < pmm_total_pages s -> 0 <= q ->
  bitmap_test q (pmm_bitmap (release_page p s)) = negb (q =? p) && bitmap_test q (pmm_bitmap s).
Proof.
  intros [] ? ?. unfold release_page. destruct (bitmap_test p _) eqn:Ht; simpl.
  - apply bitmap_test_clear; lia.
  - destruct (Z.eqb_spec q p); [by subst | done].
Qed.

Lemma release_page_total s p : pmm_total_pages (release_page p s) = pmm_total_pages s.
Proof. unfold release_page. by destr_if. Qed.

(** The loop of [pmm_reserve_range]. *)
Lemma reserve_range_loop s lo hi : wf s -> 0 <= lo <= hi -> hi <= pmm_total_pages s ->
  let s' := for_range lo hi
    (fun p s => if bitmap_test p (pmm_bitmap s) then s else reserve_page p s) s in
  wf s' /\ pmm_total_pages s' = pmm_total_pages s /\
  forall q, 0 <= q ->
    bitmap_test q (pmm_bitmap s') = ((lo <=? q) && (q <? hi)) || bitmap_test q (pmm_bitmap s).
Proof.
  intros Hwf Hlo Hhi. cbv zeta.
  apply (for_range_ind (fun i t => wf t /\ pmm_total_pages t = pmm_total_pages s /\
    forall q, 0 <= q ->
      bitmap_test q (pmm_bitmap t) = ((lo <=? q) && (q <? i)) || bitmap_test q (pmm_bitmap s)));
    [lia | |].
  - split; [done|]. split; [done|]. intros q ?.
    by replace ((lo <=? q) && (q <? lo)) with false by lia.
  - intros i t Hi (Hw & Ht & Hb). destruct (bitmap_test i (pmm_bitmap t)) eqn:E.
    + split; [done|]. split; [done|]. intros q Hq. rewrite Hb by done.
      destruct (Z.eq_dec q i) as [->|].
      * rewrite <- (Hb i Hq), E. symmetry. apply orb_true_iff. left. lia.
      * f_equal. lia.
    + split; [apply reserve_page_wf; [done | lia | done]|]. split; [done|].
      intros q Hq. rewrite reserve_page_test, Hb by (done || lia).
      rewrite orb_assoc. f_equal. lia.
Qed.

Lemma pmm_reserve_range_spec s start len : wf s -> 0 <= start -> 0 <= len ->
  start + len + PMM_PAGE_SIZE <= 2 ^ 64 ->
  let s' := pmm_reserve_range start len s in
  let pe := Z.min ((start + len + PMM_PAGE_SIZE - 1) / PMM_PAGE_SIZE) (pmm_total_pages s) in
  wf s' /\ pmm_total_pages s' = pmm_total_pages s /\
  forall q, 0 <= q -> bitmap_test q (pmm_bitmap s') =
    ((start / PMM_PAGE_SIZE <=? q) && (q <? pe)) || bitmap_test q (pmm_bitmap s).
Proof.
  intros Hwf Hs Hl Ho. unfold pmm_reserve_range. rewrite u64_small by (unfold PMM_PAGE_SIZE in *; lia).
  cbv zeta. set (pe := Z.min _ _). set (ps := start / PMM_PAGE_SIZE).
  assert (0 <= ps) by (apply Z.div_pos; unfold PMM_PAGE_SIZE; lia).
  destruct (Z.le_gt_cases ps pe).
  - apply reserve_range_loop; [done | lia | unfold pe; lia].
  - rewrite for_range_nil by lia. split; [done|]. split; [done|].
    intros q ?. by replace ((ps <=? q) && (q <? pe)) with false by lia.
Qed.

(** Taking a run of free pages. *)
Lemma take_loop_spec (T : nat) bm i n : zlen bm = PMM_BITMAP_SIZE ->
  0 <= i -> 0 <= n -> i + n <= Z.of_nat T -> Z.of_nat T <= PMM_BITMAP_SIZE * 8 ->
  (forall j, 0 <= j < n -> bitmap_test (i + j) bm = false) ->
  let bm' := for_range 0 n (fun j bm => bitmap_set (i + j) bm) bm in
  zlen bm' = PMM_BITMAP_SIZE /\ count_clear T bm' = count_clear T bm - n /\
  forall q, 0 <= q -> bitmap_test q bm' = ((i <=? q) && (q <? i + n)) || bitmap_test q bm.
Proof.
  intros Hl Hi Hn HT HB Hfree. cbv zeta.
  apply (for_range_ind (fun k bm' => zlen bm' = PMM_BITMAP_SIZE /\
    count_clear T bm' = count_clear T bm - k /\
    forall q, 0 <= q -> bitmap_test q bm' = ((i <=? q) && (q <? i + k)) || bitmap_test q bm));
    [lia | |].
  - split; [done|]. split; [lia|]. intros q ?.
    by replace ((i <=? q) && (q <? i + 0)) with false by lia.
  - intros k bm' Hk (Hl' & Hc & Hb). split; [by rewrite zlen_bitmap_set|]. split.
    + rewrite (count_clear_flip T bm' _ (i + k) false); [lia | lia | | |].
      * intros. rewrite bitmap_test_set by lia. by replace (q =? i + k) with false by lia.
      * rewrite Hb, Hfree by lia. lia.
      * rewrite bitmap_test_set by lia. by rewrite Z.eqb_refl.
    + intros q Hq. rewrite bitmap_test_set, Hb by lia. rewrite orb_assoc. f_equal. lia.
Qed.

Lemma take_pages_spec s i n : wf s -> 0 <= i -> 0 <= n -> i + n <= pmm_total_pages s ->
  (forall j, 0 <= j < n -> bitmap_test (i + j) (pmm_bitmap s) = false) ->
  let s' := take_pages i n s in
  wf s' /\ pmm_total_pages s' = pmm_total_pages s /\
  forall q, 0 <= q -> bitmap_test q (pmm_bitmap s') =
    ((i <=? q) && (q <? i + n)) || bitmap_test q (pmm_bitmap s).
Proof.
  intros Hwf Hi Hn Ht Hfree. pose proof Hwf as [].
  destruct (take_loop_spec (Z.to_nat (pmm_total_pages s)) (pmm_bitmap s) i n)
    as (Hl & Hc & Hb); try done; try lia.
  cbv zeta. split; [|done]. constructor; simpl; [done | done | |].
  - intros q Hq. rewrite Hb, wf_beyond0 by lia. apply orb_true_r.
  - unfold free_pages in *; simpl. rewrite Hc, wf_free0.
    pose proof (count_clear_range (Z.to_nat (pmm_total_pages s)) (pmm_bitmap s)).
    pose proof (count_clear_range (Z.to_nat (pmm_total_pages s))
      (for_range 0 n (fun j bm => bitmap_set (i + j) bm) (pmm_bitmap s))).
    pose proof bitmap_bits. apply u64_small. lia.
Qed.

(** [pmm_alloc_page] takes the lowest free page, or fails leaving the state. *)
Lemma pmm_alloc_page_cases s : wf s ->
  (exists p, 0 <= p < pmm_total_pages s /\ bitmap_test p (pmm_bitmap s) = false /\
     (forall q, 0 <= q < p -> bitmap_test q (pmm_bitmap s) = true) /\
     pmm_alloc_page s = (p * PMM_PAGE_SIZE, take_pages p 1 s)) \/
  ((forall q, 0 <= q < pmm_total_pages s -> bitmap_test q (pmm_bitmap s) = true) /\
   pmm_alloc_page s = (0, s)).
Proof.
  intros Hwf. unfold pmm_alloc_page.
  pose proof (until_find (fun i => bitmap_test i (pmm_bitmap s)) 0 (pmm_total_pages s)) as H.
  destruct (until_range _ _ _ _) as [|p]; [by right | left]. exists p.
  destruct H as (? & ? & ?). split; [lia|]. split; [done|]. split; [auto with lia|].
  unfold take_pages, for_range; simpl. by rewrite Z.add_0_r.
Qed.

(** The window scan of [pmm_alloc_pages]. *)
Lemma window_used_spec i count bm :
  match window_used i count bm with
  | inr j => 0 <= j < count /\ bitmap_test (u64 (i + j)) bm = true /\
             forall k, 0 <= k < j -> bitmap_test (u64 (i + k)) bm = false
  | inl _ => forall k, 0 <= k < count -> bitmap_test (u64 (i + k)) bm = false
  end.
Proof.
  unfold window_used.
  pose proof (until_find (fun j => negb (bitmap_test (u64 (i + j)) bm)) 0 count) as H.
  assert (forall (f : Z -> bool) n,
    until_range 0 n (fun j (_ : unit) => if f j then inr j else inl tt) tt =
    until_range 0 n (fun j (_ : unit) => if negb (f j) then inl tt else inr j) tt) as Hn.
  { intros f n. unfold until_range. generalize (Z.to_nat (n - 0)). intros m.
    generalize 0. induction m as [|m IH]; intros z; [done|]. simpl.
    destruct (f z); simpl; [done | apply IH]. }
  rewrite Hn. destruct (until_range _ _ _ _) as [|j].
  - intros k Hk. specialize (H k Hk). by apply negb_true_iff in H.
  - destruct H as (? & Hj & Hk). split; [done|]. apply negb_false_iff in Hj. split; [done|].
    intros k Hlt. specialize (Hk k Hlt). by apply negb_true_iff in Hk.
Qed.

Lemma u64_page s q : wf s -> 0 <= q <= 2 * pmm_total_pages s -> u64 q = q.
Proof. intros [] ?. pose proof bitmap_bits. apply u64_small. lia. Qed.

(** The loop of [pmm_alloc_pages] for a request that fits: fuel for the windows
    that remain is enough, and the result is the lowest free run. *)
Lemma alloc_pages_loop_spec s count : wf s -> 0 < count <= pmm_total_pages s ->
  forall fuel i, 0 <= i -> Z.max 0 (pmm_total_pages s - count + 1 - i) < Z.of_nat fuel ->
  (exists k, i <= k <= pmm_total_pages s - count /\
     (forall j, 0 <= j < count -> bitmap_test (k + j) (pmm_bitmap s) = false) /\
     (forall k', i <= k' < k -> exists j, 0 <= j < count /\ bitmap_test (k' + j) (pmm_bitmap s) = true) /\
     alloc_pages_loop fuel i count s = Some (k * PMM_PAGE_SIZE, take_pages k count s)) \/
  ((forall k', i <= k' <= pmm_total_pages s - count ->
      exists j, 0 <= j < count /\ bitmap_test (k' + j) (pmm_bitmap s) = true) /\
   alloc_pages_loop fuel i count s = Some (0, s)).
Proof.
  intros Hwf Hc fuel. induction fuel as [|fuel IH]; intros i Hi Hf.
  { lia. }
  simpl. rewrite (u64_page s (_ - count)) by (done || lia).
  destruct (Z.leb_spec i (pmm_total_pages s - count)); [|right; split; [lia | done]].
  pose proof (window_used_spec i count (pmm_bitmap s)) as Hw.
  destruct (window_used i count (pmm_bitmap s)) as [|j].
  { left. exists i. split; [lia|]. split; [|split; [lia | done]].
    intros j Hj. rewrite <- (u64_page s (i + j)) by (done || lia). by apply Hw. }
  destruct Hw as (Hj & Hu & _). rewrite (u64_page s (i + j)) in Hu by (done || lia).
  rewrite (u64_page s (i + j + 1)) by (done || lia).
  assert (forall k', i <= k' < i + j + 1 -> exists j0, 0 <= j0 < count /\
            bitmap_test (k' + j0) (pmm_bitmap s) = true) as Hskip.
  { intros k' Hk'. exists (i + j - k'). split; [lia|].
    by replace (k' + (i + j - k')) with (i + j) by lia. }
  destruct (IH (i + j + 1) ltac:(lia) ltac:(lia)) as [(k & Hk & Hfree & Hmin & E)|(Hnone & E)].
  - left. exists k. split; [lia|]. split; [done|]. split; [|done].
    intros k' Hk'. destruct (Z.lt_ge_cases k' (i + j + 1)); [apply Hskip | apply Hmin]; lia.
  - right. split; [|done].
    intros k' Hk'. destruct (Z.lt_ge_cases k' (i + j + 1)); [apply Hskip | apply Hnone]; lia.
Qed.
End operations.

#[export] Hint Resolve reserve_page_wf release_page_wf : capy.

(** ** Initialisation *)
Section initialisation.
Implicit Types (s : pmm) (r : pmm_region) (rs : list pmm_region).

(** A region of the memory map that the address arithmetic of [pmm_init] reads
    without wrapping. *)
Definition region_ok r : Prop :=
  0 <= rg_base r /\ 0 <= rg_length r /\ rg_base r + rg_length r + PMM_PAGE_SIZE <= 2 ^ 64.

(** Page [q] lies wholly inside the usable region [r]. *)
Definition in_region (q : Z) r : bool :=
  (rg_type r =? 1) && (rg_base r <=? q * PMM_PAGE_SIZE) &&
  ((q + 1) * PMM_PAGE_SIZE <=? rg_base r + rg_length r).

Definition covered rs (q : Z) : bool := existsb (in_region q) rs.

(** No page is offered by two usable regions. *)
Fixpoint disjoint_regions rs : Prop :=
  match rs with
  | [] => True
  | r :: rs' => (forall q, in_region q r = true -> covered rs' q = false) /\ disjoint_regions rs'
  end.

Lemma page_align_down_spec a : 0 <= a < 2 ^ 64 ->
  page_align_down a = a / PMM_PAGE_SIZE * PMM_PAGE_SIZE.
Proof.
  intros Ha. unfold page_align_down, PMM_PAGE_SIZE.
  change (a / 4096 * 4096) with (a / 2 ^ 12 * 2 ^ 12).
  rewrite <- (Z.shiftr_div_pow2 a 12), <- (Z.shiftl_mul_pow2 _ 12) by lia.
  apply Z.bits_inj'. intros m Hm. rewrite Z.land_spec.
  destruct (Z.lt_ge_cases m 64).
  - unfold u64. rewrite Z.mod_pow2_bits_low, Z.lnot_spec by lia.
    change (4096 - 1) with (Z.ones 12).
    destruct (Z.lt_ge_cases m 12).
    + rewrite Z.ones_spec_low, Z.shiftl_spec_low by lia. apply andb_false_r.
    + rewrite Z.ones_spec_high, Z.shiftl_spec, Z.shiftr_spec by lia.
      rewrite andb_true_r. f_equal. lia.
  - replace a with (a `mod` 2 ^ 64) at 1 by (apply Z.mod_small; lia).
    rewrite Z.mod_pow2_bits_high by lia.
    rewrite Z.shiftl_spec, Z.shiftr_spec by lia.
    replace a with (a `mod` 2 ^ 64) by (apply Z.mod_small; lia).
    rewrite Z.mod_pow2_bits_high by lia. done.
Qed.

(** The page range the region loop walks is the set of pages inside the region. *)
Lemma in_region_range q r : region_ok r -> 0 <= q -> rg_type r = 1 ->
  in_region q r =
  (page_align_down (u64 (rg_base r + PMM_PAGE_SIZE - 1)) / PMM_PAGE_SIZE <=? q) &&
  (q <? page_align_down (u64 (rg_base r + rg_length r)) / PMM_PAGE_SIZE).
Proof.
  intros (Hb & Hl & Ho) Hq Ht. unfold in_region. rewrite Ht, Z.eqb_refl. simpl.
  unfold PMM_PAGE_SIZE in *. rewrite !u64_small by lia.
  rewrite !page_align_down_spec by lia. unfold PMM_PAGE_SIZE.
  rewrite !Z.div_mul by lia.
  pose proof (Z.div_mod (rg_base r + 4096 - 1) 4096 ltac:(lia)).
  pose proof (Z.mod_pos_bound (rg_base r + 4096 - 1) 4096 ltac:(lia)).
  pose proof (Z.div_mod (rg_base r + rg_length r) 4096 ltac:(lia)).
  pose proof (Z.mod_pos_bound (rg_base r + rg_length r) 4096 ltac:(lia)).
  f_equal; lia.
Qed.

(** Marking one region free, when none of its pages is free yet. *)
Lemma free_region_spec s r : wf s -> region_ok r ->
  (forall q, 0 <= q -> in_region q r = true -> bitmap_test q (pmm_bitmap s) = true) ->
  let s' := free_region s r in
  wf s' /\ pmm_total_pages s' = pmm_total_pages s /\
  forall q, 0 <= q -> bitmap_test q (pmm_bitmap s') =
    bitmap_test q (pmm_bitmap s) && negb (in_region q r && (q <? pmm_total_pages s)).
Proof.
  intros Hwf Hr Hset. cbv zeta. unfold free_region.
  destruct (Z.eqb_spec (rg_type r) 1) as [Ht|Ht]; simpl.
  2: { split; [done|]. split; [done|]. intros q ?. unfold in_region.
       replace (rg_type r =? 1) with false by lia. simpl. by rewrite andb_true_r. }
  assert (Hin : forall q, 0 <= q -> in_region q r = _) by (intros; by apply in_region_range).
  set (lo := page_align_down (u64 (rg_base r + PMM_PAGE_SIZE - 1)) / PMM_PAGE_SIZE) in *.
  set (hi := page_align_down (u64 (rg_base r + rg_length r)) / PMM_PAGE_SIZE) in *.
  assert (Hlo : 0 <= lo).
  { apply Z.div_pos; [|unfold PMM_PAGE_SIZE; lia]. rewrite page_align_down_spec by apply u64_range.
    pose proof (u64_range (rg_base r + PMM_PAGE_SIZE - 1)). unfold PMM_PAGE_SIZE in *.
    apply Z.mul_nonneg_nonneg; [apply Z.div_pos; lia | lia]. }
  clearbody lo hi. destruct (Z.le_gt_cases lo hi).
  2: { rewrite for_range_nil by lia. split; [done|]. split; [done|]. intros q ?.
       rewrite Hin by done. replace ((lo <=? q) && (q <? hi)) with false by lia.
       simpl. by rewrite andb_true_r. }
  match goal with |- wf (for_range lo hi ?f s) /\ _ => set (body := f) end.
  set (P := fun i t => wf t /\ pmm_total_pages t = pmm_total_pages s /\
    forall q, 0 <= q -> bitmap_test q (pmm_bitmap t) =
      bitmap_test q (pmm_bitmap s) &&
      negb ((lo <=? q) && (q <? i) && (q <? pmm_total_pages s))).
  enough (P hi (for_range lo hi body s)) as (? & ? & Hb).
  { split; [done|]. split; [done|]. intros q Hq. rewrite Hb, Hin by done. done. }
  apply for_range_ind; [done | |]; unfold P, body; clear P body.
  - split; [done|]. split; [done|]. intros q ?.
    replace ((lo <=? q) && (q <? lo)) with false by lia. simpl. by rewrite andb_true_r.
  - intros i t Hi (Hw & Htt & Hb). destruct (Z.ltb_spec i (pmm_total_pages t)) as [Hlt|Hge].
    2: { split; [done|]. split; [done|]. intros q Hq. rewrite Hb by done.
         do 2 f_equal. destruct (Z.ltb_spec q (pmm_total_pages s)); rewrite ?andb_false_r, ?andb_true_r; lia. }
    assert (Hti : bitmap_test i (pmm_bitmap t) = true).
    { rewrite Hb, Hset by (try rewrite Hin; lia). lia. }
    pose proof (release_page_wf t i Hw ltac:(lia)) as Hw'.
    unfold release_page in Hw'. rewrite Hti in Hw'.
    split; [|split; [done|]].
    + destruct Hw'. by constructor.
    + intros q Hq. pose proof Hw as [].
      simpl. rewrite bitmap_test_clear, Hb by lia.
      destruct (Z.eqb_spec q i) as [->|]; simpl.
      * replace (i <? i + 1) with true by lia. replace (lo <=? i) with true by lia.
        replace (i <? pmm_total_pages s) with true by lia. simpl. by rewrite andb_false_r.
      * do 2 f_equal. lia.
Qed.

Lemma free_regions_spec rs s : wf s -> Forall region_ok rs -> disjoint_regions rs ->
  (forall q, 0 <= q -> covered rs q = true -> bitmap_test q (pmm_bitmap s) = true) ->
  let s' := fold_left free_region rs s in
  wf s' /\ pmm_total_pages s' = pmm_total_pages s /\
  forall q, 0 <= q -> bitmap_test q (pmm_bitmap s') =
    bitmap_test q (pmm_bitmap s) && negb (covered rs q && (q <? pmm_total_pages s)).
Proof.
  revert s. induction rs as [|r rs IH]; intros s Hwf Hok Hd Hset; cbv zeta; simpl.
  { split; [done|]. split; [done|]. intros. by rewrite andb_true_r. }
  apply Forall_cons in Hok as [Hr Hok]. destruct Hd as [Hd1 Hd2].
  destruct (free_region_spec s r Hwf Hr) as (Hw & Ht & Hb).
  { intros q Hq Hi. apply Hset; [done|]. unfold covered. simpl. by rewrite Hi. }
  destruct (IH (free_region s r) Hw Hok Hd2) as (Hw' & Ht' & Hb').
  { intros q Hq Hc. rewrite Hb by done. apply andb_true_iff. split.
    - apply Hset; [done|]. unfold covered. simpl. apply orb_true_iff. by right.
    - destruct (in_region q r) eqn:E; [|done]. rewrite Hd1 in Hc; done. }
  split; [done|]. split; [congruence|]. intros q Hq.
  rewrite Hb', Hb, Ht by done. unfold covered. simpl.
  rewrite <- andb_assoc. f_equal.
  destruct (in_region q r), (existsb _ rs), (q <? pmm_total_pages s); done.
Qed.

(** The firmware pass keeps exactly the writable frames. *)
Lemma reserve_firmware_spec (writable : Z -> bool) s : wf s ->
  let s' := pmm_reserve_firmware_readonly writable s in
  wf s' /\ pmm_total_pages s' = pmm_total_pages s /\
  forall q, 0 <= q -> bitmap_test q (pmm_bitmap s') =
    bitmap_test q (pmm_bitmap s) || negb (writable (q * PMM_PAGE_SIZE)) && (q <? pmm_total_pages s).
Proof.
  intros Hwf. cbv zeta. unfold pmm_reserve_firmware_readonly.
  pose proof (wf_total _ Hwf).
  assert (0 <= pmm_total_pages s) as H0 by lia.
  apply (for_range_ind (fun i t => wf t /\ pmm_total_pages t = pmm_total_pages s /\
    forall q, 0 <= q -> bitmap_test q (pmm_bitmap t) =
      bitmap_test q (pmm_bitmap s) || negb (writable (q * PMM_PAGE_SIZE)) && (q <? i))
    0 (pmm_total_pages s)); [done | |].
  { split; [done|]. split; [done|]. intros q ?. replace (q <? 0) with false by lia.
    by rewrite andb_false_r, orb_false_r. }
  intros i t Hi (Hw & Ht & Hb).
  assert (Hstep : forall q, q <> i -> (q <? i + 1) = (q <? i)) by (intros; lia).
  destruct (bitmap_test i (pmm_bitmap t)) eqn:Eb.
  { split; [done|]. split; [done|]. intros q Hq. destruct (Z.eq_dec q i) as [->|].
    - rewrite Eb. rewrite Hb in Eb by done. replace (i <? i) with false in Eb by lia.
      rewrite andb_false_r, orb_false_r in Eb. by rewrite Eb.
    - by rewrite Hstep, Hb. }
  destruct (writable (i * PMM_PAGE_SIZE)) eqn:Ew.
  { split; [done|]. split; [done|]. intros q Hq. destruct (Z.eq_dec q i) as [->|].
    - rewrite Hb, Ew by done. done.
    - by rewrite Hstep, Hb. }
  pose proof (reserve_page_wf t i Hw ltac:(lia) Eb) as [].
  split; [by constructor|]. split; [done|]. intros q Hq.
  pose proof (reserve_page_test t i q Hw ltac:(lia) Hq) as Er. simpl in *.
  rewrite Er. destruct (Z.eqb_spec q i) as [->|]; simpl.
  - rewrite Ew. replace (i <? i + 1) with true by lia. simpl. by rewrite orb_true_r.
  - by rewrite Hstep, Hb.
Qed.

Lemma count_clear_full n : count_clear n (zrep PMM_BITMAP_SIZE 0xFF) = 0.
Proof.
  induction n as [|n IH]; [done|]. simpl. rewrite IH.
  destruct (bitmap_test (Z.of_nat n) _) eqn:E; [done|].
  destruct (Z.le_gt_cases PMM_BITMAP_SIZE (Z.of_nat n / 8)).
  - unfold bitmap_test in E. by replace (PMM_BITMAP_SIZE <=? Z.of_nat n / 8) with true in E by lia.
  - pose proof (Z.div_pos (Z.of_nat n) 8 ltac:(lia) ltac:(lia)).
    rewrite bitmap_test_bit, aget_rep in E by lia.
    pose proof (page_bit_range (Z.of_nat n)). change 255 with (Z.ones 8) in E.
    rewrite Z.ones_spec_low in E by lia. done.
Qed.

Lemma bitmap_full q : 0 <= q -> bitmap_test q (zrep PMM_BITMAP_SIZE 0xFF) = true.
Proof.
  intros Hq. pose proof (count_clear_full (S (Z.to_nat q))) as H.
  change (count_clear (S (Z.to_nat q)) (zrep PMM_BITMAP_SIZE 255))
    with (count_clear (Z.to_nat q) (zrep PMM_BITMAP_SIZE 255) +
          (if bitmap_test (Z.of_nat (Z.to_nat q)) (zrep PMM_BITMAP_SIZE 255) then 0 else 1)) in H.
  rewrite count_clear_full, Z2Nat.id in H by lia. by destr_if.
Qed.

Lemma scan_regions_max rs m b : 0 <= m -> 
  0 <= (fold_left (fun '(max_addr, base) r =>
    let e := u64 (rg_base r + rg_length r) in
    (if max_addr <? e then e else max_addr,
     if (base =? 0) || (rg_base r <? base) then rg_base r else base)) rs (m, b)).1.
Proof.
  revert m b. induction rs as [|r rs IH]; intros m b Hm; simpl; [done|].
  apply IH. pose proof (u64_range (rg_base r + rg_length r)). destr_if; lia.
Qed.
End initialisation.

(** ** Properties *)
Section properties.
Implicit Types (s : pmm) (rs : list pmm_region).
Import Refcount.

Lemma pmm_init_spec (writable : Z -> bool) fw rs : Forall region_ok rs -> disjoint_regions rs ->
  let s := pmm_init writable fw rs in
  wf s /\ forall q, 0 <= q -> bitmap_test q (pmm_bitmap s) =
    negb (covered rs q && (q <? pmm_total_pages s) && (257 <=? q) && writable (q * PMM_PAGE_SIZE)).
Proof.
  intros Hok Hd. cbv zeta. unfold pmm_init.
  destruct (scan_regions rs) as [max_addr base] eqn:Es.
  assert (0 <= max_addr).
  { change max_addr with (max_addr, base).1. rewrite <- Es. by apply scan_regions_max. }
  set (total := if PMM_BITMAP_SIZE * 8 <? max_addr / PMM_PAGE_SIZE then PMM_BITMAP_SIZE * 8
                else max_addr / PMM_PAGE_SIZE).
  assert (0 <= total <= PMM_BITMAP_SIZE * 8).
  { pose proof (Z.div_pos max_addr PMM_PAGE_SIZE). pose proof bitmap_bits.
    unfold total, PMM_PAGE_SIZE in *. destr_if; lia. }
  set (s0 := mkPmm (zrep PMM_BITMAP_SIZE 0xFF) total 0 0 0 base fw.1 fw.2).
  assert (Hw0 : wf s0).
  { constructor; simpl; [by apply zlen_rep | done | intros; apply bitmap_full; lia |].
    unfold free_pages. by rewrite count_clear_full. }
  destruct (free_regions_spec rs s0 Hw0 Hok Hd) as (Hw1 & Ht1 & Hb1).
  { intros. by apply bitmap_full. }
  set (s1 := fold_left free_region rs s0) in *.
  destruct (pmm_reserve_range_spec s1 0 PMM_PAGE_SIZE Hw1) as (Hw2 & Ht2 & Hb2);
    [unfold PMM_PAGE_SIZE; lia..|].
  set (s2 := pmm_reserve_range 0 PMM_PAGE_SIZE s1) in *.
  destruct (pmm_reserve_range_spec s2 PMM_PAGE_SIZE (PMM_PAGE_SIZE * 256) Hw2) as (Hw3 & Ht3 & Hb3);
    [unfold PMM_PAGE_SIZE; lia..|].
  set (s3 := pmm_reserve_range PMM_PAGE_SIZE (PMM_PAGE_SIZE * 256) s2) in *.
  destruct (reserve_firmware_spec writable s3 Hw3) as (Hw4 & Ht4 & Hb4).
  split; [done|]. intros q Hq. rewrite Ht4, Hb4, Hb3, Hb2, Hb1 by done.
  rewrite Ht3, Ht2, Ht1. simpl. rewrite bitmap_full by done. simpl.
  change ((PMM_PAGE_SIZE + PMM_PAGE_SIZE * 256 + PMM_PAGE_SIZE - 1) / PMM_PAGE_SIZE) with 257.
  change ((0 + PMM_PAGE_SIZE + PMM_PAGE_SIZE - 1) / PMM_PAGE_SIZE) with 1.
  change (PMM_PAGE_SIZE / PMM_PAGE_SIZE) with 1. change (0 / PMM_PAGE_SIZE) with 0.
  destruct (covered rs q), (writable (q * PMM_PAGE_SIZE)); simpl; lia.
Qed.

(** Which frames [pmm_init] makes allocatable: exactly the frames lying
    wholly inside a usable region of the memory map, below the bitmap limit,
    above the first 257 reserved frames, and writable in the kernel identity
    map.  In particular no firmware read-only frame is ever handed out. *)
Theorem pmm_init_allocatable (writable : Z -> bool) fw rs q :
  Forall region_ok rs -> disjoint_regions rs -> 0 <= q ->
  pmm_is_free (q * PMM_PAGE_SIZE) (pmm_init writable fw rs) = true <->
  covered rs q = true /\ q < pmm_total_pages (pmm_init writable fw rs) /\ 257 <= q /\
  writable (q * PMM_PAGE_SIZE) = true.
Proof.
  intros Hok Hd Hq. destruct (pmm_init_spec writable fw rs Hok Hd) as [_ Hb].
  unfold pmm_is_free. rewrite Z.div_mul by done. rewrite Hb, negb_involutive by done.
  destr_if; bools; [split; [done | lia]|].
  rewrite !andb_true_iff, Z.leb_le, Z.ltb_lt. tauto.
Qed.

Lemma pmm_init_allocatable_witness :
  pmm_is_free (257 * PMM_PAGE_SIZE)
    (pmm_init (fun _ => true) (0, 0) [mkRegion 0x100000 0x10000 1]) = true.
Proof.
  apply pmm_init_allocatable.
  - repeat constructor; simpl; unfold PMM_PAGE_SIZE; lia.
  - simpl. split; [done | exact I].
  - lia.
  - vm_compute. intuition congruence.
Defined.

(** [pmm_alloc_page] on a well-formed state: either some frame was free and
    it returns the address of the lowest one, marks exactly that frame used and
    keeps the free counter equal to the number of free frames; or no frame was
    free and it returns 0 with the state unchanged. *)
Theorem pmm_alloc_page_correct s : wf s ->
  let '(a, s') := pmm_alloc_page s in
  (exists p, a = p * PMM_PAGE_SIZE /\ 0 <= p < pmm_total_pages s /\
     bitmap_test p (pmm_bitmap s) = false /\
     (forall q, 0 <= q < p -> bitmap_test q (pmm_bitmap s) = true) /\
     (forall q, 0 <= q -> bitmap_test q (pmm_bitmap s') = (q =? p) || bitmap_test q (pmm_bitmap s)) /\
     pmm_free_count s' = pmm_free_count s - 1 /\ wf s') \/
  (free_pages s = 0 /\ a = 0 /\ s' = s).
Proof.
  intros Hwf. destruct (pmm_alloc_page_cases s Hwf) as [(p & Hp & Hf & Hmin & ->)|[Hfull ->]].
  - left. exists p. destruct (take_pages_spec s p 1 Hwf) as (Hw & Ht & Hb); try lia.
    { intros j Hj. by replace (p + j) with p by lia. }
    splits; try done; try lia.
    + intros q Hq. rewrite Hb by done. f_equal. lia.
    + pose proof (free_pages_pos s p Hp Hf). destruct Hwf. simpl. rewrite wf_free0.
      pose proof (free_pages_range s ltac:(lia)). pose proof bitmap_bits.
      apply u64_small. lia.
  - right. split; [|done]. unfold free_pages.
    assert (forall n, Z.of_nat n <= pmm_total_pages s -> count_clear n (pmm_bitmap s) = 0) as H.
    { induction n as [|n IH]; intros Hn; [done|]. simpl. rewrite IH, Hfull by lia. done. }
    apply H. destruct Hwf. lia.
Qed.

Definition demo_map : list pmm_region := [mkRegion 0x100000 0x10000 1].
Local Notation demo_pmm := (pmm_init (fun _ => true) (0, 0) demo_map).

Lemma demo_map_ok : Forall region_ok demo_map /\ disjoint_regions demo_map.
Proof.
  split; [repeat constructor; simpl; unfold PMM_PAGE_SIZE; lia | simpl; done].
Qed.

Lemma demo_pmm_wf : wf demo_pmm.
Proof. apply pmm_init_spec; apply demo_map_ok. Qed.

Lemma pmm_alloc_page_correct_witness :
  wf demo_pmm /\ exists p, (pmm_alloc_page demo_pmm).1 = p * PMM_PAGE_SIZE /\
    bitmap_test p (pmm_bitmap demo_pmm) = false.
Proof.
  split; [exact demo_pmm_wf|].
  pose proof (pmm_alloc_page_correct demo_pmm demo_pmm_wf) as H.
  destruct (pmm_alloc_page demo_pmm) as [a s'].
  destruct H as [(p & ? & _ & ? & _)|(H0 & _)]; [by exists p|].
  vm_compute in H0. discriminate.
Defined.

(** [pmm_alloc_pages] for a request that fits the managed memory: a number of
    loop iterations bounded by the page count suffices, and the result is the
    lowest run of [n] free frames, all marked used, or 0 with the state unchanged
    when no such run exists. *)
Theorem pmm_alloc_pages_correct s n fuel : wf s -> 0 < n <= pmm_total_pages s ->
  pmm_total_pages s + 1 < Z.of_nat fuel ->
  (exists p s', pmm_alloc_pages fuel n s = Some (p * PMM_PAGE_SIZE, s') /\
     0 <= p /\ p + n <= pmm_total_pages s /\
     (forall q, p <= q < p + n -> bitmap_test q (pmm_bitmap s) = false) /\
     (forall q, 0 <= q -> bitmap_test q (pmm_bitmap s') =
        ((p <=? q) && (q <? p + n)) || bitmap_test q (pmm_bitmap s)) /\ wf s' /\
     forall p', 0 <= p' < p -> exists q, p' <= q < p' + n /\ bitmap_test q (pmm_bitmap s) = true) \/
  (pmm_alloc_pages fuel n s = Some (0, s) /\
   forall p, 0 <= p <= pmm_total_pages s - n ->
     exists q, p <= q < p + n /\ bitmap_test q (pmm_bitmap s) = true).
Proof.
  intros Hwf Hn Hf. unfold pmm_alloc_pages. replace (n =? 0) with false by lia.
  assert (forall k, (exists j, 0 <= j < n /\ bitmap_test (k + j) (pmm_bitmap s) = true) ->
            exists q, k <= q < k + n /\ bitmap_test q (pmm_bitmap s) = true) as Hsh.
  { intros k (j & ? & ?). exists (k + j). split; [lia | done]. }
  destruct (alloc_pages_loop_spec s n Hwf Hn fuel 0) as [(p & Hp & Hfree & Hmin & E)|(Hnone & E)];
    [lia | lia | |].
  - left. destruct (take_pages_spec s p n Hwf) as (Hw & Ht & Hb); try lia; try done.
    exists p, (take_pages p n s). splits; try done; try lia.
    + intros q Hq. replace q with (p + (q - p)) by lia. apply Hfree. lia.
    + intros p' Hp'. by apply Hsh, Hmin.
  - right. split; [done|]. intros p Hp. by apply Hsh, Hnone.
Qed.

Lemma pmm_alloc_pages_correct_witness :
  exists p s', pmm_alloc_pages 300 3 demo_pmm = Some (p * PMM_PAGE_SIZE, s') /\ wf s'.
Proof.
  destruct (pmm_alloc_pages_correct demo_pmm 3 300 demo_pmm_wf) as [(p & s' & H)|[H _]].
  - vm_compute. split; [reflexivity | congruence].
  - vm_compute. reflexivity.
  - exists p, s'. tauto.
  - vm_compute in H. discriminate.
Defined.

(** A request for more frames than the machine has never finds a window. *)
Lemma window_oversized s n i : wf s -> pmm_total_pages s < n < 2 ^ 64 -> 0 <= i < 2 ^ 64 ->
  exists j, window_used i n (pmm_bitmap s) = inr j /\ 0 <= j /\
    i + j + 1 <= Z.max (i + 1) (pmm_total_pages s + 1).
Proof.
  intros Hwf Hn Hi. pose proof (window_used_spec i n (pmm_bitmap s)) as H.
  pose proof Hwf as [].
  assert (Hbig : forall q, pmm_total_pages s <= q < 2 ^ 64 -> bitmap_test (u64 q) (pmm_bitmap s) = true).
  { intros q ?. rewrite u64_small by lia. apply wf_beyond0. lia. }
  pose proof bitmap_bits.
  destruct (window_used i n (pmm_bitmap s)) as [|j].
  - exfalso. destruct (Z.le_gt_cases (pmm_total_pages s) i) as [Hge|Hlt].
    + specialize (H 0 ltac:(lia)). rewrite Z.add_0_r, Hbig in H by lia. done.
    + specialize (H (pmm_total_pages s - i) ltac:(lia)).
      replace (i + (pmm_total_pages s - i)) with (pmm_total_pages s) in H by lia.
      rewrite Hbig in H by lia. done.
  - exists j. split; [done|]. destruct H as (Hj & _ & Hmin). split; [lia|].
    destruct (Z.le_gt_cases (i + j + 1) (Z.max (i + 1) (pmm_total_pages s + 1))) as [|Hgt]; [done|].
    exfalso. destruct (Z.le_gt_cases (pmm_total_pages s) i) as [Hge|Hlt].
    + specialize (Hmin 0 ltac:(lia)). rewrite Z.add_0_r, Hbig in Hmin by lia. done.
    + specialize (Hmin (pmm_total_pages s - i) ltac:(lia)).
      replace (i + (pmm_total_pages s - i)) with (pmm_total_pages s) in Hmin by lia.
      rewrite Hbig in Hmin by lia. done.
Qed.

(** Whatever the request and the fuel, a run that is returned was free. *)
Lemma alloc_pages_loop_result s n fuel i a s' : wf s -> 0 < n < 2 ^ 63 -> 0 <= i < 2 ^ 64 ->
  alloc_pages_loop fuel i n s = Some (a, s') ->
  (a = 0 /\ s' = s) \/
  exists k, a = k * PMM_PAGE_SIZE /\ s' = take_pages k n s /\ 0 <= k /\
    k + n <= pmm_total_pages s /\
    forall j, 0 <= j < n -> bitmap_test (k + j) (pmm_bitmap s) = false.
Proof.
  intros Hwf Hn. pose proof (wf_total _ Hwf). pose proof bitmap_bits.
  revert i. induction fuel as [|fuel IH]; intros i Hi E; [done|]. simpl in E.
  destruct (Z.leb_spec i (u64 (pmm_total_pages s - n))) as [Hle|]; [|left; by simplify_eq].
  destruct (Z.lt_ge_cases (pmm_total_pages s) n) as [Hbig|Hfit].
  { destruct (window_oversized s n i Hwf ltac:(lia) ltac:(lia)) as (j & Ew & _).
    rewrite Ew in E. apply IH in E; [done | apply u64_range]. }
  rewrite (u64_page s (_ - n)) in Hle by (done || lia).
  pose proof (window_used_spec i n (pmm_bitmap s)) as Hw.
  destruct (window_used i n (pmm_bitmap s)) as [|j].
  - right. exists i. simplify_eq. splits; try done; try lia.
    intros j Hj. rewrite <- (u64_page s (i + j)) by (done || lia). by apply Hw.
  - apply IH in E; [done | apply u64_range].
Qed.

Lemma alloc_loop_oversized s n fuel i : wf s -> pmm_total_pages s < n < 2 ^ 64 -> 0 <= i ->
  i <= pmm_total_pages s + (2 ^ 64 - n - Z.of_nat fuel) -> 0 <= 2 ^ 64 - n - Z.of_nat fuel ->
  alloc_pages_loop fuel i n s = None.
Proof.
  intros Hwf Hn. revert i. induction fuel as [|fuel IH]; intros i Hi Hb Hf; [done|]. simpl.
  pose proof (wf_total _ Hwf).
  replace (u64 (pmm_total_pages s - n)) with (pmm_total_pages s - n + 2 ^ 64).
  2: { unfold u64. rewrite <- (Z.mod_add (pmm_total_pages s - n) 1) by lia.
       rewrite Z.mod_small by lia. lia. }
  replace (i <=? pmm_total_pages s - n + 2 ^ 64) with true by lia.
  destruct (window_oversized s n i Hwf Hn ltac:(lia)) as (j & -> & Hj0 & Hj).
  pose proof bitmap_bits.
  rewrite u64_small by lia. apply IH; lia.
Qed.

(** The allocator invariant of the state machine with its outstanding frames. *)
Definition alloc_inv (x : pmm * list Z) : Prop :=
  wf x.1 /\ NoDup x.2 /\
  Forall (fun p => 0 < p < pmm_total_pages x.1 /\ bitmap_test p (pmm_bitmap x.1) = true) x.2.

Lemma alloc_inv_take s i n out : alloc_inv (s, out) -> 0 < i -> 0 <= n ->
  i + n <= pmm_total_pages s ->
  (forall j, 0 <= j < n -> bitmap_test (i + j) (pmm_bitmap s) = false) ->
  alloc_inv (take_pages i n s, seqZ i n ++ out).
Proof.
  intros (Hwf & Hnd & Hout) Hi Hn Ht Hfree. simpl in *.
  destruct (take_pages_spec s i n Hwf) as (Hw & Htt & Hb); try done; try lia.
  split; [done|]. simpl. split.
  - apply NoDup_app. split; [apply NoDup_seqZ|]. split; [|done].
    intros p Hp Hin. apply elem_of_seqZ in Hp.
    rewrite Forall_forall in Hout. destruct (Hout p Hin) as [_ Hu].
    specialize (Hfree (p - i) ltac:(lia)). replace (i + (p - i)) with p in Hfree by lia.
    congruence.
  - apply Forall_app. split; apply Forall_forall.
    + intros p Hp. apply elem_of_seqZ in Hp. split; [simpl; lia|].
      rewrite Hb by lia. apply orb_true_iff. left. lia.
    + intros p Hp. rewrite Forall_forall in Hout. destruct (Hout p Hp) as [? Hu].
      split; [simpl; lia|]. rewrite Hb, Hu by lia. apply orb_true_r.
Qed.

Lemma alloc_inv_step x y : alloc_inv x -> pmm_step x y -> alloc_inv y.
Proof.
  intros Hinv Hstep. destruct Hstep as [s s' a out E Ha|s s' out E|fuel s s' a n out Hn E Ha
    |s p out out' Hp|s start len out Hs Hl Ho].
  - pose proof (proj1 Hinv) as Hwf. simpl in Hwf.
    destruct (pmm_alloc_page_cases s Hwf) as [(p & Hp & Hf & _ & E')|[_ E']];
      rewrite E' in E; simplify_eq.
    rewrite Z.div_mul by done.
    apply (alloc_inv_take s p 1 out) in Hinv; [done | unfold PMM_PAGE_SIZE in Ha; lia | lia | lia |].
    intros j ?. by replace (p + j) with p by lia.
  - pose proof (proj1 Hinv) as Hwf. simpl in Hwf.
    destruct (pmm_alloc_page_cases s Hwf) as [(p & Hp & Hf & _ & E')|[_ E']];
      rewrite E' in E; simplify_eq; [|done].
    destruct Hinv as (_ & Hnd & Hout).
    destruct (take_pages_spec s p 1 Hwf) as (Hw & Ht & Hb); try lia.
    { intros j ?. by replace (p + j) with p by lia. }
    split; [done|]. split; [done|]. simpl in *. apply Forall_forall. intros q Hq.
    rewrite Forall_forall in Hout. destruct (Hout q Hq) as [? Hu]. split; [done|].
    rewrite Hb, Hu by lia. apply orb_true_r.
  - pose proof (proj1 Hinv) as Hwf. simpl in Hwf. unfold pmm_alloc_pages in E.
    replace (n =? 0) with false in E by lia.
    destruct (alloc_pages_loop_result s n fuel 0 a s' Hwf ltac:(lia) ltac:(lia) E)
      as [[??]|(i & -> & -> & Hi & Hfit & Hfree)]; [lia|].
    rewrite Z.div_mul by done.
    apply alloc_inv_take; try done; [|lia]. unfold PMM_PAGE_SIZE in Ha. lia.
  - destruct Hinv as (Hwf & Hnd & Hout). simpl in *. rewrite Hp in Hnd, Hout.
    apply NoDup_cons in Hnd as [Hnp Hnd]. apply Forall_cons in Hout as [[Hr Hu] Hout].
    unfold pmm_free_page. rewrite Z.div_mul by done.
    replace (pmm_total_pages s <=? p) with false by lia.
    split; [by apply release_page_wf; [|lia]|]. split; [done|]. simpl.
    apply Forall_forall. intros q Hq. rewrite Forall_forall in Hout.
    destruct (Hout q Hq) as [? Hqu]. rewrite release_page_total. split; [done|].
    rewrite release_page_test, Hqu by (done || lia).
    destruct (Z.eqb_spec q p); [by subst | done].
  - destruct Hinv as (Hwf & Hnd & Hout). simpl in *.
    destruct (pmm_reserve_range_spec s start len Hwf Hs Hl Ho) as (Hw & Ht & Hb).
    split; [done|]. split; [done|]. simpl. rewrite Ht. apply Forall_forall. intros q Hq.
    rewrite Forall_forall in Hout. destruct (Hout q Hq) as [? Hqu]. split; [done|].
    rewrite Hb, Hqu by lia. apply orb_true_r.
Qed.

(** C19. Safety of the frame allocator.  Starting from [pmm_init] on a memory map whose
    regions do not overlap, after any sequence of single-frame allocations, run allocations, frees of outstanding
    frames and reservations: the outstanding frames are pairwise distinct, none
    is frame 0, all are inside managed memory and marked used, and the free
    counter is exactly the number of free frames. *)
Theorem pmm_no_double_allocation (writable : Z -> bool) fw rs s out :
  Forall region_ok rs -> disjoint_regions rs ->
  star pmm_step (pmm_init writable fw rs, []) (s, out) ->
  NoDup out /\
  (forall p, p ∈ out -> 0 < p < pmm_total_pages s /\ pmm_is_free (p * PMM_PAGE_SIZE) s = false) /\
  pmm_free_count s = free_pages s.
Proof.
  intros Hok Hd Hstar.
  assert (alloc_inv (s, out)) as (Hwf & Hnd & Hout).
  { eapply star_invariant; [apply alloc_inv_step | done |].
    split; [by apply pmm_init_spec|]. split; constructor. }
  simpl in *. split; [done|]. split; [|apply Hwf].
  intros p Hp. rewrite Forall_forall in Hout. destruct (Hout p Hp) as [? Hu].
  split; [done|]. unfold pmm_is_free. rewrite Z.div_mul, Hu by done. by destr_if.
Qed.

(** Two allocations from the demonstration map. *)
Definition demo_s1 : pmm := (pmm_alloc_page demo_pmm).2.
Definition demo_s2 : pmm := (pmm_alloc_page demo_s1).2.

Lemma demo_alloc1 : pmm_alloc_page demo_pmm = (257 * PMM_PAGE_SIZE, demo_s1).
Proof. vm_compute. reflexivity. Qed.
Lemma demo_alloc2 : pmm_alloc_page demo_s1 = (258 * PMM_PAGE_SIZE, demo_s2).
Proof. vm_compute. reflexivity. Qed.

Lemma demo_run : star pmm_step (demo_pmm, []) (demo_s2, [258; 257]).
Proof.
  eapply star_step; [apply (step_alloc _ _ _ _ demo_alloc1); unfold PMM_PAGE_SIZE; lia|].
  eapply star_step; [apply (step_alloc _ _ _ _ demo_alloc2); unfold PMM_PAGE_SIZE; lia|].
  rewrite !Z.div_mul by (unfold PMM_PAGE_SIZE; lia). constructor.
Qed.

Lemma pmm_no_double_allocation_witness : NoDup [258; 257].
Proof.
  apply (pmm_no_double_allocation (fun _ => true) (0, 0) demo_map demo_s2 [258; 257]
    (proj1 demo_map_ok) (proj2 demo_map_ok) demo_run).
Defined.

(** An oversized request ([n] larger than the number of managed frames) makes
    the loop bound [pmm_total_pages - count] wrap around: the loop of
    [pmm_alloc_pages] is still running after any number of iterations up to
    2^64 - n, so the call does not return in practice instead of failing. *)
Theorem pmm_alloc_pages_oversized_spins s n fuel : wf s -> pmm_total_pages s < n < 2 ^ 64 ->
  Z.of_nat fuel <= 2 ^ 64 - n -> pmm_alloc_pages fuel n s = None.
Proof.
  intros Hwf Hn Hf. unfold pmm_alloc_pages. pose proof (wf_total _ Hwf).
  replace (n =? 0) with false by lia. apply alloc_loop_oversized; try done; lia.
Qed.

Lemma pmm_alloc_pages_oversized_spins_witness : pmm_alloc_pages 1000 300 demo_pmm = None.
Proof.
  apply pmm_alloc_pages_oversized_spins; [exact demo_pmm_wf | | lia].
  vm_compute. split; reflexivity.
Defined.

(** The free counter is only exact when the memory map has no overlapping
    usable regions: a map that lists the same 16 frames twice makes [pmm_init]
    report more free frames than the bitmap has. *)
Theorem pmm_init_overlap_overcounts :
  let s := pmm_init (fun _ => true) (0, 0)
             [mkRegion 0x200000 0x10000 1; mkRegion 0x200000 0x10000 1] in
  pmm_free_count s = 32 /\ free_pages s = 16.
Proof. vm_compute. done. Qed.

(** Reference counts: [n] shares followed by [k] unshares of one frame leave
    min(65535, c + n) - k (not below zero): the counter saturates and never wraps,
    and no other frame's counter changes. *)
Theorem refcount_share_unshare g a b n k : refcounts_ok g ->
  0 <= a < PMM_REFCOUNT_MAX_PAGES * 4096 -> 0 <= b -> pfn_from_phys a <> pfn_from_phys b ->
  pmm_frame_refcount_get a (share_unshare n k a g) =
    Z.max 0 (Z.min 0xFFFF (pmm_frame_refcount_get a g + Z.of_nat n) - Z.of_nat k) /\
  pmm_frame_refcount_get b (share_unshare n k a g) = pmm_frame_refcount_get b g.
Proof.
  intros Hg Ha Hb Hne. unfold share_unshare.
  assert (Hinc : forall m, let g' := Nat.iter m (pmm_frame_refcount_inc a) g in
    refcounts_ok g' /\
    pmm_frame_refcount_get a g' = Z.min 0xFFFF (pmm_frame_refcount_get a g + Z.of_nat m) /\
    pmm_frame_refcount_get b g' = pmm_frame_refcount_get b g).
  { induction m as [|m (Hok & Ea & Eb)]; cbv zeta; simpl.
    - split; [done|]. split; [|done]. unfold pmm_frame_refcount_get.
      pose proof (entry_range g (pfn_from_phys a) Hg). destr_if; lia.
    - split; [by apply inc_ok|]. rewrite inc_get, Ea by done.
      rewrite (proj1 (other_frame a b _ ltac:(lia) Hb Hne)). split; [lia | done]. }
  specialize (Hinc n). set (g1 := Nat.iter n _ g) in *. destruct Hinc as (Hok & Ea & Eb).
  enough (forall m, let g' := Nat.iter m (fun g => (pmm_frame_refcount_dec a g).2) g1 in
    refcounts_ok g' /\
    pmm_frame_refcount_get a g' = Z.max 0 (pmm_frame_refcount_get a g1 - Z.of_nat m) /\
    pmm_frame_refcount_get b g' = pmm_frame_refcount_get b g1) as Hdec.
  { destruct (Hdec k) as (_ & E1 & E2). rewrite E1, E2, Ea, Eb. done. }
  induction m as [|m (Hok' & Ea' & Eb')]; cbv zeta; simpl.
  - split; [done|]. split; [|done]. unfold pmm_frame_refcount_get.
    pose proof (entry_range g1 (pfn_from_phys a) Hok). destr_if; lia.
  - split; [by apply dec_ok|]. rewrite dec_get, Ea' by done.
    rewrite (proj2 (other_frame a b _ ltac:(lia) Hb Hne)). split; [lia | done].
Qed.

Lemma refcount_share_unshare_witness :
  pmm_frame_refcount_get 8192 (share_unshare 3 1 8192 pmm_frame_refcount_init) =
    Z.max 0 (Z.min 0xFFFF (pmm_frame_refcount_get 8192 pmm_frame_refcount_init + 3) - 1).
Proof.
  apply (refcount_share_unshare pmm_frame_refcount_init 8192 4096 3 1 init_ok);
    unfold PMM_REFCOUNT_MAX_PAGES; [lia | lia | by vm_compute].
Defined.
End properties.
