(* ===== verification/Vmm.v ===== *)
(** * Virtual memory

    Models src/memory/vmm.c, vmm_fault.c, vmm_cow.c, vmm_regions.c, vmm_active.c and
    vmm_mmio.c over the frame allocator of [Pmm].

    Page tables are words of physical memory, [ram], read and written at their
    addresses: the kernel runs with virtual = physical, so a table pointer is the
    physical address and [pml4_virt] is [pml4_phys].  This is what the code sees on the
    kernel's own tables; on an address space that maps a page over the identity map the
    kernel misses the frame of the same address; [VmmActive] models the clearing of new
    frames through the active tables, as the fault handler does it.  CR3 is a field of the
    state; translation caches are not modelled, so the flushes do nothing.
    Address spaces live in a map from pointers; a pointer is not used again, and an access
    through one that was freed has no outcome, [None].  The address space of the kernel is
    [KERNEL].  [heap] holds the outcomes of the coming [kmalloc] calls (an exhausted list
    grants all); [current_as] is the address space of the current process, if there is
    one. *)
From S2P Require Import Prelude Pmm.
Export Refcount.
Local Open Scope capy_scope.

Definition VMM_PAGE_SIZE : Z := 4096.
Definition VMM_PAGE_USER : Z := Z.shiftl 1 2.
Definition VMM_PAGE_PWT : Z := Z.shiftl 1 3.
Definition VMM_PAGE_PCD : Z := Z.shiftl 1 4.
Definition VMM_PAGE_COW : Z := Z.shiftl 1 9.
Definition VMM_PAGE_NX : Z := Z.shiftl 1 63.
Definition VMM_LOW_KERNEL_CLONE_BASE : Z := 0x4000000.
Definition VMM_PARENT_TABLE_FLAG_MASK : Z := u64 (Z.lnot (Z.lor (Z.lor VMM_PTE_PHYS_MASK VMM_PAGE_HUGE) VMM_PAGE_NX)).
Definition VMM_KERNEL_IDMAP_GIB : Z := 16.
Definition VMM_CR3_PHYS_MASK : Z := 0x000FFFFFFFFFF000.
Definition DEVICE_WINDOW_BYTES : Z := 64 * 1024 * 1024.
Definition DEVICE_MAPPING_MAX : Z := 16 * 1024 * 1024.

Record vmm_anon_region := mkAnon { an_start : Z; an_end : Z; an_flags : Z }.
Record vmm_address_space := mkAs { pml4_phys : Z; as_refcount : Z; rss_pages : Z; anon_regions : list vmm_anon_region }.
Record vmm_stats := mkVmStats { kernel_mapped_pages : Z; user_mapped_pages : Z; page_faults : Z; cow_faults : Z }.

Record vm := mkVm { frames : pmm; refcounts : list Z; ram : gmap Z Z; cr3 : Z; spaces : gmap Z vmm_address_space; next_as : Z;
  heap : list bool; current_as : option Z; vmm_global_stats : vmm_stats; kernel_tables_built : bool; device_base : Z; device_used : Z; device_gate : Z }.

Definition KERNEL : Z := 0.

Definition with_frames x s := mkVm x (refcounts s) (ram s) (cr3 s) (spaces s) (next_as s) (heap s) (current_as s) (vmm_global_stats s) (kernel_tables_built s) (device_base s) (device_used s) (device_gate s).
Definition with_refcounts x s := mkVm (frames s) x (ram s) (cr3 s) (spaces s) (next_as s) (heap s) (current_as s) (vmm_global_stats s) (kernel_tables_built s) (device_base s) (device_used s) (device_gate s).
Definition with_ram x s := mkVm (frames s) (refcounts s) x (cr3 s) (spaces s) (next_as s) (heap s) (current_as s) (vmm_global_stats s) (kernel_tables_built s) (device_base s) (device_used s) (device_gate s).
Definition with_cr3 x s := mkVm (frames s) (refcounts s) (ram s) x (spaces s) (next_as s) (heap s) (current_as s) (vmm_global_stats s) (kernel_tables_built s) (device_base s) (device_used s) (device_gate s).
Definition with_spaces x s := mkVm (frames s) (refcounts s) (ram s) (cr3 s) x (next_as s) (heap s) (current_as s) (vmm_global_stats s) (kernel_tables_built s) (device_base s) (device_used s) (device_gate s).
Definition with_next_as x s := mkVm (frames s) (refcounts s) (ram s) (cr3 s) (spaces s) x (heap s) (current_as s) (vmm_global_stats s) (kernel_tables_built s) (device_base s) (device_used s) (device_gate s).
Definition with_heap x s := mkVm (frames s) (refcounts s) (ram s) (cr3 s) (spaces s) (next_as s) x (current_as s) (vmm_global_stats s) (kernel_tables_built s) (device_base s) (device_used s) (device_gate s).
Definition with_current x s := mkVm (frames s) (refcounts s) (ram s) (cr3 s) (spaces s) (next_as s) (heap s) x (vmm_global_stats s) (kernel_tables_built s) (device_base s) (device_used s) (device_gate s).
Definition with_stats x s := mkVm (frames s) (refcounts s) (ram s) (cr3 s) (spaces s) (next_as s) (heap s) (current_as s) x (kernel_tables_built s) (device_base s) (device_used s) (device_gate s).
Definition with_built x s := mkVm (frames s) (refcounts s) (ram s) (cr3 s) (spaces s) (next_as s) (heap s) (current_as s) (vmm_global_stats s) x (device_base s) (device_used s) (device_gate s).
Definition with_device (x : Z * Z * Z) s := mkVm (frames s) (refcounts s) (ram s) (cr3 s) (spaces s) (next_as s) (heap s) (current_as s) (vmm_global_stats s) (kernel_tables_built s) x.1.1 x.1.2 x.2.

(** ** Steps *)
Definition VM (A : Type) : Type := vm -> option (A * vm).
Definition ret {A} (a : A) : VM A := fun s => Some (a, s).
Definition bind {A B} (m : VM A) (k : A -> VM B) : VM B := fun s => match m s with Some (a, s) => k a s | None => None end.
#[local] Notation "'let*' x := m 'in' k" := (bind m (fun x => k)) (at level 10, x pattern, k at level 200).

Definition get : VM vm := fun s => Some (s, s).
Definition upd (f : vm -> vm) : VM unit := fun s => Some (tt, f s).

(** [for (i = lo; i < hi; i++)]; a body that returns from the function gives [Some]. *)
Fixpoint loop_n {R} (n : nat) (i : Z) (body : Z -> VM (option R)) : VM (option R) :=
  match n with
  | O => ret None
  | S n => let* r := body i in match r with Some _ => ret r | None => loop_n n (i + 1) body end
  end.
Definition loop {R} (lo hi : Z) (body : Z -> VM (option R)) : VM (option R) := loop_n (Z.to_nat (hi - lo)) lo body.
Fixpoint foreach_n (n : nat) (i : Z) (body : Z -> VM unit) : VM unit :=
  match n with O => ret tt | S n => let* _ := body i in foreach_n n (i + 1) body end.
Definition foreach (lo hi : Z) (body : Z -> VM unit) : VM unit := foreach_n (Z.to_nat (hi - lo)) lo body.

(** Words of physical memory: [slot t i] is [&t[i]]. *)
Definition rd (m : gmap Z Z) (a : Z) : Z := default 0 (m !! a).
Definition slot (t i : Z) : Z := t + 8 * i.
Definition read64 (a : Z) : VM Z := fun s => Some (rd (ram s) a, s).
Definition write64 (a v : Z) : VM unit := upd (fun s => with_ram (<[a := v]> (ram s)) s).
Definition zero_page (p : Z) : VM unit := foreach 0 512 (fun i => write64 (slot p i) 0).
Definition copy_page (dst src : Z) : VM unit := foreach 0 512 (fun i => let* w := read64 (slot src i) in write64 (slot dst i) w).

Definition alloc_page : VM Z := fun s => let '(p, f) := pmm_alloc_page (frames s) in Some (p, with_frames f s).
Definition free_page (p : Z) : VM unit := upd (fun s => with_frames (pmm_free_page p (frames s)) s).
Definition refcount_inc (p : Z) : VM unit := upd (fun s => with_refcounts (pmm_frame_refcount_inc p (refcounts s)) s).
Definition refcount_dec (p : Z) : VM Z := fun s => let '(c, g) := pmm_frame_refcount_dec p (refcounts s) in Some (c, with_refcounts g s).
Definition refcount_get (p : Z) : VM Z := fun s => Some (pmm_frame_refcount_get p (refcounts s), s).

Definition kmalloc : VM bool := fun s => match heap s with [] => Some (true, s) | b :: h => Some (b, with_heap h s) end.
Definition read_as (a : Z) : VM vmm_address_space := fun s => match spaces s !! a with Some x => Some (x, s) | None => None end.
Definition write_as (a : Z) (x : vmm_address_space) : VM unit := fun s =>
  match spaces s !! a with Some _ => Some (tt, with_spaces (<[a := x]> (spaces s)) s) | None => None end.
Definition new_as (x : vmm_address_space) : VM Z := fun s => Some (next_as s, with_next_as (next_as s + 1) (with_spaces (<[next_as s := x]> (spaces s)) s)).
Definition kfree_as (a : Z) : VM unit := fun s => match spaces s !! a with Some _ => Some (tt, with_spaces (delete a (spaces s)) s) | None => None end.

Definition set_rss r x := mkAs (pml4_phys x) (as_refcount x) r (anon_regions x).
Definition set_as_refcount r x := mkAs (pml4_phys x) r (rss_pages x) (anon_regions x).
Definition set_regions l x := mkAs (pml4_phys x) (as_refcount x) (rss_pages x) l.

(** ** Entries *)
Definition present (e : Z) : bool := truthy (Z.land e VMM_PAGE_PRESENT).
Definition writable (e : Z) : bool := truthy (Z.land e VMM_PAGE_WRITE).
Definition user (e : Z) : bool := truthy (Z.land e VMM_PAGE_USER).
Definition huge (e : Z) : bool := truthy (Z.land e VMM_PAGE_HUGE).
Definition cow (e : Z) : bool := truthy (Z.land e VMM_PAGE_COW).
Definition addr_of (e : Z) : Z := Z.land e VMM_PTE_PHYS_MASK.
Definition index (virt shift : Z) : Z := Z.land (Z.shiftr virt shift) 0x1FF.

(** ** Building tables (vmm.c) *)

(** [zero] is the loop that clears a new frame: [zero_page] here, and the stores through
    the active tables in [VmmActive]. *)
Definition get_or_create_table_with (zero : Z -> VM unit) (table idx flags : Z) : VM (option Z) :=
  let* e := read64 (slot table idx) in
  let* ok :=
    if negb (present e) then
      let* phys := alloc_page in
      if phys =? 0 then ret false else
      let* _ := zero phys in
      let* _ := write64 (slot table idx) (Z.lor (Z.lor phys flags) VMM_PAGE_PRESENT) in ret true
    else ret true in
  if negb ok then ret None else
  let* e := read64 (slot table idx) in ret (if addr_of e =? 0 then None else Some (addr_of e)).
Definition get_or_create_table : Z -> Z -> Z -> VM (option Z) := get_or_create_table_with zero_page.

Definition vmm_level_span (level : Z) : Z :=
  if level =? 3 then Z.shiftl 1 30 else if level =? 2 then Z.shiftl 1 21 else VMM_PAGE_SIZE.

(** The entries of a huge leaf, one level down. *)
Definition split_entry (entry level k : Z) : Z :=
  let leaf_flags := Z.ldiff entry (Z.lor VMM_PTE_PHYS_MASK VMM_PAGE_HUGE) in
  let leaf_phys_base := addr_of entry in
  let sub_entry := Z.lor leaf_flags (u64 (leaf_phys_base + u64 (k * vmm_level_span (level - 1)))) in
  if 1 <? level - 1 then Z.lor sub_entry VMM_PAGE_HUGE else sub_entry.

Definition parent_entry (entry child : Z) : Z := Z.lor (Z.lor (Z.land entry VMM_PARENT_TABLE_FLAG_MASK) child) VMM_PAGE_USER.

(** What is undone when a nested call fails. *)
Definition free_children_of (dst i : Z) : VM unit :=
  foreach 0 i (fun j =>
    let* old := read64 (slot dst j) in
    if present old && negb (huge old) && user old then free_page (addr_of old) else ret tt).

Fixpoint clone_table_for_user_as (lvl : nat) (src_phys base_virt : Z) : VM Z :=
  match lvl with
  | O => ret 0
  | S lvl' =>
      let level := Z.of_nat lvl in
      let* dst := alloc_page in
      if dst =? 0 then ret 0 else
      let src := addr_of src_phys in
      let* _ := zero_page dst in
      let* r := loop 0 512 (fun i =>
        let* entry := read64 (slot src i) in
        let entry_base := u64 (base_virt + u64 (i * vmm_level_span level)) in
        if negb (present entry) then ret None else
        if (level =? 1) || huge entry then
          if (entry_base <? VMM_LOW_KERNEL_CLONE_BASE) && (1 <? level) && huge entry then
            let* child := alloc_page in
            if child =? 0 then ret (Some 0) else
            let* _ := foreach 0 512 (fun k => write64 (slot child k) (split_entry entry level k)) in
            let* new_child := clone_table_for_user_as lvl' (Z.lor (Z.lor child VMM_PAGE_PRESENT) VMM_PAGE_WRITE) entry_base in
            let* _ := free_page child in
            if new_child =? 0 then ret (Some 0) else
            let* _ := write64 (slot dst i) (parent_entry entry new_child) in ret None
          else
            let* _ := write64 (slot dst i) entry in ret None
        else
          let* child := clone_table_for_user_as lvl' entry entry_base in
          if child =? 0 then
            let* _ := free_children_of dst i in
            let* _ := free_page dst in ret (Some 0)
          else
            let* _ := write64 (slot dst i) (parent_entry entry child) in ret None) in
      ret (default dst r)
  end.

(** ** Boot (vmm.c, vmm_mmio.c) *)
Definition vmm_prepare_device_window (pml4 : Z) : VM Z :=
  let* s := get in
  if (pml4 =? 0) || negb (device_base s =? 0) then ret (-1) else
  let* slot_found := loop 384 448 (fun i => let* e := read64 (slot pml4 i) in ret (if e =? 0 then Some i else None)) in
  match slot_found with
  | None => ret (-1)
  | Some i =>
      let* physical := alloc_page in
      if physical =? 0 then ret (-1) else
      let* _ := zero_page physical in
      let* _ := write64 (slot pml4 i) (Z.lor (Z.lor physical VMM_PAGE_PRESENT) VMM_PAGE_WRITE) in
      let* _ := upd (fun s => with_device (Z.lor 0xffff000000000000 (Z.shiftl i 39), device_used s, device_gate s) s) in
      ret 0
  end.

Definition vmm_build_kernel_tables : VM Z :=
  let* s := get in
  let fw_pml4 := Z.land (cr3 s) VMM_PTE_PHYS_MASK in
  let* pml4 := alloc_page in
  if pml4 =? 0 then ret 0 else
  let* _ := zero_page pml4 in
  let* _ := foreach 256 512 (fun i => let* e := read64 (slot fw_pml4 i) in write64 (slot pml4 i) e) in
  let* pdpt := alloc_page in
  if pdpt =? 0 then ret 0 else
  let* _ := zero_page pdpt in
  let* _ := write64 (slot pml4 0) (Z.lor (Z.lor pdpt VMM_PAGE_PRESENT) VMM_PAGE_WRITE) in
  let* r := loop 0 VMM_KERNEL_IDMAP_GIB (fun g =>
    let* pd := alloc_page in
    if pd =? 0 then ret (Some 0) else
    let* _ := foreach 0 512 (fun i =>
      let addr := g * Z.shiftl 1 30 + i * Z.shiftl 2 20 in
      write64 (slot pd i) (Z.lor (Z.lor (Z.lor addr VMM_PAGE_PRESENT) VMM_PAGE_WRITE) VMM_PAGE_HUGE)) in
    let* _ := write64 (slot pdpt g) (Z.lor (Z.lor pd VMM_PAGE_PRESENT) VMM_PAGE_WRITE) in ret None) in
  match r with
  | Some _ => ret 0
  | None => let* _ := vmm_prepare_device_window pml4 in ret pml4
  end.

Definition vmm_init : VM unit :=
  let* s := get in
  let* _ :=
    if kernel_tables_built s then ret tt else
    let* new_pml4 := vmm_build_kernel_tables in
    let* k := read_as KERNEL in
    let* _ :=
      if truthy new_pml4 then
        let* _ := upd (with_cr3 new_pml4) in
        write_as KERNEL (mkAs new_pml4 (as_refcount k) (rss_pages k) (anon_regions k))
      else write_as KERNEL (mkAs (Z.ldiff (cr3 s) 0xFFF) (as_refcount k) (rss_pages k) (anon_regions k)) in
    upd (with_built true) in
  let* k := read_as KERNEL in
  let* _ := write_as KERNEL (set_as_refcount 1 k) in
  upd (with_stats (mkVmStats 0 0 0 0)).

(** ** Mapping pages (vmm.c) *)
Definition vmm_map_page_with (zero : Z -> VM unit) (as_ : option Z) (virt phys flags : Z) : VM Z :=
  match as_ with
  | None => ret (-1)
  | Some a =>
      let* x := read_as a in
      let pml4 := pml4_phys x in
      let table_flags := Z.lor VMM_PAGE_PRESENT VMM_PAGE_WRITE in
      let table_flags := if truthy (Z.land flags VMM_PAGE_USER) then Z.lor table_flags VMM_PAGE_USER else table_flags in
      let* pdpt := get_or_create_table_with zero pml4 (index virt 39) table_flags in
      match pdpt with
      | None => ret (-1)
      | Some pdpt =>
          let* pd := get_or_create_table_with zero pdpt (index virt 30) table_flags in
          match pd with
          | None => ret (-1)
          | Some pd =>
              let* pt := get_or_create_table_with zero pd (index virt 21) table_flags in
              match pt with
              | None => ret (-1)
              | Some pt =>
                  let* old := read64 (slot pt (index virt 12)) in
                  let was_present := present old in
                  let* _ := write64 (slot pt (index virt 12)) (Z.lor (Z.lor (Z.ldiff phys 0xFFF) flags) VMM_PAGE_PRESENT) in
                  let* s := get in
                  let st := vmm_global_stats s in
                  if truthy (Z.land flags VMM_PAGE_USER) then
                    let* _ := upd (with_stats (mkVmStats (kernel_mapped_pages st) (u64 (user_mapped_pages st + 1)) (page_faults st) (cow_faults st))) in
                    let* _ := if negb was_present then write_as a (set_rss (u64 (rss_pages x + 1)) x) else ret tt in
                    ret 0
                  else
                    let* _ := upd (with_stats (mkVmStats (u64 (kernel_mapped_pages st + 1)) (user_mapped_pages st) (page_faults st) (cow_faults st))) in
                    ret 0
              end
          end
      end
  end.
Definition vmm_map_page : option Z -> Z -> Z -> Z -> VM Z := vmm_map_page_with zero_page.

(** The walk shared by [vmm_unmap_page], [vmm_virt_to_phys] and [vmm_walk_to_leaf]: the
    page table of [virt], [None] when an entry on the way is not present.  Only the last
    of the three looks at the huge bit, and only in the page directory. *)
Definition page_table_of (pml4 virt : Z) (stop_at_huge : bool) : VM (option Z) :=
  let* e := read64 (slot pml4 (index virt 39)) in
  if negb (present e) then ret None else
  let* e := read64 (slot (addr_of e) (index virt 30)) in
  if negb (present e) then ret None else
  let* e := read64 (slot (addr_of e) (index virt 21)) in
  if negb (present e) then ret None else
  if stop_at_huge && huge e then ret None else ret (Some (addr_of e)).

Definition vmm_unmap_page (as_ : option Z) (virt : Z) : VM Z :=
  match as_ with
  | None => ret (-1)
  | Some a =>
      let* x := read_as a in
      let* pt := page_table_of (pml4_phys x) virt false in
      match pt with
      | None => ret (-1)
      | Some pt =>
          let* old_pte := read64 (slot pt (index virt 12)) in
          let* _ := write64 (slot pt (index virt 12)) 0 in
          let* _ := if present old_pte && user old_pte && (0 <? rss_pages x) then write_as a (set_rss (rss_pages x - 1) x) else ret tt in
          ret 0
      end
  end.

Definition vmm_map_range (as_ : option Z) (virt phys count flags : Z) : VM Z :=
  let* r := loop 0 count (fun i =>
    let* r := vmm_map_page as_ (u64 (virt + u64 (i * VMM_PAGE_SIZE))) (u64 (phys + u64 (i * VMM_PAGE_SIZE))) flags in
    ret (if negb (r =? 0) then Some r else None)) in
  ret (default 0 r).

Definition vmm_unmap_range (as_ : option Z) (virt count : Z) : VM Z :=
  let* _ := foreach 0 count (fun i => let* _ := vmm_unmap_page as_ (u64 (virt + u64 (i * VMM_PAGE_SIZE))) in ret tt) in ret 0.

Definition vmm_virt_to_phys (as_ : option Z) (virt : Z) : VM Z :=
  match as_ with
  | None => ret 0
  | Some a =>
      let* x := read_as a in
      let* pt := page_table_of (pml4_phys x) virt false in
      match pt with
      | None => ret 0
      | Some pt =>
          let* e := read64 (slot pt (index virt 12)) in
          if negb (present e) then ret 0 else ret (Z.lor (addr_of e) (Z.land virt 0xFFF))
      end
  end.

(** ** CR3 (vmm.c, vmm_active.c) *)
Definition vmm_address_space_is_active (as_ : option Z) : VM bool :=
  match as_ with
  | None => ret false
  | Some a =>
      let* x := read_as a in
      if pml4_phys x =? 0 then ret false else
      let* s := get in ret (Z.land (cr3 s) VMM_CR3_PHYS_MASK =? Z.land (pml4_phys x) VMM_CR3_PHYS_MASK)
  end.

Definition vmm_kernel_address_space : option Z := Some KERNEL.
Definition vmm_kernel_pml4_phys : VM Z := let* k := read_as KERNEL in ret (pml4_phys k).

Definition vmm_switch_address_space (as_ : option Z) : VM unit :=
  match as_ with
  | None => ret tt
  | Some a =>
      let* x := read_as a in
      let* s := get in
      if negb (Z.ldiff (cr3 s) 0xFFF =? pml4_phys x) then upd (with_cr3 (pml4_phys x)) else ret tt
  end.

Definition vmm_enter_kernel_tables : VM Z :=
  let* s := get in
  let* k := read_as KERNEL in
  let* _ := if negb (Z.ldiff (cr3 s) 0xFFF =? Z.ldiff (pml4_phys k) 0xFFF) then upd (with_cr3 (pml4_phys k)) else ret tt in
  ret (cr3 s).

Definition vmm_leave_kernel_tables (prev_cr3 : Z) : VM unit :=
  let* s := get in
  if negb (Z.ldiff (cr3 s) 0xFFF =? Z.ldiff prev_cr3 0xFFF) then upd (with_cr3 prev_cr3) else ret tt.

(** ** Regions (vmm_regions.c) *)
Definition ranges_overlap (a_start a_end b_start b_end : Z) : bool := (a_start <? b_end) && (b_start <? a_end).

Definition vmm_register_anon_region (as_ : option Z) (start page_count flags : Z) : VM Z :=
  match as_ with
  | None => ret (-1)
  | Some a =>
      if page_count =? 0 then ret (-1) else
      let end_ := u64 (start + u64 (page_count * VMM_PAGE_SIZE)) in
      if end_ <=? start then ret (-1) else
      let* x := read_as a in
      if existsb (fun r => ranges_overlap start end_ (an_start r) (an_end r)) (anon_regions x) then ret (-1) else
      let* ok := kmalloc in
      if negb ok then ret (-1) else
      let* _ := write_as a (set_regions (mkAnon start end_ flags :: anon_regions x) x) in ret 0
  end.

Definition vmm_clear_anon_regions (as_ : option Z) : VM unit :=
  match as_ with
  | None => ret tt
  | Some a => let* x := read_as a in write_as a (set_regions [] x)
  end.

Fixpoint find_region (l : list vmm_anon_region) (virt : Z) : option vmm_anon_region :=
  match l with
  | [] => None
  | r :: l => if (an_start r <=? virt) && (virt <? an_end r) then Some r else find_region l virt
  end.
Definition vmm_anon_region_find (as_ : option Z) (virt : Z) : VM (option vmm_anon_region) :=
  match as_ with
  | None => ret None
  | Some a => let* x := read_as a in ret (find_region (anon_regions x) virt)
  end.

Definition vmm_address_space_rss (as_ : option Z) : VM Z :=
  match as_ with None => ret 0 | Some a => let* x := read_as a in ret (rss_pages x) end.
Definition vmm_current_address_space : VM (option Z) := let* s := get in ret (current_as s).

(** ** Address spaces (vmm.c) *)
Definition vmm_create_address_space : VM (option Z) :=
  let* ok := kmalloc in
  if negb ok then ret None else
  let* pml4 := alloc_page in
  if pml4 =? 0 then ret None else
  let* _ := zero_page pml4 in
  let* k := read_as KERNEL in
  let kernel_pml4 := pml4_phys k in
  let* e := read64 (slot kernel_pml4 0) in
  let* ok :=
    if present e then
      let* low_clone := clone_table_for_user_as 3 e 0 in
      if low_clone =? 0 then let* _ := free_page pml4 in ret false else
      let* _ := write64 (slot pml4 0) (parent_entry e low_clone) in ret true
    else ret true in
  if negb ok then ret None else
  let* _ := foreach 256 512 (fun i => let* e := read64 (slot kernel_pml4 i) in write64 (slot pml4 i) e) in
  let* a := new_as (mkAs pml4 1 0 []) in ret (Some a).

(** The innermost step of the destruction: a user page. *)
Definition release_leaf (e : Z) : VM unit :=
  if present e && user e then
    let leaf_phys := addr_of e in
    let* pre := refcount_get leaf_phys in
    if pre =? 0 then free_page leaf_phys else
    let* after := refcount_dec leaf_phys in
    if after =? 0 then free_page leaf_phys else ret tt
  else ret tt.

Definition destroy_pt (pt : Z) : VM unit := foreach 0 512 (fun l => let* e := read64 (slot pt l) in release_leaf e).

(** The two levels above it: entries that are not the process's are left alone. *)
Definition destroy_dir (descend : Z -> VM unit) (dir : Z) : VM unit :=
  foreach 0 512 (fun j =>
    let* e := read64 (slot dir j) in
    if negb (present e) then ret tt else
    if huge e then if user e then free_page (addr_of e) else ret tt else
    if negb (user e) then ret tt else
    let* _ := descend (addr_of e) in
    let* e := read64 (slot dir j) in free_page (addr_of e)).

Definition destroy_pml4 (pml4 : Z) : VM unit :=
  foreach 0 256 (fun i =>
    let* e := read64 (slot pml4 i) in
    if negb (present e) then ret tt else
    if negb (user e) then ret tt else
    let* _ := destroy_dir (destroy_dir destroy_pt) (addr_of e) in
    let* e := read64 (slot pml4 i) in free_page (addr_of e)).

Definition vmm_destroy_address_space (as_ : option Z) : VM unit :=
  match as_ with
  | None => ret tt
  | Some a =>
      if a =? KERNEL then ret tt else
      let* active := vmm_address_space_is_active (Some a) in
      if active then ret tt else
      let* x := read_as a in
      let refcount := u32 (as_refcount x - 1) in
      let* _ := write_as a (set_as_refcount refcount x) in
      if 0 <? refcount then ret tt else
      let* _ := vmm_clear_anon_regions (Some a) in
      let* _ := destroy_pml4 (pml4_phys x) in
      let* _ := free_page (pml4_phys x) in
      kfree_as a
  end.

(** ** Copy on write (vmm.c, vmm_cow.c, vmm_fault.c) *)

(** [lvl] levels of tables below: 3 at the directory pointers, 1 at a page table; the
    code counts up from 1 to 3. *)
Fixpoint clone_pt_into (lvl : nat) (dst src : Z) : VM Z :=
  match lvl with
  | O => ret 0
  | S lvl' =>
      let* r := loop 0 512 (fun i =>
        let* s := read64 (slot src i) in
        if negb (present s) then ret None else
        if (1 <? Z.of_nat lvl) && negb (huge s) then
          let* child := alloc_page in
          if child =? 0 then ret (Some (-1)) else
          let* _ := zero_page child in
          let* _ := write64 (slot dst i) (Z.lor child (Z.land s 0xFFF)) in
          let* r := clone_pt_into lvl' child (addr_of s) in
          if negb (r =? 0) then ret (Some (-1)) else ret None
        else
          let* _ := refcount_inc (addr_of s) in
          if user s && writable s && negb (huge s) then
            let cow_pte := Z.ldiff (Z.lor s VMM_PAGE_COW) VMM_PAGE_WRITE in
            let* _ := write64 (slot dst i) cow_pte in
            let* _ := write64 (slot src i) cow_pte in ret None
          else
            let* _ := write64 (slot dst i) s in ret None) in
      ret (default 0 r)
  end.

Definition vmm_clone_address_space (src : option Z) : VM (option Z) :=
  match src with
  | None => ret None
  | Some a =>
      let* dst := vmm_create_address_space in
      match dst with
      | None => ret None
      | Some d =>
          let* x := read_as a in
          let* y := read_as d in
          let* r := loop 0 256 (fun i =>
            let* e := read64 (slot (pml4_phys x) i) in
            if negb (present e) then ret None else
            let* pdpt := alloc_page in
            if pdpt =? 0 then let* _ := vmm_destroy_address_space (Some d) in ret (Some tt) else
            let* _ := zero_page pdpt in
            let* _ := write64 (slot (pml4_phys y) i) (Z.lor pdpt (Z.land e 0xFFF)) in
            let* rc := clone_pt_into 3 pdpt (addr_of e) in
            if negb (rc =? 0) then let* _ := vmm_destroy_address_space (Some d) in ret (Some tt) else ret None) in
          match r with
          | Some _ => ret None
          | None =>
              let* x := read_as a in
              let* y := read_as d in
              let* _ := write_as d (set_rss (rss_pages x) y) in ret (Some d)
          end
      end
  end.

Inductive vmm_cow_action := VMM_COW_NOT_COW | VMM_COW_REUSE | VMM_COW_COPY.
Record vmm_cow_decision := mkDecision { action : vmm_cow_action; new_set : Z; new_clr : Z }.
Definition vmm_cow_decide (pte refcount_after_dec : Z) : vmm_cow_decision :=
  if negb (cow pte) then mkDecision VMM_COW_NOT_COW 0 0 else
  mkDecision (if refcount_after_dec =? 0 then VMM_COW_REUSE else VMM_COW_COPY) VMM_PAGE_WRITE VMM_PAGE_COW.

Definition vmm_walk_to_leaf (as_ : option Z) (virt : Z) : VM (option Z) :=
  match as_ with
  | None => ret None
  | Some a =>
      let* x := read_as a in
      let* pt := page_table_of (pml4_phys x) virt true in
      ret (match pt with Some pt => Some (slot pt (index virt 12)) | None => None end)
  end.

Definition count_cow_fault : VM unit := upd (fun s =>
  let st := vmm_global_stats s in with_stats (mkVmStats (kernel_mapped_pages st) (user_mapped_pages st) (page_faults st) (u64 (cow_faults st + 1))) s).

Definition vmm_handle_cow_fault (as_ : option Z) (fault_addr : Z) : VM Z :=
  let* pte_slot := vmm_walk_to_leaf as_ fault_addr in
  match pte_slot with
  | None => ret (-1)
  | Some pte_slot =>
      let* pte := read64 pte_slot in
      if negb (present pte) then ret (-1) else
      let old_phys := addr_of pte in
      let* pre := refcount_get old_phys in
      let* after_dec := if 0 <? pre then refcount_dec old_phys else ret 0 in
      let d := vmm_cow_decide pte after_dec in
      match action d with
      | VMM_COW_NOT_COW => let* _ := if 0 <? pre then refcount_inc old_phys else ret tt in ret (-1)
      | VMM_COW_REUSE =>
          let* _ := write64 pte_slot (Z.ldiff (Z.lor pte (new_set d)) (new_clr d)) in
          let* _ := count_cow_fault in ret 0
      | VMM_COW_COPY =>
          let* new_phys := alloc_page in
          if new_phys =? 0 then let* _ := if 0 <? pre then refcount_inc old_phys else ret tt in ret (-1) else
          let* _ := copy_page new_phys old_phys in
          let* _ := write64 pte_slot (Z.ldiff (Z.lor (Z.lor (Z.land pte 0xFFF) new_phys) (new_set d)) (new_clr d)) in
          let* _ := count_cow_fault in ret 0
      end
  end.

Definition vmm_handle_page_fault_with (zero : Z -> VM unit) (fault_addr error_code : Z) : VM Z :=
  let* _ := upd (fun s =>
    let st := vmm_global_stats s in with_stats (mkVmStats (kernel_mapped_pages st) (user_mapped_pages st) (u64 (page_faults st + 1)) (cow_faults st)) s) in
  let* as_ := vmm_current_address_space in
  match as_ with
  | None => ret (-1)
  | Some a =>
      if truthy (Z.land error_code 1) then
        if truthy (Z.land error_code 2) then vmm_handle_cow_fault (Some a) fault_addr else ret (-1)
      else
        let* region := vmm_anon_region_find (Some a) fault_addr in
        match region with
        | None => ret (-1)
        | Some region =>
            let* phys := alloc_page in
            if phys =? 0 then ret (-1) else
            let* _ := zero phys in
            let* r := vmm_map_page_with zero (Some a) (Z.ldiff fault_addr (VMM_PAGE_SIZE - 1)) phys (an_flags region) in
            if negb (r =? 0) then let* _ := free_page phys in ret (-1) else ret 0
        end
  end.
Definition vmm_handle_page_fault : Z -> Z -> VM Z := vmm_handle_page_fault_with zero_page.

(** ** Device windows (vmm_mmio.c) *)
Definition vmm_map_device (physical bytes : Z) : VM Z :=
  let* s := get in
  let physical_limit := Z.shiftl 1 52 in
  if (device_base s =? 0) || (physical =? 0) || (bytes =? 0) || (DEVICE_MAPPING_MAX <? bytes) || (physical_limit <=? physical) || (physical_limit - physical <? bytes)
  then ret 0 else
  let offset := Z.land physical (VMM_PAGE_SIZE - 1) in
  let span := Z.ldiff (u64 (offset + bytes + VMM_PAGE_SIZE - 1)) (VMM_PAGE_SIZE - 1) in
  if negb (device_gate s =? 0) then ret 0 else
  let* _ := upd (fun s => with_device (device_base s, device_used s, 1) s) in
  let* result :=
    if span <=? u64 (DEVICE_WINDOW_BYTES - device_used s) then
      let address := u64 (device_base s + device_used s) in
      let* _ := upd (fun s => with_device (device_base s, u64 (device_used s + span), device_gate s) s) in
      let pages := span / VMM_PAGE_SIZE in
      let* r := vmm_map_range vmm_kernel_address_space address (physical - offset) pages (Z.lor (Z.lor (Z.lor VMM_PAGE_WRITE VMM_PAGE_PCD) VMM_PAGE_PWT) VMM_PAGE_NX) in
      if r =? 0 then ret (u64 (address + offset)) else
      let* _ := vmm_unmap_range vmm_kernel_address_space address pages in ret 0
    else ret 0 in
  let* _ := upd (fun s => with_device (device_base s, device_used s, 0) s) in
  ret result.

Definition vmm_stats_get : VM vmm_stats := let* s := get in ret (vmm_global_stats s).
