(* ===== verification/VmmTables.v ===== *)
(** * Page tables

    The bits of an entry; a proof rule per step of [Vmm] ([wp]: the outcome exists, so no
    freed address space is touched); the walk of the processor ([walk]) and the frames an
    address space owns ([reach], [owned]).  The invariant [ok] says that no frame is owned
    twice, so a store into one table changes the walks through that entry only. *)
From S2P Require Import Prelude Pmm Vmm.
Local Open Scope capy_scope.

(** ** Entries *)
Section entries.
Implicit Types (e p q f b i : Z).

(** Addresses of frames, and bits outside the address. *)
Definition aligned p : Prop := exists q, p = q * 4096 /\ 0 <= q < 2 ^ 40.
Definition flag_bits f : Prop := 0 <= f /\ Z.land f VMM_PTE_PHYS_MASK = 0.

Lemma aligned_mask p : aligned p -> Z.land p VMM_PTE_PHYS_MASK = p.
Proof.
  intros (q & -> & Hq). change VMM_PTE_PHYS_MASK with (Z.shiftl (Z.ones 40) 12). replace (q * 4096) with (Z.shiftl q 12) by (rewrite Z.shiftl_mul_pow2; lia).
  rewrite <- Z.shiftl_land, Z.land_ones, Z.mod_small by lia. done.
Qed.

Lemma aligned_flag p b : aligned p -> flag_bits b -> Z.land p b = 0.
Proof. intros Hp [_ Hb]. rewrite <- (aligned_mask p Hp), <- Z.land_assoc, (Z.land_comm _ b), Hb. apply Z.land_0_r. Qed.

Lemma addr_of_entry p f : aligned p -> flag_bits f -> addr_of (Z.lor p f) = p.
Proof. intros Hp [_ Hf]. unfold addr_of. rewrite Z.land_lor_distr_l, Hf, aligned_mask by done. apply Z.lor_0_r. Qed.

Lemma bit_of_entry p f b : aligned p -> flag_bits b -> Z.land (Z.lor p f) b = Z.land f b.
Proof. intros Hp Hb. by rewrite Z.land_lor_distr_l, (aligned_flag p b Hp Hb). Qed.

Lemma flag_lor f b : flag_bits f -> flag_bits b -> flag_bits (Z.lor f b).
Proof. intros [? Hf] [? Hb]. split; [by apply Z.lor_nonneg|]. by rewrite Z.land_lor_distr_l, Hf, Hb. Qed.

Lemma flag_present : flag_bits VMM_PAGE_PRESENT. Proof. done. Qed.
Lemma flag_write : flag_bits VMM_PAGE_WRITE. Proof. done. Qed.
Lemma flag_user : flag_bits VMM_PAGE_USER. Proof. done. Qed.
Lemma flag_huge : flag_bits VMM_PAGE_HUGE. Proof. done. Qed.

Lemma truthy_lor a b : truthy (Z.lor a b) = truthy a || truthy b.
Proof.
  unfold truthy. destruct (Z.eqb_spec (Z.lor a b) 0) as [E|E].
  - apply Z.lor_eq_0_iff in E as [-> ->]. done.
  - destruct (Z.eqb_spec a 0) as [->|]; [|done]. rewrite Z.lor_0_l in E. by apply Z.eqb_neq in E as ->.
Qed.

(** The bits of [f | PRESENT] and of [addr | f]. *)
Lemma entry_bits p f : aligned p -> flag_bits f ->
  let e := Z.lor (Z.lor p f) VMM_PAGE_PRESENT in
  addr_of e = p /\ present e = true /\ user e = user f /\ writable e = writable f /\ huge e = huge f.
Proof.
  intros Hp Hf. cbv zeta. rewrite <- Z.lor_assoc. unfold present, user, writable, huge.
  rewrite (addr_of_entry p _ Hp (flag_lor _ _ Hf flag_present)), !(bit_of_entry p) by done. rewrite !Z.land_lor_distr_l, !truthy_lor.
  change (Z.land VMM_PAGE_PRESENT VMM_PAGE_PRESENT) with 1. change (Z.land VMM_PAGE_PRESENT VMM_PAGE_USER) with 0.
  change (Z.land VMM_PAGE_PRESENT VMM_PAGE_WRITE) with 0. change (Z.land VMM_PAGE_PRESENT VMM_PAGE_HUGE) with 0.
  change (truthy 1) with true. change (truthy 0) with false. by rewrite !orb_false_r, orb_true_r.
Qed.

Lemma index_range va sh : 0 <= index va sh < 512.
Proof. unfold index. change 0x1FF with (Z.ones 9). rewrite Z.land_ones by lia. apply Z.mod_pos_bound. lia. Qed.

Lemma slot_inj p q i j : aligned p -> aligned q -> 0 <= i < 512 -> 0 <= j < 512 -> slot p i = slot q j -> p = q /\ i = j.
Proof. intros (x & -> & _) (y & -> & _) Hi Hj. unfold slot. lia. Qed.
End entries.

(** ** Steps *)
Definition wp {A} (m : VM A) (s : vm) (Q : A -> vm -> Prop) : Prop := match m s with Some (a, s') => Q a s' | None => False end.

Section steps.
Implicit Types (s : vm) (p q f i v : Z).

Lemma vm_elim {A} (m : VM A) s Q : wp m s Q -> exists a s', m s = Some (a, s') /\ Q a s'.
Proof. unfold wp. destruct (m s) as [[a s']|]; [|done]. intros H. by exists a, s'. Qed.

Lemma vm_ret {A} (a : A) s (Q : A -> vm -> Prop) : Q a s -> wp (ret a) s Q.
Proof. done. Qed.

Lemma vm_bind {A B} (m : VM A) (k : A -> VM B) s Q : wp m s (fun a s' => wp (k a) s' Q) -> wp (bind m k) s Q.
Proof. unfold wp, bind. by destruct (m s) as [[a s']|]. Qed.

Lemma vm_mono {A} (m : VM A) s (P Q : A -> vm -> Prop) : wp m s P -> (forall a s', P a s' -> Q a s') -> wp m s Q.
Proof. unfold wp. destruct (m s) as [[a s']|]; [|done]. auto. Qed.

Lemma vm_get s (Q : vm -> vm -> Prop) : Q s s -> wp get s Q.
Proof. done. Qed.
Lemma wp_upd (f : vm -> vm) s (Q : unit -> vm -> Prop) : Q tt (f s) -> wp (upd f) s Q.
Proof. done. Qed.
Lemma wp_read64 p s (Q : Z -> vm -> Prop) : Q (rd (ram s) p) s -> wp (read64 p) s Q.
Proof. done. Qed.
Lemma wp_write64 p v s (Q : unit -> vm -> Prop) : Q tt (with_ram (<[p := v]> (ram s)) s) -> wp (write64 p v) s Q.
Proof. done. Qed.
Lemma wp_read_as a x s (Q : vmm_address_space -> vm -> Prop) : spaces s !! a = Some x -> Q x s -> wp (read_as a) s Q.
Proof. intros E H. unfold wp, read_as. by rewrite E. Qed.
Lemma wp_write_as a x y s (Q : unit -> vm -> Prop) : spaces s !! a = Some y -> Q tt (with_spaces (<[a := x]> (spaces s)) s) -> wp (write_as a x) s Q.
Proof. intros E H. unfold wp, write_as. by rewrite E. Qed.
Lemma wp_kmalloc s (Q : bool -> vm -> Prop) : (forall b h, Q b (with_heap h s)) -> wp kmalloc s Q.
Proof. intros H. unfold wp, kmalloc. destruct (heap s) as [|b h] eqn:E; [|apply H]. specialize (H true []). destruct s. cbn in E. by subst. Qed.

(** A loop keeps its invariant [I], or returns from the function. *)
Lemma wp_loop {R} (I : Z -> vm -> Prop) lo hi (body : Z -> VM (option R)) s (Q : option R -> vm -> Prop) : lo <= hi -> I lo s ->
  (forall i s, lo <= i < hi -> I i s -> wp (body i) s (fun r s' => match r with Some _ => Q r s' | None => I (i + 1) s' end)) ->
  (forall s, I hi s -> Q None s) -> wp (loop lo hi body) s Q.
Proof.
  intros Hle Hi Hb Hq. unfold loop. remember (Z.to_nat (hi - lo)) as n eqn:En. revert lo s Hle Hi Hb En.
  induction n as [|n IH]; intros lo s Hle Hi Hb En; cbn [loop_n].
  - apply vm_ret, Hq. by replace hi with lo by lia.
  - apply vm_bind. eapply vm_mono; [apply (Hb lo s ltac:(lia) Hi)|]. intros [r|] s' H; [by apply vm_ret|].
    apply (IH (lo + 1) s'); [lia | done | | lia]. intros i t Hr. apply Hb. lia.
Qed.

Lemma wp_foreach (I : Z -> vm -> Prop) lo hi (body : Z -> VM unit) s (Q : unit -> vm -> Prop) : lo <= hi -> I lo s ->
  (forall i s, lo <= i < hi -> I i s -> wp (body i) s (fun _ s' => I (i + 1) s')) -> (forall s, I hi s -> Q tt s) -> wp (foreach lo hi body) s Q.
Proof.
  intros Hle Hi Hb Hq. unfold foreach. remember (Z.to_nat (hi - lo)) as n eqn:En. revert lo s Hle Hi Hb En.
  induction n as [|n IH]; intros lo s Hle Hi Hb En; cbn [foreach_n].
  - apply vm_ret, Hq. by replace hi with lo by lia.
  - apply vm_bind. eapply vm_mono; [apply (Hb lo s ltac:(lia) Hi)|]. intros [] s' H.
    apply (IH (lo + 1) s'); [lia | done | | lia]. intros i t Hr. apply Hb. lia.
Qed.

Lemma rd_insert m p q v : rd (<[p := v]> m) q = if q =? p then v else rd m q.
Proof.
  unfold rd. destruct (Z.eqb_spec q p) as [->|Hne]; [by rewrite lookup_insert_eq | by rewrite lookup_insert_ne].
Qed.

(** Memory [m'] is [m] with the words of page [p] given by [g]. *)
Definition page_set p (lo hi : Z) (g : Z -> Z) (m m' : gmap Z Z) : Prop :=
  (forall i, lo <= i < hi -> rd m' (slot p i) = g i) /\ (forall q, (forall i, lo <= i < hi -> q <> slot p i) -> rd m' q = rd m q).

Lemma wp_fill_page p lo hi (g : Z -> Z) s (Q : unit -> vm -> Prop) : lo <= hi ->
  (forall m', page_set p lo hi g (ram s) m' -> Q tt (with_ram m' s)) -> wp (foreach lo hi (fun i => write64 (slot p i) (g i))) s Q.
Proof.
  intros Hle H. apply (wp_foreach (fun i s' => exists m', page_set p lo i g (ram s) m' /\ s' = with_ram m' s)); [done | | |].
  - exists (ram s). split; [split; [lia | done] | by destruct s].
  - intros i s' Hi (m' & [H1 H2] & ->). apply wp_write64. exists (<[slot p i := g i]> m'). split; [|done]. split.
    + intros j Hj. rewrite rd_insert. destruct (Z.eqb_spec (slot p j) (slot p i)) as [E|]; [by replace j with i by (unfold slot in E; lia)|]. apply H1.
      assert (j <> i) by congruence. lia.
    + intros q Hq. rewrite rd_insert. destruct (Z.eqb_spec q (slot p i)) as [->|]; [by destruct (Hq i ltac:(lia))|]. apply H2. intros j Hj. apply Hq. lia.
  - intros s' (m' & Hm & ->). by apply H.
Qed.

Lemma wp_zero_page p s (Q : unit -> vm -> Prop) : (forall m', page_set p 0 512 (fun _ => 0) (ram s) m' -> Q tt (with_ram m' s)) -> wp (zero_page p) s Q.
Proof. intros H. by apply (wp_fill_page p 0 512 (fun _ => 0)). Qed.

(** Copying between two pages. *)
Lemma wp_copy dst src lo s (Q : unit -> vm -> Prop) : 0 <= lo <= 512 -> aligned src -> aligned dst -> src <> dst ->
  (forall m', page_set dst lo 512 (fun i => rd (ram s) (slot src i)) (ram s) m' -> Q tt (with_ram m' s)) ->
  wp (foreach lo 512 (fun i => bind (read64 (slot src i)) (fun w => write64 (slot dst i) w))) s Q.
Proof.
  intros Hlo Hs Hd Hne H.
  apply (wp_foreach (fun i s' => exists m', page_set dst lo i (fun i => rd (ram s) (slot src i)) (ram s) m' /\ s' = with_ram m' s)); [lia | | |].
  - exists (ram s). split; [split; [lia | done] | by destruct s].
  - intros i s' Hi (m' & [H1 H2] & ->). apply vm_bind, wp_read64, wp_write64. cbn [ram with_ram].
    assert (E : rd m' (slot src i) = rd (ram s) (slot src i)).
    { apply H2. intros j Hj E. apply slot_inj in E as [-> _]; [done | done | done | lia | lia]. }
    rewrite E. exists (<[slot dst i := rd (ram s) (slot src i)]> m'). split; [|done]. split.
    + intros j Hj. rewrite rd_insert. destruct (Z.eqb_spec (slot dst j) (slot dst i)) as [E'|]; [by replace j with i by (unfold slot in E'; lia)|]. apply H1.
      assert (j <> i) by congruence. lia.
    + intros q Hq. rewrite rd_insert. destruct (Z.eqb_spec q (slot dst i)) as [->|]; [by destruct (Hq i ltac:(lia))|]. apply H2. intros j Hj. apply Hq. lia.
  - intros s' (m' & Hm & ->). by apply H.
Qed.
End steps.

(** ** Frames *)
Section frames.
Implicit Types (s : vm) (p q f g : Z) (F : pmm).

(** A frame the allocator manages, in use or not; frame 0 is never free. *)
Definition frame_is (b : bool) F f : Prop := exists q, f = q * 4096 /\ 0 < q < pmm_total_pages F /\ bitmap_test q (pmm_bitmap F) = b.
Local Abbreviation used := (frame_is true).
Local Abbreviation free := (frame_is false).
Definition frames_ok F : Prop := wf F /\ bitmap_test 0 (pmm_bitmap F) = true.

Lemma frame_aligned b F f : frames_ok F -> frame_is b F f -> aligned f /\ f <> 0.
Proof. intros [[_ Ht _ _] _] (q & -> & Hq & _). pose proof bitmap_bits. split; [|lia]. exists q. split; [done|]. lia. Qed.

Lemma used_not_free F f : used F f -> free F f -> False.
Proof. intros (q & E & _ & H) (q' & E' & _ & H'). replace q' with q in H' by lia. congruence. Qed.

(** [f] was free in [F] and is all that [F'] has taken since. *)
Definition taken F f F' : Prop := frames_ok F' /\ free F f /\ pmm_total_pages F' = pmm_total_pages F /\ (forall g, used F' g <-> g = f \/ used F g) /\
  (forall g, free F' g <-> g <> f /\ free F g).
Definition given_back F f F' : Prop := frames_ok F' /\ pmm_total_pages F' = pmm_total_pages F /\ (forall g, used F' g <-> g <> f /\ used F g) /\
  (forall g, free F' g <-> g = f \/ free F g).

Lemma alloc_cases F : frames_ok F -> (pmm_alloc_page F = (0, F) /\ forall f, ~ free F f) \/ exists f F', pmm_alloc_page F = (f, F') /\ f <> 0 /\ taken F f F'.
Proof.
  intros [Hwf H0]. destruct (pmm_alloc_page_cases F Hwf) as [(p & Hp & Hf & Hmin & E)|[Hno E]]; [right | left; split; [done|]; intros f (q & _ & Hq & Hb); rewrite Hno in Hb by lia; done].
  destruct (take_pages_spec F p 1 Hwf) as (Hw & Ht & Hb); [lia..| intros j Hj; by replace (p + j) with p by lia |].
  assert (Hp0 : p <> 0) by congruence.
  exists (p * 4096), (take_pages p 1 F). split; [done|]. split; [lia|].
  assert (Hb' : forall q, 0 <= q -> bitmap_test q (pmm_bitmap (take_pages p 1 F)) = (q =? p) || bitmap_test q (pmm_bitmap F)).
  { intros q Hq. rewrite Hb by done. f_equal. lia. }
  split_and!; [by split; [|rewrite Hb', H0, orb_true_r by lia] | exists p; split_and!; [done | lia | lia | done] | done | |].
  - intros g. split.
    + intros (q & -> & Hq & Hbq). rewrite Ht in Hq. rewrite Hb' in Hbq by lia. destruct (Z.eqb_spec q p) as [->|]; [by left|]. right. by exists q.
    + intros [->|(q & -> & Hq & Hbq)]; [exists p | exists q]; rewrite Ht, Hb' by lia; [by rewrite Z.eqb_refl; split_and!; try lia | by rewrite Hbq, orb_true_r].
  - intros g. split.
    + intros (q & -> & Hq & Hbq). rewrite Ht in Hq. rewrite Hb' in Hbq by lia. destruct (Z.eqb_spec q p) as [->|]; [done|]. split; [lia|]. by exists q.
    + intros (Hne & q & -> & Hq & Hbq). exists q. rewrite Ht, Hb', Hbq by lia. split_and!; lia.
Qed.

Lemma free_back F f : frames_ok F -> used F f -> given_back F f (pmm_free_page f F).
Proof.
  intros [Hwf H0] (p & -> & Hp & Hbp). unfold pmm_free_page, PMM_PAGE_SIZE. rewrite Z.div_mul by lia. replace (pmm_total_pages F <=? p) with false by lia.
  assert (Hb : forall q, 0 <= q -> bitmap_test q (pmm_bitmap (release_page p F)) = negb (q =? p) && bitmap_test q (pmm_bitmap F)).
  { intros q Hq. by apply release_page_test; [|lia|]. }
  pose proof (release_page_total F p) as Ht.
  split_and!; [split; [by apply release_page_wf; [|lia] | rewrite Hb, H0 by lia; lia] | done | |].
  - intros g. split.
    + intros (q & -> & Hq & Hbq). rewrite Ht in Hq. rewrite Hb in Hbq by lia. apply andb_true_iff in Hbq as [Hqp Hbq]. split; [lia|]. by exists q.
    + intros (Hne & q & -> & Hq & Hbq). exists q. rewrite Ht, Hb, Hbq by lia. split_and!; try lia.
  - intros g. split.
    + intros (q & -> & Hq & Hbq). rewrite Ht in Hq. rewrite Hb in Hbq by lia. destruct (Z.eqb_spec q p) as [->|]; [by left|]. right. by exists q.
    + intros [->|(q & -> & Hq & Hbq)]; [exists p | exists q]; rewrite Ht, Hb by lia; [rewrite Z.eqb_refl; split_and!; try lia; done|]. rewrite Hbq. split_and!; try lia.
Qed.

Lemma given_back_any (b : bool) F f : frames_ok F -> frame_is b F f -> given_back F f (pmm_free_page f F).
Proof.
  intros Hok Hf. destruct b; [by apply free_back|]. destruct Hok as [Hwf H0], Hf as (p & -> & Hp & Hbp).
  assert (E : pmm_free_page (p * 4096) F = F).
  { unfold pmm_free_page, PMM_PAGE_SIZE. rewrite Z.div_mul by lia. replace (pmm_total_pages F <=? p) with false by lia. unfold release_page. by rewrite Hbp. }
  rewrite E. split_and!; [done | done | |].
  - intros g. split; [|by intros []]. intros (q & -> & Hq & Hbq). split; [|by exists q]. intros E'. replace q with p in Hbq by lia. congruence.
  - intros g. split; [by right | intros [->|?]; [by exists p | done]].
Qed.


Lemma wp_alloc_full s (Q : Z -> vm -> Prop) : frames_ok (frames s) -> ((forall f, ~ free (frames s) f) -> Q 0 s) ->
  (forall f F', f <> 0 -> taken (frames s) f F' -> Q f (with_frames F' s)) -> wp alloc_page s Q.
Proof.
  intros Hok H0 H. unfold wp, alloc_page. destruct (alloc_cases (frames s) Hok) as [[-> Hno]|(f & F' & -> & Hf & Ht)]; [specialize (H0 Hno); by destruct s | by apply H].
Qed.

Lemma wp_alloc s (Q : Z -> vm -> Prop) : frames_ok (frames s) -> Q 0 s ->
  (forall f F', f <> 0 -> taken (frames s) f F' -> Q f (with_frames F' s)) -> wp alloc_page s Q.
Proof. intros Hok H0. by apply wp_alloc_full. Qed.

(** At least [n] frames are free. *)
Definition enough (n : nat) F : Prop := exists l, NoDup l /\ length l = n /\ Forall (fun f => free F f) l.

Lemma enough_taken n F f F' : taken F f F' -> enough n F -> enough (n - 1) F'.
Proof.
  intros (_ & Hf & _ & _ & Hfr) (l & Hnd & Hl & Hall). destruct (decide (f ∈ l)) as [Hin|Hin].
  - apply list_elem_of_split in Hin as (l1 & l2 & ->). exists (l1 ++ l2). rewrite length_app in *. cbn [length] in Hl. apply NoDup_app in Hnd as (N1 & N2 & [N3 N4]%NoDup_cons).
    apply Forall_app in Hall as [A1 [_ A2]%Forall_cons]. split_and!; [| lia |].
    + apply NoDup_app. split_and!; [done | | done]. intros g Hg Hg'. apply (N2 g Hg). set_solver.
    + apply Forall_app. split; apply Forall_forall; intros g Hg; apply Hfr; (split; [intros ->; set_solver|]); [by apply (proj1 (Forall_forall _ _) A1) | by apply (proj1 (Forall_forall _ _) A2)].
  - exists (drop 1 l). split_and!; [by eapply sublist_NoDup; [|apply (sublist_drop l 1)] | rewrite length_drop; lia |]. apply Forall_forall. intros g Hg%(subseteq_drop 1 l).
    apply Hfr. split; [by intros -> | by apply (proj1 (Forall_forall _ _) Hall)].
Qed.

Lemma enough_none n F : (forall f, ~ free F f) -> enough n F -> n = 0%nat.
Proof. intros H (l & _ & <- & Hl). destruct l as [|f l]; [done|]. apply Forall_cons in Hl as [Hf _]. by destruct (H f). Qed.
End frames.
Notation used := (frame_is true).
Notation free := (frame_is false).

(** ** Walks *)

(** The shift of the index at a level: 4 for the root, 1 for a page table. *)
Definition shift_of (lvl : nat) : Z := 12 + 9 * (Z.of_nat lvl - 1).
Definition page_offset (lvl : nat) (va : Z) : Z := va `mod` 2 ^ shift_of lvl.

(** What the processor does with an address: where it leads, and whether all entries on
    the way are writable and open to user mode.  A huge leaf maps [2 ^ shift_of lvl] bytes
    from its base, a multiple of that; a root entry has no huge bit. *)
Fixpoint walk (m : gmap Z Z) (lvl : nat) (p va : Z) : option (Z * bool * bool) :=
  match lvl with
  | O => None
  | S l =>
      let e := rd m (slot p (index va (shift_of lvl))) in
      if negb (present e) then None else
      if (lvl =? 1)%nat || huge e then
        if (lvl =? 4)%nat then None else Some (addr_of e + page_offset lvl va, writable e, user e)
      else
        match walk m l (addr_of e) va with
        | Some (pa, w, u) => Some (pa, w && writable e, u && user e)
        | None => None
        end
  end.

(** No huge leaf on the way. *)
Fixpoint no_huge (m : gmap Z Z) (lvl : nat) (p va : Z) : Prop :=
  match lvl with
  | O => True
  | S l =>
      let e := rd m (slot p (index va (shift_of lvl))) in
      (lvl =? 1)%nat = true \/ present e = false \/ (huge e = false /\ no_huge m l (addr_of e) va)
  end.

(** The frame an entry owns: the table it points to, or the user page. *)
Definition own_next (lvl : nat) (e : Z) : option Z :=
  if present e && (if (lvl =? 1)%nat then user e else negb (huge e)) then Some (addr_of e) else None.

Fixpoint reach (m : gmap Z Z) (lvl : nat) (p : Z) (path : list Z) {struct path} : option Z :=
  match path with
  | [] => Some p
  | i :: rest =>
      match lvl with
      | O => None
      | S l => match own_next lvl (rd m (slot p i)) with Some q => reach m l q rest | None => None end
      end
  end.

Fixpoint va_path (lvl : nat) (va : Z) : list Z :=
  match lvl with O => [] | S l => index va (shift_of lvl) :: va_path l va end.

Section walks.
Implicit Types (m : gmap Z Z) (lvl : nat) (p q i va e : Z) (path pre rest : list Z).

Lemma reach_app m lvl p pre rest : reach m lvl p (pre ++ rest) = match reach m lvl p pre with Some q => reach m (lvl - length pre) q rest | None => None end.
Proof.
  revert lvl p. induction pre as [|i pre IH]; intros lvl p; cbn [reach app length]; [by rewrite Nat.sub_0_r|].
  destruct lvl as [|l]; [done|]. destruct (own_next (S l) _); [|done]. rewrite IH. done.
Qed.

Lemma reach_snoc m lvl p pre i : reach m lvl p (pre ++ [i]) =
  match reach m lvl p pre with Some q => if (length pre <? lvl)%nat then own_next (lvl - length pre) (rd m (slot q i)) else None | None => None end.
Proof.
  rewrite reach_app. destruct (reach m lvl p pre) as [q|]; [|done]. cbn [reach]. destruct (lvl - length pre)%nat as [|l] eqn:E.
  - by replace (length pre <? lvl)%nat with false by (symmetry; apply Nat.ltb_ge; lia).
  - replace (length pre <? lvl)%nat with true by (symmetry; apply Nat.ltb_lt; lia). by destruct (own_next (S l) _).
Qed.

Lemma reach_length m lvl p path q : reach m lvl p path = Some q -> (length path <= lvl)%nat.
Proof.
  revert lvl p. induction path as [|i path IH]; intros lvl p H; cbn [reach length] in *; [lia|].
  destruct lvl as [|l]; [done|]. destruct (own_next (S l) _); [|done]. apply IH in H. lia.
Qed.

(** Both depend only on the entries they go through. *)
Lemma reach_ext m m' lvl p path :
  (forall pre i rest q, path = pre ++ i :: rest -> (length pre < lvl)%nat -> reach m lvl p pre = Some q -> rd m' (slot q i) = rd m (slot q i)) ->
  reach m' lvl p path = reach m lvl p path.
Proof.
  revert lvl p. induction path as [|i path IH]; intros lvl p H; [done|]. cbn [reach]. destruct lvl as [|l]; [done|].
  rewrite (H [] i path p eq_refl (Nat.lt_0_succ l) eq_refl). destruct (own_next (S l) (rd m (slot p i))) as [q|] eqn:E; [|done].
  apply IH. intros pre j rest r -> Hl Hr. apply (H (i :: pre) j rest r); [done | cbn [length]; lia |]. cbn [reach]. by rewrite E.
Qed.

Lemma walk_ext m m' lvl p va :
  (forall pre i rest q, va_path lvl va = pre ++ i :: rest -> (length pre < lvl)%nat -> reach m lvl p pre = Some q -> rd m' (slot q i) = rd m (slot q i)) ->
  walk m' lvl p va = walk m lvl p va.
Proof.
  revert p. induction lvl as [|l IH]; intros p H; [done|]. cbn [walk]. rewrite (H [] (index va (shift_of (S l))) (va_path l va) p eq_refl (Nat.lt_0_succ l) eq_refl).
  set (e := rd m (slot p (index va (shift_of (S l))))) in *. destruct (present e) eqn:Ep; cbn [negb]; [|done].
  destruct ((S l =? 1)%nat || huge e) eqn:Eh; [done|]. rewrite (IH (addr_of e)); [done|].
  intros pre i rest q Hp Hl Hr. apply (H (index va (shift_of (S l)) :: pre) i rest q); [cbn [va_path app]; by rewrite Hp | cbn [length]; lia |].
  cbn [reach]. fold e. unfold own_next. apply orb_false_iff in Eh as [-> ->]. by rewrite Ep.
Qed.

Lemma va_path_range lvl va : Forall (fun i => 0 <= i < 512) (va_path lvl va).
Proof. induction lvl; cbn [va_path]; [constructor | constructor; [exact (index_range _ _) | done]]. Qed.

Lemma va_path_drop (d : nat) lvl va : drop d (va_path lvl va) = va_path (lvl - d) va.
Proof. revert lvl. induction d as [|d IH]; intros [|lvl]; try done. cbn [va_path drop]. by rewrite IH. Qed.

(** The index of [va] at a level, when the way there is [pre]. *)
Lemma va_path_index lvl va pre i rest : va_path lvl va = pre ++ i :: rest -> index va (shift_of (lvl - length pre)) = i /\ (length pre < lvl)%nat.
Proof.
  intros H. assert (E : drop (length pre) (va_path lvl va) = i :: rest) by (by rewrite H, drop_app_length). rewrite va_path_drop in E.
  destruct (lvl - length pre)%nat as [|l] eqn:El; [done|]. cbn [va_path] in E. injection E as E _. split; [done | lia].
Qed.

Lemma va_path_length lvl va : length (va_path lvl va) = lvl.
Proof. induction lvl; cbn [va_path length]; lia. Qed.

End walks.
