(* ===== verification/VmmOwn.v ===== *)
(** * Ownership of frames

    The frames an address space reaches through its own part of the root table: its
    tables, and with [n = 4] its user pages.  [ok n]: all of them are in use and none is
    reached twice, in one address space or in two.  The lemmas say what a store, a new
    table and a new leaf do to ownership and to the walks of all address spaces. *)
From S2P Require Import Prelude Pmm Vmm VmmTables.
Local Open Scope capy_scope.

Implicit Types (s : vm) (m : gmap Z Z) (n lvl : nat) (a b p q f t i j v e va : Z) (path pre rest : list Z) (x k : vmm_address_space) (F : pmm).

(** The root entries that are an address space's own: the lower half, and for the kernel
    the one of the device window; the rest of the upper half is the firmware's. *)
Definition head s a i : Prop := 0 <= i < 256 \/ (a = KERNEL /\ device_base s <> 0 /\ i = index (device_base s) 39).
Definition path_ok s a path : Prop := Forall (fun i => 0 <= i < 512) path /\ match path with i :: _ => head s a i | [] => True end.
Definition owned n s a path f : Prop :=
  exists x, spaces s !! a = Some x /\ path_ok s a path /\ (length path <= n)%nat /\ reach (ram s) 4 (pml4_phys x) path = Some f.

Definition entry_at s t i : Z := rd (ram s) (slot t i).

(** What the entries look like.  In a user address space a table pointer is writable and
    has the user bit, and a huge leaf has not; the kernel's entries are all writable and
    never have it, and its huge leaves are aligned. *)
Definition entry_ok (a : Z) (depth : nat) e : Prop :=
  present e = true ->
  if a =? KERNEL then 0 <= e /\ user e = false /\ writable e = true /\ ((depth < 3)%nat -> huge e = true -> depth <> O /\ addr_of e `mod` 2 ^ shift_of (4 - depth) = 0)
  else (depth < 3)%nat -> if huge e then depth <> O /\ user e = false else user e = true /\ writable e = true.

Record ok n s : Prop := {
  ok_frames : frames_ok (frames s);
  ok_used : forall a path f, owned n s a path f -> used (frames s) f;
  ok_inj : forall a b path path' f, owned n s a path f -> owned n s b path' f -> a = b /\ path = path';
  ok_next : forall a x, spaces s !! a = Some x -> 0 <= a < next_as s;
  ok_kernel : exists k, spaces s !! KERNEL = Some k;
  ok_high : forall a x k i, spaces s !! a = Some x -> spaces s !! KERNEL = Some k -> 256 <= i < 512 -> entry_at s (pml4_phys x) i = entry_at s (pml4_phys k) i;
  ok_entries : forall a path t i, owned 3 s a path t -> path_ok s a (path ++ [i]) -> entry_ok a (length path) (entry_at s t i);
  ok_counts : (4 <= n)%nat -> refcounts s = pmm_frame_refcount_init }.

(** What the processor makes of [va] in address space [a]. *)
Definition walk_of s a va : option (Z * bool * bool) := match spaces s !! a with Some x => walk (ram s) 4 (pml4_phys x) va | None => None end.
Definition in_head s a va : Prop := head s a (index va 39).

Section paths.
Lemma path_ok_app s a pre rest : path_ok s a (pre ++ rest) -> path_ok s a pre.
Proof. intros [H1 H2]. apply Forall_app in H1 as [H1 _]. split; [done|]. by destruct pre. Qed.

Lemma path_ok_last s a path i : path_ok s a (path ++ [i]) -> 0 <= i < 512.
Proof. intros [H _]. apply Forall_app in H as [_ H]. by apply Forall_inv in H. Qed.

Lemma path_ok_snoc s a path i : path_ok s a path -> path <> [] -> 0 <= i < 512 -> path_ok s a (path ++ [i]).
Proof. intros [H1 H2] Hne Hi. split; [apply Forall_app; split; [done | constructor; [done | constructor]]|]. by destruct path. Qed.

Lemma va_path_ok s a va : in_head s a va -> path_ok s a (va_path 4 va).
Proof. intros H. split; [apply va_path_range | exact H]. Qed.

Lemma owned_le n n' s a path f : (n <= n')%nat -> owned n s a path f -> owned n' s a path f.
Proof. intros Hn (x & Hx & Hp & Hl & Hr). exists x. split_and!; try done. lia. Qed.

Lemma owned_pre n s a pre i rest f : owned n s a (pre ++ i :: rest) f -> exists q, owned 3 s a pre q.
Proof.
  intros (x & Hx & Hp & Hl & Hr). pose proof (reach_length _ _ _ _ _ Hr) as Hlen. rewrite length_app in Hlen. cbn [length] in Hlen.
  rewrite reach_app in Hr. destruct (reach (ram s) 4 (pml4_phys x) pre) as [q|] eqn:E; [|done]. exists q, x. split_and!; [done | by apply path_ok_app in Hp | lia | done].
Qed.

Lemma owned_root n s a x : spaces s !! a = Some x -> owned n s a [] (pml4_phys x).
Proof. intros H. exists x. split_and!; [done | split; [constructor | done] | cbn; lia | done]. Qed.

Lemma owned_snoc n s a path t i q : owned 3 s a path t -> path_ok s a (path ++ [i]) -> (length path < n)%nat ->
  owned n s a (path ++ [i]) q <-> own_next (4 - length path) (entry_at s t i) = Some q.
Proof.
  intros (x & Hx & Hp & Hl & Hr) Hpi Hn. assert (Hlt : (length path < 4)%nat) by lia. split.
  - intros (x' & Hx' & _ & _ & Hr'). replace x' with x in * by congruence. rewrite reach_snoc, Hr in Hr'. apply Nat.ltb_lt in Hlt. by rewrite Hlt in Hr'.
  - intros E. exists x. split_and!; [done | done | rewrite length_app; cbn; lia |]. rewrite reach_snoc, Hr. apply Nat.ltb_lt in Hlt. by rewrite Hlt.
Qed.

Lemma ok_le n n' s : (n' <= n)%nat -> ok n s -> ok n' s.
Proof.
  intros Hn []. constructor; try done.
  - intros a path f H. apply (ok_used0 a path). by eapply owned_le.
  - intros a b path path' f H H'. apply (ok_inj0 a b path path' f); by eapply owned_le.
  - intros H. apply ok_counts0. lia.
Qed.

Lemma owned_aligned n s a path f : ok n s -> owned n s a path f -> aligned f /\ f <> 0.
Proof. intros Hok H. eapply frame_aligned; [apply Hok | by eapply Hok]. Qed.
End paths.

(** ** Changes of memory *)
Section memory.

(** [m'] holds what [s] has in every owned table, except for one entry. *)
Definition same_tables s m' : Prop := forall b pre q j, owned 3 s b pre q -> 0 <= j < 512 -> rd m' (slot q j) = entry_at s q j.
Definition same_except s m' a path i : Prop :=
  forall b pre q j, owned 3 s b pre q -> 0 <= j < 512 -> ~ (b = a /\ pre = path /\ j = i) -> rd m' (slot q j) = entry_at s q j.

(** The way to [path'] in [b] leads through that entry. *)
Definition through a path i b path' : Prop := b = a /\ exists rest, path' = path ++ i :: rest.

#[global] Instance through_dec a path i b path' : Decision (through a path i b path').
Proof.
  destruct (decide (b = a)) as [->|H]; [|right; by intros []]. destruct (decide ((path ++ [i]) `prefix_of` path')) as [Hp|Hp]; [left | right].
  - split; [done|]. destruct Hp as [r ->]. exists r. by rewrite <- app_assoc.
  - intros (_ & r & ->). apply Hp. exists r. by rewrite <- app_assoc.
Defined.

Lemma reach_except s m' a path i b x path' : same_except s m' a path i -> spaces s !! b = Some x -> path_ok s b path' -> ~ through a path i b path' ->
  reach m' 4 (pml4_phys x) path' = reach (ram s) 4 (pml4_phys x) path'.
Proof.
  intros Hm Hx Hp Hno. apply reach_ext. intros pre j rest q -> Hl Hr.
  apply (Hm b pre q j); [exists x; split_and!; [done | by apply path_ok_app in Hp | lia | done] | |].
  - destruct Hp as [Hp _]. apply Forall_app in Hp as [_ Hp]. by apply Forall_inv in Hp.
  - intros (-> & -> & ->). apply Hno. split; [done|]. by exists rest.
Qed.

Lemma walk_except s m' a path i b x va : same_except s m' a path i -> spaces s !! b = Some x -> in_head s b va -> ~ through a path i b (va_path 4 va) ->
  walk m' 4 (pml4_phys x) va = walk (ram s) 4 (pml4_phys x) va.
Proof.
  intros Hm Hx Hh Hno. pose proof (va_path_ok s b va Hh) as Hp. apply walk_ext. intros pre j rest q E Hl Hr. rewrite E in Hp, Hno.
  apply (Hm b pre q j); [exists x; split_and!; [done | by apply path_ok_app in Hp | lia | done] | |].
  - destruct Hp as [Hp _]. apply Forall_app in Hp as [_ Hp]. by apply Forall_inv in Hp.
  - intros (-> & -> & ->). apply Hno. split; [done|]. by exists rest.
Qed.

Lemma same_tables_except s m' : same_tables s m' -> forall a path i, same_except s m' a path i.
Proof. intros H a path i b pre q j Ho Hj _. by apply (H b pre). Qed.

(** Memory outside the tables does not matter. *)
Lemma reach_same s m' b x path : same_tables s m' -> spaces s !! b = Some x -> path_ok s b path -> reach m' 4 (pml4_phys x) path = reach (ram s) 4 (pml4_phys x) path.
Proof.
  intros Hm Hx Hp. apply (reach_except s m' b [] (-1) b x path); [by apply same_tables_except | done | done |].
  intros (_ & rest & ->). destruct Hp as [Hp _]. apply Forall_inv in Hp. lia.
Qed.

Lemma owned_same n s m' b path f : same_tables s m' -> owned n (with_ram m' s) b path f <-> owned n s b path f.
Proof.
  intros Hm. split; intros (x & Hx & Hp & Hl & Hr); exists x; (split_and!; [done | done | done |]); cbn [ram with_ram spaces] in *.
  - by rewrite (reach_same s m' b x path) in Hr.
  - by rewrite (reach_same s m' b x path).
Qed.

Lemma ok_same n s m' : (3 <= n)%nat -> ok n s -> same_tables s m' -> ok n (with_ram m' s).
Proof.
  intros Hn Hok Hm. pose proof Hok as []. constructor; cbn [frames spaces next_as refcounts with_ram]; try done.
  - intros a path f H%owned_same; [by apply (ok_used0 a path) | done].
  - intros a b path path' f H%owned_same H'%owned_same; [by apply (ok_inj0 a b path path' f) | done..].
  - intros a x k i Hx Hk Hi. unfold entry_at. cbn [ram with_ram].
    rewrite (Hm a [] (pml4_phys x) i), (Hm KERNEL [] (pml4_phys k) i); [by eapply ok_high0 | by apply owned_root | lia | by apply owned_root | lia].
  - intros a path t i H%owned_same Hp; [|done]. unfold entry_at. cbn [ram with_ram]. rewrite (Hm a path t i); [by apply ok_entries0 | done | by eapply path_ok_last].
Qed.

Lemma walk_same s m' b va : same_tables s m' -> in_head s b va -> walk_of (with_ram m' s) b va = walk_of s b va.
Proof.
  intros Hm Hh. unfold walk_of. cbn [spaces ram with_ram]. destruct (spaces s !! b) as [x|] eqn:Hx; [|done].
  apply (walk_except s m' b [] (-1) b x va); [by apply same_tables_except | done | done |].
  intros (_ & rest & E). pose proof (va_path_range 4 va) as H. rewrite E in H. apply Forall_inv in H. lia.
Qed.

(** A store into an owned entry. *)
Lemma store_except n s a path t i v m : (3 <= n)%nat -> ok n s -> owned 3 s a path t -> 0 <= i < 512 -> same_tables s m ->
  same_except s (<[slot t i := v]> m) a path i.
Proof.
  intros Hn Hok Ho Hi Hm b pre q j Hq Hj Hne. rewrite rd_insert. destruct (Z.eqb_spec (slot q j) (slot t i)) as [E|]; [|by apply (Hm b pre)].
  pose proof (owned_le 3 n s _ _ _ Hn Ho) as Ho'. pose proof (owned_le 3 n s _ _ _ Hn Hq) as Hq'.
  apply slot_inj in E as [-> ->]; [| by eapply owned_aligned | by eapply owned_aligned | done | done].
  destruct (ok_inj n s Hok b a pre path t Hq' Ho') as [-> ->]. by destruct Hne.
Qed.

Lemma same_refl s : same_tables s (ram s).
Proof. by intros b pre q j _ _. Qed.

(** A page that no table occupies may be filled. *)
Lemma fill_same s m m' p lo hi (g : Z -> Z) : same_tables s m -> page_set p lo hi g m m' -> 0 <= lo -> hi <= 512 -> aligned p ->
  (forall b pre q, owned 3 s b pre q -> aligned q /\ q <> p) -> same_tables s m'.
Proof.
  intros Hm [_ H] Hlo Hhi Hp Hno b pre q j Ho Hj. rewrite H; [by apply (Hm b pre)|]. intros i Hi E.
  destruct (Hno _ _ _ Ho) as [Hq Hne]. by apply slot_inj in E as [-> _]; [|done|done|lia|lia].
Qed.

Lemma free_not_owned n s f b pre q : (3 <= n)%nat -> ok n s -> free (frames s) f -> owned 3 s b pre q -> aligned q /\ q <> f.
Proof.
  intros Hn Hok Hf Ho. apply (owned_le 3 n s _ _ _ Hn) in Ho. split; [by eapply owned_aligned|]. intros ->. eapply used_not_free; [by eapply ok_used | done].
Qed.
End memory.

(** ** New entries *)
Section entries.
Context (n : nat) (s : vm) (a : Z) (path : list Z) (t i v : Z) (m' : gmap Z Z).
Context (Hn : (3 <= n)%nat) (Hok : ok n s) (Ho : owned 3 s a path t) (Hpi : path_ok s a (path ++ [i])).
Context (Hm : same_except s m' a path i) (Hv : rd m' (slot t i) = v).
Context (Hhigh : path = [] -> 256 <= i -> v = entry_at s t i).

Lemma entry_of b pre q j : owned 3 s b pre q -> 0 <= j < 512 -> rd m' (slot q j) = entry_at s q j \/ (b = a /\ pre = path /\ j = i /\ q = t).
Proof.
  intros Hq Hj. destruct (decide (b = a /\ pre = path /\ j = i)) as [(-> & -> & ->)|Hne]; [right | by left; apply (Hm b pre)].
  split_and!; try done. destruct Hq as (x & Hx & _ & _ & Hr), Ho as (x' & Hx' & _ & _ & Hr'). congruence.
Qed.

(** What is reached after a store at depth [length path]. *)
Lemma owned_except b path' f F' : ~ through a path i b path' -> owned n (with_ram m' (with_frames F' s)) b path' f <-> owned n s b path' f.
Proof.
  intros Hno. split; intros (x & Hx & Hp & Hl & Hr); exists x; (split_and!; [done | done | done |]); cbn [ram with_ram with_frames spaces] in *.
  - by rewrite (reach_except s m' a path i b x path') in Hr.
  - by rewrite (reach_except s m' a path i b x path').
Qed.

Lemma owned_store rest f F' : owned n (with_ram m' (with_frames F' s)) a (path ++ i :: rest) f <->
  path_ok s a (path ++ i :: rest) /\ (length (path ++ i :: rest) <= n)%nat /\
  match own_next (4 - length path) v with Some q => reach m' (3 - length path) q rest = Some f | None => False end.
Proof.
  assert (Hno : ~ through a path i a path). { intros (_ & r & E). apply (f_equal length) in E. rewrite length_app in E. cbn in E. lia. }
  assert (Hl : (length path <= 3)%nat) by (by destruct Ho as (? & _ & _ & ? & _)).
  assert (E : forall x, spaces s !! a = Some x -> reach m' 4 (pml4_phys x) (path ++ i :: rest) =
    match own_next (4 - length path) v with Some q => reach m' (3 - length path) q rest | None => None end).
  { intros x Hx. destruct Ho as (x' & Hx' & Hp & _ & Hr). replace x' with x in * by congruence. rewrite reach_app, (reach_except s m' a path i a x path), Hr by done.
    cbn [reach]. destruct (4 - length path)%nat as [|l] eqn:El; [lia|]. rewrite Hv. by replace (3 - length path)%nat with l by lia. }
  split.
  - intros (x & Hx & Hp & Hln & Hr). cbn [ram with_ram with_frames spaces] in *. rewrite (E x Hx) in Hr. split_and!; [done | done |]. by destruct (own_next _ v).
  - intros (Hp & Hln & H). destruct Ho as (x & Hx & _). exists x. cbn [ram with_ram with_frames spaces] in *. split_and!; [done | done | done |]. rewrite (E x Hx). by destruct (own_next _ v).
Qed.

Lemma high_except b x k j : spaces s !! b = Some x -> spaces s !! KERNEL = Some k -> 256 <= j < 512 -> rd m' (slot (pml4_phys x) j) = rd m' (slot (pml4_phys k) j).
Proof.
  intros Hx Hk Hj. pose proof (ok_high n s Hok b x k j Hx Hk Hj) as E. assert (Hi : 0 <= i < 512) by (by eapply path_ok_last).
  destruct (entry_of b [] (pml4_phys x) j (owned_root 3 s b x Hx) ltac:(lia)) as [->|(-> & Ep & Ej & Et)];
  destruct (entry_of KERNEL [] (pml4_phys k) j (owned_root 3 s KERNEL k Hk) ltac:(lia)) as [->|(E1 & E2 & E3 & E4)]; [done | | |]; subst j.
  - rewrite E, E4, Hv, (Hhigh ltac:(congruence) ltac:(lia)). done.
  - rewrite Et, Hv, (Hhigh ltac:(congruence) ltac:(lia)), <- Et. done.
  - by rewrite Et, E4.
Qed.

(** The store gives the address space at most one frame, whose page is an empty table or
    a leaf, and which nothing else owns. *)
Context (F' : pmm) (HF : frames_ok F') (Hgrow : forall g, used (frames s) g -> used F' g).
Context (Hempty : forall q j, own_next (4 - length path) v = Some q -> (length path < 3)%nat -> 0 <= j < 512 -> rd m' (slot q j) = 0).
Context (Hnew : forall q, own_next (4 - length path) v = Some q -> (length path < n)%nat ->
  used F' q /\ forall b path', owned n s b path' q -> through a path i b path').
Context (Hev : entry_ok a (length path) v).
Local Abbreviation s' := (with_ram m' (with_frames F' s)).

Lemma own_next_0 lvl : own_next lvl 0 = None.
Proof. done. Qed.

Lemma owned_after b path' g : owned n s' b path' g <->
  (~ through a path i b path' /\ owned n s b path' g) \/ (b = a /\ path' = path ++ [i] /\ (length path < n)%nat /\ own_next (4 - length path) v = Some g).
Proof.
  assert (Hl : (length path <= 3)%nat) by (by destruct Ho as (? & _ & _ & ? & _)).
  destruct (decide (through a path i b path')) as [[-> (rest & ->)]|Hno]; [|rewrite (owned_except b path' g F' Hno); split; [auto | intros [[_ ?]|(-> & -> & _)]; [done|]; destruct Hno; split; [done | by exists []]]].
  rewrite owned_store. split.
  - intros (Hp & Hln & H). right. destruct (own_next (4 - length path) v) as [q|] eqn:Eq; [|done]. destruct rest as [|j rest].
    + rewrite length_app in Hln. cbn in Hln, H. split_and!; [done | done | lia | done].
    + exfalso. cbn [reach] in H. destruct (3 - length path)%nat as [|l] eqn:El; [done|]. rewrite (Hempty q j eq_refl) in H; [done | lia |].
      destruct Hp as [Hp _]. apply Forall_app in Hp as [_ Hp]. apply Forall_inv_tail, Forall_inv in Hp. done.
  - intros [[Hno _]|(_ & E & Hln & H)]; [destruct Hno; split; [done | by exists rest]|]. apply app_inv_head in E. injection E as ->.
    rewrite H. split_and!; [done | rewrite length_app; cbn; lia | done].
Qed.

Lemma entry_after b pre q j : owned 3 s b pre q -> path_ok s b (pre ++ [j]) -> entry_ok b (length pre) (rd m' (slot q j)).
Proof.
  intros Hq Hj. destruct (entry_of b pre q j Hq ltac:(by eapply path_ok_last)) as [->|(-> & -> & -> & ->)]; [by apply (ok_entries n s Hok b pre)|]. by rewrite Hv.
Qed.

Lemma ok_after : ok n s'.
Proof.
  assert (Hl : (length path <= 3)%nat) by (by destruct Ho as (? & _ & _ & ? & _)).
  constructor; cbn [frames spaces next_as refcounts with_ram with_frames]; [done | | | apply Hok | apply Hok | | | apply Hok].
  - intros b p g [[_ H]|(_ & _ & Hln & H)]%owned_after; [by apply Hgrow; eapply ok_used | by apply Hnew].
  - intros b c p p' g [[Hn1 H1]|(-> & -> & Hl1 & H1)]%owned_after [[Hn2 H2]|(-> & -> & Hl2 & H2)]%owned_after.
    + by apply (ok_inj n s Hok b c p p' g).
    + destruct (Hnew g H2 Hl2) as [_ Hg]. by destruct Hn1; apply Hg.
    + destruct (Hnew g H1 Hl1) as [_ Hg]. by destruct Hn2; apply Hg.
    + done.
  - intros b x k j Hx Hk Hj. unfold entry_at. cbn [ram with_ram]. by apply (high_except b x k j).
  - intros b pre q j Hq Hj. unfold entry_at. cbn [ram with_ram].
    assert (Hq' : owned n s' b pre q) by (by eapply owned_le; [|exact Hq]). apply owned_after in Hq' as [[_ H]|(-> & -> & Hl1 & H)].
    + apply entry_after; [|exact Hj]. destruct Hq as (x & Hx & Hp & Hlq & _), H as (x' & Hx' & _ & _ & Hr). exists x'. by split_and!.
    + assert (Hl3 : (length path < 3)%nat) by (destruct Hq as (_ & _ & _ & Hlq & _); rewrite length_app in Hlq; cbn in Hlq; lia).
      intros Hpr. rewrite (Hempty q j H Hl3) in Hpr; [done | by eapply path_ok_last].
Qed.
End entries.

(** ** Walks through owned tables *)
Lemma walk_down m lvl p pre q va rest (uf : bool) : va_path lvl va = pre ++ rest -> (length pre < lvl)%nat -> reach m lvl p pre = Some q ->
  (forall pre' i rest' q', pre = pre' ++ i :: rest' -> reach m lvl p pre' = Some q' -> writable (rd m (slot q' i)) = true /\ user (rd m (slot q' i)) = uf) ->
  walk m lvl p va = match walk m (lvl - length pre) q va with Some (pa, w, u) => Some (pa, w, u && (uf || bool_decide (pre = []))) | None => None end.
Proof.
  revert lvl p. induction pre as [|i pre IH]; intros lvl p Hva Hl Hr H.
  - cbn [length] in *. rewrite Nat.sub_0_r. injection Hr as ->. destruct (walk m lvl q va) as [[[pa w] u]|]; [|done]. rewrite bool_decide_eq_true_2, orb_true_r by done. by rewrite andb_true_r.
  - destruct lvl as [|l]; [done|]. cbn [va_path app length] in *. injection Hva as Hi Hva. cbn [reach] in Hr.
    destruct (own_next (S l) (rd m (slot p i))) as [r|] eqn:Er; [|done]. destruct (H [] i pre p eq_refl eq_refl) as [Hw Hu].
    unfold own_next in Er. cbn [walk]. rewrite Hi. destruct (present (rd m (slot p i))) eqn:Epr; [|done]. cbn [andb negb] in *.
    assert (E1 : (S l =? 1)%nat = false) by (apply Nat.eqb_neq; lia). rewrite E1 in Er |- *. cbn [orb]. destruct (huge (rd m (slot p i))) eqn:Eh; [done|]. injection Er as <-.
    rewrite (IH l _ Hva ltac:(lia) Hr), Hw, Hu.
    + change (S l - S (length pre))%nat with (l - length pre)%nat. destruct (walk m (l - length pre) q va) as [[[pa w] u]|]; [|done].
      rewrite andb_true_r. destruct uf; cbn [orb]; [by rewrite !andb_true_r|]. by rewrite !andb_false_r.
    + intros pre' j rest' q' -> Hr'. apply (H (i :: pre') j rest' q'); [done|]. cbn [reach]. unfold own_next.
      by rewrite Epr, E1, Eh.
Qed.

(** ** States that differ outside the tables *)
Definition root_of s a : option Z := pml4_phys <$> spaces s !! a.
Definition like s s' : Prop := ram s' = ram s /\ device_base s' = device_base s /\ forall a, root_of s' a = root_of s a.

Section like.
Lemma like_refl s : like s s.
Proof. done. Qed.

Lemma like_space s s' a x : like s s' -> spaces s !! a = Some x -> exists x', spaces s' !! a = Some x' /\ pml4_phys x' = pml4_phys x.
Proof.
  intros (_ & _ & H) Hx. specialize (H a). unfold root_of in H. rewrite Hx in H. cbn in H. destruct (spaces s' !! a) as [x'|]; [|done]. exists x'. split; [done|]. by injection H.
Qed.

Lemma like_sym s s' : like s s' -> like s' s.
Proof. intros (H1 & H2 & H3). split_and!; [done | done | intros a; by rewrite H3]. Qed.

Lemma head_like s s' a i : like s s' -> head s a i -> head s' a i.
Proof. intros (_ & H & _). unfold head. by rewrite H. Qed.

Lemma path_ok_like s s' a path : like s s' -> path_ok s a path -> path_ok s' a path.
Proof. intros H [H1 H2]. split; [done|]. destruct path; [done|]. by eapply head_like. Qed.

Lemma owned_like n s s' a path f : like s s' -> owned n s a path f -> owned n s' a path f.
Proof.
  intros H (x & Hx & Hp & Hl & Hr). destruct (like_space _ _ _ _ H Hx) as (x' & Hx' & E). exists x'. split_and!; [done | by eapply path_ok_like | done |].
  destruct H as (-> & _). by rewrite E.
Qed.

Lemma walk_like s s' a va : like s s' -> walk_of s' a va = walk_of s a va.
Proof.
  intros (Hm & _ & Hr). specialize (Hr a). unfold root_of, walk_of in *. rewrite Hm. destruct (spaces s !! a) as [x|], (spaces s' !! a) as [x'|]; try done. by injection Hr as ->.
Qed.

Lemma ok_like n s s' : like s s' -> frames s' = frames s -> refcounts s' = refcounts s -> next_as s' = next_as s -> ok n s -> ok n s'.
Proof.
  intros H Hf Hr Hn Hok. pose proof (like_sym _ _ H) as H'. assert (Em : ram s' = ram s) by apply H. pose proof Hok as [].
  constructor; rewrite ?Hf, ?Hr, ?Hn; try done.
  - intros a path f Ho. apply (ok_used0 a path). by eapply owned_like.
  - intros a b path path' f Ha Hb. apply (ok_inj0 a b path path' f); by eapply owned_like.
  - intros a x Hx. destruct (like_space _ _ _ _ H' Hx) as (x' & Hx' & _). by eapply ok_next0.
  - destruct ok_kernel0 as [k Hk]. destruct (like_space _ _ _ _ H Hk) as (k' & Hk' & _). by exists k'.
  - intros a x k i Hx Hk Hi. destruct (like_space _ _ _ _ H' Hx) as (x' & Hx' & <-), (like_space _ _ _ _ H' Hk) as (k' & Hk' & <-). unfold entry_at. rewrite Em. by eapply ok_high0.
  - intros a path t i Ho Hp. unfold entry_at. rewrite Em. apply ok_entries0; [by eapply owned_like | by eapply path_ok_like].
Qed.
End like.

(** ** Walks of owned paths *)
Section owned_walks.
Context (n : nat) (s : vm) (Hn : (3 <= n)%nat) (Hok : ok n s).

(** In a user address space the tables on the way restrict nothing. *)
Lemma walk_table a path t va rest : a <> KERNEL -> owned 3 s a path t -> va_path 4 va = path ++ rest -> walk_of s a va = walk (ram s) (4 - length path) t va.
Proof.
  intros Ha Ho Hva. pose proof Ho as (x & Hx & Hp & Hl & Hr). unfold walk_of. rewrite Hx. rewrite (walk_down _ _ _ path t va rest true Hva ltac:(lia) Hr).
  - destruct (walk _ _ t va) as [[[pa w] u]|]; [|done]. by rewrite andb_true_r.
  - intros pre i rest' q -> Hq. rewrite length_app in Hl. cbn [length] in Hl. assert (Hoq : owned 3 s a pre q) by (exists x; split_and!; [done | by apply path_ok_app in Hp | lia | done]).
    assert (Hpi : path_ok s a (pre ++ [i])) by (apply (path_ok_app s a _ rest'); by rewrite <- app_assoc).
    pose proof (ok_entries n s Hok a pre q i Hoq Hpi) as He. unfold entry_ok in He. replace (a =? KERNEL) with false in He by lia.
    rewrite reach_app, Hq in Hr. cbn [reach] in Hr. destruct (4 - length pre)%nat as [|l] eqn:El; [lia|]. unfold own_next in Hr. unfold entry_at in He.
    destruct (present (rd (ram s) (slot q i))); [|done]. replace (S l =? 1)%nat with false in Hr by (symmetry; apply Nat.eqb_neq; lia).
    specialize (He eq_refl ltac:(lia)). destruct (huge (rd (ram s) (slot q i))); [done|]. by destruct He.
Qed.

(** An entry that is not present maps nothing. *)
Lemma walk_absent a path t i va rest : owned 3 s a path t -> va_path 4 va = path ++ i :: rest -> in_head s a va -> present (entry_at s t i) = false -> walk_of s a va = None.
Proof.
  intros Ho Hva Hh Hpr. pose proof Ho as (x & Hx & Hp & Hl & Hr). unfold walk_of. rewrite Hx.
  assert (Hlast : walk (ram s) (4 - length path) t va = None).
  { destruct (va_path_index 4 va path i rest Hva) as [Ei _]. destruct (4 - length path)%nat as [|l]; [done|]. cbn [walk]. rewrite Ei. unfold entry_at in Hpr. by rewrite Hpr. }
  destruct (decide (a = KERNEL)) as [->|Ha]; [|by rewrite <- (walk_table a path t va (i :: rest) Ha Ho Hva) in Hlast; unfold walk_of in Hlast; rewrite Hx in Hlast].
  rewrite (walk_down _ _ _ path t va (i :: rest) false Hva ltac:(lia) Hr), Hlast; [done|].
  intros pre j rest' q -> Hq. rewrite length_app in Hl. cbn [length] in Hl. assert (Hoq : owned 3 s KERNEL pre q) by (exists x; split_and!; [done | by apply path_ok_app in Hp | lia | done]).
  assert (Hpj : path_ok s KERNEL (pre ++ [j])) by (apply (path_ok_app s KERNEL _ rest'); by rewrite <- app_assoc).
  pose proof (ok_entries n s Hok KERNEL pre q j Hoq Hpj) as He. unfold entry_ok, entry_at in He. cbn [Z.eqb KERNEL] in He.
  rewrite reach_app, Hq in Hr. cbn [reach] in Hr. destruct (4 - length pre)%nat as [|l] eqn:El; [lia|]. unfold own_next in Hr.
  destruct (present (rd (ram s) (slot q j))); [|done]. by destruct (He eq_refl) as (_ & ? & ? & _).
Qed.
End owned_walks.
