(* ===== verification/VmmOps.v ===== *)
(** * Mapping pages

    What [vmm_map_page], [vmm_unmap_page], [vmm_virt_to_phys] and the fault handler do to
    a state in which no frame is owned twice: new tables change no walk, and a leaf
    changes the walks of one page of one address space. *)
From S2P Require Import Prelude Pmm Vmm VmmTables VmmOwn.
Local Open Scope capy_scope.

Implicit Types (s : vm) (m : gmap Z Z) (n lvl : nat) (a b q f t i j v e va : Z) (path pre rest : list Z) (x k : vmm_address_space) (F : pmm).

Definition no_huge_at s a va : Prop := forall pre i rest q, va_path 4 va = pre ++ i :: rest -> (length pre < 3)%nat -> owned 3 s a pre q ->
  present (entry_at s q i) = true -> huge (entry_at s q i) = false.

(** [s'] is [s] with more tables for [a], all of them empty: no walk changes, and neither
    does a page in use that is not a table. *)
Record grown n a s s' : Prop := {
  gr_ok : ok n s';
  gr_state : exists m' F', s' = with_ram m' (with_frames F' s);
  gr_walk : forall b va, in_head s b va -> walk_of s' b va = walk_of s b va;
  gr_owned : forall b p f, owned n s b p f -> owned n s' b p f;
  gr_new : forall b p f, owned n s' b p f -> owned n s b p f \/ (b = a /\ (length p <= 3)%nat /\ free (frames s) f);
  gr_used : forall g, used (frames s) g -> used (frames s') g;
  gr_leak : forall g, used (frames s') g -> used (frames s) g \/ exists p, owned n s' a p g;
  gr_page : forall g j, used (frames s) g -> (forall b p, ~ owned 3 s b p g) -> 0 <= j < 512 -> rd (ram s') (slot g j) = rd (ram s) (slot g j);
  gr_huge : forall b va, no_huge_at s b va -> no_huge_at s' b va;
  gr_total : pmm_total_pages (frames s') = pmm_total_pages (frames s) }.

(** The flags of the tables made for an address space. *)
Definition table_flags a : Z := let p := Z.lor VMM_PAGE_PRESENT VMM_PAGE_WRITE in if a =? KERNEL then p else Z.lor p VMM_PAGE_USER.

Lemma table_entry a p : aligned p -> let e := Z.lor (Z.lor p (table_flags a)) VMM_PAGE_PRESENT in
  0 <= e /\ addr_of e = p /\ present e = true /\ huge e = false /\ writable e = true /\ user e = negb (a =? KERNEL).
Proof.
  intros Hp. assert (Hf : flag_bits (table_flags a)) by (unfold table_flags; by destruct (a =? KERNEL)). cbv zeta.
  split; [destruct Hp as (q & -> & ?); apply Z.lor_nonneg; split; [apply Z.lor_nonneg; split; [lia | apply Hf] | done]|].
  destruct (entry_bits p _ Hp Hf) as (-> & -> & -> & -> & ->). unfold table_flags. by destruct (a =? KERNEL).
Qed.

Section grown.
Context (n : nat) (Hn : (3 <= n)%nat).

Lemma grown_refl a s : ok n s -> grown n a s s.
Proof.
  intros Hok. constructor; try done; [by exists (ram s), (frames s); destruct s | by left | by left].
Qed.

Lemma head_same m' F' s a i : head (with_ram m' (with_frames F' s)) a i <-> head s a i.
Proof. done. Qed.

Lemma owned_3 s a p f : owned n s a p f -> (length p <= 3)%nat -> owned 3 s a p f.
Proof. intros (x & Hx & Hp & _ & Hr) Hl. by exists x. Qed.

Lemma grown_free a s1 s2 f : grown n a s1 s2 -> free (frames s2) f -> free (frames s1) f.
Proof.
  intros H12 (q & -> & Hq & Hb). exists q. rewrite (gr_total _ _ _ _ H12) in Hq. split_and!; [done | lia | lia |].
  destruct (bitmap_test q (pmm_bitmap (frames s1))) eqn:E; [|done]. exfalso. eapply (used_not_free (frames s2)); [apply (gr_used _ _ _ _ H12); by exists q|].
  exists q. rewrite (gr_total _ _ _ _ H12). done.
Qed.

Lemma grown_trans a s1 s2 s3 : grown n a s1 s2 -> grown n a s2 s3 -> grown n a s1 s3.
Proof.
  intros H12 H23. destruct (gr_state _ _ _ _ H12) as (m2 & F2 & E2), (gr_state _ _ _ _ H23) as (m3 & F3 & E3).
  pose proof (fun f => grown_free a s1 s2 f H12) as Hback.
  constructor.
  - apply H23.
  - exists m3, F3. by rewrite E3, E2.
  - intros b va Hh. rewrite (gr_walk _ _ _ _ H23), (gr_walk _ _ _ _ H12); [done | done | by rewrite E2].
  - intros b p f H. apply (gr_owned _ _ _ _ H23), (gr_owned _ _ _ _ H12), H.
  - intros b p f [H|(-> & Hl & Hf)]%(gr_new _ _ _ _ H23); [by apply (gr_new _ _ _ _ H12)|]. right. split_and!; [done | done | by apply Hback].
  - intros g H. by apply (gr_used _ _ _ _ H23), (gr_used _ _ _ _ H12).
  - intros g [[H|[p H]]%(gr_leak _ _ _ _ H12)|H]%(gr_leak _ _ _ _ H23); [by left | right; exists p; by apply (gr_owned _ _ _ _ H23) | by right].
  - intros g j Hg Hno Hj. rewrite (gr_page _ _ _ _ H23), (gr_page _ _ _ _ H12); [done.. | by apply (gr_used _ _ _ _ H12) | | done].
    intros b p Ho. pose proof (owned_le 3 n s2 b p g Hn Ho) as [H|(_ & _ & H)]%(gr_new _ _ _ _ H12).
    + apply (Hno b p). apply owned_3; [done|]. by destruct Ho as (_ & _ & _ & ? & _).
    + by eapply used_not_free.
  - intros b va H. by apply (gr_huge _ _ _ _ H23), (gr_huge _ _ _ _ H12).
  - by rewrite (gr_total _ _ _ _ H23), (gr_total _ _ _ _ H12).
Qed.

(** A new table: a free frame, cleared and linked at an entry that was not present. *)
Lemma link_grown a path t i s F' f m1 m' : ok n s -> owned 3 s a path t -> path_ok s a (path ++ [i]) -> (length path < 3)%nat ->
  present (entry_at s t i) = false -> (path = [] -> i < 256) -> taken (frames s) f F' -> page_set f 0 512 (fun _ => 0) (ram s) m1 ->
  m' = <[slot t i := Z.lor (Z.lor f (table_flags a)) VMM_PAGE_PRESENT]> m1 ->
  grown n a s (with_ram m' (with_frames F' s)) /\ owned 3 (with_ram m' (with_frames F' s)) a (path ++ [i]) f.
Proof.
  intros Hok Ho Hpi Hl Hpr Hi (HF & Hff & Htot & Hus & Hfr) Hpg ->. pose proof (path_ok_last _ _ _ _ Hpi) as Hi'.
  destruct (frame_aligned false _ _ (ok_frames _ _ Hok) Hff) as [Hfa Hf0]. destruct (table_entry a f Hfa) as (E0 & Ea & Ep & Eh & Ew & Eu).
  set (e := Z.lor (Z.lor f (table_flags a)) VMM_PAGE_PRESENT) in *. set (m' := <[slot t i := e]> m1). set (s' := with_ram m' (with_frames F' s)).
  assert (Hsm : same_tables s m1).
  { eapply (fill_same s (ram s) m1 f 0 512 _ (same_refl s) Hpg); [lia | lia | done |]. intros b pre q Hq. by eapply (free_not_owned n s). }
  assert (Hex : same_except s m' a path i) by (eapply store_except; done).
  assert (Hv : rd m' (slot t i) = e) by (unfold m'; by rewrite rd_insert, Z.eqb_refl).
  assert (Hlv : ((4 - length path)%nat =? 1)%nat = false) by (apply Nat.eqb_neq; lia).
  assert (Hnx : own_next (4 - length path) e = Some f) by (unfold own_next; rewrite Ep, Hlv, Eh, Ea; done).
  assert (Hold : own_next (4 - length path) (entry_at s t i) = None) by (unfold own_next; by rewrite Hpr).
  assert (Hta : aligned t) by (eapply (owned_aligned 3 s); [by eapply ok_le | done]).
  assert (Htf : t <> f) by (destruct (free_not_owned n s f a path t Hn Hok Hff Ho) as [_ ?]; done).
  assert (Hzero : forall j, 0 <= j < 512 -> rd m' (slot f j) = 0).
  { intros j Hj. unfold m'. rewrite rd_insert. destruct (Z.eqb_spec (slot f j) (slot t i)) as [E|_]; [|by apply Hpg].
    apply slot_inj in E as [-> _]; done. }
  assert (Hthr : forall b p g, owned n s b p g -> ~ through a path i b p).
  { intros b p g (x & Hx & _ & _ & Hr) [-> (rest & ->)]. destruct Ho as (x' & Hx' & _ & _ & Hr'). replace x' with x in * by congruence.
    rewrite reach_app, Hr' in Hr. cbn [reach] in Hr. destruct (4 - length path)%nat; [done|]. unfold entry_at in Hold. by rewrite Hold in Hr. }
  assert (Hhigh : path = [] -> 256 <= i -> e = entry_at s t i) by (intros ->; specialize (Hi eq_refl); lia).
  assert (Hgrow : forall g, used (frames s) g -> used F' g) by (intros g Hg; apply Hus; by right).
  assert (Hempty : forall q j, own_next (4 - length path) e = Some q -> (length path < 3)%nat -> 0 <= j < 512 -> rd m' (slot q j) = 0).
  { intros q j E _ Hj. replace q with f by congruence. by apply Hzero. }
  assert (Hnew : forall q, own_next (4 - length path) e = Some q -> (length path < n)%nat -> used F' q /\ forall b p, owned n s b p q -> through a path i b p).
  { intros q E _. replace q with f by congruence. split; [apply Hus; by left|]. intros b p H. exfalso. eapply used_not_free; [by eapply ok_used | done]. }
  assert (Hev : entry_ok a (length path) e).
  { intros _. destruct (a =? KERNEL); cbn [negb] in Eu; [split_and!; [done | done | done | congruence]|]. intros _. by rewrite Eh. }
  pose proof (owned_after n s a path t i e m' Hn Ho Hpi Hex Hv F' Hempty Hnew) as Haft. fold s' in Haft.
  assert (Hok' : ok n s') by (by apply (ok_after n s a path t i e m')).
  assert (Hown : owned n s' a (path ++ [i]) f) by (apply Haft; right; split_and!; [done | done | lia | done]).
  assert (Hno : forall b p g, owned n s' b p g -> owned n s b p g \/ (b = a /\ p = path ++ [i] /\ g = f)).
  { intros b p g [[_ H]|(-> & -> & _ & H)]%Haft; [by left | right; split_and!; [done | done | congruence]]. }
  split; [|apply owned_3; [done | rewrite length_app; cbn; lia]]. constructor.
  - done.
  - by exists m', F'.
  - intros b va Hh. destruct (decide (through a path i b (va_path 4 va))) as [[-> (rest & Hva)]|Hnt].
    + rewrite (walk_absent n s Hn Hok a path t i va rest) by done.
      apply (walk_absent n s' Hn Hok' a (path ++ [i]) f (index va (shift_of (3 - length path))) va (va_path (2 - length path) va)); [apply owned_3; [done | rewrite length_app; cbn; lia] | | done | unfold entry_at; cbn [ram s' with_ram]; rewrite Hzero by apply index_range; done].
      rewrite <- app_assoc. cbn [app]. rewrite Hva. f_equal. f_equal. pose proof (va_path_drop (S (length path)) 4 va) as E.
      rewrite Hva in E. change (path ++ i :: rest) with (path ++ [i] ++ rest) in E. rewrite app_assoc, drop_app_ge in E by (rewrite length_app; cbn; lia).
      rewrite length_app in E. cbn [length] in E. replace (S (length path) - (length path + 1))%nat with O in E by lia. rewrite drop_0 in E. rewrite E.
      replace (4 - S (length path))%nat with (S (2 - length path)) by lia. cbn [va_path]. by replace (S (2 - length path)) with (3 - length path)%nat by lia.
    + unfold walk_of. cbn [s' spaces ram with_ram with_frames]. destruct (spaces s !! b) as [x|] eqn:Hx; [|done]. by apply (walk_except s m' a path i b x va).
  - intros b p g H. apply Haft. left. split; [by eapply Hthr | done].
  - intros b p g [H|(-> & -> & ->)]%Hno; [by left|]. right. split_and!; [done | rewrite length_app; cbn; lia | done].
  - done.
  - intros g [->|H]%Hus; [right; by eexists | by left].
  - intros g j Hg Hno' Hj. cbn [s' ram with_ram]. destruct (frame_aligned true _ _ (ok_frames _ _ Hok) Hg) as [Hga _]. unfold m'. rewrite rd_insert.
    destruct (Z.eqb_spec (slot g j) (slot t i)) as [E|_].
    { apply slot_inj in E as [-> _]; [by destruct (Hno' a path) | done..]. }
    apply Hpg. intros k Hk E. apply slot_inj in E as [-> _]; [|done..]. by eapply used_not_free.
  - intros b va H pre j rest q Hva Hlp Hq Hpq. unfold entry_at in Hpq |- *. cbn [s' ram with_ram] in *.
    assert (Hq' : owned n s' b pre q) by (by eapply owned_le). assert (Hj : 0 <= j < 512) by (pose proof (va_path_range 4 va) as R; rewrite Hva in R; apply Forall_app in R as [_ R]; by apply Forall_inv in R).
    destruct (Hno _ _ _ Hq') as [Hq2|(-> & -> & ->)]; [|by rewrite Hzero in Hpq].
    assert (Hq3 : owned 3 s b pre q) by (apply owned_3; [done | lia]).
    destruct (entry_of s a path t i m' Ho Hex b pre q j Hq3 Hj) as [Ee|(-> & -> & -> & ->)]; [rewrite Ee in *; by apply (H pre j rest q)|]. by rewrite Hv.
  - done.
Qed.
End grown.

(** ** Leaves *)

(** The leaf of [va] in [a] becomes [e]; no other walk changes, and neither does a page in
    use that is not a table. *)
Record leaf_set n a va e s s' : Prop := {
  ls_ok : ok n s';
  ls_frames : frames s' = frames s;
  ls_counts : refcounts s' = refcounts s;
  ls_root : forall b, root_of s' b = root_of s b;
  ls_device : device_base s' = device_base s;
  ls_walk : forall b v, in_head s b v -> ~ (b = a /\ va_path 4 v = va_path 4 va) -> walk_of s' b v = walk_of s b v;
  ls_at : forall v, a <> KERNEL -> va_path 4 v = va_path 4 va ->
    walk_of s' a v = if present e then Some (addr_of e + page_offset 1 v, writable e, user e) else None;
  ls_word : exists pt, owned 3 s' a (take 3 (va_path 4 va)) pt /\ rd (ram s') (slot pt (index va 12)) = e;
  ls_owned : forall b p g, owned n s' b p g <->
    (~ (b = a /\ p = va_path 4 va) /\ owned n s b p g) \/ (b = a /\ p = va_path 4 va /\ (4 <= n)%nat /\ own_next 1 e = Some g);
  ls_page : forall g j, used (frames s) g -> (forall b p, ~ owned 3 s b p g) -> 0 <= j < 512 -> rd (ram s') (slot g j) = rd (ram s) (slot g j);
  ls_huge : forall b v, no_huge_at s b v -> no_huge_at s' b v }.

Section leaves.
Context (n : nat) (Hn : (3 <= n)%nat).

Lemma through_leaf va b path : (length path <= 4)%nat -> through b (take 3 (va_path 4 va)) (index va 12) b path <-> path = va_path 4 va.
Proof.
  intros Hl. split.
  - intros (_ & rest & ->). rewrite length_app in Hl. cbn in Hl. destruct rest; [done | cbn in Hl; lia].
  - intros ->. split; [done|]. by exists [].
Qed.

Lemma va_path_leaf va : va_path 4 va = take 3 (va_path 4 va) ++ [index va 12].
Proof. done. Qed.

Lemma store_leaf a va t e s s0 : ok n s -> owned 3 s a (take 3 (va_path 4 va)) t -> in_head s a va -> entry_ok a 3 e ->
  (forall g, own_next 1 e = Some g -> (4 <= n)%nat -> used (frames s) g /\ forall b p, owned n s b p g -> b = a /\ p = va_path 4 va) ->
  s0 = with_ram (<[slot t (index va 12) := e]> (ram s)) s -> leaf_set n a va e s s0.
Proof.
  intros Hok Ho Hh He Hnew ->. set (path := take 3 (va_path 4 va)) in *. set (i := index va 12). set (m' := <[slot t i := e]> (ram s)).
  assert (Hlen : length path = 3%nat) by done. assert (Hi : 0 <= i < 512) by apply index_range.
  assert (Hpi : path_ok s a (path ++ [i])) by (change (path ++ [i]) with (va_path 4 va); by apply va_path_ok).
  assert (Hex : same_except s m' a path i) by (eapply store_except; [done..|apply same_refl]).
  assert (Hv : rd m' (slot t i) = e) by (unfold m'; by rewrite rd_insert, Z.eqb_refl).
  assert (Hempty : forall q j, own_next (4 - length path) e = Some q -> (length path < 3)%nat -> 0 <= j < 512 -> rd m' (slot q j) = 0) by (intros; lia).
  assert (Hthr : forall b p, (length p <= 4)%nat -> through a path i b p <-> b = a /\ p = va_path 4 va).
  { intros b p Hl. split.
    - intros [-> H]. split; [done|]. apply (through_leaf va a p Hl). done.
    - intros [-> ->]. by apply (through_leaf va a). }
  assert (Hl4 : forall b p g, owned n s b p g -> (length p <= 4)%nat) by (intros b p g (x & _ & _ & _ & Hr); by eapply reach_length).
  assert (Hn' : forall q, own_next (4 - length path) e = Some q -> (length path < n)%nat -> used (frames s) q /\ forall b p, owned n s b p q -> through a path i b p).
  { intros q E Hlt. destruct (Hnew q E ltac:(lia)) as [H1 H2]. split; [done|]. intros b p Hq. apply Hthr; [by eapply Hl4 | by eapply H2]. }
  pose proof (owned_after n s a path t i e m' Hn Ho Hpi Hex Hv (frames s) Hempty Hn') as Haft.
  pose proof (ok_after n s a path t i e m' Hn Hok Ho Hpi Hex Hv ltac:(done) (frames s) (ok_frames _ _ Hok) ltac:(done) Hempty Hn' He) as Hok'.
  assert (Es : with_ram m' (with_frames (frames s) s) = with_ram m' s) by done. rewrite Es in *.
  assert (Ho' : owned 3 (with_ram m' s) a path t).
  { apply (owned_3 n); [|lia]. apply Haft. left. split; [|by eapply owned_le]. rewrite Hthr by lia. intros [_ E]. apply (f_equal length) in E. by rewrite Hlen in E. }
  constructor; try done.
  - intros b v Hhv Hne. unfold walk_of. cbn [spaces ram with_ram]. destruct (spaces s !! b) as [x|] eqn:Hx; [|done]. apply (walk_except s m' a path i b x v); try done.
    rewrite Hthr by done. done.
  - intros v Ha Hvv. rewrite (walk_table n _ Hn Hok' a path t v [i] Ha Ho' ltac:(by rewrite Hvv)). rewrite Hlen.
    assert (Ei : index v (shift_of 1) = i) by (unfold va_path in Hvv; by injection Hvv).
    change (4 - 3)%nat with 1%nat. cbn [walk]. rewrite Ei. cbn [ram with_ram]. rewrite Hv. by destruct (present e).
  - by exists t.
  - intros b p g. rewrite Haft. split.
    + intros [[H1 H2]|(-> & -> & H3 & H4)]; [left; rewrite Hthr in H1 by (by eapply Hl4); done | right; split_and!; [done | done | lia | done]].
    + intros [[H1 H2]|(-> & -> & H3 & H4)]; [left; split; [rewrite Hthr by (by eapply Hl4); done | done] | right; split_and!; [done | done | lia | done]].
  - intros g j Hg Hno Hj. cbn [ram with_ram]. unfold m'. rewrite rd_insert. destruct (Z.eqb_spec (slot g j) (slot t i)) as [E|_]; [|done].
    destruct (frame_aligned true _ _ (ok_frames _ _ Hok) Hg) as [Hga _].
    apply slot_inj in E as [-> _]; [by destruct (Hno a path) | done | | done | done]. eapply (owned_aligned 3 s); [by eapply ok_le | done].
  - intros b v H pre j rest q Hvv Hl Hq. assert (Hj : 0 <= j < 512) by (pose proof (va_path_range 4 v) as R; rewrite Hvv in R; apply Forall_app in R as [_ R]; by apply Forall_inv in R).
    assert (Hq' : owned 3 s b pre q).
    { apply (owned_3 n); [|lia]. apply (owned_le 3 n) in Hq; [|done]. apply Haft in Hq as [[_ Hq]|(_ & -> & _ & _)]; [done|]. rewrite length_app in Hl. cbn in Hl. lia. }
    destruct (entry_of s a path t i m' Ho Hex b pre q j Hq' Hj) as [Ee|(_ & -> & _)]; [|lia]. unfold entry_at at 1 2. cbn [ram with_ram]. rewrite Ee. by apply (H pre j rest q).
Qed.

(** The same, with bookkeeping outside memory. *)
Lemma leaf_like a va e s s1 s2 : leaf_set n a va e s s1 -> like s1 s2 -> frames s2 = frames s1 -> refcounts s2 = refcounts s1 -> next_as s2 = next_as s1 ->
  leaf_set n a va e s s2.
Proof.
  intros [] Hl Hf Hr Hn'. pose proof Hl as (Em & Ed & Er). constructor.
  - by eapply ok_like.
  - by rewrite Hf.
  - by rewrite Hr.
  - intros b. by rewrite Er.
  - by rewrite Ed.
  - intros b v H1 H2. rewrite (walk_like _ _ b v Hl). by apply ls_walk0.
  - intros v H1 H2. rewrite (walk_like _ _ a v Hl). by apply ls_at0.
  - destruct ls_word0 as (pt & H1 & H2). exists pt. split; [by apply (owned_like 3 s1) | by rewrite Em].
  - intros b p g. rewrite <- ls_owned0. split; apply owned_like; [by apply like_sym | done].
  - intros g j H1 H2 H3. rewrite Em. by apply ls_page0.
  - intros b v H pre i rest q Hv Hlen Hq. unfold entry_at. rewrite Em. apply (ls_huge0 b v H pre i rest q Hv Hlen). apply (owned_like 3 s2); [by apply like_sym | done].
Qed.
End leaves.

(** ** The operations *)

(** What mapping does not touch: everything but memory, frames, counters and sizes. *)
Definition as_key x : Z * Z * list vmm_anon_region := (pml4_phys x, as_refcount x, anon_regions x).
Record rest_same s s' : Prop := {
  rs_cr3 : cr3 s' = cr3 s; rs_current : current_as s' = current_as s; rs_next : next_as s' = next_as s;
  rs_base : device_base s' = device_base s; rs_spaces : forall b, as_key <$> spaces s' !! b = as_key <$> spaces s !! b }.

Lemma rest_refl s : rest_same s s.
Proof. done. Qed.

Lemma rest_trans s1 s2 s3 : rest_same s1 s2 -> rest_same s2 s3 -> rest_same s1 s3.
Proof. intros [] []. constructor; congruence. Qed.

Lemma grown_rest n a s s' : grown n a s s' -> rest_same s s'.
Proof. intros H. by destruct (gr_state _ _ _ _ H) as (m' & F' & ->). Qed.

Lemma rest_root s s' b : rest_same s s' -> root_of s' b = root_of s b.
Proof.
  intros H. pose proof (rs_spaces _ _ H b) as E. unfold root_of. destruct (spaces s !! b), (spaces s' !! b); try done. cbn. f_equal. by injection E.
Qed.

Lemma rest_space s s' a x : rest_same s s' -> spaces s !! a = Some x -> exists x', spaces s' !! a = Some x' /\ as_key x' = as_key x.
Proof.
  intros H Hx. pose proof (rs_spaces _ _ H a) as E. rewrite Hx in E. destruct (spaces s' !! a) as [x'|]; [|done]. exists x'. split; [done|]. exact (inj Some _ _ E).
Qed.

Lemma rest_put s a x y : spaces s !! a = Some x -> as_key y = as_key x -> rest_same s (with_spaces (<[a := y]> (spaces s)) s).
Proof.
  intros Hx E. constructor; try done. intros b. cbn [spaces with_spaces]. destruct (decide (b = a)) as [->|Hne]; [rewrite lookup_insert_eq, Hx; cbn; by rewrite E | by rewrite lookup_insert_ne].
Qed.

Lemma rest_like s s' : rest_same s s' -> ram s' = ram s -> like s s'.
Proof. intros H Hm. split_and!; [done | by apply rs_base | intros b; by apply rest_root]. Qed.

Lemma ldiff_aligned p : aligned p -> Z.ldiff p 0xFFF = p.
Proof. intros (q & -> & Hq). change 0xFFF with (Z.ones 12). rewrite Z.ldiff_ones_r by lia. rewrite Z.shiftr_div_pow2, Z.shiftl_mul_pow2 by lia. change (2 ^ 12) with 4096. by rewrite Z.div_mul by lia. Qed.

(** The root entry of [va] may be made, or is there. *)
Definition rooted s a va : Prop := index va 39 < 256 \/ exists r, owned 3 s a [] r /\ present (entry_at s r (index va 39)) = true.

Section operations.
Context (n : nat) (Hn : (3 <= n)%nat).

(** [s'] has at most [k] free frames less than [s]. *)
Definition spends (k : nat) s s' : Prop := forall m : nat, enough (m + k) (frames s) -> enough m (frames s').

Lemma enough_le (m k : nat) F : (m <= k)%nat -> enough k F -> enough m F.
Proof.
  intros Hmk (l & Hnd & Hl & Hall). exists (take m l). split_and!; [by eapply sublist_NoDup; [|apply (sublist_take l m)] | rewrite length_take; lia | by apply Forall_take].
Qed.

Lemma spends_refl (k : nat) s : spends k s s.
Proof. intros m. apply enough_le. lia. Qed.

Lemma spends_take s f F' s' : taken (frames s) f F' -> frames s' = F' -> spends 1 s s'.
Proof. intros Ht E m H%(enough_taken _ _ _ _ Ht). rewrite E. by replace (m + 1 - 1)%nat with m in H by lia. Qed.

Lemma spends_trans (k j : nat) s1 s2 s3 : spends k s1 s2 -> spends j s2 s3 -> spends (k + j) s1 s3.
Proof. intros H1 H2 m H. apply H2, H1. by replace (m + j + k)%nat with (m + (k + j))%nat by lia. Qed.

Lemma spends_none (k j : nat) s s' : spends k s s' -> (k < j)%nat -> (forall f, ~ free (frames s') f) -> ~ enough j (frames s).
Proof.
  intros Hs Hk Hno He. assert (H : enough (j - k) (frames s')) by (apply Hs; by replace (j - k + k)%nat with j by lia). apply (enough_none _ _ Hno) in H. lia.
Qed.

Lemma wp_table a path t i s (Q : option Z -> vm -> Prop) : ok n s -> owned 3 s a path t -> path_ok s a (path ++ [i]) -> (length path < 3)%nat ->
  (present (entry_at s t i) = true -> huge (entry_at s t i) = false) -> (path = [] -> i < 256 \/ present (entry_at s t i) = true) ->
  ((forall f, ~ free (frames s) f) -> Q None s) -> (forall s' q, grown n a s s' -> spends 1 s s' -> owned 3 s' a (path ++ [i]) q -> Q (Some q) s') ->
  wp (get_or_create_table t i (table_flags a)) s Q.
Proof.
  intros Hok Ho Hpi Hl Hnh Hi HN HS. unfold get_or_create_table, get_or_create_table_with. apply vm_bind, wp_read64. change (rd (ram s) (slot t i)) with (entry_at s t i).
  destruct (present (entry_at s t i)) eqn:Ep; cbn [negb].
  - apply vm_bind, vm_ret. cbn [negb]. apply vm_bind, wp_read64, vm_ret. change (rd (ram s) (slot t i)) with (entry_at s t i).
    assert (Hq : owned 3 s a (path ++ [i]) (addr_of (entry_at s t i))).
    { apply owned_3 with n; [|rewrite length_app; cbn; lia]. apply (owned_snoc n s a path t i); [done | done | lia |]. unfold own_next. rewrite Ep.
      replace ((4 - length path)%nat =? 1)%nat with false by (symmetry; apply Nat.eqb_neq; lia). by rewrite (Hnh eq_refl). }
    replace (addr_of (entry_at s t i) =? 0) with false by (destruct (owned_aligned 3 s a _ _ (ok_le n 3 s Hn Hok) Hq); lia).
    apply HS; [by apply grown_refl | by apply spends_refl | done].
  - apply vm_bind, vm_bind, wp_alloc_full; [apply Hok | by intros Hno; apply vm_ret, vm_ret, HN|]. intros f F' Hf Ht. replace (f =? 0) with false by lia.
    apply vm_bind, wp_zero_page. intros m1 Hm1. apply vm_bind, wp_write64, vm_ret. cbn [negb ram with_ram with_frames]. apply vm_bind, wp_read64, vm_ret.
    assert (Hi' : path = [] -> i < 256) by (intros E; destruct (Hi E); [done | congruence]).
    destruct (link_grown n Hn a path t i s F' f m1 _ Hok Ho Hpi Hl Ep Hi' Ht Hm1 eq_refl) as [Hg Hq].
    cbn [ram with_ram]. rewrite rd_insert, Z.eqb_refl. destruct (table_entry a f) as (_ & -> & _); [exact (proj1 (frame_aligned false _ _ (ok_frames _ _ Hok) (proj1 (proj2 Ht))))|].
    replace (f =? 0) with false by lia. apply HS; [done | by apply (spends_take s f F') | done].
Qed.

Lemma head_grown a s s' b i : grown n a s s' -> head s' b i <-> head s b i.
Proof. intros H. by destruct (gr_state _ _ _ _ H) as (m' & F' & ->). Qed.

(** The first [d] indices of an address, as a path. *)
Lemma prefix_ok s a va (d : nat) : in_head s a va -> path_ok s a (take d (va_path 4 va)).
Proof. intros H%va_path_ok. apply (path_ok_app s a _ (drop d (va_path 4 va))). by rewrite take_drop. Qed.

(** An existing or new table on the way to [va]; the three calls of [vmm_map_page]. *)
Lemma wp_step a va t i rest (d : nat) s (Q : option Z -> vm -> Prop) : ok n s -> in_head s a va -> no_huge_at s a va ->
  rooted s a va ->
  drop d (va_path 4 va) = i :: rest -> (d < 3)%nat -> owned 3 s a (take d (va_path 4 va)) t ->
  ((forall f, ~ free (frames s) f) -> Q None s) -> (forall s' q, grown n a s s' -> spends 1 s s' -> owned 3 s' a (take (S d) (va_path 4 va)) q -> Q (Some q) s') -> wp (get_or_create_table t i (table_flags a)) s Q.
Proof.
  intros Hok Hh Hnh Hroot Hd Hd3 Ho HN HS.
  assert (Hva : va_path 4 va = take d (va_path 4 va) ++ i :: rest) by (by rewrite <- Hd, take_drop).
  assert (Hlen : length (take d (va_path 4 va)) = d) by (rewrite length_take, va_path_length; lia).
  assert (Hs : take (S d) (va_path 4 va) = take d (va_path 4 va) ++ [i]).
  { apply take_S_r. rewrite Hva, lookup_app_r by lia. by rewrite Hlen, Nat.sub_diag. }
  assert (Hp : path_ok s a (take d (va_path 4 va) ++ [i])) by (rewrite <- Hs; by apply prefix_ok).
  apply (wp_table a (take d (va_path 4 va)) t i s Q); [done | done | done | lia | | | done | by rewrite <- Hs].
  - intros Hpr. eapply (Hnh _ i rest t Hva); [lia | done | done].
  - intros E. destruct d; [|done]. cbn [take drop] in *. cbn [va_path] in Hd. injection Hd as Ei _. change (shift_of 4) with 39 in Ei. rewrite <- Ei.
    destruct Hroot as [?|(r & (x & Hx & _ & _ & Hr) & Hpr)]; [by left | right]. destruct Ho as (x' & Hx' & _ & _ & Hr'). rewrite E in Hr'. cbn [reach] in *. replace t with r by congruence. done.
Qed.

Lemma root_grown a s s' va : grown n a s s' -> ok n s -> rooted s a va ->
  in_head s a va -> no_huge_at s a va -> rooted s' a va.
Proof.
  intros Hg Hok [H|(r & Ho & Hp)] Hh Hnh; [by left | right]. exists r. split; [apply owned_3 with n; [apply (gr_owned _ _ _ _ Hg); by eapply owned_le | cbn; lia]|].
  assert (Hva : va_path 4 va = [] ++ index va 39 :: va_path 3 va) by done.
  assert (Ho1 : owned n s a [index va 39] (addr_of (entry_at s r (index va 39)))).
  { apply (owned_snoc n s a [] r (index va 39)); [done | apply (path_ok_app s a [index va 39] (va_path 3 va)); by apply va_path_ok | cbn; lia |].
    unfold own_next. cbn [length Nat.sub Nat.eqb]. by rewrite Hp, (Hnh [] _ _ r Hva ltac:(cbn; lia) Ho Hp). }
  apply (gr_owned _ _ _ _ Hg) in Ho1.
  assert (Ho' : owned 3 s' a [] r) by (apply owned_3 with n; [apply (gr_owned _ _ _ _ Hg); by eapply owned_le | cbn; lia]).
  apply (owned_snoc n s' a [] r (index va 39)) in Ho1; [|done | by destruct Ho1 as (? & _ & ? & _) | cbn; lia].
  unfold own_next in Ho1. by destruct (present (entry_at s' r (index va 39))).
Qed.

(** The flags of a mapping fit the address space; the kernel's are writable. *)
Definition flags_fit a (flags : Z) : Prop := flag_bits flags /\ user flags = negb (a =? KERNEL) /\ (a = KERNEL -> writable flags = true).

Lemma wp_map_page a x va phys flags s (Q : Z -> vm -> Prop) : ok n s -> spaces s !! a = Some x -> in_head s a va -> rooted s a va -> no_huge_at s a va ->
  aligned phys -> flags_fit a flags ->
  ((4 <= n)%nat -> a <> KERNEL -> used (frames s) phys /\ forall b p, owned n s b p phys -> b = a /\ p = va_path 4 va) ->
  (forall s', grown n a s s' -> ~ enough 3 (frames s) -> Q (-1) s') ->
  (forall s1 s', grown n a s s1 -> leaf_set n a va (Z.lor (Z.lor phys flags) VMM_PAGE_PRESENT) s1 s' -> rest_same s1 s' -> Q 0 s') ->
  wp (vmm_map_page (Some a) va phys flags) s Q.
Proof.
  intros Hok Hx Hh Hroot Hnh Hpa (Hfb & Hfu & Hfw) Hph HN HS. unfold vmm_map_page, vmm_map_page_with. change (get_or_create_table_with zero_page) with get_or_create_table. apply vm_bind. eapply wp_read_as; [exact Hx|].
  assert (Et : (if truthy (Z.land flags VMM_PAGE_USER) then Z.lor (Z.lor VMM_PAGE_PRESENT VMM_PAGE_WRITE) VMM_PAGE_USER else Z.lor VMM_PAGE_PRESENT VMM_PAGE_WRITE) = table_flags a).
  { change (truthy (Z.land flags VMM_PAGE_USER)) with (user flags). rewrite Hfu. unfold table_flags. by destruct (a =? KERNEL). }
  cbv zeta. rewrite Et. rewrite ldiff_aligned by done. set (e := Z.lor (Z.lor phys flags) VMM_PAGE_PRESENT) in *.
  destruct (entry_bits phys flags Hpa Hfb) as (Ea & Ep & Eu & Ew & _). fold e in Ea, Ep, Eu, Ew.
  apply vm_bind. eapply (wp_step a va (pml4_phys x) (index va 39) (va_path 3 va) 0 s); [done | done | done | done | done | lia | by apply owned_root | intros Hno; apply vm_ret, HN; [by apply grown_refl | apply (spends_none 0 3 s s); [apply spends_refl | lia | done]]|].
  intros s1 t1 G1 S1 O1. pose proof (gr_ok _ _ _ _ G1) as K1. assert (H1 : in_head s1 a va) by (by apply (head_grown a s s1)).
  apply vm_bind. eapply (wp_step a va t1 (index va 30) (va_path 2 va) 1 s1); [done | done | by apply (gr_huge _ _ _ _ G1) | by eapply root_grown | done | lia | done | intros Hno; apply vm_ret, HN; [done | apply (spends_none 1 3 s s1); [done | lia | done]]|].
  intros s2 t2 G2 S2 O2. pose proof (spends_trans 1 1 s s1 s2 S1 S2) as S12. pose proof (grown_trans n Hn _ _ _ _ G1 G2) as G12. pose proof (gr_ok _ _ _ _ G2) as K2. assert (H2 : in_head s2 a va) by (by apply (head_grown a s s2)).
  apply vm_bind. eapply (wp_step a va t2 (index va 21) (va_path 1 va) 2 s2); [done | done | by apply (gr_huge _ _ _ _ G12) | by eapply (root_grown a s) | done | lia | done | intros Hno; apply vm_ret, HN; [done | apply (spends_none 2 3 s s2); [done | lia | done]]|].
  intros s3 t3 G3 _ O3. pose proof (grown_trans n Hn _ _ _ _ G12 G3) as G. clear G1 G2 G3 G12 K1 K2 H1 H2 O1 O2 S1 S2 S12 s1 s2 t1 t2. pose proof (gr_ok _ _ _ _ G) as K.
  assert (H3 : in_head s3 a va) by (by apply (head_grown a s s3)).
  assert (L : leaf_set n a va e s3 (with_ram (<[slot t3 (index va 12) := e]> (ram s3)) s3)).
  { apply (store_leaf n Hn a va t3 e s3); try done.
    - intros _. destruct (Z.eqb_spec a KERNEL) as [->|]; [|lia]. rewrite Eu, Ew, Hfu, Hfw by done. split_and!; [| done | done | lia]. destruct Hpa as (? & -> & ?). apply Z.lor_nonneg; split; [apply Z.lor_nonneg; split; [lia | apply Hfb] | done].
    - intros g Hg Hn4. unfold own_next in Hg. rewrite Ep, Eu, Hfu, Ea in Hg. cbn [andb Nat.eqb] in Hg. destruct (Z.eqb_spec a KERNEL) as [|Hak]; [done|]. injection Hg as <-.
      destruct (Hph Hn4 Hak) as [Hu Hno]. split; [by apply (gr_used _ _ _ _ G)|]. intros b p [Ho|(-> & _ & Hf)]%(gr_new _ _ _ _ G); [by apply Hno|]. exfalso. by eapply used_not_free. }
  destruct (gr_state _ _ _ _ G) as (m' & F' & Es). assert (Hx3 : spaces s3 !! a = Some x) by (by rewrite Es).
  assert (Hfin : forall s', rest_same s3 s' -> ram s' = <[slot t3 (index va 12) := e]> (ram s3) -> frames s' = frames s3 -> refcounts s' = refcounts s3 -> Q 0 s').
  { intros s' R1 R2 R3 R4. apply (HS s3); [done | | done]. apply (leaf_like n a va e s3 (with_ram (<[slot t3 (index va 12) := e]> (ram s3)) s3)); try done; [|apply R1].
    split_and!; [done | apply R1 | intros b; by rewrite (rest_root s3 s' b)]. }
  apply vm_bind, wp_read64, vm_bind, wp_write64, vm_bind, vm_get.
  destruct (truthy (Z.land flags VMM_PAGE_USER)); apply vm_bind, wp_upd; cbv beta; [|apply (vm_ret 0); by apply Hfin].
  destruct (present (rd (ram s3) (slot t3 (index va 12)))); cbn [negb]; apply vm_bind; [apply (vm_ret tt), (vm_ret 0); by apply Hfin|].
  eapply wp_write_as; [exact Hx3|]. apply vm_ret. apply Hfin; [|done..]. constructor; try done.
  apply (rs_spaces _ _ (rest_put s3 a x (set_rss (u64 (rss_pages x + 1)) x) Hx3 eq_refl)).
Qed.

(** The page table of an address, when none of its leaves is huge. *)
Lemma wp_page_table a x va stop s (Q : option Z -> vm -> Prop) : ok n s -> spaces s !! a = Some x -> in_head s a va -> no_huge_at s a va ->
  (walk_of s a va = None -> Q None s) -> (forall pt, owned 3 s a (take 3 (va_path 4 va)) pt -> Q (Some pt) s) ->
  wp (page_table_of (pml4_phys x) va stop) s Q.
Proof.
  intros Hok Hx Hh Hnh HN HS.
  assert (Hstep : forall (d : nat) t i rest, drop d (va_path 4 va) = i :: rest -> (d < 3)%nat -> owned 3 s a (take d (va_path 4 va)) t ->
    (present (entry_at s t i) = false -> walk_of s a va = None) /\
    (present (entry_at s t i) = true -> huge (entry_at s t i) = false /\ owned 3 s a (take (S d) (va_path 4 va)) (addr_of (entry_at s t i)))).
  { intros d t i rest Hd Hd3 Ho. assert (Hva : va_path 4 va = take d (va_path 4 va) ++ i :: rest) by (by rewrite <- Hd, take_drop).
    assert (Hlen : length (take d (va_path 4 va)) = d) by (rewrite length_take, va_path_length; lia).
    split; [by apply (walk_absent n s Hn Hok a (take d (va_path 4 va)) t i va rest)|]. intros Hp. pose proof (Hnh (take d (va_path 4 va)) i rest t Hva ltac:(lia) Ho Hp) as Eh. split; [done|].
    assert (Hs : take (S d) (va_path 4 va) = take d (va_path 4 va) ++ [i]) by (apply take_S_r; by rewrite Hva, lookup_app_r, Hlen, Nat.sub_diag by lia).
    rewrite Hs. apply (owned_snoc 3 s a (take d (va_path 4 va)) t i); [done | rewrite <- Hs; by apply prefix_ok | lia |]. rewrite Hlen. unfold own_next. rewrite Hp, Eh.
    replace ((4 - d)%nat =? 1)%nat with false by (symmetry; apply Nat.eqb_neq; lia). done. }
  unfold page_table_of. apply vm_bind, wp_read64. fold (entry_at s (pml4_phys x) (index va 39)).
  destruct (Hstep 0%nat (pml4_phys x) (index va 39) (va_path 3 va) eq_refl ltac:(lia) (owned_root 3 s a x Hx)) as [A1 B1].
  destruct (present (entry_at s (pml4_phys x) (index va 39))); cbn [negb]; [|apply vm_ret; by apply HN, A1]. destruct (B1 eq_refl) as [_ O1]. clear A1 B1.
  set (e1 := entry_at s (pml4_phys x) (index va 39)) in *. clearbody e1. apply vm_bind, wp_read64. fold (entry_at s (addr_of e1) (index va 30)).
  destruct (Hstep 1%nat (addr_of e1) (index va 30) (va_path 2 va) eq_refl ltac:(lia) O1) as [A1 B1].
  destruct (present (entry_at s (addr_of e1) (index va 30))); cbn [negb]; [|apply vm_ret; by apply HN, A1]. destruct (B1 eq_refl) as [_ O2]. clear A1 B1.
  set (e2 := entry_at s (addr_of e1) (index va 30)) in *. clearbody e2. apply vm_bind, wp_read64. fold (entry_at s (addr_of e2) (index va 21)).
  destruct (Hstep 2%nat (addr_of e2) (index va 21) (va_path 1 va) eq_refl ltac:(lia) O2) as [A1 B1].
  destruct (present (entry_at s (addr_of e2) (index va 21))); cbn [negb]; [|apply vm_ret; by apply HN, A1]. destruct (B1 eq_refl) as [Eh O3].
  rewrite Eh, andb_false_r. apply vm_ret. by apply HS.
Qed.

Lemma owned_one s a path t t' : owned 3 s a path t -> owned 3 s a path t' -> t = t'.
Proof. intros (x & Hx & _ & _ & E) (x' & Hx' & _ & _ & E'). congruence. Qed.

(** [vmm_walk_to_leaf] finds the entry of a mapped page. *)
Lemma leaf_slot a x va pt s : ok n s -> spaces s !! a = Some x -> in_head s a va -> no_huge_at s a va -> owned 3 s a (take 3 (va_path 4 va)) pt ->
  walk_of s a va <> None -> fst <$> vmm_walk_to_leaf (Some a) va s = Some (Some (slot pt (index va 12))).
Proof.
  intros Hok Hx Hh Hnh Ho Hw. assert (E : wp (vmm_walk_to_leaf (Some a) va) s (fun r _ => r = Some (slot pt (index va 12)))).
  { apply vm_bind. eapply wp_read_as; [exact Hx|]. apply vm_bind, (wp_page_table a x); [done | done | done | done | done |]. intros t Ht. apply vm_ret. by rewrite (owned_one s a _ _ _ Ht Ho). }
  destruct (vm_elim _ _ _ E) as (r & s' & -> & ->). done.
Qed.

Lemma wp_unmap_page a x va s (Q : Z -> vm -> Prop) : ok n s -> spaces s !! a = Some x -> in_head s a va -> no_huge_at s a va ->
  (walk_of s a va = None -> Q (-1) s) -> (forall s', leaf_set n a va 0 s s' -> rest_same s s' -> Q 0 s') -> wp (vmm_unmap_page (Some a) va) s Q.
Proof.
  intros Hok Hx Hh Hnh HN HS. unfold vmm_unmap_page. apply vm_bind. eapply wp_read_as; [exact Hx|]. apply vm_bind.
  eapply wp_page_table; [done | done | done | done | by intros; apply vm_ret, HN |]. intros pt Ho.
  assert (L : leaf_set n a va 0 s (with_ram (<[slot pt (index va 12) := 0]> (ram s)) s)) by (by apply (store_leaf n Hn a va pt 0 s)).
  assert (Hfin : forall s', rest_same s s' -> ram s' = <[slot pt (index va 12) := 0]> (ram s) -> frames s' = frames s -> refcounts s' = refcounts s -> Q 0 s').
  { intros s' R1 R2 R3 R4. apply HS; [|done]. apply (leaf_like n a va 0 s (with_ram (<[slot pt (index va 12) := 0]> (ram s)) s)); try done; [|apply R1].
    split_and!; [done | apply R1 | intros b; by rewrite (rest_root s s' b)]. }
  apply vm_bind, wp_read64, vm_bind, wp_write64, vm_bind. destruct (present _ && user _ && _); [|apply (vm_ret tt), (vm_ret 0); by apply Hfin].
  eapply wp_write_as; [exact Hx|]. apply vm_ret. apply Hfin; [|done..]. constructor; try done.
  apply (rs_spaces _ _ (rest_put s a x (set_rss (rss_pages x - 1) x) Hx eq_refl)).
Qed.

Lemma lor_offset e va : Z.lor (addr_of e) (Z.land va 0xFFF) = addr_of e + page_offset 1 va.
Proof.
  unfold page_offset. change (2 ^ shift_of 1) with (2 ^ 12). rewrite <- Z.land_ones by lia. change (Z.ones 12) with 0xFFF.
  assert (H : Z.land (addr_of e) (Z.land va 0xFFF) = 0).
  { unfold addr_of. rewrite (Z.land_comm va), Z.land_assoc, <- (Z.land_assoc e). change (Z.land VMM_PTE_PHYS_MASK 0xFFF) with 0. by rewrite Z.land_0_r. }
  by rewrite Z.add_nocarry_lxor, Z.lxor_lor.
Qed.

Lemma wp_virt_to_phys a x va s (Q : Z -> vm -> Prop) : ok n s -> spaces s !! a = Some x -> in_head s a va -> no_huge_at s a va -> a <> KERNEL ->
  Q (match walk_of s a va with Some (pa, _, _) => pa | None => 0 end) s -> wp (vmm_virt_to_phys (Some a) va) s Q.
Proof.
  intros Hok Hx Hh Hnh Ha HQ. unfold vmm_virt_to_phys. apply vm_bind. eapply wp_read_as; [exact Hx|]. apply vm_bind.
  eapply wp_page_table; [done | done | done | done | intros E; apply vm_ret; by rewrite E in HQ |]. intros pt Ho.
  rewrite (walk_table n s Hn Hok a _ pt va [index va 12] Ha Ho eq_refl) in HQ. change (4 - length (take 3 (va_path 4 va)))%nat with 1%nat in HQ. cbn [walk] in HQ. change (shift_of 1) with 12 in HQ.
  apply vm_bind, wp_read64. destruct (present (rd (ram s) (slot pt (index va 12)))); cbn [negb] in *; apply vm_ret; [|done]. cbn [Nat.eqb orb] in HQ. by rewrite lor_offset.
Qed.
End operations.
