(* ===== verification/VmmCreate.v ===== *)
(** * New address spaces

    [clone_table_for_user_as] builds a tree of tables in free frames that maps what the
    source maps, huge leaves of low memory split; [vmm_create_address_space] hangs it
    under a new root.  Frames in use keep their contents, on failure too. *)
From S2P Require Import Prelude Pmm Vmm VmmTables VmmOwn VmmOps.
Local Open Scope capy_scope.

Implicit Types (s : vm) (m : gmap Z Z) (n lvl : nat) (a b q f t i j k v e va : Z) (path pre rest : list Z) (x : vmm_address_space) (F : pmm).

(** Frames in use stay so and keep their contents; nothing but memory and frames changes. *)
Definition same_on F m m' : Prop := forall g j, used F g -> 0 <= j < 512 -> rd m' (slot g j) = rd m (slot g j).
Record kept s s' : Prop := {
  ke_state : exists m' F', s' = with_ram m' (with_frames F' s);
  ke_frames : frames_ok (frames s');
  ke_total : pmm_total_pages (frames s') = pmm_total_pages (frames s);
  ke_used : forall g, used (frames s) g -> used (frames s') g;
  ke_mem : same_on (frames s) (ram s) (ram s') }.

Lemma kept_refl s : frames_ok (frames s) -> kept s s.
Proof. intros H. constructor; try done. exists (ram s), (frames s). by destruct s. Qed.

Lemma kept_trans s1 s2 s3 : kept s1 s2 -> kept s2 s3 -> kept s1 s3.
Proof.
  intros [(m2 & F2 & E2) ? T2 U2 M2] [(m3 & F3 & E3) ? T3 U3 M3]. constructor.
  - exists m3, F3. by rewrite E3, E2.
  - done.
  - by rewrite T3, T2.
  - auto.
  - intros g j Hg Hj. rewrite M3, M2; auto.
Qed.

Lemma kept_free s s' g : kept s s' -> free (frames s') g -> free (frames s) g.
Proof.
  intros H (q & -> & Hq & Hb). rewrite (ke_total _ _ H) in Hq. exists q. split_and!; [done | lia | lia |]. destruct (bitmap_test q (pmm_bitmap (frames s))) eqn:E; [|done].
  exfalso. apply (used_not_free (frames s') (q * 4096)); [apply (ke_used _ _ H); by exists q | exists q; by rewrite (ke_total _ _ H)].
Qed.

(** A store into a frame that was free keeps the rest. *)
Lemma kept_write s s' f i v : kept s s' -> free (frames s) f -> 0 <= i < 512 -> aligned f -> kept s (with_ram (<[slot f i := v]> (ram s')) s') /\
  forall g j, aligned g -> 0 <= j < 512 -> (g = f -> j <> i) -> rd (<[slot f i := v]> (ram s')) (slot g j) = rd (ram s') (slot g j).
Proof.
  intros H Hf Hi Hfa.
  assert (Hrd : forall g j, aligned g -> 0 <= j < 512 -> (g = f -> j <> i) -> rd (<[slot f i := v]> (ram s')) (slot g j) = rd (ram s') (slot g j)).
  { intros g j Hg Hj Hne. rewrite rd_insert. destruct (Z.eqb_spec (slot g j) (slot f i)) as [E|]; [|done]. apply slot_inj in E as [-> ->]; [by destruct Hne | done..]. }
  split; [|done]. destruct H as [(m' & F' & E) H1 H2 H3 H4]. constructor; try done.
  - exists (<[slot f i := v]> (ram s')), F'. by rewrite E.
  - intros g j Hg Hj. cbn [ram with_ram]. rewrite Hrd; [by apply H4 | | done | intros ->; exfalso; by eapply used_not_free].
    destruct Hg as (q & -> & Hq & Hbq). exists q. split; [done|]. destruct H1 as [[_ Ht _ _] _]. pose proof bitmap_bits. lia.
Qed.

(** ** Trees of tables *)
Section trees.
Definition indices path : Prop := Forall (fun i => 0 <= i < 512) path.

(** The source: tables in use, whose entries are writable and closed to user mode. *)
Fixpoint src_ok F m lvl t : Prop :=
  match lvl with
  | O => True
  | S l => used F t /\ forall i, 0 <= i < 512 -> let e := rd m (slot t i) in present e = true ->
      0 <= e /\ user e = false /\ writable e = true /\
      ((lvl =? 1)%nat = false -> if huge e then (lvl <? 4)%nat = true /\ addr_of e `mod` 2 ^ shift_of lvl = 0 /\ addr_of e + 2 ^ shift_of lvl <= 2 ^ 52 else src_ok F m l (addr_of e))
  end.

Lemma src_ok_same F F' m m' lvl t : src_ok F m lvl t -> (forall g, used F g -> used F' g) -> same_on F m m' -> src_ok F' m' lvl t.
Proof.
  intros H HF Hm. revert t H. induction lvl as [|l IH]; intros t H; [done|]. cbn [src_ok] in *. destruct H as [Hu H]. split; [by apply HF|].
  intros i Hi. cbv zeta. rewrite (Hm t i Hu Hi). intros Hp. destruct (H i Hi Hp) as (H1 & H2 & H3 & H4). split_and!; [done..|].
  intros Hl. specialize (H4 Hl). destruct (huge _); [done | by apply IH].
Qed.

Lemma src_walk_same F m m' lvl t va : src_ok F m lvl t -> same_on F m m' -> walk m' lvl t va = walk m lvl t va.
Proof.
  intros H Hm. revert t H. induction lvl as [|l IH]; intros t H; [done|]. cbn [src_ok] in H. destruct H as [Hu H]. cbn [walk].
  pose proof (index_range va (shift_of (S l))) as Hi. rewrite (Hm t _ Hu Hi). specialize (H _ Hi). cbv zeta in H.
  destruct (present _) eqn:Hp; cbn [negb]; [|done]. destruct (H eq_refl) as (_ & _ & _ & H4). destruct ((S l =? 1)%nat); cbn [orb]; [done|].
  specialize (H4 eq_refl). destruct (huge _); [done|]. by rewrite IH.
Qed.

(** The copy: frames that were free, none reached twice, entries as in [entry_ok]. *)
Record tree F0 F m lvl t : Prop := {
  tr_frames : forall path f, indices path -> reach m lvl t path = Some f -> free F0 f /\ used F f;
  tr_inj : forall path path' f, indices path -> indices path' -> reach m lvl t path = Some f -> reach m lvl t path' = Some f -> path = path';
  tr_entries : forall path r i, indices path -> 0 <= i < 512 -> (length path < lvl)%nat -> reach m lvl t path = Some r ->
    entry_ok 1 (4 - lvl + length path) (rd m (slot r i)) }.

Lemma tree_reach_same F0 F m m' lvl t path : (forall path f, indices path -> reach m lvl t path = Some f -> used F f) -> same_on F m m' -> indices path ->
  reach m' lvl t path = reach m lvl t path.
Proof.
  intros H Hm Hp. apply reach_ext. intros pre i rest q -> Hl Hr. apply Forall_app in Hp as [Hp Hi]. apply Forall_inv in Hi. apply Hm; [by eapply H | done].
Qed.

Lemma tree_walk_same F m m' lvl t va : (forall path f, indices path -> reach m lvl t path = Some f -> used F f) -> same_on F m m' -> walk m' lvl t va = walk m lvl t va.
Proof.
  intros H Hm. apply walk_ext. intros pre i rest q E Hl Hr. pose proof (va_path_range lvl va) as Hp. rewrite E in Hp. apply Forall_app in Hp as [Hp Hi]. apply Forall_inv in Hi.
  apply Hm; [by eapply H | done].
Qed.

Lemma copy_same F0 F F' m m' lvl t : tree F0 F m lvl t -> (forall path f, indices path -> reach m lvl t path = Some f -> used F f -> used F' f) -> same_on F m m' -> tree F0 F' m' lvl t.
Proof.
  intros [H1 H2 H3] HF Hm. assert (Hr : forall path, indices path -> reach m' lvl t path = reach m lvl t path).
  { intros path Hp. apply (tree_reach_same F F m m' lvl t path); [|exact Hm|exact Hp]. intros p f Hi Hf. by apply (H1 p f Hi Hf). }
  constructor.
  - intros path f Hp E. rewrite Hr in E by done. destruct (H1 path f Hp E). split; [done | by eapply HF].
  - intros path path' f Hp Hp' E E'. rewrite Hr in E, E' by done. by eapply H2.
  - intros path r i Hp Hi Hl E. rewrite Hr in E by done. rewrite (Hm r i); [by apply H3 | by apply (H1 path r Hp E) | done].
Qed.
End trees.

(** ** Entries of the copy *)
Lemma tree_aligned F0 F m lvl t path f : frames_ok F0 -> tree F0 F m lvl t -> indices path -> reach m lvl t path = Some f -> aligned f.
Proof. intros H0 H Hp Hr. destruct (tr_frames _ _ _ _ _ H path f Hp Hr) as [Hf _]. by eapply frame_aligned. Qed.

Lemma tree_store F0 F m l t i v : let m' := <[slot t i := v]> m in
  frames_ok F0 -> tree F0 F m (S l) t -> (l < 3)%nat -> 0 <= i < 512 -> rd m (slot t i) = 0 -> entry_ok 1 (3 - l) v ->
  (forall q, own_next (S l) v = Some q -> tree F0 F m l q /\
     forall p p' f, indices p -> indices p' -> reach m l q p = Some f -> reach m (S l) t p' = Some f -> False) ->
  tree F0 F m' (S l) t /\ (forall va, index va (shift_of (S l)) <> i -> walk m' (S l) t va = walk m (S l) t va) /\
  (forall q va, own_next (S l) v = Some q -> walk m' l q va = walk m l q va).
Proof.
  intros m' H0 Ht Hl Hi Hz Hv Hq. pose proof (tr_frames _ _ _ _ _ Ht) as Hfr. pose proof (tr_inj _ _ _ _ _ Ht) as Hinj.
  assert (Hta : aligned t) by (apply (tree_aligned F0 F m (S l) t [] t H0 Ht); [constructor | done]).
  assert (Hold : forall r k, aligned r -> 0 <= k < 512 -> (r = t -> k <> i) -> rd m' (slot r k) = rd m (slot r k)).
  { intros r k Hr Hk Hne. unfold m'. rewrite rd_insert. destruct (Z.eqb_spec (slot r k) (slot t i)) as [E|]; [|done]. apply slot_inj in E as [-> ->]; [by destruct Hne | done..]. }
  assert (Hnew : rd m' (slot t i) = v) by (unfold m'; by rewrite rd_insert, Z.eqb_refl).
  assert (Hpre : forall pre k rest r, indices (pre ++ k :: rest) -> reach m (S l) t pre = Some r -> r = t -> pre = []).
  { intros pre k rest r Hp Hr ->. apply (Hinj pre [] t); [by apply Forall_app in Hp as [? _] | constructor | done | done]. }
  assert (Ha : forall pre k rest r, indices (pre ++ k :: rest) -> reach m (S l) t pre = Some r -> aligned r /\ 0 <= k < 512).
  { intros pre k rest r Hp Hr. apply Forall_app in Hp as [Hp1 Hp2]. split; [by apply (tree_aligned F0 F m (S l) t pre) | by apply Forall_inv in Hp2]. }
  assert (R1 : forall j rest, j <> i -> indices (j :: rest) -> reach m' (S l) t (j :: rest) = reach m (S l) t (j :: rest)).
  { intros j rest Hj Hp. apply reach_ext. intros pre k rest' r E Hlen Hr. rewrite E in Hp. destruct (Ha _ _ _ _ Hp Hr) as [Hra Hk].
    apply Hold; [done | done |]. intros Ert. pose proof (Hpre _ _ _ _ Hp Hr Ert) as ->. by injection E as -> _. }
  assert (Hqs : forall q, own_next (S l) v = Some q -> forall pre k rest r, indices (pre ++ k :: rest) -> reach m l q pre = Some r -> rd m' (slot r k) = rd m (slot r k)).
  { intros q Eq pre k rest r Hp Hr. destruct (Hq q Eq) as [Hqt Hqd]. apply Forall_app in Hp as [Hp1 Hp2]. apply Hold; [by apply (tree_aligned F0 F m l q pre) | by apply Forall_inv in Hp2 |].
    intros ->. exfalso. apply (Hqd pre [] t Hp1); [constructor | done | done]. }
  assert (R2 : forall q p, own_next (S l) v = Some q -> indices p -> reach m' l q p = reach m l q p).
  { intros q p Eq Hp. apply reach_ext. intros pre k rest r -> _ Hr. by eapply (Hqs q Eq). }
  assert (R3 : forall rest, indices rest -> reach m' (S l) t (i :: rest) = match own_next (S l) v with Some q => reach m l q rest | None => None end).
  { intros rest Hp. cbn [reach]. rewrite Hnew. destruct (own_next (S l) v) as [q|] eqn:Eq; [by apply R2 | done]. }
  assert (Hcase : forall p f, indices p -> reach m' (S l) t p = Some f -> (reach m (S l) t p = Some f /\ (p = [] \/ exists j rest, p = j :: rest /\ j <> i)) \/
    (exists q rest, p = i :: rest /\ own_next (S l) v = Some q /\ reach m l q rest = Some f)).
  { intros [|j rest] f Hp E; [left; split; [done | by left]|]. destruct (decide (j = i)) as [->|Hj].
    - right. rewrite R3 in E by (by apply Forall_inv_tail in Hp). destruct (own_next (S l) v) as [q|] eqn:Eq; [|done]. by exists q, rest.
    - left. rewrite R1 in E by done. split; [done|]. right. by exists j, rest. }
  split; [constructor|split].
  - intros p f Hp [[E _]|(q & rest & -> & Eq & E)]%Hcase; [by apply (Hfr p) | | done]. destruct (Hq q Eq) as [Hqt _]. apply (tr_frames _ _ _ _ _ Hqt rest); [by apply Forall_inv_tail in Hp | done].
  - intros p p' f Hp Hp' [[E H1]|(q & rest & -> & Eq & E)]%Hcase [[E' H1']|(q' & rest' & -> & Eq' & E')]%Hcase; try done.
    + by apply (Hinj p p' f).
    + exfalso. destruct (Hq q' Eq') as [_ Hqd]. apply (Hqd rest' p f); [by apply Forall_inv_tail in Hp' | done..].
    + exfalso. destruct (Hq q Eq) as [_ Hqd]. apply (Hqd rest p' f); [by apply Forall_inv_tail in Hp | done..].
    + replace q' with q in * by congruence. f_equal. destruct (Hq q Eq) as [Hqt _]. apply (tr_inj _ _ _ _ _ Hqt rest rest' f); [by apply Forall_inv_tail in Hp | by apply Forall_inv_tail in Hp' | done..].
  - intros p r j Hp Hj Hlen [[E H1]|(q & rest & -> & Eq & E)]%Hcase; [| | done].
    + destruct (decide (r = t /\ j = i)) as [[-> ->]|Hne].
      * rewrite Hnew. assert (p = []) as -> by (apply (Hinj p [] t); [done | constructor | done | done]). cbn [length]. by replace (4 - S l + 0)%nat with (3 - l)%nat by lia.
      * rewrite Hold; [by apply (tr_entries _ _ _ _ _ Ht p) | by apply (tree_aligned F0 F m (S l) t p) | done |]. intros -> ->. by apply Hne.
    + apply Forall_inv_tail in Hp. destruct (Hq q Eq) as [Hqt _]. rewrite (Hqs q Eq rest j [] r); [| apply Forall_app; split; [done | constructor; [done | constructor]] | done].
      cbn [length] in Hlen |- *. replace (4 - S l + S (length rest))%nat with (4 - l + length rest)%nat by lia. apply (tr_entries _ _ _ _ _ Hqt rest); [done | done | lia | done].
  - intros va Hne. apply walk_ext. intros pre k rest r E Hlen Hr. pose proof (va_path_range (S l) va) as Hp. rewrite E in Hp. destruct (Ha _ _ _ _ Hp Hr) as [Hra Hk].
    apply Hold; [done | done |]. intros Ert. pose proof (Hpre _ _ _ _ Hp Hr Ert) as ->. cbn [va_path app] in E. by injection E as <- _.
  - intros q va Eq. apply walk_ext. intros pre k rest r E Hlen Hr. apply (Hqs q Eq pre k rest); [rewrite <- E; apply va_path_range | done].
Qed.

Lemma flag_land e b : 0 <= e -> Z.land b VMM_PTE_PHYS_MASK = 0 -> flag_bits (Z.land e b).
Proof. intros He Hb. split; [apply Z.land_nonneg; by left|]. by rewrite <- Z.land_assoc, Hb, Z.land_0_r. Qed.

Lemma parent_bits e q : 0 <= e -> aligned q -> let v := parent_entry e q in
  present v = present e /\ huge v = false /\ user v = true /\ writable v = writable e /\ addr_of v = q.
Proof.
  intros He Hq. cbv zeta. unfold parent_entry. rewrite (Z.lor_comm (Z.land e _) q), <- Z.lor_assoc.
  assert (Hf : flag_bits (Z.lor (Z.land e VMM_PARENT_TABLE_FLAG_MASK) VMM_PAGE_USER)) by (apply flag_lor; [by apply flag_land | done]).
  unfold present, huge, user, writable. rewrite (addr_of_entry q _ Hq Hf), !(bit_of_entry q) by done. rewrite !Z.land_lor_distr_l, !truthy_lor, <- !Z.land_assoc.
  change (Z.land VMM_PARENT_TABLE_FLAG_MASK VMM_PAGE_PRESENT) with VMM_PAGE_PRESENT. change (Z.land VMM_PARENT_TABLE_FLAG_MASK VMM_PAGE_WRITE) with VMM_PAGE_WRITE.
  change (Z.land VMM_PARENT_TABLE_FLAG_MASK VMM_PAGE_HUGE) with 0. change (Z.land VMM_PAGE_USER VMM_PAGE_PRESENT) with 0.
  change (Z.land VMM_PAGE_USER VMM_PAGE_HUGE) with 0. change (Z.land VMM_PAGE_USER VMM_PAGE_WRITE) with 0. change (truthy (Z.land VMM_PAGE_USER VMM_PAGE_USER)) with true.
  change (truthy 0) with false. rewrite Z.land_0_r, !orb_false_r, orb_true_r. done.
Qed.

Lemma level_span lvl : (1 <= lvl <= 3)%nat -> vmm_level_span (Z.of_nat lvl) = 2 ^ shift_of lvl.
Proof. intros H. assert (lvl = 1 \/ lvl = 2 \/ lvl = 3)%nat as [->|[->| ->]] by lia; reflexivity. Qed.

Lemma span_step l : (1 <= l)%nat -> 2 ^ shift_of (S l) = 2 ^ shift_of l * 512.
Proof. intros H. change 512 with (2 ^ 9). unfold shift_of. rewrite <- Z.pow_add_r by lia. f_equal. lia. Qed.

Lemma span_page l : (1 <= l)%nat -> exists c, 2 ^ shift_of l = c * 4096 /\ 0 < c.
Proof. intros H. exists (2 ^ (9 * (Z.of_nat l - 1))). change 4096 with (2 ^ 12). split; [|apply Z.pow_pos_nonneg; lia]. unfold shift_of. rewrite <- Z.pow_add_r by lia. f_equal. lia. Qed.

Lemma addr_aligned e : 0 <= e -> aligned (addr_of e).
Proof.
  intros He. exists (Z.land (Z.shiftr e 12) (Z.ones 40)). unfold addr_of. change VMM_PTE_PHYS_MASK with (Z.shiftl (Z.ones 40) 12). split.
  - change 4096 with (2 ^ 12). rewrite <- Z.shiftl_mul_pow2 by lia. apply Z.bits_inj'. intros k Hk. rewrite Z.land_spec, !Z.shiftl_spec by lia.
    destruct (Z.lt_ge_cases k 12) as [Hlt|Hge]; [rewrite !(Z.testbit_neg_r _ (k - 12)) by lia; apply andb_false_r|]. rewrite Z.land_spec, Z.shiftr_spec by lia. by replace (k - 12 + 12) with k by lia.
  - rewrite Z.land_ones by lia. apply Z.mod_pos_bound. lia.
Qed.

(** The [k]-th entry of the table a huge leaf at level [S l] is split into. *)
Lemma split_bits e l k : 0 <= e -> present e = true -> user e = false -> writable e = true -> (1 <= l <= 2)%nat -> 0 <= k < 512 ->
  addr_of e `mod` 2 ^ shift_of (S l) = 0 -> addr_of e + 2 ^ shift_of (S l) <= 2 ^ 52 ->
  let v := split_entry e (Z.of_nat (S l)) k in
  0 <= v /\ present v = true /\ user v = false /\ writable v = true /\ addr_of v = addr_of e + k * 2 ^ shift_of l /\ ((l =? 1)%nat = false -> huge v = true).
Proof.
  intros He Hp Hu Hw Hl Hk Hm Hmax. cbv zeta. unfold split_entry. replace (Z.of_nat (S l) - 1) with (Z.of_nat l) by lia. rewrite level_span by lia.
  pose proof (span_step l ltac:(lia)) as Hs. destruct (span_page l ltac:(lia)) as (c & Hc & Hcp). destruct (addr_aligned e He) as (r & Hr & Hrb).
  assert (Hspan : 0 <= k * 2 ^ shift_of l <= 511 * 2 ^ shift_of l) by nia. assert (Hae : 0 <= addr_of e) by lia. rewrite Hs in Hmax, Hm.
  rewrite (u64_small (k * _)) by lia. rewrite u64_small by lia.
  set (ad := addr_of e + k * 2 ^ shift_of l). assert (Had : aligned ad) by (exists (r + k * c); unfold ad; rewrite Hr, Hc; lia).
  set (lf := Z.ldiff e (Z.lor VMM_PTE_PHYS_MASK VMM_PAGE_HUGE)).
  assert (Hlf : flag_bits lf).
  { split; [apply Z.ldiff_nonneg; by left|]. unfold lf. rewrite Z.ldiff_land, <- Z.land_assoc. change (Z.land (Z.lnot (Z.lor VMM_PTE_PHYS_MASK VMM_PAGE_HUGE)) VMM_PTE_PHYS_MASK) with 0. by rewrite Z.land_0_r. }
  assert (Hbit : forall b, flag_bits b -> Z.land (Z.lnot (Z.lor VMM_PTE_PHYS_MASK VMM_PAGE_HUGE)) b = b -> Z.land lf b = Z.land e b).
  { intros b _ Hb. unfold lf. by rewrite Z.ldiff_land, <- Z.land_assoc, Hb. }
  assert (Hsub : forall g, flag_bits g -> Z.land g VMM_PAGE_PRESENT = 0 -> Z.land g VMM_PAGE_USER = 0 -> Z.land g VMM_PAGE_WRITE = 0 -> let v := Z.lor (Z.lor lf ad) g in
    0 <= v /\ present v = true /\ user v = false /\ writable v = true /\ addr_of v = ad /\ huge v = truthy (Z.land lf VMM_PAGE_HUGE) || huge g).
  { intros g Hg G1 G2 G3. cbv zeta. rewrite (Z.lor_comm lf ad), <- Z.lor_assoc. pose proof (flag_lor _ _ Hlf Hg) as Hfl. unfold present, user, writable, huge in *.
    rewrite (addr_of_entry ad _ Had Hfl), !(bit_of_entry ad) by done. rewrite !Z.land_lor_distr_l, G1, G2, G3, !Z.lor_0_r, !Hbit, Hp, Hu, Hw, truthy_lor by done. split_and!; try done.
    apply Z.lor_nonneg. split; [destruct Had as (? & -> & ?); lia | apply Hfl]. }
  destruct (Z.ltb_spec 1 (Z.of_nat l)).
  - destruct (Hsub VMM_PAGE_HUGE) as (? & ? & ? & ? & ? & H6); [done..|]. split_and!; [done..|]. intros _. rewrite H6. apply orb_true_r.
  - destruct (Hsub 0) as (? & ? & ? & ? & ? & H6); [done..|]. rewrite Z.lor_0_r in *. split_and!; [done..|]. intros E. apply Nat.eqb_neq in E. lia.
Qed.

(** A huge leaf and the table it is split into map the same. *)
Lemma split_offset l va : (1 <= l)%nat -> page_offset (S l) va = index va (shift_of l) * 2 ^ shift_of l + page_offset l va.
Proof.
  intros Hl. unfold page_offset. rewrite span_step by done. assert (0 < 2 ^ shift_of l) by (apply Z.pow_pos_nonneg; unfold shift_of; lia).
  rewrite Z.rem_mul_r by lia. unfold index. change 0x1FF with (Z.ones 9). rewrite Z.land_ones by lia. rewrite Z.shiftr_div_pow2 by (unfold shift_of; lia). change (2 ^ 9) with 512. lia.
Qed.

Lemma src_walk_private F m lvl t va pa w u : src_ok F m lvl t -> walk m lvl t va = Some (pa, w, u) -> w = true /\ u = false.
Proof.
  revert t pa w u. induction lvl as [|l IH]; intros t pa w u H E; [done|]. cbn [src_ok walk] in *. destruct H as [_ H].
  specialize (H _ (index_range va (shift_of (S l)))). cbv zeta in H. set (e := rd m (slot t (index va (shift_of (S l))))) in *.
  destruct (present e); cbn [negb] in E; [|done]. destruct (H eq_refl) as (_ & Hu & Hw & H4). destruct ((S l =? 1)%nat); cbn [orb] in E.
  - destruct (S l =? 4)%nat; [done|]. injection E as <- <- <-. done.
  - specialize (H4 eq_refl). destruct (huge e); [destruct (S l =? 4)%nat; [done|]; by injection E as <- <- <-|].
    destruct (walk m l (addr_of e) va) as [[[pa' w'] u']|] eqn:Ew; [|done]. injection E as <- <- <-. destruct (IH _ _ _ _ H4 Ew) as [-> ->]. by rewrite Hw, Hu.
Qed.

(** ** Keeping frames *)
Lemma kept_fill s s' f g m : kept s s' -> free (frames s) f -> page_set f 0 512 g (ram s') m -> kept s (with_ram m s').
Proof.
  intros [(m' & F' & E) H1 H2 H3 H4] Hf [_ Hm]. constructor; try done; [exists m, F'; by rewrite E|]. intros r j Hr Hj. cbn [ram with_ram]. rewrite Hm; [by apply H4|].
  intros i Hi Es. assert (aligned r /\ aligned f) as [Ha Hb].
  { destruct Hr as (q & -> & Hq & _), Hf as (q' & -> & Hq' & _). destruct H1 as [[_ Ht _ _] _]. pose proof bitmap_bits. rewrite H2 in Ht. split; [exists q | exists q']; lia. }
  apply slot_inj in Es as [-> _]; [|done..]. by eapply used_not_free.
Qed.

Lemma kept_take s s' f F' : kept s s' -> taken (frames s') f F' -> kept s (with_frames F' s') /\ free (frames s) f.
Proof.
  intros H (T1 & T2 & T3 & T4 & _). split; [|by eapply kept_free]. destruct H as [(m' & F1 & E) H1 H2 H3 H4]. constructor; try done.
  - exists m', F'. by rewrite E.
  - cbn [frames with_frames]. by rewrite T3.
  - intros g Hg. apply T4. right. by apply H3.
Qed.

Lemma kept_give s s' f : kept s s' -> free (frames s) f -> kept s (with_frames (pmm_free_page f (frames s')) s').
Proof.
  intros H Hf. assert (exists b : bool, frame_is b (frames s') f) as [b Hb].
  { destruct Hf as (q & -> & Hq & _). exists (bitmap_test q (pmm_bitmap (frames s'))), q. by rewrite (ke_total _ _ H). }
  destruct H as [(m' & F1 & E) H1 H2 H3 H4]. destruct (given_back_any b _ f H1 Hb) as (G1 & G2 & G3 & _). constructor; try done.
  - eexists m', _. by rewrite E.
  - cbn [frames with_frames]. by rewrite G2.
  - intros g Hg. apply G3. split; [|by apply H3]. intros ->. by eapply used_not_free.
Qed.

(** ** The copy *)
Definition copied lvl s t s' q : Prop := q <> 0 /\ kept s s' /\ tree (frames s) (frames s') (ram s') lvl q /\ forall va, walk (ram s') lvl q va = walk (ram s) lvl t va.

Section clone.
Context (l : nat) (Hl : (l < 3)%nat) (s : vm) (t dst : Z) (Hs : frames_ok (frames s)) (Hsrc : src_ok (frames s) (ram s) (S l) t).
Implicit Types (st : vm).

(** The loop at index [i]: the entries before are done, the others are clear. *)
Record filling i st : Prop := {
  fi_kept : kept s st;
  fi_tree : tree (frames s) (frames st) (ram st) (S l) dst;
  fi_clear : forall j, i <= j < 512 -> rd (ram st) (slot dst j) = 0;
  fi_walk : forall va, index va (shift_of (S l)) < i -> walk (ram st) (S l) dst va = walk (ram s) (S l) t va }.

Lemma dst_frame i st : filling i st -> free (frames s) dst /\ used (frames st) dst /\ aligned dst.
Proof.
  intros []. destruct (tr_frames _ _ _ _ _ fi_tree0 [] dst (Forall_nil_2 _) eq_refl). split_and!; [done | done |]. by eapply (frame_aligned false).
Qed.

Lemma src_entry i st : filling i st -> 0 <= i < 512 -> rd (ram st) (slot t i) = rd (ram s) (slot t i) /\ src_ok (frames st) (ram st) (S l) t.
Proof.
  intros H Hi. destruct (fi_kept _ _ H) as [_ _ _ Hu Hm]. destruct Hsrc as [Ht _]. split; [by apply Hm|]. by eapply src_ok_same.
Qed.

Lemma filling_none i st : filling i st -> 0 <= i < 512 -> present (rd (ram s) (slot t i)) = false -> filling (i + 1) st.
Proof.
  intros H Hi Hp. destruct H as [H1 H2 H3 H4]. constructor; [done | done | intros j Hj; apply H3; lia |].
  intros va Hva. destruct (decide (index va (shift_of (S l)) = i)) as [E|]; [|apply H4; lia]. cbn [walk]. rewrite E, H3, Hp by lia. done.
Qed.

(** An entry that ends the walk is copied. *)
Lemma filling_leaf i st : filling i st -> 0 <= i < 512 -> let e := rd (ram s) (slot t i) in present e = true -> l = 0%nat \/ huge e = true ->
  filling (i + 1) (with_ram (<[slot dst i := e]> (ram st)) st).
Proof.
  intros H Hi e Hp Hleaf. destruct (dst_frame i st H) as (Hdf & Hdu & Hda). destruct Hsrc as [_ He]. destruct (He i Hi Hp) as (_ & Hu & Hw & Hh). fold e in Hu, Hw, Hh.
  pose proof H as [H1 H2 H3 H4]. destruct (kept_write s st dst i e H1 Hdf Hi Hda) as [K1 K2].
  assert (Hnx : own_next (S l) e = None).
  { unfold own_next. rewrite Hp. destruct Hleaf as [->|Eh]; [by rewrite Hu|]. destruct l; [by rewrite Hu | by rewrite Eh]. }
  destruct (tree_store (frames s) (frames st) (ram st) l dst i e Hs H2 Hl Hi ltac:(apply H3; lia)) as (T1 & T2 & _).
  { intros _. change (1 =? KERNEL) with false. cbv iota. intros Hd. destruct Hleaf as [->|Eh]; [lia|]. rewrite Eh. split; [lia | done]. }
  { intros q E. congruence. }
  constructor; [done | done | |].
  - intros j Hj. cbn [ram with_ram]. rewrite K2; [apply H3; lia | done | lia | lia].
  - intros va Hva. cbn [ram with_ram]. destruct (decide (index va (shift_of (S l)) = i)) as [E|Hne]; [|rewrite T2 by done; apply H4; lia].
    cbn [walk]. rewrite E, rd_insert, Z.eqb_refl. fold e. rewrite Hp. cbn [negb]. destruct Hleaf as [->|Eh]; [done|]. by rewrite Eh, orb_true_r.
Qed.

(** A table made for the entry is linked. *)
Lemma filling_child i st st' q : filling i st -> 0 <= i < 512 -> let e := rd (ram s) (slot t i) in present e = true -> (1 <= l)%nat ->
  kept st st' -> tree (frames st) (frames st') (ram st') l q ->
  (forall va, index va (shift_of (S l)) = i -> walk (ram st') l q va = walk (ram s) (S l) t va) ->
  filling (i + 1) (with_ram (<[slot dst i := parent_entry e q]> (ram st')) st').
Proof.
  intros H Hi e Hp Hl1 Hk Hq Hwq. destruct (dst_frame i st H) as (Hdf & Hdu & Hda). pose proof Hsrc as [_ He]. destruct (He i Hi Hp) as (He0 & Hu & Hw & _). fold e in He0, Hu, Hw.
  pose proof H as [H1 H2 H3 H4]. pose proof (kept_trans _ _ _ H1 Hk) as Hk2. pose proof Hk as [_ _ _ Hku Hkm].
  assert (Hused : forall p f, indices p -> reach (ram st) (S l) dst p = Some f -> used (frames st) f) by (intros p f Hip Hr; by apply (tr_frames _ _ _ _ _ H2 p)).
  assert (H2' : tree (frames s) (frames st') (ram st') (S l) dst) by (eapply copy_same; [exact H2 | intros p f _ _; apply Hku | done]).
  assert (Hqa : aligned q) by (eapply (tree_aligned _ _ _ _ _ []); [by apply (ke_frames _ _ H1) | exact Hq | constructor | done]).
  destruct (parent_bits e q He0 Hqa) as (B1 & B2 & B3 & B4 & B5). set (v := parent_entry e q) in *.
  destruct (kept_write s st' dst i v Hk2 Hdf Hi Hda) as [K1 K2].
  assert (Hnx : own_next (S l) v = Some q).
  { unfold own_next. rewrite B1, Hp, B2, B5. by replace (S l =? 1)%nat with false by (symmetry; apply Nat.eqb_neq; lia). }
  assert (Hz : forall j, i <= j < 512 -> rd (ram st') (slot dst j) = 0) by (intros j Hj; rewrite Hkm by (done || lia); by apply H3).
  destruct (tree_store (frames s) (frames st') (ram st') l dst i v Hs H2' Hl Hi ltac:(apply Hz; lia)) as (T1 & T2 & T3).
  { intros _. change (1 =? KERNEL) with false. cbv iota. intros _. rewrite B2, B3, B4. done. }
  { intros r E. replace r with q by congruence. split.
    - destruct Hq as [Q1 Q2 Q3]. constructor; [|done|done]. intros p f Hip Hr. destruct (Q1 p f Hip Hr). split; [by apply (kept_free s st) | done].
    - intros p p' f Hip Hip' Hr Hr'. destruct (tr_frames _ _ _ _ _ Hq p f Hip Hr) as [Hf _].
      rewrite (tree_reach_same (frames s) (frames st) (ram st) (ram st') (S l) dst p' Hused Hkm Hip') in Hr'. eapply used_not_free; [by eapply Hused | done]. }
  constructor; [done | done | |].
  - intros j Hj. cbn [ram with_ram]. rewrite K2; [apply Hz; lia | done | lia | lia].
  - intros va Hva. cbn [ram with_ram]. destruct (decide (index va (shift_of (S l)) = i)) as [E|Hne].
    + rewrite <- (Hwq va E). cbn [walk]. rewrite E, rd_insert, Z.eqb_refl, B1, Hp, B2, B3, B4, B5, (T3 q va Hnx). cbn [negb orb].
      replace (S l =? 1)%nat with false by (symmetry; apply Nat.eqb_neq; lia). cbn [orb]. specialize (Hwq va E).
      destruct (walk (ram st') l q va) as [[[pa w] u]|]; [|done]. symmetry in Hwq. destruct (src_walk_private _ _ _ _ _ _ _ _ Hsrc Hwq) as [-> ->]. by rewrite Hw.
    + rewrite T2 by done. rewrite (tree_walk_same _ _ _ _ _ va Hused Hkm). apply H4. lia.
Qed.

(** The table of a huge leaf, before it is copied. *)
Lemma split_table e c m st : frames_ok (frames st) -> used (frames st) c -> 0 <= e -> present e = true -> user e = false -> writable e = true -> (1 <= l)%nat ->
  huge e = true -> addr_of e `mod` 2 ^ shift_of (S l) = 0 -> addr_of e + 2 ^ shift_of (S l) <= 2 ^ 52 ->
  (forall k, 0 <= k < 512 -> rd m (slot c k) = split_entry e (Z.of_nat (S l)) k) ->
  src_ok (frames st) m l c /\ forall va, walk m l c va = Some (addr_of e + page_offset (S l) va, true, false).
Proof.
  intros Hok Hc He Hp Hu Hw Hl1 Hh Ha Hmax Hm. pose proof (fun k Hk => split_bits e l k He Hp Hu Hw ltac:(lia) Hk Ha Hmax) as Hb.
  pose proof (span_step l Hl1) as Hsp. assert (Hpos : 0 < 2 ^ shift_of l) by (apply Z.pow_pos_nonneg; unfold shift_of; lia).
  destruct l as [|l'] eqn:El; [lia|]. rewrite <- El in *. split.
  - rewrite El. cbn [src_ok]. rewrite <- El. split; [done|]. intros i Hi. cbv zeta. rewrite (Hm i Hi). destruct (Hb i Hi) as (C1 & C2 & C3 & C4 & C5 & C6). intros _. split_and!; [done..|].
    intros E. rewrite (C6 E), C5. split_and!; [apply Nat.ltb_lt; lia | | nia].
    rewrite Hsp in Ha. apply Z.mod_divide in Ha as [d Hd]; [|lia]. rewrite Hd. replace (d * (2 ^ shift_of l * 512) + i * 2 ^ shift_of l) with ((d * 512 + i) * 2 ^ shift_of l) by ring. by apply Z.mod_mul; lia.
  - intros va. rewrite El. cbn [walk]. rewrite <- El. pose proof (index_range va (shift_of l)) as Hi. rewrite (Hm _ Hi). destruct (Hb _ Hi) as (C1 & C2 & C3 & C4 & C5 & C6). rewrite C2. cbn [negb].
    destruct (l =? 1)%nat eqn:E1; cbn [orb].
    + replace (l =? 4)%nat with false by (symmetry; apply Nat.eqb_neq; lia). rewrite C3, C4, C5, (split_offset l va Hl1). f_equal. f_equal. f_equal. lia.
    + rewrite (C6 eq_refl). replace (l =? 4)%nat with false by (symmetry; apply Nat.eqb_neq; lia). rewrite C3, C4, C5, (split_offset l va Hl1). f_equal. f_equal. f_equal. lia.
Qed.
End clone.

Lemma wp_free_children s st t dst l i (Q : unit -> vm -> Prop) : frames_ok (frames s) -> (1 <= l < 3)%nat -> filling l s t dst i st -> 0 <= i < 512 ->
  (forall st', kept s st' -> Q tt st') -> wp (free_children_of dst i) st Q.
Proof.
  intros Hs Hl Hf Hi HQ. unfold free_children_of. pose proof Hf as [H1 H2 _ _].
  apply (wp_foreach (fun _ st' => kept s st' /\ ram st' = ram st)); [lia | done | | by intros st' [? _]; apply HQ].
  intros j st' Hj [Hk Er]. apply vm_bind, wp_read64. rewrite Er. set (old := rd (ram st) (slot dst j)).
  destruct (present old && negb (huge old) && user old) eqn:E; [|by apply (vm_ret tt)]. apply andb_true_iff in E as [E _]. apply wp_upd. split; [|done]. apply kept_give; [done|].
  destruct (tr_frames _ _ _ _ _ H2 [j] (addr_of old)) as [? _]; [constructor; [lia | constructor] | | done]. cbn [reach]. fold old. unfold own_next.
  replace (S l =? 1)%nat with false by (symmetry; apply Nat.eqb_neq; lia). by rewrite E.
Qed.

Lemma empty_tree F0 F m l t : free F0 t -> used F t -> (forall j, 0 <= j < 512 -> rd m (slot t j) = 0) -> tree F0 F m (S l) t.
Proof.
  intros Hf Hu Hz. assert (Hr : forall path f, indices path -> reach m (S l) t path = Some f -> path = [] /\ f = t).
  { intros [|i path] f Hp E; [by injection E|]. cbn [reach] in E. rewrite Hz in E; [done | by apply Forall_inv in Hp]. }
  constructor.
  - intros path f Hp [-> ->]%Hr; done.
  - intros path path' f Hp Hp' [-> _]%Hr [-> _]%Hr; done.
  - intros path r i Hp Hi _ [-> ->]%Hr; [|done]. rewrite Hz by done. by intros ?.
Qed.

Lemma addr_of_table c : aligned c -> addr_of (Z.lor (Z.lor c VMM_PAGE_PRESENT) VMM_PAGE_WRITE) = c.
Proof. intros H. rewrite <- Z.lor_assoc. by apply addr_of_entry. Qed.

Lemma wp_clone_table lvl s src t base (Q : Z -> vm -> Prop) : (1 <= lvl <= 3)%nat -> frames_ok (frames s) -> src_ok (frames s) (ram s) lvl t -> addr_of src = t ->
  (forall s', kept s s' -> Q 0 s') -> (forall s' q, copied lvl s t s' q -> Q q s') -> wp (clone_table_for_user_as lvl src base) s Q.
Proof.
  revert s src t base Q. induction lvl as [|l IH]; intros s src t base Q Hlvl Hs Hsrc Ht H0 HS; [lia|]. cbn [clone_table_for_user_as].
  apply vm_bind, wp_alloc; [done | apply (vm_ret 0), H0, kept_refl; done|]. intros dst F' Hd0 Htk. replace (dst =? 0) with false by lia.
  apply vm_bind, wp_zero_page. intros m1 Hm1. rewrite Ht. set (s1 := with_ram m1 (with_frames F' s)).
  assert (Hk1 : kept s s1 /\ free (frames s) dst).
  { destruct (kept_take s s dst F' (kept_refl s Hs) Htk) as [Hk Hf]. split; [|done]. by apply (kept_fill s (with_frames F' s) dst (fun _ => 0) m1). }
  destruct Hk1 as [Hk1 Hdf].
  apply vm_bind, (wp_loop (filling l s t dst)); [lia | | |].
  - constructor; [done | | |].
    + apply empty_tree; [done | apply Htk; by left | intros j Hj; by apply Hm1].
    + intros j Hj. apply Hm1. lia.
    + intros va Hva. pose proof (index_range va (shift_of (S l))). lia.
  - intros i st Hi Hf. destruct (src_entry l s t dst Hsrc i st Hf Hi) as [Ee Hsrc']. pose proof (fi_kept _ _ _ _ _ _ Hf) as Hk. pose proof (ke_frames _ _ Hk) as Hfr.
    apply vm_bind, wp_read64. rewrite Ee. set (e := rd (ram s) (slot t i)) in *. cbv zeta.
    destruct (present e) eqn:Hp; cbn [negb]; [|apply (vm_ret None); exact (filling_none l ltac:(lia) s t dst i st Hf Hi Hp)].
    destruct Hsrc as [Htu He]. pose proof (conj Htu He) as Hsrc. destruct (He i Hi Hp) as (He0 & Hu & Hw & Hd). fold e in He0, Hu, Hw, Hd.
    assert (Hlev : (Z.of_nat (S l) =? 1) = (S l =? 1)%nat) by (clear; destruct l as [|l']; [done | transitivity false; [apply Z.eqb_neq; lia | done]]). rewrite Hlev.
    destruct ((S l =? 1)%nat || huge e) eqn:Eleaf.
    + destruct ((u64 (base + u64 (i * vmm_level_span (Z.of_nat (S l)))) <? VMM_LOW_KERNEL_CLONE_BASE) && (1 <? Z.of_nat (S l)) && huge e) eqn:Esplit.
      * apply andb_true_iff in Esplit as [[_ E1%Z.ltb_lt]%andb_true_iff Eh]. assert (Hl1 : (1 <= l)%nat) by lia. rewrite Eh in Hd.
        destruct (Hd ltac:(apply Nat.eqb_neq; lia)) as (_ & Hmod & Hmax).
        apply vm_bind, wp_alloc; [done | by apply (vm_ret (Some 0)), vm_ret, H0 |]. intros c Fc Hc0 Hct. replace (c =? 0) with false by lia.
        apply vm_bind, (wp_fill_page c 0 512 (fun k => split_entry e (Z.of_nat (S l)) k)); [lia|]. intros mc Hmc. cbn [ram with_frames] in Hmc.
        set (st1 := with_ram mc (with_frames Fc st)). destruct (kept_take st st c Fc (kept_refl st Hfr) Hct) as [Hkc Hcf].
        assert (Hk1' : kept st st1) by (by apply (kept_fill st (with_frames Fc st) c (fun k => split_entry e (Z.of_nat (S l)) k) mc)).
        assert (Hca : aligned c) by (by eapply (frame_aligned false)). assert (Hcu : used (frames st1) c) by (apply Hct; by left).
        destruct (split_table l ltac:(lia) s t Hsrc e c mc st1 (ke_frames _ _ Hk1') Hcu He0 Hp Hu Hw Hl1 Eh Hmod Hmax) as [Hsc Hwc]; [intros k' Hk'; by apply Hmc|].
        apply vm_bind, (IH st1 _ c); [lia | apply Hk1' | done | by apply addr_of_table | |].
        { intros st2 Hk2. apply vm_bind, wp_upd. apply (vm_ret (Some 0)), vm_ret, H0. eapply kept_trans; [exact Hk|]. apply kept_give; [by eapply kept_trans | done]. }
        intros st2 q (Hq0 & Hk2 & Hqt & Hqw). apply vm_bind, wp_upd. replace (q =? 0) with false by lia. cbv beta.
        assert (Hk3 : kept st (with_frames (pmm_free_page c (frames st2)) st2)) by (apply kept_give; [by eapply kept_trans | done]).
        apply vm_bind, wp_write64, (vm_ret None).
        apply (filling_child l ltac:(lia) s t dst Hs Hsrc i st (with_frames (pmm_free_page c (frames st2)) st2) q Hf Hi Hp Hl1 Hk3).
        -- destruct (given_back_any true (frames st2) c (ke_frames _ _ Hk2) (ke_used _ _ Hk2 c Hcu)) as (_ & _ & G3 & _). destruct Hqt as [Q1 Q2 Q3]. constructor; [|done|done].
           intros p f Hip Hr. destruct (Q1 p f Hip Hr) as [Hff Hfu]. split; [by apply (kept_free st st1)|]. apply G3. split; [|done]. intros ->. exact (used_not_free _ _ Hcu Hff).
        -- intros va Hva. cbn [ram with_frames]. rewrite Hqw, Hwc. cbn [walk]. rewrite Hva. fold e. rewrite Hp, Eh, Hu, Hw, orb_true_r. cbn [negb].
           by replace (S l =? 4)%nat with false by (symmetry; apply Nat.eqb_neq; lia).
      * apply vm_bind, wp_write64, (vm_ret None). apply (filling_leaf l ltac:(lia) s t dst Hs Hsrc i st Hf Hi Hp). apply orb_true_iff in Eleaf as [E|E]; [left; apply Nat.eqb_eq in E; lia | by right].
    + apply orb_false_iff in Eleaf as [E1 Eh]. pose proof (proj1 (Nat.eqb_neq _ _) E1) as Hl1. specialize (Hd E1). rewrite Eh in Hd.
      apply vm_bind, (IH st e (addr_of e)); [lia | done | eapply src_ok_same; [exact Hd | apply Hk | apply Hk] | done | |].
      * intros st2 Hk2. apply vm_bind. assert (Hff : filling l s t dst i st2).
        { destruct Hf as [F1 F2 F3 F4]. assert (Hu2 : forall p f, indices p -> reach (ram st) (S l) dst p = Some f -> used (frames st) f) by (intros p f Hip Hr; by apply (tr_frames _ _ _ _ _ F2 p)).
          pose proof (ke_mem _ _ Hk2) as Hm2. constructor; [by eapply kept_trans | eapply copy_same; [exact F2 | intros p f _ _; apply Hk2 | done] | |].
          - intros j Hj. rewrite Hm2; [by apply F3 | apply (Hu2 [] dst); [constructor | done] | lia].
          - intros va Hva. rewrite (tree_walk_same _ _ _ _ _ va Hu2 Hm2). by apply F4. }
        eapply (wp_free_children s st2 t dst l i); [done | lia | exact Hff | done |]. intros st3 Hk3. apply vm_bind, wp_upd, (vm_ret (Some 0)), vm_ret, H0. by apply kept_give.
      * intros st2 q (Hq0 & Hk2 & Hqt & Hqw). replace (q =? 0) with false by lia. apply vm_bind, wp_write64, (vm_ret None).
        apply (filling_child l ltac:(lia) s t dst Hs Hsrc i st st2 q Hf Hi Hp ltac:(lia) Hk2 Hqt). intros va Hva. rewrite Hqw.
        rewrite (src_walk_same (frames s) (ram s) (ram st) l (addr_of e) va Hd (ke_mem _ _ Hk)). cbn [walk]. rewrite Hva. fold e. rewrite Hp, Eh, E1, Hu, Hw. cbn [negb orb].
        destruct (walk (ram s) l (addr_of e) va) as [[[pa w] u]|] eqn:Ew; [|done]. destruct (src_walk_private _ _ _ _ _ _ _ _ Hd Ew) as [-> ->]. done.
  - intros st Hf. apply (vm_ret dst). apply HS. destruct Hf as [F1 F2 F3 F4]. split_and!; [done | done | done |]. intros va. apply F4. apply index_range.
Qed.

(** ** [vmm_create_address_space] *)
Section create.
Context (n : nat) (Hn : (3 <= n)%nat).

Lemma huge_room e l : 0 <= e -> (1 <= l <= 3)%nat -> addr_of e `mod` 2 ^ shift_of l = 0 -> addr_of e + 2 ^ shift_of l <= 2 ^ 52.
Proof.
  intros He Hl Hm. destruct (addr_aligned e He) as (q & Eq & Hq). assert (Hp : exists c, 2 ^ 52 = c * 2 ^ shift_of l /\ 0 < 2 ^ shift_of l).
  { exists (2 ^ (52 - shift_of l)). unfold shift_of in *. split; [rewrite <- Z.pow_add_r by lia; f_equal; lia | apply Z.pow_pos_nonneg; lia]. }
  destruct Hp as (c & Ec & Hpos). apply Z.mod_divide in Hm as [d Hd]; [|lia]. assert (d * 2 ^ shift_of l < c * 2 ^ shift_of l) by lia.
  assert (d < c) by (apply (Z.mul_lt_mono_pos_r (2 ^ shift_of l)); lia). pose proof (Z.mul_le_mono_nonneg_r (d + 1) c (2 ^ shift_of l) ltac:(lia) ltac:(lia)). rewrite Hd, Ec. lia.
Qed.

(** The kernel's tables can be copied. *)
Lemma kernel_src s lvl path t : ok n s -> owned 3 s KERNEL path t -> path <> [] -> (length path + lvl = 4)%nat -> src_ok (frames s) (ram s) lvl t.
Proof.
  intros Hok. revert path t. induction lvl as [|l IH]; intros path t Ho Hne Hlen; [done|]. cbn [src_ok]. split; [by apply (ok_used n s Hok KERNEL path); eapply owned_le|].
  intros i Hi. cbv zeta. intros Hp. assert (Hpi : path_ok s KERNEL (path ++ [i])) by (apply path_ok_snoc; [by destruct Ho as (? & _ & ? & _) | done | done]).
  pose proof (ok_entries n s Hok KERNEL path t i Ho Hpi Hp) as He. cbn [Z.eqb KERNEL] in He. destruct He as (He0 & Hu & Hw & Hh). split_and!; [done..|].
  intros Hl1. apply Nat.eqb_neq in Hl1. fold (entry_at s t i) in *. destruct (huge (entry_at s t i)) eqn:Eh.
  - destruct (Hh ltac:(lia) eq_refl) as [_ Hm]. replace (4 - length path)%nat with (S l) in Hm by lia. destruct path; [done|]. cbn [length] in Hlen. split_and!; [apply Nat.ltb_lt; lia | done | apply huge_room; [done | lia | done]].
  - apply (IH (path ++ [i])); [|by destruct path | rewrite length_app; cbn; lia]. apply (owned_snoc 3 s KERNEL path t i); [done | done | lia |].
    unfold own_next. rewrite Hp, Eh. replace ((4 - length path)%nat =? 1)%nat with false by (symmetry; apply Nat.eqb_neq; lia). done.
Qed.

(** More frames in use, and nothing else, is no harm. *)
Lemma kept_same s st : ok n s -> kept s st -> same_tables s (ram st).
Proof. intros Hok Hk b pre q j Ho Hj. apply (ke_mem _ _ Hk); [|done]. apply (ok_used n s Hok b pre). by eapply owned_le. Qed.

Lemma kept_ok s st : ok n s -> kept s st -> ok n st.
Proof.
  intros Hok Hk. pose proof (ok_same n s (ram st) Hn Hok (kept_same s st Hok Hk)) as H. destruct Hk as [(m' & F' & ->) H1 H2 H3 _].
  cbn [ram with_ram] in H. constructor; [done | | apply H..]. intros a path f Ho. apply H3. by apply (ok_used _ _ H a path).
Qed.

Lemma kept_owned s st a path f : ok n s -> kept s st -> owned n st a path f <-> owned n s a path f.
Proof.
  intros Hok Hk. rewrite <- (owned_same n s (ram st)) by (by apply kept_same). destruct (ke_state _ _ Hk) as (m' & F' & ->). done.
Qed.

Lemma kept_walk s st a va : ok n s -> kept s st -> in_head s a va -> walk_of st a va = walk_of s a va.
Proof.
  intros Hok Hk Hh. rewrite <- (walk_same s (ram st) a va (kept_same s st Hok Hk) Hh). destruct (ke_state _ _ Hk) as (m' & F' & ->). done.
Qed.

(** The root of a new address space, filled. *)
Record new_root s st p : Prop := {
  nr_kept : kept s st;
  nr_root : free (frames s) p /\ used (frames st) p;
  nr_high : forall (k : vmm_address_space) i, spaces s !! KERNEL = Some k -> 256 <= i < 512 -> rd (ram st) (slot p i) = rd (ram s) (slot (pml4_phys k) i);
  nr_low : forall i, 1 <= i < 256 -> rd (ram st) (slot p i) = 0;
  nr_zero : forall (k : vmm_address_space), spaces s !! KERNEL = Some k -> let e := rd (ram s) (slot (pml4_phys k) 0) in
    (present e = false /\ rd (ram st) (slot p 0) = 0) \/
    (present e = true /\ exists q st1, rd (ram st) (slot p 0) = parent_entry e q /\ kept s st1 /\ used (frames st1) p /\ aligned q /\
       tree (frames st1) (frames st) (ram st) 3 q /\ forall va, walk (ram st) 3 q va = walk (ram s) 3 (addr_of e) va) }.

Definition with_new s p : vm := with_next_as (next_as s + 1) (with_spaces (<[next_as s := mkAs p 1 0 []]> (spaces s)) s).

Lemma new_reach s st p path f (k : vmm_address_space) : new_root s st p -> spaces s !! KERNEL = Some k -> ok n s -> Forall (fun i => 0 <= i < 512) path -> match path with i :: _ => i < 256 | [] => True end ->
  reach (ram st) 4 p path = Some f -> (path = [] /\ f = p) \/ exists rest q st1, path = 0 :: rest /\ indices rest /\ kept s st1 /\ used (frames st1) p /\ tree (frames st1) (frames st) (ram st) 3 q /\
    rd (ram st) (slot p 0) = parent_entry (rd (ram s) (slot (pml4_phys k) 0)) q /\ reach (ram st) 3 q rest = Some f.
Proof.
  intros H Hk Hok Hp Hh E. destruct path as [|i rest]; [left; split; [done | by injection E]|right]. cbn in Hh. pose proof (Forall_inv Hp) as Hi. apply Forall_inv_tail in Hp. cbn [reach] in E.
  cbn beta in Hi. destruct (decide (i = 0)) as [->|Hi0]; [|exfalso; by rewrite (nr_low _ _ _ H) in E by lia].
  destruct (nr_zero _ _ _ H k Hk) as [[_ Ez]|(Epr & q & st1 & Ee & K1 & K2 & Hqa & Ht & _)]; [by rewrite Ez in E|]. exists rest, q, st1. split_and!; try done.
  rewrite Ee in E. assert (He0 : 0 <= rd (ram s) (slot (pml4_phys k) 0)).
  { pose proof (ok_entries n s Hok KERNEL [] (pml4_phys k) 0 (owned_root 3 s KERNEL k Hk)) as He. cbn [app] in He.
    assert (Hp0 : path_ok s KERNEL [0]) by (split; [constructor; [lia | constructor] | left; lia]). by apply (He Hp0 Epr). }
  destruct (parent_bits _ q He0 Hqa) as (B1 & B2 & _ & _ & B5). unfold own_next in E. by rewrite B1, Epr, B2, B5 in E.
Qed.

Lemma with_new_owned s st p b path f : ok n s -> new_root s st p -> owned n (with_new st p) b path f <->
  (b <> next_as s /\ owned n s b path f) \/ (b = next_as s /\ Forall (fun i => 0 <= i < 512) path /\ match path with i :: _ => 0 <= i < 256 | [] => True end /\ (length path <= n)%nat /\ reach (ram st) 4 p path = Some f).
Proof.
  intros Hok H. pose proof (nr_kept _ _ _ H) as Hk. destruct (ke_state _ _ Hk) as (m' & F' & Es). destruct (ok_kernel n s Hok) as [k Hkk]. pose proof (ok_next n s Hok KERNEL k Hkk) as HK.
  assert (Hsp : spaces (with_new st p) = <[next_as s := mkAs p 1 0 []]> (spaces s)) by (by rewrite Es).
  assert (Hhd : forall i, head (with_new st p) b i <-> head s b i) by (intros i; by rewrite Es).
  destruct (decide (b = next_as s)) as [->|Hne].
  - split.
    + intros (x & Hx & [Hp1 Hp2] & Hl & Hr). rewrite Hsp, lookup_insert_eq in Hx. injection Hx as <-. right. split_and!; try done. destruct path as [|i rest]; [done|].
      apply Hhd in Hp2 as [?|[? _]]; [done|]. unfold KERNEL in *. lia.
    + intros [[? _]|(_ & Hp1 & Hp2 & Hl & Hr)]; [done|]. exists (mkAs p 1 0 []). rewrite Hsp, lookup_insert_eq. split_and!; [done | | done | done]. split; [done|].
      destruct path; [done | apply Hhd; by left].
  - rewrite <- (kept_owned s st b path f Hok Hk). split.
    + intros (x & Hx & Hp & Hl & Hr). left. split; [done|]. rewrite Hsp, lookup_insert_ne in Hx by congruence. exists x. split_and!; [by rewrite Es | | done | done].
      destruct Hp as [Hp1 Hp2]. split; [done|]. destruct path; [done|]. rewrite Es. by apply Hhd.
    + intros [[_ (x & Hx & Hp & Hl & Hr)]|(? & _)]; [|done]. exists x. rewrite Hsp, lookup_insert_ne by congruence. split_and!; [by rewrite Es in Hx | | done | done].
      destruct Hp as [Hp1 Hp2]. split; [done|]. destruct path; [done|]. apply Hhd. by rewrite Es in Hp2.
Qed.

(** The invariant with the new address space. *)
Lemma with_new_ok s st p : ok n s -> new_root s st p -> ok n (with_new st p).
Proof.
  intros Hok H. pose proof (nr_kept _ _ _ H) as Hk. destruct (ke_state _ _ Hk) as (m' & F' & Es). destruct (ok_kernel n s Hok) as [k Hkk]. pose proof (ok_next n s Hok KERNEL k Hkk) as HK.
  destruct (nr_root _ _ _ H) as [Hpf Hpu].
  assert (Hfresh : forall path f, Forall (fun i => 0 <= i < 512) path -> match path with i :: _ => 0 <= i < 256 | [] => True end -> reach (ram st) 4 p path = Some f -> free (frames s) f /\ used (frames st) f).
  { intros path f Hp1 Hp2 Hr. destruct (new_reach s st p path f k H Hkk Hok Hp1 ltac:(destruct path; [done | lia]) Hr) as [[_ ->]|(rest & q & st1 & -> & Hi & K1 & _ & Ht & _ & Hrest)]; [done|].
    destruct (tr_frames _ _ _ _ _ Ht rest f Hi Hrest). split; [by apply (kept_free s st1) | done]. }
  assert (Hsp : spaces (with_new st p) = <[next_as s := mkAs p 1 0 []]> (spaces s)) by (by rewrite Es).
  assert (Hsmall : forall b x, spaces s !! b = Some x -> 0 <= b < next_as s) by (intros b x; apply Hok).
  constructor.
  - apply Hk.
  - intros b path f [[_ Ho]|(_ & Hp1 & Hp2 & _ & Hr)]%(with_new_owned s st p b path f Hok H); [|by apply (Hfresh path)]. apply (ke_used _ _ Hk). by apply (ok_used n s Hok b path).
  - intros b c path path' f [[Hb Ho]|(-> & Hp1 & Hp2 & _ & Hr)]%(with_new_owned s st p b path f Hok H) [[Hc Ho']|(-> & Hp1' & Hp2' & _ & Hr')]%(with_new_owned s st p c path' f Hok H).
    + by apply (ok_inj n s Hok b c path path' f).
    + exfalso. eapply used_not_free; [by apply (ok_used n s Hok b path) | by apply (Hfresh path')].
    + exfalso. eapply used_not_free; [by apply (ok_used n s Hok c path') | by apply (Hfresh path)].
    + split; [done|].
      destruct (new_reach s st p path f k H Hkk Hok Hp1 ltac:(destruct path; [done | lia]) Hr) as [[-> ->]|(rest & q & st1 & -> & Hi & K1 & Kp & Ht & Ee & Hrest)];
      destruct (new_reach s st p path' _ k H Hkk Hok Hp1' ltac:(destruct path'; [done | lia]) Hr') as [[-> Ef]|(rest' & q' & st1' & -> & Hi' & K1' & Kp' & Ht' & Ee' & Hrest')]; [done | | |].
      * exfalso. apply (used_not_free (frames st1') p Kp'). exact (proj1 (tr_frames _ _ _ _ _ Ht' rest' _ Hi' Hrest')).
      * exfalso. apply (used_not_free (frames st1) p Kp). rewrite <- Ef. exact (proj1 (tr_frames _ _ _ _ _ Ht rest _ Hi Hrest)).
      * assert (He0 : 0 <= rd (ram s) (slot (pml4_phys k) 0)).
        { destruct (nr_zero _ _ _ H k Hkk) as [[_ Ez]|(Epr & _)].
          - rewrite Ez in Ee. exfalso. cbn [reach] in Hr. by rewrite Ez in Hr.
          - pose proof (ok_entries n s Hok KERNEL [] (pml4_phys k) 0 (owned_root 3 s KERNEL k Hkk)) as He. cbn [app] in He.
            assert (Hp0 : path_ok s KERNEL [0]) by (split; [constructor; [lia | constructor] | left; lia]). by apply (He Hp0 Epr). }
        assert (q' = q) as ->.
        { assert (aligned q /\ aligned q') as [Ha Ha'].
          { split; [destruct (tr_frames _ _ _ _ _ Ht [] q (Forall_nil_2 _) eq_refl) | destruct (tr_frames _ _ _ _ _ Ht' [] q' (Forall_nil_2 _) eq_refl)]; by eapply (frame_aligned true); [apply Hk|]. }
          destruct (parent_bits _ q He0 Ha) as (_ & _ & _ & _ & <-). destruct (parent_bits _ q' He0 Ha') as (_ & _ & _ & _ & <-). congruence. }
        f_equal. by apply (tr_inj _ _ _ _ _ Ht rest rest' f).
  - intros b x Hx. rewrite Hsp in Hx. assert (Hnx : next_as (with_new st p) = next_as s + 1) by (by rewrite Es). rewrite Hnx.
    destruct (decide (b = next_as s)) as [->|Hb]; [lia|]. rewrite lookup_insert_ne in Hx by congruence. specialize (Hsmall b x Hx). lia.
  - exists k. rewrite Hsp, lookup_insert_ne by lia. done.
  - intros b x k' i Hx Hk' Hi. rewrite Hsp in Hx, Hk'. rewrite lookup_insert_ne in Hk' by lia. replace k' with k by congruence.
    assert (Hold : forall c y, spaces s !! c = Some y -> rd (ram st) (slot (pml4_phys y) i) = rd (ram s) (slot (pml4_phys y) i)).
    { intros c y Hy. apply (ke_mem _ _ Hk); [|lia]. apply (ok_used n s Hok c []). by apply owned_root. }
    unfold entry_at. change (ram (with_new st p)) with (ram st). rewrite (Hold KERNEL k Hkk). destruct (decide (b = next_as s)) as [->|Hb].
    + rewrite lookup_insert_eq in Hx. injection Hx as <-. cbn [pml4_phys]. by apply (nr_high _ _ _ H).
    + rewrite lookup_insert_ne in Hx by congruence. rewrite (Hold b x Hx). by apply (ok_high n s Hok b x k i).
  - intros b path t i Ho Hp. pose proof (path_ok_last _ _ _ _ Hp) as Hi. pose proof (owned_le 3 n _ _ _ _ Hn Ho) as Ho'. unfold entry_at. change (ram (with_new st p)) with (ram st).
    apply (with_new_owned s st p b path t Hok H) in Ho' as [[Hb Hob]|(-> & Hp1 & Hp2 & Hl & Hr)].
    + assert (Ho3 : owned 3 s b path t) by (apply (owned_3 n); [done | by destruct Ho as (_ & _ & _ & ? & _)]).
      rewrite (ke_mem _ _ Hk) by (done || by apply (ok_used n s Hok b path)). apply (ok_entries n s Hok b path t i Ho3). destruct Hp as [P1 P2]. split; [done|]. destruct (path ++ [i]); [done|]. by rewrite Es in P2.
    + assert (HnK : (next_as s =? KERNEL) = false) by (unfold KERNEL in *; lia). assert (Hl3 : (length path <= 3)%nat) by (by destruct Ho as (_ & _ & _ & ? & _)).
      assert (Hgen : forall d e, entry_ok 1 d e -> entry_ok (next_as s) d e) by (intros d e; unfold entry_ok; by rewrite HnK).
      destruct (new_reach s st p path t k H Hkk Hok Hp1 ltac:(destruct path; [done | lia]) Hr) as [[-> ->]|(rest & q & st1 & -> & Hir & K1 & Kp & Ht & Ee & Hrest)].
      * assert (Hi256 : i < 256). { destruct Hp as [_ Hp]. cbn [app] in Hp. rewrite Es in Hp. destruct Hp as [?|[E _]]; [lia|]. unfold KERNEL in *. lia. }
        destruct (decide (i = 0)) as [->|Hi0]; [|rewrite (nr_low _ _ _ H) by lia; by intros ?].
        destruct (nr_zero _ _ _ H k Hkk) as [[_ Ez]|(Epr & q & st1 & Ee & K1 & K2 & Hqa & Ht & _)]; [rewrite Ez; by intros ?|].
        pose proof (ok_entries n s Hok KERNEL [] (pml4_phys k) 0 (owned_root 3 s KERNEL k Hkk)) as He. cbn [app] in He.
        assert (Hp0 : path_ok s KERNEL [0]) by (split; [constructor; [lia | constructor] | left; lia]). destruct (He Hp0 Epr) as (He0 & _ & Hw & _).
        destruct (parent_bits _ q He0 Hqa) as (B1 & B2 & B3 & B4 & _). rewrite Ee. apply Hgen. intros _ _. fold (entry_at s (pml4_phys k) 0) in *. by rewrite B2, B3, B4.
      * apply Hgen. cbn [length] in *. apply (tr_entries _ _ _ _ _ Ht rest); [done | done | lia | done].
  - intros H4. rewrite Es. by apply (ok_counts n s Hok).
Qed.

Lemma walk_root m p va : walk m 4 p va = let e := rd m (slot p (index va 39)) in if negb (present e) || huge e then None else
  match walk m 3 (addr_of e) va with Some (pa, w, u) => Some (pa, w && writable e, u && user e) | None => None end.
Proof. cbv zeta. change 39 with (shift_of 4). cbn [walk Nat.eqb]. by destruct (present _), (huge _). Qed.

(** The lower half of the new address space maps what the kernel maps through entry 0. *)
Lemma new_walk s st p va : ok n s -> new_root s st p -> 0 <= index va 39 < 256 ->
  walk_of (with_new st p) (next_as s) va = if index va 39 =? 0 then walk_of s KERNEL va else None.
Proof.
  intros Hok H Hi. pose proof (nr_kept _ _ _ H) as Hk. destruct (ke_state _ _ Hk) as (m' & F' & Es). destruct (ok_kernel n s Hok) as [k Hkk].
  assert (Hsp : spaces (with_new st p) = <[next_as s := mkAs p 1 0 []]> (spaces s)) by (by rewrite Es).
  unfold walk_of. rewrite Hsp, lookup_insert_eq, Hkk. change (ram (with_new st p)) with (ram st). cbn [pml4_phys]. rewrite !walk_root.
  destruct (Z.eqb_spec (index va 39) 0) as [E|E]; [|by rewrite (nr_low _ _ _ H) by lia]. rewrite E. cbv zeta. destruct (nr_zero _ _ _ H k Hkk) as [[-> ->]|(Epr & q & st1 & -> & K1 & K2 & Hqa & _ & Hw)]; [done|].
  assert (Hp0 : path_ok s KERNEL [0]) by (split; [constructor; [lia | constructor] | left; lia]).
  pose proof (owned_root 3 s KERNEL k Hkk) as Hor. destruct (ok_entries n s Hok KERNEL [] (pml4_phys k) 0 Hor Hp0 Epr) as (He0 & Hu & Hwr & Hh).
  fold (entry_at s (pml4_phys k) 0) in *. set (e := entry_at s (pml4_phys k) 0) in *. assert (Eh : huge e = false) by (destruct (huge e); [by destruct (Hh ltac:(cbn; lia) eq_refl) | done]).
  destruct (parent_bits e q He0 Hqa) as (-> & -> & -> & -> & ->). rewrite Epr, Eh, Hw, Hu, Hwr. cbn [negb orb].
  destruct (walk (ram s) 3 (addr_of e) va) as [[[pa w] u]|] eqn:Ew; [|done].
  assert (Hs : src_ok (frames s) (ram s) 3 (addr_of e)).
  { apply (kernel_src s 3 [0]); [done | | done | done]. apply (owned_snoc 3 s KERNEL [] (pml4_phys k) 0); [done | done | cbn; lia |].
    unfold own_next. fold e. by rewrite Epr, Eh. }
  by destruct (src_walk_private _ _ _ _ _ _ _ _ Hs Ew) as [-> ->].
Qed.

Lemma old_walk s st p b va : ok n s -> new_root s st p -> b <> next_as s -> in_head s b va -> walk_of (with_new st p) b va = walk_of s b va.
Proof.
  intros Hok H Hb Hh. rewrite <- (kept_walk s st b va Hok (nr_kept _ _ _ H) Hh). destruct (ke_state _ _ (nr_kept _ _ _ H)) as (m' & F' & Es).
  unfold walk_of. replace (spaces (with_new st p)) with (<[next_as s := mkAs p 1 0 []]> (spaces s)) by (by rewrite Es). rewrite lookup_insert_ne by congruence. by rewrite Es.
Qed.

(** The upper half of the root, copied last. *)
Lemma new_root_high s (st : vm) p m' : ok n s -> (exists k : vmm_address_space, spaces s !! KERNEL = Some k /\ page_set p 256 512 (fun i => rd (ram s) (slot (pml4_phys k) i)) (ram st) m') ->
  kept s st -> free (frames s) p -> used (frames st) p -> (forall i, 1 <= i < 256 -> rd (ram st) (slot p i) = 0) ->
  (forall k : vmm_address_space, spaces s !! KERNEL = Some k -> let e := rd (ram s) (slot (pml4_phys k) 0) in
    (present e = false /\ rd (ram st) (slot p 0) = 0) \/
    (present e = true /\ exists q st1, rd (ram st) (slot p 0) = parent_entry e q /\ kept s st1 /\ used (frames st1) p /\ aligned q /\
       tree (frames st1) (frames st) (ram st) 3 q /\ forall va, walk (ram st) 3 q va = walk (ram s) 3 (addr_of e) va)) ->
  new_root s (with_ram m' st) p.
Proof.
  intros Hok (k & Hkk & Hm1 & Hm2) Hk Hpf Hpu Hlow Hzero. destruct (frame_aligned true (frames st) p (ke_frames _ _ Hk) Hpu) as [Hpa _].
  assert (Hold : forall r j, aligned r -> 0 <= j < 512 -> (r = p -> j < 256) -> rd m' (slot r j) = rd (ram st) (slot r j)).
  { intros r j Hr Hj Hne. apply Hm2. intros i Hi E. apply slot_inj in E as [-> ->]; [by specialize (Hne eq_refl); lia | done | done | done | lia]. }
  constructor; cbn [ram with_ram frames].
  - destruct Hk as [(m1 & F1 & ->) K1 K2 K3 K4]. constructor; [by exists m', F1 | done | done | done |]. intros g j Hg Hj. cbn [ram with_ram with_frames] in *.
    rewrite Hold; [by apply K4 | | done | intros ->; exfalso; by eapply used_not_free]. eapply (frame_aligned true); [exact K1 | by apply K3].
  - done.
  - intros k' i Hk' Hi. replace k' with k by congruence. by apply Hm1.
  - intros i Hi. rewrite Hold; [by apply Hlow | done | lia | lia].
  - intros k' Hk'. cbv zeta. rewrite (Hold p 0 Hpa ltac:(lia) ltac:(lia)). destruct (Hzero k' Hk') as [[E1 E2]|(E1 & q & st1 & E2 & K1 & K2 & Hqa & Ht & Hw)]; [by left | right]. split; [done|].
    exists q, st1. assert (Hs : forall pre i r, indices pre -> reach (ram st) 3 q pre = Some r -> 0 <= i < 512 -> rd m' (slot r i) = rd (ram st) (slot r i)).
    { intros pre i r Hp Hr Hi. destruct (tr_frames _ _ _ _ _ Ht pre r Hp Hr) as [Hf Hu]. apply Hold; [eapply (frame_aligned true); [apply Hk | exact Hu] | done |]. intros ->. exfalso. exact (used_not_free _ _ K2 Hf). }
    assert (HR : forall p', indices p' -> reach m' 3 q p' = reach (ram st) 3 q p').
    { intros p' Hp'. apply reach_ext. intros pre i rest r -> _ Hr. apply Forall_app in Hp' as [P1 P2]. apply (Hs pre); [done | done | by apply Forall_inv in P2]. }
    split_and!; [done | done | done | done | |].
    + destruct Ht as [T1 T2 T3]. constructor; intros *; intros; repeat match goal with E : reach m' _ _ _ = _ |- _ => rewrite HR in E by done end; [by eapply T1 | by eapply T2 |].
      rewrite (Hs path); [by apply T3 | done | done | done].
    + intros va. rewrite <- Hw. apply walk_ext. intros pre i rest r E _ Hr. pose proof (va_path_range 3 va) as Hp. rewrite E in Hp. apply Forall_app in Hp as [P1 P2]. apply (Hs pre); [done | done | by apply Forall_inv in P2].
Qed.

Lemma wp_create_space s (Q : option Z -> vm -> Prop) : ok n s ->
  (forall h s', kept (with_heap h s) s' -> Q None s') -> (forall h st p, new_root (with_heap h s) st p -> Q (Some (next_as s)) (with_new st p)) ->
  wp vmm_create_address_space s Q.
Proof.
  intros Hok0 HN HS. unfold vmm_create_address_space. apply vm_bind, wp_kmalloc. intros b h. specialize (HN h). specialize (HS h).
  assert (Hok : ok n (with_heap h s)) by (by apply (ok_like n s)). change (next_as s) with (next_as (with_heap h s)) in HS. clear Hok0. revert HN HS Hok. generalize (with_heap h s). clear s h. intros s HN HS Hok.
  pose proof (kept_refl s (ok_frames _ _ Hok)) as Hk0. destruct (negb b); [by apply (vm_ret None), HN|].
  apply vm_bind, wp_alloc; [apply Hok | by apply (vm_ret None), HN|]. intros p F1 Hp0 Hpt. replace (p =? 0) with false by lia.
  apply vm_bind, wp_zero_page. intros m1 Hm1. set (s1 := with_ram m1 (with_frames F1 s)). destruct (kept_take s s p F1 Hk0 Hpt) as [Hk1 Hpf].
  assert (K1 : kept s s1) by (by apply (kept_fill s (with_frames F1 s) p (fun _ => 0) m1)). assert (Hpu : used (frames s1) p) by (apply Hpt; by left).
  destruct (frame_aligned true (frames s1) p (ke_frames _ _ K1) Hpu) as [Hpa _].
  destruct (ok_kernel n s Hok) as [k Hkk]. apply vm_bind. eapply wp_read_as; [exact Hkk|]. pose proof (owned_root 3 s KERNEL k Hkk) as Hor.
  assert (Hku : used (frames s) (pml4_phys k)) by (by apply (ok_used n s Hok KERNEL []); eapply owned_le; [|exact Hor]).
  destruct (owned_aligned n s KERNEL [] (pml4_phys k) Hok (owned_le 3 n _ _ _ _ Hn Hor)) as [Hka _]. assert (Hkp : pml4_phys k <> p) by (intros E; rewrite E in Hku; exact (used_not_free _ _ Hku Hpf)).
  apply vm_bind, wp_read64. cbn [s1 ram with_ram with_frames]. fold s1. rewrite (ke_mem _ _ K1 (pml4_phys k) 0 Hku ltac:(lia) : rd m1 _ = _). set (e := rd (ram s) (slot (pml4_phys k) 0)) in *.
  assert (Hend : forall st, kept s st -> used (frames st) p -> (forall i, 1 <= i < 256 -> rd (ram st) (slot p i) = 0) ->
    ((present e = false /\ rd (ram st) (slot p 0) = 0) \/ (present e = true /\ exists q st1, rd (ram st) (slot p 0) = parent_entry e q /\ kept s st1 /\ used (frames st1) p /\ aligned q /\
       tree (frames st1) (frames st) (ram st) 3 q /\ forall va, walk (ram st) 3 q va = walk (ram s) 3 (addr_of e) va)) ->
    wp (bind (foreach 256 512 (fun i => bind (read64 (slot (pml4_phys k) i)) (fun w => write64 (slot p i) w))) (fun _ => bind (new_as (mkAs p 1 0 [])) (fun a => ret (Some a)))) st Q).
  { intros st Hk Hu Hlow Hz. apply vm_bind, wp_copy; [lia | done | done | done |]. intros m2 Hm2. assert (Hnx : next_as st = next_as s) by (by destruct (ke_state _ _ Hk) as (m' & F' & ->)).
    apply vm_bind. cbn [wp new_as]. apply (vm_ret (Some _)). cbn [next_as with_ram]. rewrite Hnx. specialize (HS (with_ram m2 st) p). unfold with_new in HS. cbn [next_as with_ram spaces] in HS. rewrite Hnx in HS. apply HS.
    apply new_root_high; [done | | done | done | done | done |].
    - exists k. split; [done|]. destruct Hm2 as [M1 M2]. split; [|done]. intros i Hi. rewrite M1 by done. apply (ke_mem _ _ Hk); [done | lia].
    - intros k' Hk'. by replace k' with k by congruence. }
  destruct (present e) eqn:Ep; [|apply vm_bind, (vm_ret true); apply Hend; [done | done | intros i Hi; apply Hm1; lia | left; split; [done | apply Hm1; lia]]].
  assert (Hp0' : path_ok s KERNEL [0]) by (split; [constructor; [lia | constructor] | left; lia]).
  destruct (ok_entries n s Hok KERNEL [] (pml4_phys k) 0 Hor Hp0' Ep) as (He0 & Hu & Hwr & Hh). fold (entry_at s (pml4_phys k) 0) in *. unfold entry_at in *. fold e in He0, Hu, Hwr, Hh.
  assert (Eh : huge e = false) by (destruct (huge e); [destruct (Hh (Nat.lt_0_succ 2) eq_refl) as [Hd _]; destruct (Hd eq_refl) | reflexivity]).
  assert (Hsrc : src_ok (frames s) (ram s) 3 (addr_of e)).
  { apply (kernel_src s 3 [0]); [done | | done | done]. apply (owned_snoc 3 s KERNEL [] (pml4_phys k) 0); [done | done | cbn; lia |]. unfold own_next, entry_at. fold e. by rewrite Ep, Eh. }
  apply vm_bind, vm_bind, (wp_clone_table 3 s1 e (addr_of e)); [lia | apply K1 | eapply src_ok_same; [exact Hsrc | apply K1 | apply K1] | done | |].
  - intros s2 K2. apply vm_bind, wp_upd, (vm_ret false), (vm_ret None), HN. apply kept_give; [by eapply kept_trans | done].
  - intros s2 q (Hq0 & K2 & Hqt & Hqw). replace (q =? 0) with false by lia. apply vm_bind, wp_write64, (vm_ret true). pose proof (kept_trans _ _ _ K1 K2) as K12.
    assert (Hqa : aligned q) by (by apply (tree_aligned (frames s1) (frames s2) (ram s2) 3 q [] q (ke_frames _ _ K1) Hqt (Forall_nil_2 _))).
    destruct (kept_write s s2 p 0 (parent_entry e q) K12 Hpf ltac:(lia) Hpa) as [K3 Hrd]. pose proof (ke_used _ _ K2 p Hpu) as Hpu2.
    assert (Hsame : forall pre i r, indices pre -> reach (ram s2) 3 q pre = Some r -> 0 <= i < 512 -> rd (<[slot p 0 := parent_entry e q]> (ram s2)) (slot r i) = rd (ram s2) (slot r i)).
    { intros pre i r Hp Hr Hi. destruct (tr_frames _ _ _ _ _ Hqt pre r Hp Hr) as [Hf Hu']. apply Hrd; [eapply (frame_aligned true); [apply K2 | exact Hu'] | done |]. intros ->. exfalso. exact (used_not_free _ _ Hpu Hf). }
    assert (HR : forall p', indices p' -> reach (<[slot p 0 := parent_entry e q]> (ram s2)) 3 q p' = reach (ram s2) 3 q p').
    { intros p' Hp'. apply reach_ext. intros pre i rest r -> _ Hr. apply Forall_app in Hp' as [P1 P2]. apply (Hsame pre); [done | done | by apply Forall_inv in P2]. }
    apply Hend; [done | done | |].
    + intros i Hi. cbn [ram with_ram]. rewrite Hrd; [|exact Hpa | lia | intros _; lia]. rewrite (ke_mem _ _ K2); [|exact Hpu | lia]. apply Hm1. lia.
    + right. split; [done|]. exists q, s1. cbn [ram with_ram frames]. rewrite rd_insert, Z.eqb_refl. split_and!; [done | done | done | done | |].
      * destruct Hqt as [T1 T2 T3]. constructor; intros *; intros; repeat match goal with E : reach (<[_ := _]> _) _ _ _ = _ |- _ => rewrite HR in E by done end; [by eapply T1 | by eapply T2 |].
        rewrite (Hsame path); [by apply T3 | done | done | done].
      * intros va. rewrite <- (src_walk_same (frames s) (ram s) (ram s1) 3 (addr_of e) va Hsrc (ke_mem _ _ K1)), <- Hqw. apply walk_ext. intros pre i rest r E _ Hr. pose proof (va_path_range 3 va) as Hp. rewrite E in Hp. apply Forall_app in Hp as [P1 P2].
        apply (Hsame pre); [done | done | by apply Forall_inv in P2].
Qed.
End create.
