(* ===== verification/VmmDestroy.v ===== *)
(** * Destroying address spaces

    [vmm_destroy_address_space] gives back the frames the address space owns, and no
    other: the user pages, the tables from the leaves up, the root. *)
From S2P Require Import Prelude Pmm Vmm VmmTables VmmOwn VmmOps.
Local Open Scope capy_scope.

Implicit Types (s : vm) (a p q f g t i e : Z) (path rest : list Z) (x : vmm_address_space) (F : pmm) (G : Z -> Prop).

(** [F'] is [F] without the frames of [G]. *)
Record shed F G F' : Prop := {
  sh_ok : frames_ok F';
  sh_total : pmm_total_pages F' = pmm_total_pages F;
  sh_used : forall g, used F' g <-> used F g /\ ~ G g }.

Lemma shed_nothing F G : frames_ok F -> (forall g, ~ G g) -> shed F G F.
Proof. intros H HG. constructor; try done. intros g. split; [by split | by intros []]. Qed.

Lemma shed_iff F G G' F' : shed F G F' -> (forall g, G g <-> G' g) -> shed F G' F'.
Proof. intros [] H. constructor; try done. intros g. by rewrite sh_used0, H. Qed.

Lemma shed_trans F1 F2 F3 G G' : shed F1 G F2 -> shed F2 G' F3 -> shed F1 (fun g => G g \/ G' g) F3.
Proof. intros [] []. constructor; [done | congruence |]. intros g. rewrite sh_used1, sh_used0. tauto. Qed.

(** Frames under management, in use or not. *)
Definition managed F f : Prop := exists b : bool, frame_is b F f.

Lemma managed_total F F' f : pmm_total_pages F' = pmm_total_pages F -> managed F f -> managed F' f.
Proof. intros E (b & q & -> & Hq & _). by exists (bitmap_test q (pmm_bitmap F')), q; rewrite E. Qed.

Lemma shed_one F f : frames_ok F -> managed F f -> shed F (fun g => g = f) (pmm_free_page f F).
Proof.
  intros H [b Hb]. destruct (given_back_any b F f H Hb) as (B1 & B2 & B3 & _).
  constructor; [done | done |]. intros g. rewrite B3. tauto.
Qed.

Lemma no_counts p : pmm_frame_refcount_get p pmm_frame_refcount_init = 0.
Proof.
  unfold pmm_frame_refcount_get, pmm_frame_refcount_init, aget, zrep. destruct (_ <=? _); [done|]. generalize (Z.to_nat PMM_REFCOUNT_MAX_PAGES). intros k.
  destruct (replicate k 0 !! _) eqn:E; [|done]. by apply lookup_replicate in E as [-> _].
Qed.

(** A loop whose steps shed frames. *)
Lemma wp_shed_loop (G : Z -> Z -> Prop) (body : Z -> VM unit) hi s F (Q : unit -> vm -> Prop) : 0 <= hi -> frames_ok F ->
  (forall i F, 0 <= i < hi -> frames_ok F -> pmm_total_pages F = pmm_total_pages (frames s) ->
     wp (body i) (with_frames F s) (fun _ s' => exists F', s' = with_frames F' s /\ shed F (G i) F')) ->
  pmm_total_pages F = pmm_total_pages (frames s) ->
  (forall F', shed F (fun g => exists i, 0 <= i < hi /\ G i g) F' -> Q tt (with_frames F' s)) -> wp (foreach 0 hi body) (with_frames F s) Q.
Proof.
  intros Hhi HF Hb HT HQ. apply (wp_foreach (fun i s' => exists F', s' = with_frames F' s /\ shed F (fun g => exists j, 0 <= j < i /\ G j g) F')); [done | | |].
  - exists F. split; [done|]. apply shed_nothing; [done|]. intros g (j & ? & _). lia.
  - intros i s' Hi (F1 & -> & H1). pose proof (sh_total _ _ _ H1) as Ht. eapply vm_mono; [apply (Hb i F1 Hi (sh_ok _ _ _ H1)); congruence|].
    intros [] s' (F2 & -> & H2). exists F2. split; [done|]. eapply shed_iff; [by eapply shed_trans|]. intros g. split.
    + intros [(j & Hj & Hg)|Hg]; [exists j | exists i]; split; [lia | done | lia | done].
    + intros (j & Hj & Hg). destruct (decide (j = i)) as [->|]; [by right | left; exists j; split; [lia | done]].
  - intros s' (F' & -> & H). by apply HQ.
Qed.

Section destroy.
Context (s : vm) (a : Z) (x : vmm_address_space) (Hok : ok 4 s) (Ha : a <> KERNEL) (Hx : spaces s !! a = Some x).

(** The frames below a table, through one of its entries. *)
Definition below path i g : Prop := exists rest, owned 4 s a (path ++ i :: rest) g.
Definition all_below path g : Prop := exists i, 0 <= i < 512 /\ below path i g.

(** Being given back: every frame of [all_below path]. *)
Definition sheds (body : VM unit) (G : Z -> Prop) : Prop := forall F, frames_ok F -> pmm_total_pages F = pmm_total_pages (frames s) ->
  wp body (with_frames F s) (fun _ s' => exists F', s' = with_frames F' s /\ shed F G F').

Lemma entry_below path t i g : owned 3 s a path t -> path_ok s a (path ++ [i]) ->
  below path i g <-> match own_next (4 - length path) (entry_at s t i) with Some q => g = q \/ all_below (path ++ [i]) g | None => False end.
Proof.
  intros Ho Hpi. pose proof Ho as (y & Hy & Hp & Hl & Hr).
  assert (Hsn : forall q, owned 4 s a (path ++ [i]) q <-> own_next (4 - length path) (entry_at s t i) = Some q) by (intros q; apply owned_snoc; [done | done | lia]).
  split.
  - intros (rest & Hg). destruct (own_next (4 - length path) (entry_at s t i)) as [q|] eqn:Eq.
    + destruct rest as [|j rest]; [left; apply Hsn in Hg; congruence | right]. exists j.
      replace (path ++ i :: j :: rest) with ((path ++ [i]) ++ j :: rest) in Hg by (by rewrite <- app_assoc). split; [|by exists rest].
      destruct Hg as (_ & _ & [Hg _] & _). apply Forall_app in Hg as [_ Hg]. by apply Forall_inv in Hg.
    + replace (path ++ i :: rest) with ((path ++ [i]) ++ rest) in Hg by (by rewrite <- app_assoc). destruct Hg as (y' & Hy' & _ & _ & Hg). rewrite reach_app in Hg.
      destruct (reach (ram s) 4 (pml4_phys y') (path ++ [i])) as [q|] eqn:E; [|done]. assert (owned 4 s a (path ++ [i]) q) as Hq%Hsn; [|done].
      exists y'. split_and!; [done | done | rewrite length_app; cbn; lia | done].
  - destruct (own_next _ _) as [q|] eqn:Eq; [|done]. intros [->|(j & _ & rest & Hg)]; [exists []; by apply Hsn|]. exists (j :: rest). by rewrite <- app_assoc in Hg.
Qed.

Lemma owned_managed path g F : owned 4 s a path g -> pmm_total_pages F = pmm_total_pages (frames s) -> managed F g.
Proof. intros Ho E. apply (managed_total (frames s)); [done|]. exists true. by apply (ok_used 4 s Hok a path). Qed.

Lemma sheds_free f path : owned 4 s a path f -> sheds (free_page f) (fun g => g = f).
Proof. intros Ho F HF HT. apply wp_upd. eexists. split; [reflexivity|]. apply shed_one; [done | by eapply owned_managed]. Qed.

Lemma sheds_iff body G G' : sheds body G -> (forall g, G g <-> G' g) -> sheds body G'.
Proof. intros H HG F HF HT. eapply vm_mono; [by apply H|]. intros [] s' (F' & -> & Hs). exists F'. split; [done | by eapply shed_iff]. Qed.

Lemma sheds_seq (m : VM unit) (k : unit -> VM unit) G G' : sheds m G -> sheds (k tt) G' -> sheds (bind m k) (fun g => G g \/ G' g).
Proof.
  intros Hm Hk F HF HT. apply vm_bind. eapply vm_mono; [by apply Hm|]. intros [] s' (F1 & -> & H1). pose proof (sh_total _ _ _ H1) as Ht.
  eapply vm_mono; [apply Hk; [apply H1 | congruence]|]. intros [] s' (F2 & -> & H2). exists F2. split; [done | by eapply shed_trans].
Qed.

Lemma sheds_ret G : (forall g, ~ G g) -> sheds (ret tt) G.
Proof. intros HG F HF HT. apply vm_ret. exists F. split; [done | by apply shed_nothing]. Qed.

Lemma sheds_read p (k : Z -> VM unit) G : sheds (k (rd (ram s) p)) G -> sheds (bind (read64 p) k) G.
Proof. intros H F HF HT. apply vm_bind, wp_read64. by apply H. Qed.

Lemma sheds_loop (G : Z -> Z -> Prop) (body : Z -> VM unit) hi : 0 <= hi -> (forall i, 0 <= i < hi -> sheds (body i) (G i)) ->
  sheds (foreach 0 hi body) (fun g => exists i, 0 <= i < hi /\ G i g).
Proof.
  intros Hhi Hb F HF HT. apply (wp_shed_loop G); [done | done | intros i F' Hi HF' HT'; by apply Hb | done |]. intros F' H. by exists F'.
Qed.

(** A leaf. *)
Lemma sheds_leaf path t i : owned 3 s a path t -> length path = 3%nat -> path_ok s a (path ++ [i]) -> sheds (release_leaf (entry_at s t i)) (below path i).
Proof.
  intros Ho Hl Hpi. assert (Hno : forall g, ~ all_below (path ++ [i]) g).
  { intros g (j & _ & rest & y & _ & _ & Hlen & _). rewrite !length_app in Hlen. cbn in Hlen. lia. }
  unfold release_leaf. assert (Hb : forall g, below path i g <-> present (entry_at s t i) && user (entry_at s t i) = true /\ g = addr_of (entry_at s t i)).
  { intros g. rewrite (entry_below path t i g Ho Hpi), Hl. change (4 - 3)%nat with 1%nat. unfold own_next. cbn [Nat.eqb].
    destruct (present _ && user _); [|by split; [|intros []]]. split; [intros [->|H]; [done | by destruct (Hno g)] | intros [_ ->]; by left]. }
  destruct (present (entry_at s t i) && user (entry_at s t i)); [|apply sheds_ret; intros g [? _]%Hb; done].
  apply (sheds_iff _ (fun g => g = addr_of (entry_at s t i))); [|intros g; rewrite Hb; tauto].
  assert (Hf : owned 4 s a (path ++ [i]) (addr_of (entry_at s t i))) by (destruct (proj2 (Hb _) (conj eq_refl eq_refl)) as (rest & Hr); pose proof Hr as (y & _ & _ & Hlen & _);
    rewrite length_app in Hlen; cbn in Hlen; destruct rest; [done | cbn in Hlen; lia]).
  pose proof (sheds_free _ _ Hf) as Hs. intros F HF HT. specialize (Hs F HF HT). cbv zeta. apply vm_bind. unfold wp at 1, refcount_get. cbn [refcounts with_frames].
  assert (E : pmm_frame_refcount_get (addr_of (entry_at s t i)) (refcounts s) = 0).
  { rewrite (ok_counts 4 s Hok ltac:(lia)). apply no_counts. }
  rewrite E. exact Hs.
Qed.

Lemma path_ok_next path i : path_ok s a path -> path <> [] \/ 0 <= i < 256 -> 0 <= i < 512 -> path_ok s a (path ++ [i]).
Proof. intros Hp [Hne|Hi] Hr; [by apply path_ok_snoc|]. destruct path as [|j path]; [split; [constructor; [done | constructor] | by left] | by apply path_ok_snoc]. Qed.

(** What is below an entry that has a table: the table and what is below it. *)
Lemma entry_cases path t i : owned 3 s a path t -> (length path < 3)%nat -> path_ok s a (path ++ [i]) -> let e := entry_at s t i in
  present e = true -> if huge e then user e = false else user e = true /\ owned 3 s a (path ++ [i]) (addr_of e).
Proof.
  intros Ho Hl Hpi e Hp. pose proof (ok_entries 4 s Hok a path t i Ho Hpi Hp) as He. replace (a =? KERNEL) with false in He by lia. specialize (He Hl). fold e in He, Hp.
  destruct (huge e) eqn:Eh; [apply He|]. split; [apply He|]. apply (owned_snoc 3 s a path t i); [done | done | lia |]. unfold own_next. fold e. rewrite Hp, Eh.
  by replace ((4 - length path)%nat =? 1)%nat with false by (symmetry; apply Nat.eqb_neq; lia).
Qed.

Lemma below_next path t i g : owned 3 s a path t -> (length path < 3)%nat -> path_ok s a (path ++ [i]) -> let e := entry_at s t i in
  below path i g <-> present e && negb (huge e) = true /\ (all_below (path ++ [i]) g \/ g = addr_of e).
Proof.
  intros Ho Hl Hpi e. rewrite (entry_below path t i g Ho Hpi). unfold own_next. fold e.
  replace ((4 - length path)%nat =? 1)%nat with false by (symmetry; apply Nat.eqb_neq; lia). destruct (present e && negb (huge e)); [|by split; [|intros []]]. tauto.
Qed.

Lemma sheds_pt path t : owned 3 s a path t -> length path = 3%nat -> sheds (destroy_pt t) (all_below path).
Proof.
  intros Ho Hl. apply (sheds_loop (below path)); [done|]. intros i Hi. apply sheds_read. apply sheds_leaf; [done | done |].
  apply path_ok_next; [by destruct Ho as (? & _ & ? & _) | left; by destruct path | done].
Qed.

Lemma sheds_dir descend path t (d : nat) : (forall (p : list Z) q, owned 3 s a p q -> length p = S d -> sheds (descend q) (all_below p)) -> (1 <= d <= 2)%nat ->
  owned 3 s a path t -> length path = d -> sheds (destroy_dir descend t) (all_below path).
Proof.
  intros Hdesc Hd Ho Hl. apply (sheds_loop (below path)); [done|]. intros i Hi.
  assert (Hpi : path_ok s a (path ++ [i])) by (apply path_ok_next; [by destruct Ho as (? & _ & ? & _) | left; destruct path; [cbn in Hl; lia | done] | done]).
  pose proof (fun g => below_next path t i g Ho ltac:(lia) Hpi) as Hb. pose proof (entry_cases path t i Ho ltac:(lia) Hpi) as He. cbv zeta in Hb, He.
  apply sheds_read. fold (entry_at s t i). destruct (present (entry_at s t i)); cbn [negb]; [|apply sheds_ret; intros g [[=] _]%Hb].
  specialize (He eq_refl). destruct (huge (entry_at s t i)); cbn [andb negb] in Hb; [rewrite He; apply sheds_ret; intros g [[=] _]%Hb|]. destruct He as [-> Hq]. cbn [negb].
  apply (sheds_iff _ (fun g => all_below (path ++ [i]) g \/ g = addr_of (entry_at s t i))); [|intros g; rewrite Hb; tauto].
  apply sheds_seq; [apply Hdesc; [done | rewrite length_app; cbn; lia]|]. apply sheds_read. fold (entry_at s t i). apply (sheds_free _ (path ++ [i])). by eapply owned_le; [|exact Hq]; lia.
Qed.

Lemma sheds_pml4 : sheds (destroy_pml4 (pml4_phys x)) (fun g => exists path, path <> [] /\ owned 4 s a path g).
Proof.
  pose proof (owned_root 3 s a x Hx) as Ho. apply (sheds_iff _ (fun g => exists i, 0 <= i < 256 /\ below [] i g)).
  2:{ intros g. split; [intros (i & _ & rest & H); by exists (i :: rest)|]. intros ([|i rest] & Hne & H); [done|]. exists i. split; [|by exists rest].
      destruct H as (_ & _ & [_ [?|[? _]]] & _); [done | done]. }
  apply (sheds_loop (below [])); [done|]. intros i Hi. assert (Hpi : path_ok s a ([] ++ [i])) by (apply path_ok_next; [split; [constructor | done] | by right | lia]).
  pose proof (fun g => below_next [] (pml4_phys x) i g Ho ltac:(cbn; lia) Hpi) as Hb. pose proof (entry_cases [] (pml4_phys x) i Ho ltac:(cbn; lia) Hpi) as He. cbv zeta in Hb, He.
  pose proof (ok_entries 4 s Hok a [] (pml4_phys x) i Ho Hpi) as Hen. unfold entry_ok in Hen. replace (a =? KERNEL) with false in Hen by lia.
  apply sheds_read. fold (entry_at s (pml4_phys x) i). destruct (present (entry_at s (pml4_phys x) i)); cbn [negb]; [|apply sheds_ret; intros g [[=] _]%Hb].
  specialize (He eq_refl). specialize (Hen eq_refl (Nat.lt_0_succ 2)). destruct (huge (entry_at s (pml4_phys x) i)); [by destruct Hen|]. destruct He as [-> Hq]. cbn [negb andb] in *.
  apply (sheds_iff _ (fun g => all_below ([] ++ [i]) g \/ g = addr_of (entry_at s (pml4_phys x) i))); [|intros g; rewrite Hb; tauto].
  apply sheds_seq; [|apply sheds_read; fold (entry_at s (pml4_phys x) i); apply (sheds_free _ [i]); by eapply owned_le; [|exact Hq]; lia].
  apply (sheds_dir (destroy_dir destroy_pt) [i] _ 1); [|lia | done | done]. intros p q Hp Hlp. apply (sheds_dir destroy_pt p q 2); [|lia | done | done]. intros p' q' Hp' Hlp'. by apply sheds_pt.
Qed.

(** The space is gone with its frames; the others are as they were. *)
Record destroyed s' : Prop := {
  de_state : exists F', s' = with_spaces (delete a (spaces s)) (with_frames F' s);
  de_frames : shed (frames s) (fun g => exists path, owned 4 s a path g) (frames s');
  de_owned : forall b path g, owned 4 s' b path g <-> b <> a /\ owned 4 s b path g;
  de_walk : forall b va, b <> a -> walk_of s' b va = walk_of s b va;
  de_ok : ok 4 s' }.

Lemma destroyed_intro F' : shed (frames s) (fun g => exists path, owned 4 s a path g) F' -> destroyed (with_spaces (delete a (spaces s)) (with_frames F' s)).
Proof.
  intros Hs. set (s' := with_spaces (delete a (spaces s)) (with_frames F' s)).
  assert (Ho : forall n b path g, owned n s' b path g <-> b <> a /\ owned n s b path g).
  { intros n b path g. split.
    - intros (y & Hy & H). cbn [s' spaces with_spaces] in Hy. apply lookup_delete_Some in Hy as [Hb Hy]. split; [done | by exists y].
    - intros (Hb & y & Hy & H). exists y. cbn [s' spaces with_spaces]. by rewrite lookup_delete_ne. }
  constructor; [by exists F' | done | by apply (Ho 4%nat) | |].
  - intros b va Hb. unfold walk_of. cbn [s' spaces with_spaces]. by rewrite lookup_delete_ne.
  - destruct Hok as [A1 A2 A3 A4 A5 A6 A7 A8]. constructor; cbn [s' spaces with_spaces next_as refcounts with_frames].
    + apply Hs.
    + intros b path g [Hb Hg]%Ho. apply (sh_used _ _ _ Hs). split; [by apply (A2 b path)|]. intros (p & Hp). by destruct (A3 _ _ _ _ _ Hp Hg).
    + intros b c p p' g [_ H1]%Ho [_ H2]%Ho. by apply (A3 b c p p' g).
    + intros b y [_ Hy]%lookup_delete_Some. by apply (A4 b y).
    + destruct A5 as [k Hk]. exists k. by rewrite lookup_delete_ne.
    + intros b y k i [_ Hy]%lookup_delete_Some [_ Hk]%lookup_delete_Some. by apply (A6 b y k i).
    + intros b path t i [_ Hp]%Ho Hpi. by apply (A7 b path t i).
    + exact A8.
Qed.
End destroy.

Lemma wp_destroy s a x (Q : unit -> vm -> Prop) : ok 4 s -> a <> KERNEL -> spaces s !! a = Some x ->
  Z.land (cr3 s) VMM_CR3_PHYS_MASK <> Z.land (pml4_phys x) VMM_CR3_PHYS_MASK -> as_refcount x = 1 ->
  (forall s', destroyed s a s' -> Q tt s') -> wp (vmm_destroy_address_space (Some a)) s Q.
Proof.
  intros Hok Ha Hx Hcr Hrc HQ. unfold vmm_destroy_address_space. replace (a =? KERNEL) with false by lia.
  assert (Hp0 : pml4_phys x <> 0) by (by apply (owned_aligned 4 s a [] (pml4_phys x) Hok (owned_root 4 s a x Hx))).
  apply vm_bind. unfold vmm_address_space_is_active. apply vm_bind. eapply wp_read_as; [exact Hx|]. replace (pml4_phys x =? 0) with false by lia.
  apply vm_bind, vm_get, vm_ret. replace (_ =? _) with false by lia. apply vm_bind. eapply wp_read_as; [exact Hx|]. rewrite Hrc. change (u32 (1 - 1)) with 0. cbv zeta.
  apply vm_bind. eapply wp_write_as; [exact Hx|]. change (0 <? 0) with false. cbv iota. apply vm_bind. unfold vmm_clear_anon_regions. apply vm_bind.
  eapply wp_read_as; [cbn [spaces with_spaces]; apply lookup_insert_eq|]. eapply wp_write_as; [cbn [spaces with_spaces]; apply lookup_insert_eq|].
  cbn [spaces with_spaces]. rewrite insert_insert_eq. set (y := set_regions [] (set_as_refcount 0 x)). set (s1 := with_spaces (<[a := y]> (spaces s)) s).
  assert (Hlike : like s s1).
  { split_and!; [done | done |]. intros b. unfold root_of. cbn [s1 spaces with_spaces]. destruct (decide (b = a)) as [->|Hb]; [by rewrite lookup_insert_eq, Hx | by rewrite lookup_insert_ne]. }
  assert (Hok1 : ok 4 s1) by (by apply (ok_like 4 s)). assert (Hy : spaces s1 !! a = Some y) by apply lookup_insert_eq.
  change (with_spaces _ (with_spaces _ s)) with s1. replace s1 with (with_frames (frames s1) s1) by done. apply vm_bind. eapply vm_mono; [apply (sheds_pml4 s1 a y Hok1 Ha Hy); [apply Hok1 | done]|].
  intros [] s' (F' & -> & Hs). apply vm_bind, wp_upd. cbn [frames with_frames]. unfold kfree_as, wp. cbn [spaces with_frames]. rewrite Hy. change (with_frames F' s1) with (with_spaces (<[a := y]> (spaces s)) (with_frames F' s)).
  cbn [s1 with_spaces with_frames frames spaces]. rewrite delete_insert_eq. apply HQ, (destroyed_intro s a Hok Ha).
  assert (Hr : owned 4 s1 a [] (pml4_phys x)) by (by apply (owned_root 4 s1 a y)).
  assert (Hm : managed F' (pml4_phys x)) by (apply (managed_total (frames s)); [apply (sh_total _ _ _ Hs)|]; exists true; by apply (ok_used 4 s1 Hok1 a [])).
  apply (shed_iff _ _ _ _ (shed_trans _ _ _ _ _ Hs (shed_one _ _ (sh_ok _ _ _ Hs) Hm))). intros g. cbv beta. split.
  - intros [(path & _ & Hg)| ->]; [exists path; apply (owned_like 4 s1); [by apply like_sym | done] | exists []; by apply owned_root].
  - intros (path & Hg). destruct path as [|i path]; [right | left; exists (i :: path); split; [done | by apply (owned_like 4 s)]].
    destruct Hg as (x' & Hx' & _ & _ & Hg). replace x' with x in * by congruence. by injection Hg.
Qed.
