(* ===== verification/VmmFault.v ===== *)
(** * Page faults

    A fault on a page that is not present, inside a registered region, maps a zeroed frame
    there; when memory runs out nothing is mapped.  The other branch is in [VmmCow]. *)
From S2P Require Import Prelude Pmm Vmm VmmTables VmmOwn VmmOps VmmCreate VmmDestroy.
Local Open Scope capy_scope.

Implicit Types (s : vm) (a b p q f g t i j v e va : Z) (path rest : list Z) (x : vmm_address_space) (F : pmm).

Lemma index_page va sh : 12 <= sh -> index (Z.ldiff va (VMM_PAGE_SIZE - 1)) sh = index va sh.
Proof.
  intros H. unfold index. change (VMM_PAGE_SIZE - 1) with (Z.ones 12). rewrite Z.ldiff_ones_r by lia. f_equal.
  replace sh with (12 + (sh - 12)) by lia. rewrite <- !Z.shiftr_shiftr by lia. f_equal. rewrite Z.shiftr_shiftl_l by lia. by rewrite Z.sub_diag, Z.shiftl_0_r.
Qed.

Lemma va_path_page va : va_path 4 (Z.ldiff va (VMM_PAGE_SIZE - 1)) = va_path 4 va.
Proof. cbn [va_path]. by rewrite !index_page by done. Qed.

(** The page of [va] in [a] is a frame [f], new and clear, and its entry holds the flags
    given; the rest is as it was. *)
Record demand_paged a va flags s s' : Prop := {
  dp_ok : ok 4 s';
  dp_rest : rest_same s s';
  dp_walk : forall b v, in_head s b v -> ~ (b = a /\ va_path 4 v = va_path 4 va) -> walk_of s' b v = walk_of s b v;
  dp_at : exists f, free (frames s) f /\ used (frames s') f /\ (forall j, 0 <= j < 512 -> rd (ram s') (slot f j) = 0) /\
    (exists pt, owned 3 s' a (take 3 (va_path 4 va)) pt /\ rd (ram s') (slot pt (index va 12)) = Z.lor (Z.lor f flags) VMM_PAGE_PRESENT) /\
    forall v, va_path 4 v = va_path 4 va -> walk_of s' a v = Some (f + page_offset 1 v, writable flags, true);
  dp_page : forall g j, used (frames s) g -> (forall b (p : list Z), ~ owned 3 s b p g) -> 0 <= j < 512 -> rd (ram s') (slot g j) = rd (ram s) (slot g j);
  dp_huge : no_huge_at s' a va }.

(** Nothing a processor can see is changed. *)
Record unmapped_same s s' : Prop := {
  us_ok : ok 4 s';
  us_rest : rest_same s s';
  us_walk : forall b v, in_head s b v -> walk_of s' b v = walk_of s b v;
  us_page : forall g j, used (frames s) g -> (forall b (p : list Z), ~ owned 3 s b p g) -> 0 <= j < 512 -> rd (ram s') (slot g j) = rd (ram s) (slot g j) }.

Lemma kept_rest s s' : kept s s' -> rest_same s s'.
Proof. intros H. by destruct (ke_state _ _ H) as (m' & F' & ->). Qed.

Lemma kept_unmapped s s' : ok 4 s -> kept s s' -> unmapped_same s s'.
Proof.
  intros Hok Hk. constructor; [by apply (kept_ok 4 ltac:(lia) s) | by apply kept_rest | intros b v; by apply (kept_walk 4 ltac:(lia)) |].
  intros g j Hg _ Hj. by apply Hk.
Qed.

(** A frame that nothing owns may be given back. *)
Lemma ok_give s f : ok 4 s -> managed (frames s) f -> (forall b path, ~ owned 4 s b path f) -> ok 4 (with_frames (pmm_free_page f (frames s)) s).
Proof.
  intros Hok Hf Hno. pose proof (shed_one _ _ (ok_frames _ _ Hok) Hf) as Hs. pose proof Hok as [A1 A2 A3 A4 A5 A6 A7 A8]. constructor; try done; [apply Hs|].
  intros b path g Hg. apply (sh_used _ _ _ Hs). split; [by apply (A2 b path)|]. intros ->. by destruct (Hno b path).
Qed.

Lemma no_huge_path s a va va' : va_path 4 va' = va_path 4 va -> no_huge_at s a va -> no_huge_at s a va'.
Proof. intros E H pre i rest q E'. rewrite E in E'. by apply (H pre i rest q). Qed.

Lemma no_huge_kept s s' a va : ok 4 s -> kept s s' -> no_huge_at s a va -> no_huge_at s' a va.
Proof.
  intros Hok Hk H pre i rest q E Hl Hq. assert (Hq4 : owned 4 s a pre q) by (apply (kept_owned 4 ltac:(lia) s s' a pre q Hok Hk); eapply owned_le; [|exact Hq]; lia).
  assert (Hi : 0 <= i < 512) by (pose proof (va_path_range 4 va) as R; rewrite E in R; apply Forall_app in R as [_ R]; by apply Forall_inv in R).
  unfold entry_at. rewrite (ke_mem _ _ Hk q i (ok_used 4 s Hok a pre q Hq4) Hi). apply (H pre i rest q E Hl). apply owned_3 with 4%nat; [done | lia].
Qed.

Lemma rest_frames s s' F : rest_same s s' -> rest_same s (with_frames F s').
Proof. by intros []. Qed.

Section place.
Context (s : vm) (a : Z) (x : vmm_address_space) (va va' flags : Z).
Context (Hok : ok 4 s) (Ha : a <> KERNEL) (Hx : spaces s !! a = Some x).
Context (Hfl : flags_fit a flags) (Hh : index va 39 < 256) (Hnh : no_huge_at s a va) (Hva : va_path 4 va' = va_path 4 va).

(** A new page at [va]: a frame is taken, cleared and mapped.  [K] is what follows. *)
Lemma wp_place (K : Z -> Z -> VM Z) (Q : Z -> vm -> Prop) : (unmapped_same s s -> ~ enough 4 (frames s) -> Q (-1) s) ->
  (forall f s', unmapped_same s s' -> ~ enough 4 (frames s) -> managed (frames s') f -> (forall b path, ~ owned 4 s' b path f) -> wp (K f (-1)) s' Q) ->
  (forall f s', demand_paged a va flags s s' -> wp (K f 0) s' Q) ->
  wp (bind alloc_page (fun phys => if phys =? 0 then ret (-1) else bind (zero_page phys) (fun _ => bind (vmm_map_page (Some a) va' phys flags) (fun r => K phys r)))) s Q.
Proof.
  intros HN HM HS. pose proof (kept_refl s (ok_frames _ _ Hok)) as Hk0.
  apply vm_bind, wp_alloc_full; [apply Hok | intros Hno; apply (vm_ret (-1)), HN; [by apply kept_unmapped | by intros E%(enough_none _ _ Hno)]|]. intros f F1 Hf0 Hft. replace (f =? 0) with false by lia.
  apply vm_bind, wp_zero_page. intros m1 Hm1. set (s1 := with_ram m1 (with_frames F1 s)). destruct (kept_take s s f F1 Hk0 Hft) as [Hk1 Hff].
  assert (K1 : kept s s1) by (by apply (kept_fill s (with_frames F1 s) f (fun _ => 0) m1)). assert (Hok1 : ok 4 s1) by (by apply (kept_ok 4 ltac:(lia) s)).
  assert (Hfu : used (frames s1) f) by (apply Hft; by left). destruct (frame_aligned true (frames s1) f (ke_frames _ _ K1) Hfu) as [Hfa _].
  assert (Hfn : forall b path, ~ owned 4 s1 b path f).
  { intros b path Ho. apply (kept_owned 4 ltac:(lia) s s1 b path f Hok K1) in Ho. exact (used_not_free _ _ (ok_used 4 s Hok b path f Ho) Hff). }
  assert (Hfn3 : forall b path, ~ owned 3 s1 b path f) by (intros b path Ho; apply (Hfn b path); by eapply owned_le; [|exact Ho]; lia).
  assert (Hun : forall g j s2, grown 4 a s1 s2 -> used (frames s) g -> (forall b path, ~ owned 3 s b path g) -> 0 <= j < 512 -> rd (ram s2) (slot g j) = rd (ram s) (slot g j)).
  { intros g j s2 G Hg Hno Hj. rewrite (gr_page _ _ _ _ G g j); [by apply (ke_mem _ _ K1) | by apply K1 | | done]. intros b path Ho.
    apply (Hno b path). apply owned_3 with 4%nat; [|by destruct Ho as (_ & _ & _ & ? & _)]. apply (kept_owned 4 ltac:(lia) s s1 b path g Hok K1). by eapply owned_le; [|exact Ho]; lia. }
  assert (Hw1 : forall b v, in_head s b v -> walk_of s1 b v = walk_of s b v) by (intros b v; by apply (kept_walk 4 ltac:(lia))).
  pose proof (index_range va 39) as Hi. assert (Hpg : index va' 39 = index va 39) by (unfold va_path in Hva; by injection Hva).
  apply (vm_bind (vmm_map_page _ _ _ _)), (wp_map_page 4 ltac:(lia) a x); [done | done | left; rewrite Hpg; lia | left; by rewrite Hpg | apply (no_huge_path s1 a va); [done|]; by apply (no_huge_kept s) | done | done | | |].
  - intros _ _. split; [done|]. intros b path Ho. by destruct (Hfn b path).
  - intros s2 G Hlow. pose proof (gr_ok _ _ _ _ G) as Hok2. apply HM.
    + constructor; [done | exact (rest_trans _ _ _ (kept_rest _ _ K1) (grown_rest _ _ _ _ G)) | |].
      * intros b v Hb. rewrite <- (Hw1 b v Hb). exact (gr_walk _ _ _ _ G b v Hb).
      * intros g j Hg Hno Hj. exact (Hun g j s2 G Hg Hno Hj).
    + intros H%(enough_taken _ _ _ _ Hft). by apply Hlow.
    + exists true. by apply (gr_used _ _ _ _ G).
    + intros b path [Ho|(_ & _ & Ho)]%(gr_new _ _ _ _ G); [by apply (Hfn b path) | exact (used_not_free _ _ Hfu Ho)].
  - intros s2 s3 G L R. apply HS. pose proof Hfl as (Hfb & Hfus & _). destruct (entry_bits f flags Hfa Hfb) as (Ea & Ep & Eu & Ew & _).
    assert (Hpage : forall g j, used (frames s1) g -> (forall b path, ~ owned 3 s1 b path g) -> 0 <= j < 512 -> rd (ram s3) (slot g j) = rd (ram s2) (slot g j)).
    { intros g j Hg Hno Hj. apply (ls_page _ _ _ _ _ _ L); [by apply (gr_used _ _ _ _ G) | | done]. intros b path Ho.
      assert (Ho4 : owned 4 s2 b path g) by (by eapply owned_le; [|exact Ho]; lia). destruct (gr_new _ _ _ _ G _ _ _ Ho4) as [H|(_ & _ & H)]; [|exact (used_not_free _ _ Hg H)].
      apply (Hno b path). apply owned_3 with 4%nat; [done | by destruct Ho as (_ & _ & _ & ? & _)]. }
    constructor; [apply L | exact (rest_trans _ _ _ (rest_trans _ _ _ (kept_rest _ _ K1) (grown_rest _ _ _ _ G)) R) | | | |].
    + intros b v Hb Hne. rewrite (ls_walk _ _ _ _ _ _ L); [rewrite <- (Hw1 b v Hb); exact (gr_walk _ _ _ _ G b v Hb) | exact (proj2 (head_grown 4 a s1 s2 b _ G) Hb) | by rewrite Hva].
    + exists f. split_and!; [done | rewrite (ls_frames _ _ _ _ _ _ L); by apply (gr_used _ _ _ _ G) | | |].
      * intros j Hj. rewrite (Hpage f j Hfu Hfn3 Hj), (gr_page _ _ _ _ G f j Hfu Hfn3 Hj). by apply Hm1.
      * destruct (ls_word _ _ _ _ _ _ L) as (pt & Hp1 & Hp2). rewrite Hva in Hp1. exists pt. split; [done|]. by replace (index va 12) with (index va' 12) by (unfold va_path in Hva; by injection Hva).
      * intros v Hv. rewrite (ls_at _ _ _ _ _ _ L v Ha ltac:(by rewrite Hva)). rewrite Ep, Ea, Eu, Ew, Hfus. by replace (a =? KERNEL) with false by lia.
    + intros g j Hg Hno Hj. rewrite <- (Hun g j s2 G Hg Hno Hj). apply Hpage; [by apply K1 | | done]. intros b path Ho.
      apply (Hno b path). apply owned_3 with 4%nat; [|by destruct Ho as (_ & _ & _ & ? & _)]. apply (kept_owned 4 ltac:(lia) s s1 b path g Hok K1). by eapply owned_le; [|exact Ho]; lia.
    + apply (ls_huge _ _ _ _ _ _ L), (gr_huge _ _ _ _ G). by apply (no_huge_kept s).
Qed.
End place.

Lemma wp_demand s a x va r (Q : Z -> vm -> Prop) : ok 4 s -> a <> KERNEL -> spaces s !! a = Some x -> find_region (anon_regions x) va = Some r ->
  flags_fit a (an_flags r) -> index va 39 < 256 -> no_huge_at s a va ->
  (forall s', unmapped_same s s' -> ~ enough 4 (frames s) -> Q (-1) s') -> (forall s', demand_paged a va (an_flags r) s s' -> Q 0 s') ->
  wp (bind (vmm_anon_region_find (Some a) va) (fun region => match region with
    | None => ret (-1)
    | Some region => bind alloc_page (fun phys => if phys =? 0 then ret (-1) else bind (zero_page phys) (fun _ =>
        bind (vmm_map_page (Some a) (Z.ldiff va (VMM_PAGE_SIZE - 1)) phys (an_flags region)) (fun r => if negb (r =? 0) then bind (free_page phys) (fun _ => ret (-1)) else ret 0)))
    end)) s Q.
Proof.
  intros Hok Ha Hx Hr Hfl Hh Hnh HN HS. apply vm_bind. unfold vmm_anon_region_find. apply vm_bind. eapply wp_read_as; [exact Hx|]. apply vm_ret. rewrite Hr.
  apply (wp_place s a x va _ (an_flags r) Hok Ha Hx Hfl Hh Hnh (va_path_page va) (fun f r => if negb (r =? 0) then bind (free_page f) (fun _ => ret (-1)) else ret 0)); [apply HN | | intros f s' H; by apply (vm_ret 0), HS].
  intros f s' [H1 H2 H3 H4] Hlow Hf Hno. apply vm_bind, wp_upd, (vm_ret (-1)), HN; [|done]. constructor; [by apply ok_give | by apply rest_frames | done | done].
Qed.
