(* ===== verification/VmmActive.v ===== *)
(** * New frames and the active tables

    The kernel clears a new frame at the address of the frame, so through the tables that
    CR3 holds, and during a page fault these are the process's.  [store_active] is such a
    store, and [fault_active] the handler with it.  When the free frames are mapped to
    themselves it does what [vmm_handle_page_fault] does on physical memory; a page the
    process has mapped at the address of a free frame is cleared in its place. *)
From S2P Require Import Prelude Pmm Vmm VmmTables VmmOwn VmmOps VmmCreate VmmFault.
Local Open Scope capy_scope.

Implicit Types (s st : vm) (m : gmap Z Z) (n : nat) (a b p q f t i j v va : Z) (path rest : list Z) (x : vmm_address_space).

(** A store by the kernel: it needs a writable translation; without one there is no
    outcome. *)
Definition store_active va v : VM unit := fun s =>
  match walk (ram s) 4 (Z.land (cr3 s) VMM_CR3_PHYS_MASK) va with
  | Some (pa, true, _) => Some (tt, with_ram (<[pa := v]> (ram s)) s)
  | _ => None
  end.
Definition zero_page_active p : VM unit := foreach 0 512 (fun i => store_active (slot p i) 0).
Definition fault_active : Z -> Z -> VM Z := vmm_handle_page_fault_with zero_page_active.

(** Both zeroing loops and what follows them have the same outcome. *)
Lemma bind_same {A B} (m m' : VM A) (k k' : A -> VM B) s : m s = m' s -> wp m' s (fun r s' => k r s' = k' r s') -> bind m k s = bind m' k' s.
Proof. intros E. unfold wp, bind. rewrite E. by destruct (m' s) as [[r s']|]. Qed.

Lemma bind_then {A B} (m : VM A) (k k' : A -> VM B) s : wp m s (fun r s' => k r s' = k' r s') -> bind m k s = bind m k' s.
Proof. by apply bind_same. Qed.

Lemma bind_head {A B} (m m' : VM A) (k : A -> VM B) s : m s = m' s -> bind m k s = bind m' k s.
Proof. intros E. unfold bind. by rewrite E. Qed.

(** The tables of [a] are active and map the free frames to themselves. *)
Record self_mapped a s : Prop := {
  sm_root : root_of s a = Some (Z.land (cr3 s) VMM_CR3_PHYS_MASK);
  sm_frames : forall f i, free (frames s) f -> 0 <= i < 512 -> exists u, walk_of s a (slot f i) = Some (slot f i, true, u) }.

Section active.
Context (n : nat) (Hn : (3 <= n)%nat) (a : Z).

Lemma free_low s f i : ok n s -> free (frames s) f -> 0 <= i < 512 -> in_head s a (slot f i).
Proof.
  intros Hok (q & -> & Hq & _) Hi. left. destruct (ok_frames _ _ Hok) as [[_ Ht _ _] _]. pose proof bitmap_bits.
  unfold index. change 0x1FF with (Z.ones 9). rewrite Z.land_ones, Z.shiftr_div_pow2 by lia. rewrite (Z.div_small (slot _ _)) by (unfold slot; lia). done.
Qed.

(** A frame outside the tables is cleared through them. *)
Lemma zero_same s f : ok n s -> aligned f -> root_of s a = Some (Z.land (cr3 s) VMM_CR3_PHYS_MASK) -> (forall b path, ~ owned 3 s b path f) ->
  (forall i, 0 <= i < 512 -> in_head s a (slot f i) /\ exists u, walk_of s a (slot f i) = Some (slot f i, true, u)) -> zero_page_active f s = zero_page f s.
Proof.
  intros Hok Hf Hr Hno Hmap. unfold root_of in Hr. destruct (spaces s !! a) as [x|] eqn:Hx; [|done]. injection Hr as Hr.
  assert (H : forall (k : nat) lo m, 0 <= lo -> lo + Z.of_nat k <= 512 -> same_tables s m ->
    foreach_n k lo (fun i => store_active (slot f i) 0) (with_ram m s) = foreach_n k lo (fun i => write64 (slot f i) 0) (with_ram m s)).
  { induction k as [|k IH]; intros lo m Hlo Hk Hm; [done|]. cbn [foreach_n]. destruct (Hmap lo ltac:(lia)) as [Hh [u Hw]].
    assert (E : store_active (slot f lo) 0 (with_ram m s) = write64 (slot f lo) 0 (with_ram m s)).
    { unfold store_active. change (cr3 (with_ram m s)) with (cr3 s). rewrite <- Hr, <- (walk_same s m a (slot f lo) Hm Hh) in *. unfold walk_of in Hw. cbn [spaces ram with_ram] in *. rewrite Hx in Hw. by rewrite Hw. }
    apply bind_same; [exact E|]. apply wp_write64. apply (IH (lo + 1)); [lia | lia |]. cbn [ram with_ram].
    intros b pre q j Ho Hj. rewrite rd_insert. destruct (Z.eqb_spec (slot q j) (slot f lo)) as [Es|_]; [|by apply (Hm b pre)].
    apply slot_inj in Es as [-> _]; [by destruct (Hno b pre) | by destruct (owned_aligned 3 s b pre q (ok_le n 3 s Hn Hok) Ho) | done | done | lia]. }
  specialize (H 512%nat 0 (ram s) ltac:(lia) ltac:(lia) (same_refl s)). unfold zero_page_active, zero_page, foreach. by replace (with_ram (ram s) s) with s in H by (by destruct s).
Qed.

(** The frame just taken. *)
Lemma zero_taken s f F : ok n s -> self_mapped a s -> taken (frames s) f F -> zero_page_active f (with_frames F s) = zero_page f (with_frames F s).
Proof.
  intros Hok [Hr Hm] (HF & Hff & Htot & Hus & _). destruct (frame_aligned false _ _ (ok_frames _ _ Hok) Hff) as [Hfa _].
  assert (Hk : kept s (with_frames F s)).
  { constructor; [exists (ram s), F; by destruct s | done | done | intros g Hg; apply Hus; by right | done]. }
  apply zero_same; [by apply (kept_ok n Hn s) | done | done | |].
  - intros b path Ho. exact (proj2 (free_not_owned n s f b path f Hn Hok Hff Ho) eq_refl).
  - intros i Hi. split; [by apply (free_low s f i) | by apply Hm].
Qed.

Lemma self_mapped_kept s s' : ok n s -> kept s s' -> self_mapped a s -> self_mapped a s'.
Proof.
  intros Hok Hk [Hr Hm]. destruct (ke_state _ _ Hk) as (m & F & E). constructor; [by rewrite E|]. intros f i Hf%(kept_free s s' f Hk) Hi.
  rewrite (kept_walk n Hn s s' a (slot f i) Hok Hk) by (by apply free_low). by apply Hm.
Qed.

Lemma self_mapped_grown s s' : ok n s -> grown n a s s' -> self_mapped a s -> self_mapped a s'.
Proof.
  intros Hok Hg [Hr Hm]. destruct (gr_state _ _ _ _ Hg) as (m & F & E). constructor; [by rewrite E|]. intros f i Hf%(grown_free n Hn a s s' f Hg) Hi.
  rewrite (gr_walk _ _ _ _ Hg) by (by apply free_low). by apply Hm.
Qed.

Lemma create_same s t i fl : ok n s -> self_mapped a s -> get_or_create_table_with zero_page_active t i fl s = get_or_create_table t i fl s.
Proof.
  intros Hok Hm. apply bind_then, wp_read64. destruct (negb (present _)); [|done]. apply bind_head.
  apply bind_then, wp_alloc; [apply Hok | done|]. intros f F Hf Ht. replace (f =? 0) with false by lia. by apply bind_head, zero_taken.
Qed.

Lemma map_same s x va phys flags : ok n s -> self_mapped a s -> spaces s !! a = Some x -> in_head s a va -> rooted s a va -> no_huge_at s a va ->
  user flags = negb (a =? KERNEL) -> vmm_map_page_with zero_page_active (Some a) va phys flags s = vmm_map_page (Some a) va phys flags s.
Proof.
  intros Hok Hm Hx Hh Hroot Hnh Hu. unfold vmm_map_page. apply bind_then. eapply wp_read_as; [exact Hx|]. cbv zeta.
  change (truthy (Z.land flags VMM_PAGE_USER)) with (user flags). rewrite Hu.
  assert (Et : (if negb (a =? KERNEL) then Z.lor (Z.lor VMM_PAGE_PRESENT VMM_PAGE_WRITE) VMM_PAGE_USER else Z.lor VMM_PAGE_PRESENT VMM_PAGE_WRITE) = table_flags a) by (unfold table_flags; by destruct (a =? KERNEL)).
  rewrite Et. apply bind_same; [by apply create_same|].
  eapply (wp_step n Hn a va (pml4_phys x) (index va 39) (va_path 3 va) 0 s); [done | done | done | done | done | lia | by apply owned_root | done |].
  intros s1 t1 G1 _ O1. pose proof (gr_ok _ _ _ _ G1) as K1. assert (M1 : self_mapped a s1) by (by apply (self_mapped_grown s s1)). assert (H1 : in_head s1 a va) by (by apply (head_grown n a s s1)).
  apply bind_same; [by apply create_same|].
  eapply (wp_step n Hn a va t1 (index va 30) (va_path 2 va) 1 s1); [done | done | by apply (gr_huge _ _ _ _ G1) | by eapply (root_grown n Hn a s s1) | done | lia | done | done |].
  intros s2 t2 G2 _ O2. pose proof (gr_ok _ _ _ _ G2) as K2. assert (M2 : self_mapped a s2) by (by apply (self_mapped_grown s1 s2)).
  by apply bind_head, create_same.
Qed.
End active.

(** On such tables the fault handler does what it does on physical memory. *)
Lemma fault_same s a x va error : ok 4 s -> a <> KERNEL -> current_as s = Some a -> self_mapped a s -> spaces s !! a = Some x -> index va 39 < 256 -> no_huge_at s a va ->
  (forall r, find_region (anon_regions x) va = Some r -> user (an_flags r) = true) -> fault_active va error s = vmm_handle_page_fault va error s.
Proof.
  intros Hok Ha Hcur Hm Hx Hh Hnh Hr. unfold fault_active, vmm_handle_page_fault. apply bind_then, wp_upd. set (s1 := with_stats _ s).
  assert (Hok1 : ok 4 s1) by (by apply (ok_like 4 s)). assert (Hm1 : self_mapped a s1) by (by destruct Hm). 
  apply bind_then. unfold vmm_current_address_space. apply vm_bind, vm_get, vm_ret. change (current_as s1) with (current_as s). rewrite Hcur.
  destruct (truthy (Z.land error 1)); [done|]. apply bind_then. unfold vmm_anon_region_find. apply vm_bind. eapply wp_read_as; [exact Hx|]. apply vm_ret.
  destruct (find_region (anon_regions x) va) as [r|] eqn:Er; [|done]. apply bind_then, wp_alloc; [apply Hok1 | done|]. intros f F Hf Ht. replace (f =? 0) with false by lia.
  destruct (kept_take s1 s1 f F (kept_refl s1 (ok_frames _ _ Hok1)) Ht) as [K0 Hff].
  apply bind_same; [by apply (zero_taken 4 ltac:(lia) a s1)|]. apply wp_zero_page. intros m Hm'. cbn [ram with_frames] in Hm'. set (s2 := with_ram m (with_frames F s1)).
  assert (K : kept s1 s2) by (by apply (kept_fill s1 (with_frames F s1) f (fun _ => 0) m)). assert (Hok2 : ok 4 s2) by (by apply (kept_ok 4 ltac:(lia) s1)).
  pose proof (index_range va 39). pose proof (va_path_page va) as Hva. assert (Hpg : index (Z.ldiff va (VMM_PAGE_SIZE - 1)) 39 = index va 39) by (by apply index_page).
  apply bind_head.
  apply (map_same 4 ltac:(lia) a s2 x); [done | by apply (self_mapped_kept 4 ltac:(lia) a s1 s2) | done | left; rewrite Hpg; lia | left; by rewrite Hpg | | rewrite (Hr r eq_refl); by replace (a =? KERNEL) with false by lia].
  apply (no_huge_path s2 a va); [done|]. by apply (no_huge_kept s1).
Qed.
