(* ===== verification/VmmCow.v ===== *)
(** * Copy on write

    The branch of the fault handler for writes to a page that is present: it decides by
    the frame's counter whether the page is copied or opened in place.  Page counters are
    free here ([ok 3]: the tables are owned once, the pages may be shared). *)
From S2P Require Import Prelude Pmm Vmm VmmTables VmmOwn VmmOps VmmCreate.
Local Open Scope capy_scope.

Implicit Types (s : vm) (a b p q f t i j v e va : Z) (path : list Z) (x : vmm_address_space) (c : list Z).

(** ** Entries *)
Lemma land_drop e b k : Z.land b k = b -> Z.land (Z.land e k) b = Z.land e b.
Proof. intros H. by rewrite <- Z.land_assoc, (Z.land_comm k), H. Qed.

(** Setting bits [w] and clearing bits [c], seen through a mask that has only bits of [w]
    or none of either. *)
Lemma set_clear_other e w k b : Z.land b w = 0 -> Z.land b k = 0 -> Z.land (Z.ldiff (Z.lor e w) k) b = Z.land e b.
Proof.
  intros Hw Hk. rewrite Z.ldiff_land, <- Z.land_assoc, Z.land_lor_distr_l.
  assert (E : Z.land (Z.lnot k) b = b) by (apply Z.bits_inj'; intros n Hn; rewrite Z.land_spec, Z.lnot_spec by done; apply (f_equal (fun z => Z.testbit z n)) in Hk; rewrite Z.land_spec, Z.bits_0 in Hk; by destruct (Z.testbit b n), (Z.testbit k n)).
  by rewrite E, (Z.land_comm w), Hw, Z.lor_0_r.
Qed.

Definition reuse_entry e : Z := Z.ldiff (Z.lor e VMM_PAGE_WRITE) VMM_PAGE_COW.
Definition copy_entry e f : Z := Z.ldiff (Z.lor (Z.lor (Z.land e 0xFFF) f) VMM_PAGE_WRITE) VMM_PAGE_COW.

Lemma writable_set e : writable (Z.ldiff (Z.lor e VMM_PAGE_WRITE) VMM_PAGE_COW) = true.
Proof.
  unfold writable. rewrite Z.ldiff_land, <- Z.land_assoc. change (Z.land (Z.lnot VMM_PAGE_COW) VMM_PAGE_WRITE) with VMM_PAGE_WRITE.
  rewrite Z.land_lor_distr_l, truthy_lor. change (truthy (Z.land VMM_PAGE_WRITE VMM_PAGE_WRITE)) with true. apply orb_true_r.
Qed.

Lemma reuse_bits e : addr_of (reuse_entry e) = addr_of e /\ present (reuse_entry e) = present e /\ user (reuse_entry e) = user e /\ writable (reuse_entry e) = true /\
  Z.land (reuse_entry e) VMM_PAGE_NX = Z.land e VMM_PAGE_NX.
Proof. unfold addr_of, present, user, reuse_entry. rewrite !set_clear_other by done. split_and!; [done.. | apply writable_set | done]. Qed.

(** The copy loses the bit that forbids execution. *)
Lemma copy_bits e f : aligned f -> addr_of (copy_entry e f) = f /\ present (copy_entry e f) = present e /\ user (copy_entry e f) = user e /\ writable (copy_entry e f) = true /\
  Z.land (copy_entry e f) VMM_PAGE_NX = 0.
Proof.
  intros Hf. unfold addr_of, present, user, copy_entry. rewrite !set_clear_other by done. rewrite !Z.land_lor_distr_l, (aligned_mask f Hf).
  rewrite (aligned_flag f VMM_PAGE_PRESENT), (aligned_flag f VMM_PAGE_USER), (aligned_flag f VMM_PAGE_NX) by done. rewrite !Z.lor_0_r.
  rewrite (land_drop e VMM_PAGE_PRESENT), (land_drop e VMM_PAGE_USER) by done. rewrite <- !Z.land_assoc. change (Z.land 0xFFF VMM_PTE_PHYS_MASK) with 0. change (Z.land 0xFFF VMM_PAGE_NX) with 0. rewrite !Z.land_0_r, Z.lor_0_l.
  split_and!; [done.. | apply writable_set | done].
Qed.

(** ** Counters *)
Definition tracked p : Prop := 0 <= p < PMM_REFCOUNT_MAX_PAGES * 4096.

Lemma dec_value p c : refcounts_ok c -> tracked p -> (pmm_frame_refcount_dec p c).1 = Z.max 0 (pmm_frame_refcount_get p c - 1).
Proof.
  intros Hc Hp. rewrite <- dec_get by done. unfold pmm_frame_refcount_dec, pmm_frame_refcount_get.
  assert (0 <= pfn_from_phys p < PMM_REFCOUNT_MAX_PAGES) by (split; [apply Z.div_pos | apply Z.div_lt_upper_bound]; unfold tracked, PMM_REFCOUNT_PAGE_SIZE in *; lia).
  replace (PMM_REFCOUNT_MAX_PAGES <=? pfn_from_phys p) with false by lia. destruct (Z.eqb_spec c.[pfn_from_phys p] 0); cbn [fst snd]; [done|]. done.
Qed.

(** The counter of one frame changes, or none. *)
Definition same_counts c c' : Prop := forall q, tracked q -> pmm_frame_refcount_get q c' = pmm_frame_refcount_get q c.

Lemma page_of_frame p q : tracked p -> tracked q -> pfn_from_phys p = pfn_from_phys q -> forall c, pmm_frame_refcount_get p c = pmm_frame_refcount_get q c.
Proof. intros _ _ E c. unfold pmm_frame_refcount_get. by rewrite E. Qed.

Lemma dec_inc_same p c : refcounts_ok c -> tracked p -> 0 < pmm_frame_refcount_get p c -> same_counts c (pmm_frame_refcount_inc p (pmm_frame_refcount_dec p c).2).
Proof.
  intros Hc Hp Hpos q Hq. destruct (decide (pfn_from_phys p = pfn_from_phys q)) as [E|Hne].
  - rewrite <- !(page_of_frame p q Hp Hq E). pose proof (dec_ok p c Hc). rewrite inc_get, dec_get by done.
    assert (pmm_frame_refcount_get p c <= 0xFFFF) by (unfold pmm_frame_refcount_get; destruct (_ <=? _); [lia | apply (entry_range c _ Hc)]). lia.
  - destruct (other_frame p q (pmm_frame_refcount_dec p c).2 ltac:(apply Hp) ltac:(apply Hq) Hne) as [-> _]. apply (other_frame p q); [apply Hp | apply Hq | exact Hne].
Qed.

Lemma ok_counts_free s c : ok 3 s -> ok 3 (with_refcounts c s).
Proof. intros []. constructor; try done. lia. Qed.

(** ** Sharing a page table *)
(** What a leaf becomes in both address spaces. *)
Definition shared_entry e : Z := if user e && writable e && negb (huge e) then Z.ldiff (Z.lor e VMM_PAGE_COW) VMM_PAGE_WRITE else e.

(** The number of leaves among the first [k] of a table that map [f]. *)
Fixpoint mappings m src f (k : nat) : Z :=
  match k with O => 0 | S k => mappings m src f k + let e := rd m (slot src (Z.of_nat k)) in if present e && (addr_of e =? f) then 1 else 0 end.

Lemma aligned_addr e : aligned (addr_of e).
Proof.
  exists (Z.land (Z.shiftr e 12) (Z.ones 40)). split.
  - unfold addr_of. change VMM_PTE_PHYS_MASK with (Z.shiftl (Z.ones 40) 12). change 4096 with (2 ^ 12). rewrite <- Z.shiftl_mul_pow2, Z.shiftl_land by lia.
    apply Z.bits_inj'. intros n Hn. rewrite !Z.land_spec, !Z.shiftl_spec by done. destruct (Z.ltb_spec n 12).
    + rewrite (Z.testbit_neg_r (Z.ones 40)) by lia. by rewrite !andb_false_r.
    + rewrite Z.shiftr_spec by lia. by replace (n - 12 + 12) with n by lia.
  - rewrite Z.land_ones by lia. apply Z.mod_pos_bound. lia.
Qed.

Lemma addr_of_nonneg e : 0 <= addr_of e.
Proof. unfold addr_of. apply Z.land_nonneg. by right. Qed.

Lemma count_other p f c : 0 <= p -> 0 <= f -> pfn_from_phys p <> pfn_from_phys f -> pmm_frame_refcount_get f (pmm_frame_refcount_inc p c) = pmm_frame_refcount_get f c.
Proof. intros Hp Hf Hne. apply (other_frame p f c Hp Hf Hne). Qed.

Section fork.
Context (dst src : Z) (s : vm) (Hd : aligned dst) (Hs : aligned src) (Hne : dst <> src).

(** The first [k] entries are copied. *)
Record shared_upto (k : nat) m c : Prop := {
  su_counts : refcounts_ok c;
  su_done : forall i, 0 <= i < Z.of_nat k -> let e := rd (ram s) (slot src i) in
    rd m (slot src i) = (if present e then shared_entry e else e) /\ rd m (slot dst i) = if present e then shared_entry e else rd (ram s) (slot dst i);
  su_rest : forall q, (forall i, 0 <= i < Z.of_nat k -> q <> slot src i /\ q <> slot dst i) -> rd m q = rd (ram s) q;
  su_get : forall f, aligned f -> tracked f -> pmm_frame_refcount_get f c = Z.min 0xFFFF (pmm_frame_refcount_get f (refcounts s) + mappings (ram s) src f k) }.

Lemma shared_fresh k m c i : shared_upto k m c -> Z.of_nat k <= i < 512 -> rd m (slot src i) = rd (ram s) (slot src i) /\ rd m (slot dst i) = rd (ram s) (slot dst i).
Proof.
  intros H Hi. split; apply (su_rest _ _ _ H); intros j Hj; split; intros [? ?]%slot_inj; try done; lia.
Qed.

(** The two words of one entry, and its counter. *)
Lemma shared_step k m c m' c' : shared_upto k m c -> (k < 512)%nat -> let e := rd (ram s) (slot src (Z.of_nat k)) in
  rd m' (slot src (Z.of_nat k)) = (if present e then shared_entry e else e) -> rd m' (slot dst (Z.of_nat k)) = (if present e then shared_entry e else rd (ram s) (slot dst (Z.of_nat k))) ->
  (forall q, q <> slot src (Z.of_nat k) -> q <> slot dst (Z.of_nat k) -> rd m' q = rd m q) -> c' = (if present e then pmm_frame_refcount_inc (addr_of e) c else c) ->
  shared_upto (S k) m' c'.
Proof.
  intros H Hk e E1 E2 E3 ->. constructor.
  - destruct (present e); [apply inc_ok|]; apply H.
  - intros i Hi. destruct (Z.eqb_spec i (Z.of_nat k)) as [->|Hik]; [done|]. destruct (su_done _ _ _ H i ltac:(lia)) as [D1 D2]. cbv zeta in *.
    rewrite !E3; [done | ..]; intros [? ?]%slot_inj; try done; lia.
  - intros q Hq. destruct (Hq (Z.of_nat k) ltac:(lia)). rewrite E3 by done. apply (su_rest _ _ _ H). intros i Hi. apply Hq. lia.
  - intros f Hfa Hft. cbn [mappings]. cbv zeta. fold e. pose proof (su_get _ _ _ H f Hfa Hft) as Hg. destruct (present e); cbn [andb]; [|rewrite Hg; f_equal; lia].
    destruct (Z.eqb_spec (addr_of e) f) as [->|Hef].
    + rewrite inc_get; [|apply H | exact Hft]. rewrite Hg. lia.
    + rewrite count_other; [rewrite Hg; f_equal; lia | apply addr_of_nonneg | apply Hft |].
      intros E. apply Hef. assert (Ha : aligned (addr_of e)) by apply aligned_addr. destruct Ha as (q & Eq & _), Hfa as (r & Er & _).
      rewrite Eq, Er in *. unfold pfn_from_phys, PMM_REFCOUNT_PAGE_SIZE in E. rewrite !Z.div_mul in E by done. by rewrite E.
Qed.

Lemma share_next k m c s' : s' = with_refcounts c (with_ram m s) -> shared_upto k m c -> exists m c, s' = with_refcounts c (with_ram m s) /\ shared_upto k m c.
Proof. intros -> H. by exists m, c. Qed.

Lemma wp_share (Q : Z -> vm -> Prop) : refcounts_ok (refcounts s) -> (forall m c, shared_upto 512 m c -> Q 0 (with_refcounts c (with_ram m s))) -> wp (clone_pt_into 1 dst src) s Q.
Proof.
  intros Hc HQ. unfold clone_pt_into. apply vm_bind.
  apply (wp_loop (fun i s' => exists m c, s' = with_refcounts c (with_ram m s) /\ shared_upto (Z.to_nat i) m c)); [lia | | |].
  - exists (ram s), (refcounts s). split; [by destruct s|]. constructor; [done | lia | done |]. intros f _ _. change (mappings _ _ _ _) with 0.
    rewrite Z.add_0_r. symmetry. apply Z.min_r. unfold pmm_frame_refcount_get. destruct (_ <=? _); [done | apply (entry_range _ _ Hc)].
  - intros i s' Hi (m & c & -> & H). destruct (shared_fresh _ m c i H ltac:(lia)) as [Fs Fd].
    assert (Hnext : forall m' c', let e := rd (ram s) (slot src i) in rd m' (slot src i) = (if present e then shared_entry e else e) -> rd m' (slot dst i) = (if present e then shared_entry e else rd (ram s) (slot dst i)) ->
      (forall q, q <> slot src i -> q <> slot dst i -> rd m' q = rd m q) -> c' = (if present e then pmm_frame_refcount_inc (addr_of e) c else c) -> shared_upto (Z.to_nat (i + 1)) m' c').
    { intros m' c' e E1 E2 E3 E4. replace (Z.to_nat (i + 1)) with (S (Z.to_nat i)) by lia. apply (shared_step (Z.to_nat i) m c m' c' H); [lia | by rewrite Z2Nat.id by lia..]. }
    cbv zeta in Hnext. set (e := rd (ram s) (slot src i)) in *. assert (Hsd : slot src i <> slot dst i) by (intros [? _]%slot_inj; done).
    apply vm_bind, wp_read64. cbn [ram with_ram with_refcounts]. rewrite Fs.
    destruct (present e) eqn:Ep; cbn [negb]; [|apply vm_ret, (share_next _ m c); [done | by apply Hnext]]. change (1 <? Z.of_nat 1) with false. cbn [andb].
    apply vm_bind, wp_upd. unfold shared_entry in Hnext. destruct (user e && writable e && negb (huge e)).
    + set (w := Z.ldiff (Z.lor e VMM_PAGE_COW) VMM_PAGE_WRITE) in *. apply vm_bind, wp_write64, vm_bind, wp_write64, vm_ret.
      apply (share_next _ (<[slot src i := w]> (<[slot dst i := w]> m)) (pmm_frame_refcount_inc (addr_of e) c)); [reflexivity|]. apply (Hnext (<[slot src i := w]> (<[slot dst i := w]> m)) (pmm_frame_refcount_inc (addr_of e) c)); [by rewrite rd_insert, Z.eqb_refl | | | done].
      * rewrite rd_insert. replace (slot dst i =? slot src i) with false by lia. by rewrite rd_insert, Z.eqb_refl.
      * intros q H1 H2. rewrite !rd_insert. replace (q =? slot src i) with false by lia. by replace (q =? slot dst i) with false by lia.
    + apply vm_bind, wp_write64, vm_ret. apply (share_next _ (<[slot dst i := e]> m) (pmm_frame_refcount_inc (addr_of e) c)); [reflexivity|]. apply (Hnext (<[slot dst i := e]> m) (pmm_frame_refcount_inc (addr_of e) c)); [ | by rewrite rd_insert, Z.eqb_refl | | done].
      * rewrite rd_insert. by replace (slot src i =? slot dst i) with false by lia.
      * intros q H1 H2. rewrite rd_insert. by replace (q =? slot dst i) with false by lia.
  - intros s' (m & c & -> & H). by apply (vm_ret 0), HQ.
Qed.
End fork.

Lemma shared_cow e : user e = true -> writable e = true -> huge e = false -> cow (shared_entry e) = true.
Proof.
  intros Hu Hw Hh. unfold shared_entry. rewrite Hu, Hw, Hh. cbn [negb andb]. unfold cow. rewrite Z.ldiff_land, <- Z.land_assoc.
  change (Z.land (Z.lnot VMM_PAGE_WRITE) VMM_PAGE_COW) with VMM_PAGE_COW. rewrite Z.land_lor_distr_l, truthy_lor. apply orb_true_r.
Qed.


(** ** The handler *)
Definition same_page va v : Prop := va_path 4 v = va_path 4 va.

(** Nothing moves: the fault is the process's own. *)
Record refused s s' : Prop := {
  rf_ok : ok 3 s';
  rf_walk : forall b v, in_head s b v -> walk_of s' b v = walk_of s b v;
  rf_counts : same_counts (refcounts s) (refcounts s') }.

(** The page is opened in place. *)
Record reused a va e s s' : Prop := {
  ru_ok : ok 3 s';
  ru_frames : frames s' = frames s;
  ru_other : forall b v, in_head s b v -> ~ (b = a /\ same_page va v) -> walk_of s' b v = walk_of s b v;
  ru_walk : forall v, same_page va v -> walk_of s' a v = Some (addr_of e + page_offset 1 v, true, user e) }.

(** The page is a copy in a frame [f] that was free. *)
Record copied_out a va e p f s s' : Prop := {
  co_ok : ok 3 s';
  co_frame : free (frames s) f /\ used (frames s') f;
  co_other : forall b v, in_head s b v -> ~ (b = a /\ same_page va v) -> walk_of s' b v = walk_of s b v;
  co_walk : forall v, same_page va v -> walk_of s' a v = Some (f + page_offset 1 v, true, user e);
  co_words : forall j, 0 <= j < 512 -> rd (ram s') (slot f j) = rd (ram s) (slot (addr_of e) j) /\ rd (ram s') (slot (addr_of e) j) = rd (ram s) (slot (addr_of e) j);
  co_exec : Z.land (rd (ram s') p) VMM_PAGE_NX = 0 }.

Section handler.
Context (s : vm) (a : Z) (x : vmm_address_space) (va : Z).
Context (Hok : ok 3 s) (Ha : a <> KERNEL) (Hx : spaces s !! a = Some x) (Hh : index va 39 < 256) (Hnh : no_huge_at s a va).
Context (pt : Z) (Hpt : owned 3 s a (take 3 (va_path 4 va)) pt).
Local Abbreviation p := (slot pt (index va 12)).
Local Abbreviation e := (rd (ram s) p).
Context (Hpr : present e = true) (Hu : used (frames s) (addr_of e)) (Hno : forall b path, ~ owned 3 s b path (addr_of e)).

Lemma Hin : in_head s a va.
Proof. left. pose proof (index_range va 39). lia. Qed.

Lemma reuse_leaf c st : like (with_ram (<[p := reuse_entry e]> (ram s)) (with_refcounts c s)) st -> frames st = frames s -> refcounts st = c -> next_as st = next_as s -> reused a va e s st.
Proof.
  intros Hl Hf Hr Hn. pose proof (ok_counts_free s c Hok) as Hok'. destruct (reuse_bits e) as (B1 & B2 & B3 & B4 & _).
  assert (L : leaf_set 3 a va (reuse_entry e) (with_refcounts c s) st).
  { apply (leaf_like 3 a va (reuse_entry e) _ (with_ram (<[p := reuse_entry e]> (ram s)) (with_refcounts c s))); [|done|done|done|done].
    apply (store_leaf 3 ltac:(lia) a va pt (reuse_entry e)); [done | exact Hpt | exact Hin | | intros; lia | done]. intros _. replace (a =? KERNEL) with false by lia. lia. }
  constructor; [apply L | done | intros b v Hb Hne; by apply (ls_walk _ _ _ _ _ _ L) |].
  intros v Hv. rewrite (ls_at _ _ _ _ _ _ L v Ha Hv). by rewrite B1, B2, B3, B4, Hpr.
Qed.

Lemma copy_leaf c st f F m1 : taken (frames s) f F -> page_set f 0 512 (fun j => rd (ram s) (slot (addr_of e) j)) (ram s) m1 ->
  like (with_ram (<[p := copy_entry e f]> m1) (with_frames F (with_refcounts c s))) st -> frames st = F -> refcounts st = c -> next_as st = next_as s ->
  copied_out a va e p f s st.
Proof.
  intros Ht Hm Hl Hf Hr Hn. pose proof (ok_counts_free s c Hok) as Hok'. set (s0 := with_refcounts c s) in *. set (s1 := with_ram m1 (with_frames F s0)).
  destruct (kept_take s0 s0 f F (kept_refl s0 (ok_frames _ _ Hok)) Ht) as [K0 Hff]. assert (K : kept s0 s1) by (by apply (kept_fill s0 (with_frames F s0) f (fun j => rd (ram s) (slot (addr_of e) j)) m1)).
  assert (Hok1 : ok 3 s1) by (by apply (kept_ok 3 ltac:(lia) s0)). assert (Hfu : used F f) by (apply Ht; by left).
  destruct (frame_aligned true F f (proj1 Ht) Hfu) as [Hfa _]. destruct (copy_bits e f Hfa) as (B1 & B2 & B3 & B4 & B5).
  assert (Hpt1 : owned 3 s1 a (take 3 (va_path 4 va)) pt) by (by apply (kept_owned 3 ltac:(lia) s0 s1)).
  assert (L : leaf_set 3 a va (copy_entry e f) s1 st).
  { apply (leaf_like 3 a va (copy_entry e f) _ (with_ram (<[p := copy_entry e f]> (ram s1)) s1)); [|done|done|done|done].
    apply (store_leaf 3 ltac:(lia) a va pt (copy_entry e f)); [done | exact Hpt1 | exact Hin | | intros; lia | done]. intros _. replace (a =? KERNEL) with false by lia. lia. }
  assert (Hnf : forall b path, ~ owned 3 s1 b path f).
  { intros b path Ho. apply (kept_owned 3 ltac:(lia) s0 s1 b path f Hok' K) in Ho. exact (used_not_free _ _ (ok_used 3 s0 Hok' b path f Ho) Hff). }
  assert (Hne : forall b path, ~ owned 3 s1 b path (addr_of e)) by (intros b path Ho; apply (kept_owned 3 ltac:(lia) s0 s1 b path _ Hok' K) in Ho; by apply (Hno b path)).
  assert (Hold : forall j, 0 <= j < 512 -> rd m1 (slot (addr_of e) j) = rd (ram s) (slot (addr_of e) j)) by (intros j Hj; by apply (ke_mem _ _ K)).
  constructor.
  - apply L.
  - split; [done | by rewrite Hf].
  - intros b v Hb Hd. rewrite (ls_walk _ _ _ _ _ _ L); [by apply (kept_walk 3 ltac:(lia) s0 s1) | done | done].
  - intros v Hv. rewrite (ls_at _ _ _ _ _ _ L v Ha Hv). by rewrite B1, B2, B3, B4, Hpr.
  - intros j Hj. rewrite (ls_page _ _ _ _ _ _ L f j Hfu Hnf Hj), (ls_page _ _ _ _ _ _ L (addr_of e) j (ke_used _ _ K _ Hu) Hne Hj). cbn [s1 ram with_ram].
    rewrite Hold by done. split; [by apply Hm | done].
  - destruct Hl as [-> _]. cbn [ram with_ram]. by rewrite rd_insert, Z.eqb_refl.
Qed.

Lemma wp_cow (Q : Z -> vm -> Prop) : refcounts_ok (refcounts s) -> tracked (addr_of e) -> let n := pmm_frame_refcount_get (addr_of e) (refcounts s) in
  (forall s', cow e = false \/ 1 < n -> refused s s' -> Q (-1) s') ->
  (forall s', cow e = true -> n <= 1 -> reused a va e s s' -> pmm_frame_refcount_get (addr_of e) (refcounts s') = 0 -> Q 0 s') ->
  (forall s' f, cow e = true -> 1 < n -> copied_out a va e p f s s' -> pmm_frame_refcount_get (addr_of e) (refcounts s') = n - 1 -> Q 0 s') ->
  wp (vmm_handle_cow_fault (Some a) va) s Q.
Proof.
  intros Hc Ht n HN HR HC. unfold vmm_handle_cow_fault, vmm_walk_to_leaf. apply vm_bind, vm_bind. eapply wp_read_as; [exact Hx|]. apply vm_bind.
  pose proof (walk_table 3 s ltac:(lia) Hok a _ pt va [index va 12] Ha Hpt eq_refl) as Ew. change (4 - length (take 3 (va_path 4 va)))%nat with 1%nat in Ew. cbn [walk Nat.eqb orb] in Ew. change (shift_of 1) with 12 in Ew. rewrite Hpr in Ew.
  apply (wp_page_table 3 ltac:(lia) a x); [done | done | exact Hin | done | by rewrite Ew |]. intros pt' Hpt'. replace pt' with pt by (destruct Hpt as (y & Hy & _ & _ & E), Hpt' as (y' & Hy' & _ & _ & E'); congruence). clear pt' Hpt' Ew.
  apply vm_ret, vm_bind, wp_read64. rewrite Hpr. cbn [negb]. cbv zeta. apply vm_bind. unfold wp at 1, refcount_get. fold n.
  assert (Hdec : wp (if 0 <? n then refcount_dec (addr_of e) else ret 0) s (fun d s' => d = Z.max 0 (n - 1) /\ exists c, s' = with_refcounts c s /\ refcounts_ok c /\
     pmm_frame_refcount_get (addr_of e) c = d /\ if 0 <? n then same_counts (refcounts s) (pmm_frame_refcount_inc (addr_of e) c) else c = refcounts s)).
  { destruct (Z.ltb_spec 0 n).
    - pose proof (dec_value (addr_of e) (refcounts s) Hc Ht) as E1. pose proof (dec_get (addr_of e) (refcounts s) Hc Ht) as E2. pose proof (dec_ok (addr_of e) (refcounts s) Hc) as E3.
      pose proof (dec_inc_same (addr_of e) (refcounts s) Hc Ht ltac:(fold n; lia)) as E4. unfold wp, refcount_dec. destruct (pmm_frame_refcount_dec (addr_of e) (refcounts s)) as [d c]. cbn [fst snd] in *. fold n in E1, E2.
      split; [done|]. exists c. split_and!; [done | done | lia | done].
    - assert (0 <= n) by (unfold n, pmm_frame_refcount_get; destruct (_ <=? _); [done | apply (entry_range (refcounts s) _ Hc)]). apply (vm_ret 0). split; [lia|]. exists (refcounts s). split_and!; [by destruct s | done | fold n; lia | done]. }
  apply vm_bind. eapply vm_mono; [exact Hdec|]. clear Hdec. intros d s' (Hd & c & -> & Hc' & Hget & Hsame). unfold vmm_cow_decide. cbv zeta.
  assert (Hback : forall s1, like s s1 -> frames s1 = frames s -> next_as s1 = next_as s -> refcounts s1 = (if 0 <? n then pmm_frame_refcount_inc (addr_of e) c else c) -> refused s s1).
  { intros s1 Hl Hf Hnx Hr. constructor.
    - apply (ok_like 3 (with_refcounts (refcounts s1) s)); [done | done | done | done | by apply ok_counts_free].
    - intros b v _. by apply walk_like.
    - rewrite Hr. destruct (0 <? n); [done | by rewrite Hsame]. }
  destruct (cow e) eqn:Ec; cbn [negb action].
  2:{ apply vm_bind. destruct (0 <? n); [apply wp_upd | apply vm_ret]; apply (vm_ret (-1)), HN; [by left | by apply Hback | by left | by apply Hback]. }
  destruct (Z.eqb_spec d 0) as [Ed|Ed]; cbn [action new_set new_clr].
  - apply vm_bind, wp_write64, vm_bind, wp_upd, (vm_ret 0), HR; [done | lia | by apply (reuse_leaf c) | cbn; lia].
  - pose proof (ok_counts_free s c Hok) as Hok'. assert (Hf0 : frames_ok (frames (with_refcounts c s))) by apply Hok.
    apply vm_bind, wp_alloc; [done | |].
    + apply vm_bind. destruct (0 <? n); [apply wp_upd | apply vm_ret]; apply (vm_ret (-1)), HN; [right; lia | by apply Hback | right; lia | by apply Hback].
    + intros f F Hf Htk. replace (f =? 0) with false by lia. pose proof Htk as (HF & Hff & _). destruct (frame_aligned false _ f Hf0 Hff) as [Hfa _].
      destruct (frame_aligned true _ (addr_of e) Hf0 Hu) as [Hea _].
      apply vm_bind. unfold copy_page. apply wp_copy; [lia | done | done | intros E; apply (used_not_free (frames s) f); [by rewrite <- E | done] |].
      intros m1 Hm1. apply vm_bind, wp_write64, vm_bind, wp_upd, (vm_ret 0), (HC _ f); [done | lia | | cbn; lia].
      by apply (copy_leaf c _ f F m1).
Qed.
End handler.
