(* ===== verification/VmmBoot.v ===== *)
(** * The kernel's own tables

    [vmm_init] leaves the firmware's tables: it builds an identity map of the first 16 GiB
    in fresh frames and keeps the firmware's upper half.  From there the invariant of
    [VmmOwn] holds. *)
From S2P Require Import Prelude Pmm Vmm VmmTables VmmOwn VmmOps VmmCreate.
Local Open Scope capy_scope.

Implicit Types (s st : vm) (m : gmap Z Z) (lvl : nat) (a b q f t i j v e va g d : Z) (path rest : list Z) (F : pmm).

(** ** Pages by their words *)
Definition page_is m q (w : Z -> Z) : Prop := forall i, 0 <= i < 512 -> rd m (slot q i) = w i.

Lemma page_is_other m q t i v (w : Z -> Z) : aligned q -> aligned t -> q <> t -> 0 <= i < 512 -> page_is m q w -> page_is (<[slot t i := v]> m) q w.
Proof. intros Hq Ht Hne Hi H j Hj. rewrite rd_insert. destruct (Z.eqb_spec (slot q j) (slot t i)) as [E|]; [|by apply H]. by apply slot_inj in E as [-> _]. Qed.

Lemma page_is_set m q i v (w w' : Z -> Z) : page_is m q w -> (forall j, 0 <= j < 512 -> w' j = if j =? i then v else w j) -> page_is (<[slot q i := v]> m) q w'.
Proof.
  intros H Hw j Hj. rewrite rd_insert, Hw by done. destruct (Z.eqb_spec j i) as [->|Hne]; [by rewrite Z.eqb_refl|].
  destruct (Z.eqb_spec (slot q j) (slot q i)) as [E|]; [unfold slot in E; lia | by apply H].
Qed.

Lemma page_is_kept st st' q (w : Z -> Z) : kept st st' -> used (frames st) q -> page_is (ram st) q w -> page_is (ram st') q w.
Proof. intros K Hu H i Hi. rewrite (ke_mem _ _ K q i Hu Hi). by apply H. Qed.

(** ** Words *)
Definition table_word d : Z := Z.lor (Z.lor d VMM_PAGE_PRESENT) VMM_PAGE_WRITE.
Definition map_word g i : Z := Z.lor (Z.lor (Z.lor (g * Z.shiftl 1 30 + i * Z.shiftl 2 20) VMM_PAGE_PRESENT) VMM_PAGE_WRITE) VMM_PAGE_HUGE.

Lemma table_word_bits d : aligned d -> let e := table_word d in 0 <= e /\ addr_of e = d /\ present e = true /\ huge e = false /\ writable e = true /\ user e = false.
Proof.
  intros Hd. cbv zeta. unfold table_word. replace (Z.lor (Z.lor d VMM_PAGE_PRESENT) VMM_PAGE_WRITE) with (Z.lor (Z.lor d VMM_PAGE_WRITE) VMM_PAGE_PRESENT) by (by rewrite <- !Z.lor_assoc, (Z.lor_comm VMM_PAGE_WRITE)).
  split; [destruct Hd as (q & -> & ?); apply Z.lor_nonneg; split; [apply Z.lor_nonneg; split; [lia | done] | done]|]. by destruct (entry_bits d VMM_PAGE_WRITE Hd flag_write) as (-> & -> & -> & -> & ->).
Qed.

Lemma map_word_bits g i : 0 <= g < 16 -> 0 <= i < 512 -> let e := map_word g i in
  0 <= e /\ addr_of e = g * 2 ^ 30 + i * 2 ^ 21 /\ present e = true /\ huge e = true /\ writable e = true /\ user e = false /\ addr_of e `mod` 2 ^ 21 = 0.
Proof.
  intros Hg Hi. cbv zeta. unfold map_word. change (Z.shiftl 1 30) with (2 ^ 30). change (Z.shiftl 2 20) with (2 ^ 21). set (ad := g * 2 ^ 30 + i * 2 ^ 21).
  assert (Had : aligned ad) by (exists (g * 2 ^ 18 + i * 2 ^ 9); unfold ad; lia).
  set (fl := Z.lor VMM_PAGE_WRITE VMM_PAGE_HUGE). assert (Hf : flag_bits fl) by done.
  replace (Z.lor (Z.lor (Z.lor ad VMM_PAGE_PRESENT) VMM_PAGE_WRITE) VMM_PAGE_HUGE) with (Z.lor (Z.lor ad fl) VMM_PAGE_PRESENT).
  2:{ unfold fl. rewrite <- !Z.lor_assoc. f_equal. }
  destruct (entry_bits ad fl Had Hf) as (Ea & -> & -> & -> & ->). split; [apply Z.lor_nonneg; split; [apply Z.lor_nonneg; split; [unfold ad; lia | done] | done]|]. rewrite Ea. split_and!; try done.
  unfold ad. replace (g * 2 ^ 30 + i * 2 ^ 21) with ((g * 2 ^ 9 + i) * 2 ^ 21) by lia. by apply Z.mod_mul.
Qed.

(** ** What is built *)
Section built.
Context (s : vm) (fw p0 p1 : Z).

Definition dirs_word (pds : list Z) g : Z := match pds !! Z.to_nat g with Some d => table_word d | None => 0 end.
Definition root_word i : Z := if i =? 0 then table_word p1 else if i <? 256 then 0 else rd (ram s) (slot fw i).

Record built (pds : list Z) st : Prop := {
  bu_kept : kept s st;
  bu_new : Forall (fun f => free (frames s) f /\ used (frames st) f) (p0 :: p1 :: pds);
  bu_nodup : NoDup (p0 :: p1 :: pds);
  bu_root : page_is (ram st) p0 root_word;
  bu_dirs : page_is (ram st) p1 (dirs_word pds);
  bu_maps : forall (k : nat) d, pds !! k = Some d -> page_is (ram st) d (map_word (Z.of_nat k)) }.

Lemma built_frame pds st f : built pds st -> f ∈ p0 :: p1 :: pds -> free (frames s) f /\ used (frames st) f /\ aligned f.
Proof.
  intros H Hf. destruct (proj1 (Forall_forall _ _) (bu_new _ _ H) f Hf) as [H1 H2]. split_and!; [done | done |]. eapply (frame_aligned true); [apply (bu_kept _ _ H) | done].
Qed.

(** One more gigabyte. *)
Lemma built_more pds st d F m : built pds st -> (Z.of_nat (length pds) < 512) -> taken (frames st) d F -> page_set d 0 512 (map_word (Z.of_nat (length pds))) (ram st) m ->
  built (pds ++ [d]) (with_ram (<[slot p1 (Z.of_nat (length pds)) := table_word d]> m) (with_frames F st)).
Proof.
  intros H Hlen Ht Hm. pose proof H as [K N D R G M]. set (st1 := with_ram m (with_frames F st)).
  destruct (kept_take st st d F (kept_refl st (ke_frames _ _ K)) Ht) as [K0 Hdf]. assert (K1 : kept st st1) by (by apply (kept_fill st (with_frames F st) d (map_word (Z.of_nat (length pds))) m)).
  pose proof (kept_trans _ _ _ K K1) as K2. destruct (built_frame pds st p0 H ltac:(set_solver)) as (F0 & U0 & A0). destruct (built_frame pds st p1 H ltac:(set_solver)) as (F1 & U1 & A1).
  assert (Hdu : used F d) by (apply Ht; by left). destruct (frame_aligned true F d (proj1 Ht) Hdu) as [Ad _].
  assert (Hnew : d ∉ p0 :: p1 :: pds) by (intros Hd; destruct (built_frame pds st d H Hd) as (_ & Ud & _); exact (used_not_free _ _ Ud Hdf)).
  assert (Hp10 : p0 <> p1) by (apply NoDup_cons in D as [D _]; set_solver).
  destruct (kept_write s st1 p1 (Z.of_nat (length pds)) (table_word d) K2 F1 ltac:(lia) A1) as [K3 _].
  assert (Hother : forall q (w : Z -> Z), q ∈ p0 :: pds -> page_is (ram st) q w -> page_is (<[slot p1 (Z.of_nat (length pds)) := table_word d]> m) q w).
  { intros q w Hq Hw. destruct (built_frame pds st q H ltac:(set_solver)) as (_ & Uq & Aq). apply page_is_other; [done | done | | lia | by apply (page_is_kept st st1)].
    intros ->. apply NoDup_cons in D as [D1 [D2 _]%NoDup_cons]. set_solver. }
  constructor; [done | | | | |].
  - apply Forall_cons in N as [N0 [N1 N]%Forall_cons]. assert (Hu : forall f, free (frames s) f /\ used (frames st) f -> free (frames s) f /\ used F f) by (intros f [? ?]; split; [done | by apply K1]).
    constructor; [by apply Hu|]. constructor; [by apply Hu|]. apply Forall_app. split; [by eapply Forall_impl|]. constructor; [|constructor]. split; [exact (kept_free _ _ _ K Hdf) | done].
  - change (p0 :: p1 :: pds ++ [d]) with ((p0 :: p1 :: pds) ++ [d]). apply NoDup_app. split_and!; [done | | apply NoDup_singleton]. intros f Hf Hd%list_elem_of_singleton. by subst.
  - apply Hother; [set_solver | done].
  - apply (page_is_set m p1 _ _ (dirs_word pds)); [by apply (page_is_kept st st1)|]. intros j Hj. unfold dirs_word. destruct (Z.eqb_spec j (Z.of_nat (length pds))) as [->|Hne].
    + by rewrite Nat2Z.id, list_lookup_middle.
    + destruct (decide (Z.to_nat j < length pds)%nat); [by rewrite lookup_app_l|]. rewrite !lookup_ge_None_2; [done | lia | rewrite length_app; cbn; lia].
  - intros k d' Hk. apply lookup_app_Some in Hk as [Hk|[Hge Hk]].
    + apply Hother; [apply list_elem_of_lookup_2 in Hk; set_solver | by apply M].
    + apply list_lookup_singleton_Some in Hk as [Hk <-]. replace k with (length pds) by lia. apply page_is_other; [done | done | | lia |]; [intros ->; set_solver|]. intros i Hi. by apply Hm.
Qed.
End built.

Lemma map_words d g : forall s (Q : unit -> vm -> Prop), (forall m, page_set d 0 512 (map_word g) (ram s) m -> Q tt (with_ram m s)) ->
  wp (foreach 0 512 (fun i => write64 (slot d i) (Z.lor (Z.lor (Z.lor (g * Z.shiftl 1 30 + i * Z.shiftl 2 20) VMM_PAGE_PRESENT) VMM_PAGE_WRITE) VMM_PAGE_HUGE))) s Q.
Proof. intros s Q H. by apply (wp_fill_page d 0 512 (map_word g)). Qed.

(** ** The device window *)

(** The tables after the boot; [dev]: the root entry and the table of the window. *)
Definition dev_frames (dev : option (Z * Z)) : list Z := match dev with Some (_, f) => [f] | None => [] end.
Definition dev_word (dev : option (Z * Z)) (w : Z -> Z) i : Z := match dev with Some (di, f) => if i =? di then table_word f else w i | None => w i end.

Record booted s fw st p0 p1 (pds : list Z) (dev : option (Z * Z)) : Prop := {
  bo_frames : frames_ok (frames st);
  bo_used : Forall (fun f => used (frames st) f) (p0 :: p1 :: pds ++ dev_frames dev);
  bo_nodup : NoDup (p0 :: p1 :: pds ++ dev_frames dev);
  bo_len : length pds = 16%nat;
  bo_root : page_is (ram st) p0 (dev_word dev (root_word s fw p1));
  bo_dirs : page_is (ram st) p1 (dirs_word pds);
  bo_maps : forall (k : nat) d, pds !! k = Some d -> page_is (ram st) d (map_word (Z.of_nat k));
  bo_dev : match dev with
    | Some (di, f) => 384 <= di < 448 /\ device_base st = Z.lor 0xffff000000000000 (Z.shiftl di 39) /\ page_is (ram st) f (fun _ => 0)
    | None => device_base st = 0 end;
  bo_same : refcounts st = refcounts s /\ cr3 st = cr3 s /\ spaces st = spaces s /\ next_as st = next_as s }.

Section boot.
Context (s : vm) (Hs : frames_ok (frames s)) (Hdev : device_base s = 0).
Local Abbreviation fw := (Z.land (cr3 s) VMM_PTE_PHYS_MASK).
Context (Hfw : used (frames s) fw).

Lemma built_booted p0 p1 pds st : built s fw p0 p1 pds st -> length pds = 16%nat -> booted s fw st p0 p1 pds None.
Proof.
  intros [K N D R G M] Hl. destruct (ke_state _ _ K) as (m' & F' & Es).
  constructor; cbn [dev_frames dev_word]; rewrite ?app_nil_r; try done; [apply K | eapply Forall_impl; [exact N | by intros f []] | by rewrite Es | by rewrite Es].
Qed.

Lemma wp_window p0 p1 pds st (Q : Z -> vm -> Prop) : built s fw p0 p1 pds st -> length pds = 16%nat -> (forall r st' dev, booted s fw st' p0 p1 pds dev -> Q r st') -> wp (vmm_prepare_device_window p0) st Q.
Proof.
  intros H Hl HQ. pose proof (built_booted p0 p1 pds st H Hl) as B. destruct (ke_state _ _ (bu_kept _ _ _ _ _ _ H)) as (m0 & F0 & Es).
  destruct (built_frame s fw p0 p1 pds st p0 H ltac:(set_solver)) as (Ff0 & U0 & A0). assert (Hp0 : p0 <> 0) by (by eapply (frame_aligned true); [apply (bu_kept _ _ _ _ _ _ H) | done]).
  unfold vmm_prepare_device_window. apply vm_bind, vm_get. replace (device_base st) with 0 by (by rewrite Es). replace (p0 =? 0) with false by lia. cbn [orb negb Z.eqb].
  apply vm_bind, (wp_loop (fun _ st' => st' = st)); [lia | done | | intros st' ->; apply (vm_ret (-1)); by eapply HQ].
  intros i st' Hi ->. apply vm_bind, wp_read64, vm_ret. destruct (Z.eqb_spec (rd (ram st) (slot p0 i)) 0) as [Ez|]; [|done].
  apply vm_bind, wp_alloc; [apply (bu_kept _ _ _ _ _ _ H) | apply (vm_ret (-1)); by eapply HQ|]. intros f F Hf Ht. replace (f =? 0) with false by lia.
  apply vm_bind, wp_zero_page. intros m Hm. apply vm_bind, wp_write64, vm_bind, wp_upd, (vm_ret 0). cbn [ram with_ram with_frames device_used device_gate].
  pose proof H as [K N D R G M]. set (st1 := with_ram m (with_frames F st)). destruct (kept_take st st f F (kept_refl st (ke_frames _ _ K)) Ht) as [K0 Hff].
  assert (K1 : kept st st1) by (by apply (kept_fill st (with_frames F st) f (fun _ => 0) m)). assert (Hfu : used F f) by (apply Ht; by left). destruct (frame_aligned true F f (proj1 Ht) Hfu) as [Af _].
  assert (Hnew : f ∉ p0 :: p1 :: pds) by (intros Hd; destruct (built_frame s fw p0 p1 pds st f H Hd) as (_ & Uf & _); exact (used_not_free _ _ Uf Hff)).
  assert (Hother : forall q (w : Z -> Z), q ∈ p1 :: pds -> page_is (ram st) q w -> page_is (<[slot p0 i := table_word f]> m) q w).
  { intros q w Hq Hw. destruct (built_frame s fw p0 p1 pds st q H ltac:(set_solver)) as (_ & Uq & Aq). apply page_is_other; [done | done | | lia | by apply (page_is_kept st st1)].
    intros ->. by apply NoDup_cons in D as [D1 _]. }
  apply (HQ _ _ (Some (i, f))). constructor; cbn [frames ram device_base with_device with_ram with_frames dev_frames dev_word fst snd refcounts cr3 spaces next_as].
  - apply Ht.
  - change (p0 :: p1 :: pds ++ [f]) with ((p0 :: p1 :: pds) ++ [f]). apply Forall_app. split; [|by constructor]. eapply Forall_impl; [exact N|]. intros q [_ Hq]. by apply K1.
  - change (p0 :: p1 :: pds ++ [f]) with ((p0 :: p1 :: pds) ++ [f]). apply NoDup_app. split_and!; [done | | apply NoDup_singleton]. intros q Hq Hd%list_elem_of_singleton. by subst.
  - done.
  - apply (page_is_set m p0 i _ (root_word s fw p1)); [by apply (page_is_kept st st1) | done].
  - apply Hother; [set_solver | done].
  - intros k d Hk. apply Hother; [apply list_elem_of_lookup_2 in Hk; set_solver | by apply M].
  - split_and!; [lia | lia | done |]. apply page_is_other; [done | done | intros ->; set_solver | lia |]. intros j Hj. by apply Hm.
  - unfold st1. cbn [refcounts cr3 spaces next_as with_ram with_frames]. rewrite Es. done.
Qed.

Lemma wp_build (n : nat) (Q : Z -> vm -> Prop) : enough n (frames s) -> (forall st, (n < 18)%nat -> kept s st -> Q 0 st) -> (forall st p0 p1 pds dev, p0 <> 0 -> booted s fw st p0 p1 pds dev -> Q p0 st) -> wp vmm_build_kernel_tables s Q.
Proof.
  intros Hen HN HS. unfold vmm_build_kernel_tables. pose proof (kept_refl s Hs) as Kr. apply vm_bind, vm_get. cbv zeta. set (fw0 := fw) in *. destruct (frame_aligned true _ fw0 Hs Hfw) as [Afw _].
  apply vm_bind, wp_alloc_full; [done | intros E%(enough_none n); [|done]; apply (vm_ret 0), HN; [lia | done]|]. intros p0 F0 Hp0 T0. pose proof (enough_taken _ _ _ _ T0 Hen) as Hen1. replace (p0 =? 0) with false by lia. destruct (kept_take s s p0 F0 Kr T0) as [K0 Ff0].
  assert (U0 : used F0 p0) by (apply T0; by left). destruct (frame_aligned true F0 p0 (proj1 T0) U0) as [A0 _].
  apply vm_bind, wp_zero_page. intros m0 Hm0. assert (K1 : kept s (with_ram m0 (with_frames F0 s))) by (by apply (kept_fill s (with_frames F0 s) p0 (fun _ => 0) m0)).
  apply vm_bind, wp_copy; [lia | done | done | intros E; rewrite E in Hfw; exact (used_not_free _ _ Hfw Ff0) |]. intros m1 [Hm1 Hm1']. cbn [ram with_ram with_frames] in Hm1, Hm1'.
  set (st1 := with_ram m1 (with_ram m0 (with_frames F0 s))).
  assert (Hroot : page_is m1 p0 (fun i => if i <? 256 then 0 else rd (ram s) (slot fw0 i))).
  { intros i Hi. destruct (Z.ltb_spec i 256).
    - rewrite Hm1'; [by apply Hm0|]. intros j Hj E. apply slot_inj in E as [_ E]; [lia | done | done | lia | lia].
    - rewrite Hm1 by lia. apply (ke_mem _ _ K1); [done | lia]. }
  assert (K2 : kept s st1).
  { destruct K1 as [(m' & F' & E) H1 H2 H3 H4]. constructor; [by exists m1, F0 | done | done | done |]. intros q j Hq Hj. cbn [st1 ram with_ram]. rewrite Hm1'; [by apply H4|].
    intros i Hi E'. apply slot_inj in E' as [-> _]; [exact (used_not_free _ _ Hq Ff0) | exact (proj1 (frame_aligned true _ q Hs Hq)) | done | lia | lia]. }
  apply vm_bind, wp_alloc_full; [apply T0 | intros E%(enough_none (n - 1)); [|done]; apply (vm_ret 0), HN; [lia | done]|]. intros p1 F1 Hp1 T1. replace (p1 =? 0) with false by lia. change (frames (with_ram m1 (with_ram m0 (with_frames F0 s)))) with (frames st1) in T1. fold st1.
  destruct (kept_take s st1 p1 F1 K2 T1) as [K3 Ff1]. destruct (kept_take st1 st1 p1 F1 (kept_refl st1 (ke_frames _ _ K2)) T1) as [K3' Fs1].
  assert (U1 : used F1 p1) by (apply T1; by left). destruct (frame_aligned true F1 p1 (proj1 T1) U1) as [A1 _]. assert (H01 : p0 <> p1) by (intros ->; exact (used_not_free _ _ U0 Fs1)).
  apply vm_bind, wp_zero_page. intros m2 Hm2. set (st2 := with_ram m2 (with_frames F1 st1)). assert (K4 : kept s st2) by (by apply (kept_fill s (with_frames F1 st1) p1 (fun _ => 0) m2)).
  assert (K4' : kept st1 st2) by (by apply (kept_fill st1 (with_frames F1 st1) p1 (fun _ => 0) m2)).
  apply vm_bind, wp_write64. destruct (kept_write s st2 p0 0 (table_word p1) K4 Ff0 ltac:(lia) A0) as [K5 _]. cbn [ram with_ram with_frames]. change (Z.lor (Z.lor p1 VMM_PAGE_PRESENT) VMM_PAGE_WRITE) with (table_word p1).
  assert (B0 : built s fw0 p0 p1 [] (with_ram (<[slot p0 0 := table_word p1]> m2) st2)).
  { constructor; [exact K5 | | | | |].
    - constructor; [split; [done | by apply K4'] | constructor; [done | constructor]].
    - constructor; [set_solver | apply NoDup_singleton].
    - apply (page_is_set m2 p0 0 _ (fun i => if i <? 256 then 0 else rd (ram s) (slot fw0 i))); [|done]. apply (page_is_kept st1 st2); [done | exact U0 | exact Hroot].
    - apply page_is_other; [done | done | congruence | lia |]. intros i Hi. by apply Hm2.
    - done. }
  apply vm_bind, (wp_loop (fun g st => exists pds, Z.of_nat (length pds) = g /\ built s fw0 p0 p1 pds st /\ enough (n - 2 - length pds) (frames st))); [done | exists []; split_and!; [done | done |] | |].
  - change (frames _) with F1. replace (n - 2 - length [])%nat with (n - 1 - 1)%nat by (cbn; lia). by apply (enough_taken _ (frames st1) p1).
  - intros g st Hg (pds & Hl & B & Hen2). unfold VMM_KERNEL_IDMAP_GIB in *. pose proof (bu_kept _ _ _ _ _ _ B) as K.
    apply vm_bind, wp_alloc_full; [apply K | intros E%(enough_none (n - 2 - length pds)); [|done]; apply (vm_ret (Some 0)), (vm_ret 0), HN; [lia | done]|].
    intros d F Hd Ht. replace (d =? 0) with false by lia. apply vm_bind, map_words. intros m Hm. apply vm_bind, wp_write64, (vm_ret None). exists (pds ++ [d]). split_and!; [rewrite length_app; cbn; lia | |].
    2:{ replace (n - 2 - length (pds ++ [d]))%nat with (n - 2 - length pds - 1)%nat by (rewrite length_app; cbn; lia). by apply (enough_taken _ (frames st) d). }
    subst g. apply (built_more s fw0 p0 p1 pds st d F m); [done | lia | done | done].
  - intros st (pds & Hl & B & _). unfold VMM_KERNEL_IDMAP_GIB in Hl. apply vm_bind, (wp_window p0 p1 pds st); [done | lia |]. intros r st' dev Hb. apply (vm_ret p0). by apply (HS st' p0 p1 pds dev).
Qed.
End boot.

Lemma window_index di : 0 <= di < 512 -> index (Z.lor 0xffff000000000000 (Z.shiftl di 39)) 39 = di.
Proof.
  intros H. unfold index. rewrite Z.shiftr_lor, Z.shiftr_shiftl_l, Z.sub_diag, Z.shiftl_0_r by lia. rewrite Z.land_lor_distr_l. change (Z.land (Z.shiftr 0xffff000000000000 39) 0x1FF) with 0.
  rewrite Z.lor_0_l. change 0x1FF with (Z.ones 9). rewrite Z.land_ones by lia. by apply Z.mod_small.
Qed.

Section kernel.
Context (s : vm) (fw : Z) (st : vm) (p0 p1 : Z) (pds : list Z) (dev : option (Z * Z)) (B : booted s fw st p0 p1 pds dev).
Context (Hsp : forall b x, spaces st !! b = Some x -> b = KERNEL /\ pml4_phys x = p0).

Lemma boot_frame f : f ∈ p0 :: p1 :: pds ++ dev_frames dev -> used (frames st) f /\ aligned f.
Proof. intros Hf. assert (Hu : used (frames st) f) by (by apply (proj1 (Forall_forall _ _) (bo_used _ _ _ _ _ _ _ B))). split; [done | apply (frame_aligned true (frames st)); [apply B | done]]. Qed.

(** The frames of the kernel, by path. *)
Definition boot_path path f : Prop := (path = [] /\ f = p0) \/ (path = [0] /\ f = p1) \/ (exists k : nat, path = [0; Z.of_nat k] /\ pds !! k = Some f) \/ (exists di, path = [di] /\ dev = Some (di, f)).

Lemma root_entry i : head st KERNEL i -> let e := rd (ram st) (slot p0 i) in
  (i = 0 /\ e = table_word p1) \/ (e = 0 /\ i <> 0) \/ exists f, dev = Some (i, f) /\ e = table_word f.
Proof.
  intros Hi e. assert (Hr : 0 <= i < 512) by (destruct Hi as [?|(_ & _ & ->)]; [lia | apply index_range]). pose proof (bo_root _ _ _ _ _ _ _ B i Hr) as E. fold e in E.
  pose proof (bo_dev _ _ _ _ _ _ _ B) as D. unfold dev_word, root_word in E. destruct dev as [[di f]|].
  - destruct D as (Hdi & Hb & _). destruct (Z.eqb_spec i di) as [->|Hne]; [right; right; by exists f|]. destruct (Z.eqb_spec i 0); [by left | right; left].
    destruct Hi as [Hi|(_ & _ & Hi)]; [by replace (i <? 256) with true in E by lia|]. rewrite Hb, window_index in Hi by lia. lia.
  - destruct (Z.eqb_spec i 0); [by left | right; left]. destruct Hi as [Hi|(_ & Hi & _)]; [by replace (i <? 256) with true in E by lia | done].
Qed.

Lemma boot_owned n b path f : owned n st b path f -> b = KERNEL /\ boot_path path f.
Proof.
  intros (x & Hx & [Hi Hh] & _ & E). destruct (Hsp b x Hx) as [-> Ep]. rewrite Ep in E. split; [done|]. destruct path as [|i rest]; [left; split; [done | by injection E]|].
  destruct (boot_frame p1 ltac:(set_solver)) as [_ A1]. apply Forall_inv_tail in Hi. cbn [reach] in E. destruct (root_entry i Hh) as [[-> Ee]|[[Ee _]|(fd & Ed & Ee)]]; rewrite Ee in E; clear Ee; [| done |].
  - destruct (table_word_bits p1 A1) as (_ & T1 & T2 & T3 & _). unfold own_next at 1 in E. rewrite T1, T2, T3 in E. cbn [andb negb Nat.eqb] in E.
    destruct rest as [|g rest]; [right; left; split; [done | by injection E]|]. pose proof (Forall_inv Hi) as Hg. cbn beta in Hg. apply Forall_inv_tail in Hi. cbn [reach] in E. rewrite (bo_dirs _ _ _ _ _ _ _ B g Hg) in E. unfold dirs_word in E.
    destruct (pds !! Z.to_nat g) as [d|] eqn:Ed; [|done]. destruct (boot_frame d) as [_ Ad]; [apply list_elem_of_lookup_2 in Ed; set_solver|].
    destruct (table_word_bits d Ad) as (_ & U1 & U2 & U3 & _). unfold own_next at 1 in E. rewrite U1, U2, U3 in E. cbn [andb negb Nat.eqb] in E.
    destruct rest as [|i rest]; [right; right; left; exists (Z.to_nat g); rewrite Z2Nat.id by lia; injection E as <-; by split|].
    pose proof (Forall_inv Hi) as Hi'. cbn [reach] in E. rewrite (bo_maps _ _ _ _ _ _ _ B _ d Ed i Hi') in E. pose proof (lookup_lt_Some _ _ _ Ed) as Hlt. rewrite (bo_len _ _ _ _ _ _ _ B) in Hlt.
    destruct (map_word_bits (Z.of_nat (Z.to_nat g)) i ltac:(lia) Hi') as (_ & _ & V1 & V2 & _). unfold own_next in E. rewrite V1, V2 in E. done.
  - destruct (boot_frame fd) as [_ Ad]; [rewrite Ed; cbn [dev_frames]; set_solver|]. destruct (table_word_bits fd Ad) as (_ & U1 & U2 & U3 & _). unfold own_next at 1 in E. rewrite U1, U2, U3 in E. cbn [andb negb Nat.eqb] in E.
    destruct rest as [|j rest]; [do 3 right; exists i; split; [done | by injection E as <-]|]. pose proof (Forall_inv Hi) as Hj. pose proof (bo_dev _ _ _ _ _ _ _ B) as D. rewrite Ed in D. destruct D as (_ & _ & D). cbn [reach] in E. by rewrite (D j Hj) in E.
Qed.

(** Where a frame stands in the list of all says which path leads to it. *)
Definition path_at (k : nat) : list Z :=
  match k with O => [] | 1%nat => [0] | S (S j) => if (j <? 16)%nat then [0; Z.of_nat j] else match dev with Some (di, _) => [di] | None => [] end end.

Lemma boot_path_at path f : boot_path path f -> exists k, (p0 :: p1 :: pds ++ dev_frames dev) !! k = Some f /\ path = path_at k.
Proof.
  pose proof (bo_len _ _ _ _ _ _ _ B) as Hl. intros [[-> ->]|[[-> ->]|[(k & -> & Hk)|(di & -> & Hd)]]]; [by exists 0%nat | by exists 1%nat | |].
  - exists (S (S k)). pose proof (lookup_lt_Some _ _ _ Hk). cbn [lookup list_lookup path_at]. split; [by apply lookup_app_l_Some|]. by replace (k <? 16)%nat with true by (symmetry; apply Nat.ltb_lt; lia).
  - exists 18%nat. rewrite Hd. cbn [path_at dev_frames]. split; [|by rewrite Hd]. change (p0 :: p1 :: pds ++ [f]) with ((p0 :: p1 :: pds) ++ [f]). rewrite lookup_app_r by (cbn; lia). cbn [length]. by rewrite Hl.
Qed.

Lemma word_zero_ok (k : nat) : entry_ok KERNEL k 0.
Proof. by intros ?. Qed.

Lemma word_table_ok (k : nat) f : aligned f -> entry_ok KERNEL k (table_word f).
Proof. intros Hf _. destruct (table_word_bits f Hf) as (T0 & T1 & T2 & T3 & T4 & T5). cbn [Z.eqb KERNEL]. split_and!; [done | done | done | congruence]. Qed.

Lemma boot_entries path t i : owned 3 st KERNEL path t -> path_ok st KERNEL (path ++ [i]) -> entry_ok KERNEL (length path) (entry_at st t i).
Proof.
  intros Ho Hp. pose proof (path_ok_last _ _ _ _ Hp) as Hi. unfold entry_at. destruct (boot_owned _ _ _ _ Ho) as [_ [[-> ->]|[[-> ->]|[(k & -> & Hk)|(di & -> & Hd)]]]].
  - destruct Hp as [_ Hh]. destruct (root_entry i Hh) as [[_ ->]|[[-> _]|(fd & Ed & ->)]]; [| by apply word_zero_ok |]; apply word_table_ok; apply boot_frame; [set_solver | rewrite Ed; cbn [dev_frames]; set_solver].
  - rewrite (bo_dirs _ _ _ _ _ _ _ B i Hi). unfold dirs_word. destruct (pds !! Z.to_nat i) as [d|] eqn:Ed; [|by apply word_zero_ok]. apply word_table_ok, boot_frame. apply list_elem_of_lookup_2 in Ed. set_solver.
  - rewrite (bo_maps _ _ _ _ _ _ _ B k t Hk i Hi). pose proof (lookup_lt_Some _ _ _ Hk) as Hlt. rewrite (bo_len _ _ _ _ _ _ _ B) in Hlt.
    destruct (map_word_bits (Z.of_nat k) i ltac:(lia) Hi) as (V0 & V1 & V2 & V3 & V4 & V5 & V6). intros _. cbn [Z.eqb KERNEL]. split_and!; [done | done | done |]. intros _ _. split; [cbn; lia | exact V6].
  - pose proof (bo_dev _ _ _ _ _ _ _ B) as D. rewrite Hd in D. destruct D as (_ & _ & D). rewrite (D i Hi). by apply word_zero_ok.
Qed.

Lemma booted_ok n : is_Some (spaces st !! KERNEL) -> 0 < next_as st -> refcounts st = pmm_frame_refcount_init -> ok n st.
Proof.
  intros [k Hk] Hn Hr. constructor.
  - apply B.
  - intros b path f [_ H]%boot_owned. destruct (boot_path_at path f H) as (j & Hj & _). apply boot_frame. by apply list_elem_of_lookup_2 in Hj.
  - intros b c path path' f [-> H]%boot_owned [-> H']%boot_owned. split; [done|]. destruct (boot_path_at path f H) as (j & Hj & ->), (boot_path_at path' f H') as (j' & Hj' & ->).
    f_equal. by apply (proj1 (NoDup_alt _) (bo_nodup _ _ _ _ _ _ _ B) j j' f).
  - intros b x Hx. destruct (Hsp b x Hx) as [-> _]. unfold KERNEL. lia.
  - by exists k.
  - intros b x k' i Hx Hk' _. destruct (Hsp b x Hx) as [_ ->], (Hsp KERNEL k' Hk') as [_ ->]. done.
  - intros b path t i Ho Hp. destruct (boot_owned _ _ _ _ Ho) as [-> _]. by apply boot_entries.
  - done.
Qed.

(** The first 16 GiB are mapped to themselves, for the kernel only. *)
Lemma identity_parts va : 0 <= va < 16 * 2 ^ 30 -> index va 39 = 0 /\ 0 <= index va 30 < 16 /\ va = index va 30 * 2 ^ 30 + index va 21 * 2 ^ 21 + page_offset 2 va.
Proof.
  intros Hva. unfold index, page_offset. change 0x1FF with (Z.ones 9). rewrite !Z.land_ones, !Z.shiftr_div_pow2 by lia. change (shift_of 2) with 21.
  rewrite (Z.div_small va (2 ^ 39)) by lia. assert (va / 2 ^ 30 < 16) by (apply Z.div_lt_upper_bound; lia). assert (0 <= va / 2 ^ 30) by (apply Z.div_pos; lia).
  rewrite (Z.mod_small (va / 2 ^ 30)) by lia. split_and!; [done | done | done |]. replace (va / 2 ^ 30) with (va / 2 ^ 21 / 2 ^ 9) by (rewrite Z.div_div by lia; done).
  pose proof (Z.div_mod va (2 ^ 21) ltac:(lia)). pose proof (Z.div_mod (va / 2 ^ 21) (2 ^ 9) ltac:(lia)). lia.
Qed.

Lemma booted_identity va : is_Some (spaces st !! KERNEL) -> 0 <= va < 16 * 2 ^ 30 -> walk_of st KERNEL va = Some (va, true, false).
Proof.
  intros [k Hk] Hva. destruct (identity_parts va Hva) as (I0 & I1 & I2). unfold walk_of. rewrite Hk. destruct (Hsp _ _ Hk) as [_ ->]. rewrite walk_root, I0. cbv zeta.
  destruct (root_entry 0 ltac:(left; lia)) as [[_ ->]|[[_ ?]|(fd & Ed & _)]]; [| done | pose proof (bo_dev _ _ _ _ _ _ _ B) as D; rewrite Ed in D; lia].
  destruct (boot_frame p1 ltac:(set_solver)) as [_ A1]. destruct (table_word_bits p1 A1) as (_ & -> & -> & -> & -> & ->). cbn [negb orb walk]. change (shift_of 3) with 30.
  rewrite (bo_dirs _ _ _ _ _ _ _ B (index va 30)) by lia. unfold dirs_word. destruct (pds !! Z.to_nat (index va 30)) as [d|] eqn:Ed; [|apply lookup_ge_None in Ed; rewrite (bo_len _ _ _ _ _ _ _ B) in Ed; lia].
  destruct (boot_frame d) as [_ Ad]; [apply list_elem_of_lookup_2 in Ed; set_solver|]. destruct (table_word_bits d Ad) as (_ & -> & -> & -> & -> & ->). cbn [negb orb Nat.eqb]. change (shift_of 2) with 21.
  pose proof (index_range va 21) as Hi. rewrite (bo_maps _ _ _ _ _ _ _ B _ d Ed _ Hi). rewrite Z2Nat.id by lia. destruct (map_word_bits (index va 30) (index va 21) I1 Hi) as (_ & -> & -> & -> & -> & -> & _). cbn [negb orb Nat.eqb andb].
  by rewrite <- I2.
Qed.
End kernel.

(** ** [vmm_init] *)
Lemma wp_init s k (n : nat) (Q : unit -> vm -> Prop) : frames_ok (frames s) -> enough n (frames s) -> device_base s = 0 -> used (frames s) (Z.land (cr3 s) VMM_PTE_PHYS_MASK) -> kernel_tables_built s = false ->
  spaces s = {[KERNEL := k]} -> 0 < next_as s -> refcounts s = pmm_frame_refcount_init ->
  (forall s', (n < 18)%nat -> cr3 s' = cr3 s -> root_of s' KERNEL = Some (Z.ldiff (cr3 s) 0xFFF) -> same_on (frames s) (ram s) (ram s') -> Q tt s') ->
  (forall s', ok 4 s' -> root_of s' KERNEL = Some (cr3 s') -> (forall va, 0 <= va < 16 * 2 ^ 30 -> walk_of s' KERNEL va = Some (va, true, false)) -> Q tt s') ->
  wp vmm_init s Q.
Proof.
  intros Hs Hen Hd Hfw Hb Hk Hn Hr HN HS. assert (Hkk : spaces s !! KERNEL = Some k) by (rewrite Hk; apply lookup_singleton_eq).
  unfold vmm_init. apply vm_bind, vm_get. rewrite Hb. apply vm_bind, vm_bind, (wp_build s Hs Hd Hfw n); [done | |].
  - intros st Hlt K. destruct (ke_state _ _ K) as (m' & F' & Es). assert (Hks : spaces st !! KERNEL = Some k) by (by rewrite Es). apply vm_bind. eapply wp_read_as; [exact Hks|]. apply vm_bind. change (truthy 0) with false. cbv iota.
    eapply wp_write_as; [exact Hks|]. apply wp_upd, vm_bind. eapply wp_read_as; [apply lookup_insert_eq|]. apply vm_bind. eapply wp_write_as; [apply lookup_insert_eq|]. apply wp_upd. apply HN; [done | | |].
    + by rewrite Es.
    + unfold root_of. cbn [spaces with_spaces with_stats with_built]. by rewrite lookup_insert_eq.
    + apply K.
  - intros st p0 p1 pds dev Hp0 B. pose proof (bo_same _ _ _ _ _ _ _ B) as (E1 & E2 & E3 & E4). assert (Hks : spaces st !! KERNEL = Some k) by (by rewrite E3).
    apply vm_bind. eapply wp_read_as; [exact Hks|]. unfold truthy. replace (p0 =? 0) with false by lia. cbn [negb]. apply vm_bind, vm_bind, wp_upd. eapply wp_write_as; [exact Hks|].
    apply wp_upd, vm_bind. eapply wp_read_as; [apply lookup_insert_eq|]. apply vm_bind. eapply wp_write_as; [apply lookup_insert_eq|]. apply wp_upd.
    match goal with |- Q tt ?x => set (s' := x) end.
    assert (Hsp : forall b x, spaces s' !! b = Some x -> b = KERNEL /\ pml4_phys x = p0).
    { intros b x Hx. cbn [s' spaces with_spaces with_stats with_built with_cr3] in Hx. rewrite insert_insert_eq, E3, Hk in Hx. apply lookup_insert_Some in Hx as [[<- <-]|[Hne Hx]]; [done|]. by apply lookup_singleton_Some in Hx as [? _]. }
    assert (Hsk : is_Some (spaces s' !! KERNEL)) by (cbn [s' spaces with_spaces with_stats with_built with_cr3]; rewrite lookup_insert_eq; by eexists).
    assert (B' : booted (with_cr3 p0 (with_spaces (spaces s') s)) (Z.land (cr3 s) VMM_PTE_PHYS_MASK) s' p0 p1 pds dev) by (destruct B; by constructor).
    apply HS.
    + apply (booted_ok _ _ s' p0 p1 pds dev B' Hsp); [done | cbn; lia | by rewrite <- Hr, <- E1].
    + unfold root_of. cbn [s' spaces with_spaces with_stats with_built with_cr3 cr3]. by rewrite lookup_insert_eq.
    + intros va Hva. by apply (booted_identity _ _ s' p0 p1 pds dev B' Hsp).
Qed.
