(* ===== verification/VmmSystem.v ===== *)
(** * Virtual memory: the system

    Runs of the operations of [Vmm] from a state in which no frame is owned twice: every
    operation has an outcome, no other address space is touched, and a page open to user
    mode is a frame of its own.  The properties of the single operations follow, and then
    what fork does instead: the copies share frames the counters know nothing of. *)
From S2P Require Import Prelude Pmm Vmm VmmTables VmmOwn VmmOps VmmCreate VmmDestroy VmmFault VmmActive VmmCow VmmBoot.
Local Open Scope capy_scope.

Implicit Types (s : vm) (m : gmap Z Z) (lvl : nat) (a b p q f g t i j v e va : Z) (path pre rest : list Z) (x : vmm_address_space) (F : pmm).

(** ** Loading a page (elf_loader.c) *)

(** One turn of the loop that maps a segment: whether a frame was there. *)
Definition elf_load_page (a va flags : Z) : VM Z :=
  bind alloc_page (fun phys => if phys =? 0 then ret (-1) else bind (zero_page phys) (fun _ => bind (vmm_map_page (Some a) va phys flags) (fun _ => ret 0))).

(** ** Operations *)
Inductive op :=
  | Create
  | Load (a va flags : Z)
  | Unmap (a va : Z)
  | Register (a start page_count flags : Z)
  | Clear (a : Z)
  | Switch (a : Z)
  | Fault (a va : Z)
  | Destroy (a : Z).

Definition run (o : op) : VM unit :=
  match o with
  | Create => bind vmm_create_address_space (fun _ => ret tt)
  | Load a va flags => bind (elf_load_page a va flags) (fun _ => ret tt)
  | Unmap a va => bind (vmm_unmap_page (Some a) va) (fun _ => ret tt)
  | Register a start page_count flags => bind (vmm_register_anon_region (Some a) start page_count flags) (fun _ => ret tt)
  | Clear a => vmm_clear_anon_regions (Some a)
  | Switch a => vmm_switch_address_space (Some a)
  | Fault a va => bind (upd (with_current (Some a))) (fun _ => bind (vmm_handle_page_fault va 4) (fun _ => ret tt))
  | Destroy a => vmm_destroy_address_space (Some a)
  end.

(** The address space an operation is about. *)
Definition target (o : op) : option Z :=
  match o with Create | Switch _ | Register _ _ _ _ | Clear _ => None | Load a _ _ | Unmap a _ | Fault a _ | Destroy a => Some a end.

(** No entry on the way to [va] above the page table is a huge leaf. *)
Fixpoint small_pages m lvl p va : bool :=
  match lvl with
  | O => true
  | S l => if (lvl =? 1)%nat then true else
      let e := rd m (slot p (index va (shift_of lvl))) in negb (present e) || negb (huge e) && small_pages m l (addr_of e) va
  end.

(** What the callers see to: the space is a live one of a process, the page is in the
    lower half and not below a huge leaf of the kernel's, and the flags are for user
    mode. *)
Definition user_flags (flags : Z) : bool := (0 <=? flags) && (Z.land flags VMM_PTE_PHYS_MASK =? 0) && user flags.
Definition live s a : bool := match spaces s !! a with Some _ => true | None => false end.
Definition page_ok s a va : bool :=
  match spaces s !! a with Some x => negb (a =? KERNEL) && (index va 39 <? 256) && small_pages (ram s) 4 (pml4_phys x) va | None => false end.
Definition admissible (o : op) s : bool :=
  match o with
  | Create => true
  | Load a va flags => page_ok s a va && user_flags flags
  | Unmap a va => page_ok s a va
  | Register a _ _ _ | Clear a | Switch a => live s a
  | Fault a va => page_ok s a va && match spaces s !! a with
      Some x => match find_region (anon_regions x) va with Some r => user_flags (an_flags r) | None => true end | None => false end
  | Destroy a => match spaces s !! a with
      Some x => negb (a =? KERNEL) && (as_refcount x =? 1) && negb (Z.land (cr3 s) VMM_CR3_PHYS_MASK =? Z.land (pml4_phys x) VMM_CR3_PHYS_MASK) | None => false end
  end.

Fixpoint run_all (os : list op) : VM unit := match os with [] => ret tt | o :: os => bind (run o) (fun _ => run_all os) end.
Fixpoint admissible_all (os : list op) s : bool :=
  match os with
  | [] => true
  | o :: os => admissible o s && match run o s with Some (_, s') => admissible_all os s' | None => false end
  end.

(** ** Steps *)
Lemma small_pages_path m lvl p va pre i rest q : small_pages m lvl p va = true -> va_path lvl va = pre ++ i :: rest -> (length pre < lvl - 1)%nat ->
  reach m lvl p pre = Some q -> present (rd m (slot q i)) = true -> huge (rd m (slot q i)) = false.
Proof.
  revert lvl p. induction pre as [|j pre IH]; intros lvl p Hs Hva Hl Hr Hp; (destruct lvl as [|l]; [done|]); cbn [small_pages va_path app reach length] in *; injection Hva as Hi Hva.
  - injection Hr as ->. replace (S l =? 1)%nat with false in Hs by (symmetry; apply Nat.eqb_neq; lia). rewrite Hi, Hp in Hs. cbn [negb orb] in Hs. by destruct (huge _).
  - replace (S l =? 1)%nat with false in Hs by (symmetry; apply Nat.eqb_neq; lia). rewrite Hi in Hs. unfold own_next in Hr.
    replace (S l =? 1)%nat with false in Hr by (symmetry; apply Nat.eqb_neq; lia). destruct (present (rd m (slot p j))); [|done]. cbn [negb orb] in Hs.
    destruct (huge (rd m (slot p j))); [done|]. cbn [negb andb] in *. apply (IH l _ Hs Hva ltac:(lia) Hr Hp).
Qed.

Lemma small_pages_at s a x va : spaces s !! a = Some x -> small_pages (ram s) 4 (pml4_phys x) va = true -> no_huge_at s a va.
Proof.
  intros Hx Hs pre i rest q Hva Hl (x' & Hx' & _ & _ & Hr) Hp. replace x' with x in * by congruence. by apply (small_pages_path _ 4 (pml4_phys x) va pre i rest q).
Qed.

Lemma page_ok_spec s a va : page_ok s a va = true -> exists x, spaces s !! a = Some x /\ a <> KERNEL /\ index va 39 < 256 /\ no_huge_at s a va.
Proof.
  unfold page_ok. destruct (spaces s !! a) as [x|] eqn:Hx; [|done]. intros [[H1 H2]%andb_true_iff H3]%andb_true_iff. exists x. split_and!; [done | by apply negb_true_iff in H1; lia | lia | by apply (small_pages_at s a x)].
Qed.

Lemma user_flags_fit a flags : a <> KERNEL -> user_flags flags = true -> flags_fit a flags.
Proof.
  intros Ha [[H1 H2]%andb_true_iff H3]%andb_true_iff. split_and!; [split; lia | | done]. rewrite H3. by replace (a =? KERNEL) with false by lia.
Qed.

(** The invariant is kept, and only the lower half of the target is mapped anew. *)
Record stepped (touched : option Z) s s' : Prop := {
  st_ok : ok 4 s';
  st_next : next_as s <= next_as s';
  st_walk : forall b v, b < next_as s -> 0 <= index v 39 < 256 -> touched <> Some b -> walk_of s' b v = walk_of s b v }.

Section steps.
Context (s : vm) (Hok : ok 4 s).

Lemma stepped_like s' : like s s' -> frames s' = frames s -> refcounts s' = refcounts s -> next_as s' = next_as s -> forall t : option Z, stepped t s s'.
Proof.
  intros H Hf Hr Hn t. constructor; [by apply (ok_like 4 s) | lia |]. intros b v _ _ _. by apply walk_like.
Qed.

Lemma stepped_unmapped s' (t : option Z) : unmapped_same s s' -> stepped t s s'.
Proof. intros [H1 H2 H3 _]. constructor; [done | rewrite (rs_next _ _ H2); lia |]. intros b v _ Hv _. apply H3. by left. Qed.

Lemma stepped_demand a va flags s' : demand_paged a va flags s s' -> stepped (Some a) s s'.
Proof. intros [H1 H2 H3 _ _ _]. constructor; [done | rewrite (rs_next _ _ H2); lia |]. intros b v _ Hv Hb. apply H3; [by left | intros [-> _]; done]. Qed.

Lemma like_put a x y : spaces s !! a = Some x -> pml4_phys y = pml4_phys x -> like s (with_spaces (<[a := y]> (spaces s)) s).
Proof.
  intros Hx E. split; [done|]. split; [done|]. intros b. unfold root_of. cbn [spaces with_spaces].
  destruct (decide (b = a)) as [->|Hb]; [rewrite lookup_insert_eq, Hx; cbn; by rewrite E | by rewrite lookup_insert_ne].
Qed.

Lemma wp_load a va flags (Q : Z -> vm -> Prop) : page_ok s a va = true -> user_flags flags = true ->
  (forall s', unmapped_same s s' -> Q (-1) s') -> (forall s', unmapped_same s s' -> Q 0 s') -> (forall s', demand_paged a va flags s s' -> Q 0 s') -> wp (elf_load_page a va flags) s Q.
Proof.
  intros (x & Hx & Ha & Hh & Hnh)%page_ok_spec Hfl%(user_flags_fit a) H1 H2 H3; [|done].
  apply (wp_place s a x va va flags Hok Ha Hx Hfl Hh Hnh eq_refl (fun _ _ => ret 0)); [intros H _; by apply H1 | |]; intros f s' H; [intros _ _ _|]; apply (vm_ret 0); auto.
Qed.

Lemma stepped_create h (st : vm) p (t : option Z) : new_root (with_heap h s) st p -> stepped t s (with_new st p).
Proof.
  intros H. assert (Hoh : ok 4 (with_heap h s)) by (by apply (ok_like 4 s)). constructor.
  - by apply (with_new_ok 4 ltac:(lia) (with_heap h s)).
  - destruct (ke_state _ _ (nr_kept _ _ _ H)) as (m' & F' & ->). cbn. lia.
  - intros b v Hb Hv _. rewrite (old_walk 4 ltac:(lia) (with_heap h s) st p b v Hoh H); [done | cbn; lia | by left].
Qed.

Lemma stepped_kept h s' (t : option Z) : kept (with_heap h s) s' -> stepped t s s'.
Proof.
  intros H. assert (Hoh : ok 4 (with_heap h s)) by (by apply (ok_like 4 s)). constructor.
  - by apply (kept_ok 4 ltac:(lia) (with_heap h s)).
  - destruct (ke_state _ _ H) as (m' & F' & ->). cbn. lia.
  - intros b v _ Hv _. rewrite (kept_walk 4 ltac:(lia) (with_heap h s) s' b v Hoh H); [done | by left].
Qed.

Lemma stepped_destroyed a s' : destroyed s a s' -> stepped (Some a) s s'.
Proof.
  intros H. constructor; [apply H | destruct (de_state _ _ _ H) as [F' ->]; cbn; lia|]. intros b v _ _ Hb. apply (de_walk _ _ _ H). congruence.
Qed.
End steps.

Lemma live_spec s a : live s a = true -> exists x, spaces s !! a = Some x.
Proof. unfold live. destruct (spaces s !! a) as [x|]; [by exists x | done]. Qed.

Lemma wp_fault s a x va (Q : unit -> vm -> Prop) : ok 4 s -> spaces s !! a = Some x -> page_ok s a va = true ->
  match find_region (anon_regions x) va with Some r => user_flags (an_flags r) = true | None => True end ->
  (forall s', stepped (Some a) s s' -> Q tt s') -> wp (run (Fault a va)) s Q.
Proof.
  intros Hok Hx Hp Hr HQ. apply vm_bind, wp_upd, vm_bind. unfold vmm_handle_page_fault, vmm_handle_page_fault_with. change (vmm_map_page_with zero_page) with vmm_map_page. apply vm_bind, wp_upd.
  set (s1 := with_stats _ (with_current (Some a) s)). assert (Hl : like s s1) by done. assert (Hok1 : ok 4 s1) by (by apply (ok_like 4 s)).
  assert (Hback : forall s', stepped (Some a) s1 s' -> Q tt s').
  { intros s' [H1 H2 H3]. apply HQ. constructor; [done | exact H2 |]. intros b v Hb Hv Ht. rewrite H3 by done. done. }
  apply vm_bind. cbn [wp vmm_current_address_space]. apply vm_bind, vm_get, vm_ret. change (current_as s1) with (Some a). cbv iota.
  change (truthy (Z.land 4 1)) with false. cbv iota.
  destruct (page_ok_spec _ _ _ Hp) as (x' & Hx' & Ha & Hh & Hnh). replace x' with x in * by congruence. destruct (find_region (anon_regions x) va) as [r|] eqn:Er.
  - apply (wp_demand s1 a x va r); [done | done | done | done | by apply user_flags_fit | done | exact Hnh | |]; [intros s' H _ | intros s' H]; apply vm_ret, Hback; [by apply stepped_unmapped | by eapply stepped_demand].
  - apply vm_bind. unfold vmm_anon_region_find. apply vm_bind. eapply wp_read_as; [exact Hx|]. apply vm_ret. rewrite Er. apply (vm_ret (-1)), (vm_ret tt), Hback. by apply stepped_like.
Qed.

(** Every admissible operation has an outcome and keeps to its target. *)
Lemma wp_run o s (Q : unit -> vm -> Prop) : ok 4 s -> admissible o s = true -> (forall s', stepped (target o) s s' -> Q tt s') -> wp (run o) s Q.
Proof.
  intros Hok Ho HQ. destruct o as [|a va flags|a va|a start c flags|a|a|a va|a]; cbn [run admissible target] in *.
  - apply vm_bind, (wp_create_space 4 ltac:(lia)); [done | |]; intros; apply vm_ret, HQ; [by eapply stepped_kept | by eapply stepped_create].
  - apply andb_true_iff in Ho as [Hp Hf]. apply vm_bind, wp_load; [done..| | |]; intros s' H; apply vm_ret, HQ; [by apply stepped_unmapped | by apply stepped_unmapped | by eapply stepped_demand].
  - destruct (page_ok_spec _ _ _ Ho) as (x & Hx & Ha & Hh & Hnh). pose proof (index_range va 39). apply vm_bind, (wp_unmap_page 4 ltac:(lia) a x va); [done | done | left; lia | done | |].
    + intros _. apply vm_ret, HQ. by apply stepped_like.
    + intros s' L R. apply vm_ret, HQ. constructor; [apply L | rewrite (rs_next _ _ R); lia |]. intros b v _ Hv Hb. apply (ls_walk _ _ _ _ _ _ L); [by left | intros [-> _]; done].
  - destruct (live_spec _ _ Ho) as [x Hx]. apply vm_bind. unfold vmm_register_anon_region. destruct (c =? 0); [apply (vm_ret (-1)), vm_ret, HQ; by apply stepped_like|].
    cbv zeta. destruct (_ <=? start); [apply (vm_ret (-1)), vm_ret, HQ; by apply stepped_like|]. apply vm_bind. eapply wp_read_as; [exact Hx|].
    destruct (existsb _ _); [apply (vm_ret (-1)), vm_ret, HQ; by apply stepped_like|]. apply vm_bind, wp_kmalloc. intros b h. destruct (negb b); [apply (vm_ret (-1)), vm_ret, HQ; by apply stepped_like|].
    apply vm_bind. eapply wp_write_as; [exact Hx|]. apply vm_ret, vm_ret, HQ. apply stepped_like; [done | | done | done | done]. by apply (like_put s a x).
  - destruct (live_spec _ _ Ho) as [x Hx]. unfold vmm_clear_anon_regions. apply vm_bind. eapply wp_read_as; [exact Hx|]. eapply wp_write_as; [exact Hx|]. apply HQ.
    apply stepped_like; [done | | done | done | done]. by apply (like_put s a x).
  - destruct (live_spec _ _ Ho) as [x Hx]. unfold vmm_switch_address_space. apply vm_bind. eapply wp_read_as; [exact Hx|]. apply vm_bind, vm_get.
    destruct (negb _); [apply wp_upd | apply vm_ret]; apply HQ; by apply stepped_like.
  - apply andb_true_iff in Ho as [Hp Hr]. destruct (spaces s !! a) as [x|] eqn:Hx; [|done]. apply (wp_fault s a x va); [done | done | done | by destruct (find_region _ va) | done].
  - destruct (spaces s !! a) as [x|] eqn:Hx; [|done]. apply andb_true_iff in Ho as [[H1%negb_true_iff H2]%andb_true_iff H3%negb_true_iff].
    apply (wp_destroy s a x); [done | lia | done | lia | lia |]. intros s' H. apply HQ. by apply stepped_destroyed.
Qed.

Lemma stepped_trans s1 s2 s3 (T : list (option Z)) (t : option Z) : stepped t s1 s2 ->
  ok 4 s3 /\ next_as s2 <= next_as s3 /\ (forall b v, b < next_as s2 -> 0 <= index v 39 < 256 -> Some b ∉ T -> walk_of s3 b v = walk_of s2 b v) ->
  ok 4 s3 /\ next_as s1 <= next_as s3 /\ (forall b v, b < next_as s1 -> 0 <= index v 39 < 256 -> Some b ∉ t :: T -> walk_of s3 b v = walk_of s1 b v).
Proof.
  intros [A1 A2 A3] (B1 & B2 & B3). split_and!; [done | lia |]. intros b v Hb Hv Hn. apply not_elem_of_cons in Hn as [Hn1 Hn2].
  rewrite B3, A3; [done | done | done | congruence | lia | done | done].
Qed.

Lemma run_all_ok os s : ok 4 s -> admissible_all os s = true -> exists s', run_all os s = Some (tt, s') /\ ok 4 s' /\ next_as s <= next_as s' /\
  forall b v, b < next_as s -> 0 <= index v 39 < 256 -> Some b ∉ map target os -> walk_of s' b v = walk_of s b v.
Proof.
  revert s. induction os as [|o os IH]; intros s Hok Ha; [by exists s|]. cbn [admissible_all run_all map] in *. apply andb_true_iff in Ha as [Ha1 Ha2].
  destruct (vm_elim _ _ _ (wp_run o s (fun _ s' => stepped (target o) s s') Hok Ha1 (fun _ H => H))) as ([] & s1 & E & H1). rewrite E in Ha2.
  destruct (IH s1 (st_ok _ _ _ H1) Ha2) as (s' & E' & H2). exists s'. unfold bind. rewrite E. split; [done|]. by apply (stepped_trans s s1 s').
Qed.

(** ** Where user mode gets *)


Lemma wp_elim_0 (m : VM Z) s (Q : vm -> Prop) : wp m s (fun r s' => r = 0 /\ Q s') -> exists s', m s = Some (0, s') /\ Q s'.
Proof. intros H. destruct (vm_elim _ _ _ H) as (r & s' & E & -> & HQ). by exists s'. Qed.

(** ** A demonstration *)
Definition demo_start : vm := mkVm (pmm_init (fun _ => true) (0, 0) [mkRegion 0x100000 0x10000 1]) pmm_frame_refcount_init ∅ 0x1000
  (<[1 := mkAs 0x2000 1 0 [mkAnon 0x800000 0x804000 0x6]]> {[ KERNEL := mkAs 0x1000 1 0 [] ]}) 2 [] (Some 1) (mkVmStats 0 0 0 0) true 0 0 0.
Definition USER_RW : Z := Z.lor VMM_PAGE_USER VMM_PAGE_WRITE.
Definition after (os : list op) s : vm := match run_all os s with Some (_, s') => s' | None => s end.

Lemma demo_spaces b x : spaces demo_start !! b = Some x -> (b = KERNEL /\ pml4_phys x = 0x1000) \/ (b = 1 /\ pml4_phys x = 0x2000).
Proof.
  cbn [spaces demo_start]. intros [[<- <-]|[_ E]]%lookup_insert_Some; [by right | left]. by apply lookup_singleton_Some in E as [<- <-].
Qed.

Lemma reach_empty lvl p path f : reach ∅ lvl p path = Some f -> path = [] /\ f = p.
Proof. destruct path as [|i path]; [by intros [= ->]|]. destruct lvl as [|l]; [done|]. cbn [reach]. unfold rd. by rewrite lookup_empty. Qed.

Lemma demo_owned n b path f : owned n demo_start b path f -> path = [] /\ ((b = KERNEL /\ f = 0x1000) \/ (b = 1 /\ f = 0x2000)).
Proof.
  intros (x & Hx & _ & _ & E). change (ram demo_start) with (∅ : gmap Z Z) in E. apply reach_empty in E as [-> ->]. split; [reflexivity|].
  destruct (demo_spaces b x Hx) as [[-> ->]|[-> ->]]; [left | right]; split; reflexivity.
Qed.

Lemma demo_frame q : 0 < q < 272 -> bitmap_test q (pmm_bitmap (frames demo_start)) = true -> used (frames demo_start) (q * 4096).
Proof. intros Hq Hb. assert (E : pmm_total_pages (frames demo_start) = 272) by (vm_compute; reflexivity). exists q. rewrite E. split; [reflexivity | split; [exact Hq | exact Hb]]. Qed.

Lemma demo_start_ok : ok 4 demo_start.
Proof.
  constructor.
  - split; [exact demo_pmm_wf | vm_compute; reflexivity].
  - intros b path f [_ [[_ ->]|[_ ->]]]%demo_owned; [apply (demo_frame 1) | apply (demo_frame 2)]; (lia || (vm_compute; reflexivity)).
  - intros b c path path' f [-> H]%demo_owned [-> H']%demo_owned. split; [unfold KERNEL in *; lia | reflexivity].
  - intros b x [[-> _]|[-> _]]%demo_spaces; split; reflexivity || discriminate.
  - exists (mkAs 0x1000 1 0 []). reflexivity.
  - intros b x k i _ _ _. unfold entry_at, rd. change (ram demo_start) with (∅ : gmap Z Z). by rewrite !lookup_empty.
  - intros b path t i _ _. unfold entry_ok, entry_at, rd. change (ram demo_start) with (∅ : gmap Z Z). rewrite lookup_empty. discriminate.
  - reflexivity.
Qed.

Lemma demo_after os : admissible_all os demo_start = true -> ok 4 (after os demo_start).
Proof. intros H. destruct (run_all_ok os _ demo_start_ok H) as (s' & E & Hok & _). unfold after. by rewrite E. Qed.

(** A machine as the firmware leaves it, with 32 pages for the allocator. *)
Definition demo_boot : vm := mkVm (pmm_init (fun _ => true) (0, 0) [mkRegion 0x100000 0x20000 1]) pmm_frame_refcount_init ∅ 0x1000
  {[ KERNEL := mkAs 0 0 0 [] ]} 1 [] None (mkVmStats 0 0 0 0) false 0 0 0.

Lemma demo_boot_ok : frames_ok (frames demo_boot).
Proof.
  split; [|vm_compute; reflexivity]. apply pmm_init_spec; [repeat constructor; simpl; unfold PMM_PAGE_SIZE; lia | simpl; done].
Qed.

Lemma enough_from F q0 (n : nat) : 0 < q0 -> q0 + Z.of_nat n <= pmm_total_pages F ->
  forallb (fun k => negb (bitmap_test (q0 + Z.of_nat k) (pmm_bitmap F))) (seq 0 n) = true -> enough n F.
Proof.
  intros H1 H2 H3. exists ((fun k => (q0 + Z.of_nat k) * 4096) <$> seq 0 n). split_and!.
  - apply (NoDup_fmap_2_strong _ (seq 0 n)); [lia | apply NoDup_seq].
  - by rewrite length_fmap, length_seq.
  - apply Forall_fmap, Forall_forall. intros k Hk. cbn. exists (q0 + Z.of_nat k). pose proof (proj1 (elem_of_seq 0 n k) Hk). split_and!; [done | lia | lia |].
    apply (proj1 (forallb_forall _ _)) with (x := k) in H3; [by apply negb_true_iff in H3 | by apply list_elem_of_In].
Qed.

(** ** Properties *)

(** C34. At boot [vmm_init] installs the kernel's own tables when 18 frames are free: the first
    16 GiB are mapped to themselves, writable and closed to user mode, and no frame is
    owned twice.  With less memory it may keep the firmware's tables, and then changes no
    frame in use. *)
Theorem vmm_init_correct s k (n : nat) : frames_ok (frames s) -> enough n (frames s) -> device_base s = 0 -> used (frames s) (Z.land (cr3 s) VMM_PTE_PHYS_MASK) ->
  kernel_tables_built s = false -> spaces s = {[KERNEL := k]} -> 0 < next_as s -> refcounts s = pmm_frame_refcount_init ->
  exists s', vmm_init s = Some (tt, s') /\
    ((ok 4 s' /\ root_of s' KERNEL = Some (cr3 s') /\ forall va, 0 <= va < 16 * 2 ^ 30 -> walk_of s' KERNEL va = Some (va, true, false)) \/
     ((n < 18)%nat /\ cr3 s' = cr3 s /\ root_of s' KERNEL = Some (Z.ldiff (cr3 s) 0xFFF) /\ same_on (frames s) (ram s) (ram s'))).
Proof.
  intros H1 H2 H3 H4 H5 H6 H7 H8. assert (W : wp vmm_init s (fun _ s' => (ok 4 s' /\ root_of s' KERNEL = Some (cr3 s') /\ forall va, 0 <= va < 16 * 2 ^ 30 -> walk_of s' KERNEL va = Some (va, true, false)) \/
     ((n < 18)%nat /\ cr3 s' = cr3 s /\ root_of s' KERNEL = Some (Z.ldiff (cr3 s) 0xFFF) /\ same_on (frames s) (ram s) (ram s')))).
  { apply (wp_init s k n); [done.. | |]; intros s' *; [by right | by left]. }
  destruct (vm_elim _ _ _ W) as ([] & s' & E & H). by exists s'.
Qed.
Lemma vmm_init_correct_witness : enough 18 (frames demo_boot) /\ exists s', vmm_init demo_boot = Some (tt, s') /\ ok 4 s' /\ walk_of s' KERNEL 0x123456789 = Some (0x123456789, true, false).
Proof.
  assert (He : enough 18 (frames demo_boot)) by (apply (enough_from _ 0x101); [done | vm_compute; discriminate | vm_compute; reflexivity]). split; [exact He|].
  destruct (vmm_init_correct demo_boot (mkAs 0 0 0 []) 18 demo_boot_ok He) as (s' & E & [(Hok & _ & Hw)|(H & _)]).
  - reflexivity.
  - exists 1. assert (Et : pmm_total_pages (frames demo_boot) = 288) by (vm_compute; reflexivity). rewrite Et. split; [reflexivity | split; [lia | vm_compute; reflexivity]].
  - reflexivity.
  - reflexivity.
  - reflexivity.
  - reflexivity.
  - exists s'. split; [exact E | split; [exact Hok | apply Hw; lia]].
  - lia.
Defined.


Lemma kernel_private s v pa w u : ok 4 s -> 0 <= index v 39 < 256 -> walk_of s KERNEL v = Some (pa, w, u) -> u = false.
Proof.
  intros Hok Hv. destruct (ok_kernel 4 s Hok) as [k Hk]. unfold walk_of. rewrite Hk, walk_root. cbv zeta.
  pose proof (owned_root 3 s KERNEL k Hk) as Ho. assert (Hp : path_ok s KERNEL ([] ++ [index v 39])) by (split; [constructor; [lia | constructor] | by left]).
  pose proof (ok_entries 4 s Hok KERNEL [] (pml4_phys k) (index v 39) Ho Hp) as He. unfold entry_ok, entry_at in He. cbn [Z.eqb KERNEL] in He.
  destruct (present _); cbn [negb orb]; [|done]. destruct (He eq_refl) as (_ & -> & _). destruct (huge _); [done|]. destruct (walk _ 3 _ v) as [[[pa' w'] u']|]; [|done].
  intros [= _ _ <-]. apply andb_false_r.
Qed.

(** C3. A new address space is made of frames that were free, maps in its lower half what the
    kernel maps through entry 0, all of it closed to user mode; the other address spaces
    map there what they did, frames in use stay in use with their contents, and the page
    counters are untouched.  When memory runs out there is no new address space and only
    frames that were free have changed; some may be taken for good. *)
Theorem vmm_create_correct s : ok 4 s -> exists r s', vmm_create_address_space s = Some (r, s') /\ ok 4 s' /\
  (forall b v, b < next_as s -> 0 <= index v 39 < 256 -> walk_of s' b v = walk_of s b v) /\
  (forall g, used (frames s) g -> used (frames s') g) /\ same_on (frames s) (ram s) (ram s') /\ refcounts s' = refcounts s /\
  match r with
  | None => exists m F h, s' = with_ram m (with_frames F (with_heap h s))
  | Some a => a = next_as s /\ (exists p, spaces s' = <[a := mkAs p 1 0 []]> (spaces s)) /\ (forall path g, owned 4 s' a path g -> free (frames s) g) /\
      forall v, 0 <= index v 39 < 256 -> walk_of s' a v = (if index v 39 =? 0 then walk_of s KERNEL v else None) /\ forall pa w u, walk_of s' a v = Some (pa, w, u) -> u = false
  end.
Proof.
  intros Hok. assert (Hoh : forall h, ok 4 (with_heap h s)) by (intros h; by apply (ok_like 4 s)).
  apply (vm_elim vmm_create_address_space s (fun r s' => _)), (wp_create_space 4 ltac:(lia)); [done | |].
  - intros h s' K. destruct (stepped_kept s Hok h s' None K) as [H1 H2 H3]. destruct (ke_state _ _ K) as (m' & F' & E).
    split_and!; [done | intros b v Hb Hv; by apply H3 | apply K | apply K | by rewrite E | by exists m', F', h].
  - intros h st p H. destruct (stepped_create s Hok h st p None H) as [H1 H2 H3]. pose proof (nr_kept _ _ _ H) as K. destruct (ke_state _ _ K) as (m' & F' & Es).
    split_and!; [done | intros b v Hb Hv; by apply H3 | exact (ke_used _ _ K) | exact (ke_mem _ _ K) | by rewrite Es | done | exists p; by rewrite Es | |].
    + intros path g Ho. apply (with_new_owned 4 ltac:(lia) (with_heap h s) st p (next_as s) path g (Hoh h) H) in Ho as [[Hne _]|(_ & Hp1 & Hp2 & _ & Hr)]; [done|].
      destruct (ok_kernel 4 s Hok) as [k Hk]. destruct (new_reach 4 ltac:(lia) (with_heap h s) st p path g k H Hk (Hoh h) Hp1 ltac:(destruct path; [done | lia]) Hr) as [[_ ->]|(rest & q & st1 & -> & Hi & K1 & _ & Ht & _ & Hrest)]; [apply (nr_root _ _ _ H)|].
      destruct (tr_frames _ _ _ _ _ Ht rest g Hi Hrest) as [Hf _]. exact (kept_free _ _ _ K1 Hf).
    + intros v Hv. pose proof (new_walk 4 ltac:(lia) (with_heap h s) st p v (Hoh h) H Hv) as Ew. change (next_as (with_heap h s)) with (next_as s) in Ew. split; [exact Ew|].
      intros pa w u. rewrite Ew. destruct (index v 39 =? 0); [|done]. by apply (kernel_private (with_heap h s)).
Qed.
Lemma vmm_create_correct_witness : exists s', vmm_create_address_space demo_start = Some (Some 2, s') /\ ok 4 s'.
Proof.
  destruct (vmm_create_correct demo_start demo_start_ok) as (r & s' & E & Hok & _). exists s'. split; [|exact Hok]. rewrite E. f_equal. f_equal.
  apply (f_equal (option_map fst)) in E. vm_compute in E. by injection E as ->.
Defined.

(** C4. Mapping a page of the lower half to a frame that nothing else owns succeeds when three
    frames are free for tables: the page's entry is the frame, all the flags asked for and
    the present bit, its addresses lead to the frame, and [vmm_virt_to_phys] says so;
    unmapping clears the entry.  Neither changes where another lower-half address leads, of
    any address space, and a mapping that fails changes none. *)
Theorem vmm_map_unmap_correct s a va phys flags : ok 4 s -> page_ok s a va = true -> aligned phys -> user_flags flags = true ->
  used (frames s) phys -> (forall b path, owned 4 s b path phys -> b = a /\ path = va_path 4 va) ->
  exists r s1, vmm_map_page (Some a) va phys flags s = Some (r, s1) /\ ok 4 s1 /\
    (forall b v, 0 <= index v 39 < 256 -> r = -1 \/ ~ (b = a /\ va_path 4 v = va_path 4 va) -> walk_of s1 b v = walk_of s b v) /\
    (r = -1 /\ ~ enough 3 (frames s) \/ r = 0 /\
      (exists p, fst <$> vmm_walk_to_leaf (Some a) va s1 = Some (Some p) /\ rd (ram s1) p = Z.lor (Z.lor phys flags) VMM_PAGE_PRESENT) /\
      (forall v, va_path 4 v = va_path 4 va -> walk_of s1 a v = Some (phys + page_offset 1 v, writable flags, true)) /\
      vmm_virt_to_phys (Some a) va s1 = Some (phys + page_offset 1 va, s1) /\
      exists s2, vmm_unmap_page (Some a) va s1 = Some (0, s2) /\ ok 4 s2 /\ walk_of s2 a va = None /\ vmm_virt_to_phys (Some a) va s2 = Some (0, s2) /\
        forall b v, 0 <= index v 39 < 256 -> ~ (b = a /\ va_path 4 v = va_path 4 va) -> walk_of s2 b v = walk_of s b v).
Proof.
  intros Hok (x & Hx & Ha & Hh & Hnh)%page_ok_spec Hpa Hfl%(user_flags_fit a) Hpu Hpo; [|done]. pose proof (index_range va 39) as Hi.
  apply (vm_elim (vmm_map_page (Some a) va phys flags) s (fun r s' => _)), (wp_map_page 4 ltac:(lia) a x); [done | done | by left; lia | by left | done | done | done | done | |].
  - intros s1 G Hlow. split_and!; [apply G | intros b v Hv _; apply (gr_walk _ _ _ _ G); by left | by left].
  - intros s0 s1 G L R. destruct (rest_space s s1 a x (rest_trans _ _ _ (grown_rest _ _ _ _ G) R) Hx) as (x1 & Hx1 & _).
    assert (Hw1 : forall b v, 0 <= index v 39 < 256 -> ~ (b = a /\ va_path 4 v = va_path 4 va) -> walk_of s1 b v = walk_of s b v).
    { intros b v Hv Hne. rewrite (ls_walk _ _ _ _ _ _ L); [apply (gr_walk _ _ _ _ G); by left | by left | done]. }
    destruct (entry_bits phys flags Hpa (proj1 Hfl)) as (Ea & Ep & Eu & Ew & _).
    assert (Hat : forall v, va_path 4 v = va_path 4 va -> walk_of s1 a v = Some (phys + page_offset 1 v, writable flags, true)).
    { intros v Hv. rewrite (ls_at _ _ _ _ _ _ L v Ha Hv), Ep, Ea, Ew, Eu, (proj1 (proj2 Hfl)). by replace (a =? KERNEL) with false by lia. }
    assert (Hnh1 : no_huge_at s1 a va) by (apply (ls_huge _ _ _ _ _ _ L), (gr_huge _ _ _ _ G); exact Hnh). assert (Hin : forall st, in_head st a va) by (intros st; left; lia).
    split_and!; [apply L | intros b v Hv [?|Hne]; [done | by apply Hw1] | right]. split_and!; [done | | done | |].
    + destruct (ls_word _ _ _ _ _ _ L) as (pt & Hpt & Hword). exists (slot pt (index va 12)). split; [|exact Hword].
      by apply (leaf_slot 4 ltac:(lia) a x1 va pt s1); [apply L | done | done | done | done | rewrite (Hat va eq_refl)].
    + assert (E : wp (vmm_virt_to_phys (Some a) va) s1 (fun r s' => r = phys + page_offset 1 va /\ s' = s1)).
      { apply (wp_virt_to_phys 4 ltac:(lia) a x1); [apply L | done | done | done | done |]. by rewrite (Hat va eq_refl). }
      by destruct (vm_elim _ _ _ E) as (r & s' & -> & -> & ->).
    + apply (wp_elim_0 (vmm_unmap_page (Some a) va) s1). apply (wp_unmap_page 4 ltac:(lia) a x1); [apply L | done | done | done | by rewrite (Hat va eq_refl) |].
      intros s2 L2 R2. split; [done|]. destruct (rest_space s1 s2 a x1 R2 Hx1) as (x2 & Hx2 & _).
      assert (Hn : walk_of s2 a va = None) by (by rewrite (ls_at _ _ _ _ _ _ L2 va Ha eq_refl)). split_and!; [apply L2 | done | |].
      * assert (E : wp (vmm_virt_to_phys (Some a) va) s2 (fun r s' => r = 0 /\ s' = s2)).
        { apply (wp_virt_to_phys 4 ltac:(lia) a x2); [apply L2 | done | done | by apply (ls_huge _ _ _ _ _ _ L2) | done |]. by rewrite Hn. }
        by destruct (vm_elim _ _ _ E) as (r & s' & -> & -> & ->).
      * intros b v Hv Hne. rewrite (ls_walk _ _ _ _ _ _ L2); [by apply Hw1 | by left | done].
Qed.
Lemma vmm_map_unmap_correct_witness : page_ok demo_start 1 0x400123 = true /\ exists s1, vmm_map_page (Some 1) 0x400123 0x3000 USER_RW demo_start = Some (0, s1) /\ vmm_virt_to_phys (Some 1) 0x400123 s1 = Some (0x3123, s1).
Proof.
  split; [vm_compute; reflexivity|].
  destruct (vmm_map_unmap_correct demo_start 1 0x400123 0x3000 USER_RW demo_start_ok) as (r & s1 & E & _ & _ & Hr).
  - vm_compute. reflexivity.
  - exists 3. split; [reflexivity | lia].
  - reflexivity.
  - apply (demo_frame 3); [lia | vm_compute; reflexivity].
  - intros b path [_ [[_ H]|[_ H]]]%demo_owned; lia.
  - exists s1. assert (r = 0) as -> by (apply (f_equal (option_map fst)) in E; vm_compute in E; by injection E as <-).
    split; [exact E|]. destruct Hr as [[Hr _]|(_ & _ & _ & -> & _)]; [discriminate Hr | reflexivity].
Defined.

(** C5. Destroying an address space of one user that is not active gives back exactly the
    frames it owns; the others keep theirs, and their addresses lead where they did. *)
Theorem vmm_destroy_frees_owned s a x : ok 4 s -> a <> KERNEL -> spaces s !! a = Some x -> as_refcount x = 1 -> Z.land (cr3 s) VMM_CR3_PHYS_MASK <> Z.land (pml4_phys x) VMM_CR3_PHYS_MASK ->
  exists s', vmm_destroy_address_space (Some a) s = Some (tt, s') /\ ok 4 s' /\ spaces s' = delete a (spaces s) /\
    (forall g, used (frames s') g <-> used (frames s) g /\ ~ exists path, owned 4 s a path g) /\
    forall b, b <> a -> (forall path g, owned 4 s b path g -> used (frames s') g) /\ forall v, walk_of s' b v = walk_of s b v.
Proof.
  intros Hok Ha Hx Hrc Hcr. destruct (vm_elim _ _ _ (wp_destroy s a x (fun _ s' => destroyed s a s') Hok Ha Hx Hcr Hrc (fun _ H => H))) as ([] & s' & E & H).
  exists s'. pose proof (de_ok _ _ _ H) as Hok'. split_and!; [done | done | destruct (de_state _ _ _ H) as [F' ->]; done | apply (sh_used _ _ _ (de_frames _ _ _ H)) |].
  intros b Hb. split; [|intros v; by apply (de_walk _ _ _ H)]. intros path g Hg. apply (ok_used 4 s' Hok' b path). by apply (de_owned _ _ _ H).
Qed.
Lemma vmm_destroy_frees_owned_witness : let s := after [Load 1 0x400000 USER_RW] demo_start in
  ok 4 s /\ exists s', vmm_destroy_address_space (Some 1) s = Some (tt, s') /\ pmm_free_count (frames s') = pmm_free_count (frames demo_start) + 1.
Proof.
  cbv zeta. set (s := after _ _). assert (Hok : ok 4 s) by (apply demo_after; vm_compute; reflexivity). split; [exact Hok|].
  destruct (spaces s !! 1) as [x|] eqn:Hx; [|vm_compute in Hx; discriminate Hx].
  destruct (vmm_destroy_frees_owned s 1 x Hok) as (s' & E & _); [discriminate | exact Hx | vm_compute in Hx; by injection Hx as <- | vm_compute in Hx; injection Hx as <-; vm_compute; discriminate |].
  exists s'. split; [exact E|]. assert (Es : s' = match vmm_destroy_address_space (Some 1) s with Some (_, s1) => s1 | None => s end) by (by rewrite E).
  rewrite Es. vm_compute. reflexivity.
Defined.

(** Tables that map the first two megabytes to themselves, for the kernel. *)
Definition demo_mapped : vm := with_cr3 0x2000 (with_ram (<[0x2000 := 0x3007]> (<[0x3000 := 0x4007]> (<[0x4000 := 0x83]> ∅))) demo_start).

Lemma mapped_entry p i : p = 0x1000 \/ p = 0x2000 \/ p = 0x3000 \/ p = 0x4000 -> 0 <= i < 512 ->
  entry_at demo_mapped p i = if i =? 0 then if p =? 0x2000 then 0x3007 else if p =? 0x3000 then 0x4007 else if p =? 0x4000 then 0x83 else 0 else 0.
Proof.
  intros Hp Hi. unfold entry_at. cbn [ram demo_mapped with_cr3 with_ram]. rewrite !rd_insert. unfold rd at 1. rewrite lookup_empty. cbn [default]. unfold slot.
  destruct (Z.eqb_spec i 0) as [->|Hi0]; [by destruct Hp as [->|[->|[->| ->]]]|].
  replace (p + 8 * i =? 0x2000) with false by lia. replace (p + 8 * i =? 0x3000) with false by lia. replace (p + 8 * i =? 0x4000) with false by lia. done.
Qed.

Lemma mapped_owned n b path f : owned n demo_mapped b path f ->
  (b = KERNEL /\ path = [] /\ f = 0x1000) \/ (b = 1 /\ ((path = [] /\ f = 0x2000) \/ (path = [0] /\ f = 0x3000) \/ (path = [0; 0] /\ f = 0x4000))).
Proof.
  intros (x & Hx & [Hr _] & _ & E). assert (Hs : forall lvl p (l : list Z), p = 0x1000 \/ p = 0x2000 \/ p = 0x3000 \/ p = 0x4000 -> Forall (fun i => 0 <= i < 512) l -> reach (ram demo_mapped) (S lvl) p l = Some f ->
    (l = [] /\ f = p) \/ exists l', l = 0 :: l' /\ exists q, own_next (S lvl) (entry_at demo_mapped p 0) = Some q /\ reach (ram demo_mapped) lvl q l' = Some f).
  { intros lvl p l Hp Hl H. destruct l as [|i l]; [left; split; [done | by injection H]|]. right. cbn [reach] in H. fold (entry_at demo_mapped p i) in H. pose proof (Forall_inv Hl) as Hi. cbn beta in Hi.
    destruct (Z.eqb_spec i 0) as [->|Hi0]; [exists l; split; [done|]; destruct (own_next _ _) as [q|]; [by exists q | done]|].
    rewrite mapped_entry in H by done. replace (i =? 0) with false in H by lia. by rewrite own_next_0 in H. }
  destruct (demo_spaces b x Hx) as [[-> Ep]|[-> Ep]]; rewrite Ep in E.
  - destruct (Hs 3%nat 0x1000 path ltac:(lia) Hr E) as [[-> ->]|(l & -> & q & Eq & _)]; [by left|]. rewrite mapped_entry in Eq by lia. discriminate Eq.
  - right. split; [done|]. destruct (Hs 3%nat 0x2000 path ltac:(lia) Hr E) as [[-> ->]|(l & -> & q & Eq & E1)]; [by left|]. right. rewrite mapped_entry in Eq by lia. vm_compute in Eq. injection Eq as <-.
    destruct (Hs 2%nat 0x3000 l ltac:(lia) (Forall_inv_tail Hr) E1) as [[-> ->]|(l1 & -> & q & Eq & E2)]; [by left|]. right. rewrite mapped_entry in Eq by lia. vm_compute in Eq. injection Eq as <-.
    destruct (Hs 1%nat 0x4000 l1 ltac:(lia) (Forall_inv_tail (Forall_inv_tail Hr)) E2) as [[-> ->]|(l2 & -> & q & Eq & E3)]; [done|]. rewrite mapped_entry in Eq by lia. vm_compute in Eq. discriminate Eq.
Qed.

Lemma mapped_ok : ok 4 demo_mapped.
Proof.
  constructor.
  - split; [exact demo_pmm_wf | vm_compute; reflexivity].
  - intros b path f H. destruct (mapped_owned _ _ _ _ H) as [(_ & _ & ->)|[_ [[_ ->]|[[_ ->]|[_ ->]]]]]; [apply (demo_frame 1) | apply (demo_frame 2) | apply (demo_frame 3) | apply (demo_frame 4)]; (lia || (vm_compute; reflexivity)).
  - intros b c path path' f H%mapped_owned H'%mapped_owned. destruct H as [(-> & -> & ->)|[-> H]], H' as [(-> & -> & E)|[-> H']].
    + done.
    + destruct H' as [[_ E]|[[_ E]|[_ E]]]; discriminate E.
    + subst f. destruct H as [[_ E]|[[_ E]|[_ E]]]; discriminate E.
    + split; [done|]. destruct H as [[-> ->]|[[-> ->]|[-> ->]]], H' as [[-> E]|[[-> E]|[-> E]]]; (reflexivity || discriminate E).
  - intros b x [[-> _]|[-> _]]%demo_spaces; split; reflexivity || discriminate.
  - exists (mkAs 0x1000 1 0 []). reflexivity.
  - intros b x k i Hx Hk Hi. assert (Hp : forall c y, spaces demo_mapped !! c = Some y -> entry_at demo_mapped (pml4_phys y) i = 0).
    { intros c y [[_ ->]|[_ ->]]%demo_spaces; rewrite mapped_entry by lia; by replace (i =? 0) with false by lia. }
    by rewrite (Hp b x Hx), (Hp _ k Hk).
  - intros b path t i Ho Hpi%path_ok_last. assert (Hz : i <> 0 -> forall p, p = 0x1000 \/ p = 0x2000 \/ p = 0x3000 \/ p = 0x4000 -> entry_ok b (length path) (entry_at demo_mapped p i)).
    { intros Hi p Hp. rewrite mapped_entry by done. replace (i =? 0) with false by lia. discriminate. }
    destruct (Z.eqb_spec i 0) as [->|Hi]; destruct (mapped_owned _ _ _ _ Ho) as [(-> & -> & ->)|[-> [[-> ->]|[[-> ->]|[-> ->]]]]]; try (apply Hz; [done | lia]); rewrite mapped_entry by lia; cbn.
    + discriminate.
    + intros _ _. split; reflexivity.
    + intros _ _. split; reflexivity.
    + intros _ _. split; [discriminate | reflexivity].
  - reflexivity.
Qed.

Lemma mapped_self : self_mapped 1 demo_mapped.
Proof.
  constructor; [reflexivity|]. intros f i (q & -> & Hq & _) Hi. assert (E : pmm_total_pages (frames demo_mapped) = 272) by (vm_compute; reflexivity). rewrite E in Hq. exists false.
  assert (Hix : forall sh, 21 <= sh -> index (slot (q * 4096) i) sh = 0).
  { intros sh Hsh. unfold index. rewrite Z.shiftr_div_pow2, Z.div_small; [done | | lia]. unfold slot. pose proof (Z.pow_le_mono_r 2 21 sh ltac:(lia) Hsh). change (2 ^ 21) with 2097152 in *. lia. }
  unfold walk_of. change (spaces demo_mapped !! 1) with (Some (mkAs 0x2000 1 0 [mkAnon 0x800000 0x804000 0x6])). cbv beta iota. cbn [pml4_phys walk]. change (shift_of 4) with 39. change (shift_of 3) with 30. change (shift_of 2) with 21. rewrite !Hix by lia.
  fold (entry_at demo_mapped 0x2000 0). rewrite (mapped_entry 0x2000 0) by lia. cbn [Z.eqb Pos.eqb]. change (negb (present 0x3007)) with false. change (huge 0x3007) with false. change (addr_of 0x3007) with 0x3000. cbn [Nat.eqb orb].
  fold (entry_at demo_mapped 0x3000 0). rewrite (mapped_entry 0x3000 0) by lia. cbn [Z.eqb Pos.eqb]. change (negb (present 0x4007)) with false. change (huge 0x4007) with false. change (addr_of 0x4007) with 0x4000. cbn [Nat.eqb orb].
  fold (entry_at demo_mapped 0x4000 0). rewrite (mapped_entry 0x4000 0) by lia. cbn [Z.eqb Pos.eqb]. change (negb (present 0x83)) with false. change (huge 0x83) with true. change (addr_of 0x83) with 0. cbn [Nat.eqb orb].
  replace (page_offset 2 (slot (q * 4096) i)) with (slot (q * 4096) i); [reflexivity|]. unfold page_offset. symmetry. apply Z.mod_small. change (2 ^ shift_of 2) with 2097152. unfold slot. lia.
Qed.

(** C36. A fault of the current process on a page that is not present, inside one of its
    registered regions and in its lower half, is handled when four frames are free: a free
    frame is filled with zeros, the page's entry becomes that frame, all the flags of the
    region and the present bit, and its addresses lead there.  Otherwise nothing is mapped.
    No other address and no page in use changes.  The zeros are stored at the frame's
    address through the process's own tables, which map the free frames to themselves. *)
Theorem vmm_demand_paging s a x va r error : ok 4 s -> current_as s = Some a -> self_mapped a s -> spaces s !! a = Some x -> page_ok s a va = true ->
  find_region (anon_regions x) va = Some r -> user_flags (an_flags r) = true -> Z.land error 1 = 0 ->
  exists c s', fault_active va error s = Some (c, s') /\ ok 4 s' /\
    (forall b v, 0 <= index v 39 < 256 -> c = -1 \/ ~ (b = a /\ va_path 4 v = va_path 4 va) -> walk_of s' b v = walk_of s b v) /\
    (forall g j, used (frames s) g -> (forall b path, ~ owned 3 s b path g) -> 0 <= j < 512 -> rd (ram s') (slot g j) = rd (ram s) (slot g j)) /\
    (c = -1 /\ ~ enough 4 (frames s) \/ c = 0 /\ exists f, free (frames s) f /\ used (frames s') f /\ (forall j, 0 <= j < 512 -> rd (ram s') (slot f j) = 0) /\
       (exists p, fst <$> vmm_walk_to_leaf (Some a) va s' = Some (Some p) /\ rd (ram s') p = Z.lor (Z.lor f (an_flags r)) VMM_PAGE_PRESENT) /\
       forall v, va_path 4 v = va_path 4 va -> walk_of s' a v = Some (f + page_offset 1 v, writable (an_flags r), true)).
Proof.
  intros Hok Hcur Hsm Hx (x' & Hx' & Ha & Hh & Hnh)%page_ok_spec Hr Hfl He. replace x' with x in * by congruence.
  assert (Hus : user (an_flags r) = true) by (unfold user_flags in Hfl; by destruct (user (an_flags r)); [|rewrite andb_false_r in Hfl]). apply (user_flags_fit a) in Hfl; [|done].
  rewrite (fault_same s a x va error Hok Ha Hcur Hsm Hx Hh Hnh) by (intros r' Hr'; by replace r' with r by congruence).
  apply (vm_elim (vmm_handle_page_fault va error) s (fun c s' => _)). unfold vmm_handle_page_fault, vmm_handle_page_fault_with. change (vmm_map_page_with zero_page) with vmm_map_page. apply vm_bind, wp_upd.
  set (s1 := with_stats _ s). assert (Hok1 : ok 4 s1) by (by apply (ok_like 4 s)).
  apply vm_bind. unfold vmm_current_address_space. apply vm_bind, vm_get, vm_ret. change (current_as s1) with (current_as s). rewrite Hcur, He. change (truthy 0) with false. cbv iota.
  apply (wp_demand s1 a x va r); [done | done | done | done | done | done | exact Hnh | |]; [intros s' H Hlow | intros s' H].
  - destruct H as [H1 H2 H3 H4]. split_and!; [done | intros b v Hv _; rewrite H3; [done | by left] | intros g j; by apply H4 | by left].
  - destruct H as [H1 H2 H3 (f & F1 & F2 & F3 & (pt & F4 & F5) & F6) H5 H6]. split_and!; [done | intros b v Hv [?|Hne]; [done | rewrite H3; [done | by left | done]] | intros g j; by apply H5 | right; split; [done|]].
    exists f. split_and!; [done | done | done | | done]. exists (slot pt (index va 12)). split; [|done]. destruct (rest_space s1 s' a x H2 Hx) as (x1 & Hx1 & _). pose proof (index_range va 39).
    apply (leaf_slot 4 ltac:(lia) a x1 va pt s'); [done | done | left; lia | by apply H6 | done | by rewrite (F6 va eq_refl)].
Qed.
Lemma vmm_demand_paging_witness : page_ok demo_mapped 1 0x801234 = true /\ exists s', fault_active 0x801234 4 demo_mapped = Some (0, s') /\ ok 4 s' /\ fst <$> vmm_virt_to_phys (Some 1) 0x801234 s' = Some 0x101234.
Proof.
  split; [vm_compute; reflexivity|].
  destruct (vmm_demand_paging demo_mapped 1 (mkAs 0x2000 1 0 [mkAnon 0x800000 0x804000 0x6]) 0x801234 (mkAnon 0x800000 0x804000 0x6) 4 mapped_ok) as (c & s' & E & Hok & _);
    [reflexivity | exact mapped_self | reflexivity | vm_compute; reflexivity | reflexivity | reflexivity | reflexivity |].
  exists s'. assert (c = 0) as -> by (apply (f_equal (option_map fst)) in E; vm_compute in E; by injection E as <-). split; [exact E | split; [exact Hok|]].
  assert (Es : s' = match fault_active 0x801234 4 demo_mapped with Some (_, s1) => s1 | None => demo_mapped end) by (by rewrite E).
  rewrite Es. vm_compute. reflexivity.
Defined.

(** What the stores through the tables do otherwise: the process has mapped a page of its
    own, in frame 0x9000, at 0x400000, where the next free frame is.  The fault clears that
    page and maps the frame with the word an earlier owner left in it. *)
Definition demo_covered : vm := mkVm (pmm_init (fun _ => true) (0, 0) [mkRegion 0x400000 0x10000 1]) pmm_frame_refcount_init
  (<[0x2000 := 0x3007]> (<[0x3000 := 0x4007]> (<[slot 0x4000 2 := 0x5007]> (<[0x5000 := 0x9007]> (<[slot 0x5000 1 := 0x401003]> (<[0x9008 := 11]> (<[0x400008 := 22]> ∅))))))) 0x2000
  (<[1 := mkAs 0x2000 1 0 [mkAnon 0x800000 0x804000 0x6]]> {[ KERNEL := mkAs 0x1000 1 0 [] ]}) 2 [] (Some 1) (mkVmStats 0 0 0 0) true 0 0 0.
Example fault_clears_covering_page :
  match fault_active 0x801234 4 demo_covered with
  | Some (0, s) => walk_of s 1 0x801008 = Some (0x400008, true, true) /\ rd (ram s) 0x400008 = 22 /\ walk_of s 1 0x400008 = Some (0x9008, true, true) /\ rd (ram s) 0x9008 = 0
  | _ => False
  end.
Proof. vm_compute. repeat split. Qed.




(** ** What fork does *)

(** A frame in use above 64 MiB, which no identity leaf of the low tables counts. *)
Definition demo_high : vm := with_frames (pmm_reserve_range 0x4001000 0x1000 (pmm_init (fun _ => true) (0, 0) [mkRegion 0x100000 0x10000 1; mkRegion 0x4001000 0x1000 1])) demo_start.

(** A run of it: the first write of the parent shows in the child, and when the child is
    destroyed the frame is free while the parent still maps it. *)
Example fork_run :
  match vmm_map_page (Some 1) 0x400000 0x4001000 USER_RW demo_high with
  | Some (0, s) =>
    match vmm_clone_address_space (Some 1) s with
    | Some (Some child, s1) =>
        walk_of s1 1 0x400000 = Some (0x4001000, false, true) /\ walk_of s1 child 0x400000 = Some (0x4001000, false, true) /\ pmm_frame_refcount_get 0x4001000 (refcounts s1) = 1 /\
        match vmm_handle_page_fault 0x400000 7 s1 with
        | Some (0, s2) => walk_of s2 1 0x400000 = Some (0x4001000, true, true) /\ walk_of s2 child 0x400000 = Some (0x4001000, false, true)
        | _ => False
        end /\
        match vmm_destroy_address_space (Some child) s1 with
        | Some (tt, s2) => walk_of s2 1 0x400000 = Some (0x4001000, false, true) /\ pmm_is_free 0x4001000 (frames s1) = false /\ pmm_is_free 0x4001000 (frames s2) = true
        | None => False
        end
    | _ => False
    end
  | _ => False
  end.
Proof. vm_compute. repeat split. Qed.

(** A page table at 0x3000 that maps one frame. *)
Definition demo_table : vm := with_ram (<[slot 0x3000 5 := 0x101007]> ∅) demo_start.

(** C38. Fork copies a page table into the child's: a present leaf that is open to user mode and
    writable becomes read-only and copy-on-write in both, another present leaf is copied,
    an absent one is skipped, and no other word changes.  The counter of a frame goes up by
    the number of leaves that map it.  So a frame that was mapped once and never shared,
    whose counter is 0, has two users and a counter of 1, and a write through either is
    decided as the only user's: the frame is opened in place. *)
Theorem fork_counts_one_user dst src s : aligned dst -> aligned src -> dst <> src -> refcounts_ok (refcounts s) ->
  exists m c, clone_pt_into 1 dst src s = Some (0, with_refcounts c (with_ram m s)) /\
    (forall i, 0 <= i < 512 -> let e := rd (ram s) (slot src i) in
       rd m (slot src i) = (if present e then shared_entry e else e) /\ rd m (slot dst i) = if present e then shared_entry e else rd (ram s) (slot dst i)) /\
    (forall q, (forall i, 0 <= i < 512 -> q <> slot src i /\ q <> slot dst i) -> rd m q = rd (ram s) q) /\
    (forall f, aligned f -> tracked f -> pmm_frame_refcount_get f c = Z.min 0xFFFF (pmm_frame_refcount_get f (refcounts s) + mappings (ram s) src f 512)) /\
    (forall i, 0 <= i < 512 -> let e := rd (ram s) (slot src i) in let f := addr_of e in
       present e = true -> user e = true -> writable e = true -> huge e = false -> tracked f -> mappings (ram s) src f 512 = 1 -> pmm_frame_refcount_get f (refcounts s) = 0 ->
       rd m (slot src i) = rd m (slot dst i) /\ action (vmm_cow_decide (rd m (slot dst i)) (fst (pmm_frame_refcount_dec f c))) = VMM_COW_REUSE).
Proof.
  intros Hd Hs Hne Hc. assert (W : wp (clone_pt_into 1 dst src) s (fun r s' => exists m c, (r = 0 /\ s' = with_refcounts c (with_ram m s)) /\ shared_upto dst src s 512 m c)).
  { apply wp_share; [done..|]. intros m c H. by exists m, c. }
  destruct (vm_elim _ _ _ W) as (r & s' & E & m & c & [-> ->] & H). exists m, c. split_and!; [exact E | apply H | apply H | apply H |].
  intros i Hi e f Hp Hu Hw Hh Ht Hm H0. destruct (su_done _ _ _ _ _ _ H i Hi) as [D1 D2]. fold e in D1, D2. rewrite Hp in D1, D2. split; [congruence|]. rewrite D2.
  pose proof (su_get _ _ _ _ _ _ H f (aligned_addr e) Ht) as Hg. rewrite H0, Hm in Hg. change (Z.min 65535 (0 + 1)) with 1 in Hg.
  rewrite dec_value, Hg by (done || apply H). unfold vmm_cow_decide. by rewrite shared_cow.
Qed.
Lemma fork_counts_one_user_witness : aligned 0x2000 /\ exists m c, clone_pt_into 1 0x2000 0x3000 demo_table = Some (0, with_refcounts c (with_ram m demo_table)) /\
  rd m (slot 0x2000 5) = 0x101205 /\ pmm_frame_refcount_get 0x101000 c = 1 /\ action (vmm_cow_decide (rd m (slot 0x2000 5)) (fst (pmm_frame_refcount_dec 0x101000 c))) = VMM_COW_REUSE.
Proof.
  assert (H2 : aligned 0x2000) by (exists 2; split; [reflexivity | lia]). assert (H3 : aligned 0x3000) by (exists 3; split; [reflexivity | lia]). split; [exact H2|].
  destruct (fork_counts_one_user 0x2000 0x3000 demo_table H2 H3 ltac:(discriminate) init_ok) as (m & c & E & H & _ & Hc & Hu). exists m, c. split; [exact E|].
  destruct (H 5 ltac:(lia)) as [_ H5]. assert (Ha : addr_of (rd (ram demo_table) (slot 0x3000 5)) = 0x101000) by (vm_compute; reflexivity).
  assert (Ht : tracked 0x101000) by (vm_compute; split; [discriminate | reflexivity]).
  assert (Hm : mappings (ram demo_table) 0x3000 0x101000 512 = 1) by (vm_compute; reflexivity).
  assert (H0 : pmm_frame_refcount_get 0x101000 (refcounts demo_table) = 0) by (vm_compute; reflexivity).
  split; [rewrite H5; vm_compute; reflexivity | split].
  - rewrite (Hc 0x101000), H0, Hm; [reflexivity | exists 0x101; split; [reflexivity | lia] | exact Ht].
  - rewrite <- Ha. apply (Hu 5); [lia | vm_compute; reflexivity.. | rewrite Ha; exact Ht | rewrite Ha; exact Hm | rewrite Ha; exact H0].
Defined.

