(* ===== verification/Ring.v ===== *)
(** * Ring buffers

    The arithmetic shared by the two circular buffers of the kernel
    (src/kernel/pipe.c and src/kernel/stdin_buf.c): a fixed array of
    [N] cells, a start index and a count.  [ring_contents] is the abstraction
    function to the queue of bytes. *)
From S2P Require Import Prelude.
Local Open Scope capy_scope.

Definition ring_contents (N : Z) (buf : list Z) (start count : Z) : list Z :=
  (fun k => buf.[(start + k) `mod` N]) <$> seqZ 0 count.

(** Store [src[0..n)] at [(wpos + i) % N]. *)
Definition ring_store (N : Z) (buf : list Z) (wpos n : Z) (src : list Z) : list Z :=
  for_range 0 n (fun i b => aset b ((wpos + i) `mod` N) src.[i]) buf.

(** Load [n] cells from [(rpos + i) % N] into [dst[0..n)]. *)
Definition ring_load (N : Z) (buf : list Z) (rpos n : Z) (dst : list Z) : list Z :=
  for_range 0 n (fun i d => aset d i buf.[(rpos + i) `mod` N]) dst.

Section ring.
Context (N : Z) (HN : 0 < N).
Implicit Types (buf src : list Z) (start count n i k : Z).

Lemma zlen_ring buf start count : 0 <= count -> zlen (ring_contents N buf start count) = count.
Proof. intros. unfold ring_contents, zlen. rewrite length_fmap, length_seqZ. lia. Qed.

Lemma aget_ring buf start count k : 0 <= k < count ->
  (ring_contents N buf start count).[k] = buf.[(start + k) `mod` N].
Proof.
  intros. unfold ring_contents, aget at 1. rewrite list_lookup_fmap, lookup_seqZ_lt by lia.
  simpl. do 2 f_equal. lia.
Qed.

Lemma mod_idx i : 0 <= i `mod` N < N.
Proof. by apply Z.mod_pos_bound. Qed.

(** Two offsets less than [N] apart fall on different cells. *)
Lemma mod_idx_ne i k : i < k < i + N -> i `mod` N <> k `mod` N.
Proof.
  intros Hk E. pose proof (Z.div_mod i N ltac:(lia)). pose proof (Z.div_mod k N ltac:(lia)).
  assert (k - i = N * (k / N - i / N)) by lia.
  destruct (Z.eq_dec (k / N) (i / N)); nia.
Qed.

Lemma zlen_ring_store buf w n src : 0 <= n -> zlen (ring_store N buf w n src) = zlen buf.
Proof.
  intros. unfold ring_store.
  apply (for_range_ind (fun _ b => zlen b = zlen buf)); [lia | done |].
  intros i b _ E. by rewrite zlen_aset.
Qed.

(** Cells reached by the store hold the source bytes, the others are unchanged. *)
Lemma aget_ring_store buf w n src k : zlen buf = N -> 0 <= n <= N -> 0 <= k < N ->
  (ring_store N buf w n src).[(w + k) `mod` N] =
  if k <? n then src.[k] else buf.[(w + k) `mod` N].
Proof.
  intros Hl Hn Hk. unfold ring_store.
  enough (forall m, 0 <= m <= n ->
    let b := for_range 0 m (fun i b => aset b ((w + i) `mod` N) src.[i]) buf in
    zlen b = N /\ forall k, 0 <= k < N ->
      b.[(w + k) `mod` N] = if k <? m then src.[k] else buf.[(w + k) `mod` N]) as H.
  { apply (H n); lia. }
  clear k Hk. intros m Hm. cbv zeta.
  apply (for_range_ind (fun m b => zlen b = N /\ forall k, 0 <= k < N ->
      b.[(w + k) `mod` N] = if k <? m then src.[k] else buf.[(w + k) `mod` N])); [lia | |].
  - split; [done|]. intros k Hk. by replace (k <? 0) with false by lia.
  - intros i b Hi [Hb Hget]. split; [by rewrite zlen_aset|]. intros k Hk.
    pose proof (mod_idx (w + i)). pose proof (mod_idx (w + k)).
    rewrite aget_aset by lia. destruct (Z.eqb_spec ((w + k) `mod` N) ((w + i) `mod` N)) as [E|E].
    + assert (k = i) as ->.
      { destruct (Z.lt_trichotomy k i) as [?|[?|?]]; [|done|];
          exfalso; revert E; [|intros E; symmetry in E; revert E]; apply mod_idx_ne; lia. }
      by replace (i <? i + 1) with true by lia.
    + rewrite Hget by done. destruct (Z.eq_dec k i) as [->|]; [done|].
      by replace (k <? i + 1) with (k <? i) by lia.
Qed.

(** Appending to the queue. *)
Lemma ring_push buf start count n src : zlen buf = N -> 0 <= count -> 0 <= n <= zlen src ->
  count + n <= N ->
  ring_contents N (ring_store N buf ((start + count) `mod` N) n src) start (count + n) =
  ring_contents N buf start count ++ ztake n src.
Proof.
  intros Hl Hc Hn Hfit. apply (array_ext 0).
  { rewrite zlen_app, !zlen_ring, zlen_take by lia. lia. }
  intros k Hk. rewrite zlen_ring in Hk by lia. rewrite aget_ring by lia.
  set (w := (start + count) `mod` N).
  assert (Hw : forall d, (w + d) `mod` N = (start + count + d) `mod` N).
  { intros d. unfold w. by rewrite Zplus_mod_idemp_l. }
  destruct (Z.lt_ge_cases k count) as [Hlt|Hge].
  - rewrite aget_app_l, aget_ring by (rewrite ?zlen_ring; lia).
    replace ((start + k) `mod` N) with ((w + (k - count + N)) `mod` N).
    2: { rewrite Hw. rewrite <- (Z.mod_add (start + k) 1 N) by lia. f_equal. lia. }
    rewrite aget_ring_store by lia. by replace (k - count + N <? n) with false by lia.
  - rewrite aget_app_r, zlen_ring, aget_take by (rewrite ?zlen_ring; lia).
    replace ((start + k) `mod` N) with ((w + (k - count)) `mod` N) by (rewrite Hw; f_equal; lia).
    rewrite aget_ring_store by lia. by replace (k - count <? n) with true by lia.
Qed.

(** Removing from the front. *)
Lemma ring_pop buf start count n : 0 <= n <= count ->
  ring_contents N buf ((start + n) `mod` N) (count - n) =
  zdrop n (ring_contents N buf start count).
Proof.
  intros Hn. apply (array_ext 0).
  { rewrite zlen_drop, !zlen_ring by lia. lia. }
  intros k Hk. rewrite zlen_ring in Hk by lia.
  rewrite aget_drop, !aget_ring by lia. rewrite Zplus_mod_idemp_l. do 2 f_equal. lia.
Qed.

Lemma ring_load_spec buf start count n dst : 0 <= n <= count -> n <= zlen dst ->
  ring_load N buf start n dst = splice dst 0 (ztake n (ring_contents N buf start count)).
Proof.
  intros Hn Hd. unfold ring_load.
  assert (Hlen : zlen (ztake n (ring_contents N buf start count)) = n)
    by (rewrite zlen_take, zlen_ring by lia; lia).
  enough (forall m, 0 <= m <= n ->
    let d := for_range 0 m (fun i d => aset d i buf.[(start + i) `mod` N]) dst in
    zlen d = zlen dst /\ forall k, 0 <= k -> d.[k] =
      if k <? m then buf.[(start + k) `mod` N] else dst.[k]) as H.
  { destruct (H n) as [E1 E2]; [lia|]. apply (array_ext 0).
    - rewrite E1, zlen_splice; [done | lia | rewrite Hlen; lia].
    - intros k Hk. rewrite E2, aget_splice by (rewrite ?Hlen; lia). rewrite Hlen.
      replace ((0 <=? k) && (k <? 0 + n)) with (k <? n) by lia.
      destruct (Z.ltb_spec k n); [|done]. by rewrite aget_take, aget_ring, Z.sub_0_r by lia. }
  intros m Hm. cbv zeta.
  apply (for_range_ind (fun m d => zlen d = zlen dst /\ forall k, 0 <= k -> d.[k] =
      if k <? m then buf.[(start + k) `mod` N] else dst.[k])); [lia | |].
  - split; [done|]. intros k Hk. by replace (k <? 0) with false by lia.
  - intros i d Hi [Hl Hget]. split; [by rewrite zlen_aset|]. intros k Hk.
    rewrite aget_aset by lia. destruct (Z.eqb_spec k i) as [->|].
    + by replace (i <? i + 1) with true by lia.
    + rewrite Hget by done. by replace (k <? i + 1) with (k <? i) by lia.
Qed.
End ring.
