(* ===== verification/Pipe.v ===== *)
(** * Kernel pipes

    Models src/kernel/pipe.c: the table of [PIPE_MAX] pipes, each a 64 KiB
    ring with its two open flags, and every operation on it.  A NULL buffer
    argument is [None]; a destination buffer is passed in and returned, as the C
    functions write through the pointer. *)
From S2P Require Import Prelude Ring.
Local Open Scope capy_scope.

Definition PIPE_BUF_SIZE : Z := 64 * 1024.
Definition PIPE_MAX : Z := 32.
Definition PIPE_POLLIN : Z := 0x1.
Definition PIPE_POLLOUT : Z := 0x4.
Definition PIPE_POLLERR : Z := 0x8.
Definition PIPE_POLLHUP : Z := 0x10.

Record pipe := mkPipe {
  buffer : list Z;
  read_pos : Z;
  write_pos : Z;
  count : Z;
  read_open : bool;
  write_open : bool;
  pipe_id : Z }.

Record pipes := mkPipes { g_pipes : list pipe; g_pipe_initialized : bool }.

(** [pipe_memset(p, 0, sizeof(struct pipe))]. *)
Definition zero_pipe : pipe := mkPipe (zrep PIPE_BUF_SIZE 0) 0 0 0 false false 0.

Definition set_pipe (i : Z) (p : pipe) (s : pipes) : pipes :=
  mkPipes (aset (g_pipes s) i p) (g_pipe_initialized s).
Definition get_pipe (i : Z) (s : pipes) : pipe := aget zero_pipe (g_pipes s) i.

Definition pipe_system_init : pipes := mkPipes (zrep PIPE_MAX zero_pipe) true.

(** [Some (fds[0], fds[1])] is return 0 with the pair stored, [None] is -1. *)
Definition pipe_create (fds_null : bool) (s : pipes) : option (Z * Z) * pipes :=
  if negb (g_pipe_initialized s) || fds_null then (None, s) else
  match until_range 0 PIPE_MAX
          (fun i (_ : unit) =>
             let p := get_pipe i s in
             if read_open p || write_open p then inl tt else inr i) tt with
  | inr i => (Some (i, i + 256), set_pipe i (mkPipe (zrep PIPE_BUF_SIZE 0) 0 0 0 true true i) s)
  | inl _ => (None, s)
  end.

Definition bad_id (i : Z) : bool := (i <? 0) || (PIPE_MAX <=? i).

Definition pipe_read (i : Z) (buf : option (list Z)) (len : Z) (s : pipes)
  : Z * option (list Z) * pipes :=
  match buf with
  | None => (-1, buf, s)
  | Some dst =>
      if bad_id i then (-1, buf, s) else
      let p := get_pipe i s in
      if negb (read_open p) then (-1, buf, s) else
      if count p =? 0 then (if negb (write_open p) then (0, buf, s) else (-1, buf, s)) else
      let avail := if len <? count p then u32 len else count p in
      let dst := for_range 0 avail
        (fun k d => aset d k (buffer p).[u32 (read_pos p + k) `mod` PIPE_BUF_SIZE]) dst in
      (avail, Some dst,
       set_pipe i (mkPipe (buffer p) (u32 (read_pos p + avail) `mod` PIPE_BUF_SIZE)
                     (write_pos p) (u32 (count p - avail)) (read_open p) (write_open p)
                     (pipe_id p)) s)
  end.

Definition pipe_write (i : Z) (buf : option (list Z)) (len : Z) (s : pipes) : Z * pipes :=
  match buf with
  | None => (-1, s)
  | Some src =>
      if bad_id i then (-1, s) else
      let p := get_pipe i s in
      if negb (write_open p) then (-1, s) else
      if negb (read_open p) then (-1, s) else
      let space := u32 (PIPE_BUF_SIZE - count p) in
      if space =? 0 then (-1, s) else
      let to_write := u32 len in
      let to_write := if space <? to_write then space else to_write in
      let b := for_range 0 to_write
        (fun k b => aset b (u32 (write_pos p + k) `mod` PIPE_BUF_SIZE) src.[k]) (buffer p) in
      (to_write,
       set_pipe i (mkPipe b (read_pos p) (u32 (write_pos p + to_write) `mod` PIPE_BUF_SIZE)
                     (u32 (count p + to_write)) (read_open p) (write_open p) (pipe_id p)) s)
  end.

Arguments pipe_read : simpl never.
Arguments pipe_write : simpl never.

Definition pipe_close_read (i : Z) (s : pipes) : Z * pipes :=
  if bad_id i then (-1, s) else
  let p := get_pipe i s in
  (0, set_pipe i (mkPipe (buffer p) (read_pos p) (write_pos p) (count p) false (write_open p)
                    (pipe_id p)) s).

Definition pipe_close_write (i : Z) (s : pipes) : Z * pipes :=
  if bad_id i then (-1, s) else
  let p := get_pipe i s in
  (0, set_pipe i (mkPipe (buffer p) (read_pos p) (write_pos p) (count p) (read_open p) false
                    (pipe_id p)) s).

Definition pipe_read_end_open (i : Z) (s : pipes) : Z :=
  if bad_id i then -1 else of_bool (read_open (get_pipe i s)).

Definition pipe_poll_events (fd : Z) (s : pipes) : Z :=
  if negb (g_pipe_initialized s) then 0 else
  let is_wr := (256 <=? fd) && (fd <? 256 + PIPE_MAX) in
  if negb is_wr && ((fd <? 0) || (PIPE_MAX <=? fd)) then 0 else
  let p := get_pipe (if is_wr then fd - 256 else fd) s in
  if negb (read_open p) && negb (write_open p) then 0 else
  if is_wr then
    if negb (write_open p) then 0 else
    if negb (read_open p) then PIPE_POLLERR else
    if count p <? PIPE_BUF_SIZE then PIPE_POLLOUT else 0
  else
    if negb (read_open p) then 0 else
    let events := if 0 <? count p then Z.lor 0 PIPE_POLLIN else 0 in
    if negb (write_open p) then Z.lor events PIPE_POLLHUP else events.

(** ** Specification: a pipe is a bounded queue with two open flags *)
Record spec_pipe := mkSpec { sq : list Z; s_ropen : bool; s_wopen : bool }.

Definition spec_read (len : Z) (p : spec_pipe) : Z * list Z * spec_pipe :=
  if negb (s_ropen p) then (-1, [], p) else
  if zlen (sq p) =? 0 then (if s_wopen p then (-1, [], p) else (0, [], p)) else
  let n := Z.min len (zlen (sq p)) in
  (n, ztake n (sq p), mkSpec (zdrop n (sq p)) (s_ropen p) (s_wopen p)).

Definition spec_write (data : list Z) (p : spec_pipe) : Z * spec_pipe :=
  if negb (s_wopen p) || negb (s_ropen p) then (-1, p) else
  if zlen (sq p) =? PIPE_BUF_SIZE then (-1, p) else
  let n := Z.min (zlen data) (PIPE_BUF_SIZE - zlen (sq p)) in
  (n, mkSpec (sq p ++ ztake n data) (s_ropen p) (s_wopen p)).

Definition contents (p : pipe) : list Z := ring_contents PIPE_BUF_SIZE (buffer p) (read_pos p) (count p).
Definition abs (p : pipe) : spec_pipe := mkSpec (contents p) (read_open p) (write_open p).

Record pipe_ok (p : pipe) : Prop := {
  po_len : zlen (buffer p) = PIPE_BUF_SIZE;
  po_read : 0 <= read_pos p < PIPE_BUF_SIZE;
  po_count : 0 <= count p <= PIPE_BUF_SIZE;
  po_write : write_pos p = (read_pos p + count p) `mod` PIPE_BUF_SIZE }.

Definition sys_ok (s : pipes) : Prop :=
  zlen (g_pipes s) = PIPE_MAX /\ Forall pipe_ok (g_pipes s).

(** Operations on one pipe, run in sequence; the two byte lists are what the
    writers had accepted and what the readers were given. *)
Inductive pipe_op :=
| OpRead (len : Z)
| OpWrite (data : list Z)
| OpCloseRead
| OpCloseWrite.

Definition op_ok (o : pipe_op) : Prop :=
  match o with
  | OpRead len => 0 <= len < 2 ^ 32
  | OpWrite data => zlen data < 2 ^ 32
  | _ => True
  end.

Definition run_op (i : Z) (o : pipe_op) (s : pipes) : list Z * list Z * pipes :=
  match o with
  | OpRead len =>
      let '(rc, dst, s') := pipe_read i (Some (zrep len 0)) len s in
      ([], if 0 <? rc then ztake rc (default [] dst) else [], s')
  | OpWrite data =>
      let '(rc, s') := pipe_write i (Some data) (zlen data) s in
      (if 0 <? rc then ztake rc data else [], [], s')
  | OpCloseRead => ([], [], (pipe_close_read i s).2)
  | OpCloseWrite => ([], [], (pipe_close_write i s).2)
  end.

Fixpoint run (i : Z) (ops : list pipe_op) (s : pipes) : list Z * list Z * pipes :=
  match ops with
  | [] => ([], [], s)
  | o :: ops =>
      let '(acc, del, s1) := run_op i o s in
      let '(acc', del', s2) := run i ops s1 in
      (acc ++ acc', del ++ del', s2)
  end.

(** ** Lemmas *)
Section lemmas.
Implicit Types (s : pipes) (p : pipe) (i : Z).

Lemma zero_pipe_ok : pipe_ok zero_pipe.
Proof. constructor; simpl; [by apply zlen_rep | done | done | done]. Qed.

Lemma init_sys_ok : sys_ok pipe_system_init.
Proof. split; [by apply zlen_rep|]. apply Forall_replicate, zero_pipe_ok. Qed.

Lemma get_pipe_ok s i : sys_ok s -> pipe_ok (get_pipe i s).
Proof. intros [_ H]. unfold get_pipe. apply Forall_aget; [done | apply zero_pipe_ok]. Qed.

Lemma set_pipe_ok s i p : sys_ok s -> pipe_ok p -> sys_ok (set_pipe i p s).
Proof. intros [? ?] ?. split; simpl; [by rewrite zlen_aset | by apply Forall_aset]. Qed.

Lemma bad_id_false i : bad_id i = false <-> 0 <= i < PIPE_MAX.
Proof. unfold bad_id, PIPE_MAX. lia. Qed.

Lemma get_set_eq s i p : sys_ok s -> 0 <= i < PIPE_MAX -> get_pipe i (set_pipe i p s) = p.
Proof. intros [Hl _] ?. unfold get_pipe, set_pipe; simpl. apply aget_aset_eq. lia. Qed.

Lemma get_set_ne s i j p : 0 <= i -> 0 <= j -> i <> j -> get_pipe j (set_pipe i p s) = get_pipe j s.
Proof. intros. unfold get_pipe, set_pipe; simpl. by apply aget_aset_ne. Qed.

Lemma zlen_contents p : pipe_ok p -> zlen (contents p) = count p.
Proof. intros []. apply zlen_ring. lia. Qed.

Lemma u32_idx a k : 0 <= a < PIPE_BUF_SIZE -> 0 <= k <= PIPE_BUF_SIZE -> u32 (a + k) = a + k.
Proof. unfold PIPE_BUF_SIZE. intros. apply u32_small. lia. Qed.

(** [pipe_read] of a readable, non-empty pipe. *)
Lemma pipe_read_data s i dst len : sys_ok s -> 0 <= i < PIPE_MAX ->
  read_open (get_pipe i s) = true -> count (get_pipe i s) <> 0 -> 0 <= len < 2 ^ 32 ->
  len <= zlen dst ->
  let p := get_pipe i s in let n := Z.min len (count p) in
  let p' := mkPipe (buffer p) ((read_pos p + n) `mod` PIPE_BUF_SIZE) (write_pos p) (count p - n)
              (read_open p) (write_open p) (pipe_id p) in
  pipe_read i (Some dst) len s = (n, Some (splice dst 0 (ztake n (contents p))), set_pipe i p' s) /\
  pipe_ok p' /\ contents p' = zdrop n (contents p).
Proof.
  intros Hs Hi Hro Hc Hlen Hd. pose proof (get_pipe_ok s i Hs) as []. cbv zeta.
  unfold pipe_read. rewrite (proj2 (bad_id_false i) Hi), Hro.
  replace (count (get_pipe i s) =? 0) with false by lia. simpl.
  assert (En : (if len <? count (get_pipe i s) then u32 len else count (get_pipe i s)) =
    Z.min len (count (get_pipe i s))).
  { destruct (Z.ltb_spec len (count (get_pipe i s))); [rewrite u32_small by lia|]; lia. }
  rewrite En. set (n := Z.min _ _). set (p := get_pipe i s) in *.
  assert (0 <= n <= count p) by (unfold n; lia).
  rewrite (for_range_ext _ _ _
    (fun k d => aset d k (buffer p).[(read_pos p + k) `mod` PIPE_BUF_SIZE]))
    by (intros; by rewrite u32_idx by lia).
  rewrite u32_idx by lia. rewrite (u32_small (count p - n)) by (unfold PIPE_BUF_SIZE in *; lia).
  assert (HN : 0 < PIPE_BUF_SIZE) by done. splits.
  - do 2 f_equal. f_equal. by apply (ring_load_spec PIPE_BUF_SIZE); [|unfold n; lia].
  - constructor; simpl; [done | by apply Z.mod_pos_bound | lia |].
    rewrite po_write0. rewrite Zplus_mod_idemp_l. f_equal. lia.
  - unfold contents; simpl. by apply ring_pop.
Qed.

(** [pipe_write] on a pipe whose two ends are open and which has room. *)
Lemma pipe_write_data s i data : sys_ok s -> 0 <= i < PIPE_MAX ->
  read_open (get_pipe i s) = true -> write_open (get_pipe i s) = true ->
  count (get_pipe i s) < PIPE_BUF_SIZE -> zlen data < 2 ^ 32 ->
  exists p', let p := get_pipe i s in let n := Z.min (zlen data) (PIPE_BUF_SIZE - count p) in
  pipe_write i (Some data) (zlen data) s = (n, set_pipe i p' s) /\
  pipe_ok p' /\ contents p' = contents p ++ ztake n data /\
  read_open p' = true /\ write_open p' = true.
Proof.
  intros Hs Hi Hro Hwo Hc Hlen. pose proof (get_pipe_ok s i Hs) as [].
  pose proof (zlen_nonneg data). cbv zeta.
  unfold pipe_write. rewrite (proj2 (bad_id_false i) Hi), Hro, Hwo. simpl.
  set (p := get_pipe i s) in *.
  rewrite (u32_small (PIPE_BUF_SIZE - count p)) by (unfold PIPE_BUF_SIZE in *; lia).
  replace (PIPE_BUF_SIZE - count p =? 0) with false by lia.
  rewrite (u32_small (zlen data)) by lia.
  assert (En : (if PIPE_BUF_SIZE - count p <? zlen data then PIPE_BUF_SIZE - count p else zlen data) =
    Z.min (zlen data) (PIPE_BUF_SIZE - count p)).
  { destruct (Z.ltb_spec (PIPE_BUF_SIZE - count p) (zlen data)); lia. }
  rewrite En. set (n := Z.min _ _). assert (0 <= n <= PIPE_BUF_SIZE - count p) by (unfold n; lia).
  assert (HN : 0 < PIPE_BUF_SIZE) by done.
  assert (Hw : 0 <= write_pos p < PIPE_BUF_SIZE) by (rewrite po_write0; by apply Z.mod_pos_bound).
  rewrite (for_range_ext _ _ _
    (fun k b => aset b ((write_pos p + k) `mod` PIPE_BUF_SIZE) data.[k]))
    by (intros; by rewrite u32_idx by lia).
  rewrite u32_idx by lia. rewrite (u32_small (count p + n)) by (unfold PIPE_BUF_SIZE in *; lia).
  fold (ring_store PIPE_BUF_SIZE (buffer p) (write_pos p) n data).
  eexists. splits; [done | | | done | done].
  - constructor; simpl; [rewrite (zlen_ring_store PIPE_BUF_SIZE); [done | lia] | done | lia |].
    rewrite po_write0, Zplus_mod_idemp_l. f_equal. lia.
  - unfold contents; simpl. rewrite po_write0. apply ring_push; [done | lia | lia | |]; unfold n; lia.
Qed.
Lemma pipe_read_sim s i dst len : sys_ok s -> 0 <= i < PIPE_MAX -> 0 <= len < 2 ^ 32 ->
  len <= zlen dst ->
  let '(rc, dst', s') := pipe_read i (Some dst) len s in
  let '(rc0, out, p0) := spec_read len (abs (get_pipe i s)) in
  rc = rc0 /\ dst' = Some (splice dst 0 out) /\ abs (get_pipe i s') = p0 /\ sys_ok s' /\
  forall j, 0 <= j -> j <> i -> get_pipe j s' = get_pipe j s.
Proof.
  intros Hs Hi Hlen Hd. pose proof (get_pipe_ok s i Hs) as Hp.
  assert (Hnil : splice dst 0 [] = dst).
  { unfold splice, ztake, zdrop, zlen. simpl. apply drop_0. }
  unfold spec_read; simpl. rewrite zlen_contents by done.
  destruct (read_open (get_pipe i s)) eqn:Hro; simpl.
  2: { unfold pipe_read; cbv zeta. rewrite (proj2 (bad_id_false i) Hi), ?Hro. simpl. by rewrite Hnil. }
  destruct (Z.eqb_spec (count (get_pipe i s)) 0) as [Hc|Hc].
  - destruct (write_open (get_pipe i s)) eqn:Hwo; unfold pipe_read, abs; cbv zeta;
      rewrite (proj2 (bad_id_false i) Hi), ?Hro, ?Hc, ?Hwo; simpl;
      by rewrite Hnil, ?Hro, ?Hwo.
  - destruct (pipe_read_data s i dst len Hs Hi Hro Hc Hlen Hd) as (-> & Hok & Hcont).
    splits; try done.
    + rewrite get_set_eq by done. unfold abs; simpl. by rewrite Hcont, Hro.
    + by apply set_pipe_ok.
    + intros j Hj Hne. apply get_set_ne; lia.
Qed.

Lemma pipe_write_sim s i data : sys_ok s -> 0 <= i < PIPE_MAX -> zlen data < 2 ^ 32 ->
  let '(rc, s') := pipe_write i (Some data) (zlen data) s in
  let '(rc0, p0) := spec_write data (abs (get_pipe i s)) in
  rc = rc0 /\ abs (get_pipe i s') = p0 /\ sys_ok s' /\
  forall j, 0 <= j -> j <> i -> get_pipe j s' = get_pipe j s.
Proof.
  intros Hs Hi Hd. pose proof (get_pipe_ok s i Hs) as Hp.
  unfold spec_write; simpl. rewrite zlen_contents by done.
  destruct (read_open (get_pipe i s)) eqn:Hr, (write_open (get_pipe i s)) eqn:Hw; simpl.
  2-4: unfold pipe_write; cbv zeta; rewrite (proj2 (bad_id_false i) Hi), ?Hr, ?Hw; simpl;
       unfold abs; by rewrite Hr, Hw.
  destruct (Z.eqb_spec (count (get_pipe i s)) PIPE_BUF_SIZE) as [Hf|Hf].
  - unfold pipe_write; cbv zeta. rewrite (proj2 (bad_id_false i) Hi), ?Hr, ?Hw, ?Hf. simpl.
    unfold abs. by rewrite Hr, Hw.
  - destruct (pipe_write_data s i data) as (p' & -> & ? & Hcont & Hr' & Hw'); try done.
    { destruct Hp. lia. }
    splits; [done | | by apply set_pipe_ok |].
    + rewrite get_set_eq by done. unfold abs. by rewrite Hcont, Hr', Hw'.
    + intros j Hj Hne. apply get_set_ne; lia.
Qed.

End lemmas.

(** ** Properties *)
Section properties.
Implicit Types (s : pipes) (i : Z).

(** [pipe_read] refines the queue: on every branch its return code, the bytes
    it stores and the pipe it leaves are those of the specification, and no other
    pipe changes. *)
Theorem pipe_read_refines s i dst len : sys_ok s -> 0 <= i < PIPE_MAX -> 0 <= len < 2 ^ 32 ->
  len <= zlen dst ->
  let '(rc, dst', s') := pipe_read i (Some dst) len s in
  let '(rc0, out, p0) := spec_read len (abs (get_pipe i s)) in
  rc = rc0 /\ dst' = Some (splice dst 0 out) /\ abs (get_pipe i s') = p0 /\ sys_ok s' /\
  forall j, 0 <= j -> j <> i -> get_pipe j s' = get_pipe j s.
Proof. apply pipe_read_sim. Qed.

Definition demo_pipes : pipes := (pipe_write 0 (Some [7; 8; 9]) 3 (pipe_create false pipe_system_init).2).2.

Lemma create_sys_ok b s : sys_ok s -> sys_ok (pipe_create b s).2.
Proof.
  intros Hs. unfold pipe_create. repeat case_match; try done. simpl.
  apply set_pipe_ok; [done|]. constructor; simpl; [by apply zlen_rep | done | done | done].
Qed.

Lemma write_sys_ok s i data : sys_ok s -> 0 <= i < PIPE_MAX -> zlen data < 2 ^ 32 ->
  sys_ok (pipe_write i (Some data) (zlen data) s).2.
Proof.
  intros Hs Hi Hd. pose proof (get_pipe_ok s i Hs) as Hp.
  destruct (read_open (get_pipe i s)) eqn:Hr, (write_open (get_pipe i s)) eqn:Hw.
  2-4: unfold pipe_write; cbv zeta; by rewrite (proj2 (bad_id_false i) Hi), ?Hr, ?Hw.
  destruct (Z.eq_dec (count (get_pipe i s)) PIPE_BUF_SIZE) as [Hf|Hf].
  - unfold pipe_write; cbv zeta. rewrite (proj2 (bad_id_false i) Hi), ?Hr, ?Hw, ?Hf. simpl. done.
  - destruct (pipe_write_data s i data) as (p' & -> & ? & _); try done.
    { destruct Hp. lia. }
    by apply set_pipe_ok.
Qed.

Lemma demo_pipes_ok : sys_ok demo_pipes.
Proof. apply (write_sys_ok _ 0 [7; 8; 9]); [apply create_sys_ok, init_sys_ok | done | done]. Qed.

Lemma pipe_read_refines_witness :
  let '(rc, dst', _) := pipe_read 0 (Some [0; 0]) 2 demo_pipes in rc = 2 /\ dst' = Some [7; 8].
Proof.
  pose proof (pipe_read_refines demo_pipes 0 [0; 0] 2 demo_pipes_ok ltac:(done) ltac:(done)
    ltac:(done)) as H.
  assert (E : (spec_read 2 (abs (get_pipe 0 demo_pipes))).1 = (2, [7; 8])) by (vm_compute; reflexivity).
  destruct (pipe_read 0 (Some [0; 0]) 2 demo_pipes) as [[rc dst'] s'].
  destruct (spec_read 2 (abs (get_pipe 0 demo_pipes))) as [[rc0 out] p0].
  simpl in E. injection E as -> ->. destruct H as (-> & -> & _). split; reflexivity.
Defined.

(** [pipe_write] refines the queue: it appends the longest prefix that fits,
    returns its length, fails without effect on a closed end or a full pipe, and
    changes no other pipe. *)
Theorem pipe_write_refines s i data : sys_ok s -> 0 <= i < PIPE_MAX -> zlen data < 2 ^ 32 ->
  let '(rc, s') := pipe_write i (Some data) (zlen data) s in
  let '(rc0, p0) := spec_write data (abs (get_pipe i s)) in
  rc = rc0 /\ abs (get_pipe i s') = p0 /\ sys_ok s' /\
  forall j, 0 <= j -> j <> i -> get_pipe j s' = get_pipe j s.
Proof. apply pipe_write_sim. Qed.

Lemma pipe_write_refines_witness :
  (pipe_write 0 (Some [1; 2]) (zlen [1; 2]) demo_pipes).1 = 2.
Proof.
  pose proof (pipe_write_refines demo_pipes 0 [1; 2] demo_pipes_ok ltac:(done) ltac:(done)) as H.
  assert (E : (spec_write [1; 2] (abs (get_pipe 0 demo_pipes))).1 = 2) by (vm_compute; reflexivity).
  destruct (pipe_write 0 (Some [1; 2]) (zlen [1; 2]) demo_pipes) as [rc s'].
  destruct (spec_write [1; 2] (abs (get_pipe 0 demo_pipes))) as [rc0 p0].
  simpl in E |- *. destruct H as (-> & _). exact E.
Defined.

Lemma run_op_step s i o : sys_ok s -> 0 <= i < PIPE_MAX -> op_ok o ->
  let '(acc, del, s') := run_op i o s in
  sys_ok s' /\ contents (get_pipe i s) ++ acc = del ++ contents (get_pipe i s').
Proof.
  intros Hs Hi Ho. pose proof (get_pipe_ok s i Hs) as Hp. destruct o as [len|data| |]; simpl in *.
  - pose proof (pipe_read_sim s i (zrep len 0) len Hs Hi Ho) as H.
    rewrite zlen_rep in H by lia. specialize (H ltac:(lia)).
    destruct (pipe_read i _ len s) as [[rc dst'] s'].
    unfold spec_read in H; simpl in H. rewrite zlen_contents in H by done.
    rewrite app_nil_r.
    destruct (negb (read_open _)); [|destruct (Z.eqb_spec (count (get_pipe i s)) 0) as [Hc|Hc];
      [destruct (write_open _)|]];
      destruct H as (-> & -> & Habs & Hok & _); split; try done;
      injection Habs as Hcont _ _; simpl; rewrite ?Hcont; try done.
    set (n := Z.min len (count (get_pipe i s))).
    assert (Hn : zlen (ztake n (contents (get_pipe i s))) = n).
    { rewrite zlen_take, zlen_contents; unfold n; destruct Hp; try done; lia. }
    destruct (Z.ltb_spec 0 n) as [Hpos|Hneg].
    + unfold splice. change (ztake 0 (zrep len 0)) with (@nil Z). simpl.
      unfold ztake at 1. rewrite take_app_le, take_ge by (unfold zlen in Hn; lia).
      unfold ztake, zdrop. by rewrite take_drop.
    + unfold n in *. destruct Hp. replace (Z.min len (count (get_pipe i s))) with 0 by lia. done.
  - pose proof (pipe_write_sim s i data Hs Hi Ho) as H.
    destruct (pipe_write i _ _ s) as [rc s']. unfold spec_write in H; simpl in H.
    rewrite zlen_contents in H by done.
    pose proof (zlen_nonneg data).
    destruct (negb (write_open _) || negb (read_open _));
      [|destruct (Z.eqb_spec (count (get_pipe i s)) PIPE_BUF_SIZE)];
      destruct H as (-> & Habs & Hok & _); split; try done; injection Habs as Hcont _ _;
      simpl; rewrite Hcont, ?app_nil_r; try done.
    destruct (Z.ltb_spec 0 (Z.min (zlen data) (PIPE_BUF_SIZE - count (get_pipe i s)))) as [|Hz]; [done|].
    replace (Z.min _ _) with 0 by (destruct Hp; lia). done.
  - unfold pipe_close_read. rewrite (proj2 (bad_id_false i) Hi). simpl.
    split; [apply set_pipe_ok; [done|]; by destruct Hp; constructor|].
    by rewrite get_set_eq, app_nil_r by done.
  - unfold pipe_close_write. rewrite (proj2 (bad_id_false i) Hi). simpl.
    split; [apply set_pipe_ok; [done|]; by destruct Hp; constructor|].
    by rewrite get_set_eq, app_nil_r by done.
Qed.

(** C27. A pipe neither loses, duplicates nor reorders bytes: over any sequence of
    reads, writes and closes, what was queued followed by what the writers had
    accepted equals what the readers were given followed by what is still queued. *)
Theorem pipe_fifo s i ops : sys_ok s -> 0 <= i < PIPE_MAX -> Forall op_ok ops ->
  let '(acc, del, s') := run i ops s in
  contents (get_pipe i s) ++ acc = del ++ contents (get_pipe i s').
Proof.
  intros Hs Hi Hops. revert s Hs. induction Hops as [|o ops Ho Hops IH]; intros s Hs; simpl.
  { by rewrite app_nil_r. }
  pose proof (run_op_step s i o Hs Hi Ho) as H.
  destruct (run_op i o s) as [[acc del] s1]. destruct H as [Hs1 E].
  specialize (IH s1 Hs1). destruct (run i ops s1) as [[acc' del'] s2].
  by rewrite app_assoc, E, <- !app_assoc, IH.
Qed.

Lemma pipe_fifo_witness :
  let '(acc, del, s') := run 0 [OpWrite [1; 2]; OpRead 4; OpCloseWrite; OpRead 9] demo_pipes in
  contents (get_pipe 0 demo_pipes) ++ acc = del ++ contents (get_pipe 0 s').
Proof.
  apply (pipe_fifo demo_pipes 0); [apply demo_pipes_ok | done|].
  repeat constructor; simpl; lia.
Defined.

(** [pipe_create] returns the lowest pipe whose two ends are closed, with the
    read fd its index and the write fd that plus 256; the pipe is empty with both
    ends open and every other pipe is unchanged.  It fails, without effect, only
    when every pipe has an open end. *)
Theorem pipe_create_fresh s : sys_ok s -> g_pipe_initialized s = true ->
  match pipe_create false s with
  | (Some (r, w), s') =>
      0 <= r < PIPE_MAX /\ w = r + 256 /\ read_open (get_pipe r s) = false /\
      write_open (get_pipe r s) = false /\ abs (get_pipe r s') = mkSpec [] true true /\
      (forall j, 0 <= j < r -> read_open (get_pipe j s) || write_open (get_pipe j s) = true) /\
      (forall j, 0 <= j -> j <> r -> get_pipe j s' = get_pipe j s) /\ sys_ok s'
  | (None, s') => s' = s /\
      forall j, 0 <= j < PIPE_MAX -> read_open (get_pipe j s) || write_open (get_pipe j s) = true
  end.
Proof.
  intros Hs Hinit. pose proof (create_sys_ok false s Hs) as Hok.
  unfold pipe_create in *. rewrite Hinit in *. simpl in *.
  pose proof (until_find (fun i => read_open (get_pipe i s) || write_open (get_pipe i s))
    0 PIPE_MAX) as H.
  destruct (until_range _ _ _ _) as [|r]; [by split|].
  destruct H as (Hr & Hc & Hmin). apply orb_false_iff in Hc as [Hc1 Hc2].
  splits; try done; try lia.
  - rewrite get_set_eq by done. done.
  - intros j Hj Hne. apply get_set_ne; lia.
Qed.

Lemma pipe_create_fresh_witness : (pipe_create false pipe_system_init).1 = Some (0, 256).
Proof.
  pose proof (pipe_create_fresh pipe_system_init init_sys_ok ltac:(reflexivity)) as H.
  destruct (pipe_create false pipe_system_init) as [[[r w]|] s'] eqn:E.
  - destruct H as (Hr & -> & _ & _ & _ & Hmin & _). simpl.
    destruct (Z.eq_dec r 0) as [->|Hne]; [reflexivity|].
    specialize (Hmin 0 ltac:(lia)). vm_compute in Hmin. discriminate.
  - destruct H as [_ Hall]. specialize (Hall 0 ltac:(done)). vm_compute in Hall. discriminate.
Defined.
End properties.
