(* ===== verification/StdinBuf.v ===== *)
(** * Kernel stdin ring

    Models src/kernel/stdin_buf.c: the bounded ring between the keyboard
    interrupt handler and [sys_read] on fd 0, with its diagnostics counters, and
    a refinement to a bounded queue.  A NULL [out] pointer is [None]; otherwise
    the destination array is passed in and returned. *)
From S2P Require Import Prelude Ring.
Local Open Scope capy_scope.

Definition STDIN_BUF_SIZE : Z := 256.

Record stdin_buf := mkStdin {
  g_buf : list Z;
  g_head : Z;
  g_tail : Z;
  g_count : Z;
  g_high_watermark : Z;
  g_dropped_total : Z }.

Record stdin_buf_snapshot_t := mkSnapshot {
  snap_capacity : Z;
  snap_count : Z;
  snap_space_available : Z;
  snap_high_watermark : Z;
  snap_dropped_total : Z }.

Definition stdin_buf_init : stdin_buf := mkStdin (zrep STDIN_BUF_SIZE 0) 0 0 0 0 0.

Definition stdin_buf_push (c : Z) (s : stdin_buf) : Z * stdin_buf :=
  if STDIN_BUF_SIZE <=? g_count s then
    (0, mkStdin (g_buf s) (g_head s) (g_tail s) (g_count s) (g_high_watermark s)
          (u64 (g_dropped_total s + 1)))
  else
    let count := u64 (g_count s + 1) in
    (1, mkStdin (aset (g_buf s) (g_head s) c) (u64 (g_head s + 1) `mod` STDIN_BUF_SIZE)
          (g_tail s) count
          (if g_high_watermark s <? count then count else g_high_watermark s)
          (g_dropped_total s)).

(** [g_tail = (g_tail + 1u) % STDIN_BUF_SIZE; g_count--;] with the cell at the tail
    replaced by [f] of it ([discard_many] clears it, the pops leave it). *)
Definition advance_tail (f : Z -> Z) (s : stdin_buf) : stdin_buf :=
  mkStdin (aset (g_buf s) (g_tail s) (f (g_buf s).[g_tail s])) (g_head s)
    (u64 (g_tail s + 1) `mod` STDIN_BUF_SIZE) (u64 (g_count s - 1)) (g_high_watermark s)
    (g_dropped_total s).

(** The byte stored in [*out] is the second component. *)
Definition stdin_buf_pop (out_null : bool) (s : stdin_buf) : Z * option Z * stdin_buf :=
  if out_null then (0, None, s) else
  if g_count s =? 0 then (0, None, s) else
  (1, Some (g_buf s).[g_tail s], advance_tail id s).

(** [while (n < max && g_count > 0) { ... n++; }] *)
Fixpoint pop_loop (fuel : nat) (max n : Z) (out : list Z) (s : stdin_buf)
  : Z * list Z * stdin_buf :=
  match fuel with
  | O => (n, out, s)
  | S fuel =>
      if (n <? max) && (0 <? g_count s) then
        pop_loop fuel max (u64 (n + 1)) (aset out n (g_buf s).[g_tail s]) (advance_tail id s)
      else (n, out, s)
  end.

Definition stdin_buf_pop_many (out : option (list Z)) (max : Z) (s : stdin_buf)
  : Z * option (list Z) * stdin_buf :=
  match out with
  | None => (0, None, s)
  | Some dst =>
      if max =? 0 then (0, out, s) else
      let '(n, dst, s) := pop_loop (Z.to_nat STDIN_BUF_SIZE) max 0 dst s in (n, Some dst, s)
  end.

Fixpoint discard_loop (fuel : nat) (max n : Z) (s : stdin_buf) : Z * stdin_buf :=
  match fuel with
  | O => (n, s)
  | S fuel =>
      if (n <? max) && (0 <? g_count s) then
        discard_loop fuel max (u64 (n + 1)) (advance_tail (fun _ => 0) s)
      else (n, s)
  end.

Definition stdin_buf_discard_many (max : Z) (s : stdin_buf) : Z * stdin_buf :=
  discard_loop (Z.to_nat STDIN_BUF_SIZE) max 0 s.

Definition stdin_buf_discard_all (s : stdin_buf) : Z * stdin_buf :=
  stdin_buf_discard_many STDIN_BUF_SIZE s.

Definition stdin_buf_ready (s : stdin_buf) : Z := of_bool (0 <? g_count s).
Definition stdin_buf_dropped_total (s : stdin_buf) : Z := g_dropped_total s.
Definition stdin_buf_count (s : stdin_buf) : Z := g_count s.
Definition stdin_buf_capacity : Z := STDIN_BUF_SIZE.
Definition stdin_buf_space_available (s : stdin_buf) : Z := u64 (STDIN_BUF_SIZE - g_count s).
Definition stdin_buf_high_watermark (s : stdin_buf) : Z := g_high_watermark s.

Definition stdin_buf_snapshot (out_null : bool) (s : stdin_buf) : Z * option stdin_buf_snapshot_t :=
  if out_null then (0, None) else
  (1, Some (mkSnapshot STDIN_BUF_SIZE (g_count s) (u64 (STDIN_BUF_SIZE - g_count s))
              (g_high_watermark s) (g_dropped_total s))).

Definition stdin_buf_reset_diagnostics (s : stdin_buf) : stdin_buf :=
  mkStdin (g_buf s) (g_head s) (g_tail s) (g_count s) (g_count s) 0.

(** ** Specification: a bounded queue with a watermark and a drop counter *)
Record squeue := mkQ { q_items : list Z; q_high : Z; q_dropped : Z }.

Inductive op :=
| Push (c : Z)
| Pop
| PopMany (max : Z)
| DiscardMany (max : Z)
| DiscardAll
| Snapshot
| ResetDiagnostics.

(** What a caller sees: the return value, the bytes stored through [out], and the
    snapshot when one is taken. *)
Record result := mkRes { r_ret : Z; r_bytes : list Z; r_snap : option stdin_buf_snapshot_t }.

Definition run_op (o : op) (s : stdin_buf) : result * stdin_buf :=
  match o with
  | Push c => let '(r, s') := stdin_buf_push c s in (mkRes r [] None, s')
  | Pop => let '(r, b, s') := stdin_buf_pop false s in
      (mkRes r (match b with Some c => [c] | None => [] end) None, s')
  | PopMany max =>
      let '(n, out, s') := stdin_buf_pop_many (Some (zrep STDIN_BUF_SIZE 0)) max s in
      (mkRes n (ztake n (default [] out)) None, s')
  | DiscardMany max => let '(n, s') := stdin_buf_discard_many max s in (mkRes n [] None, s')
  | DiscardAll => let '(n, s') := stdin_buf_discard_all s in (mkRes n [] None, s')
  | Snapshot => let '(r, snap) := stdin_buf_snapshot false s in (mkRes r [] snap, s)
  | ResetDiagnostics => (mkRes 0 [] None, stdin_buf_reset_diagnostics s)
  end.

Definition spec_op (o : op) (q : squeue) : result * squeue :=
  let len := zlen (q_items q) in
  let drop n := mkQ (zdrop n (q_items q)) (q_high q) (q_dropped q) in
  match o with
  | Push c =>
      if len <? STDIN_BUF_SIZE
      then (mkRes 1 [] None, mkQ (q_items q ++ [c]) (Z.max (q_high q) (len + 1)) (q_dropped q))
      else (mkRes 0 [] None, mkQ (q_items q) (q_high q) (u64 (q_dropped q + 1)))
  | Pop => let n := Z.min 1 len in (mkRes n (ztake n (q_items q)) None, drop n)
  | PopMany max => let n := Z.min max len in (mkRes n (ztake n (q_items q)) None, drop n)
  | DiscardMany max => let n := Z.min max len in (mkRes n [] None, drop n)
  | DiscardAll => (mkRes len [] None, drop len)
  | Snapshot =>
      (mkRes 1 [] (Some (mkSnapshot STDIN_BUF_SIZE len (STDIN_BUF_SIZE - len) (q_high q)
                           (q_dropped q))), q)
  | ResetDiagnostics => (mkRes 0 [] None, mkQ (q_items q) len 0)
  end.

Fixpoint run_ops {St} (f : op -> St -> result * St) (ops : list op) (s : St) : list result :=
  match ops with
  | [] => []
  | o :: ops => (f o s).1 :: run_ops f ops (f o s).2
  end.

Definition op_ok (o : op) : Prop :=
  match o with PopMany max | DiscardMany max => 0 <= max < 2 ^ 64 | _ => True end.

Definition items (s : stdin_buf) : list Z := ring_contents STDIN_BUF_SIZE (g_buf s) (g_tail s) (g_count s).
Definition abs (s : stdin_buf) : squeue := mkQ (items s) (g_high_watermark s) (g_dropped_total s).

Record wf (s : stdin_buf) : Prop := {
  wf_len : zlen (g_buf s) = STDIN_BUF_SIZE;
  wf_tail : 0 <= g_tail s < STDIN_BUF_SIZE;
  wf_count : 0 <= g_count s <= STDIN_BUF_SIZE;
  wf_head : g_head s = (g_tail s + g_count s) `mod` STDIN_BUF_SIZE }.

(** ** Lemmas *)
Lemma stdin_init_wf : wf stdin_buf_init.
Proof. by constructor. Qed.

Lemma zlen_items s : wf s -> zlen (items s) = g_count s.
Proof. intros []. apply zlen_ring. lia. Qed.

Lemma push_sim c s : wf s ->
  wf (run_op (Push c) s).2 /\
  spec_op (Push c) (abs s) = ((run_op (Push c) s).1, abs (run_op (Push c) s).2).
Proof.
  intros Hw. pose proof (zlen_items s Hw) as Hl. destruct Hw.
  simpl. rewrite Hl. unfold stdin_buf_push.
  destruct (Z.leb_spec STDIN_BUF_SIZE (g_count s)); simpl.
  - replace (g_count s <? STDIN_BUF_SIZE) with false by lia. by split.
  - replace (g_count s <? STDIN_BUF_SIZE) with true by lia. unfold STDIN_BUF_SIZE in *.
    pose proof (Z.mod_pos_bound (g_tail s + g_count s) 256 ltac:(lia)).
    rewrite !u64_small by lia. split.
    + constructor; simpl; rewrite ?zlen_aset; try done; unfold STDIN_BUF_SIZE; try lia.
      rewrite wf_head0, Zplus_mod_idemp_l. f_equal. lia.
    + unfold abs; simpl. f_equal. f_equal.
      * pose proof (ring_push 256 ltac:(lia) (g_buf s) (g_tail s) (g_count s) 1 [c]) as E.
        unfold items; simpl. unfold STDIN_BUF_SIZE.
        rewrite wf_head0. symmetry. unfold ring_store in E.
        rewrite for_range_step, for_range_nil in E by lia.
        rewrite Z.add_0_r, Z.mod_mod in E by lia. apply E; unfold zlen in *; simpl; lia.
      * destruct (Z.ltb_spec (g_high_watermark s) (g_count s + 1)); lia.
Qed.

(** Storing into the tail cell before it leaves the window does not change what
    remains queued. *)
Lemma advance_spec f s : wf s -> 0 < g_count s ->
  wf (advance_tail f s) /\ g_count (advance_tail f s) = g_count s - 1 /\
  items (advance_tail f s) = zdrop 1 (items s) /\
  g_high_watermark (advance_tail f s) = g_high_watermark s /\
  g_dropped_total (advance_tail f s) = g_dropped_total s.
Proof.
  intros [] Hc. unfold advance_tail, items; simpl. unfold STDIN_BUF_SIZE in *.
  rewrite !u64_small by lia. splits; try done.
  - constructor; simpl; unfold STDIN_BUF_SIZE; rewrite ?zlen_aset;
      [done | apply Z.mod_pos_bound; lia | lia |].
    rewrite wf_head0, Zplus_mod_idemp_l. f_equal. lia.
  - rewrite <- (ring_pop 256 (g_buf s) (g_tail s) (g_count s) 1) by lia.
    apply (array_ext 0); [by rewrite !zlen_ring by lia|].
    intros k Hk. rewrite zlen_ring in Hk by lia. rewrite !aget_ring by lia.
    apply aget_aset_ne; [lia | by apply Z.mod_pos_bound |].
    rewrite Zplus_mod_idemp_l. rewrite <- (Z.mod_small (g_tail s) 256) at 1 by lia.
    apply mod_idx_ne; lia.
Qed.

Lemma items_head s : wf s -> 0 < g_count s -> (g_buf s).[g_tail s] = (items s).[0].
Proof.
  intros [] ?. unfold items. rewrite aget_ring by lia.
  by rewrite Z.add_0_r, Z.mod_small by lia.
Qed.

Lemma pop_loop_spec fuel max n out s : wf s -> 0 <= n <= max -> max < 2 ^ 64 ->
  g_count s <= Z.of_nat fuel -> n + g_count s <= zlen out ->
  let k := Z.min (max - n) (g_count s) in
  exists s', pop_loop fuel max n out s = (n + k, splice out n (ztake k (items s)), s') /\
  wf s' /\ items s' = zdrop k (items s) /\ g_high_watermark s' = g_high_watermark s /\
  g_dropped_total s' = g_dropped_total s.
Proof.
  revert n out s. induction fuel as [|fuel IH]; intros n out s Hw Hn Hm Hf Hout k;
    pose proof (wf_count s Hw); pose proof (zlen_items s Hw) as Hl.
  all: assert (Hstop : k = 0 -> exists s', (n, out, s) = (n + k, splice out n (ztake k (items s)), s') /\
    wf s' /\ items s' = zdrop k (items s) /\ g_high_watermark s' = g_high_watermark s /\
    g_dropped_total s' = g_dropped_total s).
  1, 3: intros ->; exists s; splits; try done; rewrite Z.add_0_r; do 2 f_equal;
    unfold splice, ztake, zdrop, zlen; simpl; rewrite Z.add_0_r; by rewrite take_drop.
  - apply Hstop. unfold k. lia.
  - simpl. destruct (Z.ltb_spec n max), (Z.ltb_spec 0 (g_count s)); simpl;
      try (apply Hstop; unfold k; lia).
    clear Hstop. destruct (advance_spec id s Hw ltac:(lia)) as (Hw' & Hc' & Hi' & Hh' & Hd').
    rewrite u64_small by lia.
    destruct (IH (n + 1) (aset out n (g_buf s).[g_tail s]) (advance_tail id s)) as
      (s' & -> & ? & Hi & Hh & Hd); [done | lia | lia | lia | rewrite zlen_aset; lia |].
    rewrite Hc', Hi', Hh', Hd' in *. exists s'. splits; try done.
    + f_equal. f_equal; [unfold k; lia|].
      rewrite splice_aset, items_head, (ztake_step 0 (items s)) by (try done; unfold k; rewrite ?zlen_take, ?zlen_drop; lia).
      do 3 f_equal. unfold k. lia.
    + rewrite Hi. unfold zdrop. rewrite drop_drop. f_equal. unfold k. lia.
Qed.

Lemma discard_loop_spec fuel max n s : wf s -> 0 <= n <= max -> max < 2 ^ 64 ->
  g_count s <= Z.of_nat fuel ->
  let k := Z.min (max - n) (g_count s) in
  exists s', discard_loop fuel max n s = (n + k, s') /\
  wf s' /\ items s' = zdrop k (items s) /\ g_high_watermark s' = g_high_watermark s /\
  g_dropped_total s' = g_dropped_total s.
Proof.
  revert n s. induction fuel as [|fuel IH]; intros n s Hw Hn Hm Hf k;
    pose proof (wf_count s Hw).
  all: assert (Hstop : k = 0 -> exists s', (n, s) = (n + k, s') /\
    wf s' /\ items s' = zdrop k (items s) /\ g_high_watermark s' = g_high_watermark s /\
    g_dropped_total s' = g_dropped_total s) by (intros ->; exists s; by rewrite Z.add_0_r).
  - apply Hstop. unfold k. lia.
  - simpl. destruct (Z.ltb_spec n max), (Z.ltb_spec 0 (g_count s)); simpl;
      try (apply Hstop; unfold k; lia).
    destruct (advance_spec (fun _ => 0) s Hw ltac:(lia)) as (Hw' & Hc' & Hi' & Hh' & Hd').
    rewrite u64_small by lia.
    destruct (IH (n + 1) (advance_tail (fun _ => 0) s)) as (s' & -> & ? & Hi & Hh & Hd);
      [done | lia | lia | lia |].
    rewrite Hc', Hi', Hh', Hd' in *. exists s'. splits; try done; [f_equal; unfold k; lia|].
    rewrite Hi. unfold zdrop. rewrite drop_drop. f_equal. unfold k. lia.
Qed.

Lemma pop_sim s : wf s ->
  wf (run_op Pop s).2 /\ spec_op Pop (abs s) = ((run_op Pop s).1, abs (run_op Pop s).2).
Proof.
  intros Hw. pose proof (zlen_items s Hw) as Hl. pose proof (wf_count s Hw).
  simpl. rewrite Hl. unfold stdin_buf_pop.
  destruct (Z.eqb_spec (g_count s) 0) as [Hc|Hc]; simpl.
  - rewrite Hc. split; [done|]. unfold abs. by rewrite (nil_length_inv (items s)) by (unfold zlen in Hl; lia).
  - destruct (advance_spec id s Hw ltac:(lia)) as (Hw' & _ & Hi & Hh & Hd).
    replace (Z.min 1 (g_count s)) with 1 by lia. split; [done|].
    unfold abs. rewrite Hi, Hh, Hd, items_head, (ztake_step 0) by (try done; lia). done.
Qed.

Lemma pop_many_sim max s : wf s -> 0 <= max < 2 ^ 64 ->
  wf (run_op (PopMany max) s).2 /\
  spec_op (PopMany max) (abs s) = ((run_op (PopMany max) s).1, abs (run_op (PopMany max) s).2).
Proof.
  intros Hw Hm. pose proof (zlen_items s Hw) as Hl. pose proof (wf_count s Hw).
  unfold run_op, stdin_buf_pop_many, spec_op; cbv zeta. unfold abs at 1 2 3 4; cbn [q_items]. rewrite Hl.
  destruct (Z.eqb_spec max 0) as [->|Hne].
  { simpl. replace (Z.min 0 (g_count s)) with 0 by lia. by split. }
  destruct (pop_loop_spec (Z.to_nat STDIN_BUF_SIZE) max 0 (zrep STDIN_BUF_SIZE 0) s) as
    (s' & -> & ? & Hi & Hh & Hd); rewrite ?zlen_rep; try done; try lia.
  rewrite Z.sub_0_r, Z.add_0_l in *. cbn [default fst snd]. split; [done|].
  unfold abs; cbn [q_high q_dropped]. rewrite Hi, Hh, Hd. do 2 f_equal.
  set (n := Z.min max (g_count s)).
  assert (Hn : zlen (ztake n (items s)) = n) by (rewrite zlen_take; unfold n; lia).
  unfold splice. change (ztake 0 (zrep STDIN_BUF_SIZE 0)) with (@nil Z). simpl.
  unfold ztake at 2. rewrite take_app_le, take_ge by (unfold zlen in Hn; lia). done.
Qed.

Lemma discard_many_sim max s : wf s -> 0 <= max < 2 ^ 64 ->
  wf (stdin_buf_discard_many max s).2 /\
  spec_op (DiscardMany max) (abs s) =
  (mkRes (stdin_buf_discard_many max s).1 [] None, abs (stdin_buf_discard_many max s).2).
Proof.
  intros Hw Hm. pose proof (zlen_items s Hw) as Hl. pose proof (wf_count s Hw).
  unfold stdin_buf_discard_many.
  destruct (discard_loop_spec (Z.to_nat STDIN_BUF_SIZE) max 0 s) as (s' & -> & ? & Hi & Hh & Hd);
    try done; try lia.
  rewrite Z.sub_0_r, Z.add_0_l in *. split; [done|].
  unfold abs, spec_op; simpl. by rewrite Hl, Hi, Hh, Hd.
Qed.

(** Every operation simulates its specification. *)
Lemma op_sim o s : wf s -> op_ok o ->
  wf (run_op o s).2 /\ spec_op o (abs s) = ((run_op o s).1, abs (run_op o s).2).
Proof.
  intros Hw Ho. pose proof (zlen_items s Hw) as Hl. pose proof (wf_count s Hw).
  destruct o as [c| |max|max| | |]; [by apply push_sim | by apply pop_sim | by apply pop_many_sim | | | |].
  - destruct (discard_many_sim max s Hw Ho) as [? E].
    unfold run_op. destruct (stdin_buf_discard_many max s). by split.
  - destruct (discard_many_sim STDIN_BUF_SIZE s Hw ltac:(done)) as [? E].
    unfold run_op, stdin_buf_discard_all.
    destruct (stdin_buf_discard_many STDIN_BUF_SIZE s) as [n s']. split; [done|].
    cbn [fst snd] in *. rewrite <- E. simpl. rewrite Hl.
    by replace (Z.min STDIN_BUF_SIZE (g_count s)) with (g_count s) by lia.
  - split; [done|]. simpl. unfold STDIN_BUF_SIZE in *. rewrite Hl, u64_small by lia. done.
  - split; [by destruct Hw|]. unfold abs; simpl. by rewrite Hl.
Qed.

(** ** Properties *)

(** C28. The ring behaves as a bounded FIFO queue: for every sequence of pushes,
    pops, bulk pops, discards, snapshots and diagnostics resets, each call returns
    what the 256-byte queue specification returns: bytes come out in the order they
    went in, an overflowing push drops the new byte and counts it, and the
    watermark is the highest occupancy seen. *)
Theorem stdin_buf_refines s ops : wf s -> Forall op_ok ops ->
  run_ops run_op ops s = run_ops spec_op ops (abs s).
Proof.
  intros Hw Hops. revert s Hw. induction Hops as [|o ops Ho Hops IH]; intros s Hw; [done|].
  destruct (op_sim o s Hw Ho) as [Hw' E]. cbn [run_ops]. rewrite E; cbn [fst snd].
  f_equal. by apply IH.
Qed.

Lemma stdin_buf_refines_witness :
  r_bytes <$> run_ops run_op [Push 104; Push 105; PopMany 8; Pop; Snapshot] stdin_buf_init =
  [[]; []; [104; 105]; []; []].
Proof.
  rewrite (stdin_buf_refines stdin_buf_init); [reflexivity | apply stdin_init_wf |].
  repeat (apply Forall_cons_2; [simpl; solve [done | lia]|]). apply Forall_nil_2.
Defined.
