(* ===== verification/OpBudget.v ===== *)
(** * Operation budgets

    Models src/util/op_budget.c: the cooperative budget long operations call
    [op_budget_take] on inside their loops.  A NULL [struct op_budget *] is
    [None]; a C string is the list of its bytes, [None] when NULL; the reason
    buffer is the 64-byte array of the structure. *)
From S2P Require Import Prelude.
Local Open Scope capy_scope.

Definition OP_BUDGET_REASON_MAX : Z := 64.
Definition OP_BUDGET_OK : Z := 0.
Definition OP_BUDGET_EXHAUSTED : Z := 1.
Definition OP_BUDGET_CANCELLED : Z := 2.

Record op_budget := mkBudget {
  label : option (list Z);
  total : Z;
  consumed : Z;
  state : Z;
  cancel_requested : Z;
  reason : list Z }.

(** Byte [i] of a NUL-terminated string. *)
Definition cstr_at (s : list Z) (i : Z) : Z := s.[i].

(** [while (reason[i] && i + 1 < OP_BUDGET_REASON_MAX) { ... i++; }] *)
Fixpoint copy_reason_loop (fuel : nat) (i : Z) (src dst : list Z) : list Z :=
  match fuel with
  | O => aset dst i 0
  | S fuel =>
      if truthy (cstr_at src i) && (i + 1 <? OP_BUDGET_REASON_MAX)
      then copy_reason_loop fuel (i + 1) src (aset dst i (cstr_at src i))
      else aset dst i 0
  end.

Definition set_reason (b : op_budget) (r : list Z) : op_budget :=
  mkBudget (label b) (total b) (consumed b) (state b) (cancel_requested b) r.

Definition op_budget_copy_reason (b : op_budget) (r : option (list Z)) : op_budget :=
  match r with
  | None => set_reason b (aset (reason b) 0 0)
  | Some src =>
      set_reason b (copy_reason_loop (Z.to_nat OP_BUDGET_REASON_MAX) 0 src (reason b))
  end.

Arguments op_budget_copy_reason : simpl never.

Definition with_fields (b : op_budget) (c st cr : Z) : op_budget :=
  mkBudget (label b) (total b) c st cr (reason b).

Definition op_budget_init (b : option op_budget) (lbl : option (list Z)) (tot : Z)
  : option op_budget :=
  match b with
  | None => None
  | Some b => Some (mkBudget lbl tot 0 OP_BUDGET_OK 0 (aset (reason b) 0 0))
  end.

Definition op_budget_reset (b : option op_budget) : option op_budget :=
  match b with
  | None => None
  | Some b => Some (mkBudget (label b) (total b) 0 OP_BUDGET_OK 0 (aset (reason b) 0 0))
  end.

(** ["operation cancelled"], ["budget overflow"], ["budget exhausted"], ["cancelled"],
    ["exhausted"]. *)
Definition msg_operation_cancelled : list Z :=
  [111;112;101;114;97;116;105;111;110;32;99;97;110;99;101;108;108;101;100].
Definition msg_budget_overflow : list Z := [98;117;100;103;101;116;32;111;118;101;114;102;108;111;119].
Definition msg_budget_exhausted : list Z :=
  [98;117;100;103;101;116;32;101;120;104;97;117;115;116;101;100].
Definition msg_cancelled : list Z := [99;97;110;99;101;108;108;101;100].
Definition msg_exhausted : list Z := [101;120;104;97;117;115;116;101;100].

Definition op_budget_take (b : option op_budget) (cost : Z) : Z * option op_budget :=
  match b with
  | None => (0, None)
  | Some b =>
      if truthy (cancel_requested b) then
        let b := with_fields b (consumed b) OP_BUDGET_CANCELLED (cancel_requested b) in
        (0, Some (if (reason b).[0] =? 0
                  then op_budget_copy_reason b (Some msg_operation_cancelled) else b))
      else if negb (state b =? OP_BUDGET_OK) then (0, Some b) else
      let cost := if cost =? 0 then 1 else cost in
      if u32 (consumed b + cost) <? consumed b then
        (0, Some (op_budget_copy_reason
                    (with_fields b (total b) OP_BUDGET_EXHAUSTED (cancel_requested b))
                    (Some msg_budget_overflow)))
      else if (0 <? total b) && (total b <? u32 (consumed b + cost)) then
        let b := with_fields b (total b) OP_BUDGET_EXHAUSTED (cancel_requested b) in
        (0, Some (if (reason b).[0] =? 0
                  then op_budget_copy_reason b (Some msg_budget_exhausted) else b))
      else (1, Some (with_fields b (u32 (consumed b + cost)) (state b) (cancel_requested b)))
  end.

Arguments op_budget_take : simpl never.

Definition op_budget_cancel (b : option op_budget) (r : option (list Z)) : option op_budget :=
  match b with
  | None => None
  | Some b => Some (op_budget_copy_reason (with_fields b (consumed b) OP_BUDGET_CANCELLED 1)
                      (Some (default msg_cancelled r)))
  end.

Definition op_budget_exhaust (b : option op_budget) (r : option (list Z)) : option op_budget :=
  match b with
  | None => None
  | Some b =>
      let b := with_fields b (consumed b) OP_BUDGET_EXHAUSTED (cancel_requested b) in
      let b := op_budget_copy_reason b (Some (default msg_exhausted r)) in
      Some (with_fields b (total b) (state b) (cancel_requested b))
  end.

Definition op_budget_remaining (b : option op_budget) : Z :=
  match b with
  | None => 0
  | Some b => if total b =? 0 then 0 else
              if total b <=? consumed b then 0 else u32 (total b - consumed b)
  end.

Definition op_budget_state (b : option op_budget) : Z :=
  match b with None => OP_BUDGET_OK | Some b => state b end.

(** The empty string for NULL. *)
Definition op_budget_reason (b : option op_budget) : list Z :=
  match b with None => [0] | Some b => reason b end.

Definition op_budget_is_blocked (b : option op_budget) : Z :=
  match b with None => 0 | Some b => of_bool (negb (state b =? OP_BUDGET_OK)) end.

(** ** Runs of a guarded operation *)
Inductive event :=
| Take (cost : Z)
| Cancel (r : option (list Z))
| Exhaust (r : option (list Z)).

Definition event_ok (e : event) : Prop :=
  match e with Take c => 0 <= c < 2 ^ 32 | _ => True end.

Definition unit_cost (c : Z) : Z := if c =? 0 then 1 else c.

(** One event: the answer of a take, and the budget it leaves. *)
Definition step (e : event) (b : op_budget) : option Z * op_budget :=
  match e with
  | Take c => let '(r, b') := op_budget_take (Some b) c in (Some r, default b b')
  | Cancel r => (None, default b (op_budget_cancel (Some b) r))
  | Exhaust r => (None, default b (op_budget_exhaust (Some b) r))
  end.

Fixpoint run (evs : list event) (b : op_budget) : list (Z * Z) * op_budget :=
  match evs with
  | [] => ([], b)
  | e :: evs =>
      let '(r, b1) := step e b in
      let '(rs, b2) := run evs b1 in
      (match e, r with Take c, Some r => (unit_cost c, r) :: rs | _, _ => rs end, b2)
  end.

(** Total cost of the takes that were admitted. *)
Definition admitted (rs : list (Z * Z)) : Z := foldr (fun cr acc => cr.2 * cr.1 + acc) 0 rs.

(** What a budget can still admit: its total, or 2^32 - 1 when it is unlimited. *)
Definition limit (b : op_budget) : Z := if total b =? 0 then 2 ^ 32 - 1 else total b.

Record budget_ok (b : op_budget) : Prop := {
  bo_total : 0 <= total b < 2 ^ 32;
  bo_consumed : 0 <= consumed b <= limit b;
  bo_reason : zlen (reason b) = OP_BUDGET_REASON_MAX;
  bo_nul : exists i, 0 <= i < OP_BUDGET_REASON_MAX /\ (reason b).[i] = 0;
  bo_cancel : cancel_requested b <> 0 -> state b <> OP_BUDGET_OK }.

Lemma copy_reason_loop_spec fuel i src dst : 0 <= i < OP_BUDGET_REASON_MAX ->
  OP_BUDGET_REASON_MAX - 1 - i <= Z.of_nat fuel -> zlen dst = OP_BUDGET_REASON_MAX ->
  zlen (copy_reason_loop fuel i src dst) = OP_BUDGET_REASON_MAX /\
  exists j, 0 <= j < OP_BUDGET_REASON_MAX /\ (copy_reason_loop fuel i src dst).[j] = 0.
Proof.
  assert (Hend : forall i dst, 0 <= i < OP_BUDGET_REASON_MAX -> zlen dst = OP_BUDGET_REASON_MAX ->
    zlen (aset dst i 0) = OP_BUDGET_REASON_MAX /\
    exists j, 0 <= j < OP_BUDGET_REASON_MAX /\ (aset dst i 0).[j] = 0).
  { intros j d Hj Hd. split; [by rewrite zlen_aset|]. exists j. split; [done|].
    apply aget_aset_eq. lia. }
  revert i dst. induction fuel as [|fuel IH]; intros i dst Hi Hf Hl; simpl; [by apply Hend|].
  destr_if; bools; [|by apply Hend].
  apply IH; rewrite ?zlen_aset; lia.
Qed.

Lemma copy_reason_ok b r : budget_ok b -> budget_ok (op_budget_copy_reason b r).
Proof.
  intros []. destruct r as [src|]; unfold op_budget_copy_reason.
  - destruct (copy_reason_loop_spec (Z.to_nat OP_BUDGET_REASON_MAX) 0 src (reason b)) as [? ?];
      unfold OP_BUDGET_REASON_MAX in *; try done; try lia.
  - constructor; simpl; try done; [by rewrite zlen_aset|].
    exists 0. split; [done|]. apply aget_aset_eq. unfold OP_BUDGET_REASON_MAX in *. lia.
Qed.

(** A refusal leaves a blocked budget with the same total. *)
Lemma take_spec b c : budget_ok b -> 0 <= c < 2 ^ 32 ->
  let '(r, b') := step (Take c) b in
  budget_ok b' /\ total b' = total b /\
  ((r = Some 1 /\ state b = OP_BUDGET_OK /\ state b' = OP_BUDGET_OK /\
    consumed b' = consumed b + unit_cost c) \/
   (r = Some 0 /\ state b' <> OP_BUDGET_OK)).
Proof.
  intros Hok Hc. pose proof Hok as []. unfold step, op_budget_take, unit_cost, limit in *.
  destruct (truthy (cancel_requested b)) eqn:Hcr; simpl.
  { assert (budget_ok (with_fields b (consumed b) OP_BUDGET_CANCELLED (cancel_requested b)))
      by (by constructor).
    destruct ((reason b).[0] =? 0); simpl; splits; try done; [by apply copy_reason_ok | by right | by right]. }
  destruct (Z.eqb_spec (state b) OP_BUDGET_OK) as [Hst|Hst]; simpl; [|splits; [done | done | by right]].
  set (k := if c =? 0 then 1 else c). assert (Hk : 1 <= k < 2 ^ 32) by (unfold k; destruct (Z.eqb_spec c 0); lia).
  assert (Hex : budget_ok (with_fields b (total b) OP_BUDGET_EXHAUSTED (cancel_requested b))).
  { constructor; try done. simpl. unfold limit; simpl. destruct (Z.eqb_spec (total b) 0); lia. }
  destruct (Z.lt_ge_cases (consumed b + k) (2 ^ 32)) as [Hno|Hov].
  - rewrite (u32_small (consumed b + k)) by lia.
    replace (consumed b + k <? consumed b) with false by lia.
    destruct ((0 <? total b) && (total b <? consumed b + k)) eqn:E; simpl.
    + destruct ((reason b).[0] =? 0); simpl; splits; try done; [by apply copy_reason_ok | by right | by right].
    + splits; [|done|by left]. constructor; simpl; try done.
      unfold limit; simpl. destruct (Z.eqb_spec (total b) 0); [lia|].
      apply andb_false_iff in E. destruct E; bools; lia.
  - assert (consumed b < 2 ^ 32) by (destruct (Z.eqb_spec (total b) 0); lia).
    replace (u32 (consumed b + k)) with (consumed b + k - 2 ^ 32).
    2: { unfold u32. rewrite <- (Z.mod_add _ (-1)), Z.mod_small by lia. lia. }
    replace (consumed b + k - 2 ^ 32 <? consumed b) with true by lia. simpl.
    splits; [by apply copy_reason_ok | done | by right].
Qed.

Lemma other_spec e b : budget_ok b -> (forall c, e <> Take c) ->
  let '(r, b') := step e b in
  budget_ok b' /\ total b' = total b /\ state b' <> OP_BUDGET_OK /\ r = None.
Proof.
  intros Hok Hne. pose proof Hok as []. destruct e as [c|r|r]; [by destruct (Hne c) | |]; simpl.
  - splits; try done. apply copy_reason_ok. by constructor.
  - unfold limit in *. assert (Hex : budget_ok (with_fields b (consumed b) OP_BUDGET_EXHAUSTED (cancel_requested b)))
      by (by constructor).
    pose proof (copy_reason_ok _ (Some (default msg_exhausted r)) Hex) as [? _ ? ? ?].
    simpl in *. splits; try done.
    constructor; try done. simpl. unfold limit; simpl.
    simpl. destruct (Z.eqb_spec (total b) 0); lia.
Qed.

(** A blocked budget admits nothing. *)
Lemma blocked_run evs b : budget_ok b -> Forall event_ok evs -> state b <> OP_BUDGET_OK ->
  Forall (fun cr => cr.2 = 0) (run evs b).1 /\ state (run evs b).2 <> OP_BUDGET_OK /\
  budget_ok (run evs b).2.
Proof.
  intros Hok Hev. revert b Hok. induction Hev as [|e evs He Hev IH]; intros b Hok Hst; simpl; [by splits|].
  destruct e as [c|r|r].
  1: pose proof (take_spec b c Hok He) as H.
  2: pose proof (other_spec (Cancel r) b Hok ltac:(done)) as H.
  3: pose proof (other_spec (Exhaust r) b Hok ltac:(done)) as H.
  all: destruct (step _ b) as [res b1].
  2-3: destruct H as (Hok1 & _ & Hst1 & _); specialize (IH b1 Hok1 Hst1); destruct (run evs b1); by simpl in *.
  destruct H as (Hok1 & _ & [(-> & Hst' & _)|(-> & Hst1)]); [done|].
  specialize (IH b1 Hok1 Hst1). destruct (run evs b1). simpl in *.
  destruct IH as (? & ? & ?). splits; try done. by constructor.
Qed.

Lemma admitted_zero rs : Forall (fun cr => cr.2 = 0) rs -> admitted rs = 0.
Proof. induction 1 as [|[c r] rs Hr _ IH]; [done|]. simpl in *. by rewrite Hr, IH. Qed.

(** ** Properties *)

(** A budget bounds the work it guards: over any sequence of takes,
    cancellations and explicit exhaustions, the admitted takes form a prefix (once a
    take is refused every later one is), the cost admitted (0 counts as 1) plus what
    was already consumed is at most the total (2^32 - 1 for an unlimited budget, so
    the 32-bit counter never wraps), and the reason stays NUL-terminated. *)
Theorem op_budget_admission b evs : budget_ok b -> Forall event_ok evs ->
  let rs := (run evs b).1 in
  consumed b + admitted rs <= limit b /\
  (exists n, Forall (fun cr => cr.2 = 1) (take n rs) /\ Forall (fun cr => cr.2 = 0) (drop n rs)) /\
  budget_ok (run evs b).2.
Proof.
  intros Hok Hev. revert b Hok. induction Hev as [|e evs He Hev IH]; intros b Hok rs.
  { subst rs. simpl. destruct Hok. splits; [lia | exists O; by split | done]. }
  destruct (decide (state b = OP_BUDGET_OK)) as [Hst|Hst].
  2: { destruct (blocked_run (e :: evs) b) as (Hz & _ & Hok'); [done | by constructor | done |].
       subst rs. rewrite (admitted_zero _ Hz). destruct Hok. splits; [lia | by exists O | done]. }
  subst rs. destruct e as [c|r|r]; simpl.
  1: pose proof (take_spec b c Hok He) as H; simpl in H.
  2: pose proof (other_spec (Cancel r) b Hok ltac:(done)) as H; simpl in H.
  3: pose proof (other_spec (Exhaust r) b Hok ltac:(done)) as H; simpl in H.
  2-3: destruct H as (Hok1 & _ & Hst1 & _);
    destruct (blocked_run evs _ Hok1 Hev Hst1) as (Hz & _ & Hok'); destruct (run evs _) as [rs b2];
    cbn [fst snd] in *; rewrite (admitted_zero _ Hz); destruct Hok; splits; [lia | by exists O | done].
  destruct (op_budget_take (Some b) c) as [r ob]; simpl in *.
  set (b1 := default b ob) in *. destruct H as (Hok1 & Ht & [(Er & _ & _ & Hc)|(Er & Hst1)]);
    injection Er as ->.
  - destruct (IH b1 Hok1) as (Hle & (n & Hn1 & Hn2) & Hok2). destruct (run evs b1) as [rs b2].
    cbn [fst snd] in *. unfold limit in *. rewrite Ht in *. splits; [|exists (S n)|done].
    + simpl. lia.
    + split; [by constructor | done].
  - destruct (blocked_run evs b1 Hok1 Hev Hst1) as (Hz & _ & Hok'). destruct (run evs b1) as [rs b2].
    cbn [fst snd] in *. destruct Hok. splits; [|exists O|done].
    + simpl. rewrite (admitted_zero _ Hz). lia.
    + split; [constructor | by constructor].
Qed.

Lemma op_budget_admission_witness :
  let b := mkBudget None 5 0 OP_BUDGET_OK 0 (zrep 64 0) in
  0 + admitted (run [Take 2; Take 0; Take 4; Take 1] b).1 <= 5 /\
  (run [Take 2; Take 0; Take 4; Take 1] b).1 = [(2, 1); (1, 1); (4, 0); (1, 0)].
Proof.
  cbv zeta. split; [|vm_compute; reflexivity].
  apply (op_budget_admission (mkBudget None 5 0 OP_BUDGET_OK 0 (zrep 64 0))).
  - constructor; simpl; [lia | unfold limit; simpl; lia | reflexivity | exists 0; split; [done | reflexivity] | done].
  - repeat (apply Forall_cons_2; [simpl; lia|]). apply Forall_nil_2.
Defined.
