(* ===== verification/BlockDevice.v ===== *)
(** * Block devices

    Models the generic block layer: the error classifiers
    (src/drivers/storage/block_error.c), the device record with its optional
    operations and the retry policy (src/fs/storage/block_device.c).

    A device driver is a record of optional functions over a world [W] the whole
    development is parametric in; a C buffer that an operation fills is passed in
    and returned, so that a failing driver may leave anything in it.  [DiskSpec]
    is the interface the layers above rely on: a device is an array of blocks, a
    successful read returns the block, a successful write replaces it, and a
    failing write damages at most the block it addresses. *)
From Stdlib Require Import String.
From S2P Require Import Prelude.
Local Open Scope capy_scope.

(** ** Error classes *)
Inductive block_io_error_class :=
| BLOCK_IO_OK
| BLOCK_IO_ERR_TRANSIENT
| BLOCK_IO_ERR_PERMANENT
| BLOCK_IO_ERR_TIMEOUT
| BLOCK_IO_ERR_DEVICE_GONE.

#[global] Instance block_io_error_class_eq_dec : EqDecision block_io_error_class.
Proof. solve_decision. Defined.

Definition cls_eqb (a b : block_io_error_class) : bool := bool_decide (a = b).

Definition bit (n : Z) : Z := Z.shiftl 1 n.

Definition BLK_AHCI_IS_TFES : Z := bit 30.
Definition BLK_AHCI_TFD_STS_ERR : Z := bit 0.
Definition BLK_AHCI_TFD_STS_DF : Z := bit 5.
Definition BLK_AHCI_TFD_ERROR_SHIFT : Z := 8.
Definition BLK_AHCI_TFD_ERROR_MASK : Z := 0xFF.
Definition BLK_ATA_ERR_AMNF : Z := bit 0.
Definition BLK_ATA_ERR_ABRT : Z := bit 2.
Definition BLK_ATA_ERR_IDNF : Z := bit 4.
Definition BLK_ATA_ERR_UNC : Z := bit 6.

Definition block_io_classify_ahci (pxis pxtfd timed_out port_present : Z)
  : block_io_error_class :=
  if negb (truthy port_present) then BLOCK_IO_ERR_DEVICE_GONE else
  if truthy timed_out then BLOCK_IO_ERR_TIMEOUT else
  if (Z.land pxis BLK_AHCI_IS_TFES =? 0) &&
     (Z.land pxtfd (Z.lor BLK_AHCI_TFD_STS_ERR BLK_AHCI_TFD_STS_DF) =? 0)
  then BLOCK_IO_OK else
  if negb (Z.land pxtfd BLK_AHCI_TFD_STS_DF =? 0) then BLOCK_IO_ERR_PERMANENT else
  let err := Z.land (Z.shiftr pxtfd BLK_AHCI_TFD_ERROR_SHIFT) BLK_AHCI_TFD_ERROR_MASK in
  if truthy (Z.land err (Z.lor (Z.lor BLK_ATA_ERR_UNC BLK_ATA_ERR_IDNF) BLK_ATA_ERR_AMNF))
  then BLOCK_IO_ERR_PERMANENT else
  if truthy (Z.land err BLK_ATA_ERR_ABRT) then BLOCK_IO_ERR_PERMANENT else
  BLOCK_IO_ERR_TRANSIENT.

Definition BLK_NVME_SC_SHIFT : Z := 1.
Definition BLK_NVME_SC_MASK : Z := 0xFF.
Definition BLK_NVME_SCT_SHIFT : Z := 9.
Definition BLK_NVME_SCT_MASK : Z := 0x7.
Definition BLK_NVME_DNR_BIT : Z := bit 15.

Definition block_io_classify_nvme (status timed_out : Z) : block_io_error_class :=
  if truthy timed_out then BLOCK_IO_ERR_TIMEOUT else
  let sc := Z.land (Z.shiftr status BLK_NVME_SC_SHIFT) BLK_NVME_SC_MASK in
  let sct := Z.land (Z.shiftr status BLK_NVME_SCT_SHIFT) BLK_NVME_SCT_MASK in
  if (sc =? 0) && (sct =? 0) then BLOCK_IO_OK else
  if sct =? 3 then BLOCK_IO_ERR_DEVICE_GONE else
  if sct =? 2 then BLOCK_IO_ERR_PERMANENT else
  if truthy (Z.land status BLK_NVME_DNR_BIT) then BLOCK_IO_ERR_PERMANENT else
  BLOCK_IO_ERR_TRANSIENT.

Definition BLK_SRB_STATUS_MASK : Z := 0x3F.

(** The first switch, on [srb_base]; [None] is the [break]. *)
Definition srb_class (srb_base : Z) : option block_io_error_class :=
  match srb_base with
  | 0 | 0x01 => None
  | 0x09 | 0x0B => Some BLOCK_IO_ERR_TIMEOUT
  | 0x0A | 0x07 | 0x08 | 0x11 | 0x20 | 0x21 => Some BLOCK_IO_ERR_DEVICE_GONE
  | 0x02 | 0x05 | 0x0E | 0x0F | 0x13 | 0x14 | 0x16 | 0x23 => Some BLOCK_IO_ERR_TRANSIENT
  | _ => Some BLOCK_IO_ERR_PERMANENT
  end.

(** The second switch, on [scsi_status]. *)
Definition scsi_class (scsi_status : Z) : block_io_error_class :=
  match scsi_status with
  | 0x00 => BLOCK_IO_OK
  | 0x08 | 0x28 | 0x30 | 0x40 => BLOCK_IO_ERR_TRANSIENT
  | _ => BLOCK_IO_ERR_PERMANENT
  end.

Definition block_io_classify_scsi (scsi_status srb_status timed_out device_present : Z)
  : block_io_error_class :=
  if negb (truthy device_present) then BLOCK_IO_ERR_DEVICE_GONE else
  if truthy timed_out then BLOCK_IO_ERR_TIMEOUT else
  match srb_class (Z.land srb_status BLK_SRB_STATUS_MASK) with
  | Some c => c
  | None => scsi_class scsi_status
  end.

Definition block_io_error_class_name (cls : block_io_error_class) : string :=
  match cls with
  | BLOCK_IO_OK => "ok"
  | BLOCK_IO_ERR_TRANSIENT => "transient"
  | BLOCK_IO_ERR_PERMANENT => "permanent"
  | BLOCK_IO_ERR_TIMEOUT => "timeout"
  | BLOCK_IO_ERR_DEVICE_GONE => "device-gone"
  end.

Definition block_io_should_retry (cls : block_io_error_class) : bool :=
  cls_eqb cls BLOCK_IO_ERR_TRANSIENT || cls_eqb cls BLOCK_IO_ERR_TIMEOUT.

(** ** Devices *)
Definition BLOCK_RETRY_BUDGET_TRANSIENT : Z := 3.
Definition BLOCK_RETRY_BUDGET_TIMEOUT : Z := 1.

(** [const struct block_device_ops], a NULL function pointer being [None]; the
    [ctx] argument is part of the closure. *)
Record block_device_ops (W : Type) := mkOps {
  op_read_block : option (Z -> list Z -> W -> Z * list Z * W);
  op_write_block : option (Z -> list Z -> W -> Z * W);
  op_read_block_ex : option (Z -> list Z -> W -> block_io_error_class * list Z * W);
  op_write_block_ex : option (Z -> list Z -> W -> block_io_error_class * W);
  op_reset : option (W -> Z * W);
  op_flush : option (W -> Z * W);
  op_flush_ex : option (W -> block_io_error_class * W) }.
Arguments mkOps {W}.
Arguments op_read_block {W}.
Arguments op_write_block {W}.
Arguments op_read_block_ex {W}.
Arguments op_write_block_ex {W}.
Arguments op_reset {W}.
Arguments op_flush {W}.
Arguments op_flush_ex {W}.

Record block_device (W : Type) := mkDev {
  dev_name : string;
  dev_block_size : Z;
  dev_block_count : Z;
  dev_ops : option (block_device_ops W) }.
Arguments mkDev {W}.
Arguments dev_name {W}.
Arguments dev_block_size {W}.
Arguments dev_block_count {W}.
Arguments dev_ops {W}.

Section device.
Context {W : Type}.
Implicit Types (ops : block_device_ops W) (w : W) (cls : block_io_error_class).

Definition legacy_class (rc : Z) : block_io_error_class :=
  if rc =? 0 then BLOCK_IO_OK else BLOCK_IO_ERR_PERMANENT.

Definition block_call_read ops (block_no : Z) (buffer : list Z) w
  : block_io_error_class * list Z * W :=
  match op_read_block_ex ops with
  | Some f => f block_no buffer w
  | None =>
      match op_read_block ops with
      | None => (BLOCK_IO_ERR_PERMANENT, buffer, w)
      | Some f => let '(rc, b, w) := f block_no buffer w in (legacy_class rc, b, w)
      end
  end.

Definition block_call_write ops (block_no : Z) (buffer : list Z) w
  : block_io_error_class * W :=
  match op_write_block_ex ops with
  | Some f => f block_no buffer w
  | None =>
      match op_write_block ops with
      | None => (BLOCK_IO_ERR_PERMANENT, w)
      | Some f => let '(rc, w) := f block_no buffer w in (legacy_class rc, w)
      end
  end.

Definition block_device_flush_once_ex (dev : option (block_device W)) w
  : block_io_error_class * W :=
  match dev ≫= dev_ops with
  | None => (BLOCK_IO_ERR_PERMANENT, w)
  | Some ops =>
      match op_flush_ex ops with
      | Some f => f w
      | None =>
          match op_flush ops with
          | None => (BLOCK_IO_ERR_PERMANENT, w)
          | Some f => let '(rc, w) := f w in (legacy_class rc, w)
          end
      end
  end.

(** The retried call: the active buffer is the one of the direction. *)
Definition retry_call ops (is_write : bool) (block_no : Z) (buf : list Z) w
  : block_io_error_class * list Z * W :=
  if is_write
  then let '(cls, w) := block_call_write ops block_no buf w in (cls, buf, w)
  else block_call_read ops block_no buf w.

(** The [while] of [block_retry_loop].  Each turn spends one unit of one budget, so
    [budget_transient + budget_timeout] turns is all it can make. *)
Fixpoint retry_loop (fuel : nat) ops (is_write : bool) (block_no : Z)
    (budget_transient budget_timeout : Z) (reset_attempted : bool)
    cls (buf : list Z) w : block_io_error_class * list Z * W :=
  if negb (block_io_should_retry cls) then (cls, buf, w) else
  match fuel with
  | O => (cls, buf, w)
  | S fuel =>
      if cls_eqb cls BLOCK_IO_ERR_TIMEOUT then
        if budget_timeout <=? 0 then (cls, buf, w) else
        match op_reset ops with
        | None => (BLOCK_IO_ERR_PERMANENT, buf, w)
        | Some reset =>
            if reset_attempted then (BLOCK_IO_ERR_PERMANENT, buf, w) else
            let '(rc, w) := reset w in
            if negb (rc =? 0) then (BLOCK_IO_ERR_PERMANENT, buf, w) else
            let '(cls, buf, w) := retry_call ops is_write block_no buf w in
            retry_loop fuel ops is_write block_no budget_transient (budget_timeout - 1) true
              cls buf w
        end
      else
        if budget_transient <=? 0 then (cls, buf, w) else
        let '(cls, buf, w) := retry_call ops is_write block_no buf w in
        retry_loop fuel ops is_write block_no (budget_transient - 1) budget_timeout
          reset_attempted cls buf w
  end.

Definition retry_fuel : nat := Z.to_nat (BLOCK_RETRY_BUDGET_TRANSIENT + BLOCK_RETRY_BUDGET_TIMEOUT + 1).

Definition block_retry_loop ops cls (is_write : bool) (block_no : Z) (buf : list Z) w :=
  retry_loop retry_fuel ops is_write block_no BLOCK_RETRY_BUDGET_TRANSIENT
    BLOCK_RETRY_BUDGET_TIMEOUT false cls buf w.

Definition block_device_read_ex (dev : option (block_device W)) (block_no : Z)
    (buffer : option (list Z)) w : block_io_error_class * option (list Z) * W :=
  match dev, dev ≫= dev_ops, buffer with
  | Some dev, Some ops, Some buf =>
      if dev_block_count dev <=? block_no then (BLOCK_IO_ERR_PERMANENT, buffer, w) else
      let '(cls, buf, w) := block_call_read ops block_no buf w in
      let '(cls, buf, w) := block_retry_loop ops cls false block_no buf w in
      (cls, Some buf, w)
  | _, _, _ => (BLOCK_IO_ERR_PERMANENT, buffer, w)
  end.

Definition block_device_write_ex (dev : option (block_device W)) (block_no : Z)
    (buffer : option (list Z)) w : block_io_error_class * W :=
  match dev, dev ≫= dev_ops, buffer with
  | Some dev, Some ops, Some buf =>
      if dev_block_count dev <=? block_no then (BLOCK_IO_ERR_PERMANENT, w) else
      let '(cls, w) := block_call_write ops block_no buf w in
      let '(cls, _, w) := block_retry_loop ops cls true block_no buf w in
      (cls, w)
  | _, _, _ => (BLOCK_IO_ERR_PERMANENT, w)
  end.

Definition block_device_supports_flush (dev : option (block_device W)) : bool :=
  match dev ≫= dev_ops with
  | None => false
  | Some ops => bool_decide (is_Some (op_flush_ex ops)) || bool_decide (is_Some (op_flush ops))
  end.

(** [while (cls == TRANSIENT && budget-- > 0) cls = flush_once(dev);] *)
Fixpoint flush_loop (budget : nat) (dev : option (block_device W)) cls w
  : block_io_error_class * W :=
  if cls_eqb cls BLOCK_IO_ERR_TRANSIENT then
    match budget with
    | O => (cls, w)
    | S budget => let '(cls, w) := block_device_flush_once_ex dev w in flush_loop budget dev cls w
    end
  else (cls, w).

Definition block_device_flush_ex (dev : option (block_device W)) w : block_io_error_class * W :=
  if negb (block_device_supports_flush dev) then (BLOCK_IO_ERR_PERMANENT, w) else
  let '(cls, w) := block_device_flush_once_ex dev w in
  flush_loop (Z.to_nat BLOCK_RETRY_BUDGET_TRANSIENT) dev cls w.

Definition class_rc cls : Z := if cls_eqb cls BLOCK_IO_OK then 0 else -1.

Definition block_device_flush (dev : option (block_device W)) w : Z * W :=
  let '(cls, w) := block_device_flush_ex dev w in (class_rc cls, w).

Definition block_device_read (dev : option (block_device W)) (block_no : Z) (buffer : list Z) w
  : Z * list Z * W :=
  match dev with
  | None => (-1, buffer, w)
  | Some d =>
      match dev_ops d with
      | None => (-1, buffer, w)
      | Some ops =>
          match op_read_block_ex ops with
          | None =>
              match op_read_block ops with
              | None => (-1, buffer, w)
              | Some f => if dev_block_count d <=? block_no then (-1, buffer, w)
                          else f block_no buffer w
              end
          | Some _ =>
              let '(cls, b, w) := block_device_read_ex dev block_no (Some buffer) w in
              (class_rc cls, default buffer b, w)
          end
      end
  end.

Definition block_device_write (dev : option (block_device W)) (block_no : Z) (buffer : list Z) w
  : Z * W :=
  match dev with
  | None => (-1, w)
  | Some d =>
      match dev_ops d with
      | None => (-1, w)
      | Some ops =>
          match op_write_block_ex ops with
          | None =>
              match op_write_block ops with
              | None => (-1, w)
              | Some f => if dev_block_count d <=? block_no then (-1, w) else f block_no buffer w
              end
          | Some _ =>
              let '(cls, w) := block_device_write_ex dev block_no (Some buffer) w in
              (class_rc cls, w)
          end
      end
  end.
End device.

(** ** Counting driver calls

    [counted ops] is the same driver over a world that also counts its read and
    write calls and its resets; it is used to state the retry policy. *)
Section counted.
Context {W : Type}.

Definition tick_call (c : Z * Z) : Z * Z := (c.1 + 1, c.2).
Definition tick_reset (c : Z * Z) : Z * Z := (c.1, c.2 + 1).

Definition counted_rd {R} (f : Z -> list Z -> W -> R * list Z * W) (n : Z) (b : list Z)
    (wc : W * (Z * Z)) : R * list Z * (W * (Z * Z)) :=
  let '(r, b, w) := f n b wc.1 in (r, b, (w, tick_call wc.2)).
Definition counted_wr {R} (f : Z -> list Z -> W -> R * W) (n : Z) (b : list Z)
    (wc : W * (Z * Z)) : R * (W * (Z * Z)) :=
  let '(r, w) := f n b wc.1 in (r, (w, tick_call wc.2)).
Definition counted_nop {R} (g : Z * Z -> Z * Z) (f : W -> R * W) (wc : W * (Z * Z))
  : R * (W * (Z * Z)) :=
  let '(r, w) := f wc.1 in (r, (w, g wc.2)).

Definition counted (ops : block_device_ops W) : block_device_ops (W * (Z * Z)) :=
  mkOps (counted_rd <$> op_read_block ops) (counted_wr <$> op_write_block ops)
    (counted_rd <$> op_read_block_ex ops) (counted_wr <$> op_write_block_ex ops)
    (counted_nop tick_reset <$> op_reset ops) (counted_nop id <$> op_flush ops)
    (counted_nop id <$> op_flush_ex ops).

Definition counted_dev (d : block_device W) : block_device (W * (Z * Z)) :=
  mkDev (dev_name d) (dev_block_size d) (dev_block_count d) (counted <$> dev_ops d).
End counted.

(** One extended transfer in either direction. *)
Definition transfer_ex {W} (is_write : bool) (d : block_device W) (n : Z) (buf : list Z) (w : W)
  : block_io_error_class * list Z * W :=
  if is_write then let '(cls, w) := block_device_write_ex (Some d) n (Some buf) w in (cls, buf, w)
  else let '(cls, b, w) := block_device_read_ex (Some d) n (Some buf) w in (cls, default buf b, w).

Section retry.
Context {W : Type}.
Implicit Types (ops : block_device_ops W) (w : W) (c : Z * Z) (cls : block_io_error_class).

Lemma retry_call_counted ops iw n buf w c :
  let '(cls, b, w') := retry_call ops iw n buf w in
  exists k, 0 <= k <= 1 /\ (cls <> BLOCK_IO_ERR_PERMANENT -> k = 1) /\
  retry_call (counted ops) iw n buf (w, c) = (cls, b, (w', (c.1 + k, c.2))).
Proof.
  destruct iw; unfold retry_call, block_call_read, block_call_write; simpl.
  - destruct (op_write_block_ex ops) as [f|]; [|destruct (op_write_block ops) as [f|]]; simpl;
      unfold counted_wr; simpl.
    1-2: destruct (f n buf w) as [r w']; exists 1; done.
    exists 0. split; [lia|]. by rewrite Z.add_0_r, <- surjective_pairing.
  - destruct (op_read_block_ex ops) as [f|]; [|destruct (op_read_block ops) as [f|]]; simpl;
      unfold counted_rd; simpl.
    1-2: destruct (f n buf w) as [[r b] w']; exists 1; done.
    exists 0. split; [lia|]. by rewrite Z.add_0_r, <- surjective_pairing.
Qed.

(** What the loop may have spent when it returns [cls'] with [calls] calls and
    [resets] resets: each budget at most once per turn, and a retryable class only
    when its budget is used up. *)
Definition spent (bt bto : Z) (cls' : block_io_error_class) (calls resets : Z) : Prop :=
  0 <= calls <= bt + bto /\ 0 <= resets <= bto /\
  (cls' = BLOCK_IO_ERR_TRANSIENT -> bt <= calls) /\
  (cls' = BLOCK_IO_ERR_TIMEOUT -> resets = bto /\ bto <= calls).

Lemma spent_none bt bto cls : 0 <= bt -> 0 <= bto ->
  (cls = BLOCK_IO_ERR_TRANSIENT -> bt <= 0) -> (cls = BLOCK_IO_ERR_TIMEOUT -> bto <= 0) ->
  spent bt bto cls 0 0.
Proof. intros ? ? Ha Hb. unfold spent. splits; try lia; intros E; [specialize (Ha E) | specialize (Hb E)]; lia. Qed.

(** A turn that was not a driver call ends the loop with a permanent error. *)
Lemma permanent_stops fuel ops iw n bt bto ra buf w :
  retry_loop fuel ops iw n bt bto ra BLOCK_IO_ERR_PERMANENT buf w = (BLOCK_IO_ERR_PERMANENT, buf, w).
Proof. by destruct fuel. Qed.

(** The loop on the counting driver follows the loop on the driver. *)
Lemma retry_loop_counted fuel ops iw n bt bto ra cls buf w c :
  0 <= bt -> 0 <= bto <= 1 -> bt + bto <= Z.of_nat fuel -> (bto = 1 -> ra = false) ->
  let '(cls', b', w') := retry_loop fuel ops iw n bt bto ra cls buf w in
  exists calls resets,
  retry_loop fuel (counted ops) iw n bt bto ra cls buf (w, c) =
    (cls', b', (w', (c.1 + calls, c.2 + resets))) /\
  spent bt bto cls' calls resets.
Proof.
  assert (Hz : forall c : Z * Z, (c.1 + 0, c.2 + 0) = c) by (intros []; by rewrite !Z.add_0_r).
  revert bt bto ra cls buf w c.
  induction fuel as [|fuel IH]; intros bt bto ra cls buf w c Hbt Hbto Hf Hra; simpl;
    destruct (block_io_should_retry cls) eqn:Hretry; simpl.
  1, 2, 4: exists 0, 0; rewrite Hz; split; [done|]; apply spent_none; try lia; intros ->; done.
  destruct (cls_eqb cls BLOCK_IO_ERR_TIMEOUT) eqn:Hto.
  - apply bool_decide_eq_true in Hto as ->.
    destruct (Z.leb_spec bto 0); [exists 0, 0; rewrite Hz; split; [done|]; by apply spent_none; try lia|].
    destruct (op_reset ops) as [reset|]; simpl;
      [|exists 0, 0; rewrite Hz; split; [done|]; by apply spent_none; try lia].
    rewrite Hra by lia. unfold counted_nop; simpl. destruct (reset w) as [rc w1].
    destruct (Z.eqb_spec rc 0); simpl.
    2: { exists 0, 1. rewrite Z.add_0_r. split; [done|]. unfold spent. splits; try done; lia. }
    pose proof (retry_call_counted ops iw n buf w1 (tick_reset c)) as Hc.
    destruct (retry_call ops iw n buf w1) as [[cls1 b1] w2]. destruct Hc as (k & Hk & Hk1 & ->).
    specialize (IH bt (bto - 1) true cls1 b1 w2 ((tick_reset c).1 + k, (tick_reset c).2)).
    destruct (retry_loop fuel ops iw n bt (bto - 1) true cls1 b1 w2) as [[cls2 b2] w3] eqn:E2.
    destruct IH as (calls & resets & -> & ? & ? & Htr & Hti); [lia..|].
    exists (k + calls), (1 + resets). unfold tick_reset; simpl. split; [do 3 f_equal; lia|].
    assert (Hp : cls2 <> BLOCK_IO_ERR_PERMANENT -> k = 1).
    { intros Hne. apply Hk1. intros ->. rewrite permanent_stops in E2. congruence. }
    unfold spent. splits; try lia; intros ->; [specialize (Htr eq_refl) | specialize (Hti eq_refl)];
      specialize (Hp ltac:(done)); lia.
  - destruct cls; try done.
    destruct (Z.leb_spec bt 0); [exists 0, 0; rewrite Hz; split; [done|]; by apply spent_none; try lia|].
    pose proof (retry_call_counted ops iw n buf w c) as Hc.
    destruct (retry_call ops iw n buf w) as [[cls1 b1] w2]. destruct Hc as (k & Hk & Hk1 & ->).
    specialize (IH (bt - 1) bto ra cls1 b1 w2 (c.1 + k, c.2)).
    destruct (retry_loop fuel ops iw n (bt - 1) bto ra cls1 b1 w2) as [[cls2 b2] w3] eqn:E2.
    destruct IH as (calls & resets & -> & ? & ? & Htr & Hti); [lia | lia | lia | done |].
    exists (k + calls), resets; simpl. split; [do 3 f_equal; lia|].
    assert (Hp : cls2 <> BLOCK_IO_ERR_PERMANENT -> k = 1).
    { intros Hne. apply Hk1. intros ->. rewrite permanent_stops in E2. congruence. }
    unfold spent. splits; try lia; intros ->; [specialize (Htr eq_refl) | specialize (Hti eq_refl)];
      specialize (Hp ltac:(done)); lia.
Qed.
End retry.

(** ** The interface of a block device *)

(** A device seen as an array of [dev_block_count] blocks of [dev_block_size] bytes.
    [disk_frame] is what the device's transfers leave alone: whatever else lives
    in the world. *)
Class DiskSpec {W : Type} (dev : block_device W) := {
  disk_inv : W -> Prop;
  disk_view : W -> Z -> list Z;
  disk_size : 0 < dev_block_size dev;
  disk_count : 0 <= dev_block_count dev < 2 ^ 32;
  disk_len w n : disk_inv w -> 0 <= n < dev_block_count dev ->
    zlen (disk_view w n) = dev_block_size dev;
  disk_read w n buf : disk_inv w -> 0 <= n -> zlen buf = dev_block_size dev ->
    let '(rc, buf', w') := block_device_read (Some dev) n buf w in
    disk_inv w' /\ zlen buf' = zlen buf /\ disk_view w' = disk_view w /\
    (rc = 0 -> n < dev_block_count dev /\ buf' = disk_view w n);
  disk_write w n data : disk_inv w -> 0 <= n -> zlen data = dev_block_size dev ->
    let '(rc, w') := block_device_write (Some dev) n data w in
    disk_inv w' /\ (forall m, 0 <= m -> m <> n -> disk_view w' m = disk_view w m) /\
    (rc = 0 -> n < dev_block_count dev /\ disk_view w' n = data) /\
    (dev_block_count dev <= n -> disk_view w' = disk_view w) }.

(** A device that never fails inside its range. *)
Class ReliableDisk {W : Type} (dev : block_device W) `{!DiskSpec dev} := {
  reliable_read w n buf : disk_inv w -> 0 <= n < dev_block_count dev ->
    zlen buf = dev_block_size dev -> (block_device_read (Some dev) n buf w).1.1 = 0;
  reliable_write w n data : disk_inv w -> 0 <= n < dev_block_count dev ->
    zlen data = dev_block_size dev -> (block_device_write (Some dev) n data w).1 = 0 }.

(** ** Lemmas on the classifiers *)
Lemma land_mask z k n : 0 <= k -> 0 <= n -> Z.land (Z.shiftr z k) (Z.ones n) = (z / 2 ^ k) `mod` 2 ^ n.
Proof. intros. rewrite Z.land_ones, Z.shiftr_div_pow2 by lia. done. Qed.

Lemma land_bit2 z i j : 0 <= i -> 0 <= j ->
  (Z.land z (Z.lor (Z.shiftl 1 i) (Z.shiftl 1 j)) =? 0) = negb (Z.testbit z i) && negb (Z.testbit z j).
Proof.
  intros. rewrite <- !land_bit, Z.land_lor_distr_r by lia.
  apply eq_true_iff_eq. rewrite andb_true_iff, !Z.eqb_eq. apply Z.lor_eq_0_iff.
Qed.

(** A bit field is zero when each of its bits is clear. *)
Lemma field_zero z k n : 0 <= k -> 0 <= n ->
  (z / 2 ^ k) `mod` 2 ^ n = 0 <-> forall i, k <= i < k + n -> Z.testbit z i = false.
Proof.
  intros Hk Hn. split.
  - intros E i Hi. assert (Z.testbit ((z / 2 ^ k) `mod` 2 ^ n) (i - k) = false) as H
      by (rewrite E; apply Z.bits_0).
    rewrite Z.mod_pow2_bits_low, Z.div_pow2_bits in H by lia. by rewrite Z.sub_add in H.
  - intros H. apply Z.bits_inj'. intros i Hi. rewrite Z.bits_0.
    destruct (Z.lt_ge_cases i n).
    + rewrite Z.mod_pow2_bits_low, Z.div_pow2_bits by lia. apply H. lia.
    + apply Z.mod_pow2_bits_high. lia.
Qed.

Lemma srb_class_ok x : srb_class x = None <-> x = 0 \/ x = 1.
Proof. unfold srb_class. repeat case_match; split; intros; try done; try lia; auto. Qed.

Lemma srb_class_not_ok x : srb_class x <> Some BLOCK_IO_OK.
Proof. unfold srb_class. repeat case_match; done. Qed.

Lemma scsi_class_ok x : scsi_class x = BLOCK_IO_OK <-> x = 0.
Proof. unfold scsi_class. repeat case_match; split; intros; try done; lia. Qed.

(** ** Properties *)

(** The retry policy is bounded and exhaustive: whatever the driver does, an
    extended transfer makes at most five driver calls and one reset and returns what
    the loop returns; it reports a transient error only after four calls, and a
    timeout only after a reset and a second call. *)
Theorem block_transfer_bounded {W} (d : block_device W) is_write n buf w :
  let '(cls, b, w') := transfer_ex is_write d n buf w in
  let '(cls', b', (w'', (calls, resets))) := transfer_ex is_write (counted_dev d) n buf (w, (0, 0)) in
  cls' = cls /\ b' = b /\ w'' = w' /\ 0 <= calls <= 5 /\ 0 <= resets <= 1 /\
  (cls = BLOCK_IO_ERR_TRANSIENT -> 4 <= calls) /\
  (cls = BLOCK_IO_ERR_TIMEOUT -> 2 <= calls /\ resets = 1).
Proof.
  unfold transfer_ex, block_device_read_ex, block_device_write_ex; simpl.
  destruct (dev_ops d) as [ops|] eqn:Hops; simpl; [|by destruct is_write; splits; try done; lia].
  destruct (Z.leb_spec (dev_block_count d) n) as [Hn|Hn]; [by destruct is_write; splits; try done; lia|].
  pose proof (retry_call_counted ops is_write n buf w (0, 0)) as Hc.
  destruct (retry_call ops is_write n buf w) as [[cls1 b1] w1] eqn:E1.
  destruct Hc as (k & Hk & Hk1 & E1').
  pose proof (retry_loop_counted retry_fuel ops is_write n 3 1 false cls1 b1 w1 (0 + k, 0)) as Hl.
  destruct (retry_loop retry_fuel ops is_write n 3 1 false cls1 b1 w1) as [[cls2 b2] w2] eqn:E2.
  destruct Hl as (calls & resets & E2' & Hs & Hr & Htr & Hti); [lia | lia | done | done |].
  assert (Hp : cls2 <> BLOCK_IO_ERR_PERMANENT -> k = 1).
  { intros Hne. apply Hk1. intros ->. rewrite permanent_stops in E2. congruence. }
  unfold block_retry_loop, BLOCK_RETRY_BUDGET_TRANSIENT, BLOCK_RETRY_BUDGET_TIMEOUT.
  destruct is_write; unfold retry_call in E1, E1'.
  - destruct (block_call_write ops n buf w) as [c0 w0]. injection E1 as <- <- <-. simpl in *.
    destruct (block_call_write (counted ops) n buf (w, (0, 0))) as [? [? [? ?]]].
    injection E1' as -> -> -> ->. rewrite E2. simpl in E2'. rewrite E2'. simpl.
    splits; try done; try lia; intros ->; specialize (Hp ltac:(done));
      [specialize (Htr eq_refl) | specialize (Hti eq_refl)]; lia.
  - rewrite E1, E2. simpl in E1', E2'. rewrite E1'. simpl. rewrite E2'. simpl.
    splits; try done; try lia; intros ->; specialize (Hp ltac:(done));
      [specialize (Htr eq_refl) | specialize (Hti eq_refl)]; lia.
Qed.

(** Each classifier reports success exactly on the clean completions of its
    interface: for AHCI, port present, no timeout, IS.TFES, STS.ERR and STS.DF
    clear; for NVMe, no timeout and status bits 1 to 11 (SC and SCT) clear; for
    SCSI, device present, no timeout, SRB status 0 or 1 and SCSI status GOOD. *)
Theorem block_classify_ok_exact :
  (forall pxis pxtfd t p, block_io_classify_ahci pxis pxtfd t p = BLOCK_IO_OK <->
     p <> 0 /\ t = 0 /\ Z.testbit pxis 30 = false /\ Z.testbit pxtfd 0 = false /\
     Z.testbit pxtfd 5 = false) /\
  (forall st t, block_io_classify_nvme st t = BLOCK_IO_OK <->
     t = 0 /\ forall i, 1 <= i < 12 -> Z.testbit st i = false) /\
  (forall ss srb t p, block_io_classify_scsi ss srb t p = BLOCK_IO_OK <->
     p <> 0 /\ t = 0 /\ (Z.land srb 0x3F = 0 \/ Z.land srb 0x3F = 1) /\ ss = 0).
Proof.
  unfold block_io_classify_ahci, block_io_classify_nvme, block_io_classify_scsi, truthy. splits.
  - intros pxis pxtfd t p. unfold BLK_AHCI_TFD_STS_ERR, BLK_AHCI_TFD_STS_DF, BLK_AHCI_IS_TFES, bit.
    destruct (Z.eqb_spec p 0); cbn [negb andb]; [split; [done | tauto]|].
    destruct (Z.eqb_spec t 0); cbn [negb andb]; [|split; [done | tauto]].
    rewrite land_bit, land_bit2, land_bit by lia.
    destruct (Z.testbit pxis 30), (Z.testbit pxtfd 0), (Z.testbit pxtfd 5); cbn [negb andb];
      repeat destr_if; split; intros; intuition congruence.
  - intros st t. destruct (Z.eqb_spec t 0); simpl; [|split; [done | tauto]].
    unfold BLK_NVME_SC_SHIFT, BLK_NVME_SC_MASK, BLK_NVME_SCT_SHIFT, BLK_NVME_SCT_MASK.
    change 0xFF with (Z.ones 8). change 0x7 with (Z.ones 3). rewrite !land_mask by lia.
    destruct (_ && _) eqn:E.
    + split; [|done]. intros _. split; [done|]. bools. intros i Hi.
      destruct (Z.lt_ge_cases i 9);
        [apply (field_zero st 1 8) | apply (field_zero st 9 3)]; try done; lia.
    + split; [repeat destr_if; done|]. intros [_ H]. exfalso. apply andb_false_iff in E.
      destruct E as [E|E]; bools; apply E, field_zero; try lia; intros; apply H; lia.
  - intros ss srb t p. destruct (Z.eqb_spec p 0); simpl; [split; [done | tauto]|].
    destruct (Z.eqb_spec t 0); simpl; [|split; [done | tauto]].
    pose proof (srb_class_ok (Z.land srb BLK_SRB_STATUS_MASK)) as Hs.
    pose proof (scsi_class_ok ss) as Hc. change BLK_SRB_STATUS_MASK with 0x3F in *.
    destruct (srb_class (Z.land srb 63)) as [c|] eqn:E; [|tauto].
    split; [intros ->; by destruct (srb_class_not_ok (Z.land srb 63)) |].
    intros (_ & _ & H & _). apply Hs in H. done.
Qed.
