(* ===== verification/Storage.v ===== *)
(** * The storage stack over the block layer

    Models the RAM disk (src/drivers/storage/ramdisk.c), the sub-range and
    chunking wrappers (src/fs/storage/offset_wrapper.c, chunk_wrapper.c) and the
    MBR reader (src/fs/storage/partition.c).  Each wrapper is proved against
    the [DiskSpec] interface of its lower device and implements it in turn.

    The outcome of an allocation is an argument ([None] or [false] when [kalloc]
    returns NULL; a fresh region has arbitrary contents).  The spin flag
    [operation_busy] of a chunk context is free on entry, since a sequential run
    always releases it, and is not part of the state; klog output is not modelled. *)
From Stdlib Require Import String.
From S2P Require Import Prelude BlockDevice.
Local Open Scope capy_scope.

(** ** RAM disk *)
Definition RAMDISK_BLOCK_SIZE : Z := 4096.
Definition RAMDISK_MAX_BLOCKS : Z := 1024.

Record ramdisk := mkRam {
  storage : option (list Z);
  storage_capacity_blocks : Z;
  ramdisk_initialized : bool;
  ramdisk_block_count : Z }.

(** The statics at boot. *)
Definition ramdisk_boot : ramdisk := mkRam None 0 false 0.

Definition set_storage (s : ramdisk) (st : list Z) : ramdisk :=
  mkRam (Some st) (storage_capacity_blocks s) (ramdisk_initialized s) (ramdisk_block_count s).

Definition ramdisk_read (block_no : Z) (buffer : list Z) (s : ramdisk) : Z * list Z * ramdisk :=
  match storage s with
  | None => (-1, buffer, s)
  | Some st =>
      if ramdisk_block_count s <=? block_no then (-1, buffer, s) else
      (0, memcpy_loop buffer 0 st (u32 (block_no * RAMDISK_BLOCK_SIZE)) RAMDISK_BLOCK_SIZE, s)
  end.

Definition ramdisk_write (block_no : Z) (buffer : list Z) (s : ramdisk) : Z * ramdisk :=
  match storage s with
  | None => (-1, s)
  | Some st =>
      if ramdisk_block_count s <=? block_no then (-1, s) else
      (0, set_storage s
            (memcpy_loop st (u32 (block_no * RAMDISK_BLOCK_SIZE)) buffer 0 RAMDISK_BLOCK_SIZE))
  end.

(** [ramdisk_dev]; [ramdisk_device] returns it when it has blocks. *)
Definition ramdisk_dev (s : ramdisk) : block_device ramdisk :=
  mkDev "ramdisk" RAMDISK_BLOCK_SIZE (ramdisk_block_count s)
    (Some (mkOps (Some ramdisk_read) (Some ramdisk_write) None None None None None)).

Definition ramdisk_device (s : ramdisk) : option (block_device ramdisk) :=
  if ramdisk_block_count s =? 0 then None else Some (ramdisk_dev s).

(** [fresh] is what [kalloc(new_bytes)] returns. *)
Definition ramdisk_init (fresh : option (list Z)) (block_count : Z) (s : ramdisk) : ramdisk :=
  let first_init := negb (ramdisk_initialized s) in
  let s := if first_init
           then mkRam (storage s) (storage_capacity_blocks s) (ramdisk_initialized s) 0 else s in
  let previous_blocks := ramdisk_block_count s in
  let block_count := if RAMDISK_MAX_BLOCKS <? block_count then RAMDISK_MAX_BLOCKS else block_count in
  let finish s block_count :=
    let present := bool_decide (is_Some (storage s)) in
    mkRam (storage s) (storage_capacity_blocks s) present (if present then block_count else 0) in
  if storage_capacity_blocks s <? block_count then
    let previous_bytes := storage_capacity_blocks s * RAMDISK_BLOCK_SIZE in
    let new_bytes := block_count * RAMDISK_BLOCK_SIZE in
    match fresh with
    | None =>
        if first_init
        then mkRam (storage s) (storage_capacity_blocks s) (ramdisk_initialized s) 0
        else finish s previous_blocks
    | Some ns =>
        let ns := match storage s with
                  | Some st => if negb (previous_bytes =? 0)
                               then memcpy_loop ns 0 st 0 previous_bytes else ns
                  | None => ns
                  end in
        let ns := if previous_bytes <? new_bytes
                  then memset_loop ns previous_bytes (new_bytes - previous_bytes) 0 else ns in
        finish (mkRam (Some ns) block_count (ramdisk_initialized s) previous_blocks) block_count
    end
  else match storage s with
  | Some st =>
      if previous_blocks <? block_count then
        finish (set_storage s (memset_loop st (previous_blocks * RAMDISK_BLOCK_SIZE)
                 (u32 (block_count - previous_blocks) * RAMDISK_BLOCK_SIZE) 0)) block_count
      else if first_init && (0 <? block_count) then
        finish (set_storage s (memset_loop st 0 (block_count * RAMDISK_BLOCK_SIZE) 0)) block_count
      else finish s block_count
  | None => finish s block_count
  end.

Definition ramdisk_fill (data : option (list Z)) (size : Z) (s : ramdisk) : ramdisk :=
  let bytes := ramdisk_block_count s * RAMDISK_BLOCK_SIZE in
  match storage s, data with
  | Some st, Some src =>
      if (size =? 0) || (bytes =? 0) then s else
      let size := if bytes <? size then bytes else size in
      let st := memcpy_loop st 0 src 0 size in
      let st := for_range size bytes (fun i d => aset d i 0) st in
      mkRam (Some st) (storage_capacity_blocks s) true (ramdisk_block_count s)
  | _, _ => s
  end.

(** ** Wrappers *)
Section wrappers.
Context {W : Type} (lower : block_device W).

(** *** Sub-range *)
Definition off_read (start count block_no : Z) (buffer : list Z) (w : W) : Z * list Z * W :=
  if count <=? block_no then (-1, buffer, w) else
  let '(rc, b, w) := block_device_read (Some lower) (u32 (start + block_no)) buffer w in
  if negb (rc =? 0) then (-1, b, w) else (0, b, w).

Definition off_write (start count block_no : Z) (buffer : list Z) (w : W) : Z * W :=
  if count <=? block_no then (-1, w) else
  let '(rc, w) := block_device_write (Some lower) (u32 (start + block_no)) buffer w in
  if negb (rc =? 0) then (-1, w) else (0, w).

Definition off_flush_ex (w : W) : block_io_error_class * W := block_device_flush_once_ex (Some lower) w.

Definition off_ops (start count : Z) : block_device_ops W :=
  mkOps (Some (off_read start count)) (Some (off_write start count)) None None None None
    (if block_device_supports_flush (Some lower) then Some off_flush_ex else None).

(** *** Chunks *)
(** Loop body: sub-block [i] of the chunk that starts at lower block [start]. *)
Definition chunk_read_step (start i : Z) (bw : list Z * W) : (list Z * W) + (Z * list Z * W) :=
  let bs := dev_block_size lower in
  let off := u32 (i * bs) in
  let '(rc, b, w) := block_device_read (Some lower) (u32 (start + i)) (sub_bytes bw.1 off bs) bw.2 in
  let dst := splice bw.1 off b in
  if negb (rc =? 0) then inr (-1, dst, w) else inl (dst, w).

Definition chunk_read (ratio block_no : Z) (buffer : list Z) (w : W) : Z * list Z * W :=
  let start := u32 (block_no * ratio) in
  match until_range 0 ratio (chunk_read_step start) (buffer, w) with
  | inl (dst, w) => (0, dst, w)
  | inr r => r
  end.

Definition chunk_write_step (start : Z) (src : list Z) (i : Z) (w : W) : W + (Z * W) :=
  let bs := dev_block_size lower in
  let '(rc, w) := block_device_write (Some lower) (u32 (start + i))
                    (sub_bytes src (u32 (i * bs)) bs) w in
  if negb (rc =? 0) then inr (-1, w) else inl w.

Definition chunk_write (ratio block_no : Z) (buffer : list Z) (w : W) : Z * W :=
  let start := u32 (block_no * ratio) in
  match until_range 0 ratio (chunk_write_step start buffer) w with
  | inl w => (0, w)
  | inr r => r
  end.

Definition chunk_flush_ex (w : W) : block_io_error_class * W := block_device_flush_once_ex (Some lower) w.

Definition chunk_ops (ratio : Z) : block_device_ops W :=
  mkOps (Some (chunk_read ratio)) (Some (chunk_write ratio)) None None None None
    (if block_device_supports_flush (Some lower) then Some chunk_flush_ex else None).
End wrappers.

(** [dev_ok] and [ctx_ok] say whether the two [kalloc] calls succeed. *)
Definition block_offset_wrap {W} (dev_ok ctx_ok : bool) (lower : option (block_device W))
    (start_lba lba_count : Z) : option (block_device W) :=
  match lower with
  | None => None
  | Some lower =>
      if lba_count =? 0 then None else
      if dev_block_count lower <=? start_lba then None else
      if dev_block_count lower - start_lba <? lba_count then None else
      if negb dev_ok || negb ctx_ok then None else
      Some (mkDev "offset" (dev_block_size lower) lba_count (Some (off_ops lower start_lba lba_count)))
  end.

Definition block_chunked_wrap {W} (dev_ok ctx_ok : bool) (lower : option (block_device W))
    (chunk_size : Z) : option (block_device W) :=
  match lower with
  | None => None
  | Some lower =>
      if (chunk_size =? 0) || negb (chunk_size `mod` dev_block_size lower =? 0) then None else
      let ratio := chunk_size / dev_block_size lower in
      if (ratio =? 0) || (dev_block_count lower <? ratio) then None else
      if negb dev_ok || negb ctx_ok then None else
      let block_count := dev_block_count lower / ratio in
      if block_count =? 0 then None else
      Some (mkDev "chunked" chunk_size block_count (Some (chunk_ops lower ratio)))
  end.

(** ** MBR partitions *)
Record mbr_partition := mkPart {
  lba_start : Z;
  sector_count : Z;
  part_type : Z;
  bootable : Z }.

Definition le32_at (e : list Z) (o : Z) : Z :=
  Z.lor (Z.lor (Z.lor e.[o] (Z.shiftl e.[o + 1] 8)) (Z.shiftl e.[o + 2] 16)) (Z.shiftl e.[o + 3] 24).

(** The return code and [*out], which is filled before the checks. *)
Definition parse_entry (entry : list Z) : Z * mbr_partition :=
  let out := mkPart (le32_at entry 8) (le32_at entry 12) entry.[4] entry.[0] in
  if (part_type out =? 0) || (sector_count out =? 0) then (-1, out) else (0, out).

Definition mbr_read_partition {W} (raw : option (block_device W)) (index : Z)
    (out : option mbr_partition) (w : W) : Z * option mbr_partition * W :=
  match raw, out with
  | Some dev, Some _ =>
      if (index <? 0) || (3 <? index) then (-1, out, w) else
      if negb (dev_block_size dev =? 512) || (dev_block_count dev =? 0) then (-1, out, w) else
      let '(rc, mbr, w) := block_device_read raw 0 (zrep 512 0) w in
      if negb (rc =? 0) then (-1, out, w) else
      if negb (mbr.[510] =? 0x55) || negb (mbr.[511] =? 0xAA) then (-1, out, w) else
      let '(rc, part) := parse_entry (sub_bytes mbr (446 + index * 16) 16) in
      if negb (rc =? 0) then (-1, Some part, w) else
      if dev_block_count dev <=? lba_start part then (-1, Some part, w) else
      if u32 (dev_block_count dev - lba_start part) <? sector_count part then (-1, Some part, w) else
      (0, Some part, w)
  | _, _ => (-1, out, w)
  end.

(** ** The RAM disk implements [DiskSpec] *)
Record ram_ok (s : ramdisk) (st : list Z) : Prop := {
  ro_storage : storage s = Some st;
  ro_len : zlen st = storage_capacity_blocks s * RAMDISK_BLOCK_SIZE;
  ro_count : 0 <= ramdisk_block_count s <= storage_capacity_blocks s;
  ro_max : storage_capacity_blocks s <= RAMDISK_MAX_BLOCKS;
  ro_init : ramdisk_initialized s = true }.

(** Reachable states: nothing allocated yet, or a well-formed backing store. *)
Definition ram_inv (s : ramdisk) : Prop :=
  (storage s = None /\ storage_capacity_blocks s = 0 /\ ramdisk_block_count s = 0 /\
   ramdisk_initialized s = false) \/ exists st, ram_ok s st.

Definition ram_block (st : list Z) (n : Z) : list Z := sub_bytes st (n * RAMDISK_BLOCK_SIZE) RAMDISK_BLOCK_SIZE.

Definition ram_view (s : ramdisk) (n : Z) : list Z :=
  if (0 <=? n) && (n <? ramdisk_block_count s) then ram_block (default [] (storage s)) n else [].

Section ram.
Implicit Types (s : ramdisk) (st buf : list Z).

Lemma ram_block_len s st n : ram_ok s st -> 0 <= n < storage_capacity_blocks s ->
  zlen (ram_block st n) = RAMDISK_BLOCK_SIZE.
Proof. intros [] ?. unfold ram_block, RAMDISK_BLOCK_SIZE in *. apply zlen_sub; lia. Qed.

Lemma ram_idx s st n : ram_ok s st -> 0 <= n < storage_capacity_blocks s ->
  u32 (n * RAMDISK_BLOCK_SIZE) = n * RAMDISK_BLOCK_SIZE /\ n * RAMDISK_BLOCK_SIZE + RAMDISK_BLOCK_SIZE <= zlen st.
Proof.
  intros [] ?. unfold RAMDISK_BLOCK_SIZE, RAMDISK_MAX_BLOCKS in *. split; [apply u32_small|]; lia.
Qed.

Lemma ramdisk_read_spec s st n buf : ram_ok s st -> 0 <= n < ramdisk_block_count s ->
  zlen buf = RAMDISK_BLOCK_SIZE -> ramdisk_read n buf s = (0, ram_view s n, s).
Proof.
  intros Hok Hn Hb. unfold ramdisk_read, ram_view. rewrite (ro_storage s st Hok).
  replace (ramdisk_block_count s <=? n) with false by lia.
  replace ((0 <=? n) && (n <? ramdisk_block_count s)) with true by lia.
  pose proof (ro_count _ _ Hok). destruct (ram_idx s st n Hok ltac:(lia)) as [-> ?].
  assert (zlen (ram_block st n) = RAMDISK_BLOCK_SIZE) by (eapply ram_block_len; [done | lia]).
  rewrite memcpy_spec by (unfold RAMDISK_BLOCK_SIZE in *; lia).
  f_equal. f_equal. apply splice_all. unfold ram_block in *. simpl. lia.
Qed.

Lemma ramdisk_write_spec s st n buf : ram_ok s st -> 0 <= n < ramdisk_block_count s ->
  zlen buf = RAMDISK_BLOCK_SIZE ->
  exists s' st', ramdisk_write n buf s = (0, s') /\ ram_ok s' st' /\
  ramdisk_block_count s' = ramdisk_block_count s /\
  forall m, 0 <= m -> ram_view s' m = if m =? n then buf else ram_view s m.
Proof.
  intros Hok Hn Hb. unfold ramdisk_write. rewrite (ro_storage s st Hok).
  replace (ramdisk_block_count s <=? n) with false by lia.
  pose proof (ro_count _ _ Hok). destruct (ram_idx s st n Hok ltac:(lia)) as [-> Hfit].
  rewrite memcpy_spec by (unfold RAMDISK_BLOCK_SIZE in *; lia).
  replace (sub_bytes buf 0 RAMDISK_BLOCK_SIZE) with buf by (rewrite <- Hb; by rewrite sub_bytes_all).
  eexists _, (splice st (n * RAMDISK_BLOCK_SIZE) buf). split; [done|]. split; [|split; [done|]].
  { destruct Hok. constructor; simpl; try done.
    rewrite zlen_splice; unfold RAMDISK_BLOCK_SIZE in *; lia. }
  intros m Hm. unfold ram_view; simpl. rewrite (ro_storage s st Hok); simpl.
  destruct (Z.eqb_spec m n) as [->|Hne].
  - replace ((0 <=? n) && (n <? ramdisk_block_count s)) with true by lia.
    pose proof (sub_splice_same st (n * RAMDISK_BLOCK_SIZE) buf) as E. rewrite Hb in E.
    apply E; unfold RAMDISK_BLOCK_SIZE in *; lia.
  - destruct ((0 <=? m) && (m <? ramdisk_block_count s)) eqn:E; [|done]. bools.
    destruct (ram_idx s st m Hok ltac:(lia)) as [_ ?].
    unfold ram_block. apply sub_splice_other; unfold RAMDISK_BLOCK_SIZE in *; lia.
Qed.
End ram.

Section ram_disk.
Context (s0 : ramdisk) (Hs0 : 0 <= ramdisk_block_count s0 < 2 ^ 32).

(** The device as long as it is not resized. *)
Definition ram_disk_inv (s : ramdisk) : Prop :=
  (exists st, ram_ok s st) /\ ramdisk_block_count s = ramdisk_block_count s0.

#[export] Instance ramdisk_spec : DiskSpec (ramdisk_dev s0).
Proof.
  refine {| disk_inv := ram_disk_inv; disk_view := ram_view |}; [done | done | | |].
  - intros w n [[st Hok] Hc] Hn. simpl in *. unfold ram_view. rewrite (ro_storage w st Hok); simpl.
    replace ((0 <=? n) && (n <? ramdisk_block_count w)) with true by lia.
    eapply ram_block_len; [done|]. pose proof (ro_count _ _ Hok). lia.
  - intros w n buf Hinv Hn Hb. pose proof Hinv as [[st Hok] Hc]. simpl in *. destruct (Z.leb_spec (ramdisk_block_count s0) n).
    { split_and!; try done; lia. }
    rewrite (ramdisk_read_spec w st) by (try done; lia).
    split_and!; try done; [].
    unfold ram_view. rewrite (ro_storage w st Hok).
    replace ((0 <=? n) && (n <? ramdisk_block_count w)) with true by lia.
    rewrite Hb. eapply ram_block_len; [done|]. pose proof (ro_count _ _ Hok). lia.
  - intros w n data Hinv Hn Hb. pose proof Hinv as [[st Hok] Hc]. simpl in *. destruct (Z.leb_spec (ramdisk_block_count s0) n).
    { split_and!; try done; lia. }
    destruct (ramdisk_write_spec w st n data) as (s' & st' & -> & Hok' & Hc' & Hv); try done; [lia|].
    split_and!; [split; [by exists st' | lia] | | | lia].
    + intros m Hm Hne. rewrite Hv by done. by replace (m =? n) with false by lia.
    + intros _. split; [done|]. rewrite Hv by done. by rewrite Z.eqb_refl.
Defined.

#[export] Instance ramdisk_reliable : ReliableDisk (ramdisk_dev s0).
Proof.
  constructor.
  - intros w n buf [[st Hok] Hc] Hn Hb. simpl in *. replace (ramdisk_block_count s0 <=? n) with false by lia.
    by rewrite (ramdisk_read_spec w st) by (try done; lia).
  - intros w n buf [[st Hok] Hc] Hn Hb. simpl in *. replace (ramdisk_block_count s0 <=? n) with false by lia.
    by destruct (ramdisk_write_spec w st n buf) as (s' & st' & -> & _); try done; lia.
Qed.
End ram_disk.

(** ** The wrappers implement [DiskSpec] over a [DiskSpec] *)
Section offset.
Context {W : Type} (lower : block_device W) `{!DiskSpec lower}.
Context (start count : Z) (Hstart : 0 <= start) (Hcount : 0 < count)
  (Hfit : start + count <= dev_block_count lower).

Definition offset_dev : block_device W :=
  mkDev "offset" (dev_block_size lower) count (Some (off_ops lower start count)).

Lemma off_idx n : 0 <= n < count -> u32 (start + n) = start + n.
Proof. intros. pose proof (disk_count (dev := lower)). apply u32_small. lia. Qed.

#[export] Instance offset_spec : DiskSpec offset_dev.
Proof.
  pose proof (disk_count (dev := lower)).
  refine {| disk_inv := disk_inv (dev := lower);
            disk_view := fun w n => disk_view (dev := lower) w (start + n) |}; simpl.
  - apply disk_size.
  - lia.
  - intros w n Hw Hn. apply disk_len; [done | lia].
  - intros w n buf Hw Hn Hb. unfold off_read. destruct (Z.leb_spec count n).
    { split_and!; try done; lia. }
    rewrite off_idx by lia. pose proof (disk_read w (start + n) buf Hw ltac:(lia) Hb) as Hr.
    destruct (block_device_read (Some lower) (start + n) buf w) as [[rc b] w'].
    destruct Hr as (? & ? & Hv & Hok). destruct (Z.eqb_spec rc 0); simpl; rewrite ?Hv;
      split_and!; try done; try lia. intros _. split; [done|]. by apply Hok.
  - intros w n data Hw Hn Hb. unfold off_write. destruct (Z.leb_spec count n).
    { split_and!; try done; lia. }
    rewrite off_idx by lia. pose proof (disk_write w (start + n) data Hw ltac:(lia) Hb) as Hr.
    destruct (block_device_write (Some lower) (start + n) data w) as [rc w'].
    destruct Hr as (? & Hv & Hok & _). destruct (Z.eqb_spec rc 0); simpl; split_and!; try done; try lia.
    + intros m Hm Hne. apply Hv; lia.
    + intros _. split; [done|]. by apply Hok.
    + intros m Hm Hne. apply Hv; lia.
Defined.

#[export] Instance offset_reliable `{!ReliableDisk lower} : ReliableDisk offset_dev.
Proof.
  constructor; simpl.
  - intros w n buf Hw Hn Hb. unfold off_read. replace (count <=? n) with false by lia.
    rewrite off_idx by lia. pose proof (reliable_read w (start + n) buf Hw ltac:(lia) Hb) as E.
    destruct (block_device_read (Some lower) (start + n) buf w) as [[rc b] w']; simpl in *. by rewrite E.
  - intros w n data Hw Hn Hb. unfold off_write. replace (count <=? n) with false by lia.
    rewrite off_idx by lia. pose proof (reliable_write w (start + n) data Hw ltac:(lia) Hb) as E.
    destruct (block_device_write (Some lower) (start + n) data w) as [rc w']; simpl in *. by rewrite E.
Qed.

(** A transfer through the window leaves every block of the lower device outside
    it unchanged. *)
Lemma offset_write_frame w n data : disk_inv (dev := lower) w -> 0 <= n -> zlen data = dev_block_size lower ->
  let w' := (block_device_write (Some offset_dev) n data w).2 in
  disk_inv (dev := lower) w' /\
  forall m, 0 <= m -> ~ (start <= m < start + count) -> disk_view (dev := lower) w' m = disk_view (dev := lower) w m.
Proof.
  intros Hw Hn Hb. simpl. unfold off_write. destruct (Z.leb_spec count n); [done|].
  rewrite off_idx by lia. pose proof (disk_write w (start + n) data Hw ltac:(lia) Hb) as Hr.
  destruct (block_device_write (Some lower) (start + n) data w) as [rc w'].
  destruct Hr as (? & Hv & _). destruct (Z.eqb_spec rc 0); simpl; (split; [done|]); intros m Hm Hne; apply Hv; lia.
Qed.
End offset.

Section chunk.
Context {W : Type} (lower : block_device W) `{!DiskSpec lower}.
Context (ratio : Z) (Hratio : 0 < ratio) (Hchunk : ratio * dev_block_size lower < 2 ^ 32).

Definition chunk_dev : block_device W :=
  mkDev "chunked" (ratio * dev_block_size lower) (dev_block_count lower / ratio) (Some (chunk_ops lower ratio)).

Local Abbreviation bs := (dev_block_size lower).
Local Abbreviation lview := (disk_view (dev := lower)).

Definition chunk_view (w : W) (n : Z) : list Z := blocks (lview w) (n * ratio) ratio.

Lemma chunk_range n i : 0 <= n < dev_block_count lower / ratio -> 0 <= i < ratio ->
  n * ratio + i < dev_block_count lower /\ u32 (n * ratio) = n * ratio /\
  u32 (n * ratio + i) = n * ratio + i /\ u32 (i * bs) = i * bs /\ i * bs + bs <= ratio * bs.
Proof.
  intros Hn Hi. pose proof (disk_count (dev := lower)). pose proof (disk_size (dev := lower)).
  pose proof (Z.mul_div_le (dev_block_count lower) ratio Hratio).
  assert (n * ratio + ratio <= dev_block_count lower) by nia.
  rewrite !u32_small by nia. repeat split; nia.
Qed.

Lemma chunk_view_len w n : disk_inv (dev := lower) w -> 0 <= n < dev_block_count lower / ratio ->
  zlen (chunk_view w n) = ratio * bs.
Proof.
  intros Hw Hn. apply zlen_blocks; [lia|]. intros i Hi.
  destruct (chunk_range n (i - n * ratio)); [done | lia |]. apply disk_len; [done | nia].
Qed.

(** What holds before turn [i] of the read loop, and at its failing exit. *)
Definition read_upto (w : W) (n len i : Z) (bw : list Z * W) : Prop :=
  disk_inv (dev := lower) bw.2 /\ zlen bw.1 = len /\ lview bw.2 = lview w /\
  forall j, 0 <= j < i -> sub_bytes bw.1 (j * bs) bs = lview w (n * ratio + j).

Lemma chunk_read_step_spec w n i bw : 0 <= n < dev_block_count lower / ratio -> 0 <= i < ratio ->
  read_upto w n (ratio * bs) i bw ->
  match chunk_read_step lower (n * ratio) i bw with
  | inl bw' => read_upto w n (ratio * bs) (i + 1) bw'
  | inr (rc, b', w') => rc <> 0 /\ read_upto w n (ratio * bs) 0 (b', w')
  end.
Proof.
  intros Hn Hi (Hw' & Hl & Hv & Hj). pose proof (disk_size (dev := lower)).
  destruct bw as [b w']; unfold chunk_read_step; cbn [fst snd] in *.
  destruct (chunk_range n i Hn Hi) as (Hr & _ & -> & -> & Hle).
  assert (Hs : zlen (sub_bytes b (i * bs) bs) = bs) by (apply zlen_sub; nia).
  pose proof (disk_read w' (n * ratio + i) _ Hw' ltac:(nia) Hs) as Hd.
  destruct (block_device_read _ _ _ w') as [[rc b1] w1]. destruct Hd as (? & Hl1 & Hv1 & Hok).
  assert (zlen (splice b (i * bs) b1) = ratio * bs) by (rewrite zlen_splice; nia).
  destruct (Z.eqb_spec rc 0); simpl; unfold read_upto; simpl; [|splits; try done; try congruence; lia].
  destruct Hok as [_ Hb1]; [done|]. splits; try done; [congruence|].
  intros j Hj'. destruct (Z.eq_dec j i) as [->|].
  - pose proof (sub_splice_same b (i * bs) b1) as E. rewrite Hl1, Hs in E. rewrite E by nia. congruence.
  - rewrite sub_splice_other by nia. apply Hj. lia.
Qed.

Lemma chunk_read_spec w n buf : disk_inv (dev := lower) w -> 0 <= n < dev_block_count lower / ratio ->
  zlen buf = ratio * bs ->
  let '(rc, b, w') := chunk_read lower ratio n buf w in
  disk_inv (dev := lower) w' /\ zlen b = zlen buf /\ lview w' = lview w /\ (rc = 0 -> b = chunk_view w n).
Proof.
  intros Hw Hn Hb. pose proof (disk_size (dev := lower)). unfold chunk_read.
  destruct (chunk_range n 0 Hn ltac:(lia)) as (_ & -> & _).
  pose proof (until_range_ind (read_upto w n (ratio * bs))
    (fun '(rc, b', w') => rc <> 0 /\ read_upto w n (ratio * bs) 0 (b', w'))
    0 ratio (chunk_read_step lower (n * ratio)) (buf, w) ltac:(lia)) as Hloop.
  specialize (Hloop ltac:(split; [done|split; [done|split; [done | lia]]])).
  specialize (Hloop (fun i s Hi => chunk_read_step_spec w n i s Hn Hi)).
  destruct (until_range _ _ _ _) as [[b w']|[[rc b] w']].
  - destruct Hloop as (? & ? & ? & Hj). simpl in *. splits; try done; [congruence|].
    intros _. apply (blocks_split b _ _ _ bs); try lia. done.
  - destruct Hloop as (? & ? & ? & ? & ?). simpl in *. splits; try done. congruence.
Qed.

(** What holds before turn [i] of the write loop. *)
Definition written_upto (w : W) (n : Z) (data : list Z) (i : Z) (w' : W) : Prop :=
  disk_inv (dev := lower) w' /\
  forall m, 0 <= m -> lview w' m =
    if (n * ratio <=? m) && (m <? n * ratio + i) then sub_bytes data ((m - n * ratio) * bs) bs else lview w m.

Definition outside_same (w : W) (n : Z) (w' : W) : Prop :=
  disk_inv (dev := lower) w' /\
  forall m, 0 <= m -> ~ (n * ratio <= m < n * ratio + ratio) -> lview w' m = lview w m.

Lemma chunk_write_step_spec w n data i w' : 0 <= n < dev_block_count lower / ratio -> 0 <= i < ratio ->
  zlen data = ratio * bs -> written_upto w n data i w' ->
  match chunk_write_step lower (n * ratio) data i w' with
  | inl w'' => written_upto w n data (i + 1) w''
  | inr (rc, w'') => rc <> 0 /\ outside_same w n w''
  end.
Proof.
  intros Hn Hi Hd [Hw' Hv]. pose proof (disk_size (dev := lower)). unfold chunk_write_step.
  destruct (chunk_range n i Hn Hi) as (Hr & _ & -> & -> & Hle).
  assert (Hs : zlen (sub_bytes data (i * bs) bs) = bs) by (apply zlen_sub; nia).
  pose proof (disk_write w' (n * ratio + i) _ Hw' ltac:(nia) Hs) as Hw1.
  destruct (block_device_write _ _ _ w') as [rc w1]. destruct Hw1 as (? & Hv1 & Hok & _).
  destruct (Z.eqb_spec rc 0); simpl.
  - destruct Hok as [_ Hok]; [done|]. split; [done|]. intros m Hm.
    destruct (Z.eq_dec m (n * ratio + i)) as [->|].
    + replace ((n * ratio <=? n * ratio + i) && (n * ratio + i <? n * ratio + (i + 1))) with true by lia.
      rewrite Hok. do 2 f_equal. lia.
    + rewrite Hv1, Hv by lia.
      by replace ((n * ratio <=? m) && (m <? n * ratio + (i + 1))) with
        ((n * ratio <=? m) && (m <? n * ratio + i)) by lia.
  - split; [done|]. split; [done|]. intros m Hm Hne. rewrite Hv1, Hv by lia.
    by replace ((n * ratio <=? m) && (m <? n * ratio + i)) with false by lia.
Qed.

Lemma chunk_write_spec w n data : disk_inv (dev := lower) w -> 0 <= n < dev_block_count lower / ratio ->
  zlen data = ratio * bs ->
  let '(rc, w') := chunk_write lower ratio n data w in
  outside_same w n w' /\ (rc = 0 -> chunk_view w' n = data).
Proof.
  intros Hw Hn Hd. pose proof (disk_size (dev := lower)). unfold chunk_write.
  destruct (chunk_range n 0 Hn ltac:(lia)) as (_ & -> & _).
  pose proof (until_range_ind (written_upto w n data) (fun '(rc, w'') => rc <> 0 /\ outside_same w n w'')
    0 ratio (chunk_write_step lower (n * ratio) data) w ltac:(lia)) as Hloop.
  assert (Hinit : written_upto w n data 0 w).
  { split; [done|]. intros m Hm.
    by replace ((n * ratio <=? m) && (m <? n * ratio + 0)) with false by lia. }
  specialize (Hloop Hinit (fun i s Hi => chunk_write_step_spec w n data i s Hn Hi Hd)).
  destruct (until_range _ _ _ _) as [w'|[rc w']]; [|by destruct Hloop].
  destruct Hloop as [Hw' Hv]. split.
  - split; [done|]. intros m Hm Hne. rewrite Hv by done.
    by replace ((n * ratio <=? m) && (m <? n * ratio + ratio)) with false by lia.
  - intros _. symmetry. apply (blocks_split data _ _ _ bs); try lia.
    intros i Hi. rewrite Hv by nia.
    replace ((n * ratio <=? n * ratio + i) && (n * ratio + i <? n * ratio + ratio)) with true by lia.
    do 2 f_equal. lia.
Qed.

Lemma outside_same_view w n w' m : 0 <= n -> 0 <= m -> m <> n -> outside_same w n w' ->
  chunk_view w' m = chunk_view w m.
Proof.
  intros Hn Hm Hne [_ Hv]. apply blocks_ext. intros i Hi. apply Hv; nia.
Qed.

#[export] Instance chunk_spec : DiskSpec chunk_dev.
Proof.
  pose proof (disk_count (dev := lower)). pose proof (disk_size (dev := lower)).
  refine {| disk_inv := disk_inv (dev := lower); disk_view := chunk_view |}; simpl.
  - nia.
  - split; [apply Z.div_pos; lia|]. apply Z.div_lt_upper_bound; nia.
  - intros w n Hw Hn. by apply chunk_view_len.
  - intros w n buf Hw Hn Hb. destruct (Z.leb_spec (dev_block_count lower / ratio) n).
    { split_and!; try done; lia. }
    pose proof (chunk_read_spec w n buf Hw ltac:(lia) Hb) as Hr.
    destruct (chunk_read lower ratio n buf w) as [[rc b] w']. destruct Hr as (? & ? & Hv & Hok).
    split_and!; try done; [|auto]. unfold chunk_view. by rewrite Hv.
  - intros w n data Hw Hn Hb. destruct (Z.leb_spec (dev_block_count lower / ratio) n).
    { split_and!; try done; lia. }
    pose proof (chunk_write_spec w n data Hw ltac:(lia) Hb) as Hr.
    destruct (chunk_write lower ratio n data w) as [rc w']. destruct Hr as (Ho & Hok).
    split_and!; [by destruct Ho | | auto | lia].
    intros m Hm Hne. by apply (outside_same_view w n).
Defined.

#[export] Instance chunk_reliable `{!ReliableDisk lower} : ReliableDisk chunk_dev.
Proof.
  pose proof (disk_size (dev := lower)). constructor; simpl.
  - intros w n buf Hw Hn Hb. replace (dev_block_count lower / ratio <=? n) with false by lia.
    unfold chunk_read. destruct (chunk_range n 0 Hn ltac:(lia)) as (_ & -> & _).
    pose proof (until_range_ind (read_upto w n (ratio * bs)) (fun _ : Z * list Z * W => False)
      0 ratio (chunk_read_step lower (n * ratio)) (buf, w) ltac:(lia)) as Hloop.
    destruct (until_range _ _ _ _) as [[b w']|]; [done|]. exfalso.
    apply Hloop; [split; [done|split; [done|split; [done | lia]]]|].
    intros i s Hi Hs. pose proof (chunk_read_step_spec w n i s Hn Hi Hs) as Hstep.
    destruct Hs as (Hinv & Hl & _). unfold chunk_read_step in *.
    destruct (chunk_range n i Hn Hi) as (Hr & _ & E1 & E2 & Hle). rewrite E1, E2 in *.
    pose proof (reliable_read s.2 (n * ratio + i) (sub_bytes s.1 (i * bs) bs) Hinv ltac:(nia)
      ltac:(apply zlen_sub; nia)) as E.
    destruct (block_device_read _ _ _ _) as [[rc b] w']. cbn [fst] in E. by rewrite E in *.
  - intros w n data Hw Hn Hb. replace (dev_block_count lower / ratio <=? n) with false by lia.
    unfold chunk_write. destruct (chunk_range n 0 Hn ltac:(lia)) as (_ & -> & _).
    pose proof (until_range_ind (written_upto w n data) (fun _ : Z * W => False)
      0 ratio (chunk_write_step lower (n * ratio) data) w ltac:(lia)) as Hloop.
    destruct (until_range _ _ _ _) as [w'|]; [done|]. exfalso. apply Hloop.
    { split; [done|]. intros m Hm.
      by replace ((n * ratio <=? m) && (m <? n * ratio + 0)) with false by lia. }
    intros i s Hi Hs. pose proof (chunk_write_step_spec w n data i s Hn Hi Hb Hs) as Hstep.
    destruct Hs as (Hinv & _). unfold chunk_write_step in *.
    destruct (chunk_range n i Hn Hi) as (Hr & _ & E1 & E2 & Hle). rewrite E1, E2 in *.
    pose proof (reliable_write s (n * ratio + i) (sub_bytes data (i * bs) bs) Hinv ltac:(nia)
      ltac:(apply zlen_sub; nia)) as E.
    destruct (block_device_write _ _ _ _) as [rc w']. cbn [fst] in E. by rewrite E in *.
Qed.
End chunk.

(** ** A memory device over a list of blocks, to run the wrappers on *)
Section mem.
Context (bsize : Z) (Hbs : 0 < bsize).

Definition mem_read (n : Z) (b : list Z) (w : list (list Z)) : Z * list Z * list (list Z) :=
  (0, splice b 0 (aget [] w n), w).
Definition mem_write (n : Z) (data : list Z) (w : list (list Z)) : Z * list (list Z) := (0, aset w n data).

Definition mem_dev (count : Z) : block_device (list (list Z)) :=
  mkDev "mem" bsize count (Some (mkOps (Some mem_read) (Some mem_write) None None None None None)).

Context (count : Z) (Hcount : 0 <= count < 2 ^ 32).

Definition mem_inv (w : list (list Z)) : Prop := zlen w = count /\ Forall (fun b => zlen b = bsize) w.

Lemma mem_block_len w n : mem_inv w -> 0 <= n < count -> zlen (aget [] w n) = bsize.
Proof.
  intros [Hl Hf] Hn. unfold aget. destruct (w !! Z.to_nat n) eqn:E; simpl.
  - by apply (Forall_lookup_1 _ _ _ _ Hf E).
  - apply lookup_ge_None in E. unfold zlen in Hl. lia.
Qed.

#[export] Instance mem_spec : DiskSpec (mem_dev count).
Proof.
  refine {| disk_inv := mem_inv : list (list Z) -> Prop; disk_view := fun w n => aget [] w n |}; simpl.
  - done.
  - done.
  - apply mem_block_len.
  - intros w n buf Hw Hn Hb. destruct (Z.leb_spec count n); [split_and!; try done; lia|].
    pose proof (mem_block_len w n Hw ltac:(lia)). simpl. rewrite splice_all by lia. split_and!; try done. lia.
  - intros w n data Hw Hn Hb. destruct (Z.leb_spec count n); [split_and!; try done; lia|].
    destruct Hw as [Hl Hf]. simpl. split_and!; [| | |lia].
    + split; [by rewrite zlen_aset|]. by apply Forall_aset.
    + intros. apply aget_aset_ne; lia.
    + intros _. split; [done|]. apply aget_aset_eq. lia.
Defined.

#[export] Instance mem_reliable : ReliableDisk (mem_dev count).
Proof.
  constructor; simpl; intros w n b Hw Hn Hb; by replace (count <=? n) with false by lia.
Qed.
End mem.

(** ** Lemmas on resizing *)
Section resize.
Implicit Types (st ns : list Z).

Lemma ram_block_splice_in st off k m : 0 <= off -> 0 <= k -> off * RAMDISK_BLOCK_SIZE + k * RAMDISK_BLOCK_SIZE <= zlen st ->
  off <= m < off + k ->
  ram_block (splice st (off * RAMDISK_BLOCK_SIZE) (zrep (k * RAMDISK_BLOCK_SIZE) 0)) m = zrep RAMDISK_BLOCK_SIZE 0.
Proof.
  unfold ram_block, RAMDISK_BLOCK_SIZE. intros Ho Hk Hfit Hm.
  assert (Hz : zlen (zrep (k * 4096) 0) = k * 4096) by (apply zlen_rep; lia).
  apply (array_ext 0); [rewrite zlen_sub, zlen_rep; rewrite ?zlen_splice; lia|].
  intros i Hi. rewrite zlen_sub in Hi by (rewrite ?zlen_splice; lia).
  rewrite aget_sub, aget_splice, Hz, aget_rep by lia.
  replace ((off * 4096 <=? m * 4096 + i) && (m * 4096 + i <? off * 4096 + k * 4096)) with true by lia.
  by rewrite aget_rep by lia.
Qed.

Lemma ram_block_splice_out st off x m : 0 <= off -> off * RAMDISK_BLOCK_SIZE + zlen x <= zlen st ->
  0 <= m < off -> ram_block (splice st (off * RAMDISK_BLOCK_SIZE) x) m = ram_block st m.
Proof.
  unfold ram_block, RAMDISK_BLOCK_SIZE. intros Ho Hfit Hm. pose proof (zlen_nonneg x).
  apply sub_splice_other; lia.
Qed.

Lemma ram_block_copied ns st k m : 0 <= k -> k * RAMDISK_BLOCK_SIZE = zlen st -> zlen st <= zlen ns ->
  0 <= m < k -> ram_block (splice ns 0 st) m = ram_block st m.
Proof.
  unfold ram_block, RAMDISK_BLOCK_SIZE. intros Hk Hl Hle Hm.
  apply (array_ext 0); [rewrite !zlen_sub; rewrite ?zlen_splice; lia|].
  intros i Hi. rewrite zlen_sub in Hi by (rewrite ?zlen_splice; lia).
  rewrite !aget_sub, aget_splice by lia.
  replace ((0 <=? m * 4096 + i) && (m * 4096 + i <? 0 + zlen st)) with true by lia.
  by rewrite Z.sub_0_r.
Qed.

(** The region [ramdisk_init] allocates: the old store, then zeroes. *)
Lemma fresh_region ns st cap n : 0 <= cap < n -> zlen ns = n * RAMDISK_BLOCK_SIZE ->
  zlen st = cap * RAMDISK_BLOCK_SIZE ->
  let a := if negb (cap * RAMDISK_BLOCK_SIZE =? 0)
           then memcpy_loop ns 0 st 0 (cap * RAMDISK_BLOCK_SIZE) else ns in
  let b := memset_loop a (cap * RAMDISK_BLOCK_SIZE) (n * RAMDISK_BLOCK_SIZE - cap * RAMDISK_BLOCK_SIZE) 0 in
  zlen b = n * RAMDISK_BLOCK_SIZE /\
  forall m, 0 <= m < n -> ram_block b m = if m <? cap then ram_block st m else zrep RAMDISK_BLOCK_SIZE 0.
Proof.
  intros Hc Hn Hs a b.
  assert (Ha : zlen a = n * RAMDISK_BLOCK_SIZE /\ forall m, 0 <= m < cap -> ram_block a m = ram_block st m).
  { unfold a. destruct (Z.eqb_spec (cap * RAMDISK_BLOCK_SIZE) 0) as [E|E]; simpl.
    { split; [done|]. unfold RAMDISK_BLOCK_SIZE in *. lia. }
    rewrite memcpy_spec by (unfold RAMDISK_BLOCK_SIZE in *; lia). rewrite <- Hs, sub_bytes_all.
    split; [rewrite zlen_splice; unfold RAMDISK_BLOCK_SIZE in *; lia|]. intros m Hm.
    apply (ram_block_copied ns st cap); unfold RAMDISK_BLOCK_SIZE in *; lia. }
  destruct Ha as [Hal Hab]. unfold b. rewrite <- Z.mul_sub_distr_r.
  assert (Hz : zlen (zrep ((n - cap) * RAMDISK_BLOCK_SIZE) 0) = (n - cap) * RAMDISK_BLOCK_SIZE)
    by (apply zlen_rep; unfold RAMDISK_BLOCK_SIZE; lia).
  rewrite memset_spec by (unfold RAMDISK_BLOCK_SIZE in *; lia).
  split; [rewrite zlen_splice; rewrite ?Hz; unfold RAMDISK_BLOCK_SIZE in *; lia|].
  intros m Hm. destruct (Z.ltb_spec m cap).
  - rewrite ram_block_splice_out; [apply Hab; lia | lia | rewrite Hz; unfold RAMDISK_BLOCK_SIZE in *; lia | lia].
  - apply ram_block_splice_in; unfold RAMDISK_BLOCK_SIZE in *; lia.
Qed.
End resize.

(** What [ramdisk_init] promises for a clamped request of [n'] blocks. *)
Definition resized (s : ramdisk) (fresh : option (list Z)) (n' : Z) (s' : ramdisk) : Prop :=
  ram_inv s' /\
  (fresh = None -> storage_capacity_blocks s < n' -> s' = s) /\
  (fresh <> None \/ n' <= storage_capacity_blocks s -> ramdisk_block_count s' = n') /\
  forall m, 0 <= m < ramdisk_block_count s' -> ram_view s' m =
    if m <? ramdisk_block_count s then ram_view s m
    else if (storage_capacity_blocks s <? n') && (m <? storage_capacity_blocks s)
    then ram_block (default [] (storage s)) m else zrep RAMDISK_BLOCK_SIZE 0.

Lemma clamp_min n : (if RAMDISK_MAX_BLOCKS <? n then RAMDISK_MAX_BLOCKS else n) = Z.min n RAMDISK_MAX_BLOCKS.
Proof. destruct (Z.ltb_spec RAMDISK_MAX_BLOCKS n); lia. Qed.

Lemma ramdisk_init_empty n fresh : 0 <= n ->
  (forall ns, fresh = Some ns -> zlen ns = Z.min n RAMDISK_MAX_BLOCKS * RAMDISK_BLOCK_SIZE) ->
  resized ramdisk_boot fresh (Z.min n RAMDISK_MAX_BLOCKS) (ramdisk_init fresh n ramdisk_boot).
Proof.
  intros Hn. unfold resized, ramdisk_init, ramdisk_boot. rewrite clamp_min.
  assert (Hn' : 0 <= Z.min n RAMDISK_MAX_BLOCKS <= RAMDISK_MAX_BLOCKS) by (unfold RAMDISK_MAX_BLOCKS; lia).
  generalize dependent (Z.min n RAMDISK_MAX_BLOCKS). intros n' Hn' Hfresh. simpl.
  destruct (Z.ltb_spec 0 n'); simpl.
  + destruct fresh as [ns|]; simpl.
    2: { splits; try done; [left; by splits | intros [?|?]; [done | lia] | lia]. }
    replace (0 * RAMDISK_BLOCK_SIZE <? n' * RAMDISK_BLOCK_SIZE) with true by (unfold RAMDISK_BLOCK_SIZE; lia).
    destruct (fresh_region ns [] 0 n') as [Hl Hb]; [lia | auto | done |]. simpl in Hl, Hb.
    splits; try done.
    * right. eexists. constructor; simpl; try done; lia.
    * intros m Hm. unfold ram_view; simpl.
      replace ((0 <=? m) && (m <? n')) with true by lia. rewrite Hb by lia.
      by replace (m <? 0) with false by lia.
  + splits; try done; try lia; left; by splits.
Qed.

Lemma ramdisk_init_store s st n fresh : ram_ok s st -> 0 <= n ->
  (forall ns, fresh = Some ns -> zlen ns = Z.min n RAMDISK_MAX_BLOCKS * RAMDISK_BLOCK_SIZE) ->
  resized s fresh (Z.min n RAMDISK_MAX_BLOCKS) (ramdisk_init fresh n s).
Proof.
  intros Hok Hn. unfold resized, ramdisk_init. rewrite clamp_min.
  assert (Hn' : 0 <= Z.min n RAMDISK_MAX_BLOCKS <= RAMDISK_MAX_BLOCKS) by (unfold RAMDISK_MAX_BLOCKS; lia).
  generalize dependent (Z.min n RAMDISK_MAX_BLOCKS). intros n' Hn' Hfresh.
  pose proof Hok as [E1 E2 E3 E4 E5]. rewrite E5. cbn [negb]. cbv zeta. rewrite E1. simpl.
  destruct (Z.ltb_spec (storage_capacity_blocks s) n'); simpl.
  + destruct fresh as [ns|]; simpl.
    2: { assert (mkRam (storage s) (storage_capacity_blocks s) true (ramdisk_block_count s) = s) as Es
           by (destruct s; simpl in *; by subst).
         rewrite E1 in *. simpl. rewrite Es. splits; try done.
         - right. by exists st.
         - intros [?|?]; [done | lia].
         - intros m Hm. by replace (m <? ramdisk_block_count s) with true by lia. }
    replace (storage_capacity_blocks s * RAMDISK_BLOCK_SIZE <? n' * RAMDISK_BLOCK_SIZE) with true
      by (unfold RAMDISK_BLOCK_SIZE; lia).
    destruct (fresh_region ns st (storage_capacity_blocks s) n') as [Hl Hb]; [lia | auto | done |].
    splits; try done.
    * right. eexists. constructor; simpl; try done; lia.
    * intros m Hm. unfold ram_view; simpl. rewrite E1; simpl.
      replace ((0 <=? m) && (m <? n')) with true by lia. rewrite Hb by lia.
      destruct (Z.ltb_spec m (ramdisk_block_count s)), (Z.ltb_spec m (storage_capacity_blocks s)); try lia; try done.
      by replace ((0 <=? m) && true) with true by lia.
  + destruct (Z.ltb_spec (ramdisk_block_count s) n'); simpl.
    * rewrite u32_small by (unfold RAMDISK_MAX_BLOCKS in *; lia).
      assert (Hz : zlen (zrep ((n' - ramdisk_block_count s) * RAMDISK_BLOCK_SIZE) 0) =
        (n' - ramdisk_block_count s) * RAMDISK_BLOCK_SIZE) by (apply zlen_rep; unfold RAMDISK_BLOCK_SIZE; lia).
      rewrite memset_spec by (unfold RAMDISK_BLOCK_SIZE in *; lia).
      splits; try done; [|lia|].
      -- right. eexists. constructor; simpl; try done; [|lia].
         rewrite zlen_splice; rewrite ?Hz; unfold RAMDISK_BLOCK_SIZE in *; lia.
      -- intros m Hm. unfold ram_view; simpl. rewrite E1; simpl.
         replace ((0 <=? m) && (m <? n')) with true by lia.
         destruct (Z.ltb_spec m (ramdisk_block_count s)).
         ++ replace ((0 <=? m) && true) with true by lia.
            apply ram_block_splice_out; [lia | rewrite Hz; unfold RAMDISK_BLOCK_SIZE in *; lia | lia].
         ++ apply ram_block_splice_in; unfold RAMDISK_BLOCK_SIZE in *; lia.
    * rewrite ?E1. simpl. splits; try done; [|lia|].
      -- right. exists st. constructor; simpl; try done. lia.
      -- intros m Hm. replace (m <? ramdisk_block_count s) with true by lia.
         unfold ram_view; simpl. rewrite E1; simpl.
         by replace ((0 <=? m) && (m <? n')) with ((0 <=? m) && (m <? ramdisk_block_count s)) by lia.
Qed.

(** ** Properties *)

(** [ramdisk_init] resizes without losing data: with the new region allocated,
    the device has [min n 1024] blocks, the blocks it had keep their contents, and
    the added ones are zero, except that growing past the capacity brings back
    whatever the blocks between the old count and the old capacity last held.  When
    the allocation fails nothing changes. *)
Theorem ramdisk_init_contents s n fresh : ram_inv s -> 0 <= n ->
  (forall ns, fresh = Some ns -> zlen ns = Z.min n RAMDISK_MAX_BLOCKS * RAMDISK_BLOCK_SIZE) ->
  let n' := Z.min n RAMDISK_MAX_BLOCKS in
  let s' := ramdisk_init fresh n s in
  ram_inv s' /\
  (fresh = None -> storage_capacity_blocks s < n' -> s' = s) /\
  (fresh <> None \/ n' <= storage_capacity_blocks s -> ramdisk_block_count s' = n') /\
  forall m, 0 <= m < ramdisk_block_count s' -> ram_view s' m =
    if m <? ramdisk_block_count s then ram_view s m
    else if (storage_capacity_blocks s <? n') && (m <? storage_capacity_blocks s)
    then ram_block (default [] (storage s)) m else zrep RAMDISK_BLOCK_SIZE 0.
Proof.
  intros [(E1 & E2 & E3 & E4)|(st & Hok)] Hn Hfresh; cbv zeta.
  - destruct s as [sto cap ini cnt]; simpl in E1, E2, E3, E4; subst.
    by apply (ramdisk_init_empty n fresh).
  - by apply (ramdisk_init_store s st n fresh).
Qed.

Lemma ramdisk_init_contents_witness :
  let s' := ramdisk_init (Some (zrep 4096 7)) 1 ramdisk_boot in
  ramdisk_block_count s' = 1 /\ ram_view s' 0 = zrep RAMDISK_BLOCK_SIZE 0.
Proof.
  cbv zeta. destruct (ramdisk_init_contents ramdisk_boot 1 (Some (zrep 4096 7))) as (_ & _ & Hc & Hv).
  - left. repeat split.
  - lia.
  - intros ns [= <-]. reflexivity.
  - assert (E : ramdisk_block_count (ramdisk_init (Some (zrep 4096 7)) 1 ramdisk_boot) = 1)
      by (apply Hc; left; discriminate).
    split; [exact E|]. apply Hv. rewrite E. lia.
Defined.

(** A run of writes to a device. *)
Fixpoint run_writes {W} (dev : block_device W) (ws : list (Z * list Z)) (w : W) : W :=
  match ws with
  | [] => w
  | (n, data) :: ws => run_writes dev ws (block_device_write (Some dev) n data w).2
  end.

(** What a successful [block_offset_wrap] has checked. *)
Lemma offset_wrap_inv {W} d c (lower dev : block_device W) start count :
  block_offset_wrap d c (Some lower) start count = Some dev -> 0 <= count ->
  dev = offset_dev lower start count /\ 0 < count /\ start + count <= dev_block_count lower.
Proof.
  unfold block_offset_wrap. intros H Hc. repeat destr_if; try done. bools.
  injection H as <-. split; [done | lia].
Qed.

(** A sub-range device is confined to its window: whatever sequence of writes is
    issued through it, in or out of its range and whether or not the lower device
    fails some of them, every lower block outside the window keeps its contents, and
    inside the window a block no write addressed is unchanged. *)
Theorem offset_wrap_isolates {W} (lower dev : block_device W) `{!DiskSpec lower} d c start count ws w :
  block_offset_wrap d c (Some lower) start count = Some dev -> 0 <= start -> 0 <= count ->
  disk_inv (dev := lower) w ->
  Forall (fun nd => 0 <= nd.1 /\ zlen nd.2 = dev_block_size lower) ws ->
  forall m, 0 <= m -> ~ (start <= m < start + count /\ (m - start) ∈ ws.*1) ->
  disk_view (dev := lower) (run_writes dev ws w) m = disk_view (dev := lower) w m.
Proof.
  intros E Hs Hc. apply offset_wrap_inv in E as (-> & Hpos & Hfit); [|done].
  intros Hw Hws m Hm. revert w Hw. induction Hws as [|[n data] ws [Hn Hd] Hws IH]; intros w Hw Hnot; [done|].
  cbn [run_writes]. destruct (offset_write_frame lower start count Hs Hfit w n data Hw Hn Hd) as [Hw' Hfr].
  rewrite IH; [|done|intros [? ?]; apply Hnot; split; [done | simpl; by apply list_elem_of_further]].
  destruct (decide (start <= m < start + count)) as [Hin|]; [|by apply Hfr].
  pose proof (disk_write (DiskSpec := offset_spec lower start count Hs Hpos Hfit) w n data Hw Hn Hd) as Hdw.
  destruct (block_device_write (Some (offset_dev lower start count)) n data w) as [rc w'].
  destruct Hdw as (_ & Hv & _). specialize (Hv (m - start) ltac:(lia)).
  simpl in Hv. replace (start + (m - start)) with m in Hv by lia. apply Hv.
  intros E. apply Hnot. split; [done | simpl; rewrite E; apply list_elem_of_here].
Qed.

Lemma mem_inv_demo : mem_inv 2 4 [[1; 2]; [3; 4]; [5; 6]; [7; 8]].
Proof. split; [done|]. repeat constructor. Qed.

Lemma offset_wrap_isolates_witness :
  let dev := offset_dev (mem_dev 2 4) 1 2 in
  let w := [[1; 2]; [3; 4]; [5; 6]; [7; 8]] in
  aget [] (run_writes dev [(1, [9; 9]); (7, [0; 0])] w) 3 = [7; 8] /\
  run_writes dev [(1, [9; 9]); (7, [0; 0])] w = [[1; 2]; [3; 4]; [9; 9]; [7; 8]].
Proof.
  cbv zeta. split; [|vm_compute; reflexivity].
  apply (offset_wrap_isolates (DiskSpec0 := mem_spec 2 ltac:(lia) 4 ltac:(lia)) (mem_dev 2 4)
    (offset_dev (mem_dev 2 4) 1 2) true true 1 2 [(1, [9; 9]); (7, [0; 0])]).
  - reflexivity.
  - lia.
  - lia.
  - apply mem_inv_demo.
  - repeat (apply Forall_cons_2; [split; [simpl; lia | reflexivity]|]). apply Forall_nil_2.
  - lia.
  - intros [? _]. lia.
Defined.

(** What a successful [block_chunked_wrap] has checked. *)
Lemma chunked_wrap_inv {W} d c (lower dev : block_device W) size : 0 < dev_block_size lower -> 0 <= size ->
  block_chunked_wrap d c (Some lower) size = Some dev ->
  exists ratio, 0 < ratio /\ size = ratio * dev_block_size lower /\ dev = chunk_dev lower ratio.
Proof.
  unfold block_chunked_wrap. intros Hbs Hs H. repeat destr_if; try done. bools.
  exists (size / dev_block_size lower). injection H as <-.
  assert (E : size = size / dev_block_size lower * dev_block_size lower).
  { pose proof (Z.div_mod size (dev_block_size lower) ltac:(lia)). lia. }
  pose proof (Z.div_pos size (dev_block_size lower) Hs Hbs).
  split; [lia|]. split; [done|]. unfold chunk_dev. by rewrite <- E.
Qed.

(** C32. Chunking is faithful: over a lower device that does not fail inside its
    range, writing a chunk of the wrapped device and reading it back returns the
    data, whatever was in the destination buffer, and every other chunk reads as
    before; the 32-bit block and offset arithmetic never wraps. *)
Theorem chunk_write_read {W} (lower dev : block_device W) `{!DiskSpec lower, !ReliableDisk lower} d c size w n data buf m :
  block_chunked_wrap d c (Some lower) size = Some dev -> 0 <= size < 2 ^ 32 ->
  disk_inv (dev := lower) w -> 0 <= n < dev_block_count dev -> 0 <= m < dev_block_count dev ->
  zlen data = size -> zlen buf = size ->
  let '(rc, w1) := block_device_write (Some dev) n data w in
  rc = 0 /\
  (block_device_read (Some dev) m buf w1).1 =
  if m =? n then (0, data) else (block_device_read (Some dev) m buf w).1.
Proof.
  intros E Hs Hw Hn Hm Hd Hb. pose proof (disk_size (dev := lower)).
  apply chunked_wrap_inv in E as (ratio & Hr & -> & ->); [|done | lia].
  set (cs := chunk_spec lower ratio Hr ltac:(lia)).
  pose proof (disk_write (DiskSpec := cs) w n data Hw ltac:(lia) Hd) as Hdw.
  pose proof (reliable_write (ReliableDisk := chunk_reliable lower ratio Hr ltac:(lia)) w n data Hw Hn Hd) as Hrc.
  destruct (block_device_write (Some (chunk_dev lower ratio)) n data w) as [rc w1].
  destruct Hdw as (Hw1 & Hother & Hsame & _). cbn [fst] in Hrc. split; [done|].
  assert (Hrd : forall w, disk_inv (dev := lower) w ->
    (block_device_read (Some (chunk_dev lower ratio)) m buf w).1 = (0, chunk_view lower ratio w m)).
  { intros w' Hw'. pose proof (disk_read (DiskSpec := cs) w' m buf Hw' ltac:(lia) Hb) as H1.
    pose proof (reliable_read (ReliableDisk := chunk_reliable lower ratio Hr ltac:(lia)) w' m buf Hw' Hm Hb) as H2.
    destruct (block_device_read _ _ _ _) as [[rc' b'] w'']. cbn [fst] in *. subst rc'.
    destruct H1 as (_ & _ & _ & H1). destruct H1 as [_ ->]; done. }
  rewrite !Hrd by done. destruct (Z.eqb_spec m n) as [->|].
  - f_equal. apply Hsame; done.
  - f_equal. apply Hother; [lia | done].
Qed.

Lemma chunk_write_read_witness :
  let dev := chunk_dev (mem_dev 2 5) 2 in
  let w := [[1; 2]; [3; 4]; [5; 6]; [7; 8]; [0; 0]] in
  let '(rc, w1) := block_device_write (Some dev) 1 [9; 8; 7; 6] w in
  rc = 0 /\ (block_device_read (Some dev) 1 [0; 0; 0; 0] w1).1 = (0, [9; 8; 7; 6]).
Proof.
  assert (Hinv : mem_inv 2 5 [[1; 2]; [3; 4]; [5; 6]; [7; 8]; [0; 0]]) by (split; [done|]; repeat constructor).
  apply (chunk_write_read (DiskSpec0 := mem_spec 2 ltac:(lia) 5 ltac:(lia))
    (mem_dev 2 5) (chunk_dev (mem_dev 2 5) 2) true true 4 [[1; 2]; [3; 4]; [5; 6]; [7; 8]; [0; 0]] 1
    [9; 8; 7; 6] [0; 0; 0; 0] 1); try reflexivity; try (vm_compute; intuition discriminate).
  exact Hinv.
Defined.

Lemma le32_at_val e o : bytes_ok e -> zlen e = 16 -> 0 <= o <= 12 ->
  le32_at e o = le_val (sub_bytes e o 4) /\ 0 <= le32_at e o < 2 ^ 32.
Proof.
  intros Hbe He Ho. assert (Hb : forall i, byte_ok e.[i]) by (intros; apply Forall_aget; [done | by split]).
  assert (Es : sub_bytes e o 4 = [e.[o]; e.[o + 1]; e.[o + 2]; e.[o + 3]]).
  { apply (array_ext 0); [rewrite zlen_sub by lia; done|]. intros i Hi. rewrite zlen_sub in Hi by lia.
    rewrite aget_sub by lia. assert (i = 0 \/ i = 1 \/ i = 2 \/ i = 3) as [->|[->|[->| ->]]] by lia;
      rewrite ?Z.add_0_r; reflexivity. }
  unfold le32_at. rewrite lor4_val by apply Hb. rewrite Es. split; [done|].
  assert (Hv4 : bytes_ok [e.[o]; e.[o + 1]; e.[o + 2]; e.[o + 3]])
    by (repeat (constructor; [apply Hb|]); constructor).
  apply le_val_range in Hv4. exact Hv4.
Qed.

(** A partition [mbr_read_partition] accepts is usable: the sector carries the
    0x55AA signature, the fields are the little-endian words of its table entry, the
    type and size are non-zero, the window lies inside the device (so the 32-bit
    subtraction does not wrap), and [block_offset_wrap] over it succeeds. *)
Theorem mbr_partition_usable {W} (raw : block_device W) `{!DiskSpec raw} w index out p w' :
  disk_inv (dev := raw) w -> bytes_ok (disk_view (dev := raw) w 0) ->
  mbr_read_partition (Some raw) index (Some out) w = (0, Some p, w') ->
  let mbr := disk_view (dev := raw) w 0 in
  let entry := sub_bytes mbr (446 + index * 16) 16 in
  mbr.[510] = 0x55 /\ mbr.[511] = 0xAA /\
  lba_start p = le_val (sub_bytes entry 8 4) /\ sector_count p = le_val (sub_bytes entry 12 4) /\
  part_type p <> 0 /\ 0 <= lba_start p /\ 0 < sector_count p /\
  lba_start p + sector_count p <= dev_block_count raw /\
  block_offset_wrap true true (Some raw) (lba_start p) (sector_count p) =
    Some (offset_dev raw (lba_start p) (sector_count p)) /\
  disk_view (dev := raw) w' = disk_view (dev := raw) w.
Proof.
  intros Hw Hbytes. unfold mbr_read_partition. pose proof (disk_count (dev := raw)) as Hcnt.
  destr_if; [done|]. destr_if; [done|]. bools.
  pose proof (disk_read w 0 (zrep 512 0) Hw ltac:(lia)) as Hr. rewrite zlen_rep in Hr by lia.
  specialize (Hr ltac:(lia)). destruct (block_device_read (Some raw) 0 (zrep 512 0) w) as [[rc mbr] w1].
  destruct Hr as (_ & _ & Hv & Hok). destr_if; [done|]. bools. destruct Hok as [_ ->]; [done|].
  destr_if; [done|]. bools. set (mbr := disk_view w 0) in *.
  assert (Hlen : zlen mbr = 512) by (unfold mbr; rewrite disk_len; [done | done | lia]).
  set (entry := sub_bytes mbr (446 + index * 16) 16).
  assert (He : zlen entry = 16) by (apply zlen_sub; lia).
  assert (Hbe : bytes_ok entry) by (unfold entry, sub_bytes, ztake, zdrop; by apply Forall_take, Forall_drop).
  pose proof (fun o Ho => le32_at_val entry o Hbe He Ho) as Hle.
  unfold parse_entry. cbn [part_type sector_count]. destr_if; [done|]. bools. cbn [Z.eqb negb lba_start sector_count].
  destr_if; [done|]. destr_if; [done|]. bools. intros [= <- <-]. cbn [part_type sector_count lba_start].
  destruct (Hle 8 ltac:(lia)) as [E8 R8]. destruct (Hle 12 ltac:(lia)) as [E12 R12].
  rewrite u32_small in * by lia. splits; try done; try lia.
  unfold block_offset_wrap.
  replace (le32_at entry 12 =? 0) with false by lia.
  replace (dev_block_count raw <=? le32_at entry 8) with false by lia.
  by replace (dev_block_count raw - le32_at entry 8 <? le32_at entry 12) with false by lia.
Qed.

Definition demo_mbr : list Z :=
  zrep 446 0 ++ [0x80; 0; 0; 0; 0x83; 0; 0; 0; 1; 0; 0; 0; 2; 0; 0; 0] ++ zrep 48 0 ++ [0x55; 0xAA].

Lemma demo_mbr_ok : mem_inv 512 4 [demo_mbr; zrep 512 0; zrep 512 0; zrep 512 0] /\ bytes_ok demo_mbr.
Proof.
  split; [split; [done|]; repeat constructor|].
  apply bytes_okb_ok. vm_compute. reflexivity.
Qed.

Lemma mbr_partition_usable_witness :
  let w := [demo_mbr; zrep 512 0; zrep 512 0; zrep 512 0] in
  let p := mkPart 1 2 0x83 0x80 in
  mbr_read_partition (Some (mem_dev 512 4)) 0 (Some (mkPart 0 0 0 0)) w = (0, Some p, w) /\
  lba_start p + sector_count p <= 4.
Proof.
  cbv zeta. assert (E : mbr_read_partition (Some (mem_dev 512 4)) 0 (Some (mkPart 0 0 0 0))
    [demo_mbr; zrep 512 0; zrep 512 0; zrep 512 0] =
    (0, Some (mkPart 1 2 0x83 0x80), [demo_mbr; zrep 512 0; zrep 512 0; zrep 512 0]))
    by (vm_compute; reflexivity).
  split; [exact E|]. destruct demo_mbr_ok as [Hi Hb].
  apply (mbr_partition_usable (DiskSpec0 := mem_spec 512 ltac:(lia) 4 ltac:(lia)) (mem_dev 512 4)
    _ 0 _ _ _ Hi Hb E).
Defined.
