(* ===== verification/Dll.v ===== *)
(** * Linked lists

    The shape of the intrusive lists of the kernel: doubly linked with head and tail
    pointers (the buffer cache's LRU list, the scheduler's run queues) and singly
    linked (hash chains).  A pointer is [option Z], the index of a node in its pool
    ([None] is NULL); the link fields are functions from nodes to pointers, so the
    lemmas apply to any pool.  [dll nx pv hd tl l] says the pointers represent the
    sequence [l]. *)
From S2P Require Import Prelude.

Section dll.
Implicit Types (nx pv : Z -> option Z) (hd tl : option Z) (l : list Z) (i j : Z).

Definition dll nx pv hd tl l : Prop :=
  hd = head l /\ tl = last l /\
  forall l1 i l2, l = l1 ++ i :: l2 -> pv i = last l1 /\ nx i = head l2.

Definition chain nx hd l : Prop :=
  hd = head l /\ forall l1 i l2, l = l1 ++ i :: l2 -> nx i = head l2.

Lemma last_in l i : last l = Some i -> i ∈ l.
Proof. intros H. apply last_Some in H as [k ->]. set_solver. Qed.

Lemma head_in l i : head l = Some i -> i ∈ l.
Proof. destruct l; [done|]. intros [= ->]. apply list_elem_of_here. Qed.

Lemma last_none l : last l = None <-> l = [].
Proof. apply last_None. Qed.

Lemma head_none l : head l = None <-> l = [].
Proof. by destruct l. Qed.

Lemma dll_nil nx pv : dll nx pv None None [].
Proof. split; [done|]. split; [done|]. intros l1 i l2 E. by destruct l1. Qed.

Lemma chain_nil nx : chain nx None [].
Proof. split; [done|]. intros l1 i l2 E. by destruct l1. Qed.

(** Only the links of the members matter. *)
Lemma dll_ext nx pv nx' pv' hd tl l : dll nx pv hd tl l ->
  (forall i, i ∈ l -> nx' i = nx i /\ pv' i = pv i) -> dll nx' pv' hd tl l.
Proof.
  intros (Hh & Ht & Hl) He. split; [done|]. split; [done|]. intros l1 i l2 ->.
  destruct (He i) as [-> ->]; [set_solver|]. by apply Hl.
Qed.

Lemma chain_ext nx nx' hd l : chain nx hd l -> (forall i, i ∈ l -> nx' i = nx i) -> chain nx' hd l.
Proof.
  intros (Hh & Hl) He. split; [done|]. intros l1 i l2 ->.
  rewrite He by set_solver. by eapply Hl.
Qed.

(** Unlinking node [i]: its neighbours are joined, and an end that was [i] moves. *)
Lemma dll_remove nx pv nx' pv' hd tl l1 i l2 : NoDup (l1 ++ i :: l2) ->
  dll nx pv hd tl (l1 ++ i :: l2) ->
  (forall j, j ∈ l1 ++ l2 -> nx' j = (if decide (pv i = Some j) then nx i else nx j) /\
                             pv' j = (if decide (nx i = Some j) then pv i else pv j)) ->
  dll nx' pv' (if decide (pv i = None) then nx i else hd) (if decide (nx i = None) then pv i else tl)
    (l1 ++ l2).
Proof.
  intros Hnd (Hh & Ht & Hl) Hu. destruct (Hl l1 i l2 eq_refl) as [Hp Hn].
  apply NoDup_app in Hnd as (Hnd1 & Hdisj & Hnd2). apply NoDup_cons in Hnd2 as [Hi2 Hnd2].
  rewrite Hp, Hn in *. split; [|split].
  - rewrite Hh. destruct l1 as [|a l1]; [done|]. rewrite decide_False by (by rewrite last_none). done.
  - rewrite Ht, last_app, last_cons, last_app. destruct l2 as [|b l2]; [done|].
    rewrite decide_False by done. by rewrite last_cons; destruct (last l2).
  - intros m1 j m2 E. destruct (Hu j) as [-> ->]; [rewrite E; set_solver|].
    apply app_eq_inv in E as [(k & -> & E)|(k & -> & E)].
    + (* [j] is in [l1] or is the head of [l2] *)
      destruct k as [|x k]; simpl in E.
      * subst l2. rewrite app_nil_r in *. destruct (Hl (m1 ++ [i]) j m2) as [Hpj Hnj]; [by rewrite <- app_assoc|].
        rewrite (decide_True _ _ (eq_refl : head (j :: m2) = Some j)).
        split; [done|]. rewrite decide_False; [done|]. intros El. apply (Hdisj j); [by apply last_in | set_solver].
      * injection E as <- ->. destruct (Hl m1 j (k ++ i :: l2)) as [Hpj Hnj]; [by rewrite <- app_assoc|].
        rewrite Hpj, Hnj. rewrite (decide_False (P := head l2 = Some j))
          by (intros Eh; apply (Hdisj j); [set_solver | apply head_in in Eh; set_solver]).
        split; [done|]. rewrite last_app, last_cons. destruct (last k) as [y|] eqn:Ek.
        -- rewrite decide_False; [by destruct k|]. intros [= ->]. apply last_in in Ek.
           apply NoDup_app in Hnd1 as (_ & _ & Hnd1). by apply NoDup_cons in Hnd1 as [? _].
        -- apply last_none in Ek as ->. by rewrite decide_True.
    + (* [j] is inside [l2] *)
      subst l2. destruct k as [|x k].
      * rewrite app_nil_r. destruct (Hl (l1 ++ [i]) j m2) as [Hpj Hnj]; [by rewrite <- app_assoc|].
        rewrite (decide_True _ _ (eq_refl : head (j :: m2) = Some j)).
        split; [done|]. rewrite decide_False; [done|]. intros El. apply (Hdisj j); [by apply last_in | set_solver].
      * destruct (Hl (l1 ++ i :: x :: k) j m2) as [Hpj Hnj]; [by rewrite <- app_assoc|].
        assert (Hne : x <> j) by (intros ->; apply NoDup_cons in Hnd2 as [H _]; set_solver).
        rewrite Hpj, Hnj, decide_False by (intros [= ?]; congruence).
        rewrite !last_app, !last_cons. split; [by destruct (last k)|].
        rewrite decide_False; [done|]. intros El. apply (Hdisj j); [by apply last_in | set_solver].
Qed.

(** Linking a new node in front. *)
Lemma dll_push_front nx pv nx' pv' hd tl l i : i ∉ l -> dll nx pv hd tl l ->
  nx' i = hd -> pv' i = None ->
  (forall j, j ∈ l -> nx' j = nx j /\ pv' j = (if decide (hd = Some j) then Some i else pv j)) ->
  NoDup l -> dll nx' pv' (Some i) (if decide (hd = None) then Some i else tl) (i :: l).
Proof.
  intros Hi (Hh & Ht & Hl) Hn Hp Hu Hnd. split; [done|]. split.
  { rewrite last_cons, Ht, Hh. destruct l as [|a l]; [done|]. rewrite decide_False by done.
    rewrite last_cons. by destruct (last l). }
  intros l1 j l2 E. destruct l1 as [|x l1]; simpl in E; injection E as -> ->; [by rewrite Hn, Hh|].
  destruct (Hu j) as [-> ->]; [set_solver|]. destruct (Hl l1 j l2 eq_refl) as [Hpj Hnj].
  split; [|done]. rewrite last_cons, Hh, Hpj. destruct l1 as [|y l1]; simpl; [by rewrite decide_True|].
  rewrite decide_False; [destruct (last (y :: l1)) eqn:E; [done | by apply last_none in E]|].
  intros [= ->]. apply NoDup_cons in Hnd as [Hnd _]. set_solver.
Qed.

(** Linking a new node at the back. *)
Lemma dll_push_back nx pv nx' pv' hd tl l i : i ∉ l -> dll nx pv hd tl l ->
  nx' i = None -> pv' i = tl ->
  (forall j, j ∈ l -> pv' j = pv j /\ nx' j = (if decide (tl = Some j) then Some i else nx j)) ->
  NoDup l -> dll nx' pv' (if decide (tl = None) then Some i else hd) (Some i) (l ++ [i]).
Proof.
  intros Hi (Hh & Ht & Hl) Hn Hp Hu Hnd. split; [|split; [by rewrite last_snoc|]].
  { rewrite Ht, Hh. destruct l as [|a l]; [done|]. by rewrite decide_False by (by rewrite last_none). }
  intros l1 j l2 E. apply app_eq_inv in E as [(k & -> & E)|(k & -> & E)].
  - destruct k as [|x k]; simpl in E.
    + injection E as -> ->. rewrite app_nil_r in *. by rewrite Hp, Hn, Ht.
    + injection E as <- ->. destruct (Hu j) as [-> ->]; [set_solver|].
      destruct (Hl l1 j k eq_refl) as [Hpj Hnj]. split; [done|].
      rewrite Ht, last_app, last_cons, Hnj. destruct (last k) as [y|] eqn:Ek.
      * rewrite decide_False; [by destruct k|]. intros [= ->]. apply last_in in Ek.
        apply NoDup_app in Hnd as (_ & _ & Hnd). by apply NoDup_cons in Hnd as [? _].
      * apply last_none in Ek as ->. by rewrite decide_True.
  - destruct k as [|x k]; simpl in E; [injection E as <- <-; by rewrite app_nil_r, Hp, Hn, Ht|].
    injection E as -> E. by destruct k.
Qed.

(** Chains: insertion in front and unlinking. *)
Lemma chain_push nx nx' hd l i : chain nx hd l -> nx' i = hd -> (forall j, j ∈ l -> nx' j = nx j) ->
  chain nx' (Some i) (i :: l).
Proof.
  intros (Hh & Hl) Hn Hu. split; [done|]. intros l1 j l2 E.
  destruct l1 as [|x l1]; simpl in E; injection E as -> ->; [by rewrite Hn|].
  rewrite Hu by set_solver. by eapply Hl.
Qed.

Lemma chain_remove nx nx' hd l1 i l2 : NoDup (l1 ++ i :: l2) -> chain nx hd (l1 ++ i :: l2) ->
  (forall j, j ∈ l1 ++ l2 -> nx' j = if decide (last l1 = Some j) then nx i else nx j) ->
  chain nx' (if decide (l1 = []) then nx i else hd) (l1 ++ l2).
Proof.
  intros Hnd (Hh & Hl) Hu. pose proof (Hl l1 i l2 eq_refl) as Hn.
  apply NoDup_app in Hnd as (Hnd1 & Hdisj & Hnd2). apply NoDup_cons in Hnd2 as [Hi2 Hnd2]. split.
  { rewrite Hh. by destruct l1. }
  intros m1 j m2 E. rewrite Hu by (rewrite E; set_solver). rewrite Hn.
  apply app_eq_inv in E as [(k & -> & E)|(k & -> & E)].
  - destruct k as [|x k]; simpl in E.
    + subst l2. rewrite app_nil_r in *. rewrite decide_False.
      * rewrite (Hl (m1 ++ [i]) j m2); [done | by rewrite <- app_assoc].
      * intros El. apply (Hdisj j); [by apply last_in | set_solver].
    + injection E as <- ->. rewrite (Hl m1 j (k ++ i :: l2)) by (by rewrite <- app_assoc).
      rewrite last_app, last_cons. destruct (last k) as [y|] eqn:Ek.
      * rewrite decide_False; [by destruct k|]. intros [= ->]. apply last_in in Ek.
        apply NoDup_app in Hnd1 as (_ & _ & Hnd1). by apply NoDup_cons in Hnd1 as [? _].
      * apply last_none in Ek as ->. by rewrite decide_True.
  - subst l2. rewrite decide_False by (intros El; apply (Hdisj j); [by apply last_in | set_solver]).
    rewrite (Hl (l1 ++ i :: k) j m2); [done | by rewrite <- app_assoc].
Qed.

(** Distinct indices below [n] are at most [n]: the fuel bound of the list walks. *)
Lemma nodup_bound l (n : Z) : NoDup l -> (forall i, i ∈ l -> 0 <= i < n) -> zlen l <= Z.max 0 n.
Proof.
  intros Hnd Hr. unfold zlen. destruct (Z.le_gt_cases 0 n).
  2: { destruct l as [|a l]; simpl; [lia|]. specialize (Hr a ltac:(set_solver)). lia. }
  assert (length l <= length (seqZ 0 n))%nat as H1.
  { apply submseteq_length, NoDup_submseteq; [done|]. intros i Hi. apply elem_of_seqZ. specialize (Hr i Hi). lia. }
  rewrite length_seqZ in H1. lia.
Qed.
End dll.
