(* ===== verification/Kheap.v ===== *)
(** * The kernel heap

    Models src/arch/x86_64/kmem64.c: the free list of blocks laid end to end in
    a static array, first-fit allocation with splitting, freeing with coalescing,
    the usage counter, and the aligned allocations built on them.  The console
    output has no counterpart.

    A pointer is an address; NULL is [None].  A block header is kept at its address
    in a map, apart from the bytes of the array; what the theorems show includes
    that no block in use shares a byte with a header.  A header is never removed
    from the map: what was one stays readable, as in the array.  Loops over the list
    take the largest number of headers the array has room for as fuel. *)
From S2P Require Import Prelude.
Local Open Scope capy_scope.

Definition KHEAP_DEFAULT_SIZE : Z := 96 * 1024 * 1024.
Definition HEADER_MAGIC : Z := 0xCC.
Definition ALIGN : Z := 16.

Record kheader := mkKHdr { k_next : option Z; k_size : Z; k_free : bool; k_magic : Z }.

(** [sizeof(struct header)] and [sizeof(void * )]. *)
Definition kheader_size : Z := 24.
Definition ptr_size : Z := 8.

Record kheap := mkKheap {
  k_headers : gmap Z kheader;
  k_bytes : Z -> Z;
  free_list : option Z;
  kmem_oom_warning : bool;
  g_kmem_initialized : bool }.

Definition zero_kheader : kheader := mkKHdr None 0 false 0.

Definition header_at (s : kheap) (a : Z) : kheader := default zero_kheader (k_headers s !! a).

Definition set_header (s : kheap) (a : Z) (h : kheader) : kheap :=
  mkKheap (<[a := h]> (k_headers s)) (k_bytes s) (free_list s) (kmem_oom_warning s) (g_kmem_initialized s).

Definition memzero_internal (s : kheap) (ptr len : Z) : kheap :=
  mkKheap (k_headers s) (fun p => if (ptr <=? p) && (p <? ptr + len) then 0 else k_bytes s p)
    (free_list s) (kmem_oom_warning s) (g_kmem_initialized s).

(** Masking with the complement of [2^k - 1] rounds down to a multiple of [2^k]. *)
Lemma land_mask_down x k : 0 <= x < 2 ^ 64 -> 0 <= k < 64 -> Z.land x (u64 (Z.lnot (2 ^ k - 1))) = x / 2 ^ k * 2 ^ k.
Proof.
  intros Hx Hk. apply Z.bits_inj'. intros i Hi. unfold u64.
  rewrite Z.land_spec, <- Z.shiftr_div_pow2, <- Z.shiftl_mul_pow2, Z.shiftl_spec by lia.
  replace (2 ^ k - 1) with (Z.ones k) by (rewrite Z.ones_equiv; lia). destruct (Z.ltb_spec i 64).
  - rewrite Z.mod_pow2_bits_low, Z.lnot_spec, Z.testbit_ones_nonneg by lia. destruct (Z.ltb_spec i k); cbn [negb].
    + rewrite (Z.testbit_neg_r _ (i - k)) by lia. by rewrite andb_false_r.
    + rewrite Z.shiftr_spec by lia. replace (i - k + k) with i by lia. apply andb_true_r.
  - rewrite Z.mod_pow2_bits_high by lia. rewrite andb_false_r, Z.shiftr_spec by lia. symmetry. replace (i - k + k) with i by lia.
    destruct (Z.eq_dec x 0) as [->|]; [apply Z.testbit_0_l|]. apply Z.bits_above_log2; [lia|]. apply Z.log2_lt_pow2; [lia|].
    apply Z.lt_le_trans with (2 ^ 64); [lia|]. apply Z.pow_le_mono_r; lia.
Qed.

(** The powers of two are the numbers without a bit in common with their predecessor. *)
Lemma pow2_test a : 0 < a < 2 ^ 64 -> Z.land a (u64 (a - 1)) = 0 -> a = 2 ^ Z.log2 a.
Proof.
  intros Ha. rewrite u64_small by lia. intros H. destruct (Z.log2_spec a) as [Hlo Hhi]; [lia|].
  destruct (Z.eq_dec a (2 ^ Z.log2 a)) as [|Hne]; [done|]. exfalso.
  assert (Hlog : Z.log2 (a - 1) = Z.log2 a) by (apply Z.log2_unique; [apply Z.log2_nonneg | lia]).
  assert (Hbit : Z.testbit (Z.land a (a - 1)) (Z.log2 a) = true).
  { assert (0 < 2 ^ Z.log2 a) by (apply Z.pow_pos_nonneg; [lia | apply Z.log2_nonneg]).
    rewrite Z.land_spec, Z.bit_log2 by lia. rewrite <- Hlog, Z.bit_log2 by lia. done. }
  rewrite H, Z.bits_0 in Hbit. done.
Qed.

Section kheap.
(** The address of the array and its size, which the build may override. *)
Context (kheap_addr KHEAP_SIZE : Z).

Definition heap_fuel : nat := S (Z.to_nat (KHEAP_SIZE / kheader_size)).

Definition kinit (s : kheap) : kheap :=
  let s := set_header s kheap_addr (mkKHdr None (u64 (KHEAP_SIZE - kheader_size)) true HEADER_MAGIC) in
  mkKheap (k_headers s) (k_bytes s) (Some kheap_addr) false true.

Definition align_size (size : Z) : Z := Z.land (u64 (size + (ALIGN - 1))) (u64 (Z.lnot (ALIGN - 1))).

(** The block at [curr] is taken, split when the rest can hold a block of its own. *)
Definition take_block (curr aligned_size : Z) (s : kheap) : option Z * kheap :=
  let h := header_at s curr in
  let s :=
    if u64 (aligned_size + kheader_size + ALIGN) <=? k_size h then
      let new_block := u64 (curr + kheader_size + aligned_size) in
      let s := set_header s new_block
        (mkKHdr (k_next h) (u64 (k_size h - aligned_size - kheader_size)) true HEADER_MAGIC) in
      set_header s curr (mkKHdr (Some new_block) aligned_size (k_free h) (k_magic h))
    else s in
  let h := header_at s curr in
  let s := set_header s curr (mkKHdr (k_next h) (k_size h) false (k_magic h)) in
  let ptr := u64 (curr + kheader_size) in
  (Some ptr, memzero_internal s ptr (k_size h)).

Definition set_oom (s : kheap) : kheap :=
  mkKheap (k_headers s) (k_bytes s) (free_list s) true (g_kmem_initialized s).

Fixpoint kalloc_loop (fuel : nat) (curr : option Z) (aligned_size : Z) (s : kheap) : option Z * kheap :=
  match curr, fuel with
  | None, _ | _, O => (None, set_oom s)
  | Some a, S fuel =>
      let h := header_at s a in
      if negb (k_magic h =? HEADER_MAGIC) then (None, s) else
      if k_free h && (aligned_size <=? k_size h) then take_block a aligned_size s else
      kalloc_loop fuel (k_next h) aligned_size s
  end.

Definition kalloc (size : Z) (s : kheap) : option Z * kheap :=
  if size =? 0 then (None, s) else
  if negb (g_kmem_initialized s) then (None, s) else
  kalloc_loop heap_fuel (free_list s) (align_size size) s.

Fixpoint coalesce_loop (fuel : nat) (curr : option Z) (s : kheap) : kheap :=
  match curr, fuel with
  | None, _ | _, O => s
  | Some a, S fuel =>
      let h := header_at s a in
      match k_next h with
      | None => s
      | Some b =>
          let n := header_at s b in
          if k_free h && k_free n && (u64 (a + kheader_size + k_size h) =? b) then
            coalesce_loop fuel (Some a)
              (set_header s a (mkKHdr (k_next n) (u64 (k_size h + (kheader_size + k_size n))) (k_free h) (k_magic h)))
          else coalesce_loop fuel (Some b) s
      end
  end.

Definition kfree (ptr : option Z) (s : kheap) : kheap :=
  match ptr with
  | None => s
  | Some p =>
      if negb (g_kmem_initialized s) then s else
      let blk := u64 (p - kheader_size) in
      let h := header_at s blk in
      if negb (k_magic h =? HEADER_MAGIC) then s else
      let s := set_header s blk (mkKHdr (k_next h) (k_size h) true (k_magic h)) in
      coalesce_loop heap_fuel (free_list s) s
  end.

Fixpoint used_loop (fuel : nat) (curr : option Z) (used : Z) (s : kheap) : Z :=
  match curr, fuel with
  | None, _ | _, O => used
  | Some a, S fuel =>
      let h := header_at s a in
      used_loop fuel (k_next h) (if negb (k_free h) then u64 (used + k_size h) else used) s
  end.

Definition kheap_used (s : kheap) : Z := used_loop heap_fuel (free_list s) 0 s.

Definition kheap_size : Z := KHEAP_SIZE.

Definition kmem_debug_header_magic (s : kheap) : Z :=
  match free_list s with None => 0 | Some a => k_magic (header_at s a) end.
Definition kmem_debug_header_is_free (s : kheap) : bool :=
  match free_list s with None => false | Some a => k_free (header_at s a) end.
Definition kmem_debug_header_ok (s : kheap) : bool :=
  match free_list s with None => false | Some a => k_magic (header_at s a) =? HEADER_MAGIC end.

(** A pointer in memory: eight bytes, the lowest first; the null pointer is zero. *)
Definition store_ptr (s : kheap) (a v : Z) : kheap :=
  mkKheap (k_headers s)
    (fun p => if (a <=? p) && (p <? a + ptr_size) then nth (Z.to_nat (p - a)) (le_bytes 8 v) 0 else k_bytes s p)
    (free_list s) (kmem_oom_warning s) (g_kmem_initialized s).

Definition load_ptr (s : kheap) (a : Z) : option Z :=
  let v := le_val (map (fun i => k_bytes s (a + Z.of_nat i)) (seq 0 8)) in
  if v =? 0 then None else Some v.

Definition kmalloc_aligned (size alignment : Z) (s : kheap) : option Z * kheap :=
  if (size =? 0) || (alignment =? 0) then (None, s) else
  if negb (Z.land alignment (u64 (alignment - 1)) =? 0) then (None, s) else
  let extra := u64 (alignment + ptr_size) in
  let '(raw, s) := kalloc (u64 (size + extra)) s in
  match raw with
  | None => (None, s)
  | Some raw =>
      let addr := u64 (raw + ptr_size) in
      let aligned := Z.land (u64 (u64 (addr + alignment) - 1)) (u64 (Z.lnot (u64 (alignment - 1)))) in
      (Some aligned, store_ptr s (u64 (aligned - ptr_size)) raw)
  end.

Definition kfree_aligned (ptr : option Z) (s : kheap) : kheap :=
  match ptr with
  | None => s
  | Some p => kfree (load_ptr s (u64 (p - ptr_size))) s
  end.

Lemma list_eq_nth_map (n : nat) (l : list Z) : length l = n -> l = map (fun i => nth i l 0) (seq 0 n).
Proof.
  intros <-. induction l as [|x l IH]; [done|]. cbn [length seq map nth]. f_equal. rewrite <- seq_shift, map_map. exact IH.
Qed.

(** What was stored is read back while its bytes stand. *)
Lemma load_stored s s2 a v : 0 <= v < 2 ^ 64 ->
  (forall i, a <= i < a + ptr_size -> k_bytes s2 i = k_bytes (store_ptr s a v) i) -> load_ptr s2 a = if v =? 0 then None else Some v.
Proof.
  intros Hv Hsame. unfold load_ptr, ptr_size in *.
  replace (map _ (seq 0 8)) with (le_bytes 8 v); [by rewrite le_val_bytes by lia|].
  assert (Hlen : length (le_bytes 8 v) = 8%nat) by done.
  rewrite (list_eq_nth_map 8 (le_bytes 8 v)) by done. apply map_ext_in. intros i Hi. apply in_seq in Hi.
  rewrite Hsame by lia. cbn [store_ptr k_bytes]. unfold ptr_size.
  replace ((a <=? a + Z.of_nat i) && (a + Z.of_nat i <? a + 8)) with true by lia. f_equal. lia.
Qed.

(** ** Specification: the blocks in the order of their addresses *)
Definition kblock : Type := Z * bool.

Definition next_of (a : Z) : option Z := if a =? kheap_addr + KHEAP_SIZE then None else Some a.

(** The blocks [l] fill the array from [a] to its end. *)
Fixpoint laid (m : gmap Z kheader) (a : Z) (l : list kblock) : Prop :=
  match l with
  | [] => a = kheap_addr + KHEAP_SIZE
  | (sz, f) :: l =>
      0 <= sz /\ m !! a = Some (mkKHdr (next_of (a + kheader_size + sz)) sz f HEADER_MAGIC) /\
      laid m (a + kheader_size + sz) l
  end.

(** No two free blocks are neighbours. *)
Fixpoint separated (l : list kblock) : Prop :=
  match l with
  | (_, f) :: (((_, f') :: _) as l') => ~ (f = true /\ f' = true) /\ separated l'
  | _ => True
  end.

(** First fit. *)
Fixpoint fit (a n : Z) (l : list kblock) : option (Z * list kblock) :=
  match l with
  | [] => None
  | (sz, f) :: l' =>
      if f && (n <=? sz) then
        Some (a + kheader_size,
              if n + kheader_size + ALIGN <=? sz then (n, false) :: (sz - n - kheader_size, true) :: l'
              else (sz, false) :: l')
      else match fit (a + kheader_size + sz) n l' with
           | Some (p, r) => Some (p, (sz, f) :: r)
           | None => None
           end
  end.

(** Neighbouring free blocks become one. *)
Fixpoint merge_from (b : kblock) (l : list kblock) : list kblock :=
  match l with
  | [] => [b]
  | b' :: l => if b.2 && b'.2 then merge_from (b.1 + kheader_size + b'.1, true) l else b :: merge_from b' l
  end.

Definition merge (l : list kblock) : list kblock :=
  match l with [] => [] | b :: l => merge_from b l end.

(** The block whose data starts at [p] becomes free. *)
Fixpoint release (a p : Z) (l : list kblock) : list kblock :=
  match l with
  | [] => []
  | (sz, f) :: l => if a + kheader_size =? p then (sz, true) :: l else (sz, f) :: release (a + kheader_size + sz) p l
  end.

(** The blocks in use: where their data starts, and its size. *)
Fixpoint in_use (a : Z) (l : list kblock) : list (Z * Z) :=
  match l with
  | [] => []
  | (sz, f) :: l => (if f then [] else [(a + kheader_size, sz)]) ++ in_use (a + kheader_size + sz) l
  end.

Record heap_ok (s : kheap) (l : list kblock) : Prop := {
  hk_laid : laid (k_headers s) kheap_addr l;
  hk_sep : separated l;
  hk_list : free_list s = Some kheap_addr;
  hk_init : g_kmem_initialized s = true }.

(** ** The list walks *)
Context (Haddr : 0 <= kheap_addr) (Hsize : kheader_size <= KHEAP_SIZE) (Hend : kheap_addr + KHEAP_SIZE < 2 ^ 64).
Local Abbreviation heap_end := (kheap_addr + KHEAP_SIZE).

Lemma laid_bound m l : forall a, laid m a l -> a + kheader_size * zlen l <= heap_end.
Proof.
  unfold kheader_size in *. induction l as [|[sz f] l IH]; intros a H; [unfold zlen in *; cbn in *; lia|].
  rewrite zlen_cons. destruct H as (Hs & _ & H). apply IH in H. unfold kheader_size in *. lia.
Qed.

Lemma laid_le m l a : laid m a l -> a <= heap_end.
Proof. intros H. apply laid_bound in H. pose proof (zlen_nonneg l). unfold kheader_size in *. lia. Qed.

(** Only headers from [a] on matter. *)
(** The blocks are determined by the headers. *)
Lemma laid_unique m l l' : forall a, laid m a l -> laid m a l' -> l = l'.
Proof.
  revert l'. induction l as [|[sz f] l IH]; intros l' a H H'; destruct l' as [|[sz' f'] l']; [done | | |].
  - pose proof (laid_bound _ _ _ H') as Hb. cbn in H. unfold zlen in Hb. cbn [length] in Hb. unfold kheader_size in *. lia.
  - pose proof (laid_bound _ _ _ H) as Hb. cbn in H'. unfold zlen in Hb. cbn [length] in Hb. unfold kheader_size in *. lia.
  - destruct H as (_ & E & H), H' as (_ & E' & H'). rewrite E in E'. injection E' as _ -> ->. f_equal. by apply (IH _ _ H).
Qed.

Lemma laid_agree m m' l : forall a, (forall b, a <= b -> m' !! b = m !! b) -> laid m a l -> laid m' a l.
Proof.
  induction l as [|[sz f] l IH]; intros a Hm H; [done|]. destruct H as (Hs & Ha & H).
  split; [done|]. split; [by rewrite Hm|]. apply IH; [|done]. intros b Hb. apply Hm. unfold kheader_size in *. lia.
Qed.

(** The pointer to the list [l] that starts at [a]. *)
Definition cursor (a : Z) (l : list kblock) : option Z := match l with [] => None | _ => Some a end.

Lemma next_cursor m a l : laid m a l -> next_of a = cursor a l.
Proof.
  unfold next_of. destruct l as [|[sz f] l]; intros H.
  - cbn in H. subst a. by rewrite Z.eqb_refl.
  - apply laid_bound in H. rewrite zlen_cons in H. pose proof (zlen_nonneg l). unfold kheader_size in H.
    by replace (a =? heap_end) with false by lia.
Qed.

Lemma header_laid s a sz f l : laid (k_headers s) a ((sz, f) :: l) ->
  header_at s a = mkKHdr (cursor (a + kheader_size + sz) l) sz f HEADER_MAGIC /\ laid (k_headers s) (a + kheader_size + sz) l /\
  0 <= sz /\ a + kheader_size + sz <= heap_end.
Proof.
  intros (Hs & Ha & H). unfold header_at. rewrite Ha. cbn [from_option id]. rewrite (next_cursor _ _ _ H).
  split_and!; try done. by apply (laid_le (k_headers s) l).
Qed.

Lemma fuel_enough m l : laid m kheap_addr l -> (length l <= heap_fuel)%nat.
Proof.
  intros H. apply laid_bound in H. unfold heap_fuel, kheader_size, zlen in *.
  enough (Z.of_nat (length l) <= KHEAP_SIZE / 24) by lia. apply Z.div_le_lower_bound; lia.
Qed.

(** Two states that agree on the headers below [a] and on all but the headers and bytes. *)
Definition same_below (a : Z) (s s' : kheap) : Prop :=
  (forall b, b < a -> k_headers s' !! b = k_headers s !! b) /\
  free_list s' = free_list s /\ g_kmem_initialized s' = g_kmem_initialized s.

Lemma same_below_refl a s : same_below a s s.
Proof. done. Qed.

Lemma same_below_le a a' s s' : a <= a' -> same_below a' s s' -> same_below a s s'.
Proof. intros Ha (E & ? & ?). split_and!; try done. intros b Hb. apply E. lia. Qed.

Lemma same_below_trans a a' s s1 s2 : a <= a' -> same_below a' s s1 -> same_below a s1 s2 -> same_below a s s2.
Proof.
  intros Ha (E1 & ? & ?) (E2 & ? & ?). split_and!; try congruence. intros b Hb. rewrite E2 by done. apply E1. lia.
Qed.

(** Taking the block at [a]. *)
Lemma take_block_spec n a sz l s : laid (k_headers s) a ((sz, true) :: l) -> 0 <= a -> 0 <= n < 2 ^ 64 - 64 -> n <= sz ->
  exists s', take_block a n s = (Some (a + kheader_size), s') /\
    let l' := if n + kheader_size + ALIGN <=? sz then (n, false) :: (sz - n - kheader_size, true) :: l else (sz, false) :: l in
    laid (k_headers s') a l' /\ same_below a s s' /\
    let got := if n + kheader_size + ALIGN <=? sz then n else sz in
    forall p, k_bytes s' p = if (a + kheader_size <=? p) && (p <? a + kheader_size + got) then 0 else k_bytes s p.
Proof.
  intros Hl Ha Hn Hsz. destruct (header_laid _ _ _ _ _ Hl) as (Hh & Hrest & Hs0 & Hle).
  pose proof (laid_le (k_headers s) _ _ Hl). destruct Hl as (_ & Hraw & _). unfold kheader_size, ALIGN in *.
  unfold take_block. rewrite Hh. cbn [k_next k_size k_free k_magic]. unfold kheader_size, ALIGN.
  rewrite (u64_small (n + 24 + 16)) by lia. rewrite (u64_small (a + 24)) by lia.
  destruct (Z.leb_spec (n + 24 + 16) sz) as [Hsplit|Hsplit].
  - rewrite (u64_small (a + 24 + n)) by lia. rewrite (u64_small (sz - n - 24)) by lia.
    eexists. split; [reflexivity|]. cbv zeta. unfold header_at.
    cbn [memzero_internal set_header k_headers k_bytes free_list kmem_oom_warning g_kmem_initialized].
    rewrite !lookup_insert_eq. cbn [from_option id k_next k_size k_free k_magic].
    split; [|split; [|done]].
    + cbn [laid]. unfold kheader_size. split; [lia|]. split.
      { rewrite lookup_insert_eq. unfold next_of. by replace (a + 24 + n =? heap_end) with false by lia. }
      split; [lia|]. replace (a + 24 + n + 24 + (sz - n - 24)) with (a + 24 + sz) by lia. split.
      { rewrite !lookup_insert_ne by lia. rewrite lookup_insert_eq. by rewrite (next_cursor _ _ _ Hrest). }
      revert Hrest. apply laid_agree. intros b Hb. by rewrite !lookup_insert_ne by lia.
    + split; [|done]. intros b Hb. cbn [k_headers memzero_internal set_header]. by rewrite !lookup_insert_ne by lia.
  - eexists. split; [reflexivity|]. cbv zeta. rewrite Hh.
    cbn [memzero_internal set_header k_headers k_bytes free_list kmem_oom_warning g_kmem_initialized k_next k_size k_magic].
    split; [|split; [|done]].
    + cbn [laid]. unfold kheader_size. split; [done|]. split.
      { rewrite lookup_insert_eq. by rewrite (next_cursor _ _ _ Hrest). }
      revert Hrest. apply laid_agree. intros b Hb. by rewrite lookup_insert_ne by lia.
    + split; [|done]. intros b Hb. cbn [k_headers memzero_internal set_header]. by rewrite lookup_insert_ne by lia.
Qed.

(** ** First fit *)
Lemma kalloc_loop_spec n l : forall fuel a s, laid (k_headers s) a l -> 0 <= a -> 0 <= n < 2 ^ 64 - 64 -> (length l <= fuel)%nat ->
  match fit a n l with
  | None => kalloc_loop fuel (cursor a l) n s = (None, set_oom s)
  | Some (p, l') => exists s', kalloc_loop fuel (cursor a l) n s = (Some p, s') /\ laid (k_headers s') a l' /\ same_below a s s' /\
      exists got, In (p, got) (in_use a l') /\ n <= got /\
        forall q, k_bytes s' q = if (p <=? q) && (q <? p + got) then 0 else k_bytes s q
  end.
Proof.
  induction l as [|[sz f] l IH]; intros fuel a s Hl Ha Hn Hf; [by destruct fuel|].
  destruct fuel as [|fuel]; [cbn in Hf; lia|]. cbn [fit cursor kalloc_loop].
  destruct (header_laid _ _ _ _ _ Hl) as (-> & Hrest & Hs0 & Hle). cbn [k_magic k_free k_size k_next].
  change (negb (HEADER_MAGIC =? HEADER_MAGIC)) with false. cbv iota.
  destruct (f && (n <=? sz)) eqn:Efit.
  - apply andb_true_iff in Efit as [-> Hsz]. apply Z.leb_le in Hsz.
    destruct (take_block_spec n a sz l s Hl Ha Hn Hsz) as (s' & E & Hl' & Hb & Hz). exists s'. split; [done|].
    cbv zeta in Hl', Hz. split; [done|]. split; [done|]. eexists. split; [|split; [|exact Hz]]; destr_if; cbn; auto; lia.
  - specialize (IH fuel (a + kheader_size + sz) s Hrest ltac:(unfold kheader_size in *; lia) Hn ltac:(cbn in Hf; lia)).
    destruct (fit _ n l) as [[p l']|]; [|done]. destruct IH as (s' & E & H1 & H2 & got & H3 & H4 & H5).
    exists s'. split; [done|]. split; [|split].
    + cbn [laid]. split; [done|]. split; [|done]. destruct H2 as (Hb & _). rewrite Hb by (unfold kheader_size; lia). apply Hl.
    + apply (same_below_le _ (a + kheader_size + sz)); [unfold kheader_size; lia | done].
    + exists got. split_and!; try done. cbn [in_use]. apply in_app_iff. by right.
Qed.

(** ** Coalescing *)
Lemma coalesce_spec l : forall fuel a b s, laid (k_headers s) a (b :: l) -> 0 <= a -> (length l < fuel)%nat ->
  exists s', coalesce_loop fuel (Some a) s = s' /\ laid (k_headers s') a (merge_from b l) /\ same_below a s s' /\
    k_bytes s' = k_bytes s.
Proof.
  induction l as [|[sz2 f2] l IH]; intros fuel a [sz f] s Hl Ha Hf; (destruct fuel as [|fuel]; [cbn in Hf; lia|]);
    cbn [coalesce_loop merge_from fst snd]; destruct (header_laid _ _ _ _ _ Hl) as (Hh & Hrest & Hs0 & Hle); rewrite Hh.
  - cbn [k_next cursor]. by exists s.
  - cbn [k_next k_free k_size k_magic cursor]. pose proof (header_laid _ _ _ _ _ Hrest) as (Hh2 & Hrest2 & Hs2 & Hle2). rewrite Hh2.
    cbn [k_next k_free k_size]. unfold kheader_size in *. rewrite (u64_small (a + 24 + sz)), Z.eqb_refl, andb_true_r by lia.
    rewrite (u64_small (sz + (24 + sz2))) by lia.
    destruct (f && f2) eqn:Eff.
    + apply andb_true_iff in Eff as [-> ->]. set (s1 := set_header s a _).
      assert (Hl1 : laid (k_headers s1) a ((sz + 24 + sz2, true) :: l)).
      { cbn [laid]. unfold kheader_size. split; [lia|]. replace (a + 24 + (sz + 24 + sz2)) with (a + 24 + sz + 24 + sz2) by lia. split.
        - unfold s1, set_header. cbn [k_headers]. rewrite lookup_insert_eq, (next_cursor _ _ _ Hrest2). do 2 f_equal. lia.
        - revert Hrest2. apply laid_agree. intros c Hc. unfold s1, set_header. cbn [k_headers]. by rewrite lookup_insert_ne by lia. }
      destruct (IH fuel a _ s1 Hl1 Ha ltac:(cbn in Hf; lia)) as (s' & E & H1 & H2 & H3).
      exists s'. split; [done|]. split; [done|]. split; [|done].
      apply (same_below_trans a a _ s1); [lia | | done]. split; [|done]. intros c Hc. unfold s1, set_header. cbn [k_headers].
      by rewrite lookup_insert_ne by lia.
    + destruct (IH fuel (a + 24 + sz) (sz2, f2) s Hrest ltac:(lia) ltac:(cbn in Hf; lia)) as (s' & E & H1 & H2 & H3).
      exists s'. split; [done|]. split; [|split; [|done]].
      * cbn [laid]. unfold kheader_size. split; [done|]. split; [|done]. destruct H2 as (Hb & _). rewrite Hb by lia. apply Hl.
      * apply (same_below_le _ (a + 24 + sz)); [lia | done].
Qed.

(** ** The block list *)
Lemma merge_in_use b l : forall a, in_use a (merge_from b l) = in_use a (b :: l).
Proof.
  revert b. induction l as [|[sz2 f2] l IH]; intros [sz f] a; [done|]. cbn [merge_from fst snd].
  destruct (f && f2) eqn:E.
  - apply andb_true_iff in E as [-> ->]. rewrite IH. cbn [in_use app]. f_equal. lia.
  - cbn [in_use]. rewrite IH. done.
Qed.

Lemma merge_separated b l : separated (merge_from b l).
Proof.
  revert b. induction l as [|[sz2 f2] l IH]; intros [sz f]; [done|]. cbn [merge_from fst snd].
  destruct (f && f2) eqn:E; [apply IH|]. specialize (IH (sz2, f2)).
  assert (exists z r, merge_from (sz2, f2) l = (z, f2) :: r) as (z & r & Em).
  { clear IH E. revert sz2 f2. induction l as [|[sz3 f3] l IH]; intros sz2 f2; [by eexists _, _|]. cbn [merge_from fst snd].
    destruct (f2 && f3) eqn:E2; [apply andb_true_iff in E2 as [-> ->]; apply IH | by eexists _, _]. }
  rewrite Em in *. split; [|done]. intros [-> ->]. done.
Qed.

Lemma merge_cons b l : exists b' l', merge_from b l = b' :: l'.
Proof.
  revert b. induction l as [|b2 l IH]; intros b; [by eexists _, _|]. cbn [merge_from]. destruct (_ && _); [apply IH | by eexists _, _].
Qed.

Lemma fit_separated n l : forall a p l', fit a n l = Some (p, l') -> separated l -> separated l'.
Proof.
  induction l as [|[sz f] l IH]; intros a p l' E Hs; [done|]. cbn [fit] in E. destruct (f && (n <=? sz)) eqn:Ef.
  - apply andb_true_iff in Ef as [-> _]. injection E as <- <-. destr_if.
    + destruct l as [|[sz2 f2] l]; cbn in *; naive_solver.
    + destruct l as [|[sz2 f2] l]; cbn in *; naive_solver.
  - destruct (fit _ n l) as [[q r]|] eqn:E2; [|done]. injection E as <- <-. 
    destruct l as [|[sz2 f2] l]; [done|]. destruct Hs as [H1 H2]. pose proof (IH _ _ _ E2 H2) as H3.
    destruct r as [|[sz3 f3] r]; [done|]. split; [|done]. intros [-> ->]. apply H1. split; [done|].
    cbn [fit] in E2. repeat (case_match; simplify_eq); done.
Qed.

(** First fit: the block found was free and the others in use stay. *)
Lemma fit_in_use n l : 0 <= n -> forall a p l', fit a n l = Some (p, l') ->
  exists sz, n <= sz /\ in_use a l' ≡ₚ (p, sz) :: in_use a l.
Proof.
  intros Hn. induction l as [|[sz f] l IH]; intros a p l' E; [done|]. cbn [fit] in E. destruct (f && (n <=? sz)) eqn:Ef.
  - apply andb_true_iff in Ef as [-> Hsz]. injection E as <- <-. destr_if.
    + exists n. split; [lia|]. cbn [in_use app]. apply perm_skip. by replace (a + kheader_size + n + kheader_size + (sz - n - kheader_size)) with (a + kheader_size + sz) by lia.
    + exists sz. split; [lia|]. done.
  - destruct (fit _ n l) as [[q r]|] eqn:E2; [|done]. injection E as <- <-. destruct (IH _ _ _ E2) as (z & Hz & Hp).
    exists z. split; [done|]. cbn [in_use]. rewrite Hp. apply Permutation_middle || symmetry; apply Permutation_middle.
Qed.

(** Where the headers of the blocks are. *)
Fixpoint headers_of (a : Z) (l : list kblock) : list Z :=
  match l with
  | [] => []
  | (sz, _) :: l => a :: headers_of (a + kheader_size + sz) l
  end.

Definition sizes_ok (l : list kblock) : Prop := Forall (fun b => 0 <= b.1) l.

Lemma laid_sizes m l : forall a, laid m a l -> sizes_ok l.
Proof.
  induction l as [|[sz f] l IH]; intros a H; [constructor|]. destruct H as (Hs & _ & H). constructor; [done|]. by apply (IH _ H).
Qed.

Lemma in_use_cons a sz f l q z : In (q, z) (in_use a ((sz, f) :: l)) <->
  f = false /\ q = a + kheader_size /\ z = sz \/ In (q, z) (in_use (a + kheader_size + sz) l).
Proof. cbn [in_use]. rewrite in_app_iff. destruct f; cbn; naive_solver. Qed.

Lemma in_use_low l : forall a q z, sizes_ok l -> In (q, z) (in_use a l) -> a + kheader_size <= q.
Proof.
  induction l as [|[sz f] l IH]; intros a q z Hs Hin; [done|]. inversion Hs as [|? ? Hz Hs']; subst. cbn in Hz.
  apply in_use_cons in Hin as [(_ & -> & _) | Hin]; [lia|]. specialize (IH _ _ _ Hs' Hin). unfold kheader_size in *. lia.
Qed.

(** What first fit finds was free, and lies in the list. *)
Lemma fit_low n l : forall a p l', sizes_ok l -> fit a n l = Some (p, l') -> a + kheader_size <= p.
Proof.
  induction l as [|[sz f] l IH]; intros a p l' Hs E; [done|]. inversion Hs as [|? ? Hz Hs']; subst. cbn in Hz. cbn [fit] in E.
  destruct (f && (n <=? sz)); [injection E as <- _; lia|].
  destruct (fit _ n l) as [[q r]|] eqn:E2; [|done]. injection E as <- _. specialize (IH _ _ _ Hs' E2). unfold kheader_size in *. lia.
Qed.

Lemma fit_fresh n l : forall a p l' z, sizes_ok l -> fit a n l = Some (p, l') -> ~ In (p, z) (in_use a l).
Proof.
  induction l as [|[sz f] l IH]; intros a p l' z Hs E; [done|]. inversion Hs as [|? ? Hz Hs']; subst. cbn in Hz. cbn [fit] in E.
  rewrite in_use_cons. destruct (f && (n <=? sz)) eqn:Ef.
  - apply andb_true_iff in Ef as [-> _]. injection E as <- _. intros [(? & _) | Hin]; [done|].
    apply in_use_low in Hin; [|done]. unfold kheader_size in *. lia.
  - destruct (fit _ n l) as [[q r]|] eqn:E2; [|done]. injection E as <- _. intros [(_ & -> & _) | Hin]; [|by apply (IH _ _ _ _ Hs' E2) in Hin].
    apply fit_low in E2; [|done]. unfold kheader_size in *. lia.
Qed.

Lemma in_use_bound m l : forall a q z, laid m a l -> In (q, z) (in_use a l) ->
  a + kheader_size <= q /\ 0 <= z /\ q + z <= heap_end.
Proof.
  induction l as [|[sz f] l IH]; intros a q z H Hin; [done|]. pose proof H as (Hs & _ & H').
  pose proof (laid_le _ _ _ H') as Hle. apply in_use_cons in Hin as [(_ & -> & ->) | Hin]; [lia|].
  destruct (IH _ _ _ H' Hin) as (? & ? & ?). unfold kheader_size in *. lia.
Qed.

(** Two blocks in use are apart, with room for a header between them. *)
Lemma in_use_apart m l : forall a p n q z, laid m a l -> In (p, n) (in_use a l) -> In (q, z) (in_use a l) ->
  (p, n) = (q, z) \/ p + n + kheader_size <= q \/ q + z + kheader_size <= p.
Proof.
  induction l as [|[sz f] l IH]; intros a p n q z H Hp Hq; [done|]. pose proof H as (Hs & _ & H').
  apply in_use_cons in Hp as [(_ & -> & ->) | Hp]; apply in_use_cons in Hq as [(_ & -> & ->) | Hq].
  - by left.
  - destruct (in_use_bound _ _ _ _ _ H' Hq) as (? & ? & ?). right; left. lia.
  - destruct (in_use_bound _ _ _ _ _ H' Hp) as (? & ? & ?). right; right. lia.
  - by apply (IH _ _ _ _ _ H').
Qed.

(** A header and a block in use do not overlap. *)
Lemma header_apart m l : forall a h p n, laid m a l -> In h (headers_of a l) -> In (p, n) (in_use a l) ->
  h + kheader_size <= p \/ p + n <= h.
Proof.
  assert (Hh : forall m l a h, laid m a l -> In h (headers_of a l) -> a <= h).
  { clear m l. intros m l. induction l as [|[sz f] l IH]; intros a h H Hin; [done|]. destruct H as (Hs & _ & H').
    destruct Hin as [<- | Hin]; [lia|]. specialize (IH _ _ H' Hin). unfold kheader_size in *. lia. }
  induction l as [|[sz f] l IH]; intros a h p n H Hin Hp; [done|]. pose proof H as (Hs & _ & H').
  destruct Hin as [<- | Hin]; apply in_use_cons in Hp as [(_ & -> & ->) | Hp].
  - left. lia.
  - destruct (in_use_bound _ _ _ _ _ H' Hp) as (? & ? & ?). left. unfold kheader_size in *. lia.
  - specialize (Hh _ _ _ _ H' Hin). right. lia.
  - by apply (IH _ _ _ _ H').
Qed.

(** ** Release *)
Lemma release_in_use p l : forall a q z, sizes_ok l -> In (q, z) (in_use a (release a p l)) <-> In (q, z) (in_use a l) /\ q <> p.
Proof.
  induction l as [|[sz f] l IH]; intros a q z Hs; [cbn; tauto|]. inversion Hs as [|? ? Hz Hs']; subst. cbn in Hz. cbn [release].
  destruct (Z.eqb_spec (a + kheader_size) p) as [<-|Hne].
  - rewrite !in_use_cons. split.
    + intros [(? & _) | Hin]; [done|]. pose proof (in_use_low _ _ _ _ Hs' Hin). unfold kheader_size in *. split; [by right | lia].
    + intros [[(_ & -> & _) | Hin] Hq]; [done | by right].
  - rewrite !in_use_cons, (IH _ _ _ Hs'). split; [|tauto]. intros [(? & -> & ->) | [? ?]]; [|tauto]. split; [tauto | done].
Qed.

Lemma release_laid m p sz l : forall a, laid m a l -> In (p, sz) (in_use a l) ->
  a <= p - kheader_size /\ exists nx, m !! (p - kheader_size) = Some (mkKHdr nx sz false HEADER_MAGIC) /\
    laid (<[p - kheader_size := mkKHdr nx sz true HEADER_MAGIC]> m) a (release a p l).
Proof.
  induction l as [|[z f] l IH]; intros a H Hin; [done|]. pose proof H as (Hs & Hm & H'). cbn [release].
  apply in_use_cons in Hin as [(-> & -> & ->) | Hin].
  - rewrite Z.eqb_refl, Z.add_simpl_r. split; [lia|]. eexists. split; [exact Hm|]. cbn [laid]. split; [done|].
    split; [by rewrite lookup_insert_eq|]. revert H'. apply laid_agree. intros b Hb. rewrite lookup_insert_ne; [done|]. unfold kheader_size in *. lia.
  - pose proof (in_use_bound _ _ _ _ _ H' Hin) as (Hb & _ & _). destruct (IH _ H' Hin) as (Ha & nx & E & Hl).
    unfold kheader_size in *. replace (a + 24 =? p) with false by lia. split; [lia|]. exists nx. split; [done|].
    cbn [laid]. unfold kheader_size. split; [done|]. split; [|done]. rewrite lookup_insert_ne by lia. done.
Qed.

Lemma release_length p l : forall a, length (release a p l) = length l.
Proof. induction l as [|[sz f] l IH]; intros a; [done|]. cbn [release]. destruct (_ =? p); cbn; [done | by rewrite IH]. Qed.

(** ** The operations *)
Lemma align_size_spec n : 0 < n <= 2 ^ 64 - 128 -> n <= align_size n < n + 16 /\ align_size n `mod` 16 = 0.
Proof.
  intros Hn. unfold align_size, ALIGN. rewrite (u64_small (n + (16 - 1))) by lia.
  change (Z.lnot (16 - 1)) with (Z.lnot (2 ^ 4 - 1)). rewrite land_mask_down by lia. change (2 ^ 4) with 16.
  split; [Z.to_euclidean_division_equations; lia | apply Z.mod_mul; lia].
Qed.

Lemma kalloc_spec n l s : heap_ok s l -> 0 < n <= 2 ^ 64 - 128 ->
  match fit kheap_addr (align_size n) l with
  | None => kalloc n s = (None, set_oom s)
  | Some (p, l') => exists s' got, kalloc n s = (Some p, s') /\ heap_ok s' l' /\
      In (p, got) (in_use kheap_addr l') /\ n <= got /\
      (forall q z, In (q, z) (in_use kheap_addr l') <-> (q, z) = (p, got) \/ In (q, z) (in_use kheap_addr l)) /\
      forall q, k_bytes s' q = if (p <=? q) && (q <? p + got) then 0 else k_bytes s q
  end.
Proof.
  intros [Hl Hsep Hf Hi] Hn. destruct (align_size_spec n Hn) as [Hal _].
  unfold kalloc. replace (n =? 0) with false by lia. rewrite Hi, Hf. cbn [negb].
  assert (Hc : Some kheap_addr = cursor kheap_addr l).
  { destruct l; [|done]. cbn in Hl. unfold kheader_size in *. lia. }
  rewrite Hc. pose proof (kalloc_loop_spec (align_size n) l heap_fuel kheap_addr s Hl Haddr ltac:(lia) (fuel_enough _ _ Hl)) as H.
  destruct (fit _ _ l) as [[p l']|] eqn:Ef; [|done].
  destruct H as (s' & E & Hl' & (_ & Hf' & Hi') & got & Hin & Hg & Hz).
  exists s', got. split; [done|]. split; [constructor; [done | by apply (fit_separated _ _ _ _ _ Ef) | congruence | congruence]|].
  split_and!; try done; [lia|]. destruct (fit_in_use (align_size n) l ltac:(lia) _ _ _ Ef) as (sz & _ & Hp).
  assert (got = sz) as ->.
  { assert (Hin2 : In (p, sz) (in_use kheap_addr l')) by (apply (Permutation_in _ (symmetry Hp)); by left).
    destruct (in_use_apart _ _ _ _ _ _ _ Hl' Hin Hin2) as [E2 | [E2 | E2]]; [congruence | |];
      destruct (in_use_bound _ _ _ _ _ Hl' Hin) as (_ & ? & _); destruct (in_use_bound _ _ _ _ _ Hl' Hin2) as (_ & ? & _); unfold kheader_size in *; lia. }
  intros q z. split.
  - intros H. apply (Permutation_in _ Hp) in H. destruct H as [H|H]; [by left | by right].
  - intros H. apply (Permutation_in _ (symmetry Hp)). destruct H as [H|H]; [by left | by right].
Qed.

Lemma kfree_spec p sz l s : heap_ok s l -> In (p, sz) (in_use kheap_addr l) ->
  exists l', heap_ok (kfree (Some p) s) l' /\
    k_bytes (kfree (Some p) s) = k_bytes s /\
    forall q z, In (q, z) (in_use kheap_addr l') <-> In (q, z) (in_use kheap_addr l) /\ q <> p.
Proof.
  intros [Hl Hsep Hf Hi] Hin. unfold kfree. rewrite Hi. cbn [negb].
  pose proof (in_use_bound _ _ _ _ _ Hl Hin) as (Hb1 & Hb2 & Hb3).
  destruct (release_laid _ p sz l _ Hl Hin) as (Ha & nx & Em & Hl1).
  rewrite u64_small by (unfold kheader_size in *; lia). unfold header_at. rewrite Em. cbn [from_option id k_magic k_next k_size].
  change (negb (HEADER_MAGIC =? HEADER_MAGIC)) with false. cbv iota. set (s1 := set_header s _ _).
  change (free_list s1) with (free_list s). rewrite Hf.
  pose proof (fuel_enough _ _ Hl) as Hfu. pose proof (release_length p l kheap_addr) as Hrl.
  pose proof (laid_sizes _ _ _ Hl) as Hsz. pose proof (fun q z => release_in_use p l kheap_addr q z Hsz) as Hiu.
  change (<[p - kheader_size := mkKHdr nx sz true HEADER_MAGIC]> (k_headers s)) with (k_headers s1) in Hl1.
  destruct (release kheap_addr p l) as [|b r] eqn:Er.
  { destruct l; [done | done]. }
  destruct (coalesce_spec r heap_fuel kheap_addr b s1 Hl1 Haddr) as (s' & -> & Hl' & (_ & Hf' & Hi') & Hby); [cbn in Hrl; lia|].
  exists (merge_from b r). split; [constructor; [done | apply merge_separated | by rewrite Hf' | by rewrite Hi']|].
  split; [by rewrite Hby|]. intros q z. by rewrite merge_in_use.
Qed.

(** ** Totals *)
Definition total_use (u : list (Z * Z)) : Z := foldr (fun b n => b.2 + n) 0 u.

Lemma used_loop_spec l : forall fuel a u s, laid (k_headers s) a l -> 0 <= a -> (length l <= fuel)%nat -> 0 <= u -> u + (heap_end - a) < 2 ^ 64 ->
  used_loop fuel (cursor a l) u s = u + total_use (in_use a l).
Proof.
  induction l as [|[sz f] l IH]; intros fuel a u s Hl Ha Hf Hu Hb; [destruct fuel; cbn; lia|].
  destruct fuel as [|fuel]; [cbn in Hf; lia|]. cbn [used_loop cursor in_use].
  destruct (header_laid _ _ _ _ _ Hl) as (-> & Hrest & Hs0 & Hle). cbn [k_free k_size k_next]. unfold kheader_size in *.
  destruct f; cbn [negb].
  - rewrite IH; [unfold kheader_size; done | done | lia | cbn in Hf; lia | lia | lia].
  - rewrite u64_small by lia. rewrite IH; [unfold total_use; cbn [app foldr snd]; unfold kheader_size; lia | done | lia | cbn in Hf; lia | lia | lia].
Qed.

(** A heap without blocks in use is one free block. *)
Lemma all_free l m : laid m kheap_addr l -> separated l -> (forall q z, ~ In (q, z) (in_use kheap_addr l)) ->
  l = [(KHEAP_SIZE - kheader_size, true)].
Proof.
  intros Hl Hs Hno. destruct l as [|[sz f] l]; [cbn in Hl; unfold kheader_size in *; lia|].
  destruct f; [|destruct (Hno (kheap_addr + kheader_size) sz); cbn; by left].
  destruct l as [|[sz2 f2] l].
  - destruct Hl as (_ & _ & Hl). cbn in Hl. do 2 f_equal. unfold kheader_size in *. lia.
  - destruct Hs as [Hs _]. destruct f2; [by destruct Hs|].
    destruct (Hno (kheap_addr + kheader_size + sz + kheader_size) sz2). cbn. by left.
Qed.

Lemma fit_none n l : forall a, fit a n l = None -> forall sz, In (sz, true) l -> sz < n.
Proof.
  induction l as [|[sz f] l IH]; intros a E z Hin; [done|]. cbn [fit] in E. destruct (f && (n <=? sz)) eqn:Ef; [done|].
  destruct (fit _ n l) as [[]|] eqn:E2; [done|]. destruct Hin as [[= -> ->] | Hin]; [cbn in Ef; lia | by apply (IH _ E2)].
Qed.

Lemma kinit_ok s : heap_ok (kinit s) [(KHEAP_SIZE - kheader_size, true)].
Proof.
  unfold kheader_size in *. constructor; try done. unfold kinit. cbn [k_headers laid set_header]. unfold kheader_size.
  split; [lia|]. split; [|lia]. rewrite lookup_insert_eq, u64_small by lia. unfold next_of.
  by replace (_ =? _) with true by lia.
Qed.

(** The k-th header on the list. *)
Definition nth_header (s : kheap) (k : nat) : option Z :=
  Nat.iter k (fun c => match c with Some a => k_next (header_at s a) | None => None end) (free_list s).

Lemma walk_listed s h l : forall a k, laid (k_headers s) a l ->
  Nat.iter k (fun c => match c with Some a => k_next (header_at s a) | None => None end) (cursor a l) = Some h ->
  In h (headers_of a l).
Proof.
  induction l as [|[sz f] l IH]; intros a k Hl E.
  - cbn [cursor] in E. enough (forall k, Nat.iter k (fun c => match c with Some a => k_next (header_at s a) | None => None end) None = None)
      as H by congruence. clear. intros k. induction k as [|k IH]; [done|]. by rewrite Nat.iter_succ, IH.
  - destruct k as [|k]; [cbn in E; injection E as <-; by left|]. rewrite Nat.iter_succ_r in E. cbn [cursor] in E.
    destruct (header_laid _ _ _ _ _ Hl) as (Hh & Hrest & _). rewrite Hh in E. cbn [k_next] in E.
    right. by apply (IH _ k Hrest).
Qed.

Lemma nth_header_listed s l k h : heap_ok s l -> nth_header s k = Some h -> In h (headers_of kheap_addr l).
Proof.
  intros [Hl _ Hf _]. unfold nth_header. rewrite Hf. intros E. apply (walk_listed s h l kheap_addr k Hl).
  destruct l; [cbn in Hl; unfold kheader_size in *; lia | done].
Qed.

(** ** A client of the heap: the requests it has outstanding, by pointer *)
Inductive kop := KAlloc (n : Z) | KFree (p : Z).

Definition kstep (st : kheap * gmap Z Z) (op : kop) : kheap * gmap Z Z :=
  match op with
  | KAlloc n => let '(r, s) := kalloc n st.1 in (s, match r with Some p => <[p := n]> st.2 | None => st.2 end)
  | KFree p => (kfree (Some p) st.1, delete p st.2)
  end.

(** It asks for more than nothing, and frees only what it holds. *)
Definition kop_ok (o : gmap Z Z) (op : kop) : Prop :=
  match op with
  | KAlloc n => 0 < n <= 2 ^ 64 - 128
  | KFree p => is_Some (o !! p)
  end.

Fixpoint kops_ok (st : kheap * gmap Z Z) (ops : list kop) : Prop :=
  match ops with
  | [] => True
  | op :: ops => kop_ok st.2 op /\ kops_ok (kstep st op) ops
  end.

Definition client_ok (st : kheap * gmap Z Z) : Prop :=
  exists l, heap_ok st.1 l /\
    (forall p, is_Some (st.2 !! p) <-> exists z, In (p, z) (in_use kheap_addr l)) /\
    (forall p n, st.2 !! p = Some n -> 0 < n /\ exists z, n <= z /\ In (p, z) (in_use kheap_addr l)).

Lemma kstep_ok st op : client_ok st -> kop_ok st.2 op -> client_ok (kstep st op).
Proof.
  destruct st as [s o]. intros (l & Hh & Hdom & Hsz) Hop. cbn [fst snd] in *. destruct op as [n|p]; cbn [kstep kop_ok fst snd] in *.
  - pose proof (kalloc_spec n l s Hh Hop) as H. destruct (fit _ _ l) as [[p l']|].
    + destruct H as (s' & got & -> & Hh' & Hin & Hg & Hiff & _). exists l'. cbn [fst snd]. split; [done|]. split.
      * intros q. destruct (decide (q = p)) as [->|Hne].
        { rewrite lookup_insert_eq. split; [intros _; by exists got | by eexists]. }
        rewrite lookup_insert_ne, Hdom by done. split; intros [z Hz]; exists z; [apply Hiff; by right|].
        apply Hiff in Hz as [[= ? ?] | Hz]; done.
      * intros q m E. apply lookup_insert_Some in E as [[<- <-] | [Hne E]]; [split; [lia|]; by exists got|].
        destruct (Hsz _ _ E) as (H0 & z & Hz & Hi). split; [done|]. exists z. split; [done|]. apply Hiff. by right.
    + rewrite H. exists l. cbn [fst snd]. split; [|done]. by destruct Hh.
  - destruct Hop as [n En]. destruct (Hsz _ _ En) as (_ & z & _ & Hin).
    destruct (kfree_spec p z l s Hh Hin) as (l' & Hh' & _ & Hiff). exists l'. cbn [fst snd]. split; [done|]. split.
    + intros q. destruct (decide (q = p)) as [->|Hne].
      { rewrite lookup_delete_eq. split; [by intros [? ?] | intros [y Hy]]. by apply Hiff in Hy as [_ ?]. }
      rewrite lookup_delete_ne, Hdom by done. split; intros [y Hy]; exists y; [by apply Hiff | by apply Hiff in Hy as [? _]].
    + intros q m E. apply lookup_delete_Some in E as [Hne E]. destruct (Hsz _ _ E) as (H0 & y & Hy & Hi).
      split; [done|]. exists y. split; [done|]. by apply Hiff.
Qed.

Lemma kops_run ops : forall st, client_ok st -> kops_ok st ops -> client_ok (foldl kstep st ops).
Proof.
  induction ops as [|op ops IH]; intros st Hst Hops; [done|]. destruct Hops as [H1 H2]. apply IH; [|done]. by apply kstep_ok.
Qed.

Lemma client_init s : client_ok (kinit s, ∅).
Proof.
  eexists. split; [apply kinit_ok|]. cbn [snd in_use app]. split.
  - intros p. rewrite lookup_empty. split; [by intros [? ?] | by intros [? ?]].
  - intros p n E. by rewrite lookup_empty in E.
Qed.
End kheap.

(** ** Properties *)

(** C17. Over any sequence of requests, of at most 2^64 - 128 bytes, and frees of a client of
    a freshly initialised heap, the areas it holds lie inside the array, are pairwise disjoint and share
    no byte with any header of the list; and once it has freed everything the heap
    is one free block again: nothing is lost and nothing stays fragmented. *)
Theorem kheap_client_safe (base size : Z) s0 ops :
  0 <= base -> kheader_size <= size -> base + size < 2 ^ 64 ->
  kops_ok size (kinit base size s0, ∅) ops ->
  let '(s, o) := foldl (kstep size) (kinit base size s0, ∅) ops in
  (forall p n, o !! p = Some n -> base + kheader_size <= p /\ p + n <= base + size) /\
  (forall p n q m, o !! p = Some n -> o !! q = Some m -> p <> q -> p + n <= q \/ q + m <= p) /\
  (forall p n k h, o !! p = Some n -> nth_header s k = Some h -> h + kheader_size <= p \/ p + n <= h) /\
  (o = ∅ -> header_at s base = mkKHdr None (size - kheader_size) true HEADER_MAGIC /\ kheap_used size s = 0).
Proof.
  intros Hb Hs He Hops. pose proof (kops_run base size Hb Hs He ops _ (client_init base size Hb Hs He s0) Hops) as Hc.
  destruct (foldl _ _ _) as [s o]. destruct Hc as (l & Hh & Hdom & Hsz). cbn [fst snd] in *.
  pose proof Hh as [Hl Hsep Hf Hi]. split; [|split; [|split]].
  - intros p n E. destruct (Hsz _ _ E) as (H0 & z & Hz & Hin). destruct (in_use_bound _ _ _ _ _ _ _ Hl Hin) as (? & ? & ?). lia.
  - intros p n q m Ep Eq Hne. destruct (Hsz _ _ Ep) as (H0 & z & Hz & Hin). destruct (Hsz _ _ Eq) as (H1 & y & Hy & Hiq).
    destruct (in_use_apart _ _ _ _ _ _ _ _ _ Hl Hin Hiq) as [E | [E | E]]; [congruence | left | right]; unfold kheader_size in *; lia.
  - intros p n k h Ep En. destruct (Hsz _ _ Ep) as (H0 & z & Hz & Hin).
    pose proof (nth_header_listed base size Hs s l k h Hh En) as Hin2.
    destruct (header_apart _ _ _ _ _ _ _ _ Hl Hin2 Hin) as [E | E]; [by left | right; lia].
  - intros ->. assert (Hno : forall q z, ~ In (q, z) (in_use base l)).
    { intros q z Hin. assert (is_Some ((∅ : gmap Z Z) !! q)) as [? E] by (apply Hdom; by exists z). by rewrite lookup_empty in E. }
    pose proof (all_free base size Hs l _ Hl Hsep Hno) as ->. destruct (header_laid base size s _ _ _ _ Hl) as (-> & _). split; [done|].
    unfold kheap_used. rewrite Hf. change (Some base) with (cursor base [(size - kheader_size, true)]).
    rewrite (used_loop_spec base size); [done | done | done | unfold heap_fuel; cbn; lia | done | unfold kheader_size in *; lia].
Qed.

(** A heap of 1024 bytes: three requests, the middle one freed, a smaller one in its
    place, then all freed. *)
Definition demo_kops : list kop :=
  [KAlloc 100; KAlloc 200; KAlloc 50; KFree (4096 + 160); KAlloc 30; KFree (4096 + 24); KFree (4096 + 160); KFree (4096 + 392)].
Definition boot_heap : kheap := mkKheap ∅ (fun _ => 170) None false false.

Lemma demo_kops_ok : kops_ok 1024 (kinit 4096 1024 boot_heap, ∅) demo_kops.
Proof. cbn [kops_ok demo_kops kop_ok]. repeat (split; [first [lia | (vm_compute; by eexists)]|]). done. Qed.

Lemma kheap_client_safe_witness :
  let '(s, o) := foldl (kstep 1024) (kinit 4096 1024 boot_heap, ∅) demo_kops in
  (forall p n, o !! p = Some n -> 4096 + kheader_size <= p /\ p + n <= 4096 + 1024) /\
  (forall p n q m, o !! p = Some n -> o !! q = Some m -> p <> q -> p + n <= q \/ q + m <= p) /\
  (forall p n k h, o !! p = Some n -> nth_header s k = Some h -> h + kheader_size <= p \/ p + n <= h) /\
  (o = ∅ -> header_at s 4096 = mkKHdr None (1024 - kheader_size) true HEADER_MAGIC /\ kheap_used 1024 s = 0).
Proof.
  apply (kheap_client_safe 4096 1024 boot_heap demo_kops); [lia | unfold kheader_size; lia | lia | exact demo_kops_ok].
Defined.

(** A request is served by the first free block that is large enough, cut to the
    request rounded up to 16 when what is left can hold a block; its bytes are zero
    and those of every area in use are as before; it fails exactly when every free
    block is too small, and then only the warning flag changes. *)
Theorem kalloc_first_fit (base size : Z) s l n :
  0 <= base -> kheader_size <= size -> base + size < 2 ^ 64 -> heap_ok base size s l -> 0 < n <= 2 ^ 64 - 128 ->
  let '(r, s') := kalloc size n s in
  match fit base (align_size n) l with
  | Some (p, l') => r = Some p /\ heap_ok base size s' l' /\ (forall i, p <= i < p + n -> k_bytes s' i = 0) /\
      (forall q z i, In (q, z) (in_use base l) -> q <= i < q + z -> k_bytes s' i = k_bytes s i)
  | None => r = None /\ s' = set_oom s /\ forall z, In (z, true) l -> z < align_size n
  end.
Proof.
  intros Hb Hs He Hh Hn. pose proof (kalloc_spec base size Hb Hs He n l s Hh Hn) as H.
  destruct (fit base _ l) as [[p l']|] eqn:Ef.
  - destruct H as (s' & got & -> & Hh' & Hin & Hg & Hiff & Hz). split; [done|]. split; [done|]. split.
    + intros i Hi. rewrite Hz. by replace ((p <=? i) && (i <? p + got)) with true by lia.
    + intros q z i Hq Hi. rewrite Hz. assert (Hq' : In (q, z) (in_use base l')) by (apply Hiff; by right).
      destruct (in_use_apart _ _ _ _ _ _ _ _ _ (hk_laid _ _ _ _ Hh') Hin Hq') as [E | E].
      * exfalso. injection E as <- <-. by apply (fit_fresh _ _ _ _ _ _ (laid_sizes _ _ _ _ _ (hk_laid _ _ _ _ Hh)) Ef) in Hq.
      * replace ((p <=? i) && (i <? p + got)) with false; [done|]. unfold kheader_size in *. lia.
  - rewrite H. split; [done|]. split; [done|]. by apply (fit_none _ _ _ Ef).
Qed.

(** A heap of one free block, and a request that cuts it. *)
Lemma kalloc_first_fit_witness :
  let s := kinit 4096 1024 boot_heap in
  let '(r, s') := kalloc 1024 100 s in
  match fit 4096 (align_size 100) [(1024 - kheader_size, true)] with
  | Some (p, l') => r = Some p /\ heap_ok 4096 1024 s' l' /\ (forall i, p <= i < p + 100 -> k_bytes s' i = 0) /\
      (forall q z i, In (q, z) (in_use 4096 [(1024 - kheader_size, true)]) -> q <= i < q + z -> k_bytes s' i = k_bytes s i)
  | None => r = None /\ s' = set_oom s /\ forall z, In (z, true) [(1024 - kheader_size, true)] -> z < align_size 100
  end.
Proof.
  apply (kalloc_first_fit 4096 1024 (kinit 4096 1024 boot_heap) [(1024 - kheader_size, true)] 100);
    [lia | unfold kheader_size; lia | lia | apply kinit_ok; unfold kheader_size; lia | lia].
Defined.

(** An aligned request refuses an alignment that is not a power of two; otherwise
    the pointer it returns is a multiple of the alignment, the area asked for lies
    inside a fresh block of the heap with room for the saved pointer before it, and
    while those eight bytes stand, freeing the pointer frees exactly that block. *)
Theorem kmalloc_aligned_correct (base size : Z) s l n al :
  0 <= base -> kheader_size <= size -> base + size < 2 ^ 64 -> heap_ok base size s l ->
  0 < n -> 0 < al -> n + al + ptr_size <= 2 ^ 64 - 128 ->
  if negb (Z.land al (u64 (al - 1)) =? 0) then kmalloc_aligned size n al s = (None, s) else
  match fit base (align_size (n + al + ptr_size)) l with
  | None => kmalloc_aligned size n al s = (None, set_oom s)
  | Some (raw, l') => exists p got s',
      kmalloc_aligned size n al s = (Some p, s') /\ heap_ok base size s' l' /\ p `mod` al = 0 /\
      In (raw, got) (in_use base l') /\ ~ In (raw, got) (in_use base l) /\
      raw + ptr_size <= p /\ p + n <= raw + got /\
      forall s2, (forall i, p - ptr_size <= i < p -> k_bytes s2 i = k_bytes s' i) ->
        kfree_aligned size (Some p) s2 = kfree size (Some raw) s2
  end.
Proof.
  intros Hb Hs He Hh Hn Hal Hsum. unfold kmalloc_aligned, ptr_size in *.
  replace ((n =? 0) || (al =? 0)) with false by lia. destruct (Z.land al _ =? 0) eqn:Epow; cbn [negb]; [|done].
  apply Z.eqb_eq, pow2_test in Epow; [|lia]. rewrite (u64_small (al + 8)) by lia. rewrite (u64_small (n + (al + 8))) by lia.
  replace (n + (al + 8)) with (n + al + 8) by lia.
  pose proof (kalloc_spec base size Hb Hs He (n + al + 8) l s Hh ltac:(lia)) as H.
  destruct (fit base _ l) as [[raw l']|] eqn:Ef; [|by rewrite H].
  destruct H as (s' & got & -> & Hh' & Hin & Hg & _ & _).
  destruct (in_use_bound _ _ _ _ _ _ _ (hk_laid _ _ _ _ Hh') Hin) as (Hlow & _ & Hhigh). unfold kheader_size in *.
  rewrite (u64_small (raw + 8)), (u64_small (raw + 8 + al)), (u64_small (al - 1)), (u64_small (raw + 8 + al - 1)) by lia.
  assert (Hk : 0 <= Z.log2 al < 64) by (split; [apply Z.log2_nonneg | apply Z.log2_lt_pow2; lia]).
  pose proof (land_mask_down (raw + 8 + al - 1) (Z.log2 al) ltac:(lia) Hk) as Hm. rewrite <- Epow in Hm. rewrite Hm.
  set (p := (raw + 8 + al - 1) / al * al). assert (Hp : raw + 8 <= p < raw + 8 + al).
  { subst p. Z.to_euclidean_division_equations. nia. }
  exists p, got, (store_ptr s' (u64 (p - 8)) raw). split; [done|]. split; [by destruct Hh'|]. split; [by apply Z.mod_mul; lia|].
  split; [done|]. split; [by apply (fit_fresh _ _ _ _ _ _ (laid_sizes _ _ _ _ _ (hk_laid _ _ _ _ Hh)) Ef)|].
  split; [lia|]. split; [lia|]. intros s2 Hsame. unfold kfree_aligned, ptr_size. rewrite (u64_small (p - 8)) by lia.
  rewrite (load_stored s' s2 (p - 8) raw); [by replace (raw =? 0) with false by lia | lia |]. unfold ptr_size. intros i Hi. rewrite Hsame by lia. by rewrite (u64_small (p - 8)) by lia.
Qed.

Lemma kmalloc_aligned_correct_witness :
  let s := kinit 4096 4096 boot_heap in let l := [(4096 - kheader_size, true)] in
  if negb (Z.land 256 (u64 (256 - 1)) =? 0) then kmalloc_aligned 4096 1000 256 s = (None, s) else
  match fit 4096 (align_size (1000 + 256 + ptr_size)) l with
  | None => kmalloc_aligned 4096 1000 256 s = (None, set_oom s)
  | Some (raw, l') => exists p got s',
      kmalloc_aligned 4096 1000 256 s = (Some p, s') /\ heap_ok 4096 4096 s' l' /\ p `mod` 256 = 0 /\
      In (raw, got) (in_use 4096 l') /\ ~ In (raw, got) (in_use 4096 l) /\
      raw + ptr_size <= p /\ p + 1000 <= raw + got /\
      forall s2, (forall i, p - ptr_size <= i < p -> k_bytes s2 i = k_bytes s' i) ->
        kfree_aligned 4096 (Some p) s2 = kfree 4096 (Some raw) s2
  end.
Proof.
  apply (kmalloc_aligned_correct 4096 4096 (kinit 4096 4096 boot_heap) [(4096 - kheader_size, true)] 1000 256);
    [lia | unfold kheader_size; lia | lia | apply kinit_ok; unfold kheader_size; lia | lia | lia | unfold ptr_size; lia].
Defined.

(** Where the heap falls short of its contract: on a fresh heap whose array is
    aligned to 16 as the header's comment promises for every pointer, the first
    pointer is 8 modulo 16; and a request within 15 of the largest size wraps to
    nothing, so that instead of failing it returns a block without a byte. *)
Theorem kalloc_contract_gaps (base size n : Z) s0 :
  0 <= base -> base `mod` 16 = 0 -> 64 <= size -> base + size < 2 ^ 63 ->
  (0 < n <= size - kheader_size - 16 -> exists p, (kalloc size n (kinit base size s0)).1 = Some p /\ p `mod` 16 = 8) /\
  (2 ^ 64 - 15 <= n < 2 ^ 64 -> exists s', kalloc size n (kinit base size s0) = (Some (base + kheader_size), s') /\
     k_size (header_at s' base) = 0 /\ forall i, k_bytes s' i = k_bytes s0 i).
Proof.
  intros Hb Hm Hs He. unfold kheader_size in *. assert (Hs' : kheader_size <= size) by (unfold kheader_size; lia).
  assert (He' : base + size < 2 ^ 64) by lia. pose proof (kinit_ok base size Hb Hs' He' s0) as Hh. split.
  - intros Hn. pose proof (kalloc_spec base size Hb Hs' He' n _ _ Hh ltac:(lia)) as H. exists (base + kheader_size).
    destruct (align_size_spec n ltac:(lia)) as [Hal _]. revert H. cbn [fit andb]. unfold kheader_size.
    replace (align_size n <=? size - 24) with true by lia. intros (s' & got & -> & _). split; [done|].
    rewrite Z.add_mod, Hm by lia. done.
  - intros Hn. assert (Ea : align_size n = 0).
    { unfold align_size, ALIGN. assert (E : u64 (n + (16 - 1)) = n - (2 ^ 64 - 15)).
      { unfold u64. replace (n + (16 - 1)) with (n - (2 ^ 64 - 15) + 1 * 2 ^ 64) by lia. rewrite Z.mod_add by lia. apply Z.mod_small. lia. }
      rewrite E. change (Z.lnot (16 - 1)) with (Z.lnot (2 ^ 4 - 1)). rewrite land_mask_down by lia.
      change (2 ^ 4) with 16. rewrite Z.div_small by lia. done. }
    unfold kalloc. replace (n =? 0) with false by lia. change (negb (g_kmem_initialized (kinit base size s0))) with false. cbv iota.
    rewrite Ea. destruct Hh as [Hl _ Hf _]. rewrite Hf.
    pose proof (kalloc_loop_spec base size He' 0 _ (heap_fuel size) base (kinit base size s0) Hl Hb ltac:(lia)) as H.
    cbn [length] in H. specialize (H ltac:(unfold heap_fuel; lia)). revert H. cbn [fit andb cursor]. unfold kheader_size, ALIGN.
    replace (0 <=? size - 24) with true by lia. intros (s' & -> & Hl' & _ & got & Hin & Hg & Hz). exists s'.
    split; [done|]. revert Hl' Hin. replace (0 + 24 + 16 <=? size - 24) with true by lia. intros Hl' Hin.
    destruct (header_laid _ _ _ _ _ _ _ Hl') as (-> & _). split; [done|]. intros i. rewrite Hz.
    assert (got = 0) as ->; [|by replace ((base + 24 <=? i) && (i <? base + 24 + 0)) with false by lia].
    cbn in Hin. destruct Hin as [[= <-] | Hin]; [done | done].
Qed.

Lemma kalloc_contract_gaps_witness :
  (0 < 100 <= 1024 - kheader_size - 16 -> exists p, (kalloc 1024 100 (kinit 4096 1024 boot_heap)).1 = Some p /\ p `mod` 16 = 8) /\
  (2 ^ 64 - 15 <= 100 < 2 ^ 64 -> exists s', kalloc 1024 100 (kinit 4096 1024 boot_heap) = (Some (4096 + kheader_size), s') /\
     k_size (header_at s' 4096) = 0 /\ forall i, k_bytes s' i = k_bytes boot_heap i).
Proof. apply (kalloc_contract_gaps 4096 1024 100 boot_heap); [lia | reflexivity | lia | lia]. Defined.
