(* ===== verification/Sched.v ===== *)
(** * Tasks and the scheduler

    Models src/kernel/task.c and src/kernel/scheduler.c as built for x86_64
    without the smoke-test options, with src/arch/x86_64/cpu/context_switch.S and
    arch_sched_hooks.c: the task table, the run queue threaded through it, the
    policies, the timer tick and the switch of register contexts.

    A [struct task *] is an index of the table ([None] is NULL); a wait channel is an
    address (0 is NULL).  Kernel stacks come from the kernel heap ([Kheap]); the four
    words a new stack starts with are stored in the heap's bytes.  [live] holds the
    registers of the running context.  What the code after a switch does is what the
    incoming task does next, so an operation ends where it switches.  The timer
    interrupt runs between operations.  The fairness probe of [schedule] only feeds
    a log marker and is not modelled. *)
From S2P Require Import Prelude Kheap.
Local Open Scope capy_scope.

Definition TASK_NAME_MAX : Z := 32.
Definition TASK_MAX_COUNT : Z := 64.
Definition TASK_KERNEL_STACK_SIZE : Z := 16384.
Definition SCHED_DEFAULT_QUANTUM : Z := 10.

Inductive task_state := TASK_STATE_UNUSED | TASK_STATE_CREATED | TASK_STATE_READY | TASK_STATE_RUNNING
  | TASK_STATE_BLOCKED | TASK_STATE_SLEEPING | TASK_STATE_ZOMBIE | TASK_STATE_DEAD.
#[export] Instance task_state_eq_dec : EqDecision task_state.
Proof. solve_decision. Defined.

Inductive task_priority := TASK_PRIORITY_IDLE | TASK_PRIORITY_LOW | TASK_PRIORITY_NORMAL | TASK_PRIORITY_HIGH | TASK_PRIORITY_REALTIME.
Definition priority_val (p : task_priority) : Z :=
  match p with TASK_PRIORITY_IDLE => 0 | TASK_PRIORITY_LOW => 1 | TASK_PRIORITY_NORMAL => 2 | TASK_PRIORITY_HIGH => 3
  | TASK_PRIORITY_REALTIME => 4 end.

Inductive scheduler_policy := SCHED_POLICY_ROUND_ROBIN | SCHED_POLICY_PRIORITY | SCHED_POLICY_COOPERATIVE.
#[export] Instance scheduler_policy_eq_dec : EqDecision scheduler_policy.
Proof. solve_decision. Defined.

Record task_context := mkCtx {
  rsp : Z; rbp : Z; rbx : Z; r12 : Z; r13 : Z; r14 : Z; r15 : Z; rip : Z; rflags : Z; ctx_cr3 : Z; fx_state : list Z }.

Record task := mkTask {
  pid : Z; ppid : Z; name : list Z; state : task_state; priority : task_priority; context : task_context;
  kernel_stack : option Z; user_stack : option Z; kernel_stack_size : Z; user_stack_size : Z;
  cr3 : Z; uid : Z; gid : Z; cpu_time_ns : Z; wake_tick : Z; exit_code : Z; quantum_remaining : Z;
  next : option Z; prev : option Z; wait_channel : Z; active_session : Z }.

Record scheduler_stats := mkSstats {
  total_switches : Z; total_ticks : Z; idle_ticks : Z; runnable_count : Z; blocked_count : Z; sleeping_count : Z }.

Record kernel := mkKernel {
  task_table : list task; next_pid : Z; current_task : option Z; task_active_count : Z;
  run_queue_head : option Z; run_queue_tail : option Z; idle_task : option Z; current_policy : scheduler_policy;
  stats : scheduler_stats; sched_running : bool; preempt_disable_count : Z;
  live : task_context; kernel_rsp : Z; rsp0 : Z; heap : kheap }.

Definition zero_ctx : task_context := mkCtx 0 0 0 0 0 0 0 0 0 0 (zrep 512 0).
Definition zero_task : task := mkTask 0 0 (zrep TASK_NAME_MAX 0) TASK_STATE_UNUSED TASK_PRIORITY_IDLE zero_ctx
  None None 0 0 0 0 0 0 0 0 0 None None 0 0.
Definition zero_sstats : scheduler_stats := mkSstats 0 0 0 0 0 0.

(** ** Field updates *)
Definition set_ids p pp t := mkTask p pp (name t) (state t) (priority t) (context t) (kernel_stack t) (user_stack t) (kernel_stack_size t) (user_stack_size t) (cr3 t) (uid t) (gid t) (cpu_time_ns t) (wake_tick t) (exit_code t) (quantum_remaining t) (next t) (prev t) (wait_channel t) (active_session t).
Definition set_state v t := mkTask (pid t) (ppid t) (name t) v (priority t) (context t) (kernel_stack t) (user_stack t) (kernel_stack_size t) (user_stack_size t) (cr3 t) (uid t) (gid t) (cpu_time_ns t) (wake_tick t) (exit_code t) (quantum_remaining t) (next t) (prev t) (wait_channel t) (active_session t).
Definition set_priority v t := mkTask (pid t) (ppid t) (name t) (state t) v (context t) (kernel_stack t) (user_stack t) (kernel_stack_size t) (user_stack_size t) (cr3 t) (uid t) (gid t) (cpu_time_ns t) (wake_tick t) (exit_code t) (quantum_remaining t) (next t) (prev t) (wait_channel t) (active_session t).
Definition set_context v t := mkTask (pid t) (ppid t) (name t) (state t) (priority t) v (kernel_stack t) (user_stack t) (kernel_stack_size t) (user_stack_size t) (cr3 t) (uid t) (gid t) (cpu_time_ns t) (wake_tick t) (exit_code t) (quantum_remaining t) (next t) (prev t) (wait_channel t) (active_session t).
Definition set_stacks ks us t := mkTask (pid t) (ppid t) (name t) (state t) (priority t) (context t) ks us (kernel_stack_size t) (user_stack_size t) (cr3 t) (uid t) (gid t) (cpu_time_ns t) (wake_tick t) (exit_code t) (quantum_remaining t) (next t) (prev t) (wait_channel t) (active_session t).
Definition set_wake_tick v t := mkTask (pid t) (ppid t) (name t) (state t) (priority t) (context t) (kernel_stack t) (user_stack t) (kernel_stack_size t) (user_stack_size t) (cr3 t) (uid t) (gid t) (cpu_time_ns t) v (exit_code t) (quantum_remaining t) (next t) (prev t) (wait_channel t) (active_session t).
Definition set_exit_code v t := mkTask (pid t) (ppid t) (name t) (state t) (priority t) (context t) (kernel_stack t) (user_stack t) (kernel_stack_size t) (user_stack_size t) (cr3 t) (uid t) (gid t) (cpu_time_ns t) (wake_tick t) v (quantum_remaining t) (next t) (prev t) (wait_channel t) (active_session t).
Definition set_quantum v t := mkTask (pid t) (ppid t) (name t) (state t) (priority t) (context t) (kernel_stack t) (user_stack t) (kernel_stack_size t) (user_stack_size t) (cr3 t) (uid t) (gid t) (cpu_time_ns t) (wake_tick t) (exit_code t) v (next t) (prev t) (wait_channel t) (active_session t).
Definition set_next v t := mkTask (pid t) (ppid t) (name t) (state t) (priority t) (context t) (kernel_stack t) (user_stack t) (kernel_stack_size t) (user_stack_size t) (cr3 t) (uid t) (gid t) (cpu_time_ns t) (wake_tick t) (exit_code t) (quantum_remaining t) v (prev t) (wait_channel t) (active_session t).
Definition set_prev v t := mkTask (pid t) (ppid t) (name t) (state t) (priority t) (context t) (kernel_stack t) (user_stack t) (kernel_stack_size t) (user_stack_size t) (cr3 t) (uid t) (gid t) (cpu_time_ns t) (wake_tick t) (exit_code t) (quantum_remaining t) (next t) v (wait_channel t) (active_session t).
Definition set_wait_channel v t := mkTask (pid t) (ppid t) (name t) (state t) (priority t) (context t) (kernel_stack t) (user_stack t) (kernel_stack_size t) (user_stack_size t) (cr3 t) (uid t) (gid t) (cpu_time_ns t) (wake_tick t) (exit_code t) (quantum_remaining t) (next t) (prev t) v (active_session t).
Definition set_session v t := mkTask (pid t) (ppid t) (name t) (state t) (priority t) (context t) (kernel_stack t) (user_stack t) (kernel_stack_size t) (user_stack_size t) (cr3 t) (uid t) (gid t) (cpu_time_ns t) (wake_tick t) (exit_code t) (quantum_remaining t) (next t) (prev t) (wait_channel t) v.

Definition task_at (s : kernel) (i : Z) : task := aget zero_task (task_table s) i.

Definition set_tasks v s := mkKernel v (next_pid s) (current_task s) (task_active_count s) (run_queue_head s) (run_queue_tail s) (idle_task s) (current_policy s) (stats s) (sched_running s) (preempt_disable_count s) (live s) (kernel_rsp s) (rsp0 s) (heap s).
Definition upd (i : Z) (f : task -> task) (s : kernel) : kernel := set_tasks (aset (task_table s) i (f (task_at s i))) s.
Definition set_next_pid v s := mkKernel (task_table s) v (current_task s) (task_active_count s) (run_queue_head s) (run_queue_tail s) (idle_task s) (current_policy s) (stats s) (sched_running s) (preempt_disable_count s) (live s) (kernel_rsp s) (rsp0 s) (heap s).
Definition set_active_count v s := mkKernel (task_table s) (next_pid s) (current_task s) v (run_queue_head s) (run_queue_tail s) (idle_task s) (current_policy s) (stats s) (sched_running s) (preempt_disable_count s) (live s) (kernel_rsp s) (rsp0 s) (heap s).
Definition set_head v s := mkKernel (task_table s) (next_pid s) (current_task s) (task_active_count s) v (run_queue_tail s) (idle_task s) (current_policy s) (stats s) (sched_running s) (preempt_disable_count s) (live s) (kernel_rsp s) (rsp0 s) (heap s).
Definition set_tail v s := mkKernel (task_table s) (next_pid s) (current_task s) (task_active_count s) (run_queue_head s) v (idle_task s) (current_policy s) (stats s) (sched_running s) (preempt_disable_count s) (live s) (kernel_rsp s) (rsp0 s) (heap s).
Definition set_idle v s := mkKernel (task_table s) (next_pid s) (current_task s) (task_active_count s) (run_queue_head s) (run_queue_tail s) v (current_policy s) (stats s) (sched_running s) (preempt_disable_count s) (live s) (kernel_rsp s) (rsp0 s) (heap s).
Definition set_sstats v s := mkKernel (task_table s) (next_pid s) (current_task s) (task_active_count s) (run_queue_head s) (run_queue_tail s) (idle_task s) (current_policy s) v (sched_running s) (preempt_disable_count s) (live s) (kernel_rsp s) (rsp0 s) (heap s).
Definition set_preempt v s := mkKernel (task_table s) (next_pid s) (current_task s) (task_active_count s) (run_queue_head s) (run_queue_tail s) (idle_task s) (current_policy s) (stats s) (sched_running s) v (live s) (kernel_rsp s) (rsp0 s) (heap s).
Definition set_live v s := mkKernel (task_table s) (next_pid s) (current_task s) (task_active_count s) (run_queue_head s) (run_queue_tail s) (idle_task s) (current_policy s) (stats s) (sched_running s) (preempt_disable_count s) v (kernel_rsp s) (rsp0 s) (heap s).
Definition set_stack_tops v s := mkKernel (task_table s) (next_pid s) (current_task s) (task_active_count s) (run_queue_head s) (run_queue_tail s) (idle_task s) (current_policy s) (stats s) (sched_running s) (preempt_disable_count s) (live s) v v (heap s).
Definition set_heap v s := mkKernel (task_table s) (next_pid s) (current_task s) (task_active_count s) (run_queue_head s) (run_queue_tail s) (idle_task s) (current_policy s) (stats s) (sched_running s) (preempt_disable_count s) (live s) (kernel_rsp s) (rsp0 s) v.

Definition count_switch st := mkSstats (u64 (total_switches st + 1)) (total_ticks st) (idle_ticks st) (runnable_count st) (blocked_count st) (sleeping_count st).
Definition count_tick st := mkSstats (total_switches st) (u64 (total_ticks st + 1)) (idle_ticks st) (runnable_count st) (blocked_count st) (sleeping_count st).
Definition count_idle st := mkSstats (total_switches st) (total_ticks st) (u64 (idle_ticks st + 1)) (runnable_count st) (blocked_count st) (sleeping_count st).
Definition set_runnable v st := mkSstats (total_switches st) (total_ticks st) (idle_ticks st) v (blocked_count st) (sleeping_count st).
Definition set_blocked v st := mkSstats (total_switches st) (total_ticks st) (idle_ticks st) (runnable_count st) v (sleeping_count st).
Definition set_sleeping v st := mkSstats (total_switches st) (total_ticks st) (idle_ticks st) (runnable_count st) (blocked_count st) v.
Definition bump (f : scheduler_stats -> scheduler_stats) (s : kernel) : kernel := set_sstats (f (stats s)) s.

(** ** Walks of the run queue *)
Definition queue_fuel : nat := Z.to_nat TASK_MAX_COUNT.

(** [for (t = c; t; t = t->next) body] *)
Fixpoint for_tasks (fuel : nat) (c : option Z) (body : Z -> kernel -> kernel) (s : kernel) : kernel :=
  match c, fuel with
  | Some i, S fuel => let s := body i s in for_tasks fuel (next (task_at s i)) body s
  | _, _ => s
  end.

(** [for (t = c; t && t != stop; t = t->next) if (p(t)) ...], the first such task. *)
Fixpoint find_task (fuel : nat) (c stop : option Z) (p : task -> bool) (s : kernel) : option Z :=
  match c, fuel with
  | Some i, S fuel =>
      if bool_decide (stop = Some i) then None
      else if p (task_at s i) then Some i else find_task fuel (next (task_at s i)) stop p s
  | _, _ => None
  end.

(** The walk that keeps the ready task [t] when [better t best]. *)
Fixpoint best_task (fuel : nat) (c stop best : option Z) (better : task -> option task -> bool) (s : kernel) : option Z :=
  match c, fuel with
  | Some i, S fuel =>
      if bool_decide (stop = Some i) then best
      else let t := task_at s i in
           let best := if bool_decide (state t = TASK_STATE_READY) && better t (task_at s <$> best) then Some i else best in
           best_task fuel (next t) stop best better s
  | _, _ => best
  end.

Definition ready (t : task) : bool := bool_decide (state t = TASK_STATE_READY).

(** ** The run queue *)
Definition scheduler_init (policy : scheduler_policy) (s : kernel) : kernel :=
  mkKernel (task_table s) (next_pid s) (current_task s) (task_active_count s) None None None policy
    zero_sstats false (preempt_disable_count s) (live s) (kernel_rsp s) (rsp0 s) (heap s).

Definition scheduler_add (t : option Z) (s : kernel) : kernel :=
  match t with
  | None => s
  | Some t =>
      let s := upd t (set_next None) s in
      let s := upd t (set_prev (run_queue_tail s)) s in
      let s := match run_queue_tail s with Some l => upd l (set_next (Some t)) s | None => set_head (Some t) s end in
      set_tail (Some t) s
  end.

(** Whether the cursor of [scheduler_remove] finds the task. *)
Fixpoint on_queue (fuel : nat) (cursor : option Z) (t : Z) (s : kernel) : bool :=
  match cursor, fuel with
  | Some i, S fuel => if i =? t then true else on_queue fuel (next (task_at s i)) t s
  | _, _ => false
  end.

Definition unlink (t : Z) (s : kernel) : kernel := upd t (fun x => set_prev None (set_next None x)) s.

Definition scheduler_remove (t : option Z) (s : kernel) : kernel :=
  match t with
  | None => s
  | Some t =>
      if negb (on_queue queue_fuel (run_queue_head s) t s) then unlink t s else
      let s := match prev (task_at s t) with
               | Some p => upd p (set_next (next (task_at s t))) s
               | None => set_head (next (task_at s t)) s end in
      let s := match next (task_at s t) with
               | Some n => upd n (set_prev (prev (task_at s t))) s
               | None => set_tail (prev (task_at s t)) s end in
      unlink t s
  end.

(** ** The policies *)
Definition or_idle (best : option Z) (s : kernel) : option Z := match best with Some _ => best | None => idle_task s end.

Definition higher_than (pri : Z) (t : task) : bool := pri <? priority_val (priority t).

Definition scheduler_pick_next (s : kernel) : option Z :=
  or_idle
    (match current_policy s with
     | SCHED_POLICY_PRIORITY =>
         best_task queue_fuel (run_queue_head s) None None
           (fun t best => higher_than (match best with Some b => priority_val (priority b) | None => -1 end) t) s
     | _ => find_task queue_fuel (run_queue_head s) None ready s
     end) s.

Definition scheduler_pick_next_after (current : option Z) (s : kernel) : option Z :=
  match current with
  | None => scheduler_pick_next s
  | Some c =>
      match find_task queue_fuel (next (task_at s c)) None ready s with
      | Some t => Some t
      | None => or_idle (find_task queue_fuel (run_queue_head s) (Some c) ready s) s
      end
  end.

Definition better (t : task) (best : option task) : bool :=
  match best with None => true | Some b => higher_than (priority_val (priority b)) t end.

Definition scheduler_pick_priority_after (current : option Z) (s : kernel) : option Z :=
  match current with
  | None => scheduler_pick_next s
  | Some c =>
      let best := best_task queue_fuel (next (task_at s c)) None None better s in
      or_idle (best_task queue_fuel (run_queue_head s) (Some c) best better s) s
  end.

Definition scheduler_pick_next_for_current (current : option Z) (s : kernel) : option Z :=
  match current_policy s with
  | SCHED_POLICY_PRIORITY => scheduler_pick_priority_after current s
  | _ => scheduler_pick_next_after current s
  end.

(** ** The switch *)
Definition task_current (s : kernel) : option Z := current_task s.

Definition task_set_current (v : option Z) (s : kernel) : kernel :=
  mkKernel (task_table s) (next_pid s) v (task_active_count s) (run_queue_head s) (run_queue_tail s) (idle_task s)
    (current_policy s) (stats s) (sched_running s) (preempt_disable_count s) (live s) (kernel_rsp s) (rsp0 s) (heap s).

Definition arch_sched_apply_kernel_stack (t : option Z) (s : kernel) : kernel :=
  match t with
  | None => s
  | Some t =>
      match kernel_stack (task_at s t) with
      | None => s
      | Some ks =>
          if kernel_stack_size (task_at s t) =? 0 then s else
          set_stack_tops (Z.land (u64 (ks + kernel_stack_size (task_at s t))) (u64 (Z.lnot 15))) s
      end
  end.

Section machine.
(** The size of the kernel heap; the addresses of the entry trampoline and of the label
    a switched-out context resumes at; the kernel's page table. *)
Context (KHEAP_SIZE task_entry_trampoline resume_rip vmm_kernel_pml4_phys : Z).

Definition context_switch (old new : Z) (s : kernel) : kernel :=
  let r := live s in
  let s := upd old (fun t => set_context (mkCtx (rsp r) (rbp r) (rbx r) (r12 r) (r13 r) (r14 r) (r15 r) resume_rip
                                            (rflags r) (ctx_cr3 (context t)) (fx_state r)) t) s in
  let n := context (task_at s new) in
  set_live (mkCtx (rsp n) (rbp n) (rbx n) (r12 n) (r13 n) (r14 n) (r15 n) (rip n) (rflags n)
              (if ctx_cr3 n =? 0 then ctx_cr3 r else ctx_cr3 n) (fx_state n)) s.

Definition schedule (s : kernel) : kernel :=
  let current := task_current s in
  match scheduler_pick_next_for_current current s with
  | None => s
  | Some n =>
      if bool_decide (current = Some n) then s else
      let s := match current with
               | Some c => if bool_decide (state (task_at s c) = TASK_STATE_RUNNING) then upd c (set_state TASK_STATE_READY) s else s
               | None => s end in
      let s := upd n (set_state TASK_STATE_RUNNING) s in
      let s := task_set_current (Some n) s in
      let s := bump count_switch s in
      let s := if bool_decide (Some n = idle_task s) then bump count_idle s else s in
      let s := arch_sched_apply_kernel_stack (Some n) s in
      match current with Some c => context_switch c n s | None => s end
  end.

Definition scheduler_yield (s : kernel) : kernel := if negb (sched_running s) then s else schedule s.

Definition scheduler_block_current (channel : Z) (s : kernel) : kernel :=
  match task_current s with
  | None => s
  | Some c =>
      let s := upd c (set_state TASK_STATE_BLOCKED) s in
      let s := upd c (set_wait_channel channel) s in
      schedule (bump (fun st => set_blocked (u32 (blocked_count st + 1)) st) s)
  end.

Definition scheduler_unblock (channel : Z) (s : kernel) : kernel :=
  for_tasks queue_fuel (run_queue_head s) (fun i s =>
    if bool_decide (state (task_at s i) = TASK_STATE_BLOCKED) && (wait_channel (task_at s i) =? channel) then
      let s := upd i (set_state TASK_STATE_READY) s in
      let s := upd i (set_wait_channel 0) s in
      if 0 <? blocked_count (stats s) then bump (fun st => set_blocked (blocked_count st - 1) st) s else s
    else s) s.

Definition scheduler_sleep_current (ticks : Z) (s : kernel) : kernel :=
  match task_current s with
  | None => s
  | Some c =>
      let s := upd c (set_state TASK_STATE_SLEEPING) s in
      let s := upd c (set_wake_tick (u64 (total_ticks (stats s) + ticks))) s in
      schedule (bump (fun st => set_sleeping (u32 (sleeping_count st + 1)) st) s)
  end.

Definition scheduler_preempt_disable (s : kernel) : kernel := set_preempt (u32 (preempt_disable_count s + 1)) s.
Definition scheduler_preempt_enable (s : kernel) : kernel :=
  if 0 <? preempt_disable_count s then set_preempt (preempt_disable_count s - 1) s else s.
Definition scheduler_preempt_disabled (s : kernel) : bool := truthy (preempt_disable_count s).

(** ** The task table *)
Definition task_system_init (s : kernel) : kernel :=
  let s := for_range 0 TASK_MAX_COUNT (fun i s => upd i (fun t => set_ids 0 (ppid t) (set_state TASK_STATE_UNUSED t)) s) s in
  set_active_count 0 (task_set_current None (set_next_pid 1 s)).

Definition unused (t : task) : bool := bool_decide (state t = TASK_STATE_UNUSED).

(** The first index of the table whose task satisfies [p]. *)
Definition table_find (p : task -> bool) (s : kernel) : option Z :=
  match until_range 0 TASK_MAX_COUNT (fun i _ => if negb (p (task_at s i)) then inl tt else inr i) tt with
  | inr i => Some i
  | inl _ => None
  end.

Definition task_alloc (s : kernel) : option Z := table_find unused s.

Fixpoint name_copy_loop (fuel : nat) (i : Z) (dst src : list Z) (max : Z) : list Z :=
  match fuel with
  | S fuel => if (i <? max - 1) && truthy src.[i] then name_copy_loop fuel (i + 1) (aset dst i src.[i]) src max else aset dst i 0
  | O => aset dst i 0
  end.
Definition task_name_copy (dst src : list Z) (max : Z) : list Z := name_copy_loop (Z.to_nat max) 0 dst src max.

Definition task_context_init_fx (c : task_context) : task_context :=
  let fx := memset_loop (fx_state c) 0 512 0 in
  let fx := aset (aset (aset (aset fx 0 0x7f) 1 0x03) 24 0x80) 25 0x1f in
  mkCtx (rsp c) (rbp c) (rbx c) (r12 c) (r13 c) (r14 c) (r15 c) (rip c) (rflags c) (ctx_cr3 c) fx.

(** The fields [task_create] sets before it asks for the stack. *)
Definition new_task (p pp : Z) (nm : list Z) (prio : task_priority) (session : Z) (t : task) : task :=
  mkTask p pp (task_name_copy (name t) nm TASK_NAME_MAX) TASK_STATE_CREATED prio (context t) (kernel_stack t) (user_stack t)
    TASK_KERNEL_STACK_SIZE (user_stack_size t) (cr3 t) 0 0 0 0 0 SCHED_DEFAULT_QUANTUM None None 0 session.

(** The stack, the words on it and the first context. *)
Definition start_task (ks entry arg : Z) (t : task) (h : kheap) : task * kheap :=
  let stack_top := Z.land (u64 (ks + kernel_stack_size t)) (u64 (Z.lnot 15)) in
  let h := store_ptr h (u64 (stack_top - 8)) 0 in
  let h := store_ptr h (u64 (stack_top - 16)) entry in
  let h := store_ptr h (u64 (stack_top - 24)) arg in
  let h := store_ptr h (u64 (stack_top - 32)) 0 in
  let sp := u64 (stack_top - 32) in
  let ctx := task_context_init_fx (mkCtx sp sp 0 0 0 0 0 task_entry_trampoline 0x202 vmm_kernel_pml4_phys (fx_state (context t))) in
  (mkTask (pid t) (ppid t) (name t) TASK_STATE_READY (priority t) ctx (Some ks) None (kernel_stack_size t) 0
     vmm_kernel_pml4_phys (uid t) (gid t) (cpu_time_ns t) (wake_tick t) (exit_code t) (quantum_remaining t) (next t) (prev t)
     (wait_channel t) (active_session t), h).

Definition task_create (nm : list Z) (entry arg : Z) (prio : task_priority) (s : kernel) : option Z * kernel :=
  match task_alloc s with
  | None => (None, s)
  | Some i =>
      let p := next_pid s in
      let s := set_next_pid (u32 (next_pid s + 1)) s in
      let pp := match current_task s with Some c => pid (task_at s c) | None => 0 end in
      let session := match current_task s with Some c => active_session (task_at s c) | None => 0 end in
      let s := upd i (new_task p pp nm prio session) s in
      let '(ks, h) := kalloc KHEAP_SIZE (kernel_stack_size (task_at s i)) (heap s) in
      let s := set_heap h s in
      match ks with
      | None => (None, upd i (fun t => set_state TASK_STATE_UNUSED (set_stacks None (user_stack t) t)) s)
      | Some ks =>
          let '(t, h) := start_task ks entry arg (task_at s i) (heap s) in
          (Some i, set_active_count (u32 (task_active_count s + 1)) (set_heap h (upd i (fun _ => t) s)))
      end
  end.

Definition task_create_kernel (nm : list Z) (entry arg : Z) (s : kernel) : option Z * kernel :=
  task_create nm entry arg TASK_PRIORITY_NORMAL s.

Definition has_pid (p : Z) (t : task) : bool := negb (unused t) && (pid t =? p).
Definition task_by_pid (p : Z) (s : kernel) : option Z := table_find (has_pid p) s.

Definition task_at_index (index : Z) : option Z := if TASK_MAX_COUNT <=? index then None else Some index.

Definition free_stacks (t : Z) (s : kernel) : kernel :=
  let s := match kernel_stack (task_at s t) with
           | Some ks => upd t (fun x => set_stacks None (user_stack x) x) (set_heap (kfree KHEAP_SIZE (Some ks) (heap s)) s)
           | None => s end in
  match user_stack (task_at s t) with
  | Some us => upd t (fun x => set_stacks (kernel_stack x) None x) (set_heap (kfree KHEAP_SIZE (Some us) (heap s)) s)
  | None => s
  end.

Definition task_kill (p : Z) (s : kernel) : Z * kernel :=
  match task_by_pid p s with
  | None => (-1, s)
  | Some t =>
      if unused (task_at s t) then (-1, s) else
      if bool_decide (current_task s = Some t) then (-2, s) else
      let s := scheduler_remove (Some t) s in
      let s := upd t (set_state TASK_STATE_DEAD) s in
      let s := free_stacks t s in
      let s := upd t (set_state TASK_STATE_UNUSED) s in
      let s := upd t (set_session 0) s in
      (0, if 0 <? task_active_count s then set_active_count (task_active_count s - 1) s else s)
  end.

Definition task_yield (s : kernel) : kernel := scheduler_yield s.

(** Up to the switch away; nothing of the task runs after it. *)
Definition task_exit (code : Z) (s : kernel) : kernel :=
  let s := match current_task s with
           | Some c => upd c (set_state TASK_STATE_ZOMBIE) (upd c (set_exit_code code) s)
           | None => s end in
  task_yield s.

Fixpoint other_ready (fuel : nat) (t : option Z) (current : Z) (s : kernel) : bool :=
  match t, fuel with
  | Some i, S fuel => if negb (i =? current) && ready (task_at s i) then true else other_ready fuel (next (task_at s i)) current s
  | _, _ => false
  end.

Definition scheduler_can_sleep_current (s : kernel) : bool :=
  match task_current s with
  | None => false
  | Some c =>
      if negb (sched_running s) then false else
      if total_ticks (stats s) =? 0 then false else
      if negb (bool_decide (state (task_at s c) = TASK_STATE_RUNNING)) then false else
      if other_ready queue_fuel (run_queue_head s) c s then true else
      match idle_task s with
      | Some _ => negb (bool_decide (current_policy s = SCHED_POLICY_COOPERATIVE))
      | None => false
      end
  end.

Definition task_sleep (ticks : Z) (s : kernel) : kernel :=
  match current_task s with
  | None => s
  | Some _ => if negb (scheduler_can_sleep_current s) then scheduler_yield s else scheduler_sleep_current ticks s
  end.

Definition task_wake (t : option Z) (s : kernel) : kernel :=
  match t with
  | None => s
  | Some t =>
      if bool_decide (state (task_at s t) = TASK_STATE_SLEEPING) || bool_decide (state (task_at s t) = TASK_STATE_BLOCKED)
      then upd t (set_state TASK_STATE_READY) s else s
  end.

Definition task_block (t : option Z) (channel : Z) (s : kernel) : kernel :=
  match t with
  | None => s
  | Some t => upd t (set_state TASK_STATE_BLOCKED) (upd t (set_wait_channel channel) s)
  end.

Definition task_unblock_channel (channel : Z) (s : kernel) : kernel :=
  for_range 0 TASK_MAX_COUNT (fun i s =>
    if bool_decide (state (task_at s i) = TASK_STATE_BLOCKED) && (wait_channel (task_at s i) =? channel)
    then upd i (set_wait_channel 0) (upd i (set_state TASK_STATE_READY) s) else s) s.

Definition task_count (s : kernel) : Z := task_active_count s.

(** ** The timer tick *)
Definition wake_sleeper (i : Z) (s : kernel) : kernel :=
  if bool_decide (state (task_at s i) = TASK_STATE_SLEEPING) && (wake_tick (task_at s i) <=? total_ticks (stats s)) then
    let s := upd i (set_state TASK_STATE_READY) s in
    let s := upd i (set_wake_tick 0) s in
    if 0 <? sleeping_count (stats s) then bump (fun st => set_sleeping (sleeping_count st - 1) st) s else s
  else s.

(** Tasks that ended, the current one apart, are destroyed; the next link is read first. *)
Fixpoint reap_loop (fuel : nat) (c : option Z) (s : kernel) : kernel :=
  match c, fuel with
  | Some i, S fuel =>
      let t := task_at s i in
      let s := if (bool_decide (state t = TASK_STATE_ZOMBIE) || bool_decide (state t = TASK_STATE_DEAD)) &&
                  negb (bool_decide (task_current s = Some i))
               then (task_kill (pid t) s).2 else s in
      reap_loop fuel (next t) s
  | _, _ => s
  end.

Fixpoint runnable_loop (fuel : nat) (c : option Z) (runnable : Z) (s : kernel) : Z :=
  match c, fuel with
  | Some i, S fuel =>
      let t := task_at s i in
      runnable_loop fuel (next t)
        (if bool_decide (state t = TASK_STATE_READY) || bool_decide (state t = TASK_STATE_RUNNING) then u32 (runnable + 1) else runnable) s
  | _, _ => runnable
  end.

(** The quantum of the running task. *)
Definition tick_quantum (c : Z) (s : kernel) : kernel :=
  let s := if 0 <? quantum_remaining (task_at s c) then upd c (set_quantum (quantum_remaining (task_at s c) - 1)) s else s in
  if quantum_remaining (task_at s c) =? 0 then schedule (upd c (set_quantum SCHED_DEFAULT_QUANTUM) s) else s.

Definition scheduler_tick (s : kernel) : kernel :=
  let s := bump count_tick s in
  let s := for_tasks queue_fuel (run_queue_head s) wake_sleeper s in
  if negb (preempt_disable_count s =? 0) then s else
  let s := reap_loop queue_fuel (run_queue_head s) s in
  let s := bump (set_runnable (runnable_loop queue_fuel (run_queue_head s) 0 s)) s in
  match current_policy s with
  | SCHED_POLICY_COOPERATIVE => s
  | _ =>
      match task_current s with
      | Some c =>
          if bool_decide (state (task_at s c) = TASK_STATE_RUNNING) && negb (bool_decide (idle_task s = Some c))
          then tick_quantum c s else schedule s
      | None => schedule s
      end
  end.

Definition scheduler_set_running (running : bool) (s : kernel) : kernel :=
  mkKernel (task_table s) (next_pid s) (current_task s) (task_active_count s) (run_queue_head s) (run_queue_tail s) (idle_task s)
    (current_policy s) (stats s) running (preempt_disable_count s) (live s) (kernel_rsp s) (rsp0 s) (heap s).

Definition scheduler_set_policy (policy : scheduler_policy) (s : kernel) : kernel :=
  mkKernel (task_table s) (next_pid s) (current_task s) (task_active_count s) (run_queue_head s) (run_queue_tail s) (idle_task s)
    policy (stats s) (sched_running s) (preempt_disable_count s) (live s) (kernel_rsp s) (rsp0 s) (heap s).

Definition scheduler_stats_get (s : kernel) : scheduler_stats := stats s.
Definition scheduler_running (s : kernel) : bool := sched_running s.

(** Up to the endless halt loop. *)
Definition scheduler_start (idle_entry : Z) (nm : list Z) (s : kernel) : kernel :=
  let '(idle, s) := task_create_kernel nm idle_entry 0 s in
  let s := set_idle idle s in
  let s := match idle with
           | Some i => scheduler_add (Some i) (upd i (set_priority TASK_PRIORITY_IDLE) s)
           | None => s end in
  let s := scheduler_set_running true s in
  match scheduler_pick_next s with
  | Some f => task_set_current (Some f) (upd f (set_state TASK_STATE_RUNNING) s)
  | None => s
  end.
End machine.
