(* ===== verification/SchedInv.v ===== *)
(** * Invariant of the task table and the run queue

    The shape of the run queue, the well-formedness of the table, and their
    preservation by every operation of [Sched].  [queue_ok s q]: the links represent
    the sequence [q]; [live_ok]: the live tasks have distinct process identifiers
    and a kernel stack of their own on the heap; [run_ok]: only the current task
    runs. *)
From S2P Require Import Prelude Dll Kheap Sched.
Local Open Scope capy_scope.

Definition in_tab (i : Z) : Prop := 0 <= i < TASK_MAX_COUNT.
Definition used (s : kernel) (i : Z) : bool := negb (unused (task_at s i)).

(** The run queue from front to back, as a walk finds it. *)
Fixpoint walk (fuel : nat) (c : option Z) (s : kernel) : list Z :=
  match c, fuel with
  | Some i, S fuel => i :: walk fuel (next (task_at s i)) s
  | _, _ => []
  end.
Definition queue (s : kernel) : list Z := walk queue_fuel (run_queue_head s) s.

Definition live_tasks (s : kernel) : list Z := base.filter (fun i => used s i = true) (seqZ 0 TASK_MAX_COUNT).

Record queue_ok (s : kernel) (q : list Z) : Prop := {
  q_table : zlen (task_table s) = TASK_MAX_COUNT;
  q_dll : dll (fun i => next (task_at s i)) (fun i => prev (task_at s i)) (run_queue_head s) (run_queue_tail s) q;
  q_nodup : NoDup q;
  q_range i : i ∈ q -> in_tab i;
  q_off i : in_tab i -> i ∉ q -> next (task_at s i) = None }.

(** What the operations on states leave alone. *)
Definition core (t : task) := (pid t, kernel_stack t, user_stack t, next t, prev t, unused t, priority t).

Record keeps (s s' : kernel) : Prop := {
  k_len : zlen (task_table s') = zlen (task_table s);
  k_core i : in_tab i -> core (task_at s' i) = core (task_at s i);
  k_head : run_queue_head s' = run_queue_head s;
  k_tail : run_queue_tail s' = run_queue_tail s;
  k_idle : idle_task s' = idle_task s;
  k_npid : next_pid s' = next_pid s;
  k_count : task_active_count s' = task_active_count s;
  k_heap : heap s' = heap s }.

Section shape.
Implicit Types (s : kernel) (q l : list Z) (i j : Z).

Lemma task_at_upd s i j f : zlen (task_table s) = TASK_MAX_COUNT -> in_tab i -> in_tab j ->
  task_at (upd i f s) j = if decide (j = i) then f (task_at s i) else task_at s j.
Proof.
  intros Hl Hi Hj. unfold in_tab in *. unfold task_at, upd; cbn [task_table set_tasks]. rewrite aget_aset by lia.
  destruct (Z.eqb_spec j i), (decide (j = i)); done.
Qed.

Lemma table_upd s i f : zlen (task_table (upd i f s)) = zlen (task_table s).
Proof. apply zlen_aset. Qed.

Lemma keeps_refl s : keeps s s.
Proof. by constructor. Qed.

Lemma keeps_trans s1 s2 s3 : keeps s1 s2 -> keeps s2 s3 -> keeps s1 s3.
Proof.
  intros A B. constructor; [by rewrite (k_len _ _ B), (k_len _ _ A) | | by rewrite (k_head _ _ B), (k_head _ _ A)
    | by rewrite (k_tail _ _ B), (k_tail _ _ A) | by rewrite (k_idle _ _ B), (k_idle _ _ A) | by rewrite (k_npid _ _ B), (k_npid _ _ A)
    | by rewrite (k_count _ _ B), (k_count _ _ A) | by rewrite (k_heap _ _ B), (k_heap _ _ A)].
  intros i Hi. by rewrite (k_core _ _ B i Hi), (k_core _ _ A i Hi).
Qed.

Lemma keeps_upd s i f : zlen (task_table s) = TASK_MAX_COUNT -> in_tab i -> core (f (task_at s i)) = core (task_at s i) -> keeps s (upd i f s).
Proof.
  intros Hl Hi Hf. constructor; try done; [apply table_upd|]. intros j Hj. rewrite task_at_upd by done.
  destruct (decide (j = i)) as [->|]; done.
Qed.

(** Changes of the other globals. *)
Definition same_tasks s s' : Prop := task_table s' = task_table s /\ run_queue_head s' = run_queue_head s /\
  run_queue_tail s' = run_queue_tail s /\ idle_task s' = idle_task s /\ next_pid s' = next_pid s /\
  task_active_count s' = task_active_count s /\ heap s' = heap s.

Lemma same_keeps s s' : same_tasks s s' -> keeps s s'.
Proof. intros (E & ? & ? & ? & ? & ? & ?). constructor; try done; [by rewrite E|]. intros i _. unfold task_at. by rewrite E. Qed.

Lemma core_same_fields t t' : core t' = core t -> pid t' = pid t /\ kernel_stack t' = kernel_stack t /\ user_stack t' = user_stack t /\
  next t' = next t /\ prev t' = prev t /\ unused t' = unused t /\ priority t' = priority t.
Proof. intros [= ? ? ? ? ? ? ?]. done. Qed.

Lemma keeps_queue s s' q : keeps s s' -> queue_ok s q -> queue_ok s' q.
Proof.
  intros K [Ht Hd Hn Hr Ho]. constructor; [by rewrite (k_len _ _ K) | | done | done |].
  - rewrite (k_head _ _ K), (k_tail _ _ K). apply (dll_ext _ _ _ _ _ _ _ Hd). intros i Hi.
    destruct (core_same_fields _ _ (k_core _ _ K i (Hr _ Hi))) as (_ & _ & _ & -> & -> & _). done.
  - intros i Hi Hq. destruct (core_same_fields _ _ (k_core _ _ K i Hi)) as (_ & _ & _ & -> & _). by apply Ho.
Qed.

Lemma keeps_used s s' i : keeps s s' -> in_tab i -> used s' i = used s i.
Proof. intros K Hi. unfold used. by destruct (core_same_fields _ _ (k_core _ _ K i Hi)) as (_ & _ & _ & _ & _ & -> & _). Qed.

(** ** Walks *)
Lemma queue_length s q : queue_ok s q -> (length q <= queue_fuel)%nat.
Proof.
  intros Q. pose proof (nodup_bound q TASK_MAX_COUNT (q_nodup _ _ Q) (q_range _ _ Q)) as H.
  unfold queue_fuel, zlen, TASK_MAX_COUNT in *. lia.
Qed.

Lemma next_in s q m i l : queue_ok s q -> q = m ++ i :: l -> next (task_at s i) = head l.
Proof. intros Q E. by destruct (q_dll _ _ Q) as (_ & _ & H); apply H in E as [_ ?]. Qed.

Lemma head_in_queue s q : queue_ok s q -> run_queue_head s = head q.
Proof. intros Q. by destruct (q_dll _ _ Q) as (? & _). Qed.

Lemma walk_spec s q l : queue_ok s q -> forall m fuel, q = m ++ l -> (length l <= fuel)%nat -> walk fuel (head l) s = l.
Proof.
  intros Q. induction l as [|i l IH]; intros m fuel E Hf; [by destruct fuel|]. destruct fuel as [|fuel]; [cbn in Hf; lia|].
  cbn [head walk]. f_equal. rewrite (next_in s q m i l Q E). apply (IH (m ++ [i])); [by rewrite <- app_assoc | cbn in Hf; lia].
Qed.

Lemma queue_walk s q : queue_ok s q -> queue s = q.
Proof.
  intros Q. unfold queue. rewrite (head_in_queue s q Q). apply (walk_spec s q q Q []); [done | by apply (queue_length s)].
Qed.

(** The first task of [l] that satisfies [p]. *)
Definition first_of (p : task -> bool) s l : option Z := head (base.filter (fun i => p (task_at s i) = true) l).

Lemma find_task_spec s q p stop l : queue_ok s q -> forall m r fuel, q = m ++ l ++ r -> (length l <= fuel)%nat ->
  (forall i, i ∈ l -> stop <> Some i) -> (r = [] \/ stop = head r) ->
  find_task fuel (head (l ++ r)) stop p s = first_of p s l.
Proof.
  intros Q. induction l as [|i l IH]; intros m r fuel E Hf Hs Hr; cbn [app head].
  - unfold first_of. cbn. destruct Hr as [-> | ->]; [by destruct fuel|]. destruct r as [|x r]; [by destruct fuel|].
    destruct fuel; [done|]. cbn [head find_task]. by rewrite bool_decide_true.
  - destruct fuel as [|fuel]; [cbn in Hf; lia|]. cbn [find_task]. rewrite bool_decide_false by (apply Hs; set_solver).
    unfold first_of in *. rewrite filter_cons. destruct (p (task_at s i)); [by rewrite decide_True|]. rewrite decide_False by done.
    rewrite (next_in s q m i (l ++ r) Q E). apply (IH (m ++ [i])); [by rewrite <- app_assoc | cbn in Hf; lia | set_solver | done].
Qed.

Definition best_of (better : task -> option task -> bool) s (best : option Z) l : option Z :=
  foldl (fun best i => if ready (task_at s i) && better (task_at s i) (task_at s <$> best) then Some i else best) best l.

Lemma best_task_spec s q better stop l : queue_ok s q -> forall m r fuel best, q = m ++ l ++ r -> (length l <= fuel)%nat ->
  (forall i, i ∈ l -> stop <> Some i) -> (r = [] \/ stop = head r) ->
  best_task fuel (head (l ++ r)) stop best better s = best_of better s best l.
Proof.
  intros Q. induction l as [|i l IH]; intros m r fuel best E Hf Hs Hr; cbn [app head].
  - cbn. destruct Hr as [-> | ->]; [by destruct fuel|]. destruct r as [|x r]; [by destruct fuel|].
    destruct fuel; [done|]. cbn [head best_task]. by rewrite bool_decide_true.
  - destruct fuel as [|fuel]; [cbn in Hf; lia|]. cbn [best_task]. rewrite bool_decide_false by (apply Hs; set_solver).
    cbv zeta. rewrite (next_in s q m i (l ++ r) Q E).
    rewrite (IH (m ++ [i]) r fuel _) by (first [by rewrite <- app_assoc | cbn in Hf; lia | set_solver | done]). done.
Qed.

Lemma on_queue_spec s q t l : queue_ok s q -> forall m fuel, q = m ++ l -> (length l <= fuel)%nat ->
  on_queue fuel (head l) t s = bool_decide (t ∈ l).
Proof.
  intros Q. induction l as [|i l IH]; intros m fuel E Hf; [destruct fuel; by rewrite bool_decide_false by set_solver|].
  destruct fuel as [|fuel]; [cbn in Hf; lia|]. cbn [head on_queue]. destruct (Z.eqb_spec i t) as [->|Hne].
  - symmetry. apply bool_decide_eq_true. set_solver.
  - rewrite (next_in s q m i l Q E), (IH (m ++ [i])) by (first [by rewrite <- app_assoc | cbn in Hf; lia]).
    apply bool_decide_ext. set_solver.
Qed.

(** A walk whose body keeps the links visits the queue in order. *)
Lemma for_tasks_spec (body : Z -> kernel -> kernel) (P : kernel -> Prop) q s l :
  (forall i s, i ∈ q -> P s -> queue_ok s q -> P (body i s) /\ queue_ok (body i s) q) -> P s -> queue_ok s q ->
  forall m fuel, q = m ++ l -> P (for_tasks fuel (head l) body s) /\ queue_ok (for_tasks fuel (head l) body s) q.
Proof.
  intros Hb. revert s. induction l as [|i l IH]; intros s HP Q m fuel E; [by destruct fuel|].
  destruct fuel as [|fuel]; [done|]. cbn [head for_tasks]. destruct (Hb i s ltac:(set_solver) HP Q) as [HP' Q'].
  rewrite (next_in _ q m i l Q' E). apply (IH _ HP' Q' (m ++ [i])). by rewrite <- app_assoc.
Qed.
End shape.

(** ** What the policies pick

    [scan q c o]: the order in which the tasks of [q] come up after [c]. *)
Definition scan (q : list Z) (c : option Z) (o : list Z) : Prop :=
  match c with
  | Some c => (exists l1 l2, q = l1 ++ c :: l2 /\ o = l2 ++ l1) \/ c ∉ q /\ o = q
  | None => o = q
  end.

Definition prio (s : kernel) (i : Z) : Z := priority_val (priority (task_at s i)).
Definition is_ready (s : kernel) (i : Z) : Prop := state (task_at s i) = TASK_STATE_READY.

Definition picks (s : kernel) (o : list Z) (r : option Z) : Prop :=
  match r with
  | Some n =>
      (exists a b, o = a ++ n :: b /\ is_ready s n /\
         match current_policy s with
         | SCHED_POLICY_PRIORITY => (forall j, j ∈ a -> is_ready s j -> prio s j < prio s n) /\ (forall j, j ∈ b -> is_ready s j -> prio s j <= prio s n)
         | _ => forall j, j ∈ a -> ~ is_ready s j
         end) \/
      idle_task s = Some n /\ forall j, j ∈ o -> ~ is_ready s j
  | None => idle_task s = None /\ forall j, j ∈ o -> ~ is_ready s j
  end.

Section policy.
Implicit Types (s : kernel) (q l o : list Z) (i j : Z).

Lemma ready_iff s i : ready (task_at s i) = true <-> is_ready s i.
Proof. apply bool_decide_eq_true. Qed.

Lemma scan_exists q c : exists o, scan q c o.
Proof.
  destruct c as [c|]; [|by exists q]. destruct (decide (c ∈ q)) as [H|H].
  - apply list_elem_of_split in H as (l1 & l2 & ->). exists (l2 ++ l1). left. eauto.
  - exists q. by right.
Qed.

Lemma first_of_app p s l1 l2 : first_of p s (l1 ++ l2) = match first_of p s l1 with Some i => Some i | None => first_of p s l2 end.
Proof. unfold first_of. rewrite filter_app. by destruct (base.filter _ l1). Qed.

Lemma first_of_spec p s l : match first_of p s l with
  | Some n => exists a b, l = a ++ n :: b /\ p (task_at s n) = true /\ forall j, j ∈ a -> p (task_at s j) = false
  | None => forall j, j ∈ l -> p (task_at s j) = false end.
Proof.
  unfold first_of. induction l as [|i l IH]; [set_solver|]. rewrite filter_cons. destruct (p (task_at s i)) eqn:E.
  - rewrite decide_True by done. cbn. exists [], l. split; [done|]. split; [done|]. set_solver.
  - rewrite decide_False by done. destruct (head _) as [n|].
    + destruct IH as (a & b & -> & Hn & Ha). exists (i :: a), b. split; [done|]. split; [done|].
      intros j Hj. apply elem_of_cons in Hj as [-> | Hj]; [done | by apply Ha].
    + intros j Hj. apply elem_of_cons in Hj as [-> | Hj]; [done | by apply IH].
Qed.

Lemma better_none s i : better (task_at s i) None = true.
Proof. done. Qed.

Lemma best_of_some s l : forall b, exists n, best_of better s (Some b) l = Some n /\
  (n = b /\ (forall j, j ∈ l -> is_ready s j -> prio s j <= prio s b) \/
   exists a c, l = a ++ n :: c /\ is_ready s n /\ prio s b < prio s n /\
     (forall j, j ∈ a -> is_ready s j -> prio s j < prio s n) /\ (forall j, j ∈ c -> is_ready s j -> prio s j <= prio s n)).
Proof.
  induction l as [|i l IH]; intros b; [exists b; split; [done|]; left; split; [done|]; set_solver|].
  change (best_of better s (Some b) (i :: l)) with
    (best_of better s (if ready (task_at s i) && better (task_at s i) (Some (task_at s b)) then Some i else Some b) l).
  cbn [better]. unfold higher_than. fold (prio s b) (prio s i).
  destruct (ready (task_at s i)) eqn:Er; cbn [andb].
  - apply ready_iff in Er. destruct (Z.ltb_spec (prio s b) (prio s i)).
    + destruct (IH i) as (n & -> & Hn). exists n. split; [done|]. right. destruct Hn as [[-> Hn] | (a & c & -> & H1 & H2 & H3 & H4)].
      * exists [], l. split_and!; try done. set_solver.
      * exists (i :: a), c. split_and!; try done; [lia|]. intros j Hj. apply elem_of_cons in Hj as [-> | Hj]; [done | by apply H3].
    + destruct (IH b) as (n & -> & Hn). exists n. split; [done|]. destruct Hn as [[-> Hn] | (a & c & -> & H1 & H2 & H3 & H4)].
      * left. split; [done|]. intros j Hj. apply elem_of_cons in Hj as [-> | Hj]; [done | by apply Hn].
      * right. exists (i :: a), c. split_and!; try done. intros j Hj. apply elem_of_cons in Hj as [-> | Hj]; [lia | by apply H3].
  - assert (Hi : ~ is_ready s i) by (rewrite <- ready_iff, Er; done).
    destruct (IH b) as (n & -> & Hn). exists n. split; [done|]. destruct Hn as [[-> Hn] | (a & c & -> & H1 & H2 & H3 & H4)].
    + left. split; [done|]. intros j Hj. apply elem_of_cons in Hj as [-> | Hj]; [done | by apply Hn].
    + right. exists (i :: a), c. split_and!; try done. intros j Hj. apply elem_of_cons in Hj as [-> | Hj]; [done | by apply H3].
Qed.

Lemma best_of_none s l : match best_of better s None l with
  | Some n => exists a c, l = a ++ n :: c /\ is_ready s n /\
     (forall j, j ∈ a -> is_ready s j -> prio s j < prio s n) /\ (forall j, j ∈ c -> is_ready s j -> prio s j <= prio s n)
  | None => forall j, j ∈ l -> ~ is_ready s j end.
Proof.
  induction l as [|i l IH]; [set_solver|].
  change (best_of better s None (i :: l)) with (best_of better s (if ready (task_at s i) && true then Some i else None) l).
  rewrite andb_true_r. destruct (ready (task_at s i)) eqn:Er.
  - apply ready_iff in Er. destruct (best_of_some s l i) as (n & -> & [[-> Hn] | (a & c & -> & H1 & H2 & H3 & H4)]).
    + exists [], l. split_and!; try done. set_solver.
    + exists (i :: a), c. split_and!; try done. intros j Hj. apply elem_of_cons in Hj as [-> | Hj]; [done | by apply H3].
  - assert (Hi : ~ is_ready s i) by (rewrite <- ready_iff, Er; done). destruct (best_of better s None l) as [n|].
    + destruct IH as (a & c & -> & H1 & H2 & H3). exists (i :: a), c. split_and!; try done.
      intros j Hj. apply elem_of_cons in Hj as [-> | Hj]; [done | by apply H2].
    + intros j Hj. apply elem_of_cons in Hj as [-> | Hj]; [done | by apply IH].
Qed.

Lemma or_idle_picks s o r :
  match r with
  | Some n => exists a b, o = a ++ n :: b /\ is_ready s n /\
     match current_policy s with
     | SCHED_POLICY_PRIORITY => (forall j, j ∈ a -> is_ready s j -> prio s j < prio s n) /\ (forall j, j ∈ b -> is_ready s j -> prio s j <= prio s n)
     | _ => forall j, j ∈ a -> ~ is_ready s j end
  | None => forall j, j ∈ o -> ~ is_ready s j end -> picks s o (or_idle r s).
Proof. destruct r as [n|]; cbn; [by left|]. unfold picks. destruct (idle_task s); [by right | done]. Qed.

Lemma first_ready s o : current_policy s <> SCHED_POLICY_PRIORITY -> picks s o (or_idle (first_of ready s o) s).
Proof.
  intros Hp. apply or_idle_picks. pose proof (first_of_spec ready s o) as H. destruct (first_of ready s o) as [n|].
  - destruct H as (a & b & -> & Hn & Ha). exists a, b. split; [done|]. split; [by apply ready_iff|].
    destruct (current_policy s); try done; intros j Hj Hr; apply ready_iff in Hr; by rewrite Ha in Hr.
  - intros j Hj Hr. apply ready_iff in Hr. by rewrite H in Hr.
Qed.

Lemma best_ready s o : current_policy s = SCHED_POLICY_PRIORITY -> picks s o (or_idle (best_of better s None o) s).
Proof.
  intros Hp. apply or_idle_picks. pose proof (best_of_none s o) as H. destruct (best_of better s None o) as [n|]; [|done].
  by rewrite Hp.
Qed.

Lemma best_of_ext f g s l : (forall i b, f (task_at s i) (task_at s <$> b) = g (task_at s i) (task_at s <$> b)) ->
  forall b, best_of f s b l = best_of g s b l.
Proof. intros H. induction l as [|i l IH]; intros b; [done|]. unfold best_of in *. cbn [foldl]. by rewrite H, IH. Qed.

Lemma pick_next_spec s q : queue_ok s q -> picks s q (scheduler_pick_next s).
Proof.
  intros Q. unfold scheduler_pick_next. rewrite (head_in_queue s q Q). pose proof (queue_length s q Q) as Hl.
  assert (Hf : find_task queue_fuel (head q) None ready s = first_of ready s q).
  { pose proof (find_task_spec s q ready None q Q [] [] queue_fuel) as H. rewrite app_nil_r in H. apply H; try done. by left. }
  destruct (current_policy s) eqn:Ep; [rewrite Hf; apply first_ready; congruence | | rewrite Hf; apply first_ready; congruence].
  set (f := fun t best => _). assert (Hb : best_task queue_fuel (head q) None None f s = best_of f s None q).
  { pose proof (best_task_spec s q f None q Q [] [] queue_fuel None) as H. rewrite app_nil_r in H. apply H; try done. by left. }
  rewrite Hb, (best_of_ext f better); [by apply best_ready|].
  intros i [b|]; [done|]. change (f (task_at s i) (task_at s <$> None)) with (-1 <? priority_val (priority (task_at s i))).
  by destruct (priority (task_at s i)).
Qed.

Lemma nodup_mid l1 i l2 : NoDup (l1 ++ i :: l2) -> i ∉ l1 /\ i ∉ l2 /\ NoDup (l1 ++ l2).
Proof.
  intros H. rewrite <- Permutation_middle in H. apply NoDup_cons in H as [H1 H2]. split_and!; [| | done]; intros Hi; apply H1, elem_of_app; auto.
Qed.

Lemma find_nil fuel stop p s : find_task fuel None stop p s = None.
Proof. by destruct fuel. Qed.
Lemma best_nil fuel stop best f s : best_task fuel None stop best f s = best.
Proof. by destruct fuel. Qed.

(** The task picked is the first ready one in scan order, or under the priority policy
    the first of the highest priority; the idle task when none is ready. *)
Lemma pick_spec s q c o : queue_ok s q -> (forall i, c = Some i -> in_tab i) -> scan q c o ->
  picks s o (scheduler_pick_next_for_current c s).
Proof.
  intros Q Hc Hs. pose proof (queue_length s q Q) as Hl. unfold scheduler_pick_next_for_current.
  destruct c as [c|]; cbn [scan] in Hs.
  2: { subst o. pose proof (pick_next_spec s q Q). by destruct (current_policy s). }
  assert (HF : current_policy s <> SCHED_POLICY_PRIORITY -> picks s o (scheduler_pick_next_after (Some c) s)).
  { intros Hp. unfold scheduler_pick_next_after. rewrite (head_in_queue s q Q). destruct Hs as [(l1 & l2 & E & ->) | [Hn ->]].
    - rewrite (next_in s q l1 c l2 Q E).
      pose proof (find_task_spec s q ready None l2 Q (l1 ++ [c]) [] queue_fuel) as H2. rewrite app_nil_r, <- app_assoc in H2.
      rewrite H2; [| done | rewrite E, length_app in Hl; cbn in Hl; lia | done | by left].
      pose proof (find_task_spec s q ready (Some c) l1 Q [] (c :: l2) queue_fuel E) as H1. rewrite <- E in H1.
      rewrite H1; [| rewrite E, length_app in Hl; lia | | by right].
      + pose proof (first_ready s (l2 ++ l1) Hp) as HH. rewrite first_of_app in HH. by destruct (first_of ready s l2).
      + intros i Hi [= <-]. pose proof (q_nodup _ _ Q) as Hnd. rewrite E in Hnd. apply nodup_mid in Hnd as [Hnd _]. done.
    - rewrite (q_off _ _ Q c (Hc c eq_refl) Hn), ?find_nil, ?best_nil.
      pose proof (find_task_spec s q ready (Some c) q Q [] [] queue_fuel) as H. rewrite app_nil_r in H.
      rewrite H; [by apply first_ready | done | done | by intros i Hi [= <-] | by left]. }
  assert (HP : current_policy s = SCHED_POLICY_PRIORITY -> picks s o (scheduler_pick_priority_after (Some c) s)).
  { intros Hp. unfold scheduler_pick_priority_after. cbv zeta. rewrite (head_in_queue s q Q). destruct Hs as [(l1 & l2 & E & ->) | [Hn ->]].
    - rewrite (next_in s q l1 c l2 Q E).
      pose proof (best_task_spec s q better None l2 Q (l1 ++ [c]) [] queue_fuel None) as H2. rewrite app_nil_r, <- app_assoc in H2.
      rewrite H2; [| done | rewrite E, length_app in Hl; cbn in Hl; lia | done | by left].
      pose proof (best_task_spec s q better (Some c) l1 Q [] (c :: l2) queue_fuel (best_of better s None l2) E) as H1. rewrite <- E in H1.
      rewrite H1; [| rewrite E, length_app in Hl; lia | | by right].
      + pose proof (best_ready s (l2 ++ l1) Hp) as HH. unfold best_of in *. by rewrite foldl_app in HH.
      + intros i Hi [= <-]. pose proof (q_nodup _ _ Q) as Hnd. rewrite E in Hnd. apply nodup_mid in Hnd as [Hnd _]. done.
    - rewrite (q_off _ _ Q c (Hc c eq_refl) Hn), ?find_nil, ?best_nil.
      pose proof (best_task_spec s q better (Some c) q Q [] [] queue_fuel None) as H. rewrite app_nil_r in H.
      rewrite H; [by apply best_ready | done | done | by intros i Hi [= <-] | by left]. }
  destruct (current_policy s); [by apply HF | by apply HP | by apply HF].
Qed.
End policy.

(** ** The invariant *)
Record live_ok (base size : Z) (s : kernel) (q : list Z) : Prop := {
  l_queued i : in_tab i -> i ∈ q -> used s i = true;
  l_idle i : idle_task s = Some i -> in_tab i /\ used s i = true;
  l_npid : 0 < next_pid s < 2 ^ 32;
  l_pid i : in_tab i -> used s i = true -> 0 < pid (task_at s i) < next_pid s;
  l_inj i j : in_tab i -> in_tab j -> used s i = true -> used s j = true -> pid (task_at s i) = pid (task_at s j) -> i = j;
  l_count : task_active_count s = zlen (live_tasks s);
  l_heap : exists l, heap_ok base size (heap s) l /\ forall i, in_tab i -> used s i = true ->
    user_stack (task_at s i) = None /\ exists ks z, kernel_stack (task_at s i) = Some ks /\ TASK_KERNEL_STACK_SIZE <= z /\ In (ks, z) (in_use base l);
  l_stacks i j : in_tab i -> in_tab j -> used s i = true -> used s j = true -> kernel_stack (task_at s i) = kernel_stack (task_at s j) -> i = j }.

Record run_ok (s : kernel) : Prop := {
  r_cur i : current_task s = Some i -> in_tab i /\ used s i = true;
  r_run i : in_tab i -> state (task_at s i) = TASK_STATE_RUNNING -> current_task s = Some i;
  r_quantum i : in_tab i -> 0 <= quantum_remaining (task_at s i) <= SCHED_DEFAULT_QUANTUM }.

Definition globals (s : kernel) := (current_policy s, sched_running s, preempt_disable_count s, total_ticks (stats s)).

Section invariant.
Context (base size : Z).
Implicit Types (s : kernel) (q l o : list Z) (i j n : Z).

Lemma used_iff s i : used s i = true <-> state (task_at s i) <> TASK_STATE_UNUSED.
Proof. unfold used, unused. rewrite negb_true_iff. apply bool_decide_eq_false. Qed.

Lemma live_tasks_ext s s' : (forall i, in_tab i -> used s' i = used s i) -> live_tasks s' = live_tasks s.
Proof.
  intros H. unfold live_tasks. assert (Hin : forall i, i ∈ seqZ 0 TASK_MAX_COUNT -> in_tab i) by (intros i Hi; apply elem_of_seqZ in Hi; unfold in_tab; lia).
  induction (seqZ 0 TASK_MAX_COUNT) as [|x l IH]; [done|]. rewrite !filter_cons. rewrite (H x) by (apply Hin; left).
  rewrite IH by (intros i Hi; apply Hin; by right). done.
Qed.

(** What the identity of the tasks and their stacks depend on. *)
Record alike s s' : Prop := {
  a_used i : in_tab i -> used s' i = used s i;
  a_vital i : in_tab i -> used s i = true -> pid (task_at s' i) = pid (task_at s i) /\
    kernel_stack (task_at s' i) = kernel_stack (task_at s i) /\ user_stack (task_at s' i) = user_stack (task_at s i);
  a_idle : idle_task s' = idle_task s;
  a_npid : next_pid s <= next_pid s' < 2 ^ 32;
  a_count : task_active_count s' = task_active_count s;
  a_heap (l : list kblock) : heap_ok base size (heap s) l -> heap_ok base size (heap s') l }.

Lemma alike_live s s' q q' : alike s s' -> (forall i, in_tab i -> i ∈ q' -> used s i = true) ->
  live_ok base size s q -> live_ok base size s' q'.
Proof.
  intros [Hu Hv Hid Hnp Hct Hhp] Hq' [Lq Li Ln Lp Lj Lc Lh Ls]. constructor.
  - intros i Hi Hq. rewrite Hu by done. by apply Hq'.
  - intros i E. rewrite Hid in E. destruct (Li i E) as [H1 H2]. split; [done|]. by rewrite Hu.
  - lia.
  - intros i Hi Hus. rewrite Hu in Hus by done. destruct (Hv i Hi Hus) as (-> & _). specialize (Lp i Hi Hus). lia.
  - intros i j Hi Hj Hui Huj E. rewrite Hu in Hui, Huj by done. destruct (Hv i Hi Hui) as (Ei & _), (Hv j Hj Huj) as (Ej & _).
    apply Lj; try done. congruence.
  - rewrite Hct, Lc. by rewrite (live_tasks_ext s s' Hu).
  - destruct Lh as (l & Hl & H). exists l. split; [by apply Hhp|]. intros i Hi Hus. rewrite Hu in Hus by done.
    destruct (Hv i Hi Hus) as (_ & -> & ->). by apply H.
  - intros i j Hi Hj Hui Huj E. rewrite Hu in Hui, Huj by done. destruct (Hv i Hi Hui) as (_ & Ei & _), (Hv j Hj Huj) as (_ & Ej & _).
    apply Ls; try done. congruence.
Qed.

Lemma keeps_live s s' q : keeps s s' -> live_ok base size s q -> live_ok base size s' q.
Proof.
  intros K L. apply (alike_live s s' q q); [|apply L|done]. constructor; [by intros i Hi; apply keeps_used | | apply K | | apply K |].
  - intros i Hi _. destruct (core_same_fields _ _ (k_core _ _ K i Hi)) as (? & ? & ? & _). done.
  - rewrite (k_npid _ _ K). pose proof (l_npid _ _ _ _ L). lia.
  - intros l. by rewrite (k_heap _ _ K).
Qed.

(** ** The switch *)
Context (resume_rip : Z).
Local Abbreviation schedule := (schedule resume_rip).

Definition saved (r : task_context) (t : task) : task_context :=
  mkCtx (rsp r) (rbp r) (rbx r) (r12 r) (r13 r) (r14 r) (r15 r) resume_rip (rflags r) (ctx_cr3 (context t)) (fx_state r).

(** A task after the switch from [c] to [n]. *)
Definition switched s (c : option Z) n j : task :=
  let t := task_at s j in
  let t := if bool_decide (c = Some j /\ state t = TASK_STATE_RUNNING) then set_state TASK_STATE_READY t else t in
  let t := if decide (j = n) then set_state TASK_STATE_RUNNING t else t in
  if bool_decide (c = Some j) then set_context (saved (live s) t) t else t.

Lemma arch_same n s : task_table (arch_sched_apply_kernel_stack (Some n) s) = task_table s /\ same_tasks s (arch_sched_apply_kernel_stack (Some n) s) /\
  current_task (arch_sched_apply_kernel_stack (Some n) s) = current_task s /\ live (arch_sched_apply_kernel_stack (Some n) s) = live s /\
  globals (arch_sched_apply_kernel_stack (Some n) s) = globals s.
Proof. unfold arch_sched_apply_kernel_stack. destruct (kernel_stack _); [|done]. by destruct (_ =? 0). Qed.

Lemma schedule_switch s n : zlen (task_table s) = TASK_MAX_COUNT -> in_tab n -> (forall c, current_task s = Some c -> in_tab c) ->
  scheduler_pick_next_for_current (current_task s) s = Some n -> current_task s <> Some n ->
  let s' := schedule s in
  (forall j, in_tab j -> task_at s' j = switched s (current_task s) n j) /\ zlen (task_table s') = TASK_MAX_COUNT /\
  run_queue_head s' = run_queue_head s /\ run_queue_tail s' = run_queue_tail s /\ idle_task s' = idle_task s /\ next_pid s' = next_pid s /\
  task_active_count s' = task_active_count s /\ heap s' = heap s /\ current_task s' = Some n /\ globals s' = globals s.
Proof.
  intros Hl Hn Hc Hp Hne. cbv zeta. unfold schedule, task_current. rewrite Hp. rewrite bool_decide_false by done.
  set (s1 := match current_task s with Some c => _ | None => s end).
  assert (H1 : forall j, in_tab j -> task_at s1 j = if bool_decide (current_task s = Some j /\ state (task_at s j) = TASK_STATE_RUNNING) then set_state TASK_STATE_READY (task_at s j) else task_at s j).
  { intros j Hj. subst s1. destruct (current_task s) as [c|] eqn:Ec; [|by rewrite bool_decide_false by naive_solver].
    specialize (Hc c eq_refl). destruct (bool_decide (state (task_at s c) = TASK_STATE_RUNNING)) eqn:Er.
    - apply bool_decide_eq_true in Er. rewrite task_at_upd by done. destruct (decide (j = c)) as [->|Hjc].
      + by rewrite bool_decide_true.
      + rewrite bool_decide_false; [done|]. intros [[= ->] _]. done.
    - apply bool_decide_eq_false in Er. rewrite bool_decide_false; [done|]. intros [[= ->] ?]. done. }
  assert (G1 : zlen (task_table s1) = TASK_MAX_COUNT /\ run_queue_head s1 = run_queue_head s /\ run_queue_tail s1 = run_queue_tail s /\ idle_task s1 = idle_task s /\
    next_pid s1 = next_pid s /\ task_active_count s1 = task_active_count s /\ heap s1 = heap s /\ live s1 = live s /\ globals s1 = globals s).
  { subst s1. destruct (current_task s); [destruct (bool_decide _)|]; rewrite ?table_upd; done. }
  destruct G1 as (Hl1 & ? & ? & ? & ? & ? & ? & Hlive & Hg). set (s2 := upd n (set_state TASK_STATE_RUNNING) s1).
  assert (G2 : run_queue_head s2 = run_queue_head s1 /\ run_queue_tail s2 = run_queue_tail s1 /\ idle_task s2 = idle_task s1 /\
    next_pid s2 = next_pid s1 /\ task_active_count s2 = task_active_count s1 /\ heap s2 = heap s1 /\ live s2 = live s1 /\ globals s2 = globals s1) by done.
  destruct G2 as (? & ? & ? & ? & ? & ? & ? & ?).
  set (s3 := if bool_decide _ then _ else _). assert (HH3 : task_table s3 = task_table s2 /\ same_tasks s2 s3 /\ current_task s3 = Some n /\ live s3 = live s2 /\ globals s3 = globals s2).
  { subst s3. by destruct (bool_decide _). }
  destruct (arch_same n s3) as (E4 & S4 & C4 & V4 & G4). set (s4 := arch_sched_apply_kernel_stack (Some n) s3) in *.
  destruct HH3 as (E3 & S3 & C3 & V3 & G3). destruct S3 as (_ & ? & ? & ? & ? & ? & ?), S4 as (_ & ? & ? & ? & ? & ? & ?).
  assert (Hl2 : zlen (task_table s2) = TASK_MAX_COUNT) by (subst s2; by rewrite table_upd).
  assert (Hl4 : zlen (task_table s4) = TASK_MAX_COUNT) by congruence.
  assert (HH4 : forall j, in_tab j -> task_at s4 j = if decide (j = n) then set_state TASK_STATE_RUNNING (task_at s1 n) else task_at s1 j).
  { intros j Hj. unfold task_at at 1. rewrite E4, E3. fold (task_at s2 j). subst s2. by rewrite task_at_upd. }
  assert (Hlive4 : live s4 = live s) by congruence. unfold switched. destruct (current_task s) as [c|] eqn:Ec; rewrite ?Ec in H1.
  - specialize (Hc c eq_refl). split.
    + intros j Hj. unfold context_switch. change (task_at (set_live ?v ?x) j) with (task_at x j). rewrite task_at_upd by done.
      destruct (decide (j = c)) as [->|Hjc].
      * rewrite (bool_decide_true (Some c = Some c)) by done. rewrite HH4 by done. rewrite Hlive4.
        repeat (destruct (decide (c = n)) as [?|_]; [congruence|]). by rewrite (H1 c).
      * rewrite (bool_decide_false (Some c = Some j)) by congruence. rewrite HH4 by done. rewrite <- (H1 j) by done.
        destruct (decide (j = n)) as [->|]; done.
    + unfold context_switch. cbn [set_live task_table upd set_tasks run_queue_head run_queue_tail idle_task next_pid task_active_count heap current_task].
      rewrite zlen_aset. assert (current_task s4 = Some n) by congruence. assert (globals s4 = globals s) by congruence.
      assert (Hgl : forall v x, globals (set_live v x) = globals x) by done. assert (Hgu : forall i f x, globals (upd i f x) = globals x) by done.
      rewrite Hgl, Hgu. repeat split; congruence.
  - split; [|assert (current_task s4 = Some n) by congruence; assert (globals s4 = globals s) by congruence; repeat split; congruence].
    intros j Hj. rewrite (bool_decide_false (None = Some j)) by done. rewrite HH4, <- (H1 j) by done.
    destruct (decide (j = n)) as [->|]; done.
Qed.

Lemma schedule_none s : scheduler_pick_next_for_current (current_task s) s = None \/ scheduler_pick_next_for_current (current_task s) s = current_task s ->
  schedule s = s.
Proof.
  intros H. unfold schedule, task_current. destruct (scheduler_pick_next_for_current _ s) as [n|]; [|done].
  destruct H as [H|H]; [done|]. by rewrite bool_decide_true.
Qed.

Record inv s q : Prop := { i_queue : queue_ok s q; i_live : live_ok base size s q; i_run : run_ok s }.

Lemma inv_table s q : inv s q -> zlen (task_table s) = TASK_MAX_COUNT.
Proof. intros [[]]. done. Qed.

Lemma unused_core (t : task) (v : task_state) : v <> TASK_STATE_UNUSED -> unused t = false -> core (set_state v t) = core t.
Proof. intros Hv Hu. unfold core. cbn. rewrite Hu. unfold unused. cbn. by rewrite bool_decide_false. Qed.

Lemma used_unused s i : used s i = true -> unused (task_at s i) = false.
Proof. apply negb_true_iff. Qed.

Lemma inv_upd s q i (f : task -> task) : inv s q -> in_tab i -> core (f (task_at s i)) = core (task_at s i) ->
  (state (f (task_at s i)) = TASK_STATE_RUNNING -> current_task s = Some i) ->
  (0 <= quantum_remaining (f (task_at s i)) <= SCHED_DEFAULT_QUANTUM) -> inv (upd i f s) q.
Proof.
  intros [Q L [Rc Rr Rq]] Hi Hc Hs Hq. pose proof (q_table _ _ Q) as Ht. pose proof (keeps_upd s i f Ht Hi Hc) as K.
  constructor; [by apply (keeps_queue s) | by apply (keeps_live s) |]. constructor.
  - intros j E. destruct (Rc j E) as [Hj Hu]. split; [done|]. by rewrite (keeps_used s).
  - intros j Hj. rewrite task_at_upd by done. destruct (decide (j = i)) as [->|]; [done | by apply Rr].
  - intros j Hj. rewrite task_at_upd by done. destruct (decide (j = i)) as [->|]; [done | by apply Rq].
Qed.

Lemma inv_globals s s' q : same_tasks s s' -> current_task s' = current_task s -> inv s q -> inv s' q.
Proof.
  intros S E [Q L [Rc Rr Rq]]. pose proof (same_keeps s s' S) as K. destruct S as (Et & _).
  constructor; [by apply (keeps_queue s) | by apply (keeps_live s) |]. constructor.
  - intros j Hj. rewrite E in Hj. destruct (Rc j Hj) as [? Hu]. split; [done|]. by rewrite (keeps_used s).
  - intros j Hj. unfold task_at. rewrite Et, E. by apply Rr.
  - intros j Hj. unfold task_at. rewrite Et. by apply Rq.
Qed.

Lemma switched_fields s c n j : pid (switched s c n j) = pid (task_at s j) /\ quantum_remaining (switched s c n j) = quantum_remaining (task_at s j) /\
  wake_tick (switched s c n j) = wake_tick (task_at s j) /\ priority (switched s c n j) = priority (task_at s j) /\
  state (switched s c n j) = if decide (j = n) then TASK_STATE_RUNNING else
    if bool_decide (c = Some j /\ state (task_at s j) = TASK_STATE_RUNNING) then TASK_STATE_READY else state (task_at s j).
Proof. unfold switched. destruct (decide (j = n)), (bool_decide (c = Some j /\ _)), (bool_decide (c = Some j)); done. Qed.

Lemma switched_core s c n j : (j = n -> used s n = true) -> core (switched s c n j) = core (task_at s j).
Proof.
  intros Hn. unfold switched. set (t := task_at s j).
  assert (H1 : core (if bool_decide (c = Some j /\ state t = TASK_STATE_RUNNING) then set_state TASK_STATE_READY t else t) = core t).
  { case_bool_decide as E; [|done]. apply unused_core; [done|]. destruct E as [_ E]. unfold unused. by rewrite E. }
  set (t1 := if bool_decide (c = Some j /\ state t = TASK_STATE_RUNNING) then set_state TASK_STATE_READY t else t) in *.
  assert (H2 : core (if decide (j = n) then set_state TASK_STATE_RUNNING t1 else t1) = core t1).
  { destruct (decide (j = n)) as [->|]; [|done]. apply unused_core; [done|]. destruct (core_same_fields _ _ H1) as (_ & _ & _ & _ & _ & -> & _).
    exact (used_unused s n (Hn eq_refl)). }
  set (t2 := if decide (j = n) then set_state TASK_STATE_RUNNING t1 else t1) in *. transitivity (core t2); [|congruence]. clearbody t2. by destruct (bool_decide (c = Some j)).
Qed.

(** What a pick can be. *)
Lemma pick_used s q n : inv s q -> scheduler_pick_next_for_current (current_task s) s = Some n -> in_tab n /\ used s n = true.
Proof.
  intros [Q L [Rc _ _]] E. destruct (scan_exists q (current_task s)) as [o Ho].
  pose proof (pick_spec s q (current_task s) o Q (fun i Hi => proj1 (Rc i Hi)) Ho) as P. rewrite E in P.
  destruct P as [(a & b & -> & Hr & _) | [Hi _]]; [|by apply (l_idle _ _ _ _ L)].
  assert (Hn : n ∈ q).
  { assert (n ∈ a ++ n :: b) as Hin by (apply elem_of_app; right; left). revert Hin Ho. generalize (a ++ n :: b). intros o Hin Ho. unfold scan in Ho.
    destruct (current_task s); [|by subst]. destruct Ho as [(l1 & l2 & -> & ->) | [_ ->]]; [|done].
    apply elem_of_app in Hin as [?|?]; apply elem_of_app; [right; by right | by left]. }
  split; [by apply (q_range _ _ Q)|]. apply used_iff. unfold is_ready in Hr. by rewrite Hr.
Qed.

Lemma schedule_keeps s q : inv s q -> keeps s (schedule s) /\ inv (schedule s) q /\ globals (schedule s) = globals s /\
  forall i, in_tab i -> wake_tick (task_at (schedule s) i) = wake_tick (task_at s i) /\
    quantum_remaining (task_at (schedule s) i) = quantum_remaining (task_at s i).
Proof.
  intros I. pose proof I as [Q L [Rc Rr Rq]]. destruct (scheduler_pick_next_for_current (current_task s) s) as [n|] eqn:Ep.
  2: { rewrite schedule_none by auto. split; [apply keeps_refl | done]. }
  destruct (decide (current_task s = Some n)) as [Ec|Ec].
  { rewrite schedule_none by (right; congruence). split; [apply keeps_refl | done]. }
  destruct (pick_used s q n I Ep) as [Hn Hu].
  destruct (schedule_switch s n (q_table _ _ Q) Hn (fun c Hc => proj1 (Rc c Hc)) Ep Ec) as (Hat & Hl & Hh & Ht & Hid & Hp & Hc & Hhp & Hcur & Hg).
  assert (K : keeps s (schedule s)).
  { constructor; try done; [by rewrite Hl, (q_table _ _ Q)|]. intros i Hi. rewrite Hat by done. apply switched_core. by intros ->. }
  split; [done|]. split; [|split; [done|]; intros i Hi; rewrite Hat by done; by destruct (switched_fields s (current_task s) n i) as (_ & -> & -> & _)].
  constructor; [by apply (keeps_queue s) | by apply (keeps_live s) |].
  constructor.
  - intros i E. rewrite Hcur in E. injection E as <-. split; [done|]. by rewrite (keeps_used s).
  - intros i Hi. rewrite Hat by done. destruct (switched_fields s (current_task s) n i) as (_ & _ & _ & _ & ->). rewrite Hcur.
    destruct (decide (i = n)) as [->|]; [done|]. case_bool_decide as E; [done|]. intros Hr. exfalso. apply E. split; [by apply Rr | done].
  - intros i Hi. rewrite Hat by done. destruct (switched_fields s (current_task s) n i) as (_ & -> & _). by apply Rq.
Qed.
End invariant.
