(* ===== verification/SchedOps.v ===== *)
(** * The operations of the scheduler preserve the invariant

    Linking and unlinking of the run queue, creation and destruction of tasks, and
    every operation of [Sched] as a step of a machine; with the theorems on what
    holds after any sequence of steps. *)
From S2P Require Import Prelude Dll Kheap Sched SchedInv.
Local Open Scope capy_scope.

Section links.
Implicit Types (s : kernel) (q l : list Z) (i j : Z).

Definition nolinks (t : task) : task := set_prev None (set_next None t).

(** Everything but the links and the ends of the queue. *)
Record relinks (s s' : kernel) : Prop := {
  rl_len : zlen (task_table s') = zlen (task_table s);
  rl_task i : in_tab i -> nolinks (task_at s' i) = nolinks (task_at s i);
  rl_cur : current_task s' = current_task s;
  rl_idle : idle_task s' = idle_task s;
  rl_npid : next_pid s' = next_pid s;
  rl_count : task_active_count s' = task_active_count s;
  rl_heap : heap s' = heap s;
  rl_globals : globals s' = globals s }.

Lemma nolinks_fields t t' : nolinks t' = nolinks t -> pid t' = pid t /\ kernel_stack t' = kernel_stack t /\ user_stack t' = user_stack t /\
  state t' = state t /\ quantum_remaining t' = quantum_remaining t /\ priority t' = priority t /\ wake_tick t' = wake_tick t /\ context t' = context t.
Proof. destruct t, t'. intros [=]. subst. done. Qed.

Lemma relinks_used s s' i : relinks s s' -> in_tab i -> used s' i = used s i.
Proof. intros R Hi. unfold used, unused. by destruct (nolinks_fields _ _ (rl_task _ _ R i Hi)) as (_ & _ & _ & -> & _). Qed.

Lemma relinks_alike base size s s' : 0 < next_pid s < 2 ^ 32 -> relinks s s' -> alike base size s s'.
Proof.
  intros Hn R. constructor; [by intros i Hi; apply relinks_used | | apply R | | apply R |].
  - intros i Hi _. destruct (nolinks_fields _ _ (rl_task _ _ R i Hi)) as (-> & -> & -> & _). done.
  - rewrite (rl_npid _ _ R). lia.
  - intros l. by rewrite (rl_heap _ _ R).
Qed.

Lemma relinks_run s s' : relinks s s' -> run_ok s -> run_ok s'.
Proof.
  intros R [Rc Rr Rq]. constructor.
  - intros i E. rewrite (rl_cur _ _ R) in E. destruct (Rc i E) as [? ?]. split; [done|]. by rewrite (relinks_used s).
  - intros i Hi. destruct (nolinks_fields _ _ (rl_task _ _ R i Hi)) as (_ & _ & _ & -> & _). rewrite (rl_cur _ _ R). by apply Rr.
  - intros i Hi. destruct (nolinks_fields _ _ (rl_task _ _ R i Hi)) as (_ & _ & _ & _ & -> & _). by apply Rq.
Qed.

Definition opt_tab (o : option Z) : Prop := match o with Some i => in_tab i | None => True end.

Lemma set_next_same (t : task) : set_next (next t) t = t.
Proof. by destruct t. Qed.
Lemma set_prev_same (t : task) : set_prev (prev t) t = t.
Proof. by destruct t. Qed.

(** Joining the neighbours of [i], as [scheduler_remove] does. *)
Definition bypass_prev (s : kernel) (i : Z) : kernel :=
  match prev (task_at s i) with Some p => upd p (set_next (next (task_at s i))) s | None => set_head (next (task_at s i)) s end.
Definition bypass_next (s : kernel) (i : Z) : kernel :=
  match next (task_at s i) with Some n => upd n (set_prev (prev (task_at s i))) s | None => set_tail (prev (task_at s i)) s end.

Lemma bypass_prev_at s i : zlen (task_table s) = TASK_MAX_COUNT -> opt_tab (prev (task_at s i)) ->
  zlen (task_table (bypass_prev s i)) = TASK_MAX_COUNT /\
  (forall j, in_tab j -> task_at (bypass_prev s i) j = if decide (prev (task_at s i) = Some j) then set_next (next (task_at s i)) (task_at s j) else task_at s j) /\
  run_queue_head (bypass_prev s i) = (if decide (prev (task_at s i) = None) then next (task_at s i) else run_queue_head s) /\
  run_queue_tail (bypass_prev s i) = run_queue_tail s /\
  current_task (bypass_prev s i) = current_task s /\ idle_task (bypass_prev s i) = idle_task s /\ next_pid (bypass_prev s i) = next_pid s /\
  task_active_count (bypass_prev s i) = task_active_count s /\ heap (bypass_prev s i) = heap s /\ globals (bypass_prev s i) = globals s.
Proof.
  intros Hl Hp. unfold bypass_prev. destruct (prev (task_at s i)) as [p|]; [|done]. split; [by rewrite table_upd|]. split; [|done].
  intros j Hj. rewrite task_at_upd by done. destruct (decide (j = p)) as [->|]; [by rewrite decide_True | by rewrite decide_False by congruence].
Qed.

Lemma bypass_next_at s i : zlen (task_table s) = TASK_MAX_COUNT -> opt_tab (next (task_at s i)) ->
  zlen (task_table (bypass_next s i)) = TASK_MAX_COUNT /\
  (forall j, in_tab j -> task_at (bypass_next s i) j = if decide (next (task_at s i) = Some j) then set_prev (prev (task_at s i)) (task_at s j) else task_at s j) /\
  run_queue_head (bypass_next s i) = run_queue_head s /\
  run_queue_tail (bypass_next s i) = (if decide (next (task_at s i) = None) then prev (task_at s i) else run_queue_tail s) /\
  current_task (bypass_next s i) = current_task s /\ idle_task (bypass_next s i) = idle_task s /\ next_pid (bypass_next s i) = next_pid s /\
  task_active_count (bypass_next s i) = task_active_count s /\ heap (bypass_next s i) = heap s /\ globals (bypass_next s i) = globals s.
Proof.
  intros Hl Hp. unfold bypass_next. destruct (next (task_at s i)) as [p|]; [|done]. split; [by rewrite table_upd|]. split; [|done].
  intros j Hj. rewrite task_at_upd by done. destruct (decide (j = p)) as [->|]; [by rewrite decide_True | by rewrite decide_False by congruence].
Qed.

(** Unlinking a queued task. *)
Lemma remove_queued s l1 i l2 : queue_ok s (l1 ++ i :: l2) ->
  queue_ok (scheduler_remove (Some i) s) (l1 ++ l2) /\ relinks s (scheduler_remove (Some i) s).
Proof.
  intros Q. pose proof Q as [Ht Hd Hnd Hr Ho]. assert (Hi : in_tab i) by (apply Hr, elem_of_app; right; left).
  pose proof (nodup_mid l1 i l2 Hnd) as (Hi1 & Hi2 & Hnd').
  pose proof Hd as (Hh & Htl & Hlk). destruct (Hlk l1 i l2 eq_refl) as [Hp Hn].
  assert (Hop : opt_tab (prev (task_at s i))).
  { rewrite Hp. destruct (last l1) eqn:E; [|done]. apply Hr, elem_of_app. left. by apply last_in. }
  assert (Hon : opt_tab (next (task_at s i))).
  { rewrite Hn. destruct (head l2) eqn:E; [|done]. apply Hr, elem_of_app. right. right. by apply head_in. }
  assert (Hpi : prev (task_at s i) <> Some i) by (rewrite Hp; intros E; by apply last_in in E).
  assert (Hni : next (task_at s i) <> Some i) by (rewrite Hn; intros E; by apply head_in in E).
  assert (E : scheduler_remove (Some i) s = unlink i (bypass_next (bypass_prev s i) i)).
  { unfold scheduler_remove. rewrite (head_in_queue s _ Q), (on_queue_spec s _ i _ Q [] queue_fuel eq_refl (queue_length s _ Q)).
    rewrite bool_decide_true by (apply elem_of_app; right; left). done. }
  rewrite E. clear E. destruct (bypass_prev_at s i Ht Hop) as (T1 & A1 & H1 & L1 & C1 & I1 & P1 & N1 & M1 & G1). set (s1 := bypass_prev s i) in *.
  assert (E1 : task_at s1 i = task_at s i) by (rewrite A1 by done; by rewrite decide_False).
  destruct (bypass_next_at s1 i T1) as (T2 & A2 & H2 & L2 & C2 & I2 & P2 & N2 & M2 & G2); [by rewrite E1|]. set (s2 := bypass_next s1 i) in *. rewrite E1 in A2, L2.
  assert (Hat : forall j, in_tab j -> task_at (unlink i s2) j = if decide (j = i) then nolinks (task_at s i) else
    set_next (if decide (prev (task_at s i) = Some j) then next (task_at s i) else next (task_at s j))
     (set_prev (if decide (next (task_at s i) = Some j) then prev (task_at s i) else prev (task_at s j)) (task_at s j))).
  { intros j Hj. unfold unlink. rewrite task_at_upd by done. destruct (decide (j = i)) as [->|Hne].
    - rewrite A2 by done. rewrite decide_False by done. by rewrite E1.
    - rewrite A2, A1 by done. destruct (decide (next (task_at s i) = Some j)), (decide (prev (task_at s i) = Some j)); rewrite ?set_prev_same, ?set_next_same; done. }
  assert (Hlen : zlen (task_table (unlink i s2)) = TASK_MAX_COUNT) by (unfold unlink; by rewrite table_upd).
  split.
  - constructor; [done | | done | |].
    + change (run_queue_head (unlink i s2)) with (run_queue_head s2). change (run_queue_tail (unlink i s2)) with (run_queue_tail s2).
      rewrite H2, L2, H1, L1. apply (dll_remove _ _ _ _ _ _ l1 i l2 Hnd Hd). intros j Hj.
      assert (Hji : j <> i) by (intros ->; apply elem_of_app in Hj as [?|?]; done).
      rewrite Hat by (apply Hr; apply elem_of_app in Hj as [?|?]; apply elem_of_app; [by left | right; by right]). by rewrite decide_False.
    + intros j Hj. apply Hr. apply elem_of_app in Hj as [?|?]; apply elem_of_app; [by left | right; by right].
    + intros j Hj Hq. rewrite Hat by done. destruct (decide (j = i)) as [->|Hne]; [done|]. cbn [next set_next].
      rewrite decide_False.
      * apply Ho; [done|]. intros Hin. apply Hq. apply elem_of_app in Hin as [?|Hin]; apply elem_of_app; [by left|]. apply elem_of_cons in Hin as [->|?]; [done | by right].
      * rewrite Hp. intros El. apply Hq, elem_of_app. left. by apply last_in.
  - assert (Gu : current_task (unlink i s2) = current_task s2 /\ idle_task (unlink i s2) = idle_task s2 /\ next_pid (unlink i s2) = next_pid s2 /\
      task_active_count (unlink i s2) = task_active_count s2 /\ heap (unlink i s2) = heap s2 /\ globals (unlink i s2) = globals s2) by done.
    destruct Gu as (? & ? & ? & ? & ? & ?).
    constructor; [by rewrite Hlen, Ht | | congruence | congruence | congruence | congruence | congruence | congruence].
    intros j Hj. rewrite Hat by done. by destruct (decide (j = i)) as [->|].
Qed.

(** Unlinking a task that is not on the queue clears its links. *)
Lemma remove_absent s q i : queue_ok s q -> in_tab i -> i ∉ q ->
  queue_ok (scheduler_remove (Some i) s) q /\ relinks s (scheduler_remove (Some i) s).
Proof.
  intros Q Hi Hq. pose proof Q as [Ht Hd Hnd Hr Ho]. unfold scheduler_remove.
  rewrite (head_in_queue s q Q), (on_queue_spec s q i q Q [] queue_fuel eq_refl (queue_length s q Q)). rewrite bool_decide_false by done. cbn [negb].
  assert (Hat : forall j, in_tab j -> task_at (unlink i s) j = if decide (j = i) then nolinks (task_at s i) else task_at s j).
  { intros j Hj. unfold unlink. by rewrite task_at_upd. }
  assert (Hlen : zlen (task_table (unlink i s)) = TASK_MAX_COUNT) by (unfold unlink; by rewrite table_upd).
  split; constructor; try done.
  - apply (dll_ext _ _ _ _ _ _ _ Hd). intros j Hj. rewrite Hat by by apply Hr. by rewrite decide_False by congruence.
  - intros j Hj Hjq. rewrite Hat by done. destruct (decide (j = i)) as [->|]; [done | by apply Ho].
  - by rewrite Hlen, Ht.
  - intros j Hj. rewrite Hat by done. by destruct (decide (j = i)) as [->|].
Qed.

(** Linking a task at the back. *)
Lemma add_ok s q i : queue_ok s q -> in_tab i -> i ∉ q ->
  queue_ok (scheduler_add (Some i) s) (q ++ [i]) /\ relinks s (scheduler_add (Some i) s).
Proof.
  intros Q Hi Hq. pose proof Q as [Ht Hd Hnd Hr Ho]. pose proof Hd as (Hh & Htl & _).
  assert (Hlast : forall l : Z, run_queue_tail s = Some l -> in_tab l /\ l <> i).
  { intros l E. rewrite Htl in E. apply last_in in E. split; [by apply Hr | by intros ->]. }
  unfold scheduler_add. set (s1 := upd i (set_prev _) _).
  assert (T1 : zlen (task_table s1) = TASK_MAX_COUNT) by (subst s1; by rewrite !table_upd).
  assert (A1 : forall j, in_tab j -> task_at s1 j = if decide (j = i) then set_prev (run_queue_tail s) (set_next None (task_at s i)) else task_at s j).
  { intros j Hj. subst s1. rewrite !task_at_upd by (rewrite ?table_upd; done). rewrite !(decide_True (P := i = i)) by done. by destruct (decide (j = i)). }
  change (run_queue_tail s1) with (run_queue_tail s). set (s2 := match run_queue_tail s with Some l => _ | None => _ end).
  assert (T2 : zlen (task_table s2) = TASK_MAX_COUNT) by (subst s2; destruct (run_queue_tail s); rewrite ?table_upd; done).
  assert (A2 : forall j, in_tab j -> task_at s2 j = if decide (j = i) then set_prev (run_queue_tail s) (set_next None (task_at s i))
    else set_next (if decide (run_queue_tail s = Some j) then Some i else next (task_at s j)) (task_at s j)).
  { intros j Hj. subst s2. destruct (run_queue_tail s) as [l|] eqn:El.
    - destruct (Hlast l eq_refl) as [Hlt Hli]. rewrite task_at_upd by done. destruct (decide (j = l)) as [->|].
      + rewrite decide_False by done. rewrite A1 by done. rewrite decide_False by done. by rewrite decide_True.
      + rewrite A1 by done. destruct (decide (j = i)); [done|]. rewrite decide_False by congruence. by rewrite set_next_same.
    - change (task_at (set_head (Some i) s1) j) with (task_at s1 j). rewrite A1 by done. destruct (decide (j = i)); [done|].
      rewrite decide_False by done. by rewrite set_next_same. }
  assert (G2 : run_queue_head s2 = (if decide (run_queue_tail s = None) then Some i else run_queue_head s) /\ current_task s2 = current_task s /\
    idle_task s2 = idle_task s /\ next_pid s2 = next_pid s /\ task_active_count s2 = task_active_count s /\ heap s2 = heap s /\ globals s2 = globals s).
  { subst s2. by destruct (run_queue_tail s). }
  destruct G2 as (Hh2 & ? & ? & ? & ? & ? & ?). clearbody s2.
  assert (A3 : forall j, task_at (set_tail (Some i) s2) j = task_at s2 j) by done. split.
  - constructor; [done | | | |].
    + change (run_queue_head (set_tail (Some i) s2)) with (run_queue_head s2). rewrite Hh2.
      apply (dll_push_back (fun j => next (task_at s j)) (fun j => prev (task_at s j)) _ _ _ _ q i Hq Hd); [| | | done].
      * rewrite A3, A2 by done. by rewrite decide_True.
      * rewrite A3, A2 by done. by rewrite decide_True.
      * intros j Hj. rewrite A3, A2 by by apply Hr. by rewrite decide_False by congruence.
    + apply NoDup_app. split_and!; [done | | apply NoDup_singleton]. intros j Hj Hj2. apply list_elem_of_singleton in Hj2 as ->. done.
    + intros j Hj. apply elem_of_app in Hj as [?|Hj]; [by apply Hr|]. by apply list_elem_of_singleton in Hj as ->.
    + intros j Hj Hjq. rewrite A3, A2 by done. destruct (decide (j = i)); [done|]. cbn [next set_next]. rewrite decide_False.
      * apply Ho; [done|]. intros Hin. apply Hjq, elem_of_app. by left.
      * intros E. rewrite Htl in E. apply last_in in E. apply Hjq, elem_of_app. by left.
  - constructor; try done; [by rewrite <- T2 in Ht; rewrite Ht|]. intros j Hj. rewrite A3, A2 by done.
    by destruct (decide (j = i)) as [->|].
Qed.
End links.

(** ** Tasks that come and go *)
Section tasks.
Context (base size : Z) (Hb : 0 <= base) (Hs : kheader_size <= size) (He : base + size < 2 ^ 64).
Implicit Types (s : kernel) (q l : list Z) (i j : Z).

Lemma filter_in_ext (P Q : Z -> bool) l : (forall j, j ∈ l -> Q j = P j) ->
  base.filter (fun j => Q j = true) l = base.filter (fun j => P j = true) l.
Proof.
  induction l as [|x l IH]; intros H; [done|]. rewrite !filter_cons, (H x) by left. by rewrite IH by (intros j Hj; apply H; by right).
Qed.

Lemma filter_flip (P Q : Z -> bool) i l : NoDup l -> i ∈ l -> P i = false -> Q i = true -> (forall j, j ∈ l -> j <> i -> Q j = P j) ->
  length (base.filter (fun j => Q j = true) l) = S (length (base.filter (fun j => P j = true) l)).
Proof.
  intros Hnd Hi HP HQ Hj. apply list_elem_of_split in Hi as (l1 & l2 & ->).
  destruct (nodup_mid l1 i l2 Hnd) as (H1 & H2 & _). rewrite !filter_app, !filter_cons, HP, HQ.
  rewrite decide_True, decide_False by done. rewrite (filter_in_ext P Q l1), (filter_in_ext P Q l2); [rewrite !length_app; cbn; lia | |].
  - intros j H. apply Hj; [apply elem_of_app; right; by right | by intros ->].
  - intros j H. apply Hj; [apply elem_of_app; by left | by intros ->].
Qed.

Lemma live_flip s s' i : in_tab i -> used s i = false -> used s' i = true -> (forall j, in_tab j -> j <> i -> used s' j = used s j) ->
  zlen (live_tasks s') = zlen (live_tasks s) + 1.
Proof.
  intros Hi H H' Hj. unfold live_tasks, zlen. rewrite (filter_flip (used s) (used s') i); [lia | apply NoDup_seqZ | | done | done |].
  - apply elem_of_seqZ. unfold in_tab in Hi. lia.
  - intros j Hin Hne. apply Hj; [|done]. apply elem_of_seqZ in Hin. unfold in_tab. lia.
Qed.

Definition stack_in (l : list kblock) (t : task) : Prop :=
  user_stack t = None /\ exists ks z, kernel_stack t = Some ks /\ TASK_KERNEL_STACK_SIZE <= z /\ In (ks, z) (in_use base l).

Definition vital (t : task) := (pid t, kernel_stack t, user_stack t).

(** The task at [i] is gone, with its stack. *)
Lemma drop_live s s' q q' i (l l' : list kblock) ks : live_ok base size s q -> in_tab i -> used s i = true -> idle_task s <> Some i ->
  heap_ok base size (heap s) l -> (forall j, in_tab j -> used s j = true -> stack_in l (task_at s j)) ->
  (forall j, in_tab j -> j <> i -> vital (task_at s' j) = vital (task_at s j) /\ used s' j = used s j) -> used s' i = false ->
  idle_task s' = idle_task s -> next_pid s' = next_pid s -> task_active_count s' = task_active_count s - 1 ->
  kernel_stack (task_at s i) = Some ks -> heap_ok base size (heap s') l' ->
  (forall p z, In (p, z) (in_use base l') <-> In (p, z) (in_use base l) /\ p <> ks) ->
  (forall j, j ∈ q' -> j ∈ q /\ j <> i) -> live_ok base size s' q'.
Proof.
  intros [Lq Li Ln Lp Lj Lc _ Ls] Hi Hu Hid Hh Hst Hv Hu' Eid Enp Ect Eks Hh' Hin Hq'.
  assert (Hne : forall j, in_tab j -> used s' j = true -> j <> i /\ used s j = true /\ vital (task_at s' j) = vital (task_at s j)).
  { intros j Hj Huj. assert (j <> i) as Hji by (intros ->; congruence). destruct (Hv j Hj Hji) as [? E]. split_and!; try done. by rewrite <- E. }
  constructor.
  - intros j Hj Hin'. destruct (Hq' j Hin') as [Hjq Hji]. destruct (Hv j Hj Hji) as [_ ->]. by apply Lq.
  - intros j E. rewrite Eid in E. destruct (Li j E) as [Hj Huj]. split; [done|]. destruct (Hv j Hj) as [_ ->]; [congruence | done].
  - by rewrite Enp.
  - intros j Hj Huj. destruct (Hne j Hj Huj) as (_ & ? & [= -> _ _]). rewrite Enp. by apply Lp.
  - intros j k Hj Hk Huj Huk E. destruct (Hne j Hj Huj) as (_ & ? & [= Ej _ _]), (Hne k Hk Huk) as (_ & ? & [= Ek _ _]). apply Lj; try done. congruence.
  - rewrite Ect, Lc. rewrite (live_flip s' s i Hi Hu' Hu); [lia|]. intros j Hj Hji. by destruct (Hv j Hj Hji) as [_ ->].
  - exists l'. split; [done|]. intros j Hj Huj. destruct (Hne j Hj Huj) as (Hji & Hu0 & [= _ Ek Eu]). rewrite Ek, Eu.
    destruct (Hst j Hj Hu0) as (? & p & z & Ep & Hz & Hp). split; [done|]. exists p, z. split_and!; try done. apply Hin. split; [done|].
    intros ->. apply Hji. apply Ls; try done. congruence.
  - intros j k Hj Hk Huj Huk E. destruct (Hne j Hj Huj) as (_ & ? & [= _ Ej _]), (Hne k Hk Huk) as (_ & ? & [= _ Ek _]). apply Ls; try done. congruence.
Qed.

(** A new task at [i], with the next identifier and a fresh stack. *)
Lemma add_live s s' q i (l l' : list kblock) ks z : live_ok base size s q -> in_tab i -> used s i = false ->
  heap_ok base size (heap s) l -> (forall j, in_tab j -> used s j = true -> stack_in l (task_at s j)) ->
  (forall j, in_tab j -> j <> i -> vital (task_at s' j) = vital (task_at s j) /\ used s' j = used s j) -> used s' i = true ->
  idle_task s' = idle_task s -> next_pid s' = next_pid s + 1 -> next_pid s + 1 < 2 ^ 32 -> task_active_count s' = task_active_count s + 1 ->
  pid (task_at s' i) = next_pid s -> kernel_stack (task_at s' i) = Some ks -> user_stack (task_at s' i) = None -> heap_ok base size (heap s') l' ->
  TASK_KERNEL_STACK_SIZE <= z -> In (ks, z) (in_use base l') -> (forall y, ~ In (ks, y) (in_use base l)) ->
  (forall p y, In (p, y) (in_use base l) -> In (p, y) (in_use base l')) -> live_ok base size s' q.
Proof.
  intros [Lq Li Ln Lp Lj Lc _ Ls] Hi Hu Hh Hst Hv Hu' Eid Enp Hnp Ect Epid Eks Eus Hh' Hz Hin Hnew Hold.
  assert (Hne : forall j, in_tab j -> used s' j = true -> j <> i -> used s j = true /\ vital (task_at s' j) = vital (task_at s j)).
  { intros j Hj Huj Hji. destruct (Hv j Hj Hji) as [? E]. split; [by rewrite <- E | done]. }
  assert (Hold2 : forall j, in_tab j -> used s j = true -> kernel_stack (task_at s j) <> Some ks).
  { intros j Hj Huj E. destruct (Hst j Hj Huj) as (_ & p & y & Ep & _ & Hp). rewrite E in Ep. injection Ep as <-. by apply Hnew in Hp. }
  constructor.
  - intros j Hj Hjq. pose proof (Lq j Hj Hjq) as H. destruct (Hv j Hj) as [_ ->]; [congruence | done].
  - intros j E. rewrite Eid in E. destruct (Li j E) as [Hj Huj]. split; [done|]. destruct (Hv j Hj) as [_ ->]; [congruence | done].
  - lia.
  - intros j Hj Huj. destruct (decide (j = i)) as [->|Hji]; [lia|]. destruct (Hne j Hj Huj Hji) as (Hu0 & [= -> _ _]).
    specialize (Lp j Hj Hu0). lia.
  - intros j k Hj Hk Huj Huk E. destruct (decide (j = i)) as [->|Hji], (decide (k = i)) as [->|Hki]; [done | | |].
    + destruct (Hne k Hk Huk Hki) as (Hu0 & [= Ek _ _]). specialize (Lp k Hk Hu0). lia.
    + destruct (Hne j Hj Huj Hji) as (Hu0 & [= Ej _ _]). specialize (Lp j Hj Hu0). lia.
    + destruct (Hne j Hj Huj Hji) as (? & [= Ej _ _]), (Hne k Hk Huk Hki) as (? & [= Ek _ _]). apply Lj; try done. congruence.
  - rewrite Ect, Lc. rewrite (live_flip s s' i Hi Hu Hu'); [done|]. intros j Hj Hji. by destruct (Hv j Hj Hji) as [_ ->].
  - exists l'. split; [done|]. intros j Hj Huj. destruct (decide (j = i)) as [->|Hji]; [split; [done|]; by exists ks, z|].
    destruct (Hne j Hj Huj Hji) as (Hu0 & [= _ Ek Eu]). rewrite Ek, Eu.
    destruct (Hst j Hj Hu0) as (? & p & y & Ep & Hy & Hp). split; [done|]. exists p, y. split_and!; try done. by apply Hold.
  - intros j k Hj Hk Huj Huk E. destruct (decide (j = i)) as [->|Hji], (decide (k = i)) as [->|Hki]; [done | | |].
    + destruct (Hne k Hk Huk Hki) as (Hu0 & [= _ Ek _]). exfalso. apply (Hold2 k Hk Hu0). congruence.
    + destruct (Hne j Hj Huj Hji) as (Hu0 & [= _ Ej _]). exfalso. apply (Hold2 j Hj Hu0). congruence.
    + destruct (Hne j Hj Huj Hji) as (? & [= _ Ej _]), (Hne k Hk Huk Hki) as (? & [= _ Ek _]). apply Ls; try done. congruence.
Qed.

(** ** Searching the table *)
Lemma table_find_spec (p : task -> bool) s : match table_find p s with
  | Some i => in_tab i /\ p (task_at s i) = true
  | None => forall j, in_tab j -> p (task_at s j) = false end.
Proof.
  unfold table_find. pose proof (until_find (fun i => negb (p (task_at s i))) 0 TASK_MAX_COUNT) as H. cbv beta in H.
  destruct (until_range _ _ _ _) as [[]|i].
  - intros j Hj. specialize (H j Hj). by apply negb_true_iff in H.
  - destruct H as (Hi & Hp & _). split; [done|]. by apply negb_false_iff in Hp.
Qed.

Lemma by_pid s q i : live_ok base size s q -> in_tab i -> used s i = true -> task_by_pid (pid (task_at s i)) s = Some i.
Proof.
  intros L Hi Hu. unfold task_by_pid. pose proof (table_find_spec (has_pid (pid (task_at s i))) s) as H.
  assert (Hp : forall j, has_pid (pid (task_at s i)) (task_at s j) = used s j && (pid (task_at s j) =? pid (task_at s i))) by done.
  destruct (table_find _ s) as [j|].
  - destruct H as [Hj E]. rewrite Hp in E. bools. f_equal. by apply (l_inj _ _ _ _ L).
  - specialize (H i Hi). rewrite Hp, Hu, Z.eqb_refl in H. done.
Qed.

Lemma live_pos s i : in_tab i -> used s i = true -> 0 < zlen (live_tasks s).
Proof.
  intros Hi Hu. assert (H : i ∈ live_tasks s) by (apply list_elem_of_filter; split; [done|]; apply elem_of_seqZ; unfold in_tab in Hi; lia).
  destruct (live_tasks s); [set_solver|]. rewrite zlen_cons. pose proof (zlen_nonneg l). lia.
Qed.

(** ** Destroying a task *)
Definition killed (t : task) : task := set_session 0 (set_state TASK_STATE_UNUSED (set_stacks None None t)).

Definition destroy (i : Z) (s : kernel) : kernel :=
  upd i (set_session 0) (upd i (set_state TASK_STATE_UNUSED) (free_stacks size i (upd i (set_state TASK_STATE_DEAD) s))).

Lemma destroy_at s i ks : zlen (task_table s) = TASK_MAX_COUNT -> in_tab i -> kernel_stack (task_at s i) = Some ks -> user_stack (task_at s i) = None ->
  let s' := destroy i s in
  zlen (task_table s') = TASK_MAX_COUNT /\ (forall j, in_tab j -> task_at s' j = if decide (j = i) then killed (task_at s i) else task_at s j) /\
  heap s' = kfree size (Some ks) (heap s) /\ run_queue_head s' = run_queue_head s /\ run_queue_tail s' = run_queue_tail s /\
  current_task s' = current_task s /\ idle_task s' = idle_task s /\ next_pid s' = next_pid s /\ task_active_count s' = task_active_count s /\ globals s' = globals s.
Proof.
  intros Hl Hi Ek Eu. cbv zeta. unfold destroy, free_stacks.
  assert (H1 : forall j, in_tab j -> task_at (upd i (set_state TASK_STATE_DEAD) s) j = if decide (j = i) then set_state TASK_STATE_DEAD (task_at s i) else task_at s j).
  { intros j Hj. by rewrite task_at_upd. }
  rewrite (H1 i Hi), (decide_True (P := i = i)) by done. cbn [kernel_stack set_state]. rewrite Ek.
  set (s1 := upd i (set_state TASK_STATE_DEAD) s) in *. set (s2 := upd i _ (set_heap _ s1)).
  assert (T1 : zlen (task_table s1) = TASK_MAX_COUNT) by (subst s1; by rewrite table_upd).
  assert (T2 : zlen (task_table s2) = TASK_MAX_COUNT) by (subst s2; by rewrite table_upd).
  assert (H2 : forall j, in_tab j -> task_at s2 j = if decide (j = i) then set_stacks None (user_stack (task_at s i)) (task_at s1 i) else task_at s j).
  { intros j Hj. subst s2. rewrite task_at_upd by done. change (task_at (set_heap ?v s1) ?k) with (task_at s1 k). rewrite !H1 by done.
    rewrite (decide_True (P := i = i)) by done. by destruct (decide (j = i)). }
  rewrite (H2 i Hi), (decide_True (P := i = i)) by done. cbn [user_stack set_stacks]. rewrite Eu.
  split; [by rewrite !table_upd|]. split; [|done]. intros j Hj. rewrite !task_at_upd by (rewrite ?table_upd; done). rewrite !(decide_True (P := i = i)) by done.
  rewrite (H2 i Hi), (H2 j Hj), (H1 i Hi). rewrite !(decide_True (P := i = i)) by done. rewrite Eu. by destruct (decide (j = i)).
Qed.

Lemma filter_ne i q : base.filter (fun j => j <> i) q = if decide (i ∈ q) then base.filter (fun j => j <> i) q else q.
Proof.
  destruct (decide (i ∈ q)) as [|H]; [done|]. induction q as [|x q IH]; [done|]. rewrite filter_cons.
  rewrite decide_True by (intros ->; apply H; left). f_equal. apply IH. intros ?. apply H. by right.
Qed.

Lemma remove_ok s q i : queue_ok s q -> in_tab i ->
  queue_ok (scheduler_remove (Some i) s) (base.filter (fun j => j <> i) q) /\ relinks s (scheduler_remove (Some i) s).
Proof.
  intros Q Hi. destruct (decide (i ∈ q)) as [H|H].
  - apply list_elem_of_split in H as (l1 & l2 & ->). pose proof (nodup_mid l1 i l2 (q_nodup _ _ Q)) as (H1 & H2 & _).
    rewrite filter_app, filter_cons, decide_False by naive_solver. rewrite (filter_ne i l1), (filter_ne i l2), !decide_False by done.
    by apply remove_queued.
  - rewrite filter_ne, decide_False by done. by apply remove_absent.
Qed.

Lemma filter_ne_in i j q : j ∈ base.filter (fun j => j <> i) q <-> j <> i /\ j ∈ q.
Proof. by rewrite list_elem_of_filter. Qed.

Definition one_less (s : kernel) : kernel := if 0 <? task_active_count s then set_active_count (task_active_count s - 1) s else s.

Lemma one_less_facts s : 0 < task_active_count s -> let s' := one_less s in
  task_table s' = task_table s /\ heap s' = heap s /\ run_queue_head s' = run_queue_head s /\ run_queue_tail s' = run_queue_tail s /\
  current_task s' = current_task s /\ idle_task s' = idle_task s /\ next_pid s' = next_pid s /\ task_active_count s' = task_active_count s - 1 /\
  globals s' = globals s.
Proof. intros H. cbv zeta. unfold one_less. by replace (0 <? task_active_count s) with true by lia. Qed.

Lemma kill_eq s p i : task_by_pid p s = Some i -> unused (task_at s i) = false -> current_task s <> Some i ->
  task_kill size p s = (0, one_less (destroy i (scheduler_remove (Some i) s))).
Proof. intros E Hu Hc. unfold task_kill, destroy, one_less. by rewrite E, Hu, bool_decide_false. Qed.

Lemma kill_ok s q i : inv base size s q -> in_tab i -> used s i = true -> current_task s <> Some i -> idle_task s <> Some i ->
  exists s', task_kill size (pid (task_at s i)) s = (0, s') /\
  inv base size s' (base.filter (fun j => j <> i) q) /\ used s' i = false /\ globals s' = globals s /\
  current_task s' = current_task s /\ idle_task s' = idle_task s /\
  forall j, in_tab j -> j <> i -> nolinks (task_at s' j) = nolinks (task_at s j).
Proof.
  intros [Q L R] Hi Hu Hc Hid. rewrite (kill_eq s _ i (by_pid s q i L Hi Hu) (used_unused s i Hu) Hc).
  eexists. split; [reflexivity|]. destruct (remove_ok s q i Q Hi) as [Q1 R1].
  pose proof (relinks_run _ _ R1 R) as Rn1. remember (scheduler_remove (Some i) s) as s1 eqn:Es1. clear Es1.
  assert (L1 : live_ok base size s1 q) by (apply (alike_live base size s s1 q q (relinks_alike base size _ _ (l_npid _ _ _ _ L) R1)); [apply L | done]).
  assert (Hu1 : used s1 i = true) by (by rewrite (relinks_used s s1)).
  destruct (l_heap _ _ _ _ L1) as (l & Hh & Hst). destruct (Hst i Hi Hu1) as (Eus & ks & z & Eks & Hz & Hin).
  destruct (destroy_at s1 i ks (q_table _ _ Q1) Hi Eks Eus) as (T & A & Hhp & Hhd & Htl & Hcur & Hidl & Hnp & Hac & Hg).
  remember (destroy i s1) as s2 eqn:Es2. clear Es2.
  destruct (kfree_spec base size Hb He ks z l (heap s1) Hh Hin) as (l' & Hh' & _ & Hiff).
  assert (Hcount : 0 < task_active_count s2) by (rewrite Hac, (l_count _ _ _ _ L1); by apply (live_pos s1 i)).
  pose proof (one_less_facts s2 Hcount) as G3. cbv zeta in G3. remember (one_less s2) as s3 eqn:Es3.
  destruct G3 as (Etab & Ehp & Ehd & Etl & Ecur & Eidl & Enp & Eac & Eg). clear Es3.
  assert (A3 : forall j, task_at s3 j = task_at s2 j) by (intros j; unfold task_at; by rewrite Etab).
  assert (Hu3 : used s3 i = false) by (unfold used; rewrite A3, A by done; by rewrite decide_True).
  assert (Hn : forall j, in_tab j -> j <> i -> task_at s3 j = task_at s1 j) by (intros j Hj Hji; rewrite A3, A by done; by rewrite decide_False).
  assert (Hnl : forall j, in_tab j -> j <> i -> nolinks (task_at s3 j) = nolinks (task_at s j)).
  { intros j Hj Hji. rewrite Hn by done. by apply (rl_task _ _ R1). }
  assert (Hcur3 : current_task s3 = current_task s1) by congruence.
  assert (Hids : idle_task s3 = idle_task s1) by congruence. pose proof (rl_cur _ _ R1). pose proof (rl_idle _ _ R1). pose proof (rl_globals _ _ R1).
  split; [|split; [done|]; split; [congruence|]; split; [congruence|]; split; [congruence | done]]. constructor.
  - destruct Q1 as [_ Qd Qn Qr Qo]. constructor; [by rewrite Etab | | done | done |].
    + rewrite Ehd, Etl, Hhd, Htl.
      apply (dll_ext _ _ _ _ _ _ _ Qd). intros j Hj. rewrite Hn; [done | by apply Qr |]. by apply filter_ne_in in Hj as [? _].
    + intros j Hj Hjq. destruct (decide (j = i)) as [->|Hji]; [|rewrite Hn by done; by apply Qo].
      rewrite A3, A by done. rewrite decide_True by done. by apply Qo.
  - apply (drop_live s1 s3 q _ i l l' ks L1 Hi Hu1); try done; try congruence.
    + intros j Hj Hji. unfold used. by rewrite Hn.
    + intros j Hj. by apply filter_ne_in in Hj as [? ?].
  - destruct Rn1 as [Rc Rr Rq]. constructor.
    + intros j E. rewrite Hcur3 in E. destruct (Rc j E) as [Hj Huj]. split; [done|]. unfold used. rewrite Hn; [done | done |].
      intros ->. apply Hc. rewrite <- (rl_cur _ _ R1). done.
    + intros j Hj. destruct (decide (j = i)) as [->|Hji]; [rewrite A3, A by done; by rewrite decide_True|]. rewrite Hn, Hcur3 by done. by apply Rr.
    + intros j Hj. destruct (decide (j = i)) as [->|Hji]; [|rewrite Hn by done; by apply Rq].
      rewrite A3, A by done. rewrite decide_True by done. apply (Rq i Hi).
Qed.

(** ** Creating a task *)
Context (task_entry_trampoline vmm_kernel_pml4_phys : Z).
Local Abbreviation task_create := (task_create size task_entry_trampoline vmm_kernel_pml4_phys).

Lemma unused_off s q i : inv base size s q -> in_tab i -> used s i = false -> i ∉ q.
Proof. intros [_ L _] Hi Hu Hin. rewrite (l_queued _ _ _ _ L i Hi Hin) in Hu. done. Qed.

(** A change of a slot that is not on the queue, and not running before or after. *)
Lemma slot_run s s' i : run_ok s -> in_tab i -> (forall j, in_tab j -> j <> i -> task_at s' j = task_at s j) ->
  used s i = false -> state (task_at s' i) <> TASK_STATE_RUNNING -> 0 <= quantum_remaining (task_at s' i) <= SCHED_DEFAULT_QUANTUM ->
  current_task s' = current_task s -> run_ok s'.
Proof.
  intros [Rc Rr Rq] Hi Hj Hu Hs' Hq' Ec. constructor.
  - intros j E. rewrite Ec in E. destruct (Rc j E) as [Ht Huj]. split; [done|]. unfold used. rewrite Hj; [done | done |]. intros ->. congruence.
  - intros j Ht Er. destruct (decide (j = i)) as [->|Hne]; [done|]. rewrite Hj in Er by done. rewrite Ec. by apply Rr.
  - intros j Ht. destruct (decide (j = i)) as [->|Hne]; [done|]. rewrite Hj by done. by apply Rq.
Qed.

Lemma slot_queue s s' q i : queue_ok s q -> in_tab i -> i ∉ q -> zlen (task_table s') = TASK_MAX_COUNT ->
  (forall j, in_tab j -> j <> i -> task_at s' j = task_at s j) -> next (task_at s' i) = None ->
  run_queue_head s' = run_queue_head s -> run_queue_tail s' = run_queue_tail s -> queue_ok s' q.
Proof.
  intros [Qt Qd Qn Qr Qo] Hi Hq Ht Hj Hn Eh Et. constructor; try done.
  - rewrite Eh, Et. apply (dll_ext _ _ _ _ _ _ _ Qd). intros j Hin. rewrite Hj; [done | by apply Qr | by intros ->].
  - intros j Ht' Hjq. destruct (decide (j = i)) as [->|]; [done|]. rewrite Hj by done. by apply Qo.
Qed.

(** The three ways it ends, field by field. *)
Record slot_change (s s' : kernel) (i : Z) (t : task) (h : kheap) (n : Z) : Prop := {
  sc_len : zlen (task_table s') = TASK_MAX_COUNT;
  sc_at : task_at s' i = t;
  sc_other j : in_tab j -> j <> i -> task_at s' j = task_at s j;
  sc_heap : heap s' = h; sc_count : task_active_count s' = n; sc_npid : next_pid s' = u32 (next_pid s + 1);
  sc_head : run_queue_head s' = run_queue_head s; sc_tail : run_queue_tail s' = run_queue_tail s;
  sc_cur : current_task s' = current_task s; sc_idle : idle_task s' = idle_task s; sc_glob : globals s' = globals s }.

Lemma create_shape s nm entry arg prio : zlen (task_table s) = TASK_MAX_COUNT ->
  match table_find unused s with
  | None => task_create nm entry arg prio s = (None, s)
  | Some i => in_tab i -> exists pp session, let t := new_task (next_pid s) pp nm prio session (task_at s i) in
      match kalloc size TASK_KERNEL_STACK_SIZE (heap s) with
      | (None, h) => exists s', task_create nm entry arg prio s = (None, s') /\
          slot_change s s' i (set_state TASK_STATE_UNUSED (set_stacks None (user_stack t) t)) h (task_active_count s)
      | (Some ks, h) => exists s', task_create nm entry arg prio s = (Some i, s') /\
          slot_change s s' i (start_task task_entry_trampoline vmm_kernel_pml4_phys ks entry arg t h).1
            (start_task task_entry_trampoline vmm_kernel_pml4_phys ks entry arg t h).2 (u32 (task_active_count s + 1))
      end
  end.
Proof.
  intros Hl. unfold Sched.task_create, task_alloc. destruct (table_find unused s) as [i|]; [|done]. intros Hi.
  remember (set_next_pid (u32 (next_pid s + 1)) s) as s1 eqn:E1.
  exists (match current_task s1 with Some c => pid (task_at s1 c) | None => 0 end), (match current_task s1 with Some c => active_session (task_at s1 c) | None => 0 end).
  remember (match current_task s1 with Some c => pid (task_at s1 c) | None => 0 end) as pp eqn:Epp. clear Epp.
  remember (match current_task s1 with Some c => active_session (task_at s1 c) | None => 0 end) as session eqn:Ese. clear Ese. cbv zeta.
  assert (A1 : forall j, task_at s1 j = task_at s j) by (intros j; by rewrite E1). 
  assert (T1 : zlen (task_table s1) = TASK_MAX_COUNT) by (by rewrite E1).
  remember (new_task (next_pid s) pp nm prio session (task_at s i)) as t eqn:Et.
  assert (Esz : kernel_stack_size t = TASK_KERNEL_STACK_SIZE) by (by rewrite Et).
  remember (upd i (new_task (next_pid s) pp nm prio session) s1) as s2 eqn:E2.
  assert (A2 : forall j, in_tab j -> task_at s2 j = if decide (j = i) then t else task_at s j).
  { intros j Hj. rewrite E2, task_at_upd by done. rewrite !A1, Et. done. }
  assert (T2 : zlen (task_table s2) = TASK_MAX_COUNT) by (by rewrite E2, table_upd).
  rewrite (A2 i Hi), decide_True, Esz by done. assert (Eh : heap s2 = heap s) by (by rewrite E2, E1). rewrite Eh.
  assert (G : next_pid s2 = u32 (next_pid s + 1) /\ run_queue_head s2 = run_queue_head s /\ run_queue_tail s2 = run_queue_tail s /\ current_task s2 = current_task s /\
    idle_task s2 = idle_task s /\ globals s2 = globals s /\ task_active_count s2 = task_active_count s) by (by rewrite E2, E1).
  clear E1 E2 Eh Et. destruct G as (G1 & G2 & G3 & G4 & G5 & G6 & G7).
  destruct (kalloc size TASK_KERNEL_STACK_SIZE (heap s)) as [[ks|] h].
  - assert (A3 : task_at (set_heap h s2) i = t) by (change (task_at s2 i = t); by rewrite A2, decide_True by done). rewrite A3.
    change (heap (set_heap h s2)) with h. destruct (start_task task_entry_trampoline vmm_kernel_pml4_phys ks entry arg t h) as [t2 h2]. cbn [fst snd].
    eexists. split; [reflexivity|]. assert (A4 : forall v w x j, task_at (set_active_count v (set_heap w x)) j = task_at x j) by done.
    constructor; try done.
    + by cbn [task_table set_active_count set_heap upd set_tasks]; rewrite zlen_aset.
    + rewrite A4, task_at_upd by done. by rewrite decide_True.
    + intros j Hj Hne. rewrite A4, task_at_upd by done. rewrite decide_False by done. change (task_at s2 j = task_at s j). by rewrite A2, decide_False by done.
    + cbn [task_active_count set_active_count set_heap upd set_tasks]. by rewrite G7.
  - eexists. split; [reflexivity|]. constructor; try done.
    + by cbn [task_table set_heap upd set_tasks]; rewrite zlen_aset.
    + rewrite task_at_upd by done. rewrite decide_True by done. change (task_at (set_heap h s2) i) with (task_at s2 i). by rewrite A2, decide_True by done.
    + intros j Hj Hne. rewrite task_at_upd by done. rewrite decide_False by done. change (task_at s2 j = task_at s j). by rewrite A2, decide_False by done.
Qed.

Lemma store_heap_ok h (l : list kblock) a v : heap_ok base size h l -> heap_ok base size (store_ptr h a v) l.
Proof. intros [? ? ? ?]. by constructor. Qed.

Lemma start_heap h (l : list kblock) ks entry arg t : heap_ok base size h l -> heap_ok base size (start_task task_entry_trampoline vmm_kernel_pml4_phys ks entry arg t h).2 l.
Proof. intros H. unfold start_task. cbn [snd]. by repeat apply store_heap_ok. Qed.

Lemma create_ok s q nm entry arg prio : inv base size s q -> next_pid s + 1 < 2 ^ 32 ->
  let '(r, s') := task_create nm entry arg prio s in
  inv base size s' q /\ globals s' = globals s /\ current_task s' = current_task s /\ idle_task s' = idle_task s /\
  (forall j, in_tab j -> used s j = true -> task_at s' j = task_at s j) /\
  match r with
  | Some i => in_tab i /\ used s i = false /\ i ∉ q /\ state (task_at s' i) = TASK_STATE_READY /\ pid (task_at s' i) = next_pid s
  | None => True
  end.
Proof.
  intros I Hnp. pose proof I as [Q L R]. pose proof (create_shape s nm entry arg prio (q_table _ _ Q)) as Hs2. pose proof (table_find_spec unused s) as Hf.
  destruct (table_find unused s) as [i|]; [|by rewrite Hs2]. destruct Hf as [Hi Hun].
  destruct (Hs2 Hi) as (pp & session & Hk). cbv zeta in Hk. clear Hs2.
  assert (Hu : used s i = false) by (unfold used; by rewrite Hun). pose proof (unused_off s q i I Hi Hu) as Hq.
  destruct (l_heap _ _ _ _ L) as (l & Hh & Hst). pose proof (l_npid _ _ _ _ L) as Hn0.
  pose proof (kalloc_spec base size Hb Hs He TASK_KERNEL_STACK_SIZE l (heap s) Hh ltac:(unfold TASK_KERNEL_STACK_SIZE; lia)) as Hka.
  remember (new_task (next_pid s) pp nm prio session (task_at s i)) as t eqn:Et. 
  destruct (fit base (align_size TASK_KERNEL_STACK_SIZE) l) as [[ks l']|] eqn:Ef.
  - destruct Hka as (h & got & Eka & Hh' & Hin & Hg & Hiff & _). rewrite Eka in Hk. destruct Hk as (s' & -> & C).
    pose proof (start_heap h l' ks entry arg t Hh') as Hh2. destruct C as [C1 C2 C3 C4 C5 C6 C7 C8 C9 C10 C11].
    assert (Hu' : used s' i = true) by (unfold used; by rewrite C2). rewrite u32_small in C6 by lia.
    assert (Hcnt : 0 <= task_active_count s < 64).
    { rewrite (l_count _ _ _ _ L). split; [apply zlen_nonneg|]. unfold live_tasks, zlen.
      pose proof (length_filter_lt (fun j => used s j = true) (seqZ 0 TASK_MAX_COUNT) i) as Hlt. rewrite length_seqZ in Hlt. unfold TASK_MAX_COUNT in *.
      apply inj_lt in Hlt; [lia | apply elem_of_seqZ; unfold in_tab, TASK_MAX_COUNT in Hi; lia | by rewrite Hu]. }
    rewrite u32_small in C5 by lia.
    split; [|split_and!; try done; [intros j Hj Huj; apply C3; congruence | by rewrite C2 | by rewrite C2, Et]]. constructor.
    + apply (slot_queue s s' q i); try done. by rewrite C2, Et.
    + apply (add_live s s' q i l l' ks got L Hi Hu Hh Hst); try done; try congruence.
      * intros j Hj Hji. unfold used. by rewrite C3.
      * by rewrite C2, Et.
      * by rewrite C2.
      * by rewrite C2.
      * intros y. by apply (fit_fresh _ _ _ _ _ y (laid_sizes _ _ _ _ _ (hk_laid _ _ _ _ Hh)) Ef).
      * intros p y Hpy. apply Hiff. by right.
    + apply (slot_run s s' i R Hi C3 Hu); [by rewrite C2 | | done].
      assert (quantum_remaining (task_at s' i) = SCHED_DEFAULT_QUANTUM) as -> by (by rewrite C2, Et). done.
  - rewrite Hka in Hk. destruct Hk as (s' & -> & C). destruct C as [C1 C2 C3 C4 C5 C6 C7 C8 C9 C10 C11].
    assert (Hu' : used s' i = false) by (unfold used; by rewrite C2). rewrite u32_small in C6 by lia.
    split; [|split_and!; try done; intros j Hj Huj; apply C3; congruence]. constructor.
    + apply (slot_queue s s' q i); try done. by rewrite C2, Et.
    + apply (alike_live base size s s' q q); [|intros j Hj Hin; by apply (l_queued _ _ _ _ L) | done]. constructor; try done.
      * intros j Hj. destruct (decide (j = i)) as [->|]; [congruence|]. unfold used. by rewrite C3.
      * intros j Hj Huj. rewrite C3; [done | done | congruence].
      * lia.
      * intros l2 [? ? ? ?]. rewrite C4. by constructor.
    + apply (slot_run s s' i R Hi C3 Hu); [by rewrite C2 | | done].
      assert (quantum_remaining (task_at s' i) = SCHED_DEFAULT_QUANTUM) as -> by (by rewrite C2, Et). done.
Qed.
End tasks.

(** ** The timer tick *)
Section tick.
Context (base size : Z) (Hb : 0 <= base) (Hs : kheader_size <= size) (He : base + size < 2 ^ 64) (resume_rip : Z).
Implicit Types (s : kernel) (q l : list Z) (i j : Z).

(** The idle task never ends. *)
Definition ended (t : task) : bool := bool_decide (state t = TASK_STATE_ZOMBIE) || bool_decide (state t = TASK_STATE_DEAD).
Definition idle_alive s : Prop := forall i, idle_task s = Some i -> ended (task_at s i) = false.
Definition reapable s i : bool := ended (task_at s i) && negb (bool_decide (current_task s = Some i)).

Lemma inv_set_state s q i v : inv base size s q -> in_tab i -> used s i = true -> v <> TASK_STATE_UNUSED ->
  (v = TASK_STATE_RUNNING -> current_task s = Some i) -> inv base size (upd i (set_state v) s) q.
Proof.
  intros I Hi Hu Hv Hr. apply inv_upd; try done.
  - apply unused_core; [done | by apply used_unused].
  - apply (r_quantum _ (i_run _ _ _ _ I) i Hi).
Qed.

(** Updates of fields the invariant does not mention. *)
Lemma inv_minor s q i (f : task -> task) : inv base size s q -> in_tab i -> (forall t, core (f t) = core t) -> (forall t, state (f t) = state t) ->
  (forall t, quantum_remaining (f t) = quantum_remaining t) -> inv base size (upd i f s) q.
Proof.
  intros I Hi Hc Hst Hq. apply inv_upd; try done.
  - rewrite Hst. by apply (r_run _ (i_run _ _ _ _ I)).
  - rewrite Hq. apply (r_quantum _ (i_run _ _ _ _ I) i Hi).
Qed.

Lemma inv_bump s q f : inv base size s q -> inv base size (bump f s) q.
Proof. by apply inv_globals. Qed.

Lemma state_used s i v : state (task_at s i) = v -> v <> TASK_STATE_UNUSED -> used s i = true.
Proof. intros E Hv. apply used_iff. congruence. Qed.

(** What a waking walk does to each task. *)
Definition woken (n : Z) (t : task) : task :=
  if bool_decide (state t = TASK_STATE_SLEEPING) && (wake_tick t <=? n) then set_wake_tick 0 (set_state TASK_STATE_READY t) else t.

Lemma wake_sleeper_ok s q i : inv base size s q -> in_tab i ->
  inv base size (wake_sleeper i s) q /\ globals (wake_sleeper i s) = globals s /\ current_task (wake_sleeper i s) = current_task s /\
  idle_task (wake_sleeper i s) = idle_task s /\
  forall j, in_tab j -> task_at (wake_sleeper i s) j = if decide (j = i) then woken (total_ticks (stats s)) (task_at s i) else task_at s j.
Proof.
  intros I Hi. pose proof (inv_table _ _ _ _ I) as Ht. unfold wake_sleeper, woken.
  destruct (bool_decide _ && _) eqn:E; [|split; [done|]; split_and!; try done; intros j Hj; by destruct (decide (j = i)) as [->|]].
  bools. match goal with H : bool_decide _ = true |- _ => apply bool_decide_eq_true in H; rename H into Est end.
  pose proof (inv_set_state s q i TASK_STATE_READY I Hi (state_used s i _ Est ltac:(done)) ltac:(done) ltac:(done)) as I1.
  pose proof (inv_minor _ q i (set_wake_tick 0) I1 Hi ltac:(done) ltac:(done) ltac:(done)) as I2.
  assert (A : forall j, in_tab j -> task_at (upd i (set_wake_tick 0) (upd i (set_state TASK_STATE_READY) s)) j =
    if decide (j = i) then set_wake_tick 0 (set_state TASK_STATE_READY (task_at s i)) else task_at s j).
  { intros j Hj. rewrite !task_at_upd by (rewrite ?table_upd; done). rewrite !(decide_True (P := i = i)) by done. by destruct (decide (j = i)). }
  destruct (0 <? _); [|done]. split; [by apply inv_bump | done].
Qed.

Lemma reap_spec (f : Z -> bool) l : forall m s fuel, inv base size s (m ++ l) -> idle_alive s -> (length l <= fuel)%nat ->
  (forall j, j ∈ l -> reapable s j = f j) ->
  let s' := reap_loop size fuel (head l) s in
  inv base size s' (m ++ base.filter (fun j => f j = false) l) /\ globals s' = globals s /\ current_task s' = current_task s /\
  idle_task s' = idle_task s /\ forall j, in_tab j -> ~ (j ∈ l /\ f j = true) -> nolinks (task_at s' j) = nolinks (task_at s j).
Proof.
  induction l as [|i l IH]; intros m s fuel I Hid Hf Hr; cbv zeta; [destruct fuel; by rewrite app_nil_r in *|].
  destruct fuel as [|fuel]; [cbn in Hf; lia|]. cbn [head reap_loop]. pose proof (i_queue _ _ _ _ I) as Q.
  rewrite (next_in s _ m i l Q eq_refl). change (_ && _) with (reapable s i). rewrite (Hr i) by left.
  assert (Hi : in_tab i) by (apply (q_range _ _ Q), elem_of_app; right; left). pose proof (nodup_mid m i l (q_nodup _ _ Q)) as (Hm & Hl & _).
  rewrite filter_cons. destruct (f i) eqn:Ef.
  - rewrite decide_False by done. pose proof (Hr i ltac:(left)) as Er. rewrite Ef in Er. unfold reapable in Er. bools.
    match goal with H : bool_decide _ = false |- _ => apply bool_decide_eq_false in H; rename H into Hcur end.
    assert (Hidl : idle_task s <> Some i).
    { intros E. rewrite (Hid i E) in *. done. }
    destruct (kill_ok base size Hb Hs He s (m ++ i :: l) i I Hi (l_queued _ _ _ _ (i_live _ _ _ _ I) i Hi ltac:(apply elem_of_app; right; left)) Hcur Hidl)
      as (s1 & Ek & I1 & Hu1 & Hg1 & Hc1 & Hi1 & Hn1). rewrite Ek. cbn [snd].
    assert (Efil : base.filter (fun j => j <> i) (m ++ i :: l) = m ++ l).
    { rewrite filter_app, filter_cons, decide_False by naive_solver. by rewrite (filter_ne i m), (filter_ne i l), !decide_False by done. }
    rewrite Efil in I1. assert (Hst : forall j, j ∈ l -> state (task_at s1 j) = state (task_at s j)).
    { intros j Hj. apply (nolinks_fields _ _ (Hn1 j ltac:(apply (q_range _ _ Q), elem_of_app; right; by right) ltac:(by intros ->))). }
    destruct (IH m s1 fuel I1) as (I2 & Hg2 & Hc2 & Hi2 & Hn2).
    + intros k E. rewrite Hi1 in E. assert (Hki : k <> i) by congruence.
      unfold ended.
      destruct (nolinks_fields _ _ (Hn1 k (proj1 (l_idle _ _ _ _ (i_live _ _ _ _ I) k E)) Hki)) as (_ & _ & _ & -> & _). by apply Hid.
    + cbn in Hf. lia.
    + intros j Hj. rewrite <- (Hr j) by by right. unfold reapable, ended. by rewrite Hst, Hc1.
    + split; [done|]. split_and!; try congruence. intros j Hj Hnj. rewrite Hn2; [apply Hn1; [done|] | done |].
      * intros ->. apply Hnj. split; [left | done].
      * intros [? ?]. apply Hnj. split; [by right | done].
  - rewrite decide_True by done. destruct (IH (m ++ [i]) s fuel) as (I2 & Hg2 & Hc2 & Hi2 & Hn2); [by rewrite <- app_assoc | done | cbn in Hf; lia | intros j Hj; apply Hr; by right |].
    rewrite <- app_assoc in I2. split; [done|]. split_and!; try done. intros j Hj Hnj. apply Hn2; [done|]. intros [? ?]. apply Hnj. split; [by right | done].
Qed.

Lemma wake_walk l : forall m s fuel, inv base size s (m ++ l) -> (length l <= fuel)%nat ->
  let s' := for_tasks fuel (head l) wake_sleeper s in
  inv base size s' (m ++ l) /\ globals s' = globals s /\ current_task s' = current_task s /\ idle_task s' = idle_task s /\
  forall j, in_tab j -> task_at s' j = if decide (j ∈ l) then woken (total_ticks (stats s)) (task_at s j) else task_at s j.
Proof.
  induction l as [|i l IH]; intros m s fuel I Hf; cbv zeta.
  { destruct fuel; split_and!; try done; intros j Hj; rewrite decide_False by set_solver; done. }
  destruct fuel as [|fuel]; [cbn in Hf; lia|]. cbn [head for_tasks]. pose proof (i_queue _ _ _ _ I) as Q.
  assert (Hi : in_tab i) by (apply (q_range _ _ Q), elem_of_app; right; left). pose proof (nodup_mid m i l (q_nodup _ _ Q)) as (Hm & Hl & _).
  destruct (wake_sleeper_ok s _ i I Hi) as (I1 & G1 & C1 & D1 & A1).
  rewrite (next_in _ _ m i l (i_queue _ _ _ _ I1) eq_refl).
  destruct (IH (m ++ [i]) (wake_sleeper i s) fuel) as (I2 & G2 & C2 & D2 & A2); [by rewrite <- app_assoc | cbn in Hf; lia|].
  rewrite <- app_assoc in I2. split; [done|]. split_and!; try congruence. intros j Hj. rewrite A2, A1 by done.
  assert (total_ticks (stats (wake_sleeper i s)) = total_ticks (stats s)) as -> by (injection G1; congruence).
  destruct (decide (j = i)) as [->|Hji].
  - rewrite decide_False by done. rewrite decide_True by left. done.
  - destruct (decide (j ∈ l)) as [Hin|Hin]; [by rewrite decide_True by by right|].
    rewrite decide_False; [done|]. intros Hin2. apply elem_of_cons in Hin2 as [?|?]; done.
Qed.

(** The part of a tick before the quantum is looked at. *)
Definition tick_prepare (s : kernel) : kernel :=
  let s := bump count_tick s in
  let s := for_tasks queue_fuel (run_queue_head s) wake_sleeper s in
  let s := reap_loop size queue_fuel (run_queue_head s) s in
  bump (set_runnable (runnable_loop queue_fuel (run_queue_head s) 0 s)) s.

Definition tick_finish (s : kernel) : kernel :=
  match current_policy s with
  | SCHED_POLICY_COOPERATIVE => s
  | _ =>
      match task_current s with
      | Some c =>
          if bool_decide (state (task_at s c) = TASK_STATE_RUNNING) && negb (bool_decide (idle_task s = Some c))
          then tick_quantum resume_rip c s else schedule resume_rip s
      | None => schedule resume_rip s
      end
  end.

Lemma bump_facts f s : task_table (bump f s) = task_table s /\ current_task (bump f s) = current_task s /\ idle_task (bump f s) = idle_task s /\
  current_policy (bump f s) = current_policy s /\ preempt_disable_count (bump f s) = preempt_disable_count s /\
  sched_running (bump f s) = sched_running s /\ run_queue_head (bump f s) = run_queue_head s.
Proof. done. Qed.

Lemma task_at_bump f s i : task_at (bump f s) i = task_at s i.
Proof. unfold task_at. by destruct (bump_facts f s) as (-> & _). Qed.

(** Everything but the tick counter. *)
Definition policy_of (s : kernel) := (current_policy s, sched_running s, preempt_disable_count s).

Lemma globals_policy s s' : globals s' = globals s -> policy_of s' = policy_of s /\ total_ticks (stats s') = total_ticks (stats s).
Proof. unfold globals, policy_of. intros [=]. split; congruence. Qed.

Lemma wake_phase s q : inv base size s q ->
  let n := u64 (total_ticks (stats s) + 1) in
  let s' := for_tasks queue_fuel (run_queue_head (bump count_tick s)) wake_sleeper (bump count_tick s) in
  inv base size s' q /\ policy_of s' = policy_of s /\ total_ticks (stats s') = n /\ current_task s' = current_task s /\ idle_task s' = idle_task s /\
  forall j, in_tab j -> task_at s' j = if decide (j ∈ q) then woken n (task_at s j) else task_at s j.
Proof.
  intros I. cbv zeta. pose proof (inv_bump s q count_tick I) as I1. pose proof (i_queue _ _ _ _ I1) as Q.
  rewrite (head_in_queue _ q Q). destruct (wake_walk q [] (bump count_tick s) queue_fuel I1 (queue_length _ _ Q)) as (I2 & G & C & D & A).
  change ([] ++ q) with q in I2. set (s' := for_tasks _ _ _ _) in *. split; [done|].
  assert (Gp : policy_of s' = policy_of s /\ total_ticks (stats s') = u64 (total_ticks (stats s) + 1)).
  { injection G as G1 G2 G3 G4. split; [|done]. unfold policy_of. rewrite G1, G2, G3. done. }
  destruct Gp as [? ?]. by split_and!.
Qed.

Definition over (s : kernel) (j : Z) : bool := ended (task_at s j) && negb (bool_decide (current_task s = Some j)).
Definition survivors (s : kernel) (q : list Z) : list Z := base.filter (fun j => over s j = false) q.

(** The state [s'] after the preparation of a tick of [s]. *)
Definition prepared (s s' : kernel) (q : list Z) : Prop :=
  inv base size s' (survivors s q) /\ policy_of s' = policy_of s /\ total_ticks (stats s') = u64 (total_ticks (stats s) + 1) /\
  current_task s' = current_task s /\ idle_task s' = idle_task s /\
  forall j, in_tab j -> ~ (j ∈ q /\ over s j = true) ->
    nolinks (task_at s' j) = nolinks (if decide (j ∈ q) then woken (u64 (total_ticks (stats s) + 1)) (task_at s j) else task_at s j).

Lemma prepared_bump s s' q f : (forall st, total_ticks (f st) = total_ticks st) -> prepared s s' q -> prepared s (bump f s') q.
Proof.
  intros Hf (I & P & N & C & D & A). destruct (bump_facts f s') as (B1 & B2 & B3 & B4 & B5 & B6 & _).
  split; [by apply inv_bump|]. unfold policy_of in *. split; [congruence|]. split; [by rewrite <- N; apply Hf|]. split; [congruence|]. split; [congruence|].
  intros j Hj Hn. unfold task_at at 1. rewrite B1. by apply A.
Qed.

Lemma woken_ended n t : ended (woken n t) = ended t.
Proof.
  unfold woken. destruct (bool_decide _ && _) eqn:E; [|done]. apply andb_true_iff in E as [E _]. apply bool_decide_eq_true in E.
  unfold ended. cbn [state set_wake_tick set_state]. by rewrite E.
Qed.

Lemma prepared_reap s s1 q : inv base size s q -> idle_alive s -> inv base size s1 q -> policy_of s1 = policy_of s ->
  total_ticks (stats s1) = u64 (total_ticks (stats s) + 1) -> current_task s1 = current_task s -> idle_task s1 = idle_task s ->
  (forall j, in_tab j -> task_at s1 j = if decide (j ∈ q) then woken (u64 (total_ticks (stats s) + 1)) (task_at s j) else task_at s j) ->
  prepared s (reap_loop size queue_fuel (run_queue_head s1) s1) q.
Proof.
  intros I Hid I1 P1 N1 C1 D1 A1. pose proof (i_queue _ _ _ _ I1) as Q. rewrite (head_in_queue s1 q Q).
  assert (Hw : forall j, in_tab j -> ended (task_at s1 j) = ended (task_at s j)).
  { intros j Hj. rewrite A1 by done. destruct (decide (j ∈ q)); [apply woken_ended | done]. }
  assert (Hr : forall j, j ∈ q -> reapable s1 j = over s j).
  { intros j Hj. unfold reapable, over. by rewrite C1, (Hw j (q_range _ _ Q j Hj)). }
  assert (Hid1 : idle_alive s1).
  { intros i Ei. rewrite D1 in Ei. rewrite Hw by apply (l_idle _ _ _ _ (i_live _ _ _ _ I) i Ei). by apply Hid. }
  destruct (reap_spec (over s) q [] s1 queue_fuel I1 Hid1 (queue_length _ _ Q) Hr) as (I2 & G2 & C2 & D2 & A2).
  apply globals_policy in G2 as [P2 N2]. split; [done|]. split; [congruence|]. split; [congruence|]. split; [congruence|]. split; [congruence|].
  intros j Hj Hn. rewrite A2 by done. by rewrite A1.
Qed.

Lemma prepare_ok s q : inv base size s q -> idle_alive s -> prepared s (tick_prepare s) q.
Proof.
  intros I Hid. destruct (wake_phase s q I) as (I1 & P1 & N1 & C1 & D1 & A1).
  unfold tick_prepare. cbv zeta. apply prepared_bump; [done|]. exact (prepared_reap s _ q I Hid I1 P1 N1 C1 D1 A1).
Qed.
End tick.

(** ** Every operation is a step *)
Section steps.
Context (base size : Z) (Hb : 0 <= base) (Hs : kheader_size <= size) (He : base + size < 2 ^ 64).
Context (task_entry_trampoline resume_rip vmm_kernel_pml4_phys : Z).
Implicit Types (s : kernel) (q l : list Z) (i j : Z).

Definition good s q : Prop := inv base size s q /\ idle_alive s.

Lemma schedule_ended s q j : inv base size s q -> in_tab j -> ended (task_at s j) = false -> ended (task_at (schedule resume_rip s) j) = false.
Proof.
  intros I Hj He0. pose proof I as [Q L [Rc _ _]]. destruct (scheduler_pick_next_for_current (current_task s) s) as [n|] eqn:Ep.
  2: { rewrite schedule_none by auto. done. }
  destruct (decide (current_task s = Some n)) as [Ec|Ec]; [rewrite schedule_none by (right; congruence); done|].
  destruct (pick_used base size s q n I Ep) as [Hn Hu].
  destruct (schedule_switch resume_rip s n (q_table _ _ Q) Hn (fun c Hc => proj1 (Rc c Hc)) Ep Ec) as (Hat & _). rewrite Hat by done.
  destruct (switched_fields resume_rip s (current_task s) n j) as (_ & _ & _ & _ & E). unfold ended in *. rewrite E.
  destruct (decide (j = n)); [done|]. by destruct (bool_decide (current_task s = Some j /\ _)).
Qed.

Lemma good_schedule s q : good s q -> good (schedule resume_rip s) q.
Proof.
  intros [I Hi]. destruct (schedule_keeps base size resume_rip s q I) as (K & I' & _). split; [done|].
  intros i E. rewrite (k_idle _ _ K) in E. apply (schedule_ended s q); [done | apply (l_idle _ _ _ _ (i_live _ _ _ _ I) i E) | by apply Hi].
Qed.

(** Updates of one task. *)
Lemma good_state s q i v : good s q -> in_tab i -> used s i = true -> v <> TASK_STATE_UNUSED ->
  (v = TASK_STATE_RUNNING -> current_task s = Some i) -> (idle_task s = Some i -> v <> TASK_STATE_ZOMBIE /\ v <> TASK_STATE_DEAD) ->
  good (upd i (set_state v) s) q.
Proof.
  intros [I Hid] Hi Hu Hv Hr Hz. split; [by apply inv_set_state|]. intros k E. change (idle_task s = Some k) in E.
  pose proof (proj1 (l_idle _ _ _ _ (i_live _ _ _ _ I) k E)) as Hk. rewrite task_at_upd; [|apply (inv_table _ _ _ _ I) | done | done].
  destruct (decide (k = i)) as [->|]; [|by apply Hid]. destruct (Hz E) as [H1 H2]. unfold ended. cbn [state set_state].
  by rewrite !bool_decide_false.
Qed.

Lemma good_minor s q i (f : task -> task) : good s q -> in_tab i -> (forall t, core (f t) = core t) -> (forall t, state (f t) = state t) ->
  (forall t, quantum_remaining (f t) = quantum_remaining t) -> good (upd i f s) q.
Proof.
  intros [I Hid] Hi Hc Hst Hq. split; [by apply inv_minor|]. intros k E. change (idle_task s = Some k) in E.
  pose proof (proj1 (l_idle _ _ _ _ (i_live _ _ _ _ I) k E)) as Hk. rewrite task_at_upd; [|apply (inv_table _ _ _ _ I) | done | done].
  destruct (decide (k = i)) as [->|]; [|by apply Hid]. unfold ended. rewrite Hst. by apply Hid.
Qed.

Lemma good_globals s s' q : same_tasks s s' -> current_task s' = current_task s -> good s q -> good s' q.
Proof.
  intros S E [I Hid]. split; [by apply (inv_globals base size s)|]. destruct S as (Et & _ & _ & Ei & _). intros k Hk. rewrite Ei in Hk.
  unfold task_at. rewrite Et. by apply Hid.
Qed.

Lemma good_quantum s q i v : good s q -> in_tab i -> 0 <= v <= SCHED_DEFAULT_QUANTUM -> good (upd i (set_quantum v) s) q.
Proof.
  intros [I Hid] Hi Hv. split.
  - apply inv_upd; try done. apply (r_run _ (i_run _ _ _ _ I) i Hi).
  - intros k E. change (idle_task s = Some k) in E. pose proof (proj1 (l_idle _ _ _ _ (i_live _ _ _ _ I) k E)) as Hk.
    rewrite task_at_upd; [|apply (inv_table _ _ _ _ I) | done | done]. destruct (decide (k = i)) as [->|]; by apply Hid.
Qed.

Lemma cur_used s q c : good s q -> current_task s = Some c -> in_tab c /\ used s c = true.
Proof. intros [[_ _ R] _]. apply R. Qed.

Lemma good_yield s q : good s q -> good (scheduler_yield resume_rip s) q.
Proof. intros G. unfold scheduler_yield. destruct (negb _); [done | by apply good_schedule]. Qed.

Lemma good_block_current s q ch : good s q -> good (scheduler_block_current resume_rip ch s) q.
Proof.
  intros G. unfold scheduler_block_current, task_current. destruct (current_task s) as [c|] eqn:E; [|done]. destruct (cur_used s q c G E) as [Hc Hu].
  apply good_schedule, (good_globals (upd c (set_wait_channel ch) (upd c (set_state TASK_STATE_BLOCKED) s))); [done | done |].
  apply good_minor; [|done..]. by apply good_state.
Qed.

Lemma good_sleep_current s q n : good s q -> good (scheduler_sleep_current resume_rip n s) q.
Proof.
  intros G. unfold scheduler_sleep_current, task_current. destruct (current_task s) as [c|] eqn:E; [|done]. destruct (cur_used s q c G E) as [Hc Hu].
  eapply good_schedule, (good_globals (upd c (set_wake_tick _) (upd c (set_state TASK_STATE_SLEEPING) s))); [done | done |].
  apply good_minor; [|done..]. by apply good_state.
Qed.

Lemma good_task_block s q i ch : good s q -> in_tab i -> used s i = true -> good (task_block (Some i) ch s) q.
Proof.
  intros G Hi Hu. unfold task_block. pose proof (good_minor s q i (set_wait_channel ch) G Hi ltac:(done) ltac:(done) ltac:(done)) as G1.
  apply good_state; try done. unfold used. rewrite task_at_upd; [by rewrite decide_True | apply (inv_table _ _ _ _ (proj1 G)) | done | done].
Qed.

Lemma good_wake s q i : good s q -> in_tab i -> good (task_wake (Some i) s) q.
Proof.
  intros G Hi. unfold task_wake. destruct (_ || _) eqn:E; [|done]. apply good_state; try done.
  apply orb_true_iff in E as [E|E]; apply bool_decide_eq_true in E; by apply (state_used s i _ E).
Qed.

Definition unblock_one (ch i : Z) (s : kernel) : kernel :=
  if bool_decide (state (task_at s i) = TASK_STATE_BLOCKED) && (wait_channel (task_at s i) =? ch)
  then upd i (set_wait_channel 0) (upd i (set_state TASK_STATE_READY) s) else s.

Lemma good_unblock_one s q ch i : good s q -> in_tab i -> good (unblock_one ch i s) q.
Proof.
  intros G Hi. unfold unblock_one. destruct (_ && _) eqn:E; [|done]. apply andb_true_iff in E as [E _]. apply bool_decide_eq_true in E.
  apply good_minor; [|done..]. apply good_state; try done. by apply (state_used s i _ E).
Qed.

Lemma good_unblock_channel s q ch : good s q -> good (task_unblock_channel ch s) q.
Proof.
  intros G. unfold task_unblock_channel. change (good (for_range 0 TASK_MAX_COUNT (unblock_one ch) s) q).
  apply (for_range_ind (fun _ x => good x q)); [done | done |]. intros i x Hi Gx. by apply good_unblock_one.
Qed.

Lemma good_unblock s q ch : good s q -> good (scheduler_unblock ch s) q.
Proof.
  intros G. unfold scheduler_unblock. pose proof (i_queue _ _ _ _ (proj1 G)) as Q. rewrite (head_in_queue s q Q).
  refine (proj1 (for_tasks_spec _ (fun x => good x q) q s q _ G Q [] queue_fuel eq_refl)).
  intros i x Hi Gx Qx. assert (Ht : in_tab i) by by apply (q_range _ _ Q).
  pose proof (good_unblock_one x q ch i Gx Ht) as Gu. unfold unblock_one in Gu. cbv zeta.
  destruct (bool_decide _ && _); [|done]. destruct (0 <? _); (split; [|]).
  - by apply (good_globals (upd i (set_wait_channel 0) (upd i (set_state TASK_STATE_READY) x))).
  - refine (i_queue _ _ _ _ (proj1 (good_globals (upd i (set_wait_channel 0) (upd i (set_state TASK_STATE_READY) x)) _ q _ _ Gu))); done.
  - done.
  - apply (i_queue _ _ _ _ (proj1 Gu)).
Qed.

Lemma good_exit s q code : good s q -> (forall c, current_task s = Some c -> idle_task s <> Some c) -> good (task_exit resume_rip code s) q.
Proof.
  intros G Hid. unfold task_exit, task_yield. apply good_yield. destruct (current_task s) as [c|] eqn:E; [|done].
  destruct (cur_used s q c G E) as [Hc Hu]. pose proof (good_minor s q c (set_exit_code code) G Hc ltac:(done) ltac:(done) ltac:(done)) as G1.
  apply good_state; try done.
  - unfold used. rewrite task_at_upd; [by rewrite decide_True | apply (inv_table _ _ _ _ (proj1 G)) | done | done].
  - intros E2. by apply (Hid c eq_refl) in E2.
Qed.

Lemma good_tick_quantum s q c : good s q -> current_task s = Some c -> good (tick_quantum resume_rip c s) q.
Proof.
  intros G E. destruct (cur_used s q c G E) as [Hc _]. unfold tick_quantum. cbv zeta.
  pose proof (r_quantum _ (i_run _ _ _ _ (proj1 G)) c Hc) as Hq.
  assert (G1 : good (if 0 <? quantum_remaining (task_at s c) then upd c (set_quantum (quantum_remaining (task_at s c) - 1)) s else s) q).
  { destruct (Z.ltb_spec 0 (quantum_remaining (task_at s c))); [|done]. apply good_quantum; [done | done | lia]. }
  destruct (_ =? 0); [|done]. apply good_schedule, good_quantum; [done | done |]. unfold SCHED_DEFAULT_QUANTUM. lia.
Qed.

Lemma good_tick_finish s q : good s q -> good (tick_finish resume_rip s) q.
Proof.
  intros G. unfold tick_finish, task_current. destruct (current_policy s); [| |done].
  all: destruct (current_task s) as [c|] eqn:E; [|by apply good_schedule].
  all: destruct (_ && _); [by apply good_tick_quantum | by apply good_schedule].
Qed.

Lemma prepared_good s s' q : good s q -> prepared base size s s' q -> good s' (survivors s q).
Proof.
  intros [I Hid] (I' & _ & _ & _ & D & A). split; [done|]. intros i Ei. rewrite D in Ei.
  pose proof (proj1 (l_idle _ _ _ _ (i_live _ _ _ _ I) i Ei)) as Hi. unfold ended.
  assert (Hn : ~ (i ∈ q /\ over s i = true)) by (intros [_ Ho]; unfold over in Ho; by rewrite (Hid i Ei) in Ho).
  destruct (nolinks_fields _ _ (A i Hi Hn)) as (_ & _ & _ & -> & _). destruct (decide (i ∈ q)); [|by apply Hid].
  specialize (Hid i Ei). by rewrite <- (woken_ended (u64 (total_ticks (stats s) + 1))) in Hid.
Qed.

Lemma tick_cases s : preempt_disable_count (for_tasks queue_fuel (run_queue_head (bump count_tick s)) wake_sleeper (bump count_tick s)) = preempt_disable_count s ->
  scheduler_tick size resume_rip s =
  if preempt_disable_count s =? 0 then tick_finish resume_rip (tick_prepare size s)
  else for_tasks queue_fuel (run_queue_head (bump count_tick s)) wake_sleeper (bump count_tick s).
Proof. intros H. unfold scheduler_tick, tick_finish, tick_prepare. cbv zeta. rewrite H. by destruct (_ =? 0). Qed.

Lemma policy_preempt s s' : policy_of s' = policy_of s -> preempt_disable_count s' = preempt_disable_count s.
Proof. unfold policy_of. by intros [=]. Qed.

Lemma good_tick s q : good s q -> exists q', good (scheduler_tick size resume_rip s) q'.
Proof.
  intros G. pose proof G as [I Hid]. destruct (wake_phase base size s q I) as (I1 & P1 & N1 & C1 & D1 & A1).
  rewrite (tick_cases s (policy_preempt _ _ P1)). destruct (preempt_disable_count s =? 0).
  - exists (survivors s q). apply good_tick_finish, prepared_good; [done|]. by apply prepare_ok.
  - exists q. split; [done|]. intros i Ei. rewrite D1 in Ei. pose proof (proj1 (l_idle _ _ _ _ (i_live _ _ _ _ I) i Ei)) as Hi.
    rewrite A1 by done. destruct (decide (i ∈ q)); [rewrite woken_ended|]; by apply Hid.
Qed.

Lemma good_kill s q p : good s q -> (forall i, idle_task s = Some i -> pid (task_at s i) <> p) -> exists q', good (task_kill size p s).2 q'.
Proof.
  intros G Hp. pose proof G as [I Hid]. pose proof (table_find_spec (has_pid p) s) as Hf.
  destruct (task_by_pid p s) as [i|] eqn:E; unfold task_by_pid in E; rewrite E in Hf.
  2: { exists q. unfold task_kill, task_by_pid. by rewrite E. }
  destruct Hf as [Hi Hh]. unfold has_pid in Hh. apply andb_true_iff in Hh as [Hu Ep]. apply Z.eqb_eq in Ep. subst p.
  destruct (decide (current_task s = Some i)) as [Ec|Ec].
  - exists q. unfold task_kill, task_by_pid. rewrite E. apply negb_true_iff in Hu. rewrite Hu. by rewrite bool_decide_true.
  - assert (Ei : idle_task s <> Some i) by (intros E2; by apply (Hp i E2)).
    destruct (kill_ok base size Hb Hs He s q i I Hi Hu Ec Ei) as (s' & -> & I' & _ & _ & _ & Hidl & Hn). eexists. split; [exact I'|].
    intros k Ek. cbn [snd] in *. rewrite Hidl in Ek. pose proof (proj1 (l_idle _ _ _ _ (i_live _ _ _ _ I) k Ek)) as Hk.
    unfold ended. destruct (nolinks_fields _ _ (Hn k Hk ltac:(congruence))) as (_ & _ & _ & -> & _). by apply Hid.
Qed.

Lemma good_frame s s' q : good s q -> inv base size s' q -> idle_task s' = idle_task s ->
  (forall j, in_tab j -> used s j = true -> task_at s' j = task_at s j) -> good s' q.
Proof.
  intros [I Hid] I' Ei Hu. split; [done|]. intros k Ek. rewrite Ei in Ek. destruct (l_idle _ _ _ _ (i_live _ _ _ _ I) k Ek) as [Hk Huk].
  rewrite Hu by done. by apply Hid.
Qed.

Local Abbreviation create := (task_create size task_entry_trampoline vmm_kernel_pml4_phys).

Lemma good_create s q nm entry arg prio : good s q -> next_pid s + 1 < 2 ^ 32 -> good (create nm entry arg prio s).2 q.
Proof.
  intros G Hn. pose proof (create_ok base size Hb Hs He task_entry_trampoline vmm_kernel_pml4_phys s q nm entry arg prio (proj1 G) Hn) as H.
  destruct (create nm entry arg prio s) as [r s']. destruct H as (I' & _ & _ & Ei & Hu & _). by apply (good_frame s).
Qed.

Lemma good_add s q i : good s q -> in_tab i -> used s i = true -> i ∉ q -> good (scheduler_add (Some i) s) (q ++ [i]).
Proof.
  intros [[Q L R] Hid] Hi Hu Hq. destruct (add_ok s q i Q Hi Hq) as [Q' Rl]. split; [constructor; [done | |]|].
  - apply (alike_live base size s _ q (q ++ [i]) (relinks_alike base size _ _ (l_npid _ _ _ _ L) Rl)); [|done].
    intros j Hj Hin. apply elem_of_app in Hin as [?|Hin]; [by apply (l_queued _ _ _ _ L)|]. by apply list_elem_of_singleton in Hin as ->.
  - by apply (relinks_run s).
  - intros k Ek. rewrite (rl_idle _ _ Rl) in Ek. pose proof (proj1 (l_idle _ _ _ _ L k Ek)) as Hk. unfold ended.
    destruct (nolinks_fields _ _ (rl_task _ _ Rl k Hk)) as (_ & _ & _ & -> & _). by apply Hid.
Qed.

(** Entering the first task: it becomes the current one. *)
Definition enter (i : Z) (s : kernel) : kernel := task_set_current (Some i) (upd i (set_state TASK_STATE_RUNNING) s).

Lemma good_enter s q i : good s q -> in_tab i -> used s i = true -> current_task s = None -> good (enter i s) q.
Proof.
  intros [[Q L [Rc Rr Rq]] Hid] Hi Hu Hc. pose proof (q_table _ _ Q) as Ht. unfold enter.
  pose proof (keeps_upd s i (set_state TASK_STATE_RUNNING) Ht Hi (unused_core _ TASK_STATE_RUNNING ltac:(done) (used_unused s i Hu))) as K.
  assert (A : forall j, in_tab j -> task_at (task_set_current (Some i) (upd i (set_state TASK_STATE_RUNNING) s)) j =
    if decide (j = i) then set_state TASK_STATE_RUNNING (task_at s i) else task_at s j).
  { intros j Hj. change (task_at (task_set_current ?v ?x) j) with (task_at x j). by rewrite task_at_upd. }
  assert (K2 : keeps s (task_set_current (Some i) (upd i (set_state TASK_STATE_RUNNING) s))).
  { apply (keeps_trans _ _ _ K). by apply same_keeps. }
  split; [constructor; [by apply (keeps_queue s) | by apply (keeps_live base size s) |]|].
  - constructor.
    + intros j [= <-]. split; [done|]. by rewrite (keeps_used s).
    + intros j Hj. rewrite A by done. destruct (decide (j = i)) as [->|]; [done|]. intros Er. rewrite (Rr j Hj Er) in Hc. done.
    + intros j Hj. rewrite A by done. destruct (decide (j = i)) as [->|]; apply (Rq _ ltac:(done)).
  - intros k Ek. change (idle_task s = Some k) in Ek. rewrite A by apply (l_idle _ _ _ _ L k Ek).
    destruct (decide (k = i)); [done | by apply Hid].
Qed.

(** The heap in other hands, within its contract. *)
Lemma good_heap s q h : good s q ->
  (forall l : list kblock, heap_ok base size (heap s) l -> exists l' : list kblock, heap_ok base size h l' /\
     forall j ks z, in_tab j -> used s j = true -> kernel_stack (task_at s j) = Some ks -> In (ks, z) (in_use base l) -> In (ks, z) (in_use base l')) ->
  good (set_heap h s) q.
Proof.
  intros [[Q L R] Hid] Hh. split; [constructor|].
  - destruct Q. by constructor.
  - destruct L as [Lq Li Ln Lp Lj Lc (l & Hl & H) Ls]. constructor; try done. destruct (Hh l Hl) as (l' & Hl' & Hk). exists l'. split; [done|].
    intros i Hi Hu. destruct (H i Hi Hu) as (? & ks & z & Ek & Hz & Hin). split; [done|]. exists ks, z. split_and!; try done.
    by apply (Hk i ks z).
  - destruct R. by constructor.
  - done.
Qed.

(** ** Starting with an idle task *)
Lemma good_idle s q i : good s q -> in_tab i -> used s i = true -> ended (task_at s i) = false -> good (set_idle (Some i) s) q.
Proof.
  intros [[Q [Lq Li Ln Lp Lj Lc Lh Ls] [Rc Rr Rq]] Hid] Hi Hu Hend. split; [constructor|].
  - destruct Q. by constructor.
  - constructor; try done. by intros j [= <-].
  - by constructor.
  - by intros j [= <-].
Qed.

Lemma good_no_idle s q : good s q -> good (set_idle None s) q.
Proof.
  intros [[Q [Lq Li Ln Lp Lj Lc Lh Ls] [Rc Rr Rq]] Hid]. split; [constructor|].
  - destruct Q. by constructor.
  - by constructor.
  - by constructor.
  - done.
Qed.

Lemma good_priority s q i p : good s q -> in_tab i -> good (upd i (set_priority p) s) q.
Proof.
  intros [[Q L R] Hid] Hi. pose proof (q_table _ _ Q) as Ht.
  assert (A : forall j, in_tab j -> task_at (upd i (set_priority p) s) j = if decide (j = i) then set_priority p (task_at s i) else task_at s j)
    by (intros j Hj; by apply task_at_upd).
  assert (Hu : forall j, in_tab j -> used (upd i (set_priority p) s) j = used s j)
    by (intros j Hj; unfold used; rewrite A by done; by destruct (decide (j = i)) as [->|]).
  split; [constructor|].
  - destruct Q as [_ Qd Qn Qr Qo]. constructor; [by rewrite table_upd | | done | done |].
    + apply (dll_ext _ _ _ _ _ _ _ Qd). intros j Hj. rewrite A by by apply Qr. by destruct (decide (j = i)) as [->|].
    + intros j Hj Hq. rewrite A by done. destruct (decide (j = i)) as [->|]; by apply Qo.
  - apply (alike_live base size s _ q q); [|apply (l_queued _ _ _ _ L) | done]. constructor; try done.
    + intros j Hj _. rewrite A by done. by destruct (decide (j = i)) as [->|].
    + pose proof (l_npid _ _ _ _ L). cbn. lia.
  - destruct R as [Rc Rr Rq]. constructor.
    + intros j E. destruct (Rc j E) as [Hj Huj]. split; [done|]. by rewrite Hu.
    + intros j Hj. rewrite A by done. destruct (decide (j = i)) as [->|]; by apply Rr.
    + intros j Hj. rewrite A by done. destruct (decide (j = i)) as [->|]; by apply Rq.
  - intros k Ek. change (idle_task s = Some k) in Ek. rewrite A by apply (l_idle _ _ _ _ L k Ek).
    destruct (decide (k = i)) as [->|]; by apply Hid.
Qed.

Lemma good_launch s q : good s q -> current_task s = None ->
  good (let s := scheduler_set_running true s in match scheduler_pick_next s with Some f => enter f s | None => s end) q.
Proof.
  intros G Hc. cbv zeta. assert (G1 : good (scheduler_set_running true s) q) by by apply (good_globals s).
  assert (C1 : current_task (scheduler_set_running true s) = None) by done. remember (scheduler_set_running true s) as x eqn:Ex. clear Ex.
  destruct (scheduler_pick_next x) as [f|] eqn:Ep; [|done].
  assert (Ep2 : scheduler_pick_next_for_current (current_task x) x = Some f) by (rewrite C1; unfold scheduler_pick_next_for_current; by destruct (current_policy x)).
  destruct (pick_used base size x q f (proj1 G1) Ep2) as [Hf Hu]. by apply good_enter.
Qed.

Lemma good_start s q entry nm : good s q -> current_task s = None -> next_pid s + 1 < 2 ^ 32 ->
  exists q', good (scheduler_start size task_entry_trampoline vmm_kernel_pml4_phys entry nm s) q'.
Proof.
  intros G Hc Hn. pose proof (create_ok base size Hb Hs He task_entry_trampoline vmm_kernel_pml4_phys s q nm entry 0 TASK_PRIORITY_NORMAL (proj1 G) Hn) as H.
  pose proof (good_create s q nm entry 0 TASK_PRIORITY_NORMAL G Hn) as G1. unfold scheduler_start, task_create_kernel.
  destruct (create nm entry 0 TASK_PRIORITY_NORMAL s) as [[i|] s1]; cbn [snd] in *; destruct H as (_ & _ & Hc1 & _ & _ & H); rewrite Hc in Hc1.
  - destruct H as (Hi & _ & Hq & Hst & _). exists (q ++ [i]). apply good_launch; [|unfold scheduler_add; cbn; by destruct (run_queue_tail s1)].
    assert (Hu : used s1 i = true) by by apply (state_used s1 i _ Hst).
    assert (G2 : good (set_idle (Some i) s1) q) by (apply good_idle; [done | done | done | unfold ended; by rewrite Hst]).
    assert (G3 : good (upd i (set_priority TASK_PRIORITY_IDLE) (set_idle (Some i) s1)) q) by by apply good_priority.
    apply good_add; [done | done | | done]. unfold used.
    rewrite task_at_upd; [by rewrite decide_True | apply (inv_table _ _ _ _ (proj1 G2)) | done | done].
  - exists q. apply good_launch; [by apply good_no_idle | done].
Qed.
End steps.
