(* ===== verification/SchedFair.v ===== *)
(** * Progress under the timer

    How the order in which the tasks come up changes with each timer tick: the lemmas
    behind the fairness theorems of [Scheduler].  [turn s q t d]: [d] queued tasks come
    up before [t]. *)
From S2P Require Import Prelude Dll Kheap Sched SchedInv SchedOps.
Local Open Scope capy_scope.

Section order.
Implicit Types (q o a b : list Z) (n t : Z) (c : option Z).

Lemma scan_in q c o n : NoDup q -> scan q c o -> n ∈ o -> n ∈ q /\ c <> Some n.
Proof.
  intros Hnd Hs Hn. destruct c as [c|]; cbn [scan] in Hs; [|by subst].
  destruct Hs as [(l1 & l2 & -> & ->) | [Hc ->]].
  - destruct (nodup_mid l1 c l2 Hnd) as (H1 & H2 & _). split.
    + apply elem_of_app in Hn as [?|?]; apply elem_of_app; [right; by right | by left].
    + intros [= ->]. by apply elem_of_app in Hn as [?|?].
  - split; [done|]. by intros [= ->].
Qed.

Lemma scan_length q c o : scan q c o -> (length o <= length q)%nat.
Proof.
  intros Hs. destruct c; cbn [scan] in Hs; [|by subst]. destruct Hs as [(l1 & l2 & -> & ->) | [_ ->]]; [|done].
  rewrite !length_app. cbn. lia.
Qed.

(** A queue without some tasks, the current one kept. *)
Lemma scan_filter q c o (f : Z -> bool) : (forall i, c = Some i -> f i = false) -> scan q c o ->
  scan (base.filter (fun j => f j = false) q) c (base.filter (fun j => f j = false) o).
Proof.
  intros Hf Hs. destruct c as [c|]; cbn [scan] in *; [|by subst]. destruct Hs as [(l1 & l2 & -> & ->) | [Hc ->]].
  - left. exists (base.filter (fun j => f j = false) l1), (base.filter (fun j => f j = false) l2).
    rewrite !filter_app, filter_cons, decide_True by by apply Hf. done.
  - right. split; [|done]. intros H. by apply list_elem_of_filter in H as [_ ?].
Qed.

(** After [n] is picked, what came up behind it comes up first. *)
Lemma scan_next q c a n b : NoDup q -> scan q c (a ++ n :: b) -> exists r, scan q (Some n) (b ++ r).
Proof.
  intros Hnd Hs. destruct c as [c|]; cbn [scan] in Hs.
  2: { exists a. left. exists a, b. by subst. }
  destruct Hs as [(l1 & l2 & Eq & Eo) | [Hc E]].
  - exists (c :: a). left. symmetry in Eo. apply app_eq_inv in Eo as [(k & -> & Eo)|(k & -> & Eo)].
    + destruct k as [|x k]; cbn in Eo.
      * subst l1. rewrite app_nil_r in *. exists [], (b ++ c :: a). subst q. by rewrite app_nil_r.
      * injection Eo as <- ->. exists (l1 ++ c :: a), k. subst q. split; [by rewrite <- app_assoc | by rewrite <- app_assoc].
    + exists k, (b ++ c :: l2). subst q l1. split; by rewrite <- !app_assoc.
  - exists a. left. exists a, b. by subst.
Qed.

Lemma filter_length_le (f : Z -> bool) a : (length (base.filter (fun j => f j = false) a) <= length a)%nat.
Proof. apply length_filter. Qed.
End order.

Section progress.
Context (base size : Z) (Hb : 0 <= base) (Hs : kheader_size <= size) (He : base + size < 2 ^ 64) (resume_rip : Z).
Implicit Types (s : kernel) (q o a b : list Z) (i j n t : Z) (d : nat).
Local Abbreviation tick := (scheduler_tick size resume_rip).
Local Abbreviation good := (good base size).

Definition turn s q t d : Prop := is_ready s t /\ exists a b, scan q (current_task s) (a ++ t :: b) /\ length a = d.

(** No queued task beats [t]: always under round robin, by priority otherwise. *)
Definition unbeaten s q t : Prop :=
  match current_policy s with
  | SCHED_POLICY_ROUND_ROBIN => True
  | SCHED_POLICY_PRIORITY => forall j, j ∈ q -> prio s j <= prio s t
  | SCHED_POLICY_COOPERATIVE => False
  end.

(** A switch takes [t], or brings it nearer. *)
Lemma switch_progress s q t d : good s q -> turn s q t d -> unbeaten s q t ->
  let s' := schedule resume_rip s in
  current_task s' = Some t \/ exists d', (d' < d)%nat /\ turn s' q t d'.
Proof.
  intros [I _] (Hr & a & b & Hsc & Hd) Hu. cbv zeta. pose proof I as [Q L [Rc _ _]].
  pose proof (pick_spec s q (current_task s) _ Q (fun i Hi => proj1 (Rc i Hi)) Hsc) as P.
  destruct (scheduler_pick_next_for_current (current_task s) s) as [n|] eqn:Ep.
  2: { destruct P as [_ P]. exfalso. apply (P t); [apply elem_of_app; right; left | done]. }
  destruct P as [(a' & b' & Eo & Hn & Hbest) | [_ P]].
  2: { exfalso. apply (P t); [apply elem_of_app; right; left | done]. }
  assert (Hno : n ∈ a ++ t :: b) by (rewrite Eo; apply elem_of_app; right; left).
  destruct (scan_in q _ _ n (q_nodup _ _ Q) Hsc Hno) as [Hnq Hnc].
  assert (Hta : t ∉ a').
  { intros Hin. unfold unbeaten in Hu. destruct (current_policy s); [by apply (Hbest t) | | done].
    destruct Hbest as [H1 _]. specialize (H1 t Hin Hr). specialize (Hu n Hnq). lia. }
  destruct (schedule_switch resume_rip s n (q_table _ _ Q) (q_range _ _ Q n Hnq) (fun c Hc => proj1 (Rc c Hc)) Ep Hnc)
    as (Hat & _ & _ & _ & _ & _ & _ & _ & Hcur & _).
  destruct (decide (n = t)) as [->|Hnt]; [by left|]. right.
  assert (Hb' : exists b1 b2, b' = b1 ++ t :: b2 /\ (length b1 < length a)%nat).
  { apply app_eq_inv in Eo as [(k & Ea & E)|(k & Ea & E)].
    - destruct k as [|x k]; cbn in E; [congruence|]. injection E as <- ->. exists k, b. split; [done|]. rewrite Ea, length_app. cbn. lia.
    - destruct k as [|x k]; cbn in E; [congruence|]. injection E as <- E. exfalso. apply Hta. rewrite Ea. apply elem_of_app. right. left. }
  destruct Hb' as (b1 & b2 & -> & Hlen). exists (length b1). split; [lia|]. split.
  - assert (Htq : t ∈ q /\ current_task s <> Some t) by (apply (scan_in q _ (a ++ t :: b)); [apply Q | done | apply elem_of_app; right; left]).
    destruct Htq as [Htq Htc]. unfold is_ready. rewrite Hat by by apply (q_range _ _ Q).
    destruct (switched_fields resume_rip s (current_task s) n t) as (_ & _ & _ & _ & ->). rewrite decide_False by done.
    by rewrite bool_decide_false by (intros [? _]; done).
  - rewrite Eo in Hsc. destruct (scan_next q _ a' n _ (q_nodup _ _ Q) Hsc) as [r Hr2]. rewrite Hcur.
    exists b1, (b2 ++ r). split; [|done]. by rewrite <- app_assoc in Hr2.
Qed.

(** Only states, links and quanta change in a switch. *)
Lemma schedule_prio s q j : good s q -> in_tab j -> prio (schedule resume_rip s) j = prio s j.
Proof.
  intros [I _] Hj. destruct (schedule_keeps base size resume_rip s q I) as (K & _). unfold prio.
  by destruct (core_same_fields _ _ (k_core _ _ K j Hj)) as (_ & _ & _ & _ & _ & _ & ->).
Qed.

Lemma unbeaten_same s s' q q' t : current_policy s' = current_policy s -> (forall j, j ∈ q' -> j ∈ q) -> t ∈ q ->
  (forall j, j ∈ q -> prio s' j = prio s j) -> unbeaten s q t -> unbeaten s' q' t.
Proof.
  intros Ep Hq Ht Hp. unfold unbeaten. rewrite Ep. destruct (current_policy s); [done | | done].
  intros H j Hj. rewrite !Hp by auto. auto.
Qed.

(** The ticks left before the next switch. *)
Definition slice s : Z := match current_task s with Some c => Z.max 1 (quantum_remaining (task_at s c)) | None => 1 end.

Lemma slice_range s q : good s q -> 1 <= slice s <= 10.
Proof.
  intros [I _]. unfold slice. destruct (current_task s) as [c|] eqn:E; [|lia].
  pose proof (r_quantum _ (i_run _ _ _ _ I) c (proj1 (r_cur _ (i_run _ _ _ _ I) c E))). unfold SCHED_DEFAULT_QUANTUM in *. lia.
Qed.

Lemma turn_in s q t d : good s q -> turn s q t d -> t ∈ q /\ current_task s <> Some t.
Proof.
  intros [I _] (_ & a & b & Hsc & _). apply (scan_in q _ (a ++ t :: b)); [apply (i_queue _ _ _ _ I) | done | apply elem_of_app; right; left].
Qed.

Lemma in_survivors s q j : j ∈ survivors s q <-> over s j = false /\ j ∈ q.
Proof. unfold survivors. by rewrite list_elem_of_filter. Qed.

Lemma prepared_prio s s' q j : prepared base size s s' q -> in_tab j -> over s j = false -> prio s' j = prio s j.
Proof.
  intros (_ & _ & _ & _ & _ & A) Hj Ho. unfold prio. destruct (nolinks_fields _ _ (A j Hj ltac:(intros [_ E]; congruence))) as (_ & _ & _ & _ & _ & -> & _).
  destruct (decide (j ∈ q)); [|done]. unfold woken. by destruct (_ && _).
Qed.

Lemma prepare_progress s s' q t d : good s q -> turn s q t d -> unbeaten s q t -> prepared base size s s' q ->
  unbeaten s' (survivors s q) t /\ slice s' = slice s /\ exists d', (d' <= d)%nat /\ turn s' (survivors s q) t d'.
Proof.
  intros G Ht Hu P. destruct (turn_in s q t d G Ht) as [Htq Htc]. destruct Ht as (Hr & a & b & Hsc & Hd). pose proof G as [I Hid].
  pose proof (q_range _ _ (i_queue _ _ _ _ I)) as Hrng. pose proof P as (I' & Pp & _ & C & D & A).
  assert (Hot : over s t = false) by (unfold over, ended; by rewrite Hr).
  assert (Hcur : forall c, current_task s = Some c -> over s c = false).
  { intros c E. unfold over. rewrite bool_decide_true by done. apply andb_false_r. }
  assert (Epol : current_policy s' = current_policy s) by (unfold policy_of in Pp; congruence).
  split; [|split].
  - apply (unbeaten_same s s' (survivors s q) (survivors s q) t Epol); [done | by apply in_survivors | |].
    + intros j Hj. apply in_survivors in Hj as [Ho Hj]. apply (prepared_prio s s' q j P); [by apply Hrng | done].
    + unfold unbeaten in *. destruct (current_policy s); [done | | done]. intros j Hj. apply in_survivors in Hj as [_ Hj]. by apply Hu.
  - unfold slice. rewrite C. destruct (current_task s) as [c|] eqn:E; [|done].
    destruct (r_cur _ (i_run _ _ _ _ I) c E) as [Hc _]. destruct (nolinks_fields _ _ (A c Hc ltac:(intros [_ E2]; rewrite Hcur in E2; done))) as (_ & _ & _ & _ & -> & _).
    destruct (decide (c ∈ q)); [|done]. unfold woken. by destruct (_ && _).
  - exists (length (base.filter (fun j => over s j = false) a)). split; [pose proof (filter_length_le (over s) a); lia|]. split.
    + unfold is_ready. destruct (nolinks_fields _ _ (A t (Hrng t Htq) ltac:(intros [_ E]; congruence))) as (_ & _ & _ & -> & _).
      rewrite decide_True by done. unfold woken. rewrite Hr. done.
    + exists (base.filter (fun j => over s j = false) a), (base.filter (fun j => over s j = false) b). split; [|done].
      rewrite C. pose proof (scan_filter q _ _ (over s) Hcur Hsc) as H. rewrite filter_app, filter_cons, decide_True in H by done. exact H.
Qed.

(** The last part of a tick under a preemptive policy. *)
Lemma turn_quantum s q t d c v : good s q -> current_task s = Some c -> turn s q t d -> turn (upd c (set_quantum v) s) q t d.
Proof.
  intros G Hc Ht. destruct (turn_in s q t d G Ht) as [Htq Htc]. destruct Ht as (Hr & a & b & Hsc & Hd). split; [|by exists a, b].
  unfold is_ready. rewrite task_at_upd; [| apply (inv_table _ _ _ _ (proj1 G)) | apply (cur_used base size s q c G Hc) | apply (q_range _ _ (i_queue _ _ _ _ (proj1 G)) t Htq)].
  rewrite decide_False by congruence. done.
Qed.

Lemma unbeaten_quantum s q t c v : good s q -> in_tab c -> t ∈ q -> unbeaten s q t -> unbeaten (upd c (set_quantum v) s) q t.
Proof.
  intros G Hc Ht. apply unbeaten_same; try done. intros j Hj. unfold prio.
  rewrite task_at_upd; [| apply (inv_table _ _ _ _ (proj1 G)) | done | apply (q_range _ _ (i_queue _ _ _ _ (proj1 G)) j Hj)].
  by destruct (decide (j = c)) as [->|].
Qed.

Definition nearer s' q t (m : Z) : Prop :=
  current_task s' = Some t \/ exists d', turn s' q t d' /\ unbeaten s' q t /\ slice s' + 10 * Z.of_nat d' <= m.

Lemma schedule_nearer s q t d : good s q -> turn s q t d -> unbeaten s q t -> nearer (schedule resume_rip s) q t (10 * Z.of_nat d).
Proof.
  intros G Ht Hu. destruct (switch_progress s q t d G Ht Hu) as [H | (d' & Hd & Ht')]; [by left|]. right. exists d'. split; [done|].
  destruct (schedule_keeps base size resume_rip s q (proj1 G)) as (_ & _ & Hg & _). split.
  - destruct (turn_in s q t d G Ht) as [Htq _]. apply (unbeaten_same s _ q q t); [unfold globals in Hg; congruence | done | done | | done].
    intros j Hj. apply (schedule_prio s q j G). by apply (q_range _ _ (i_queue _ _ _ _ (proj1 G))).
  - pose proof (slice_range _ q (good_schedule base size resume_rip s q G)). lia.
Qed.

Lemma finish_progress s q t d : good s q -> turn s q t d -> unbeaten s q t ->
  nearer (tick_finish resume_rip s) q t (slice s + 10 * Z.of_nat d - 1).
Proof.
  intros G Ht Hu. destruct (turn_in s q t d G Ht) as [Htq Htc]. pose proof (slice_range s q G) as Hsl.
  assert (Hsch : forall x, good x q -> turn x q t d -> unbeaten x q t -> nearer (schedule resume_rip x) q t (slice s + 10 * Z.of_nat d - 1)).
  { intros x Gx Tx Ux. destruct (schedule_nearer x q t d Gx Tx Ux) as [H | (d' & H1 & H2 & H3)]; [by left|]. right. exists d'. split_and!; try done. lia. }
  assert (Hpol : current_policy s <> SCHED_POLICY_COOPERATIVE) by (unfold unbeaten in Hu; by destruct (current_policy s)).
  unfold tick_finish, task_current. destruct (current_policy s) eqn:Ep; [| |done].
  all: destruct (current_task s) as [c|] eqn:Ec; [|by apply Hsch].
  all: destruct (bool_decide _ && _); [|by apply Hsch].
  all: destruct (cur_used base size s q c G Ec) as [Hc _]; pose proof (r_quantum _ (i_run _ _ _ _ (proj1 G)) c Hc) as Hq.
  all: assert (Esl : slice s = Z.max 1 (quantum_remaining (task_at s c))) by (unfold slice; by rewrite Ec).
  all: unfold tick_quantum; cbv zeta.
  all: set (s1 := if 0 <? quantum_remaining (task_at s c) then _ else s).
  all: assert (G1 : good s1 q) by (subst s1; destruct (Z.ltb_spec 0 (quantum_remaining (task_at s c))); [apply good_quantum; [done | done | lia] | done]).
  all: assert (T1 : turn s1 q t d) by (subst s1; destruct (_ <? _); [by apply turn_quantum | done]).
  all: assert (U1 : unbeaten s1 q t) by (subst s1; destruct (_ <? _); [by apply unbeaten_quantum | done]).
  all: assert (C1 : current_task s1 = Some c) by (subst s1; by destruct (_ <? _)).
  all: assert (Q1 : quantum_remaining (task_at s1 c) = Z.max 0 (quantum_remaining (task_at s c) - 1)).
  all: try (subst s1; destruct (Z.ltb_spec 0 (quantum_remaining (task_at s c)));
    [rewrite task_at_upd; [rewrite decide_True by done; cbn; lia | apply (inv_table _ _ _ _ (proj1 G)) | done | done] | lia]).
  all: clearbody s1; destruct (Z.eqb_spec (quantum_remaining (task_at s1 c)) 0) as [E0|E0];
    [apply Hsch; [apply good_quantum; [done | done | unfold SCHED_DEFAULT_QUANTUM; lia] | by apply turn_quantum | by apply unbeaten_quantum]|].
  all: right; exists d; split; [done|]; split; [done|]; unfold slice at 1; rewrite C1; lia.
Qed.

Lemma finish_globals s q : good s q -> globals (tick_finish resume_rip s) = globals s.
Proof.
  intros G. assert (Hsch : forall x, good x q -> globals (schedule resume_rip x) = globals x) by (intros x [I _]; apply (schedule_keeps base size resume_rip x q I)).
  unfold tick_finish, task_current. destruct (current_policy s); [| |done].
  all: destruct (current_task s) as [c|] eqn:Ec; [|by apply Hsch].
  all: destruct (bool_decide _ && _); [|by apply Hsch].
  all: destruct (cur_used base size s q c G Ec) as [Hc _]; pose proof (r_quantum _ (i_run _ _ _ _ (proj1 G)) c Hc) as Hq.
  all: unfold tick_quantum; cbv zeta.
  all: destruct (Z.ltb_spec 0 (quantum_remaining (task_at s c))); destruct (_ =? 0); try done; rewrite Hsch; try done;
    repeat (apply good_quantum; [|done | unfold SCHED_DEFAULT_QUANTUM in *; lia]); done.
Qed.

(** One tick. *)
Lemma tick_progress s q t d : good s q -> preempt_disable_count s = 0 -> turn s q t d -> unbeaten s q t ->
  exists q', good (tick s) q' /\ preempt_disable_count (tick s) = 0 /\ nearer (tick s) q' t (slice s + 10 * Z.of_nat d - 1).
Proof.
  intros G Hp Ht Hu. destruct (wake_phase base size s q (proj1 G)) as (_ & P1 & _).
  rewrite (tick_cases size resume_rip s (policy_preempt _ _ P1)), Hp. change (0 =? 0) with true. cbv iota.
  pose proof (prepare_ok base size Hb Hs He s q (proj1 G) (proj2 G)) as P. pose proof (prepared_good base size s _ q G P) as G1.
  destruct (prepare_progress s _ q t d G Ht Hu P) as (U1 & Esl & d1 & Hd1 & T1). destruct P as (_ & Pp & _).
  exists (survivors s q). split; [by apply good_tick_finish|].
  split.
  - pose proof (finish_globals _ _ G1) as Hg. apply globals_policy in Hg as [Hg _]. apply policy_preempt in Hg, Pp. congruence.
  - destruct (finish_progress _ _ t d1 G1 T1 U1) as [H | (d' & H1 & H2 & H3)]; [by left|]. right. exists d'. split; [done|]. split; [done|]. lia.
Qed.

(** Enough ticks. *)
Lemma ticks_reach (m : nat) : forall s q t d, good s q -> preempt_disable_count s = 0 -> turn s q t d -> unbeaten s q t ->
  slice s + 10 * Z.of_nat d <= Z.of_nat m -> exists k, (k <= m)%nat /\ current_task (Nat.iter k tick s) = Some t.
Proof.
  induction m as [|m IH]; intros s q t d G Hp Ht Hu Hm; [pose proof (slice_range s q G); lia|].
  destruct (tick_progress s q t d G Hp Ht Hu) as (q' & G' & Hp' & [H | (d' & T' & U' & Hm')]).
  - exists 1%nat. split; [lia | done].
  - destruct (IH (tick s) q' t d' G' Hp' T' U' ltac:(lia)) as (k & Hk & E). exists (S k). split; [lia|]. by rewrite Nat.iter_succ_r.
Qed.

Lemma turn_exists s q t : good s q -> t ∈ q -> is_ready s t -> current_task s <> Some t ->
  exists d, turn s q t d /\ (d < length q)%nat.
Proof.
  intros G Hq Hr Hc. destruct (scan_exists q (current_task s)) as [o Ho].
  assert (Hto : t ∈ o).
  { destruct (current_task s) as [c|]; cbn [scan] in Ho; [|by subst]. destruct Ho as [(l1 & l2 & -> & ->) | [_ ->]]; [|done].
    apply elem_of_app in Hq as [?|Hq]; apply elem_of_app; [by right|]. apply elem_of_cons in Hq as [->|?]; [done | by left]. }
  apply list_elem_of_split in Hto as (a & b & ->). exists (length a). split; [split; [done|]; by exists a, b|].
  pose proof (scan_length q _ _ Ho) as Hl. rewrite length_app in Hl. cbn in Hl. lia.
Qed.

Lemma ready_reached s q t : good s q -> preempt_disable_count s = 0 -> t ∈ q -> is_ready s t -> unbeaten s q t ->
  exists k, (k <= 10 * length q)%nat /\ current_task (Nat.iter k tick s) = Some t.
Proof.
  intros G Hp Hq Hr Hu. destruct (decide (current_task s = Some t)) as [E|E]; [exists 0%nat; split; [lia | done]|].
  destruct (turn_exists s q t G Hq Hr E) as (d & Ht & Hd). apply (ticks_reach (10 * length q) s q t d); try done.
  pose proof (slice_range s q G). lia.
Qed.

(** ** Starvation *)

(** A task above [t] runs, and another is ready. *)
Definition crowded s q t : Prop :=
  current_policy s = SCHED_POLICY_PRIORITY /\ preempt_disable_count s = 0 /\
  exists c h, current_task s = Some c /\ state (task_at s c) = TASK_STATE_RUNNING /\ c ∈ q /\ prio s t < prio s c /\
    h ∈ q /\ h <> c /\ is_ready s h /\ prio s t < prio s h.

Lemma crowded_schedule s q t : good s q -> t ∈ q -> crowded s q t -> crowded (schedule resume_rip s) q t.
Proof.
  intros G Htq (Hp & Hd & c & h & Ec & Hc & Hcq & Hpc & Hhq & Hhc & Hh & Hph). pose proof (proj1 G) as I. pose proof I as [Q L [Rc _ _]].
  pose proof (fun j Hj => schedule_prio s q j G (q_range _ _ Q j Hj)) as Hpr.
  assert (Hg := proj1 (proj2 (proj2 (schedule_keeps base size resume_rip s q I)))). apply globals_policy in Hg as [Hg _].
  destruct (scan_exists q (current_task s)) as [o Ho].
  pose proof (pick_spec s q (current_task s) o Q (fun i Hi => proj1 (Rc i Hi)) Ho) as P.
  assert (Hho : h ∈ o).
  { rewrite Ec in Ho. cbn [scan] in Ho. destruct Ho as [(l1 & l2 & -> & ->) | [_ ->]]; [|done].
    apply elem_of_app in Hhq as [?|Hhq]; apply elem_of_app; [by right|]. apply elem_of_cons in Hhq as [->|?]; [done | by left]. }
  destruct (scheduler_pick_next_for_current (current_task s) s) as [n|] eqn:Ep; [|by destruct P as [_ P]; destruct (P h)].
  destruct P as [(a & b & Eo & Hn & Hbest) | [_ P]]; [|by destruct (P h)]. rewrite Hp in Hbest. destruct Hbest as [H1 H2].
  assert (Hno : n ∈ o) by (rewrite Eo; apply elem_of_app; right; left). destruct (scan_in q _ o n (q_nodup _ _ Q) Ho Hno) as [Hnq Hnc].
  assert (Hpn : prio s t < prio s n).
  { rewrite Eo in Hho. apply elem_of_app in Hho as [Hin|Hin]; [specialize (H1 h Hin Hh); lia|].
    apply elem_of_cons in Hin as [->|Hin]; [done|]. specialize (H2 h Hin Hh). lia. }
  destruct (schedule_switch resume_rip s n (q_table _ _ Q) (q_range _ _ Q n Hnq) (fun c Hc => proj1 (Rc c Hc)) Ep Hnc)
    as (Hat & _ & _ & _ & _ & _ & _ & _ & Hcur & _).
  assert (Hst := fun j Hj => eq_trans (f_equal state (Hat j Hj)) (proj2 (proj2 (proj2 (proj2 (switched_fields resume_rip s (current_task s) n j)))))).
  split; [unfold policy_of in Hg; congruence|]. split; [apply policy_preempt in Hg; congruence|]. exists n, c.
  assert (c <> n) by congruence. split; [done|]. split.
  { rewrite Hst by by apply (q_range _ _ Q). by rewrite decide_True. }
  rewrite !Hpr by done. split_and!; try done. unfold is_ready. rewrite Hst by by apply (q_range _ _ Q).
  rewrite decide_False by done. by rewrite bool_decide_true.
Qed.

Lemma crowded_quantum s q t c v : good s q -> in_tab c -> t ∈ q -> crowded s q t -> crowded (upd c (set_quantum v) s) q t.
Proof.
  intros G Hc Htq (Hp & Hd & c0 & h & Ec & H1 & Hcq & Hpc & Hhq & Hhc & Hh & Hph). pose proof (q_range _ _ (i_queue _ _ _ _ (proj1 G))) as Hr.
  assert (A : forall j, j ∈ q -> state (task_at (upd c (set_quantum v) s) j) = state (task_at s j) /\ prio (upd c (set_quantum v) s) j = prio s j).
  { intros j Hj. unfold prio. rewrite task_at_upd; [|apply (inv_table _ _ _ _ (proj1 G)) | done | by apply Hr]. by destruct (decide (j = c)) as [->|]. }
  split; [done|]. split; [done|]. exists c0, h. unfold is_ready. destruct (A t Htq) as [_ ->], (A c0 Hcq) as [-> ->], (A h Hhq) as [-> ->]. done.
Qed.

Lemma crowded_finish s q t : good s q -> t ∈ q -> crowded s q t -> crowded (tick_finish resume_rip s) q t.
Proof.
  intros G Htq Hc. pose proof Hc as (Hp & _ & c & h & Ec & Hrun & Hcq & _). unfold tick_finish, task_current. rewrite Hp, Ec.
  destruct (bool_decide _ && _); [|by apply crowded_schedule]. destruct (cur_used base size s q c G Ec) as [Hct _].
  pose proof (r_quantum _ (i_run _ _ _ _ (proj1 G)) c Hct) as Hq. unfold tick_quantum. cbv zeta.
  set (s1 := if 0 <? quantum_remaining (task_at s c) then _ else s).
  assert (G1 : good s1 q) by (subst s1; destruct (Z.ltb_spec 0 (quantum_remaining (task_at s c))); [apply good_quantum; [done | done | lia] | done]).
  assert (C1 : crowded s1 q t) by (subst s1; destruct (_ <? _); [by apply crowded_quantum | done]). clearbody s1.
  destruct (_ =? 0); [|done]. apply crowded_schedule; [apply good_quantum; [done | done | unfold SCHED_DEFAULT_QUANTUM; lia] | done |].
  by apply crowded_quantum.
Qed.

Lemma crowded_prepared s s' q t : good s q -> over s t = false -> t ∈ q -> crowded s q t -> prepared base size s s' q -> crowded s' (survivors s q) t.
Proof.
  intros G Hot Htq (Hp & Hd & c & h & Ec & Hrun & Hcq & Hpc & Hhq & Hhc & Hh & Hph) P. pose proof (q_range _ _ (i_queue _ _ _ _ (proj1 G))) as Hr.
  pose proof (fun j Hj => prepared_prio s s' q j P (Hr j Hj)) as Hpr. destruct P as (_ & Pp & _ & C & _ & A).
  assert (Hoc : over s c = false) by (unfold over; rewrite bool_decide_true by done; apply andb_false_r).
  assert (Hoh : over s h = false) by (unfold over, ended; by rewrite Hh).
  assert (Hst : forall j, j ∈ q -> over s j = false -> state (task_at s j) <> TASK_STATE_SLEEPING -> state (task_at s' j) = state (task_at s j)).
  { intros j Hj Ho Hns. destruct (nolinks_fields _ _ (A j (Hr j Hj) ltac:(intros [_ E]; congruence))) as (_ & _ & _ & -> & _).
    rewrite decide_True by done. unfold woken. by rewrite bool_decide_false. }
  split; [unfold policy_of in Pp; congruence|]. split; [apply policy_preempt in Pp; congruence|]. exists c, h.
  split; [congruence|]. split; [rewrite Hst; [done | done | done | by rewrite Hrun]|]. rewrite !in_survivors, !Hpr by done. split_and!; try done.
  unfold is_ready. rewrite Hst; [done | done | done | by rewrite Hh].
Qed.

Lemma crowded_tick s q t : good s q -> over s t = false -> t ∈ q -> crowded s q t ->
  exists q', good (tick s) q' /\ t ∈ q' /\ crowded (tick s) q' t.
Proof.
  intros G Hot Htq Hc. destruct (wake_phase base size s q (proj1 G)) as (_ & P1 & _).
  rewrite (tick_cases size resume_rip s (policy_preempt _ _ P1)). pose proof Hc as (_ & -> & _). change (0 =? 0) with true. cbv iota.
  pose proof (prepare_ok base size Hb Hs He s q (proj1 G) (proj2 G)) as P. pose proof (prepared_good base size s _ q G P) as G1.
  exists (survivors s q). assert (Hts : t ∈ survivors s q) by by apply in_survivors. split; [by apply good_tick_finish|]. split; [done|].
  apply crowded_finish; [done | done |]. by apply crowded_prepared.
Qed.

(** ** What a tick does to the state of one task *)

(** [x] and [y] agree on whether the task sleeps, until when, and whether it has ended;
    a task that may run still may. *)
Definition settled (x y : task) : Prop :=
  ended y = ended x /\
  (state x = TASK_STATE_SLEEPING -> state y = TASK_STATE_SLEEPING /\ wake_tick y = wake_tick x) /\
  (state x = TASK_STATE_READY \/ state x = TASK_STATE_RUNNING -> state y = TASK_STATE_READY \/ state y = TASK_STATE_RUNNING).

Lemma settled_refl x : settled x x.
Proof. by split_and!. Qed.

Lemma settled_trans x y z : settled x y -> settled y z -> settled x z.
Proof.
  intros (E1 & S1 & R1) (E2 & S2 & R2). split; [congruence|]. split; [|auto].
  intros H. destruct (S1 H) as [Hy Wy]. destruct (S2 Hy) as [Hz Wz]. split; [done | congruence].
Qed.

Lemma schedule_settled s q t : good s q -> t ∈ q -> idle_task s <> Some t -> settled (task_at s t) (task_at (schedule resume_rip s) t).
Proof.
  intros G Htq Hid. pose proof (proj1 G) as I. pose proof I as [Q L [Rc _ _]]. pose proof (q_range _ _ Q t Htq) as Ht.
  destruct (scheduler_pick_next_for_current (current_task s) s) as [n|] eqn:Ep.
  2: { rewrite schedule_none by auto. apply settled_refl. }
  destruct (decide (current_task s = Some n)) as [Ec|Ec]; [rewrite schedule_none by (right; congruence); apply settled_refl|].
  destruct (pick_used base size s q n I Ep) as [Hn Hu].
  destruct (schedule_switch resume_rip s n (q_table _ _ Q) Hn (fun c Hc => proj1 (Rc c Hc)) Ep Ec) as (Hat & _). rewrite Hat by done.
  destruct (switched_fields resume_rip s (current_task s) n t) as (_ & _ & Ew & _ & Est).
  assert (Hpick : n = t -> is_ready s t).
  { intros ->. destruct (scan_exists q (current_task s)) as [o Ho].
    pose proof (pick_spec s q (current_task s) o Q (fun i Hi => proj1 (Rc i Hi)) Ho) as P. rewrite Ep in P.
    destruct P as [(a & b & _ & Hr & _) | [Hi _]]; done. }
  unfold settled, ended. rewrite Est, Ew. destruct (decide (t = n)) as [->|Hne].
  - rewrite (Hpick eq_refl). split; [done|]. split; [done | by right].
  - case_bool_decide as E; [destruct E as [_ ->]; split; [done|]; split; [done | by left] | done].
Qed.

Lemma quantum_settled s q c t v : good s q -> in_tab c -> t ∈ q -> settled (task_at s t) (task_at (upd c (set_quantum v) s) t).
Proof.
  intros G Hc Htq. rewrite task_at_upd; [|apply (inv_table _ _ _ _ (proj1 G)) | done | apply (q_range _ _ (i_queue _ _ _ _ (proj1 G)) t Htq)].
  destruct (decide (t = c)) as [->|]; [by split_and! | apply settled_refl].
Qed.

Lemma finish_settled s q t : good s q -> t ∈ q -> idle_task s <> Some t -> settled (task_at s t) (task_at (tick_finish resume_rip s) t).
Proof.
  intros G Htq Hid. assert (Hsch : forall x, good x q -> idle_task x = idle_task s -> settled (task_at x t) (task_at (schedule resume_rip x) t)).
  { intros x Gx Ex. apply (schedule_settled x q); [done | done | congruence]. }
  unfold tick_finish, task_current. destruct (current_policy s); [| |apply settled_refl].
  all: destruct (current_task s) as [c|] eqn:Ec; [|by apply Hsch].
  all: destruct (bool_decide _ && _); [|by apply Hsch].
  all: destruct (cur_used base size s q c G Ec) as [Hc _]; pose proof (r_quantum _ (i_run _ _ _ _ (proj1 G)) c Hc) as Hq.
  all: unfold tick_quantum; cbv zeta; set (s1 := if 0 <? quantum_remaining (task_at s c) then _ else s).
  all: assert (G1 : good s1 q) by (subst s1; destruct (Z.ltb_spec 0 (quantum_remaining (task_at s c))); [apply good_quantum; [done | done | lia] | done]).
  all: assert (S1 : settled (task_at s t) (task_at s1 t)) by (subst s1; destruct (_ <? _); [by apply (quantum_settled s q) | apply settled_refl]).
  all: assert (I1 : idle_task s1 = idle_task s) by (subst s1; by destruct (_ <? _)).
  all: clearbody s1; destruct (_ =? 0); [|done].
  all: apply (settled_trans _ _ _ S1), (settled_trans _ (task_at (upd c (set_quantum SCHED_DEFAULT_QUANTUM) s1) t)); [by apply (quantum_settled s1 q)|].
  all: apply Hsch; [apply good_quantum; [done | done | unfold SCHED_DEFAULT_QUANTUM; lia] | done].
Qed.

Lemma finish_idle s q : good s q -> idle_task (tick_finish resume_rip s) = idle_task s.
Proof.
  intros G. assert (Hsch : forall x, good x q -> idle_task (schedule resume_rip x) = idle_task x)
    by (intros x [Ix _]; apply (k_idle _ _ (proj1 (schedule_keeps base size resume_rip x _ Ix)))).
  unfold tick_finish, task_current. destruct (current_policy s); [| |done].
  all: destruct (current_task s) as [c|] eqn:Ec; [|by apply Hsch].
  all: destruct (bool_decide _ && _); [|by apply Hsch].
  all: destruct (cur_used base size s q c G Ec) as [Hc _]; pose proof (r_quantum _ (i_run _ _ _ _ (proj1 G)) c Hc) as Hq.
  all: unfold tick_quantum; cbv zeta.
  all: destruct (Z.ltb_spec 0 (quantum_remaining (task_at s c))); destruct (_ =? 0); try done; rewrite Hsch; try done;
    repeat (apply good_quantum; [|done | unfold SCHED_DEFAULT_QUANTUM in *; lia]); done.
Qed.

Definition after_tick s s' t : Prop :=
  exists q', good s' q' /\ t ∈ q' /\ total_ticks (stats s') = u64 (total_ticks (stats s) + 1) /\ idle_task s' <> Some t /\
    settled (woken (u64 (total_ticks (stats s) + 1)) (task_at s t)) (task_at s' t).

Lemma prepared_settled s s1 q t : good s q -> t ∈ q -> ended (task_at s t) = false -> idle_task s <> Some t -> prepared base size s s1 q ->
  after_tick s (tick_finish resume_rip s1) t.
Proof.
  intros G Htq Hend Hid P. pose proof (q_range _ _ (i_queue _ _ _ _ (proj1 G)) t Htq) as Ht.
  pose proof (prepared_good base size s s1 q G P) as G1. pose proof P as (_ & _ & Nt & _ & Di & A). exists (survivors s q).
  assert (Ho : over s t = false) by (unfold over; by rewrite Hend). assert (Hts : t ∈ survivors s q) by by apply in_survivors.
  split; [by apply good_tick_finish|]. split; [done|].
  pose proof (finish_globals _ _ G1) as Hg. apply globals_policy in Hg as [_ Hg]. split; [congruence|].
  rewrite (finish_idle s1 _ G1). split; [congruence|]. apply (settled_trans _ (task_at s1 t)); [|apply (finish_settled s1 (survivors s q)); [done | done | congruence]].
  destruct (nolinks_fields _ _ (A t Ht ltac:(intros [_ E]; congruence))) as (_ & _ & _ & Est & _ & _ & Ew & _). rewrite decide_True in Est, Ew by done.
  unfold settled, ended. rewrite Est, Ew. done.
Qed.

Lemma guarded_settled s s1 q t : good s q -> t ∈ q -> idle_task s <> Some t -> inv base size s1 q ->
  total_ticks (stats s1) = u64 (total_ticks (stats s) + 1) -> idle_task s1 = idle_task s ->
  (forall j, in_tab j -> task_at s1 j = if decide (j ∈ q) then woken (u64 (total_ticks (stats s) + 1)) (task_at s j) else task_at s j) ->
  after_tick s s1 t.
Proof.
  intros [I Hidl] Htq Hid I1 N1 D1 A1. exists q. split; [split; [done|]|].
  { intros i Ei. rewrite D1 in Ei. rewrite A1 by apply (l_idle _ _ _ _ (i_live _ _ _ _ I) i Ei). destruct (decide (i ∈ q)); [rewrite woken_ended|]; by apply Hidl. }
  split; [done|]. split; [done|]. split; [congruence|]. rewrite A1 by apply (q_range _ _ (i_queue _ _ _ _ I) t Htq). rewrite decide_True by done. apply settled_refl.
Qed.

(** A tick wakes the sleepers whose time has come and leaves the others asleep. *)
Lemma tick_settled s q t : good s q -> t ∈ q -> ended (task_at s t) = false -> idle_task s <> Some t -> after_tick s (tick s) t.
Proof.
  intros G Htq Hend Hid. destruct (wake_phase base size s q (proj1 G)) as (I1 & P1 & N1 & C1 & D1 & A1).
  rewrite (tick_cases size resume_rip s (policy_preempt _ _ P1)). destruct (preempt_disable_count s =? 0).
  - exact (prepared_settled s _ q t G Htq Hend Hid (prepare_ok base size Hb Hs He s q (proj1 G) (proj2 G))).
  - exact (guarded_settled s _ q t G Htq Hid I1 N1 D1 A1).
Qed.

(** Ticks of a sleeper. *)
Lemma ticks_asleep k : forall s q t, good s q -> t ∈ q -> state (task_at s t) = TASK_STATE_SLEEPING -> idle_task s <> Some t ->
  0 <= total_ticks (stats s) -> total_ticks (stats s) + Z.of_nat k < wake_tick (task_at s t) -> wake_tick (task_at s t) < 2 ^ 64 ->
  let s' := Nat.iter k tick s in
  state (task_at s' t) = TASK_STATE_SLEEPING /\ wake_tick (task_at s' t) = wake_tick (task_at s t) /\ total_ticks (stats s') = total_ticks (stats s) + Z.of_nat k /\
  exists q', good s' q' /\ t ∈ q' /\ idle_task s' <> Some t.
Proof.
  induction k as [|k IH]; intros s q t G Htq Hst Hid H0 Hk Hw; cbv zeta.
  { split; [done|]. split; [done|]. split; [cbn; lia|]. by exists q. }
  rewrite Nat.iter_succ_r. assert (Hend : ended (task_at s t) = false) by (unfold ended; by rewrite Hst).
  destruct (tick_settled s q t G Htq Hend Hid) as (q' & G' & Htq' & Nt & Hid' & Hset). rewrite u64_small in Nt, Hset by lia.
  unfold woken in Hset. replace (wake_tick (task_at s t) <=? total_ticks (stats s) + 1) with false in Hset by lia. rewrite andb_false_r in Hset.
  destruct Hset as (_ & Hs2 & _). destruct (Hs2 Hst) as [Hst' Hw'].
  destruct (IH (tick s) q' t G' Htq' Hst' Hid') as (R1 & R2 & R3 & R4); [lia | rewrite Hw'; lia | rewrite Hw'; lia |].
  split; [done|]. split; [congruence|]. split; [rewrite R3, Nt; lia | done].
Qed.

Lemma ticks_unended k : forall s q t, good s q -> t ∈ q -> ended (task_at s t) = false -> idle_task s <> Some t -> crowded s q t ->
  current_task (Nat.iter k tick s) <> Some t.
Proof.
  induction k as [|k IH]; intros s q t G Htq Hend Hid Hc.
  - destruct Hc as (_ & _ & c & h & Ec & _ & _ & Hpc & _). cbn. rewrite Ec. intros [= ->]. lia.
  - rewrite Nat.iter_succ_r. destruct (tick_settled s q t G Htq Hend Hid) as (q1 & G1 & Ht1 & _ & Hid' & (He' & _)).
    destruct (crowded_tick s q t G ltac:(unfold over; by rewrite Hend) Htq Hc) as (q' & G' & Htq' & Hc').
    apply (IH (tick s) q' t G' Htq'); [by rewrite He', woken_ended | done | done].
Qed.
End progress.
