(* ===== verification/Scheduler.v ===== *)
(** * What the scheduler guarantees

    The operations of [Sched] as steps of a machine that starts at boot, and the
    theorems: the invariant of the run queue and the task table after any sequence
    of steps, the isolation of the kernel stacks, which task runs next, that a ready
    task gets the processor within a bounded number of timer ticks, and when a
    sleeping task wakes. *)
From S2P Require Import Prelude Dll Kheap Sched SchedInv SchedOps SchedFair.
Local Open Scope capy_scope.

(** One call into the scheduler or the task table, one timer tick, or what the rest of
    the kernel does between them: run code on the current registers and use the heap. *)
Inductive sop :=
| OCreate (nm : list Z) (entry arg : Z) (prio : task_priority)
| OAdd (i : Z) | OEnter (i : Z) | OKill (p : Z) | OExit (code : Z)
| OYield | OSleep (n : Z) | OSleepCurrent (n : Z) | OBlockCurrent (ch : Z) | OUnblock (ch : Z)
| OBlock (i ch : Z) | OUnblockChannel (ch : Z) | OWake (i : Z)
| OTick | ODisable | OEnable | OPolicy (p : scheduler_policy) | ORunning (b : bool)
| OStart (entry : Z) (nm : list Z) | OCode (r : task_context) | OAlloc (n : Z) | OFree (p : Z).

Section machine.
Context (base size task_entry_trampoline resume_rip vmm_kernel_pml4_phys : Z).

Definition sstep (s : kernel) (op : sop) : kernel :=
  match op with
  | OCreate nm entry arg prio => (task_create size task_entry_trampoline vmm_kernel_pml4_phys nm entry arg prio s).2
  | OAdd i => scheduler_add (Some i) s
  | OEnter i => enter i s
  | OKill p => (task_kill size p s).2
  | OExit code => task_exit resume_rip code s
  | OYield => task_yield resume_rip s
  | OSleep n => task_sleep resume_rip n s
  | OSleepCurrent n => scheduler_sleep_current resume_rip n s
  | OBlockCurrent ch => scheduler_block_current resume_rip ch s
  | OUnblock ch => scheduler_unblock ch s
  | OBlock i ch => task_block (Some i) ch s
  | OUnblockChannel ch => task_unblock_channel ch s
  | OWake i => task_wake (Some i) s
  | OTick => scheduler_tick size resume_rip s
  | ODisable => scheduler_preempt_disable s
  | OEnable => scheduler_preempt_enable s
  | OPolicy p => scheduler_set_policy p s
  | ORunning b => scheduler_set_running b s
  | OStart entry nm => scheduler_start size task_entry_trampoline vmm_kernel_pml4_phys entry nm s
  | OCode r => set_live r s
  | OAlloc n => set_heap (kalloc size n (heap s)).2 s
  | OFree p => set_heap (kfree size (Some p) (heap s)) s
  end.

(** What the callers keep to: a task is linked once, the identifiers do not run out,
    the heap is freed by the owner of a block. *)
Definition sop_ok (s : kernel) (op : sop) : Prop :=
  match op with
  | OCreate _ _ _ _ => next_pid s + 1 < 2 ^ 32
  | OAdd i => in_tab i /\ used s i = true /\ i ∉ queue s
  | OStart _ _ => current_task s = None /\ next_pid s + 1 < 2 ^ 32
  | OEnter i => in_tab i /\ used s i = true /\ current_task s = None
  | OBlock i _ => in_tab i /\ used s i = true
  | OWake i => in_tab i
  | OKill p => forall i, idle_task s = Some i -> pid (task_at s i) <> p
  | OExit _ => forall c, current_task s = Some c -> idle_task s <> Some c
  | OAlloc n => 0 < n <= 2 ^ 64 - 128
  | OFree p => (exists l z, heap_ok base size (heap s) l /\ In (p, z) (in_use base l)) /\
      forall j, in_tab j -> used s j = true -> kernel_stack (task_at s j) <> Some p
  | _ => True
  end.

Fixpoint sops_ok (s : kernel) (ops : list sop) : Prop :=
  match ops with [] => True | op :: ops => sop_ok s op /\ sops_ok (sstep s op) ops end.

(** The kernel at boot: zeroed tables, an initialised heap, the scheduler under [policy]. *)
Definition sched_boot (h : kheap) (policy : scheduler_policy) : kernel :=
  scheduler_init policy (task_system_init
    (mkKernel (zrep TASK_MAX_COUNT zero_task) 0 None 0 None None None SCHED_POLICY_COOPERATIVE zero_sstats false 0 zero_ctx 0 0 (kinit base size h))).

Context (Hb : 0 <= base) (Hs : kheader_size <= size) (He : base + size < 2 ^ 64).

Lemma sstep_good s q op : good base size s q -> sop_ok s op -> exists q', good base size (sstep s op) q'.
Proof.
  intros G Hok. pose proof (i_queue _ _ _ _ (proj1 G)) as Q. destruct op; cbn [sstep sop_ok] in *.
  - exists q. by apply good_create.
  - destruct Hok as (Hi & Hu & Hq). rewrite (queue_walk s q Q) in Hq. exists (q ++ [i]). by apply good_add.
  - destruct Hok as (Hi & Hu & Hc). exists q. by apply good_enter.
  - by apply (good_kill base size Hb Hs He s q).
  - exists q. by apply good_exit.
  - exists q. by apply good_yield.
  - exists q. unfold task_sleep. destruct (current_task s); [|done]. destruct (negb _); [by apply good_yield | by apply good_sleep_current].
  - exists q. by apply good_sleep_current.
  - exists q. by apply good_block_current.
  - exists q. by apply good_unblock.
  - exists q. destruct Hok. by apply good_task_block.
  - exists q. by apply good_unblock_channel.
  - exists q. by apply good_wake.
  - by apply (good_tick base size Hb Hs He resume_rip s q).
  - exists q. by apply (good_globals base size s).
  - exists q. unfold scheduler_preempt_enable. destruct (_ <? _); [by apply (good_globals base size s) | done].
  - exists q. by apply (good_globals base size s).
  - exists q. by apply (good_globals base size s).
  - destruct Hok. by apply (good_start base size Hb Hs He task_entry_trampoline vmm_kernel_pml4_phys s q).
  - exists q. by apply (good_globals base size s).
  - exists q. apply good_heap; [done|]. intros l Hl. pose proof (kalloc_spec base size Hb Hs He n l (heap s) Hl Hok) as H.
    destruct (fit base _ l) as [[p l']|].
    + destruct H as (h & got & -> & Hl' & _ & _ & Hiff & _). exists l'. split; [done|]. intros j ks z _ _ _ Hin. apply Hiff. by right.
    + rewrite H. exists l. split; [by destruct Hl | done].
  - exists q. apply good_heap; [done|]. intros l Hl. destruct Hok as [(l0 & z & Hl0 & Hin) Hno].
    pose proof (laid_unique _ _ _ _ _ _ (hk_laid _ _ _ _ Hl) (hk_laid _ _ _ _ Hl0)) as <-.
    destruct (kfree_spec base size Hb He p z l (heap s) Hl Hin) as (l' & Hl' & _ & Hiff). exists l'. split; [done|].
    intros j ks y Hj Hu Ek Hk. apply Hiff. split; [done|]. intros ->. by apply (Hno j).
Qed.

Lemma boot_facts h policy : let s := sched_boot h policy in
  task_table s = zrep TASK_MAX_COUNT zero_task /\ next_pid s = 1 /\ task_active_count s = 0 /\ current_task s = None /\ run_queue_head s = None /\
  run_queue_tail s = None /\ idle_task s = None /\ heap s = kinit base size h.
Proof. cbv zeta. split_and!; reflexivity. Qed.

Lemma boot_good h policy : good base size (sched_boot h policy) [].
Proof.
  destruct (boot_facts h policy) as (Et & En & Ec & Ecu & Eh & El & Ei & Ehp). set (s := sched_boot h policy) in *. clearbody s.
  assert (Ha : forall i, in_tab i -> task_at s i = zero_task) by (intros i Hi; unfold task_at; rewrite Et; by apply aget_rep).
  assert (Hu : forall i, in_tab i -> used s i = false) by (intros i Hi; unfold used; by rewrite Ha).
  split; [|intros i E; by rewrite Ei in E]. constructor.
  - constructor; [by rewrite Et | rewrite Eh, El; apply dll_nil | apply NoDup_nil_2 | by intros i Hi%not_elem_of_nil |].
    intros i Hi _. by rewrite Ha.
  - constructor.
    + by intros i _ Hi%not_elem_of_nil.
    + intros i E. by rewrite Ei in E.
    + rewrite En. lia.
    + intros i Hi E. by rewrite Hu in E.
    + intros i j Hi _ E. by rewrite Hu in E.
    + rewrite Ec. unfold live_tasks. assert (base.filter (fun i => used s i = true) (seqZ 0 TASK_MAX_COUNT) = []) as ->; [|done].
      pose proof (filter_in_ext (fun _ => false) (used s) (seqZ 0 TASK_MAX_COUNT)) as ->; [reflexivity|].
      intros j Hj. apply Hu. apply elem_of_seqZ in Hj. unfold in_tab. lia.
    + rewrite Ehp. eexists. split; [by apply kinit_ok|]. intros i Hi E. by rewrite Hu in E.
    + intros i j Hi _ E. by rewrite Hu in E.
  - constructor.
    + intros i E. by rewrite Ecu in E.
    + intros i Hi. by rewrite Ha.
    + intros i Hi. by rewrite Ha.
Qed.

Lemma ops_good ops : forall s, (exists q, good base size s q) -> sops_ok s ops -> exists q, good base size (foldl sstep s ops) q.
Proof.
  induction ops as [|op ops IH]; intros s [q G] Hok; [by exists q|]. destruct Hok as [H1 H2]. apply IH; [|done]. by apply (sstep_good s q).
Qed.
End machine.

(** ** Properties *)

(** The run queue as the pointers hold it, and the tasks that may run. *)
Definition queue_links (s : kernel) : Prop :=
  run_queue_head s = head (queue s) /\ run_queue_tail s = last (queue s) /\ NoDup (queue s) /\
  forall l1 i l2, queue s = l1 ++ i :: l2 ->
    next (task_at s i) = head l2 /\ prev (task_at s i) = last l1 /\ in_tab i /\ state (task_at s i) <> TASK_STATE_UNUSED.

(** C12. After any sequence of scheduler and task operations, timer ticks and uses of the
    heap from boot, called as [sop_ok] asks (a live task is queued once, the idle task is
    not killed and does not exit, identifiers have not run out, and only areas in use that
    are no task's stack are freed): the run queue is a well-formed doubly linked list of distinct live
    tasks, walked alike from both ends; at most one task is running, and it is the
    current one; live tasks have distinct identifiers; the count of active tasks is
    the number of live ones; and no quantum exceeds the default. *)
Theorem scheduler_invariant (base size tramp rip pml4 : Z) h policy ops :
  0 <= base -> kheader_size <= size -> base + size < 2 ^ 64 ->
  sops_ok base size tramp rip pml4 (sched_boot base size h policy) ops ->
  let s := foldl (sstep size tramp rip pml4) (sched_boot base size h policy) ops in
  queue_links s /\
  (forall i, in_tab i -> state (task_at s i) = TASK_STATE_RUNNING -> current_task s = Some i) /\
  (forall i j, in_tab i -> in_tab j -> used s i = true -> used s j = true -> pid (task_at s i) = pid (task_at s j) -> i = j) /\
  task_active_count s = zlen (live_tasks s) /\
  (forall i, in_tab i -> 0 <= quantum_remaining (task_at s i) <= SCHED_DEFAULT_QUANTUM).
Proof.
  intros Hb Hs He Hok. destruct (ops_good base size tramp rip pml4 Hb Hs He ops _ (ex_intro _ [] (boot_good base size Hb Hs He h policy)) Hok) as [q [[Q L R] _]].
  cbv zeta. split; [|exact (conj (r_run _ R) (conj (l_inj _ _ _ _ L) (conj (l_count _ _ _ _ L) (r_quantum _ R))))].
  unfold queue_links. rewrite (queue_walk _ q Q). pose proof (q_dll _ _ Q) as (Hh & Ht & Hl). split; [done|]. split; [done|]. split; [apply Q|].
  intros l1 i l2 E. destruct (Hl _ _ _ E) as [? ?]. assert (Hq : i ∈ q) by (rewrite E; apply elem_of_app; right; left).
  pose proof (q_range _ _ Q i Hq) as Hi. split_and!; try done. apply used_iff. by apply (l_queued _ _ _ _ L).
Qed.

(** Two tasks under the priority policy, one of which sleeps, is woken by the timer,
    and is destroyed after it ends. *)
Definition demo_sops : list sop :=
  [OCreate [97] 4660 1 TASK_PRIORITY_NORMAL; OAdd 0; OCreate [98] 22136 2 TASK_PRIORITY_HIGH; OAdd 1; OEnter 0; ORunning true; OTick;
   OYield; OSleep 2; OTick; OTick; OTick; OYield; OExit 7; OTick; OAlloc 100; OTick].
Definition demo_boot : kernel := sched_boot 4096 65536 boot_heap SCHED_POLICY_PRIORITY.

Ltac demo_sop := first [exact I | by vm_compute | split; [by vm_compute | split; [by vm_compute | first [by vm_compute | vm_compute; set_solver]]]].

Lemma demo_sops_ok : sops_ok 4096 65536 1 2 3 demo_boot demo_sops.
Proof.
  unfold demo_sops. cbn [sops_ok]. repeat (split; [cbn [sop_ok]; demo_sop|]). exact I.
Qed.

Lemma scheduler_invariant_witness :
  let s := foldl (sstep 65536 1 2 3) demo_boot demo_sops in
  queue_links s /\
  (forall i, in_tab i -> state (task_at s i) = TASK_STATE_RUNNING -> current_task s = Some i) /\
  (forall i j, in_tab i -> in_tab j -> used s i = true -> used s j = true -> pid (task_at s i) = pid (task_at s j) -> i = j) /\
  task_active_count s = zlen (live_tasks s) /\
  (forall i, in_tab i -> 0 <= quantum_remaining (task_at s i) <= SCHED_DEFAULT_QUANTUM).
Proof.
  apply (scheduler_invariant 4096 65536 1 2 3 boot_heap SCHED_POLICY_PRIORITY demo_sops); [lia | unfold kheader_size; lia | lia | exact demo_sops_ok].
Defined.

Definition two_tasks : list sop :=
  [OCreate [97] 4660 1 TASK_PRIORITY_NORMAL; OAdd 0; OCreate [98] 22136 2 TASK_PRIORITY_LOW; OAdd 1; OEnter 0; ORunning true; OTick].

Lemma two_tasks_ok policy : sops_ok 4096 65536 1 2 3 (sched_boot 4096 65536 boot_heap policy) two_tasks.
Proof. unfold two_tasks. cbn [sops_ok]. repeat (split; [cbn [sop_ok]; destruct policy; demo_sop|]). exact I. Qed.

Lemma two_tasks_queue policy : queue (foldl (sstep 65536 1 2 3) (sched_boot 4096 65536 boot_heap policy) two_tasks) = [0; 1].
Proof. destruct policy; vm_compute; reflexivity. Qed.

(** C29. After any such sequence every live task has a kernel stack of its own inside the
    heap's array: the stacks of two tasks have no byte in common, and none shares a
    byte with a block header of the heap. *)
Theorem task_stacks_isolated (base size tramp rip pml4 : Z) h policy ops :
  0 <= base -> kheader_size <= size -> base + size < 2 ^ 64 ->
  sops_ok base size tramp rip pml4 (sched_boot base size h policy) ops ->
  let s := foldl (sstep size tramp rip pml4) (sched_boot base size h policy) ops in
  forall i, in_tab i -> used s i = true -> exists ks, kernel_stack (task_at s i) = Some ks /\
    base + kheader_size <= ks /\ ks + TASK_KERNEL_STACK_SIZE <= base + size /\
    (forall j ks', in_tab j -> used s j = true -> j <> i -> kernel_stack (task_at s j) = Some ks' ->
       ks + TASK_KERNEL_STACK_SIZE <= ks' \/ ks' + TASK_KERNEL_STACK_SIZE <= ks) /\
    (forall k hd, nth_header (heap s) k = Some hd -> hd + kheader_size <= ks \/ ks + TASK_KERNEL_STACK_SIZE <= hd).
Proof.
  intros Hb Hs He Hok. destruct (ops_good base size tramp rip pml4 Hb Hs He ops _ (ex_intro _ [] (boot_good base size Hb Hs He h policy)) Hok) as [q [[Q L R] _]].
  cbv zeta. intros i Hi Hu. destruct (l_heap _ _ _ _ L) as (l & Hl & H). destruct (H i Hi Hu) as (_ & ks & z & Ek & Hz & Hin).
  pose proof (hk_laid _ _ _ _ Hl) as Hlaid. destruct (in_use_bound _ _ _ _ _ _ _ Hlaid Hin) as (? & ? & ?).
  exists ks. split; [done|]. split; [done|]. split; [lia|]. split.
  - intros j ks' Hj Huj Hne Ek'. destruct (H j Hj Huj) as (_ & ks2 & z2 & Ek2 & Hz2 & Hin2). rewrite Ek' in Ek2. injection Ek2 as <-.
    destruct (in_use_apart _ _ _ _ _ _ _ _ _ Hlaid Hin Hin2) as [E | E]; [|unfold kheader_size in *; lia].
    exfalso. apply Hne, (l_stacks _ _ _ _ L); try done. congruence.
  - intros k hd Ehd. pose proof (nth_header_listed base size Hs _ l k hd Hl Ehd) as Hh.
    destruct (header_apart _ _ _ _ _ _ _ _ Hlaid Hh Hin); [by left | right; lia].
Qed.

Lemma task_stacks_isolated_witness :
  let s := foldl (sstep 65536 1 2 3) demo_boot two_tasks in
  exists ks, kernel_stack (task_at s 1) = Some ks /\
    4096 + kheader_size <= ks /\ ks + TASK_KERNEL_STACK_SIZE <= 4096 + 65536 /\
    (forall j ks', in_tab j -> used s j = true -> j <> 1 -> kernel_stack (task_at s j) = Some ks' ->
       ks + TASK_KERNEL_STACK_SIZE <= ks' \/ ks' + TASK_KERNEL_STACK_SIZE <= ks) /\
    (forall k hd, nth_header (heap s) k = Some hd -> hd + kheader_size <= ks \/ ks + TASK_KERNEL_STACK_SIZE <= hd).
Proof.
  apply (task_stacks_isolated 4096 65536 1 2 3 boot_heap SCHED_POLICY_PRIORITY two_tasks);
    [lia | unfold kheader_size; lia | lia | apply two_tasks_ok | unfold in_tab, TASK_MAX_COUNT; lia | vm_compute; reflexivity].
Defined.

(** C22. A ready task on the run queue gets the processor while preemption is enabled and
    nothing but timer ticks happens: under round robin always, and under the priority
    policy when no queued task has a higher priority, it is the current task after at
    most ten ticks for each task on the queue, whatever the ticks wake or destroy. *)
Theorem ready_task_runs (base size tramp rip pml4 : Z) h policy ops t :
  0 <= base -> kheader_size <= size -> base + size < 2 ^ 64 ->
  sops_ok base size tramp rip pml4 (sched_boot base size h policy) ops ->
  let s := foldl (sstep size tramp rip pml4) (sched_boot base size h policy) ops in
  t ∈ queue s -> is_ready s t -> preempt_disable_count s = 0 ->
  current_policy s = SCHED_POLICY_ROUND_ROBIN \/
    current_policy s = SCHED_POLICY_PRIORITY /\ (forall j, j ∈ queue s -> prio s j <= prio s t) ->
  exists k, (k <= 10 * length (queue s))%nat /\ current_task (Nat.iter k (scheduler_tick size rip) s) = Some t.
Proof.
  intros Hb Hs He Hok. destruct (ops_good base size tramp rip pml4 Hb Hs He ops _ (ex_intro _ [] (boot_good base size Hb Hs He h policy)) Hok) as [q G].
  cbv zeta. rewrite (queue_walk _ q (i_queue _ _ _ _ (proj1 G))). intros Hq Hr Hp Hpol. apply (ready_reached base size Hb Hs He rip _ q t G Hp Hq Hr).
  unfold unbeaten. by destruct Hpol as [-> | [-> ?]].
Qed.

Lemma ready_task_runs_witness :
  let s := foldl (sstep 65536 1 2 3) (sched_boot 4096 65536 boot_heap SCHED_POLICY_ROUND_ROBIN) two_tasks in
  exists k, (k <= 10 * length (queue s))%nat /\ current_task (Nat.iter k (scheduler_tick 65536 2) s) = Some 1.
Proof.
  apply (ready_task_runs 4096 65536 1 2 3 boot_heap SCHED_POLICY_ROUND_ROBIN two_tasks 1); [lia | unfold kheader_size; lia | lia | apply two_tasks_ok | | | | ].
  - rewrite two_tasks_queue. right. left.
  - unfold is_ready. vm_compute. reflexivity.
  - vm_compute. reflexivity.
  - left. vm_compute. reflexivity.
Defined.

(** The priority policy has no aging: while a task above [t] is running and another
    one above [t] is ready, neither of which gives up the processor, [t] does not run,
    however many ticks pass. *)
Theorem low_priority_starves (base size tramp rip pml4 : Z) h policy ops t k :
  0 <= base -> kheader_size <= size -> base + size < 2 ^ 64 ->
  sops_ok base size tramp rip pml4 (sched_boot base size h policy) ops ->
  let s := foldl (sstep size tramp rip pml4) (sched_boot base size h policy) ops in
  t ∈ queue s -> is_ready s t -> idle_task s <> Some t -> crowded s (queue s) t ->
  current_task (Nat.iter k (scheduler_tick size rip) s) <> Some t.
Proof.
  intros Hb Hs He Hok. destruct (ops_good base size tramp rip pml4 Hb Hs He ops _ (ex_intro _ [] (boot_good base size Hb Hs He h policy)) Hok) as [q G].
  cbv zeta. rewrite (queue_walk _ q (i_queue _ _ _ _ (proj1 G))). intros Hq Hr Hid Hc.
  apply (ticks_unended base size Hb Hs He rip k _ q t G Hq); [|done|done]. unfold ended. by rewrite Hr.
Qed.

Definition three_tasks : list sop :=
  [OCreate [97] 4660 1 TASK_PRIORITY_HIGH; OAdd 0; OCreate [98] 22136 2 TASK_PRIORITY_HIGH; OAdd 1;
   OCreate [99] 22136 2 TASK_PRIORITY_NORMAL; OAdd 2; OEnter 0; ORunning true].

Lemma three_tasks_ok : sops_ok 4096 65536 1 2 3 demo_boot three_tasks.
Proof. unfold three_tasks. cbn [sops_ok]. repeat (split; [cbn [sop_ok]; demo_sop|]). exact I. Qed.

Lemma three_tasks_queue : queue (foldl (sstep 65536 1 2 3) demo_boot three_tasks) = [0; 1; 2].
Proof. vm_compute; reflexivity. Qed.

Lemma low_priority_starves_witness :
  let s := foldl (sstep 65536 1 2 3) demo_boot three_tasks in
  current_task (Nat.iter 1000000 (scheduler_tick 65536 2) s) <> Some 2.
Proof.
  apply (low_priority_starves 4096 65536 1 2 3 boot_heap SCHED_POLICY_PRIORITY three_tasks 2 1000000); [lia | unfold kheader_size; lia | lia | exact three_tasks_ok | | | |].
  - fold demo_boot. rewrite three_tasks_queue. right. right. left.
  - unfold is_ready. vm_compute. reflexivity.
  - vm_compute. discriminate.
  - fold demo_boot. rewrite three_tasks_queue. split; [vm_compute; reflexivity|]. split; [vm_compute; reflexivity|]. exists 0, 1. unfold is_ready.
    split_and!; try (vm_compute; reflexivity); [left | right; left | discriminate].
Defined.

(** A sleeping task on the queue stays asleep through every tick before its wake-up
    time and may run from the first tick that reaches it, unless the idle task. *)
Theorem sleeper_wakes_on_time (base size tramp rip pml4 : Z) h policy ops t k :
  0 <= base -> kheader_size <= size -> base + size < 2 ^ 64 ->
  sops_ok base size tramp rip pml4 (sched_boot base size h policy) ops ->
  let s := foldl (sstep size tramp rip pml4) (sched_boot base size h policy) ops in
  let now := total_ticks (stats s) in let w := wake_tick (task_at s t) in
  t ∈ queue s -> state (task_at s t) = TASK_STATE_SLEEPING -> idle_task s <> Some t -> 0 <= now < w -> w < 2 ^ 64 ->
  let s' := Nat.iter k (scheduler_tick size rip) s in
  (now + Z.of_nat k < w -> state (task_at s' t) = TASK_STATE_SLEEPING) /\
  (now + Z.of_nat k = w -> state (task_at s' t) = TASK_STATE_READY \/ state (task_at s' t) = TASK_STATE_RUNNING).
Proof.
  intros Hb Hs He Hok. destruct (ops_good base size tramp rip pml4 Hb Hs He ops _ (ex_intro _ [] (boot_good base size Hb Hs He h policy)) Hok) as [q G].
  cbv zeta. rewrite (queue_walk _ q (i_queue _ _ _ _ (proj1 G))). remember (foldl _ _ ops) as s eqn:Es. clear Es Hok. intros Hq Hst Hid Hnow Hw. split; intros Hk.
  - apply (ticks_asleep base size Hb Hs He rip k s q t); try done; lia.
  - destruct k as [|k]; [cbn in Hk; lia|].
    destruct (ticks_asleep base size Hb Hs He rip k s q t G Hq Hst Hid) as (R1 & R2 & R3 & q1 & G1 & Hq1 & Hid1); [lia | lia | done |].
    rewrite Nat.iter_succ. destruct (tick_settled base size Hb Hs He rip _ q1 t G1 Hq1 ltac:(unfold ended; by rewrite R1) Hid1) as (q2 & _ & _ & _ & _ & Hset).
    rewrite R3, u64_small in Hset by lia. unfold woken in Hset. rewrite R1, R2 in Hset.
    replace (wake_tick (task_at s t) <=? total_ticks (stats s) + Z.of_nat k + 1) with true in Hset by lia.
    destruct Hset as (_ & _ & Hrun). apply Hrun. by left.
Qed.

Definition sleeper : list sop := two_tasks ++ [OSleepCurrent 5].

Lemma sleeper_ok : sops_ok 4096 65536 1 2 3 demo_boot sleeper.
Proof. unfold sleeper, two_tasks. cbn [sops_ok app]. repeat (split; [cbn [sop_ok]; demo_sop|]). exact I. Qed.

Lemma sleeper_queue : queue (foldl (sstep 65536 1 2 3) demo_boot sleeper) = [0; 1].
Proof. vm_compute; reflexivity. Qed.

Lemma sleeper_wakes_on_time_witness :
  let s := foldl (sstep 65536 1 2 3) demo_boot sleeper in
  let now := total_ticks (stats s) in let w := wake_tick (task_at s 0) in
  let s' := Nat.iter 4 (scheduler_tick 65536 2) s in
  (now + 4 < w -> state (task_at s' 0) = TASK_STATE_SLEEPING) /\
  (now + 4 = w -> state (task_at s' 0) = TASK_STATE_READY \/ state (task_at s' 0) = TASK_STATE_RUNNING).
Proof.
  apply (sleeper_wakes_on_time 4096 65536 1 2 3 boot_heap SCHED_POLICY_PRIORITY sleeper 0 4);
    [lia | unfold kheader_size; lia | lia | exact sleeper_ok | | | | |].
  - fold demo_boot. rewrite sleeper_queue. left.
  - vm_compute. reflexivity.
  - vm_compute. discriminate.
  - vm_compute. split; [discriminate | reflexivity].
  - vm_compute. reflexivity.
Defined.
