(* ===== verification/BufferCache.v ===== *)
(** * The buffer cache

    Models src/fs/cache/buffer_cache.c: the pool of [BUFFER_CACHE_MAX] buffer
    heads with their intrusive LRU list and hash chains, and every operation.  A
    [struct buffer_head *] is the index of the head in the pool ([None] is NULL); a
    [struct block_device *] is its address, a [Z] with 0 for NULL, and [devs] maps
    an address to the device there.  All devices act on one world [W].

    [logical] is what the cache promises its clients: the contents of a block are
    those of its buffer when one is cached, and those of the device otherwise.
    klog output is not modelled. *)
From S2P Require Import Prelude BlockDevice Dll.
Local Open Scope capy_scope.

Definition BUFFER_HASH_SIZE : Z := 256.
Definition BUFFER_CACHE_MAX : Z := 64.
Definition BUFFER_BLOCK_SIZE : Z := 4096.

Record buffer_head := mkBh {
  bh_dev : Z;
  bh_block_no : Z;
  bh_data : list Z;
  bh_dirty : bool;
  bh_valid : bool;
  bh_refcount : Z;
  hash_next : option Z;
  lru_prev : option Z;
  lru_next : option Z }.

Record buffer_cache_stats := mkStats {
  st_capacity : Z; st_valid : Z; st_dirty : Z; st_pinned : Z;
  st_hits : Z; st_misses : Z; st_evictions : Z; st_writebacks : Z;
  st_read_errors : Z; st_write_errors : Z; st_readaheads : Z; st_writeback_passes : Z }.

Record cache := mkCache {
  buffer_cache : list buffer_head;
  hash_table : list (option Z);
  lru_head : option Z;
  lru_tail : option Z;
  cache_initialized : bool;
  g_last_error_block_no : Z;
  g_last_error_valid : bool;
  g_last_error_code : Z;
  g_buffer_cache_stats : buffer_cache_stats }.

Definition zero_bh : buffer_head := mkBh 0 0 (zrep BUFFER_BLOCK_SIZE 0) false false 0 None None None.
Definition zero_stats : buffer_cache_stats := mkStats 0 0 0 0 0 0 0 0 0 0 0 0.

(** The statics at boot. *)
Definition cache_boot : cache :=
  mkCache (zrep BUFFER_CACHE_MAX zero_bh) (zrep BUFFER_HASH_SIZE None) None None false 0 false 0 zero_stats.

(** ** Field updates *)
Definition set_dev v b := mkBh v (bh_block_no b) (bh_data b) (bh_dirty b) (bh_valid b) (bh_refcount b) (hash_next b) (lru_prev b) (lru_next b).
Definition set_block_no v b := mkBh (bh_dev b) v (bh_data b) (bh_dirty b) (bh_valid b) (bh_refcount b) (hash_next b) (lru_prev b) (lru_next b).
Definition set_data v b := mkBh (bh_dev b) (bh_block_no b) v (bh_dirty b) (bh_valid b) (bh_refcount b) (hash_next b) (lru_prev b) (lru_next b).
Definition set_dirty v b := mkBh (bh_dev b) (bh_block_no b) (bh_data b) v (bh_valid b) (bh_refcount b) (hash_next b) (lru_prev b) (lru_next b).
Definition set_valid v b := mkBh (bh_dev b) (bh_block_no b) (bh_data b) (bh_dirty b) v (bh_refcount b) (hash_next b) (lru_prev b) (lru_next b).
Definition set_refcount v b := mkBh (bh_dev b) (bh_block_no b) (bh_data b) (bh_dirty b) (bh_valid b) v (hash_next b) (lru_prev b) (lru_next b).
Definition set_hash_next v b := mkBh (bh_dev b) (bh_block_no b) (bh_data b) (bh_dirty b) (bh_valid b) (bh_refcount b) v (lru_prev b) (lru_next b).
Definition set_lru_prev v b := mkBh (bh_dev b) (bh_block_no b) (bh_data b) (bh_dirty b) (bh_valid b) (bh_refcount b) (hash_next b) v (lru_next b).
Definition set_lru_next v b := mkBh (bh_dev b) (bh_block_no b) (bh_data b) (bh_dirty b) (bh_valid b) (bh_refcount b) (hash_next b) (lru_prev b) v.

Definition bh_at (c : cache) (i : Z) : buffer_head := aget zero_bh (buffer_cache c) i.

Definition upd (i : Z) (f : buffer_head -> buffer_head) (c : cache) : cache :=
  mkCache (aset (buffer_cache c) i (f (bh_at c i))) (hash_table c) (lru_head c) (lru_tail c)
    (cache_initialized c) (g_last_error_block_no c) (g_last_error_valid c) (g_last_error_code c)
    (g_buffer_cache_stats c).
Definition set_lru_head v c := mkCache (buffer_cache c) (hash_table c) v (lru_tail c) (cache_initialized c) (g_last_error_block_no c) (g_last_error_valid c) (g_last_error_code c) (g_buffer_cache_stats c).
Definition set_lru_tail v c := mkCache (buffer_cache c) (hash_table c) (lru_head c) v (cache_initialized c) (g_last_error_block_no c) (g_last_error_valid c) (g_last_error_code c) (g_buffer_cache_stats c).
Definition set_bucket k v c := mkCache (buffer_cache c) (aset (hash_table c) k v) (lru_head c) (lru_tail c) (cache_initialized c) (g_last_error_block_no c) (g_last_error_valid c) (g_last_error_code c) (g_buffer_cache_stats c).
Definition set_error n v e c := mkCache (buffer_cache c) (hash_table c) (lru_head c) (lru_tail c) (cache_initialized c) n v e (g_buffer_cache_stats c).
Definition set_stats s c := mkCache (buffer_cache c) (hash_table c) (lru_head c) (lru_tail c) (cache_initialized c) (g_last_error_block_no c) (g_last_error_valid c) (g_last_error_code c) s.
Definition set_initialized v c := mkCache (buffer_cache c) (hash_table c) (lru_head c) (lru_tail c) v (g_last_error_block_no c) (g_last_error_valid c) (g_last_error_code c) (g_buffer_cache_stats c).

(** The 64-bit event counters. *)
Definition count_hit s := mkStats (st_capacity s) (st_valid s) (st_dirty s) (st_pinned s) (u64 (st_hits s + 1)) (st_misses s) (st_evictions s) (st_writebacks s) (st_read_errors s) (st_write_errors s) (st_readaheads s) (st_writeback_passes s).
Definition count_miss s := mkStats (st_capacity s) (st_valid s) (st_dirty s) (st_pinned s) (st_hits s) (u64 (st_misses s + 1)) (st_evictions s) (st_writebacks s) (st_read_errors s) (st_write_errors s) (st_readaheads s) (st_writeback_passes s).
Definition count_eviction s := mkStats (st_capacity s) (st_valid s) (st_dirty s) (st_pinned s) (st_hits s) (st_misses s) (u64 (st_evictions s + 1)) (st_writebacks s) (st_read_errors s) (st_write_errors s) (st_readaheads s) (st_writeback_passes s).
Definition count_writeback s := mkStats (st_capacity s) (st_valid s) (st_dirty s) (st_pinned s) (st_hits s) (st_misses s) (st_evictions s) (u64 (st_writebacks s + 1)) (st_read_errors s) (st_write_errors s) (st_readaheads s) (st_writeback_passes s).
Definition count_read_error s := mkStats (st_capacity s) (st_valid s) (st_dirty s) (st_pinned s) (st_hits s) (st_misses s) (st_evictions s) (st_writebacks s) (u64 (st_read_errors s + 1)) (st_write_errors s) (st_readaheads s) (st_writeback_passes s).
Definition count_write_error s := mkStats (st_capacity s) (st_valid s) (st_dirty s) (st_pinned s) (st_hits s) (st_misses s) (st_evictions s) (st_writebacks s) (st_read_errors s) (u64 (st_write_errors s + 1)) (st_readaheads s) (st_writeback_passes s).
Definition count_readaheads n s := mkStats (st_capacity s) (st_valid s) (st_dirty s) (st_pinned s) (st_hits s) (st_misses s) (st_evictions s) (st_writebacks s) (st_read_errors s) (st_write_errors s) (u64 (st_readaheads s + n)) (st_writeback_passes s).
Definition count_pass s := mkStats (st_capacity s) (st_valid s) (st_dirty s) (st_pinned s) (st_hits s) (st_misses s) (st_evictions s) (st_writebacks s) (st_read_errors s) (st_write_errors s) (st_readaheads s) (u64 (st_writeback_passes s + 1)).

Definition bump (f : buffer_cache_stats -> buffer_cache_stats) (c : cache) : cache :=
  set_stats (f (g_buffer_cache_stats c)) c.

(** ** Lists and hash chains *)
Definition buffer_hash (dev block_no : Z) : Z :=
  Z.lxor dev (u32 (block_no * 2654435761)) `mod` BUFFER_HASH_SIZE.

Definition lru_remove (i : Z) (c : cache) : cache :=
  let c := match lru_prev (bh_at c i) with
           | Some p => upd p (set_lru_next (lru_next (bh_at c i))) c
           | None => set_lru_head (lru_next (bh_at c i)) c
           end in
  let c := match lru_next (bh_at c i) with
           | Some n => upd n (set_lru_prev (lru_prev (bh_at c i))) c
           | None => set_lru_tail (lru_prev (bh_at c i)) c
           end in
  upd i (fun b => set_lru_prev None (set_lru_next None b)) c.

Definition lru_insert_front (i : Z) (c : cache) : cache :=
  let c := upd i (set_lru_prev None) c in
  let c := upd i (set_lru_next (lru_head c)) c in
  let c := match lru_head c with
           | Some h => upd h (set_lru_prev (Some i)) c
           | None => set_lru_tail (Some i) c
           end in
  set_lru_head (Some i) c.

Definition same_block (dev block_no : Z) (b : buffer_head) : bool :=
  (bh_dev b =? dev) && (bh_block_no b =? block_no).

(** The [while (bh)] walk of a chain; at most one turn per buffer. *)
Fixpoint lookup_loop (fuel : nat) (dev block_no : Z) (p : option Z) (c : cache) : option Z :=
  match fuel, p with
  | S fuel, Some i =>
      if same_block dev block_no (bh_at c i) then Some i
      else lookup_loop fuel dev block_no (hash_next (bh_at c i)) c
  | _, _ => None
  end.

Definition hash_lookup (dev block_no : Z) (c : cache) : option Z :=
  lookup_loop (Z.to_nat BUFFER_CACHE_MAX) dev block_no
    (aget None (hash_table c) (buffer_hash dev block_no)) c.

(** [link] is the bucket ([None]) or the [hash_next] field of a head. *)
Definition read_link (index : Z) (link : option Z) (c : cache) : option Z :=
  match link with None => aget None (hash_table c) index | Some j => hash_next (bh_at c j) end.
Definition write_link (index : Z) (link : option Z) (v : option Z) (c : cache) : cache :=
  match link with None => set_bucket index v c | Some j => upd j (set_hash_next v) c end.

Fixpoint hash_remove_loop (fuel : nat) (index : Z) (link : option Z) (i : Z) (c : cache) : cache :=
  match fuel, read_link index link c with
  | S fuel, Some j =>
      if j =? i
      then upd i (set_hash_next None) (write_link index link (hash_next (bh_at c i)) c)
      else hash_remove_loop fuel index (Some j) i c
  | _, _ => c
  end.

Definition hash_remove (i : Z) (c : cache) : cache :=
  hash_remove_loop (S (Z.to_nat BUFFER_CACHE_MAX))
    (buffer_hash (bh_dev (bh_at c i)) (bh_block_no (bh_at c i))) None i c.

Definition hash_insert (i : Z) (c : cache) : cache :=
  let index := buffer_hash (bh_dev (bh_at c i)) (bh_block_no (bh_at c i)) in
  set_bucket index (Some i) (upd i (set_hash_next (aget None (hash_table c) index)) c).

(** [while (bh && bh->refcount) bh = bh->lru_prev;] *)
Fixpoint victim_loop (fuel : nat) (p : option Z) (c : cache) : option Z :=
  match fuel, p with
  | S fuel, Some i => if truthy (bh_refcount (bh_at c i)) then victim_loop fuel (lru_prev (bh_at c i)) c
                      else Some i
  | _, _ => None
  end.

(** One turn of the first loop of [buffer_cache_init]. *)
Definition init_head (i : Z) (c : cache) : cache :=
  lru_insert_front i (upd i (fun b => mkBh 0 0 (bh_data b) false false 0 None None None) c).

Definition buffer_cache_init (c : cache) : cache :=
  if cache_initialized c then c else
  let c := for_range 0 BUFFER_CACHE_MAX init_head c in
  let c := for_range 0 BUFFER_HASH_SIZE (fun i c => set_bucket i None c) c in
  set_initialized true (set_stats (mkStats BUFFER_CACHE_MAX 0 0 0 0 0 0 0 0 0 0 0) c).

Definition buffer_mark_dirty (p : option Z) (c : cache) : cache :=
  match p with None => c | Some i => upd i (set_dirty true) c end.

Definition buffer_release (p : option Z) (c : cache) : cache :=
  match p with
  | None => c
  | Some i =>
      if bh_refcount (bh_at c i) =? 0 then c else
      let c := upd i (set_refcount (u16 (bh_refcount (bh_at c i) - 1))) c in
      if bh_refcount (bh_at c i) =? 0 then lru_insert_front i c else c
  end.

(** One turn of the loop of [buffer_cache_invalidate]. *)
Definition invalidate_step (dev i : Z) (c : cache) : cache :=
  if negb (bh_dev (bh_at c i) =? dev) then c else
  let c := hash_remove i c in
  let c := if bh_refcount (bh_at c i) =? 0 then lru_remove i c else c in
  let c := upd i (fun b => mkBh 0 0 (bh_data b) false false (bh_refcount b) None (lru_prev b) (lru_next b)) c in
  if bh_refcount (bh_at c i) =? 0 then lru_insert_front i c else c.

Definition buffer_cache_invalidate (dev : Z) (c : cache) : cache :=
  if dev =? 0 then c else for_range 0 BUFFER_CACHE_MAX (invalidate_step dev) c.

Definition buffer_cache_stats_get (c : cache) : buffer_cache_stats * cache :=
  let c := if cache_initialized c then c else buffer_cache_init c in
  let s := g_buffer_cache_stats c in
  let out := mkStats BUFFER_CACHE_MAX 0 0 0 (st_hits s) (st_misses s) (st_evictions s) (st_writebacks s)
               (st_read_errors s) (st_write_errors s) (st_readaheads s) (st_writeback_passes s) in
  (for_range 0 BUFFER_CACHE_MAX (fun i o =>
     let b := bh_at c i in
     mkStats (st_capacity o)
       (if bh_valid b then u32 (st_valid o + 1) else st_valid o)
       (if bh_dirty b then u32 (st_dirty o + 1) else st_dirty o)
       (if negb (bh_refcount b =? 0) then u32 (st_pinned o + 1) else st_pinned o)
       (st_hits o) (st_misses o) (st_evictions o) (st_writebacks o)
       (st_read_errors o) (st_write_errors o) (st_readaheads o) (st_writeback_passes o)) out, c).

(** Return code and [*out_block_no]. *)
Definition buffer_cache_last_error_block (out_null : bool) (c : cache) : Z * option Z :=
  if out_null || negb (g_last_error_valid c) then (-1, None) else (0, Some (g_last_error_block_no c)).

Definition buffer_cache_last_error_code (c : cache) : Z := g_last_error_code c.

Definition buffer_cache_dirty_count (dev : Z) (c : cache) : Z * cache :=
  let c := if cache_initialized c then c else buffer_cache_init c in
  (for_range 0 BUFFER_CACHE_MAX (fun i count =>
     let b := bh_at c i in
     if negb (bh_valid b) || negb (bh_dirty b) then count else
     if truthy dev && negb (bh_dev b =? dev) then count else u32 (count + 1)) 0, c).

Section io.
Context {W : Type} (devs : Z -> option (block_device W)).

Definition buffer_write_back (p : option Z) (c : cache) (w : W) : Z * cache * W :=
  match p with
  | None => (0, c, w)
  | Some i =>
      let b := bh_at c i in
      if (bh_dev b =? 0) || negb (bh_dirty b) || negb (bh_valid b) then (0, c, w) else
      let '(rc, w) := block_device_write (devs (bh_dev b)) (bh_block_no b) (bh_data b) w in
      if negb (rc =? 0) then (rc, bump count_write_error c, w) else
      (0, bump count_writeback (upd i (set_dirty false) c), w)
  end.

Definition buffer_evict (c : cache) (w : W) : option Z * cache * W :=
  match victim_loop (Z.to_nat BUFFER_CACHE_MAX) (lru_tail c) c with
  | None => (None, c, w)
  | Some i =>
      let c := lru_remove i c in
      let '(c, w) := if bh_dirty (bh_at c i) && bh_valid (bh_at c i)
                     then let '(_, c, w) := buffer_write_back (Some i) c w in (c, w) else (c, w) in
      let c := if bh_valid (bh_at c i) || truthy (bh_dev (bh_at c i)) then bump count_eviction c else c in
      let c := hash_remove i c in
      let c := upd i (fun b => set_valid false (set_dirty false (set_block_no 0 (set_dev 0 b)))) c in
      (Some i, c, w)
  end.

Definition buffer_get (dev block_no : Z) (c : cache) (w : W) : option Z * cache * W :=
  let c := if cache_initialized c then c else buffer_cache_init c in
  match devs dev with
  | None => (None, c, w)
  | Some d =>
      if negb (dev_block_size d =? BUFFER_BLOCK_SIZE) then (None, c, w) else
      match hash_lookup dev block_no c with
      | Some i =>
          let c := bump count_hit c in
          let c := if bh_refcount (bh_at c i) =? 0 then lru_remove i c else c in
          (Some i, upd i (fun b => set_refcount (u16 (bh_refcount b + 1)) b) c, w)
      | None =>
          let c := bump count_miss c in
          let '(p, c, w) := buffer_evict c w in
          match p with
          | None => (None, c, w)
          | Some i =>
              let c := upd i (fun b => set_refcount 1 (set_block_no block_no (set_dev dev b))) c in
              let '(rc, data, w) := block_device_read (devs dev) block_no (bh_data (bh_at c i)) w in
              let c := upd i (set_data data) c in
              if negb (rc =? 0) then
                let c := bump count_read_error c in
                let c := upd i (fun b => set_refcount 0 (set_dev 0 b)) c in
                (None, lru_insert_front i c, w)
              else
                let c := upd i (fun b => set_dirty false (set_valid true b)) c in
                (Some i, hash_insert i c, w)
          end
      end
  end.

Definition buffer_cache_sync (dev : Z) (c : cache) (w : W) : Z * cache * W :=
  for_range 0 BUFFER_CACHE_MAX (fun i '(rc, c, w) =>
    let b := bh_at c i in
    if (bh_dev b =? dev) && bh_dirty b && bh_valid b then
      let '(wrc, c, w) := buffer_write_back (Some i) c w in
      if negb (wrc =? 0) then
        (-1, if negb (g_last_error_valid c) then set_error (bh_block_no (bh_at c i)) true wrc c else c, w)
      else (rc, c, w)
    else (rc, c, w)) (0, set_error 0 false 0 c, w).

Definition buffer_cache_readahead (dev start_block count : Z) (c : cache) (w : W) : Z * cache * W :=
  let c := if cache_initialized c then c else buffer_cache_init c in
  match devs dev with
  | None => (0, c, w)
  | Some d =>
      if negb (dev_block_size d =? BUFFER_BLOCK_SIZE) || (count =? 0) then (0, c, w) else
      let '(loaded, c, w) :=
        match until_range 0 count (fun i '(loaded, c, w) =>
          let n := u32 (start_block + i) in
          if n <? start_block then inr (loaded, c, w) else
          if truthy (dev_block_count d) && (dev_block_count d <=? n) then inr (loaded, c, w) else
          let '(p, c, w) := buffer_get dev n c w in
          match p with
          | None => inr (loaded, c, w)
          | Some _ => inl (u32 (loaded + 1), buffer_release p c, w)
          end) (0, c, w) with
        | inl r => r
        | inr r => r
        end in
      (loaded, bump (count_readaheads loaded) c, w)
  end.

(** The walk from the tail; [prev] is read before the write-back. *)
Fixpoint writeback_loop (fuel : nat) (dev max_blocks written : Z) (p : option Z) (c : cache) (w : W)
  : Z * cache * W :=
  match fuel, p with
  | S fuel, Some i =>
      if negb (written <? max_blocks) then (written, c, w) else
      let prev := lru_prev (bh_at c i) in
      let b := bh_at c i in
      if bh_valid b && bh_dirty b && ((dev =? 0) || (bh_dev b =? dev)) then
        let '(rc, c, w) := buffer_write_back p c w in
        if negb (rc =? 0) then (written, c, w)
        else writeback_loop fuel dev max_blocks (u32 (written + 1)) prev c w
      else writeback_loop fuel dev max_blocks written prev c w
  | _, _ => (written, c, w)
  end.

Definition buffer_cache_writeback_pass (dev max_blocks : Z) (c : cache) (w : W) : Z * cache * W :=
  let c := if cache_initialized c then c else buffer_cache_init c in
  if max_blocks =? 0 then (0, c, w) else
  let '(written, c, w) :=
    writeback_loop (Z.to_nat BUFFER_CACHE_MAX) dev max_blocks 0 (lru_tail c) c w in
  (written, if 0 <? written then bump count_pass c else c, w).
End io.

(** ** Representation of the two kinds of lists *)
Definition in_pool (i : Z) : Prop := 0 <= i < BUFFER_CACHE_MAX.
Definition opt_in_pool (p : option Z) : Prop := match p with Some i => in_pool i | None => True end.

(** The part of a buffer head the list operations leave alone. *)
Definition core (b : buffer_head) : Z * Z * list Z * bool * bool * Z :=
  (bh_dev b, bh_block_no b, bh_data b, bh_dirty b, bh_valid b, bh_refcount b).

(** [c'] differs from [c] only in links, list ends and buckets. *)
Record links_only (c c' : cache) : Prop := {
  lo_core j : 0 <= j -> core (bh_at c' j) = core (bh_at c j);
  lo_init : cache_initialized c' = cache_initialized c;
  lo_stats : g_buffer_cache_stats c' = g_buffer_cache_stats c }.

Record rep (c : cache) (lru : list Z) (hb : Z -> list Z) : Prop := {
  rp_pool : zlen (buffer_cache c) = BUFFER_CACHE_MAX;
  rp_table : zlen (hash_table c) = BUFFER_HASH_SIZE;
  rp_lru : dll (fun i => lru_next (bh_at c i)) (fun i => lru_prev (bh_at c i)) (lru_head c) (lru_tail c) lru;
  rp_lru_nodup : NoDup lru;
  rp_lru_pool i : i ∈ lru -> in_pool i;
  rp_chain k : 0 <= k < BUFFER_HASH_SIZE ->
    chain (fun i => hash_next (bh_at c i)) (aget None (hash_table c) k) (hb k);
  rp_hb_nodup k : NoDup (hb k);
  rp_hb_pool k i : i ∈ hb k -> in_pool i;
  rp_hb_disj k k' i : i ∈ hb k -> i ∈ hb k' -> k = k' }.

Section lists.
Implicit Types (c : cache) (i j k : Z).

Lemma bh_at_upd c i j f : zlen (buffer_cache c) = BUFFER_CACHE_MAX -> in_pool i -> 0 <= j ->
  bh_at (upd i f c) j = if j =? i then f (bh_at c i) else bh_at c j.
Proof. intros Hl Hi Hj. unfold bh_at, upd; simpl. apply aget_aset; [|done]. unfold in_pool in Hi. lia. Qed.

Lemma pool_upd c i f : zlen (buffer_cache (upd i f c)) = zlen (buffer_cache c).
Proof. apply zlen_aset. Qed.

Lemma next_id (b : buffer_head) : set_lru_next (lru_next b) b = b.
Proof. by destruct b. Qed.
Lemma prev_id (b : buffer_head) : set_lru_prev (lru_prev b) b = b.
Proof. by destruct b. Qed.

(** Every head after [lru_remove i], for a head [i] not linked to itself. *)
Lemma lru_remove_at c i j : zlen (buffer_cache c) = BUFFER_CACHE_MAX -> in_pool i -> 0 <= j ->
  let p := lru_prev (bh_at c i) in let n := lru_next (bh_at c i) in
  opt_in_pool p -> opt_in_pool n -> p <> Some i -> n <> Some i ->
  bh_at (lru_remove i c) j =
  if j =? i then set_lru_prev None (set_lru_next None (bh_at c i))
  else set_lru_next (if decide (p = Some j) then n else lru_next (bh_at c j))
        (set_lru_prev (if decide (n = Some j) then p else lru_prev (bh_at c j)) (bh_at c j)).
Proof.
  intros Hl Hi Hj p n Hp Hn Hpi Hni. unfold lru_remove. fold p n.
  assert (Hi0 : 0 <= i) by (unfold in_pool in Hi; lia).
  set (c1 := match p with Some q => upd q (set_lru_next n) c | None => set_lru_head n c end).
  assert (Hl1 : zlen (buffer_cache c1) = BUFFER_CACHE_MAX) by (unfold c1; destruct p; rewrite ?pool_upd; done).
  assert (H1 : forall m, 0 <= m -> bh_at c1 m =
    set_lru_next (if decide (p = Some m) then n else lru_next (bh_at c m)) (bh_at c m)).
  { intros m Hm. unfold c1. destruct p as [q|]; simpl in Hp.
    - rewrite bh_at_upd by done. destruct (Z.eqb_spec m q) as [->|]; [by rewrite decide_True|].
      rewrite decide_False by congruence. by rewrite next_id.
    - rewrite decide_False by done. by rewrite next_id. }
  assert (E1 : bh_at c1 i = bh_at c i).
  { rewrite H1 by done. rewrite decide_False by done. by rewrite next_id. }
  rewrite E1. fold p n.
  set (c2 := match n with Some q => upd q (set_lru_prev p) c1 | None => set_lru_tail p c1 end).
  assert (Hl2 : zlen (buffer_cache c2) = BUFFER_CACHE_MAX) by (unfold c2; destruct n; rewrite ?pool_upd; done).
  assert (H2 : forall m, 0 <= m -> bh_at c2 m =
    set_lru_prev (if decide (n = Some m) then p else lru_prev (bh_at c1 m)) (bh_at c1 m)).
  { intros m Hm. unfold c2. destruct n as [q|]; simpl in Hn.
    - rewrite bh_at_upd by done. destruct (Z.eqb_spec m q) as [->|]; [by rewrite decide_True|].
      rewrite decide_False by congruence. by rewrite prev_id.
    - rewrite decide_False by done. by rewrite prev_id. }
  rewrite bh_at_upd by done. destruct (Z.eqb_spec j i) as [->|].
  - rewrite H2, E1 by done. rewrite decide_False by done. done.
  - rewrite H2, H1 by done. done.
Qed.

Lemma lru_remove_globals c i :
  let p := lru_prev (bh_at c i) in let n := lru_next (bh_at c i) in
  zlen (buffer_cache c) = BUFFER_CACHE_MAX -> in_pool i -> opt_in_pool p -> p <> Some i ->
  lru_head (lru_remove i c) = (if decide (p = None) then n else lru_head c) /\
  lru_tail (lru_remove i c) = (if decide (n = None) then p else lru_tail c) /\
  zlen (buffer_cache (lru_remove i c)) = zlen (buffer_cache c) /\
  hash_table (lru_remove i c) = hash_table c /\
  cache_initialized (lru_remove i c) = cache_initialized c /\
  g_buffer_cache_stats (lru_remove i c) = g_buffer_cache_stats c.
Proof.
  intros p n Hl Hi Hp Hpi. unfold lru_remove. fold p n.
  set (c1 := match p with Some q => upd q (set_lru_next n) c | None => set_lru_head n c end).
  assert (E1 : lru_next (bh_at c1 i) = n /\ lru_prev (bh_at c1 i) = p).
  { unfold c1. destruct p as [q|] eqn:Ep; [|done]. unfold in_pool in *.
    rewrite bh_at_upd by (done || lia). destruct (Z.eqb_spec i q); [congruence | done]. }
  destruct E1 as [-> ->]. unfold c1. destruct p, n; simpl; rewrite ?zlen_aset; done.
Qed.

Lemma lru_remove_rep c lru hb i l1 l2 : rep c lru hb -> lru = l1 ++ i :: l2 ->
  rep (lru_remove i c) (l1 ++ l2) hb /\ links_only c (lru_remove i c).
Proof.
  intros [Hpool Htab Hlru Hnd Hrng Hch Hcnd Hcp Hdj] ->.
  assert (Hi : in_pool i) by (apply Hrng; set_solver).
  pose proof Hlru as (Hh & Ht & Hl). destruct (Hl l1 i l2 eq_refl) as [Hp Hn].
  pose proof Hnd as Hnd'. apply NoDup_app in Hnd' as (Hnd1 & Hdisj & Hnd2). apply NoDup_cons in Hnd2 as [Hi2 Hnd2].
  assert (Hop : opt_in_pool (lru_prev (bh_at c i))).
  { rewrite Hp. destruct (last l1) eqn:E; [|done]. apply Hrng. apply last_in in E. set_solver. }
  assert (Hon : opt_in_pool (lru_next (bh_at c i))).
  { rewrite Hn. destruct (head l2) eqn:E; [|done]. apply Hrng. apply head_in in E. set_solver. }
  assert (Hpi : lru_prev (bh_at c i) <> Some i).
  { rewrite Hp. intros E. apply last_in in E. apply (Hdisj i); [done | set_solver]. }
  assert (Hni : lru_next (bh_at c i) <> Some i) by (rewrite Hn; intros E; by apply head_in in E).
  pose proof (lru_remove_at c i) as Hat. pose proof (lru_remove_globals c i Hpool Hi Hop Hpi) as
    (Eh & Et & Ep & Eta & Ei & Es).
  assert (Hlinks : forall j, 0 <= j -> core (bh_at (lru_remove i c) j) = core (bh_at c j) /\
    hash_next (bh_at (lru_remove i c) j) = hash_next (bh_at c j)).
  { intros j Hj. rewrite Hat by done. destruct (Z.eqb_spec j i) as [->|]; done. }
  assert (Hmem : forall j, j ∈ l1 ++ l2 -> in_pool j /\ j <> i).
  { intros j Hj. split; [apply Hrng; set_solver|]. intros ->. apply elem_of_app in Hj as [?|?]; [|done].
    apply (Hdisj i); [done | set_solver]. }
  split; [|by constructor; [apply Hlinks| |]].
  constructor; try done.
  - by rewrite Ep.
  - by rewrite Eta.
  - rewrite Eh, Et. apply (dll_remove _ _ _ _ _ _ l1 i l2 Hnd Hlru). intros j Hj.
    destruct (Hmem j Hj) as [Hjp Hne]. unfold in_pool in Hjp. rewrite Hat by (done || lia).
    by replace (j =? i) with false by lia.
  - apply NoDup_app. set_solver.
  - intros j Hj. by apply Hmem.
  - intros k Hk. rewrite Eta. eapply chain_ext; [by apply Hch|]. intros j Hj. simpl.
    apply Hlinks. apply Hcp in Hj. unfold in_pool in Hj. lia.
Qed.

Lemma lru_insert_rep c lru hb i : rep c lru hb -> in_pool i -> i ∉ lru ->
  rep (lru_insert_front i c) (i :: lru) hb /\ links_only c (lru_insert_front i c).
Proof.
  intros [Hpool Htab Hlru Hnd Hrng Hch Hcnd Hcp Hdj] Hi Hni.
  pose proof Hlru as (Hh & _). assert (Hi0 : 0 <= i) by (unfold in_pool in Hi; lia).
  assert (Hhd : opt_in_pool (lru_head c) /\ lru_head c <> Some i).
  { rewrite Hh. destruct lru as [|a l]; [done|]. simpl. split; [apply Hrng; set_solver | set_solver]. }
  destruct Hhd as [Hhp Hhi].
  assert (Hat : forall j, 0 <= j -> bh_at (lru_insert_front i c) j =
    if j =? i then set_lru_next (lru_head c) (set_lru_prev None (bh_at c i))
    else set_lru_prev (if decide (lru_head c = Some j) then Some i else lru_prev (bh_at c j)) (bh_at c j)).
  { intros j Hj. unfold lru_insert_front; simpl.
    assert (H0 : forall m, 0 <= m -> bh_at (upd i (set_lru_next (lru_head c)) (upd i (set_lru_prev None) c)) m =
      if m =? i then set_lru_next (lru_head c) (set_lru_prev None (bh_at c i)) else bh_at c m).
    { intros m Hm. rewrite !bh_at_upd by (rewrite ?pool_upd; done). rewrite Z.eqb_refl.
      by destruct (Z.eqb_spec m i). }
    destruct (lru_head c) as [h|] eqn:Eh; simpl in Hhp.
    - change (bh_at (upd h (set_lru_prev (Some i)) (upd i (set_lru_next (Some h)) (upd i (set_lru_prev None) c))) j =
        if j =? i then set_lru_next (Some h) (set_lru_prev None (bh_at c i))
        else set_lru_prev (if decide (Some h = Some j) then Some i else lru_prev (bh_at c j)) (bh_at c j)).
      assert (0 <= h) by (unfold in_pool in Hhp; lia).
      rewrite bh_at_upd, !H0 by (rewrite ?pool_upd; done).
      destruct (Z.eqb_spec j h) as [->|].
      + replace (h =? i) with false by (symmetry; apply Z.eqb_neq; congruence). by rewrite decide_True.
      + destruct (Z.eqb_spec j i); [done|]. rewrite decide_False by congruence. by rewrite prev_id.
    - change (bh_at (upd i (set_lru_next None) (upd i (set_lru_prev None) c)) j =
        if j =? i then set_lru_next None (set_lru_prev None (bh_at c i))
        else set_lru_prev (if decide (@None Z = Some j) then Some i else lru_prev (bh_at c j)) (bh_at c j)).
      rewrite H0 by done. destruct (Z.eqb_spec j i); [done|]. rewrite decide_False by done. by rewrite prev_id. }
  assert (Hlinks : forall j, 0 <= j -> core (bh_at (lru_insert_front i c) j) = core (bh_at c j) /\
    hash_next (bh_at (lru_insert_front i c) j) = hash_next (bh_at c j)).
  { intros j Hj. rewrite Hat by done. destruct (Z.eqb_spec j i) as [->|]; done. }
  assert (Hg : lru_head (lru_insert_front i c) = Some i /\
    lru_tail (lru_insert_front i c) = (if decide (lru_head c = None) then Some i else lru_tail c) /\
    zlen (buffer_cache (lru_insert_front i c)) = zlen (buffer_cache c) /\
    hash_table (lru_insert_front i c) = hash_table c /\
    cache_initialized (lru_insert_front i c) = cache_initialized c /\
    g_buffer_cache_stats (lru_insert_front i c) = g_buffer_cache_stats c).
  { unfold lru_insert_front; simpl. destruct (lru_head c); simpl; rewrite !zlen_aset; done. }
  destruct Hg as (Eh & Et & Ep & Eta & Ei & Es).
  split; [|by constructor; [apply Hlinks| |]].
  constructor; try done.
  - by rewrite Ep.
  - by rewrite Eta.
  - rewrite Eh, Et. eapply (dll_push_front _ _ _ _ _ _ lru i Hni Hlru); try done.
    + simpl. rewrite Hat, Z.eqb_refl by done. done.
    + simpl. rewrite Hat, Z.eqb_refl by done. done.
    + intros j Hj. simpl. pose proof (Hrng j Hj) as Hjp. unfold in_pool in Hjp.
      rewrite Hat by lia. replace (j =? i) with false by (symmetry; apply Z.eqb_neq; set_solver). done.
  - by apply NoDup_cons.
  - intros j Hj. apply elem_of_cons in Hj as [->|Hj]; [done | by apply Hrng].
  - intros k Hk. rewrite Eta. eapply chain_ext; [by apply Hch|]. intros j Hj. simpl.
    apply Hlinks. apply Hcp in Hj. unfold in_pool in Hj. lia.
Qed.
End lists.

Section hashing.
Implicit Types (c : cache) (i j k : Z).

Lemma buffer_hash_range dev n : 0 <= buffer_hash dev n < BUFFER_HASH_SIZE.
Proof. apply Z.mod_pos_bound. done. Qed.

Definition update_hb (hb : Z -> list Z) (k : Z) (l : list Z) : Z -> list Z := fun k' => if k' =? k then l else hb k'.

Lemma chain_length c lru hb k : rep c lru hb -> (length (hb k) <= Z.to_nat BUFFER_CACHE_MAX)%nat.
Proof.
  intros Hr. pose proof (nodup_bound (hb k) BUFFER_CACHE_MAX (rp_hb_nodup _ _ _ Hr k)) as Hb.
  unfold zlen, in_pool, BUFFER_CACHE_MAX in *.
  specialize (Hb (fun i Hi => rp_hb_pool _ _ _ Hr k i Hi)). unfold BUFFER_CACHE_MAX in Hb. lia.
Qed.

Lemma lru_length c lru hb : rep c lru hb -> (length lru <= Z.to_nat BUFFER_CACHE_MAX)%nat.
Proof.
  intros Hr. pose proof (nodup_bound lru BUFFER_CACHE_MAX (rp_lru_nodup _ _ _ Hr)) as Hb.
  specialize (Hb (fun i Hi => rp_lru_pool _ _ _ Hr i Hi)). unfold zlen, BUFFER_CACHE_MAX in *. lia.
Qed.

Lemma hash_insert_rep c lru hb i : rep c lru hb -> in_pool i -> (forall k, i ∉ hb k) ->
  let k := buffer_hash (bh_dev (bh_at c i)) (bh_block_no (bh_at c i)) in
  rep (hash_insert i c) lru (update_hb hb k (i :: hb k)) /\ links_only c (hash_insert i c).
Proof.
  intros [Hpool Htab Hlru Hnd Hrng Hch Hcnd Hcp Hdj] Hi Hni k.
  pose proof (buffer_hash_range (bh_dev (bh_at c i)) (bh_block_no (bh_at c i))) as Hk. fold k in Hk.
  assert (Hat : forall j, 0 <= j -> bh_at (hash_insert i c) j =
    if j =? i then set_hash_next (aget None (hash_table c) k) (bh_at c i) else bh_at c j).
  { intros j Hj. unfold hash_insert. fold k. by rewrite <- bh_at_upd. }
  assert (Hlinks : forall j, 0 <= j -> core (bh_at (hash_insert i c) j) = core (bh_at c j) /\
    lru_next (bh_at (hash_insert i c) j) = lru_next (bh_at c j) /\
    lru_prev (bh_at (hash_insert i c) j) = lru_prev (bh_at c j)).
  { intros j Hj. rewrite Hat by done. by destruct (Z.eqb_spec j i) as [->|]. }
  split; [|constructor; [intros; by apply Hlinks | done | done]].
  constructor; try done.
  - unfold hash_insert; simpl. by rewrite zlen_aset.
  - unfold hash_insert; simpl. by rewrite zlen_aset.
  - eapply dll_ext; [apply Hlru|]. intros j Hj. simpl. apply Hlinks. apply Hrng in Hj. unfold in_pool in Hj. lia.
  - intros k' Hk'. unfold hash_insert, update_hb; simpl. fold k. rewrite aget_aset by lia.
    destruct (Z.eqb_spec k' k) as [->|].
    + eapply chain_push; [by apply Hch| |].
      * unfold in_pool in Hi. pose proof (Hat i ltac:(lia)) as E. rewrite Z.eqb_refl in E.
        unfold hash_insert in E. fold k in E. by rewrite E.
      * intros j Hj. apply Hcp in Hj as Hjp. unfold in_pool in Hjp. pose proof (Hat j ltac:(lia)) as E.
        unfold hash_insert in E. fold k in E. rewrite E.
        destruct (Z.eqb_spec j i) as [->|]; [by apply Hni in Hj | done].
    + eapply chain_ext; [by apply Hch|]. intros j Hj. apply Hcp in Hj as Hjp. unfold in_pool in Hjp.
      pose proof (Hat j ltac:(lia)) as E. unfold hash_insert in E. fold k in E. simpl in *. rewrite E.
      destruct (Z.eqb_spec j i) as [->|]; [by apply Hni in Hj | done].
  - intros k'. unfold update_hb. destruct (k' =? k); [|done]. by apply NoDup_cons.
  - intros k' j. unfold update_hb. destruct (Z.eqb_spec k' k) as [->|]; [|apply Hcp].
    intros Hj. apply elem_of_cons in Hj as [->|Hj]; [done | by apply Hcp in Hj].
  - intros k1 k2 j. unfold update_hb.
    destruct (Z.eqb_spec k1 k) as [->|], (Z.eqb_spec k2 k) as [->|]; rewrite ?elem_of_cons; try done.
    + intros [->|H1] H2; [by apply Hni in H2 | by eapply Hdj].
    + intros H1 [->|H2]; [by apply Hni in H1 | by eapply Hdj].
    + by apply Hdj.
Qed.

(** The pointer a chain holds after the prefix [m1]. *)
Lemma read_link_chain c k m1 m2 : chain (fun i => hash_next (bh_at c i)) (aget None (hash_table c) k) (m1 ++ m2) ->
  read_link k (last m1) c = head m2.
Proof.
  intros [Hh Hl]. unfold read_link. destruct m1 as [|x m1 _] using rev_ind; [done|].
  rewrite last_snoc. apply (Hl m1 x m2). by rewrite <- app_assoc.
Qed.

Lemma hash_remove_loop_found c k i m1 m2 l2 fuel : NoDup (m1 ++ m2 ++ i :: l2) ->
  chain (fun i => hash_next (bh_at c i)) (aget None (hash_table c) k) (m1 ++ m2 ++ i :: l2) ->
  (length m2 < fuel)%nat ->
  hash_remove_loop fuel k (last m1) i c =
  upd i (set_hash_next None) (write_link k (last (m1 ++ m2)) (hash_next (bh_at c i)) c).
Proof.
  revert m1 fuel. induction m2 as [|x m2 IH]; intros m1 fuel Hnd Hch Hf; (destruct fuel as [|fuel]; [simpl in Hf; lia|]).
  - cbn [hash_remove_loop]. rewrite (read_link_chain c k m1 (i :: l2) Hch). cbn [head].
    by rewrite Z.eqb_refl, app_nil_r.
  - cbn [hash_remove_loop]. rewrite (read_link_chain c k m1 _ Hch). cbn [head app].
    replace (x =? i) with false.
    2: { symmetry. apply Z.eqb_neq. intros ->. apply NoDup_app in Hnd as (_ & _ & Hnd).
         apply NoDup_cons in Hnd as [H _]. set_solver. }
    replace (Some x) with (last (m1 ++ [x])) by apply last_snoc.
    rewrite (IH (m1 ++ [x])); [|by rewrite <- app_assoc|by rewrite <- app_assoc|simpl in Hf; lia].
    by rewrite <- app_assoc.
Qed.

Lemma hash_remove_loop_absent c k i m1 m2 fuel : i ∉ m2 ->
  chain (fun i => hash_next (bh_at c i)) (aget None (hash_table c) k) (m1 ++ m2) ->
  hash_remove_loop fuel k (last m1) i c = c.
Proof.
  revert m1 fuel. induction m2 as [|x m2 IH]; intros m1 fuel Hi Hch; (destruct fuel as [|fuel]; [done|]).
  - cbn [hash_remove_loop]. by rewrite (read_link_chain c k m1 _ Hch).
  - cbn [hash_remove_loop]. rewrite (read_link_chain c k m1 _ Hch). cbn [head].
    replace (x =? i) with false by (symmetry; apply Z.eqb_neq; set_solver).
    replace (Some x) with (last (m1 ++ [x])) by apply last_snoc.
    apply IH; [set_solver|]. by rewrite <- app_assoc.
Qed.

Lemma hash_remove_absent c lru hb i : rep c lru hb ->
  i ∉ hb (buffer_hash (bh_dev (bh_at c i)) (bh_block_no (bh_at c i))) -> hash_remove i c = c.
Proof.
  intros Hr Hi. unfold hash_remove. eapply (hash_remove_loop_absent c _ i []); [exact Hi|].
  apply (rp_chain _ _ _ Hr), buffer_hash_range.
Qed.

Lemma hash_remove_rep c lru hb i l1 l2 : rep c lru hb -> in_pool i ->
  let k := buffer_hash (bh_dev (bh_at c i)) (bh_block_no (bh_at c i)) in
  hb k = l1 ++ i :: l2 ->
  rep (hash_remove i c) lru (update_hb hb k (l1 ++ l2)) /\ links_only c (hash_remove i c).
Proof.
  intros Hr Hi k Ek. pose proof (chain_length c lru hb k Hr) as Hlen.
  destruct Hr as [Hpool Htab Hlru Hnd Hrng Hch Hcnd Hcp Hdj].
  assert (Hk : 0 <= k < BUFFER_HASH_SIZE) by apply buffer_hash_range.
  pose proof (Hch k Hk) as Hck. pose proof (Hcnd k) as Hkn. rewrite Ek in Hck, Hkn, Hlen.
  assert (E : hash_remove i c = upd i (set_hash_next None) (write_link k (last l1) (hash_next (bh_at c i)) c)).
  { unfold hash_remove. apply (hash_remove_loop_found c k i [] l1 l2); [done | done|].
    rewrite length_app in Hlen. simpl in Hlen. lia. }
  assert (Hmem : forall j, j ∈ l1 ++ l2 -> in_pool j /\ j <> i).
  { intros j Hj. split; [apply (Hcp k); rewrite Ek; set_solver|]. intros ->.
    apply NoDup_app in Hkn as (_ & Hd & Hkn). apply NoDup_cons in Hkn as [? _].
    apply elem_of_app in Hj as [?|?]; [|done]. apply (Hd i); [done | set_solver]. }
  assert (Hlast : opt_in_pool (last l1) /\ last l1 <> Some i).
  { destruct (last l1) as [x|] eqn:El; [|done]. apply last_in in El.
    destruct (Hmem x ltac:(set_solver)) as [? ?]. split; [done | congruence]. }
  destruct Hlast as [Hlp Hli].
  assert (Hat : forall j, 0 <= j -> bh_at (hash_remove i c) j =
    if j =? i then set_hash_next None (bh_at c i)
    else set_hash_next (if decide (last l1 = Some j) then hash_next (bh_at c i) else hash_next (bh_at c j)) (bh_at c j)).
  { intros j Hj. rewrite E. unfold write_link. unfold in_pool in Hi.
    destruct (last l1) as [x|]; simpl in Hlp.
    - unfold in_pool in Hlp. rewrite !bh_at_upd by (rewrite ?pool_upd; done || unfold in_pool; lia).
      replace (i =? x) with false by (symmetry; apply Z.eqb_neq; congruence).
      destruct (Z.eqb_spec j i); [done|]. destruct (Z.eqb_spec j x) as [->|]; [by rewrite decide_True|].
      rewrite decide_False by congruence. by destruct (bh_at c j).
    - rewrite bh_at_upd by (done || unfold in_pool; lia). destruct (Z.eqb_spec j i) as [->|]; [done|].
      rewrite decide_False by done. change (bh_at (set_bucket k (hash_next (bh_at c i)) c) j) with (bh_at c j).
      by destruct (bh_at c j). }
  assert (Htb : hash_table (hash_remove i c) =
    if decide (l1 = []) then aset (hash_table c) k (hash_next (bh_at c i)) else hash_table c).
  { rewrite E. unfold write_link. destruct (last l1) as [x|] eqn:El.
    - rewrite decide_False by (intros ->; done). done.
    - apply last_none in El as ->. done. }
  assert (Hlinks : forall j, 0 <= j -> core (bh_at (hash_remove i c) j) = core (bh_at c j) /\
    lru_next (bh_at (hash_remove i c) j) = lru_next (bh_at c j) /\
    lru_prev (bh_at (hash_remove i c) j) = lru_prev (bh_at c j)).
  { intros j Hj. rewrite Hat by done. by destruct (Z.eqb_spec j i) as [->|]. }
  assert (Hglob : lru_head (hash_remove i c) = lru_head c /\ lru_tail (hash_remove i c) = lru_tail c /\
    zlen (buffer_cache (hash_remove i c)) = zlen (buffer_cache c) /\
    cache_initialized (hash_remove i c) = cache_initialized c /\
    g_buffer_cache_stats (hash_remove i c) = g_buffer_cache_stats c).
  { rewrite E. unfold write_link. destruct (last l1); simpl; rewrite ?zlen_aset; done. }
  destruct Hglob as (Eh & Et & Ep & Ei & Es).
  split; [|constructor; [intros; by apply Hlinks | done | done]].
  constructor; try done.
  - by rewrite Ep.
  - rewrite Htb. destruct (decide (l1 = [])); by rewrite ?zlen_aset.
  - rewrite Eh, Et. eapply dll_ext; [apply Hlru|]. intros j Hj. simpl. apply Hlinks.
    apply Hrng in Hj. unfold in_pool in Hj. lia.
  - intros k' Hk'. unfold update_hb. destruct (Z.eqb_spec k' k) as [->|Hne].
    + assert (Haget : aget None (hash_table (hash_remove i c)) k =
        if decide (l1 = []) then hash_next (bh_at c i) else aget None (hash_table c) k).
      { rewrite Htb. destruct (decide (l1 = [])); [|done]. apply aget_aset_eq. lia. }
      rewrite Haget. apply (chain_remove _ _ _ l1 i l2 Hkn Hck). intros j Hj.
      destruct (Hmem j Hj) as [Hjp Hji]. unfold in_pool in Hjp. rewrite Hat by lia.
      by replace (j =? i) with false by lia.
    + replace (aget None (hash_table (hash_remove i c)) k') with (aget None (hash_table c) k').
      2: { rewrite Htb. destruct (decide (l1 = [])); [|done]. rewrite aget_aset_ne by lia. done. }
      eapply chain_ext; [by apply Hch|]. intros j Hj. simpl. pose proof (Hcp k' j Hj) as Hjp.
      unfold in_pool in Hjp. rewrite Hat by lia.
      assert (Hk2 : j ∉ hb k) by (intros H2; apply Hne; by eapply Hdj).
      replace (j =? i) with false by (symmetry; apply Z.eqb_neq; intros ->; apply Hk2; rewrite Ek; set_solver).
      rewrite decide_False; [by destruct (bh_at c j)|].
      intros El. apply last_in in El. apply Hk2. rewrite Ek. set_solver.
  - intros k'. unfold update_hb. destruct (k' =? k); [|done].
    apply NoDup_app in Hkn as (H1 & Hd & H2). apply NoDup_cons in H2 as [? H2]. apply NoDup_app. set_solver.
  - intros k' j. unfold update_hb. destruct (k' =? k); [|apply Hcp]. intros Hj. by apply Hmem.
  - intros k1 k2 j. unfold update_hb.
    assert (Hsub : j ∈ l1 ++ l2 -> j ∈ hb k) by (rewrite Ek; set_solver).
    destruct (Z.eqb_spec k1 k) as [->|], (Z.eqb_spec k2 k) as [->|]; intros H1 H2; eauto.
Qed.

(** Walking a chain finds the first head of the block. *)
Lemma lookup_loop_chain c hd dev n m1 m2 fuel : chain (fun i => hash_next (bh_at c i)) hd (m1 ++ m2) ->
  (length m2 <= fuel)%nat ->
  lookup_loop fuel dev n (head m2) c = List.find (fun i => same_block dev n (bh_at c i)) m2.
Proof.
  revert m1 fuel. induction m2 as [|x m2 IH]; intros m1 fuel Hch Hf; [by destruct fuel|].
  destruct fuel as [|fuel]; [simpl in Hf; lia|]. cbn [lookup_loop head List.find].
  destruct (same_block dev n (bh_at c x)); [done|].
  destruct Hch as [Hh Hl]. rewrite (Hl m1 x m2) by done. apply (IH (m1 ++ [x])); [|simpl in Hf; lia].
  rewrite <- app_assoc. by split.
Qed.

Lemma hash_lookup_find c lru hb dev n : rep c lru hb ->
  hash_lookup dev n c = List.find (fun i => same_block dev n (bh_at c i)) (hb (buffer_hash dev n)).
Proof.
  intros Hr. pose proof (rp_chain _ _ _ Hr _ (buffer_hash_range dev n)) as Hch.
  unfold hash_lookup. rewrite (proj1 Hch).
  eapply (lookup_loop_chain c _ dev n []); [exact Hch|]. by eapply chain_length.
Qed.

(** Every listed head is unpinned, so the victim is the tail of the list. *)
Lemma victim_tail c lru hb : rep c lru hb -> (forall i, i ∈ lru -> bh_refcount (bh_at c i) = 0) ->
  victim_loop (Z.to_nat BUFFER_CACHE_MAX) (lru_tail c) c = last lru.
Proof.
  intros Hr Hz. destruct (rp_lru _ _ _ Hr) as (_ & -> & _).
  change (Z.to_nat BUFFER_CACHE_MAX) with (S 63). destruct (last lru) as [i|] eqn:E; [|done]. cbn [victim_loop].
  by rewrite Hz by (by apply last_in).
Qed.

(** Taking a head off the LRU list, and off its chain. *)
Lemma lru_off c lru hb i : rep c lru hb -> i ∈ lru ->
  exists lru1, rep (lru_remove i c) lru1 hb /\ links_only c (lru_remove i c) /\
  forall j, j ∈ lru1 <-> j ∈ lru /\ j <> i.
Proof.
  intros Hr Hin. pose proof (rp_lru_nodup _ _ _ Hr) as Hnd. apply list_elem_of_split in Hin as (l1 & l2 & El).
  destruct (lru_remove_rep c lru hb i l1 l2 Hr El) as [Hr1 Hlo]. exists (l1 ++ l2). split_and!; try done.
  rewrite El in Hnd. apply NoDup_app in Hnd as (_ & Hd & Hnd). apply NoDup_cons in Hnd as [Hn _]. specialize (Hd i).
  intros j. rewrite El. split; [|set_solver]. intros Hj. split; [set_solver|]. intros ->.
  apply elem_of_app in Hj as [?|?]; [apply Hd; set_solver | done].
Qed.

Lemma hash_off c lru hb i : rep c lru hb -> in_pool i ->
  (forall k, i ∈ hb k -> k = buffer_hash (bh_dev (bh_at c i)) (bh_block_no (bh_at c i))) ->
  exists hb1, rep (hash_remove i c) lru hb1 /\ links_only c (hash_remove i c) /\
  forall j k, j ∈ hb1 k <-> j ∈ hb k /\ j <> i.
Proof.
  intros Hr Hi Hown. set (k := buffer_hash (bh_dev (bh_at c i)) (bh_block_no (bh_at c i))) in *.
  destruct (decide (i ∈ hb k)) as [Hin|Hout].
  - pose proof (rp_hb_nodup _ _ _ Hr k) as Hnd. apply list_elem_of_split in Hin as (l1 & l2 & El).
    destruct (hash_remove_rep c lru hb i l1 l2 Hr Hi El) as [Hr1 Hlo]. fold k in Hr1.
    exists (update_hb hb k (l1 ++ l2)). split_and!; try done. intros j k'. unfold update_hb.
    rewrite El in Hnd. apply NoDup_app in Hnd as (_ & Hd & Hnd). apply NoDup_cons in Hnd as [Hn _]. specialize (Hd i).
    destruct (Z.eqb_spec k' k) as [->|Hne].
    + rewrite El. split; [|set_solver]. intros Hjl. split; [set_solver|]. intros ->.
      apply elem_of_app in Hjl as [?|?]; [apply Hd; set_solver | done].
    + split; [|tauto]. intros Hjk. split; [done|]. intros ->. by apply Hne, Hown.
  - rewrite (hash_remove_absent c lru hb i Hr Hout). exists hb. split_and!; [done | by constructor |].
    intros j k'. split; [|tauto]. intros Hjk. split; [done|]. intros ->. apply Hout. by rewrite <- (Hown k').
Qed.

(** Updates that keep the links of the lists the head is on. *)
Lemma upd_rep_free c lru hb i f : rep c lru hb -> in_pool i ->
  (i ∈ lru -> lru_next (f (bh_at c i)) = lru_next (bh_at c i) /\ lru_prev (f (bh_at c i)) = lru_prev (bh_at c i)) ->
  (forall k, i ∈ hb k -> hash_next (f (bh_at c i)) = hash_next (bh_at c i)) ->
  rep (upd i f c) lru hb.
Proof.
  intros [Hpool Htab Hlru Hnd Hrng Hch Hcnd Hcp Hdj] Hi Hfl Hfh.
  assert (Hat : forall j, in_pool j -> bh_at (upd i f c) j = if j =? i then f (bh_at c i) else bh_at c j)
    by (intros j Hj; apply bh_at_upd; unfold in_pool in *; done || lia).
  constructor; try done.
  - by rewrite pool_upd.
  - eapply dll_ext; [apply Hlru|]. intros j Hj. rewrite Hat by auto. destruct (Z.eqb_spec j i) as [->|]; auto.
  - intros k Hk. eapply chain_ext; [by apply Hch|]. intros j Hj. rewrite Hat by eauto.
    destruct (Z.eqb_spec j i) as [->|]; eauto.
Qed.

Lemma upd_rep c lru hb i f : rep c lru hb -> in_pool i ->
  (forall b, hash_next (f b) = hash_next b /\ lru_next (f b) = lru_next b /\ lru_prev (f b) = lru_prev b) ->
  rep (upd i f c) lru hb.
Proof. intros Hr Hi Hf. apply upd_rep_free; try done; intros; apply Hf. Qed.

Lemma bump_rep c lru hb f : rep c lru hb -> rep (bump f c) lru hb.
Proof. intros []. by constructor. Qed.

Lemma set_error_rep c lru hb n v e : rep c lru hb -> rep (set_error n v e c) lru hb.
Proof. intros []. by constructor. Qed.

Lemma core_fields b b' : core b = core b' -> bh_dev b = bh_dev b' /\ bh_block_no b = bh_block_no b' /\
  bh_data b = bh_data b' /\ bh_dirty b = bh_dirty b' /\ bh_valid b = bh_valid b' /\ bh_refcount b = bh_refcount b'.
Proof. unfold core. intros [=]. done. Qed.
End hashing.
