(* ===== verification/BufferCoherence.v ===== *)
(** * Coherence of the buffer cache

    The invariant of src/fs/cache/buffer_cache.c and what its operations promise.
    [DevEnv] is the interface the cache uses its devices through: every address is an
    array of blocks, and a transfer to one block of one device leaves all other
    blocks alone.  [logical c w a n] is the contents of block [n] of the device at
    [a] as a client of the cache sees them. *)
From Stdlib Require Import String.
From S2P Require Import Prelude BlockDevice Storage Dll BufferCache.
Local Open Scope capy_scope.

(** ** The devices under the cache *)
Class DevEnv {W : Type} (devs : Z -> option (block_device W)) := {
  env_inv : W -> Prop;
  env_view : W -> Z -> Z -> list Z;
  env_null : devs 0 = None;
  env_len w a d n : env_inv w -> devs a = Some d -> 0 <= n < dev_block_count d ->
    zlen (env_view w a n) = dev_block_size d;
  env_read w a d n buf : env_inv w -> devs a = Some d -> 0 <= n -> zlen buf = dev_block_size d ->
    let '(rc, buf', w') := block_device_read (devs a) n buf w in
    env_inv w' /\ zlen buf' = zlen buf /\ env_view w' = env_view w /\
    (rc = 0 -> n < dev_block_count d /\ buf' = env_view w a n);
  env_write w a d n data : env_inv w -> devs a = Some d -> 0 <= n -> zlen data = dev_block_size d ->
    let '(rc, w') := block_device_write (devs a) n data w in
    env_inv w' /\
    (forall b m, 0 <= m -> ~ (b = a /\ m = n) -> env_view w' b m = env_view w b m) /\
    (rc = 0 -> env_view w' a n = data) }.

(** One device at one address. *)
Definition one_dev {W} (addr : Z) (dev : block_device W) (a : Z) : option (block_device W) :=
  if a =? addr then Some dev else None.

#[export] Instance one_dev_env {W} (addr : Z) (dev : block_device W) `{!DiskSpec dev} :
  TCEq (addr =? 0) false -> DevEnv (one_dev addr dev).
Proof.
  intros Ha. assert (Hne : addr <> 0) by (apply Z.eqb_neq; by destruct Ha).
  refine {| env_inv := disk_inv (dev := dev);
            env_view := fun w a n => if a =? addr then disk_view (dev := dev) w n else [] |}; unfold one_dev.
  - by replace (0 =? addr) with false by lia.
  - intros w a d n Hw Hd Hn. destruct (Z.eqb_spec a addr); [|done]. injection Hd as <-. by apply disk_len.
  - intros w a d n buf Hw Hd Hn Hb. destruct (Z.eqb_spec a addr); [|done]. injection Hd as <-.
    pose proof (disk_read w n buf Hw Hn Hb) as Hr. destruct (block_device_read _ _ _ _) as [[rc b] w'].
    destruct Hr as (? & ? & Hv & Hok). split_and!; try done. by rewrite Hv.
  - intros w a d n data Hw Hd Hn Hb. destruct (Z.eqb_spec a addr) as [->|]; [|done]. injection Hd as <-.
    pose proof (disk_write w n data Hw Hn Hb) as Hr. destruct (block_device_write _ _ _ _) as [rc w'].
    destruct Hr as (? & Hv & Hok & _). split_and!; try done.
    + intros b m Hm Hne'. destruct (Z.eqb_spec b addr) as [->|]; [|done]. apply Hv; [done|]. intros ->. tauto.
    + intros H0. by apply Hok.
Defined.

Section coherence.
Context {W : Type} (devs : Z -> option (block_device W)) `{!DevEnv devs} (Y : option Z).
Implicit Types (c : cache) (w : W) (i j k a n : Z) (L X : option Z) (K : Z -> buffer_head).

(** ** Invariant *)

(** While a head is being recycled it is off the LRU list ([L]) and off its hash chain ([X]).
    A client that stores into a pinned head makes it loose ([Y]) until it marks it dirty. *)
Record kinv L X K (lru : list Z) (hb : Z -> list Z) (w : W) : Prop := {
  k_env : env_inv w;
  k_lru j : in_pool j -> j ∈ lru <-> bh_refcount (K j) = 0 /\ L <> Some j;
  k_hb j k : in_pool j ->
    j ∈ hb k <-> bh_dev (K j) <> 0 /\ buffer_hash (bh_dev (K j)) (bh_block_no (K j)) = k /\ X <> Some j;
  k_valid j : in_pool j -> X <> Some j -> bh_valid (K j) = true <-> bh_dev (K j) <> 0;
  k_uniq i j : in_pool i -> in_pool j -> X <> Some i -> X <> Some j -> bh_dev (K i) <> 0 ->
    bh_dev (K i) = bh_dev (K j) -> bh_block_no (K i) = bh_block_no (K j) -> i = j;
  k_dev j : in_pool j -> X <> Some j -> bh_dev (K j) <> 0 ->
    exists d, devs (bh_dev (K j)) = Some d /\ dev_block_size d = BUFFER_BLOCK_SIZE /\
    0 <= bh_block_no (K j) < dev_block_count d;
  k_data j : in_pool j -> zlen (bh_data (K j)) = BUFFER_BLOCK_SIZE;
  k_ref j : in_pool j -> 0 <= bh_refcount (K j) < 2 ^ 16;
  k_clean j : in_pool j -> X <> Some j -> Y <> Some j -> bh_dev (K j) <> 0 -> bh_dirty (K j) = false ->
    bh_data (K j) = env_view w (bh_dev (K j)) (bh_block_no (K j));
  k_loose j : Y = Some j -> in_pool j /\ bh_refcount (K j) <> 0 /\ L <> Some j /\ X <> Some j }.

Definition inv L X c w : Prop :=
  exists lru hb, rep c lru hb /\ cache_initialized c = true /\ kinv L X (bh_at c) lru hb w.

Definition logical c w a n : list Z :=
  match hash_lookup a n c with Some i => bh_data (bh_at c i) | None => env_view w a n end.

(** Head [i] caches block [n] of the device at [a]. *)
Definition holds X c a n i : Prop :=
  in_pool i /\ X <> Some i /\ bh_dev (bh_at c i) = a /\ bh_block_no (bh_at c i) = n /\ a <> 0.

Lemma pool_nonneg i : in_pool i -> 0 <= i.
Proof. unfold in_pool. lia. Qed.
#[local] Hint Resolve pool_nonneg : core.

(** The invariant only sees the cores of the heads. *)
Lemma kinv_ext L X K K' lru hb w : (forall j, in_pool j -> core (K' j) = core (K j)) ->
  kinv L X K lru hb w -> kinv L X K' lru hb w.
Proof.
  intros He Hk. assert (Hf : forall j, in_pool j -> bh_dev (K' j) = bh_dev (K j) /\
    bh_block_no (K' j) = bh_block_no (K j) /\ bh_data (K' j) = bh_data (K j) /\ bh_dirty (K' j) = bh_dirty (K j) /\
    bh_valid (K' j) = bh_valid (K j) /\ bh_refcount (K' j) = bh_refcount (K j)) by (intros; by apply core_fields, He).
  destruct Hk. constructor; try done.
  - intros j Hj. destruct (Hf j Hj) as (?&?&?&?&?& ->). auto.
  - intros j k Hj. destruct (Hf j Hj) as (-> & -> &?). auto.
  - intros j Hj. destruct (Hf j Hj) as (-> &?&?&?& -> &?). auto.
  - intros i j Hi Hj. destruct (Hf i Hi) as (-> & -> &?). destruct (Hf j Hj) as (-> & -> &?). auto.
  - intros j Hj. destruct (Hf j Hj) as (-> & -> &?). auto.
  - intros j Hj. destruct (Hf j Hj) as (?&?& -> &?). auto.
  - intros j Hj. destruct (Hf j Hj) as (?&?&?&?&?& ->). auto.
  - intros j Hj. destruct (Hf j Hj) as (-> & -> & -> & -> &?). auto.
  - intros j Ej. destruct (k_loose0 j Ej) as (Hj & ? & ?). destruct (Hf j Hj) as (_&_&_&_&_& ->). auto.
Qed.

Lemma links_kinv L X c c' lru hb w : links_only c c' -> kinv L X (bh_at c) lru hb w -> kinv L X (bh_at c') lru hb w.
Proof. intros [Hc _ _]. apply kinv_ext. auto. Qed.

(** [hash_lookup] finds exactly the head that caches the block. *)
Lemma lookup_holds L X c w a n i : inv L X c w -> hash_lookup a n c = Some i <-> holds X c a n i.
Proof.
  intros (lru & hb & Hr & _ & Hk). rewrite (hash_lookup_find c lru hb a n Hr). split.
  - intros Hf. apply List.find_some in Hf as [Hin Hs]. unfold same_block in Hs. bools.
    apply list_elem_of_In in Hin. pose proof (rp_hb_pool _ _ _ Hr _ _ Hin) as Hi.
    apply (k_hb _ _ _ _ _ _ Hk) in Hin; [|done]. destruct Hin as (? & ? & ?). unfold holds. split_and!; try done. congruence.
  - intros (Hi & HX & Hd & Hb & Ha).
    assert (Hin : i ∈ hb (buffer_hash a n)) by (apply (k_hb _ _ _ _ _ _ Hk); [done|]; split_and!; congruence).
    destruct (List.find _ _) as [j|] eqn:Hf.
    + apply List.find_some in Hf as [Hjn Hs]. unfold same_block in Hs. bools.
      apply list_elem_of_In in Hjn. pose proof (rp_hb_pool _ _ _ Hr _ _ Hjn) as Hj.
      apply (k_hb _ _ _ _ _ _ Hk) in Hjn; [|done]. destruct Hjn as (? & ? & ?). f_equal.
      apply (k_uniq _ _ _ _ _ _ Hk); try done; congruence.
    + pose proof (List.find_none _ _ Hf i (proj1 (list_elem_of_In _ _) Hin)) as Hs.
      unfold same_block in Hs. rewrite Hd, Hb, !Z.eqb_refl in Hs. done.
Qed.

Lemma lookup_none L X c w a n : inv L X c w -> (forall i, ~ holds X c a n i) -> hash_lookup a n c = None.
Proof.
  intros Hi Hno. destruct (hash_lookup a n c) as [i|] eqn:E; [|done].
  apply (lookup_holds L X c w) in E; [|done]. by destruct (Hno i).
Qed.

(** Two states whose caching heads and devices agree on a block agree on its contents. *)
Lemma logical_same L L' X X' c c' w w' a n : inv L X c w -> inv L' X' c' w' ->
  (forall i, holds X' c' a n i <-> holds X c a n i) ->
  (forall i, holds X c a n i -> bh_data (bh_at c' i) = bh_data (bh_at c i)) ->
  ((forall i, ~ holds X c a n i) -> env_view w' a n = env_view w a n) ->
  logical c' w' a n = logical c w a n.
Proof.
  intros Hi Hi' Hh Hd Hv. unfold logical. destruct (hash_lookup a n c) as [i|] eqn:E.
  - apply (lookup_holds L X c w) in E; [|done]. rewrite (proj2 (lookup_holds L' X' c' w' a n i Hi')) by (by apply Hh).
    by apply Hd.
  - assert (Hno : forall i, ~ holds X c a n i).
    { intros i H. apply (lookup_holds L X c w) in H; [|done]. congruence. }
    rewrite (lookup_none L' X' c' w') by (try done; intros i H; by apply (Hno i), Hh). by apply Hv.
Qed.

Lemma holds_logical L X c w a n i : inv L X c w -> holds X c a n i -> logical c w a n = bh_data (bh_at c i).
Proof. intros Hi Hh. unfold logical. by rewrite (proj2 (lookup_holds L X c w a n i Hi) Hh). Qed.

(** [links_only] changes keep the caching heads and their data. *)
Lemma links_holds X c c' a n i : links_only c c' -> holds X c' a n i <-> holds X c a n i.
Proof.
  intros [Hc _ _]. unfold holds. split; intros (Hi & ?); pose proof (core_fields _ _ (Hc i ltac:(auto))) as (E1 & E2 & _);
    rewrite E1, E2 in *; by split.
Qed.

Lemma links_data c c' i : links_only c c' -> in_pool i -> bh_data (bh_at c' i) = bh_data (bh_at c i).
Proof. intros [Hc _ _] Hi. by destruct (core_fields _ _ (Hc i ltac:(auto))) as (_ & _ & ? & _). Qed.

(** ** Updates that keep every head on its block *)
Lemma kinv_update L X K K1 lru lru' hb w w' i b' : kinv L X K lru hb w -> in_pool i ->
  (forall j, in_pool j -> core (K1 j) = core (if j =? i then b' else K j)) ->
  bh_dev b' = bh_dev (K i) -> bh_block_no b' = bh_block_no (K i) -> bh_valid b' = bh_valid (K i) ->
  zlen (bh_data b') = BUFFER_BLOCK_SIZE -> 0 <= bh_refcount b' < 2 ^ 16 -> env_inv w' ->
  (forall j, in_pool j -> j ∈ lru' <-> bh_refcount (K1 j) = 0 /\ L <> Some j) ->
  (forall j, in_pool j -> j <> i -> X <> Some j -> bh_dev (K j) <> 0 -> bh_dirty (K j) = false ->
     env_view w' (bh_dev (K j)) (bh_block_no (K j)) = env_view w (bh_dev (K j)) (bh_block_no (K j))) ->
  (X <> Some i -> Y <> Some i -> bh_dev b' <> 0 -> bh_dirty b' = false -> bh_data b' = env_view w' (bh_dev b') (bh_block_no b')) ->
  (Y = Some i -> bh_refcount b' <> 0) ->
  kinv L X K1 lru' hb w'.
Proof.
  intros Hk Hi He Ed Eb Ev Hdl Hrf Hw' Hlru Hothers Hmine Hpin.
  set (K0 := fun j => if j =? i then b' else K j).
  assert (HK0 : forall j, bh_dev (K0 j) = bh_dev (K j) /\ bh_block_no (K0 j) = bh_block_no (K j) /\
    bh_valid (K0 j) = bh_valid (K j)).
  { intros j. unfold K0. by destruct (Z.eqb_spec j i) as [->|]. }
  apply (kinv_ext L X K0); [exact He|]. destruct Hk. constructor; try done.
  - intros j Hj. rewrite Hlru by done. by destruct (core_fields _ _ (He j Hj)) as (_&_&_&_&_& ->).
  - intros j k Hj. destruct (HK0 j) as (-> & -> & _). auto.
  - intros j Hj. destruct (HK0 j) as (-> & _ & ->). auto.
  - intros i1 j Hi1 Hj. destruct (HK0 i1) as (-> & -> & _). destruct (HK0 j) as (-> & -> & _). auto.
  - intros j Hj. destruct (HK0 j) as (-> & -> & _). auto.
  - intros j Hj. unfold K0. destruct (j =? i); auto.
  - intros j Hj. unfold K0. destruct (j =? i); auto.
  - intros j Hj. unfold K0. destruct (Z.eqb_spec j i) as [->|]; [auto|]. intros HX HY Hd Hc.
    rewrite Hothers by done. auto.
  - intros j Ej. destruct (k_loose0 j Ej) as (Hj & ? & ?). unfold K0. destruct (Z.eqb_spec j i) as [->|]; auto.
Qed.

(** A head whose core kept its block still caches it. *)
Lemma holds_update X c c1 i b' a n : in_pool i ->
  (forall j, in_pool j -> core (bh_at c1 j) = core (if j =? i then b' else bh_at c j)) ->
  bh_dev b' = bh_dev (bh_at c i) -> bh_block_no b' = bh_block_no (bh_at c i) ->
  forall j, holds X c1 a n j <-> holds X c a n j.
Proof.
  intros Hi He Ed Eb j. unfold holds.
  assert (H : in_pool j -> bh_dev (bh_at c1 j) = bh_dev (bh_at c j) /\ bh_block_no (bh_at c1 j) = bh_block_no (bh_at c j)).
  { intros Hj. destruct (core_fields _ _ (He j Hj)) as (-> & -> & _). destruct (Z.eqb_spec j i) as [->|]; done. }
  split; intros (Hj & ?); destruct (H Hj) as [E1 E2]; rewrite E1, E2 in *; by split.
Qed.

Lemma core_upd c lru hb i f j : rep c lru hb -> in_pool i -> in_pool j ->
  core (bh_at (upd i f c) j) = core (if j =? i then f (bh_at c i) else bh_at c j).
Proof. intros Hr Hi Hj. rewrite bh_at_upd; auto. apply (rp_pool _ _ _ Hr). Qed.

(** ** Releasing a pin *)
Lemma release_spec c w i : inv None None c w -> in_pool i -> Y <> Some i ->
  inv None None (buffer_release (Some i) c) w /\
  (forall a n, logical (buffer_release (Some i) c) w a n = logical c w a n) /\
  g_buffer_cache_stats (buffer_release (Some i) c) = g_buffer_cache_stats c /\
  forall j, in_pool j -> bh_refcount (bh_at (buffer_release (Some i) c) j) =
    if j =? i then Z.max 0 (bh_refcount (bh_at c i) - 1) else bh_refcount (bh_at c j).
Proof.
  intros Hinv Hi HY. pose proof Hinv as (lru & hb & Hr & Hini & Hk). unfold buffer_release.
  destruct (Z.eqb_spec (bh_refcount (bh_at c i)) 0) as [Hr0|Hr0].
  { split_and!; try done. intros j Hj. destruct (Z.eqb_spec j i) as [->|]; [lia | done]. }
  pose proof (k_ref _ _ _ _ _ _ Hk i Hi) as Hrng.
  rewrite (u16_small (bh_refcount (bh_at c i) - 1)) by lia.
  set (b' := set_refcount (bh_refcount (bh_at c i) - 1) (bh_at c i)).
  set (c1 := upd i (set_refcount (bh_refcount (bh_at c i) - 1)) c).
  assert (Hr1 : rep c1 lru hb) by (by apply upd_rep).
  assert (Hc1 : forall j, in_pool j -> core (bh_at c1 j) = core (if j =? i then b' else bh_at c j))
    by (intros; by eapply core_upd).
  assert (Hrc : forall j, in_pool j -> bh_refcount (bh_at c1 j) = if j =? i then bh_refcount (bh_at c i) - 1 else bh_refcount (bh_at c j)).
  { intros j Hj. destruct (core_fields _ _ (Hc1 j Hj)) as (_&_&_&_&_& ->). by destruct (j =? i). }
  assert (Hnot : i ∉ lru) by (rewrite (k_lru _ _ _ _ _ _ Hk) by done; lia).
  assert (Hup : forall lru', (forall j, in_pool j -> j ∈ lru' <-> bh_refcount (bh_at c1 j) = 0 /\ None <> Some j) ->
    kinv None None (bh_at c1) lru' hb w).
  { intros lru' Hl. apply (kinv_update None None (bh_at c) _ lru lru' hb w w i b' Hk Hi Hc1); try done.
    - by apply (k_data _ _ _ _ _ _ Hk).
    - simpl. lia.
    - by apply (k_env _ _ _ _ _ _ Hk).
    - intros _. by apply (k_clean _ _ _ _ _ _ Hk). }
  assert (Hdata : forall j, in_pool j -> bh_data (bh_at c1 j) = bh_data (bh_at c j)).
  { intros j Hj. destruct (core_fields _ _ (Hc1 j Hj)) as (_&_& -> &_). by destruct (Z.eqb_spec j i) as [->|]. }
  assert (Hlog : forall c2, inv None None c2 w -> links_only c1 c2 -> forall a n, logical c2 w a n = logical c w a n).
  { intros c2 H2 Hlo a n. apply (logical_same None None None None); try done.
    - intros j. rewrite (links_holds _ _ _ _ _ _ Hlo). by apply (holds_update None c c1 i b').
    - intros j Hj. rewrite (links_data _ _ _ Hlo) by apply Hj. apply Hdata, Hj. }
  pose proof (Hrc i Hi) as E. rewrite Z.eqb_refl in E. rewrite E.
  destruct (Z.eqb_spec (bh_refcount (bh_at c i) - 1) 0) as [Hz|Hz].
  - destruct (lru_insert_rep c1 lru hb i Hr1 Hi Hnot) as [Hr2 Hlo].
    assert (H2 : inv None None (lru_insert_front i c1) w).
    { exists (i :: lru), hb. split; [done|]. split; [by rewrite (lo_init _ _ Hlo)|].
      apply (links_kinv _ _ c1); [done|]. apply Hup. intros j Hj. rewrite elem_of_cons, Hrc by done.
      destruct (Z.eqb_spec j i) as [->|]; [naive_solver|]. rewrite (k_lru _ _ _ _ _ _ Hk) by done. naive_solver. }
    split_and!; [done | by apply Hlog | by rewrite (lo_stats _ _ Hlo) |].
    intros j Hj. destruct (core_fields _ _ (lo_core _ _ Hlo j ltac:(auto))) as (_&_&_&_&_& ->). rewrite Hrc by done.
    destruct (Z.eqb_spec j i); lia.
  - assert (H2 : inv None None c1 w).
    { exists lru, hb. split; [done|]. split; [done|]. apply Hup. intros j Hj. rewrite (k_lru _ _ _ _ _ _ Hk), Hrc by done.
      destruct (Z.eqb_spec j i) as [->|]; naive_solver. }
    split_and!; [done | apply Hlog; [done | by constructor] | done |].
    intros j Hj. rewrite Hrc by done. destruct (Z.eqb_spec j i); lia.
Qed.

(** ** Taking a pin on a cached block *)
Lemma hit_spec c w i : inv None None c w -> in_pool i -> bh_refcount (bh_at c i) < 2 ^ 16 - 1 ->
  let c' := upd i (fun b => set_refcount (u16 (bh_refcount b + 1)) b)
              (let c := bump count_hit c in if bh_refcount (bh_at c i) =? 0 then lru_remove i c else c) in
  inv None None c' w /\ (forall a n, logical c' w a n = logical c w a n) /\
  core (bh_at c' i) = core (set_refcount (bh_refcount (bh_at c i) + 1) (bh_at c i)) /\
  (forall j, in_pool j -> j <> i -> core (bh_at c' j) = core (bh_at c j)) /\
  st_write_errors (g_buffer_cache_stats c') = st_write_errors (g_buffer_cache_stats c).
Proof.
  intros Hinv Hi Hsat. pose proof Hinv as (lru & hb & Hr & Hini & Hk). cbv zeta.
  set (c0 := bump count_hit c). change (bh_at c0 i) with (bh_at c i).
  assert (Hr0 : rep c0 lru hb) by (by apply bump_rep).
  pose proof (k_ref _ _ _ _ _ _ Hk i Hi) as Hrng.
  set (c1 := if bh_refcount (bh_at c i) =? 0 then lru_remove i c0 else c0).
  assert (H1 : exists lru1, rep c1 lru1 hb /\ links_only c0 c1 /\
    (forall j, in_pool j -> j ∈ lru1 <-> bh_refcount (bh_at c j) = 0 /\ j <> i)).
  { unfold c1. destruct (Z.eqb_spec (bh_refcount (bh_at c i)) 0) as [Hz|Hz].
    - assert (Hin : i ∈ lru) by (rewrite (k_lru _ _ _ _ _ _ Hk) by done; done).
      destruct (lru_off c0 lru hb i Hr0 Hin) as (lru1 & Hr1 & Hlo & Hm). exists lru1. split_and!; try done.
      intros j Hj. rewrite Hm, (k_lru _ _ _ _ _ _ Hk) by done. naive_solver.
    - exists lru. split_and!; [done | by constructor |]. intros j Hj. rewrite (k_lru _ _ _ _ _ _ Hk) by done.
      split; [intros [? _]; split; [done | congruence] | by intros [? _]]. }
  destruct H1 as (lru1 & Hr1 & Hlo & Hm1).
  set (f := fun b => set_refcount (u16 (bh_refcount b + 1)) b).
  set (b' := set_refcount (bh_refcount (bh_at c i) + 1) (bh_at c i)).
  assert (Hc1 : forall j, in_pool j -> core (bh_at (upd i f c1) j) = core (if j =? i then b' else bh_at c j)).
  { intros j Hj. rewrite (core_upd c1 lru1 hb) by done. pose proof (lo_core _ _ Hlo j ltac:(auto)) as E.
    destruct (Z.eqb_spec j i) as [->|]; [|done]. apply core_fields in E as (E1 & E2 & E3 & E4 & E5 & E6).
    unfold f, b', core; simpl. rewrite E1, E2, E3, E4, E5, E6. change (bh_at c0 i) with (bh_at c i).
    by rewrite u16_small by lia. }
  assert (H2 : inv None None (upd i f c1) w).
  { exists lru1, hb. split; [by apply upd_rep|]. split; [simpl; rewrite (lo_init _ _ Hlo); done|].
    apply (kinv_update None None (bh_at c) _ lru lru1 hb w w i b' Hk Hi Hc1); try done.
    - by apply (k_data _ _ _ _ _ _ Hk).
    - simpl. lia.
    - by apply (k_env _ _ _ _ _ _ Hk).
    - intros j Hj. rewrite Hm1 by done. destruct (core_fields _ _ (Hc1 j Hj)) as (_&_&_&_&_& ->).
      destruct (Z.eqb_spec j i) as [->|]; simpl; [split; [naive_solver | lia] | naive_solver].
    - intros _. by apply (k_clean _ _ _ _ _ _ Hk).
    - intros _. simpl. lia. }
  split_and!; [done | | | |].
  - intros a n. apply (logical_same None None None None); try done.
    + by apply (holds_update None c _ i b').
    + intros j Hj. destruct (core_fields _ _ (Hc1 j (proj1 Hj))) as (_&_& -> &_).
      by destruct (Z.eqb_spec j i) as [->|].
  - rewrite Hc1 by done. by rewrite Z.eqb_refl.
  - intros j Hj Hne. rewrite Hc1 by done. by replace (j =? i) with false by lia.
  - change (g_buffer_cache_stats (upd i f c1)) with (g_buffer_cache_stats c1). by rewrite (lo_stats _ _ Hlo).
Qed.

(** ** Writing a head back *)
Lemma write_back_spec L X c w i : inv L X c w -> in_pool i -> X <> Some i ->
  let '(rc, c', w') := buffer_write_back devs (Some i) c w in
  inv L X c' w' /\
  (forall a n, 0 <= n -> logical c' w' a n = logical c w a n) /\
  (forall b m, 0 <= m -> ~ holds X c b m i -> env_view w' b m = env_view w b m) /\
  (exists dirty', (rc = 0 -> bh_dev (bh_at c i) <> 0 -> dirty' = false) /\
     forall j, in_pool j -> core (bh_at c' j) = core (if j =? i then set_dirty dirty' (bh_at c i) else bh_at c j)) /\
  st_write_errors (g_buffer_cache_stats c') =
    (if rc =? 0 then st_write_errors (g_buffer_cache_stats c) else u64 (st_write_errors (g_buffer_cache_stats c) + 1)) /\
  g_last_error_valid c' = g_last_error_valid c.
Proof.
  intros Hinv Hi HX. pose proof Hinv as (lru & hb & Hr & Hini & Hk). unfold buffer_write_back.
  pose proof (k_valid _ _ _ _ _ _ Hk i Hi HX) as Hv.
  assert (Hid : forall dirty', dirty' = bh_dirty (bh_at c i) -> forall j, in_pool j ->
    core (bh_at c j) = core (if j =? i then set_dirty dirty' (bh_at c i) else bh_at c j)).
  { intros d -> j _. destruct (Z.eqb_spec j i) as [->|]; [|done]. by destruct (bh_at c i). }
  destruct ((bh_dev (bh_at c i) =? 0) || negb (bh_dirty (bh_at c i)) || negb (bh_valid (bh_at c i))) eqn:Hskip.
  { split_and!; try done. exists (bh_dirty (bh_at c i)). split; [|by apply Hid]. intros _ Hd.
    apply Hv in Hd as Hvt. rewrite Hvt in Hskip. destruct (bh_dirty (bh_at c i)); [|done]. simpl in Hskip. bools. lia. }
  bools. apply Hv in H0 as Hd. destruct (k_dev _ _ _ _ _ _ Hk i Hi HX Hd) as (d & Ed & Es & Hb).
  pose proof (env_write w _ d (bh_block_no (bh_at c i)) (bh_data (bh_at c i)) (k_env _ _ _ _ _ _ Hk) Ed
    ltac:(lia) ltac:(rewrite Es; by apply (k_data _ _ _ _ _ _ Hk))) as Hw.
  destruct (block_device_write _ _ _ w) as [rc w']. destruct Hw as (Hw' & Hfr & Hok).
  assert (Hothers : forall j, in_pool j -> j <> i -> X <> Some j -> bh_dev (bh_at c j) <> 0 -> bh_dirty (bh_at c j) = false ->
    env_view w' (bh_dev (bh_at c j)) (bh_block_no (bh_at c j)) = env_view w (bh_dev (bh_at c j)) (bh_block_no (bh_at c j))).
  { intros j Hj Hne HXj Hdj _. destruct (k_dev _ _ _ _ _ _ Hk j Hj HXj Hdj) as (d' & _ & _ & Hb').
    apply Hfr; [lia|]. intros [E1 E2]. apply Hne. apply (k_uniq _ _ _ _ _ _ Hk); try done. }
  assert (Hlog : forall c', inv L X c' w' -> (exists dirty', forall j, in_pool j ->
    core (bh_at c' j) = core (if j =? i then set_dirty dirty' (bh_at c i) else bh_at c j)) ->
    forall a n, 0 <= n -> logical c' w' a n = logical c w a n).
  { intros c' H' [d' Hc'] a n Hn. apply (logical_same L L X X); try done.
    - by apply (holds_update X c c' i (set_dirty d' (bh_at c i))).
    - intros j Hj. destruct (core_fields _ _ (Hc' j (proj1 Hj))) as (_&_& -> &_). by destruct (Z.eqb_spec j i) as [->|].
    - intros Hno. apply Hfr; [done|]. intros [-> ->]. by apply (Hno i). }
  destruct (Z.eqb_spec rc 0) as [->|Hrc]; simpl.
  - set (c' := bump count_writeback (upd i (set_dirty false) c)).
    assert (Hc' : forall j, in_pool j -> core (bh_at c' j) = core (if j =? i then set_dirty false (bh_at c i) else bh_at c j))
      by (intros j Hj; change (bh_at c' j) with (bh_at (upd i (set_dirty false) c) j); by eapply core_upd).
    assert (H' : inv L X c' w').
    { exists lru, hb. split; [by apply bump_rep, upd_rep|]. split; [done|].
      apply (kinv_update L X (bh_at c) _ lru lru hb w w' i (set_dirty false (bh_at c i)) Hk Hi Hc'); try done.
      - by apply (k_data _ _ _ _ _ _ Hk).
      - by apply (k_ref _ _ _ _ _ _ Hk).
      - intros j Hj. rewrite (k_lru _ _ _ _ _ _ Hk) by done. destruct (core_fields _ _ (Hc' j Hj)) as (_&_&_&_&_& ->).
        by destruct (Z.eqb_spec j i) as [->|].
      - intros _ _ _ _. symmetry. by apply Hok.
      - intros E. by apply (k_loose _ _ _ _ _ _ Hk) in E as (_ & ? & _). }
    assert (Hex : forall a n, 0 <= n -> logical c' w' a n = logical c w a n) by (apply Hlog; [done|]; by exists false).
    split_and!; try done; [|by exists false].
    intros b m Hm Hne. apply Hfr; [done|]. intros [-> ->]. by apply Hne.
  - set (c' := bump count_write_error c).
    assert (H' : inv L X c' w').
    { exists lru, hb. split; [by apply bump_rep|]. split; [done|].
      apply (kinv_update L X (bh_at c) _ lru lru hb w w' i (bh_at c i) Hk Hi); try done.
      - intros j Hj. by destruct (Z.eqb_spec j i) as [->|].
      - by apply (k_data _ _ _ _ _ _ Hk).
      - by apply (k_ref _ _ _ _ _ _ Hk).
      - intros j Hj. by apply (k_lru _ _ _ _ _ _ Hk).
      - intros _ _ _. congruence.
      - intros E. by apply (k_loose _ _ _ _ _ _ Hk) in E as (_ & ? & _). }
    assert (Hex : forall a n, 0 <= n -> logical c' w' a n = logical c w a n)
      by (apply Hlog; [done|]; exists (bh_dirty (bh_at c i)); by apply Hid).
    replace (rc =? 0) with false by lia. split_and!; try done.
    { intros b m Hm Hne. apply Hfr; [done|]. intros [-> ->]. by apply Hne. }
    exists (bh_dirty (bh_at c i)). split; [done | by apply Hid].
Qed.

(** ** A client storing into a pinned buffer and marking it dirty *)
Definition client_write (i : Z) (data : list Z) (c : cache) : cache :=
  buffer_mark_dirty (Some i) (upd i (set_data data) c).

Lemma client_write_spec c w i a n data : inv None None c w -> holds None c a n i -> zlen data = BUFFER_BLOCK_SIZE ->
  inv None None (client_write i data c) w /\
  forall b m, logical (client_write i data c) w b m = if (b =? a) && (m =? n) then data else logical c w b m.
Proof.
  intros Hinv Hh Hd. pose proof Hh as (Hi & _ & Ea & En & Ha). pose proof Hinv as (lru & hb & Hr & Hini & Hk).
  set (b' := set_dirty true (set_data data (bh_at c i))).
  assert (Hc' : forall j, in_pool j -> core (bh_at (client_write i data c) j) = core (if j =? i then b' else bh_at c j)).
  { intros j Hj. unfold client_write, buffer_mark_dirty.
    rewrite (core_upd _ lru hb) by (try apply upd_rep; done). rewrite !bh_at_upd by (auto; apply (rp_pool _ _ _ Hr)).
    by rewrite Z.eqb_refl; destruct (Z.eqb_spec j i). }
  assert (H' : inv None None (client_write i data c) w).
  { exists lru, hb. split; [by apply upd_rep; [apply upd_rep| |]|]. split; [done|].
    apply (kinv_update None None (bh_at c) _ lru lru hb w w i b' Hk Hi Hc'); try done.
    - by apply (k_ref _ _ _ _ _ _ Hk).
    - by apply (k_env _ _ _ _ _ _ Hk).
    - intros j Hj. rewrite (k_lru _ _ _ _ _ _ Hk) by done. destruct (core_fields _ _ (Hc' j Hj)) as (_&_&_&_&_& ->).
      by destruct (Z.eqb_spec j i) as [->|].
    - intros E. by apply (k_loose _ _ _ _ _ _ Hk) in E as (_ & ? & _). }
  assert (Hh' : forall b m j, holds None (client_write i data c) b m j <-> holds None c b m j)
    by (intros b m; by apply (holds_update None c _ i b')).
  split; [done|]. intros b m. destruct ((b =? a) && (m =? n)) eqn:E; bools.
  - subst b m. rewrite (holds_logical None None _ w a n i H'); [|by apply Hh'].
    destruct (core_fields _ _ (Hc' i Hi)) as (_&_& -> &_). by rewrite Z.eqb_refl.
  - apply (logical_same None None None None); try done.
    intros j Hj. destruct (core_fields _ _ (Hc' j (proj1 Hj))) as (_&_& -> &_).
    destruct (Z.eqb_spec j i) as [->|]; [|done]. destruct Hj as (_ & _ & E1 & E2 & _).
    rewrite <- E1, <- E2, Ea, En, !Z.eqb_refl in E. done.
Qed.

(** ** Recycling a head *)

(** Taking head [i] off its chain and blanking it. *)
Definition blank (b : buffer_head) : buffer_head := set_valid false (set_dirty false (set_block_no 0 (set_dev 0 b))).

Lemma detach_spec c w i : inv (Some i) None c w -> in_pool i ->
  let c' := upd i blank (hash_remove i c) in
  inv (Some i) (Some i) c' w /\
  (forall j, in_pool j -> core (bh_at c' j) = core (if j =? i then blank (bh_at c i) else bh_at c j)) /\
  g_buffer_cache_stats c' = g_buffer_cache_stats c.
Proof.
  intros (lru & hb & Hr & Hini & Hk) Hi. cbv zeta.
  destruct (hash_off c lru hb i Hr Hi) as (hb1 & Hr1 & Hlo & Hm1).
  { intros k Hin. by apply (k_hb _ _ _ _ _ _ Hk) in Hin as (_ & <- & _). }
  assert (Hc' : forall j, in_pool j -> core (bh_at (upd i blank (hash_remove i c)) j) =
    core (if j =? i then blank (bh_at c i) else bh_at c j)).
  { intros j Hj. rewrite (core_upd _ lru hb1) by done. pose proof (lo_core _ _ Hlo j ltac:(auto)) as E.
    destruct (Z.eqb_spec j i) as [->|]; [|done]. apply core_fields in E as (E1 & E2 & E3 & E4 & E5 & E6).
    unfold blank, core; simpl. by rewrite E3, E6. }
  split_and!; [|done|simpl; apply (lo_stats _ _ Hlo)].
  exists lru, hb1. split; [by apply upd_rep|]. split; [simpl; by rewrite (lo_init _ _ Hlo)|].
  set (K0 := fun j => if j =? i then blank (bh_at c i) else bh_at c j).
  apply (kinv_ext _ _ K0); [exact Hc'|].
  assert (HK : forall j, Some i <> Some j -> K0 j = bh_at c j).
  { intros j Hne. unfold K0. by replace (j =? i) with false by (symmetry; apply Z.eqb_neq; congruence). }
  assert (HKi : K0 i = blank (bh_at c i)) by (unfold K0; by rewrite Z.eqb_refl).
  destruct Hk. constructor; try done.
  - intros j Hj. rewrite k_lru0 by done. destruct (Z.eq_dec j i) as [->|]; [naive_solver|]. rewrite HK by congruence. done.
  - intros j k' Hj. rewrite Hm1 by done. destruct (Z.eq_dec j i) as [->|]; [naive_solver|].
    rewrite HK, k_hb0 by congruence. naive_solver.
  - intros j Hj HX. rewrite HK by done. by apply k_valid0.
  - intros i1 j Hi1 Hj HX1 HX2. rewrite !HK by done. by apply k_uniq0.
  - intros j Hj HX. rewrite HK by done. by apply k_dev0.
  - intros j Hj. destruct (Z.eq_dec j i) as [->|]; [rewrite HKi|rewrite HK by congruence]; by apply k_data0.
  - intros j Hj. destruct (Z.eq_dec j i) as [->|]; [rewrite HKi|rewrite HK by congruence]; by apply k_ref0.
  - intros j Hj HX. rewrite HK by done. by apply k_clean0.
  - intros j Ej. destruct (k_loose0 j Ej) as (? & ? & ? & ?). by rewrite HK.
Qed.

(** [buffer_evict] takes the tail of the list; the contents every client sees are
    kept unless writing the victim back fails. *)
Lemma evict_spec c w : inv None None c w ->
  match buffer_evict devs c w with
  | (None, c', w') => c' = c /\ w' = w
  | (Some i, c', w') =>
      in_pool i /\ inv (Some i) (Some i) c' w' /\
      core (bh_at c' i) = core (blank (bh_at c i)) /\ bh_refcount (bh_at c i) = 0 /\
      (forall j, in_pool j -> j <> i -> core (bh_at c' j) = core (bh_at c j)) /\
      (forall a n, 0 <= n -> (forall j, ~ holds None c a n j) -> env_view w' a n = env_view w a n) /\
      (st_write_errors (g_buffer_cache_stats c') = st_write_errors (g_buffer_cache_stats c) ->
       forall a n, 0 <= n -> logical c' w' a n = logical c w a n)
  end.
Proof.
  intros Hinv. pose proof Hinv as (lru & hb & Hr & Hini & Hk). unfold buffer_evict.
  rewrite (victim_tail c lru hb Hr) by (intros i Hi; by apply (k_lru _ _ _ _ _ _ Hk); [eapply rp_lru_pool|]).
  destruct (last lru) as [i|] eqn:El; [|done]. apply last_in in El.
  pose proof (rp_lru_pool _ _ _ Hr i El) as Hi. pose proof El as Hz. apply (k_lru _ _ _ _ _ _ Hk) in Hz as [Hz _]; [|done].
  destruct (lru_off c lru hb i Hr El) as (lru1 & Hr1 & Hlo1 & Hm1). set (c1 := lru_remove i c) in *.
  assert (H1 : inv (Some i) None c1 w).
  { exists lru1, hb. split; [done|]. split; [by rewrite (lo_init _ _ Hlo1)|].
    apply (links_kinv _ _ c); [done|]. destruct Hk. constructor; try done; intros j Hj.
    - rewrite Hm1, k_lru0 by done. naive_solver.
    - destruct (k_loose0 j Hj) as (? & Hrj & ? & ?). split_and!; try done. intros [= ->]. done. }
  assert (Hcore1 : forall j, in_pool j -> core (bh_at c1 j) = core (bh_at c j)) by (intros; apply (lo_core _ _ Hlo1); auto).
  assert (Hlog1 : forall a n, logical c1 w a n = logical c w a n).
  { intros a n. apply (logical_same None (Some i) None None); try done.
    - intros j. by apply links_holds.
    - intros j Hj. by apply links_data; [|apply Hj]. }
  (* the optional write-back *)
  set (r := if bh_dirty (bh_at c1 i) && bh_valid (bh_at c1 i)
            then let '(_, c, w) := buffer_write_back devs (Some i) c1 w in (c, w) else (c1, w)).
  assert (H2 : inv (Some i) None r.1 r.2 /\ (forall a n, 0 <= n -> logical r.1 r.2 a n = logical c w a n) /\
    (forall b m, 0 <= m -> ~ holds None c b m i -> env_view r.2 b m = env_view w b m) /\
    (exists d', (st_write_errors (g_buffer_cache_stats r.1) = st_write_errors (g_buffer_cache_stats c) ->
                 bh_dev (bh_at c i) <> 0 -> d' = false) /\
       forall j, in_pool j -> core (bh_at r.1 j) = core (if j =? i then set_dirty d' (bh_at c i) else bh_at c j))).
  { pose proof (write_back_spec (Some i) None c1 w i H1 Hi ltac:(done)) as Hwb. unfold r.
    destruct (core_fields _ _ (Hcore1 i Hi)) as (E1 & E2 & E3 & E4 & E5 & E6).
    destruct (bh_dirty (bh_at c1 i) && bh_valid (bh_at c1 i)) eqn:Ed.
    - destruct (buffer_write_back devs (Some i) c1 w) as [[rc c2] w2].
      destruct Hwb as (H2 & Hl2 & Hf2 & (d' & Hd' & Hc2) & Hs2 & _). cbn [fst snd]. rewrite E1 in Hd'.
      split_and!; [done | intros; by rewrite Hl2, Hlog1 | |].
      { intros b m Hm Hno. apply Hf2; [done|]. by rewrite (links_holds _ c c1). } exists d'. split.
      + intros Hse. apply Hd'. rewrite Hs2, (lo_stats _ _ Hlo1) in Hse. destruct (Z.eqb_spec rc 0); [done|].
        exfalso. unfold u64 in Hse. pose proof (Z.div_mod (st_write_errors (g_buffer_cache_stats c) + 1) (2 ^ 64) ltac:(lia)).
        nia.
      + intros j Hj. rewrite Hc2 by done. destruct (Z.eqb_spec j i); [|by apply Hcore1].
        unfold core; simpl. by rewrite E1, E2, E3, E5, E6.
    - cbn [fst snd]. split_and!; try done. exists (bh_dirty (bh_at c i)). split.
      + intros _ Hd. apply (k_valid _ _ _ _ _ _ Hk) in Hd; [|done|done]. rewrite E4, E5, Hd in Ed.
        by destruct (bh_dirty (bh_at c i)).
      + intros j Hj. rewrite Hcore1 by done. destruct (Z.eqb_spec j i) as [->|]; [|done]. by destruct (bh_at c i). }
  destruct r as [c2 w2]. cbn [fst snd] in H2. destruct H2 as (H2 & Hl2 & Hf2 & (d' & Hd' & Hc2)).
  set (c3 := if bh_valid (bh_at c2 i) || truthy (bh_dev (bh_at c2 i)) then bump count_eviction c2 else c2).
  assert (H3 : inv (Some i) None c3 w2).
  { unfold c3. destruct (_ || _); [|done]. destruct H2 as (lru2 & hb2 & ? & ? & ?).
    exists lru2, hb2. split_and!; [by apply bump_rep | done | done]. }
  assert (Hc3 : forall j, bh_at c3 j = bh_at c2 j) by (intros; unfold c3; by destruct (_ || _)).
  assert (Hs3 : st_write_errors (g_buffer_cache_stats c3) = st_write_errors (g_buffer_cache_stats c2))
    by (unfold c3; by destruct (_ || _)).
  destruct (detach_spec c3 w2 i H3 Hi) as (H4 & Hc4 & Hs4). fold blank in *.
  set (c4 := upd i blank (hash_remove i c3)) in *.
  change (upd i (fun b => set_valid false (set_dirty false (set_block_no 0 (set_dev 0 b)))) (hash_remove i c3)) with c4.
  assert (Hc4i : core (bh_at c4 i) = core (blank (bh_at c i))).
  { rewrite Hc4, Z.eqb_refl, Hc3 by done. pose proof (Hc2 i Hi) as E. rewrite Z.eqb_refl in E.
    apply core_fields in E as (_ & _ & E3 & _ & _ & E6). unfold core, blank; simpl. by rewrite E3, E6. }
  assert (Hc4j : forall j, in_pool j -> j <> i -> core (bh_at c4 j) = core (bh_at c j)).
  { intros j Hj Hne. pose proof (Hc2 j Hj) as E. rewrite Hc4 by done.
    replace (j =? i) with false in * by lia. by rewrite Hc3. }
  assert (Hh : forall a n j, j <> i -> holds (Some i) c4 a n j <-> holds None c a n j).
  { intros a n j Hne. unfold holds. split; intros (Hj & _ & ?); destruct (core_fields _ _ (Hc4j j Hj Hne)) as (E1 & E2 & _);
      rewrite E1, E2 in *; split_and!; try tauto; congruence. }
  split_and!; try done.
  - intros a n Hn Hno. apply Hf2; [done | apply Hno].
  - rewrite Hs4, Hs3. intros Hse a n Hn. rewrite <- Hl2 by done.
    destruct (decide (holds None c a n i)) as [Hhi|Hhi].
    + pose proof Hhi as (_ & _ & Ea & En & Ha). specialize (Hd' Hse ltac:(congruence)). subst d'.
      assert (Hh2 : holds None c2 a n i).
      { pose proof (Hc2 i Hi) as E. rewrite Z.eqb_refl in E. apply core_fields in E as (E1 & E2 & _).
        unfold holds. rewrite E1, E2. done. }
      rewrite (holds_logical (Some i) None c2 w2 a n i H2 Hh2). unfold logical.
      rewrite (lookup_none (Some i) (Some i) c4 w2); [|done|].
      2: { intros j Hj. destruct (Z.eq_dec j i) as [->|Hne]; [by destruct Hj as (_ & ? & _)|].
           apply Hh in Hj; [|done]. destruct Hj as (Hjp & _ & Ej1 & Ej2 & _). apply Hne.
           apply (k_uniq _ _ _ _ _ _ Hk); try done; congruence. }
      destruct H2 as (lru2 & hb2 & _ & _ & Hk2). pose proof (Hc2 i Hi) as E. rewrite Z.eqb_refl in E.
      apply core_fields in E as (E1 & E2 & _ & E4 & _). simpl in E1, E2, E4. rewrite <- Ea, <- En, <- E1, <- E2.
      symmetry. apply (k_clean _ _ _ _ _ _ Hk2); try done; [|congruence].
      intros E. by destruct (k_loose _ _ _ _ _ _ Hk2 i E) as (_ & _ & ? & _).
    + apply (logical_same (Some i) (Some i) None (Some i)); try done.
      * intros j. destruct (Z.eq_dec j i) as [->|Hne].
        -- split; [intros (_ & ? & _); done|]. intros Hj. exfalso. apply Hhi.
           pose proof (Hc2 i Hi) as E. rewrite Z.eqb_refl in E. apply core_fields in E as (E1 & E2 & _).
           unfold holds in *. by rewrite E1, E2 in Hj.
        -- rewrite Hh by done. unfold holds. split; intros (Hj & ? & ?); pose proof (Hc2 j Hj) as E;
             replace (j =? i) with false in E by lia; apply core_fields in E as (E1 & E2 & _); rewrite E1, E2 in *; done.
      * intros j Hj. pose proof Hj as (Hjp & _). destruct (Z.eq_dec j i) as [->|Hne].
        -- exfalso. apply Hhi. pose proof (Hc2 i Hi) as E. rewrite Z.eqb_refl in E.
           apply core_fields in E as (E1 & E2 & _). unfold holds in *. by rewrite E1, E2 in Hj.
        -- pose proof (Hc2 j Hjp) as E. replace (j =? i) with false in E by lia.
           apply core_fields in E as (_ & _ & -> & _). by destruct (core_fields _ _ (Hc4j j Hjp Hne)) as (_ & _ & -> & _).
Qed.

(** ** Refilling a recycled head *)
Lemma bump_inv L X c w f : inv L X c w -> inv L X (bump f c) w.
Proof. intros (lru & hb & Hr & Hini & Hk). exists lru, hb. split_and!; [by apply bump_rep | done | done]. Qed.

Lemma bump_logical L X c w f a n : inv L X c w -> logical (bump f c) w a n = logical c w a n.
Proof. intros Hi. apply (logical_same L L X X); try done. by apply bump_inv. Qed.

(** A recycled head may be changed freely. *)
Lemma recycle_update c w i f : inv (Some i) (Some i) c w -> in_pool i ->
  (forall b, hash_next (f b) = hash_next b /\ lru_next (f b) = lru_next b /\ lru_prev (f b) = lru_prev b) ->
  zlen (bh_data (f (bh_at c i))) = BUFFER_BLOCK_SIZE -> 0 <= bh_refcount (f (bh_at c i)) < 2 ^ 16 ->
  inv (Some i) (Some i) (upd i f c) w /\
  (forall j, in_pool j -> core (bh_at (upd i f c) j) = core (if j =? i then f (bh_at c i) else bh_at c j)).
Proof.
  intros (lru & hb & Hr & Hini & Hk) Hi Hf Hd Href.
  assert (Hc' : forall j, in_pool j -> core (bh_at (upd i f c) j) = core (if j =? i then f (bh_at c i) else bh_at c j))
    by (intros; by eapply core_upd).
  split; [|done]. exists lru, hb. split; [by apply upd_rep|]. split; [done|].
  set (K0 := fun j => if j =? i then f (bh_at c i) else bh_at c j).
  apply (kinv_ext _ _ K0); [exact Hc'|].
  assert (HK : forall j, Some i <> Some j -> K0 j = bh_at c j).
  { intros j Hne. unfold K0. by replace (j =? i) with false by (symmetry; apply Z.eqb_neq; congruence). }
  assert (HKi : K0 i = f (bh_at c i)) by (unfold K0; by rewrite Z.eqb_refl).
  destruct Hk. constructor; try done.
  - intros j Hj. rewrite k_lru0 by done. destruct (Z.eq_dec j i) as [->|]; [naive_solver|]. rewrite HK by congruence. done.
  - intros j k' Hj. rewrite k_hb0 by done. destruct (Z.eq_dec j i) as [->|]; [naive_solver|]. by rewrite HK by congruence.
  - intros j Hj HX. rewrite HK by done. by apply k_valid0.
  - intros i1 j Hi1 Hj HX1 HX2. rewrite !HK by done. by apply k_uniq0.
  - intros j Hj HX. rewrite HK by done. by apply k_dev0.
  - intros j Hj. destruct (Z.eq_dec j i) as [->|]; [by rewrite HKi|rewrite HK by congruence]; by apply k_data0.
  - intros j Hj. destruct (Z.eq_dec j i) as [->|]; [by rewrite HKi|rewrite HK by congruence]; by apply k_ref0.
  - intros j Hj HX. rewrite HK by done. by apply k_clean0.
  - intros j Ej. destruct (k_loose0 j Ej) as (? & ? & ? & ?). by rewrite HK.
Qed.

(** Giving a recycled head back: to the LRU list when it is blank ... *)
Lemma attach_lru c w i : inv (Some i) (Some i) c w -> in_pool i -> bh_dev (bh_at c i) = 0 ->
  bh_refcount (bh_at c i) = 0 -> bh_valid (bh_at c i) = false ->
  inv None None (lru_insert_front i c) w /\ links_only c (lru_insert_front i c) /\
  forall a n, logical (lru_insert_front i c) w a n = logical c w a n.
Proof.
  intros Hinv Hi Hd Hz Hv. pose proof Hinv as (lru & hb & Hr & Hini & Hk).
  assert (Hnot : i ∉ lru) by (rewrite (k_lru _ _ _ _ _ _ Hk) by done; naive_solver).
  destruct (lru_insert_rep c lru hb i Hr Hi Hnot) as [Hr2 Hlo].
  assert (H2 : inv None None (lru_insert_front i c) w).
  { exists (i :: lru), hb. split; [done|]. split; [by rewrite (lo_init _ _ Hlo)|]. apply (links_kinv _ _ c); [done|].
    assert (Hsplit : forall j, {j = i} + {Some i <> Some j}) by (intros j; destruct (Z.eq_dec j i); [by left | right; congruence]).
    destruct Hk. constructor; try done.
    - intros j Hj. rewrite elem_of_cons, k_lru0 by done. destruct (Hsplit j) as [->|]; naive_solver.
    - intros j k Hj. rewrite k_hb0 by done. destruct (Hsplit j) as [->|]; naive_solver.
    - intros j Hj _. destruct (Hsplit j) as [->|]; [by rewrite Hd, Hv | by apply k_valid0].
    - intros i1 j Hi1 Hj _ _ Hdi Ed Eb. destruct (Hsplit i1) as [->|], (Hsplit j) as [->|]; try congruence. by apply k_uniq0.
    - intros j Hj _. destruct (Hsplit j) as [->|]; [done | by apply k_dev0].
    - intros j Hj _. destruct (Hsplit j) as [->|]; [done | by apply k_clean0].
    - intros j Ej. destruct (k_loose0 j Ej) as (? & ? & ? & ?). done. }
  split_and!; [done | done |]. intros a n. apply (logical_same (Some i) None (Some i) None); try done.
  - intros j. rewrite (links_holds _ _ _ _ _ _ Hlo). unfold holds. destruct (Z.eq_dec j i) as [->|]; [|naive_solver].
    split; [intros (_ & _ & E & _ & ?); congruence | intros (_ & ? & _); done].
  - intros j Hj. by apply links_data; [|apply Hj].
Qed.

(** ... and to its hash chain when it holds a freshly read block. *)
Lemma attach_hash c w i d : inv (Some i) (Some i) c w -> in_pool i ->
  let a := bh_dev (bh_at c i) in let n := bh_block_no (bh_at c i) in
  a <> 0 -> bh_refcount (bh_at c i) <> 0 -> bh_valid (bh_at c i) = true ->
  devs a = Some d -> dev_block_size d = BUFFER_BLOCK_SIZE -> 0 <= n < dev_block_count d ->
  bh_data (bh_at c i) = env_view w a n -> (forall j, ~ holds (Some i) c a n j) ->
  inv None None (hash_insert i c) w /\ (forall b m, logical (hash_insert i c) w b m = logical c w b m) /\
  links_only c (hash_insert i c).
Proof.
  intros Hinv Hi a n Ha Hz Hv Hd Hs Hn Hdata Hno. pose proof Hinv as (lru & hb & Hr & Hini & Hk).
  assert (Hnot : forall k, i ∉ hb k) by (intros k; rewrite (k_hb _ _ _ _ _ _ Hk) by done; naive_solver).
  destruct (hash_insert_rep c lru hb i Hr Hi Hnot) as [Hr2 Hlo]. fold a n in Hr2.
  assert (Hsplit : forall j, {j = i} + {Some i <> Some j}) by (intros j; destruct (Z.eq_dec j i); [by left | right; congruence]).
  assert (H2 : inv None None (hash_insert i c) w).
  { exists lru, (update_hb hb (buffer_hash a n) (i :: hb (buffer_hash a n))). split; [done|].
    split; [by rewrite (lo_init _ _ Hlo)|]. apply (links_kinv _ _ c); [done|].
    destruct Hk. constructor; try done.
    - intros j Hj. rewrite k_lru0 by done. destruct (Hsplit j) as [->|]; naive_solver.
    - intros j k Hj. unfold update_hb. destruct (Z.eqb_spec k (buffer_hash a n)) as [->|Hne].
      + rewrite elem_of_cons, k_hb0 by done. destruct (Hsplit j) as [->|]; naive_solver.
      + rewrite k_hb0 by done. destruct (Hsplit j) as [->|]; naive_solver.
    - intros j Hj _. destruct (Hsplit j) as [->|]; [done | by apply k_valid0].
    - intros i1 j Hi1 Hj _ _ Hdi Ed Eb. destruct (Hsplit i1) as [->|H1], (Hsplit j) as [->|H2]; try done.
      + exfalso. by apply (Hno j).
      + exfalso. apply (Hno i1). unfold holds. split_and!; try done.
      + by apply k_uniq0.
    - intros j Hj _. destruct (Hsplit j) as [->|]; [intros _; by exists d | by apply k_dev0].
    - intros j Hj _. destruct (Hsplit j) as [->|]; [done | by apply k_clean0].
    - intros j Ej. destruct (k_loose0 j Ej) as (? & ? & ? & ?). done. }
  split_and!; [done | | done].
  intros b m. destruct (decide (b = a /\ m = n)) as [[-> ->]|Hne].
  - rewrite (holds_logical None None _ w a n i H2).
    2: { rewrite (links_holds _ _ _ _ _ _ Hlo). done. }
    rewrite (links_data _ _ _ Hlo Hi), Hdata. unfold logical. by rewrite (lookup_none (Some i) (Some i) c w) by done.
  - apply (logical_same (Some i) None (Some i) None); try done.
    + intros j. rewrite (links_holds _ _ _ _ _ _ Hlo). unfold holds. destruct (Hsplit j) as [->|]; [|naive_solver].
      split; [intros (_ & _ & E1 & E2 & _); exfalso; apply Hne; by rewrite <- E1, <- E2 | intros (_ & ? & _); done].
    + intros j Hj. by apply links_data; [|apply Hj].
Qed.

(** Reading a block into the recycled head [i]. *)
Definition fill (a n i : Z) (c : cache) (w : W) : option Z * cache * W :=
  let c := upd i (fun b => set_refcount 1 (set_block_no n (set_dev a b))) c in
  let '(rc, data, w) := block_device_read (devs a) n (bh_data (bh_at c i)) w in
  let c := upd i (set_data data) c in
  if negb (rc =? 0) then
    let c := bump count_read_error c in
    let c := upd i (fun b => set_refcount 0 (set_dev 0 b)) c in
    (None, lru_insert_front i c, w)
  else
    let c := upd i (fun b => set_dirty false (set_valid true b)) c in
    (Some i, hash_insert i c, w).

Lemma fill_spec c w a n i d : inv (Some i) (Some i) c w -> in_pool i -> bh_valid (bh_at c i) = false ->
  devs a = Some d -> dev_block_size d = BUFFER_BLOCK_SIZE -> 0 <= n -> (forall j, ~ holds (Some i) c a n j) ->
  let '(p, c', w') := fill a n i c w in
  inv None None c' w' /\ (forall b m, logical c' w' b m = logical c w b m) /\
  env_view w' = env_view w /\
  st_write_errors (g_buffer_cache_stats c') = st_write_errors (g_buffer_cache_stats c) /\
  (forall j, in_pool j -> j <> i -> core (bh_at c' j) = core (bh_at c j)) /\
  match p with
  | Some k => k = i /\ holds None c' a n i /\ bh_refcount (bh_at c' i) = 1 /\ bh_data (bh_at c' i) = env_view w a n
  | None => bh_refcount (bh_at c' i) = 0
  end.
Proof.
  intros Hinv Hi Hval Hd Hs Hn Hno. unfold fill.
  assert (Ha : a <> 0) by (intros ->; rewrite env_null in Hd; done).
  assert (Hlen : zlen (bh_data (bh_at c i)) = BUFFER_BLOCK_SIZE) by (destruct Hinv as (? & ? & _ & _ & Hk); by apply (k_data _ _ _ _ _ _ Hk)).
  set (f1 := fun b => set_refcount 1 (set_block_no n (set_dev a b))).
  destruct (recycle_update c w i f1 Hinv Hi) as [H1 Hc1]; [done | done | simpl; lia |].
  set (c1 := upd i f1 c) in *. pose proof (Hc1 i Hi) as E1. rewrite Z.eqb_refl in E1. apply core_fields in E1 as (_ & _ & E1 & _). simpl in E1.
  assert (Hw : env_inv w) by (destruct Hinv as (? & ? & _ & _ & Hk); apply (k_env _ _ _ _ _ _ Hk)).
  pose proof (env_read w a d n (bh_data (bh_at c1 i)) Hw Hd Hn ltac:(rewrite E1, Hs; done)) as Hrd.
  destruct (block_device_read (devs a) n (bh_data (bh_at c1 i)) w) as [[rc data] w'].
  destruct Hrd as (Hw' & Hl & Hv & Hok). rewrite E1, Hlen in Hl.
  (* the world moves: clean heads only look at the view *)
  assert (H1' : inv (Some i) (Some i) c1 w').
  { destruct H1 as (lru & hb & Hr & Hini & Hk). exists lru, hb. split_and!; [done|done|]. destruct Hk.
    constructor; try done. intros j Hj HX HY Hdj Hcl. rewrite Hv. by apply k_clean0. }
  destruct (recycle_update c1 w' i (set_data data) H1' Hi) as [H2 Hc2]; [done | done | |].
  { destruct H1 as (? & ? & _ & _ & Hk). by apply (k_ref _ _ _ _ _ _ Hk). }
  set (c2 := upd i (set_data data) c1) in *.
  assert (Hc2i : core (bh_at c2 i) = core (set_data data (f1 (bh_at c i)))).
  { rewrite Hc2, Z.eqb_refl by done. pose proof (Hc1 i Hi) as E. rewrite Z.eqb_refl in E.
    apply core_fields in E as (F1 & F2 & F3 & F4 & F5 & F6). unfold core; simpl. by rewrite F1, F2, F4, F5, F6. }
  assert (Hc2j : forall j, in_pool j -> j <> i -> core (bh_at c2 j) = core (bh_at c j)).
  { intros j Hj Hne. pose proof (Hc1 j Hj) as E. rewrite Hc2 by done. by replace (j =? i) with false in * by lia. }
  (* whatever is done to head [i] while it is recycled, the other heads are those of [c] *)
  assert (Hlog : forall c', inv (Some i) (Some i) c' w' ->
    (forall j, in_pool j -> j <> i -> core (bh_at c' j) = core (bh_at c j)) ->
    forall b m, (forall j, holds (Some i) c' b m j <-> holds (Some i) c b m j) /\ logical c' w' b m = logical c w b m).
  { intros c' H' Hc' b m.
    assert (Hh : forall j, holds (Some i) c' b m j <-> holds (Some i) c b m j).
    { intros j. unfold holds. split; intros (Hj & HX & ?); destruct (core_fields _ _ (Hc' j Hj ltac:(congruence))) as (F1 & F2 & _);
        rewrite F1, F2 in *; done. }
    split; [done|]. apply (logical_same (Some i) (Some i) (Some i) (Some i)); try done.
    - intros j (Hj & HX & _). by destruct (core_fields _ _ (Hc' j Hj ltac:(congruence))) as (_ & _ & ? & _).
    - intros _. by rewrite Hv. }
  apply core_fields in Hc2i as (F1 & F2 & F3 & F4 & F5 & F6). simpl in F1, F2, F3, F4, F5, F6.
  destruct (Z.eqb_spec rc 0) as [->|Hrc]; cbn [negb].
  - destruct Hok as [Hcnt ->]; [done|].
    set (f3 := fun b => set_dirty false (set_valid true b)).
    destruct (recycle_update c2 w' i f3 H2 Hi) as [H3 Hc3]; [done | simpl; by rewrite F3 | simpl; rewrite F6; lia |].
    set (c3 := upd i f3 c2) in *.
    pose proof (Hc3 i Hi) as E. rewrite Z.eqb_refl in E. apply core_fields in E as (G1 & G2 & G3 & G4 & G5 & G6).
    simpl in G1, G2, G3, G4, G5, G6. rewrite F1 in G1. rewrite F2 in G2. rewrite F3 in G3. rewrite F6 in G6.
    assert (Hc3j : forall j, in_pool j -> j <> i -> core (bh_at c3 j) = core (bh_at c j)).
    { intros j Hj Hne. pose proof (Hc3 j Hj) as E. replace (j =? i) with false in E by lia. rewrite E. by apply Hc2j. }
    pose proof (Hlog c3 H3 Hc3j) as Hl3.
    destruct (attach_hash c3 w' i d H3 Hi) as (H4 & Hl4 & Hlo4); rewrite ?G1, ?G2; try done; [lia | by rewrite G3, Hv | |].
    { intros j Hj. apply Hl3 in Hj. by apply (Hno j). }
    destruct (core_fields _ _ (lo_core _ _ Hlo4 i ltac:(auto))) as (I1 & I2 & I3 & _ & _ & I6).
    split_and!; [done | | done | by rewrite (lo_stats _ _ Hlo4) | | done | | by rewrite I6, G6 | by rewrite I3, G3].
    + intros b m. rewrite Hl4. apply Hl3.
    + intros j Hj Hne. rewrite (lo_core _ _ Hlo4) by auto. by apply Hc3j.
    + unfold holds. rewrite I1, I2, G1, G2. done.
  - set (c3 := bump count_read_error c2).
    assert (H3 : inv (Some i) (Some i) c3 w') by (by apply bump_inv).
    set (f4 := fun b => set_refcount 0 (set_dev 0 b)).
    destruct (recycle_update c3 w' i f4 H3 Hi) as [H4 Hc4]; [done | simpl; change (bh_at c3 i) with (bh_at c2 i); by rewrite F3 | simpl; lia |].
    set (c4 := upd i f4 c3) in *. pose proof (Hc4 i Hi) as E. rewrite Z.eqb_refl in E.
    apply core_fields in E as (G1 & G2 & G3 & G4 & G5 & G6). simpl in G1, G6. change (bh_at c3 i) with (bh_at c2 i) in *.
    assert (Hc4j : forall j, in_pool j -> j <> i -> core (bh_at c4 j) = core (bh_at c j)).
    { intros j Hj Hne. pose proof (Hc4 j Hj) as E. replace (j =? i) with false in E by lia. rewrite E. by apply Hc2j. }
    destruct (attach_lru c4 w' i H4 Hi G1 G6) as (H5 & Hlo5 & Hl5); [by rewrite G5; simpl; rewrite F5|].
    split_and!; try done.
    + intros b m. rewrite Hl5. by apply (Hlog c4 H4 Hc4j).
    + by rewrite (lo_stats _ _ Hlo5).
    + intros j Hj Hne. rewrite (lo_core _ _ Hlo5) by auto. by apply Hc4j.
    + destruct (core_fields _ _ (lo_core _ _ Hlo5 i ltac:(auto))) as (_&_&_&_&_& ->). done.
Qed.

(** ** [buffer_get] *)
Lemma get_spec c w a n d : inv None None c w -> devs a = Some d -> dev_block_size d = BUFFER_BLOCK_SIZE -> 0 <= n ->
  (forall i, holds None c a n i -> bh_refcount (bh_at c i) < 2 ^ 16 - 1) ->
  let '(p, c', w') := buffer_get devs a n c w in
  inv None None c' w' /\
  (st_write_errors (g_buffer_cache_stats c') = st_write_errors (g_buffer_cache_stats c) ->
   forall b m, 0 <= m -> logical c' w' b m = logical c w b m) /\
  (forall j, in_pool j -> bh_refcount (bh_at c' j) =
     bh_refcount (bh_at c j) + if decide (p = Some j) then 1 else 0) /\
  match p with
  | Some i => holds None c' a n i /\ bh_data (bh_at c' i) = logical c w a n
  | None => True
  end.
Proof.
  intros Hinv Hd Hs Hn Hsat. pose proof Hinv as (lru & hb & Hr & Hini & Hk). unfold buffer_get.
  rewrite Hini, Hd, Hs. cbv zeta. replace (negb (BUFFER_BLOCK_SIZE =? BUFFER_BLOCK_SIZE)) with false by done.
  destruct (hash_lookup a n c) as [i|] eqn:El.
  - apply (lookup_holds None None c w) in El as Hh; [|done]. pose proof Hh as (Hi & _).
    destruct (hit_spec c w i Hinv Hi (Hsat i Hh)) as (H' & Hl & Hc & Hcj & Hse). cbv zeta in Hc, Hcj.
    split_and!; [done | done | | |].
    + intros j Hj. destruct (decide (Some i = Some j)) as [[= ->]|Hne].
      * by apply core_fields in Hc as (_&_&_&_&_& ->).
      * destruct (core_fields _ _ (Hcj j Hj ltac:(congruence))) as (_&_&_&_&_& ->). lia.
    + apply core_fields in Hc as (E1 & E2 & _). destruct Hh as (? & ? & E3 & E4 & ?). unfold holds.
      rewrite E1, E2. done.
    + rewrite (holds_logical None None c w a n i Hinv Hh). by apply core_fields in Hc as (_&_& -> &_).
  - set (c0 := bump count_miss c).
    assert (H0 : inv None None c0 w) by (by apply bump_inv).
    assert (Hno : forall j, ~ holds None c0 a n j).
    { intros j Hj. apply (lookup_holds None None c w a n j Hinv) in Hj. congruence. }
    pose proof (evict_spec c0 w H0) as Hev. destruct (buffer_evict devs c0 w) as [[[i|] c1] w1].
    2: { destruct Hev as [-> ->]. split_and!; [done | | |done]; [intros _ b m _; by apply (bump_logical None None)|].
         intros j Hj. rewrite decide_False by done. change (bh_at c0 j) with (bh_at c j). lia. }
    destruct Hev as (Hi & H1 & Hci & Hz & Hcj & Hview & Hlog).
    assert (Hno1 : forall j, ~ holds (Some i) c1 a n j).
    { intros j (Hj & HX & E1 & E2 & Ha). apply (Hno j). assert (Hji : j <> i) by congruence.
      destruct (core_fields _ _ (Hcj j Hj Hji)) as (F1 & F2 & _). unfold holds. rewrite <- F1, <- F2. done. }
    rewrite <- Hd. change (let '(p, c', w') := fill a n i c1 w1 in
      inv None None c' w' /\
      (st_write_errors (g_buffer_cache_stats c') = st_write_errors (g_buffer_cache_stats c) ->
       forall b m, 0 <= m -> logical c' w' b m = logical c w b m) /\
      (forall j, in_pool j -> bh_refcount (bh_at c' j) =
         bh_refcount (bh_at c j) + if decide (p = Some j) then 1 else 0) /\
      match p with
      | Some i => holds None c' a n i /\ bh_data (bh_at c' i) = logical c w a n
      | None => True
      end).
    apply core_fields in Hci as (_&_&_&_& Hvi & Hri). simpl in Hvi, Hri.
    pose proof (fill_spec c1 w1 a n i d H1 Hi Hvi Hd Hs Hn Hno1) as Hf.
    destruct (fill a n i c1 w1) as [[p c2] w2]. destruct Hf as (H2 & Hl2 & Hv2 & Hs2 & Hcj2 & Hp). split_and!; [done | | |].
    + rewrite Hs2. intros Hse b m Hm. rewrite Hl2, Hlog by done. by apply (bump_logical None None).
    + intros j Hj. change (bh_at c j) with (bh_at c0 j). destruct (Z.eq_dec j i) as [->|Hne].
      * destruct p as [k|]; [destruct Hp as (-> & _ & -> & _); rewrite decide_True by done; lia|].
        rewrite decide_False by done. lia.
      * destruct (core_fields _ _ (Hcj2 j Hj Hne)) as (_&_&_&_&_& ->).
        destruct (core_fields _ _ (Hcj j Hj Hne)) as (_&_&_&_&_& ->). rewrite decide_False; [lia|].
        destruct p as [k|]; [|done]. destruct Hp as (-> & _). congruence.
    + destruct p as [k|]; [|done]. destruct Hp as (-> & Hh & Hrc & Hdt). split; [done|].
      rewrite Hdt, Hview by done. unfold logical. by rewrite El.
Qed.

(** ** Bulk write-back *)

(** The heads of two states differ at most in their dirty flags. *)
Definition same_but_dirty c c' : Prop := forall j, in_pool j ->
  bh_dev (bh_at c' j) = bh_dev (bh_at c j) /\ bh_block_no (bh_at c' j) = bh_block_no (bh_at c j) /\
  bh_refcount (bh_at c' j) = bh_refcount (bh_at c j) /\ (bh_dirty (bh_at c j) = false -> bh_dirty (bh_at c' j) = false).

Lemma write_back_same c c' i d' : (bh_dirty (bh_at c i) = false -> d' = false) ->
  (forall j, in_pool j -> core (bh_at c' j) = core (if j =? i then set_dirty d' (bh_at c i) else bh_at c j)) ->
  same_but_dirty c c'.
Proof.
  intros Hd Hc j Hj. destruct (core_fields _ _ (Hc j Hj)) as (-> & -> & _ & -> & _ & ->).
  destruct (Z.eqb_spec j i) as [->|]; [|done]. by simpl.
Qed.

Lemma set_error_inv L X c w x y z : inv L X c w -> inv L X (set_error x y z c) w.
Proof. intros (lru & hb & Hr & Hini & Hk). exists lru, hb. split_and!; [by apply set_error_rep | done | done]. Qed.

Lemma set_error_logical L X c w x y z a n : inv L X c w -> logical (set_error x y z c) w a n = logical c w a n.
Proof. intros Hi. apply (logical_same L L X X); try done. by apply set_error_inv. Qed.

Lemma sync_spec a c w : inv None None c w ->
  let '(rc, c', w') := buffer_cache_sync devs a c w in
  inv None None c' w' /\ (forall b n, 0 <= n -> logical c' w' b n = logical c w b n) /\
  same_but_dirty c c' /\
  (rc = 0 -> forall j, in_pool j -> bh_dev (bh_at c' j) = a -> a <> 0 -> bh_dirty (bh_at c' j) = false) /\
  (st_write_errors (g_buffer_cache_stats c') <> st_write_errors (g_buffer_cache_stats c) -> rc <> 0).
Proof.
  intros Hinv. unfold buffer_cache_sync.
  pose (P := fun i (r : Z * cache * W) => let '(rc, c', w') := r in
    inv None None c' w' /\ (forall b n, 0 <= n -> logical c' w' b n = logical c w b n) /\ same_but_dirty c c' /\
    (rc = 0 -> forall j, 0 <= j < i -> bh_dev (bh_at c' j) = a -> a <> 0 -> bh_dirty (bh_at c' j) = false) /\
    (st_write_errors (g_buffer_cache_stats c') <> st_write_errors (g_buffer_cache_stats c) -> rc <> 0)).
  match goal with |- context [for_range 0 BUFFER_CACHE_MAX ?f ?s] =>
    enough (H : P BUFFER_CACHE_MAX (for_range 0 BUFFER_CACHE_MAX f s)) by (by destruct (for_range 0 BUFFER_CACHE_MAX f s) as [[rc c'] w']) end.
  apply (for_range_ind P); [done | |]; unfold P.
  - split_and!; try done; try lia. by apply set_error_inv.
  - intros i [[rc c1] w1] Hi (H1 & Hl1 & Hs1 & Hcl1 & He1). fold (in_pool i) in Hi.
    destruct ((bh_dev (bh_at c1 i) =? a) && bh_dirty (bh_at c1 i) && bh_valid (bh_at c1 i)) eqn:E.
    + pose proof (write_back_spec None None c1 w1 i H1 Hi ltac:(done)) as Hwb.
      destruct (buffer_write_back devs (Some i) c1 w1) as [[wrc c2] w2].
      destruct Hwb as (H2 & Hl2 & _ & (d' & Hd' & Hc2) & Hse & _). bools.
      assert (Hs2 : same_but_dirty c1 c2) by (apply (write_back_same c1 c2 i d'); [congruence | done]).
      assert (Hs3 : same_but_dirty c c2).
      { intros j Hj. destruct (Hs1 j Hj) as (E1 & E2 & E3 & E4), (Hs2 j Hj) as (F1 & F2 & F3 & F4).
        rewrite F1, F2, F3. split_and!; auto. }
      destruct (Z.eqb_spec wrc 0) as [->|Hne]; simpl.
      * split_and!; [done | intros; by rewrite Hl2, Hl1 | done | | rewrite Hse; done].
        intros Hrc j Hj Hdj Ha. destruct (Z.eq_dec j i) as [->|Hji].
        -- destruct (core_fields _ _ (Hc2 i Hi)) as (G1 & _ & _ & -> & _). rewrite Z.eqb_refl in *. simpl in *.
           apply Hd'; [done | congruence].
        -- assert (Hjp : in_pool j) by (unfold in_pool in *; lia).
           destruct (Hs2 j Hjp) as (F1 & _ & _ & F4). apply F4, Hcl1; [done | lia | congruence | done].
      * destruct (g_last_error_valid c2); simpl; split_and!; try done; try (intros; by rewrite ?(set_error_logical None None), Hl2, Hl1).
        by apply set_error_inv.
    + split_and!; try done. intros Hrc j Hj Hdj Ha. destruct (Z.eq_dec j i) as [->|Hji]; [|apply Hcl1; try done; lia].
      pose proof H1 as (lru & hb & _ & _ & Hk). rewrite Hdj, Z.eqb_refl in E.
      assert (Hv : bh_valid (bh_at c1 i) = true) by (apply (k_valid _ _ _ _ _ _ Hk); try done; congruence).
      rewrite Hv in E. by destruct (bh_dirty (bh_at c1 i)).
Qed.

(** After a clean sync the device holds what the clients see. *)
Lemma clean_view c w a n : Y = None -> inv None None c w -> a <> 0 ->
  (forall j, in_pool j -> bh_dev (bh_at c j) = a -> a <> 0 -> bh_dirty (bh_at c j) = false) ->
  env_view w a n = logical c w a n.
Proof.
  intros HY Hinv Ha Hcl. pose proof Hinv as (lru & hb & _ & _ & Hk). unfold logical.
  destruct (hash_lookup a n c) as [i|] eqn:E; [|done].
  apply (lookup_holds None None c w a n i Hinv) in E as (Hi & _ & E1 & E2 & _).
  rewrite <- E1, <- E2. symmetry. apply (k_clean _ _ _ _ _ _ Hk); try done; [by rewrite HY | congruence |]. apply Hcl; done.
Qed.

(** The background pass walks the unpinned heads from the tail. *)
Lemma lru_prev_listed c w i : inv None None c w -> in_pool i -> bh_refcount (bh_at c i) = 0 ->
  match lru_prev (bh_at c i) with Some p => in_pool p /\ bh_refcount (bh_at c p) = 0 | None => True end.
Proof.
  intros (lru & hb & Hr & _ & Hk) Hi Hz.
  assert (Hin : i ∈ lru) by (apply (k_lru _ _ _ _ _ _ Hk); done).
  apply list_elem_of_split in Hin as (l1 & l2 & ->). destruct (rp_lru _ _ _ Hr) as (_ & _ & Hl).
  destruct (Hl l1 i l2 eq_refl) as [-> _]. destruct (last l1) as [p|] eqn:El; [|done].
  apply last_in in El. assert (Hp : p ∈ l1 ++ i :: l2) by set_solver.
  pose proof (rp_lru_pool _ _ _ Hr p Hp). split; [done|]. by apply (k_lru _ _ _ _ _ _ Hk) in Hp as [? _].
Qed.

Lemma writeback_loop_spec fuel a max written p c w : inv None None c w ->
  match p with Some i => in_pool i /\ bh_refcount (bh_at c i) = 0 | None => True end ->
  let '(_, c', w') := writeback_loop devs fuel a max written p c w in
  inv None None c' w' /\ (forall b n, 0 <= n -> logical c' w' b n = logical c w b n) /\ same_but_dirty c c'.
Proof.
  revert written p c w. induction fuel as [|fuel IH]; intros written p c w Hinv Hp; [done|].
  destruct p as [i|]; [|done]. destruct Hp as [Hi Hz]. cbn [writeback_loop].
  destruct (negb (written <? max)); [done|].
  pose proof (lru_prev_listed c w i Hinv Hi Hz) as Hprev.
  destruct (bh_valid (bh_at c i) && bh_dirty (bh_at c i) && ((a =? 0) || (bh_dev (bh_at c i) =? a))) eqn:E.
  - pose proof (write_back_spec None None c w i Hinv Hi ltac:(done)) as Hwb.
    destruct (buffer_write_back devs (Some i) c w) as [[rc c1] w1].
    destruct Hwb as (H1 & Hl1 & _ & (d' & Hd' & Hc1) & _). bools.
    assert (Hs1 : same_but_dirty c c1) by (apply (write_back_same c c1 i d'); [congruence | done]).
    destruct (negb (rc =? 0)); [done|].
    assert (Hp1 : match lru_prev (bh_at c i) with Some p => in_pool p /\ bh_refcount (bh_at c1 p) = 0 | None => True end).
    { destruct (lru_prev (bh_at c i)) as [p|]; [|done]. destruct Hprev as [Hp0 Hp1]. split; [done|].
      by destruct (Hs1 p Hp0) as (_ & _ & -> & _). }
    specialize (IH (u32 (written + 1)) (lru_prev (bh_at c i)) c1 w1 H1 Hp1).
    destruct (writeback_loop _ _ _ _ _ _ _ _) as [[r c2] w2]. destruct IH as (Hi2 & Hl2 & Hs2).
    split_and!; [done | intros; by rewrite Hl2, Hl1|]. intros j Hj.
    destruct (Hs1 j Hj) as (E1 & E2 & E3 & E4), (Hs2 j Hj) as (F1 & F2 & F3 & F4). rewrite F1, F2, F3. split_and!; auto.
  - by apply IH.
Qed.

Lemma writeback_pass_spec a max c w : inv None None c w ->
  let '(_, c', w') := buffer_cache_writeback_pass devs a max c w in
  inv None None c' w' /\ (forall b n, 0 <= n -> logical c' w' b n = logical c w b n) /\ same_but_dirty c c'.
Proof.
  intros Hinv. pose proof Hinv as (lru & hb & Hr & Hini & Hk). unfold buffer_cache_writeback_pass. rewrite Hini.
  cbv zeta. destruct (max =? 0); [done|].
  pose proof (writeback_loop_spec (Z.to_nat BUFFER_CACHE_MAX) a max 0 (lru_tail c) c w Hinv) as H.
  destruct (writeback_loop _ _ _ _ _ _ _ _) as [[r c1] w1].
  destruct H as (H1 & Hl1 & Hs1).
  { destruct (rp_lru _ _ _ Hr) as (_ & -> & _). destruct (last lru) as [i|] eqn:El; [|done]. apply last_in in El.
    pose proof (rp_lru_pool _ _ _ Hr i El). split; [done|]. by apply (k_lru _ _ _ _ _ _ Hk) in El as [? _]. }
  destruct (0 <? r); [|done]. split_and!; [by apply bump_inv | | done].
  intros. by rewrite (bump_logical None None), Hl1.
Qed.

(** ** Invalidation *)
Lemma invalidate_step_spec a i c w : inv None None c w -> in_pool i -> bh_dev (bh_at c i) = a -> a <> 0 ->
  inv None None (invalidate_step a i c) w /\
  (forall j, in_pool j -> core (bh_at (invalidate_step a i c) j) = core (if j =? i then blank (bh_at c i) else bh_at c j)) /\
  g_buffer_cache_stats (invalidate_step a i c) = g_buffer_cache_stats c.
Proof.
  intros Hinv Hi Hd Ha. pose proof Hinv as (lru & hb & Hr & Hini & Hk).
  unfold invalidate_step. rewrite Hd, Z.eqb_refl. cbn [negb].
  destruct (hash_off c lru hb i Hr Hi) as (hb1 & Hr1 & Hlo1 & Hm1).
  { intros k Hin. by apply (k_hb _ _ _ _ _ _ Hk) in Hin as (_ & <- & _). }
  set (c1 := hash_remove i c) in *.
  assert (Hc1 : forall j, in_pool j -> core (bh_at c1 j) = core (bh_at c j)) by (intros; apply (lo_core _ _ Hlo1); auto).
  destruct (core_fields _ _ (Hc1 i Hi)) as (_&_&_&_&_& E6). rewrite E6.
  set (c2 := if bh_refcount (bh_at c i) =? 0 then lru_remove i c1 else c1).
  assert (H2 : exists lru2, rep c2 lru2 hb1 /\ links_only c1 c2 /\ forall j, in_pool j -> j ∈ lru2 <-> bh_refcount (bh_at c j) = 0 /\ j <> i).
  { unfold c2. destruct (Z.eqb_spec (bh_refcount (bh_at c i)) 0) as [Hz|Hz].
    - destruct (lru_off c1 lru hb1 i Hr1) as (lru1 & ? & ? & Hm); [by apply (k_lru _ _ _ _ _ _ Hk)|].
      exists lru1. split_and!; try done. intros j Hj. rewrite Hm, (k_lru _ _ _ _ _ _ Hk) by done. naive_solver.
    - exists lru. split_and!; [done | by constructor |]. intros j Hj. rewrite (k_lru _ _ _ _ _ _ Hk) by done.
      split; [intros [? _]; split; [done | congruence] | by intros [? _]]. }
  destruct H2 as (lru2 & Hr2 & Hlo2 & Hm2).
  assert (Hc2 : forall j, in_pool j -> core (bh_at c2 j) = core (bh_at c j)).
  { intros j Hj. rewrite (lo_core _ _ Hlo2) by auto. by apply Hc1. }
  set (f := fun b => mkBh 0 0 (bh_data b) false false (bh_refcount b) None (lru_prev b) (lru_next b)).
  assert (Hr3 : rep (upd i f c2) lru2 hb1).
  { apply upd_rep_free; try done. intros k Hin. apply Hm1 in Hin as [_ ?]. done. }
  set (c3 := upd i f c2) in *.
  assert (Hc3 : forall j, in_pool j -> core (bh_at c3 j) = core (if j =? i then blank (bh_at c i) else bh_at c j)).
  { intros j Hj. unfold c3. rewrite (core_upd c2 lru2 hb1) by done. destruct (Z.eqb_spec j i) as [->|]; [|by apply Hc2].
    destruct (core_fields _ _ (Hc2 i Hi)) as (_&_& F3 &_&_& F6). unfold f, blank, core; simpl. by rewrite F3, F6. }
  assert (Hi3 : cache_initialized c3 = true) by (unfold c3; simpl; rewrite (lo_init _ _ Hlo2), (lo_init _ _ Hlo1); done).
  assert (Hs3 : g_buffer_cache_stats c3 = g_buffer_cache_stats c) by (unfold c3; simpl; rewrite (lo_stats _ _ Hlo2), (lo_stats _ _ Hlo1); done).
  assert (Hk3 : forall lru3, (forall j, in_pool j -> j ∈ lru3 <-> bh_refcount (bh_at c j) = 0) -> kinv None None (bh_at c3) lru3 hb1 w).
  { intros lru3 Hm3. set (K0 := fun j => if j =? i then blank (bh_at c i) else bh_at c j).
    apply (kinv_ext _ _ K0); [exact Hc3|].
    assert (HK : forall j, j <> i -> K0 j = bh_at c j) by (intros j Hne; unfold K0; by replace (j =? i) with false by lia).
    assert (HKi : K0 i = blank (bh_at c i)) by (unfold K0; by rewrite Z.eqb_refl).
    destruct Hk. constructor; try done.
    - intros j Hj. rewrite Hm3 by done. destruct (Z.eq_dec j i) as [->|]; [rewrite HKi | rewrite HK by done]; naive_solver.
    - intros j k Hj. rewrite Hm1. destruct (Z.eq_dec j i) as [->|]; [rewrite HKi; naive_solver|].
      rewrite HK, k_hb0 by done. naive_solver.
    - intros j Hj _. destruct (Z.eq_dec j i) as [->|]; [by rewrite HKi | rewrite HK by done; by apply k_valid0].
    - intros i1 j Hi1 Hj _ _. destruct (Z.eq_dec i1 i) as [->|]; [by rewrite HKi|]. destruct (Z.eq_dec j i) as [->|].
      + rewrite HKi, HK by done. intros ? E. exfalso. by simpl in E.
      + rewrite !HK by done. by apply k_uniq0.
    - intros j Hj _. destruct (Z.eq_dec j i) as [->|]; [by rewrite HKi | rewrite HK by done; by apply k_dev0].
    - intros j Hj. destruct (Z.eq_dec j i) as [->|]; [rewrite HKi | rewrite HK by done]; by apply k_data0.
    - intros j Hj. destruct (Z.eq_dec j i) as [->|]; [rewrite HKi | rewrite HK by done]; by apply k_ref0.
    - intros j Hj _. destruct (Z.eq_dec j i) as [->|]; [by rewrite HKi | rewrite HK by done; by apply k_clean0].
    - intros j Ej. destruct (k_loose0 j Ej) as (? & ? & ? & ?). split_and!; try done.
      destruct (Z.eq_dec j i) as [->|]; [by rewrite HKi | by rewrite HK]. }
  pose proof (Hc3 i Hi) as E. rewrite Z.eqb_refl in E. apply core_fields in E as (_&_&_&_&_& E3). simpl in E3. rewrite E3.
  destruct (Z.eqb_spec (bh_refcount (bh_at c i)) 0) as [Hz|Hz].
  - assert (Hnot : i ∉ lru2) by (rewrite Hm2 by done; naive_solver).
    destruct (lru_insert_rep c3 lru2 hb1 i Hr3 Hi Hnot) as [Hr4 Hlo4]. split_and!.
    + exists (i :: lru2), hb1. split; [done|]. split; [by rewrite (lo_init _ _ Hlo4)|]. apply (links_kinv _ _ c3); [done|].
      apply Hk3. intros j Hj. rewrite elem_of_cons, Hm2 by done. destruct (Z.eq_dec j i) as [->|]; naive_solver.
    + intros j Hj. rewrite (lo_core _ _ Hlo4) by auto. by apply Hc3.
    + by rewrite (lo_stats _ _ Hlo4).
  - split_and!; try done. exists lru2, hb1. split_and!; try done. apply Hk3. intros j Hj. rewrite Hm2 by done.
    split; [by intros [? _]|]. intros Hj0. split; [done | congruence].
Qed.

Lemma invalidate_spec a c w : inv None None c w -> a <> 0 ->
  inv None None (buffer_cache_invalidate a c) w /\
  (forall b n, logical (buffer_cache_invalidate a c) w b n = if b =? a then env_view w a n else logical c w b n) /\
  (forall j, in_pool j -> bh_dev (bh_at (buffer_cache_invalidate a c) j) <> a).
Proof.
  intros Hinv Ha. unfold buffer_cache_invalidate. replace (a =? 0) with false by lia.
  pose (P := fun i c' => inv None None c' w /\ (forall j, 0 <= j < i -> bh_dev (bh_at c' j) <> a) /\
    (forall j, in_pool j -> core (bh_at c' j) = core (bh_at c j) \/ (bh_dev (bh_at c j) = a /\ bh_dev (bh_at c' j) = 0))).
  enough (H : P BUFFER_CACHE_MAX (for_range 0 BUFFER_CACHE_MAX (invalidate_step a) c)).
  { destruct H as (H1 & Hno & Hcj). split_and!; [done | | by intros; apply Hno]. intros b n.
    destruct (Z.eqb_spec b a) as [->|Hne].
    - unfold logical. rewrite (lookup_none None None _ w a n H1); [done|]. intros j (Hj & _ & E & _). by apply (Hno j).
    - apply (logical_same None None None None); try done.
      + intros j. unfold holds. split; intros (Hj & _ & E1 & E2 & ?); destruct (Hcj j Hj) as [Hc|[Hc1 Hc2]]; try congruence;
          apply core_fields in Hc as (F1 & F2 & _); split_and!; try done; congruence.
      + intros j (Hj & _ & E1 & _ & ?). destruct (Hcj j Hj) as [Hc|[Hc1 Hc2]]; [|congruence].
        by apply core_fields in Hc as (_ & _ & ? & _). }
  apply (for_range_ind P); [done | |]; unfold P.
  - split_and!; [done | lia | by left].
  - intros i c' Hi (H1 & Hno & Hcj). fold (in_pool i) in Hi. destruct (Z.eq_dec (bh_dev (bh_at c' i)) a) as [Hd|Hd].
    + destruct (invalidate_step_spec a i c' w H1 Hi Hd Ha) as (H2 & Hc2 & _). split_and!; [done | |].
      * intros j Hj. assert (Hjp : in_pool j) by (unfold in_pool in *; lia).
        destruct (core_fields _ _ (Hc2 j Hjp)) as (-> & _). destruct (Z.eqb_spec j i); [simpl; congruence|]. apply Hno. lia.
      * intros j Hj. destruct (core_fields _ _ (Hc2 j Hj)) as (E1 & _). rewrite Hc2 by done.
        destruct (Z.eqb_spec j i) as [->|].
        -- right. destruct (Hcj i Hi) as [Hc|[? ?]]; [|congruence].
           apply core_fields in Hc as (F1 & _). split; [congruence|]. by rewrite E1.
        -- rewrite E1. by apply Hcj.
    + assert (E : invalidate_step a i c' = c') by (unfold invalidate_step; by replace (bh_dev (bh_at c' i) =? a) with false by lia).
      rewrite E. split_and!; try done. intros j Hj. destruct (Z.eq_dec j i) as [->|]; [done|]. apply Hno. lia.
Qed.

(** ** Initialisation *)

(** Heads [0..i) are listed, nothing is cached. *)
Definition init_upto (i : Z) (c : cache) : Prop := exists lru, rep c lru (fun _ => []) /\
  (forall j, j ∈ lru <-> 0 <= j < i) /\ (forall j, in_pool j -> core (bh_at c j) = core zero_bh).

Lemma boot_rep : init_upto 0 cache_boot.
Proof.
  exists []. split_and!.
  - constructor.
    + apply zlen_rep. done.
    + apply zlen_rep. done.
    + apply dll_nil.
    + constructor.
    + intros i Hi. by apply not_elem_of_nil in Hi.
    + intros k Hk. change (hash_table cache_boot) with (zrep BUFFER_HASH_SIZE (@None Z)). rewrite aget_rep by done. apply chain_nil.
    + intros k. constructor.
    + intros k i Hi. by apply not_elem_of_nil in Hi.
    + intros k k' i Hi. by apply not_elem_of_nil in Hi.
  - intros j. split; [intros Hj; by apply not_elem_of_nil in Hj | lia].
  - intros j Hj. unfold bh_at. change (buffer_cache cache_boot) with (zrep BUFFER_CACHE_MAX zero_bh). by rewrite aget_rep by done.
Qed.

Lemma init_head_rep i c : in_pool i -> init_upto i c -> init_upto (i + 1) (init_head i c).
Proof.
  intros Hi (lru & Hr & Hm & Hc). unfold init_head.
  set (f := fun b => mkBh 0 0 (bh_data b) false false 0 None None None).
  assert (Hnot : i ∉ lru) by (rewrite Hm; lia).
  assert (Hr1 : rep (upd i f c) lru (fun _ => [])).
  { apply upd_rep_free; try done. intros k Hin. by apply not_elem_of_nil in Hin. }
  destruct (lru_insert_rep _ lru _ i Hr1 Hi Hnot) as [Hr2 Hlo]. exists (i :: lru). split_and!; [done | |].
  - intros j. rewrite elem_of_cons, Hm. unfold in_pool in Hi. lia.
  - intros j Hj. rewrite (lo_core _ _ Hlo) by auto. rewrite (core_upd _ _ _ _ _ _ Hr) by done.
    destruct (Z.eqb_spec j i) as [->|]; [|by apply Hc]. destruct (core_fields _ _ (Hc i Hi)) as (_&_& E &_).
    unfold core, f; cbn [bh_dev bh_block_no bh_data bh_dirty bh_valid bh_refcount]. by rewrite E.
Qed.

Lemma clear_buckets_rep c : init_upto BUFFER_CACHE_MAX c ->
  init_upto BUFFER_CACHE_MAX (for_range 0 BUFFER_HASH_SIZE (fun i c => set_bucket i None c) c).
Proof.
  intros H. apply (for_range_ind (fun _ c => init_upto BUFFER_CACHE_MAX c)); [done | done |].
  intros k c' Hk (lru & Hr & Hm & Hc). exists lru. split_and!; try done.
  destruct Hr as [Hpool Htab Hlru Hnd Hrng Hch Hcnd Hcp Hdj]. constructor; try done.
  - simpl. by rewrite zlen_aset.
  - intros k' Hk'. simpl. rewrite aget_aset by lia. destruct (k' =? k); [apply chain_nil | by apply Hch].
Qed.

Lemma init_upto_inv c w s : Y = None -> init_upto BUFFER_CACHE_MAX c -> env_inv w ->
  inv None None (set_initialized true (set_stats s c)) w.
Proof.
  intros HY (lru & Hr & Hm & Hc) Hw. exists lru, (fun _ => []).
  split_and!; [by destruct Hr; constructor | done |].
  apply (kinv_ext None None (fun _ => zero_bh)); [exact Hc|]. constructor; try done.
  - intros j Hj. rewrite Hm. unfold in_pool in Hj. simpl. split; [by split | done].
  - intros j k Hj. split; [intros H; by apply not_elem_of_nil in H | by intros [? _]].
  - intros j. by rewrite HY.
Qed.

Lemma init_inv w : Y = None -> env_inv w ->
  inv None None (buffer_cache_init cache_boot) w /\
  (forall j, in_pool j -> core (bh_at (buffer_cache_init cache_boot) j) = core zero_bh).
Proof.
  intros HY Hw.
  assert (H1 : init_upto BUFFER_CACHE_MAX (for_range 0 BUFFER_CACHE_MAX init_head cache_boot)).
  { apply (for_range_ind init_upto); [done | apply boot_rep |]. intros i c Hi. by apply init_head_rep. }
  apply clear_buckets_rep in H1. unfold buffer_cache_init. change (cache_initialized cache_boot) with false. cbv iota zeta.
  generalize dependent (for_range 0 BUFFER_HASH_SIZE (fun i c => set_bucket i None c) (for_range 0 BUFFER_CACHE_MAX init_head cache_boot)).
  intros c H1. split; [by apply init_upto_inv|]. by destruct H1 as (lru & _ & _ & Hc).
Qed.

End coherence.

Section transactions.
Context {W : Type} (devs : Z -> option (block_device W)) `{!DevEnv devs}.
Implicit Types (c : cache) (w : W) (i j k a n : Z).
#[local] Hint Resolve pool_nonneg : core.
#[local] Abbreviation inv := (inv devs None None None).
#[local] Abbreviation holds := (holds None).
#[local] Abbreviation logical := (logical devs).

(** ** Client transactions

    The way the file systems use the cache: pin a block, read or replace its bytes,
    mark it dirty, release it. *)
Definition load (a n : Z) (c : cache) (w : W) : option (list Z) * cache * W :=
  let '(p, c, w) := buffer_get devs a n c w in
  match p with
  | None => (None, c, w)
  | Some i => (Some (bh_data (bh_at c i)), buffer_release p c, w)
  end.

Definition store (a n : Z) (data : list Z) (c : cache) (w : W) : bool * cache * W :=
  let '(p, c, w) := buffer_get devs a n c w in
  match p with
  | None => (false, c, w)
  | Some i => (true, buffer_release p (client_write i data c), w)
  end.

Inductive cache_op :=
| Load (a n : Z)
| Store (a n : Z) (data : list Z)
| Sync (a : Z)
| WritebackPass (a max : Z).

(** What the caller learns: the bytes of a load, whether a store was accepted. *)
Inductive cache_res :=
| Loaded (d : option (list Z))
| Stored (ok : bool)
| Done (rc : Z).

Definition exec (o : cache_op) (c : cache) (w : W) : cache_res * cache * W :=
  match o with
  | Load a n => let '(d, c, w) := load a n c w in (Loaded d, c, w)
  | Store a n data => let '(b, c, w) := store a n data c w in (Stored b, c, w)
  | Sync a => let '(rc, c, w) := buffer_cache_sync devs a c w in (Done rc, c, w)
  | WritebackPass a max => let '(k, c, w) := buffer_cache_writeback_pass devs a max c w in (Done k, c, w)
  end.

(** Run a sequence; the flag says that no device write failed. *)
Fixpoint run (ops : list cache_op) (c : cache) (w : W) : list cache_res * bool * cache * W :=
  match ops with
  | [] => ([], true, c, w)
  | o :: ops =>
      let '(r, c1, w1) := exec o c w in
      let '(rs, ok, c2, w2) := run ops c1 w1 in
      (r :: rs, ok && (st_write_errors (g_buffer_cache_stats c1) =? st_write_errors (g_buffer_cache_stats c)), c2, w2)
  end.

(** ** Specification: one block store per device *)
Definition put (S : Z -> Z -> list Z) (a n : Z) (d : list Z) : Z -> Z -> list Z :=
  fun b m => if (b =? a) && (m =? n) then d else S b m.

Definition spec_step (S : Z -> Z -> list Z) (o : cache_op) (r : cache_res) : Prop * (Z -> Z -> list Z) :=
  match o, r with
  | Load a n, Loaded (Some d) => (d = S a n, S)
  | Store a n data, Stored true => (True, put S a n data)
  | _, _ => (True, S)
  end.

(** The answers of the run are those of the block store, which ends as [S']. *)
Fixpoint answers (S : Z -> Z -> list Z) (ops : list cache_op) (rs : list cache_res) (S' : Z -> Z -> list Z) : Prop :=
  match ops, rs with
  | o :: ops, r :: rs => (spec_step S o r).1 /\ answers (spec_step S o r).2 ops rs S'
  | _, _ => forall a n, 0 <= n -> S' a n = S a n
  end.

Definition dev_ok (a n : Z) : Prop := exists d, devs a = Some d /\ dev_block_size d = BUFFER_BLOCK_SIZE /\ 0 <= n.
Definition cache_op_ok (o : cache_op) : Prop :=
  match o with
  | Load a n => dev_ok a n
  | Store a n data => dev_ok a n /\ zlen data = BUFFER_BLOCK_SIZE
  | _ => True
  end.

Definition unpinned c : Prop := forall j, in_pool j -> bh_refcount (bh_at c j) = 0.

Lemma release_pin c w i : inv c w -> in_pool i ->
  (forall j, in_pool j -> bh_refcount (bh_at c j) = 0 + if decide (Some i = Some j) then 1 else 0) ->
  unpinned (buffer_release (Some i) c).
Proof.
  intros Hinv Hi Hrf j Hj. destruct (release_spec devs None c w i Hinv Hi ltac:(done)) as (_ & _ & _ & ->); [|done].
  rewrite !Hrf by done. destruct (Z.eqb_spec j i) as [->|]; [by rewrite decide_True|]. by rewrite decide_False by congruence.
Qed.

(** One transaction against the specification. *)
Lemma exec_spec o c w : inv c w -> unpinned c -> cache_op_ok o ->
  let '(r, c', w') := exec o c w in
  inv c' w' /\ unpinned c' /\
  (st_write_errors (g_buffer_cache_stats c') = st_write_errors (g_buffer_cache_stats c) ->
   forall S, (forall a n, 0 <= n -> logical c w a n = S a n) ->
   (spec_step S o r).1 /\ forall a n, 0 <= n -> logical c' w' a n = (spec_step S o r).2 a n).
Proof.
  intros Hinv Hun Ho.
  assert (Hsat : forall a n i, holds c a n i -> bh_refcount (bh_at c i) < 2 ^ 16 - 1)
    by (intros a n i (Hi & _); rewrite Hun by done; lia).
  destruct o as [a n|a n data|a|a max]; simpl in *.
  - destruct Ho as (d & Hd & Hs & Hn). unfold load.
    pose proof (get_spec devs None c w a n d Hinv Hd Hs Hn (Hsat a n)) as Hg.
    destruct (buffer_get devs a n c w) as [[[i|] c1] w1]; destruct Hg as (H1 & Hl1 & Hrf & Hp).
    + destruct Hp as [Hh Hdt]. pose proof (proj1 Hh) as Hi.
      destruct (release_spec devs None c1 w1 i H1 Hi ltac:(done)) as (H2 & Hl2 & Hs2 & _).
      assert (Hrf' : forall j, in_pool j -> bh_refcount (bh_at c1 j) = 0 + if decide (Some i = Some j) then 1 else 0)
        by (intros j Hj; by rewrite Hrf, Hun).
      split_and!; [done | by eapply release_pin |]. rewrite Hs2. intros Hse S HS. split; [by rewrite Hdt, HS|].
      intros b m Hm. rewrite Hl2, Hl1 by done. by apply HS.
    + split_and!; [done | |]. { intros j Hj. by rewrite Hrf, Hun, decide_False. }
      intros Hse S HS. split; [done|]. intros b m Hm. rewrite Hl1 by done. by apply HS.
  - destruct Ho as [(d & Hd & Hs & Hn) Hlen]. unfold store.
    pose proof (get_spec devs None c w a n d Hinv Hd Hs Hn (Hsat a n)) as Hg.
    destruct (buffer_get devs a n c w) as [[[i|] c1] w1]; destruct Hg as (H1 & Hl1 & Hrf & Hp).
    + destruct Hp as [Hh Hdt]. pose proof (proj1 Hh) as Hi.
      destruct (client_write_spec devs None c1 w1 i a n data H1 Hh Hlen) as [H2 Hl2].
      destruct (release_spec devs None (client_write i data c1) w1 i H2 Hi ltac:(done)) as (H3 & Hl3 & Hs3 & _).
      assert (Hrf' : forall j, in_pool j -> bh_refcount (bh_at (client_write i data c1) j) = 0 + if decide (Some i = Some j) then 1 else 0).
      { intros j Hj. pose proof (Hrf j Hj) as E. rewrite (Hun j Hj) in E. rewrite <- E. pose proof H1 as (lru & hb & Hr & _).
        unfold client_write, buffer_mark_dirty. rewrite !bh_at_upd by (auto; rewrite ?pool_upd; apply (rp_pool _ _ _ Hr)).
        destruct (Z.eqb_spec j i) as [->|]; rewrite ?Z.eqb_refl; done. }
      split_and!; [done | by eapply release_pin |]. rewrite Hs3. intros Hse S HS. split; [done|].
      intros b m Hm. rewrite Hl3, Hl2. cbn [spec_step snd]. unfold put. destruct ((b =? a) && (m =? n)); [done|].
      rewrite Hl1; [by apply HS | exact Hse | done].
    + split_and!; [done | |]. { intros j Hj. by rewrite Hrf, Hun, decide_False. }
      intros Hse S HS. split; [done|]. intros b m Hm. rewrite Hl1 by done. by apply HS.
  - pose proof (sync_spec devs None a c w Hinv) as H. destruct (buffer_cache_sync devs a c w) as [[rc c1] w1].
    destruct H as (H1 & Hl1 & Hs1 & _). split_and!; [done | |].
    { intros j Hj. destruct (Hs1 j Hj) as (_ & _ & -> & _). by apply Hun. }
    intros _ S HS. split; [done|]. intros b m Hm. rewrite Hl1 by done. by apply HS.
  - pose proof (writeback_pass_spec devs None a max c w Hinv) as H. destruct (buffer_cache_writeback_pass devs a max c w) as [[rc c1] w1].
    destruct H as (H1 & Hl1 & Hs1). split_and!; [done | |].
    { intros j Hj. destruct (Hs1 j Hj) as (_ & _ & -> & _). by apply Hun. }
    intros _ S HS. split; [done|]. intros b m Hm. rewrite Hl1 by done. by apply HS.
Qed.

Lemma run_spec ops c w S : inv c w -> unpinned c -> Forall cache_op_ok ops ->
  (forall a n, 0 <= n -> logical c w a n = S a n) ->
  let '(rs, ok, c', w') := run ops c w in
  inv c' w' /\ unpinned c' /\ (ok = true -> answers S ops rs (logical c' w')).
Proof.
  intros Hinv Hun Hops. revert c w S Hinv Hun. induction Hops as [|o ops Ho Hops IH]; intros c w S Hinv Hun HS; [done|].
  cbn [run]. pose proof (exec_spec o c w Hinv Hun Ho) as He. destruct (exec o c w) as [[r c1] w1].
  destruct He as (H1 & Hu1 & He). pose proof (IH c1 w1 (spec_step S o r).2 H1 Hu1) as H2.
  pose proof (IH c1 w1 (logical c1 w1) H1 Hu1 ltac:(done)) as H3.
  destruct (run ops c1 w1) as [[[rs ok] c2] w2]. destruct H3 as (? & ? & _). split_and!; try done.
  intros Hok. bools. destruct (He ltac:(done) S HS) as [Hr Hl]. split; [done|]. by apply H2.
Qed.
End transactions.

(** ** Properties *)
Section properties.
Context {W : Type} (devs : Z -> option (block_device W)) `{!DevEnv devs}.

(** C8. The cache is transparent.  Starting from [buffer_cache_init], for every
    sequence of block loads, block stores, syncs and background write-back passes in
    which no device write fails, every load that succeeds returns the bytes last
    stored in that block, or the device's contents if there were none, whatever was
    evicted, written back or re-read in between; and at the end the contents the
    clients see are exactly those. *)
Theorem buffer_cache_transparent ops w : env_inv w -> Forall (cache_op_ok devs) ops ->
  let '(rs, ok, c', w') := run devs ops (buffer_cache_init cache_boot) w in
  ok = true -> answers (env_view w) ops rs (logical devs c' w').
Proof.
  intros Hw Hops. destruct (init_inv devs None w eq_refl Hw) as [Hinv Hc].
  assert (Hun : unpinned (buffer_cache_init cache_boot)).
  { intros j Hj. by destruct (core_fields _ _ (Hc j Hj)) as (_&_&_&_&_& ->). }
  pose proof (run_spec devs ops _ w (env_view w) Hinv Hun Hops) as H.
  destruct (run devs ops (buffer_cache_init cache_boot) w) as [[[rs ok] c'] w'].
  apply H. intros a n Hn. unfold logical. rewrite (lookup_none devs None None None _ w a n Hinv); [done|].
  intros j (Hj & _ & E & _ & Ha). destruct (core_fields _ _ (Hc j Hj)) as (E1 & _). rewrite E1 in E. by apply Ha.
Qed.

(** C26. A sync that returns 0 is durable: the device then holds, block for block, what
    the clients saw before it, so dropping every buffer of the device afterwards
    with [buffer_cache_invalidate] changes nothing for them; a sync during which a
    write failed does not return 0, and keeps the contents the clients see. *)
Theorem buffer_cache_sync_durable c w a : inv devs None None None c w -> a <> 0 ->
  let '(rc, c', w') := buffer_cache_sync devs a c w in
  (forall b n, 0 <= n -> logical devs c' w' b n = logical devs c w b n) /\
  (st_write_errors (g_buffer_cache_stats c') <> st_write_errors (g_buffer_cache_stats c) -> rc <> 0) /\
  (rc = 0 -> forall n, 0 <= n ->
     env_view w' a n = logical devs c w a n /\
     forall b, logical devs (buffer_cache_invalidate a c') w' b n = logical devs c w b n).
Proof.
  intros Hinv Ha. pose proof (sync_spec devs None a c w Hinv) as H.
  destruct (buffer_cache_sync devs a c w) as [[rc c'] w']. destruct H as (H1 & Hl & _ & Hcl & He).
  split_and!; [done | done |]. intros Hrc n Hn.
  assert (E : env_view w' a n = logical devs c w a n) by (rewrite <- Hl by done; apply (clean_view devs None); auto).
  split; [done|]. intros b. destruct (invalidate_spec devs None a c' w' H1 Ha) as (_ & -> & _).
  destruct (Z.eqb_spec b a) as [->|]; [done | by apply Hl].
Qed.
End properties.

(** *** Concrete runs *)
Definition demo_dev : block_device (list (list Z)) := mem_dev BUFFER_BLOCK_SIZE 2.
Definition demo_devs : Z -> option (block_device (list (list Z))) := one_dev 1 demo_dev.
Definition demo_world : list (list Z) := [zrep BUFFER_BLOCK_SIZE 0; zrep BUFFER_BLOCK_SIZE 5].
Definition demo_ops : list cache_op :=
  [Load 1 1; Store 1 0 (zrep BUFFER_BLOCK_SIZE 7); Load 1 0; Sync 1; Load 1 0].

#[local] Instance demo_disk : DiskSpec demo_dev := mem_spec BUFFER_BLOCK_SIZE eq_refl 2 ltac:(split; done).
#[local] Instance demo_env : DevEnv demo_devs := one_dev_env 1 demo_dev (TCEq_refl false).

Lemma demo_world_ok : env_inv (devs := demo_devs) demo_world.
Proof.
  split; [done|]. constructor; [by apply zlen_rep|]. constructor; [by apply zlen_rep | constructor].
Qed.

Lemma demo_ops_ok : Forall (cache_op_ok demo_devs) demo_ops.
Proof.
  assert (Hd : forall n, 0 <= n -> dev_ok demo_devs 1 n) by (intros n Hn; by exists demo_dev).
  repeat (apply Forall_cons_2; [simpl; auto with lia|]). apply Forall_nil_2.
Qed.

Lemma demo_run_ok : (run demo_devs demo_ops (buffer_cache_init cache_boot) demo_world).1.1.2 = true.
Proof. vm_compute. reflexivity. Qed.

Lemma buffer_cache_transparent_witness :
  let '(rs, _, c', w') := run demo_devs demo_ops (buffer_cache_init cache_boot) demo_world in
  answers (env_view (devs := demo_devs) demo_world) demo_ops rs (logical demo_devs c' w').
Proof.
  pose proof (buffer_cache_transparent demo_devs demo_ops demo_world demo_world_ok demo_ops_ok) as H.
  pose proof demo_run_ok as E.
  destruct (run demo_devs demo_ops (buffer_cache_init cache_boot) demo_world) as [[[rs ok] c'] w'].
  apply H. exact E.
Defined.

Lemma demo_init_inv : inv demo_devs None None None (buffer_cache_init cache_boot) demo_world.
Proof. apply (init_inv _ None); [done | apply demo_world_ok]. Qed.

Lemma buffer_cache_sync_durable_witness :
  let '(rc, _, w') := buffer_cache_sync demo_devs 1 (buffer_cache_init cache_boot) demo_world in
  rc = 0 -> env_view (devs := demo_devs) w' 1 1 = logical demo_devs (buffer_cache_init cache_boot) demo_world 1 1.
Proof.
  pose proof (buffer_cache_sync_durable demo_devs (buffer_cache_init cache_boot) demo_world 1 demo_init_inv ltac:(lia)) as H.
  destruct (buffer_cache_sync demo_devs 1 (buffer_cache_init cache_boot) demo_world) as [[rc c'] w'].
  intros E. apply H; [exact E | lia].
Defined.

(** A device whose writes fail and leave it as it is. *)
Definition failing_dev : block_device unit :=
  mkDev "failing" BUFFER_BLOCK_SIZE 128
    (Some (mkOps (Some (fun _ _ w => (0, zrep BUFFER_BLOCK_SIZE 0, w))) (Some (fun _ _ w => (-1, w)))
             None None None None None)).

(** Store block 0, then load 64 other blocks, then load block 0 again. *)
Definition eviction_ops : list cache_op :=
  Store 1 0 (zrep BUFFER_BLOCK_SIZE 9) :: Load 1 0 :: ((fun n => Load 1 n) <$> seqZ 1 64) ++ [Load 1 0].

Definition first_byte (r : cache_res) : option Z := match r with Loaded (Some (b :: _)) => Some b | _ => None end.

(** [buffer_evict] drops a dirty block when its write-back fails: on a device whose
    writes fail, a store succeeds and reads back as 9, but after 64 loads of other
    blocks, all of which succeed, the same block reads as 0 again, and the only
    trace is the write-error counter. *)
Theorem evict_write_failure_loses_store :
  let r := run (one_dev 1 failing_dev) eviction_ops (buffer_cache_init cache_boot) tt in
  head r.1.1.1 = Some (Stored true) /\ first_byte <$> drop 1 r.1.1.1 = Some 9 :: replicate 65 (Some 0) /\
  st_write_errors (g_buffer_cache_stats r.1.2) = 1.
Proof. cbv zeta. split_and!; vm_compute; reflexivity. Qed.
