(* ===== verification/Buffers.v ===== *)
(** * The buffer cache as file systems use it

    [Buffers] is the set of calls a file system makes on the buffer cache, and
    [BufferSpec] what it relies on for one device of [count] blocks: pinned buffers
    show the block they were asked for, a store that is marked dirty replaces that
    block and nothing else, and none of the calls fails inside the device.  The
    second part shows that the cache of [BufferCache] keeps this promise over
    devices that serve every transfer inside their range. *)
From S2P Require Import Prelude BlockDevice Storage Dll BufferCache BufferCoherence.
Local Open Scope capy_scope.

Class Buffers (S : Type) := {
  b_get : Z -> Z -> S -> option Z * S;
  b_data : S -> Z -> list Z;
  b_store : Z -> list Z -> S -> S;
  b_mark_dirty : Z -> S -> S;
  b_release : Z -> S -> S;
  b_sync : Z -> S -> Z * S;
  b_invalidate : Z -> S -> S;
  dev_write : Z -> Z -> list Z -> S -> Z * S }.

(** Room for this many pins at a time. *)
Definition MAX_PINS : nat := 8.

(** [binv P Y s]: the pins in force are [P], pairs of a handle and a block, and the
    bytes of the handle [Y] were changed since it was last marked dirty. *)
Class BufferSpec {S : Type} `{!Buffers S} (a count : Z) := {
  binv : list (Z * Z) -> option Z -> S -> Prop;
  bview : S -> Z -> list Z;
  b_len P Y s n : binv P Y s -> 0 <= n < count -> zlen (bview s n) = BUFFER_BLOCK_SIZE;
  b_inj P Y s i n m : binv P Y s -> (i, n) ∈ P -> (i, m) ∈ P -> n = m;
  b_get_ok P Y s n : binv P Y s -> 0 <= n < count -> (length P < MAX_PINS)%nat ->
    exists i s', b_get a n s = (Some i, s') /\ binv ((i, n) :: P) Y s' /\ forall m, bview s' m = bview s m;
  b_data_ok P Y s i n : binv P Y s -> (i, n) ∈ P -> b_data s i = bview s n;
  b_store_ok P Y s i n d : binv P Y s -> (i, n) ∈ P -> Y = None \/ Y = Some i -> zlen d = BUFFER_BLOCK_SIZE ->
    binv P (Some i) (b_store i d s) /\ forall m, bview (b_store i d s) m = if m =? n then d else bview s m;
  b_dirty_ok P s i : binv P (Some i) s ->
    binv P None (b_mark_dirty i s) /\ forall m, bview (b_mark_dirty i s) m = bview s m;
  b_mark_ok P s i n : binv P None s -> (i, n) ∈ P ->
    binv P None (b_mark_dirty i s) /\ forall m, bview (b_mark_dirty i s) m = bview s m;
  b_modify_ok P Y s i n d : binv P Y s -> (i, n) ∈ P -> zlen d = BUFFER_BLOCK_SIZE ->
    binv P Y (b_mark_dirty i (b_store i d s)) /\
    forall m, bview (b_mark_dirty i (b_store i d s)) m = if m =? n then d else bview s m;
  b_release_ok P Y s i n : binv ((i, n) :: P) Y s -> Y <> Some i ->
    binv P Y (b_release i s) /\ forall m, bview (b_release i s) m = bview s m;
  b_sync_ok P s : binv P None s ->
    binv P None (b_sync a s).2 /\ forall m, bview (b_sync a s).2 m = bview s m }.

(** Formatting writes past the cache: on a cache that holds nothing of the device a
    write goes through. *)
Class BufferRaw {S : Type} `{!Buffers S} (a count : Z) `{!BufferSpec (S := S) a count} := {
  bfresh : S -> Prop;
  b_invalidate_ok s : binv [] None s -> binv [] None (b_invalidate a s) /\ bfresh (b_invalidate a s);
  dev_write_ok s n d : binv [] None s -> bfresh s -> 0 <= n < count -> zlen d = BUFFER_BLOCK_SIZE ->
    let '(rc, s') := dev_write a n d s in
    rc = 0 /\ binv [] None s' /\ bfresh s' /\ forall m, bview s' m = if m =? n then d else bview s m;
  b_invalidate_fresh s : binv [] None s -> bfresh s -> forall m, bview (b_invalidate a s) m = bview s m }.

(** ** The cache over devices that do not fail *)
Class ReliableEnv {W : Type} (devs : Z -> option (block_device W)) `{!DevEnv devs} := {
  env_read_ok w a d n buf : env_inv w -> devs a = Some d -> 0 <= n < dev_block_count d ->
    zlen buf = dev_block_size d -> (block_device_read (devs a) n buf w).1.1 = 0;
  env_write_ok w a d n data : env_inv w -> devs a = Some d -> 0 <= n < dev_block_count d ->
    zlen data = dev_block_size d -> (block_device_write (devs a) n data w).1 = 0 }.

#[export] Instance one_dev_reliable {W} (addr : Z) (dev : block_device W) `{!DiskSpec dev, !ReliableDisk dev}
  (Ha : TCEq (addr =? 0) false) : ReliableEnv (one_dev addr dev).
Proof.
  split; unfold one_dev; intros w a d n data Hw Hd Hn Hl; destruct (Z.eqb_spec a addr); try done; injection Hd as <-;
    [by apply reliable_read | by apply reliable_write].
Qed.

Section cache.
Context {W : Type} (devs : Z -> option (block_device W)).

#[export] Instance cache_buffers : Buffers (cache * W) := {|
  b_get a n s := let '(p, c, w) := buffer_get devs a n s.1 s.2 in (p, (c, w));
  b_data s i := bh_data (bh_at s.1 i);
  b_store i d s := (upd i (set_data d) s.1, s.2);
  b_mark_dirty i s := (buffer_mark_dirty (Some i) s.1, s.2);
  b_release i s := (buffer_release (Some i) s.1, s.2);
  b_sync a s := let '(rc, c, w) := buffer_cache_sync devs a s.1 s.2 in (rc, (c, w));
  b_invalidate a s := (buffer_cache_invalidate a s.1, s.2);
  dev_write a n d s := let '(rc, w) := block_device_write (devs a) n d s.2 in (rc, (s.1, w)) |}.

Context `{!DevEnv devs, !ReliableEnv devs}.
Implicit Types (c : cache) (w : W) (i j k a n : Z) (Y : option Z) (P : list (Z * Z)).

(** *** No call fails *)
Lemma hash_remove_stats i c : g_buffer_cache_stats (hash_remove i c) = g_buffer_cache_stats c.
Proof.
  unfold hash_remove. generalize (Datatypes.S (Z.to_nat BUFFER_CACHE_MAX)) (@None Z). intros fuel.
  induction fuel as [|fuel IH]; intros link; [done|]. cbn [hash_remove_loop].
  destruct (read_link _ link c) as [j|]; [|done]. destruct (j =? i); [by destruct link | apply IH].
Qed.

Lemma write_back_errors Y L X c w i : inv devs Y L X c w -> in_pool i -> X <> Some i ->
  st_write_errors (g_buffer_cache_stats (buffer_write_back devs (Some i) c w).1.2) =
  st_write_errors (g_buffer_cache_stats c).
Proof.
  intros (lru & hb & _ & _ & Hk) Hi HX. unfold buffer_write_back. destruct (_ || _) eqn:E; [done|]. bools.
  destruct (k_dev _ _ _ _ _ _ _ _ Hk i Hi HX ltac:(done)) as (d & Ed & Es & Hb).
  pose proof (env_write_ok w _ d (bh_block_no (bh_at c i)) (bh_data (bh_at c i)) (k_env _ _ _ _ _ _ _ _ Hk) Ed Hb) as Hw.
  rewrite Es in Hw. specialize (Hw (k_data _ _ _ _ _ _ _ _ Hk i Hi)).
  destruct (block_device_write _ _ _ w) as [rc w']. cbn [fst] in Hw. by subst rc.
Qed.

Lemma evict_reliable Y c w j : inv devs Y None None c w -> in_pool j -> bh_refcount (bh_at c j) = 0 ->
  exists i, (buffer_evict devs c w).1.1 = Some i /\
  st_write_errors (g_buffer_cache_stats (buffer_evict devs c w).1.2) = st_write_errors (g_buffer_cache_stats c).
Proof.
  intros Hinv Hj Hz. pose proof Hinv as (lru & hb & Hr & Hini & Hk). unfold buffer_evict.
  rewrite (victim_tail c lru hb Hr) by (intros i Hi; by apply (k_lru _ _ _ _ _ _ _ _ Hk); [eapply rp_lru_pool|]).
  assert (Hjl : j ∈ lru) by (apply (k_lru _ _ _ _ _ _ _ _ Hk); done).
  destruct (last lru) as [i|] eqn:El; [|apply last_None in El; subst; by apply not_elem_of_nil in Hjl].
  apply last_in in El. pose proof (rp_lru_pool _ _ _ Hr i El) as Hi.
  pose proof El as Hzi. apply (k_lru _ _ _ _ _ _ _ _ Hk) in Hzi as [Hzi _]; [|done].
  destruct (lru_off c lru hb i Hr El) as (lru1 & Hr1 & Hlo1 & Hm1). exists i.
  assert (H1 : inv devs Y (Some i) None (lru_remove i c) w).
  { exists lru1, hb. split; [done|]. split; [by rewrite (lo_init _ _ Hlo1)|].
    apply (links_kinv _ _ _ _ c); [done|]. destruct Hk. constructor; try done.
    - intros k Hki. rewrite Hm1, k_lru by done. naive_solver.
    - intros k Ek. destruct (k_loose k Ek) as (? & Hrk & ? & ?). split_and!; try done. intros [= ->]. done. }
  pose proof (write_back_errors Y (Some i) None (lru_remove i c) w i H1 Hi ltac:(done)) as He.
  pose proof (lo_stats _ _ Hlo1) as Es.
  destruct (bh_dirty (bh_at (lru_remove i c) i) && bh_valid (bh_at (lru_remove i c) i)).
  - destruct (buffer_write_back devs (Some i) (lru_remove i c) w) as [[rc c2] w2]. cbn [fst snd] in He |- *.
    split; [done|]. cbn [g_buffer_cache_stats upd]. rewrite hash_remove_stats, <- Es, <- He. by destruct (_ || _).
  - cbn [fst snd]. split; [done|]. cbn [g_buffer_cache_stats upd]. rewrite hash_remove_stats, <- Es. by destruct (_ || _).
Qed.

Lemma fill_reliable Y c w a n i d : inv devs Y (Some i) (Some i) c w -> in_pool i ->
  devs a = Some d -> dev_block_size d = BUFFER_BLOCK_SIZE -> 0 <= n < dev_block_count d ->
  (fill devs a n i c w).1.1 = Some i.
Proof.
  intros (lru & hb & Hr & _ & Hk) Hi Hd Hs Hn. unfold fill.
  pose proof (env_read_ok w a d n (bh_data (bh_at c i)) (k_env _ _ _ _ _ _ _ _ Hk) Hd Hn) as H. rewrite Hs in H.
  specialize (H (k_data _ _ _ _ _ _ _ _ Hk i Hi)).
  rewrite bh_at_upd, Z.eqb_refl by (try apply (rp_pool _ _ _ Hr); done || apply Hi). cbn [bh_data set_refcount set_block_no set_dev].
  destruct (block_device_read _ _ _ _) as [[rc b] w']. cbn [fst] in H. by subst rc.
Qed.

Lemma get_reliable Y c w a n d j : inv devs Y None None c w -> devs a = Some d ->
  dev_block_size d = BUFFER_BLOCK_SIZE -> 0 <= n < dev_block_count d ->
  (forall i, holds None c a n i -> bh_refcount (bh_at c i) < 2 ^ 16 - 1) ->
  in_pool j -> bh_refcount (bh_at c j) = 0 ->
  let '(p, c', w') := buffer_get devs a n c w in
  (exists i, p = Some i) /\ st_write_errors (g_buffer_cache_stats c') = st_write_errors (g_buffer_cache_stats c) /\
  forall k b m, bh_refcount (bh_at c k) <> 0 -> holds None c b m k -> holds None c' b m k.
Proof.
  intros Hinv Hd Hs Hn Hsat Hj Hz. pose proof Hinv as (lru & hb & Hr & Hini & Hk). unfold buffer_get.
  rewrite Hini, Hd, Hs. cbv zeta. replace (negb (BUFFER_BLOCK_SIZE =? BUFFER_BLOCK_SIZE)) with false by done.
  destruct (hash_lookup a n c) as [i|] eqn:El.
  - apply (lookup_holds devs Y None None c w) in El as Hh; [|done]. pose proof Hh as (Hi & _).
    destruct (hit_spec devs Y c w i Hinv Hi (Hsat i Hh)) as (_ & _ & Hci & Hcj & Hse). cbv zeta in Hci, Hcj.
    split_and!; [by exists i | exact Hse |]. intros k b m _ (Hkp & _ & E1 & E2 & Hb). unfold holds.
    destruct (Z.eq_dec k i) as [->|Hne]; [apply core_fields in Hci as (F1 & F2 & _)|
      destruct (core_fields _ _ (Hcj k Hkp Hne)) as (F1 & F2 & _)]; rewrite F1, F2; by split_and!.
  - set (c0 := bump count_miss c). assert (H0 : inv devs Y None None c0 w) by (by apply bump_inv).
    destruct (evict_reliable Y c0 w j H0 Hj Hz) as (i & Ep & Ese). pose proof (evict_spec devs Y c0 w H0) as Hev.
    assert (Hno : forall j, ~ holds None c0 a n j).
    { intros k Hkk. apply (lookup_holds devs Y None None c w a n k Hinv) in Hkk. congruence. }
    destruct (buffer_evict devs c0 w) as [[p c1] w1]. cbn [fst snd] in Ep, Ese. subst p.
    destruct Hev as (Hi & H1 & Hci & Hzi & Hcj & _ & _).
    assert (Hno1 : forall j, ~ holds (Some i) c1 a n j).
    { intros k (Hkk & HX & E1 & E2 & Ha). apply (Hno k). assert (Hji : k <> i) by congruence.
      destruct (core_fields _ _ (Hcj k Hkk Hji)) as (F1 & F2 & _). unfold holds. rewrite <- F1, <- F2. done. }
    apply core_fields in Hci as (_&_&_&_& Hvi & _). simpl in Hvi.
    pose proof (fill_spec devs Y c1 w1 a n i d H1 Hi Hvi Hd Hs (proj1 Hn) Hno1) as Hf.
    pose proof (fill_reliable Y c1 w1 a n i d H1 Hi Hd Hs Hn) as Hf2.
    rewrite <- Hd. change (let '(p, c', w') := fill devs a n i c1 w1 in
      (exists i, p = Some i) /\ st_write_errors (g_buffer_cache_stats c') = st_write_errors (g_buffer_cache_stats c) /\
      forall k b m, bh_refcount (bh_at c k) <> 0 -> holds None c b m k -> holds None c' b m k).
    destruct (fill devs a n i c1 w1) as [[p c2] w2]. cbn [fst] in Hf2. subst p. destruct Hf as (_ & _ & _ & Hs2 & Hcj2 & _).
    split_and!; [by exists i | by rewrite Hs2, Ese |]. intros k b m Hrk (Hkp & _ & E1 & E2 & Hb).
    assert (Hne : k <> i) by (intros ->; done). unfold holds.
    destruct (core_fields _ _ (Hcj2 k Hkp Hne)) as (-> & -> & _), (core_fields _ _ (Hcj k Hkp Hne)) as (-> & -> & _). done.
Qed.

(** *** Storing without marking *)
Lemma loosen c w i : inv devs None None None c w -> in_pool i -> bh_refcount (bh_at c i) <> 0 ->
  inv devs (Some i) None None c w.
Proof.
  intros (lru & hb & Hr & Hini & Hk) Hi Hz. exists lru, hb. split_and!; [done | done |]. destruct Hk. constructor; try done.
  - intros j Hj HX _. by apply k_clean.
  - by intros j [= ->].
Qed.

Lemma tighten c w i : inv devs (Some i) None None c w -> bh_dirty (bh_at c i) = true -> inv devs None None None c w.
Proof.
  intros (lru & hb & Hr & Hini & Hk) Hd. exists lru, hb. split_and!; [done | done |]. destruct Hk. constructor; try done.
  intros j Hj HX _ Hdj Hcl. apply k_clean; try done. intros [= ->]. congruence.
Qed.

(** A change of the bytes or the dirty flag of a loose head. *)
Lemma loose_update c w i f : inv devs (Some i) None None c w ->
  (forall b, hash_next (f b) = hash_next b /\ lru_next (f b) = lru_next b /\ lru_prev (f b) = lru_prev b) ->
  bh_dev (f (bh_at c i)) = bh_dev (bh_at c i) -> bh_block_no (f (bh_at c i)) = bh_block_no (bh_at c i) ->
  bh_valid (f (bh_at c i)) = bh_valid (bh_at c i) -> zlen (bh_data (f (bh_at c i))) = BUFFER_BLOCK_SIZE ->
  bh_refcount (f (bh_at c i)) = bh_refcount (bh_at c i) ->
  inv devs (Some i) None None (upd i f c) w /\
  (forall j, in_pool j -> core (bh_at (upd i f c) j) = core (if j =? i then f (bh_at c i) else bh_at c j)) /\
  forall b m j, holds None (upd i f c) b m j <-> holds None c b m j.
Proof.
  intros (lru & hb & Hr & Hini & Hk) Hf Ed En Ev El Er. destruct (k_loose _ _ _ _ _ _ _ _ Hk i eq_refl) as (Hi & Hz & _).
  assert (Hc : forall j, in_pool j -> core (bh_at (upd i f c) j) = core (if j =? i then f (bh_at c i) else bh_at c j))
    by (intros; by eapply core_upd).
  split_and!; [|done | by intros b m; apply (holds_update None c _ i (f (bh_at c i)))].
  exists lru, hb. split; [by apply upd_rep|]. split; [done|].
  apply (kinv_update devs (Some i) None None (bh_at c) _ lru lru hb w w i (f (bh_at c i)) Hk Hi Hc); try done.
  - rewrite Er. by apply (k_ref _ _ _ _ _ _ _ _ Hk).
  - by apply (k_env _ _ _ _ _ _ _ _ Hk).
  - intros j Hj. rewrite (k_lru _ _ _ _ _ _ _ _ Hk) by done. destruct (core_fields _ _ (Hc j Hj)) as (_&_&_&_&_& ->).
    destruct (Z.eqb_spec j i) as [->|]; [by rewrite Er | done].
  - intros _. by rewrite Er.
Qed.

Lemma invalidate_refs a c w Y : inv devs Y None None c w -> forall j, in_pool j ->
  bh_refcount (bh_at (buffer_cache_invalidate a c) j) = bh_refcount (bh_at c j).
Proof.
  intros Hinv. unfold buffer_cache_invalidate. destruct (Z.eqb_spec a 0) as [|Ha]; [done|].
  enough (H : inv devs Y None None (for_range 0 BUFFER_CACHE_MAX (invalidate_step a) c) w /\ forall j, in_pool j ->
    bh_refcount (bh_at (for_range 0 BUFFER_CACHE_MAX (invalidate_step a) c) j) = bh_refcount (bh_at c j)) by apply H.
  apply (for_range_ind (fun _ c' => inv devs Y None None c' w /\ forall j, in_pool j -> bh_refcount (bh_at c' j) = bh_refcount (bh_at c j)));
    [done | done |].
  intros i c' Hi [H1 Hr]. fold (in_pool i) in Hi. destruct (Z.eq_dec (bh_dev (bh_at c' i)) a) as [Hda|Hda].
  - destruct (invalidate_step_spec devs Y a i c' w H1 Hi Hda Ha) as (H2 & Hc2 & _). split; [done|]. intros j Hj.
    destruct (core_fields _ _ (Hc2 j Hj)) as (_&_&_&_&_& ->). rewrite <- Hr by done. by destruct (Z.eqb_spec j i) as [->|].
  - assert (E : invalidate_step a i c' = c') by (unfold invalidate_step; by replace (bh_dev (bh_at c' i) =? a) with false by lia).
    by rewrite E.
Qed.

(** *** One device of the cache *)
Section device.
Context (a : Z) (d : block_device W) (Hd : devs a = Some d) (Hs : dev_block_size d = BUFFER_BLOCK_SIZE).
Local Abbreviation count := (dev_block_count d).

Definition pins (i : Z) (P : list (Z * Z)) : nat := length (filter (fun p => p.1 = i) P).

Definition cache_inv (P : list (Z * Z)) (Y : option Z) (s : cache * W) : Prop :=
  inv devs Y None None s.1 s.2 /\
  (forall j, in_pool j -> bh_refcount (bh_at s.1 j) = Z.of_nat (pins j P)) /\
  Forall (fun p => holds None s.1 a p.2 p.1) P.

Definition cache_view (s : cache * W) (n : Z) : list Z := if n <? 0 then [] else logical devs s.1 s.2 a n.

Lemma view_same s s' : (forall n, 0 <= n -> logical devs s'.1 s'.2 a n = logical devs s.1 s.2 a n) ->
  forall n, cache_view s' n = cache_view s n.
Proof. intros H n. unfold cache_view. destruct (Z.ltb_spec n 0); [done | by apply H]. Qed.

Lemma pins_cons i n j P : pins j ((i, n) :: P) = ((if decide (i = j) then 1 else 0) + pins j P)%nat.
Proof. unfold pins. rewrite filter_cons. simpl. by destruct (decide (i = j)). Qed.

Lemma pinned_holds P Y s i n : cache_inv P Y s -> (i, n) ∈ P -> holds None s.1 a n i.
Proof. intros (_ & _ & Hf) Hin. rewrite Forall_forall in Hf. by apply (Hf _ Hin). Qed.

Lemma pinned_ref P Y s i n : cache_inv P Y s -> (i, n) ∈ P -> bh_refcount (bh_at s.1 i) <> 0.
Proof.
  intros H Hin. pose proof (pinned_holds P Y s i n H Hin) as [Hi _]. destruct H as (_ & Hc & _). rewrite Hc by done.
  unfold pins. intros E. assert ((i, n) ∈ filter (fun p => p.1 = i) P) by (by apply list_elem_of_filter).
  destruct (filter _ P); [by apply not_elem_of_nil in H | simpl in E; lia].
Qed.

(** With few pins some head of the pool is free. *)
Lemma free_head P s Y : cache_inv P Y s -> (length P < MAX_PINS)%nat ->
  exists j, in_pool j /\ bh_refcount (bh_at s.1 j) = 0.
Proof.
  intros (_ & Hc & _) Hl. destruct (decide (Forall (fun j => j ∈ P.*1) (seqZ 0 BUFFER_CACHE_MAX))) as [Hall|Hno].
  - exfalso. rewrite Forall_forall in Hall.
    assert (Hsub : seqZ 0 BUFFER_CACHE_MAX ⊆+ P.*1) by (apply NoDup_submseteq; [apply NoDup_seqZ | done]).
    apply submseteq_length in Hsub. rewrite length_seqZ, length_fmap in Hsub. unfold MAX_PINS, BUFFER_CACHE_MAX in *. lia.
  - apply not_Forall_Exists in Hno; [|apply _]. apply Exists_exists in Hno as (j & Hj & Hnin).
    apply elem_of_seqZ in Hj. assert (Hjp : in_pool j) by (unfold in_pool; lia). exists j. split; [done|]. rewrite Hc by done.
    unfold pins. destruct (filter _ P) as [|p l] eqn:E; [done|]. exfalso. apply Hnin.
    assert (Hp : p ∈ filter (fun p => p.1 = j) P) by (rewrite E; left).
    apply list_elem_of_filter in Hp as [<- Hp]. by apply list_elem_of_fmap_2.
Qed.

Lemma refs_small P Y s j : cache_inv P Y s -> (length P < MAX_PINS)%nat -> in_pool j -> bh_refcount (bh_at s.1 j) < 2 ^ 16 - 1.
Proof.
  intros (_ & Hc & _) Hl Hj. rewrite Hc by done. unfold pins. pose proof (length_filter (fun p : Z * Z => p.1 = j) P).
  unfold MAX_PINS in *. lia.
Qed.

Lemma cache_get P Y s n : cache_inv P Y s -> 0 <= n < count -> (length P < MAX_PINS)%nat ->
  exists i s', b_get a n s = (Some i, s') /\ cache_inv ((i, n) :: P) Y s' /\ forall m, cache_view s' m = cache_view s m.
Proof.
  intros H Hn Hl. destruct (free_head P s Y H Hl) as (j & Hj & Hz). pose proof (fun j => refs_small P Y s j H Hl) as Hsm.
  pose proof H as (Hinv & Hc & Hf). destruct s as [c w]. cbn [b_get cache_buffers fst snd] in *.
  assert (Hsat : forall i, holds None c a n i -> bh_refcount (bh_at c i) < 2 ^ 16 - 1) by (intros i [Hi _]; auto).
  pose proof (get_spec devs Y c w a n d Hinv Hd Hs (proj1 Hn) Hsat) as Hg.
  pose proof (get_reliable Y c w a n d j Hinv Hd Hs Hn Hsat Hj Hz) as Hg2.
  destruct (buffer_get devs a n c w) as [[p c'] w']. destruct Hg as (H' & Hv & Hr & Hp), Hg2 as ((i & ->) & He & Hpin).
  exists i, (c', w'). split; [done|]. split; [|by apply view_same; apply Hv]. split_and!; [done | |].
  - intros k Hk. cbn [fst]. rewrite Hr, Hc, pins_cons by done. destruct (decide (i = k)) as [->|].
    + rewrite decide_True by done. lia.
    + rewrite decide_False by congruence. lia.
  - apply Forall_cons_2; [apply Hp|]. apply Forall_forall. intros [k m] Hin. apply Hpin.
    + by apply (pinned_ref P Y (c, w) k m).
    + by apply (pinned_holds P Y (c, w) k m).
Qed.

Lemma holds_upd_same (s s' : cache * W) P : (forall b m j, holds None s'.1 b m j <-> holds None s.1 b m j) ->
  Forall (fun p => holds None s.1 a p.2 p.1) P -> Forall (fun p => holds None s'.1 a p.2 p.1) P.
Proof. intros H Hf. eapply Forall_impl; [exact Hf|]. intros p. by rewrite H. Qed.

Lemma cache_modify P Y s i n data : cache_inv P Y s -> (i, n) ∈ P -> zlen data = BUFFER_BLOCK_SIZE ->
  cache_inv P Y (b_mark_dirty i (b_store i data s)) /\
  forall m, cache_view (b_mark_dirty i (b_store i data s)) m = if m =? n then data else cache_view s m.
Proof.
  intros H Hin Hl. pose proof (pinned_holds P Y s i n H Hin) as Hh. pose proof (proj1 Hh) as Hi.
  destruct H as (Hinv & Hc & Hf), s as [c w]. cbn [fst snd] in *.
  destruct (client_write_spec devs Y c w i a n data Hinv Hh Hl) as [H' Hv]. pose proof Hinv as (lru & hb & Hr & _ & Hk).
  set (b' := set_dirty true (set_data data (bh_at c i))).
  assert (Hcore : forall j, in_pool j -> core (bh_at (client_write i data c) j) = core (if j =? i then b' else bh_at c j)).
  { intros j Hj. unfold client_write, buffer_mark_dirty. rewrite !bh_at_upd by
      (rewrite ?pool_upd; apply (rp_pool _ _ _ Hr) || apply Hi || apply Hj).
    rewrite Z.eqb_refl. by destruct (Z.eqb_spec j i). }
  change (b_mark_dirty i (b_store i data (c, w))) with (client_write i data c, w). split; [split_and!; [done | |]|].
  - intros j Hj. cbn [fst]. rewrite <- Hc by done. destruct (core_fields _ _ (Hcore j Hj)) as (_&_&_&_&_& ->).
    by destruct (Z.eqb_spec j i) as [->|].
  - eapply (holds_upd_same (c, w)); [|done]. intros b m. by apply (holds_update None c _ i b').
  - intros m. unfold cache_view. cbn [fst snd]. rewrite Hv, Z.eqb_refl. cbn [andb].
    destruct (Z.ltb_spec m 0); [|done]. destruct (Z.eqb_spec m n) as [->|]; [|done]. exfalso.
    destruct Hh as (_ & _ & E1 & E2 & Ha). destruct (k_dev _ _ _ _ _ _ _ _ Hk i Hi ltac:(done) ltac:(congruence)) as (? & _ & _ & ?). lia.
Qed.

Lemma cache_store P Y s i n data : cache_inv P Y s -> (i, n) ∈ P -> Y = None \/ Y = Some i ->
  zlen data = BUFFER_BLOCK_SIZE ->
  cache_inv P (Some i) (b_store i data s) /\
  forall m, cache_view (b_store i data s) m = if m =? n then data else cache_view s m.
Proof.
  intros H Hin HY Hl. pose proof (pinned_holds P Y s i n H Hin) as Hh. pose proof (proj1 Hh) as Hi.
  pose proof (pinned_ref P Y s i n H Hin) as Hz. destruct H as (Hinv & Hc & Hf), s as [c w]. cbn [fst snd] in *.
  assert (Hinv' : inv devs (Some i) None None c w) by (destruct HY as [-> | ->]; [by apply loosen | done]).
  destruct (loose_update c w i (set_data data) Hinv') as (H' & Hcore & Hhold); try done.
  change (b_store i data (c, w)) with (upd i (set_data data) c, w). split; [split_and!; [done | |]|].
  - intros j Hj. cbn [fst]. rewrite <- Hc by done. destruct (core_fields _ _ (Hcore j Hj)) as (_&_&_&_&_& ->).
    by destruct (Z.eqb_spec j i) as [->|].
  - by eapply (holds_upd_same (c, w)).
  - intros m. unfold cache_view. cbn [fst snd]. destruct Hh as (_ & _ & Ea & En & Ha).
    pose proof Hinv as (lru & hb & _ & _ & Hk).
    destruct (k_dev _ _ _ _ _ _ _ _ Hk i Hi ltac:(done) ltac:(congruence)) as (? & _ & _ & Hn).
    destruct (Z.ltb_spec m 0); [destruct (Z.eqb_spec m n); [lia | done]|].
    destruct (Z.eqb_spec m n) as [->|Hne].
    + rewrite (holds_logical devs (Some i) None None _ w a n i H'); [|by apply Hhold].
      destruct (core_fields _ _ (Hcore i Hi)) as (_&_& -> &_). by rewrite Z.eqb_refl.
    + apply (logical_same devs (Some i) None None None None); try done. intros j (Hj & _ & E1 & E2 & _).
      destruct (core_fields _ _ (Hcore j Hj)) as (_&_& -> &_). destruct (Z.eqb_spec j i) as [->|]; [congruence | done].
Qed.

Lemma cache_mark P s i : cache_inv P (Some i) s ->
  cache_inv P None (b_mark_dirty i s) /\ forall m, cache_view (b_mark_dirty i s) m = cache_view s m.
Proof.
  intros (Hinv & Hc & Hf). destruct s as [c w]. cbn [fst snd] in *.
  assert (Hl : in_pool i /\ zlen (bh_data (bh_at c i)) = BUFFER_BLOCK_SIZE).
  { destruct Hinv as (lru & hb & _ & _ & Hk). destruct (k_loose _ _ _ _ _ _ _ _ Hk i eq_refl) as (Hi & _).
    split; [done | by apply (k_data _ _ _ _ _ _ _ _ Hk)]. }
  destruct Hl as [Hi Hl]. destruct (loose_update c w i (set_dirty true) Hinv) as (H' & Hcore & Hhold); try done.
  change (b_mark_dirty i (c, w)) with (upd i (set_dirty true) c, w). split; [split_and!|].
  - apply (tighten _ w i); [done|]. cbn [fst]. destruct (core_fields _ _ (Hcore i Hi)) as (_&_&_& -> &_). by rewrite Z.eqb_refl.
  - intros j Hj. cbn [fst]. rewrite <- Hc by done. destruct (core_fields _ _ (Hcore j Hj)) as (_&_&_&_&_& ->).
    by destruct (Z.eqb_spec j i) as [->|].
  - by eapply (holds_upd_same (c, w)).
  - apply view_same. intros m Hm. cbn [fst snd]. apply (logical_same devs (Some i) None None None None); try done.
    intros j (Hj & _). destruct (core_fields _ _ (Hcore j Hj)) as (_&_& -> &_). by destruct (Z.eqb_spec j i) as [->|].
Qed.

Lemma release_holds c w Y i b m j : inv devs Y None None c w -> in_pool i ->
  holds None c b m j -> holds None (buffer_release (Some i) c) b m j.
Proof.
  intros (lru & hb & Hr & _ & Hk) Hi (Hj & _ & E1 & E2 & Hb). unfold holds, buffer_release.
  destruct (bh_refcount (bh_at c i) =? 0) eqn:E; [done|].
  set (c1 := upd i (set_refcount (u16 (bh_refcount (bh_at c i) - 1))) c).
  assert (Hc1 : bh_dev (bh_at c1 j) = b /\ bh_block_no (bh_at c1 j) = m).
  { unfold c1. rewrite bh_at_upd by (apply (rp_pool _ _ _ Hr) || apply Hi || apply Hj). by destruct (Z.eqb_spec j i) as [->|]. }
  destruct Hc1 as [Hd1 Hn1]. destruct (bh_refcount (bh_at c1 i) =? 0) eqn:E'; [|by split_and!].
  assert (Hr1 : rep c1 lru hb) by (by apply upd_rep).
  assert (Hnot : i ∉ lru) by (rewrite (k_lru _ _ _ _ _ _ _ _ Hk) by done; bools; lia).
  destruct (lru_insert_rep c1 lru hb i Hr1 Hi Hnot) as [_ Hlo].
  destruct (core_fields _ _ (lo_core _ _ Hlo j ltac:(apply Hj))) as (-> & -> & _). by split_and!.
Qed.

Lemma cache_release P Y s i n : cache_inv ((i, n) :: P) Y s -> Y <> Some i ->
  cache_inv P Y (b_release i s) /\ forall m, cache_view (b_release i s) m = cache_view s m.
Proof.
  intros H HY. pose proof (pinned_ref _ _ _ i n H ltac:(left)) as Hz. destruct H as (Hinv & Hc & Hf), s as [c w]. cbn [fst snd] in *.
  apply Forall_cons in Hf as [Hh Hf]. pose proof (proj1 Hh) as Hi. cbn [fst snd] in Hi.
  destruct (release_spec devs Y c w i Hinv Hi HY) as (H' & Hv & _ & Hr).
  change (b_release i (c, w)) with (buffer_release (Some i) c, w). split; [split_and!; [done | |]|].
  - intros j Hj. cbn [fst]. rewrite Hr by done. pose proof (Hc j Hj) as E. rewrite pins_cons in E.
    destruct (Z.eqb_spec j i) as [->|Hne]; [rewrite decide_True in E by done; lia|].
    rewrite decide_False in E by congruence. rewrite E. lia.
  - eapply Forall_impl; [exact Hf|]. intros p. by apply (release_holds c w Y).
  - by apply view_same.
Qed.

Lemma cache_sync P s : cache_inv P None s ->
  cache_inv P None (b_sync a s).2 /\ forall m, cache_view (b_sync a s).2 m = cache_view s m.
Proof.
  intros (Hinv & Hc & Hf). destruct s as [c w]. cbn [b_sync cache_buffers fst snd] in *.
  pose proof (sync_spec devs None a c w Hinv) as H. destruct (buffer_cache_sync devs a c w) as [[rc c'] w'].
  destruct H as (H' & Hv & Hsame & _). cbn [snd]. split; [split_and!; [done | |]|].
  - intros j Hj. cbn [fst]. destruct (Hsame j Hj) as (_ & _ & -> & _). by apply Hc.
  - eapply Forall_impl; [exact Hf|]. intros p (Hj & _ & E1 & E2 & Ha). destruct (Hsame _ Hj) as (F1 & F2 & _).
    unfold holds. cbn [fst]. split_and!; try done; congruence.
  - apply view_same. intros n Hn. by apply Hv.
Qed.

#[export] Instance cache_spec : BufferSpec (S := cache * W) a count.
Proof.
  refine {| binv := cache_inv; bview := cache_view |}.
  - intros P Y [c w] n (Hinv & _) Hn. unfold cache_view, logical. cbn [fst snd].
    replace (n <? 0) with false by lia. pose proof Hinv as (lru & hb & _ & _ & Hk). cbn [fst snd] in *.
    destruct (hash_lookup a n c) as [i|] eqn:E.
    + apply (lookup_holds devs Y None None c w a n i Hinv) in E as (Hi & _). by apply (k_data _ _ _ _ _ _ _ _ Hk).
    + rewrite (env_len w a d n (k_env _ _ _ _ _ _ _ _ Hk) Hd Hn). done.
  - intros P Y s i n m H H1 H2. apply (pinned_holds _ _ _ _ _ H) in H1 as (_ & _ & _ & <- & _).
    by apply (pinned_holds _ _ _ _ _ H) in H2 as (_ & _ & _ & <- & _).
  - apply cache_get.
  - intros P Y s i n H Hin. pose proof (pinned_holds P Y s i n H Hin) as Hh. destruct H as (Hinv & _).
    unfold cache_view. destruct s as [c w]. cbn [fst snd] in *. pose proof Hinv as (lru & hb & _ & _ & Hk).
    destruct Hh as (Hi & HX & Ea & En & Ha). destruct (k_dev _ _ _ _ _ _ _ _ Hk i Hi ltac:(done) ltac:(congruence)) as (? & _ & _ & Hb).
    replace (n <? 0) with false by lia. symmetry. by apply (holds_logical devs Y None None c w a n i Hinv).
  - apply cache_store.
  - apply cache_mark.
  - intros P s i n H Hin. apply cache_mark. pose proof (pinned_ref P None s i n H Hin) as Hz.
    pose proof (pinned_holds P None s i n H Hin) as [Hi _]. destruct H as (Hinv & Hc & Hf).
    split_and!; [by apply loosen | done | done].
  - apply cache_modify.
  - apply cache_release.
  - apply cache_sync.
Defined.

(** *** Writing past the cache *)
Definition cache_fresh (s : cache * W) : Prop := forall j, in_pool j -> bh_dev (bh_at s.1 j) <> a.

Lemma addr_nonzero : a <> 0.
Proof. intros ->. by rewrite env_null in Hd. Qed.

Lemma fresh_view s : cache_inv [] None s -> cache_fresh s -> forall n, 0 <= n -> cache_view s n = env_view s.2 a n.
Proof.
  intros (Hinv & _) Hf n Hn. unfold cache_view, logical. replace (n <? 0) with false by lia.
  rewrite (lookup_none devs None None None s.1 s.2 a n Hinv); [done|]. intros j (Hj & _ & E & _). by apply (Hf j).
Qed.

Lemma cache_invalidate s : cache_inv [] None s ->
  cache_inv [] None (b_invalidate a s) /\ cache_fresh (b_invalidate a s).
Proof.
  intros (Hinv & Hc & _). destruct s as [c w]. cbn [b_invalidate cache_buffers fst snd] in *.
  destruct (invalidate_spec devs None a c w Hinv addr_nonzero) as (H' & _ & Hno).
  split; [split_and!; [done | | by apply Forall_nil_2]|]; [|exact Hno].
  intros j Hj. cbn [fst]. rewrite (invalidate_refs a c w None Hinv) by done. by apply Hc.
Qed.

Lemma cache_dev_write s n data : cache_inv [] None s -> cache_fresh s -> 0 <= n < count -> zlen data = BUFFER_BLOCK_SIZE ->
  let '(rc, s') := dev_write a n data s in
  rc = 0 /\ cache_inv [] None s' /\ cache_fresh s' /\ forall m, cache_view s' m = if m =? n then data else cache_view s m.
Proof.
  intros H Hf Hn Hl. pose proof (fresh_view s H Hf) as Hv. destruct H as (Hinv & Hc & _), s as [c w].
  cbn [dev_write cache_buffers fst snd] in *. pose proof Hinv as (lru & hb & Hr & Hini & Hk).
  pose proof (env_write w a d n data (k_env _ _ _ _ _ _ _ _ Hk) Hd (proj1 Hn) ltac:(by rewrite Hs)) as Hw.
  pose proof (env_write_ok w a d n data (k_env _ _ _ _ _ _ _ _ Hk) Hd Hn ltac:(by rewrite Hs)) as Hrc.
  destruct (block_device_write (devs a) n data w) as [rc w']. cbn [fst] in Hrc. subst rc. destruct Hw as (Hw' & Hfr & Hok).
  assert (H' : cache_inv [] None (c, w')).
  { split_and!; [|done | by apply Forall_nil_2]. exists lru, hb. split_and!; [done | done |]. cbn [fst snd]. destruct Hk.
    constructor; try done. intros j Hj HX HY Hdj Hcl. destruct (k_dev j Hj HX Hdj) as (? & _ & _ & Hb).
    rewrite Hfr; [by apply k_clean | lia |]. intros [E _]. by apply (Hf j). }
  split_and!; [done | done | done |]. intros m. destruct (Z.ltb_spec m 0) as [Hm|Hm].
  - unfold cache_view. replace (m <? 0) with true by lia. destruct (Z.eqb_spec m n); [lia | done].
  - rewrite fresh_view, Hv by done. cbn [snd]. destruct (Z.eqb_spec m n) as [->|]; [by apply Hok|]. apply Hfr; [done|]. naive_solver.
Qed.

#[export] Instance cache_raw : BufferRaw (S := cache * W) a count.
Proof.
  refine {| bfresh := cache_fresh |}.
  - apply cache_invalidate.
  - apply cache_dev_write.
  - intros s H Hf m. destruct (cache_invalidate s H) as [H' Hf']. change (bview s m) with (cache_view s m).
    change (bview (b_invalidate a s) m) with (cache_view (b_invalidate a s) m).
    destruct (Z.ltb_spec m 0) as [Hm|Hm]; [unfold cache_view; by replace (m <? 0) with true by lia|].
    rewrite !fresh_view by done. by destruct s.
Defined.
End device.
End cache.
