(* ===== verification/CapyFs.v ===== *)
(** * The CAPYFS file system

    Models src/fs/capyfs/runtime/: the on-disk structures, inode and block
    allocation, file reads and writes, directories, the operations of the file system
    interface, formatting and mounting.

    Everything goes through the buffer cache, here any implementation of [Buffers].
    A step runs over the cache, the next-fit hint and the outcomes of the coming
    [kalloc] calls ([true]: granted; an exhausted list grants all).  A pointer the
    callers never leave NULL is a value; a structure written through a pointer is
    returned.  A C string is the list of the bytes before its terminator; a name on
    disk is its 32 bytes.  A [struct capyfs_mount] is allocated by the mount and does
    not change, so it is a value that carries its address.  The debug output is
    compiled out, and the progress callback of the formatter has no effect here. *)
From S2P Require Import Prelude Buffers.
Local Open Scope capy_scope.

Definition CAPYFS_MAGIC : Z := 0x4E524653.
Definition CAPYFS_VERSION : Z := 2.
Definition CAPYFS_BLOCK_SIZE : Z := 4096.
Definition CAPYFS_NAME_MAX : Z := 32.
Definition VFS_MODE_FILE : Z := 1.
Definition VFS_MODE_DIR : Z := 2.

(** ** On-disk structures *)
Record capy_super := mkSuper {
  magic : Z; version : Z; block_size : Z; block_count : Z; inode_count : Z;
  bmap_start : Z; imap_start : Z; inode_start : Z; data_start : Z }.

Record capy_inode_disk := mkDisk {
  d_mode : Z; d_links : Z; d_size : Z; d_uid : Z; d_gid : Z; d_perm : Z; d_reserved : Z;
  direct : list Z; indirect : Z }.

Record capy_dirent_disk := mkDirent { de_ino : Z; de_name : list Z }.

(** An integer of [n] bytes at an offset of a buffer. *)
Definition load_le (b : list Z) (off : Z) (n : nat) : Z := le_val (sub_bytes b off (Z.of_nat n)).
Definition store_le (b : list Z) (off : Z) (n : nat) (v : Z) : list Z := splice b off (le_bytes n v).

Definition INODE_SIZE : Z := 72.
Definition DIRENT_SIZE : Z := 36.

Definition super_bytes (s : capy_super) : list Z :=
  le_bytes 4 (magic s) ++ le_bytes 4 (version s) ++ le_bytes 4 (block_size s) ++ le_bytes 4 (block_count s) ++
  le_bytes 4 (inode_count s) ++ le_bytes 4 (bmap_start s) ++ le_bytes 4 (imap_start s) ++
  le_bytes 4 (inode_start s) ++ le_bytes 4 (data_start s).

Definition super_of_bytes (b : list Z) : capy_super :=
  mkSuper (load_le b 0 4) (load_le b 4 4) (load_le b 8 4) (load_le b 12 4) (load_le b 16 4)
    (load_le b 20 4) (load_le b 24 4) (load_le b 28 4) (load_le b 32 4).

Definition inode_bytes (d : capy_inode_disk) : list Z :=
  le_bytes 2 (d_mode d) ++ le_bytes 2 (d_links d) ++ le_bytes 4 (d_size d) ++ le_bytes 4 (d_uid d) ++
  le_bytes 4 (d_gid d) ++ le_bytes 2 (d_perm d) ++ le_bytes 2 (d_reserved d) ++
  concat (le_bytes 4 <$> direct d) ++ le_bytes 4 (indirect d).

Definition inode_of_bytes (b : list Z) : capy_inode_disk :=
  mkDisk (load_le b 0 2) (load_le b 2 2) (load_le b 4 4) (load_le b 8 4) (load_le b 12 4) (load_le b 16 2)
    (load_le b 18 2) ((fun k => load_le b (20 + 4 * k) 4) <$> seqZ 0 12) (load_le b 68 4).

Definition dirent_of_bytes (b : list Z) : capy_dirent_disk := mkDirent (load_le b 0 4) (sub_bytes b 4 CAPYFS_NAME_MAX).

Definition set_d_size (v : Z) (d : capy_inode_disk) : capy_inode_disk :=
  mkDisk (d_mode d) (d_links d) v (d_uid d) (d_gid d) (d_perm d) (d_reserved d) (direct d) (indirect d).
Definition set_direct (k v : Z) (d : capy_inode_disk) : capy_inode_disk :=
  mkDisk (d_mode d) (d_links d) (d_size d) (d_uid d) (d_gid d) (d_perm d) (d_reserved d) (aset (direct d) k v) (indirect d).
Definition set_indirect (v : Z) (d : capy_inode_disk) : capy_inode_disk :=
  mkDisk (d_mode d) (d_links d) (d_size d) (d_uid d) (d_gid d) (d_perm d) (d_reserved d) (direct d) v.
Definition zero_disk : capy_inode_disk := mkDisk 0 0 0 0 0 0 0 (zrep 12 0) 0.

(** ** Objects in memory *)
Record capyfs_mount := mkMount { m_addr : Z; m_dev : Z; super : capy_super }.

Record inode := mkInode {
  i_ino : Z; i_mode : Z; i_size : Z; i_uid : Z; i_gid : Z; i_perm : Z;
  private_data : option capyfs_mount }.

Definition set_i_size (v : Z) (i : inode) : inode :=
  mkInode (i_ino i) (i_mode i) v (i_uid i) (i_gid i) (i_perm i) (private_data i).
Definition set_i_meta (uid gid perm : Z) (i : inode) : inode :=
  mkInode (i_ino i) (i_mode i) (i_size i) uid gid perm (private_data i).

Record vfs_metadata := mkMeta { meta_uid : Z; meta_gid : Z; meta_perm : Z }.
Record vfs_stat := mkStat { st_ino : Z; st_size : Z; st_uid : Z; st_gid : Z; st_mode : Z; st_perm : Z }.

Definition inode_mount (i : inode) : option capyfs_mount := private_data i.

(** ** Names *)

(** The scan of [names_equal]; a list read past its end gives the terminator. *)
Definition names_equal (a b : list Z) : bool :=
  match until_range 0 CAPYFS_NAME_MAX (fun i (_ : unit) =>
      if truthy a.[i] && truthy b.[i]
      then if negb (a.[i] =? b.[i]) then inr false else inl tt
      else inr (a.[i] =? b.[i])) tt with
  | inl _ => false
  | inr r => r
  end.

Definition cstring_length (s : list Z) : Z := zlen s.

(** [cstring_copy(dst, 32, src)] into a field at [off] of a buffer. *)
Definition cstring_copy (buf : list Z) (off : Z) (src : list Z) : list Z :=
  let n := Z.min (CAPYFS_NAME_MAX - 1) (zlen src) in
  aset (splice buf off (ztake n src)) (off + n) 0.

(** ** Steps *)
Record fsys {S : Type} := mkFsys { bufs : S; g_next_fit_hint : Z; mem : list bool }.
Arguments fsys : clear implicits.
Arguments mkFsys {S}.

Section capyfs.
Context {S : Type} `{!Buffers S}.

Definition M (A : Type) : Type := fsys S -> A * fsys S.
Definition ret {A} (a : A) : M A := fun s => (a, s).
Definition bind {A B} (m : M A) (k : A -> M B) : M B := fun s => let '(a, s) := m s in k a s.
#[local] Notation "'let*' x := m 'in' k" := (bind m (fun x => k)) (at level 10, x pattern, k at level 200).

Definition on_bufs {A} (f : S -> A * S) : M A := fun s => let '(a, b) := f (bufs s) in (a, mkFsys b (g_next_fit_hint s) (mem s)).
Definition buffer_get (dev n : Z) : M (option Z) := on_bufs (b_get dev n).
Definition bh_data (bh : Z) : M (list Z) := fun s => (b_data (bufs s) bh, s).
Definition set_bh_data (bh : Z) (d : list Z) : M unit := on_bufs (fun b => (tt, b_store bh d b)).
Definition buffer_mark_dirty (bh : Z) : M unit := on_bufs (fun b => (tt, b_mark_dirty bh b)).
Definition buffer_release (bh : Z) : M unit := on_bufs (fun b => (tt, b_release bh b)).
Definition buffer_cache_sync (dev : Z) : M Z := on_bufs (b_sync dev).
Definition buffer_cache_invalidate (dev : Z) : M unit := on_bufs (fun b => (tt, b_invalidate dev b)).
Definition block_device_write (dev n : Z) (d : list Z) : M Z := on_bufs (dev_write dev n d).

Definition kalloc : M bool := fun s =>
  match mem s with [] => (true, s) | b :: l => (b, mkFsys (bufs s) (g_next_fit_hint s) l) end.
Definition get_hint : M Z := fun s => (g_next_fit_hint s, s).
Definition set_hint (v : Z) : M unit := fun s => (tt, mkFsys (bufs s) v (mem s)).

(** Loops: over a range with an early return; over a range with a carried value; while
    the body returns [inl]. *)
Fixpoint find_n {R} (n : nat) (i : Z) (body : Z -> M (option R)) : M (option R) :=
  match n with
  | O => ret None
  | Datatypes.S n => let* r := body i in match r with Some _ => ret r | None => find_n n (i + 1) body end
  end.
Definition find_range {R} (lo hi : Z) (body : Z -> M (option R)) : M (option R) := find_n (Z.to_nat (hi - lo)) lo body.

Fixpoint each_n {T} (n : nat) (i : Z) (body : Z -> T -> M T) (t : T) : M T :=
  match n with
  | O => ret t
  | Datatypes.S n => let* t := body i t in each_n n (i + 1) body t
  end.
Definition each_range {T} (lo hi : Z) (body : Z -> T -> M T) (t : T) : M T := each_n (Z.to_nat (hi - lo)) lo body t.

Fixpoint while_n {T R} (fuel : nat) (body : T -> M (T + R)) (t : T) : M (option R) :=
  match fuel with
  | O => ret None
  | Datatypes.S fuel => let* r := body t in match r with inl t => while_n fuel body t | inr r => ret (Some r) end
  end.

(** ** Inodes on disk *)
Definition per_block : Z := CAPYFS_BLOCK_SIZE / INODE_SIZE.

Definition capyfs_read_inode_disk (mnt : capyfs_mount) (ino : Z) : M (option capy_inode_disk) :=
  if inode_count (super mnt) <=? ino then ret None else
  let block_no := u32 (inode_start (super mnt) + ino / per_block) in
  let* bh := buffer_get (m_dev mnt) block_no in
  match bh with
  | None => ret None
  | Some bh =>
      let* data := bh_data bh in
      let out := inode_of_bytes (sub_bytes data (ino `mod` per_block * INODE_SIZE) INODE_SIZE) in
      let* _ := buffer_release bh in
      ret (Some out)
  end.

Definition capyfs_write_inode_disk (mnt : capyfs_mount) (ino : Z) (src : capy_inode_disk) : M Z :=
  if inode_count (super mnt) <=? ino then ret (-1) else
  let block_no := u32 (inode_start (super mnt) + ino / per_block) in
  let* bh := buffer_get (m_dev mnt) block_no in
  match bh with
  | None => ret (-1)
  | Some bh =>
      let* data := bh_data bh in
      let* _ := set_bh_data bh (splice data (ino `mod` per_block * INODE_SIZE) (inode_bytes src)) in
      let* _ := buffer_mark_dirty bh in
      let* _ := buffer_release bh in
      let* _ := buffer_cache_sync (m_dev mnt) in
      ret 0
  end.

Definition capyfs_create_vfs_inode (mnt : capyfs_mount) (ino : Z) (disk : capy_inode_disk) : M (option inode) :=
  let* ok := kalloc in
  if negb ok then ret None else
  let* ok := kalloc in
  if negb ok then ret None else
  ret (Some (mkInode ino (d_mode disk) (d_size disk) (d_uid disk) (d_gid disk) (d_perm disk) (Some mnt))).

(** ** Bitmaps *)
Definition bits_per_block : Z := CAPYFS_BLOCK_SIZE * 8.
Definition bit_set (value bit : Z) : bool := truthy (Z.land value (Z.shiftl 1 bit)).
Definition mark_bit (data : list Z) (byte bit : Z) : list Z := aset data byte (Z.lor data.[byte] (Z.shiftl 1 bit)).
Definition clear_bit (data : list Z) (byte bit : Z) : list Z :=
  aset data byte (Z.land data.[byte] (u8 (Z.lnot (Z.shiftl 1 bit)))).

Definition capyfs_alloc_inode (mnt : capyfs_mount) : M (option Z) :=
  let* r := find_range 0 (inode_count (super mnt)) (fun ino =>
    let block := u32 (imap_start (super mnt) + ino / bits_per_block) in
    let rel := ino `mod` bits_per_block in
    let byte := rel / 8 in
    let bit := rel `mod` 8 in
    let* bh := buffer_get (m_dev mnt) block in
    match bh with
    | None => ret (Some None)
    | Some bh =>
        let* data := bh_data bh in
        if negb (bit_set data.[byte] bit) then
          let* _ := set_bh_data bh (mark_bit data byte bit) in
          let* _ := buffer_mark_dirty bh in
          let* _ := buffer_release bh in
          ret (Some (Some ino))
        else
          let* _ := buffer_release bh in ret None
    end) in
  ret (default None r).

Definition capyfs_free_inode_bit (mnt : capyfs_mount) (ino : Z) : M unit :=
  if inode_count (super mnt) <=? ino then ret tt else
  let block := u32 (imap_start (super mnt) + ino / bits_per_block) in
  let rel := ino `mod` bits_per_block in
  let* bh := buffer_get (m_dev mnt) block in
  match bh with
  | None => ret tt
  | Some bh =>
      let* data := bh_data bh in
      let* _ := set_bh_data bh (clear_bit data (rel / 8) (rel `mod` 8)) in
      let* _ := buffer_mark_dirty bh in
      buffer_release bh
  end.

Definition capyfs_free_block (mnt : capyfs_mount) (block : Z) : M unit :=
  if (block <? data_start (super mnt)) || (block_count (super mnt) <=? block) then ret tt else
  let map_block := u32 (bmap_start (super mnt) + block / bits_per_block) in
  let rel := block `mod` bits_per_block in
  let* bh := buffer_get (m_dev mnt) map_block in
  match bh with
  | None => ret tt
  | Some bh =>
      let* data := bh_data bh in
      let* _ := set_bh_data bh (clear_bit data (rel / 8) (rel `mod` 8)) in
      let* _ := buffer_mark_dirty bh in
      buffer_release bh
  end.

Definition zero_block (bh : Z) : M unit :=
  let* _ := set_bh_data bh (zrep CAPYFS_BLOCK_SIZE 0) in buffer_mark_dirty bh.

Definition capyfs_try_alloc_range (mnt : capyfs_mount) (start fin : Z) : M (option Z) :=
  let* r := find_range start fin (fun blk =>
    let block := u32 (bmap_start (super mnt) + blk / bits_per_block) in
    let rel := blk `mod` bits_per_block in
    let byte := rel / 8 in
    let bit := rel `mod` 8 in
    let* bh := buffer_get (m_dev mnt) block in
    match bh with
    | None => ret (Some None)
    | Some bh =>
        let* data := bh_data bh in
        if negb (bit_set data.[byte] bit) then
          let* _ := set_bh_data bh (mark_bit data byte bit) in
          let* _ := buffer_mark_dirty bh in
          let* _ := buffer_release bh in
          let* data_bh := buffer_get (m_dev mnt) blk in
          match data_bh with
          | None => ret (Some None)
          | Some data_bh =>
              let* _ := zero_block data_bh in
              let* _ := buffer_release data_bh in
              let* _ := set_hint (u32 (blk + 1)) in
              ret (Some (Some blk))
          end
        else
          let* _ := buffer_release bh in ret None
    end) in
  ret (default None r).

Definition capyfs_alloc_block (mnt : capyfs_mount) : M (option Z) :=
  let ds := data_start (super mnt) in
  let bc := block_count (super mnt) in
  let* hint := get_hint in
  let hint := if (hint <? ds) || (bc <=? hint) then ds else hint in
  let* r := capyfs_try_alloc_range mnt hint bc in
  match r with
  | Some b => ret (Some b)
  | None => if ds <? hint then capyfs_try_alloc_range mnt ds hint else ret None
  end.

(** ** Blocks of a file *)
Definition entries_per_indirect : Z := CAPYFS_BLOCK_SIZE / 4.

Definition free_entry (mnt : capyfs_mount) (bh i : Z) : M unit :=
  let* data := bh_data bh in
  if truthy (load_le data (4 * i) 4) then
    let* _ := capyfs_free_block mnt (load_le data (4 * i) 4) in
    let* data := bh_data bh in
    set_bh_data bh (store_le data (4 * i) 4 0)
  else ret tt.

Definition capyfs_free_data_blocks (mnt : capyfs_mount) (d : capy_inode_disk) : M capy_inode_disk :=
  let* d := each_range 0 12 (fun i d =>
    let blk := (direct d).[i] in
    if truthy blk then let* _ := capyfs_free_block mnt blk in ret (set_direct i 0 d) else ret d) d in
  let* d :=
    if truthy (indirect d) then
      let* bh := buffer_get (m_dev mnt) (indirect d) in
      let* _ :=
        match bh with
        | None => ret tt
        | Some bh =>
            let* _ := each_range 0 entries_per_indirect (fun i _ => free_entry mnt bh i) tt in
            let* _ := buffer_mark_dirty bh in
            buffer_release bh
        end in
      let* _ := capyfs_free_block mnt (indirect d) in
      ret (set_indirect 0 d)
    else ret d in
  ret (set_d_size 0 d).

(** [None] is the error return; the inode and the dirty flag are the caller's. *)
Definition capyfs_get_data_block (mnt : capyfs_mount) (d : capy_inode_disk) (logical_block : Z) (allocate : bool)
    (inode_dirty : bool) : M (option Z * capy_inode_disk * bool) :=
  if logical_block <? 12 then
    let block := (direct d).[logical_block] in
    if (block =? 0) && allocate then
      let* r := capyfs_alloc_block mnt in
      match r with
      | None => ret (None, d, inode_dirty)
      | Some block => ret (Some block, set_direct logical_block block d, true)
      end
    else ret (Some block, d, inode_dirty)
  else
    let indirect_index := logical_block - 12 in
    if entries_per_indirect <=? indirect_index then ret (None, d, inode_dirty) else
    let* r :=
      if indirect d =? 0 then
        if negb allocate then ret (inr (Some 0)) else
        let* r := capyfs_alloc_block mnt in
        match r with
        | None => ret (inr None)
        | Some indirect_block => ret (inl (indirect_block, set_indirect indirect_block d, true))
        end
      else ret (inl (indirect d, d, inode_dirty)) in
    match r with
    | inr out => ret (out, d, inode_dirty)
    | inl (indirect_block, d, inode_dirty) =>
        let* bh := buffer_get (m_dev mnt) indirect_block in
        match bh with
        | None => ret (None, d, inode_dirty)
        | Some bh =>
            let* data := bh_data bh in
            let block := load_le data (4 * indirect_index) 4 in
            if (block =? 0) && allocate then
              let* r := capyfs_alloc_block mnt in
              match r with
              | None => let* _ := buffer_release bh in ret (None, d, inode_dirty)
              | Some block =>
                  let* data := bh_data bh in
                  let* _ := set_bh_data bh (store_le data (4 * indirect_index) 4 block) in
                  let* _ := buffer_mark_dirty bh in
                  let* _ := buffer_release bh in
                  ret (Some block, d, inode_dirty)
              end
            else
              let* _ := buffer_release bh in ret (Some block, d, inode_dirty)
        end
    end.

(** ** Files *)
Record file := mkFile { f_inode : option inode; f_position : Z }.

(** Enough iterations for the blocks [size] bytes touch: [CapyFsFile] proves that the
    loops of read and write end by themselves. *)
Definition io_fuel (size : Z) : nat := Z.to_nat (size / CAPYFS_BLOCK_SIZE + 3).

Definition read_step (mnt : capyfs_mount) (disk : capy_inode_disk) (pos remaining : Z) (t : Z * list Z)
    : M ((Z * list Z) + (Z * list Z)) :=
  let '(copied, dst) := t in
  if negb (copied <? remaining) then ret (inr t) else
  let absolute := u32 (pos + u32 copied) in
  let block_index := absolute / CAPYFS_BLOCK_SIZE in
  let block_offset := absolute `mod` CAPYFS_BLOCK_SIZE in
  let chunk := Z.min (CAPYFS_BLOCK_SIZE - block_offset) (remaining - copied) in
  let* (block_no, _, _) := capyfs_get_data_block mnt disk block_index false false in
  match block_no with
  | None => ret (inr t)
  | Some block_no =>
      if block_no =? 0 then ret (inl (copied + chunk, memset_loop dst copied chunk 0)) else
      let* bh := buffer_get (m_dev mnt) block_no in
      match bh with
      | None => ret (inr t)
      | Some bh =>
          let* data := bh_data bh in
          let* _ := buffer_release bh in
          ret (inl (copied + chunk, memcpy_loop dst copied data block_offset chunk))
      end
  end.

(** The return value, the destination and the inode. *)
Definition capyfs_read (f : file) (buffer : option (list Z)) (size : Z) : M (Z * list Z * option inode) :=
  let dst0 := default [] buffer in
  match buffer with
  | None => ret (0, dst0, f_inode f)
  | Some dst =>
      if size =? 0 then ret (0, dst, f_inode f) else
      match f_inode f with
      | None => ret (-1, dst, None)
      | Some ino =>
          if truthy (Z.land (i_mode ino) VFS_MODE_DIR) then ret (-1, dst, Some ino) else
          match inode_mount ino with
          | None => ret (-1, dst, Some ino)
          | Some mnt =>
              let* disk := capyfs_read_inode_disk mnt (i_ino ino) in
              match disk with
              | None => ret (-1, dst, Some ino)
              | Some disk =>
                  let ino := set_i_size (d_size disk) ino in
                  let pos := f_position f in
                  if d_size disk <=? pos then ret (0, dst, Some ino) else
                  let remaining := Z.min size (d_size disk - pos) in
                  let* r := while_n (io_fuel remaining) (read_step mnt disk pos remaining) (0, dst) in
                  let '(copied, dst) := default (0, dst) r in
                  ret (copied, dst, Some ino)
              end
          end
      end
  end.

Definition write_step (mnt : capyfs_mount) (src : list Z) (pos size : Z) (t : Z * capy_inode_disk * bool)
    : M ((Z * capy_inode_disk * bool) + (Z * capy_inode_disk * bool)) :=
  let '(written, disk, inode_dirty) := t in
  if negb (written <? size) then ret (inr t) else
  let absolute := u32 (pos + u32 written) in
  let block_index := absolute / CAPYFS_BLOCK_SIZE in
  let block_offset := absolute `mod` CAPYFS_BLOCK_SIZE in
  let chunk := Z.min (CAPYFS_BLOCK_SIZE - block_offset) (size - written) in
  let* (block_no, disk, inode_dirty) := capyfs_get_data_block mnt disk block_index true inode_dirty in
  match block_no with
  | None => ret (inr (written, disk, inode_dirty))
  | Some block_no =>
      if block_no =? 0 then ret (inr (written, disk, inode_dirty)) else
      let* bh := buffer_get (m_dev mnt) block_no in
      match bh with
      | None => ret (inr (written, disk, inode_dirty))
      | Some bh =>
          let* data := bh_data bh in
          let* _ := set_bh_data bh (memcpy_loop data block_offset src written chunk) in
          let* _ := buffer_mark_dirty bh in
          let* _ := buffer_release bh in
          ret (inl (written + chunk, disk, inode_dirty))
      end
  end.

Definition capyfs_write (f : file) (buffer : option (list Z)) (size : Z) : M (Z * option inode) :=
  if bool_decide (buffer = None) && (0 <? size) then ret (-1, f_inode f) else
  if size =? 0 then ret (0, f_inode f) else
  match f_inode f with
  | None => ret (-1, None)
  | Some ino =>
      if truthy (Z.land (i_mode ino) VFS_MODE_DIR) then ret (-1, Some ino) else
      match inode_mount ino with
      | None => ret (-1, Some ino)
      | Some mnt =>
          let* disk := capyfs_read_inode_disk mnt (i_ino ino) in
          match disk with
          | None => ret (-1, Some ino)
          | Some disk =>
              let pos := f_position f in
              let* r := while_n (io_fuel size) (write_step mnt (default [] buffer) pos size) (0, disk, false) in
              let '(written, disk, inode_dirty) := default (0, disk, false) r in
              let final_size := u32 (pos + u32 written) in
              let new_size := Z.max (d_size disk) final_size in
              let '(disk, inode_dirty) :=
                if negb (new_size =? d_size disk) then (set_d_size new_size disk, true) else (disk, inode_dirty) in
              if inode_dirty then
                let* rc := capyfs_write_inode_disk mnt (i_ino ino) disk in
                if negb (rc =? 0) then ret (written, Some ino) else ret (written, Some (set_i_size (d_size disk) ino))
              else ret (written, Some (set_i_size (d_size disk) ino))
          end
      end
  end.

(** ** Directories *)
Definition entries_per_block : Z := CAPYFS_BLOCK_SIZE / DIRENT_SIZE.

Definition dirent_at (data : list Z) (off : Z) : capy_dirent_disk :=
  dirent_of_bytes (sub_bytes data (off * DIRENT_SIZE) DIRENT_SIZE).

(** [entries[off].ino = ino; cstring_copy(entries[off].name, 32, name);] *)
Definition put_dirent (data : list Z) (off ino : Z) (name : list Z) : list Z :=
  cstring_copy (store_le data (off * DIRENT_SIZE) 4 ino) (off * DIRENT_SIZE + 4) name.

(** [entries[off].ino = 0; entries[off].name[0] = 0;] *)
Definition wipe_dirent (data : list Z) (off : Z) : list Z :=
  aset (store_le data (off * DIRENT_SIZE) 4 0) (off * DIRENT_SIZE + 4) 0.

(** The loop of [capyfs_dir_add_entry]: an entry of a block that is there and free. *)
Definition reuse_entry (mnt : capyfs_mount) (dir_inode : capy_inode_disk) (dir_ino child_ino : Z) (name : list Z) (i : Z) : M (option Z) :=
  let entry_off := i `mod` entries_per_block in
  let* (block_no, _, _) := capyfs_get_data_block mnt dir_inode (i / entries_per_block) false false in
  match block_no with
  | None => ret (Some (-1))
  | Some block_no =>
      if block_no =? 0 then ret None else
      let* bh := buffer_get (m_dev mnt) block_no in
      match bh with
      | None => ret (Some (-1))
      | Some bh =>
          let* data := bh_data bh in
          if de_ino (dirent_at data entry_off) =? 0 then
            let* _ := set_bh_data bh (put_dirent data entry_off child_ino name) in
            let* _ := buffer_mark_dirty bh in
            let* _ := buffer_release bh in
            let* _ := capyfs_write_inode_disk mnt dir_ino dir_inode in
            ret (Some 0)
          else
            let* _ := buffer_release bh in ret None
      end
  end.

(** Its end: one entry more. *)
Definition append_entry (mnt : capyfs_mount) (dir_inode : capy_inode_disk) (dir_ino child_ino : Z) (name : list Z) (new_index : Z)
    : M (Z * capy_inode_disk) :=
  let* (block_no, dir_inode, _) := capyfs_get_data_block mnt dir_inode (new_index / entries_per_block) true false in
  match block_no with
  | None => ret (-1, dir_inode)
  | Some block_no =>
      let* bh := buffer_get (m_dev mnt) block_no in
      match bh with
      | None => ret (-1, dir_inode)
      | Some bh =>
          let* data := bh_data bh in
          let* _ := set_bh_data bh (put_dirent data (new_index `mod` entries_per_block) child_ino name) in
          let* _ := buffer_mark_dirty bh in
          let* _ := buffer_release bh in
          let dir_inode := set_d_size (u32 ((new_index + 1) * DIRENT_SIZE)) dir_inode in
          let* _ := capyfs_write_inode_disk mnt dir_ino dir_inode in
          ret (0, dir_inode)
      end
  end.

Definition capyfs_dir_add_entry (mnt : capyfs_mount) (dir_inode : capy_inode_disk) (dir_ino child_ino : Z) (name : list Z)
    : M (Z * capy_inode_disk) :=
  let name_len := cstring_length name in
  if (name_len =? 0) || (CAPYFS_NAME_MAX <=? name_len) then ret (-1, dir_inode) else
  let* d := capyfs_read_inode_disk mnt dir_ino in
  match d with
  | None => ret (-1, dir_inode)
  | Some dir_inode =>
      let entry_count := d_size dir_inode / DIRENT_SIZE in
      let* r := find_range 0 entry_count (reuse_entry mnt dir_inode dir_ino child_ino name) in
      match r with
      | Some rc => ret (rc, dir_inode)
      | None => append_entry mnt dir_inode dir_ino child_ino name entry_count
      end
  end.

(** The entry with its block and its index in the block. *)
Definition capyfs_dir_find_entry (mnt : capyfs_mount) (dir_inode : capy_inode_disk) (name : list Z)
    : M (option (capy_dirent_disk * Z * Z)) :=
  let total_entries := d_size dir_inode / DIRENT_SIZE in
  let* r := find_range 0 total_entries (fun i =>
    let entry_off := i `mod` entries_per_block in
    let* (block_no, _, _) := capyfs_get_data_block mnt dir_inode (i / entries_per_block) false false in
    match block_no with
    | None => ret (Some None)
    | Some block_no =>
        if block_no =? 0 then ret None else
        let* bh := buffer_get (m_dev mnt) block_no in
        match bh with
        | None => ret (Some None)
        | Some bh =>
            let* data := bh_data bh in
            let entry := dirent_at data entry_off in
            let* _ := buffer_release bh in
            if negb (de_ino entry =? 0) && names_equal (de_name entry) name
            then ret (Some (Some (entry, block_no, entry_off))) else ret None
        end
    end) in
  ret (default None r).

Definition capyfs_dir_clear_entry (mnt : capyfs_mount) (dir_inode : capy_inode_disk) (dir_ino block_no entry_off : Z) : M Z :=
  let* bh := buffer_get (m_dev mnt) block_no in
  match bh with
  | None => ret (-1)
  | Some bh =>
      let* data := bh_data bh in
      let* _ := set_bh_data bh (wipe_dirent data entry_off) in
      let* _ := buffer_mark_dirty bh in
      let* _ := buffer_release bh in
      capyfs_write_inode_disk mnt dir_ino dir_inode
  end.

Definition capyfs_dir_is_empty (mnt : capyfs_mount) (dir_inode : capy_inode_disk) : M Z :=
  let total_entries := d_size dir_inode / DIRENT_SIZE in
  let* r := find_range 0 total_entries (fun i =>
    let* (block_no, _, _) := capyfs_get_data_block mnt dir_inode (i / entries_per_block) false false in
    match block_no with
    | None => ret (Some (-1))
    | Some block_no =>
        if block_no =? 0 then ret None else
        let* bh := buffer_get (m_dev mnt) block_no in
        match bh with
        | None => ret (Some (-1))
        | Some bh =>
            let* data := bh_data bh in
            let entry := dirent_at data (i `mod` entries_per_block) in
            let* _ := buffer_release bh in
            if negb (de_ino entry =? 0) then ret (Some 0) else ret None
        end
    end) in
  ret (default 1 r).

(** ** The operations of the file system interface *)
Definition is_dir_inode (dir : inode) : bool := truthy (Z.land (i_mode dir) VFS_MODE_DIR).

Definition capyfs_lookup (dir : inode) (name : list Z) : M (Z * option inode * inode) :=
  if negb (is_dir_inode dir) then ret (-1, None, dir) else
  match inode_mount dir with
  | None => ret (-1, None, dir)
  | Some mnt =>
      let* dir_disk := capyfs_read_inode_disk mnt (i_ino dir) in
      match dir_disk with
      | None => ret (-1, None, dir)
      | Some dir_disk =>
          let dir := set_i_size (d_size dir_disk) dir in
          let* found := capyfs_dir_find_entry mnt dir_disk name in
          match found with
          | None => ret (-1, None, dir)
          | Some (found, _, _) =>
              let* child_disk := capyfs_read_inode_disk mnt (de_ino found) in
              match child_disk with
              | None => ret (-1, None, dir)
              | Some child_disk =>
                  let* child := capyfs_create_vfs_inode mnt (de_ino found) child_disk in
                  match child with
                  | None => ret (-1, None, dir)
                  | Some child => ret (0, Some child, dir)
                  end
              end
          end
      end
  end.

Definition new_disk_inode (mode : Z) (meta : option vfs_metadata) : capy_inode_disk :=
  let '(uid, gid, perm) :=
    match meta with
    | Some m => (meta_uid m, meta_gid m, meta_perm m)
    | None => (0, 0, if truthy (Z.land mode VFS_MODE_DIR) then 493 else 420)
    end in
  mkDisk mode 1 0 uid gid perm 0 (zrep 12 0) 0.

Definition capyfs_create (dir : inode) (name : list Z) (mode : Z) (meta : option vfs_metadata)
    : M (Z * option inode * inode) :=
  if negb (is_dir_inode dir) then ret (-1, None, dir) else
  let name_len := cstring_length name in
  if (name_len =? 0) || (CAPYFS_NAME_MAX <=? name_len) then ret (-1, None, dir) else
  match inode_mount dir with
  | None => ret (-1, None, dir)
  | Some mnt =>
      let* dir_disk := capyfs_read_inode_disk mnt (i_ino dir) in
      match dir_disk with
      | None => ret (-1, None, dir)
      | Some dir_disk =>
          let* existing := capyfs_dir_find_entry mnt dir_disk name in
          match existing with
          | Some _ => ret (-1, None, dir)
          | None =>
              let* new_ino := capyfs_alloc_inode mnt in
              match new_ino with
              | None => ret (-1, None, dir)
              | Some new_ino =>
                  let new_disk := new_disk_inode mode meta in
                  let* rc := capyfs_write_inode_disk mnt new_ino new_disk in
                  if negb (rc =? 0) then let* _ := capyfs_free_inode_bit mnt new_ino in ret (-1, None, dir) else
                  let* (rc, dir_disk) := capyfs_dir_add_entry mnt dir_disk (i_ino dir) new_ino name in
                  if negb (rc =? 0) then let* _ := capyfs_free_inode_bit mnt new_ino in ret (-1, None, dir) else
                  let dir := set_i_size (d_size dir_disk) dir in
                  let* child := capyfs_create_vfs_inode mnt new_ino new_disk in
                  match child with
                  | None => let* _ := capyfs_free_inode_bit mnt new_ino in ret (-1, None, dir)
                  | Some child => ret (0, Some child, dir)
                  end
              end
          end
      end
  end.

Definition capyfs_create_pub := capyfs_create.

Definition capyfs_remove (dir : inode) (name : list Z) (is_dir : bool) : M (Z * inode) :=
  if negb (is_dir_inode dir) then ret (-1, dir) else
  match inode_mount dir with
  | None => ret (-1, dir)
  | Some mnt =>
      let* dir_disk := capyfs_read_inode_disk mnt (i_ino dir) in
      match dir_disk with
      | None => ret (-1, dir)
      | Some dir_disk =>
          let* found := capyfs_dir_find_entry mnt dir_disk name in
          match found with
          | None => ret (-1, dir)
          | Some (entry, block_no, entry_off) =>
              let* target := capyfs_read_inode_disk mnt (de_ino entry) in
              match target with
              | None => ret (-1, dir)
              | Some target =>
                  let target_is_dir := truthy (Z.land (d_mode target) VFS_MODE_DIR) in
                  let* ok :=
                    if is_dir then
                      if negb target_is_dir then ret false else
                      let* empty := capyfs_dir_is_empty mnt target in
                      ret (empty =? 1)
                    else ret (negb target_is_dir) in
                  if negb ok then ret (-1, dir) else
                  let* _ := capyfs_free_data_blocks mnt target in
                  let* rc := capyfs_dir_clear_entry mnt dir_disk (i_ino dir) block_no entry_off in
                  if negb (rc =? 0) then ret (-1, dir) else
                  let* rc := capyfs_write_inode_disk mnt (de_ino entry) zero_disk in
                  if negb (rc =? 0) then ret (-1, dir) else
                  let* _ := capyfs_free_inode_bit mnt (de_ino entry) in
                  ret (0, set_i_size (d_size dir_disk) dir)
              end
          end
      end
  end.

(** The callback sees the name field and the mode and carries a context. *)
Definition capyfs_iterate {C : Type} (dir : inode) (cb : list Z -> Z -> C -> Z * C) (ctx : C) : M (Z * C * inode) :=
  if negb (is_dir_inode dir) then ret (-1, ctx, dir) else
  match inode_mount dir with
  | None => ret (-1, ctx, dir)
  | Some mnt =>
      let* dir_disk := capyfs_read_inode_disk mnt (i_ino dir) in
      match dir_disk with
      | None => ret (-1, ctx, dir)
      | Some dir_disk =>
          let dir := set_i_size (d_size dir_disk) dir in
          let total_entries := d_size dir_disk / DIRENT_SIZE in
          let* r := while_n (Z.to_nat (total_entries + 1)) (fun '(i, ctx) =>
            if negb (i <? total_entries) then ret (inr (0, ctx)) else
            let* (block_no, _, _) := capyfs_get_data_block mnt dir_disk (i / entries_per_block) false false in
            match block_no with
            | None => ret (inr (-1, ctx))
            | Some block_no =>
                if block_no =? 0 then ret (inl (i + 1, ctx)) else
                let* bh := buffer_get (m_dev mnt) block_no in
                match bh with
                | None => ret (inr (-1, ctx))
                | Some bh =>
                    let* data := bh_data bh in
                    let entry := dirent_at data (i `mod` entries_per_block) in
                    let* _ := buffer_release bh in
                    if (de_ino entry =? 0) || ((de_name entry).[0] =? 0) then ret (inl (i + 1, ctx)) else
                    let* child_disk := capyfs_read_inode_disk mnt (de_ino entry) in
                    match child_disk with
                    | None => ret (inr (-1, ctx))
                    | Some child_disk =>
                        let '(rc, ctx) := cb (de_name entry) (d_mode child_disk) ctx in
                        if negb (rc =? 0) then ret (inr (0, ctx)) else ret (inl (i + 1, ctx))
                    end
                end
            end) (0, ctx) in
          let '(rc, ctx) := default (0, ctx) r in
          ret (rc, ctx, dir)
      end
  end.

(** The return value and the two directories. *)
Definition capyfs_rename_inode (src_dir : inode) (src_name : list Z) (dst_dir : inode) (dst_name : list Z)
    : M (Z * inode * inode) :=
  if negb (is_dir_inode src_dir) || negb (is_dir_inode dst_dir) then ret (-1, src_dir, dst_dir) else
  match inode_mount src_dir, inode_mount dst_dir with
  | Some src_mnt, Some dst_mnt =>
      if negb (m_addr src_mnt =? m_addr dst_mnt) then ret (-1, src_dir, dst_dir) else
      let* src_disk := capyfs_read_inode_disk src_mnt (i_ino src_dir) in
      match src_disk with
      | None => ret (-1, src_dir, dst_dir)
      | Some src_disk =>
          let* dst_disk := capyfs_read_inode_disk dst_mnt (i_ino dst_dir) in
          match dst_disk with
          | None => ret (-1, src_dir, dst_dir)
          | Some dst_disk =>
              let* found := capyfs_dir_find_entry src_mnt src_disk src_name in
              match found with
              | None => ret (-1, src_dir, dst_dir)
              | Some (entry, src_block, src_off) =>
                  if i_ino src_dir =? i_ino dst_dir then
                    if names_equal src_name dst_name then ret (0, src_dir, dst_dir) else
                    let* bh := buffer_get (m_dev src_mnt) src_block in
                    match bh with
                    | None => ret (-1, src_dir, dst_dir)
                    | Some bh =>
                        let* data := bh_data bh in
                        let* _ := set_bh_data bh (cstring_copy data (src_off * DIRENT_SIZE + 4) dst_name) in
                        let* _ := buffer_mark_dirty bh in
                        let* _ := buffer_release bh in
                        let* rc := capyfs_write_inode_disk src_mnt (i_ino src_dir) src_disk in
                        ret (rc, src_dir, dst_dir)
                    end
                  else
                    let* existing := capyfs_dir_find_entry dst_mnt dst_disk dst_name in
                    match existing with
                    | Some _ => ret (-1, src_dir, dst_dir)
                    | None =>
                        let* (rc, dst_disk) := capyfs_dir_add_entry dst_mnt dst_disk (i_ino dst_dir) (de_ino entry) dst_name in
                        if negb (rc =? 0) then ret (-1, src_dir, dst_dir) else
                        let dst_dir := set_i_size (d_size dst_disk) dst_dir in
                        let* rc := capyfs_dir_clear_entry src_mnt src_disk (i_ino src_dir) src_block src_off in
                        if negb (rc =? 0) then
                          let* undo := capyfs_dir_find_entry dst_mnt dst_disk dst_name in
                          let* _ :=
                            match undo with
                            | Some (_, dst_block, dst_off) =>
                                capyfs_dir_clear_entry dst_mnt dst_disk (i_ino dst_dir) dst_block dst_off
                            | None => ret (-1)
                            end in
                          ret (-1, src_dir, dst_dir)
                        else ret (0, set_i_size (d_size src_disk) src_dir, dst_dir)
                    end
              end
          end
      end
  | _, _ => ret (-1, src_dir, dst_dir)
  end.

Definition capyfs_stat_inode (i : inode) : vfs_stat :=
  mkStat (i_ino i) (i_size i) (i_uid i) (i_gid i) (i_mode i) (i_perm i).

Definition capyfs_set_metadata (i : inode) (meta : vfs_metadata) : M (Z * inode) :=
  match inode_mount i with
  | None => ret (-1, i)
  | Some mnt =>
      let* disk := capyfs_read_inode_disk mnt (i_ino i) in
      match disk with
      | None => ret (-1, i)
      | Some d =>
          let d := mkDisk (d_mode d) (d_links d) (d_size d) (meta_uid meta) (meta_gid meta) (meta_perm meta)
                     (d_reserved d) (direct d) (indirect d) in
          let* rc := capyfs_write_inode_disk mnt (i_ino i) d in
          if negb (rc =? 0) then ret (-1, i) else
          ret (0, set_i_meta (d_uid d) (d_gid d) (d_perm d) i)
      end
  end.

(** ** Formatting *)

(** The layout [capyfs_format] computes. *)
Definition format_layout (inode_count block_count : Z) : capy_super :=
  let block_bitmap_blocks := u32 (block_count + bits_per_block - 1) / bits_per_block in
  let inode_bitmap_blocks := u32 (inode_count + bits_per_block - 1) / bits_per_block in
  let inode_table_blocks := u32 (u64 (inode_count * INODE_SIZE + CAPYFS_BLOCK_SIZE - 1) / CAPYFS_BLOCK_SIZE) in
  let bmap_start := 1 in
  let imap_start := u32 (bmap_start + block_bitmap_blocks) in
  let inode_start := u32 (imap_start + inode_bitmap_blocks) in
  let data_start := u32 (inode_start + inode_table_blocks) in
  mkSuper CAPYFS_MAGIC CAPYFS_VERSION CAPYFS_BLOCK_SIZE block_count inode_count bmap_start imap_start inode_start data_start.

Definition store_u32_le_volatile (b : list Z) (off v : Z) : list Z := store_le b off 4 v.

Definition format_super (l : capy_super) : list Z :=
  let b := zrep CAPYFS_BLOCK_SIZE 0 in
  let b := store_u32_le_volatile b 0 (magic l) in
  let b := store_u32_le_volatile b 4 (version l) in
  let b := store_u32_le_volatile b 8 (block_size l) in
  let b := store_u32_le_volatile b 12 (block_count l) in
  let b := store_u32_le_volatile b 16 (inode_count l) in
  let b := store_u32_le_volatile b 20 (bmap_start l) in
  let b := store_u32_le_volatile b 24 (imap_start l) in
  let b := store_u32_le_volatile b 28 (inode_start l) in
  store_u32_le_volatile b 32 (data_start l).

(** The bitmap block [map] with the metadata blocks marked. *)
Definition reserved_bits (used_blocks map : Z) : list Z :=
  let bit_start := u32 (map * bits_per_block) in
  let bit_end := Z.min (u32 (bit_start + bits_per_block)) used_blocks in
  for_range bit_start bit_end (fun blk s =>
    let rel := blk - bit_start in aset s (rel / 8) (Z.lor s.[rel / 8] (u8 (Z.shiftl 1 (rel `mod` 8)))))
    (zrep CAPYFS_BLOCK_SIZE 0).

Definition root_disk : capy_inode_disk := mkDisk VFS_MODE_DIR 1 0 0 0 493 0 (zrep 12 0) 0.

Definition capyfs_format (dev dev_block_size dev_block_count inode_count block_count : Z) : M Z :=
  if negb (dev_block_size =? CAPYFS_BLOCK_SIZE) then ret (-10) else
  let block_count := if (block_count =? 0) || (dev_block_count <? block_count) then dev_block_count else block_count in
  let inode_count := if inode_count =? 0 then 64 else inode_count in
  let l := format_layout inode_count block_count in
  if block_count <=? data_start l then ret (-11) else
  let* _ := buffer_cache_invalidate dev in
  let* rc := block_device_write dev 0 (format_super l) in
  if negb (rc =? 0) then ret (-12) else
  let* r := find_range (bmap_start l) (data_start l) (fun i =>
    let* rc := block_device_write dev i (zrep CAPYFS_BLOCK_SIZE 0) in
    ret (if negb (rc =? 0) then Some (-13) else None)) in
  match r with
  | Some e => ret e
  | None =>
      let* r := find_range 0 (imap_start l - bmap_start l) (fun map =>
        let* rc := block_device_write dev (u32 (bmap_start l + map)) (reserved_bits (data_start l) map) in
        ret (if negb (rc =? 0) then Some (-14) else None)) in
      match r with
      | Some e => ret e
      | None =>
          let* rc := block_device_write dev (imap_start l) (aset (zrep CAPYFS_BLOCK_SIZE 0) 0 1) in
          if negb (rc =? 0) then ret (-15) else
          let* rc := block_device_write dev (inode_start l) (splice (zrep CAPYFS_BLOCK_SIZE 0) 0 (inode_bytes root_disk)) in
          if negb (rc =? 0) then ret (-16) else
          let* _ := buffer_cache_invalidate dev in
          ret 0
      end
  end.

(** ** Mounting

    The new mount lies at [addr]; [hook] is the call of the journal's mount hook. *)
Definition mount_capyfs (dev dev_block_size addr : Z) (hook : Z -> list Z -> M unit)
    : M (Z * option (capyfs_mount * inode)) :=
  if negb (dev_block_size =? CAPYFS_BLOCK_SIZE) then ret (-11, None) else
  let* bh := buffer_get dev 0 in
  match bh with
  | None => ret (-12, None)
  | Some bh =>
      let* data := bh_data bh in
      let disk_super := super_of_bytes data in
      if negb (magic disk_super =? CAPYFS_MAGIC) || negb (block_size disk_super =? CAPYFS_BLOCK_SIZE)
      then let* _ := buffer_release bh in ret (-13, None) else
      let* ok := kalloc in
      if negb ok then let* _ := buffer_release bh in ret (-14, None) else
      let mnt := mkMount addr dev disk_super in
      let* _ := buffer_release bh in
      let* root_disk := capyfs_read_inode_disk mnt 0 in
      match root_disk with
      | None => ret (-15, None)
      | Some root_disk =>
          let* root_inode := capyfs_create_vfs_inode mnt 0 root_disk in
          match root_inode with
          | None => ret (-16, None)
          | Some root_inode =>
              let* ok := kalloc in
              if negb ok then ret (-17, None) else
              let* _ := hook (data_start disk_super) (super_bytes disk_super) in
              ret (0, Some (mnt, root_inode))
          end
      end
  end.
End capyfs.
