(* ===== verification/CapyFsDisk.v ===== *)
(** * A CAPYFS disk as inodes, bitmaps and blocks

    What the inode and bitmap operations of [CapyFs] do to the disk: the lemmas here
    replace the bytes of the metadata blocks by an abstract state ([adisk]) of inodes,
    two sets of marked numbers and the contents of the data blocks.  Proofs step
    through a program with [wp]: one lemma for each primitive. *)
From S2P Require Import Prelude BufferCache Buffers CapyFs.
Local Open Scope capy_scope.

#[local] Opaque le_bytes.

(** ** Bytes *)
Lemma load_le_range b off n : bytes_ok b -> 0 <= off -> 0 <= load_le b off n < 256 ^ Z.of_nat n.
Proof.
  intros Hb Ho. unfold load_le. assert (Hs : bytes_ok (sub_bytes b off (Z.of_nat n))).
  { unfold sub_bytes, ztake, zdrop. by apply Forall_take, Forall_drop. }
  pose proof (le_val_range _ Hs) as Hr.
  assert (Hl : zlen (sub_bytes b off (Z.of_nat n)) <= Z.of_nat n).
  { unfold sub_bytes, ztake, zlen. rewrite length_take. lia. }
  pose proof (zlen_nonneg (sub_bytes b off (Z.of_nat n))).
  pose proof (Z.pow_le_mono_r 256 (zlen (sub_bytes b off (Z.of_nat n))) (Z.of_nat n)). lia.
Qed.

Lemma load_le_here n v y : 0 <= v < 256 ^ Z.of_nat n -> load_le (le_bytes n v ++ y) 0 n = v.
Proof. intros Hv. unfold load_le. rewrite sub_app_all by (by rewrite zlen_le_bytes). by apply le_val_bytes. Qed.

Lemma load_le_skip m v y off n : Z.of_nat m <= off -> load_le (le_bytes m v ++ y) off n = load_le y (off - Z.of_nat m) n.
Proof. intros. unfold load_le. rewrite sub_app_r by (rewrite zlen_le_bytes; lia). by rewrite zlen_le_bytes. Qed.

Lemma load_store_same b off n v : 0 <= off -> off + Z.of_nat n <= zlen b -> 0 <= v < 256 ^ Z.of_nat n ->
  load_le (store_le b off n v) off n = v.
Proof.
  intros Ho Hl Hv. unfold load_le, store_le. pose proof (zlen_le_bytes n v) as E.
  rewrite <- E. rewrite sub_splice_same by lia. by apply le_val_bytes.
Qed.

Lemma load_store_other b off n v off' n' : 0 <= off -> off + Z.of_nat n <= zlen b -> 0 <= off' ->
  off' + Z.of_nat n' <= zlen b -> off' + Z.of_nat n' <= off \/ off + Z.of_nat n <= off' ->
  load_le (store_le b off n v) off' n' = load_le b off' n'.
Proof. intros. unfold load_le, store_le. pose proof (zlen_le_bytes n v). rewrite sub_splice_other; [done | lia..]. Qed.

Lemma zlen_store b off n v : 0 <= off -> off + Z.of_nat n <= zlen b -> zlen (store_le b off n v) = zlen b.
Proof. intros. unfold store_le. rewrite zlen_splice; rewrite ?zlen_le_bytes; lia. Qed.

Lemma store_bytes b off n v : bytes_ok b -> bytes_ok (store_le b off n v).
Proof. intros. apply Forall_splice; [done | apply le_bytes_ok]. Qed.

Lemma sub_bytes_ok b off n : bytes_ok b -> bytes_ok (sub_bytes b off n).
Proof. intros. unfold sub_bytes, ztake, zdrop. by apply Forall_take, Forall_drop. Qed.

(** ** Inode images *)
Record inode_ok (d : capy_inode_disk) : Prop := {
  io_mode : 0 <= d_mode d < 2 ^ 16; io_links : 0 <= d_links d < 2 ^ 16; io_size : 0 <= d_size d < 2 ^ 32;
  io_uid : 0 <= d_uid d < 2 ^ 32; io_gid : 0 <= d_gid d < 2 ^ 32; io_perm : 0 <= d_perm d < 2 ^ 16;
  io_reserved : 0 <= d_reserved d < 2 ^ 16; io_direct : zlen (direct d) = 12;
  io_ptrs : Forall (fun b => 0 <= b < 2 ^ 32) (direct d); io_indirect : 0 <= indirect d < 2 ^ 32 }.

Lemma inode_of_bytes_ok b : bytes_ok b -> inode_ok (inode_of_bytes b).
Proof.
  intros Hb. pose proof (fun off n => load_le_range b off n Hb) as H.
  constructor; cbn [inode_of_bytes d_mode d_links d_size d_uid d_gid d_perm d_reserved direct indirect];
    try (apply (H _ 2%nat); lia); try (apply (H _ 4%nat); lia).
  - apply (zlen_map_seqZ (fun k => load_le b (20 + 4 * k) 4) 0 12). lia.
  - apply Forall_fmap, Forall_forall. intros k Hk. apply elem_of_seqZ in Hk. apply (H _ 4%nat). lia.
Qed.

Ltac skip_fields := repeat (rewrite load_le_skip by (cbn; lia); simpl Z.of_nat; simpl Z.sub).

Lemma inode_bytes_inv d : inode_ok d -> inode_of_bytes (inode_bytes d) = d.
Proof.
  intros [Hm Hl Hs Hu Hg Hp Hr Hd Hf Hi]. destruct d as [m l s u g p r dir ind].
  cbn [d_mode d_links d_size d_uid d_gid d_perm d_reserved direct indirect] in *.
  do 12 (destruct dir as [|? dir]; [done|]). destruct dir; [|unfold zlen in Hd; simpl in Hd; lia].
  unfold inode_bytes, inode_of_bytes. cbn [d_mode d_links d_size d_uid d_gid d_perm d_reserved direct indirect fmap list_fmap concat].
  rewrite <- !app_assoc. repeat (apply Forall_cons in Hf as [? Hf]).
  change (seqZ 0 12) with [0; 1; 2; 3; 4; 5; 6; 7; 8; 9; 10; 11]. cbn [fmap list_fmap].
  rewrite <- (app_nil_r (le_bytes 4 ind)).
  f_equal; try (skip_fields; apply load_le_here; cbn; lia).
  repeat (apply (f_equal2 cons); [skip_fields; apply load_le_here; cbn; lia|]). done.
Qed.

Lemma zlen_inode_bytes d : inode_ok d -> zlen (inode_bytes d) = INODE_SIZE.
Proof.
  intros Hd. unfold inode_bytes. rewrite !zlen_app, !zlen_le_bytes.
  rewrite (zlen_concat (le_bytes 4 <$> direct d) 4).
  - unfold zlen. rewrite length_fmap. pose proof (io_direct d Hd) as E. unfold zlen in E. unfold INODE_SIZE. lia.
  - apply Forall_fmap, Forall_forall. intros x _. apply zlen_le_bytes.
Qed.

Lemma inode_bytes_bytes d : bytes_ok (inode_bytes d).
Proof.
  unfold inode_bytes. repeat apply Forall_app_2; try apply le_bytes_ok.
  apply Forall_concat, Forall_fmap, Forall_forall. intros x _. apply le_bytes_ok.
Qed.

(** ** Bits *)
Definition bit_at (d : list Z) (rel : Z) : bool := bit_set d.[rel / 8] (rel `mod` 8).

Lemma bit_set_testbit v k : 0 <= k -> bit_set v k = Z.testbit v k.
Proof. intros. unfold bit_set, truthy. by rewrite land_bit, negb_involutive. Qed.

Lemma rel_parts r : 0 <= r < bits_per_block -> 0 <= r / 8 < CAPYFS_BLOCK_SIZE /\ 0 <= r `mod` 8 < 8.
Proof.
  intros. unfold bits_per_block, CAPYFS_BLOCK_SIZE in *. split; [|apply Z.mod_pos_bound; lia].
  split; [apply Z.div_pos; lia | apply Z.div_lt_upper_bound; lia].
Qed.

Lemma rel_inj r r' : 0 <= r -> 0 <= r' -> r / 8 = r' / 8 -> r `mod` 8 = r' `mod` 8 -> r = r'.
Proof. intros _ _ E1 E2. rewrite (Z.div_mod r 8), (Z.div_mod r' 8), E1, E2 by lia. done. Qed.

Lemma mark_bit_at d r r' : zlen d = CAPYFS_BLOCK_SIZE -> 0 <= r < bits_per_block -> 0 <= r' < bits_per_block ->
  bit_at (mark_bit d (r / 8) (r `mod` 8)) r' = (r' =? r) || bit_at d r'.
Proof.
  intros Hl Hr Hr'. destruct (rel_parts r Hr), (rel_parts r' Hr'). unfold bit_at, mark_bit.
  rewrite aget_aset by lia. rewrite !bit_set_testbit by lia. destruct (Z.eqb_spec (r' / 8) (r / 8)) as [E|E].
  - rewrite testbit_set by lia. destruct (Z.eqb_spec r' r) as [->|Hne]; [by rewrite Z.eqb_refl|].
    rewrite E. destruct (Z.eqb_spec (r' `mod` 8) (r `mod` 8)) as [E'|E']; [|done].
    exfalso. apply Hne, rel_inj; lia.
  - destruct (Z.eqb_spec r' r) as [->|Hne]; done.
Qed.

Lemma clear_bit_at d r r' : zlen d = CAPYFS_BLOCK_SIZE -> 0 <= r < bits_per_block -> 0 <= r' < bits_per_block ->
  bit_at (clear_bit d (r / 8) (r `mod` 8)) r' = negb (r' =? r) && bit_at d r'.
Proof.
  intros Hl Hr Hr'. destruct (rel_parts r Hr), (rel_parts r' Hr'). unfold bit_at, clear_bit.
  rewrite aget_aset by lia. rewrite !bit_set_testbit by lia. destruct (Z.eqb_spec (r' / 8) (r / 8)) as [E|E].
  - rewrite Z.land_spec, testbit_u8, Z.lnot_spec, Z.shiftl_1_l, Z.pow2_bits_eqb by lia. rewrite E.
    destruct (Z.eqb_spec (r `mod` 8) (r' `mod` 8)) as [E'|E'].
    + destruct (Z.eqb_spec r' r) as [->|Hne]; [by rewrite andb_false_r|]. exfalso. apply Hne, rel_inj; lia.
    + rewrite andb_true_r. destruct (Z.eqb_spec r' r) as [->|Hne]; [lia | done].
  - destruct (Z.eqb_spec r' r) as [->|Hne]; done.
Qed.

Lemma mark_bit_bytes d r : bytes_ok d -> 0 <= r < 8 -> forall i, bytes_ok (mark_bit d i r).
Proof.
  intros Hd Hr i. apply aset_byte; [done|]. pose proof (aget_byte d i Hd) as [H1 H2]. split.
  - apply Z.lor_nonneg. split; [done|]. apply Z.shiftl_nonneg. lia.
  - pose proof (Z.log2_lor d.[i] (Z.shiftl 1 r) H1 ltac:(apply Z.shiftl_nonneg; lia)) as E.
    destruct (Z.eq_dec (Z.lor d.[i] (Z.shiftl 1 r)) 0) as [->|Hnz]; [lia|].
    change 256 with (2 ^ 8). apply Z.log2_lt_pow2; [|rewrite E].
    + assert (0 <= Z.lor d.[i] (Z.shiftl 1 r)) by (apply Z.lor_nonneg; split; [done | apply Z.shiftl_nonneg; lia]). lia.
    + apply Z.max_lub_lt; [destruct (Z.eq_dec d.[i] 0) as [->|]; [done | apply Z.log2_lt_pow2; lia]|].
      rewrite Z.shiftl_1_l, Z.log2_pow2 by lia. lia.
Qed.

Lemma clear_bit_bytes d i r : bytes_ok d -> bytes_ok (clear_bit d i r).
Proof.
  intros Hd. apply aset_byte; [done|]. pose proof (aget_byte d i Hd) as [H1 H2].
  set (m := u8 (Z.lnot (Z.shiftl 1 r))). pose proof (u8_range (Z.lnot (Z.shiftl 1 r))) as Hm. fold m in Hm.
  assert (H0 : 0 <= Z.land d.[i] m) by (apply Z.land_nonneg; by left). split; [done|].
  destruct (Z.eq_dec (Z.land d.[i] m) 0) as [->|Hnz]; [lia|]. change 256 with (2 ^ 8). apply Z.log2_lt_pow2; [lia|].
  pose proof (Z.log2_land d.[i] m H1 (proj1 Hm)). assert (0 < d.[i]).
  { destruct (Z.eq_dec d.[i] 0) as [E|]; [|lia]. by rewrite E, Z.land_0_l in Hnz. }
  pose proof (Z.log2_lt_pow2 d.[i] 8 ltac:(done)). lia.
Qed.

(** ** Stepping through a program *)
Section wp.
Context {S : Type} `{!Buffers S}.
Implicit Types (s : fsys S).

Definition wp {A} (m : M A) s (Q : A -> fsys S -> Prop) : Prop := let '(a, s) := m s in Q a s.

Lemma wp_ret {A} (a : A) s (Q : A -> fsys S -> Prop) : Q a s -> wp (ret a) s Q.
Proof. done. Qed.

Lemma wp_bind {A B} (m : M A) (k : A -> M B) s Q : wp m s (fun a s => wp (k a) s Q) -> wp (bind m k) s Q.
Proof. unfold wp, bind. by destruct (m s). Qed.

Lemma wp_mono {A} (m : M A) s (Q Q' : A -> fsys S -> Prop) : wp m s Q -> (forall a s', Q a s' -> Q' a s') -> wp m s Q'.
Proof. unfold wp. destruct (m s). auto. Qed.

Lemma wp_elim {A} (m : M A) s (Q : A -> fsys S -> Prop) : wp m s Q -> exists a s', m s = (a, s') /\ Q a s'.
Proof. unfold wp. destruct (m s) as [a s']. intros H. by exists a, s'. Qed.

(** A search: while every step before [hi] continues. *)
Lemma wp_find {R} (body : Z -> M (option R)) lo hi s (I : Z -> fsys S -> Prop) (Q : option R -> fsys S -> Prop) :
  lo <= hi -> I lo s ->
  (forall i s, lo <= i < hi -> I i s -> wp (body i) s (fun r s => match r with None => I (i + 1) s | Some _ => Q r s end)) ->
  (forall s, I hi s -> Q None s) -> wp (find_range lo hi body) s Q.
Proof.
  intros Hle H0 Hstep Hend. unfold find_range. remember (Z.to_nat (hi - lo)) as n eqn:En.
  revert lo s Hle En H0 Hstep. induction n as [|n IH]; intros lo s Hle En H0 Hstep; cbn [find_n].
  - apply wp_ret, Hend. by replace hi with lo by lia.
  - apply wp_bind. eapply wp_mono; [apply Hstep; [lia | done]|]. intros [r|] s' H; [by apply wp_ret|].
    apply IH; [lia | lia | done |]. intros i s'' Hi. apply Hstep. lia.
Qed.

Lemma wp_each {T} (body : Z -> T -> M T) lo hi t s (I : Z -> T -> fsys S -> Prop) (Q : T -> fsys S -> Prop) :
  lo <= hi -> I lo t s ->
  (forall i t s, lo <= i < hi -> I i t s -> wp (body i t) s (fun t s => I (i + 1) t s)) ->
  (forall t s, I hi t s -> Q t s) -> wp (each_range lo hi body t) s Q.
Proof.
  intros Hle H0 Hstep Hend. unfold each_range. remember (Z.to_nat (hi - lo)) as n eqn:En.
  revert lo t s Hle En H0 Hstep. induction n as [|n IH]; intros lo t s Hle En H0 Hstep; cbn [each_n].
  - apply wp_ret, Hend. by replace hi with lo by lia.
  - apply wp_bind. eapply wp_mono; [apply Hstep; [lia | done]|]. intros t' s' H.
    apply IH; [lia | lia | done |]. intros i t'' s'' Hi. apply Hstep. lia.
Qed.

(** A loop that a measure bounded by the fuel drives. *)
Lemma wp_while {T R} (body : T -> M (T + R)) fuel t s (I : T -> fsys S -> Prop) (m : T -> Z) (Q : option R -> fsys S -> Prop) :
  I t s -> m t < Z.of_nat fuel -> 
  (forall t s, I t s -> 0 <= m t /\ wp (body t) s (fun r s => match r with inl t' => I t' s /\ m t' < m t | inr r => Q (Some r) s end)) ->
  wp (while_n fuel body t) s Q.
Proof.
  intros H0 Hm Hstep. revert t s H0 Hm. induction fuel as [|fuel IH]; intros t s H0 Hm; cbn [while_n].
  - destruct (Hstep t s H0). lia.
  - apply wp_bind. destruct (Hstep t s H0) as [Hnn Hw]. eapply wp_mono; [exact Hw|].
    intros [t'|r] s' H; [|by apply wp_ret]. destruct H as [H Hlt]. apply IH; [done | lia].
Qed.
End wp.

Lemma wp_if {S} `{!Buffers S} {A} (b : bool) (m1 m2 : M A) (s : fsys S) Q :
  (b = true -> wp m1 s Q) -> (b = false -> wp m2 s Q) -> wp (if b then m1 else m2) s Q.
Proof. destruct b; auto. Qed.

(** ** The primitives over one device *)
Section blocks.
Context {S : Type} `{!Buffers S} (mnt : capyfs_mount) (count : Z) `{!BufferSpec (S := S) (m_dev mnt) count}.
Implicit Types (s : fsys S) (V : Z -> list Z) (P : list (Z * Z)) (Y : option Z) (i n : Z).

Definition setv (V : Z -> list Z) (n : Z) (d : list Z) : Z -> list Z := fun m => if m =? n then d else V m.

(** The pins and the contents of every block. *)
Definition st P Y V s : Prop := binv P Y (bufs s) /\ (forall m, bview (bufs s) m = V m).

Lemma wp_get P Y V s n (Q : option Z -> fsys S -> Prop) : st P Y V s -> 0 <= n < count -> (length P < MAX_PINS)%nat ->
  (forall i s', st ((i, n) :: P) Y V s' -> mem s' = mem s -> Q (Some i) s') -> wp (buffer_get (m_dev mnt) n) s Q.
Proof.
  intros [Hb Hv] Hn Hl HQ. destruct (b_get_ok P Y (bufs s) n Hb Hn Hl) as (i & b' & E & Hb' & Hv').
  unfold wp, buffer_get, on_bufs. rewrite E. apply HQ; [|done]. split; [done|]. intros m. by rewrite <- Hv, <- Hv'.
Qed.

Lemma wp_data P Y V s i n (Q : list Z -> fsys S -> Prop) : st P Y V s -> (i, n) ∈ P -> Q (V n) s -> wp (bh_data i) s Q.
Proof. intros [Hb Hv] Hin HQ. unfold wp, bh_data. by rewrite (b_data_ok P Y (bufs s) i n Hb Hin), Hv. Qed.

(** A store and its mark. *)
Lemma wp_modify {B} P Y V s i n d (k : unit -> M B) Q : st P Y V s -> (i, n) ∈ P -> zlen d = BUFFER_BLOCK_SIZE ->
  (forall s', st P Y (setv V n d) s' -> mem s' = mem s -> wp (k tt) s' Q) ->
  wp (bind (set_bh_data i d) (fun _ => bind (buffer_mark_dirty i) k)) s Q.
Proof.
  intros [Hb Hv] Hin Hd HQ. destruct (b_modify_ok P Y (bufs s) i n d Hb Hin Hd) as [Hb' Hv'].
  apply wp_bind. unfold wp at 1, set_bh_data, on_bufs. apply wp_bind. unfold wp at 1, buffer_mark_dirty, on_bufs. cbn [bufs].
  apply HQ; [|done]. split; [done|]. intros m. unfold setv. rewrite <- Hv. apply Hv'.
Qed.

Lemma wp_release P Y V s i n (Q : unit -> fsys S -> Prop) : st ((i, n) :: P) Y V s -> Y <> Some i ->
  (forall s', st P Y V s' -> mem s' = mem s -> Q tt s') -> wp (buffer_release i) s Q.
Proof.
  intros [Hb Hv] HY HQ. destruct (b_release_ok P Y (bufs s) i n Hb HY) as [Hb' Hv'].
  unfold wp, buffer_release, on_bufs. apply HQ; [|done]. split; [done|]. intros m. rewrite <- Hv. apply Hv'.
Qed.

Lemma wp_sync P V s (Q : Z -> fsys S -> Prop) : st P None V s ->
  (forall rc s', st P None V s' -> mem s' = mem s -> Q rc s') -> wp (buffer_cache_sync (m_dev mnt)) s Q.
Proof.
  intros [Hb Hv] HQ. destruct (b_sync_ok P (bufs s) Hb) as [Hb' Hv'].
  unfold wp, buffer_cache_sync, on_bufs. destruct (b_sync (m_dev mnt) (bufs s)) as [rc b']. cbn [snd] in *.
  apply HQ; [|done]. split; [done|]. intros m. rewrite <- Hv. apply Hv'.
Qed.

Lemma st_len P Y V s n : st P Y V s -> 0 <= n < count -> zlen (V n) = BUFFER_BLOCK_SIZE.
Proof. intros [Hb Hv] Hn. rewrite <- Hv. by eapply b_len. Qed.

(** Handles of different blocks differ. *)
Lemma st_handle P Y V s i n j m : st P Y V s -> (i, n) ∈ P -> (j, m) ∈ P -> n <> m -> i <> j.
Proof. intros [Hb _] Hi Hj Hne ->. by apply Hne, (b_inj P Y (bufs s) j). Qed.

Lemma st_ext P Y V V' s : (forall m, V m = V' m) -> st P Y V s -> st P Y V' s.
Proof. intros E [? H]. split; [done|]. intros m. by rewrite H. Qed.
End blocks.

(** ** The abstract disk *)
Definition fupd {A} (f : Z -> A) (k : Z) (v : A) : Z -> A := fun x => if x =? k then v else f x.

Record adisk := mkAdisk {
  a_inode : Z -> capy_inode_disk;
  a_used : Z -> bool;
  a_iused : Z -> bool;
  a_data : Z -> list Z }.

Definition set_inode (ino : Z) (d : capy_inode_disk) (a : adisk) : adisk :=
  mkAdisk (fupd (a_inode a) ino d) (a_used a) (a_iused a) (a_data a).
Definition set_used (b : Z) (v : bool) (a : adisk) : adisk :=
  mkAdisk (a_inode a) (fupd (a_used a) b v) (a_iused a) (a_data a).
Definition set_iused (ino : Z) (v : bool) (a : adisk) : adisk :=
  mkAdisk (a_inode a) (a_used a) (fupd (a_iused a) ino v) (a_data a).
Definition set_data (b : Z) (d : list Z) (a : adisk) : adisk :=
  mkAdisk (a_inode a) (a_used a) (a_iused a) (fupd (a_data a) b d).

(** The metadata regions hold what they are for, in this order, before the data. *)
Record layout_ok (l : capy_super) (count : Z) : Prop := {
  lo_first : 0 < bmap_start l;
  lo_bmap b : 0 <= b < block_count l -> bmap_start l + b / bits_per_block < imap_start l;
  lo_imap i : 0 <= i < inode_count l -> imap_start l + i / bits_per_block < inode_start l;
  lo_inode i : 0 <= i < inode_count l -> inode_start l + i / per_block < data_start l;
  lo_data : 0 <= data_start l <= block_count l;
  lo_imap_start : bmap_start l <= imap_start l <= inode_start l;
  lo_inode_start : inode_start l <= data_start l;
  lo_count : block_count l <= count < 2 ^ 32;
  lo_inodes : 0 < inode_count l < 2 ^ 32 }.

Section disk.
Context {S : Type} `{!Buffers S} (mnt : capyfs_mount) (count : Z) `{!BufferSpec (S := S) (m_dev mnt) count}.
Local Abbreviation l := (super mnt).
Context (Hlay : layout_ok l count).
Implicit Types (s : fsys S) (V : Z -> list Z) (P : list (Z * Z)) (Y : option Z) (i n b ino : Z) (a : adisk).

Definition inode_at V ino : capy_inode_disk :=
  inode_of_bytes (sub_bytes (V (inode_start l + ino / per_block)) (ino `mod` per_block * INODE_SIZE) INODE_SIZE).
Definition used_at V b : bool := bit_at (V (bmap_start l + b / bits_per_block)) (b `mod` bits_per_block).
Definition iused_at V ino : bool := bit_at (V (imap_start l + ino / bits_per_block)) (ino `mod` bits_per_block).

Definition data_range b : Prop := data_start l <= b < block_count l.

Record shows V a : Prop := {
  sh_bytes n : 0 <= n < count -> bytes_ok (V n);
  sh_inode ino : 0 <= ino < inode_count l -> inode_at V ino = a_inode a ino;
  sh_used b : 0 <= b < block_count l -> used_at V b = a_used a b;
  sh_iused ino : 0 <= ino < inode_count l -> iused_at V ino = a_iused a ino;
  sh_data b : data_range b -> V b = a_data a b }.

(** A loose buffer is one of a data block. *)
Definition loose_ok P Y : Prop := forall j, Y = Some j -> exists b, (j, b) ∈ P /\ data_range b.

Definition dsk P Y a s : Prop := loose_ok P Y /\ exists V, st mnt count P Y V s /\ shows V a.

Lemma bits_parts b : 0 <= b -> 0 <= b / bits_per_block /\ 0 <= b `mod` bits_per_block < bits_per_block.
Proof. intros. unfold bits_per_block, CAPYFS_BLOCK_SIZE. split; [apply Z.div_pos; lia | apply Z.mod_pos_bound; lia]. Qed.

Lemma inode_parts ino : 0 <= ino -> 0 <= ino / per_block /\ 0 <= ino `mod` per_block * INODE_SIZE /\
  ino `mod` per_block * INODE_SIZE + INODE_SIZE <= CAPYFS_BLOCK_SIZE.
Proof.
  intros. change per_block with 56. unfold INODE_SIZE, CAPYFS_BLOCK_SIZE. pose proof (Z.mod_pos_bound ino 56).
  split; [apply Z.div_pos; lia | lia].
Qed.

Lemma map_block_range b : 0 <= b < block_count l -> bmap_start l <= bmap_start l + b / bits_per_block < imap_start l.
Proof. intros Hb. pose proof (lo_bmap _ _ Hlay b Hb). pose proof (bits_parts b). lia. Qed.
Lemma imap_block_range ino : 0 <= ino < inode_count l -> imap_start l <= imap_start l + ino / bits_per_block < inode_start l.
Proof. intros Hb. pose proof (lo_imap _ _ Hlay ino Hb). pose proof (bits_parts ino). lia. Qed.
Lemma inode_block_range ino : 0 <= ino < inode_count l -> inode_start l <= inode_start l + ino / per_block < data_start l.
Proof. intros Hb. pose proof (lo_inode _ _ Hlay ino Hb). pose proof (inode_parts ino). lia. Qed.

Lemma regions : 0 < bmap_start l /\ bmap_start l <= imap_start l <= inode_start l /\ inode_start l <= data_start l <= block_count l /\
  block_count l <= count < 2 ^ 32.
Proof. destruct Hlay. lia. Qed.

(** *** What a store into each region changes *)
Lemma shows_data V a b d : shows V a -> data_range b -> bytes_ok d -> shows (setv V b d) (set_data b d a).
Proof.
  intros H Hb Hd. pose proof regions. unfold data_range in *. constructor; unfold setv; cbn [a_inode a_used a_iused a_data set_data].
  - intros n Hn. destruct (n =? b); [done | by apply (sh_bytes _ _ H)].
  - intros ino Hi. rewrite <- (sh_inode _ _ H ino Hi). unfold inode_at. pose proof (inode_block_range ino Hi).
    by replace (inode_start l + ino / per_block =? b) with false by lia.
  - intros c Hc. rewrite <- (sh_used _ _ H c Hc). unfold used_at. pose proof (map_block_range c Hc).
    by replace (bmap_start l + c / bits_per_block =? b) with false by lia.
  - intros ino Hi. rewrite <- (sh_iused _ _ H ino Hi). unfold iused_at. pose proof (imap_block_range ino Hi).
    by replace (imap_start l + ino / bits_per_block =? b) with false by lia.
  - intros c Hc. unfold fupd. destruct (c =? b); [done | by apply (sh_data _ _ H)].
Qed.

(** A bitmap block of either map with bit [r] changed to [v]. *)
Definition flips (d d' : list Z) (r : Z) (v : bool) : Prop :=
  bytes_ok d' /\ zlen d' = zlen d /\
  forall r', 0 <= r' < bits_per_block -> bit_at d' r' = if r' =? r then v else bit_at d r'.

Lemma same_bit b c : 0 <= b -> 0 <= c -> (c / bits_per_block =? b / bits_per_block) && (c `mod` bits_per_block =? b `mod` bits_per_block) = (c =? b).
Proof.
  intros. assert (Hb : bits_per_block <> 0) by done.
  destruct (Z.eqb_spec c b) as [->|Hne]; [by rewrite !Z.eqb_refl|].
  destruct (Z.eqb_spec (c / bits_per_block) (b / bits_per_block)) as [E1|]; [|done].
  destruct (Z.eqb_spec (c `mod` bits_per_block) (b `mod` bits_per_block)) as [E2|]; [|done].
  exfalso. apply Hne. by rewrite (Z.div_mod c bits_per_block), (Z.div_mod b bits_per_block), E1, E2 by done.
Qed.

Lemma shows_used V a b v d : shows V a -> 0 <= b < block_count l ->
  flips (V (bmap_start l + b / bits_per_block)) d (b `mod` bits_per_block) v ->
  shows (setv V (bmap_start l + b / bits_per_block) d) (set_used b v a).
Proof.
  intros H Hb (Hd & _ & Hf). pose proof regions. pose proof (map_block_range b Hb).
  constructor; unfold setv; cbn [a_inode a_used a_iused a_data set_used].
  - intros n Hn. destruct (n =? _); [done | by apply (sh_bytes _ _ H)].
  - intros ino Hi. rewrite <- (sh_inode _ _ H ino Hi). unfold inode_at. pose proof (inode_block_range ino Hi).
    by replace (inode_start l + ino / per_block =? bmap_start l + b / bits_per_block) with false by lia.
  - intros c Hc. unfold used_at, fupd. rewrite <- (same_bit b c) by lia.
    destruct (Z.eqb_spec (bmap_start l + c / bits_per_block) (bmap_start l + b / bits_per_block)) as [E|E].
    + rewrite Hf by (apply bits_parts; lia). replace (c / bits_per_block =? b / bits_per_block) with true by lia.
      cbn [andb]. destruct (_ =? _); [done|]. rewrite <- (sh_used _ _ H c Hc). unfold used_at. by rewrite E.
    + replace (c / bits_per_block =? b / bits_per_block) with false by lia. by apply (sh_used _ _ H).
  - intros ino Hi. rewrite <- (sh_iused _ _ H ino Hi). unfold iused_at. pose proof (imap_block_range ino Hi).
    by replace (imap_start l + ino / bits_per_block =? bmap_start l + b / bits_per_block) with false by lia.
  - intros c Hc. unfold data_range in Hc. replace (c =? _) with false by lia. by apply (sh_data _ _ H).
Qed.

Lemma shows_iused V a b v d : shows V a -> 0 <= b < inode_count l ->
  flips (V (imap_start l + b / bits_per_block)) d (b `mod` bits_per_block) v ->
  shows (setv V (imap_start l + b / bits_per_block) d) (set_iused b v a).
Proof.
  intros H Hb (Hd & _ & Hf). pose proof regions. pose proof (imap_block_range b Hb).
  constructor; unfold setv; cbn [a_inode a_used a_iused a_data set_iused].
  - intros n Hn. destruct (n =? _); [done | by apply (sh_bytes _ _ H)].
  - intros ino Hi. rewrite <- (sh_inode _ _ H ino Hi). unfold inode_at. pose proof (inode_block_range ino Hi).
    by replace (inode_start l + ino / per_block =? imap_start l + b / bits_per_block) with false by lia.
  - intros c Hc. rewrite <- (sh_used _ _ H c Hc). unfold used_at. pose proof (map_block_range c Hc).
    by replace (bmap_start l + c / bits_per_block =? imap_start l + b / bits_per_block) with false by lia.
  - intros c Hc. unfold iused_at, fupd. rewrite <- (same_bit b c) by lia.
    destruct (Z.eqb_spec (imap_start l + c / bits_per_block) (imap_start l + b / bits_per_block)) as [E|E].
    + rewrite Hf by (apply bits_parts; lia). replace (c / bits_per_block =? b / bits_per_block) with true by lia.
      cbn [andb]. destruct (_ =? _); [done|]. rewrite <- (sh_iused _ _ H c Hc). unfold iused_at. by rewrite E.
    + replace (c / bits_per_block =? b / bits_per_block) with false by lia. by apply (sh_iused _ _ H).
  - intros c Hc. unfold data_range in Hc. replace (c =? _) with false by lia. by apply (sh_data _ _ H).
Qed.

Lemma shows_inode V a ino d : shows V a -> 0 <= ino < inode_count l -> inode_ok d ->
  zlen (V (inode_start l + ino / per_block)) = CAPYFS_BLOCK_SIZE ->
  shows (setv V (inode_start l + ino / per_block)
    (splice (V (inode_start l + ino / per_block)) (ino `mod` per_block * INODE_SIZE) (inode_bytes d))) (set_inode ino d a).
Proof.
  intros H Hi Hd Hl. pose proof regions. pose proof (inode_block_range ino Hi) as Hb. pose proof (inode_parts ino) as Hp.
  pose proof (zlen_inode_bytes d Hd) as Hz. constructor; unfold setv; cbn [a_inode a_used a_iused a_data set_inode].
  - intros n Hn. destruct (Z.eqb_spec n (inode_start l + ino / per_block)) as [->|]; [|by apply (sh_bytes _ _ H)].
    apply Forall_splice; [apply (sh_bytes _ _ H); lia | apply inode_bytes_bytes].
  - intros j Hj. unfold inode_at, fupd. pose proof (inode_parts j) as Hpj.
    destruct (Z.eqb_spec (inode_start l + j / per_block) (inode_start l + ino / per_block)) as [E|E].
    + destruct (Z.eqb_spec j ino) as [->|Hne].
      * pose proof (sub_splice_same (V (inode_start l + ino / per_block)) (ino `mod` per_block * INODE_SIZE) (inode_bytes d)) as E2.
        rewrite Hz in E2. rewrite E2 by lia. by apply inode_bytes_inv.
      * assert (Hm : j `mod` per_block <> ino `mod` per_block).
        { intros Em. apply Hne. rewrite (Z.div_mod j per_block), (Z.div_mod ino per_block) by done. lia. }
        rewrite sub_splice_other by (unfold INODE_SIZE in *; lia). rewrite <- (sh_inode _ _ H j Hj). unfold inode_at. by rewrite E.
    + replace (j =? ino) with false; [by apply (sh_inode _ _ H)|]. symmetry. apply Z.eqb_neq. intros ->. done.
  - intros c Hc. rewrite <- (sh_used _ _ H c Hc). unfold used_at. pose proof (map_block_range c Hc).
    by replace (bmap_start l + c / bits_per_block =? inode_start l + ino / per_block) with false by lia.
  - intros c Hc. rewrite <- (sh_iused _ _ H c Hc). unfold iused_at. pose proof (imap_block_range c Hc).
    by replace (imap_start l + c / bits_per_block =? inode_start l + ino / per_block) with false by lia.
  - intros c Hc. unfold data_range in Hc. replace (c =? _) with false by lia. by apply (sh_data _ _ H).
Qed.

(** *** Pins *)
Lemma loose_other P Y V s i n : loose_ok P Y -> st mnt count ((i, n) :: P) Y V s -> n < data_start l -> Y <> Some i.
Proof.
  intros HY Hst Hn E. destruct (HY i E) as (b & Hb & Hr). unfold data_range in Hr.
  by apply (st_handle mnt count _ _ _ _ i n i b Hst ltac:(left) ltac:(by right)); [lia|].
Qed.

Lemma loose_cons P Y i n : loose_ok P Y -> loose_ok ((i, n) :: P) Y.
Proof. intros H j E. destruct (H j E) as (b & ? & ?). exists b. split; [by right | done]. Qed.

Lemma block_small n : 0 <= n < count -> u32 n = n.
Proof. intros. pose proof regions. apply u32_small. lia. Qed.

(** *** Data blocks *)
Lemma dsk_get P Y a s b (Q : option Z -> fsys S -> Prop) : dsk P Y a s -> data_range b -> (length P < MAX_PINS)%nat ->
  (forall i s', dsk ((i, b) :: P) Y a s' -> mem s' = mem s -> Q (Some i) s') -> wp (buffer_get (m_dev mnt) b) s Q.
Proof.
  intros (HY & V & Hst & Hsh) Hb Hl HQ. pose proof regions. unfold data_range in Hb.
  eapply wp_get; [exact Hst | lia | done |]. intros i s' Hst' Hm. apply HQ; [|done].
  split; [by apply loose_cons | by exists V].
Qed.

Lemma dsk_data P Y a s i b (Q : list Z -> fsys S -> Prop) : dsk P Y a s -> (i, b) ∈ P -> data_range b ->
  Q (a_data a b) s -> wp (bh_data i) s Q.
Proof. intros (HY & V & Hst & Hsh) Hin Hb HQ. eapply wp_data; [exact Hst | exact Hin |]. by rewrite (sh_data _ _ Hsh b Hb). Qed.

Lemma dsk_modify {B} P Y a s i b d (k : unit -> M B) Q : dsk P Y a s -> (i, b) ∈ P -> data_range b ->
  zlen d = CAPYFS_BLOCK_SIZE -> bytes_ok d ->
  (forall s', dsk P Y (set_data b d a) s' -> mem s' = mem s -> wp (k tt) s' Q) ->
  wp (bind (set_bh_data i d) (fun _ => bind (buffer_mark_dirty i) k)) s Q.
Proof.
  intros (HY & V & Hst & Hsh) Hin Hb Hl Hd HQ. eapply wp_modify; [exact Hst | exact Hin | exact Hl |]. intros s' Hst' Hm.
  apply HQ; [|done]. split; [done|]. exists (setv V b d). split; [done | by apply shows_data].
Qed.

Lemma dsk_release P Y a s i b (Q : unit -> fsys S -> Prop) : dsk ((i, b) :: P) Y a s -> Y <> Some i ->
  (forall s', dsk P Y a s' -> mem s' = mem s -> Q tt s') -> wp (buffer_release i) s Q.
Proof.
  intros (HY & V & Hst & Hsh) HYi HQ. eapply wp_release; [exact Hst | exact HYi |]. intros s' Hst' Hm. apply HQ; [|done].
  split; [|by exists V]. intros j E. destruct (HY j E) as (c & Hc & ?). exists c. split; [|done].
  apply elem_of_cons in Hc as [[= -> ->]|Hc]; [congruence | done].
Qed.

Lemma dsk_len P Y a s b : dsk P Y a s -> data_range b -> zlen (a_data a b) = CAPYFS_BLOCK_SIZE /\ bytes_ok (a_data a b).
Proof.
  intros (_ & V & Hst & Hsh) Hb. pose proof regions. unfold data_range in Hb. rewrite <- (sh_data _ _ Hsh b) by done.
  split; [eapply st_len; [exact Hst | lia] | apply (sh_bytes _ _ Hsh); lia].
Qed.

(** The handle of a data block: one at a time. *)
Lemma dsk_handle P Y a s i n j m : dsk P Y a s -> (i, n) ∈ P -> (j, m) ∈ P -> n <> m -> i <> j.
Proof. intros (_ & V & Hst & _). by eapply st_handle. Qed.

Lemma dsk_ext P Y a a' s : (forall i, a_inode a i = a_inode a' i) -> (forall b, a_used a b = a_used a' b) ->
  (forall i, a_iused a i = a_iused a' i) -> (forall b, a_data a b = a_data a' b) -> dsk P Y a s -> dsk P Y a' s.
Proof.
  intros E1 E2 E3 E4 (HY & V & Hst & Hsh). split; [done|]. exists V. split; [done|]. destruct Hsh. constructor; try done.
  - intros ino Hi. rewrite <- E1. auto.
  - intros b Hb. rewrite <- E2. auto.
  - intros b Hb. rewrite <- E3. auto.
  - intros b Hb. rewrite <- E4. auto.
Qed.

Lemma dsk_inode_ok P Y a s ino : dsk P Y a s -> 0 <= ino < inode_count l -> inode_ok (a_inode a ino).
Proof.
  intros (_ & V & _ & Hsh) Hi. pose proof regions. rewrite <- (sh_inode _ _ Hsh ino Hi). pose proof (inode_block_range ino Hi).
  apply inode_of_bytes_ok, sub_bytes_ok, (sh_bytes _ _ Hsh). lia.
Qed.

(** *** Inodes *)
Lemma wp_read_inode P Y a s ino (Q : option capy_inode_disk -> fsys S -> Prop) :
  dsk P Y a s -> (length P < MAX_PINS)%nat -> 0 <= ino < inode_count l ->
  (forall s', dsk P Y a s' -> mem s' = mem s -> Q (Some (a_inode a ino)) s') -> wp (capyfs_read_inode_disk mnt ino) s Q.
Proof.
  intros (HY & V & Hst & Hsh) Hl Hi HQ. pose proof regions. pose proof (inode_block_range ino Hi) as Hb.
  unfold capyfs_read_inode_disk. replace (inode_count l <=? ino) with false by lia. cbv zeta. rewrite block_small by lia.
  apply wp_bind. eapply wp_get; [exact Hst | lia | done |]. intros i s1 H1 Hm1. cbv beta iota.
  apply wp_bind. eapply wp_data; [exact H1 | left |]. apply wp_bind.
  eapply wp_release; [exact H1 | eapply loose_other; [done | exact H1 | lia] |]. intros s2 H2 Hm2. apply wp_ret.
  pose proof (sh_inode _ _ Hsh ino Hi) as E. unfold inode_at in E. rewrite E. apply HQ; [|congruence]. split; [done | by exists V].
Qed.

Lemma wp_read_inode_out s ino (Q : option capy_inode_disk -> fsys S -> Prop) : inode_count l <= ino ->
  Q None s -> wp (capyfs_read_inode_disk mnt ino) s Q.
Proof. intros Hi HQ. unfold capyfs_read_inode_disk. by replace (inode_count l <=? ino) with true by lia. Qed.

Lemma wp_write_inode P a s ino d (Q : Z -> fsys S -> Prop) :
  dsk P None a s -> (length P < MAX_PINS)%nat -> 0 <= ino < inode_count l -> inode_ok d ->
  (forall s', dsk P None (set_inode ino d a) s' -> mem s' = mem s -> Q 0 s') -> wp (capyfs_write_inode_disk mnt ino d) s Q.
Proof.
  intros (HY & V & Hst & Hsh) Hl Hi Hd HQ. pose proof regions. pose proof (inode_block_range ino Hi) as Hb.
  unfold capyfs_write_inode_disk. replace (inode_count l <=? ino) with false by lia. cbv zeta. rewrite block_small by lia.
  apply wp_bind. eapply wp_get; [exact Hst | lia | done |]. intros i s1 H1 Hm1. cbv beta iota.
  apply wp_bind. eapply wp_data; [exact H1 | left |].
  assert (HlV : zlen (V (inode_start l + ino / per_block)) = CAPYFS_BLOCK_SIZE) by (eapply st_len; [exact H1 | lia]).
  eapply wp_modify; [exact H1 | left | |].
  { pose proof (inode_parts ino). pose proof (zlen_inode_bytes d Hd) as Hz. rewrite zlen_splice by lia. exact HlV. }
  intros s2 H2 Hm2. apply wp_bind. eapply wp_release; [exact H2 | done |]. intros s3 H3 Hm3.
  apply wp_bind. eapply wp_sync; [exact H3|]. intros rc s4 H4 Hm4. apply wp_ret. apply HQ; [|congruence].
  split; [done|]. eexists. split; [exact H4 | by apply shows_inode].
Qed.

(** *** Bitmaps *)
Lemma flips_mark d r : zlen d = CAPYFS_BLOCK_SIZE -> bytes_ok d -> 0 <= r < bits_per_block ->
  flips d (mark_bit d (r / 8) (r `mod` 8)) r true.
Proof.
  intros Hl Hd Hr. destruct (rel_parts r Hr). split_and!; [by apply mark_bit_bytes | apply zlen_aset |].
  intros r' Hr'. rewrite mark_bit_at by done. by destruct (r' =? r).
Qed.

Lemma flips_clear d r : zlen d = CAPYFS_BLOCK_SIZE -> bytes_ok d -> 0 <= r < bits_per_block ->
  flips d (clear_bit d (r / 8) (r `mod` 8)) r false.
Proof.
  intros Hl Hd Hr. split_and!; [by apply clear_bit_bytes | apply zlen_aset |].
  intros r' Hr'. rewrite clear_bit_at by done. by destruct (r' =? r).
Qed.

Lemma wp_free_block P Y a s b (Q : unit -> fsys S -> Prop) : dsk P Y a s -> (length P < MAX_PINS)%nat -> data_range b ->
  (forall s', dsk P Y (set_used b false a) s' -> mem s' = mem s -> Q tt s') -> wp (capyfs_free_block mnt b) s Q.
Proof.
  intros (HY & V & Hst & Hsh) Hl Hb HQ. pose proof regions. unfold data_range in Hb. pose proof (map_block_range b ltac:(lia)) as Hr.
  unfold capyfs_free_block. replace ((b <? data_start l) || (block_count l <=? b)) with false by lia. cbv zeta.
  rewrite block_small by lia. apply wp_bind. eapply wp_get; [exact Hst | lia | done |]. intros i s1 H1 Hm1. cbv beta iota.
  apply wp_bind. eapply wp_data; [exact H1 | left |].
  assert (HlV : zlen (V (bmap_start l + b / bits_per_block)) = CAPYFS_BLOCK_SIZE) by (eapply st_len; [exact H1 | lia]).
  pose proof (flips_clear _ (b `mod` bits_per_block) HlV ltac:(apply (sh_bytes _ _ Hsh); lia) ltac:(apply bits_parts; lia)) as Hf.
  eapply wp_modify; [exact H1 | left | |].
  { destruct Hf as (_ & -> & _). exact HlV. }
  intros s2 H2 Hm2. eapply wp_release; [exact H2 | eapply loose_other; [done | exact H1 | lia] |]. intros s3 H3 Hm3.
  apply HQ; [|congruence]. split; [done|]. eexists. split; [exact H3 | apply shows_used; [done | lia | done]].
Qed.

Lemma wp_free_block_out s b (Q : unit -> fsys S -> Prop) : ~ data_range b -> Q tt s -> wp (capyfs_free_block mnt b) s Q.
Proof.
  intros Hb HQ. unfold capyfs_free_block, data_range in *.
  by replace ((b <? data_start l) || (block_count l <=? b)) with true by lia.
Qed.

Lemma wp_free_inode_bit P Y a s b (Q : unit -> fsys S -> Prop) : dsk P Y a s -> (length P < MAX_PINS)%nat -> 0 <= b < inode_count l ->
  (forall s', dsk P Y (set_iused b false a) s' -> mem s' = mem s -> Q tt s') -> wp (capyfs_free_inode_bit mnt b) s Q.
Proof.
  intros (HY & V & Hst & Hsh) Hl Hb HQ. pose proof regions. pose proof (imap_block_range b ltac:(lia)) as Hr.
  unfold capyfs_free_inode_bit. replace (inode_count l <=? b) with false by lia. cbv zeta.
  rewrite block_small by lia. apply wp_bind. eapply wp_get; [exact Hst | lia | done |]. intros i s1 H1 Hm1. cbv beta iota.
  apply wp_bind. eapply wp_data; [exact H1 | left |].
  assert (HlV : zlen (V (imap_start l + b / bits_per_block)) = CAPYFS_BLOCK_SIZE) by (eapply st_len; [exact H1 | lia]).
  pose proof (flips_clear _ (b `mod` bits_per_block) HlV ltac:(apply (sh_bytes _ _ Hsh); lia) ltac:(apply bits_parts; lia)) as Hf.
  eapply wp_modify; [exact H1 | left | |].
  { destruct Hf as (_ & -> & _). exact HlV. }
  intros s2 H2 Hm2. eapply wp_release; [exact H2 | eapply loose_other; [done | exact H1 | lia] |]. intros s3 H3 Hm3.
  apply HQ; [|congruence]. split; [done|]. eexists. split; [exact H3 | apply shows_iused; [done | lia | done]].
Qed.

(** The first clear bit of the inode map, or none. *)
Lemma wp_alloc_inode P Y a s (Q : option Z -> fsys S -> Prop) : dsk P Y a s -> (length P < MAX_PINS)%nat ->
  (forall ino s', 0 <= ino < inode_count l -> a_iused a ino = false -> dsk P Y (set_iused ino true a) s' ->
     mem s' = mem s -> Q (Some ino) s') ->
  (forall s', (forall ino, 0 <= ino < inode_count l -> a_iused a ino = true) -> dsk P Y a s' -> mem s' = mem s -> Q None s') ->
  wp (capyfs_alloc_inode mnt) s Q.
Proof.
  intros H0 Hl HS HN. pose proof regions. pose proof (lo_inodes _ _ Hlay). unfold capyfs_alloc_inode. apply wp_bind.
  eapply (wp_find _ _ _ _ (fun k s' => dsk P Y a s' /\ mem s' = mem s /\ forall ino, 0 <= ino < k -> a_iused a ino = true));
    [lia | by split_and!; [| |lia] | |].
  2: { intros s' (H' & Hm & Hall). apply wp_ret. by apply HN. }
  intros b s1 Hb ((HY & V & Hst & Hsh) & Hm & Hall). pose proof (imap_block_range b Hb) as Hr. cbv zeta. rewrite block_small by lia.
  apply wp_bind. eapply wp_get; [exact Hst | lia | done |]. intros i s2 H2 Hm2. cbv beta iota.
  apply wp_bind. eapply wp_data; [exact H2 | left |].
  assert (HlV : zlen (V (imap_start l + b / bits_per_block)) = CAPYFS_BLOCK_SIZE) by (eapply st_len; [exact H2 | lia]).
  assert (HYi : Y <> Some i) by (eapply loose_other; [done | exact H2 | lia]).
  pose proof (sh_iused _ _ Hsh b Hb) as Eb. unfold iused_at, bit_at in Eb. rewrite Eb. destruct (a_iused a b) eqn:Eu; cbn [negb].
  - apply wp_bind. eapply wp_release; [exact H2 | done |]. intros s3 H3 Hm3. apply wp_ret. split_and!; [split; [done | by exists V] | congruence |].
    intros ino Hino. destruct (Z.eq_dec ino b) as [->|]; [done | apply Hall; lia].
  - pose proof (flips_mark _ (b `mod` bits_per_block) HlV ltac:(apply (sh_bytes _ _ Hsh); lia) ltac:(apply bits_parts; lia)) as Hf.
    eapply wp_modify; [exact H2 | left | destruct Hf as (_ & -> & _); exact HlV |]. intros s3 H3 Hm3.
    apply wp_bind. eapply wp_release; [exact H3 | done |]. intros s4 H4 Hm4. apply wp_ret, wp_ret. cbn [default].
    apply HS; [done | done | | congruence]. split; [done|]. eexists. split; [exact H4 | by apply shows_iused].
Qed.

(** *** Block allocation *)
Lemma wp_zero_block P Y V s i n (Q : unit -> fsys S -> Prop) : st mnt count P Y V s -> (i, n) ∈ P ->
  (forall s', st mnt count P Y (setv V n (zrep CAPYFS_BLOCK_SIZE 0)) s' -> mem s' = mem s -> Q tt s') -> wp (zero_block i) s Q.
Proof.
  intros [Hb Hv] Hin HQ.
  destruct (b_modify_ok P Y (bufs s) i n (zrep CAPYFS_BLOCK_SIZE 0) Hb Hin eq_refl) as [Hb' Hv'].
  unfold zero_block. apply wp_bind. unfold wp at 1, set_bh_data, on_bufs. unfold wp, buffer_mark_dirty, on_bufs. cbn [bufs].
  apply HQ; [|done]. split; [done|]. intros m. unfold setv. rewrite <- Hv. apply Hv'.
Qed.

Definition alloc_at (b : Z) (a : adisk) : adisk := set_data b (zrep CAPYFS_BLOCK_SIZE 0) (set_used b true a).

Lemma wp_try_alloc P a s start fin (Q : option Z -> fsys S -> Prop) : dsk P None a s -> (length P < MAX_PINS)%nat ->
  data_start l <= start -> start <= fin <= block_count l ->
  (forall b s', start <= b < fin -> a_used a b = false -> dsk P None (alloc_at b a) s' -> mem s' = mem s -> Q (Some b) s') ->
  (forall s', (forall b, start <= b < fin -> a_used a b = true) -> dsk P None a s' -> mem s' = mem s -> Q None s') ->
  wp (capyfs_try_alloc_range mnt start fin) s Q.
Proof.
  intros H0 Hl Hs He HS HN. pose proof regions. unfold capyfs_try_alloc_range. apply wp_bind.
  eapply (wp_find _ _ _ _ (fun k s' => dsk P None a s' /\ mem s' = mem s /\ forall b, start <= b < k -> a_used a b = true));
    [lia | by split_and!; [| |lia] | |].
  2: { intros s' (H' & Hm & Hall). apply wp_ret. by apply HN. }
  intros b s1 Hb ((HY & V & Hst & Hsh) & Hm & Hall). assert (Hbr : 0 <= b < block_count l) by lia.
  pose proof (map_block_range b Hbr) as Hr. cbv zeta. rewrite block_small by lia.
  apply wp_bind. eapply wp_get; [exact Hst | lia | done |]. intros i s2 H2 Hm2. cbv beta iota.
  apply wp_bind. eapply wp_data; [exact H2 | left |].
  assert (HlV : zlen (V (bmap_start l + b / bits_per_block)) = CAPYFS_BLOCK_SIZE) by (eapply st_len; [exact H2 | lia]).
  pose proof (sh_used _ _ Hsh b Hbr) as Eb. unfold used_at, bit_at in Eb. rewrite Eb. destruct (a_used a b) eqn:Eu; cbn [negb].
  - apply wp_bind. eapply wp_release; [exact H2 | done |]. intros s3 H3 Hm3. apply wp_ret. split_and!; [split; [done | by exists V] | congruence |].
    intros c Hc. destruct (Z.eq_dec c b) as [->|]; [done | apply Hall; lia].
  - pose proof (flips_mark _ (b `mod` bits_per_block) HlV ltac:(apply (sh_bytes _ _ Hsh); lia) ltac:(apply bits_parts; lia)) as Hf.
    eapply wp_modify; [exact H2 | left | destruct Hf as (_ & -> & _); exact HlV |]. intros s3 H3 Hm3.
    apply wp_bind. eapply wp_release; [exact H3 | done |]. intros s4 H4 Hm4.
    apply wp_bind. eapply wp_get; [exact H4 | lia | done |]. intros j s5 H5 Hm5. cbv beta iota.
    apply wp_bind. eapply wp_zero_block; [exact H5 | left |]. intros s6 H6 Hm6.
    apply wp_bind. eapply wp_release; [exact H6 | done |].
    intros s7 H7 Hm7. apply wp_bind. unfold wp at 1, set_hint. apply wp_ret, wp_ret. cbn [default].
    apply HS; [done | done | | cbn [mem]; congruence]. split; [done|]. eexists. split; [exact H7|].
    apply shows_data; [by apply shows_used | split; lia | apply zrep_ok, byte0].
Qed.

Lemma wp_alloc_block P a s (Q : option Z -> fsys S -> Prop) : dsk P None a s -> (length P < MAX_PINS)%nat ->
  (forall b s', data_range b -> a_used a b = false -> dsk P None (alloc_at b a) s' -> mem s' = mem s -> Q (Some b) s') ->
  (forall s', (forall b, data_range b -> a_used a b = true) -> dsk P None a s' -> mem s' = mem s -> Q None s') ->
  wp (capyfs_alloc_block mnt) s Q.
Proof.
  intros H0 Hl HS HN. pose proof regions. unfold capyfs_alloc_block. cbv zeta. apply wp_bind. unfold wp at 1, get_hint.
  set (h := g_next_fit_hint s). set (hint := if (h <? data_start l) || (block_count l <=? h) then data_start l else h).
  assert (Hh : data_start l <= hint <= block_count l).
  { unfold hint. destruct (_ || _) eqn:E; [lia|]. bools. lia. }
  apply wp_bind. eapply wp_try_alloc; [exact H0 | done | lia | lia | |].
  - intros b s' Hb Hu H' Hm. apply wp_ret, HS; try done. unfold data_range. lia.
  - intros s1 Hall1 H1 Hm1. apply wp_if; intros E; bools.
    + eapply wp_try_alloc; [exact H1 | done | lia | lia | |].
      * intros b s' Hb Hu H' Hm. apply HS; try done; [unfold data_range; lia | congruence].
      * intros s' Hall H' Hm. apply HN; [|done|congruence]. intros b [Hb1 Hb2].
        destruct (Z.lt_ge_cases b hint); [apply Hall | apply Hall1]; lia.
    + apply wp_ret, HN; [|done|done]. intros b [Hb1 Hb2]. apply Hall1. lia.
Qed.

(** *** Loose buffers *)
Lemma dsk_store P Y a s i b d (Q : unit -> fsys S -> Prop) : dsk P Y a s -> Y = None \/ Y = Some i -> (i, b) ∈ P -> data_range b ->
  zlen d = CAPYFS_BLOCK_SIZE -> bytes_ok d ->
  (forall s', dsk P (Some i) (set_data b d a) s' -> mem s' = mem s -> Q tt s') -> wp (set_bh_data i d) s Q.
Proof.
  intros (HY & V & [Hb Hv] & Hsh) HYi Hin Hbr Hl Hd HQ.
  destruct (b_store_ok P Y (bufs s) i b d Hb Hin HYi Hl) as [Hb' Hv'].
  unfold wp, set_bh_data, on_bufs. apply HQ; [|done]. split; [intros j [= <-]; by exists b|]. exists (setv V b d).
  split; [|by apply shows_data]. split; [done|]. intros m. unfold setv. rewrite <- Hv. apply Hv'.
Qed.

Lemma dsk_mark P Y a s i b (Q : unit -> fsys S -> Prop) : dsk P Y a s -> Y = None \/ Y = Some i -> (i, b) ∈ P ->
  (forall s', dsk P None a s' -> mem s' = mem s -> Q tt s') -> wp (buffer_mark_dirty i) s Q.
Proof.
  intros (HY & V & [Hb Hv] & Hsh) HYi Hin HQ.
  assert (H : binv P None (b_mark_dirty i (bufs s)) /\ forall m, bview (b_mark_dirty i (bufs s)) m = bview (bufs s) m).
  { destruct HYi as [-> | ->]; [by apply (b_mark_ok P (bufs s) i b) | by apply (b_dirty_ok P (bufs s) i)]. }
  destruct H as [Hb' Hv']. unfold wp, buffer_mark_dirty, on_bufs. apply HQ; [|done]. split; [done|]. exists V.
  split; [|done]. split; [done|]. intros m. by rewrite <- Hv, <- Hv'.
Qed.
End disk.
