(* ===== verification/CapyFsFile.v ===== *)
(** * Files of a CAPYFS disk

    The blocks an inode refers to, the well-formedness of a disk ([wf]: what is
    referred to is a data block, is marked in the bitmap and belongs to one place of
    one inode), and what the block map, file reads, file writes and the release of a
    file's blocks do to it. *)
From S2P Require Import Prelude BufferCache Buffers CapyFs CapyFsDisk.
Local Open Scope capy_scope.

#[local] Opaque le_bytes.

(** Data blocks of a file, and places of an inode that hold a block number: the twelve
    direct pointers, the indirect pointer (12), and the entries behind it. *)
Definition FILE_BLOCKS : Z := 12 + entries_per_indirect.
Definition SLOTS : Z := FILE_BLOCKS + 1.
Definition MAX_FILE : Z := FILE_BLOCKS * CAPYFS_BLOCK_SIZE.

Lemma file_blocks : FILE_BLOCKS = 1036.
Proof. reflexivity. Qed.
Lemma slots : SLOTS = 1037.
Proof. reflexivity. Qed.

Definition entry_of (a : adisk) (b k : Z) : Z := load_le (a_data a b) (4 * k) 4.

Definition slot_in (a : adisk) (d : capy_inode_disk) (k : Z) : Z :=
  if k <? 12 then (direct d).[k] else
  if k =? 12 then indirect d else
  if indirect d =? 0 then 0 else entry_of a (indirect d) (k - 13).

Definition slot (a : adisk) (ino k : Z) : Z := slot_in a (a_inode a ino) k.
Definition lb_slot (lb : Z) : Z := if lb <? 12 then lb else lb + 1.

(** What the file shows at its block [lb]: a hole reads as zeros. *)
Definition block_in (a : adisk) (d : capy_inode_disk) (lb : Z) : Z := slot_in a d (lb_slot lb).
Definition fblock_in (a : adisk) (d : capy_inode_disk) (lb : Z) : list Z :=
  if block_in a d lb =? 0 then zrep CAPYFS_BLOCK_SIZE 0 else a_data a (block_in a d lb).
Definition fblock (a : adisk) (ino lb : Z) : list Z := fblock_in a (a_inode a ino) lb.
Lemma block_slot a ino lb : block_in a (a_inode a ino) lb = slot a ino (lb_slot lb).
Proof. reflexivity. Qed.
Definition fbyte (a : adisk) (ino p : Z) : Z := (fblock a ino (p / CAPYFS_BLOCK_SIZE)).[p `mod` CAPYFS_BLOCK_SIZE].

(** The inode without its pointers. *)
Definition imeta (d : capy_inode_disk) : Z * Z * Z * Z * Z * Z * Z :=
  (d_mode d, d_links d, d_size d, d_uid d, d_gid d, d_perm d, d_reserved d).

(** Disks that agree everywhere. *)
Record aeq (a a' : adisk) : Prop := {
  ae_inode i : a_inode a i = a_inode a' i;
  ae_used b : a_used a b = a_used a' b;
  ae_iused i : a_iused a i = a_iused a' i;
  ae_data b : a_data a b = a_data a' b }.

#[export] Instance aeq_equivalence : Equivalence aeq.
Proof.
  split.
  - by constructor.
  - intros a a' []. by constructor.
  - intros a a1 a2 [] []. constructor; intros; etrans; eauto.
Qed.

Lemma slot_in_aeq a a' d k : aeq a a' -> slot_in a d k = slot_in a' d k.
Proof. intros H. unfold slot_in, entry_of. by rewrite (ae_data _ _ H). Qed.

Lemma slot_aeq a a' i k : aeq a a' -> slot a i k = slot a' i k.
Proof. intros H. unfold slot. by rewrite (ae_inode _ _ H), (slot_in_aeq _ _ _ _ H). Qed.

Lemma fblock_aeq a a' i lb : aeq a a' -> fblock a i lb = fblock a' i lb.
Proof.
  intros H. unfold fblock, fblock_in, block_in.
  by rewrite (ae_inode _ _ H), (slot_in_aeq _ _ _ _ H), (ae_data _ _ H).
Qed.

#[export] Instance set_inode_proper : Proper (eq ==> eq ==> aeq ==> aeq) set_inode.
Proof. intros i _ <- d _ <- a a' []. constructor; try done. intros j. cbn. unfold fupd. by destruct (j =? i). Qed.

#[export] Instance set_data_proper : Proper (eq ==> eq ==> aeq ==> aeq) set_data.
Proof. intros i _ <- d _ <- a a' []. constructor; try done. intros j. cbn. unfold fupd. by destruct (j =? i). Qed.

Lemma set_set_inode i d d' a : aeq (set_inode i d (set_inode i d' a)) (set_inode i d a).
Proof. constructor; try done. intros j. cbn. unfold fupd. by destruct (j =? i). Qed.

Lemma set_same_inode i a : aeq (set_inode i (a_inode a i) a) a.
Proof. constructor; try done. intros j. cbn. unfold fupd. by destruct (Z.eqb_spec j i) as [->|]. Qed.

Lemma a_inode_set i d a : a_inode (set_inode i d a) i = d.
Proof. cbn. unfold fupd. by rewrite Z.eqb_refl. Qed.

Lemma a_inode_other i j d a : j <> i -> a_inode (set_inode i d a) j = a_inode a j.
Proof. intros. cbn. unfold fupd. by replace (j =? i) with false by lia. Qed.

Section files.
Context {S : Type} `{!Buffers S} (mnt : capyfs_mount) (count : Z) `{!BufferSpec (S := S) (m_dev mnt) count}.
Local Abbreviation l := (super mnt).
Context (Hlay : layout_ok l count).
Implicit Types (s : fsys S) (P : list (Z * Z)) (i n b c ino j k lb : Z) (a : adisk) (d : capy_inode_disk).
Local Abbreviation data_range := (data_range mnt).
Local Abbreviation dsk := (dsk mnt count).

Definition inode_range ino : Prop := 0 <= ino < inode_count l.
Definition slot_range k : Prop := 0 <= k < SLOTS.
Definition lb_range lb : Prop := 0 <= lb < FILE_BLOCKS.

Record wf a : Prop := {
  wf_inode j : inode_range j -> inode_ok (a_inode a j);
  wf_slot j k : inode_range j -> slot_range k -> slot a j k <> 0 -> data_range (slot a j k) /\ a_used a (slot a j k) = true;
  wf_inj i j k k' : inode_range i -> inode_range j -> slot_range k -> slot_range k' ->
    slot a i k <> 0 -> slot a i k = slot a j k' -> i = j /\ k = k';
  wf_data b : data_range b -> zlen (a_data a b) = CAPYFS_BLOCK_SIZE /\ bytes_ok (a_data a b) }.

#[export] Instance wf_proper : Proper (aeq ==> iff) wf.
Proof.
  assert (Hp : forall a a', aeq a a' -> wf a -> wf a').
  { intros a a' E H. constructor.
    - intros j Hj. rewrite <- (ae_inode _ _ E). by apply H.
    - intros j k Hj Hk. rewrite <- (slot_aeq a a' j k E), <- (ae_used _ _ E). by apply (wf_slot _ H).
    - intros i j k k'. rewrite <- !(slot_aeq a a' _ _ E). by apply (wf_inj _ H).
    - intros b Hb. rewrite <- (ae_data _ _ E). by apply (wf_data _ H). }
  intros a a' E. split; apply Hp; [done | by symmetry].
Qed.

Definition full a : Prop := forall b, data_range b -> a_used a b = true.

(** Blocks were added to files, nothing a file shows changed. *)
Record grows a a' : Prop := {
  g_wf : wf a';
  g_meta j : inode_range j -> imeta (a_inode a' j) = imeta (a_inode a j);
  g_iused j : inode_range j -> a_iused a' j = a_iused a j;
  g_used b : a_used a b = true -> a_used a' b = true;
  g_block j lb : inode_range j -> lb_range lb -> block_in a (a_inode a j) lb <> 0 ->
    block_in a' (a_inode a' j) lb = block_in a (a_inode a j) lb;
  g_fblock j lb : inode_range j -> lb_range lb -> fblock a' j lb = fblock a j lb }.

Lemma grows_refl a : wf a -> grows a a.
Proof. by constructor. Qed.

Lemma grows_trans (a a1 a2 : adisk) : grows a a1 -> grows a1 a2 -> grows a a2.
Proof.
  intros H1 H2. constructor.
  - apply H2.
  - intros j Hj. by rewrite (g_meta _ _ H2), (g_meta _ _ H1).
  - intros j Hj. by rewrite (g_iused _ _ H2), (g_iused _ _ H1).
  - intros x Hx. by apply (g_used _ _ H2), (g_used _ _ H1).
  - intros j lb Hj Hlb Hne. rewrite (g_block _ _ H2), (g_block _ _ H1); try done. by rewrite (g_block _ _ H1).
  - intros j lb Hj Hlb. by rewrite (g_fblock _ _ H2), (g_fblock _ _ H1).
Qed.

#[export] Instance grows_proper : Proper (aeq ==> aeq ==> iff) grows.
Proof.
  assert (Hp : forall a1 a2 a3 a4, aeq a1 a2 -> aeq a3 a4 -> grows a1 a3 -> grows a2 a4).
  { intros a1 a2 a3 a4 E1 E2 H. constructor.
    - apply (wf_proper a3 a4 E2), H.
    - intros j Hj. rewrite <- (ae_inode _ _ E1), <- (ae_inode _ _ E2). by apply H.
    - intros j Hj. rewrite <- (ae_iused _ _ E1), <- (ae_iused _ _ E2). by apply H.
    - intros b. rewrite <- (ae_used _ _ E1), <- (ae_used _ _ E2). by apply H.
    - intros j lb. rewrite !block_slot, <- (slot_aeq a1 a2 _ _ E1), <- (slot_aeq a3 a4 _ _ E2). by apply (g_block _ _ H).
    - intros j lb. rewrite <- (fblock_aeq a1 a2 _ _ E1), <- (fblock_aeq a3 a4 _ _ E2). by apply (g_fblock _ _ H). }
  intros a1 a2 E1 a3 a4 E2. split; apply Hp; try done; by symmetry.
Qed.

Lemma lb_slot_range lb : lb_range lb -> slot_range (lb_slot lb) /\ lb_slot lb <> 12.
Proof. unfold lb_range, slot_range, lb_slot. rewrite file_blocks, slots. intros. destruct (Z.ltb_spec lb 12); lia. Qed.

Lemma lb_slot_inj lb lb' : lb_slot lb = lb_slot lb' -> lb = lb'.
Proof. unfold lb_slot. destruct (Z.ltb_spec lb 12), (Z.ltb_spec lb' 12); lia. Qed.

Lemma slot_of_lb k : slot_range k -> k <> 12 -> exists lb, lb_range lb /\ lb_slot lb = k.
Proof.
  unfold slot_range, lb_range, lb_slot. rewrite file_blocks, slots. intros. destruct (Z.lt_ge_cases k 12).
  - exists k. destruct (Z.ltb_spec k 12); lia.
  - exists (k - 1). destruct (Z.ltb_spec (k - 1) 12); lia.
Qed.

(** A new block in an empty place. *)
Lemma grow_slot a a' ino k b : wf a -> inode_range ino -> slot_range k -> slot a ino k = 0 -> data_range b -> a_used a b = false ->
  (forall i j, inode_range i -> slot_range j -> slot a' i j = if (i =? ino) && (j =? k) then b else slot a i j) ->
  (forall c, a_used a' c = (c =? b) || a_used a c) ->
  (forall j, inode_range j -> inode_ok (a_inode a' j) /\ imeta (a_inode a' j) = imeta (a_inode a j)) ->
  (forall j, a_iused a' j = a_iused a j) ->
  (forall c, data_range c -> zlen (a_data a' c) = CAPYFS_BLOCK_SIZE /\ bytes_ok (a_data a' c)) ->
  (forall j lb, inode_range j -> lb_range lb -> block_in a (a_inode a j) lb <> 0 ->
     a_data a' (block_in a (a_inode a j) lb) = a_data a (block_in a (a_inode a j) lb)) ->
  (k <> 12 -> a_data a' b = zrep CAPYFS_BLOCK_SIZE 0) ->
  grows a a'.
Proof.
  intros Hwf Hino Hk H0 Hb Hub Hslot Hused Hmeta Hiu Hdata Hold Hnew.
  assert (Hnb : forall i j, inode_range i -> slot_range j -> slot a i j <> 0 -> slot a i j <> b).
  { intros i j Hi Hj Hne E. destruct (wf_slot _ Hwf i j Hi Hj Hne) as [_ Hu]. congruence. }
  assert (Hbz : b <> 0).
  { pose proof (regions mnt count Hlay). unfold CapyFsDisk.data_range in Hb. lia. }
  constructor; [constructor| | | | |].
  - intros j Hj. by apply Hmeta.
  - intros i j Hi Hj. rewrite Hslot by done. destruct (_ && _).
    + intros _. split; [done|]. by rewrite Hused, Z.eqb_refl.
    + intros Hne. destruct (wf_slot _ Hwf i j Hi Hj Hne) as [? Hu]. split; [done|]. by rewrite Hused, Hu, orb_true_r.
  - intros i j k1 k2 Hi Hj Hk1 Hk2. rewrite !Hslot by done.
    destruct ((i =? ino) && (k1 =? k)) eqn:E1, ((j =? ino) && (k2 =? k)) eqn:E2; bools.
    + intros _ _. split; congruence.
    + intros _ E. exfalso. apply (Hnb j k2 Hj Hk2); [rewrite <- E; done | done].
    + intros Hne E. exfalso. by apply (Hnb i k1 Hi Hk1).
    + by apply (wf_inj _ Hwf).
  - done.
  - intros j Hj. by apply Hmeta.
  - intros j Hj. apply Hiu.
  - intros c Hc. by rewrite Hused, Hc, orb_true_r.
  - intros j lb Hj Hlb Hne. destruct (lb_slot_range lb Hlb). change (slot a' j (lb_slot lb) = slot a j (lb_slot lb)).
    change (slot a j (lb_slot lb) <> 0) in Hne. rewrite Hslot by done.
    destruct (Z.eqb_spec j ino) as [->|]; [|done]. destruct (Z.eqb_spec (lb_slot lb) k) as [E|]; [|done]. by rewrite E in Hne.
  - intros j lb Hj Hlb. destruct (lb_slot_range lb Hlb) as [Hs Hs12]. unfold fblock, fblock_in.
    change (block_in a' (a_inode a' j) lb) with (slot a' j (lb_slot lb)).
    specialize (Hold j lb Hj Hlb). change (block_in a (a_inode a j) lb) with (slot a j (lb_slot lb)) in *. rewrite Hslot by done.
    destruct ((j =? ino) && (lb_slot lb =? k)) eqn:E; bools.
    + subst. rewrite H0. replace (b =? 0) with false by lia. by apply Hnew.
    + destruct (Z.eqb_spec (slot a j (lb_slot lb)) 0); [done | by apply Hold].
Qed.

(** ** The three ways a block is added *)
Lemma range_nz b : data_range b -> b <> 0 /\ 0 <= b < 2 ^ 32.
Proof. pose proof (regions mnt count Hlay). unfold CapyFsDisk.data_range. lia. Qed.

Lemma indirect_slot a j : slot a j 12 = indirect (a_inode a j).
Proof. reflexivity. Qed.

Lemma range12 : slot_range 12.
Proof. unfold slot_range. rewrite slots. lia. Qed.

Lemma zero_entries off : 0 <= off -> off + 4 <= CAPYFS_BLOCK_SIZE -> load_le (zrep CAPYFS_BLOCK_SIZE 0) off 4 = 0.
Proof.
  intros. unfold load_le. change (Z.of_nat 4) with 4. replace (sub_bytes (zrep CAPYFS_BLOCK_SIZE 0) off 4) with (zrep 4 0); [done|].
  apply (array_ext 0); [rewrite zlen_sub; rewrite ?zlen_rep; lia|]. intros i Hi. rewrite zlen_rep in Hi by lia.
  rewrite aget_sub, !aget_rep by lia. done.
Qed.

Lemma inode_ok_direct d k b : inode_ok d -> 0 <= k < 12 -> 0 <= b < 2 ^ 32 -> inode_ok (set_direct k b d).
Proof.
  intros [] Hk Hb. constructor; cbn [set_direct d_mode d_links d_size d_uid d_gid d_perm d_reserved direct indirect]; try done.
  - by rewrite zlen_aset.
  - by apply Forall_aset.
Qed.

Lemma inode_ok_indirect d b : inode_ok d -> 0 <= b < 2 ^ 32 -> inode_ok (set_indirect b d).
Proof. intros [] Hb. by constructor. Qed.

Lemma inode_ok_size d v : inode_ok d -> 0 <= v < 2 ^ 32 -> inode_ok (set_d_size v d).
Proof. intros [] Hb. by constructor. Qed.

(** Slots only look at the indirect block. *)
Lemma slot_in_data a a' d k : (indirect d <> 0 -> a_data a' (indirect d) = a_data a (indirect d)) -> slot_in a' d k = slot_in a d k.
Proof.
  intros H. unfold slot_in, entry_of. destruct (k <? 12), (k =? 12); try done.
  destruct (Z.eqb_spec (indirect d) 0); [done|]. by rewrite H.
Qed.

Lemma used_ne a b i k : wf a -> a_used a b = false -> inode_range i -> slot_range k -> slot a i k <> 0 -> slot a i k <> b.
Proof. intros Hwf Hb Hi Hk Hne E. destruct (wf_slot _ Hwf i k Hi Hk Hne) as [_ Hu]. congruence. Qed.

Lemma ind_ne a b i : wf a -> a_used a b = false -> inode_range i -> indirect (a_inode a i) <> 0 -> indirect (a_inode a i) <> b.
Proof. intros Hwf Hb Hi Hne. apply (used_ne a b i 12 Hwf Hb Hi range12 Hne). Qed.

Lemma alloc_data_len a b : wf a -> forall c, data_range c ->
  zlen (a_data (alloc_at b a) c) = CAPYFS_BLOCK_SIZE /\ bytes_ok (a_data (alloc_at b a) c).
Proof.
  intros Hwf c Hc. unfold alloc_at, fupd. cbn [a_data set_data set_used]. unfold fupd. destruct (c =? b).
  - split; [by apply zlen_rep | apply zrep_ok, byte0].
  - by apply (wf_data _ Hwf).
Qed.

Lemma alloc_data_ne a b c : c <> b -> a_data (alloc_at b a) c = a_data a c.
Proof. intros. unfold alloc_at. cbn [a_data set_data set_used]. unfold fupd. by replace (c =? b) with false by lia. Qed.

Lemma alloc_data_new a b : a_data (alloc_at b a) b = zrep CAPYFS_BLOCK_SIZE 0.
Proof. unfold alloc_at. cbn [a_data set_data set_used]. unfold fupd. by rewrite Z.eqb_refl. Qed.

Lemma alloc_used a b c : a_used (alloc_at b a) c = (c =? b) || a_used a c.
Proof. cbn [alloc_at set_data set_used a_used]. unfold fupd. by destruct (c =? b). Qed.

(** The block a place of a file refers to stays as it was when another one is allocated. *)
Lemma alloc_block_same a b j lb : wf a -> a_used a b = false -> inode_range j -> lb_range lb ->
  block_in a (a_inode a j) lb <> 0 ->
  a_data (alloc_at b a) (block_in a (a_inode a j) lb) = a_data a (block_in a (a_inode a j) lb).
Proof.
  intros Hwf Hb Hj Hlb Hne. apply alloc_data_ne. destruct (lb_slot_range lb Hlb).
  by apply (used_ne a b j (lb_slot lb)).
Qed.

Lemma alloc_slot_in a b d k : (indirect d <> 0 -> indirect d <> b) -> slot_in (alloc_at b a) d k = slot_in a d k.
Proof. intros H. apply slot_in_data. intros Hne. apply alloc_data_ne. auto. Qed.

(** An allocated block that no inode refers to. *)
Lemma grow_mark a b : wf a -> data_range b -> a_used a b = false -> grows a (alloc_at b a).
Proof.
  intros Hwf Hb Hub.
  assert (Hs : forall i k, inode_range i -> slot (alloc_at b a) i k = slot a i k).
  { intros i k Hi. exact (alloc_slot_in a b (a_inode a i) k (ind_ne a b i Hwf Hub Hi)). }
  constructor; [constructor| | | | |]; try done.
  - apply Hwf.
  - intros i k Hi Hk. rewrite Hs by done. intros Hne. destruct (wf_slot _ Hwf i k Hi Hk Hne) as [? Hu]. split; [done|].
    cbn [alloc_at set_data set_used a_used]. unfold fupd. by destruct (_ =? b).
  - intros i j k k' Hi Hj Hk Hk'. rewrite !Hs by done. by apply (wf_inj _ Hwf).
  - exact (alloc_data_len a b Hwf).
  - intros c Hc. cbn [alloc_at set_data set_used a_used]. unfold fupd. by destruct (c =? b).
  - intros j lb Hj Hlb Hne. by apply Hs.
  - intros j lb Hj Hlb. unfold fblock, fblock_in. pose proof (Hs j (lb_slot lb) Hj) as E.
    change (block_in (alloc_at b a) (a_inode (alloc_at b a) j) lb = block_in a (a_inode a j) lb) in E. rewrite E.
    destruct (Z.eqb_spec (block_in a (a_inode a j) lb) 0); [done|]. by apply alloc_block_same.
Qed.

Lemma set_inode_meta a ino d j : inode_ok d -> (forall j, inode_range j -> inode_ok (a_inode a j)) -> imeta d = imeta (a_inode a ino) ->
  inode_range j -> inode_ok (a_inode (set_inode ino d a) j) /\ imeta (a_inode (set_inode ino d a) j) = imeta (a_inode a j).
Proof. intros Hd Ha Hm Hj. cbn [set_inode a_inode]. unfold fupd. destruct (Z.eqb_spec j ino) as [->|]; [done | split; [auto|done]]. Qed.

Lemma grow_direct a ino k b : wf a -> inode_range ino -> 0 <= k < 12 -> (direct (a_inode a ino)).[k] = 0 ->
  data_range b -> a_used a b = false ->
  grows a (set_inode ino (set_direct k b (a_inode a ino)) (alloc_at b a)).
Proof.
  intros Hwf Hino Hk H0 Hb Hub. pose proof (wf_inode _ Hwf ino Hino) as Hok. pose proof (range_nz b Hb) as [Hb0 Hb32].
  assert (Hkr : slot_range k) by (unfold slot_range; rewrite slots; lia).
  apply (grow_slot a _ ino k b); try done.
  - unfold slot, slot_in. by replace (k <? 12) with true by lia.
  - intros i j Hi [Hj _]. unfold slot. cbn [set_inode a_inode]. unfold fupd. destruct (Z.eqb_spec i ino) as [->|]; cbn [andb].
    + change (slot_in (alloc_at b a) (set_direct k b (a_inode a ino)) j = if j =? k then b else slot_in a (a_inode a ino) j).
      rewrite alloc_slot_in by exact (ind_ne a b ino Hwf Hub Hino). unfold slot_in. cbn [set_direct direct indirect].
      pose proof (io_direct _ Hok). destruct (Z.ltb_spec j 12).
      * by rewrite aget_aset by lia.
      * by replace (j =? k) with false by lia.
    + change (slot_in (alloc_at b a) (a_inode a i) j = slot_in a (a_inode a i) j). apply alloc_slot_in. exact (ind_ne a b i Hwf Hub Hi).
  - intros j. apply (set_inode_meta (alloc_at b a)); [by apply inode_ok_direct | apply Hwf | done].
  - exact (alloc_data_len a b Hwf).
  - intros j lb Hj Hlb. by apply alloc_block_same.
  - intros _. apply alloc_data_new.
Qed.

Lemma grow_indirect a ino b : wf a -> inode_range ino -> indirect (a_inode a ino) = 0 -> data_range b -> a_used a b = false ->
  grows a (set_inode ino (set_indirect b (a_inode a ino)) (alloc_at b a)).
Proof.
  intros Hwf Hino H0 Hb Hub. pose proof (wf_inode _ Hwf ino Hino) as Hok. pose proof (range_nz b Hb) as [Hb0 Hb32].
  apply (grow_slot a _ ino 12 b); try done.
  - intros i j Hi [Hj Hj']. rewrite slots in Hj'. unfold slot. cbn [set_inode a_inode]. unfold fupd. destruct (Z.eqb_spec i ino) as [->|]; cbn [andb].
    + change (slot_in (alloc_at b a) (set_indirect b (a_inode a ino)) j = if j =? 12 then b else slot_in a (a_inode a ino) j).
      unfold slot_in. cbn [set_indirect direct indirect]. rewrite H0. destruct (Z.ltb_spec j 12); [by replace (j =? 12) with false by lia|].
      destruct (Z.eqb_spec j 12); [done|]. replace (b =? 0) with false by lia. unfold entry_of. rewrite alloc_data_new.
      apply zero_entries; unfold CAPYFS_BLOCK_SIZE; lia.
    + change (slot_in (alloc_at b a) (a_inode a i) j = slot_in a (a_inode a i) j). apply alloc_slot_in. exact (ind_ne a b i Hwf Hub Hi).
  - intros j. apply (set_inode_meta (alloc_at b a)); [by apply inode_ok_indirect | apply Hwf | done].
  - exact (alloc_data_len a b Hwf).
  - intros j lb Hj Hlb. by apply alloc_block_same.
Qed.

Lemma grow_entry a ino e b : wf a -> inode_range ino -> 0 <= e < entries_per_indirect -> indirect (a_inode a ino) <> 0 ->
  entry_of a (indirect (a_inode a ino)) e = 0 -> data_range b -> a_used a b = false ->
  grows a (set_data (indirect (a_inode a ino)) (store_le (a_data a (indirect (a_inode a ino))) (4 * e) 4 b) (alloc_at b a)).
Proof.
  intros Hwf Hino He Hx H0 Hb Hub. set (x := indirect (a_inode a ino)) in *. pose proof (range_nz b Hb) as [Hb0 Hb32].
  change entries_per_indirect with 1024 in He.
  assert (Hk : slot_range (13 + e)) by (unfold slot_range; rewrite slots; lia).
  pose proof (wf_slot _ Hwf ino 12 Hino range12 Hx) as [Hxd Hxu]. change (slot a ino 12) with x in Hxd, Hxu.
  pose proof (wf_data _ Hwf x Hxd) as [Hxl Hxb].
  assert (Hdat : forall c, c <> x -> c <> b -> a_data (set_data x (store_le (a_data a x) (4 * e) 4 b) (alloc_at b a)) c = a_data a c).
  { intros c Hcx Hcb. cbn [set_data a_data]. unfold fupd. replace (c =? x) with false by lia. by apply alloc_data_ne. }
  apply (grow_slot a _ ino (13 + e) b); try done.
  - unfold slot, slot_in. replace (13 + e <? 12) with false by lia. replace (13 + e =? 12) with false by lia.
    fold x. replace (x =? 0) with false by lia. by replace (13 + e - 13) with e by lia.
  - intros i j Hi [Hj Hj']. rewrite slots in Hj'. unfold slot. cbn [set_data set_used alloc_at a_inode].
    set (a' := set_data x _ _). unfold slot_in. destruct (Z.ltb_spec j 12).
    { by replace (j =? 13 + e) with false by lia; rewrite andb_false_r. }
    destruct (Z.eqb_spec j 12) as [->|].
    { by replace (12 =? 13 + e) with false by lia; rewrite andb_false_r. }
    destruct (Z.eqb_spec i ino) as [->|Hne].
    + fold x. replace (x =? 0) with false by lia. unfold entry_of, a'. cbn [set_data a_data]. unfold fupd. rewrite Z.eqb_refl.
      unfold CAPYFS_BLOCK_SIZE in *. destruct (Z.eqb_spec j (13 + e)) as [->|]; cbn [andb].
      * replace (4 * (13 + e - 13)) with (4 * e) by lia. apply load_store_same; lia.
      * apply load_store_other; lia.
    + cbn [andb]. destruct (Z.eqb_spec (indirect (a_inode a i)) 0); [done|]. unfold entry_of.
      assert (indirect (a_inode a i) <> x).
      { intros E. apply Hne. apply (wf_inj _ Hwf i ino 12 12); try done; apply range12. }
      unfold a'. by rewrite Hdat by (done || by apply ind_ne).
  - intros j Hj. split; [by apply Hwf | done].
  - intros c Hc. cbn [set_data a_data]. unfold fupd. destruct (Z.eqb_spec c x) as [->|]; [|by apply alloc_data_len].
    unfold CAPYFS_BLOCK_SIZE in *. split; [rewrite zlen_store; lia | by apply store_bytes].
  - intros j lb Hj Hlb Hne. destruct (lb_slot_range lb Hlb) as [Hs H12]. apply Hdat; [|by apply (used_ne a b j (lb_slot lb))].
    intros E. apply H12. by apply (wf_inj _ Hwf j ino (lb_slot lb) 12); try apply range12.
  - intros _. cbn [set_data a_data]. unfold fupd. replace (b =? x) with false by (symmetry; apply Z.eqb_neq; intros ->; congruence).
    apply alloc_data_new.
Qed.

(** Storing into a block of a file. *)
Lemma store_block a ino lb dat : wf a -> inode_range ino -> lb_range lb -> block_in a (a_inode a ino) lb <> 0 ->
  zlen dat = CAPYFS_BLOCK_SIZE -> bytes_ok dat ->
  let a' := set_data (block_in a (a_inode a ino) lb) dat a in
  wf a' /\ (forall i k, inode_range i -> slot_range k -> slot a' i k = slot a i k) /\
  (forall j m, inode_range j -> lb_range m -> fblock a' j m = if (j =? ino) && (m =? lb) then dat else fblock a j m).
Proof.
  intros Hwf Hino Hlb Hne Hl Hd. set (b := block_in a (a_inode a ino) lb) in *. cbv zeta. set (a' := set_data b dat a).
  destruct (lb_slot_range lb Hlb) as [Hsr Hs12].
  assert (Hs : forall i k, inode_range i -> slot_range k -> slot a' i k = slot a i k).
  { intros i k Hi Hk. apply (slot_in_data a a' (a_inode a i)). intros Hind. change (a_data a' ?x) with (fupd (a_data a) b dat x). unfold fupd.
    destruct (Z.eqb_spec (indirect (a_inode a i)) b) as [E|]; [|done]. exfalso. apply Hs12.
    by destruct (wf_inj _ Hwf i ino 12 (lb_slot lb) Hi Hino range12 Hsr Hind E) as [_ <-]. }
  split_and!; [constructor|done|].
  - apply Hwf.
  - intros j k Hj Hk. rewrite Hs by done. by apply (wf_slot _ Hwf).
  - intros i j k k' Hi Hj Hk Hk'. rewrite !Hs by done. by apply (wf_inj _ Hwf).
  - intros c Hc. cbn [a' set_data a_data]. unfold fupd. destruct (c =? b); [done | by apply (wf_data _ Hwf)].
  - intros j m Hj Hm. destruct (lb_slot_range m Hm) as [Hmr _]. unfold fblock, fblock_in.
    change (block_in a' (a_inode a' j) m) with (slot a' j (lb_slot m)). rewrite Hs by done.
    change (slot a j (lb_slot m)) with (block_in a (a_inode a j) m). cbn [a' set_data a_data]. unfold fupd.
    destruct ((j =? ino) && (m =? lb)) eqn:E; bools.
    + subst. fold b. replace (b =? 0) with false by lia. by rewrite Z.eqb_refl.
    + destruct (Z.eqb_spec (block_in a (a_inode a j) m) 0) as [|Hn0]; [done|].
      destruct (Z.eqb_spec (block_in a (a_inode a j) m) b) as [Eb|]; [|done]. exfalso.
      destruct (wf_inj _ Hwf j ino (lb_slot m) (lb_slot lb)) as [-> Em]; try done. apply lb_slot_inj in Em as ->.
      by rewrite !Z.eqb_refl in E.
Qed.

(** ** The block map *)
Lemma slot_set a ino d k : slot (set_inode ino d a) ino k = slot_in a d k.
Proof. unfold slot. by rewrite a_inode_set. Qed.

Lemma block_direct a d lb : lb < 12 -> block_in a d lb = (direct d).[lb].
Proof. intros. unfold block_in, lb_slot, slot_in. replace (lb <? 12) with true by lia. by replace (lb <? 12) with true by lia. Qed.

Lemma block_indirect a d lb : 12 <= lb -> indirect d <> 0 -> block_in a d lb = entry_of a (indirect d) (lb - 12).
Proof.
  intros. unfold block_in, lb_slot, slot_in. replace (lb <? 12) with false by lia.
  replace (lb + 1 <? 12) with false by lia. replace (lb + 1 =? 12) with false by lia. replace (indirect d =? 0) with false by lia.
  f_equal. lia.
Qed.

Lemma block_no_indirect a d lb : 12 <= lb -> indirect d = 0 -> block_in a d lb = 0.
Proof.
  intros. unfold block_in, lb_slot, slot_in. replace (lb <? 12) with false by lia.
  replace (lb + 1 <? 12) with false by lia. replace (lb + 1 =? 12) with false by lia. by replace (indirect d =? 0) with true by lia.
Qed.

Lemma indirect_range a ino d : wf (set_inode ino d a) -> inode_range ino -> indirect d <> 0 ->
  data_range (indirect d) /\ a_used a (indirect d) = true.
Proof.
  intros Hwf Hino Hne. pose proof (wf_slot _ Hwf ino 12 Hino range12) as H. rewrite slot_set in H. by apply H.
Qed.

Lemma block_range a ino d lb : wf (set_inode ino d a) -> inode_range ino -> lb_range lb -> block_in a d lb <> 0 ->
  data_range (block_in a d lb).
Proof.
  intros Hwf Hino Hlb Hne. destruct (lb_slot_range lb Hlb) as [Hr _]. pose proof (wf_slot _ Hwf ino _ Hino Hr) as H.
  rewrite slot_set in H. by apply H.
Qed.

(** Looking up leaves everything as it was. *)
Lemma wp_block P a s ino d lb dirty (Q : option Z * capy_inode_disk * bool -> fsys S -> Prop) :
  dsk P None a s -> (length P < MAX_PINS)%nat -> wf (set_inode ino d a) -> inode_range ino -> 0 <= lb ->
  (forall s', dsk P None a s' -> mem s' = mem s -> Q (if lb <? FILE_BLOCKS then Some (block_in a d lb) else None, d, dirty) s') ->
  wp (capyfs_get_data_block mnt d lb false dirty) s Q.
Proof.
  intros Hd Hl Hwf Hino Hlb HQ. unfold capyfs_get_data_block. rewrite file_blocks in HQ. change entries_per_indirect with 1024.
  destruct (Z.ltb_spec lb 12).
  { replace (lb <? 1036) with true in HQ by lia. cbv zeta. rewrite andb_false_r. apply wp_ret. rewrite block_direct in HQ by done. by apply HQ. }
  cbv zeta. destruct (Z.leb_spec 1024 (lb - 12)).
  { replace (lb <? 1036) with false in HQ by lia. apply wp_ret. by apply HQ. }
  replace (lb <? 1036) with true in HQ by lia. apply wp_bind. destruct (Z.eqb_spec (indirect d) 0) as [E|E].
  { apply wp_ret, wp_ret. rewrite block_no_indirect in HQ by done. by apply HQ. }
  apply wp_ret. destruct (indirect_range a ino d Hwf Hino E) as [Hr _]. apply wp_bind. eapply dsk_get; [exact Hlay | exact Hd | exact Hr | done |].
  intros i s1 H1 Hm1. cbv beta iota. apply wp_bind. eapply dsk_data; [exact H1 | left | exact Hr |].
  rewrite andb_false_r. apply wp_bind. eapply dsk_release; [exact H1 | done |]. intros s2 H2 Hm2. apply wp_ret.
  rewrite block_indirect in HQ by done. apply HQ; [done | congruence].
Qed.

Definition extends ino a d (dirty : bool) a' d' (dirty' : bool) : Prop :=
  (forall i, a_inode a' i = a_inode a i) /\ grows (set_inode ino d a) (set_inode ino d' a') /\
  (d' = d /\ dirty' = dirty \/ dirty' = true).

Lemma extends_refl ino a d dirty : wf (set_inode ino d a) -> extends ino a d dirty a d dirty.
Proof. intros. split_and!; [done | by apply grows_refl | by left]. Qed.

Lemma extends_trans ino a d y a1 d1 y1 a2 d2 y2 : extends ino a d y a1 d1 y1 -> extends ino a1 d1 y1 a2 d2 y2 -> extends ino a d y a2 d2 y2.
Proof.
  intros (E1 & G1 & D1) (E2 & G2 & D2). split_and!.
  - intros i. by rewrite E2.
  - by eapply grows_trans.
  - destruct D1 as [[-> ->] | ->], D2 as [[-> ->] | ->]; auto.
Qed.

Lemma extends_direct ino a d y lb b : wf (set_inode ino d a) -> inode_range ino -> 0 <= lb < 12 -> (direct d).[lb] = 0 ->
  data_range b -> a_used a b = false -> extends ino a d y (alloc_at b a) (set_direct lb b d) true.
Proof.
  intros Hwf Hino Hlb H0 Hb Hu. split_and!; [done | | by right]. pose proof (grow_direct _ ino lb b Hwf Hino Hlb) as H.
  rewrite !a_inode_set in H. change (alloc_at b (set_inode ino d a)) with (set_inode ino d (alloc_at b a)) in H.
  rewrite set_set_inode in H. by apply H.
Qed.

Lemma extends_indirect ino a d y b : wf (set_inode ino d a) -> inode_range ino -> indirect d = 0 ->
  data_range b -> a_used a b = false -> extends ino a d y (alloc_at b a) (set_indirect b d) true.
Proof.
  intros Hwf Hino H0 Hb Hu. split_and!; [done | | by right]. pose proof (grow_indirect _ ino b Hwf Hino) as H.
  rewrite !a_inode_set in H. change (alloc_at b (set_inode ino d a)) with (set_inode ino d (alloc_at b a)) in H.
  rewrite set_set_inode in H. by apply H.
Qed.

Lemma extends_entry ino a d y e b : wf (set_inode ino d a) -> inode_range ino -> 0 <= e < entries_per_indirect ->
  indirect d <> 0 -> entry_of a (indirect d) e = 0 -> data_range b -> a_used a b = false ->
  extends ino a d y (set_data (indirect d) (store_le (a_data a (indirect d)) (4 * e) 4 b) (alloc_at b a)) d y.
Proof.
  intros Hwf Hino He Hx H0 Hb Hu. split_and!; [done | | by left]. pose proof (grow_entry _ ino e b Hwf Hino He) as H.
  rewrite !a_inode_set in H. by apply H.
Qed.

Lemma extends_mark ino a d y b : wf (set_inode ino d a) -> data_range b -> a_used a b = false -> extends ino a d y (alloc_at b a) d y.
Proof. intros Hwf Hb Hu. split_and!; [done | by apply (grow_mark (set_inode ino d a)) | by left]. Qed.

(** With allocation: the block that is then there, or none for want of room. *)
Definition block_result ino a d (y : bool) lb (r : option Z * capy_inode_disk * bool) a' : Prop :=
  let '(b, d', y') := r in
  extends ino a d y a' d' y' /\
  match b with
  | Some b => lb_range lb /\ b <> 0 /\ b = block_in a' d' lb
  | None => extends ino a d y a' d y /\ (FILE_BLOCKS <= lb \/ full a')
  end.

Lemma wp_entry_alloc P a s ino d lb y (Q : option Z * capy_inode_disk * bool -> fsys S -> Prop) i :
  dsk ((i, indirect d) :: P) None a s -> (Datatypes.S (length P) < MAX_PINS)%nat -> wf (set_inode ino d a) -> inode_range ino ->
  12 <= lb < FILE_BLOCKS -> indirect d <> 0 ->
  (forall b a' s', dsk P None a' s' -> mem s' = mem s -> extends ino a d y a' d y -> b <> 0 -> b = block_in a' d lb -> Q (Some b, d, y) s') ->
  (forall s', full a -> dsk P None a s' -> mem s' = mem s -> Q (None, d, y) s') ->
  block_in a d lb = 0 ->
  wp (bind (capyfs_alloc_block mnt) (fun r =>
        match r with
        | None => bind (buffer_release i) (fun _ => ret (None, d, y))
        | Some block =>
            bind (bh_data i) (fun data =>
            bind (set_bh_data i (store_le data (4 * (lb - 12)) 4 block)) (fun _ =>
            bind (buffer_mark_dirty i) (fun _ =>
            bind (buffer_release i) (fun _ => ret (Some block, d, y)))))
        end)) s Q.
Proof.
  intros Hd Hl Hwf Hino Hlb Hx HS HN H0. rewrite file_blocks in Hlb.
  destruct (indirect_range a ino d Hwf Hino Hx) as [Hxr Hxu].
  apply wp_bind. eapply wp_alloc_block; [exact Hlay | exact Hd | simpl; lia | |].
  - intros b s1 Hb Hu H1 Hm1. cbv beta iota.
    assert (Hbx : indirect d <> b) by (intros E; congruence).
    apply wp_bind. eapply dsk_data; [exact H1 | left | exact Hxr |]. rewrite alloc_data_ne by done.
    destruct (dsk_len _ _ Hlay _ _ _ _ (indirect d) Hd Hxr) as [Hxl Hxb]. pose proof (range_nz b Hb) as [Hb0 Hb32].
    eapply dsk_modify; [exact Hlay | exact H1 | left | exact Hxr | rewrite zlen_store; unfold CAPYFS_BLOCK_SIZE in *; lia
      | by apply store_bytes |].
    intros s2 H2 Hm2. apply wp_bind. eapply dsk_release; [exact H2 | done |]. intros s3 H3 Hm3. apply wp_ret.
    assert (Hlb' : 12 <= lb) by lia. rewrite block_indirect in H0 by done.
    pose proof (extends_entry ino a d y (lb - 12) b Hwf Hino ltac:(change entries_per_indirect with 1024; lia) Hx H0 Hb Hu) as He.
    eapply HS; [exact H3 | congruence | exact He | done |]. rewrite block_indirect by done. unfold entry_of. cbn [set_data a_data]. unfold fupd. rewrite Z.eqb_refl.
    symmetry. apply load_store_same; unfold CAPYFS_BLOCK_SIZE in *; lia.
  - intros s1 Hall H1 Hm1. cbv beta iota. apply wp_bind. eapply dsk_release; [exact H1 | done |]. intros s2 H2 Hm2. apply wp_ret.
    apply HN; [done | done | congruence].
Qed.

Lemma wp_block_alloc P a s ino d lb y (Q : option Z * capy_inode_disk * bool -> fsys S -> Prop) :
  dsk P None a s -> (Datatypes.S (length P) < MAX_PINS)%nat -> wf (set_inode ino d a) -> inode_range ino -> 0 <= lb ->
  (forall r a' s', dsk P None a' s' -> mem s' = mem s -> block_result ino a d y lb r a' -> Q r s') ->
  wp (capyfs_get_data_block mnt d lb true y) s Q.
Proof.
  intros Hd Hl Hwf Hino Hlb HQ. pose proof (extends_refl ino a d y Hwf) as Hrefl. unfold capyfs_get_data_block.
  change entries_per_indirect with 1024. cbv zeta. destruct (Z.ltb_spec lb 12).
  { rewrite andb_true_r. destruct (Z.eqb_spec (direct d).[lb] 0) as [E|E].
    - apply wp_bind. eapply wp_alloc_block; [exact Hlay | exact Hd | lia | |].
      + intros b s1 Hb Hu H1 Hm1. apply wp_ret. eapply HQ; [exact H1 | done |]. pose proof (range_nz b Hb) as [Hb0 _].
        assert (Hok : inode_ok d) by (pose proof (wf_inode _ Hwf ino Hino) as Hok; by rewrite a_inode_set in Hok).
        split; [by apply extends_direct|]. split_and!; [unfold lb_range; rewrite file_blocks; lia | done |].
        rewrite block_direct by done. cbn [set_direct direct]. rewrite aget_aset_eq; [done|]. rewrite (io_direct _ Hok). lia.
      + intros s1 Hall H1 Hm1. apply wp_ret. eapply HQ; [exact H1 | done |]. split; [done|]. split; [done | by right].
    - apply wp_ret. eapply HQ; [exact Hd | done |]. split; [done|]. split_and!; [unfold lb_range; rewrite file_blocks; lia | done |].
      by rewrite block_direct. }
  destruct (Z.leb_spec 1024 (lb - 12)).
  { apply wp_ret. eapply HQ; [exact Hd | done |]. split; [done|]. split; [done|]. left. rewrite file_blocks. lia. }
  assert (Hlr : 12 <= lb < FILE_BLOCKS) by (rewrite file_blocks; lia).
  apply wp_bind.
  match goal with |- wp _ _ ?K => set (Kont := K) end.
  assert (HK : forall a1 d1 y1 s1, dsk P None a1 s1 -> mem s1 = mem s -> extends ino a d y a1 d1 y1 -> extends ino a d y a1 d y ->
    indirect d1 <> 0 -> Kont (inl (indirect d1, d1, y1)) s1).
  { intros a1 d1 y1 s1 H1 Hm1 He1 He1' Hx. unfold Kont. pose proof (g_wf _ _ (proj1 (proj2 He1))) as Hwf1.
    destruct (indirect_range a1 ino d1 Hwf1 Hino Hx) as [Hxr _].
    apply wp_bind. eapply dsk_get; [exact Hlay | exact H1 | exact Hxr | lia |]. intros i s2 H2 Hm2. cbv beta iota.
    apply wp_bind. eapply dsk_data; [exact H2 | left | exact Hxr |]. rewrite andb_true_r.
    change (load_le (a_data a1 (indirect d1)) (4 * (lb - 12)) 4) with (entry_of a1 (indirect d1) (lb - 12)).
    rewrite <- (block_indirect a1 d1 lb) by (done || lia). destruct (Z.eqb_spec (block_in a1 d1 lb) 0) as [E|E].
    - eapply wp_entry_alloc; [exact H2 | exact Hl | exact Hwf1 | done | done | done | | | done].
      + intros b a' s' H' Hm' Hext Hb0 Hb. eapply HQ; [exact H' | congruence |].
        split; [by apply (extends_trans ino a d y a1 d1 y1)|]. by split_and!; [unfold lb_range; lia| |].
      + intros s' Hfull H' Hm'. eapply HQ; [exact H' | congruence |]. split; [done|]. split; [done | by right].
    - apply wp_bind. eapply dsk_release; [exact H2 | done |]. intros s3 H3 Hm3. apply wp_ret.
      eapply HQ; [exact H3 | congruence |]. split; [done|]. by split_and!; [unfold lb_range; lia| |]. }
  destruct (Z.eqb_spec (indirect d) 0) as [E|E].
  - cbn [negb]. apply wp_bind. eapply wp_alloc_block; [exact Hlay | exact Hd | lia | |].
    + intros x s1 Hx Hu H1 Hm1. apply wp_ret. pose proof (range_nz x Hx) as [Hx0 _].
      apply (HK (alloc_at x a) (set_indirect x d) true); try done; [by apply extends_indirect | by apply extends_mark].
    + intros s1 Hall H1 Hm1. apply wp_ret. unfold Kont. apply wp_ret. eapply HQ; [exact H1 | done |].
      split; [done|]. split; [done | by right].
  - apply wp_ret. by apply (HK a d y).
Qed.

(** ** Writing

    After [k] bytes of [src] went to [pos]. *)
Record stored ino pos (src : list Z) k a a' : Prop := {
  so_wf : wf a';
  so_meta j : inode_range j -> imeta (a_inode a' j) = imeta (a_inode a j);
  so_iused j : inode_range j -> a_iused a' j = a_iused a j;
  so_used b : a_used a b = true -> a_used a' b = true;
  so_other j lb : inode_range j -> lb_range lb -> j <> ino -> fblock a' j lb = fblock a j lb;
  so_byte p : 0 <= p < MAX_FILE ->
    fbyte a' ino p = if (pos <=? p) && (p <? pos + k) then src.[p - pos] else fbyte a ino p }.

Lemma stored_none ino pos src a : wf a -> stored ino pos src 0 a a.
Proof. intros. constructor; try done. intros p Hp. by replace ((pos <=? p) && (p <? pos + 0)) with false by lia. Qed.

Lemma max_file : MAX_FILE = 4243456.
Proof. reflexivity. Qed.

Lemma lb_of p : 0 <= p < MAX_FILE -> lb_range (p / CAPYFS_BLOCK_SIZE).
Proof.
  rewrite max_file. unfold lb_range, CAPYFS_BLOCK_SIZE. rewrite file_blocks. intros.
  split; [apply Z.div_pos; lia | apply Z.div_lt_upper_bound; lia].
Qed.

Lemma stored_grow ino pos src k a a1 a2 : inode_range ino -> stored ino pos src k a a1 -> grows a1 a2 -> stored ino pos src k a a2.
Proof.
  intros Hino [] G. constructor.
  - apply G.
  - intros j Hj. rewrite (g_meta _ _ G) by done. auto.
  - intros j Hj. rewrite (g_iused _ _ G) by done. auto.
  - intros b Hb. by apply (g_used _ _ G), so_used0.
  - intros j lb Hj Hlb Hne. rewrite (g_fblock _ _ G) by done. auto.
  - intros p Hp. unfold fbyte at 1. rewrite (g_fblock _ _ G) by (done || by apply lb_of). by apply so_byte0.
Qed.

(** Positions inside one block. *)
Lemma in_chunk p q c : 0 <= p -> 0 <= q -> q `mod` CAPYFS_BLOCK_SIZE + c <= CAPYFS_BLOCK_SIZE ->
  (p / CAPYFS_BLOCK_SIZE =? q / CAPYFS_BLOCK_SIZE) &&
    ((q `mod` CAPYFS_BLOCK_SIZE <=? p `mod` CAPYFS_BLOCK_SIZE) && (p `mod` CAPYFS_BLOCK_SIZE <? q `mod` CAPYFS_BLOCK_SIZE + c)) =
  (q <=? p) && (p <? q + c).
Proof. unfold CAPYFS_BLOCK_SIZE. intros. Z.div_mod_to_equations. lia. Qed.

Lemma stored_chunk ino pos src k c a a1 dat : inode_range ino -> 0 <= pos -> 0 <= k -> 0 <= c -> k + c <= zlen src -> bytes_ok src ->
  stored ino pos src k a a1 ->
  let q := pos + k in
  let lb := q / CAPYFS_BLOCK_SIZE in
  let b := block_in a1 (a_inode a1 ino) lb in
  lb_range lb -> q `mod` CAPYFS_BLOCK_SIZE + c <= CAPYFS_BLOCK_SIZE -> b <> 0 ->
  dat = splice (a_data a1 b) (q `mod` CAPYFS_BLOCK_SIZE) (sub_bytes src k c) ->
  stored ino pos src (k + c) a (set_data b dat a1).
Proof.
  intros Hino Hpos Hk Hc Hsrc Hsb [] q lb b Hlb Hfit Hb Hdat.
  destruct (block_range a1 ino (a_inode a1 ino) lb) as [Hr1 Hr2]; try done; [by rewrite set_same_inode|].
  destruct (wf_data _ so_wf0 b (conj Hr1 Hr2)) as [Hbl Hbb].
  assert (Hq : 0 <= q `mod` CAPYFS_BLOCK_SIZE) by (apply Z.mod_pos_bound; done).
  pose proof (zlen_sub src k c Hk Hc ltac:(lia)) as Hsl.
  assert (Hdl : zlen dat = CAPYFS_BLOCK_SIZE) by (rewrite Hdat, zlen_splice; lia).
  destruct (store_block a1 ino lb dat so_wf0 Hino Hlb Hb Hdl) as (Hwf' & _ & Hfb).
  { rewrite Hdat. apply Forall_splice; [done | by apply Forall_sub_bytes]. }
  constructor; try done.
  - intros j m Hj Hm Hne. rewrite Hfb by done. replace (j =? ino) with false by lia. by apply so_other0.
  - intros p Hp. unfold fbyte at 1. rewrite Hfb by (done || by apply lb_of). rewrite Z.eqb_refl. cbn [andb].
    pose proof (in_chunk p q c ltac:(lia) ltac:(unfold q; lia) Hfit) as E. fold lb in E.
    assert (Hold : (fblock a1 ino (p / CAPYFS_BLOCK_SIZE)).[p `mod` CAPYFS_BLOCK_SIZE] = fbyte a1 ino p) by done.
    destruct (Z.eqb_spec (p / CAPYFS_BLOCK_SIZE) lb) as [El|El].
    + assert (Efb : fblock a1 ino lb = a_data a1 b).
      { unfold fblock, fblock_in. fold b. by replace (b =? 0) with false by lia. }
      rewrite Hdat, aget_splice, Hsl by (try lia; apply Z.mod_pos_bound; done). cbn [andb] in E. rewrite E.
      rewrite <- Efb, <- El, Hold, so_byte0 by done. unfold q in *.
      destruct ((pos + k <=? p) && (p <? pos + k + c)) eqn:E1; bools.
      * replace ((pos <=? p) && (p <? pos + (k + c))) with true by lia. rewrite aget_sub by lia. f_equal.
        assert (pos + k = CAPYFS_BLOCK_SIZE * lb + (pos + k) `mod` CAPYFS_BLOCK_SIZE) by (unfold lb, q; by apply Z.div_mod).
        pose proof (Z.div_mod p CAPYFS_BLOCK_SIZE ltac:(done)) as Ep. rewrite El in Ep. lia.
      * replace ((pos <=? p) && (p <? pos + (k + c))) with ((pos <=? p) && (p <? pos + k)) by lia. done.
    + cbn [andb] in E. rewrite Hold, so_byte0 by done. unfold q in *.
      replace ((pos <=? p) && (p <? pos + (k + c))) with ((pos <=? p) && (p <? pos + k)) by lia. done.
Qed.

(** What the write loop keeps: [k] bytes done, [d] and [y] the inode and its flag. *)
Definition writing P s0 ino pos src size a a' (t : Z * capy_inode_disk * bool) s : Prop :=
  let '(k, d, y) := t in
  dsk P None a' s /\ mem s = mem s0 /\ (forall i, a_inode a' i = a_inode a i) /\
    stored ino pos src k a (set_inode ino d a') /\ 0 <= k <= size /\ (k = 0 \/ pos + k <= MAX_FILE) /\
    (d = a_inode a ino \/ y = true).

Definition stopped pos size a' k : Prop := k < size -> MAX_FILE <= pos + k \/ full a'.

(** The iterations still to come. *)
Definition io_measure pos size k : Z :=
  if k <? size then (pos + size - 1) / CAPYFS_BLOCK_SIZE - (pos + k) / CAPYFS_BLOCK_SIZE + 1 else 0.

Lemma io_measure_fuel pos size : 0 <= pos -> 0 <= size -> io_measure pos size 0 < Z.of_nat (io_fuel size).
Proof.
  intros. unfold io_measure, io_fuel, CAPYFS_BLOCK_SIZE. pose proof (Z.div_pos size 4096). rewrite Z2Nat.id by lia.
  destruct (Z.ltb_spec 0 size); [|lia]. Z.div_mod_to_equations. lia.
Qed.

Lemma io_measure_nonneg pos size k : 0 <= k -> 0 <= io_measure pos size k.
Proof. intros. unfold io_measure, CAPYFS_BLOCK_SIZE. destruct (Z.ltb_spec k size); [|lia]. Z.div_mod_to_equations. lia. Qed.

Lemma io_measure_step pos size k : 0 <= k < size ->
  io_measure pos size (k + Z.min (CAPYFS_BLOCK_SIZE - (pos + k) `mod` CAPYFS_BLOCK_SIZE) (size - k)) < io_measure pos size k.
Proof.
  intros. unfold io_measure, CAPYFS_BLOCK_SIZE. replace (k <? size) with true by lia.
  destruct (Z.ltb_spec (k + Z.min (4096 - (pos + k) `mod` 4096) (size - k)) size); Z.div_mod_to_equations; lia.
Qed.

Lemma io_chunk_range pos size k : 0 <= k < size -> let c := Z.min (CAPYFS_BLOCK_SIZE - (pos + k) `mod` CAPYFS_BLOCK_SIZE) (size - k) in
  0 < c /\ k + c <= size /\ (pos + k) `mod` CAPYFS_BLOCK_SIZE + c <= CAPYFS_BLOCK_SIZE /\ 0 <= (pos + k) `mod` CAPYFS_BLOCK_SIZE.
Proof. intros. cbv zeta. pose proof (Z.mod_pos_bound (pos + k) CAPYFS_BLOCK_SIZE). unfold CAPYFS_BLOCK_SIZE in *. lia. Qed.

Lemma small_position pos k : 0 <= pos < 2 ^ 32 -> 0 <= k -> k = 0 \/ pos + k <= MAX_FILE -> u32 (pos + u32 k) = pos + k.
Proof. rewrite max_file. intros. rewrite (u32_small k) by lia. apply u32_small. lia. Qed.

Lemma wp_write_step P s0 s ino pos src size a t : (Datatypes.S (length P) < MAX_PINS)%nat -> inode_range ino ->
  0 <= pos < 2 ^ 32 -> size <= zlen src -> bytes_ok src ->
  (exists a', writing P s0 ino pos src size a a' t s) ->
  wp (write_step mnt src pos size t) s (fun r s =>
    match r with
    | inl t' => (exists a', writing P s0 ino pos src size a a' t' s) /\ io_measure pos size t'.1.1 < io_measure pos size t.1.1
    | inr t' => exists a', writing P s0 ino pos src size a a' t' s /\ stopped pos size a' t'.1.1
    end).
Proof.
  destruct t as [[k d] y]. intros Hl Hino Hpos Hsz Hsb (a1 & H1 & Hm1 & Hin & Hst & Hk & Hkm & Hdy). cbn [fst].
  unfold write_step. destruct (Z.ltb_spec k size) as [Hlt|Hge]; cbn [negb].
  2: { apply wp_ret. exists a1. split; [done|]. intros Hc. cbn [fst] in Hc. lia. }
  rewrite small_position by (done || lia). cbv zeta. set (q := pos + k). set (lb := q / CAPYFS_BLOCK_SIZE).
  destruct (io_chunk_range pos size k ltac:(lia)) as (Hc0 & Hc1 & Hc2 & Hc3).
  set (c := Z.min (CAPYFS_BLOCK_SIZE - (pos + k) `mod` CAPYFS_BLOCK_SIZE) (size - k)) in *. fold q in Hc2, Hc3.
  change (Z.min (CAPYFS_BLOCK_SIZE - q `mod` CAPYFS_BLOCK_SIZE) (size - k)) with c.
  assert (Hlb0 : 0 <= lb) by (apply Z.div_pos; unfold q, CAPYFS_BLOCK_SIZE; lia).
  apply wp_bind. eapply wp_block_alloc; [exact H1 | done | apply Hst | done | done |].
  intros [[b d'] y'] a2 s2 H2 Hm2 [(Hin2 & G & Hdy2) Hb].
  assert (Hst2 : stored ino pos src k a (set_inode ino d' a2)) by (by eapply stored_grow).
  assert (Hw2 : writing P s0 ino pos src size a a2 (k, d', y') s2).
  { split_and!; try done; try lia; [congruence | intros i; by rewrite Hin2, Hin |].
    destruct Hdy2 as [[-> ->]|]; [done | by right]. }
  destruct b as [b|].
  2: { destruct Hb as [_ Hb]. apply wp_ret. exists a2. split; [done|]. intros _. cbn [fst].
       destruct Hb as [Hb|]; [left | by right]. rewrite file_blocks in Hb. rewrite max_file. fold q.
       pose proof (Z.mul_div_le q CAPYFS_BLOCK_SIZE ltac:(done)) as Hq. fold lb in Hq. unfold CAPYFS_BLOCK_SIZE in *. lia. }
  destruct Hb as (Hlb & Hb0 & Hb). replace (b =? 0) with false by lia.
  assert (Hbr : data_range b) by (rewrite Hb; apply (block_range a2 ino d' lb); [apply Hst2 | done | done | congruence]).
  apply wp_bind. eapply dsk_get; [exact Hlay | exact H2 | exact Hbr | lia |]. intros i s3 H3 Hm3. cbv beta iota.
  apply wp_bind. eapply dsk_data; [exact H3 | left | exact Hbr |].
  destruct (dsk_len _ _ Hlay _ _ _ _ b H2 Hbr) as [Hbl Hbb]. rewrite memcpy_spec by lia.
  set (dat := splice (a_data a2 b) (q `mod` CAPYFS_BLOCK_SIZE) (sub_bytes src k c)).
  eapply dsk_modify; [exact Hlay | exact H3 | left | exact Hbr | | |].
  { unfold dat. rewrite zlen_splice; rewrite ?zlen_sub; lia. }
  { apply Forall_splice; [done | by apply Forall_sub_bytes]. }
  intros s4 H4 Hm4. apply wp_bind. eapply dsk_release; [exact H4 | done |]. intros s5 H5 Hm5. apply wp_ret.
  split; [|by apply io_measure_step; lia].
  assert (Eb : b = block_in (set_inode ino d' a2) (a_inode (set_inode ino d' a2) ino) lb) by (by rewrite a_inode_set).
  assert (Hq4 : q `mod` CAPYFS_BLOCK_SIZE + c <= CAPYFS_BLOCK_SIZE) by done.
  exists (set_data b dat a2). split_and!; try done; [congruence | intros i'; cbn [set_data a_inode]; by rewrite Hin2, Hin | | lia.. | |].
  - change (set_inode ino d' (set_data b dat a2)) with (set_data b dat (set_inode ino d' a2)).
    pose proof (stored_chunk ino pos src k c a (set_inode ino d' a2) dat Hino ltac:(lia) ltac:(lia) ltac:(lia) ltac:(lia) Hsb Hst2) as Hch.
    cbv zeta in Hch. fold q lb in Hch. rewrite <- Eb in Hch. by apply Hch.
  - right. rewrite max_file. destruct Hlb as [_ Hlb]. rewrite file_blocks in Hlb.
    pose proof (Z.div_mod q CAPYFS_BLOCK_SIZE ltac:(done)) as Hq. fold lb in Hq. unfold q, CAPYFS_BLOCK_SIZE in *. lia.
  - destruct Hdy2 as [[-> ->]|]; [done | by right].
Qed.

Lemma wp_write_loop P s ino pos src size a : dsk P None a s -> (Datatypes.S (length P) < MAX_PINS)%nat -> wf a -> inode_range ino ->
  0 <= pos < 2 ^ 32 -> 0 <= size <= zlen src -> bytes_ok src ->
  wp (while_n (io_fuel size) (write_step mnt src pos size) (0, a_inode a ino, false)) s (fun r s' =>
    exists t a', r = Some t /\ writing P s ino pos src size a a' t s' /\ stopped pos size a' t.1.1).
Proof.
  intros Hd Hl Hwf Hino Hpos Hsz Hsb.
  eapply (wp_while _ _ _ _ (fun t s' => exists a', writing P s ino pos src size a a' t s') (fun t => io_measure pos size t.1.1)).
  - exists a. split_and!; try done; try lia; [|by left..]. pose proof (set_same_inode ino a) as E.
    assert (Hwf' : wf (set_inode ino (a_inode a ino) a)) by (by rewrite E).
    apply (stored_grow ino pos src 0 a a); [done | by apply stored_none |].
    apply (grows_proper _ _ (symmetry E) _ _ (reflexivity _)). by apply grows_refl.
  - apply io_measure_fuel; lia.
  - intros t s1 Ht. split; [destruct t as [[k d] y], Ht as (? & _ & _ & _ & _ & ? & _); apply io_measure_nonneg; cbn; lia|].
    eapply wp_mono; [by eapply wp_write_step; try done; lia|]. intros [t'|t'] s2; [done|]. intros (a' & Hw & Hs).
    by exists t', a'.
Qed.

(** An inode with other fields and the same pointers. *)
Lemma inode_fields a ino d : wf a -> inode_range ino -> inode_ok d -> direct d = direct (a_inode a ino) ->
  indirect d = indirect (a_inode a ino) ->
  wf (set_inode ino d a) /\ (forall j k, slot (set_inode ino d a) j k = slot a j k) /\
  (forall j lb, fblock (set_inode ino d a) j lb = fblock a j lb).
Proof.
  intros Hwf Hino Hd E1 E2.
  assert (Hs : forall j k, slot (set_inode ino d a) j k = slot a j k).
  { intros j k. destruct (Z.eq_dec j ino) as [->|Hne].
    - rewrite slot_set. unfold slot, slot_in. by rewrite E1, E2.
    - unfold slot. by rewrite a_inode_other. }
  split_and!; [constructor | done |].
  - intros j Hj. destruct (Z.eq_dec j ino) as [->|]; [by rewrite a_inode_set | rewrite a_inode_other by done; by apply Hwf].
  - intros j k. rewrite Hs. apply Hwf.
  - intros i j k k'. rewrite !Hs. apply Hwf.
  - apply Hwf.
  - intros j lb. unfold fblock, fblock_in. by rewrite !block_slot, Hs.
Qed.

(** The disk after a write of [k] bytes. *)
Record file_written ino pos (src : list Z) k a a' : Prop := {
  fw_wf : wf a';
  fw_meta : imeta (a_inode a' ino) = imeta (set_d_size (Z.max (d_size (a_inode a ino)) (pos + k)) (a_inode a ino));
  fw_inode j : j <> ino -> a_inode a' j = a_inode a j;
  fw_iused j : inode_range j -> a_iused a' j = a_iused a j;
  fw_used b : a_used a b = true -> a_used a' b = true;
  fw_other j lb : inode_range j -> lb_range lb -> j <> ino -> fblock a' j lb = fblock a j lb;
  fw_byte p : 0 <= p < MAX_FILE ->
    fbyte a' ino p = if (pos <=? p) && (p <? pos + k) then src.[p - pos] else fbyte a ino p }.

Lemma finish_write ino pos src k a a1 d : inode_range ino -> 0 <= pos + k < 2 ^ 32 -> (forall i, a_inode a1 i = a_inode a i) ->
  stored ino pos src k a (set_inode ino d a1) ->
  file_written ino pos src k a (set_inode ino (set_d_size (Z.max (d_size d) (pos + k)) d) a1).
Proof.
  intros Hino Hpk Hin H. pose proof (wf_inode _ (so_wf _ _ _ _ _ _ H) ino Hino) as Hok. rewrite a_inode_set in Hok.
  pose proof (so_meta _ _ _ _ _ _ H ino Hino) as Hm. rewrite a_inode_set in Hm.
  assert (Hsz : d_size d = d_size (a_inode a ino)) by (unfold imeta in Hm; congruence).
  set (d' := set_d_size _ d).
  assert (Hok' : inode_ok d') by (apply inode_ok_size; [done | destruct Hok; lia]).
  destruct (inode_fields (set_inode ino d a1) ino d' (so_wf _ _ _ _ _ _ H) Hino Hok') as (Hwf & _ & Hfb);
    [by rewrite a_inode_set..|].
  pose proof (set_set_inode ino d' d a1) as E. rewrite E in Hwf.
  assert (Hfb' : forall j lb, fblock (set_inode ino d' a1) j lb = fblock (set_inode ino d a1) j lb).
  { intros j lb. by rewrite <- (fblock_aeq _ _ j lb E). }
  constructor; try done.
  - rewrite a_inode_set. unfold d', imeta in *. cbn [set_d_size d_mode d_links d_size d_uid d_gid d_perm d_reserved]. congruence.
  - intros j Hne. by rewrite a_inode_other by done.
  - apply H.
  - apply H.
  - intros j lb Hj Hlb Hne. rewrite Hfb'. by apply (so_other _ _ _ _ _ _ H).
  - intros p Hp. unfold fbyte at 1. rewrite Hfb'. by apply (so_byte _ _ _ _ _ _ H).
Qed.

Lemma wp_write P s a (f : file) (nd : inode) src size : dsk P None a s -> (Datatypes.S (length P) < MAX_PINS)%nat -> wf a ->
  f_inode f = Some nd -> inode_range (i_ino nd) -> truthy (Z.land (i_mode nd) VFS_MODE_DIR) = false -> private_data nd = Some mnt ->
  0 <= f_position f < 2 ^ 32 -> 0 < size <= zlen src -> bytes_ok src ->
  wp (capyfs_write f (Some src) size) s (fun r s' =>
    exists k a', r = (k, Some (set_i_size (d_size (a_inode a' (i_ino nd))) nd)) /\ dsk P None a' s' /\ mem s' = mem s /\
      file_written (i_ino nd) (f_position f) src k a a' /\ 0 <= k <= size /\ (k = 0 \/ f_position f + k <= MAX_FILE) /\
      stopped (f_position f) size a' k).
Proof.
  intros Hd Hl Hwf Hf Hino Hmode Hpriv Hpos Hsz Hsb. unfold capyfs_write.
  rewrite bool_decide_eq_false_2 by done. cbn [andb]. replace (size =? 0) with false by lia.
  rewrite Hf, Hmode. unfold inode_mount. rewrite Hpriv. apply wp_bind.
  eapply wp_read_inode; [exact Hlay | exact Hd | lia | exact Hino |]. intros s1 H1 Hm1. cbv beta iota zeta.
  apply wp_bind. eapply wp_mono; [apply (wp_write_loop P s1 (i_ino nd) (f_position f) src size a); try done; lia|].
  intros r s2 ([[k d] y] & a1 & -> & (H2 & Hm2 & Hin & Hst & Hk & Hkm & Hdy) & Hstop). cbn [default fst snd] in *.
  cbv [id]. cbv beta iota. rewrite (small_position (f_position f) k) by (done || lia). rewrite max_file in Hkm.
  pose proof (finish_write (i_ino nd) (f_position f) src k a a1 d Hino ltac:(lia) Hin Hst) as Hfw.
  set (ns := Z.max (d_size d) (f_position f + k)) in *.
  assert (Hsame : ns = d_size d -> set_d_size ns d = d) by (intros E; unfold set_d_size; rewrite E; by destruct d).
  replace (if negb (ns =? d_size d) then (set_d_size ns d, true) else (d, y)) with (set_d_size ns d, y || negb (ns =? d_size d)).
  2: { destruct (Z.eqb_spec ns (d_size d)) as [E|]; cbn [negb]; [by rewrite Hsame, orb_false_r | by rewrite orb_true_r]. }
  destruct (y || negb (ns =? d_size d)) eqn:Ey.
  - apply wp_bind. eapply wp_write_inode; [exact Hlay | exact H2 | lia | exact Hino | |].
    { pose proof (wf_inode _ (fw_wf _ _ _ _ _ _ Hfw) (i_ino nd) Hino) as Hok. by rewrite a_inode_set in Hok. }
    intros s3 H3 Hm3. apply wp_ret. exists k. eexists. split_and!; [| exact H3 | congruence | exact Hfw | lia | lia | rewrite max_file; lia | exact Hstop].
    by rewrite a_inode_set.
  - bools. assert (Ed : set_d_size ns d = a_inode a (i_ino nd)) by (rewrite Hsame by done; destruct Hdy as [|Hy]; congruence).
    assert (E : aeq (set_inode (i_ino nd) (set_d_size ns d) a1) a1) by (rewrite Ed, <- Hin; apply set_same_inode).
    apply wp_ret. exists k, (set_inode (i_ino nd) (set_d_size ns d) a1). rewrite max_file. split_and!; try done; try lia; [by rewrite a_inode_set | | congruence].
    eapply dsk_ext; [..|exact H2]; intros; symmetry; apply E.
Qed.

(** ** Reading *)
Definition file_bytes a ino pos n : list Z := map (fbyte a ino) (seqZ pos n).

Lemma zlen_file_bytes a ino pos n : 0 <= n -> zlen (file_bytes a ino pos n) = n.
Proof. apply zlen_map_seqZ. Qed.

Lemma file_bytes_get a ino pos n i : 0 <= i < n -> (file_bytes a ino pos n).[i] = fbyte a ino (pos + i).
Proof. intros. unfold file_bytes, aget. rewrite list_lookup_fmap, lookup_seqZ_lt by lia. simpl. f_equal. lia. Qed.

Lemma file_bytes_app a ino pos n m : 0 <= n -> 0 <= m -> file_bytes a ino pos (n + m) = file_bytes a ino pos n ++ file_bytes a ino (pos + n) m.
Proof. intros. unfold file_bytes. by rewrite seqZ_app, map_app by lia. Qed.

Lemma file_bytes_block a ino q c : 0 <= q -> 0 <= c -> q `mod` CAPYFS_BLOCK_SIZE + c <= CAPYFS_BLOCK_SIZE ->
  zlen (fblock a ino (q / CAPYFS_BLOCK_SIZE)) = CAPYFS_BLOCK_SIZE ->
  sub_bytes (fblock a ino (q / CAPYFS_BLOCK_SIZE)) (q `mod` CAPYFS_BLOCK_SIZE) c = file_bytes a ino q c.
Proof.
  intros Hq Hc Hfit Hl. pose proof (Z.mod_pos_bound q CAPYFS_BLOCK_SIZE ltac:(done)) as Hm.
  pose proof (zlen_file_bytes a ino q c Hc) as Hf. pose proof (zlen_sub (fblock a ino (q / CAPYFS_BLOCK_SIZE)) _ c (proj1 Hm) Hc ltac:(lia)) as Hs.
  apply (array_ext 0); [lia|]. intros i Hi. rewrite Hs in Hi. rewrite aget_sub, file_bytes_get by lia. unfold fbyte.
  assert (E : (q + i) / CAPYFS_BLOCK_SIZE = q / CAPYFS_BLOCK_SIZE /\ (q + i) `mod` CAPYFS_BLOCK_SIZE = q `mod` CAPYFS_BLOCK_SIZE + i).
  { unfold CAPYFS_BLOCK_SIZE in *. Z.div_mod_to_equations. lia. }
  by destruct E as [-> ->].
Qed.

(** The bytes a read of [size] at [pos] returns: up to the end of the file. *)
Definition readable a ino pos size : Z := Z.max 0 (Z.min size (Z.min (d_size (a_inode a ino)) MAX_FILE - pos)).

Lemma fblock_len a ino lb : wf a -> inode_range ino -> lb_range lb -> zlen (fblock a ino lb) = CAPYFS_BLOCK_SIZE.
Proof.
  intros Hwf Hino Hlb. unfold fblock, fblock_in. destruct (Z.eqb_spec (block_in a (a_inode a ino) lb) 0); [done|].
  apply (wf_data _ Hwf), (block_range a ino (a_inode a ino) lb); try done. by rewrite set_same_inode.
Qed.

Definition reading P s0 ino pos n dst a (t : Z * list Z) s : Prop :=
  dsk P None a s /\ mem s = mem s0 /\ 0 <= t.1 <= n /\ (t.1 = 0 \/ pos + t.1 <= MAX_FILE) /\
  t.2 = splice dst 0 (file_bytes a ino pos t.1).

Lemma wp_read_step P s0 s ino pos n a dst t : (length P < MAX_PINS)%nat -> wf a -> inode_range ino -> 0 <= pos < 2 ^ 32 ->
  n <= zlen dst -> reading P s0 ino pos n dst a t s ->
  wp (read_step mnt (a_inode a ino) pos n t) s (fun r s =>
    match r with
    | inl t' => reading P s0 ino pos n dst a t' s /\ io_measure pos n t'.1 < io_measure pos n t.1
    | inr t' => reading P s0 ino pos n dst a t' s /\ (t'.1 < n -> MAX_FILE <= pos + t'.1)
    end).
Proof.
  destruct t as [k buf]. unfold reading. cbn [fst snd]. intros Hl Hwf Hino Hpos Hn (Hd & Hm & Hk & Hkm & Hbuf).
  unfold read_step. destruct (Z.ltb_spec k n) as [Hlt|Hge]; cbn [negb].
  2: { apply wp_ret. cbn [fst snd]. split; [done | lia]. }
  rewrite small_position by (done || lia). set (q := pos + k). set (lb := q / CAPYFS_BLOCK_SIZE).
  destruct (io_chunk_range pos n k ltac:(lia)) as (Hc0 & Hc1 & Hc2 & Hc3).
  set (c := Z.min (CAPYFS_BLOCK_SIZE - (pos + k) `mod` CAPYFS_BLOCK_SIZE) (n - k)) in *. fold q in Hc2, Hc3.
  change (Z.min (CAPYFS_BLOCK_SIZE - q `mod` CAPYFS_BLOCK_SIZE) (n - k)) with c. cbv zeta.
  assert (Hlb0 : 0 <= lb) by (apply Z.div_pos; unfold q, CAPYFS_BLOCK_SIZE; lia).
  pose proof (set_same_inode ino a) as Es.
  apply wp_bind. eapply wp_block; [exact Hd | done | by rewrite Es | exact Hino | done |]. intros s1 H1 Hm1.
  pose proof (Z.div_mod q CAPYFS_BLOCK_SIZE ltac:(done)) as Eq. fold lb in Eq.
  destruct (Z.ltb_spec lb FILE_BLOCKS) as [Hlt2|Hge2].
  2: { apply wp_ret. cbn [fst snd]. split; [by split_and!; try done; try lia; congruence|]. intros _. fold q.
       rewrite file_blocks in Hge2. rewrite max_file. unfold CAPYFS_BLOCK_SIZE in *. lia. }
  assert (Hlb : lb_range lb) by done. pose proof (fblock_len a ino lb Hwf Hino Hlb) as Hfl.
  pose proof (file_bytes_block a ino q c ltac:(unfold q; lia) ltac:(lia) Hc2 Hfl) as Hfb. fold lb in Hfb.
  pose proof (zlen_file_bytes a ino pos k ltac:(lia)) as Hz1. pose proof (zlen_file_bytes a ino q c ltac:(lia)) as Hz2.
  assert (Hgo : forall s' dst', dsk P None a s' -> mem s' = mem s0 -> dst' = splice buf k (file_bytes a ino q c) ->
    (dsk P None a s' /\ mem s' = mem s0 /\ 0 <= (k + c, dst').1 <= n /\ ((k + c, dst').1 = 0 \/ pos + (k + c, dst').1 <= MAX_FILE) /\
      (k + c, dst').2 = splice dst 0 (file_bytes a ino pos (k + c, dst').1)) /\ io_measure pos n (k + c, dst').1 < io_measure pos n k).
  { intros s' dst' H' Hm' ->. cbn [fst snd]. split; [|by apply io_measure_step; lia]. split_and!; try done; try lia.
    - right. rewrite max_file. destruct Hlb as [_ Hlb]. rewrite file_blocks in Hlb. unfold q, CAPYFS_BLOCK_SIZE in *. lia.
    - rewrite Hbuf. rewrite file_bytes_app by lia. fold q. pose proof (splice_app dst (file_bytes a ino pos k) (file_bytes a ino q c) 0) as E.
      rewrite Hz1, Hz2 in E. rewrite Z.add_0_l in E. apply E; lia. }
  unfold fblock, fblock_in in Hfb. assert (Hbl : zlen buf = zlen dst) by (rewrite Hbuf, zlen_splice; lia).
  destruct (Z.eqb_spec (block_in a (a_inode a ino) lb) 0) as [E|E].
  - apply wp_ret, Hgo; [done | congruence |]. rewrite memset_spec by lia. f_equal. rewrite <- Hfb.
    apply (array_ext 0); [rewrite zlen_rep, zlen_sub; rewrite ?zlen_rep; unfold CAPYFS_BLOCK_SIZE in *; lia|].
    intros i Hi. rewrite zlen_rep in Hi by lia. rewrite aget_sub, !aget_rep by lia. done.
  - assert (Hbr : data_range (block_in a (a_inode a ino) lb)) by (apply (block_range a ino); [by rewrite Es | done..]).
    apply wp_bind. eapply dsk_get; [exact Hlay | exact H1 | exact Hbr | done |]. intros i s2 H2 Hm2. cbv beta iota.
    apply wp_bind. eapply dsk_data; [exact H2 | left | exact Hbr |].
    apply wp_bind. eapply dsk_release; [exact H2 | done |]. intros s3 H3 Hm3. apply wp_ret, Hgo; [done | congruence |].
    rewrite memcpy_spec; [by rewrite Hfb | lia | lia | lia | lia |].
    pose proof (proj1 (wf_data _ Hwf _ Hbr)). lia.
Qed.

Lemma wp_read P s a (f : file) (nd : inode) dst size : dsk P None a s -> (length P < MAX_PINS)%nat -> wf a ->
  f_inode f = Some nd -> inode_range (i_ino nd) -> truthy (Z.land (i_mode nd) VFS_MODE_DIR) = false -> private_data nd = Some mnt ->
  0 <= f_position f < 2 ^ 32 -> 0 < size <= zlen dst ->
  wp (capyfs_read f (Some dst) size) s (fun r s' =>
    let n := readable a (i_ino nd) (f_position f) size in
    r = (n, splice dst 0 (file_bytes a (i_ino nd) (f_position f) n), Some (set_i_size (d_size (a_inode a (i_ino nd))) nd)) /\
    dsk P None a s' /\ mem s' = mem s).
Proof.
  intros Hd Hl Hwf Hf Hino Hmode Hpriv Hpos Hsz. unfold capyfs_read. cbn [default]. replace (size =? 0) with false by lia.
  rewrite Hf, Hmode. unfold inode_mount. rewrite Hpriv. apply wp_bind.
  eapply wp_read_inode; [exact Hlay | exact Hd | lia | exact Hino |]. intros s1 H1 Hm1. cbv beta iota zeta.
  set (ino := i_ino nd) in *. set (pos := f_position f) in *. unfold readable. set (sz := d_size (a_inode a ino)) in *.
  pose proof (zlen_nonneg dst).
  destruct (Z.leb_spec sz pos) as [Hle|Hgt].
  { apply wp_ret. rewrite Z.max_l by lia. by split_and!. }
  set (n := Z.min size (sz - pos)). apply wp_bind.
  assert (Hstep := fun s t => wp_read_step P s1 s ino pos n a dst t Hl Hwf Hino Hpos ltac:(lia)).
  apply (wp_while _ _ _ _ (reading P s1 ino pos n dst a) (fun t => io_measure pos n t.1)).
  - by split_and!; try done; [cbn; lia | left].
  - apply io_measure_fuel; lia.
  - intros t s2 Ht. split; [apply io_measure_nonneg; apply Ht|]. eapply wp_mono; [exact (Hstep _ _ Ht)|].
    intros [t'|[k buf]] s3 H3; [exact H3|]. destruct H3 as ((H3 & Hm3 & Hk & Hkm & Hbuf) & Hstop). cbn [fst snd] in *.
    cbv [default from_option id]. apply wp_ret. rewrite max_file in *.
    assert (k = Z.max 0 (Z.min size (Z.min sz 4243456 - pos))) as <- by lia. rewrite Hbuf. split_and!; [done | done | congruence].
Qed.

(** ** Releasing the blocks of a file

    [D]: the places already released. *)
Record freeing a d (D : Z -> Prop) a' : Prop := {
  fr_inode j : a_inode a' j = a_inode a j;
  fr_iused j : a_iused a' j = a_iused a j;
  fr_freed k : D k -> slot_in a d k <> 0 -> a_used a' (slot_in a d k) = false;
  fr_kept b : (forall k, D k -> slot_in a d k <> b) -> a_used a' b = a_used a b;
  fr_data b : b <> indirect d -> a_data a' b = a_data a b }.

Lemma freeing_none a d : freeing a d (fun _ => False) a.
Proof. by constructor. Qed.

Lemma freeing_step a d D k a1 : freeing a d D a1 -> slot_in a d k <> 0 -> 
  freeing a d (fun j => D j \/ j = k) (set_used (slot_in a d k) false a1).
Proof.
  intros H Hne. constructor; try apply H.
  - intros j Hj Hnj. cbn. unfold fupd. destruct (Z.eqb_spec (slot_in a d j) (slot_in a d k)); [done|].
    destruct Hj as [Hj | ->]; [by apply H | done].
  - intros b Hb. cbn. unfold fupd. destruct (Z.eqb_spec b (slot_in a d k)) as [->|]; [|apply H; auto].
    by destruct (Hb k (or_intror eq_refl)).
Qed.

Lemma freeing_skip a d D k a1 : freeing a d D a1 -> slot_in a d k = 0 ->
  freeing a d (fun j => D j \/ j = k) a1.
Proof.
  intros H E. constructor; try apply H.
  - intros j [Hj | ->] Hne; [by apply H | done].
  - intros b Hb. apply H. auto.
Qed.

Lemma freeing_zeros a d (D D' : Z -> Prop) a1 : freeing a d D a1 -> (forall k, D k -> D' k) -> (forall k, D' k -> D k \/ slot_in a d k = 0) ->
  freeing a d D' a1.
Proof.
  intros H H1 H2. constructor; try apply H.
  - intros k Hk Hne. destruct (H2 k Hk); [by apply H | done].
  - intros b Hb. apply H. auto.
Qed.

Lemma freeing_iff a d D D' a1 : (forall k, D k <-> D' k) -> freeing a d D a1 -> freeing a d D' a1.
Proof.
  intros E H. constructor; try apply H.
  - intros k Hk. by apply H, E.
  - intros b Hb. apply H. intros k Hk. by apply Hb, E.
Qed.

Lemma freeing_set_data a d D a1 dat : freeing a d D a1 -> freeing a d D (set_data (indirect d) dat a1).
Proof. intros H. constructor; try apply H. intros b Hb. cbn. unfold fupd. replace (b =? indirect d) with false by lia. by apply H. Qed.

Lemma slot_data_range a ino d k : wf (set_inode ino d a) -> inode_range ino -> slot_range k -> slot_in a d k <> 0 -> data_range (slot_in a d k).
Proof. intros Hwf Hino Hk Hne. pose proof (wf_slot _ Hwf ino k Hino Hk) as H. rewrite slot_set in H. by apply H. Qed.

(** One entry of the indirect block. *)
Lemma wp_free_entry P Y a a1 s ino d D i e : dsk ((i, indirect d) :: P) Y a1 s -> Y = None \/ Y = Some i ->
  (Datatypes.S (length P) < MAX_PINS)%nat -> wf (set_inode ino d a) -> inode_range ino -> indirect d <> 0 -> 0 <= e < 1024 ->
  freeing a d D a1 -> entry_of a1 (indirect d) e = entry_of a (indirect d) e ->
  wp (free_entry mnt i e) s (fun _ s' => exists Y' a2, dsk ((i, indirect d) :: P) Y' a2 s' /\ mem s' = mem s /\ (Y' = None \/ Y' = Some i) /\
    freeing a d (fun j => D j \/ j = 13 + e) a2 /\
    (forall e', 0 <= e' < 1024 -> e' <> e -> entry_of a2 (indirect d) e' = entry_of a1 (indirect d) e')).
Proof.
  intros Hd HY Hl Hwf Hino Hx He Hfr Eent. set (x := indirect d) in *. unfold free_entry.
  destruct (indirect_range a ino d Hwf Hino Hx) as [Hxr _]. fold x in Hxr.
  assert (Es : slot_in a d (13 + e) = entry_of a x e).
  { unfold slot_in. replace (13 + e <? 12) with false by lia. replace (13 + e =? 12) with false by lia. fold x.
    replace (x =? 0) with false by lia. f_equal. lia. }
  destruct (dsk_len _ _ Hlay _ _ _ _ x Hd Hxr) as [Hxl Hxb].
  apply wp_bind. eapply dsk_data; [exact Hd | left | exact Hxr |].
  change (load_le (a_data a1 x) (4 * e) 4) with (entry_of a1 x e). rewrite Eent. unfold truthy.
  destruct (Z.eqb_spec (entry_of a x e) 0) as [E|E]; cbn [negb].
  - apply wp_ret. exists Y, a1. split_and!; try done. apply freeing_skip; [done | by rewrite Es].
  - rewrite <- Es in *. set (b := slot_in a d (13 + e)) in *.
    assert (Hk : slot_range (13 + e)) by (unfold slot_range; rewrite slots; lia).
    pose proof (slot_data_range a ino d (13 + e) Hwf Hino Hk E) as Hbr. fold b in Hbr.
    apply wp_bind. eapply wp_free_block; [exact Hlay | exact Hd | done | exact Hbr |]. intros s1 H1 Hm1.
    apply wp_bind. eapply dsk_data; [exact H1 | left | exact Hxr |]. cbn [set_used a_data].
    unfold CAPYFS_BLOCK_SIZE in *.
    eapply dsk_store; [exact Hlay | exact H1 | exact HY | left | exact Hxr | unfold CAPYFS_BLOCK_SIZE; rewrite zlen_store; lia | by apply store_bytes |].
    intros s2 H2 Hm2. eexists (Some i), _. split_and!; [exact H2 | congruence | by right | |].
    + apply freeing_set_data. by apply freeing_step.
    + intros e' He' Hne. unfold entry_of. cbn [set_data set_used a_data]. unfold fupd. rewrite Z.eqb_refl.
      apply load_store_other; lia.
Qed.

Lemma wp_free_direct P a s ino d i d1 a1 (Q : capy_inode_disk -> fsys S -> Prop) : dsk P None a1 s -> (length P < MAX_PINS)%nat -> wf (set_inode ino d a) -> inode_range ino ->
  0 <= i < 12 -> freeing a d (fun k => 0 <= k < i) a1 -> (direct d1).[i] = (direct d).[i] ->
  (forall a2 s', dsk P None a2 s' -> mem s' = mem s -> freeing a d (fun k => 0 <= k < i + 1) a2 -> (forall b, a_data a2 b = a_data a1 b) ->
     Q (if truthy (direct d1).[i] then set_direct i 0 d1 else d1) s') ->
  wp (if truthy (direct d1).[i] then bind (capyfs_free_block mnt (direct d1).[i]) (fun _ => ret (set_direct i 0 d1)) else ret d1) s Q.
Proof.
  intros Hd Hl Hwf Hino Hi Hfr E HQ. assert (Es : slot_in a d i = (direct d).[i]) by (unfold slot_in; by replace (i <? 12) with true by lia).
  assert (Hiff : forall a2, freeing a d (fun k => 0 <= k < i \/ k = i) a2 -> freeing a d (fun k => 0 <= k < i + 1) a2).
  { intros a2. apply freeing_iff. intros k. lia. }
  rewrite E, <- Es in *. unfold truthy in *. destruct (Z.eqb_spec (slot_in a d i) 0) as [E0|E0]; cbn [negb] in *.
  - apply wp_ret. apply (HQ a1); try done. apply Hiff. by apply freeing_skip.
  - assert (Hk : slot_range i) by (unfold slot_range; rewrite slots; lia).
    apply wp_bind. eapply wp_free_block; [exact Hlay | exact Hd | done | by apply (slot_data_range a ino d i) |].
    intros s1 H1 Hm1. apply wp_ret. eapply HQ; [exact H1 | done | | done]. apply Hiff. by apply freeing_step.
Qed.

(** Every block the file refers to is free again. *)
Lemma wp_free_data_blocks P a s ino d : dsk P None a s -> (Datatypes.S (length P) < MAX_PINS)%nat -> wf (set_inode ino d a) -> inode_range ino ->
  wp (capyfs_free_data_blocks mnt d) s (fun d' s' => exists a', dsk P None a' s' /\ mem s' = mem s /\ freeing a d slot_range a' /\
    d_size d' = 0 /\ indirect d' = 0 /\ forall k, 0 <= k < 12 -> (direct d').[k] = 0).
Proof.
  intros Hd Hl Hwf Hino. pose proof (wf_inode _ Hwf ino Hino) as Hok. rewrite a_inode_set in Hok. pose proof (io_direct _ Hok) as Hdl.
  unfold capyfs_free_data_blocks. apply wp_bind.
  eapply (wp_each _ _ _ _ _ (fun i d1 s1 => exists a1, dsk P None a1 s1 /\ mem s1 = mem s /\ freeing a d (fun k => 0 <= k < i) a1 /\
    (forall b, a_data a1 b = a_data a b) /\ zlen (direct d1) = 12 /\ indirect d1 = indirect d /\ (forall k, 0 <= k < i -> (direct d1).[k] = 0) /\
    forall k, i <= k < 12 -> (direct d1).[k] = (direct d).[k])); [lia | | |].
  - exists a. split_and!; try done; [|lia]. apply (freeing_iff a d (fun _ => False)); [lia | apply freeing_none].
  - intros i d1 s1 Hi (a1 & H1 & Hm1 & Hfr & Hdat & Hz & Hind & Hlo & Hhi). cbv zeta.
    eapply (wp_free_direct P a s1 ino d i d1 a1); try done; [lia | apply Hhi; lia |].
    intros a2 s2 H2 Hm2 Hfr2 Hdat2. exists a2. split_and!; try done; [congruence | intros b; by rewrite Hdat2 | by destruct (truthy _); cbn; rewrite ?zlen_aset
      | by destruct (truthy _) | |].
    + intros k Hk. unfold truthy. destruct (Z.eqb_spec (direct d1).[i] 0) as [E|E]; cbn [negb set_direct direct].
      * destruct (Z.eq_dec k i) as [->|]; [done | apply Hlo; lia].
      * rewrite aget_aset by lia. destruct (Z.eqb_spec k i); [done | apply Hlo; lia].
    + intros k Hk. destruct (truthy _); cbn [set_direct direct]; [rewrite aget_aset_ne by lia|]; apply Hhi; lia.
  - intros d1 s1 (a1 & H1 & Hm1 & Hfr & Hdat & Hz & Hind & Hlo & _). apply wp_bind. rewrite Hind. unfold truthy.
    destruct (Z.eqb_spec (indirect d) 0) as [E|E]; cbn [negb].
    { apply wp_ret, wp_ret. exists a1. cbn [set_d_size d_size indirect direct]. split_and!; try done; [|congruence].
      eapply freeing_zeros; [exact Hfr | |]; unfold slot_range; rewrite slots; intros k Hk; [lia|].
      unfold slot_in. destruct (Z.ltb_spec k 12); [left; lia | right]. destruct (k =? 12); [done|]. by rewrite E. }
    destruct (indirect_range a ino d Hwf Hino E) as [Hxr _].
    apply wp_bind. eapply dsk_get; [exact Hlay | exact H1 | exact Hxr | lia |]. intros i s2 H2 Hm2. cbv beta iota.
    apply wp_bind, wp_bind. change entries_per_indirect with 1024.
    eapply (wp_each _ _ _ _ _ (fun e _ s3 => exists Y a3, dsk ((i, indirect d) :: P) Y a3 s3 /\ mem s3 = mem s /\ (Y = None \/ Y = Some i) /\
      freeing a d (fun k => 0 <= k < 12 \/ 13 <= k < 13 + e) a3 /\
      forall e', e <= e' < 1024 -> entry_of a3 (indirect d) e' = entry_of a (indirect d) e')); [lia | | |].
    + exists None, a1. split_and!; try done; [congruence | by left | |].
      * eapply freeing_iff; [|exact Hfr]. intros k. cbn. lia.
      * intros e' _. unfold entry_of. by rewrite Hdat.
    + intros e _ s3 He (Y & a3 & H3 & Hm3 & HY & Hfr3 & Hent).
      eapply wp_mono; [eapply (wp_free_entry P Y a a3 s3 ino d); try done; apply Hent; lia|].
      intros _ s4 (Y' & a4 & H4 & Hm4 & HY' & Hfr4 & Hent4). exists Y', a4. split_and!; try done; [congruence | |].
      * eapply freeing_iff; [|exact Hfr4]. intros k. cbn. lia.
      * intros e' He'. rewrite Hent4 by lia. apply Hent. lia.
    + intros _ s3 (Y & a3 & H3 & Hm3 & HY & Hfr3 & _).
      apply wp_bind. eapply dsk_mark; [exact H3 | exact HY | left |]. intros s4 H4 Hm4.
      eapply dsk_release; [exact H4 | done |]. intros s5 H5 Hm5.
      apply wp_bind. eapply wp_free_block; [exact Hlay | exact H5 | lia | exact Hxr |]. intros s6 H6 Hm6. apply wp_ret, wp_ret.
      eexists. split_and!; [exact H6 | congruence | | done | done | done].
      pose proof (freeing_step a d _ 12 a3 Hfr3 E) as Hf. eapply freeing_iff; [|exact Hf].
      intros k. unfold slot_range. rewrite slots. cbn. lia.
Qed.

(** The disk once an inode without blocks is stored in the place of the released one. *)
Record erased ino a a' : Prop := {
  er_wf : wf a';
  er_inode j : j <> ino -> a_inode a' j = a_inode a j;
  er_iused j : a_iused a' j = a_iused a j;
  er_free k : slot_range k -> slot a ino k <> 0 -> a_used a' (slot a ino k) = false;
  er_kept b : (forall k, slot_range k -> slot a ino k <> b) -> a_used a' b = a_used a b;
  er_slot j k : inode_range j -> slot_range k -> j <> ino -> slot a' j k = slot a j k;
  er_other j lb : inode_range j -> lb_range lb -> j <> ino -> fblock a' j lb = fblock a j lb;
  er_hole lb : fblock a' ino lb = zrep CAPYFS_BLOCK_SIZE 0 }.

Definition no_blocks d : Prop := indirect d = 0 /\ forall k, (direct d).[k] = 0.

Lemma no_blocks_slot a d k : no_blocks d -> slot_in a d k = 0.
Proof. intros [E H]. unfold slot_in. rewrite E. by destruct (k <? 12), (k =? 12). Qed.

Lemma freed_erased a ino a1 z : wf a -> inode_range ino -> freeing a (a_inode a ino) slot_range a1 -> inode_ok z -> no_blocks z ->
  (forall b, data_range b -> zlen (a_data a1 b) = CAPYFS_BLOCK_SIZE /\ bytes_ok (a_data a1 b)) ->
  erased ino a (set_inode ino z a1).
Proof.
  intros Hwf Hino H Hz Hzb Hdat.
  assert (Hd : forall j k, inode_range j -> slot_range k -> j <> ino -> slot a j k <> 0 ->
    a_data a1 (slot a j k) = a_data a (slot a j k)).
  { intros j k Hj Hk Hne H0. apply (fr_data _ _ _ _ H). intros E. apply Hne.
    apply (wf_inj _ Hwf j ino k 12); done. }
  assert (Hs : forall j k, inode_range j -> slot_range k -> j <> ino -> slot (set_inode ino z a1) j k = slot a j k).
  { intros j k Hj Hk Hne. unfold slot. rewrite a_inode_other, (fr_inode _ _ _ _ H) by done.
    apply (slot_in_data a). intros H0. apply (Hd j 12 Hj range12 Hne H0). }
  assert (Hs0 : forall k, slot (set_inode ino z a1) ino k = 0) by (intros k; rewrite slot_set; by apply no_blocks_slot).
  constructor; [constructor|..].
  - intros j Hj. destruct (Z.eq_dec j ino) as [->|Hne]; [by rewrite a_inode_set|].
    rewrite a_inode_other, (fr_inode _ _ _ _ H) by done. by apply Hwf.
  - intros j k Hj Hk. destruct (Z.eq_dec j ino) as [->|Hne]; [by rewrite Hs0|]. rewrite Hs by done. intros H0.
    destruct (wf_slot _ Hwf j k Hj Hk H0) as [Hr Hu]. split; [done|]. cbn [set_inode a_used]. rewrite <- Hu.
    apply (fr_kept _ _ _ _ H). intros k' Hk' E. apply Hne. symmetry. apply (wf_inj _ Hwf ino j k' k); try done.
    change (slot a ino k' <> 0). unfold slot. by rewrite E.
  - intros i j k k' Hi Hj Hk Hk'. destruct (Z.eq_dec i ino) as [->|Hni]; [by rewrite Hs0|].
    destruct (Z.eq_dec j ino) as [->|Hnj]; [rewrite Hs0; by intros ? ?|]. rewrite !Hs by done. by apply (wf_inj _ Hwf).
  - done.
  - intros j Hne. rewrite a_inode_other by done. apply H.
  - apply H.
  - intros k Hk. apply (fr_freed _ _ _ _ H k Hk).
  - intros b Hb. apply (fr_kept _ _ _ _ H b Hb).
  - done.
  - intros j lb Hj Hlb Hne. destruct (lb_slot_range lb Hlb) as [Hr H12]. unfold fblock, fblock_in. rewrite !block_slot, Hs by done.
    destruct (Z.eqb_spec (slot a j (lb_slot lb)) 0) as [|H0]; [done|]. by apply (Hd j (lb_slot lb)).
  - intros lb. unfold fblock, fblock_in. by rewrite block_slot, Hs0.
Qed.
End files.
