(* ===== verification/CapyFsDir.v ===== *)
(** * Directories of a CAPYFS disk

    A directory is the list of entries its blocks hold, each free or a name with an
    inode number.  Here: C strings, one entry inside a block, and what the search,
    the insertion and the removal of an entry do to the directory. *)
From S2P Require Import Prelude BufferCache Buffers CapyFs CapyFsDisk CapyFsFile.
Local Open Scope capy_scope.

#[local] Opaque le_bytes.

(** ** Names *)
Fixpoint cstr (l : list Z) : list Z :=
  match l with
  | [] => []
  | c :: l => if c =? 0 then [] else c :: cstr l
  end.

(** Names the operations accept. *)
Definition name_ok (name : list Z) : Prop := Forall (fun c => 0 < c < 256) name /\ 0 < zlen name < CAPYFS_NAME_MAX.

Lemma cstr_app name rest : Forall (fun c => 0 < c < 256) name -> cstr (name ++ 0 :: rest) = name.
Proof. induction 1 as [|c l Hc Hl IH]; [done|]. simpl. replace (c =? 0) with false by lia. by rewrite IH. Qed.

Lemma cstr_nonzero l i : 0 <= i < zlen (cstr l) -> (cstr l).[i] = l.[i] /\ l.[i] <> 0.
Proof.
  revert i. induction l as [|c l IH]; intros i Hi; [unfold zlen in Hi; simpl in Hi; lia|]. simpl in *.
  destruct (Z.eqb_spec c 0); [unfold zlen in Hi; simpl in Hi; lia|]. rewrite zlen_cons in Hi.
  destruct (Z.eq_dec i 0) as [->|]; [done|]. specialize (IH (i - 1) ltac:(lia)).
  unfold aget in *. by replace (Z.to_nat i) with (Datatypes.S (Z.to_nat (i - 1))) by lia.
Qed.

Lemma cstr_end l : zlen (cstr l) <= zlen l /\ l.[zlen (cstr l)] = 0.
Proof.
  induction l as [|c l [IH1 IH2]]; [done|]. simpl. destruct (Z.eqb_spec c 0) as [->|]; [rewrite zlen_cons; pose proof (zlen_nonneg l); split; [unfold zlen at 1; simpl; lia | done]|].
  rewrite !zlen_cons. split; [lia|]. pose proof (zlen_nonneg (cstr l)). unfold aget in *.
  by replace (Z.to_nat (1 + zlen (cstr l))) with (Datatypes.S (Z.to_nat (zlen (cstr l)))) by lia.
Qed.

(** A list without zeros is the string of any list that goes on with a zero after it. *)
Lemma cstr_unique l name : Forall (fun c => 0 < c < 256) name -> (forall i, 0 <= i < zlen name -> l.[i] = name.[i]) -> l.[zlen name] = 0 ->
  cstr l = name.
Proof.
  intros Hn. revert l. induction Hn as [|c n Hc Hn IH]; intros l Heq Hz.
  - destruct l as [|c l]; [done|]. simpl. change (c = 0) in Hz. by rewrite Hz.
  - rewrite zlen_cons in *. pose proof (zlen_nonneg n). destruct l as [|c' l].
    { specialize (Heq 0 ltac:(lia)). unfold aget in Heq. simpl in Heq. lia. }
    pose proof (Heq 0 ltac:(lia)) as E0. unfold aget in E0. simpl in E0. subst c'. simpl. replace (c =? 0) with false by lia. f_equal.
    assert (Hs : forall i, 0 <= i -> forall (x : Z) y, (x :: y).[1 + i] = y.[i]).
    { intros i Hi x y. unfold aget. by replace (Z.to_nat (1 + i)) with (Datatypes.S (Z.to_nat i)) by lia. }
    apply IH; [|by rewrite Hs in Hz]. intros i Hi. specialize (Heq (1 + i) ltac:(lia)). by rewrite !Hs in Heq by lia.
Qed.

Lemma names_equal_cstr field name : name_ok name -> zlen field = CAPYFS_NAME_MAX ->
  names_equal field name = bool_decide (cstr field = name).
Proof.
  intros [Hn Hl] Hf. unfold names_equal.
  assert (Hnz : forall i, 0 <= i < zlen name -> name.[i] <> 0).
  { intros i Hi E. assert (Hb : 0 < name.[i] < 256); [|lia]. unfold aget.
    destruct (lookup_lt_is_Some_2 name (Z.to_nat i)) as [c Hc]; [unfold zlen in Hi; lia|].
    rewrite Hc. by apply (Forall_lookup_1 _ _ _ _ Hn Hc). }
  assert (Hend : forall i, 0 <= i -> name.[i] = 0 -> zlen name <= i).
  { intros i Hi E. destruct (Z.lt_ge_cases i (zlen name)); [by destruct (Hnz i) | done]. }
  assert (Hpre : forall i, 0 <= i -> (forall j, 0 <= j < i -> name.[j] <> 0) -> i <= zlen name).
  { intros i Hi Hj. destruct (Z.le_gt_cases i (zlen name)); [done|]. destruct (Hj (zlen name)); [pose proof (zlen_nonneg name); lia|].
    by apply aget_out. }
  match goal with |- match until_range 0 CAPYFS_NAME_MAX ?b tt with _ => _ end = _ => set (body := b) end.
  assert (H : match until_range 0 CAPYFS_NAME_MAX body tt with
    | inl _ => forall j, 0 <= j < CAPYFS_NAME_MAX -> field.[j] = name.[j] /\ name.[j] <> 0
    | inr r => r = bool_decide (cstr field = name) end).
  { apply (until_range_ind (fun i (_ : unit) => forall j, 0 <= j < i -> field.[j] = name.[j] /\ name.[j] <> 0)
      (fun r => r = bool_decide (cstr field = name))); [done | intros; lia|].
    intros i [] Hi Hj. unfold body, truthy.
    assert (Hil : name.[i] <> 0 -> cstr field = name -> field.[i] = name.[i] /\ field.[i] <> 0).
    { intros En E. destruct (cstr_nonzero field i) as [E1 E2]; [|by rewrite E in E1].
      rewrite E. split; [lia|]. destruct (Z.lt_ge_cases i (zlen name)); [done|]. destruct En. by apply aget_out. }
    assert (Hle : name.[i] = 0 -> zlen name = i).
    { intros En. pose proof (Hend i ltac:(lia) En). pose proof (Hpre i ltac:(lia) (fun j Hj' => proj2 (Hj j Hj'))). lia. }
    destruct (Z.eqb_spec field.[i] 0) as [Ef|Ef], (Z.eqb_spec name.[i] 0) as [En|En]; cbn [andb negb].
    - rewrite Ef, En, Z.eqb_refl. symmetry. apply bool_decide_eq_true_2. pose proof (Hle En).
      apply cstr_unique; [done | intros j Hjl; apply Hj; lia | congruence].
    - replace (field.[i] =? name.[i]) with false by lia. symmetry. apply bool_decide_eq_false_2. intros E. by destruct (Hil En E).
    - replace (field.[i] =? name.[i]) with false by lia. symmetry. apply bool_decide_eq_false_2. intros E.
      pose proof (proj2 (cstr_end field)) as Ez. rewrite E, (Hle En) in Ez. done.
    - destruct (Z.eqb_spec field.[i] name.[i]) as [E|E]; cbn [negb].
      + intros j Hji. destruct (Z.eq_dec j i) as [->|]; [done | apply Hj; lia].
      + symmetry. apply bool_decide_eq_false_2. intros Ec. by destruct (Hil En Ec). }
  destruct (until_range _ _ _ _) as [[]|r]; [|done]. exfalso.
  assert (CAPYFS_NAME_MAX <= zlen name); [|lia]. apply Hpre; [done|]. intros j Hj. by apply H.
Qed.

(** ** One entry of a block *)
Lemma zlen_dirent_name data off : 0 <= off < entries_per_block -> zlen data = CAPYFS_BLOCK_SIZE ->
  zlen (de_name (dirent_at data off)) = CAPYFS_NAME_MAX.
Proof.
  change entries_per_block with 113. unfold CAPYFS_BLOCK_SIZE. intros Ho Hl. unfold dirent_at, dirent_of_bytes. cbn [de_name].
  unfold DIRENT_SIZE, CAPYFS_NAME_MAX. rewrite zlen_sub; rewrite ?zlen_sub; lia.
Qed.

Lemma dirent_zero off : 0 <= off < entries_per_block -> de_ino (dirent_at (zrep CAPYFS_BLOCK_SIZE 0) off) = 0.
Proof.
  change entries_per_block with 113. intros. unfold dirent_at, dirent_of_bytes. cbn [de_ino]. unfold load_le, DIRENT_SIZE.
  rewrite sub_bytes_sub by lia. replace (off * 36 + 0) with (off * 36) by lia.
  apply zero_entries; unfold CAPYFS_BLOCK_SIZE; lia.
Qed.

Lemma load_sub b off n o k : 0 <= off -> 0 <= n -> 0 <= o -> o + Z.of_nat k <= n -> load_le (sub_bytes b off n) o k = load_le b (off + o) k.
Proof. intros. unfold load_le. by rewrite sub_bytes_sub by lia. Qed.

Lemma dirent_at_parts data off : 0 <= off ->
  dirent_at data off = mkDirent (load_le data (off * DIRENT_SIZE) 4) (sub_bytes data (off * DIRENT_SIZE + 4) CAPYFS_NAME_MAX).
Proof.
  intros. unfold dirent_at, dirent_of_bytes, DIRENT_SIZE, CAPYFS_NAME_MAX. rewrite load_sub, sub_bytes_sub by lia.
  do 2 f_equal; lia.
Qed.

(** Changing bytes of entry [off] only. *)
Lemma dirent_other data data' off off' : 0 <= off < entries_per_block -> 0 <= off' < entries_per_block -> off' <> off ->
  (forall o n, 0 <= o -> 0 <= n -> o + n <= CAPYFS_BLOCK_SIZE -> o + n <= off * DIRENT_SIZE \/ (off + 1) * DIRENT_SIZE <= o -> sub_bytes data' o n = sub_bytes data o n) ->
  dirent_at data' off' = dirent_at data off'.
Proof.
  intros Ho Ho' Hne H. rewrite !dirent_at_parts by lia. unfold load_le. change entries_per_block with 113 in *.
  unfold DIRENT_SIZE, CAPYFS_NAME_MAX, CAPYFS_BLOCK_SIZE in *. rewrite !H by lia. done.
Qed.

Lemma sub_aset_other (l : list Z) i v o n : 0 <= i < zlen l -> 0 <= o -> 0 <= n -> o + n <= zlen l -> o + n <= i \/ i + 1 <= o ->
  sub_bytes (aset l i v) o n = sub_bytes l o n.
Proof.
  intros. assert (E : aset l i v = splice l i [v]).
  { rewrite <- (splice_aset l i v []) by (change (zlen (@nil Z)) with 0; lia). by rewrite splice_nil by lia. }
  rewrite E. apply sub_splice_other; change (zlen [v]) with 1; lia.
Qed.

Lemma name_bytes name : name_ok name -> bytes_ok name.
Proof. intros [H _]. eapply Forall_impl; [exact H|]. intros c Hc. unfold byte_ok. cbn in Hc. lia. Qed.

Lemma cstring_copy_eq buf o name : name_ok name -> cstring_copy buf o name = aset (splice buf o name) (o + zlen name) 0.
Proof.
  intros [_ Hl]. unfold cstring_copy, CAPYFS_NAME_MAX in *. cbv zeta. rewrite Z.min_r, ztake_all by lia. done.
Qed.

(** Writing a name into the field at [o]. *)
Lemma cstring_copy_spec buf o name : name_ok name -> 0 <= o -> o + CAPYFS_NAME_MAX <= zlen buf ->
  let buf' := cstring_copy buf o name in
  zlen buf' = zlen buf /\ (bytes_ok buf -> bytes_ok buf') /\ cstr (sub_bytes buf' o CAPYFS_NAME_MAX) = name /\
  forall p n, 0 <= p -> 0 <= n -> p + n <= zlen buf -> p + n <= o \/ o + CAPYFS_NAME_MAX <= p ->
    sub_bytes buf' p n = sub_bytes buf p n.
Proof.
  intros Hn Ho Hf. cbv zeta. rewrite cstring_copy_eq by done. pose proof (proj2 Hn) as Hl. unfold CAPYFS_NAME_MAX in *.
  assert (Hz : zlen (splice buf o name) = zlen buf) by (apply zlen_splice; lia). split_and!.
  - by rewrite zlen_aset.
  - intros Hb. apply aset_byte; [|apply byte0]. apply Forall_splice; [done | by apply name_bytes].
  - apply cstr_unique; [apply Hn | |].
    + intros i Hi. rewrite aget_sub, aget_aset by lia. replace (o + i =? o + zlen name) with false by lia.
      rewrite aget_splice by lia. replace ((o <=? o + i) && (o + i <? o + zlen name)) with true by lia. f_equal. lia.
    + rewrite aget_sub, aget_aset by lia. by rewrite Z.eqb_refl.
  - intros p n Hp Hnn Hpn Hd. rewrite sub_aset_other by lia. apply sub_splice_other; lia.
Qed.

Lemma sub_store_other b off n v o k : 0 <= off -> off + Z.of_nat n <= zlen b -> 0 <= o -> 0 <= k -> o + k <= zlen b ->
  o + k <= off \/ off + Z.of_nat n <= o -> sub_bytes (store_le b off n v) o k = sub_bytes b o k.
Proof. intros. unfold store_le. pose proof (zlen_le_bytes n v). apply sub_splice_other; lia. Qed.

Definition edits (data data' : list Z) (off : Z) : Prop :=
  zlen data' = CAPYFS_BLOCK_SIZE /\ (bytes_ok data -> bytes_ok data') /\
  forall off', 0 <= off' < entries_per_block -> off' <> off -> dirent_at data' off' = dirent_at data off'.

Lemma put_dirent_spec data off ino name : zlen data = CAPYFS_BLOCK_SIZE -> 0 <= off < entries_per_block -> 0 <= ino < 2 ^ 32 -> name_ok name ->
  edits data (put_dirent data off ino name) off /\
  de_ino (dirent_at (put_dirent data off ino name) off) = ino /\ cstr (de_name (dirent_at (put_dirent data off ino name) off)) = name.
Proof.
  intros Hl Ho Hi Hn. pose proof Ho as Ho'. change entries_per_block with 113 in Ho'. unfold put_dirent.
  assert (Hz : zlen (store_le data (off * DIRENT_SIZE) 4 ino) = zlen data).
  { apply zlen_store; unfold DIRENT_SIZE, CAPYFS_BLOCK_SIZE in *; lia. }
  destruct (cstring_copy_spec (store_le data (off * DIRENT_SIZE) 4 ino) (off * DIRENT_SIZE + 4) name Hn) as (H1 & H2 & H3 & H4);
    [unfold DIRENT_SIZE; lia | unfold DIRENT_SIZE, CAPYFS_NAME_MAX, CAPYFS_BLOCK_SIZE in *; lia |].
  set (buf' := cstring_copy _ _ _) in *. split_and!.
  - split_and!; [congruence | intros Hb; by apply H2, store_bytes |]. intros off' Hr Hne.
    apply (dirent_other data buf' off); try done. intros o n H0 Hn0 Hon Hd.
    unfold DIRENT_SIZE, CAPYFS_NAME_MAX, CAPYFS_BLOCK_SIZE in *. rewrite H4 by lia. apply sub_store_other; lia.
  - rewrite dirent_at_parts by lia. cbn [de_ino]. unfold load_le.
    unfold DIRENT_SIZE, CAPYFS_NAME_MAX, CAPYFS_BLOCK_SIZE in *. rewrite H4 by lia. apply load_store_same; lia.
  - rewrite dirent_at_parts by lia. exact H3.
Qed.

Lemma wipe_dirent_spec data off : zlen data = CAPYFS_BLOCK_SIZE -> 0 <= off < entries_per_block ->
  edits data (wipe_dirent data off) off /\ de_ino (dirent_at (wipe_dirent data off) off) = 0.
Proof.
  intros Hl Ho. pose proof Ho as Ho'. change entries_per_block with 113 in Ho'. unfold wipe_dirent.
  unfold DIRENT_SIZE, CAPYFS_NAME_MAX, CAPYFS_BLOCK_SIZE in *.
  assert (Hz : zlen (store_le data (off * 36) 4 0) = zlen data) by (apply zlen_store; lia). split_and!.
  - split_and!; [by rewrite zlen_aset, Hz | intros Hb; apply aset_byte; [by apply store_bytes | apply byte0] |]. intros off' Hr Hne.
    apply (dirent_other data _ off); try done. intros o n H0 Hn0 Hon Hd. unfold DIRENT_SIZE, CAPYFS_BLOCK_SIZE in *.
    rewrite sub_aset_other by lia. apply sub_store_other; lia.
  - rewrite dirent_at_parts by lia. cbn [de_ino]. unfold load_le, DIRENT_SIZE. rewrite sub_aset_other by lia. apply load_store_same; lia.
Qed.

(** ** Directories *)
Definition MAX_ENTRIES : Z := FILE_BLOCKS * entries_per_block.
Definition dcount (d : capy_inode_disk) : Z := d_size d / DIRENT_SIZE.
Definition dent (a : adisk) (dir i : Z) : capy_dirent_disk := dirent_at (fblock a dir (i / entries_per_block)) (i `mod` entries_per_block).

(** What entry [i] lists: a name and an inode, or nothing. *)
Definition listing (e : capy_dirent_disk) : option (list Z * Z) :=
  if de_ino e =? 0 then None else Some (cstr (de_name e), de_ino e).
Definition entry (a : adisk) (dir i : Z) : option (list Z * Z) := listing (dent a dir i).

Definition listed (a : adisk) (dir : Z) (name : list Z) (c : Z) : Prop :=
  exists i, 0 <= i < dcount (a_inode a dir) /\ entry a dir i = Some (name, c).

Lemma entry_parts i : 0 <= i < MAX_ENTRIES -> 0 <= i / entries_per_block < FILE_BLOCKS /\ 0 <= i `mod` entries_per_block < entries_per_block.
Proof.
  unfold MAX_ENTRIES. rewrite file_blocks. change entries_per_block with 113. intros.
  split; [split; [apply Z.div_pos | apply Z.div_lt_upper_bound]; lia | apply Z.mod_pos_bound; lia].
Qed.

Lemma entry_same i j : 0 <= i -> 0 <= j -> i / entries_per_block = j / entries_per_block ->
  i `mod` entries_per_block = j `mod` entries_per_block -> i = j.
Proof. intros _ _ E1 E2. rewrite (Z.div_mod i entries_per_block), (Z.div_mod j entries_per_block), E1, E2 by done. done. Qed.

Section dirs.
Context {S : Type} `{!Buffers S} (mnt : capyfs_mount) (count : Z) `{!BufferSpec (S := S) (m_dev mnt) count}.
Local Abbreviation l := (super mnt).
Context (Hlay : layout_ok l count).
Implicit Types (s : fsys S) (P : list (Z * Z)) (i n b c dir ino j k lb : Z) (a : adisk) (d : capy_inode_disk) (name : list Z).
Local Abbreviation data_range := (data_range mnt).
Local Abbreviation dsk := (dsk mnt count).
Local Abbreviation wf := (wf mnt).
Local Abbreviation inode_range := (inode_range mnt).
Local Abbreviation grows := (grows mnt).

(** An entry with its block: in a hole there is none. *)
Lemma entry_block a dir i : wf a -> inode_range dir -> 0 <= i < MAX_ENTRIES ->
  let b := block_in a (a_inode a dir) (i / entries_per_block) in
  (b = 0 -> entry a dir i = None) /\
  (b <> 0 -> data_range b /\ dent a dir i = dirent_at (a_data a b) (i `mod` entries_per_block) /\ zlen (a_data a b) = CAPYFS_BLOCK_SIZE).
Proof.
  intros Hwf Hdir Hi. destruct (entry_parts i Hi) as [Hlb Hoff]. cbv zeta.
  set (b := block_in a (a_inode a dir) (i / entries_per_block)). split.
  - intros E. unfold entry, listing, dent, fblock, fblock_in. fold b. rewrite E. cbn [Z.eqb]. by rewrite dirent_zero by done.
  - intros E. assert (Hr : data_range b) by (apply (block_range mnt a dir); [by rewrite set_same_inode | done..]).
    split; [done|]. split; [|by apply (wf_data _ _ Hwf)]. unfold dent, fblock, fblock_in. fold b. by replace (b =? 0) with false by lia.
Qed.

Lemma entry_match a dir i name : name_ok name -> wf a -> inode_range dir -> 0 <= i < MAX_ENTRIES ->
  negb (de_ino (dent a dir i) =? 0) && names_equal (de_name (dent a dir i)) name = true <->
  exists c, entry a dir i = Some (name, c).
Proof.
  intros Hn Hwf Hdir Hi. destruct (entry_parts i Hi) as [Hlb Hoff]. unfold entry, listing.
  rewrite names_equal_cstr; [|done|].
  2: { apply zlen_dirent_name; [done|]. by apply (fblock_len mnt a dir). }
  destruct (Z.eqb_spec (de_ino (dent a dir i)) 0); cbn [negb andb]; [naive_solver|].
  rewrite bool_decide_eq_true. naive_solver.
Qed.

Definition unlisted a dir name n : Prop := forall i, 0 <= i < n -> forall c, entry a dir i <> Some (name, c).

Lemma wp_find_entry P a s dir name (Q : option (capy_dirent_disk * Z * Z) -> fsys S -> Prop) :
  dsk P None a s -> (length P < MAX_PINS)%nat -> wf a -> inode_range dir -> name_ok name -> dcount (a_inode a dir) <= MAX_ENTRIES ->
  (forall i s', 0 <= i < dcount (a_inode a dir) -> entry a dir i = Some (name, de_ino (dent a dir i)) -> unlisted a dir name i ->
     dsk P None a s' -> mem s' = mem s ->
     Q (Some (dent a dir i, block_in a (a_inode a dir) (i / entries_per_block), i `mod` entries_per_block)) s') ->
  (forall s', unlisted a dir name (dcount (a_inode a dir)) -> dsk P None a s' -> mem s' = mem s -> Q None s') ->
  wp (capyfs_dir_find_entry mnt (a_inode a dir) name) s Q.
Proof.
  intros Hd Hl Hwf Hdir Hn Hmax HS HN. unfold capyfs_dir_find_entry. change (d_size (a_inode a dir) / DIRENT_SIZE) with (dcount (a_inode a dir)).
  pose proof (io_size _ (wf_inode _ _ Hwf dir Hdir)) as Hsz.
  assert (Hn0 : 0 <= dcount (a_inode a dir)) by (apply Z.div_pos; unfold DIRENT_SIZE; lia).
  apply wp_bind. eapply (wp_find _ _ _ _ (fun k s' => dsk P None a s' /\ mem s' = mem s /\ unlisted a dir name k)); [done | | |].
  { split_and!; [done | done | intros i Hi; lia]. }
  2: { intros s' (H' & Hm & Hu). apply wp_ret. by apply HN. }
  intros i s1 Hi (H1 & Hm1 & Hu). destruct (entry_parts i ltac:(lia)) as [Hlb Hoff]. cbv zeta.
  destruct (entry_block a dir i Hwf Hdir ltac:(lia)) as [Hhole Hblk].
  apply wp_bind. eapply wp_block; [exact Hlay | exact H1 | done | by rewrite set_same_inode | done | apply Hlb |]. intros s2 H2 Hm2.
  replace (i / entries_per_block <? FILE_BLOCKS) with true by lia.
  set (b := block_in a (a_inode a dir) (i / entries_per_block)) in *.
  assert (Hnext : entry a dir i = None \/ (forall c, entry a dir i <> Some (name, c)) -> unlisted a dir name (i + 1)).
  { intros Hno j Hj c. destruct (Z.eq_dec j i) as [->|]; [|apply Hu; lia]. destruct Hno as [->|Hno]; [done | apply Hno]. }
  destruct (Z.eqb_spec b 0) as [E|E].
  { apply wp_ret. split_and!; [done | congruence | auto]. }
  destruct (Hblk E) as (Hbr & Hde & Hbl). apply wp_bind. eapply dsk_get; [exact Hlay | exact H2 | exact Hbr | done |]. intros h s3 H3 Hm3. cbv beta iota.
  apply wp_bind. eapply dsk_data; [exact H3 | left | exact Hbr |]. rewrite <- Hde.
  apply wp_bind. eapply dsk_release; [exact H3 | done |]. intros s4 H4 Hm4.
  pose proof (entry_match a dir i name Hn Hwf Hdir ltac:(lia)) as Hmatch.
  destruct (negb (de_ino (dent a dir i) =? 0) && names_equal (de_name (dent a dir i)) name).
  - destruct (proj1 Hmatch eq_refl) as [c Hc]. apply wp_ret, wp_ret. cbv [default from_option id]. apply HS; try done; [|congruence].
    rewrite Hc. unfold entry, listing in Hc. destruct (_ =? 0); [done | congruence].
  - apply wp_ret. split_and!; [done | congruence |]. apply Hnext. right. intros c Hc.
    by pose proof (proj2 Hmatch (ex_intro _ c Hc)).
Qed.

Lemma wp_is_empty P a s dir (Q : Z -> fsys S -> Prop) :
  dsk P None a s -> (length P < MAX_PINS)%nat -> wf a -> inode_range dir -> dcount (a_inode a dir) <= MAX_ENTRIES ->
  (forall s', (forall i, 0 <= i < dcount (a_inode a dir) -> entry a dir i = None) -> dsk P None a s' -> mem s' = mem s -> Q 1 s') ->
  (forall i s', 0 <= i < dcount (a_inode a dir) -> entry a dir i <> None -> dsk P None a s' -> mem s' = mem s -> Q 0 s') ->
  wp (capyfs_dir_is_empty mnt (a_inode a dir)) s Q.
Proof.
  intros Hd Hl Hwf Hdir Hmax HY HN. unfold capyfs_dir_is_empty. change (d_size (a_inode a dir) / DIRENT_SIZE) with (dcount (a_inode a dir)).
  pose proof (io_size _ (wf_inode _ _ Hwf dir Hdir)) as Hsz.
  assert (Hn0 : 0 <= dcount (a_inode a dir)) by (apply Z.div_pos; unfold DIRENT_SIZE; lia).
  apply wp_bind. eapply (wp_find _ _ _ _ (fun k s' => dsk P None a s' /\ mem s' = mem s /\ forall i, 0 <= i < k -> entry a dir i = None)); [done | | |].
  { split_and!; [done | done | intros i Hi; lia]. }
  2: { intros s' (H' & Hm & Hu). apply wp_ret. by apply HY. }
  intros i s1 Hi (H1 & Hm1 & Hu). destruct (entry_parts i ltac:(lia)) as [Hlb Hoff].
  destruct (entry_block a dir i Hwf Hdir ltac:(lia)) as [Hhole Hblk].
  apply wp_bind. eapply wp_block; [exact Hlay | exact H1 | done | by rewrite set_same_inode | done | apply Hlb |]. intros s2 H2 Hm2.
  replace (i / entries_per_block <? FILE_BLOCKS) with true by lia.
  set (b := block_in a (a_inode a dir) (i / entries_per_block)) in *.
  assert (Hnext : entry a dir i = None -> forall j, 0 <= j < i + 1 -> entry a dir j = None).
  { intros Hno j Hj. destruct (Z.eq_dec j i) as [->|]; [done | apply Hu; lia]. }
  destruct (Z.eqb_spec b 0) as [E|E].
  { apply wp_ret. split_and!; [done | congruence | auto]. }
  destruct (Hblk E) as (Hbr & Hde & Hbl). apply wp_bind. eapply dsk_get; [exact Hlay | exact H2 | exact Hbr | done |]. intros h s3 H3 Hm3. cbv beta iota.
  apply wp_bind. eapply dsk_data; [exact H3 | left | exact Hbr |]. rewrite <- Hde.
  apply wp_bind. eapply dsk_release; [exact H3 | done |]. intros s4 H4 Hm4.
  destruct (Z.eqb_spec (de_ino (dent a dir i)) 0) as [E0|E0]; cbn [negb].
  - apply wp_ret. split_and!; [done | congruence |]. apply Hnext. unfold entry, listing. by rewrite E0.
  - apply wp_ret, wp_ret. cbv [default from_option id]. apply (HN i); try done; [|congruence].
    unfold entry, listing. by replace (de_ino (dent a dir i) =? 0) with false by lia.
Qed.

(** Another content for the block of entry [i] that changes this entry only. *)
Lemma entry_store a dir i dat : wf a -> inode_range dir -> 0 <= i < MAX_ENTRIES ->
  let b := block_in a (a_inode a dir) (i / entries_per_block) in
  b <> 0 -> edits (a_data a b) dat (i `mod` entries_per_block) ->
  wf (set_data b dat a) /\
  (forall k, 0 <= k < MAX_ENTRIES -> dent (set_data b dat a) dir k = if k =? i then dirent_at dat (i `mod` entries_per_block) else dent a dir k) /\
  (forall j m, inode_range j -> lb_range m -> j <> dir -> fblock (set_data b dat a) j m = fblock a j m) /\
  (forall j k, inode_range j -> slot_range k -> slot (set_data b dat a) j k = slot a j k).
Proof.
  intros Hwf Hdir Hi b Hb (Hl & Hbo & Hed). destruct (entry_parts i Hi) as [Hlb Hoff].
  assert (Hr : data_range b) by (apply (block_range mnt a dir); [by rewrite set_same_inode | done..]).
  destruct (store_block mnt a dir (i / entries_per_block) dat Hwf Hdir Hlb Hb Hl) as (Hwf' & Hsl & Hfb).
  { apply Hbo. by apply (wf_data _ _ Hwf). }
  fold b in Hwf', Hsl, Hfb. split_and!; [done | | |done].
  - intros k Hk. destruct (entry_parts k Hk) as [Hlk Hok]. unfold dent. rewrite Hfb by done. rewrite Z.eqb_refl. cbn [andb].
    destruct (Z.eqb_spec (k / entries_per_block) (i / entries_per_block)) as [E|E].
    + destruct (Z.eqb_spec k i) as [->|Hne]; [done|]. rewrite Hed; [|done|].
      * unfold fblock, fblock_in. rewrite E. fold b. by replace (b =? 0) with false by lia.
      * intros Em. apply Hne. apply entry_same; lia.
    + destruct (Z.eqb_spec k i) as [->|]; done.
  - intros j m Hj Hm Hne. rewrite Hfb by done. by replace (j =? dir) with false by lia.
Qed.

(** Who owns an inode and who may use it. *)
Definition owner (d : capy_inode_disk) : Z * Z * Z := (d_uid d, d_gid d, d_perm d).

(** Entry [i] now lists [e] and the directory counts [n] entries. *)
Record dir_changed dir i (e : option (list Z * Z)) n a a' : Prop := {
  dc_wf : wf a';
  dc_count : dcount (a_inode a' dir) = n;
  dc_mode : d_mode (a_inode a' dir) = d_mode (a_inode a dir);
  dc_owner : owner (a_inode a' dir) = owner (a_inode a dir);
  dc_inode j : j <> dir -> a_inode a' j = a_inode a j;
  dc_iused j : inode_range j -> a_iused a' j = a_iused a j;
  dc_used b : a_used a b = true -> a_used a' b = true;
  dc_other j lb : inode_range j -> lb_range lb -> j <> dir -> fblock a' j lb = fblock a j lb;
  dc_block j lb : inode_range j -> lb_range lb -> j <> dir -> block_in a (a_inode a j) lb <> 0 ->
    block_in a' (a_inode a' j) lb = block_in a (a_inode a j) lb;
  dc_entry k : 0 <= k < MAX_ENTRIES -> entry a' dir k = if k =? i then e else entry a dir k }.

#[export] Instance dir_changed_proper dir i e n : Proper (aeq ==> aeq ==> impl) (dir_changed dir i e n).
Proof.
  intros a1 a2 E1 a3 a4 E2 H.
  assert (Hent : forall x y k, aeq x y -> entry x dir k = entry y dir k).
  { intros x y k E. unfold entry, dent. by rewrite (fblock_aeq _ _ _ _ E). }
  constructor.
  - rewrite <- E2. apply H.
  - rewrite <- (ae_inode _ _ E2). apply H.
  - rewrite <- (ae_inode _ _ E2), <- (ae_inode _ _ E1). apply H.
  - rewrite <- (ae_inode _ _ E2), <- (ae_inode _ _ E1). apply H.
  - intros j. rewrite <- (ae_inode _ _ E2), <- (ae_inode _ _ E1). apply H.
  - intros j. rewrite <- (ae_iused _ _ E2), <- (ae_iused _ _ E1). apply H.
  - intros b. rewrite <- (ae_used _ _ E2), <- (ae_used _ _ E1). apply H.
  - intros j lb. rewrite <- (fblock_aeq _ _ _ _ E2), <- (fblock_aeq _ _ _ _ E1). apply H.
  - intros j lb. rewrite !block_slot, <- (slot_aeq _ _ _ _ E2), <- (slot_aeq _ _ _ _ E1). apply H.
  - intros k. rewrite <- (Hent _ _ k E2), <- (Hent _ _ k E1). apply H.
Qed.

Lemma wp_clear_entry P a s d dir b off (Q : Z -> fsys S -> Prop) : dsk P None a s -> (length P < MAX_PINS)%nat -> data_range b ->
  inode_ok d -> inode_range dir -> 0 <= off < entries_per_block ->
  (forall s', dsk P None (set_inode dir d (set_data b (wipe_dirent (a_data a b) off) a)) s' -> mem s' = mem s -> Q 0 s') ->
  wp (capyfs_dir_clear_entry mnt d dir b off) s Q.
Proof.
  intros Hd Hl Hb Hok Hdir Hoff HQ. destruct (dsk_len _ _ Hlay _ _ _ _ b Hd Hb) as [Hbl Hbb].
  destruct (wipe_dirent_spec (a_data a b) off Hbl Hoff) as ((Hz & Hbo & _) & _). unfold capyfs_dir_clear_entry.
  apply wp_bind. eapply dsk_get; [exact Hlay | exact Hd | exact Hb | done |]. intros h s1 H1 Hm1. cbv beta iota.
  apply wp_bind. eapply dsk_data; [exact H1 | left | exact Hb |].
  eapply dsk_modify; [exact Hlay | exact H1 | left | exact Hb | exact Hz | by apply Hbo |]. intros s2 H2 Hm2.
  apply wp_bind. eapply dsk_release; [exact H2 | done |]. intros s3 H3 Hm3.
  eapply wp_write_inode; [exact Hlay | exact H3 | done | exact Hdir | exact Hok |]. intros s4 H4 Hm4. apply HQ; [done | congruence].
Qed.

(** The entry found last is the first free one, or one more. *)
Lemma changed_grow dir i e n a a1 a2 : inode_range dir -> grows a a1 -> (forall j, j <> dir -> a_inode a1 j = a_inode a j) ->
  dir_changed dir i e n a1 a2 -> dir_changed dir i e n a a2.
Proof.
  intros Hdir G Hin H. constructor; try apply H.
  - rewrite (dc_mode _ _ _ _ _ _ H). pose proof (g_meta _ _ _ G dir Hdir) as E. unfold imeta in E. congruence.
  - rewrite (dc_owner _ _ _ _ _ _ H). pose proof (g_meta _ _ _ G dir Hdir) as E. unfold imeta in E. unfold owner. congruence.
  - intros j Hne. rewrite (dc_inode _ _ _ _ _ _ H) by done. by apply Hin.
  - intros j Hj. rewrite (dc_iused _ _ _ _ _ _ H) by done. by apply G.
  - intros b Hb. by apply H, G.
  - intros j lb Hj Hlb Hne. rewrite (dc_other _ _ _ _ _ _ H) by done. by apply G.
  - intros j lb Hj Hlb Hne H0. pose proof (g_block _ _ _ G j lb Hj Hlb H0) as E. rewrite (dc_block _ _ _ _ _ _ H), E; try done. by rewrite E.
  - intros k Hk. rewrite (dc_entry _ _ _ _ _ _ H) by done. destruct (k =? i); [done|]. unfold entry, dent.
    destruct (entry_parts k Hk) as [Hlb _]. by rewrite (g_fblock _ _ _ G).
Qed.

(** A store into the block of an entry, and the count stored in the inode. *)
Lemma changed_store a dir i e d sz dat : wf (set_inode dir d a) -> inode_range dir -> 0 <= i < MAX_ENTRIES -> 0 <= sz < 2 ^ 32 ->
  let b := block_in a d (i / entries_per_block) in
  b <> 0 -> edits (a_data a b) dat (i `mod` entries_per_block) -> listing (dirent_at dat (i `mod` entries_per_block)) = e ->
  dir_changed dir i e (sz / DIRENT_SIZE) (set_inode dir d a) (set_inode dir (set_d_size sz d) (set_data b dat a)).
Proof.
  intros Hwf Hdir Hi Hsz b Hb Hed He.
  pose proof (entry_store (set_inode dir d a) dir i dat Hwf Hdir Hi) as H. rewrite a_inode_set in H. cbv zeta in H.
  change (block_in (set_inode dir d a) d (i / entries_per_block)) with b in H. destruct (H Hb Hed) as (Hwf1 & Hdent & Hoth & Hslot). clear H.
  change (set_data b dat (set_inode dir d a)) with (set_inode dir d (set_data b dat a)) in *.
  set (A1 := set_inode dir d (set_data b dat a)) in *.
  assert (Hok : inode_ok d) by (pose proof (wf_inode _ _ Hwf dir Hdir) as Hok; by rewrite a_inode_set in Hok).
  destruct (inode_fields mnt A1 dir (set_d_size sz d) Hwf1 Hdir) as (Hwf2 & Hsl & Hfb);
    [by apply inode_ok_size | by unfold A1; rewrite a_inode_set..|].
  apply (dir_changed_proper dir i e (sz / DIRENT_SIZE) _ _ (reflexivity _) _ _ (set_set_inode dir (set_d_size sz d) d (set_data b dat a))).
  fold A1. constructor; try done.
  - unfold dcount. by rewrite a_inode_set.
  - by rewrite !a_inode_set.
  - by rewrite !a_inode_set.
  - intros j Hne. unfold A1. by rewrite !a_inode_other by done.
  - intros j lb Hj Hlb Hne. rewrite Hfb. by apply Hoth.
  - intros j lb Hj Hlb Hne _. rewrite !block_slot, Hsl. apply Hslot; [done|]. by apply lb_slot_range.
  - intros k Hk. unfold entry. assert (E : dent (set_inode dir (set_d_size sz d) A1) dir k = dent A1 dir k) by (unfold dent; by rewrite Hfb).
    rewrite E. rewrite Hdent by done. by destruct (k =? i).
Qed.

(** Where an entry was added. *)
Definition entry_place a dir i n : Prop :=
  0 <= i < n /\ n <= MAX_ENTRIES /\
  (i < dcount (a_inode a dir) /\ n = dcount (a_inode a dir) /\ entry a dir i = None \/ i = dcount (a_inode a dir) /\ n = i + 1).

Lemma dcount_nonneg a dir : wf a -> inode_range dir -> 0 <= dcount (a_inode a dir).
Proof.
  intros Hwf Hdir. pose proof (io_size _ (wf_inode _ _ Hwf dir Hdir)) as Hsz. apply Z.div_pos; unfold DIRENT_SIZE; lia.
Qed.

Lemma listing_put data off child name : zlen data = CAPYFS_BLOCK_SIZE -> 0 <= off < entries_per_block -> 0 < child < 2 ^ 32 -> name_ok name ->
  edits data (put_dirent data off child name) off /\ listing (dirent_at (put_dirent data off child name) off) = Some (name, child).
Proof.
  intros Hl Hoff Hc Hn. destruct (put_dirent_spec data off child name Hl Hoff ltac:(lia) Hn) as (Hed & Hput1 & Hput2). split; [done|].
  unfold listing. rewrite Hput1, Hput2. by replace (child =? 0) with false by lia.
Qed.

Lemma wp_reuse_entry P a s dir child name i (Q : option Z -> fsys S -> Prop) : dsk P None a s -> (Datatypes.S (length P) < MAX_PINS)%nat ->
  wf a -> inode_range dir -> name_ok name -> 0 < child < 2 ^ 32 -> 0 <= i < dcount (a_inode a dir) -> dcount (a_inode a dir) <= MAX_ENTRIES ->
  (forall a' s', entry_place a dir i (dcount (a_inode a dir)) -> dir_changed dir i (Some (name, child)) (dcount (a_inode a dir)) a a' ->
     a_inode a' dir = a_inode a dir -> dsk P None a' s' -> mem s' = mem s -> Q (Some 0) s') ->
  (forall s', dsk P None a s' -> mem s' = mem s -> Q None s') ->
  wp (reuse_entry mnt (a_inode a dir) dir child name i) s Q.
Proof.
  intros Hd Hl Hwf Hdir Hn Hc Hi Hmax HS HN. pose proof (io_size _ (wf_inode _ _ Hwf dir Hdir)) as Hsz.
  pose proof (set_same_inode dir a) as Esame. destruct (entry_parts i ltac:(lia)) as [Hlb Hoff].
  destruct (entry_block a dir i Hwf Hdir ltac:(lia)) as [Hhole Hblk]. unfold reuse_entry. cbv zeta.
  apply wp_bind. eapply wp_block; [exact Hlay | exact Hd | lia | by rewrite Esame | done | apply Hlb |]. intros s3 H3 Hm3.
  replace (i / entries_per_block <? FILE_BLOCKS) with true by lia.
  set (b := block_in a (a_inode a dir) (i / entries_per_block)) in *.
  destruct (Z.eqb_spec b 0) as [E|E]; [by apply wp_ret, HN|].
  destruct (Hblk E) as (Hbr & Hde & Hbl). apply wp_bind. eapply dsk_get; [exact Hlay | exact H3 | exact Hbr | lia |]. intros h s4 H4 Hm4. cbv beta iota.
  apply wp_bind. eapply dsk_data; [exact H4 | left | exact Hbr |]. rewrite <- Hde.
  destruct (Z.eqb_spec (de_ino (dent a dir i)) 0) as [E0|E0].
  2: { apply wp_bind. eapply dsk_release; [exact H4 | done |]. intros s5 H5 Hm5. apply wp_ret, HN; [done | congruence]. }
  destruct (listing_put (a_data a b) (i `mod` entries_per_block) child name Hbl Hoff Hc Hn) as (Hed & Elist).
  eapply dsk_modify; [exact Hlay | exact H4 | left | exact Hbr | apply Hed | apply Hed; by apply (wf_data _ _ Hwf) |]. intros s5 H5 Hm5.
  apply wp_bind. eapply dsk_release; [exact H5 | done |]. intros s6 H6 Hm6.
  apply wp_bind. eapply wp_write_inode; [exact Hlay | exact H6 | lia | exact Hdir | by apply Hwf |]. intros s7 H7 Hm7. apply wp_ret.
  set (dat := put_dirent _ _ _ _) in *.
  pose proof (changed_store a dir i (Some (name, child)) (a_inode a dir) (d_size (a_inode a dir)) dat ltac:(by rewrite Esame) Hdir ltac:(lia) Hsz E Hed Elist) as Hch.
  assert (Ed : set_d_size (d_size (a_inode a dir)) (a_inode a dir) = a_inode a dir) by (by destruct (a_inode a dir)).
  rewrite Ed in Hch. apply (dir_changed_proper _ _ _ _ _ _ Esame _ _ (reflexivity _)) in Hch. fold b in Hch.
  eapply HS; [| exact Hch | by rewrite a_inode_set | exact H7 | congruence]. split; [lia|]. split; [lia|]. left. split_and!; [lia | done |].
  unfold entry, listing. by rewrite E0.
Qed.

(** The result of an addition at the end. *)
Lemma appended a a1 dir d b child name : inode_range dir -> grows a (set_inode dir d a1) -> (forall j, a_inode a1 j = a_inode a j) ->
  let n := dcount (a_inode a dir) in
  let dat := put_dirent (a_data a1 b) (n `mod` entries_per_block) child name in
  0 <= n < MAX_ENTRIES -> b <> 0 -> b = block_in a1 d (n / entries_per_block) ->
  edits (a_data a1 b) dat (n `mod` entries_per_block) -> listing (dirent_at dat (n `mod` entries_per_block)) = Some (name, child) ->
  entry_place a dir n (n + 1) /\
  dir_changed dir n (Some (name, child)) (n + 1) a (set_inode dir (set_d_size ((n + 1) * DIRENT_SIZE) d) (set_data b dat a1)).
Proof.
  intros Hdir G Hin n dat Hn Hb0 Hb Hed Elist. split; [split; [lia|]; split; [lia | by right]|].
  assert (Hszn : 0 <= (n + 1) * DIRENT_SIZE < 2 ^ 32).
  { unfold MAX_ENTRIES, DIRENT_SIZE in *. rewrite file_blocks in *. change entries_per_block with 113 in *. lia. }
  pose proof (changed_store a1 dir n (Some (name, child)) d ((n + 1) * DIRENT_SIZE) dat (g_wf _ _ _ G) Hdir Hn Hszn) as Hch.
  cbv zeta in Hch. rewrite <- Hb in Hch. specialize (Hch Hb0 Hed Elist). rewrite Z.div_mul in Hch by done.
  eapply changed_grow; [exact Hdir | exact G | | exact Hch]. intros j Hne. by rewrite a_inode_other.
Qed.

Lemma wp_append_entry P a s dir child name (Q : Z * capy_inode_disk -> fsys S -> Prop) : dsk P None a s -> (Datatypes.S (length P) < MAX_PINS)%nat ->
  wf a -> inode_range dir -> name_ok name -> 0 < child < 2 ^ 32 -> dcount (a_inode a dir) <= MAX_ENTRIES ->
  (forall i n a' s', entry_place a dir i n -> dir_changed dir i (Some (name, child)) n a a' -> dsk P None a' s' -> mem s' = mem s ->
     Q (0, a_inode a' dir) s') ->
  (forall a' d' s', grows a a' -> (forall j, a_inode a' j = a_inode a j) -> MAX_ENTRIES <= dcount (a_inode a dir) \/ full mnt a' ->
     dsk P None a' s' -> mem s' = mem s -> Q (-1, d') s') ->
  wp (append_entry mnt (a_inode a dir) dir child name (dcount (a_inode a dir))) s Q.
Proof.
  intros Hd Hl Hwf Hdir Hn Hc Hmax HS HN. pose proof (set_same_inode dir a) as Esame.
  pose proof (dcount_nonneg a dir Hwf Hdir) as Hn0. set (n := dcount (a_inode a dir)) in *.
  assert (Hlb0 : 0 <= n / entries_per_block) by (apply Z.div_pos; done). unfold append_entry.
  apply wp_bind. eapply wp_block_alloc; [exact Hlay | exact Hd | done | by rewrite Esame | done | done |].
  intros [[b d'] y'] a1 s3 H3 Hm3 [(Hin & G & Hdy) Hb].
  assert (G' : grows a (set_inode dir d' a1)) by (eapply (grows_proper mnt); [symmetry; exact Esame | reflexivity | exact G]).
  destruct b as [b|].
  2: { destruct Hb as [(_ & G2 & _) Hb]. apply wp_ret. apply (HN a1); try done.
       - eapply (grows_proper mnt); [symmetry; exact Esame | | exact G2]. rewrite <- (Hin dir). symmetry. apply set_same_inode.
       - destruct Hb as [Hb|]; [left | by right]. unfold MAX_ENTRIES. rewrite file_blocks in *. change entries_per_block with 113 in *.
         pose proof (Z.mul_div_le n 113 ltac:(lia)). lia. }
  destruct Hb as (Hlb & Hb0 & Hb). pose proof (g_wf _ _ _ G') as Hwf1.
  assert (Hnm : n < MAX_ENTRIES).
  { destruct Hlb as [_ Hlb]. unfold MAX_ENTRIES in *. rewrite file_blocks in *. change entries_per_block with 113 in *.
    pose proof (Z.div_mod n 113 ltac:(lia)). pose proof (Z.mod_pos_bound n 113). lia. }
  destruct (entry_parts n ltac:(lia)) as [_ Hoff].
  assert (Hbr : data_range b) by (rewrite Hb; apply (block_range mnt a1 dir); [done | done | done | congruence]).
  destruct (dsk_len _ _ Hlay _ _ _ _ b H3 Hbr) as [Hbl Hbb].
  destruct (listing_put (a_data a1 b) (n `mod` entries_per_block) child name Hbl Hoff Hc Hn) as (Hed & Elist).
  destruct (appended a a1 dir d' b child name Hdir G' Hin ltac:(lia) Hb0 Hb Hed Elist) as [Hpl Hch]. fold n in Hpl, Hch.
  apply wp_bind. eapply dsk_get; [exact Hlay | exact H3 | exact Hbr | lia |]. intros h s4 H4 Hm4. cbv beta iota.
  apply wp_bind. eapply dsk_data; [exact H4 | left | exact Hbr |].
  eapply dsk_modify; [exact Hlay | exact H4 | left | exact Hbr | apply Hed | by apply Hed |]. intros s5 H5 Hm5.
  apply wp_bind. eapply dsk_release; [exact H5 | done |]. intros s6 H6 Hm6.
  rewrite u32_small by (unfold MAX_ENTRIES, DIRENT_SIZE in *; rewrite file_blocks in *; change entries_per_block with 113 in *; lia).
  pose proof (wf_inode _ _ (dc_wf _ _ _ _ _ _ Hch) dir Hdir) as Hok. rewrite a_inode_set in Hok.
  apply wp_bind. eapply wp_write_inode; [exact Hlay | exact H6 | lia | exact Hdir | exact Hok |]. intros s7 H7 Hm7. apply wp_ret.
  pose proof (HS n (n + 1) _ s7 Hpl Hch H7 ltac:(congruence)) as HQ. by rewrite a_inode_set in HQ.
Qed.

Lemma wp_add_entry P a s dir child name d0 (Q : Z * capy_inode_disk -> fsys S -> Prop) : dsk P None a s -> (Datatypes.S (length P) < MAX_PINS)%nat ->
  wf a -> inode_range dir -> name_ok name -> 0 < child < 2 ^ 32 -> dcount (a_inode a dir) <= MAX_ENTRIES ->
  (forall i n a' s', entry_place a dir i n -> dir_changed dir i (Some (name, child)) n a a' -> dsk P None a' s' -> mem s' = mem s ->
     Q (0, a_inode a' dir) s') ->
  (forall a' d' s', grows a a' -> (forall j, a_inode a' j = a_inode a j) -> MAX_ENTRIES <= dcount (a_inode a dir) \/ full mnt a' ->
     dsk P None a' s' -> mem s' = mem s -> Q (-1, d') s') ->
  wp (capyfs_dir_add_entry mnt d0 dir child name) s Q.
Proof.
  intros Hd Hl Hwf Hdir Hn Hc Hmax HS HN. pose proof (dcount_nonneg a dir Hwf Hdir) as Hn0.
  unfold capyfs_dir_add_entry, cstring_length. pose proof (proj2 Hn) as Hnl.
  replace ((zlen name =? 0) || (CAPYFS_NAME_MAX <=? zlen name)) with false by lia.
  apply wp_bind. eapply wp_read_inode; [exact Hlay | exact Hd | lia | exact Hdir |]. intros s1 H1 Hm1. cbv beta iota zeta.
  change (d_size (a_inode a dir) / DIRENT_SIZE) with (dcount (a_inode a dir)).
  apply wp_bind. eapply (wp_find _ _ _ _ (fun k s' => dsk P None a s' /\ mem s' = mem s)); [done | by split | |].
  - intros i s2 Hi (H2 & Hm2). eapply wp_reuse_entry; try done.
    + intros a' s' Hpl Hch Ein H' Hm'. apply wp_ret. rewrite <- Ein. eapply HS; [exact Hpl | exact Hch | exact H' | congruence].
    + intros s' H' Hm'. split; [done | congruence].
  - intros s2 (H2 & Hm2). eapply wp_append_entry; try done.
    + intros i n a' s' Hpl Hch H' Hm'. eapply HS; [exact Hpl | exact Hch | exact H' | congruence].
    + intros a' d' s' G Hin Hf H' Hm'. eapply HN; [exact G | done | done | exact H' | congruence].
Qed.
End dirs.
