(* ===== verification/CapyFsTree.v ===== *)
(** * The CAPYFS name space

    [fs_ok] is the invariant of a mounted disk: its files are well formed, every
    directory lists inodes that are in use, no name twice in a directory and no inode
    twice in the tree.  Here: what lookup, creation, removal, reads and writes do to
    such a disk, and that they keep it. *)
From S2P Require Import Prelude BufferCache Buffers CapyFs CapyFsDisk CapyFsFile CapyFsDir.
Local Open Scope capy_scope.

#[local] Opaque le_bytes.

Definition is_dir (d : capy_inode_disk) : bool := truthy (Z.land (d_mode d) VFS_MODE_DIR).

Section tree.
Context {S : Type} `{!Buffers S} (mnt : capyfs_mount) (count : Z) `{!BufferSpec (S := S) (m_dev mnt) count}.
Local Abbreviation l := (super mnt).
Context (Hlay : layout_ok l count).
Implicit Types (s : fsys S) (P : list (Z * Z)) (i n b c dir ino j k lb : Z) (a : adisk) (d : capy_inode_disk) (name nm : list Z).
Local Abbreviation data_range := (data_range mnt).
Local Abbreviation dsk := (dsk mnt count).
Local Abbreviation wf := (wf mnt).
Local Abbreviation inode_range := (inode_range mnt).
Local Abbreviation grows := (grows mnt).

(** Entry [i] of directory [j] lists [c] as [nm]. *)
Definition lists a j i nm c : Prop :=
  inode_range j /\ is_dir (a_inode a j) = true /\ 0 <= i < dcount (a_inode a j) /\ entry a j i = Some (nm, c).

Record fs_ok a : Prop := {
  fo_wf : wf a;
  fo_root : a_iused a 0 = true;
  fo_rootdir : is_dir (a_inode a 0) = true;
  fo_count j : inode_range j -> is_dir (a_inode a j) = true -> dcount (a_inode a j) <= MAX_ENTRIES;
  fo_child j i nm c : lists a j i nm c -> inode_range c /\ a_iused a c = true;
  fo_name j i nm c : lists a j i nm c -> name_ok nm;
  fo_unique j i nm c j' i' nm' c' : lists a j i nm c -> lists a j' i' nm' c' -> c = c' \/ (j = j' /\ nm = nm') -> j = j' /\ i = i' }.

Definition counts_ok a : Prop := forall j, inode_range j -> is_dir (a_inode a j) = true -> dcount (a_inode a j) <= MAX_ENTRIES.

Lemma lists_nonzero a j i nm c : lists a j i nm c -> c <> 0.
Proof. intros (_ & _ & _ & H). unfold entry, listing in H. destruct (Z.eqb_spec (de_ino (dent a j i)) 0); [done | congruence]. Qed.

(** Directories keep their entries or have none. *)
Lemma fs_ok_transfer a a' : fs_ok a -> wf a' -> a_iused a' 0 = true -> is_dir (a_inode a' 0) = true ->
  (forall j, inode_range j -> is_dir (a_inode a' j) = true -> dcount (a_inode a' j) = 0 \/
     (is_dir (a_inode a j) = true /\ dcount (a_inode a' j) = dcount (a_inode a j) /\
      forall i, 0 <= i < MAX_ENTRIES -> entry a' j i = entry a j i)) ->
  (forall j i nm c, lists a j i nm c -> lists a' j i nm c -> a_iused a' c = true) -> fs_ok a'.
Proof.
  intros H Hwf Hroot Hrd Hdir Hused.
  assert (Hl : forall j i nm c, lists a' j i nm c -> lists a j i nm c).
  { intros j i nm c (Hj & Hd & Hi & He). destruct (Hdir j Hj Hd) as [E|(Hd' & Hn & Hent)]; [lia|].
    pose proof (fo_count _ H j Hj Hd'). split_and!; try done; [lia.. |]. rewrite <- Hent by lia. done. }
  constructor; try done.
  - intros j Hj Hd. destruct (Hdir j Hj Hd) as [-> | (Hd' & -> & _)]; [done | by apply (fo_count _ H)].
  - intros j i nm c Hc. split; [by eapply (fo_child _ H), Hl | by eapply Hused; [apply Hl|]].
  - intros j i nm c Hc. by eapply (fo_name _ H), Hl.
  - intros j i nm c j' i' nm' c' H1 H2. by eapply (fo_unique _ H); apply Hl.
Qed.

Lemma wf_iused a c v : wf a -> wf (set_iused c v a).
Proof. intros []. by constructor. Qed.

Lemma fs_ok_iused a c v : fs_ok a -> (c <> 0 \/ v = true) -> (v = true \/ forall j i nm, ~ lists a j i nm c) -> fs_ok (set_iused c v a).
Proof.
  intros H Hc Hv. apply (fs_ok_transfer a); [done | by apply wf_iused, H | | apply H | by right|].
  - cbn. unfold fupd. destruct (Z.eqb_spec 0 c) as [<-|]; [|apply H]. by destruct Hc as [|].
  - intros j i nm x Hx _. cbn. unfold fupd. destruct (Z.eqb_spec x c) as [->|]; [|by eapply (fo_child _ H)].
    destruct Hv as [|Hv]; [done|]. by destruct (Hv j i nm).
Qed.

(** ** A fresh inode *)
Lemma fresh_inode a c d : wf a -> inode_range c -> inode_ok d -> no_blocks d ->
  wf (set_inode c d a) /\ (forall j lb, j <> c -> fblock (set_inode c d a) j lb = fblock a j lb) /\
  forall lb, fblock (set_inode c d a) c lb = zrep CAPYFS_BLOCK_SIZE 0.
Proof.
  intros Hwf Hc Hd Hnb.
  assert (Hs : forall j k, j <> c -> slot (set_inode c d a) j k = slot a j k).
  { intros j k Hne. unfold slot. by rewrite a_inode_other. }
  assert (Hs0 : forall k, slot (set_inode c d a) c k = 0) by (intros k; rewrite slot_set; by apply no_blocks_slot).
  split_and!; [constructor | |].
  - intros j Hj. destruct (Z.eq_dec j c) as [->|]; [by rewrite a_inode_set | rewrite a_inode_other by done; by apply Hwf].
  - intros j k Hj Hk. destruct (Z.eq_dec j c) as [->|]; [by rewrite Hs0 | rewrite Hs by done; by apply (wf_slot _ _ Hwf)].
  - intros i j k k' Hi Hj Hk Hk'. destruct (Z.eq_dec i c) as [->|]; [by rewrite Hs0|].
    destruct (Z.eq_dec j c) as [->|]; [rewrite Hs0; by intros ? ?|]. rewrite !Hs by done. by apply (wf_inj _ _ Hwf).
  - apply Hwf.
  - intros j lb Hne. unfold fblock, fblock_in. by rewrite !block_slot, Hs.
  - intros lb. unfold fblock, fblock_in. by rewrite block_slot, Hs0.
Qed.

Lemma entry_fblock a a' j i : (forall lb, lb_range lb -> fblock a' j lb = fblock a j lb) -> 0 <= i < MAX_ENTRIES -> entry a' j i = entry a j i.
Proof. intros H Hi. unfold entry, dent. destruct (entry_parts i Hi) as [Hlb _]. by rewrite H. Qed.

Lemma fs_ok_fresh a c d : fs_ok a -> inode_range c -> inode_ok d -> no_blocks d -> d_size d = 0 -> c <> 0 ->
  fs_ok (set_inode c d a).
Proof.
  intros H Hc Hd Hnb Hsz Hc0. destruct (fresh_inode a c d (fo_wf _ H) Hc Hd Hnb) as (Hwf & Hfb & _).
  apply (fs_ok_transfer a); try done; [apply H | rewrite a_inode_other by done; apply H | |].
  - intros j Hj. destruct (Z.eq_dec j c) as [->|Hne]; [rewrite a_inode_set; left; unfold dcount; by rewrite Hsz|].
    rewrite a_inode_other by done. intros Hdir. right. split_and!; try done. intros i Hi.
    apply entry_fblock; [|done]. intros lb _. by apply Hfb.
  - intros j i nm x Hx _. by eapply (fo_child _ H).
Qed.

Lemma meta_parts d d' : imeta d' = imeta d -> is_dir d' = is_dir d /\ dcount d' = dcount d.
Proof. unfold imeta, is_dir, dcount. by intros [= -> _ -> _ _ _ _]. Qed.

Lemma fs_ok_grows a a' : fs_ok a -> grows a a' -> inode_range 0 -> fs_ok a'.
Proof.
  intros H G H0. apply (fs_ok_transfer a); [done | apply G | rewrite (g_iused _ _ _ G) by done; apply H | | |].
  { destruct (meta_parts _ _ (g_meta _ _ _ G 0 H0)) as [-> _]. apply H. }
  - intros j Hj Hd. right. destruct (meta_parts _ _ (g_meta _ _ _ G j Hj)) as [E1 E2]. rewrite <- E1. split_and!; try done.
    intros i Hi. apply entry_fblock; [|done]. intros lb Hlb. by apply G.
  - intros j i nm c Hx _. destruct (fo_child _ H _ _ _ _ Hx). by rewrite (g_iused _ _ _ G).
Qed.

(** ** Entries that come and go *)
Lemma changed_mode dir i e n a a' : dir_changed mnt dir i e n a a' -> is_dir (a_inode a' dir) = is_dir (a_inode a dir).
Proof. intros H. unfold is_dir. by rewrite (dc_mode _ _ _ _ _ _ _ H). Qed.

Lemma changed_other dir i e n a a' j k nm c : dir_changed mnt dir i e n a a' -> counts_ok a -> j <> dir -> lists a' j k nm c <-> lists a j k nm c.
Proof.
  intros H Hok Hne. unfold lists. rewrite (dc_inode _ _ _ _ _ _ _ H j Hne). split; intros (Hj & Hd & Hk & He); split_and!; try done; try lia.
  - pose proof (Hok j Hj Hd). rewrite <- He. symmetry. apply entry_fblock; [|lia].
    intros lb Hlb. by apply (dc_other _ _ _ _ _ _ _ H).
  - pose proof (Hok j Hj Hd). rewrite <- He. apply entry_fblock; [|lia].
    intros lb Hlb. by apply (dc_other _ _ _ _ _ _ _ H).
Qed.

Lemma changed_add dir i n a a' name c : dir_changed mnt dir i (Some (name, c)) n a a' -> entry_place a dir i n -> inode_range dir ->
  is_dir (a_inode a dir) = true ->
  forall k nm x, lists a' dir k nm x <-> (k = i /\ nm = name /\ x = c) \/ (k <> i /\ lists a dir k nm x).
Proof.
  intros H (Hi & Hn & Hp) Hdir Hd k nm x. unfold lists. rewrite (changed_mode _ _ _ _ _ _ H), (dc_count _ _ _ _ _ _ _ H). split.
  - intros (_ & _ & Hk & He). rewrite (dc_entry _ _ _ _ _ _ _ H) in He by lia. destruct (Z.eqb_spec k i) as [->|Hne]; [left; naive_solver|].
    right. split_and!; try done; destruct Hp as [(? & -> & ?) | (? & ->)]; lia.
  - intros [(-> & -> & ->) | (Hne & _ & _ & Hk & He)]; split_and!; try done; try lia.
    + rewrite (dc_entry _ _ _ _ _ _ _ H) by lia. by rewrite Z.eqb_refl.
    + rewrite (dc_entry _ _ _ _ _ _ _ H); [|destruct Hp as [(? & -> & ?) | (? & ->)]; lia]. by replace (k =? i) with false by lia.
Qed.

Lemma fs_ok_add dir i n a a' name c : fs_ok a -> dir_changed mnt dir i (Some (name, c)) n a a' -> entry_place a dir i n -> inode_range dir ->
  is_dir (a_inode a dir) = true -> inode_range 0 -> inode_range c -> a_iused a c = true -> name_ok name ->
  (forall j k nm, ~ lists a j k nm c) -> (forall k x, ~ lists a dir k name x) -> fs_ok a'.
Proof.
  intros H Hch Hpl Hdir Hd H0 Hc Hcu Hname Hfresh Hno. pose proof (changed_add dir i n a a' name c Hch Hpl Hdir Hd) as Hl.
  assert (Hl' : forall j k nm x, lists a' j k nm x -> (j = dir /\ k = i /\ nm = name /\ x = c) \/ ((j <> dir \/ k <> i) /\ lists a j k nm x)).
  { intros j k nm x Hx. destruct (Z.eq_dec j dir) as [->|Hne].
    - apply Hl in Hx as [(-> & -> & ->) | [? ?]]; [by left | right; auto].
    - right. split; [by left | by apply (changed_other dir i (Some (name, c)) n a a' _ _ _ _ Hch (fo_count _ H))]. }
  constructor.
  - apply Hch.
  - rewrite (dc_iused _ _ _ _ _ _ _ Hch) by done. apply H.
  - destruct (Z.eq_dec 0 dir) as [<-|Hne]; [rewrite (changed_mode _ _ _ _ _ _ Hch) | rewrite (dc_inode _ _ _ _ _ _ _ Hch) by done]; apply H.
  - intros j Hj. destruct (Z.eq_dec j dir) as [->|Hne].
    + intros _. rewrite (dc_count _ _ _ _ _ _ _ Hch). apply Hpl.
    + rewrite (dc_inode _ _ _ _ _ _ _ Hch) by done. by apply (fo_count _ H).
  - intros j k nm x Hx. assert (Hr : inode_range x /\ a_iused a x = true).
    { apply Hl' in Hx as [(_ & _ & _ & ->) | [_ Hx]]; [done | by eapply (fo_child _ H)]. }
    split; [apply Hr|]. rewrite (dc_iused _ _ _ _ _ _ _ Hch) by apply Hr. apply Hr.
  - intros j k nm x Hx. apply Hl' in Hx as [(_ & _ & -> & _) | [_ Hx]]; [done | by eapply (fo_name _ H)].
  - intros j k nm x j' k' nm' x' H1 H2 E. apply Hl' in H1 as [(-> & -> & -> & ->) | [_ H1]], H2 as [(-> & -> & -> & ->) | [_ H2]]; [done | exfalso..|].
    + destruct E as [<- | [<- <-]]; [by eapply Hfresh | by eapply Hno].
    + destruct E as [-> | [-> ->]]; [by eapply Hfresh | by eapply Hno].
    + by eapply (fo_unique _ H).
Qed.

Lemma changed_clear dir i a a' : dir_changed mnt dir i None (dcount (a_inode a dir)) a a' -> inode_range dir ->
  is_dir (a_inode a dir) = true -> dcount (a_inode a dir) <= MAX_ENTRIES ->
  forall k nm x, lists a' dir k nm x <-> k <> i /\ lists a dir k nm x.
Proof.
  intros H Hdir Hd Hmax k nm x. unfold lists. rewrite (changed_mode _ _ _ _ _ _ H), (dc_count _ _ _ _ _ _ _ H). split.
  - intros (_ & _ & Hk & He). rewrite (dc_entry _ _ _ _ _ _ _ H) in He by lia. destruct (Z.eqb_spec k i); [done|]. split; [done | by split_and!; try lia].
  - intros (Hne & _ & _ & Hk & He). split_and!; try done; try lia. rewrite (dc_entry _ _ _ _ _ _ _ H) by lia.
    by replace (k =? i) with false by lia.
Qed.

Lemma fs_ok_clear dir i a a' : fs_ok a -> dir_changed mnt dir i None (dcount (a_inode a dir)) a a' -> inode_range dir -> inode_range 0 ->
  fs_ok a'.
Proof.
  intros H Hch Hdir H0.
  assert (Hl : forall j k nm x, lists a' j k nm x -> lists a j k nm x).
  { intros j k nm x Hx. destruct (Z.eq_dec j dir) as [->|Hne].
    - pose proof Hx as (_ & Hd & _). rewrite (changed_mode _ _ _ _ _ _ Hch) in Hd.
      pose proof (changed_clear dir i a a' Hch Hdir Hd (fo_count _ H dir Hdir Hd) k nm x) as E. by apply E in Hx as [_ ?].
    - by apply (changed_other dir i None (dcount (a_inode a dir)) a a' _ _ _ _ Hch (fo_count _ H)). }
  constructor.
  - apply Hch.
  - rewrite (dc_iused _ _ _ _ _ _ _ Hch) by done. apply H.
  - destruct (Z.eq_dec 0 dir) as [<-|Hne]; [rewrite (changed_mode _ _ _ _ _ _ Hch) | rewrite (dc_inode _ _ _ _ _ _ _ Hch) by done]; apply H.
  - intros j Hj. destruct (Z.eq_dec j dir) as [->|Hne].
    + rewrite (changed_mode _ _ _ _ _ _ Hch), (dc_count _ _ _ _ _ _ _ Hch). by apply (fo_count _ H).
    + rewrite (dc_inode _ _ _ _ _ _ _ Hch) by done. by apply (fo_count _ H).
  - intros j k nm x Hx. apply Hl in Hx. destruct (fo_child _ H _ _ _ _ Hx). split; [done|]. by rewrite (dc_iused _ _ _ _ _ _ _ Hch).
  - intros j k nm x Hx. by eapply (fo_name _ H), Hl.
  - intros j k nm x j' k' nm' x' H1 H2. by eapply (fo_unique _ H); apply Hl.
Qed.

(** ** Files that change and go *)
Lemma fs_ok_written ino pos src k a a' : fs_ok a -> file_written mnt ino pos src k a a' -> inode_range ino -> inode_range 0 ->
  is_dir (a_inode a ino) = false -> fs_ok a'.
Proof.
  intros H Hw Hino H0 Hf. apply (fs_ok_transfer a); [done | apply Hw | rewrite (fw_iused _ _ _ _ _ _ _ Hw) by done; apply H | | |].
  { destruct (Z.eq_dec 0 ino) as [<-|Hne]; [|rewrite (fw_inode _ _ _ _ _ _ _ Hw) by done; apply H].
    pose proof (fo_rootdir _ H). congruence. }
  - intros j Hj Hd. destruct (Z.eq_dec j ino) as [->|Hne].
    + exfalso. pose proof (fw_meta _ _ _ _ _ _ _ Hw) as E. unfold imeta in E. cbn [set_d_size d_mode] in E.
      unfold is_dir in *. congruence.
    + rewrite (fw_inode _ _ _ _ _ _ _ Hw) in * by done. right. split_and!; try done. intros i Hi.
      apply entry_fblock; [|done]. intros lb Hlb. by apply (fw_other _ _ _ _ _ _ _ Hw).
  - intros j i nm c Hx _. destruct (fo_child _ H _ _ _ _ Hx). by rewrite (fw_iused _ _ _ _ _ _ _ Hw).
Qed.

Lemma fs_ok_erased c a a' : fs_ok a -> erased mnt c a a' -> is_dir (a_inode a' c) = false -> c <> 0 -> fs_ok a'.
Proof.
  intros H He Hc Hc0. apply (fs_ok_transfer a); [done | apply He | rewrite (er_iused _ _ _ _ He); apply H | rewrite (er_inode _ _ _ _ He) by done; apply H | |].
  - intros j Hj Hd. destruct (Z.eq_dec j c) as [->|Hne]; [congruence|]. rewrite (er_inode _ _ _ _ He) in * by done.
    right. split_and!; try done. intros i Hi. apply entry_fblock; [|done]. intros lb Hlb. by apply (er_other _ _ _ _ He).
  - intros j i nm x Hx _. rewrite (er_iused _ _ _ _ He). by eapply (fo_child _ H).
Qed.

(** ** The operations *)
Definition handle a (nd : inode) : Prop :=
  inode_range (i_ino nd) /\ private_data nd = Some mnt /\ is_dir_inode nd = is_dir (a_inode a (i_ino nd)).

(** The object in memory for inode [c]. *)
Definition vnode a c : inode :=
  mkInode c (d_mode (a_inode a c)) (d_size (a_inode a c)) (d_uid (a_inode a c)) (d_gid (a_inode a c)) (d_perm (a_inode a c)) (Some mnt).

Definition resized a (nd : inode) : inode := set_i_size (d_size (a_inode a (i_ino nd))) nd.

Lemma zero_range : inode_range 0.
Proof. pose proof (lo_inodes _ _ Hlay). unfold CapyFsFile.inode_range. lia. Qed.

Lemma unlisted_lists a dir name : unlisted a dir name (dcount (a_inode a dir)) -> forall k x, ~ lists a dir k name x.
Proof. intros H k x (_ & _ & Hk & He). by apply (H k Hk x). Qed.

Lemma wp_create_vfs_inode P a s c d (Q : option inode -> fsys S -> Prop) : dsk P None a s -> mem s = [] -> d = a_inode a c ->
  (forall s', dsk P None a s' -> mem s' = [] -> Q (Some (vnode a c)) s') ->
  wp (capyfs_create_vfs_inode mnt c d) s Q.
Proof.
  intros Hd Hm -> HQ. unfold capyfs_create_vfs_inode. apply wp_bind. unfold wp at 1, kalloc. rewrite Hm. cbn [negb].
  apply wp_bind. unfold wp at 1, kalloc. rewrite Hm. cbn [negb]. apply wp_ret. by apply HQ.
Qed.

Lemma wp_lookup P a s (nd : inode) name : dsk P None a s -> (length P < MAX_PINS)%nat -> fs_ok a -> handle a nd ->
  is_dir (a_inode a (i_ino nd)) = true -> name_ok name -> mem s = [] ->
  wp (capyfs_lookup nd name) s (fun r s' => dsk P None a s' /\ mem s' = [] /\
    ((exists i c, lists a (i_ino nd) i name c /\ r = (0, Some (vnode a c), resized a nd)) \/
     ((forall i c, ~ lists a (i_ino nd) i name c) /\ r = (-1, None, resized a nd)))).
Proof.
  intros Hd Hl Hok (Hr & Hpriv & Hkind) Hdir Hn Hm. unfold capyfs_lookup. rewrite Hkind, Hdir. cbn [negb].
  unfold inode_mount. rewrite Hpriv. apply wp_bind. eapply wp_read_inode; [exact Hlay | exact Hd | done | exact Hr |]. intros s1 H1 Hm1. cbv beta iota zeta.
  apply wp_bind. eapply wp_find_entry; [exact Hlay | exact H1 | done | apply Hok | exact Hr | exact Hn | by apply (fo_count _ Hok) | |].
  - intros i s2 Hi He Hu H2 Hm2. set (c := de_ino (dent a (i_ino nd) i)) in *.
    assert (Hli : lists a (i_ino nd) i name c) by (by split_and!; try apply Hr; try lia).
    destruct (fo_child _ Hok _ _ _ _ Hli) as [Hc _]. cbv beta iota. fold c.
    apply wp_bind. eapply wp_read_inode; [exact Hlay | exact H2 | done | exact Hc |]. intros s3 H3 Hm3. cbv beta iota.
    apply wp_bind. eapply wp_create_vfs_inode; [exact H3 | congruence | done |]. intros s4 H4 Hm4. apply wp_ret. split_and!; try done.
    left. by exists i, c.
  - intros s2 Hu H2 Hm2. apply wp_ret. split_and!; [done | congruence |]. right. split; [by apply unlisted_lists | done].
Qed.

(** *** Creation *)
Definition meta_ok (meta : option vfs_metadata) : Prop :=
  match meta with
  | None => True
  | Some m => 0 <= meta_uid m < 2 ^ 32 /\ 0 <= meta_gid m < 2 ^ 32 /\ 0 <= meta_perm m < 2 ^ 16
  end.

Lemma new_disk_ok mode meta : 0 <= mode < 2 ^ 16 -> meta_ok meta ->
  inode_ok (new_disk_inode mode meta) /\ no_blocks (new_disk_inode mode meta) /\ d_size (new_disk_inode mode meta) = 0 /\
  d_mode (new_disk_inode mode meta) = mode.
Proof.
  intros Hmode Hmeta. unfold new_disk_inode.
  assert (Hz : forall k, (zrep 12 0).[k] = 0).
  { intros k. unfold aget, zrep. destruct (replicate (Z.to_nat 12) 0 !! Z.to_nat k) eqn:E; [|done]. by apply lookup_replicate_1 in E as [-> _]. }
  assert (Hzf : Forall (fun b => 0 <= b < 2 ^ 32) (zrep 12 0)) by (apply Forall_replicate; lia).
  destruct meta as [m|]; cbn in Hmeta.
  - split_and!; try done; constructor; cbn [d_mode d_links d_size d_uid d_gid d_perm d_reserved direct indirect]; try done; lia.
  - split_and!; try done; constructor; cbn [d_mode d_links d_size d_uid d_gid d_perm d_reserved direct indirect]; try done; try lia.
    destruct (truthy _); lia.
Qed.

(** Inode [c] was made and listed as [name]; whatever was in use stays as it was. *)
Record created a a' dir name c d : Prop := {
  cr_ok : fs_ok a';
  cr_inode : a_inode a' c = d;
  cr_fresh : inode_range c /\ a_iused a c = false;
  cr_iused j : inode_range j -> a_iused a' j = (j =? c) || a_iused a j;
  cr_listed nm x : (exists i, lists a' dir i nm x) <-> (nm = name /\ x = c) \/ exists i, lists a dir i nm x;
  cr_lists j i nm x : j <> dir -> j <> c -> lists a' j i nm x <-> lists a j i nm x;
  cr_other j : j <> dir -> j <> c -> a_inode a' j = a_inode a j;
  cr_dir : d_mode (a_inode a' dir) = d_mode (a_inode a dir) /\ owner (a_inode a' dir) = owner (a_inode a dir);
  cr_fblock j lb : inode_range j -> lb_range lb -> j <> dir -> j <> c -> fblock a' j lb = fblock a j lb;
  cr_empty lb : lb_range lb -> fblock a' c lb = zrep CAPYFS_BLOCK_SIZE 0 }.

(** Nothing that was in use changed. *)
Record unchanged a a' : Prop := {
  un_ok : fs_ok a';
  un_iused j : inode_range j -> a_iused a' j = a_iused a j;
  un_inode j : inode_range j -> a_iused a j = true -> a_inode a' j = a_inode a j;
  un_fblock j lb : inode_range j -> lb_range lb -> a_iused a j = true -> fblock a' j lb = fblock a j lb }.

Lemma unchanged_refl a : fs_ok a -> unchanged a a.
Proof. by constructor. Qed.

(** The disk when the new inode is stored. *)
Definition with_inode c d a : adisk := set_inode c d (set_iused c true a).

Lemma with_inode_ok a c d : fs_ok a -> inode_range c -> a_iused a c = false -> inode_ok d -> no_blocks d -> d_size d = 0 -> fs_ok (with_inode c d a).
Proof.
  intros H Hc Hu Hd Hnb Hsz. apply fs_ok_fresh; try done; [apply fs_ok_iused; [done | by right | by left]|].
  intros ->. by rewrite (fo_root _ H) in Hu.
Qed.

Lemma with_inode_iused a c d j : a_iused (with_inode c d a) j = (j =? c) || a_iused a j.
Proof. unfold with_inode. cbn. unfold fupd. by destruct (j =? c). Qed.

Lemma created_intro a a' dir i n name c d : fs_ok a -> inode_range dir -> is_dir (a_inode a dir) = true -> dir <> c ->
  inode_range c -> a_iused a c = false -> inode_ok d -> no_blocks d -> d_size d = 0 ->
  (forall k x, ~ lists a dir k name x) -> name_ok name ->
  entry_place (with_inode c d a) dir i n -> dir_changed mnt dir i (Some (name, c)) n (with_inode c d a) a' ->
  created a a' dir name c d.
Proof.
  intros H Hdir Hd Hne Hc Hu Hdo Hnb Hsz Hno Hname Hpl Hch. pose proof (with_inode_ok a c d H Hc Hu Hdo Hnb Hsz) as H1.
  destruct (fresh_inode (set_iused c true a) c d ltac:(apply wf_iused, H) Hc Hdo Hnb) as (_ & Hfb & Hfc).
  change (set_inode c d (set_iused c true a)) with (with_inode c d a) in *.
  assert (Hin : forall j, j <> c -> a_inode (with_inode c d a) j = a_inode a j) by (intros j Hj; unfold with_inode; by rewrite a_inode_other).
  assert (Hnd : forall j i nm x, lists (with_inode c d a) j i nm x -> j <> c).
  { intros j k nm x (_ & _ & Hk & _) ->. unfold with_inode, dcount in Hk. rewrite a_inode_set, Hsz in Hk. change (0 / DIRENT_SIZE) with 0 in Hk. lia. }
  assert (Hls : forall j i nm x, j <> c -> lists (with_inode c d a) j i nm x <-> lists a j i nm x).
  { intros j k nm x Hj. unfold lists. rewrite Hin by done. unfold entry, dent. by rewrite (Hfb j) by done. }
  assert (Hd1 : is_dir (a_inode (with_inode c d a) dir) = true) by (by rewrite Hin).
  assert (Hfresh : forall j k nm, ~ lists (with_inode c d a) j k nm c).
  { intros j k nm Hx. pose proof (Hnd _ _ _ _ Hx) as Hj. apply Hls in Hx; [|done]. apply (fo_child _ H) in Hx as [_ Hx]. congruence. }
  assert (Hno1 : forall k x, ~ lists (with_inode c d a) dir k name x) by (intros k x Hx; apply Hls in Hx; [by eapply Hno | done]).
  assert (H2 : fs_ok a').
  { eapply fs_ok_add; [exact H1 | exact Hch | exact Hpl | done | done | apply zero_range | done | | exact Hname | exact Hfresh | exact Hno1].
    by rewrite with_inode_iused, Z.eqb_refl. }
  pose proof (changed_add dir i n (with_inode c d a) a' name c Hch Hpl Hdir Hd1) as Hadd. constructor; try done.
  - rewrite (dc_inode _ _ _ _ _ _ _ Hch) by done. apply a_inode_set.
  - intros j Hj. rewrite (dc_iused _ _ _ _ _ _ _ Hch) by done. apply with_inode_iused.
  - intros nm x. split.
    + intros [k Hk]. apply Hadd in Hk as [(-> & -> & ->) | [_ Hk]]; [by left | right]. exists k. by apply Hls.
    + intros [[-> ->] | [k Hk]]; [exists i; apply Hadd; by left|]. exists k. apply Hadd. right. apply Hls in Hk; [|done].
      split; [|done]. intros ->. destruct Hk as (_ & _ & Hk & He). destruct Hpl as (_ & _ & [(_ & _ & Hn) | (E & _)]); [congruence | lia].
  - intros j k nm x Hj Hjc. rewrite <- Hls by done. by apply (changed_other dir i (Some (name, c)) n _ _ _ _ _ _ Hch (fo_count _ H1)).
  - intros j Hj Hjc. rewrite (dc_inode _ _ _ _ _ _ _ Hch) by done. by apply Hin.
  - by rewrite (dc_mode _ _ _ _ _ _ _ Hch), (dc_owner _ _ _ _ _ _ _ Hch), Hin.
  - intros j lb Hj Hlb Hjd Hjc. rewrite (dc_other _ _ _ _ _ _ _ Hch) by done. by apply Hfb.
  - intros lb Hlb. rewrite (dc_other _ _ _ _ _ _ _ Hch) by done. apply Hfc.
Qed.

Lemma unchanged_failed a a1 c d : fs_ok a -> inode_range c -> a_iused a c = false -> inode_ok d -> no_blocks d -> d_size d = 0 ->
  grows (with_inode c d a) a1 -> (forall j, a_inode a1 j = a_inode (with_inode c d a) j) -> unchanged a (set_iused c false a1).
Proof.
  intros H Hc Hu Hdo Hnb Hsz G Hin. pose proof (with_inode_ok a c d H Hc Hu Hdo Hnb Hsz) as H1.
  destruct (fresh_inode (set_iused c true a) c d ltac:(apply wf_iused, H) Hc Hdo Hnb) as (_ & Hfb & _).
  change (set_inode c d (set_iused c true a)) with (with_inode c d a) in *.
  assert (Hfb1 : forall j lb, inode_range j -> lb_range lb -> j <> c -> fblock a1 j lb = fblock a j lb).
  { intros j lb Hj Hlb Hne. rewrite (g_fblock _ _ _ G) by done. by apply Hfb. }
  assert (Hin1 : forall j, j <> c -> a_inode a1 j = a_inode a j).
  { intros j Hne. rewrite Hin. unfold with_inode. by rewrite a_inode_other. }
  assert (Hc0 : c <> 0) by (intros ->; rewrite (fo_root _ H) in Hu; done).
  assert (Hun : forall j, inode_range j -> a_iused a j = true -> j <> c) by (intros j _ Hj ->; congruence).
  constructor.
  - apply fs_ok_iused; [apply (fs_ok_grows (with_inode c d a)); try done; apply zero_range | by left |]. right.
    intros j i nm (Hj & Hdj & Hi & He). assert (Hne : j <> c).
    { intros ->. rewrite Hin in Hi. unfold with_inode, dcount in Hi. rewrite a_inode_set, Hsz in Hi. change (0 / DIRENT_SIZE) with 0 in Hi. lia. }
    rewrite Hin1 in Hdj, Hi by done. pose proof (fo_count _ H j Hj Hdj).
    assert (Hx : lists a j i nm c).
    { split_and!; try done; try lia. rewrite <- He. symmetry. apply entry_fblock; [|lia]. intros lb Hlb. by apply Hfb1. }
    apply (fo_child _ H) in Hx as [_ Hx]. congruence.
  - intros j Hj. change (a_iused (set_iused c false a1) j) with (fupd (a_iused a1) c false j). unfold fupd.
    destruct (Z.eqb_spec j c) as [->|Hne]; [done|]. rewrite (g_iused _ _ _ G), with_inode_iused by done. by replace (j =? c) with false by lia.
  - intros j Hj Hju. apply Hin1. by apply Hun.
  - intros j lb Hj Hlb Hju. apply Hfb1; [done | done | by apply Hun].
Qed.

Lemma dsk_aeq P Y a a' s : aeq a a' -> dsk P Y a s -> dsk P Y a' s.
Proof. intros []. by apply dsk_ext. Qed.

Definition create_result (nd : inode) name d a (r : Z * option inode * inode) a' : Prop :=
  (exists c, r = (0, Some (vnode a' c), resized a' nd) /\ (forall i x, ~ lists a (i_ino nd) i name x) /\ created a a' (i_ino nd) name c d) \/
  (r = (-1, None, nd) /\ unchanged a a' /\
    ((exists i x, lists a (i_ino nd) i name x) \/ (forall j, inode_range j -> a_iused a j = true) \/
     MAX_ENTRIES <= dcount (a_inode a (i_ino nd)) \/ full mnt a')).

Lemma wp_create P a s (nd : inode) name mode meta : dsk P None a s -> (Datatypes.S (length P) < MAX_PINS)%nat -> fs_ok a -> handle a nd ->
  is_dir (a_inode a (i_ino nd)) = true -> a_iused a (i_ino nd) = true -> name_ok name -> 0 <= mode < 2 ^ 16 -> meta_ok meta -> mem s = [] ->
  wp (capyfs_create nd name mode meta) s (fun r s' => exists a', dsk P None a' s' /\ mem s' = [] /\
    create_result nd name (new_disk_inode mode meta) a r a').
Proof.
  intros Hd Hl Hok (Hr & Hpriv & Hkind) Hdir Hdu Hn Hmode Hmeta Hm. unfold capyfs_create. rewrite Hkind, Hdir. cbn [negb].
  unfold cstring_length. pose proof (proj2 Hn) as Hnl. replace ((zlen name =? 0) || (CAPYFS_NAME_MAX <=? zlen name)) with false by lia.
  unfold inode_mount. rewrite Hpriv. cbv zeta. set (dir := i_ino nd) in *.
  destruct (new_disk_ok mode meta Hmode Hmeta) as (Hdo & Hnb & Hsz & _). set (d := new_disk_inode mode meta) in *.
  apply wp_bind. eapply wp_read_inode; [exact Hlay | exact Hd | lia | exact Hr |]. intros s1 H1 Hm1. cbv beta iota zeta.
  apply wp_bind. eapply wp_find_entry; [exact Hlay | exact H1 | lia | apply Hok | exact Hr | exact Hn | by apply (fo_count _ Hok) | |].
  { intros i s2 Hi He Hu H2 Hm2. apply wp_ret. exists a. split_and!; [done | congruence |]. right. split_and!; [done | by apply unchanged_refl |].
    left. exists i, (de_ino (dent a dir i)). fold dir. split_and!; first [apply Hr | done | lia]. }
  intros s2 Hu H2 Hm2. pose proof (unlisted_lists _ _ _ Hu) as Hno.
  apply wp_bind. eapply wp_alloc_inode; [exact Hlay | exact H2 | lia | |].
  2: { intros s3 Hall H3 Hm3. apply wp_ret. exists a. split_and!; [done | congruence |]. right. split_and!; [done | by apply unchanged_refl |]. auto. }
  intros c s3 Hc Hcu H3 Hm3. cbv beta iota zeta. apply wp_bind. eapply wp_write_inode; [exact Hlay | exact H3 | lia | exact Hc | exact Hdo |].
  intros s4 H4 Hm4. cbn [negb Z.eqb]. change (set_inode c d (set_iused c true a)) with (with_inode c d a) in H4.
  pose proof (with_inode_ok a c d Hok Hc Hcu Hdo Hnb Hsz) as Hok1.
  assert (Hc0 : c <> 0) by (intros ->; rewrite (fo_root _ Hok) in Hcu; done).
  assert (Hdc : dir <> c) by (intros E; congruence).
  assert (Edir : a_inode (with_inode c d a) dir = a_inode a dir) by (unfold with_inode; by rewrite a_inode_other).
  assert (Hcr : 0 < c < 2 ^ 32) by (pose proof (lo_inodes _ _ Hlay); unfold CapyFsFile.inode_range in Hc; lia).
  assert (Hmax : dcount (a_inode (with_inode c d a) dir) <= MAX_ENTRIES) by (rewrite Edir; by apply (fo_count _ Hok)).
  apply wp_bind. eapply wp_add_entry; [exact Hlay | exact H4 | done | apply Hok1 | exact Hr | exact Hn | exact Hcr | exact Hmax | |].
  - intros i n a' s5 Hpl Hch H5 Hm5. cbn [negb Z.eqb].
    pose proof (created_intro a a' dir i n name c d Hok Hr Hdir Hdc Hc Hcu Hdo Hnb Hsz Hno Hn Hpl Hch) as Hcreated.
    apply wp_bind. eapply wp_create_vfs_inode; [exact H5 | congruence | by rewrite (cr_inode _ _ _ _ _ _ Hcreated) |]. intros s6 H6 Hm6.
    apply wp_ret. exists a'. split_and!; try done. left. by exists c.
  - intros a' d' s5 G Hin Hfull H5 Hm5. cbn [negb Z.eqb]. apply wp_bind. eapply wp_free_inode_bit; [exact Hlay | exact H5 | lia | exact Hc |].
    intros s6 H6 Hm6. apply wp_ret. exists (set_iused c false a'). split_and!; [done | congruence |]. right.
    split_and!; [done | by apply (unchanged_failed a a' c d) |]. rewrite Edir in Hfull. destruct Hfull; auto.
Qed.

(** *** Removal

    Inode [c] was listed as [name]: the entry and the inode are gone, its blocks free. *)
Record removed a a' dir name c : Prop := {
  rm_ok : fs_ok a';
  rm_iused j : inode_range j -> a_iused a' j = negb (j =? c) && a_iused a j;
  rm_listed nm x : (exists i, lists a' dir i nm x) <-> nm <> name /\ exists i, lists a dir i nm x;
  rm_lists j i nm x : j <> dir -> j <> c -> lists a' j i nm x <-> lists a j i nm x;
  rm_gone i nm x : ~ lists a' c i nm x;
  rm_inode j : j <> c -> a_inode a' j = a_inode a j;
  rm_fblock j lb : inode_range j -> lb_range lb -> j <> dir -> j <> c -> fblock a' j lb = fblock a j lb;
  rm_free k : slot_range k -> slot a c k <> 0 -> a_used a' (slot a c k) = false;
  rm_kept b : (forall k, slot_range k -> slot a c k <> b) -> a_used a' b = a_used a b }.

Lemma zero_disk_ok : inode_ok zero_disk /\ no_blocks zero_disk /\ is_dir zero_disk = false.
Proof.
  split_and!; [|split; [done|] | done].
  - constructor; cbn [zero_disk d_mode d_links d_size d_uid d_gid d_perm d_reserved direct indirect]; try done; try lia.
    apply Forall_replicate. lia.
  - intros k. unfold aget. cbn [zero_disk direct]. unfold zrep. destruct (replicate (Z.to_nat 12) 0 !! Z.to_nat k) eqn:E; [|done].
    by apply lookup_replicate_1 in E as [-> _].
Qed.

Lemma set_inode_comm a i j d d' : i <> j -> aeq (set_inode i d (set_inode j d' a)) (set_inode j d' (set_inode i d a)).
Proof.
  intros Hne. constructor; try done. intros k. cbn. unfold fupd.
  destruct (Z.eqb_spec k i) as [->|]; [by replace (i =? j) with false by lia | done].
Qed.

(** The disk after the blocks are released, the entry wiped and the inode cleared. *)
Definition after_remove a1 dir dd b off c : adisk :=
  set_iused c false (set_inode c zero_disk (set_inode dir dd (set_data b (wipe_dirent (a_data a1 b) off) a1))).

Lemma set_iused_aeq a a' c v : aeq a a' -> aeq (set_iused c v a) (set_iused c v a').
Proof. intros []. constructor; try done. intros j. cbn. unfold fupd. by destruct (j =? c). Qed.

Lemma fs_ok_aeq a a' : aeq a a' -> fs_ok a -> fs_ok a'.
Proof.
  intros E H. assert (Hent : forall j i, entry a' j i = entry a j i) by (intros; unfold entry, dent; by rewrite <- (fblock_aeq _ _ _ _ E)).
  assert (Hl : forall j i nm c, lists a' j i nm c -> lists a j i nm c).
  { intros j i nm c. unfold lists. by rewrite <- (ae_inode _ _ E), Hent. }
  constructor.
  - apply (wf_proper mnt a a' E), H.
  - rewrite <- (ae_iused _ _ E). apply H.
  - rewrite <- (ae_inode _ _ E). apply H.
  - intros j. rewrite <- (ae_inode _ _ E). apply H.
  - intros j i nm c Hx. rewrite <- (ae_iused _ _ E). by eapply (fo_child _ H), Hl.
  - intros j i nm c Hx. by eapply (fo_name _ H), Hl.
  - intros j i nm c j' i' nm' c' H1 H2. by eapply (fo_unique _ H); apply Hl.
Qed.

(** Another content of entry [i], whose block is there. *)
Lemma entry_edited a dir i dat e : wf a -> inode_range dir -> 0 <= i < MAX_ENTRIES ->
  let b := block_in a (a_inode a dir) (i / entries_per_block) in
  b <> 0 -> edits (a_data a b) dat (i `mod` entries_per_block) -> listing (dirent_at dat (i `mod` entries_per_block)) = e ->
  dir_changed mnt dir i e (dcount (a_inode a dir)) a (set_inode dir (a_inode a dir) (set_data b dat a)).
Proof.
  intros Hwf Hdir Hi b Hb Hed He.
  assert (Hsz : 0 <= d_size (a_inode a dir) < 2 ^ 32) by (apply (wf_inode _ _ Hwf dir Hdir)).
  pose proof (changed_store mnt a dir i e (a_inode a dir) (d_size (a_inode a dir)) dat) as Hch.
  assert (Esz : set_d_size (d_size (a_inode a dir)) (a_inode a dir) = a_inode a dir) by (by destruct (a_inode a dir)).
  cbv zeta in Hch. rewrite Esz in Hch.
  eapply (dir_changed_proper mnt); [apply (set_same_inode dir a) | reflexivity |]. apply Hch; try done.
  by apply (wf_proper mnt _ _ (set_same_inode dir a)).
Qed.

(** The erased inode first, the entry then: the same disk. *)
Lemma remove_steps a a1 dir i name c : fs_ok a -> lists a dir i name c -> dir <> c -> freeing a (a_inode a c) slot_range a1 ->
  (forall b, data_range b -> zlen (a_data a1 b) = CAPYFS_BLOCK_SIZE /\ bytes_ok (a_data a1 b)) ->
  let b := block_in a (a_inode a dir) (i / entries_per_block) in
  let E := set_inode c zero_disk a1 in
  exists a2, erased mnt c a E /\ fs_ok E /\ dir_changed mnt dir i None (dcount (a_inode E dir)) E a2 /\
    aeq (set_iused c false a2) (after_remove a1 dir (a_inode a dir) b (i `mod` entries_per_block) c).
Proof.
  intros H Hli Hne Hfr Hlen b E. pose proof Hli as (Hdir & Hd & Hi & He). destruct (fo_child _ H _ _ _ _ Hli) as [Hc Hcu].
  destruct zero_disk_ok as (Hz1 & Hz2 & Hz3). pose proof (fo_count _ H dir Hdir Hd) as Hmax.
  pose proof (freed_erased mnt a c a1 zero_disk (fo_wf _ H) Hc Hfr Hz1 Hz2 Hlen) as Her. fold E in Her.
  assert (Hok : fs_ok E) by (eapply fs_ok_erased; [exact H | exact Her | by unfold E; rewrite a_inode_set | by eapply lists_nonzero]).
  assert (EiE : a_inode E dir = a_inode a dir) by (apply (er_inode _ _ _ _ Her); done).
  destruct (entry_parts i ltac:(lia)) as [Hlb Hoff]. destruct (lb_slot_range _ Hlb) as [Hsr _].
  assert (Eb : block_in E (a_inode E dir) (i / entries_per_block) = b) by (by apply (er_slot _ _ _ _ Her)).
  destruct (entry_block mnt a dir i (fo_wf _ H) Hdir ltac:(lia)) as [Hhole Hblk]. fold b in Hhole, Hblk.
  assert (Hb0 : b <> 0) by (intros Eb0; rewrite (Hhole Eb0) in He; done). destruct (Hblk Hb0) as (Hbr & _).
  destruct (wipe_dirent_spec (a_data E b) (i `mod` entries_per_block)) as [Hed Hw]; [apply Hlen, Hbr | done |].
  set (dat := wipe_dirent (a_data E b) (i `mod` entries_per_block)) in *.
  exists (set_inode dir (a_inode E dir) (set_data b dat E)). split_and!; [done | done | |].
  - pose proof (entry_edited E dir i dat None (fo_wf _ Hok) Hdir ltac:(lia)) as Hch. cbv zeta in Hch. rewrite Eb in Hch.
    apply Hch; try done. unfold listing. by rewrite Hw.
  - apply set_iused_aeq. rewrite EiE. unfold dat, E.
    change (set_data b ?x (set_inode c zero_disk a1)) with (set_inode c zero_disk (set_data b x a1)). by apply set_inode_comm.
Qed.

Lemma removed_intro a a1 dir i name c : fs_ok a -> lists a dir i name c -> dir <> c -> freeing a (a_inode a c) slot_range a1 ->
  (forall b, data_range b -> zlen (a_data a1 b) = CAPYFS_BLOCK_SIZE /\ bytes_ok (a_data a1 b)) ->
  removed a (after_remove a1 dir (a_inode a dir) (block_in a (a_inode a dir) (i / entries_per_block)) (i `mod` entries_per_block) c) dir name c.
Proof.
  intros H Hli Hne Hfr Hlen. pose proof Hli as (Hdir & Hd & Hi & He). destruct (fo_child _ H _ _ _ _ Hli) as [Hc Hcu].
  destruct (remove_steps a a1 dir i name c H Hli Hne Hfr Hlen) as (a2 & Her & HokE & Hch & E).
  set (E0 := set_inode c zero_disk a1) in *. set (F := after_remove _ _ _ _ _ _) in *.
  assert (EiE : forall j, j <> c -> a_inode E0 j = a_inode a j) by (intros; by apply (er_inode _ _ _ _ Her)).
  assert (Hc0 : c <> 0) by (by eapply lists_nonzero).
  assert (HlE : forall j k nm x, j <> c -> lists E0 j k nm x <-> lists a j k nm x).
  { intros j k nm x Hj. unfold lists. rewrite EiE by done.
    assert (Hent : inode_range j -> is_dir (a_inode a j) = true -> 0 <= k < dcount (a_inode a j) -> entry E0 j k = entry a j k).
    { intros Hjr Hjd Hk. pose proof (fo_count _ H j Hjr Hjd). apply entry_fblock; [|lia]. intros lb Hlb. by apply (er_other _ _ _ _ Her). }
    split; intros (? & ? & ? & Hx); split_and!; try done; try lia; [rewrite <- Hent | rewrite Hent]; done. }
  assert (Hd2 : is_dir (a_inode E0 dir) = true) by (by rewrite EiE).
  pose proof (changed_clear dir i E0 a2 Hch Hdir Hd2 (fo_count _ HokE dir Hdir Hd2)) as Hcl.
  pose proof (fs_ok_clear dir i E0 a2 HokE Hch Hdir zero_range) as Hok2.
  assert (Hnc : forall k nm x, ~ lists a2 c k nm x).
  { intros k nm x (_ & Hx & _). rewrite (dc_inode _ _ _ _ _ _ _ Hch) in Hx by done. unfold E0 in Hx. by rewrite a_inode_set in Hx. }
  assert (Hl2 : forall j k nm x, lists a2 j k nm x -> lists a j k nm x /\ (j = dir -> k <> i)).
  { intros j k nm x Hx. destruct (Z.eq_dec j c) as [->|Hjc]; [by apply Hnc in Hx|].
    destruct (Z.eq_dec j dir) as [->|Hjd]; [apply Hcl in Hx as [? Hx] | apply (changed_other _ _ _ _ _ _ _ _ _ _ Hch (fo_count _ HokE) Hjd) in Hx];
      (split; [by apply HlE | done]). }
  assert (Hgone : forall j k nm, ~ lists a2 j k nm c).
  { intros j k nm Hx. apply Hl2 in Hx as [Hx Hk]. by destruct (fo_unique _ H _ _ _ _ _ _ _ _ Hx Hli ltac:(by left)) as [-> ->]; apply Hk. }
  assert (HlF : forall j k nm x, lists F j k nm x <-> lists a2 j k nm x).
  { intros j k nm x. unfold lists, entry, dent. by rewrite <- (ae_inode _ _ E), <- (fblock_aeq _ _ _ _ E). }
  assert (HokF : fs_ok F) by (eapply fs_ok_aeq; [exact E|]; apply fs_ok_iused; [done | by left | by right]).
  constructor; [done | | | | | | | |].
  - intros j Hj. rewrite <- (ae_iused _ _ E). cbn. unfold fupd. destruct (j =? c); cbn [negb andb]; [done|].
    rewrite (dc_iused _ _ _ _ _ _ _ Hch) by done. rewrite (er_iused _ _ _ _ Her). done.
  - intros nm x. setoid_rewrite HlF. split.
    + intros [k Hx]. apply Hl2 in Hx as [Hx Hk]. split; [|by exists k]. intros ->.
      destruct (fo_unique _ H _ _ _ _ _ _ _ _ Hx Hli ltac:(by right)) as [_ ->]. by apply Hk.
    + intros [Hnm [k Hx]]. exists k. apply Hcl. split; [|by apply HlE]. intros ->. apply Hnm.
      destruct Hx as (_ & _ & _ & Hx). congruence.
  - intros j k nm x Hj Hjc. rewrite HlF, (changed_other _ _ _ _ _ _ _ _ _ _ Hch (fo_count _ HokE) Hj). by apply HlE.
  - intros k nm x Hx. apply HlF in Hx. by apply Hnc in Hx.
  - intros j Hj. rewrite <- (ae_inode _ _ E). destruct (Z.eq_dec j dir) as [->|Hjd].
    + rewrite (ae_inode _ _ E). unfold F, after_remove. cbn [set_iused a_inode]. rewrite a_inode_other by done. apply a_inode_set.
    + change (a_inode a2 j = a_inode a j). rewrite (dc_inode _ _ _ _ _ _ _ Hch) by done. by apply EiE.
  - intros j lb Hj Hlb Hjd Hjc. rewrite <- (fblock_aeq _ _ _ _ E). change (fblock a2 j lb = fblock a j lb).
    rewrite (dc_other _ _ _ _ _ _ _ Hch) by done. by apply (er_other _ _ _ _ Her).
  - intros k Hk H0. change (a_used a1 (slot a c k) = false). by apply (fr_freed _ _ _ _ Hfr).
  - intros b Hb. change (a_used a1 b = a_used a b). by apply (fr_kept _ _ _ _ Hfr).
Qed.

Definition removable a (want_dir : bool) c : Prop :=
  is_dir (a_inode a c) = want_dir /\ (want_dir = true -> forall i nm x, ~ lists a c i nm x).

Definition remove_result (nd : inode) name want_dir a (r : Z * inode) a' : Prop :=
  (exists i c, r = (0, resized a nd) /\ lists a (i_ino nd) i name c /\ removable a want_dir c /\ removed a a' (i_ino nd) name c) \/
  (r = (-1, nd) /\ a' = a /\ forall i c, lists a (i_ino nd) i name c -> ~ removable a want_dir c).

(** The test [capyfs_remove] makes of the target. *)
Lemma wp_removable P a s c (want_dir : bool) : dsk P None a s -> (length P < MAX_PINS)%nat -> fs_ok a -> inode_range c -> 
  wp (if want_dir then
        if negb (is_dir (a_inode a c)) then ret false else bind (capyfs_dir_is_empty mnt (a_inode a c)) (fun empty => ret (empty =? 1))
      else ret (negb (is_dir (a_inode a c)))) s (fun (ok : bool) s' => dsk P None a s' /\ mem s' = mem s /\ (ok = true <-> removable a want_dir c)).
Proof.
  intros Hd Hl Hok Hc. unfold removable. destruct want_dir.
  - destruct (is_dir (a_inode a c)) eqn:Ed; cbn [negb].
    + apply wp_bind. eapply wp_is_empty; [exact Hlay | exact Hd | done | apply Hok | exact Hc | by apply (fo_count _ Hok) | |].
      * intros s1 Hall H1 Hm1. apply wp_ret. split_and!; [done | done |]. split; [|done]. intros _. split; [done|].
        intros _ i nm x (_ & _ & Hi & He). by rewrite Hall in He.
      * intros i s1 Hi Hne H1 Hm1. apply wp_ret. split_and!; [done | done |]. split; [done|]. intros [_ Hx]. exfalso.
        destruct (entry a c i) as [[nm x]|] eqn:E; [|done]. by apply (Hx eq_refl i nm x).
    + apply wp_ret. split_and!; try done. split; [done | by intros [? _]].
  - apply wp_ret. split_and!; try done. by destruct (is_dir (a_inode a c)); split; [| by intros [? _] | | ].
Qed.

Lemma wp_remove P a s (nd : inode) name want_dir : dsk P None a s -> (Datatypes.S (length P) < MAX_PINS)%nat -> fs_ok a -> handle a nd ->
  is_dir (a_inode a (i_ino nd)) = true -> name_ok name ->
  wp (capyfs_remove nd name want_dir) s (fun r s' => exists a', dsk P None a' s' /\ mem s' = mem s /\ remove_result nd name want_dir a r a').
Proof.
  intros Hd Hl Hok (Hr & Hpriv & Hkind) Hdir Hn. unfold capyfs_remove. rewrite Hkind, Hdir. cbn [negb].
  unfold inode_mount. rewrite Hpriv. set (dir := i_ino nd) in *.
  apply wp_bind. eapply wp_read_inode; [exact Hlay | exact Hd | lia | exact Hr |]. intros s1 H1 Hm1. cbv beta iota zeta.
  apply wp_bind. eapply wp_find_entry; [exact Hlay | exact H1 | lia | apply Hok | exact Hr | exact Hn | by apply (fo_count _ Hok) | |].
  2: { intros s2 Hu H2 Hm2. apply wp_ret. exists a. split_and!; [done | congruence |]. right. split_and!; [done | done |].
       intros i c Hx. by destruct (unlisted_lists _ _ _ Hu i c). }
  intros i s2 Hi He Hu H2 Hm2. cbv beta iota. set (c := de_ino (dent a dir i)) in *.
  assert (Hli : lists a dir i name c) by (split_and!; first [apply Hr | done | lia]). destruct (fo_child _ Hok _ _ _ _ Hli) as [Hc Hcu].
  apply wp_bind. eapply wp_read_inode; [exact Hlay | exact H2 | lia | exact Hc |]. intros s3 H3 Hm3. cbv beta iota.
  change (truthy (Z.land (d_mode (a_inode a c)) VFS_MODE_DIR)) with (is_dir (a_inode a c)). cbv zeta.
  apply wp_bind. eapply wp_mono; [apply (wp_removable P a s3 c want_dir); done || lia|]. intros ok s4 (H4 & Hm4 & Hrm).
  destruct ok; cbn [negb].
  2: { apply wp_ret. exists a. split_and!; [done | congruence |]. right. split_and!; [done | done |]. intros i' c' Hx.
       destruct (fo_unique _ Hok _ _ _ _ _ _ _ _ Hx Hli ltac:(by right)) as [_ ->]. destruct Hx as (_ & _ & _ & Hx).
       pose proof (eq_trans (eq_sym Hx) He) as Ex. injection Ex as ->. intros Hno. by apply Hrm in Hno. }
  pose proof (proj1 Hrm eq_refl) as Hrem.
  assert (Hne : dir <> c).
  { intros E. destruct Hrem as [E1 E2]. rewrite <- E in E1, E2. rewrite Hdir in E1. by apply (E2 (eq_sym E1) i name c). }
  pose proof (fo_wf _ Hok) as Hwf. destruct (entry_parts i) as [Hlb Hoff]; [pose proof (fo_count _ Hok dir Hr Hdir); lia|].
  destruct (entry_block mnt a dir i Hwf Hr) as [Hhole Hblk]; [pose proof (fo_count _ Hok dir Hr Hdir); lia|].
  set (b := block_in a (a_inode a dir) (i / entries_per_block)) in *.
  assert (Hb0 : b <> 0) by (intros Eb; rewrite (Hhole Eb) in He; done). destruct (Hblk Hb0) as (Hbr & _).
  apply wp_bind. eapply wp_mono; [apply (wp_free_data_blocks mnt count Hlay P a s4 c); try done|].
  { by apply (wf_proper mnt _ _ (set_same_inode c a)). }
  intros d' s5 (a1 & H5 & Hm5 & Hfr & _).
  assert (Hlen : forall b, data_range b -> zlen (a_data a1 b) = CAPYFS_BLOCK_SIZE /\ bytes_ok (a_data a1 b)) by (intros; by eapply dsk_len).
  pose proof (removed_intro a a1 dir i name c Hok Hli Hne Hfr Hlen) as Hrmd. fold b in Hrmd.
  apply wp_bind. eapply wp_clear_entry; [exact Hlay | exact H5 | lia | exact Hbr | by apply Hwf | exact Hr | exact Hoff |].
  intros s6 H6 Hm6. cbn [negb Z.eqb]. destruct zero_disk_ok as (Hz & _ & _).
  apply wp_bind. eapply wp_write_inode; [exact Hlay | exact H6 | lia | exact Hc | exact Hz |]. intros s7 H7 Hm7. cbn [negb Z.eqb].
  apply wp_bind. eapply wp_free_inode_bit; [exact Hlay | exact H7 | lia | exact Hc |]. intros s8 H8 Hm8. apply wp_ret.
  eexists. split_and!; [exact H8 | congruence |]. left. by exists i, c.
Qed.

(** *** Metadata *)
Definition with_meta (m : vfs_metadata) d : capy_inode_disk :=
  mkDisk (d_mode d) (d_links d) (d_size d) (meta_uid m) (meta_gid m) (meta_perm m) (d_reserved d) (direct d) (indirect d).

Lemma fs_ok_meta a c m : fs_ok a -> inode_range c -> meta_ok (Some m) -> fs_ok (set_inode c (with_meta m (a_inode a c)) a).
Proof.
  intros H Hc (Hu & Hg & Hp). pose proof (wf_inode _ _ (fo_wf _ H) c Hc) as Hok.
  assert (Hok' : inode_ok (with_meta m (a_inode a c))) by (destruct Hok; by constructor).
  destruct (inode_fields mnt a c (with_meta m (a_inode a c)) (fo_wf _ H) Hc Hok' eq_refl eq_refl) as (Hwf & _ & Hfb).
  assert (Hin : forall j, is_dir (a_inode (set_inode c (with_meta m (a_inode a c)) a) j) = is_dir (a_inode a j) /\
    dcount (a_inode (set_inode c (with_meta m (a_inode a c)) a) j) = dcount (a_inode a j)).
  { intros j. destruct (Z.eq_dec j c) as [->|Hne]; [by rewrite a_inode_set | by rewrite a_inode_other]. }
  apply (fs_ok_transfer a); [done | done | apply H | rewrite (proj1 (Hin 0)); apply H | |].
  - intros j Hj. destruct (Hin j) as [-> ->]. intros Hd. right. split_and!; try done. intros i Hi. apply entry_fblock; [|done]. intros lb _. apply Hfb.
  - intros j i nm x Hx _. by eapply (fo_child _ H).
Qed.

Lemma wp_set_metadata P a s (nd : inode) m : dsk P None a s -> (length P < MAX_PINS)%nat -> fs_ok a -> inode_range (i_ino nd) ->
  private_data nd = Some mnt -> meta_ok (Some m) ->
  wp (capyfs_set_metadata nd m) s (fun r s' =>
    r = (0, set_i_meta (meta_uid m) (meta_gid m) (meta_perm m) nd) /\ mem s' = mem s /\
    let a' := set_inode (i_ino nd) (with_meta m (a_inode a (i_ino nd))) a in dsk P None a' s' /\ fs_ok a').
Proof.
  intros Hd Hl Hok Hr Hpriv Hm. unfold capyfs_set_metadata, inode_mount. rewrite Hpriv. pose proof (fs_ok_meta a (i_ino nd) m Hok Hr Hm) as Hok'.
  apply wp_bind. eapply wp_read_inode; [exact Hlay | exact Hd | done | exact Hr |]. intros s1 H1 Hm1. cbv beta iota zeta.
  apply wp_bind. eapply wp_write_inode; [exact Hlay | exact H1 | done | exact Hr | |].
  { pose proof (wf_inode _ _ (fo_wf _ Hok') (i_ino nd) Hr) as H. by rewrite a_inode_set in H. }
  intros s2 H2 Hm2. cbn [negb Z.eqb]. apply wp_ret. split_and!; try done. congruence.
Qed.
End tree.
