(* ===== verification/CapyFsMove.v ===== *)
(** * Renaming and listing on a CAPYFS disk

    What [capyfs_rename_inode] does to the tree, inside one directory and between two,
    and what [capyfs_iterate] shows of a directory. *)
From S2P Require Import Prelude BufferCache Buffers CapyFs CapyFsDisk CapyFsFile CapyFsDir CapyFsTree.
Local Open Scope capy_scope.

#[local] Opaque le_bytes.

Section move.
Context {S : Type} `{!Buffers S} (mnt : capyfs_mount) (count : Z) `{!BufferSpec (S := S) (m_dev mnt) count}.
Local Abbreviation l := (super mnt).
Context (Hlay : layout_ok l count).
Implicit Types (s : fsys S) (P : list (Z * Z)) (i n b c dir ino j k lb src dst x : Z) (a : adisk) (d : capy_inode_disk) (name nm sname dname : list Z).
Local Abbreviation data_range := (data_range mnt).
Local Abbreviation dsk := (dsk mnt count).
Local Abbreviation wf := (wf mnt).
Local Abbreviation inode_range := (inode_range mnt).
Local Abbreviation grows := (grows mnt).
Local Abbreviation lists := (lists mnt).
Local Abbreviation fs_ok := (fs_ok mnt).
Local Abbreviation counts_ok := (counts_ok mnt).
Local Abbreviation dir_changed := (dir_changed mnt).

(** Inode [c], listed as [sname] in [src], is listed as [dname] in [dst] instead. *)
Record renamed a a' src sname dst dname c : Prop := {
  rn_ok : fs_ok a';
  rn_lists j nm x : (exists i, lists a' j i nm x) <->
    (j = dst /\ nm = dname /\ x = c) \/ (~ (j = src /\ nm = sname) /\ exists i, lists a j i nm x);
  rn_iused j : inode_range j -> a_iused a' j = a_iused a j;
  rn_inode j : j <> dst -> a_inode a' j = a_inode a j;
  rn_dir : d_mode (a_inode a' dst) = d_mode (a_inode a dst) /\ owner (a_inode a' dst) = owner (a_inode a dst);
  rn_fblock j lb : inode_range j -> lb_range lb -> j <> src -> j <> dst -> fblock a' j lb = fblock a j lb }.

(** Entry [i'] of [dst] takes over what entry [i] of [src] listed. *)
Definition moves a a' src i dst i' dname c : Prop := forall j k nm x,
  lists a' j k nm x <-> (j = dst /\ k = i' /\ nm = dname /\ x = c) \/ (lists a j k nm x /\ ~ (j = src /\ k = i) /\ ~ (j = dst /\ k = i')).

Lemma lists_fun a j k nm x nm' x' : lists a j k nm x -> lists a j k nm' x' -> nm = nm' /\ x = x'.
Proof. intros (_ & _ & _ & E) (_ & _ & _ & E'). rewrite E in E'. by injection E'. Qed.

Lemma moves_ok a a' src sname i dst i' dname c : fs_ok a -> lists a src i sname c -> moves a a' src i dst i' dname c ->
  (src = dst /\ i = i' \/ forall nm x, ~ lists a dst i' nm x) -> (forall k x, lists a dst k dname x -> dst = src /\ k = i) -> name_ok dname ->
  wf a' -> (forall j, inode_range j -> a_iused a' j = a_iused a j) -> (forall j, is_dir (a_inode a' j) = is_dir (a_inode a j)) -> counts_ok a' ->
  fs_ok a' /\ forall j nm x, (exists k, lists a' j k nm x) <->
    (j = dst /\ nm = dname /\ x = c) \/ (~ (j = src /\ nm = sname) /\ exists k, lists a j k nm x).
Proof.
  intros H Hli Hmv Hfree Hno Hname Hwf Hiu Hdir Hcnt. pose proof (zero_range mnt count Hlay) as H0. split; [constructor; try done|].
  - rewrite Hiu by done. apply H.
  - rewrite Hdir. apply H.
  - intros j k nm x Hx. assert (Hr : inode_range x /\ a_iused a x = true).
    { apply Hmv in Hx as [(_ & _ & _ & ->) | [Hx _]]; by eapply (fo_child _ _ H). }
    split; [apply Hr|]. rewrite Hiu by apply Hr. apply Hr.
  - intros j k nm x Hx. apply Hmv in Hx as [(_ & _ & -> & _) | [Hx _]]; [done | by eapply (fo_name _ _ H)].
  - intros j k nm x j' k' nm' x' H1 H2 E.
    assert (Hnew : forall j k nm x, lists a j k nm x -> ~ (j = src /\ k = i) -> x = c \/ (j = dst /\ nm = dname) -> False).
    { intros j1 k1 nm1 x1 Hx Hne [-> | [-> ->]]; [|by destruct (Hno _ _ Hx) as [-> ->]; apply Hne].
      destruct (fo_unique _ _ H _ _ _ _ _ _ _ _ Hx Hli ltac:(by left)) as [-> ->]. by apply Hne. }
    apply Hmv in H1 as [(-> & -> & -> & ->) | (H1 & N1 & _)], H2 as [(-> & -> & -> & ->) | (H2 & N2 & _)]; [done | exfalso..|].
    + apply (Hnew _ _ _ _ H2 N2). destruct E as [|[]]; auto.
    + apply (Hnew _ _ _ _ H1 N1). destruct E as [|[]]; auto.
    + by eapply (fo_unique _ _ H).
  - intros j nm x. split.
    + intros [k Hk]. apply Hmv in Hk as [(-> & _ & -> & ->) | (Hk & Hne & _)]; [by left | right]. split; [|by exists k].
      intros [-> ->]. destruct (fo_unique _ _ H _ _ _ _ _ _ _ _ Hk Hli ltac:(by right)) as [_ ->]. by apply Hne.
    + intros [(-> & -> & ->) | (Hne & k & Hk)]; [exists i'; apply Hmv; by left|]. exists k. apply Hmv. right.
      assert (Hs : ~ (j = src /\ k = i)) by (intros [-> ->]; destruct (lists_fun _ _ _ _ _ _ _ Hk Hli) as [-> _]; by apply Hne).
      split_and!; [done | done |]. intros [-> ->]. destruct Hfree as [[-> ->] | Hfree]; [by apply Hs | by eapply Hfree].
Qed.

(** ** The two ways of a rename *)
Lemma renamed_inside a a' dir i sname dname c : fs_ok a -> lists a dir i sname c -> (forall k x, ~ lists a dir k dname x) -> name_ok dname ->
  dir_changed dir i (Some (dname, c)) (dcount (a_inode a dir)) a a' -> a_inode a' dir = a_inode a dir ->
  renamed a a' dir sname dir dname c.
Proof.
  intros H Hli Hno Hname Hch Ein. pose proof Hli as (Hr & Hd & Hi & He). pose proof (fo_count _ _ H dir Hr Hd) as Hmax.
  assert (Hin : forall j, a_inode a' j = a_inode a j).
  { intros j. destruct (Z.eq_dec j dir) as [->|]; [done | by apply (dc_inode _ _ _ _ _ _ _ Hch)]. }
  assert (Hmv : moves a a' dir i dir i dname c).
  { intros j k nm x. destruct (Z.eq_dec j dir) as [->|Hne].
    - unfold CapyFsTree.lists. rewrite Hin. split.
      + intros (_ & _ & Hk & Hx). rewrite (dc_entry _ _ _ _ _ _ _ Hch) in Hx by lia. destruct (Z.eqb_spec k i) as [->|]; [left; naive_solver | right]. 
        split_and!; try done; try lia; by intros [].
      + intros [(_ & -> & -> & ->) | ((_ & _ & Hk & Hx) & Hne & _)]; split_and!; try done; try lia; rewrite (dc_entry _ _ _ _ _ _ _ Hch) by lia.
        * by rewrite Z.eqb_refl.
        * destruct (Z.eqb_spec k i) as [->|]; [by destruct Hne | done].
    - rewrite (changed_other mnt dir i (Some (dname, c)) _ a a' j k nm x Hch (fo_count _ _ H) Hne). naive_solver. }
  destruct (moves_ok a a' dir sname i dir i dname c H Hli Hmv) as [Hok Hl].
  - by left.
  - intros k x Hx. by apply Hno in Hx.
  - done.
  - apply Hch.
  - apply Hch.
  - intros j. by rewrite Hin.
  - intros j. rewrite Hin. apply (fo_count _ _ H).
  - constructor; try done; [by apply Hch | by rewrite Ein |]. intros j lb Hj Hlb Hne _. by apply (dc_other _ _ _ _ _ _ _ Hch).
Qed.

Lemma renamed_across a a1 a2 src i sname dst i' n dname c : fs_ok a -> src <> dst -> lists a src i sname c -> inode_range dst ->
  is_dir (a_inode a dst) = true -> (forall k x, ~ lists a dst k dname x) -> name_ok dname -> entry_place a dst i' n ->
  dir_changed dst i' (Some (dname, c)) n a a1 -> dir_changed src i None (dcount (a_inode a1 src)) a1 a2 ->
  a_inode a2 src = a_inode a1 src -> renamed a a2 src sname dst dname c.
Proof.
  intros H Hne Hli Hdst Hdd Hno Hname Hpl H1 H2 Ein. pose proof Hli as (Hsrc & Hsd & Hi & He).
  assert (Es : a_inode a1 src = a_inode a src) by (by apply (dc_inode _ _ _ _ _ _ _ H1)).
  assert (Hc1 : counts_ok a1).
  { intros j Hj Hd. destruct (Z.eq_dec j dst) as [->|Hjd].
    - rewrite (dc_count _ _ _ _ _ _ _ H1). apply Hpl.
    - rewrite (dc_inode _ _ _ _ _ _ _ H1) in * by done. by apply (fo_count _ _ H). }
  assert (Hin2 : forall j, a_inode a2 j = a_inode a1 j).
  { intros j. destruct (Z.eq_dec j src) as [->|]; [done | by apply (dc_inode _ _ _ _ _ _ _ H2)]. }
  pose proof (changed_add mnt dst i' n a a1 dname c H1 Hpl Hdst Hdd) as Hadd.
  pose proof (changed_clear mnt src i a1 a2 H2 Hsrc ltac:(by rewrite Es) ltac:(rewrite Es; by apply (fo_count _ _ H))) as Hcl.
  assert (Hfree : forall nm x, ~ lists a dst i' nm x).
  { intros nm x (_ & _ & Hk & Hx). destruct Hpl as (_ & _ & [(_ & _ & E) | [E _]]); [congruence | lia]. }
  assert (Hmv : moves a a2 src i dst i' dname c).
  { intros j k nm x. destruct (Z.eq_dec j src) as [->|Hjs].
    - rewrite Hcl, (changed_other mnt dst i' _ n a a1 src k nm x H1 (fo_count _ _ H) Hne). naive_solver.
    - rewrite (changed_other mnt src i _ _ a1 a2 j k nm x H2 Hc1 Hjs). destruct (Z.eq_dec j dst) as [->|Hjd].
      + rewrite Hadd. naive_solver.
      + rewrite (changed_other mnt dst i' _ n a a1 j k nm x H1 (fo_count _ _ H) Hjd). naive_solver. }
  destruct (moves_ok a a2 src sname i dst i' dname c H Hli Hmv) as [Hok Hl].
  - by right.
  - intros k x Hx. by apply Hno in Hx.
  - done.
  - apply H2.
  - intros j Hj. rewrite (dc_iused _ _ _ _ _ _ _ H2), (dc_iused _ _ _ _ _ _ _ H1); done.
  - intros j. rewrite Hin2. destruct (Z.eq_dec j dst) as [->|]; [apply (changed_mode mnt _ _ _ _ _ _ H1) | by rewrite (dc_inode _ _ _ _ _ _ _ H1)].
  - intros j. rewrite Hin2. apply Hc1.
  - constructor; try done.
    + intros j Hj. rewrite (dc_iused _ _ _ _ _ _ _ H2), (dc_iused _ _ _ _ _ _ _ H1); done.
    + intros j Hj. rewrite Hin2. by apply (dc_inode _ _ _ _ _ _ _ H1).
    + rewrite Hin2. split; apply H1.
    + intros j lb Hj Hlb Hjs Hjd. rewrite (dc_other _ _ _ _ _ _ _ H2) by done. by apply (dc_other _ _ _ _ _ _ _ H1).
Qed.

(** Only the name of an entry is written. *)
Lemma listing_rename data off name : zlen data = CAPYFS_BLOCK_SIZE -> 0 <= off < entries_per_block -> name_ok name ->
  let data' := cstring_copy data (off * DIRENT_SIZE + 4) name in
  edits data data' off /\ (de_ino (dirent_at data off) <> 0 -> listing (dirent_at data' off) = Some (name, de_ino (dirent_at data off))).
Proof.
  intros Hl Hoff Hn. pose proof Hoff as Ho. change entries_per_block with 113 in Ho. cbv zeta.
  destruct (cstring_copy_spec data (off * DIRENT_SIZE + 4) name Hn) as (H1 & H2 & H3 & H4);
    [unfold DIRENT_SIZE; lia | unfold DIRENT_SIZE, CAPYFS_NAME_MAX, CAPYFS_BLOCK_SIZE in *; lia |].
  set (data' := cstring_copy _ _ _) in *. unfold DIRENT_SIZE, CAPYFS_NAME_MAX, CAPYFS_BLOCK_SIZE in *. split.
  - split_and!; [unfold CAPYFS_BLOCK_SIZE; lia | done |]. intros off' Hr Hne. apply (dirent_other data data' off); try done.
    intros o k H0 Hk Hok Hd. unfold DIRENT_SIZE, CAPYFS_BLOCK_SIZE in *. apply H4; lia.
  - rewrite !dirent_at_parts by lia. unfold listing. cbn [de_ino de_name].
    assert (E : load_le data' (off * DIRENT_SIZE) 4 = load_le data (off * DIRENT_SIZE) 4).
    { unfold load_le, DIRENT_SIZE. rewrite H4; [done | lia..]. }
    rewrite E. intros Hz. replace (load_le data (off * DIRENT_SIZE) 4 =? 0) with false by lia. unfold DIRENT_SIZE, CAPYFS_NAME_MAX. by rewrite H3.
Qed.

(** Allocations alone change nothing anyone sees. *)
Lemma unchanged_grows a a' : fs_ok a -> grows a a' -> (forall j, a_inode a' j = a_inode a j) -> unchanged mnt a a'.
Proof.
  intros H G Hin. constructor; [apply (fs_ok_grows mnt a a' H G), (zero_range mnt count Hlay) | apply G | done |].
  intros j lb Hj Hlb _. by apply G.
Qed.

Definition rename_result (sd dd : inode) sname dname a (r : Z * inode * inode) a' : Prop :=
  (exists i c, r.1.1 = 0 /\ (r.1.2 = sd \/ r.1.2 = resized a' sd) /\ (r.2 = dd /\ a_inode a' (i_ino dd) = a_inode a (i_ino dd) \/ i_ino sd <> i_ino dd /\ r.2 = resized a' dd) /\ lists a (i_ino sd) i sname c /\
     (i_ino sd = i_ino dd /\ sname = dname /\ a' = a \/ renamed a a' (i_ino sd) sname (i_ino dd) dname c)) \/
  (r = (-1, sd, dd) /\ unchanged mnt a a' /\
    ((forall i c, ~ lists a (i_ino sd) i sname c) \/ i_ino sd <> i_ino dd /\ ((exists i x, lists a (i_ino dd) i dname x) \/
     MAX_ENTRIES <= dcount (a_inode a (i_ino dd)) \/ full mnt a'))).

Lemma names_equal_self name name' : name_ok name -> name_ok name' -> names_equal name name' = bool_decide (name = name').
Proof.
  intros [H1 Hl1] Hn2. pose (f := name ++ zrep (CAPYFS_NAME_MAX - zlen name) 0).
  assert (Hf : zlen f = CAPYFS_NAME_MAX) by (unfold f; rewrite zlen_app, zlen_rep; lia).
  assert (Hc : cstr f = name).
  { unfold f, zrep. destruct (Z.to_nat (CAPYFS_NAME_MAX - zlen name)) eqn:E; [lia|]. by apply cstr_app. }
  transitivity (bool_decide (cstr f = name')); [|apply bool_decide_ext; by rewrite Hc].
  rewrite <- (names_equal_cstr f name' Hn2 Hf). unfold names_equal.
  assert (Hg : forall i, 0 <= i -> f.[i] = name.[i]).
  { intros i Hi. unfold f. destruct (Z.lt_ge_cases i (zlen name)); [by rewrite aget_app_l | rewrite aget_app_r by lia].
    rewrite (aget_out _ name) by lia. unfold aget, zrep. destruct (replicate _ _ !! _) eqn:E; [|done]. by apply lookup_replicate_1 in E as [-> _]. }
  assert (E : forall m i, 0 <= i -> until_n m i (fun i (_ : unit) =>
      if truthy name.[i] && truthy name'.[i] then if negb (name.[i] =? name'.[i]) then inr false else inl tt
      else inr (name.[i] =? name'.[i])) tt = until_n m i (fun i (_ : unit) =>
      if truthy f.[i] && truthy name'.[i] then if negb (f.[i] =? name'.[i]) then inr false else inl tt
      else inr (f.[i] =? name'.[i])) tt).
  { induction m as [|m IH]; intros i Hi; [done|]. cbn [until_n]. rewrite Hg by done.
    destruct (_ && _); [|done]. destruct (negb _); [done|]. apply IH. lia. }
  unfold until_range. rewrite E by done. done.
Qed.

(** The block of a listed entry is there. *)
Lemma listed_block a dir i name c : fs_ok a -> lists a dir i name c ->
  0 <= i < MAX_ENTRIES /\ 0 <= i / entries_per_block < FILE_BLOCKS /\ 0 <= i `mod` entries_per_block < entries_per_block /\
  let b := block_in a (a_inode a dir) (i / entries_per_block) in
  b <> 0 /\ data_range b /\ dent a dir i = dirent_at (a_data a b) (i `mod` entries_per_block) /\ de_ino (dent a dir i) = c /\ 0 < c < 2 ^ 32.
Proof.
  intros H Hli. pose proof Hli as (Hr & Hd & Hi & He). pose proof (fo_count _ _ H dir Hr Hd) as Hmax.
  destruct (entry_parts i ltac:(lia)) as [Hlb Hoff]. split_and!; try lia.
  destruct (entry_block mnt a dir i (fo_wf _ _ H) Hr ltac:(lia)) as [Hhole Hblk]. cbv zeta.
  assert (Hb0 : block_in a (a_inode a dir) (i / entries_per_block) <> 0) by (intros E; rewrite (Hhole E) in He; done).
  destruct (Hblk Hb0) as (Hbr & Hde & _). destruct (fo_child _ _ H _ _ _ _ Hli) as [Hc _].
  pose proof (lists_nonzero _ _ _ _ _ _ Hli) as Hnz. split_and!; try done; try apply Hbr.
  - unfold entry, listing in He. destruct (_ =? 0); [done | congruence].
  - pose proof (lo_inodes _ _ Hlay). unfold CapyFsFile.inode_range in Hc. lia.
  - pose proof (lo_inodes _ _ Hlay). unfold CapyFsFile.inode_range in Hc. lia.
Qed.

(** The branch of one directory: the name is written over. *)
Lemma wp_rename_inside P a s (sd dd : inode) dir i sname c dname (Q : Z * inode * inode -> fsys S -> Prop) : dsk P None a s -> (length P < MAX_PINS)%nat -> fs_ok a ->
  lists a dir i sname c -> name_ok dname ->
  (forall a' s', dir_changed dir i (Some (dname, c)) (dcount (a_inode a dir)) a a' -> a_inode a' dir = a_inode a dir ->
     dsk P None a' s' -> mem s' = mem s -> Q (0, sd, dd) s') ->
  wp (bind (buffer_get (m_dev mnt) (block_in a (a_inode a dir) (i / entries_per_block))) (fun bh =>
      match bh with
      | None => ret (-1, sd, dd)
      | Some bh =>
          bind (bh_data bh) (fun data =>
          bind (set_bh_data bh (cstring_copy data (i `mod` entries_per_block * DIRENT_SIZE + 4) dname)) (fun _ =>
          bind (buffer_mark_dirty bh) (fun _ =>
          bind (buffer_release bh) (fun _ => bind (capyfs_write_inode_disk mnt dir (a_inode a dir)) (fun rc => ret (rc, sd, dd))))))
      end)) s Q.
Proof.
  intros Hd Hl H Hli Hn HQ. pose proof Hli as (Hr & _). destruct (listed_block a dir i sname c H Hli) as (Hi & Hlb & Hoff & Hb0 & Hbr & Hde & Hci & Hc).
  set (b := block_in a (a_inode a dir) (i / entries_per_block)) in *. destruct (dsk_len _ _ Hlay _ _ _ _ b Hd Hbr) as [Hbl Hbb].
  destruct (listing_rename (a_data a b) (i `mod` entries_per_block) dname Hbl Hoff Hn) as [Hed Hlist].
  rewrite <- Hde, Hci in Hlist. specialize (Hlist ltac:(lia)).
  pose proof (entry_edited mnt a dir i _ _ (fo_wf _ _ H) Hr Hi Hb0 Hed Hlist) as Hch. fold b in Hch.
  apply wp_bind. eapply dsk_get; [exact Hlay | exact Hd | exact Hbr | done |]. intros h s1 H1 Hm1. cbv beta iota.
  apply wp_bind. eapply dsk_data; [exact H1 | left | exact Hbr |].
  eapply dsk_modify; [exact Hlay | exact H1 | left | exact Hbr | apply Hed | by apply Hed |]. intros s2 H2 Hm2.
  apply wp_bind. eapply dsk_release; [exact H2 | done |]. intros s3 H3 Hm3.
  apply wp_bind. eapply wp_write_inode; [exact Hlay | exact H3 | done | exact Hr | by apply (wf_inode _ _ (fo_wf _ _ H)) |]. intros s4 H4 Hm4. apply wp_ret.
  eapply HQ; [exact Hch | by rewrite a_inode_set | exact H4 | congruence].
Qed.

Lemma wp_rename P a s (sd dd : inode) sname dname : dsk P None a s -> (Datatypes.S (length P) < MAX_PINS)%nat -> fs_ok a ->
  handle mnt a sd -> handle mnt a dd -> is_dir (a_inode a (i_ino sd)) = true -> is_dir (a_inode a (i_ino dd)) = true ->
  name_ok sname -> name_ok dname ->
  (i_ino sd = i_ino dd -> sname <> dname -> forall i x, ~ lists a (i_ino dd) i dname x) ->
  wp (capyfs_rename_inode sd sname dd dname) s (fun r s' => exists a', dsk P None a' s' /\ mem s' = mem s /\ rename_result sd dd sname dname a r a').
Proof.
  intros Hd Hl H (Hsr & Hsp & Hsk) (Hdr & Hdp & Hdk) Hsd Hdd Hsn Hdn Hfree. unfold capyfs_rename_inode. rewrite Hsk, Hdk, Hsd, Hdd. cbn [negb orb].
  unfold inode_mount. rewrite Hsp, Hdp, Z.eqb_refl. cbn [negb]. set (src := i_ino sd) in *. set (dst := i_ino dd) in *.
  pose proof (fo_wf _ _ H) as Hwf.
  apply wp_bind. eapply wp_read_inode; [exact Hlay | exact Hd | lia | exact Hsr |]. intros s1 H1 Hm1. cbv beta iota zeta.
  apply wp_bind. eapply wp_read_inode; [exact Hlay | exact H1 | lia | exact Hdr |]. intros s2 H2 Hm2. cbv beta iota zeta.
  assert (Hfail : forall a' s', dsk P None a' s' -> mem s' = mem s -> unchanged mnt a a' ->
    ((forall i c, ~ lists a src i sname c) \/ src <> dst /\ ((exists i x, lists a dst i dname x) \/ MAX_ENTRIES <= dcount (a_inode a dst) \/ full mnt a')) ->
    wp (ret (-1, sd, dd)) s' (fun r s' => exists a', dsk P None a' s' /\ mem s' = mem s /\ rename_result sd dd sname dname a r a')).
  { intros a' s' Ha Hm Hu Hwhy. apply wp_ret. exists a'. split_and!; [done | done |]. by right. }
  pose proof (unchanged_refl mnt a H) as Hrefl.
  apply wp_bind. eapply wp_find_entry; [exact Hlay | exact H2 | lia | exact Hwf | exact Hsr | exact Hsn | by apply (fo_count _ _ H) | |].
  2: { intros s3 Hu H3 Hm3. apply (Hfail a); [done | congruence | done |]. left. by apply (unlisted_lists mnt). }
  intros i s3 Hi He Hu H3 Hm3. cbv beta iota. set (c := de_ino (dent a src i)) in *.
  assert (Hli : lists a src i sname c) by (split_and!; first [apply Hsr | done | lia]).
  destruct (listed_block a src i sname c H Hli) as (Hi' & Hlb & Hoff & Hb0 & Hbr & Hde & Hci & Hc).
  destruct (Z.eqb_spec src dst) as [E|E].
  { rewrite names_equal_self by done. case_bool_decide as Hsame.
    - apply wp_ret. exists a. split_and!; [done | congruence |]. left. exists i, c. cbn. split_and!; try done; by left.
    - eapply (wp_rename_inside P a s3 sd dd src i sname c); [exact H3 | lia | done | exact Hli | done |].
      intros a' s' Hch Ein H' Hm'. exists a'. split_and!; [done | congruence |]. left. exists i, c. cbn.
      split_and!; try done; try by left. { left. split; [done|]. fold dst. by rewrite <- E. } right. fold src. fold dst. rewrite <- E. eapply renamed_inside; try done. intros k x. rewrite E. by apply Hfree. }
  apply wp_bind. eapply wp_find_entry; [exact Hlay | exact H3 | lia | exact Hwf | exact Hdr | exact Hdn | by apply (fo_count _ _ H) | |].
  { intros k s4 Hk Hek _ H4 Hm4. apply (Hfail a); [done | congruence | done |]. right. split; [exact E|]. left. exists k, (de_ino (dent a dst k)).
    split_and!; first [apply Hdr | done | lia]. }
  intros s4 Hu2 H4 Hm4. pose proof (unlisted_lists mnt _ _ _ Hu2) as Hno. cbv beta iota.
  apply wp_bind. eapply wp_add_entry; [exact Hlay | exact H4 | done | exact Hwf | exact Hdr | exact Hdn | exact Hc | by apply (fo_count _ _ H) | |].
  2: { intros a' d' s5 G Hin Hwhy H5 Hm5. apply (Hfail a'); [done | congruence | by apply unchanged_grows |]. right. split; [exact E|]. by right. }
  intros i' n a1 s5 Hpl Hch1 H5 Hm5. cbn [negb Z.eqb].
  assert (Es : a_inode a1 src = a_inode a src) by (by apply (dc_inode _ _ _ _ _ _ _ Hch1)).
  set (b := block_in a (a_inode a src) (i / entries_per_block)) in *.
  assert (Eb : block_in a1 (a_inode a1 src) (i / entries_per_block) = b) by (by apply (dc_block _ _ _ _ _ _ _ Hch1)).
  pose proof (dc_wf _ _ _ _ _ _ _ Hch1) as Hwf1. destruct (wf_data _ _ Hwf1 b Hbr) as [Hbl _].
  destruct (wipe_dirent_spec (a_data a1 b) (i `mod` entries_per_block) Hbl Hoff) as [Hed Hw].
  pose proof (entry_edited mnt a1 src i (wipe_dirent (a_data a1 b) (i `mod` entries_per_block)) None Hwf1 Hsr Hi') as Hch2. cbv zeta in Hch2. rewrite Eb in Hch2.
  specialize (Hch2 Hb0 Hed ltac:(unfold listing; by rewrite Hw)). rewrite Es in Hch2.
  apply wp_bind. eapply wp_clear_entry; [exact Hlay | exact H5 | lia | exact Hbr | by apply (wf_inode _ _ Hwf) | exact Hsr | exact Hoff |].
  intros s6 H6 Hm6. cbn [negb Z.eqb]. apply wp_ret. eexists. split_and!; [exact H6 | congruence |]. left. exists i, c. cbn [fst snd].
  split_and!; try done.
  { right. unfold resized. fold src. by rewrite a_inode_set. }
  { right. split; [exact E|]. unfold resized. fold dst. by rewrite a_inode_other by done. }
  right.
  eapply renamed_across; [done | exact E | exact Hli | exact Hdr | done | done | done | exact Hpl | exact Hch1 | |].
  - fold src. rewrite Es. exact Hch2.
  - fold src. by rewrite a_inode_set, Es.
Qed.

(** ** Listing a directory *)
Definition shown a dir i : option (list Z * Z) :=
  let e := dent a dir i in
  if (de_ino e =? 0) || ((de_name e).[0] =? 0) then None else Some (de_name e, d_mode (a_inode a (de_ino e))).

(** What the callback is called with, in this order, until it returns other than 0. *)
Definition shown_list a dir : list (list Z * Z) := omap (shown a dir) (seqZ 0 (dcount (a_inode a dir))).

Fixpoint visit {C} (cb : list Z -> Z -> C -> Z * C) (es : list (list Z * Z)) (ctx : C) : C :=
  match es with
  | [] => ctx
  | e :: es => let '(rc, ctx) := cb e.1 e.2 ctx in if negb (rc =? 0) then ctx else visit cb es ctx
  end.

Lemma wp_iterate {C} P a s (nd : inode) (cb : list Z -> Z -> C -> Z * C) ctx : dsk P None a s -> (length P < MAX_PINS)%nat -> fs_ok a ->
  handle mnt a nd -> is_dir (a_inode a (i_ino nd)) = true ->
  wp (capyfs_iterate nd cb ctx) s (fun r s' => dsk P None a s' /\ mem s' = mem s /\
    r = (0, visit cb (shown_list a (i_ino nd)) ctx, resized a nd)).
Proof.
  intros Hd Hl H (Hr & Hpriv & Hkind) Hdir. unfold capyfs_iterate. rewrite Hkind, Hdir. cbn [negb].
  unfold inode_mount. rewrite Hpriv. set (dir := i_ino nd) in *. pose proof (fo_count _ _ H dir Hr Hdir) as Hmax.
  pose proof (dcount_nonneg mnt a dir (fo_wf _ _ H) Hr) as Hn0.
  apply wp_bind. eapply wp_read_inode; [exact Hlay | exact Hd | done | exact Hr |]. intros s1 H1 Hm1. cbv beta iota zeta.
  change (d_size (a_inode a dir) / DIRENT_SIZE) with (dcount (a_inode a dir)). set (n := dcount (a_inode a dir)) in *.
  set (rest := fun i => omap (shown a dir) (seqZ i (n - i))).
  apply wp_bind. eapply (wp_while _ _ _ _ (fun t s' => dsk P None a s' /\ mem s' = mem s /\ 0 <= t.1 <= n /\
      visit cb (rest t.1) t.2 = visit cb (shown_list a dir) ctx) (fun t => n - t.1)); [| cbn [fst]; lia |].
  { split_and!; [done | done | cbn; lia..|]. unfold rest, shown_list. cbn [fst snd]. by rewrite Z.sub_0_r. }
  intros [i cx] s2 (H2 & Hm2 & Hi & Hv). cbn [fst snd] in *. split; [lia|].
  destruct (Z.ltb_spec i n); cbn [negb].
  2: { apply wp_ret, wp_ret. cbv [default from_option id]. split_and!; [done | congruence |]. replace i with n in Hv by lia.
       assert (En : rest n = []) by (unfold rest; by rewrite Z.sub_diag). rewrite En in Hv. cbn [visit] in Hv. by rewrite Hv. }
  assert (Er : rest i = match shown a dir i with Some e => e :: rest (i + 1) | None => rest (i + 1) end).
  { unfold rest. rewrite (seqZ_cons i) by lia. cbn [omap list_omap]. replace (Z.pred (n - i)) with (n - (i + 1)) by lia.
    replace (Z.succ i) with (i + 1) by lia. done. }
  destruct (entry_parts i ltac:(lia)) as [Hlb Hoff]. destruct (entry_block mnt a dir i (fo_wf _ _ H) Hr ltac:(lia)) as [Hhole Hblk].
  apply wp_bind. eapply wp_block; [exact Hlay | exact H2 | done | rewrite set_same_inode; apply H | done | apply Hlb |]. intros s3 H3 Hm3.
  replace (i / entries_per_block <? FILE_BLOCKS) with true by lia.
  set (b := block_in a (a_inode a dir) (i / entries_per_block)) in *.
  assert (Hskip : forall s', dsk P None a s' -> mem s' = mem s -> shown a dir i = None ->
    wp (ret (inl (i + 1, cx))) s' (fun r s' => match r with
      | inl t' => (dsk P None a s' /\ mem s' = mem s /\ 0 <= t'.1 <= n /\ visit cb (rest t'.1) t'.2 = visit cb (shown_list a dir) ctx) /\ n - t'.1 < n - i
      | inr r => wp (let '(rc, ctx) := default (0, ctx) (Some r) in ret (rc, ctx, set_i_size (d_size (a_inode a dir)) nd)) s'
          (fun r s' => dsk P None a s' /\ mem s' = mem s /\ r = (0, visit cb (shown_list a dir) ctx, resized a nd)) end)).
  { intros s' Ha Hm E. apply wp_ret. cbn [fst snd]. rewrite Er, E in Hv. split_and!; try done; lia. }
  destruct (Z.eqb_spec b 0) as [E|E].
  { apply Hskip; [done | congruence |]. pose proof (Hhole E) as He. unfold entry, listing in He. unfold shown. by destruct (de_ino _ =? 0). }
  destruct (Hblk E) as (Hbr & Hde & Hbl). apply wp_bind. eapply dsk_get; [exact Hlay | exact H3 | exact Hbr | done |]. intros h s4 H4 Hm4. cbv beta iota.
  apply wp_bind. eapply dsk_data; [exact H4 | left | exact Hbr |]. rewrite <- Hde.
  apply wp_bind. eapply dsk_release; [exact H4 | done |]. intros s5 H5 Hm5. unfold shown in Er, Hskip. cbv zeta in Er, Hskip.
  destruct ((de_ino (dent a dir i) =? 0) || ((de_name (dent a dir i)).[0] =? 0)) eqn:Es; [apply Hskip; [done | congruence | done]|].
  apply orb_false_iff in Es as [E0 _].
  assert (Hc : inode_range (de_ino (dent a dir i))).
  { destruct (fo_child _ _ H dir i (cstr (de_name (dent a dir i))) (de_ino (dent a dir i))) as [Hc _]; [|done].
    split_and!; try apply Hr; try done; try lia. unfold entry, listing. by rewrite E0. }
  apply wp_bind. eapply wp_read_inode; [exact Hlay | exact H5 | done | exact Hc |]. intros s6 H6 Hm6. cbv beta iota.
  rewrite Er in Hv. cbn [visit fst snd] in Hv. destruct (cb _ _ cx) as [rc cx']. destruct (negb (rc =? 0)).
  - apply wp_ret, wp_ret. cbv [default from_option id]. split_and!; [done | congruence | by rewrite Hv].
  - apply wp_ret. cbn [fst snd]. split_and!; try done; try lia. congruence.
Qed.
End move.
