(* ===== verification/CapyFsFormat.v ===== *)
(** * Formatting and mounting a CAPYFS disk

    The layout the formatter computes, what it writes, and that the result mounts as a
    disk with an empty root directory. *)
From S2P Require Import Prelude BufferCache Buffers CapyFs CapyFsDisk CapyFsFile CapyFsDir CapyFsTree.
Local Open Scope capy_scope.

#[local] Opaque le_bytes.

(** ** The layout *)

(** The inode table has room for every inode at 56 a block. *)
Definition table_fits (inodes : Z) : Prop := (inodes + per_block - 1) / per_block <= (inodes * INODE_SIZE + CAPYFS_BLOCK_SIZE - 1) / CAPYFS_BLOCK_SIZE.

Lemma format_layout_ok inodes blocks count : 0 < inodes -> 0 < blocks -> inodes + bits_per_block < 2 ^ 32 -> blocks + bits_per_block < 2 ^ 32 ->
  table_fits inodes -> data_start (format_layout inodes blocks) < blocks -> blocks <= count < 2 ^ 32 ->
  layout_ok (format_layout inodes blocks) count.
Proof.
  unfold table_fits, format_layout. cbn [data_start]. change bits_per_block with 32768. change per_block with 56.
  unfold CAPYFS_BLOCK_SIZE, INODE_SIZE. intros Hi Hb Hi32 Hb32 Hfit. 
  rewrite (u32_small (blocks + 32768 - 1)), (u32_small (inodes + 32768 - 1)), (u64_small (inodes * 72 + 4096 - 1)) by lia.
  set (bb := (blocks + 32768 - 1) / 32768). set (ib := (inodes + 32768 - 1) / 32768). set (tb := (inodes * 72 + 4096 - 1) / 4096) in *.
  assert (Hbb : 0 <= bb < 2 ^ 20) by (unfold bb; split; [apply Z.div_pos; lia | apply Z.div_lt_upper_bound; lia]).
  assert (Hib : 0 <= ib < 2 ^ 20) by (unfold ib; split; [apply Z.div_pos; lia | apply Z.div_lt_upper_bound; lia]).
  assert (Htb : 0 <= tb < 2 ^ 30) by (unfold tb; split; [apply Z.div_pos; lia | apply Z.div_lt_upper_bound; lia]).
  rewrite (u32_small (1 + bb)) by lia. rewrite (u32_small (1 + bb + ib)) by lia. rewrite (u32_small tb) by lia.
  rewrite (u32_small (1 + bb + ib + tb)) by lia.
  intros Hds Hcount. constructor; cbn [bmap_start imap_start inode_start data_start block_count inode_count].
  - lia.
  - intros b Hb'. change bits_per_block with 32768. unfold bb. Z.div_mod_to_equations. lia.
  - intros i Hi'. change bits_per_block with 32768. unfold ib. Z.div_mod_to_equations. lia.
  - intros i Hi'. change per_block with 56. assert (i / 56 < (inodes + 56 - 1) / 56); [|lia]. Z.div_mod_to_equations. lia.
  - lia.
  - lia.
  - lia.
  - lia.
  - lia.
Qed.

(** ** Images *)
Lemma zero_inode off : 0 <= off -> off + INODE_SIZE <= CAPYFS_BLOCK_SIZE ->
  inode_of_bytes (sub_bytes (zrep CAPYFS_BLOCK_SIZE 0) off INODE_SIZE) = zero_disk.
Proof.
  intros. replace (sub_bytes (zrep CAPYFS_BLOCK_SIZE 0) off INODE_SIZE) with (zrep INODE_SIZE 0); [vm_compute; reflexivity|].
  apply (array_ext 0).
  - rewrite zlen_sub; rewrite ?zlen_rep; unfold INODE_SIZE, CAPYFS_BLOCK_SIZE in *; lia.
  - intros i Hi. rewrite zlen_rep in Hi by (unfold INODE_SIZE; lia). unfold INODE_SIZE, CAPYFS_BLOCK_SIZE in *.
    by rewrite aget_sub, !aget_rep by lia.
Qed.

Lemma root_disk_ok : inode_ok root_disk.
Proof.
  constructor; cbn [root_disk d_mode d_links d_size d_uid d_gid d_perm d_reserved direct indirect]; try done; try lia.
  apply Forall_replicate. lia.
Qed.

Lemma super_round l : Forall (fun v => 0 <= v < 2 ^ 32) [magic l; version l; block_size l; block_count l; inode_count l;
    bmap_start l; imap_start l; inode_start l; data_start l] -> super_of_bytes (format_super l) = l.
Proof.
  intros H. repeat (apply Forall_cons in H as [? H]). destruct l as [m v bs bc ic bm im is_ ds].
  cbn [magic version block_size block_count inode_count bmap_start imap_start inode_start data_start] in *.
  unfold format_super, super_of_bytes, store_u32_le_volatile. cbn [magic version block_size block_count inode_count bmap_start imap_start inode_start data_start].
  assert (Hz : zlen (zrep CAPYFS_BLOCK_SIZE 0) = 4096) by done. set (z := zrep CAPYFS_BLOCK_SIZE 0) in *. clearbody z.
  assert (Hs : forall b off v, zlen b = 4096 -> 0 <= off <= 4092 -> zlen (store_le b off 4 v) = 4096) by (intros; rewrite zlen_store; lia).
  assert (Hsame : forall b off v, zlen b = 4096 -> 0 <= off <= 4092 -> 0 <= v < 2 ^ 32 -> load_le (store_le b off 4 v) off 4 = v)
    by (intros; apply load_store_same; lia).
  assert (Hoth : forall b off v off', zlen b = 4096 -> 0 <= off <= 4092 -> 0 <= off' <= 4092 -> off' + 4 <= off \/ off + 4 <= off' ->
    load_le (store_le b off 4 v) off' 4 = load_le b off' 4) by (intros; apply load_store_other; lia).
  f_equal; repeat (rewrite Hoth; [| repeat (apply Hs; [|lia]); exact Hz | lia | lia | lia]);
    (apply Hsame; [repeat (apply Hs; [|lia]); exact Hz | lia | done]).
Qed.

(** *** The block bitmap *)
Lemma reserved_bits_spec used map : 0 <= map -> (map + 1) * bits_per_block < 2 ^ 32 -> 0 <= used ->
  zlen (reserved_bits used map) = CAPYFS_BLOCK_SIZE /\ bytes_ok (reserved_bits used map) /\
  forall r, 0 <= r < bits_per_block -> bit_at (reserved_bits used map) r = (map * bits_per_block + r <? used).
Proof.
  change bits_per_block with 32768. intros Hm H32 Hu. unfold reserved_bits. change bits_per_block with 32768.
  rewrite (u32_small (map * 32768)), (u32_small (map * 32768 + 32768)) by lia.
  set (start := map * 32768). set (fin := Z.min (start + 32768) used).
  destruct (Z.le_gt_cases fin start) as [Hle|Hgt].
  { rewrite for_range_nil by lia. split_and!; [done | apply zrep_ok, byte0 |]. intros r Hr.
    destruct (rel_parts r Hr) as [H1 H2]. unfold bit_at. rewrite aget_rep by done. rewrite bit_set_testbit, Z.bits_0 by lia. lia. }
  match goal with |- zlen (for_range ?lo ?hi ?f ?d) = _ /\ _ => 
    assert (H : zlen (for_range lo hi f d) = CAPYFS_BLOCK_SIZE /\ bytes_ok (for_range lo hi f d) /\
      forall r, 0 <= r < bits_per_block -> bit_at (for_range lo hi f d) r = (start + r <? fin)) end.
  { apply (for_range_ind (fun k d => zlen d = CAPYFS_BLOCK_SIZE /\ bytes_ok d /\ forall r, 0 <= r < bits_per_block -> bit_at d r = (start + r <? k))); [lia | |].
    - split_and!; [done | apply zrep_ok, byte0 |]. intros r Hr. destruct (rel_parts r Hr) as [H1 H2]. unfold bit_at.
      rewrite aget_rep by done. rewrite bit_set_testbit, Z.bits_0 by lia. lia.
    - intros k d Hk (Hl & Hb & Hbit). cbv zeta. assert (Hrel : 0 <= k - start < bits_per_block) by (change bits_per_block with 32768; lia).
      destruct (rel_parts _ Hrel) as [H1 H2].
      assert (E : u8 (Z.shiftl 1 ((k - start) `mod` 8)) = Z.shiftl 1 ((k - start) `mod` 8)).
      { apply u8_small. rewrite Z.shiftl_1_l. split; [apply Z.pow_nonneg; lia | apply Z.pow_lt_mono_r; lia]. }
      rewrite E. change (aset d ?i (Z.lor d.[?i] (Z.shiftl 1 ?m))) with (mark_bit d i m). split_and!.
      + unfold mark_bit. by rewrite zlen_aset.
      + by apply mark_bit_bytes.
      + intros r Hr. rewrite mark_bit_at, Hbit by done. lia. }
  destruct H as (H1 & H2 & H3). split_and!; [done | done |]. intros r Hr. rewrite H3 by done. change bits_per_block with 32768 in Hr.
  unfold fin. lia.
Qed.

(** ** What the formatter writes *)
Section format.
Context {S : Type} `{!Buffers S} (dev count : Z) `{!BufferSpec (S := S) dev count} `{!BufferRaw (S := S) dev count}.
Implicit Types (s : fsys S) (V : Z -> list Z) (n : Z).

(** No pins, nothing of the device in the cache, and the contents. *)
Definition raw V s : Prop := binv [] None (bufs s) /\ bfresh (bufs s) /\ forall m, bview (bufs s) m = V m.

Lemma raw_ext V V' s : (forall m, V m = V' m) -> raw V s -> raw V' s.
Proof. intros E (? & ? & H). split_and!; try done. intros m. by rewrite H. Qed.

Lemma wp_dev_write V s n d (Q : Z -> fsys S -> Prop) : raw V s -> 0 <= n < count -> zlen d = CAPYFS_BLOCK_SIZE ->
  (forall s', raw (setv V n d) s' -> mem s' = mem s -> Q 0 s') -> wp (block_device_write dev n d) s Q.
Proof.
  intros (Hb & Hf & Hv) Hn Hl HQ. pose proof (dev_write_ok (bufs s) n d Hb Hf Hn Hl) as H.
  unfold wp, block_device_write, on_bufs. destruct (dev_write dev n d (bufs s)) as [rc b']. destruct H as (-> & Hb' & Hf' & Hv').
  apply HQ; [|done]. split_and!; try done. intros m. cbn [bufs]. rewrite Hv'. unfold setv. by rewrite Hv.
Qed.

(** Blocks [lo, hi) replaced. *)
Definition fill (lo hi : Z) (f : Z -> list Z) V : Z -> list Z := fun n => if (lo <=? n) && (n <? hi) then f n else V n.

Lemma wp_fill V s lo hi (g : Z -> Z) (h f : Z -> list Z) err (Q : option Z -> fsys S -> Prop) : raw V s -> lo <= hi ->
  (forall k, lo <= k < hi -> 0 <= g k < count /\ g k = g lo + (k - lo) /\ zlen (h k) = CAPYFS_BLOCK_SIZE /\ f (g k) = h k) ->
  (forall s', raw (fill (g lo) (g lo + (hi - lo)) f V) s' -> mem s' = mem s -> Q None s') ->
  wp (find_range lo hi (fun i => bind (block_device_write dev (g i) (h i)) (fun rc => ret (if negb (rc =? 0) then Some err else None)))) s Q.
Proof.
  intros Hr Hle Hg HQ. 
  eapply (wp_find _ _ _ _ (fun k s' => raw (fill (g lo) (g lo + (k - lo)) f V) s' /\ mem s' = mem s)); [done | | |].
  - split; [|done]. eapply raw_ext; [|exact Hr]. intros m. unfold fill. by replace ((g lo <=? m) && (m <? g lo + (lo - lo))) with false by lia.
  - intros k s1 Hk (H1 & Hm1). destruct (Hg k Hk) as (Hgr & Hge & Hfl & Hf). apply wp_bind.
    eapply wp_dev_write; [exact H1 | done | done |]. intros s2 H2 Hm2. apply wp_ret. cbn [negb Z.eqb]. split; [|congruence].
    eapply raw_ext; [|exact H2]. intros m. unfold setv, fill. destruct (Z.eqb_spec m (g k)) as [->|Hne].
    + by replace ((g lo <=? g k) && (g k <? g lo + (k + 1 - lo))) with true by lia.
    + by replace ((g lo <=? m) && (m <? g lo + (k + 1 - lo))) with ((g lo <=? m) && (m <? g lo + (k - lo))) by lia.
  - intros s1 (H1 & Hm1). by apply HQ.
Qed.

Lemma wp_invalidate V s (Q : unit -> fsys S -> Prop) : raw V s -> (forall s', raw V s' -> mem s' = mem s -> Q tt s') ->
  wp (buffer_cache_invalidate dev) s Q.
Proof.
  intros (Hb & Hf & Hv) HQ. destruct (b_invalidate_ok (bufs s) Hb) as [Hb' Hf']. unfold wp, buffer_cache_invalidate, on_bufs.
  apply HQ; [|done]. split_and!; [done | done |]. intros m. cbn [bufs]. rewrite b_invalidate_fresh by done. apply Hv.
Qed.

(** The disk a format leaves: a used root directory and nothing else; data blocks
    keep what they had. *)
Definition empty_disk (l : capy_super) V : adisk :=
  mkAdisk (fun i => if i =? 0 then root_disk else zero_disk) (fun b => b <? data_start l) (fun i => i =? 0) V.

Definition formatted (l : capy_super) V : Z -> list Z :=
  fun n => if n =? 0 then format_super l else
    if n =? inode_start l then splice (zrep CAPYFS_BLOCK_SIZE 0) 0 (inode_bytes root_disk) else
    if n =? imap_start l then aset (zrep CAPYFS_BLOCK_SIZE 0) 0 1 else
    if (bmap_start l <=? n) && (n <? imap_start l) then reserved_bits (data_start l) (n - bmap_start l) else
    if (bmap_start l <=? n) && (n <? data_start l) then zrep CAPYFS_BLOCK_SIZE 0 else V n.

Lemma formatted_shows mnt V : layout_ok (super mnt) count -> bmap_start (super mnt) = 1 ->
  imap_start (super mnt) < inode_start (super mnt) < data_start (super mnt) ->
  (imap_start (super mnt) - bmap_start (super mnt)) * bits_per_block < 2 ^ 32 ->
  (forall n, 0 <= n < count -> bytes_ok (V n)) ->
  shows mnt count (formatted (super mnt) V) (empty_disk (super mnt) V).
Proof.
  intros Hlay Hb1 Hord Hmaps HV. set (l := super mnt) in *. pose proof (regions mnt count Hlay) as Hreg. fold l in Hreg.
  assert (Hmap : forall k, 0 <= k < imap_start l - bmap_start l -> zlen (reserved_bits (data_start l) k) = CAPYFS_BLOCK_SIZE /\
    bytes_ok (reserved_bits (data_start l) k) /\
    forall r, 0 <= r < bits_per_block -> bit_at (reserved_bits (data_start l) k) r = (k * bits_per_block + r <? data_start l)).
  { intros k Hk. apply reserved_bits_spec; [lia | | lia]. change bits_per_block with 32768 in *. nia. }
  assert (Hz : bytes_ok (zrep CAPYFS_BLOCK_SIZE 0)) by apply zrep_ok, byte0.
  pose proof (zlen_inode_bytes root_disk root_disk_ok) as Hrl. constructor.
  - intros n Hn. unfold formatted. repeat (case_match); bools; try done; try (by apply HV).
    + unfold format_super, store_u32_le_volatile. by repeat apply store_bytes.
    + apply Forall_splice; [done | apply inode_bytes_bytes].
    + apply aset_byte; [done|]. unfold byte_ok. lia.
    + apply Hmap. lia.
  - intros ino Hi. pose proof (inode_block_range mnt count Hlay ino Hi) as Hb. fold l in Hb. pose proof (inode_parts ino ltac:(lia)) as (Hp1 & Hp2 & Hp3).
    unfold inode_at. fold l. cbn [empty_disk a_inode]. unfold formatted. replace (inode_start l + ino / per_block =? 0) with false by lia.
    destruct (Z.eqb_spec (inode_start l + ino / per_block) (inode_start l)) as [E|E].
    + assert (Hm : ino `mod` per_block = ino).
      { rewrite (Z.div_mod ino per_block) at 2 by done. lia. }
      rewrite Hm in *. destruct (Z.eqb_spec ino 0) as [->|Hne].
      * pose proof (sub_splice_same (zrep CAPYFS_BLOCK_SIZE 0) 0 (inode_bytes root_disk)) as Es. rewrite Hrl in Es.
        change (0 * INODE_SIZE) with 0. rewrite Es; [|done | done]. apply inode_bytes_inv, root_disk_ok.
      * rewrite sub_splice_other; [by apply zero_inode | done | by rewrite Hrl | lia | done | by rewrite zlen_rep |].
        right. rewrite Hrl. unfold INODE_SIZE in *. lia.
    + replace (inode_start l + ino / per_block =? imap_start l) with false by lia.
      replace ((bmap_start l <=? inode_start l + ino / per_block) && (inode_start l + ino / per_block <? imap_start l)) with false by lia.
      replace ((bmap_start l <=? inode_start l + ino / per_block) && (inode_start l + ino / per_block <? data_start l)) with true by lia.
      rewrite zero_inode by done. destruct (Z.eqb_spec ino 0) as [->|]; [|done]. change (0 / per_block) with 0 in E. lia.
  - intros b Hb. pose proof (map_block_range mnt count Hlay b Hb) as Hr. fold l in Hr. pose proof (bits_parts b ltac:(lia)) as (Hp1 & Hp2).
    unfold used_at. fold l. cbn [empty_disk a_used]. unfold formatted. 
    replace (bmap_start l + b / bits_per_block =? 0) with false by lia.
    replace (bmap_start l + b / bits_per_block =? inode_start l) with false by lia.
    replace (bmap_start l + b / bits_per_block =? imap_start l) with false by lia.
    replace ((bmap_start l <=? bmap_start l + b / bits_per_block) && (bmap_start l + b / bits_per_block <? imap_start l)) with true by lia.
    destruct (Hmap (bmap_start l + b / bits_per_block - bmap_start l)) as (_ & _ & Hbit); [lia|]. rewrite Hbit by done.
    pose proof (Z.div_mod b bits_per_block ltac:(done)). f_equal. lia.
  - intros i Hi. pose proof (imap_block_range mnt count Hlay i Hi) as Hr. fold l in Hr. pose proof (bits_parts i ltac:(lia)) as (Hp1 & Hp2).
    unfold iused_at. fold l. cbn [empty_disk a_iused]. unfold formatted.
    replace (imap_start l + i / bits_per_block =? 0) with false by lia.
    replace (imap_start l + i / bits_per_block =? inode_start l) with false by lia.
    destruct (rel_parts _ Hp2) as [Hq1 Hq2].
    assert (Hzb : bit_at (zrep CAPYFS_BLOCK_SIZE 0) (i `mod` bits_per_block) = false).
    { unfold bit_at. rewrite aget_rep by done. by rewrite bit_set_testbit, Z.bits_0 by lia. }
    pose proof (Z.div_mod i bits_per_block ltac:(done)) as Ei.
    destruct (Z.eqb_spec (imap_start l + i / bits_per_block) (imap_start l)) as [E|E].
    + pose proof (mark_bit_at (zrep CAPYFS_BLOCK_SIZE 0) 0 (i `mod` bits_per_block) eq_refl ltac:(done) Hp2) as Hm.
      change (mark_bit (zrep CAPYFS_BLOCK_SIZE 0) (0 / 8) (0 `mod` 8)) with (aset (zrep CAPYFS_BLOCK_SIZE 0) 0 1) in Hm.
      rewrite Hm, Hzb, orb_false_r. f_equal. lia.
    + replace ((bmap_start l <=? imap_start l + i / bits_per_block) && (imap_start l + i / bits_per_block <? imap_start l)) with false by lia.
      replace ((bmap_start l <=? imap_start l + i / bits_per_block) && (imap_start l + i / bits_per_block <? data_start l)) with true by lia.
      rewrite Hzb. symmetry. apply Z.eqb_neq. intros ->. change (0 / bits_per_block) with 0 in E. lia.
  - intros b [Hb2 Hb3]. fold l in Hb2, Hb3. cbn [empty_disk a_data]. unfold formatted.
    replace (b =? 0) with false by lia. replace (b =? inode_start l) with false by lia. replace (b =? imap_start l) with false by lia.
    replace ((bmap_start l <=? b) && (b <? imap_start l)) with false by lia.
    by replace ((bmap_start l <=? b) && (b <? data_start l)) with false by lia.
Qed.

(** An empty disk is well formed. *)
Lemma empty_disk_ok mnt V : layout_ok (super mnt) count -> (forall n, 0 <= n < count -> zlen (V n) = CAPYFS_BLOCK_SIZE /\ bytes_ok (V n)) ->
  fs_ok mnt (empty_disk (super mnt) V) /\ forall i nm c, ~ lists mnt (empty_disk (super mnt) V) 0 i nm c.
Proof.
  intros Hlay HV. set (a := empty_disk (super mnt) V). pose proof (regions mnt count Hlay) as Hreg.
  assert (Hin : forall j, a_inode a j = root_disk \/ a_inode a j = zero_disk) by (intros j; cbn; destruct (j =? 0); auto).
  assert (Hno : forall d, d = root_disk \/ d = zero_disk -> forall k, slot_in a d k = 0).
  { intros d Hd k. apply no_blocks_slot. destruct Hd as [-> | ->]; [|apply zero_disk_ok]. apply zero_disk_ok. }
  assert (Hs : forall j k, slot a j k = 0) by (intros j k; by apply Hno).
  assert (Hd0 : forall j, dcount (a_inode a j) = 0) by (intros j; by destruct (Hin j) as [-> | ->]).
  assert (Hl : forall j i nm c, ~ lists mnt a j i nm c) by (intros j i nm c (_ & _ & Hi & _); rewrite Hd0 in Hi; lia).
  split; [|by apply Hl]. constructor; [constructor | | | | | |].
  - intros j _. destruct (Hin j) as [-> | ->]; [apply root_disk_ok | apply zero_disk_ok].
  - intros j k _ _. by rewrite Hs.
  - intros i j k k' _ _ _ _. by rewrite Hs.
  - intros b [Hb1 Hb2]. apply HV. lia.
  - done.
  - done.
  - intros j _ _. by rewrite Hd0.
  - intros j i nm c H. by destruct (Hl _ _ _ _ H).
  - intros j i nm c H. by destruct (Hl _ _ _ _ H).
  - intros j i nm c j' i' nm' c' H. by destruct (Hl _ _ _ _ H).
Qed.

(** The counts the formatter can take. *)
Record format_ok (inodes blocks : Z) : Prop := {
  fm_inodes : 0 < inodes /\ inodes + bits_per_block < 2 ^ 32;
  fm_blocks : 0 < blocks /\ blocks + bits_per_block < 2 ^ 32;
  fm_fits : table_fits inodes;
  fm_data : data_start (format_layout inodes blocks) < blocks }.

Lemma format_layout_parts inodes blocks : format_ok inodes blocks -> let l := format_layout inodes blocks in
  bmap_start l = 1 /\ 1 < imap_start l < inode_start l /\ inode_start l < data_start l /\ data_start l < blocks /\ blocks < 2 ^ 32 /\
  (imap_start l - 1) * bits_per_block < 2 ^ 32 /\ block_count l = blocks /\ inode_count l = inodes.
Proof.
  intros [[Hi Hi32] [Hb Hb32] _ Hd]. cbv zeta. unfold format_layout in *. cbn [bmap_start imap_start inode_start data_start block_count inode_count] in *.
  change bits_per_block with 32768 in *. unfold CAPYFS_BLOCK_SIZE, INODE_SIZE in *.
  rewrite (u32_small (blocks + 32768 - 1)), (u32_small (inodes + 32768 - 1)), (u64_small (inodes * 72 + 4096 - 1)) in * by lia.
  set (bb := (blocks + 32768 - 1) / 32768) in *. set (ib := (inodes + 32768 - 1) / 32768) in *. set (tb := (inodes * 72 + 4096 - 1) / 4096) in *.
  assert (Hbb : 0 < bb < 2 ^ 20) by (unfold bb; split; [apply Z.div_str_pos; lia | apply Z.div_lt_upper_bound; lia]).
  assert (Hib : 0 < ib < 2 ^ 20) by (unfold ib; split; [apply Z.div_str_pos; lia | apply Z.div_lt_upper_bound; lia]).
  assert (Htb : 0 < tb < 2 ^ 30) by (unfold tb; split; [apply Z.div_str_pos; lia | apply Z.div_lt_upper_bound; lia]).
  rewrite (u32_small (1 + bb)) in * by lia. rewrite (u32_small (1 + bb + ib)) in * by lia. rewrite (u32_small tb) in * by lia.
  rewrite (u32_small (1 + bb + ib + tb)) in * by lia.
  assert (bb * 32768 < 2 ^ 32) by (unfold bb; pose proof (Z.mul_div_le (blocks + 32768 - 1) 32768); lia). split_and!; try done; lia.
Qed.

Lemma wp_format s inodes blocks : binv [] None (bufs s) -> format_ok inodes blocks -> blocks <= count < 2 ^ 32 ->
  let V := bview (b_invalidate dev (bufs s)) in
  wp (capyfs_format dev CAPYFS_BLOCK_SIZE count inodes blocks) s (fun rc s' =>
    rc = 0 /\ mem s' = mem s /\ raw (formatted (format_layout inodes blocks) V) s').
Proof.
  intros Hb Hok Hc V. destruct (format_layout_parts inodes blocks Hok) as (Hbm & Him & Hin & Hds & Hb32 & Hmaps & Hbc & Hic).
  destruct Hok as [[Hi Hi32] [Hbl Hbl32] Hfit Hd]. unfold capyfs_format. rewrite Z.eqb_refl. cbn [negb]. cbv zeta.
  replace ((blocks =? 0) || (count <? blocks)) with false by lia. replace (inodes =? 0) with false by lia.
  set (l := format_layout inodes blocks) in *. replace (blocks <=? data_start l) with false by lia.
  apply wp_bind. unfold wp at 1, buffer_cache_invalidate, on_bufs. destruct (b_invalidate_ok (bufs s) Hb) as [Hb1 Hf1].
  set (s1 := mkFsys (b_invalidate dev (bufs s)) (g_next_fit_hint s) (mem s)). assert (H1 : raw V s1) by done.
  apply wp_bind. eapply wp_dev_write; [exact H1 | lia | |]. { unfold format_super, store_u32_le_volatile. by rewrite !zlen_store. }
  intros s2 H2 Hm2. cbn [negb Z.eqb].
  apply wp_bind. eapply (wp_fill _ _ _ _ (fun k => k) (fun _ => zrep CAPYFS_BLOCK_SIZE 0) (fun _ => zrep CAPYFS_BLOCK_SIZE 0)); [exact H2 | lia | |].
  { intros k Hk. split_and!; try done; lia. }
  intros s3 H3 Hm3. cbv beta iota.
  apply wp_bind. eapply (wp_fill _ _ _ _ (fun k => u32 (bmap_start l + k)) (fun k => reserved_bits (data_start l) k) (fun n => reserved_bits (data_start l) (n - bmap_start l)));
    [exact H3 | lia | |].
  { intros k Hk. rewrite !u32_small by lia. rewrite !Z.add_0_r, !Z.sub_0_r.
    destruct (reserved_bits_spec (data_start l) k) as [Hlen _]; [lia | change bits_per_block with 32768 in *; nia | lia |].
    split_and!; [lia | lia | done | done | f_equal; lia]. }
  rewrite u32_small by lia. intros s4 H4 Hm4. cbv beta iota.
  apply wp_bind. eapply wp_dev_write; [exact H4 | lia | done |]. intros s5 H5 Hm5. cbn [negb Z.eqb].
  apply wp_bind. eapply wp_dev_write; [exact H5 | lia | |].
  { rewrite zlen_splice; rewrite ?(zlen_inode_bytes _ root_disk_ok); done. }
  intros s6 H6 Hm6. cbn [negb Z.eqb].
  apply wp_bind. eapply wp_invalidate; [exact H6 |]. intros s7 H7 Hm7. apply wp_ret. split_and!; [done | unfold s1 in *; cbn in *; congruence |].
  eapply raw_ext; [|exact H7]. intros m. unfold setv, fill, formatted. rewrite Hbm.
  replace ((1 + 0 <=? m) && (m <? 1 + 0 + (imap_start l - 1 - 0))) with ((1 <=? m) && (m <? imap_start l)) by lia.
  replace (m <? 1 + (data_start l - 1)) with (m <? data_start l) by lia.
  destruct (Z.eqb_spec m 0) as [->|]; [|done]. replace (0 =? inode_start l) with false by lia. by replace (0 =? imap_start l) with false by lia.
Qed.

(** ** Mounting what was formatted *)
Lemma layout_words inodes blocks : format_ok inodes blocks ->
  super_of_bytes (format_super (format_layout inodes blocks)) = format_layout inodes blocks.
Proof.
  intros Hok. destruct (format_layout_parts inodes blocks Hok) as (H1 & H2 & H3 & H4 & H5 & _ & H6 & H7).
  destruct Hok as [[Hi Hi32] _ _ _]. apply super_round. change bits_per_block with 32768 in *.
  repeat apply Forall_cons_2; [.. | by apply Forall_nil_2]; cbn [magic version block_size format_layout]; try done; lia.
Qed.

Lemma raw_dsk inodes blocks addr V s : format_ok inodes blocks -> blocks <= count < 2 ^ 32 ->
  (forall n, 0 <= n < count -> bytes_ok (V n)) -> raw (formatted (format_layout inodes blocks) V) s ->
  let mnt := mkMount addr dev (format_layout inodes blocks) in
  layout_ok (super mnt) count /\ dsk (S := S) mnt count [] None (empty_disk (super mnt) V) s.
Proof.
  intros Hok Hc HV (Hb & _ & Hv) mnt. destruct (format_layout_parts inodes blocks Hok) as (Hbm & Him & Hin & Hds & Hb32 & Hmaps & Hbc & Hic).
  assert (Hlay : layout_ok (super mnt) count).
  { destruct Hok as [[Hi Hi32] [Hbl Hbl32] Hfit Hd]. by apply format_layout_ok. }
  split; [done|]. split; [done|]. exists (formatted (super mnt) V). split; [by split|].
  apply formatted_shows; try done. cbn [mnt super]. lia.
Qed.

Definition root_inode (mnt : capyfs_mount) : inode := mkInode 0 VFS_MODE_DIR 0 0 0 493 (Some mnt).

Lemma wp_mount inodes blocks addr V s hook : format_ok inodes blocks -> blocks <= count < 2 ^ 32 ->
  (forall n, 0 <= n < count -> bytes_ok (V n)) -> raw (formatted (format_layout inodes blocks) V) s -> mem s = [] ->
  let mnt := mkMount addr dev (format_layout inodes blocks) in
  let a := empty_disk (super mnt) V in
  (forall s, dsk (S := S) mnt count [] None a s -> mem s = [] ->
     wp (hook (data_start (super mnt)) (super_bytes (super mnt))) s (fun _ s' => dsk (S := S) mnt count [] None a s' /\ mem s' = [])) ->
  wp (mount_capyfs dev CAPYFS_BLOCK_SIZE addr hook) s (fun r s' =>
    r = (0, Some (mnt, root_inode mnt)) /\ dsk (S := S) mnt count [] None a s' /\ mem s' = []).
Proof.
  intros Hok Hc HV Hraw Hm mnt a Hhook. destruct (raw_dsk inodes blocks addr V s Hok Hc HV Hraw) as [Hlay Hd].
  destruct Hraw as (Hb & _ & Hv). pose proof (regions mnt count Hlay) as Hreg.
  destruct (format_layout_parts inodes blocks Hok) as (Hbm & Him & Hin & Hds & Hb32 & Hmaps & Hbc & Hic).
  unfold mount_capyfs. rewrite Z.eqb_refl. cbn [negb]. cbv zeta.
  assert (Hst : st mnt count [] None (formatted (super mnt) V) s) by (by split).
  apply wp_bind. eapply (wp_get mnt count); [exact Hst | lia | unfold MAX_PINS; simpl; lia |]. intros i s1 H1 Hm1. cbv beta iota.
  apply wp_bind. eapply (wp_data mnt count); [exact H1 | left |].
  change (formatted (super mnt) V 0) with (format_super (format_layout inodes blocks)). rewrite layout_words by done.
  change (negb (magic (format_layout inodes blocks) =? CAPYFS_MAGIC) || negb (block_size (format_layout inodes blocks) =? CAPYFS_BLOCK_SIZE)) with false.
  cbv iota. apply wp_bind. unfold wp at 1, kalloc. rewrite Hm1, Hm. cbn [negb].
  apply wp_bind. eapply (wp_release mnt count); [exact H1 | done |]. intros s2 H2 Hm2.
  assert (Hd2 : dsk (S := S) mnt count [] None a s2).
  { destruct Hd as (HY & V' & [_ HV'] & Hsh). split; [done|]. exists V'. split; [|done]. destruct H2 as [Hb2 Hv2].
    split; [done|]. intros m. rewrite Hv2. rewrite <- HV'. symmetry. apply Hv. }
  apply wp_bind. eapply (wp_read_inode mnt count Hlay); [exact Hd2 | unfold MAX_PINS; simpl; lia | change (0 <= 0 < inodes); destruct Hok as [[? ?] _ _ _]; lia |].
  intros s3 H3 Hm3. cbv beta iota. change (a_inode a 0) with root_disk.
  apply wp_bind. unfold capyfs_create_vfs_inode. apply wp_bind. unfold wp at 1, kalloc. rewrite Hm3, Hm2, Hm1, Hm. cbn [negb].
  apply wp_bind. unfold wp at 1, kalloc. rewrite Hm3, Hm2, Hm1, Hm. cbn [negb]. apply wp_ret. cbv beta iota.
  apply wp_bind. unfold wp at 1, kalloc. rewrite Hm3, Hm2, Hm1, Hm. cbn [negb].
  apply wp_bind. eapply wp_mono; [apply Hhook; [exact H3 | congruence]|]. intros _ s4 [H4 Hm4]. apply wp_ret. done.
Qed.
End format.
