(* ===== verification/CapyFsSystem.v ===== *)
(** * CAPYFS as a whole

    The operations of a mounted file system as steps of a machine, and the theorems:
    the tree stays well formed from the format on, reads return what writes stored,
    names are found when created and gone when removed, and where the code does less
    than that. *)
From S2P Require Import Prelude BlockDevice Storage BufferCache BufferCoherence Buffers CapyFs CapyFsDisk CapyFsFile CapyFsDir CapyFsTree CapyFsMove CapyFsFormat.
Local Open Scope capy_scope.

#[local] Opaque le_bytes.

Section machine.
Context {S : Type} `{!Buffers S} (mnt : capyfs_mount).
Implicit Types (s : fsys S) (nd : inode) (name : list Z).

(** The inodes a walk from the root reaches now. *)
Inductive opened s : inode -> Prop :=
| opened_root nd : i_ino nd = 0 -> private_data nd = Some mnt -> is_dir_inode nd = true -> opened s nd
| opened_child nd name child nd' s' : opened s nd -> name_ok name -> capyfs_lookup nd name s = ((0, Some child, nd'), s') -> opened s child.

(** A call of the file system interface on such an inode.  Inside one directory a
    rename is made only to a name that is not found, as the virtual file system sees
    to. *)
Inductive fs_call s : fsys S -> Prop :=
| call_lookup nd name : opened s nd -> name_ok name -> fs_call s (capyfs_lookup nd name s).2
| call_create nd name mode meta : opened s nd -> name_ok name -> 0 <= mode < 2 ^ 16 -> meta_ok meta ->
    fs_call s (capyfs_create nd name mode meta s).2
| call_remove nd name want_dir : opened s nd -> name_ok name -> fs_call s (capyfs_remove nd name want_dir s).2
| call_read f nd dst size : opened s nd -> f_inode f = Some nd -> 0 <= f_position f < 2 ^ 32 -> 0 <= size <= zlen dst ->
    fs_call s (capyfs_read f (Some dst) size s).2
| call_write f nd src size : opened s nd -> f_inode f = Some nd -> 0 <= f_position f < 2 ^ 32 -> 0 <= size <= zlen src -> bytes_ok src ->
    fs_call s (capyfs_write f (Some src) size s).2
| call_rename sd sname dd dname : opened s sd -> opened s dd -> name_ok sname -> name_ok dname ->
    (i_ino sd = i_ino dd -> sname <> dname -> (capyfs_lookup dd dname s).1.1.1 <> 0) -> fs_call s (capyfs_rename_inode sd sname dd dname s).2
| call_iterate {C} nd (cb : list Z -> Z -> C -> Z * C) ctx : opened s nd -> fs_call s (capyfs_iterate nd cb ctx s).2
| call_set_metadata nd m : opened s nd -> meta_ok (Some m) -> fs_call s (capyfs_set_metadata nd m s).2.
End machine.

Section system.
Context {S : Type} `{!Buffers S} (mnt : capyfs_mount) (count : Z) `{!BufferSpec (S := S) (m_dev mnt) count}.
Context (Hlay : layout_ok (super mnt) count).
Implicit Types (s : fsys S) (nd : inode) (name : list Z) (a : adisk).
Local Abbreviation dsk := (dsk mnt count).
Local Abbreviation fs_ok := (fs_ok mnt).

(** A mounted disk between two calls: no buffer is pinned. *)
Definition mounted a s : Prop := dsk [] None a s /\ fs_ok a /\ mem s = [].

Lemma pins_free : (Datatypes.S (length ([] : list (Z * Z))) < MAX_PINS)%nat.
Proof. unfold MAX_PINS. simpl. lia. Qed.

Lemma pins_free1 : (length ([] : list (Z * Z)) < MAX_PINS)%nat.
Proof. unfold MAX_PINS. simpl. lia. Qed.

Lemma opened_handle a s nd : mounted a s -> opened mnt s nd -> handle mnt a nd /\ a_iused a (i_ino nd) = true.
Proof.
  intros (Hd & Hok & Hm). induction 1 as [nd Hi Hp Hk | nd name child nd' s' Ho [IH1 IH2] Hn Hlk].
  - unfold handle. rewrite Hi, Hk. split; [|apply Hok]. split_and!; [apply (zero_range mnt count Hlay).. | done |]. symmetry. apply Hok.
  - assert (Hdir : is_dir (a_inode a (i_ino nd)) = true).
    { destruct IH1 as (_ & _ & E). destruct (is_dir_inode nd) eqn:Ed; [done|]. unfold capyfs_lookup in Hlk. by rewrite Ed in Hlk. }
    destruct (wp_elim _ _ _ (wp_lookup mnt count Hlay [] a s nd name Hd pins_free1 Hok IH1 Hdir Hn Hm)) as (r & s1 & E & _ & _ & H).
    rewrite E in Hlk. injection Hlk as -> _. destruct H as [(i & c & Hli & Er) | [_ Er]]; [|done]. injection Er as -> _.
    destruct (fo_child _ _ Hok _ _ _ _ Hli) as [Hc Hu]. split; [by split_and!; try apply Hc | done].
Qed.

Lemma not_dir_write f nd src size s : is_dir_inode nd = true -> f_inode f = Some nd -> (capyfs_write f (Some src) size s).2 = s.
Proof.
  intros Hd Hf. unfold capyfs_write. rewrite bool_decide_eq_false_2 by done. cbn [andb]. destruct (size =? 0); [done|].
  rewrite Hf. change (truthy (Z.land (i_mode nd) VFS_MODE_DIR)) with (is_dir_inode nd). by rewrite Hd.
Qed.

Lemma not_dir_read f nd dst size s : is_dir_inode nd = true -> f_inode f = Some nd -> (capyfs_read f (Some dst) size s).2 = s.
Proof.
  intros Hd Hf. unfold capyfs_read. destruct (size =? 0); [done|].
  rewrite Hf. change (truthy (Z.land (i_mode nd) VFS_MODE_DIR)) with (is_dir_inode nd). by rewrite Hd.
Qed.

Lemma not_found_free a s nd name : mounted a s -> opened mnt s nd -> is_dir_inode nd = true -> name_ok name ->
  (capyfs_lookup nd name s).1.1.1 <> 0 -> forall i c, ~ lists mnt a (i_ino nd) i name c.
Proof.
  intros Hmt Ho Hk Hn Hlk. destruct (opened_handle a s nd Hmt Ho) as [Hh _]. destruct Hmt as (Hdsk & Hok & Hm).
  assert (Ed : is_dir (a_inode a (i_ino nd)) = true) by (destruct Hh as (_ & _ & E); congruence).
  destruct (wp_elim _ _ _ (wp_lookup mnt count Hlay [] a s nd name Hdsk pins_free1 Hok Hh Ed Hn Hm)) as (r & s' & E & _ & _ & H).
  rewrite E in Hlk. by destruct H as [(i & c & _ & ->) | [H ->]].
Qed.

Lemma renamed_mounted a s sd sname dd dname : mounted a s -> opened mnt s sd -> opened mnt s dd -> is_dir_inode sd = true -> is_dir_inode dd = true ->
  name_ok sname -> name_ok dname -> (i_ino sd = i_ino dd -> sname <> dname -> forall i x, ~ lists mnt a (i_ino dd) i dname x) ->
  let '(r, s') := capyfs_rename_inode sd sname dd dname s in
  exists a', mounted a' s' /\ rename_result mnt sd dd sname dname a r a'.
Proof.
  intros Hmt Hos Hod Hks Hkd Hns Hnd Hfree. destruct (opened_handle a s sd Hmt Hos) as [Hhs _]. destruct (opened_handle a s dd Hmt Hod) as [Hhd _].
  destruct Hmt as (Hdsk & Hok & Hm).
  assert (Eds : is_dir (a_inode a (i_ino sd)) = true) by (destruct Hhs as (_ & _ & E); congruence).
  assert (Edd : is_dir (a_inode a (i_ino dd)) = true) by (destruct Hhd as (_ & _ & E); congruence).
  destruct (wp_elim _ _ _ (wp_rename mnt count Hlay [] a s sd dd sname dname Hdsk pins_free Hok Hhs Hhd Eds Edd Hns Hnd Hfree)) as (r & s' & -> & a' & H1 & H2 & H3).
  exists a'. split; [|done]. split_and!; [done | | congruence].
  destruct H3 as [(i & c & _ & _ & _ & _ & [(_ & _ & ->) | Hr]) | (_ & Hu & _)]; [done | apply Hr | apply Hu].
Qed.

Lemma fs_call_mounted a s s' : mounted a s -> fs_call mnt s s' -> exists a', mounted a' s'.
Proof.
  intros Hmt Hcall. pose proof Hmt as (Hd & Hok & Hm). destruct Hcall as [nd name Ho Hn | nd name mode meta Ho Hn Hmode Hmeta | nd name want Ho Hn |
    f nd dst size Ho Hf Hpos Hsz | f nd src size Ho Hf Hpos Hsz Hsb | sd sname nd dname Hos Ho Hns Hnd Hfree | C nd cb ctx Ho | nd m Ho Hmeta];
    destruct (opened_handle a s nd Hmt Ho) as [Hh Hu]; pose proof Hh as (Hr & Hp & Hk).
  - destruct (is_dir (a_inode a (i_ino nd))) eqn:Ed.
    + destruct (wp_elim _ _ _ (wp_lookup mnt count Hlay [] a s nd name Hd pins_free1 Hok Hh Ed Hn Hm)) as (r & s1 & -> & H1 & H2 & _). by exists a.
    + unfold capyfs_lookup. rewrite Hk. by exists a.
  - destruct (is_dir (a_inode a (i_ino nd))) eqn:Ed.
    + destruct (wp_elim _ _ _ (wp_create mnt count Hlay [] a s nd name mode meta Hd pins_free Hok Hh Ed Hu Hn Hmode Hmeta Hm)) as (r & s1 & -> & a' & H1 & H2 & H3).
      exists a'. split_and!; [done | | done]. by destruct H3 as [(c & _ & _ & [])|(_ & [] & _)].
    + unfold capyfs_create. rewrite Hk. by exists a.
  - destruct (is_dir (a_inode a (i_ino nd))) eqn:Ed.
    + destruct (wp_elim _ _ _ (wp_remove mnt count Hlay [] a s nd name want Hd pins_free Hok Hh Ed Hn)) as (r & s1 & -> & a' & H1 & H2 & H3).
      exists a'. split_and!; [done | | cbn [snd]; congruence]. by destruct H3 as [(i & c & _ & _ & _ & [])|(_ & -> & _)].
    + unfold capyfs_remove. rewrite Hk. by exists a.
  - destruct (is_dir_inode nd) eqn:Ed; [rewrite (not_dir_read _ _ _ _ _ Ed Hf); by exists a|].
    destruct (Z.eq_dec size 0) as [->|Hne]; [by exists a|].
    destruct (wp_elim _ _ _ (wp_read mnt count Hlay [] s a f nd dst size Hd pins_free1 (fo_wf _ _ Hok) Hf Hr Ed Hp Hpos ltac:(lia)))
      as (r & s1 & -> & _ & H1 & H2). exists a. split_and!; [done | done | cbn [snd]; congruence].
  - destruct (is_dir_inode nd) eqn:Ed; [rewrite (not_dir_write _ _ _ _ _ Ed Hf); by exists a|].
    destruct (Z.eq_dec size 0) as [->|Hne]; [exists a; unfold capyfs_write; by rewrite bool_decide_eq_false_2|].
    destruct (wp_elim _ _ _ (wp_write mnt count Hlay [] s a f nd src size Hd pins_free (fo_wf _ _ Hok) Hf Hr Ed Hp Hpos ltac:(lia) Hsb))
      as (r & s1 & -> & k & a' & _ & H1 & H2 & Hw & _). exists a'. split_and!; [done | | cbn [snd]; congruence].
    eapply (fs_ok_written mnt); [exact Hok | exact Hw | done | apply (zero_range mnt count Hlay) | congruence].
  - destruct (is_dir_inode sd) eqn:Es, (is_dir_inode nd) eqn:En; try (unfold capyfs_rename_inode; rewrite Es, En; by exists a).
    pose proof (renamed_mounted a s sd sname nd dname Hmt Hos Ho Es En Hns Hnd) as H.
    destruct (capyfs_rename_inode sd sname nd dname s) as [r s1]. destruct H as (a' & H & _); [|by exists a'].
    intros E Hne. apply (not_found_free a s nd dname Hmt Ho En Hnd), Hfree; done.
  - destruct (is_dir_inode nd) eqn:Ed; [|unfold capyfs_iterate; rewrite Ed; by exists a].
    destruct (wp_elim _ _ _ (wp_iterate mnt count Hlay [] a s nd cb ctx Hd pins_free1 Hok Hh ltac:(congruence))) as (r & s1 & -> & H1 & H2 & _).
    exists a. split_and!; [done | done | cbn [snd]; congruence].
  - destruct (wp_elim _ _ _ (wp_set_metadata mnt count Hlay [] a s nd m Hd pins_free1 Hok Hr Hp Hmeta)) as (r & s1 & -> & _ & H2 & H1 & H3).
    eexists. split_and!; [exact H1 | exact H3 | cbn [snd]; congruence].
Qed.

Lemma star_mounted a s s' : mounted a s -> star (fs_call mnt) s s' -> exists a', mounted a' s'.
Proof.
  intros H Hs. revert a H. induction Hs as [x | x y z Hxy _ IH]; intros a H; [by exists a|].
  destruct (fs_call_mounted a x y H Hxy) as [a' H']. by apply (IH a').
Qed.

(** An open file at a position. *)
Record open_file s (f : file) nd : Prop := {
  of_inode : f_inode f = Some nd;
  of_opened : opened mnt s nd;
  of_kind : is_dir_inode nd = false;
  of_pos : 0 <= f_position f < 2 ^ 32 }.

Lemma open_parts a s f nd : mounted a s -> open_file s f nd ->
  inode_range mnt (i_ino nd) /\ private_data nd = Some mnt /\ is_dir (a_inode a (i_ino nd)) = false.
Proof. intros H [Hf Ho Hk Hp]. destruct (opened_handle a s nd H Ho) as [(Hr & Hpr & E) _]. split_and!; try apply Hr; congruence. Qed.

(** C10. A write stores its bytes in the file and nothing else.  It returns how many
    went in: fewer than asked only at the largest file size or with no free block left.
    The size becomes the end of what was written when that is further, the other
    files and all metadata but the size stay, and the disk stays well formed.  (The
    device works and memory is granted, here and below.) *)
Theorem capyfs_write_correct a s f nd src size : mounted a s -> open_file s f nd -> 0 < size <= zlen src -> bytes_ok src ->
  let '((k, nd'), s') := capyfs_write f (Some src) size s in
  exists a', mounted a' s' /\ file_written mnt (i_ino nd) (f_position f) src k a a' /\
    0 <= k <= size /\ (k < size -> MAX_FILE <= f_position f + k \/ full mnt a') /\
    nd' = Some (set_i_size (d_size (a_inode a' (i_ino nd))) nd).
Proof.
  intros Hmt Hof Hsz Hsb. destruct (open_parts a s f nd Hmt Hof) as (Hr & Hp & Hd). destruct Hof as [Hf Ho Hk Hpos].
  destruct Hmt as (Hdsk & Hok & Hm).
  destruct (wp_elim _ _ _ (wp_write mnt count Hlay [] s a f nd src size Hdsk pins_free (fo_wf _ _ Hok) Hf Hr Hk Hp Hpos Hsz Hsb))
    as (r & s' & -> & k & a' & -> & H1 & H2 & Hw & Hk1 & _ & Hst).
  exists a'. split_and!; try done; try lia. split_and!; [done | | by rewrite H2].
  eapply (fs_ok_written mnt); [exact Hok | exact Hw | done | apply (zero_range mnt count Hlay) | done].
Qed.

(** C37. A read returns the bytes of the file from the position on, as many as asked
    for and no further than the end of the file, a hole reading as zeros; the rest of
    the buffer and the disk stay as they were. *)
Theorem capyfs_read_correct a s f nd dst size : mounted a s -> open_file s f nd -> 0 < size <= zlen dst ->
  let '((k, dst', nd'), s') := capyfs_read f (Some dst) size s in
  k = readable a (i_ino nd) (f_position f) size /\ dst' = splice dst 0 (file_bytes a (i_ino nd) (f_position f) k) /\
  nd' = Some (set_i_size (d_size (a_inode a (i_ino nd))) nd) /\ mounted a s'.
Proof.
  intros Hmt Hof Hsz. destruct (open_parts a s f nd Hmt Hof) as (Hr & Hp & Hd). destruct Hof as [Hf Ho Hk Hpos].
  destruct Hmt as (Hdsk & Hok & Hm).
  destruct (wp_elim _ _ _ (wp_read mnt count Hlay [] s a f nd dst size Hdsk pins_free1 (fo_wf _ _ Hok) Hf Hr Hk Hp Hpos Hsz))
    as (r & s' & -> & -> & H1 & H2).
  split_and!; try done. split_and!; [done | done | by rewrite H2].
Qed.

(** The bytes a write stored. *)
Lemma written_read a a' ino pos src k dst : file_written mnt ino pos src k a a' -> 0 <= pos -> 0 < k <= zlen src -> pos + k <= MAX_FILE -> k <= zlen dst ->
  readable a' ino pos k = k /\ sub_bytes (splice dst 0 (file_bytes a' ino pos (readable a' ino pos k))) 0 k = sub_bytes src 0 k.
Proof.
  intros Hw Hpos Hk Hmax Hdst. assert (Hsize : d_size (a_inode a' ino) = Z.max (d_size (a_inode a ino)) (pos + k)).
  { pose proof (fw_meta _ _ _ _ _ _ _ Hw) as E. unfold imeta in E. cbn [set_d_size d_size] in E. congruence. }
  assert (E : readable a' ino pos k = k) by (unfold readable; rewrite Hsize; lia). rewrite E. split; [done|].
  pose proof (zlen_file_bytes a' ino pos k ltac:(lia)) as Hz.
  rewrite <- Hz at 2. rewrite sub_splice_same by lia.
  apply (array_ext 0); [rewrite Hz, zlen_sub; lia|]. intros i Hi. rewrite Hz in Hi.
  rewrite file_bytes_get, aget_sub by lia. rewrite (fw_byte _ _ _ _ _ _ _ Hw) by lia.
  replace ((pos <=? pos + i) && (pos + i <? pos + k)) with true by lia. f_equal. lia.
Qed.

(** C16. What was written is read back: a read at the same position of as many bytes
    as the write returned gives these bytes. *)
Theorem capyfs_write_read a s f nd src size dst : mounted a s -> open_file s f nd -> 0 < size <= zlen src -> bytes_ok src ->
  size <= zlen dst ->
  let '((k, _), s1) := capyfs_write f (Some src) size s in
  let '((k', dst', _), _) := capyfs_read f (Some dst) k s1 in
  k' = k /\ sub_bytes dst' 0 k = sub_bytes src 0 k.
Proof.
  intros Hmt Hof Hsz Hsb Hdst. destruct (open_parts a s f nd Hmt Hof) as (Hr & Hp & Hd). destruct Hof as [Hf Ho Hk Hpos].
  destruct Hmt as (Hdsk & Hok & Hm).
  destruct (wp_elim _ _ _ (wp_write mnt count Hlay [] s a f nd src size Hdsk pins_free (fo_wf _ _ Hok) Hf Hr Hk Hp Hpos Hsz Hsb))
    as (r & s1 & -> & k & a' & -> & H1 & H2 & Hw & Hk1 & Hk2 & _).
  destruct (Z.eq_dec k 0) as [->|Hk0]; [by unfold capyfs_read|].
  destruct (wp_elim _ _ _ (wp_read mnt count Hlay [] s1 a' f nd dst k H1 pins_free1 (fw_wf _ _ _ _ _ _ _ Hw) Hf Hr Hk Hp Hpos ltac:(lia)))
    as (r' & s' & -> & -> & _). cbn [fst snd].
  apply (written_read a); [exact Hw | lia..].
Qed.

(** Lookup finds a name exactly when the directory lists it, and then returns the
    listed inode with its mode, size, owner and permissions. *)
Theorem capyfs_lookup_correct a s nd name : mounted a s -> opened mnt s nd -> is_dir_inode nd = true -> name_ok name ->
  let '((rc, child, nd'), s') := capyfs_lookup nd name s in
  mounted a s' /\ nd' = resized a nd /\
  ((rc = 0 /\ exists i c, lists mnt a (i_ino nd) i name c /\ child = Some (vnode mnt a c)) \/
   (rc = -1 /\ child = None /\ forall i c, ~ lists mnt a (i_ino nd) i name c)).
Proof.
  intros Hmt Ho Hk Hn. destruct (opened_handle a s nd Hmt Ho) as [Hh _]. destruct Hmt as (Hdsk & Hok & Hm).
  assert (Ed : is_dir (a_inode a (i_ino nd)) = true) by (destruct Hh as (_ & _ & E); congruence).
  destruct (wp_elim _ _ _ (wp_lookup mnt count Hlay [] a s nd name Hdsk pins_free1 Hok Hh Ed Hn Hm)) as (r & s' & -> & H1 & H2 & H3).
  destruct H3 as [(i & c & Hl & ->) | [Hl ->]]; (split; [by split_and!|]; split; [done|]).
  - left. split; [done|]. by exists i, c.
  - by right.
Qed.

(** Creation makes an unused inode with the mode asked for and no contents, and
    the directory lists it under the new name beside what it listed before; nothing
    else in use changes.  It fails only if the name is taken or the inodes, the blocks
    or the entries of the directory have run out, and then nothing in use changes. *)
Theorem capyfs_create_correct a s nd name mode meta : mounted a s -> opened mnt s nd -> is_dir_inode nd = true -> name_ok name ->
  0 <= mode < 2 ^ 16 -> meta_ok meta ->
  let '(r, s') := capyfs_create nd name mode meta s in
  exists a', mounted a' s' /\ create_result mnt nd name (new_disk_inode mode meta) a r a'.
Proof.
  intros Hmt Ho Hk Hn Hmode Hmeta. destruct (opened_handle a s nd Hmt Ho) as [Hh Hu]. destruct Hmt as (Hdsk & Hok & Hm).
  assert (Ed : is_dir (a_inode a (i_ino nd)) = true) by (destruct Hh as (_ & _ & E); congruence).
  destruct (wp_elim _ _ _ (wp_create mnt count Hlay [] a s nd name mode meta Hdsk pins_free Hok Hh Ed Hu Hn Hmode Hmeta Hm))
    as (r & s' & -> & a' & H1 & H2 & H3).
  exists a'. split; [|done]. split_and!; [done | | done]. by destruct H3 as [(c & _ & _ & [])|(_ & [] & _)].
Qed.

(** C21. Removal takes the name out of the directory, clears the inode and frees its
    inode number and every block it referred to, and nothing else.  Over a device that
    works it fails, and changes nothing, exactly when no inode of the kind asked for, a
    directory also empty, is listed under the name; a write that fails on the way leaves
    a part removed. *)
Theorem capyfs_remove_correct a s nd name want_dir : mounted a s -> opened mnt s nd -> is_dir_inode nd = true -> name_ok name ->
  let '(r, s') := capyfs_remove nd name want_dir s in
  exists a', mounted a' s' /\ remove_result mnt nd name want_dir a r a'.
Proof.
  intros Hmt Ho Hk Hn. destruct (opened_handle a s nd Hmt Ho) as [Hh _]. destruct Hmt as (Hdsk & Hok & Hm).
  assert (Ed : is_dir (a_inode a (i_ino nd)) = true) by (destruct Hh as (_ & _ & E); congruence).
  destruct (wp_elim _ _ _ (wp_remove mnt count Hlay [] a s nd name want_dir Hdsk pins_free Hok Hh Ed Hn)) as (r & s' & -> & a' & H1 & H2 & H3).
  exists a'. split; [|done]. split_and!; [done | | congruence]. by destruct H3 as [(i & c & _ & _ & _ & [])|(_ & -> & _)].
Qed.

(** A rename moves the entry: the inode listed under the old name is listed under
    the new name in the target directory and no longer under the old one, all other
    entries and all files stay.  It fails only if the old name is not listed, the new
    one is taken or there is no room for the entry, and then nothing in use changes. *)
Theorem capyfs_rename_correct a s sd sname dd dname : mounted a s -> opened mnt s sd -> opened mnt s dd ->
  is_dir_inode sd = true -> is_dir_inode dd = true -> name_ok sname -> name_ok dname ->
  (i_ino sd = i_ino dd -> sname <> dname -> (capyfs_lookup dd dname s).1.1.1 <> 0) ->
  let '(r, s') := capyfs_rename_inode sd sname dd dname s in
  exists a', mounted a' s' /\ rename_result mnt sd dd sname dname a r a'.
Proof.
  intros Hmt Hos Hod Hks Hkd Hns Hnd Hfree. apply renamed_mounted; try done.
  intros E Hne. apply (not_found_free a s dd dname Hmt Hod Hkd Hnd), Hfree; done.
Qed.

(** A listing shows the directory as it is: the callback is called with the name
    and the mode of every entry in order, up to the first call that returns other than
    0, and the disk stays as it was. *)
Theorem capyfs_iterate_correct {C} a s nd (cb : list Z -> Z -> C -> Z * C) ctx : mounted a s -> opened mnt s nd -> is_dir_inode nd = true ->
  let '(r, s') := capyfs_iterate nd cb ctx s in
  mounted a s' /\ r = (0, visit cb (shown_list a (i_ino nd)) ctx, resized a nd).
Proof.
  intros Hmt Ho Hk. destruct (opened_handle a s nd Hmt Ho) as [Hh _]. destruct Hmt as (Hdsk & Hok & Hm).
  assert (Ed : is_dir (a_inode a (i_ino nd)) = true) by (destruct Hh as (_ & _ & E); congruence).
  destruct (wp_elim _ _ _ (wp_iterate mnt count Hlay [] a s nd cb ctx Hdsk pins_free1 Hok Hh Ed)) as (r & s' & -> & H1 & H2 & H3).
  split; [|done]. split_and!; [done | done | congruence].
Qed.

(** A write at or past the largest file size stores nothing and returns 0, and all
    the same moves the end of the file to its position. *)
Theorem capyfs_write_past_end_grows a s f nd src size : mounted a s -> open_file s f nd -> 0 < size <= zlen src -> bytes_ok src ->
  MAX_FILE <= f_position f ->
  let '((k, _), s') := capyfs_write f (Some src) size s in
  k = 0 /\ exists a', mounted a' s' /\ d_size (a_inode a' (i_ino nd)) = Z.max (d_size (a_inode a (i_ino nd))) (f_position f) /\
    forall p, 0 <= p < MAX_FILE -> fbyte a' (i_ino nd) p = fbyte a (i_ino nd) p.
Proof.
  intros Hmt Hof Hsz Hsb Hmax. destruct (open_parts a s f nd Hmt Hof) as (Hr & Hp & Hd). destruct Hof as [Hf Ho Hk Hpos].
  destruct Hmt as (Hdsk & Hok & Hm).
  destruct (wp_elim _ _ _ (wp_write mnt count Hlay [] s a f nd src size Hdsk pins_free (fo_wf _ _ Hok) Hf Hr Hk Hp Hpos Hsz Hsb))
    as (r & s' & -> & k & a' & -> & H1 & H2 & Hw & Hk1 & Hk2 & Hst).
  assert (k = 0) as -> by lia. split; [done|]. exists a'. split_and!; [split_and!; [done | | congruence] | |].
  - eapply (fs_ok_written mnt); [exact Hok | exact Hw | done | apply (zero_range mnt count Hlay) | done].
  - pose proof (fw_meta _ _ _ _ _ _ _ Hw) as E. unfold imeta in E. cbn [set_d_size d_size] in E.
    rewrite Z.add_0_r in E. congruence.
  - intros p Hpr. rewrite (fw_byte _ _ _ _ _ _ _ Hw) by done. by replace ((f_position f <=? p) && (p <? f_position f + 0)) with false by lia.
Qed.
End system.

(** ** From the format on *)
Section start.
Context {S : Type} `{!Buffers S} (dev count : Z) `{!BufferSpec (S := S) dev count} `{!BufferRaw (S := S) dev count}.
Context (inodes blocks addr : Z) (Hfmt : format_ok inodes blocks) (Hcount : blocks <= count < 2 ^ 32).
Context (hook : Z -> list Z -> M (S := S) unit) (Hhook : forall start sb s, (hook start sb s).2 = s).
Implicit Types (s : fsys S).

(** The mount that the format leads to. *)
Definition the_mount : capyfs_mount := mkMount addr dev (format_layout inodes blocks).

(** Before the format: no pins, and the device holds bytes. *)
Definition startable s : Prop :=
  binv [] None (bufs s) /\ mem s = [] /\ forall n, 0 <= n < count -> bytes_ok (bview (b_invalidate dev (bufs s)) n).

Definition format_and_mount s : Z * (Z * option (capyfs_mount * inode)) * fsys S :=
  let '(rc, s) := capyfs_format dev CAPYFS_BLOCK_SIZE count inodes blocks s in
  let '(r, s) := mount_capyfs dev CAPYFS_BLOCK_SIZE addr hook s in (rc, r, s).

Lemma start_ok s : startable s ->
  let '(rc, r, s') := format_and_mount s in
  rc = 0 /\ r = (0, Some (the_mount, root_inode the_mount)) /\ layout_ok (super the_mount) count /\
  exists a, mounted (S := S) the_mount count a s' /\ (forall i nm c, ~ lists the_mount a 0 i nm c) /\ vnode the_mount a 0 = root_inode the_mount.
Proof.
  intros (Hb & Hm & Hbytes). unfold format_and_mount. set (V := bview (b_invalidate dev (bufs s))) in *.
  destruct (wp_elim _ _ _ (wp_format dev count s inodes blocks Hb Hfmt Hcount)) as (rc & s1 & -> & -> & Hm1 & Hraw). fold V in Hraw.
  destruct (raw_dsk dev count inodes blocks addr V s1 Hfmt Hcount Hbytes Hraw) as [Hlay Hd].
  assert (HV : forall n, 0 <= n < count -> zlen (V n) = CAPYFS_BLOCK_SIZE /\ bytes_ok (V n)).
  { intros n Hn. split; [|by apply Hbytes]. destruct (b_invalidate_ok (bufs s) Hb) as [Hb' _]. by apply (b_len [] None). }
  destruct (empty_disk_ok count the_mount V Hlay HV) as [Hok Hno].
  destruct (wp_elim _ _ _ (wp_mount dev count inodes blocks addr V s1 hook Hfmt Hcount Hbytes Hraw ltac:(congruence)
    ltac:(intros s2 H2 Hm2; unfold wp; destruct (hook _ _ s2) as [u s2'] eqn:E; pose proof (Hhook (data_start (super (mkMount addr dev (format_layout inodes blocks))))
      (super_bytes (super (mkMount addr dev (format_layout inodes blocks)))) s2) as Eh; rewrite E in Eh; cbn [snd] in Eh; by subst s2')))
    as (r & s2 & -> & -> & H2 & Hm2).
  split_and!; try done. by eexists.
Qed.

(** A formatted device mounts as an empty file system: both calls succeed, the
    root directory is there and lists nothing, and the disk is well formed. *)
Theorem capyfs_format_mounts s : startable s ->
  let '(rc, r, s') := format_and_mount s in
  rc = 0 /\ r = (0, Some (the_mount, root_inode the_mount)) /\
  exists a, mounted (S := S) the_mount count a s' /\ forall i nm c, ~ lists the_mount a 0 i nm c.
Proof. intros Hs. pose proof (start_ok s Hs) as H. destruct (format_and_mount s) as [[rc r] s']. destruct H as (-> & -> & _ & a & Ha & Hno & _). split_and!; try done. by exists a. Qed.

(** C6. From the format on the tree stays well formed.  After any sequence of lookups,
    creations, removals, listings, reads, writes, metadata changes and renames (inside a
    directory: to a name it does not have) on inodes reached from the root, over a device
    that works, with memory granted and a mount hook that leaves the disk alone, every block a file refers to is a data block marked as used and belongs
    to that place of that file alone, directories list inodes that are in use, no
    name twice and no inode twice, and no buffer is left pinned. *)
Theorem capyfs_tree_stays_ok s : startable s ->
  forall s', star (fs_call the_mount) (format_and_mount s).2 s' -> exists a, mounted (S := S) the_mount count a s'.
Proof.
  intros Hs s' Hstar. pose proof (start_ok s Hs) as H. destruct (format_and_mount s) as [[rc r] s1]. destruct H as (_ & _ & Hlay & a & Ha & _).
  by apply (star_mounted the_mount count Hlay a s1 s').
Qed.
End start.

(** ** Over the buffer cache

    The cache of [BufferCache] over any device that does not fail inside its range is
    what the theorems above ask for. *)
Lemma cache_startable {W} (devs : Z -> option (block_device W)) `{!DevEnv devs, !ReliableEnv devs} a d (Hd : devs a = Some d)
    (Hs : dev_block_size d = BUFFER_BLOCK_SIZE) w hint : env_inv w -> (forall n, 0 <= n < dev_block_count d -> bytes_ok (env_view w a n)) ->
  startable a (dev_block_count d) (BufferSpec0 := cache_spec devs a d Hd Hs) (mkFsys (buffer_cache_init cache_boot, w) hint []).
Proof.
  intros Hw Hb. destruct (init_inv devs None w eq_refl Hw) as [Hinv Hcore].
  assert (H0 : cache_inv devs a [] None (buffer_cache_init cache_boot, w)).
  { split_and!; [exact Hinv | | by apply Forall_nil_2]. intros j Hj. by destruct (core_fields _ _ (Hcore j Hj)) as (_ & _ & _ & _ & _ & E). }
  split_and!; [exact H0 | done |]. intros n Hn. cbn [bufs].
  set (c := (buffer_cache_init cache_boot, w)) in *. destruct (cache_invalidate devs a d Hd c H0) as [H1 Hf].
  change (bytes_ok (cache_view devs a (@b_invalidate _ (cache_buffers devs) a c) n)).
  rewrite (fresh_view devs a _ H1 Hf) by lia. by apply Hb.
Qed.

(** *** A device of forty blocks *)
Definition small_dev : block_device (list (list Z)) := mem_dev CAPYFS_BLOCK_SIZE 40.
Definition small_devs : Z -> option (block_device (list (list Z))) := one_dev 1 small_dev.
#[local] Instance small_disk : DiskSpec small_dev := mem_spec CAPYFS_BLOCK_SIZE eq_refl 40 ltac:(split; done).
#[local] Instance small_reliable_disk : ReliableDisk small_dev := mem_reliable CAPYFS_BLOCK_SIZE eq_refl 40 ltac:(split; done).
#[local] Instance small_env : DevEnv small_devs := one_dev_env 1 small_dev (TCEq_refl false).
#[local] Instance small_reliable : ReliableEnv small_devs := one_dev_reliable 1 small_dev (TCEq_refl false).
#[local] Instance small_buffers : Buffers (cache * list (list Z)) := cache_buffers small_devs.
#[local] Instance small_spec : BufferSpec (S := cache * list (list Z)) 1 40 := cache_spec small_devs 1 small_dev eq_refl eq_refl.
#[local] Instance small_raw : BufferRaw (S := cache * list (list Z)) 1 40 := cache_raw small_devs 1 small_dev eq_refl eq_refl.

Definition no_hook (start : Z) (sb : list Z) : M (S := cache * list (list Z)) unit := ret tt.
Definition small_mount : capyfs_mount := the_mount 1 16 40 7.
Definition root : inode := root_inode small_mount.

Definition booted : fsys (cache * list (list Z)) := mkFsys (buffer_cache_init cache_boot, replicate 40 (zrep CAPYFS_BLOCK_SIZE 0)) 0 [].
Local Notation fresh_fs := (format_and_mount 1 40 16 40 7 no_hook booted).2.

(** A file, and the object a lookup of its name gives. *)
Definition name_a : list Z := [97].
Definition name_b : list Z := [98].
Definition with_file : fsys (cache * list (list Z)) := (capyfs_create root name_a VFS_MODE_FILE None fresh_fs).2.
Definition file_a : inode := default root (capyfs_lookup root name_a with_file).1.1.2.
Definition at_pos (pos : Z) : file := mkFile (Some file_a) pos.

Lemma small_format_ok : format_ok 16 40.
Proof. split; vm_compute; try done; by split. Qed.

Lemma booted_startable : startable 1 40 booted.
Proof.
  apply (cache_startable small_devs 1 small_dev eq_refl eq_refl).
  - split; [done|]. apply Forall_replicate. done.
  - intros n Hn. change (bytes_ok (aget [] (replicate 40 (zrep CAPYFS_BLOCK_SIZE 0)) n)). apply Forall_aget; [|by apply Forall_nil_2].
    apply Forall_replicate, zrep_ok, byte0.
Qed.

Lemma fresh_root : layout_ok (super small_mount) 40 /\ exists a, mounted small_mount 40 a fresh_fs /\ vnode small_mount a 0 = root.
Proof.
  pose proof (start_ok 1 40 16 40 7 small_format_ok ltac:(lia) no_hook ltac:(done) booted booted_startable) as H.
  destruct (format_and_mount 1 40 16 40 7 no_hook booted) as [[rc r] s]. destruct H as (_ & _ & Hl & a & Ha & _ & Hv). split; [done|]. by exists a.
Qed.

Lemma fresh_mounted : layout_ok (super small_mount) 40 /\ exists a, mounted small_mount 40 a fresh_fs.
Proof. destruct fresh_root as [Hl (a & Ha & _)]. split; [done|]. by exists a. Qed.

Lemma name_a_ok : name_ok name_a.
Proof. split; [|done]. apply Forall_cons_2; [lia | by apply Forall_nil_2]. Qed.

Lemma name_b_ok : name_ok name_b.
Proof. split; [|done]. repeat constructor; unfold name_b; lia. Qed.

Lemma root_opened s : opened small_mount s root.
Proof. by apply opened_root. Qed.

Lemma file_mounted : exists a, mounted small_mount 40 a with_file.
Proof.
  destruct fresh_mounted as [Hl [a Ha]]. apply (fs_call_mounted small_mount 40 Hl a fresh_fs); [done|].
  apply call_create; [apply root_opened | apply name_a_ok | unfold VFS_MODE_FILE; lia | done].
Qed.

Lemma file_found : (capyfs_lookup root name_a with_file).1.1 = (0, Some file_a).
Proof. vm_compute. reflexivity. Qed.

Lemma file_open pos : 0 <= pos < 2 ^ 32 -> open_file small_mount with_file (at_pos pos) file_a.
Proof.
  intros Hpos. constructor; [done | | by vm_compute | done]. pose proof file_found as E.
  destruct (capyfs_lookup root name_a with_file) as [[p nd'] s'] eqn:El. cbn [fst] in E. subst p.
  eapply opened_child; [apply root_opened | apply name_a_ok | exact El].
Qed.

(** *** The theorems at this device *)
Lemma capyfs_write_correct_witness : exists a, mounted small_mount 40 a with_file /\
  let '((k, nd'), s') := capyfs_write (at_pos 4090) (Some (zrep 20 9)) 20 with_file in
  exists a', mounted small_mount 40 a' s' /\ file_written small_mount (i_ino file_a) 4090 (zrep 20 9) k a a' /\
    0 <= k <= 20 /\ (k < 20 -> MAX_FILE <= 4090 + k \/ full small_mount a') /\
    nd' = Some (set_i_size (d_size (a_inode a' (i_ino file_a))) file_a).
Proof.
  destruct fresh_mounted as [Hl _], file_mounted as [a Ha]. exists a. split; [exact Ha|].
  apply (capyfs_write_correct small_mount 40 Hl a with_file (at_pos 4090) file_a (zrep 20 9) 20 Ha);
    [apply file_open; lia | done | apply zrep_ok; done].
Defined.

Lemma capyfs_read_correct_witness : exists a, mounted small_mount 40 a with_file /\
  let '((k, dst', nd'), s') := capyfs_read (at_pos 5) (Some (zrep 8 1)) 8 with_file in
  k = readable a (i_ino file_a) 5 8 /\ dst' = splice (zrep 8 1) 0 (file_bytes a (i_ino file_a) 5 k) /\
  nd' = Some (set_i_size (d_size (a_inode a (i_ino file_a))) file_a) /\ mounted small_mount 40 a s'.
Proof.
  destruct fresh_mounted as [Hl _], file_mounted as [a Ha]. exists a. split; [exact Ha|].
  apply (capyfs_read_correct small_mount 40 Hl a with_file (at_pos 5) file_a (zrep 8 1) 8 Ha); [apply file_open; lia | done].
Defined.

Lemma capyfs_write_read_witness :
  let '((k, _), s1) := capyfs_write (at_pos 4090) (Some (zrep 20 9)) 20 with_file in
  let '((k', dst', _), _) := capyfs_read (at_pos 4090) (Some (zrep 20 0)) k s1 in
  k' = k /\ sub_bytes dst' 0 k = sub_bytes (zrep 20 9) 0 k.
Proof.
  destruct fresh_mounted as [Hl _], file_mounted as [a Ha].
  apply (capyfs_write_read small_mount 40 Hl a with_file (at_pos 4090) file_a (zrep 20 9) 20 (zrep 20 0) Ha);
    [apply file_open; lia | done | apply zrep_ok; done | done].
Defined.

Lemma capyfs_lookup_correct_witness : exists a, mounted small_mount 40 a with_file /\
  let '((rc, child, nd'), s') := capyfs_lookup root name_a with_file in
  mounted small_mount 40 a s' /\ nd' = resized a root /\
  ((rc = 0 /\ exists i c, lists small_mount a (i_ino root) i name_a c /\ child = Some (vnode small_mount a c)) \/
   (rc = -1 /\ child = None /\ forall i c, ~ lists small_mount a (i_ino root) i name_a c)).
Proof.
  destruct fresh_mounted as [Hl _], file_mounted as [a Ha]. exists a. split; [exact Ha|].
  apply (capyfs_lookup_correct small_mount 40 Hl a with_file root name_a Ha); [apply root_opened | done | apply name_a_ok].
Defined.

Lemma capyfs_create_correct_witness : exists a, mounted small_mount 40 a fresh_fs /\
  let '(r, s') := capyfs_create root name_a VFS_MODE_FILE None fresh_fs in
  exists a', mounted small_mount 40 a' s' /\ create_result small_mount root name_a (new_disk_inode VFS_MODE_FILE None) a r a'.
Proof.
  destruct fresh_mounted as [Hl [a Ha]]. exists a. split; [exact Ha|].
  apply (capyfs_create_correct small_mount 40 Hl a fresh_fs root name_a VFS_MODE_FILE None Ha);
    [apply root_opened | done | apply name_a_ok | done | done].
Defined.

Lemma capyfs_remove_correct_witness : exists a, mounted small_mount 40 a with_file /\
  let '(r, s') := capyfs_remove root name_a false with_file in
  exists a', mounted small_mount 40 a' s' /\ remove_result small_mount root name_a false a r a'.
Proof.
  destruct fresh_mounted as [Hl _], file_mounted as [a Ha]. exists a. split; [exact Ha|].
  apply (capyfs_remove_correct small_mount 40 Hl a with_file root name_a false Ha); [apply root_opened | done | apply name_a_ok].
Defined.

Lemma capyfs_rename_correct_witness : exists a, mounted small_mount 40 a with_file /\
  let '(r, s') := capyfs_rename_inode root name_a root name_b with_file in
  exists a', mounted small_mount 40 a' s' /\ rename_result small_mount root root name_a name_b a r a'.
Proof.
  destruct fresh_mounted as [Hl _], file_mounted as [a Ha]. exists a. split; [exact Ha|].
  apply (capyfs_rename_correct small_mount 40 Hl a with_file root name_a root name_b Ha);
    [apply root_opened | apply root_opened | reflexivity | reflexivity | apply name_a_ok | apply name_b_ok |].
  intros _ _. vm_compute. done.
Defined.

Lemma capyfs_iterate_correct_witness : exists a, mounted small_mount 40 a with_file /\
  let cb name mode (ctx : list (list Z)) := (0, ctx ++ [cstr name]) in
  let '(r, s') := capyfs_iterate root cb [] with_file in
  mounted small_mount 40 a s' /\ r = (0, visit cb (shown_list a 0) [], resized a root) /\ r.1.2 = [name_a].
Proof.
  destruct fresh_mounted as [Hl _], file_mounted as [a Ha]. exists a. split; [exact Ha|].
  pose proof (capyfs_iterate_correct small_mount 40 Hl a with_file root (fun name mode (ctx : list (list Z)) => (0, ctx ++ [cstr name])) [] Ha
    (root_opened _) eq_refl) as H. cbv zeta.
  assert (E : (capyfs_iterate root (fun name mode (ctx : list (list Z)) => (0, ctx ++ [cstr name])) [] with_file).1.1.2 = [name_a]) by (by vm_compute).
  destruct (capyfs_iterate root _ [] with_file) as [r s']. destruct H as [H1 H2]. by split_and!.
Defined.

Lemma capyfs_write_past_end_grows_witness : exists a, mounted small_mount 40 a with_file /\
  let '((k, _), s') := capyfs_write (at_pos MAX_FILE) (Some [1]) 1 with_file in
  k = 0 /\ exists a', mounted small_mount 40 a' s' /\
    d_size (a_inode a' (i_ino file_a)) = Z.max (d_size (a_inode a (i_ino file_a))) MAX_FILE /\
    forall p, 0 <= p < MAX_FILE -> fbyte a' (i_ino file_a) p = fbyte a (i_ino file_a) p.
Proof.
  destruct fresh_mounted as [Hl _], file_mounted as [a Ha]. exists a. split; [exact Ha|].
  apply (capyfs_write_past_end_grows small_mount 40 Hl a with_file (at_pos MAX_FILE) file_a [1] 1 Ha);
    [apply file_open; rewrite max_file; lia | done | apply Forall_cons_2; [done | by apply Forall_nil_2] | done].
Defined.

Lemma capyfs_format_mounts_witness :
  let '(rc, r, s') := format_and_mount 1 40 16 40 7 no_hook booted in
  rc = 0 /\ r = (0, Some (small_mount, root)) /\
  exists a, mounted small_mount 40 a s' /\ forall i nm c, ~ lists small_mount a 0 i nm c.
Proof. apply (capyfs_format_mounts 1 40 16 40 7 small_format_ok ltac:(lia) no_hook ltac:(done) booted booted_startable). Defined.

Lemma with_file_call : fs_call small_mount fresh_fs with_file.
Proof. apply call_create; [apply root_opened | apply name_a_ok | unfold VFS_MODE_FILE; lia | done]. Qed.

Lemma capyfs_tree_stays_ok_witness : exists a, mounted small_mount 40 a with_file.
Proof.
  apply (capyfs_tree_stays_ok 1 40 16 40 7 small_format_ok ltac:(lia) no_hook ltac:(done) booted booted_startable with_file).
  apply star_one. exact with_file_call.
Defined.

(** ** Where the code does less *)

(** The inode table has room for the 128 inodes every caller asks for.  Its size is
    computed in bytes while inodes are placed 56 to a block, so that for 113 inodes the
    last one lies in the first data block. *)
Theorem capyfs_inode_table_room blocks : 0 < blocks < 2 ^ 32 - bits_per_block ->
  let l := format_layout 128 blocks in
  let l' := format_layout 113 blocks in
  (forall i, 0 <= i < 128 -> inode_start l + i / per_block < data_start l) /\
  inode_start l' + 112 / per_block = data_start l'.
Proof.
  change bits_per_block with 32768. intros Hb. cbv zeta. unfold format_layout. cbn [inode_start data_start].
  change bits_per_block with 32768. change per_block with 56.
  rewrite (u32_small (blocks + 32768 - 1)) by lia. set (bb := (blocks + 32768 - 1) / 32768).
  assert (Hbb : 0 <= bb < 2 ^ 20) by (unfold bb; split; [apply Z.div_pos; lia | apply Z.div_lt_upper_bound; lia]).
  rewrite (u32_small (1 + bb)) by lia.
  replace (u32 (128 + 32768 - 1) / 32768) with 1 by (by vm_compute). replace (u32 (113 + 32768 - 1) / 32768) with 1 by (by vm_compute).
  replace (u32 (u64 (128 * INODE_SIZE + CAPYFS_BLOCK_SIZE - 1) / CAPYFS_BLOCK_SIZE)) with 3 by (by vm_compute).
  replace (u32 (u64 (113 * INODE_SIZE + CAPYFS_BLOCK_SIZE - 1) / CAPYFS_BLOCK_SIZE)) with 2 by (by vm_compute).
  replace (112 / 56) with 2 by (by vm_compute).
  rewrite (u32_small (1 + bb + 1)) by lia. rewrite !u32_small by lia. split; [|lia].
  intros i Hi. assert (i / 56 < 3) by (apply Z.div_lt_upper_bound; lia). lia.
Qed.

Lemma capyfs_inode_table_room_witness :
  let l := format_layout 128 2000 in
  let l' := format_layout 113 2000 in
  (forall i, 0 <= i < 128 -> inode_start l + i / per_block < data_start l) /\
  inode_start l' + 112 / per_block = data_start l'.
Proof. apply (capyfs_inode_table_room 2000). split; vm_compute; done. Defined.

(** When the object of a new file cannot be allocated, [capyfs_create] reports a
    failure and frees the inode number but leaves the directory entry: the next file
    gets the same inode, and both names lead to it. *)
Theorem capyfs_create_out_of_memory :
  let '(r1, s1) := capyfs_create root name_a VFS_MODE_FILE None (mkFsys (bufs fresh_fs) 0 [false]) in
  let '(r2, s2) := capyfs_create root name_b VFS_MODE_FILE None s1 in
  let '(ra, s3) := capyfs_lookup root name_a s2 in
  let '(rb, _) := capyfs_lookup root name_b s3 in
  r1.1.1 = -1 /\ r2.1.1 = 0 /\ i_ino <$> ra.1.2 = Some 1 /\ i_ino <$> rb.1.2 = Some 1.
Proof. vm_compute. done. Qed.

(** Why the caller of a rename has to look: inside one directory the code does not check whether the new name is taken:
    afterwards two entries bear it, and removing one leaves the other. *)
Theorem capyfs_rename_duplicates :
  let '(_, s1) := capyfs_create root name_b VFS_MODE_FILE None with_file in
  let '(r, s2) := capyfs_rename_inode root name_a root name_b s1 in
  let '(r1, s3) := capyfs_remove root name_b false s2 in
  let '(r2, _) := capyfs_lookup root name_b s3 in
  r.1.1 = 0 /\ r1.1 = 0 /\ r2.1.1 = 0.
Proof. vm_compute. done. Qed.
