(* ===== verification/Vfs.v ===== *)
(** * The virtual file system

    Models src/fs/vfs/vfs.c: paths, the tree of dentries that caches the name space,
    open files, permissions and the operations on paths.

    Dentries and files live in maps from addresses; an address is not used again after
    [kfree], so an access through a stale pointer is seen: it is the outcome [Wild].
    [Spin] is a loop that outlasts its fuel.  An inode object belongs to one dentry and
    is kept in it.  CAPYFS is the one file system of the kernel: the operations behind
    [inode->ops] are those of [CapyFs], and the tests that a table and its entries are
    there always pass.  A path or name is the list of its characters before the
    terminator; [who] is the user of the active session, [None] for the kernel. *)
From stdpp Require Import strings.
From S2P Require Import Prelude Buffers CapyFs CapyFsDir.
Local Open Scope capy_scope.

Definition VFS_NAME_MAX : Z := 32.
Definition VFS_PERM_READ : Z := 4.
Definition VFS_PERM_WRITE : Z := 2.
Definition VFS_PERM_EXEC : Z := 1.
Definition VFS_OPEN_READ : Z := 1.
Definition VFS_OPEN_WRITE : Z := 2.
Definition VFS_OK : Z := 0.
Definition VFS_ERR_INVALID_ARGUMENT : Z := 1.
Definition VFS_ERR_INVALID_PATH : Z := 2.
Definition VFS_ERR_NAME_TOO_LONG : Z := 3.
Definition VFS_ERR_NOT_FOUND : Z := 4.
Definition VFS_ERR_ALREADY_EXISTS : Z := 5.
Definition VFS_ERR_NOT_DIRECTORY : Z := 6.
Definition VFS_ERR_IS_DIRECTORY : Z := 7.
Definition VFS_ERR_PERMISSION_DENIED : Z := 8.
Definition VFS_ERR_DIR_NOT_EMPTY : Z := 9.
Definition VFS_ERR_UNSUPPORTED : Z := 10.
Definition VFS_ERR_NO_MEMORY : Z := 11.
Definition VFS_ERR_IO : Z := 12.
Definition VFS_RMDIR_RECURSIVE_MAX_CHILDREN : Z := 64.
Definition VFS_RMDIR_RECURSIVE_PATH_MAX : Z := 256.

Record dentry := mkDentry { dn_name : list Z; dn_parent : option Z; dn_first_child : option Z; dn_next_sibling : option Z;
  dn_inode : option inode; dn_refcount : Z }.
Record vfile := mkVfile { vf_dentry : option Z; vf_position : Z; vf_flags : Z }.
Record user_record := mkUser { ur_uid : Z; ur_gid : Z }.

Definition set_name n d := mkDentry n (dn_parent d) (dn_first_child d) (dn_next_sibling d) (dn_inode d) (dn_refcount d).
Definition set_parent p d := mkDentry (dn_name d) p (dn_first_child d) (dn_next_sibling d) (dn_inode d) (dn_refcount d).
Definition set_first_child c d := mkDentry (dn_name d) (dn_parent d) c (dn_next_sibling d) (dn_inode d) (dn_refcount d).
Definition set_next_sibling c d := mkDentry (dn_name d) (dn_parent d) (dn_first_child d) c (dn_inode d) (dn_refcount d).
Definition set_dn_inode i d := mkDentry (dn_name d) (dn_parent d) (dn_first_child d) (dn_next_sibling d) i (dn_refcount d).
Definition set_refcount r d := mkDentry (dn_name d) (dn_parent d) (dn_first_child d) (dn_next_sibling d) (dn_inode d) r.

(** ** Names and paths *)
Definition SLASH : Z := 47.

Definition copy_name (src : list Z) : list Z := ztake (VFS_NAME_MAX - 1) src.

Fixpoint name_equal (a b : list Z) : bool :=
  match a, b with
  | x :: a, y :: b => if negb (x =? y) then false else name_equal a b
  | [], [] => true
  | _, _ => false
  end.

Fixpoint skip_slashes (p : list Z) : list Z :=
  match p with
  | c :: q => if c =? SLASH then skip_slashes q else p
  | [] => []
  end.

(** The characters up to the next slash; [None] when they do not fit. *)
Fixpoint take_component (p component : list Z) : option (list Z * list Z) :=
  match p with
  | [] => Some (component, [])
  | c :: q =>
      if c =? SLASH then Some (component, p) else
      if VFS_NAME_MAX - 1 <=? zlen component then None else take_component q (component ++ [c])
  end.

(** The return value, the component and the rest of the path. *)
Definition path_next (path : list Z) : Z * list Z * list Z :=
  let p := skip_slashes path in
  match p with
  | [] => (0, [], p)
  | _ =>
      match take_component p [] with
      | None => (-1, [], path)
      | Some (component, p) => (1, component, skip_slashes p)
      end
  end.

(** One character more in a buffer of [out_len] bytes. *)
Definition push_char (out_len : Z) (out : option (list Z)) (c : Z) : option (list Z) :=
  match out with
  | None => None
  | Some out => if out_len <=? zlen out + 1 then None else Some (out ++ [c])
  end.

Definition vfs_join_child_path (dir name : list Z) (out_len : Z) : option (list Z) :=
  if out_len =? 0 then None else
  match foldl (push_char out_len) (Some []) dir with
  | None => None
  | Some out =>
      let out := if (1 <? zlen out) && negb (out.[zlen out - 1] =? SLASH) then push_char out_len (Some out) SLASH else Some out in
      foldl (push_char out_len) out name
  end.

(** ** Permissions *)
Definition fill_default_metadata (user : option user_record) (mode : Z) : vfs_metadata :=
  let perm := if truthy (Z.land mode VFS_MODE_DIR) then 493 else 420 in
  match user with
  | Some u => mkMeta (ur_uid u) (ur_gid u) perm
  | None => mkMeta 0 0 perm
  end.

Definition inode_has_permission (user : option user_record) (nd : option inode) (needed : Z) : bool :=
  match nd with
  | None => false
  | Some nd =>
      match user with
      | None => true
      | Some u =>
          if ur_uid u =? 0 then true else
          let perm := i_perm nd in
          let bits :=
            if ur_uid u =? i_uid nd then Z.land (Z.shiftr perm 6) 7
            else if ur_gid u =? i_gid nd then Z.land (Z.shiftr perm 3) 7
            else Z.land perm 7 in
          Z.land bits needed =? needed
      end
  end.

(** ** Callbacks of a listing *)
Definition vfs_iter_stop_after_one (_ : list Z) (_ : Z) (_ : Z) : Z * Z := (1, 1).

Record vfs_recursive_child_list := mkChildren { rc_children : list (list Z * Z); rc_overflow : bool }.

Definition vfs_recursive_collect_child (field : list Z) (mode : Z) (l : vfs_recursive_child_list) : Z * vfs_recursive_child_list :=
  let name := cstr field in
  if name_equal name [46] || name_equal name [46; 46] then (0, l) else
  if VFS_RMDIR_RECURSIVE_MAX_CHILDREN <=? zlen (rc_children l) then (-1, mkChildren (rc_children l) true) else
  (0, mkChildren (rc_children l ++ [(copy_name name, mode)]) (rc_overflow l)).

(** ** State and steps *)
Record vfs {S : Type} := mkVfs { root_sb : option Z; g_vfs_last_error : Z; who : option user_record;
  dents : gmap Z dentry; files : gmap Z vfile; brk : Z; fs : fsys S }.
Arguments vfs : clear implicits.
Arguments mkVfs {S}.

Inductive outcome (A B : Type) := Ok (a : A) (b : B) | Wild | Spin.
Arguments Ok {A B}.
Arguments Wild {A B}.
Arguments Spin {A B}.

Section vfs.
Context {S : Type} `{!Buffers S}.
Implicit Types (v : vfs S) (p q : Z) (path name : list Z).

Definition V (A : Type) : Type := vfs S -> outcome A (vfs S).
Definition vret {A} (a : A) : V A := fun v => Ok a v.
Definition vbind {A B} (m : V A) (k : A -> V B) : V B := fun v =>
  match m v with Ok a v => k a v | Wild => Wild | Spin => Spin end.
Definition spin {A} : V A := fun _ => Spin.
#[local] Notation "'let*' x := m 'in' k" := (vbind m (fun x => k)) (at level 10, x pattern, k at level 200).

Definition upd_dents (f : gmap Z dentry -> gmap Z dentry) v : vfs S :=
  mkVfs (root_sb v) (g_vfs_last_error v) (who v) (f (dents v)) (files v) (brk v) (fs v).
Definition upd_files (f : gmap Z vfile -> gmap Z vfile) v : vfs S :=
  mkVfs (root_sb v) (g_vfs_last_error v) (who v) (dents v) (f (files v)) (brk v) (fs v).
Definition set_brk (b : Z) v : vfs S := mkVfs (root_sb v) (g_vfs_last_error v) (who v) (dents v) (files v) b (fs v).
Definition set_fs (s : fsys S) v : vfs S := mkVfs (root_sb v) (g_vfs_last_error v) (who v) (dents v) (files v) (brk v) s.
Definition set_last_error (e : Z) v : vfs S := mkVfs (root_sb v) e (who v) (dents v) (files v) (brk v) (fs v).
Definition set_root (r : option Z) v : vfs S := mkVfs r (g_vfs_last_error v) (who v) (dents v) (files v) (brk v) (fs v).

Definition get_user : V (option user_record) := fun v => Ok (who v) v.
Definition get_error : V Z := fun v => Ok (g_vfs_last_error v) v.
Definition get_root : V (option Z) := fun v => Ok (root_sb v) v.
Definition read_dentry p : V dentry := fun v => match dents v !! p with Some d => Ok d v | None => Wild end.
Definition mod_dentry p (f : dentry -> dentry) : V unit := fun v =>
  match dents v !! p with Some d => Ok tt (upd_dents (insert p (f d)) v) | None => Wild end.
Definition kfree_dentry p : V unit := fun v => match dents v !! p with Some _ => Ok tt (upd_dents (delete p) v) | None => Wild end.
Definition read_file p : V vfile := fun v => match files v !! p with Some f => Ok f v | None => Wild end.
Definition put_file p (f : vfile) : V unit := fun v => Ok tt (upd_files (insert p f) v).
Definition kfree_file p : V unit := fun v => match files v !! p with Some _ => Ok tt (upd_files (delete p) v) | None => Wild end.

(** A step of the file system below. *)
Definition lift {A} (m : M (S := S) A) : V A := fun v => let '(a, s) := m (fs v) in Ok a (set_fs s v).

(** [kalloc]: an address that was never handed out before. *)
Definition new_addr : V (option Z) :=
  let* ok := lift kalloc in
  if negb ok then vret None else fun v => Ok (Some (brk v)) (set_brk (brk v + 1) v).

(** Loops over the dentries take their number as fuel. *)
Definition dent_fuel : V nat := fun v => Ok (Datatypes.S (size (dents v))) v.

(** ** Errors *)
Definition vfs_normalize_error (error : Z) : Z := if error <? 0 then - error else error.
Definition vfs_set_error (error : Z) : V unit := fun v => Ok tt (set_last_error (vfs_normalize_error error) v).
Definition vfs_set_ok : V unit := fun v => Ok tt (set_last_error VFS_OK v).
Definition vfs_fail (error : Z) : V Z :=
  let* _ := vfs_set_error error in let* e := get_error in vret (- e).
Definition vfs_fail_last_or (fallback : Z) : V Z :=
  let* e := get_error in vfs_fail (if negb (e =? VFS_OK) then e else fallback).
Definition vfs_last_error : V Z := get_error.
Definition vfs_error_string (error : Z) : string :=
  let e := vfs_normalize_error error in
  if e =? VFS_OK then "ok" else if e =? VFS_ERR_INVALID_ARGUMENT then "invalid argument" else
  if e =? VFS_ERR_INVALID_PATH then "invalid path" else if e =? VFS_ERR_NAME_TOO_LONG then "name too long" else
  if e =? VFS_ERR_NOT_FOUND then "not found" else if e =? VFS_ERR_ALREADY_EXISTS then "already exists" else
  if e =? VFS_ERR_NOT_DIRECTORY then "not a directory" else if e =? VFS_ERR_IS_DIRECTORY then "is a directory" else
  if e =? VFS_ERR_PERMISSION_DENIED then "permission denied" else if e =? VFS_ERR_DIR_NOT_EMPTY then "directory not empty" else
  if e =? VFS_ERR_UNSUPPORTED then "operation unsupported" else if e =? VFS_ERR_NO_MEMORY then "out of memory" else
  if e =? VFS_ERR_IO then "io error" else "unknown error".

(** ** Dentries *)
Definition dentry_alloc name (nd : inode) (parent : option Z) : V (option Z) :=
  let* a := new_addr in
  match a with
  | None => vret None
  | Some p => fun v => Ok (Some p) (upd_dents (insert p (mkDentry (copy_name name) parent None None (Some nd) 1)) v)
  end.

Definition dentry_attach_child (parent child : option Z) : V unit :=
  match parent, child with
  | Some p, Some c =>
      let* d := read_dentry p in
      let* _ := mod_dentry c (set_next_sibling (dn_first_child d)) in
      mod_dentry p (set_first_child (Some c))
  | _, _ => vret tt
  end.

Fixpoint detach_loop (fuel : nat) (parent : Z) (name : list Z) (prev cur : option Z) : V (option Z) :=
  match cur with
  | None => vret None
  | Some c =>
      match fuel with
      | O => spin
      | Datatypes.S fuel =>
          let* d := read_dentry c in
          if name_equal (dn_name d) name then
            let* _ := match prev with
                      | Some q => mod_dentry q (set_next_sibling (dn_next_sibling d))
                      | None => mod_dentry parent (set_first_child (dn_next_sibling d))
                      end in
            let* _ := mod_dentry c (set_next_sibling None) in
            vret (Some c)
          else detach_loop fuel parent name (Some c) (dn_next_sibling d)
      end
  end.

Definition dentry_detach_child (parent : option Z) name : V (option Z) :=
  match parent with
  | None => vret None
  | Some p =>
      let* d := read_dentry p in
      let* n := dent_fuel in
      detach_loop n p name None (dn_first_child d)
  end.

Fixpoint find_loop (fuel : nat) (cur : option Z) (name : list Z) : V (option Z) :=
  match cur with
  | None => vret None
  | Some c =>
      match fuel with
      | O => spin
      | Datatypes.S fuel =>
          let* d := read_dentry c in
          if name_equal (dn_name d) name then vret (Some c) else find_loop fuel (dn_next_sibling d) name
      end
  end.

Definition dentry_lookup_child (parent : option Z) name : V (option Z) :=
  match parent with
  | None => vret None
  | Some p =>
      let* d := read_dentry p in
      let* n := dent_fuel in
      find_loop n (dn_first_child d) name
  end.

(** The recursion of [dentry_free_tree] with its loop over the children. *)
Fixpoint free_tree (fuel : nat) (d : option Z) : V unit :=
  match d with
  | None => vret tt
  | Some p =>
      match fuel with
      | O => spin
      | Datatypes.S fuel =>
          let* dn := read_dentry p in
          let* _ := free_children fuel (dn_first_child dn) in
          kfree_dentry p
      end
  end
with free_children (fuel : nat) (child : option Z) : V unit :=
  match child with
  | None => vret tt
  | Some c =>
      match fuel with
      | O => spin
      | Datatypes.S fuel =>
          let* dn := read_dentry c in
          let* _ := free_tree fuel (Some c) in
          free_children fuel (dn_next_sibling dn)
      end
  end.

Definition dentry_free_tree (d : option Z) : V unit :=
  let* n := dent_fuel in free_tree (2 * n) d.

(** A call of the file system on the inode of a dentry, which it may change. *)
Definition on_inode {A} p (m : inode -> M (S := S) (A * inode)) : V (option A) :=
  let* d := read_dentry p in
  match dn_inode d with
  | None => vret None
  | Some nd =>
      let* (r, nd) := lift (m nd) in
      let* _ := mod_dentry p (set_dn_inode (Some nd)) in
      vret (Some r)
  end.

(** The rename of two directories, which may be one. *)
Definition rename_inodes (src : Z) (src_name : list Z) (dst : Z) (dst_name : list Z) : V (option Z) :=
  let* sd := read_dentry src in
  let* dd := read_dentry dst in
  match dn_inode sd, dn_inode dd with
  | Some si, Some di =>
      let* (rc, si, di) := lift (capyfs_rename_inode si src_name di dst_name) in
      let* _ := mod_dentry src (set_dn_inode (Some si)) in
      let* _ := if src =? dst then vret tt else mod_dentry dst (set_dn_inode (Some di)) in
      vret (Some rc)
  | _, _ => vret None
  end.

(** ** Paths

    The dentry, and the last component when only its parent is asked for. *)
Fixpoint resolve_loop (fuel : nat) (path : list Z) (current : Z) (parent_only : bool) : V (option Z * list Z) :=
  match fuel with
  | O => spin
  | Datatypes.S fuel =>
      let '(res, component, path) := path_next path in
      if res <? 0 then let* _ := vfs_set_error VFS_ERR_NAME_TOO_LONG in vret (None, []) else
      if res =? 0 then vret (Some current, []) else
      if parent_only && bool_decide (path = []) then vret (Some current, copy_name component) else
      let* child := dentry_lookup_child (Some current) component in
      match child with
      | Some c => resolve_loop fuel path c parent_only
      | None =>
          let* r := on_inode current (fun nd => capyfs_lookup nd component) in
          match r with
          | None => let* _ := vfs_set_error VFS_ERR_UNSUPPORTED in vret (None, [])
          | Some (rc, new_inode) =>
              match (if rc =? 0 then new_inode else None) with
              | None => let* _ := vfs_set_error VFS_ERR_NOT_FOUND in vret (None, [])
              | Some new_inode =>
                  let* child := dentry_alloc component new_inode (Some current) in
                  match child with
                  | None => let* _ := vfs_set_error VFS_ERR_NO_MEMORY in vret (None, [])
                  | Some c =>
                      let* _ := dentry_attach_child (Some current) child in
                      resolve_loop fuel path c parent_only
                  end
              end
          end
      end
  end.

Definition vfs_resolve (path : option (list Z)) (parent_only : bool) : V (option Z * list Z) :=
  let* root := get_root in
  match root, path with
  | Some root, Some path =>
      if negb (match path with c :: _ => c =? SLASH | [] => false end)
      then let* _ := vfs_set_error VFS_ERR_INVALID_PATH in vret (None, [])
      else resolve_loop (Datatypes.S (length path)) path root parent_only
  | _, _ =>
      let* _ := vfs_set_error (match path with Some _ => VFS_ERR_IO | None => VFS_ERR_INVALID_ARGUMENT end) in vret (None, [])
  end.

Definition vfs_init : V Z := let* _ := (fun v => Ok tt (set_root None v)) in let* _ := vfs_set_ok in vret 0.
Definition vfs_mount_root (sb : option Z) : V Z :=
  match sb with None => vret (-1) | Some _ => fun v => Ok 0 (set_root sb v) end.
Definition vfs_root : V (option Z) := get_root.

(** The dentry a path leads to, when it has an inode. *)
Definition resolve_inode (path : option (list Z)) : V (option (Z * inode)) :=
  let* (d, _) := vfs_resolve path false in
  match d with
  | None => vret None
  | Some p => let* dn := read_dentry p in vret (match dn_inode dn with Some nd => Some (p, nd) | None => None end)
  end.

(** [out]: the caller gave a place for the result. *)
Definition vfs_lookup (path : option (list Z)) (out : bool) : V (Z * option Z) :=
  if negb out then let* e := vfs_fail VFS_ERR_INVALID_ARGUMENT in vret (e, None) else
  let* _ := vfs_set_ok in
  let* (d, _) := vfs_resolve path false in
  match d with
  | None => let* e := vfs_fail_last_or VFS_ERR_NOT_FOUND in vret (e, None)
  | Some p =>
      let* _ := mod_dentry p (fun d => set_refcount (u32 (dn_refcount d + 1)) d) in
      let* _ := vfs_set_ok in vret (0, Some p)
  end.

Definition vfs_create (path : option (list Z)) (mode : Z) (meta : option vfs_metadata) : V Z :=
  let* _ := vfs_set_ok in
  let* (parent, name) := vfs_resolve path true in
  match parent with
  | None => vfs_fail_last_or VFS_ERR_INVALID_PATH
  | Some parent =>
      match name with
      | [] => vfs_fail VFS_ERR_INVALID_PATH
      | _ =>
          let* (existing, _) := vfs_resolve path false in
          match existing with
          | Some _ => vfs_fail VFS_ERR_ALREADY_EXISTS
          | None =>
              let* e := get_error in
              if negb (e =? VFS_ERR_NOT_FOUND) then vfs_fail_last_or VFS_ERR_IO else
              let* d := read_dentry parent in
              match dn_inode d with
              | None => vfs_fail VFS_ERR_UNSUPPORTED
              | Some nd =>
                  let* user := get_user in
                  if negb (inode_has_permission user (Some nd) VFS_PERM_WRITE) then vfs_fail VFS_ERR_PERMISSION_DENIED else
                  let local_meta := match meta with Some m => m | None => fill_default_metadata user mode end in
                  let* r := on_inode parent (fun nd => capyfs_create_pub nd name mode (Some local_meta)) in
                  match r with
                  | Some (rc, Some inode) =>
                      if negb (rc =? 0) then vfs_fail VFS_ERR_IO else
                      let* child := dentry_alloc name inode (Some parent) in
                      match child with
                      | None => vfs_fail VFS_ERR_NO_MEMORY
                      | Some _ =>
                          let* _ := dentry_attach_child (Some parent) child in
                          let* _ := vfs_set_ok in vret 0
                      end
                  | _ => vfs_fail VFS_ERR_IO
                  end
              end
          end
      end
  end.

(** ** Open files *)
Definition vfs_open (path : option (list Z)) (flags : Z) : V (option Z) :=
  let* _ := vfs_set_ok in
  let* r := resolve_inode path in
  match r with
  | None => let* _ := vfs_fail_last_or VFS_ERR_NOT_FOUND in vret None
  | Some (d, nd) =>
      let open_flags := if truthy flags then flags else VFS_OPEN_READ in
      let* user := get_user in
      if truthy (Z.land open_flags VFS_OPEN_READ) && negb (inode_has_permission user (Some nd) VFS_PERM_READ)
      then let* _ := vfs_set_error VFS_ERR_PERMISSION_DENIED in vret None else
      if truthy (Z.land open_flags VFS_OPEN_WRITE) && negb (inode_has_permission user (Some nd) VFS_PERM_WRITE)
      then let* _ := vfs_set_error VFS_ERR_PERMISSION_DENIED in vret None else
      let* f := new_addr in
      match f with
      | None => let* _ := vfs_set_error VFS_ERR_NO_MEMORY in vret None
      | Some f =>
          let* _ := put_file f (mkVfile (Some d) 0 open_flags) in
          let* _ := mod_dentry d (fun d => set_refcount (u32 (dn_refcount d + 1)) d) in
          let* _ := vfs_set_ok in vret (Some f)
      end
  end.

Definition dec_refcount (d : dentry) : dentry := if truthy (dn_refcount d) then set_refcount (dn_refcount d - 1) d else d.

Definition vfs_close (file : option Z) : V Z :=
  match file with
  | None => vret (-1)
  | Some f =>
      let* fl := read_file f in
      let* _ := match vf_dentry fl with Some d => mod_dentry d dec_refcount | None => vret tt end in
      let* _ := kfree_file f in vret 0
  end.

(** The file as [capyfs_read] and [capyfs_write] see it. *)
Definition opened_file (fl : vfile) (nd : inode) : file := mkFile (Some nd) (vf_position fl).
Definition advance (bytes : Z) (fl : vfile) : vfile :=
  if 0 <? bytes then mkVfile (vf_dentry fl) (u32 (vf_position fl + u32 bytes)) (vf_flags fl) else fl.

Definition vfs_read (file : option Z) (buffer : option (list Z)) (size : Z) : V (Z * list Z) :=
  let dst0 := default [] buffer in
  match file with
  | None => vret (-1, dst0)
  | Some f =>
      let* fl := read_file f in
      match vf_dentry fl with
      | None => vret (-1, dst0)
      | Some d =>
          let* r := on_inode d (fun nd => bind (capyfs_read (opened_file fl nd) buffer size) (fun '(k, dst, nd') => ret ((k, dst), default nd nd'))) in
          match r with
          | None => vret (-1, dst0)
          | Some (bytes, dst) => let* _ := put_file f (advance bytes fl) in vret (bytes, dst)
          end
      end
  end.

Definition vfs_write (file : option Z) (buffer : option (list Z)) (size : Z) : V Z :=
  match file with
  | None => vret (-1)
  | Some f =>
      let* fl := read_file f in
      match vf_dentry fl with
      | None => vret (-1)
      | Some d =>
          let* dn := read_dentry d in
          match dn_inode dn with
          | None => vret (-1)
          | Some _ =>
              if negb (truthy (Z.land (vf_flags fl) VFS_OPEN_WRITE)) then vret (-1) else
              let* r := on_inode d (fun nd => bind (capyfs_write (opened_file fl nd) buffer size) (fun '(k, nd') => ret (k, default nd nd'))) in
              match r with
              | None => vret (-1)
              | Some bytes => let* _ := put_file f (advance bytes fl) in vret bytes
              end
          end
      end
  end.

(** ** Directories *)
Definition vfs_directory_has_entries (d : Z) : V Z :=
  let* r := on_inode d (fun nd => bind (capyfs_iterate nd vfs_iter_stop_after_one 0) (fun '(rc, found, nd) => ret (found, nd))) in
  vret (default 0 r).

Definition vfs_listdir {C} (path : option (list Z)) (cb : list Z -> Z -> C -> Z * C) (ctx : C) : V (Z * C) :=
  let failing m := let* e := m in vret (e, ctx) in
  match path with
  | None => failing (vfs_fail VFS_ERR_INVALID_ARGUMENT)
  | Some _ =>
      let* _ := vfs_set_ok in
      let* r := resolve_inode path in
      match r with
      | None => failing (vfs_fail_last_or VFS_ERR_NOT_FOUND)
      | Some (d, nd) =>
          if negb (is_dir_inode nd) then failing (vfs_fail VFS_ERR_NOT_DIRECTORY) else
          let* user := get_user in
          if negb (inode_has_permission user (Some nd) (Z.lor VFS_PERM_READ VFS_PERM_EXEC)) then failing (vfs_fail VFS_ERR_PERMISSION_DENIED) else
          let* r := on_inode d (fun nd => bind (capyfs_iterate nd cb ctx) (fun '(rc, ctx, nd) => ret ((rc, ctx), nd))) in
          match r with
          | None => failing (vfs_fail VFS_ERR_UNSUPPORTED)
          | Some (rc, ctx) =>
              if negb (rc =? 0) then let* e := vfs_fail VFS_ERR_IO in vret (e, ctx)
              else let* _ := vfs_set_ok in vret (0, ctx)
          end
      end
  end.

(** The end of [vfs_unlink] and [vfs_rmdir]: the dentry of the removed name. *)
Definition drop_dentry (parent target : Z) : V Z :=
  let* dn := read_dentry target in
  let* removed := dentry_detach_child (Some parent) (dn_name dn) in
  let* _ := dentry_free_tree removed in
  let* _ := vfs_set_ok in vret 0.

Definition vfs_unlink (path : option (list Z)) : V Z :=
  let* _ := vfs_set_ok in
  let* r := resolve_inode path in
  match r with
  | None => vfs_fail_last_or VFS_ERR_NOT_FOUND
  | Some (target, nd) =>
      if is_dir_inode nd then vfs_fail VFS_ERR_IS_DIRECTORY else
      let* dn := read_dentry target in
      match dn_parent dn, dn_name dn with
      | None, _ | _, [] => vfs_fail VFS_ERR_INVALID_PATH
      | Some parent, _ =>
          let* pd := read_dentry parent in
          let* user := get_user in
          if negb (inode_has_permission user (dn_inode pd) VFS_PERM_WRITE) then vfs_fail VFS_ERR_PERMISSION_DENIED else
          let* rc := on_inode parent (fun nd => capyfs_remove nd (dn_name dn) false) in
          match rc with
          | None => vfs_fail VFS_ERR_UNSUPPORTED
          | Some rc => if negb (rc =? 0) then vfs_fail VFS_ERR_IO else drop_dentry parent target
          end
      end
  end.

Definition vfs_rmdir (path : option (list Z)) : V Z :=
  let* _ := vfs_set_ok in
  let* r := resolve_inode path in
  match r with
  | None => vfs_fail_last_or VFS_ERR_NOT_FOUND
  | Some (target, nd) =>
      if negb (is_dir_inode nd) then vfs_fail VFS_ERR_NOT_DIRECTORY else
      let* dn := read_dentry target in
      match dn_parent dn, dn_name dn with
      | None, _ | _, [] => vfs_fail VFS_ERR_INVALID_PATH
      | Some parent, _ =>
          let* pd := read_dentry parent in
          let* user := get_user in
          if negb (inode_has_permission user (dn_inode pd) VFS_PERM_WRITE) then vfs_fail VFS_ERR_PERMISSION_DENIED else
          let* busy := vfs_directory_has_entries target in
          if truthy busy then vfs_fail VFS_ERR_DIR_NOT_EMPTY else
          let* rc := on_inode parent (fun nd => capyfs_remove nd (dn_name dn) true) in
          match rc with
          | None => vfs_fail VFS_ERR_UNSUPPORTED
          | Some rc =>
              if negb (rc =? 0) then
                let* busy := vfs_directory_has_entries target in
                vfs_fail (if truthy busy then VFS_ERR_DIR_NOT_EMPTY else VFS_ERR_IO)
              else drop_dentry parent target
          end
      end
  end.

(** ** Metadata *)
Definition vfs_stat_path (path : option (list Z)) (out : bool) : V (Z * option vfs_stat) :=
  let failing m := let* e := m in vret (e, None) in
  if negb out then failing (vfs_fail VFS_ERR_INVALID_ARGUMENT) else
  let* _ := vfs_set_ok in
  let* r := resolve_inode path in
  match r with
  | None => failing (vfs_fail_last_or VFS_ERR_NOT_FOUND)
  | Some (d, nd) =>
      let* user := get_user in
      if negb (inode_has_permission user (Some nd) VFS_PERM_READ) then failing (vfs_fail VFS_ERR_PERMISSION_DENIED) else
      let* _ := vfs_set_ok in vret (0, Some (capyfs_stat_inode nd))
  end.

Definition vfs_set_metadata (path : option (list Z)) (meta : option vfs_metadata) : V Z :=
  match path, meta with
  | Some _, Some meta =>
      let* _ := vfs_set_ok in
      let* r := resolve_inode path in
      match r with
      | None => vfs_fail_last_or VFS_ERR_NOT_FOUND
      | Some (d, nd) =>
          let* rc := on_inode d (fun nd => capyfs_set_metadata nd meta) in
          let* _ := mod_dentry d dec_refcount in
          match rc with
          | None => vfs_fail VFS_ERR_UNSUPPORTED
          | Some rc => if negb (rc =? 0) then vfs_fail VFS_ERR_IO else let* _ := vfs_set_ok in vret 0
          end
      end
  | _, _ => vfs_fail VFS_ERR_INVALID_ARGUMENT
  end.

(** ** Renaming *)
Definition vfs_rename (src_path dst_path : option (list Z)) : V Z :=
  let* _ := vfs_set_ok in
  match src_path, dst_path with
  | Some _, Some _ =>
      let* (src, _) := vfs_resolve src_path false in
      let* src_parent := match src with Some p => let* d := read_dentry p in vret (dn_parent d) | None => vret None end in
      let* (dst_parent, dst_name) := vfs_resolve dst_path true in
      match src, src_parent with
      | Some src, Some src_parent =>
          match dst_parent, dst_name with
          | None, _ | _, [] => vfs_fail_last_or VFS_ERR_INVALID_PATH
          | Some dst_parent, _ =>
              let* (dst, _) := vfs_resolve dst_path false in
              if bool_decide (is_Some dst) && negb (bool_decide (dst = Some src)) then vfs_fail VFS_ERR_ALREADY_EXISTS else
              let* e := get_error in
              if bool_decide (dst = None) && negb (e =? VFS_ERR_NOT_FOUND) then vfs_fail_last_or VFS_ERR_IO else
              let* sp := read_dentry src_parent in
              let* dp := read_dentry dst_parent in
              let* user := get_user in
              if negb (inode_has_permission user (dn_inode sp) VFS_PERM_WRITE) || negb (inode_has_permission user (dn_inode dp) VFS_PERM_WRITE)
              then vfs_fail VFS_ERR_PERMISSION_DENIED else
              let* sn := read_dentry src in
              let* rc := rename_inodes src_parent (dn_name sn) dst_parent dst_name in
              match rc with
              | None => vfs_fail VFS_ERR_UNSUPPORTED
              | Some rc =>
                  if negb (rc =? 0) then vfs_fail VFS_ERR_IO else
                  let* child := dentry_detach_child (Some src_parent) (dn_name sn) in
                  let* _ :=
                    match child with
                    | Some c =>
                        let* _ := mod_dentry c (fun d => set_parent (Some dst_parent) (set_name (copy_name dst_name) d)) in
                        dentry_attach_child (Some dst_parent) child
                    | None => vret tt
                    end in
                  let* _ := vfs_set_ok in vret 0
              end
          end
      | _, _ => vfs_fail_last_or VFS_ERR_NOT_FOUND
      end
  | _, _ => vfs_fail VFS_ERR_INVALID_ARGUMENT
  end.

(** ** Removing a tree

    A nested call has a longer path, and the buffer of a path bounds its length. *)
Definition recursion_fuel : nat := Z.to_nat VFS_RMDIR_RECURSIVE_PATH_MAX.

Definition remove_child (recurse : list Z -> V Z) (path : list Z) (child : list Z * Z) : V Z :=
  match vfs_join_child_path path child.1 VFS_RMDIR_RECURSIVE_PATH_MAX with
  | None => vfs_fail VFS_ERR_NAME_TOO_LONG
  | Some child_path =>
      if truthy (Z.land child.2 VFS_MODE_DIR) then recurse child_path else vfs_unlink (Some child_path)
  end.

(** The loop over the collected children: 0 when all are gone. *)
Fixpoint remove_children (recurse : list Z -> V Z) (path : list Z) (children : list (list Z * Z)) : V Z :=
  match children with
  | [] => vret 0
  | child :: children =>
      let* rc := remove_child recurse path child in
      if negb (rc =? 0) then vret rc else remove_children recurse path children
  end.

Fixpoint rmdir_recursive (fuel : nat) (path : list Z) : V Z :=
  match fuel with
  | O => spin
  | Datatypes.S fuel =>
      let* _ := vfs_set_ok in
      match path with
      | [] => vfs_fail VFS_ERR_INVALID_ARGUMENT
      | c :: rest =>
          if negb (c =? SLASH) then vfs_fail VFS_ERR_INVALID_PATH else
          if bool_decide (rest = []) then vfs_fail VFS_ERR_INVALID_PATH else
          let* (rc, stat) := vfs_stat_path (Some path) true in
          match (if rc =? 0 then stat else None) with
          | None => vfs_fail_last_or VFS_ERR_NOT_FOUND
          | Some stat =>
              if negb (truthy (Z.land (st_mode stat) VFS_MODE_DIR)) then vfs_fail VFS_ERR_NOT_DIRECTORY else
              let* ok := lift kalloc in
              if negb ok then vfs_fail VFS_ERR_NO_MEMORY else
              let* (list_rc, children) := vfs_listdir (Some path) vfs_recursive_collect_child (mkChildren [] false) in
              if negb (list_rc =? 0) then
                let* e := get_error in
                vfs_fail (if rc_overflow children then VFS_ERR_NO_MEMORY else if negb (e =? VFS_OK) then e else VFS_ERR_IO)
              else
                let* rc := remove_children (rmdir_recursive fuel) path (rc_children children) in
                if negb (rc =? 0) then vret rc else vfs_rmdir (Some path)
          end
      end
  end.

Definition vfs_rmdir_recursive (path : option (list Z)) : V Z :=
  match path with
  | None => let* _ := vfs_set_ok in vfs_fail VFS_ERR_INVALID_ARGUMENT
  | Some path => rmdir_recursive (Datatypes.S recursion_fuel) path
  end.
End vfs.
