(* ===== verification/VfsCache.v ===== *)
(** * The dentry cache

    Paths as lists of components, the dentries as a tree that shows a part of the name
    space of the disk ([tree] and [shown]), and what looking up, adding, detaching and freeing a
    dentry do to it.  Proofs step through a program with [vwp]: it ends, and touches no
    freed dentry. *)
From stdpp Require Import strings.
From S2P Require Import Prelude Buffers CapyFs CapyFsDisk CapyFsFile CapyFsDir CapyFsTree CapyFsMove CapyFsFormat CapyFsSystem Vfs.
Local Open Scope capy_scope.

#[local] Opaque le_bytes.

(** ** Permissions

    What the user may do with an inode, by the permission bits of the class the user is
    in: owner, group or others. *)
Definition class_shift (u : user_record) (nd : inode) : Z :=
  if ur_uid u =? i_uid nd then 6 else if ur_gid u =? i_gid nd then 3 else 0.
Definition allowed (u : option user_record) (nd : inode) (needed : Z) : bool :=
  match u with
  | None => true
  | Some u => (ur_uid u =? 0) || forallb (fun b => implb (Z.testbit needed b) (Z.testbit (i_perm nd) (b + class_shift u nd))) [0; 1; 2]
  end.

Lemma land_covers x n : 0 <= n < 8 -> (Z.land (Z.land x 7) n =? n) = forallb (fun b => implb (Z.testbit n b) (Z.testbit x b)) [0; 1; 2].
Proof.
  intros Hn. change 7 with (Z.ones 3). rewrite Z.land_ones by lia. cbn [forallb].
  rewrite <- !(Z.mod_pow2_bits_low x 3) by lia. pose proof (Z.mod_pos_bound x (2 ^ 3) ltac:(lia)) as Hm. set (m := x `mod` 2 ^ 3) in *. clearbody m.
  assert (Hc : m = 0 \/ m = 1 \/ m = 2 \/ m = 3 \/ m = 4 \/ m = 5 \/ m = 6 \/ m = 7) by lia.
  assert (Hd : n = 0 \/ n = 1 \/ n = 2 \/ n = 3 \/ n = 4 \/ n = 5 \/ n = 6 \/ n = 7) by lia.
  destruct Hc as [->|[->|[->|[->|[->|[->|[->| ->]]]]]]]; destruct Hd as [->|[->|[->|[->|[->|[->|[->| ->]]]]]]]; reflexivity.
Qed.

Lemma permission_allowed u nd needed : 0 <= needed < 8 -> inode_has_permission u (Some nd) needed = allowed u nd needed.
Proof.
  intros Hn. unfold inode_has_permission, allowed. destruct u as [u|]; [|done]. destruct (ur_uid u =? 0); [done|]. cbn [orb]. unfold class_shift.
  destruct (ur_uid u =? i_uid nd); [|destruct (ur_gid u =? i_gid nd)]; rewrite land_covers by done; cbn [forallb]; rewrite ?Z.shiftr_spec by lia; reflexivity.
Qed.

(** ** Names and paths *)
Lemma name_equal_spec a b : name_equal a b = bool_decide (a = b).
Proof.
  revert b. induction a as [|x a IH]; intros [|y b]; try done; simpl; [by rewrite bool_decide_eq_false_2..|].
  destruct (Z.eqb_spec x y) as [->|Hne]; cbn [negb].
  - rewrite IH. apply bool_decide_ext. naive_solver.
  - symmetry. apply bool_decide_eq_false_2. congruence.
Qed.

(** The words of a path: what lies between slashes, without the empty ones. *)
Fixpoint words (cur p : list Z) : list (list Z) :=
  match p with
  | [] => match cur with [] => [] | _ => [cur] end
  | c :: p =>
      if c =? SLASH then match cur with [] => words [] p | _ => cur :: words [] p end
      else words (cur ++ [c]) p
  end.
Definition components (path : list Z) : list (list Z) := words [] path.

Lemma skip_words p : words [] (skip_slashes p) = words [] p /\ (length (skip_slashes p) <= length p)%nat.
Proof.
  induction p as [|c p [IH1 IH2]]; [done|]. simpl. destruct (Z.eqb_spec c SLASH) as [->|]; [|split; [simpl; by rewrite (proj2 (Z.eqb_neq c SLASH)) | done]].
  split; [done | lia].
Qed.

Lemma skip_head p c q : skip_slashes p = c :: q -> c <> SLASH.
Proof. induction p as [|x p IH]; [done|]. simpl. destruct (Z.eqb_spec x SLASH); [auto | congruence]. Qed.

Lemma words_cons cur p : cur <> [] -> exists w ws, words cur p = w :: ws /\ w <> [].
Proof.
  revert cur. induction p as [|c p IH]; intros cur Hne; simpl; [by destruct cur; [|eexists _, _]|].
  destruct (c =? SLASH); [destruct cur; [done | by eexists _, _] | apply IH; by destruct cur].
Qed.

Lemma take_words p cur : cur <> [] \/ (exists c q, p = c :: q /\ c <> SLASH) -> zlen cur <= 31 ->
  exists w ws, words cur p = w :: ws /\ w <> [] /\
  match take_component p cur with
  | Some (w', r) => w' = w /\ zlen w <= 31 /\ words [] r = ws /\ (length r <= length p)%nat
  | None => 31 < zlen w
  end.
Proof.
  revert cur. induction p as [|c p IH]; intros cur Hne Hl; simpl.
  { destruct Hne as [Hne|(? & ? & ? & _)]; [|done]. destruct cur as [|x cur]; [done|]. eexists _, []. split_and!; done. }
  destruct (Z.eqb_spec c SLASH) as [->|Hc].
  { destruct Hne as [Hne|(? & ? & [= <- _] & ?)]; [|done]. destruct cur as [|x cur]; [done|]. eexists _, _. split_and!; try done. }
  change (VFS_NAME_MAX - 1) with 31. assert (Hcc : cur ++ [c] <> []) by (by destruct cur). destruct (Z.leb_spec 31 (zlen cur)).
  - destruct (words_cons (cur ++ [c]) p Hcc) as (w & ws & E & Hw). exists w, ws. split_and!; [done | done |].
    assert (Hp : forall p cur w ws, words cur p = w :: ws -> cur <> [] -> zlen cur <= zlen w).
    { clear. induction p as [|x p IH]; intros cur w ws E Hne; simpl in E.
      - destruct cur; [done|]. injection E as <- _. lia.
      - destruct (x =? SLASH); [destruct cur; [done | injection E as <- _; lia]|].
        apply IH in E; [|by destruct cur]. rewrite zlen_app in E. change (zlen [x]) with 1 in E. lia. }
    apply Hp in E; [|done]. rewrite zlen_app in E. change (zlen [c]) with 1 in E. lia.
  - destruct (IH (cur ++ [c])) as (w & ws & E & Hw & H'); [by left | rewrite zlen_app; change (zlen [c]) with 1; lia|].
    exists w, ws. split_and!; [done | done |]. destruct (take_component p (cur ++ [c])) as [[w' r]|]; [|done].
    destruct H' as (? & ? & ? & ?). split_and!; try done. lia.
Qed.

(** One step along a path. *)
Lemma path_next_spec path :
  let '(res, w, rest) := path_next path in
  match components path with
  | [] => res = 0
  | w' :: ws =>
      if zlen w' <=? 31 then res = 1 /\ w = w' /\ components rest = ws /\ (length rest < length path)%nat /\ (rest = [] <-> ws = [])
      else res = -1
  end.
Proof.
  unfold path_next, components. destruct (skip_words path) as [<- Hl]. destruct (skip_slashes path) as [|c q] eqn:E; [done|].
  pose proof (skip_head _ _ _ E) as Hc. destruct (take_words (c :: q) []) as (w & ws & Ew & Hw & H); [right; by exists c, q | done|].
  rewrite Ew. destruct (take_component (c :: q) []) as [[w' r]|] eqn:Et.
  2: { by replace (zlen w <=? 31) with false by lia. }
  destruct H as (-> & Hw31 & Hr & Hlen). replace (zlen w <=? 31) with true by lia. destruct (skip_words r) as [Er Hlr].
  assert (Hlt : (length r < length (c :: q))%nat).
  { simpl in Et. rewrite (proj2 (Z.eqb_neq c SLASH) Hc) in Et. change (VFS_NAME_MAX - 1 <=? zlen []) with false in Et. cbv iota in Et.
    assert (Ht : forall p cur w r, take_component p cur = Some (w, r) -> (length r <= length p)%nat).
    { clear. induction p as [|x p IH]; intros cur w r; simpl; [by intros [= _ <-]|]. destruct (x =? SLASH); [by intros [= _ <-]|].
      destruct (_ <=? _); [done|]. intros Ht. apply IH in Ht. lia. }
    apply Ht in Et. simpl. lia. }
  split_and!; [done | done | by rewrite Er | lia |]. split.
  - intros E0. by rewrite E0 in Er; rewrite <- Hr, <- Er.
  - intros ->. rewrite <- Er in Hr. destruct (skip_slashes r) as [|x y] eqn:Es; [done|]. pose proof (skip_head _ _ _ Es) as Hx.
    simpl in Hr. rewrite (proj2 (Z.eqb_neq x SLASH) Hx) in Hr. destruct (words_cons [x] y) as (? & ? & E' & _); [done|]. simpl in Hr. congruence.
Qed.

(** The characters of the words are those of the path. *)
Lemma components_chars path : Forall (fun c => 0 < c < 256) path -> Forall (fun w => Forall (fun c => 0 < c < 256) w /\ w <> []) (components path).
Proof.
  unfold components. assert (H : forall cur, Forall (fun c => 0 < c < 256) cur -> Forall (fun c => 0 < c < 256) path ->
    Forall (fun w => Forall (fun c => 0 < c < 256) w /\ w <> []) (words cur path)); [|by apply H].
  induction path as [|c p IH]; intros cur Hc Hp; simpl.
  - destruct cur; [done|]. by apply Forall_singleton.
  - apply Forall_cons in Hp as [Hx Hp]. destruct (c =? SLASH).
    + destruct cur; [by apply IH|]. constructor; [done | by apply IH].
    + apply IH; [|done]. apply Forall_app. split; [done | by apply Forall_singleton].
Qed.

(** ** Steps *)
Section steps.
Context {S : Type} `{!Buffers S}.
Implicit Types (v : vfs S).

Definition vwp {A} (m : V A) v (Q : A -> vfs S -> Prop) : Prop :=
  match m v with Ok a v => Q a v | _ => False end.

Lemma vwp_ret {A} (a : A) v (Q : A -> vfs S -> Prop) : Q a v -> vwp (vret a) v Q.
Proof. done. Qed.

Lemma vwp_bind {A B} (m : V A) (k : A -> V B) v Q : vwp m v (fun a v => vwp (k a) v Q) -> vwp (vbind m k) v Q.
Proof. unfold vwp, vbind. by destruct (m v). Qed.

Lemma vwp_mono {A} (m : V A) v (Q Q' : A -> vfs S -> Prop) : vwp m v Q -> (forall a v', Q a v' -> Q' a v') -> vwp m v Q'.
Proof. unfold vwp. destruct (m v); [auto | done..]. Qed.

Lemma vwp_elim {A} (m : V A) v (Q : A -> vfs S -> Prop) : vwp m v Q -> exists a v', m v = Ok a v' /\ Q a v'.
Proof. unfold vwp. destruct (m v) as [a v'| |]; [|done..]. intros H. by exists a, v'. Qed.

Lemma vwp_if {A} (b : bool) (m1 m2 : V A) v (Q : A -> vfs S -> Prop) :
  (b = true -> vwp m1 v Q) -> (b = false -> vwp m2 v Q) -> vwp (if b then m1 else m2) v Q.
Proof. destruct b; auto. Qed.

Lemma vwp_get_user v (Q : option user_record -> vfs S -> Prop) : Q (who v) v -> vwp get_user v Q.
Proof. done. Qed.

Lemma vwp_get_error v (Q : Z -> vfs S -> Prop) : Q (g_vfs_last_error v) v -> vwp get_error v Q.
Proof. done. Qed.

Lemma vwp_get_root v (Q : option Z -> vfs S -> Prop) : Q (root_sb v) v -> vwp get_root v Q.
Proof. done. Qed.

Lemma vwp_read v p d (Q : dentry -> vfs S -> Prop) : dents v !! p = Some d -> Q d v -> vwp (read_dentry p) v Q.
Proof. intros E H. unfold vwp, read_dentry. by rewrite E. Qed.

Lemma vwp_mod v p d f (Q : unit -> vfs S -> Prop) : dents v !! p = Some d -> Q tt (upd_dents (insert p (f d)) v) -> vwp (mod_dentry p f) v Q.
Proof. intros E H. unfold vwp, mod_dentry. by rewrite E. Qed.

Lemma vwp_free v p d (Q : unit -> vfs S -> Prop) : dents v !! p = Some d -> Q tt (upd_dents (delete p) v) -> vwp (kfree_dentry p) v Q.
Proof. intros E H. unfold vwp, kfree_dentry. by rewrite E. Qed.

Lemma vwp_read_file v p f (Q : vfile -> vfs S -> Prop) : files v !! p = Some f -> Q f v -> vwp (read_file p) v Q.
Proof. intros E H. unfold vwp, read_file. by rewrite E. Qed.

Lemma vwp_free_file v p f (Q : unit -> vfs S -> Prop) : files v !! p = Some f -> Q tt (upd_files (delete p) v) -> vwp (kfree_file p) v Q.
Proof. intros E H. unfold vwp, kfree_file. by rewrite E. Qed.

Lemma vwp_lift {A} (m : M (S := S) A) v (Q : A -> vfs S -> Prop) : wp m (fs v) (fun a s => Q a (set_fs s v)) -> vwp (lift m) v Q.
Proof. unfold wp, vwp, lift. by destruct (m (fs v)). Qed.

Lemma vwp_set_error e v (Q : unit -> vfs S -> Prop) : 0 <= e -> Q tt (set_last_error e v) -> vwp (vfs_set_error e) v Q.
Proof. intros He H. unfold vwp, vfs_set_error, vfs_normalize_error. by replace (e <? 0) with false by lia. Qed.

Lemma vwp_fail e v (Q : Z -> vfs S -> Prop) : 0 <= e -> Q (- e) (set_last_error e v) -> vwp (vfs_fail e) v Q.
Proof. intros He H. unfold vfs_fail. apply vwp_bind, vwp_set_error; [done|]. by apply vwp_bind, vwp_get_error. Qed.

(** The error that is set, or this one. *)
Definition last_or (e : Z) v : Z := if negb (g_vfs_last_error v =? VFS_OK) then g_vfs_last_error v else e.

Lemma vwp_fail_last e v (Q : Z -> vfs S -> Prop) : 0 <= e -> 0 <= g_vfs_last_error v ->
  Q (- last_or e v) (set_last_error (last_or e v) v) -> vwp (vfs_fail_last_or e) v Q.
Proof.
  intros He Hv H. unfold vfs_fail_last_or. apply vwp_bind, vwp_get_error, vwp_fail; [|done]. unfold last_or in *. by destruct (negb _).
Qed.

Lemma vwp_new_addr v (Q : option Z -> vfs S -> Prop) : mem (fs v) = [] ->
  Q (Some (brk v)) (set_brk (brk v + 1) v) -> vwp new_addr v Q.
Proof.
  intros Hm H. unfold new_addr. apply vwp_bind, vwp_lift. unfold wp, kalloc. rewrite Hm. cbn [negb]. unfold vwp. destruct v. exact H.
Qed.

(** ** Lists of siblings *)
Fixpoint chain (D : gmap Z dentry) (p : option Z) (l : list Z) : Prop :=
  match l with
  | [] => p = None
  | c :: l => p = Some c /\ exists d, D !! c = Some d /\ chain D (dn_next_sibling d) l
  end.

Implicit Types (D : gmap Z dentry) (l : list Z).

Lemma chain_fun D p l l' : chain D p l -> chain D p l' -> l = l'.
Proof.
  revert p l'. induction l as [|c l IH]; intros p [|c' l']; simpl; [done | by intros -> [? _] | by intros [-> _] ? |].
  intros (-> & d & Hd & H) ([= <-] & d' & Hd' & H'). f_equal. rewrite Hd in Hd'. injection Hd' as <-. by apply (IH _ _ H).
Qed.

Lemma chain_suffix D p l1 c l2 : chain D p (l1 ++ c :: l2) -> chain D (Some c) (c :: l2).
Proof.
  revert p. induction l1 as [|x l1 IH]; intros p; simpl; [by intros (-> & ? & ? & ?); eauto|]. intros (_ & d & _ & H). by apply IH in H.
Qed.

Lemma chain_NoDup D p l : chain D p l -> NoDup l.
Proof.
  revert p. induction l as [|c l IH]; intros p; [by constructor|]. intros (-> & d & Hd & H). constructor; [|by apply (IH _ H)].
  intros Hin. apply list_elem_of_split in Hin as (l1 & l2 & ->). pose proof (chain_suffix _ _ _ _ _ H) as Hs.
  assert (E : c :: l2 = c :: l1 ++ c :: l2) by (eapply chain_fun; [exact Hs|]; split; [done | by exists d]).
  injection E as E. apply (f_equal length) in E. rewrite length_app in E. simpl in E. lia.
Qed.

Lemma chain_in D p l c : chain D p l -> c ∈ l -> is_Some (D !! c).
Proof.
  revert p. induction l as [|x l IH]; intros p; [by intros _ ?%elem_of_nil|]. intros (_ & d & Hd & H). rewrite elem_of_cons.
  intros [->|Hc]; [by exists d | by apply (IH _ H)].
Qed.

Lemma chain_agree D D' p l : chain D p l -> (forall c d, c ∈ l -> D !! c = Some d -> exists d', D' !! c = Some d' /\ dn_next_sibling d' = dn_next_sibling d) ->
  chain D' p l.
Proof.
  revert p. induction l as [|c l IH]; intros p; [done|]. intros (-> & d & Hd & H) Hag. split; [done|].
  destruct (Hag c d ltac:(left) Hd) as (d' & Hd' & E). exists d'. split; [done|]. rewrite E. apply IH; [done|]. intros x dx Hx. apply Hag. by right.
Qed.

Lemma chain_size D p l : chain D p l -> (length l <= size D)%nat.
Proof.
  intros H. pose proof (chain_NoDup _ _ _ H) as Hnd. rewrite <- (size_list_to_set (C := gset Z) l Hnd), <- size_dom.
  apply subseteq_size. intros c Hc. apply elem_of_list_to_set in Hc. apply elem_of_dom. by eapply chain_in.
Qed.

(** The first of that name. *)
Definition first_named D l name (r : option Z) : Prop :=
  match r with
  | Some c => exists l1 l2 d, l = l1 ++ c :: l2 /\ D !! c = Some d /\ dn_name d = name /\ forall x dx, x ∈ l1 -> D !! x = Some dx -> dn_name dx <> name
  | None => forall x dx, x ∈ l -> D !! x = Some dx -> dn_name dx <> name
  end.

Lemma first_named_skip D c d l name r : D !! c = Some d -> dn_name d <> name -> first_named D l name r -> first_named D (c :: l) name r.
Proof.
  intros Hd Hne. destruct r as [x|]; simpl.
  - intros (l1 & l2 & dx & -> & Hx & E & Hl1). exists (c :: l1), l2, dx. split_and!; try done.
    intros y dy [->|Hy]%elem_of_cons; [congruence | by apply Hl1].
  - intros H y dy [->|Hy]%elem_of_cons; [congruence | by apply H].
Qed.

Lemma vwp_find_loop fuel v p l name (Q : option Z -> vfs S -> Prop) : chain (dents v) p l -> (length l <= fuel)%nat ->
  (forall r, first_named (dents v) l name r -> Q r v) -> vwp (find_loop fuel p name) v Q.
Proof.
  revert p l Q. induction fuel as [|fuel IH]; intros p [|c l] Q; simpl; try lia.
  - intros -> _ HQ. apply vwp_ret, HQ. by intros x dx ?%elem_of_nil.
  - intros -> _ HQ. apply vwp_ret, HQ. by intros x dx ?%elem_of_nil.
  - intros (-> & d & Hd & H) Hl HQ. apply vwp_bind. eapply vwp_read; [exact Hd|]. rewrite name_equal_spec. case_bool_decide as E.
    + apply vwp_ret, HQ. exists [], l, d. split_and!; try done. by intros x dx ?%elem_of_nil.
    + eapply IH; [exact H | lia |]. intros r Hr. apply HQ. by eapply first_named_skip.
Qed.

Lemma vwp_lookup_child v p d l name (Q : option Z -> vfs S -> Prop) : dents v !! p = Some d -> chain (dents v) (dn_first_child d) l ->
  (forall r, first_named (dents v) l name r -> Q r v) -> vwp (dentry_lookup_child (Some p) name) v Q.
Proof.
  intros Hd Hc HQ. unfold dentry_lookup_child. apply vwp_bind. eapply vwp_read; [exact Hd|]. apply vwp_bind. unfold vwp at 1, dent_fuel.
  eapply vwp_find_loop; [exact Hc | | exact HQ]. pose proof (chain_size _ _ _ Hc). lia.
Qed.

(** *** Taking a dentry out of its list *)
Definition unlinked D P (prev : option Z) c (dc : dentry) : gmap Z dentry :=
  let D := match prev with
           | Some q => match D !! q with Some d => <[q := set_next_sibling (dn_next_sibling dc) d]> D | None => D end
           | None => match D !! P with Some d => <[P := set_first_child (dn_next_sibling dc) d]> D | None => D end
           end in
  match D !! c with Some d => <[c := set_next_sibling None d]> D | None => D end.

Lemma vwp_detach_loop fuel v P prev p l name (Q : option Z -> vfs S -> Prop) : chain (dents v) p l -> (length l <= fuel)%nat ->
  is_Some (dents v !! P) -> match prev with Some q => is_Some (dents v !! q) | None => True end ->
  (forall l1 c l2 d, l = l1 ++ c :: l2 -> dents v !! c = Some d -> dn_name d = name ->
     (forall x dx, x ∈ l1 -> dents v !! x = Some dx -> dn_name dx <> name) ->
     Q (Some c) (upd_dents (fun D => unlinked D P (match last l1 with Some q => Some q | None => prev end) c d) v)) ->
  ((forall x dx, x ∈ l -> dents v !! x = Some dx -> dn_name dx <> name) -> Q None v) ->
  vwp (detach_loop fuel P name prev p) v Q.
Proof.
  revert prev p l Q. induction fuel as [|fuel IH]; intros prev p [|c l] Q; simpl; try lia.
  - intros -> _ _ _ _ HN. apply vwp_ret, HN. by intros x dx ?%elem_of_nil.
  - intros -> _ _ _ _ HN. apply vwp_ret, HN. by intros x dx ?%elem_of_nil.
  - intros (-> & d & Hd & H) Hl [dP HP] Hprev HS HN. apply vwp_bind. eapply vwp_read; [exact Hd|]. rewrite name_equal_spec. case_bool_decide as E.
    + specialize (HS [] c l d eq_refl Hd E ltac:(by intros x dx ?%elem_of_nil)). cbn [last] in HS.
      assert (Hmod : forall x dx f, dents v !! x = Some dx -> (forall D, D = <[x := f dx]> (dents v) -> exists dc', D !! c = Some dc' /\
         Q (Some c) (upd_dents (fun _ => <[c := set_next_sibling None dc']> D) v)) ->
         vwp (vbind (mod_dentry x f) (fun _ => vbind (mod_dentry c (set_next_sibling None)) (fun _ => vret (Some c)))) v Q).
      { intros x dx f Hx HD. destruct (HD _ eq_refl) as (dc' & Hc & HQ). apply vwp_bind. eapply vwp_mod; [exact Hx|].
        apply vwp_bind. eapply vwp_mod; [exact Hc|]. apply vwp_ret. exact HQ. }
      assert (Hc : forall x dx, dents v !! x = Some dx -> forall y, is_Some (<[x := y]> (dents v) !! c)).
      { intros x dx Hx y. destruct (decide (x = c)) as [->|Hne]; [rewrite lookup_insert_eq | rewrite lookup_insert_ne by done]; by eexists. }
      destruct prev as [q|].
      * destruct Hprev as [dq Hq]. apply (Hmod q dq (set_next_sibling (dn_next_sibling d)) Hq). intros D ->.
        destruct (Hc q dq Hq (set_next_sibling (dn_next_sibling d) dq)) as [dc' Hdc]. exists dc'. split; [done|].
        unfold unlinked, upd_dents in HS |- *. rewrite Hq, Hdc in HS. exact HS.
      * apply (Hmod P dP (set_first_child (dn_next_sibling d)) HP). intros D ->.
        destruct (Hc P dP HP (set_first_child (dn_next_sibling d) dP)) as [dc' Hdc]. exists dc'. split; [done|].
        unfold unlinked, upd_dents in HS |- *. rewrite HP, Hdc in HS. exact HS.
    + eapply IH; [exact H | lia | by eexists | by eexists | |].
      * intros l1 c' l2 d' -> Hd' E' Hl1. specialize (HS (c :: l1) c' l2 d' eq_refl Hd' E').
        assert (El : match last (c :: l1) with Some q => Some q | None => prev end = match last l1 with Some q => Some q | None => Some c end).
        { rewrite last_cons. by destruct (last l1). }
        rewrite El in HS. apply HS. intros x dx [->|Hx]%elem_of_cons; [congruence | by apply Hl1].
      * intros Hno. apply HN. intros x dx [->|Hx]%elem_of_cons; [congruence | by apply Hno].
Qed.
End steps.

(** ** The tree of dentries *)
Record tree (root : Z) (D : gmap Z dentry) (kids : Z -> list Z) : Prop := {
  tr_root : exists d, D !! root = Some d /\ dn_parent d = None;
  tr_kids p d : D !! p = Some d -> chain D (dn_first_child d) (kids p);
  tr_up p d : D !! p = Some d -> p <> root -> exists q, dn_parent d = Some q /\ is_Some (D !! q) /\ p ∈ kids q;
  tr_down q p d : is_Some (D !! q) -> p ∈ kids q -> D !! p = Some d -> dn_parent d = Some q }.

(** Dentries with the same links, or the same labels. *)
Definition links (d : dentry) : option Z * option Z * option Z := (dn_parent d, dn_first_child d, dn_next_sibling d).
Definition labels (d : dentry) : list Z * option Z * option inode := (dn_name d, dn_parent d, dn_inode d).
Definition same_on {A} (f : dentry -> A) (D D' : gmap Z dentry) : Prop := forall p, f <$> D' !! p = f <$> D !! p.

Lemma same_on_some {A} (f : dentry -> A) D D' p d : same_on f D D' -> D !! p = Some d -> exists d', D' !! p = Some d' /\ f d' = f d.
Proof. intros H E. specialize (H p). rewrite E in H. destruct (D' !! p) as [d'|]; [|done]. injection H as H. by exists d'. Qed.

Lemma same_on_sym {A} (f : dentry -> A) D D' : same_on f D D' -> same_on f D' D.
Proof. intros H p. by rewrite H. Qed.

Lemma same_on_trans {A} (f : dentry -> A) D D' D'' : same_on f D D' -> same_on f D' D'' -> same_on f D D''.
Proof. intros H H' p. by rewrite H'. Qed.

Lemma same_on_insert {A} (f : dentry -> A) D p d d' : D !! p = Some d -> f d' = f d -> same_on f D (<[p := d']> D).
Proof.
  intros E Ef q. destruct (decide (q = p)) as [->|]; [by rewrite lookup_insert_eq, E; simpl; rewrite Ef | by rewrite lookup_insert_ne].
Qed.

Lemma tree_same root D D' kids : same_on links D D' -> tree root D kids -> tree root D' kids.
Proof.
  intros H T. pose proof (same_on_sym _ _ _ H) as H'.
  assert (Hs : forall q, is_Some (D' !! q) -> is_Some (D !! q)).
  { intros q [d Hd]. destruct (same_on_some _ _ _ _ _ H' Hd) as (d' & -> & _). by eexists. }
  assert (Hs' : forall q, is_Some (D !! q) -> is_Some (D' !! q)).
  { intros q [d Hd]. destruct (same_on_some _ _ _ _ _ H Hd) as (d' & -> & _). by eexists. }
  constructor.
  - destruct (tr_root _ _ _ T) as (d & Hd & E). destruct (same_on_some _ _ _ _ _ H Hd) as (d' & Hd' & [= E' _ _]). exists d'. split; congruence.
  - intros p d' Hd'. destruct (same_on_some _ _ _ _ _ H' Hd') as (d & Hd & [= _ E _]). rewrite <- E.
    eapply chain_agree; [by eapply (tr_kids _ _ _ T)|]. intros c dc _ Hc. destruct (same_on_some _ _ _ _ _ H Hc) as (dc' & ? & [= _ _ ?]). eauto.
  - intros p d' Hd' Hne. destruct (same_on_some _ _ _ _ _ H' Hd') as (d & Hd & [= E _ _]).
    destruct (tr_up _ _ _ T p d Hd Hne) as (q & Hq & Hq2 & Hin). exists q. split_and!; [congruence | auto | done].
  - intros q p d' Hq Hin Hd'. destruct (same_on_some _ _ _ _ _ H' Hd') as (d & Hd & [= E _ _]). rewrite <- E. by eapply (tr_down _ _ _ T); auto.
Qed.

Lemma kid_is root D kids q p : tree root D kids -> is_Some (D !! q) -> p ∈ kids q -> exists d, D !! p = Some d /\ dn_parent d = Some q /\ p <> root.
Proof.
  intros T [dq Hq] Hin. destruct (chain_in _ _ _ _ (tr_kids _ _ _ T q dq Hq) Hin) as [d Hd].
  pose proof (tr_down _ _ _ T q p d ltac:(by eexists) Hin Hd) as E. exists d. split_and!; try done.
  intros ->. destruct (tr_root _ _ _ T) as (d' & Hd' & E'). congruence.
Qed.

(** *** A new first child *)
Definition attached (D : gmap Z dentry) P (dP : dentry) p (d : dentry) : gmap Z dentry :=
  <[P := set_first_child (Some p) dP]> (<[p := set_next_sibling (dn_first_child dP) d]> D).

Lemma tree_add root D kids P dP p d : tree root D kids -> D !! P = Some dP -> D !! p = None -> dn_parent d = Some P -> dn_first_child d = None ->
  tree root (attached D P dP p d) (fun q => if decide (q = P) then p :: kids P else if decide (q = p) then [] else kids q).
Proof.
  intros T HP Hp Hpar Hfirst. assert (HPp : P <> p) by congruence.
  assert (Hpx : attached D P dP p d !! p = Some (set_next_sibling (dn_first_child dP) d)).
  { unfold attached. rewrite lookup_insert_ne, lookup_insert_eq; done. }
  assert (HPx : attached D P dP p d !! P = Some (set_first_child (Some p) dP)) by (unfold attached; by rewrite lookup_insert_eq).
  assert (Hx : forall x, x <> P -> x <> p -> attached D P dP p d !! x = D !! x) by (intros x ? ?; unfold attached; by rewrite !lookup_insert_ne by done).
  assert (Hold : forall x dx, D !! x = Some dx -> exists dx', attached D P dP p d !! x = Some dx' /\ dn_next_sibling dx' = dn_next_sibling dx /\ dn_parent dx' = dn_parent dx).
  { intros x dx Ex. destruct (decide (x = P)) as [->|]; [rewrite HP in Ex; injection Ex as <-; eauto|]. rewrite Hx; [by exists dx | done | congruence]. }
  set (D' := attached D P dP p d) in *.
  assert (Hback : forall x dx', D' !! x = Some dx' -> x <> p -> exists dx, D !! x = Some dx /\ dn_parent dx' = dn_parent dx /\ (x <> P -> dn_first_child dx' = dn_first_child dx)).
  { intros x dx' Ex Hne. destruct (decide (x = P)) as [->|]; [rewrite HPx in Ex; injection Ex as <-; by exists dP|]. rewrite Hx in Ex by done. by exists dx'. }
  assert (Hchain : forall x dx, D !! x = Some dx -> chain D' (dn_first_child dx) (kids x)).
  { intros x dx Ex. eapply chain_agree; [by eapply (tr_kids _ _ _ T)|]. intros c dc _ Hc. destruct (Hold c dc Hc) as (dc' & ? & ? & _). by exists dc'. }
  constructor.
  - destruct (tr_root _ _ _ T) as (dr & Hr & E). destruct (Hold _ _ Hr) as (dr' & ? & _ & ?). exists dr'. split; congruence.
  - intros x dx' Ex. destruct (decide (x = P)) as [->|HxP].
    + rewrite HPx in Ex. injection Ex as <-. split; [done|]. eexists. split; [exact Hpx|]. by apply Hchain.
    + destruct (decide (x = p)) as [->|Hxp]; [rewrite Hpx in Ex; by injection Ex as <-|].
      destruct (Hback _ _ Ex Hxp) as (dx & Hdx & _ & E). rewrite E by done. by apply Hchain.
  - intros x dx' Ex Hne. destruct (decide (x = p)) as [->|Hxp].
    + rewrite Hpx in Ex. injection Ex as <-. exists P. split_and!; [done | by eexists |]. rewrite decide_True by done. left.
    + destruct (Hback _ _ Ex Hxp) as (dx & Hdx & E & _). destruct (tr_up _ _ _ T x dx Hdx Hne) as (q & Hq & [dq Hdq] & Hin).
      exists q. destruct (Hold _ _ Hdq) as (dq' & Hdq' & _). split_and!; [congruence | by eexists |].
      destruct (decide (q = P)) as [->|]; [by right|]. rewrite decide_False by congruence. done.
  - intros q x dx' [dq' Hq] Hin Ex. assert (Hq' : q <> p -> is_Some (D !! q)) by (intros Hne; destruct (Hback _ _ Hq Hne) as (? & ? & _); by eexists).
    destruct (decide (q = P)) as [->|HqP].
    + apply elem_of_cons in Hin as [->|Hin]; [rewrite Hpx in Ex; by injection Ex as <-|].
      destruct (kid_is _ _ _ _ _ T (Hq' HPp) Hin) as (dx & Hdx & E & _). destruct (Hback _ _ Ex) as (dx2 & Hdx2 & E2 & _); congruence.
    + destruct (decide (q = p)) as [->|Hqp]; [by apply elem_of_nil in Hin|].
      destruct (kid_is _ _ _ _ _ T (Hq' Hqp) Hin) as (dx & Hdx & E & _). destruct (Hback _ _ Ex) as (dx2 & Hdx2 & E2 & _); congruence.
Qed.

(** *** A child less *)
Lemma chain_skip D p l1 q dq c dc l2 : chain D p (l1 ++ q :: c :: l2) -> NoDup (l1 ++ q :: c :: l2) -> D !! q = Some dq -> D !! c = Some dc ->
  chain (<[q := set_next_sibling (dn_next_sibling dc) dq]> D) p (l1 ++ q :: l2).
Proof.
  intros H Hnd Hq Hc. revert p H Hnd. induction l1 as [|x l1 IH]; intros p; cbn [app].
  - intros (-> & d & Hd & _ & d' & Hd' & H) Hnd. rewrite Hc in Hd'. injection Hd' as <-. split; [done|].
    eexists. rewrite lookup_insert_eq. split; [done|]. cbn [dn_next_sibling set_next_sibling]. eapply chain_agree; [exact H|].
    intros y dy Hy Hdy. exists dy. rewrite lookup_insert_ne; [done|]. intros ->. apply NoDup_cons in Hnd as [Hnd _]. apply Hnd. by right.
  - intros (-> & d & Hd & H) Hnd. split; [done|]. apply NoDup_cons in Hnd as [Hx Hnd]. exists d. rewrite lookup_insert_ne; [split; [done | by apply IH]|].
    intros ->. apply Hx. apply elem_of_app. right. left.
Qed.

Lemma unlinked_spec root D kids P dP c dc l1 l2 : tree root D kids -> D !! P = Some dP -> kids P = l1 ++ c :: l2 -> D !! c = Some dc ->
  let D' := unlinked D P (last l1) c dc in
  same_on labels D D' /\
  (forall x dx, D !! x = Some dx -> exists dx', D' !! x = Some dx' /\ (x <> P -> dn_first_child dx' = dn_first_child dx) /\
     (x ∉ kids P -> dn_next_sibling dx' = dn_next_sibling dx)) /\
  exists dP', D' !! P = Some dP' /\ chain D' (dn_first_child dP') (l1 ++ l2).
Proof.
  intros T HP Hk Hc. pose proof (tr_kids _ _ _ T P dP HP) as Hch. rewrite Hk in Hch. pose proof (chain_NoDup _ _ _ Hch) as Hnd.
  assert (Hcl : c ∉ l1 ++ l2).
  { apply NoDup_app in Hnd as (_ & Hd & Hnd). apply NoDup_cons in Hnd as [Hn _]. intros [Hin|Hin]%elem_of_app; [|done].
    apply (Hd c Hin). left. }
  assert (Hlast : forall D1 dc1, D1 !! c = Some dc1 -> same_on labels D D1 ->
    (forall x dx, D !! x = Some dx -> exists dx', D1 !! x = Some dx' /\ (x <> P -> dn_first_child dx' = dn_first_child dx) /\
      (x ∉ kids P -> dn_next_sibling dx' = dn_next_sibling dx)) ->
    (exists dP', D1 !! P = Some dP' /\ chain D1 (dn_first_child dP') (l1 ++ l2)) ->
    let D' := <[c := set_next_sibling None dc1]> D1 in
    same_on labels D D' /\ (forall x dx, D !! x = Some dx -> exists dx', D' !! x = Some dx' /\ (x <> P -> dn_first_child dx' = dn_first_child dx) /\
      (x ∉ kids P -> dn_next_sibling dx' = dn_next_sibling dx)) /\ exists dP', D' !! P = Some dP' /\ chain D' (dn_first_child dP') (l1 ++ l2)).
  { intros D1 dc1 Hc1 Hlab Hall (dP' & HP' & Hch'). cbv zeta. split_and!.
    - eapply same_on_trans; [exact Hlab|]. by eapply same_on_insert.
    - intros x dx Hx. destruct (Hall x dx Hx) as (dx' & Hx' & Hf & Hn). destruct (decide (x = c)) as [->|Hne].
      + exists (set_next_sibling None dc1). rewrite lookup_insert_eq. split_and!; [done | intros; cbn; rewrite <- Hf by done; congruence|].
        intros Hni. destruct Hni. rewrite Hk. apply elem_of_app. right. left.
      + exists dx'. by rewrite lookup_insert_ne.
    - assert (Hag : chain (<[c := set_next_sibling None dc1]> D1) (dn_first_child dP') (l1 ++ l2)).
      { eapply chain_agree; [exact Hch'|]. intros x dx Hx Hdx. exists dx. rewrite lookup_insert_ne; [done|]. by intros ->. }
      destruct (decide (c = P)) as [->|Hne]; [|exists dP'; by rewrite lookup_insert_ne].
      exists (set_next_sibling None dc1). rewrite lookup_insert_eq. split; [done|]. rewrite Hc1 in HP'. injection HP' as ->. exact Hag. }
  unfold unlinked. destruct (last l1) as [q|] eqn:El.
  - apply last_Some in El as [l1' ->]. rewrite <- app_assoc in Hch, Hnd, Hk. cbn [app] in Hch, Hnd, Hk.
    destruct (chain_in _ _ _ q Hch) as [dq Hq]; [apply elem_of_app; right; left|]. rewrite Hq.
    assert (Hqc : q <> c).
    { intros ->. apply Hcl. apply elem_of_app. left. apply elem_of_app. right. left. }
    rewrite lookup_insert_ne, Hc by done. apply (Hlast _ dc); [by rewrite lookup_insert_ne | by eapply same_on_insert | |].
    + intros x dx Hx. destruct (decide (x = q)) as [->|Hne]; [|exists dx; by rewrite lookup_insert_ne].
      exists (set_next_sibling (dn_next_sibling dc) dq). rewrite lookup_insert_eq. rewrite Hq in Hx. injection Hx as ->. split_and!; try done.
      intros Hni. destruct Hni. rewrite Hk. apply elem_of_app. right. left.
    + pose proof (chain_skip D (dn_first_child dP) l1' q dq c dc l2 Hch Hnd Hq Hc) as Hsk.
      destruct (decide (q = P)) as [->|Hne].
      * eexists. rewrite lookup_insert_eq. split; [done|]. cbn [dn_first_child set_next_sibling]. rewrite HP in Hq. injection Hq as ->.
        by rewrite <- app_assoc.
      * exists dP. rewrite lookup_insert_ne by done. split; [done|]. by rewrite <- app_assoc.
  - apply last_None in El as ->. cbn [app] in *. rewrite HP. destruct Hch as (Hf & d & Hd & Hch). rewrite Hc in Hd. injection Hd as <-.
    apply NoDup_cons in Hnd as [Hnc Hnd].
    assert (Hag : chain (<[P := set_first_child (dn_next_sibling dc) dP]> D) (dn_next_sibling dc) l2).
    { eapply chain_agree; [exact Hch|]. intros x dx Hx Hdx. destruct (decide (x = P)) as [->|]; [|exists dx; by rewrite lookup_insert_ne].
      eexists. rewrite lookup_insert_eq. split; [done|]. rewrite HP in Hdx. by injection Hdx as <-. }
    assert (exists dc1, <[P := set_first_child (dn_next_sibling dc) dP]> D !! c = Some dc1) as [dc1 Hc1].
    { destruct (decide (P = c)) as [->|]; [rewrite lookup_insert_eq | rewrite lookup_insert_ne by done]; by eexists. }
    rewrite Hc1. apply (Hlast _ dc1 Hc1); [by eapply same_on_insert | |].
    + intros x dx Hx. destruct (decide (x = P)) as [->|Hne]; [|exists dx; by rewrite lookup_insert_ne].
      eexists. rewrite lookup_insert_eq. split; [done|]. rewrite HP in Hx. injection Hx as ->. by split.
    + eexists. rewrite lookup_insert_eq. split; [done|]. exact Hag.
Qed.

(** What the steps on the links need of the dentries around a child [c] of [P]. *)
Lemma apart root D kids P c x q : tree root D kids -> is_Some (D !! P) -> c ∈ kids P -> is_Some (D !! q) -> x ∈ kids q -> q <> P -> x ∉ kids P.
Proof.
  intros T HP Hc Hq Hx Hne Hx'. destruct (kid_is _ _ _ _ _ T Hq Hx) as (d & Hd & E & _). destruct (kid_is _ _ _ _ _ T HP Hx') as (d' & Hd' & E' & _).
  congruence.
Qed.

(** The list without [c], after the unlinking. *)
Definition without (kids : Z -> list Z) (P : Z) (rest : list Z) : Z -> list Z := fun q => if decide (q = P) then rest else kids q.

Lemma unlinked_chain root D kids P dP c dc l1 l2 q dq : tree root D kids -> D !! P = Some dP -> kids P = l1 ++ c :: l2 -> D !! c = Some dc ->
  unlinked D P (last l1) c dc !! q = Some dq -> chain (unlinked D P (last l1) c dc) (dn_first_child dq) (without kids P (l1 ++ l2) q).
Proof.
  intros T HP Hk Hc Hq. destruct (unlinked_spec root D kids P dP c dc l1 l2 T HP Hk Hc) as (Hlab & Hall & dP' & HP' & Hch).
  assert (HcP : c ∈ kids P) by (rewrite Hk; apply elem_of_app; right; left). unfold without. destruct (decide (q = P)) as [->|Hne].
  { rewrite HP' in Hq. by injection Hq as <-. }
  destruct (same_on_some _ _ _ _ _ (same_on_sym _ _ _ Hlab) Hq) as (d & Hd & _). destruct (Hall q d Hd) as (d' & Hd' & Hf & _).
  rewrite Hq in Hd'. injection Hd' as <-. rewrite Hf by done. eapply chain_agree; [by eapply (tr_kids _ _ _ T)|].
  intros x dx Hx Hdx. destruct (Hall x dx Hdx) as (dx' & ? & _ & Hn). exists dx'. split; [done|]. apply Hn.
  apply (apart root D kids P c x q); try done; by eexists.
Qed.

Lemma without_in root D kids P c l1 l2 q x : tree root D kids -> is_Some (D !! P) -> kids P = l1 ++ c :: l2 -> is_Some (D !! q) ->
  x ∈ without kids P (l1 ++ l2) q <-> x ∈ kids q /\ x <> c.
Proof.
  intros T [dP HP] Hk Hq. assert (HcP : c ∈ kids P) by (rewrite Hk; apply elem_of_app; right; left). unfold without. destruct (decide (q = P)) as [->|Hne].
  - pose proof (chain_NoDup _ _ _ (tr_kids _ _ _ T P dP HP)) as Hnd. rewrite Hk in *. apply NoDup_app in Hnd as (_ & Hd & Hnd).
    apply NoDup_cons in Hnd as [Hn _]. rewrite !elem_of_app, elem_of_cons. split; [|naive_solver].
    intros [Hx|Hx]; (split; [auto|]); intros ->; [apply (Hd c Hx); left | done].
  - split; [|by intros []]. intros Hx. split; [done|]. intros ->. by apply (apart root D kids P c c q T ltac:(by eexists) HcP Hq Hx Hne).
Qed.

Lemma tree_drop root D kids P dP c dc l1 l2 : tree root D kids -> D !! P = Some dP -> kids P = l1 ++ c :: l2 -> D !! c = Some dc -> kids c = [] ->
  tree root (delete c (unlinked D P (last l1) c dc)) (without kids P (l1 ++ l2)).
Proof.
  intros T HP Hk Hc Hleaf. destruct (unlinked_spec root D kids P dP c dc l1 l2 T HP Hk Hc) as (Hlab & _ & _).
  pose proof (unlinked_chain root D kids P dP c dc l1 l2) as Hch. set (D1 := unlinked D P (last l1) c dc) in *.
  assert (HcP : c ∈ kids P) by (rewrite Hk; apply elem_of_app; right; left).
  assert (HPs : is_Some (D !! P)) by (by eexists). destruct (kid_is _ _ _ _ _ T HPs HcP) as (dc' & Hdc' & Ec & Hcr).
  assert (Hback : forall x d1, delete c D1 !! x = Some d1 -> exists d, D !! x = Some d /\ dn_parent d1 = dn_parent d /\ x <> c /\ D1 !! x = Some d1).
  { intros x d1 Hx. apply lookup_delete_Some in Hx as [Hne Hx]. destruct (same_on_some _ _ _ _ _ (same_on_sym _ _ _ Hlab) Hx) as (d & Hd & E).
    exists d. unfold labels in E. split_and!; congruence. }
  assert (Hfwd : forall x d, D !! x = Some d -> x <> c -> exists d1, delete c D1 !! x = Some d1 /\ dn_parent d1 = dn_parent d).
  { intros x d Hx Hne. destruct (same_on_some _ _ _ _ _ Hlab Hx) as (d1 & Hd & E). exists d1. rewrite lookup_delete_ne by done.
    unfold labels in E. split; congruence. }
  assert (Hin : forall q x, is_Some (D !! q) -> x ∈ without kids P (l1 ++ l2) q <-> x ∈ kids q /\ x <> c) by (intros; by eapply without_in).
  constructor.
  - destruct (tr_root _ _ _ T) as (d & Hd & E). destruct (Hfwd _ _ Hd) as (d1 & ? & ?); [done|]. exists d1. split; congruence.
  - intros q d1 Hq. destruct (Hback _ _ Hq) as (d & Hd & _ & Hne & Hq1). eapply chain_agree; [by apply Hch|].
    intros x dx Hx Hdx. exists dx. split; [|done]. apply (Hin q x) in Hx; [|by eexists]. rewrite lookup_delete_ne; [done|]. by intros <-; destruct Hx.
  - intros x d1 Hx Hne. destruct (Hback _ _ Hx) as (d & Hd & E & Hxc & _). destruct (tr_up _ _ _ T x d Hd Hne) as (q & Hq & [dq Hdq] & Hxin).
    assert (Hqc : q <> c) by (intros ->; rewrite Hleaf in Hxin; by apply elem_of_nil in Hxin).
    destruct (Hfwd _ _ Hdq Hqc) as (dq1 & ? & _). exists q. split_and!; [congruence | by eexists |]. apply Hin; [by eexists | done].
  - intros q x d1 [dq Hq] Hxin Hx. destruct (Hback _ _ Hq) as (dq' & Hdq' & _). destruct (Hback _ _ Hx) as (d & Hd & E & _).
    apply Hin in Hxin as [Hxin _]; [|by eexists]. rewrite E. by eapply (tr_down _ _ _ T); [by eexists | |].
Qed.

(** *** A child elsewhere *)
Definition moved_to D P (c : Z) (dc : dentry) (prev : option Z) Q name : gmap Z dentry :=
  let D1 := unlinked D P prev c dc in
  let D2 := match D1 !! c with Some d => <[c := set_parent (Some Q) (set_name name d)]> D1 | None => D1 end in
  match D2 !! Q with
  | Some dQ =>
      let D3 := match D2 !! c with Some d => <[c := set_next_sibling (dn_first_child dQ) d]> D2 | None => D2 end in
      match D3 !! Q with Some dQ => <[Q := set_first_child (Some c) dQ]> D3 | None => D3 end
  | None => D2
  end.

Lemma tree_move root D kids P dP c dc l1 l2 Q name : tree root D kids -> D !! P = Some dP -> kids P = l1 ++ c :: l2 -> D !! c = Some dc -> is_Some (D !! Q) ->
  tree root (moved_to D P c dc (last l1) Q name) (fun q => if decide (q = Q) then c :: without kids P (l1 ++ l2) Q else without kids P (l1 ++ l2) q) /\
  (forall x, x <> c -> labels <$> moved_to D P c dc (last l1) Q name !! x = labels <$> D !! x) /\
  labels <$> moved_to D P c dc (last l1) Q name !! c = Some (name, Some Q, dn_inode dc).
Proof.
  intros T HP Hk Hc [dQ0 HQ0]. destruct (unlinked_spec root D kids P dP c dc l1 l2 T HP Hk Hc) as (Hlab & _ & _).
  pose proof (unlinked_chain root D kids P dP c dc l1 l2) as Hch. unfold moved_to. set (D1 := unlinked D P (last l1) c dc) in *.
  assert (HcP : c ∈ kids P) by (rewrite Hk; apply elem_of_app; right; left).
  assert (HPs : is_Some (D !! P)) by (by eexists). destruct (kid_is _ _ _ _ _ T HPs HcP) as (dc' & Hdc' & Ec & Hcr).
  destruct (same_on_some _ _ _ _ _ Hlab Hc) as (c1 & Hc1 & Elc). destruct (same_on_some _ _ _ _ _ Hlab HQ0) as (q1 & Hq1 & Elq).
  rewrite Hc1. set (c2 := set_parent (Some Q) (set_name name c1)). set (D2 := <[c := c2]> D1).
  assert (Hc2 : D2 !! c = Some c2) by (unfold D2; by rewrite lookup_insert_eq).
  assert (HQ2 : exists q2, D2 !! Q = Some q2 /\ dn_first_child q2 = dn_first_child q1).
  { unfold D2. destruct (decide (Q = c)) as [->|Hne]; [rewrite lookup_insert_eq; eexists; split; [done|]; cbn; congruence | rewrite lookup_insert_ne by done; by exists q1]. }
  destruct HQ2 as (q2 & HQ2 & Ef). rewrite HQ2, Hc2. set (c3 := set_next_sibling (dn_first_child q2) c2). set (D3 := <[c := c3]> D2).
  assert (HQ3 : exists q3, D3 !! Q = Some q3 /\ (Q <> c -> q3 = q1) /\ (Q = c -> q3 = c3)).
  { unfold D3, D2. destruct (decide (Q = c)) as [->|Hne]; [rewrite lookup_insert_eq; eexists; split_and!; done | rewrite !lookup_insert_ne by done; by exists q1]. }
  destruct HQ3 as (q3 & HQ3 & Eq3 & Eq3'). rewrite HQ3. set (q4 := set_first_child (Some c) q3). set (D4 := <[Q := q4]> D3).
  assert (Hother : forall x, x <> c -> x <> Q -> D4 !! x = D1 !! x) by (intros x ? ?; unfold D4, D3, D2; by rewrite !lookup_insert_ne by done).
  assert (HQ4 : D4 !! Q = Some q4) by (unfold D4; by rewrite lookup_insert_eq).
  assert (Hc4 : exists c4, D4 !! c = Some c4 /\ dn_next_sibling c4 = dn_first_child q1 /\ labels c4 = (name, Some Q, dn_inode dc) /\ (Q <> c -> dn_first_child c4 = dn_first_child c1)).
  { unfold labels in *. destruct (decide (Q = c)) as [E|Hne].
    - exists q4. split; [by rewrite <- HQ4, E|]. unfold q4. rewrite Eq3' by done. cbn. split_and!; [congruence | congruence | done].
    - exists c3. unfold D4, D3. rewrite lookup_insert_ne, lookup_insert_eq by done. cbn. split_and!; [done | congruence | congruence | done]. }
  destruct Hc4 as (c4 & Hc4 & Enext & Elab4 & Efc4).
  assert (Hdom : forall x, is_Some (D4 !! x) <-> is_Some (D !! x)).
  { intros x. assert (H1 : is_Some (D1 !! x) <-> is_Some (D !! x)) by (pose proof (Hlab x) as E; destruct (D1 !! x), (D !! x); try done; split; intros; by eexists).
    destruct (decide (x = c)) as [->|Hxc]; [split; intros; by eexists|]. destruct (decide (x = Q)) as [->|HxQ]; [split; intros; by eexists|].
    by rewrite Hother. }
  assert (Hlabx : forall x, x <> c -> labels <$> D4 !! x = labels <$> D !! x).
  { intros x Hxc. destruct (decide (x = Q)) as [->|HxQ]; [|rewrite Hother by done; apply Hlab]. rewrite HQ4, HQ0. simpl. f_equal.
    unfold q4. rewrite Eq3 by done. unfold labels in *. cbn. congruence. }
  assert (Hin : forall q x, is_Some (D !! q) -> x ∈ without kids P (l1 ++ l2) q <-> x ∈ kids q /\ x <> c) by (intros; by eapply without_in).
  assert (Hag : forall q d1, D1 !! q = Some d1 -> is_Some (D !! q) -> chain D4 (dn_first_child d1) (without kids P (l1 ++ l2) q)).
  { intros q d1 Hq HqD. eapply chain_agree; [by apply Hch|]. intros x dx Hx Hdx. apply (Hin q x HqD) in Hx as [_ Hxc].
    destruct (decide (x = Q)) as [->|HxQ]; [|exists dx; by rewrite Hother]. exists q4. split; [done|]. unfold q4. rewrite Eq3 by done. cbn. congruence. }
  assert (Hpar : forall x d4, D4 !! x = Some d4 -> x <> c -> exists d, D !! x = Some d /\ dn_parent d4 = dn_parent d).
  { intros x d4 Hx Hxc. pose proof (Hlabx x Hxc) as E. rewrite Hx in E. destruct (D !! x) as [d|]; [|done]. exists d.
    cbn in E. unfold labels in E. split; congruence. }
  split_and!; [constructor | done | rewrite Hc4; simpl; by rewrite Elab4].
  - destruct (tr_root _ _ _ T) as (d & Hd & E). assert (Hs : is_Some (D4 !! root)) by (apply Hdom; by eexists). destruct Hs as [d4 Hd4].
    destruct (Hpar _ _ Hd4) as (d' & Hd' & E'); [done|]. exists d4. split; congruence.
  - intros q d4 Hq. assert (HqD : is_Some (D !! q)) by (apply Hdom; by eexists). destruct (decide (q = Q)) as [->|HqQ].
    + rewrite HQ4 in Hq. injection Hq as <-. split; [done|]. exists c4. split; [done|]. rewrite Enext. by apply Hag.
    + destruct (decide (q = c)) as [->|Hqc].
      * rewrite Hc4 in Hq. injection Hq as <-. rewrite Efc4 by done. by apply Hag.
      * rewrite Hother in Hq by done. by apply Hag.
  - intros x d4 Hx Hne. destruct (decide (x = c)) as [->|Hxc].
    + rewrite Hc4 in Hx. injection Hx as <-. exists Q. unfold labels in Elab4. split_and!; [congruence | by eexists |]. rewrite decide_True by done. left.
    + destruct (Hpar _ _ Hx Hxc) as (d & Hd & E). destruct (tr_up _ _ _ T x d Hd Hne) as (q & Hq & Hqs & Hxin). exists q.
      split_and!; [congruence | by apply Hdom |]. assert (Hw : x ∈ without kids P (l1 ++ l2) q) by (by apply Hin).
      destruct (decide (q = Q)) as [->|]; [by right | done].
  - intros q x d4 Hq Hxin Hx. apply Hdom in Hq. assert (Hw : x = c /\ q = Q \/ x ∈ without kids P (l1 ++ l2) q).
    { destruct (decide (q = Q)) as [->|]; [apply elem_of_cons in Hxin as [->|]; auto | auto]. }
    destruct (decide (x = c)) as [->|Hxc].
    + destruct Hw as [[_ ->]|Hw]; [|by apply Hin in Hw as [_ ?]]. rewrite Hc4 in Hx. injection Hx as <-. unfold labels in Elab4. congruence.
    + destruct Hw as [[? _]|Hw]; [done|]. apply Hin in Hw as [Hw _]; [|done]. destruct (Hpar _ _ Hx Hxc) as (d & Hd & ->). by eapply (tr_down _ _ _ T).
Qed.
