(* ===== verification/VfsResolve.v ===== *)
(** * Resolving paths

    What the dentries show of the disk ([shown_by]), the invariant of the virtual file
    system ([coherent]), the meaning of a path on the disk ([resolves]), and that
    [vfs_resolve] finds exactly that, whatever the cache holds. *)
From stdpp Require Import strings.
From S2P Require Import Prelude Buffers CapyFs CapyFsDisk CapyFsFile CapyFsDir CapyFsTree CapyFsMove CapyFsFormat CapyFsSystem Vfs VfsCache.
Local Open Scope capy_scope.

#[local] Opaque le_bytes.

(** The number of the inode a dentry stands for. *)
Definition ino (d : dentry) : Z := match dn_inode d with Some nd => i_ino nd | None => 0 end.

Lemma ino_labels d d' : labels d' = labels d -> ino d' = ino d.
Proof. unfold labels, ino. by intros [= _ _ ->]. Qed.

(** A dentry made for a name. *)
Definition fresh_dentry (name : list Z) (parent : Z) (nd : inode) : dentry := mkDentry name (Some parent) None None (Some nd) 1.

Section resolve.
Context {S : Type} `{!Buffers S} (mnt : capyfs_mount) (count : Z) `{!BufferSpec (S := S) (m_dev mnt) count}.
Context (Hlay : layout_ok (super mnt) count).
Implicit Types (v : vfs S) (a : adisk) (D : gmap Z dentry) (p q root i j c x : Z) (d : dentry) (name w : list Z) (kids : Z -> list Z).
Local Abbreviation lists := (lists mnt).
Local Abbreviation fs_ok := (fs_ok mnt).
Local Abbreviation vnode := (vnode mnt).
Local Abbreviation inode_range := (inode_range mnt).
Local Abbreviation mounted := (mounted mnt count).

(** Every dentry shows its inode as it is on disk, its name is an entry of the
    directory its parent shows, and no two show the same inode. *)
Record shown_by a root D : Prop := {
  sh_root : exists d, D !! root = Some d /\ ino d = 0;
  sh_node p d : D !! p = Some d -> dn_inode d = Some (vnode a (ino d)) /\ inode_range (ino d) /\ a_iused a (ino d) = true;
  sh_link p d q dq : D !! p = Some d -> dn_parent d = Some q -> D !! q = Some dq ->
    name_ok (dn_name d) /\ exists i, lists a (ino dq) i (dn_name d) (ino d);
  sh_inj p q d d' : D !! p = Some d -> D !! q = Some d' -> ino d = ino d' -> p = q }.

Lemma shown_same a root D D' : same_on labels D D' -> shown_by a root D -> shown_by a root D'.
Proof.
  intros H Sh. pose proof (same_on_sym _ _ _ H) as H'. constructor.
  - destruct (sh_root _ _ _ Sh) as (d & Hd & E). destruct (same_on_some _ _ _ _ _ H Hd) as (d' & Hd' & El). exists d'. split; [done|]. by rewrite (ino_labels _ _ El).
  - intros p d' Hd'. destruct (same_on_some _ _ _ _ _ H' Hd') as (d & Hd & El). rewrite <- (ino_labels _ _ El).
    destruct (sh_node _ _ _ Sh p d Hd) as (E & ? & ?). split_and!; try done. unfold labels in El. congruence.
  - intros p d' q dq' Hd' Hp Hq'. destruct (same_on_some _ _ _ _ _ H' Hd') as (d & Hd & El), (same_on_some _ _ _ _ _ H' Hq') as (dq & Hq & Eq).
    rewrite <- (ino_labels _ _ El), <- (ino_labels _ _ Eq). unfold labels in El. injection El as En Ep _. rewrite <- En.
    apply (sh_link _ _ _ Sh p d q dq); congruence.
  - intros p q d d' Hd Hd' E. destruct (same_on_some _ _ _ _ _ H' Hd) as (d1 & Hd1 & E1), (same_on_some _ _ _ _ _ H' Hd') as (d2 & Hd2 & E2).
    apply (sh_inj _ _ _ Sh p q d1 d2); try done. by rewrite (ino_labels _ _ E1), (ino_labels _ _ E2).
Qed.

(** A child and its entry. *)
Lemma kid_entry a root D kids q dq p : tree root D kids -> shown_by a root D -> D !! q = Some dq -> p ∈ kids q ->
  exists d i, D !! p = Some d /\ dn_parent d = Some q /\ name_ok (dn_name d) /\ lists a (ino dq) i (dn_name d) (ino d) /\ p <> root.
Proof.
  intros T Sh Hq Hin. destruct (kid_is _ _ _ _ _ T ltac:(by eexists) Hin) as (d & Hd & E & Hne).
  destruct (sh_link _ _ _ Sh p d q dq Hd E Hq) as (Hn & i & Hl). by exists d, i.
Qed.

(** The dentry of a listed inode, if there is one, is the child of that name. *)
Lemma shown_kid a root D kids P dP i name x p d : fs_ok a -> tree root D kids -> shown_by a root D -> D !! P = Some dP -> lists a (ino dP) i name x ->
  D !! p = Some d -> ino d = x -> p ∈ kids P /\ dn_name d = name /\ dn_parent d = Some P.
Proof.
  intros Hok T Sh HP Hl Hp E. assert (Hne : p <> root).
  { intros ->. destruct (sh_root _ _ _ Sh) as (d0 & Hd0 & E0). rewrite Hp in Hd0. injection Hd0 as ->.
    apply (lists_nonzero mnt _ _ _ _ _ Hl). congruence. }
  destruct (tr_up _ _ _ T p d Hp Hne) as (q & Hq & [dq Hdq] & Hin). destruct (sh_link _ _ _ Sh p d q dq Hp Hq Hdq) as (_ & k & Hk).
  rewrite E in Hk. destruct (fo_unique _ _ Hok _ _ _ _ _ _ _ _ Hk Hl ltac:(by left)) as [Eq ->].
  assert (q = P) as -> by (by apply (sh_inj _ _ _ Sh q P dq dP)). rewrite HP in Hdq. injection Hdq as ->.
  split_and!; [done | | done]. by destruct (lists_fun mnt _ _ _ _ _ _ _ Hk Hl).
Qed.

Lemma first_kid a root D kids P dP name r : fs_ok a -> tree root D kids -> shown_by a root D -> D !! P = Some dP -> first_named D (kids P) name r ->
  match r with
  | Some p => exists d i l1 l2, kids P = l1 ++ p :: l2 /\ D !! p = Some d /\ dn_name d = name /\ lists a (ino dP) i name (ino d) /\
      forall y dy, y ∈ l1 -> D !! y = Some dy -> dn_name dy <> name
  | None => forall i x p d, lists a (ino dP) i name x -> D !! p = Some d -> ino d <> x
  end.
Proof.
  intros Hok T Sh HP. destruct r as [p|]; simpl.
  - intros (l1 & l2 & d & Hk & Hd & Hn & Hl1). assert (Hin : p ∈ kids P) by (rewrite Hk; apply elem_of_app; right; left).
    destruct (kid_entry _ _ _ _ _ _ _ T Sh HP Hin) as (d' & i & Hd' & _ & _ & Hl & _). rewrite Hd in Hd'. injection Hd' as <-.
    exists d, i, l1, l2. split_and!; try done. by rewrite <- Hn.
  - intros Hno i x p d Hl Hd E. destruct (shown_kid _ _ _ _ _ _ _ _ _ _ _ Hok T Sh HP Hl Hd E) as (Hin & Hn & _). by apply (Hno p d).
Qed.

Lemma shown_add a root D kids P dP i name x p : tree root D kids -> shown_by a root D -> D !! P = Some dP -> D !! p = None ->
  lists a (ino dP) i name x -> name_ok name -> inode_range x -> a_iused a x = true -> (forall q dq, D !! q = Some dq -> ino dq <> x) ->
  shown_by a root (attached D P dP p (fresh_dentry name P (vnode a x))).
Proof.
  intros T Sh HP Hp Hl Hn Hx Hxu Hno. assert (HPp : P <> p) by congruence. set (f := fresh_dentry name P (vnode a x)).
  assert (Hlab : same_on labels (<[p := f]> D) (attached D P dP p f)).
  { unfold attached. eapply same_on_trans; [|eapply same_on_insert; [by rewrite lookup_insert_ne|done]].
    intros q. destruct (decide (q = p)) as [->|]; [by rewrite !lookup_insert_eq | by rewrite !lookup_insert_ne]. }
  apply (shown_same _ _ _ _ Hlab). clear Hlab.
  assert (Hcase : forall q dq, <[p := f]> D !! q = Some dq -> (q = p /\ dq = f) \/ (q <> p /\ D !! q = Some dq)).
  { intros q dq. rewrite lookup_insert_Some. naive_solver. }
  constructor.
  - destruct (sh_root _ _ _ Sh) as (d & Hd & E). exists d. rewrite lookup_insert_ne by congruence. done.
  - intros q dq [[-> ->]|[Hne Hq]]%Hcase; [by split_and! | by apply (sh_node _ _ _ Sh q)].
  - intros q dq r dr Hq Hpar Hr. apply Hcase in Hq as [[-> ->]|[Hne Hq]].
    + injection Hpar as <-. apply Hcase in Hr as [[-> _]|[_ Hr]]; [done|]. rewrite HP in Hr. injection Hr as <-. split; [done|]. by exists i.
    + apply Hcase in Hr as [[-> _]|[_ Hr]]; [|by apply (sh_link _ _ _ Sh q dq r)]. exfalso.
      destruct (decide (q = root)) as [->|Hqr]; [destruct (tr_root _ _ _ T) as (d0 & ? & ?); congruence|].
      destruct (tr_up _ _ _ T q dq Hq Hqr) as (r & Hr & [dr' Hdr] & _). congruence.
  - intros q q' dq dq' [[-> ->]|[Hne Hq]]%Hcase [[-> ->]|[Hne' Hq']]%Hcase E; [done | | |by apply (sh_inj _ _ _ Sh q q' dq dq')].
    + by destruct (Hno _ _ Hq').
    + by destruct (Hno _ _ Hq).
Qed.

(** ** The invariant *)
Record coherent a v root kids : Prop := {
  co_root : root_sb v = Some root;
  co_tree : tree root (dents v) kids;
  co_shown : shown_by a root (dents v);
  co_fs : mounted a (fs v);
  co_brk p : is_Some (dents v !! p) \/ is_Some (files v !! p) -> p < brk v;
  co_files f fl : files v !! f = Some fl -> (exists p, vf_dentry fl = Some p /\ is_Some (dents v !! p)) /\ 0 <= vf_position fl < 2 ^ 32;
  co_error : 0 <= g_vfs_last_error v }.

Lemma coherent_error a v root kids e : 0 <= e -> coherent a v root kids -> coherent a (set_last_error e v) root kids.
Proof. intros He []. by constructor. Qed.

(** What a lookup may change: it adds dentries. *)
Record keeps v v' : Prop := {
  ke_who : who v' = who v;
  ke_files : files v' = files v;
  ke_dents p d : dents v !! p = Some d -> exists d', dents v' !! p = Some d' /\ labels d' = labels d /\ dn_refcount d' = dn_refcount d }.

Lemma vkeeps_refl v : keeps v v.
Proof. constructor; eauto. Qed.

Lemma vkeeps_trans v v1 v2 : keeps v v1 -> keeps v1 v2 -> keeps v v2.
Proof.
  intros [] H. constructor; [by rewrite (ke_who _ _ H) | by rewrite (ke_files _ _ H)|]. intros p d Hd.
  destruct (ke_dents0 p d Hd) as (d1 & H1 & E1 & E2). destruct (ke_dents _ _ H p d1 H1) as (d2 & H2 & E3 & E4). exists d2. split_and!; congruence.
Qed.

Lemma keeps_error v v' e : keeps v v' -> keeps v (set_last_error e v').
Proof. intros []. by constructor. Qed.

Lemma keeps_fs v s : keeps v (set_fs s v).
Proof. constructor; eauto. Qed.

(** ** The meaning of a path

    From inode [j] along the words: the inode and the last word not followed, or the
    error. *)
Inductive resolves (parent_only : bool) a : Z -> list (list Z) -> Z * list Z + Z -> Prop :=
| re_nil j : resolves parent_only a j [] (inl (j, []))
| re_long j w ws : 31 < zlen w -> resolves parent_only a j (w :: ws) (inr VFS_ERR_NAME_TOO_LONG)
| re_last j w : zlen w <= 31 -> parent_only = true -> resolves parent_only a j [w] (inl (j, w))
| re_none j w ws : zlen w <= 31 -> (parent_only = true -> ws <> []) -> (forall i c, ~ lists a j i w c) ->
    resolves parent_only a j (w :: ws) (inr VFS_ERR_NOT_FOUND)
| re_step j w ws i c r : zlen w <= 31 -> (parent_only = true -> ws <> []) -> lists a j i w c -> resolves parent_only a c ws r ->
    resolves parent_only a j (w :: ws) r.

Lemma resolves_fun po a j ws r r' : fs_ok a -> resolves po a j ws r -> resolves po a j ws r' -> r = r'.
Proof.
  intros Hok H. revert r'. induction H as [j | j w ws Hw | j w Hw Hpo | j w ws Hw Hpo Hno | j w ws i c r Hw Hpo Hl Hr IH]; intros r' H';
    inversion H' as [|? ? ? Hw' |? ? Hw' Hpo' |? ? ? Hw' Hpo' Hno' |? ? ? ? ? ? Hw' Hpo' Hl' Hr']; subst; try done; try lia; try (by destruct Hpo); try (by destruct Hpo');
    try (by destruct (Hno _ _ Hl')); try (by destruct (Hno' _ _ Hl)).
  apply IH. destruct (fo_unique _ _ Hok _ _ _ _ _ _ _ _ Hl Hl' ltac:(by right)) as [_ ->]. by destruct (lists_fun mnt _ _ _ _ _ _ _ Hl Hl') as [_ ->].
Qed.

(** A disk that lists all that another lists. *)
Lemma resolves_kept a a' j ws c : (forall j i w x, lists a j i w x -> exists i', lists a' j i' w x) -> resolves false a j ws (inl (c, [])) ->
  resolves false a' j ws (inl (c, [])).
Proof.
  intros Hl H. remember (inl (c, [])) as r eqn:Er. induction H as [j | | | |j w ws i x r Hw Hpo Hx Hr IH]; try done; [injection Er as <-; constructor|].
  destruct (Hl _ _ _ _ Hx) as [i' Hx']. eapply re_step; [done | done | exact Hx' | by apply IH].
Qed.

(** The result of [vfs_resolve] says what the disk says. *)
Definition answer po a j ws v (r : option Z * list Z) : Prop :=
  match r.1 with
  | Some p => exists d, dents v !! p = Some d /\ resolves po a j ws (inl (ino d, r.2))
  | None => resolves po a j ws (inr (g_vfs_last_error v))
  end.

Definition path_ok (path : list Z) : Prop := Forall (fun c => 0 < c < 256) path.

Lemma word_ok path w ws : path_ok path -> components path = w :: ws -> zlen w <= 31 -> name_ok w.
Proof.
  intros Hp E Hl. pose proof (components_chars path Hp) as H. rewrite E in H. apply Forall_cons in H as [[Hw Hne] _].
  split; [done|]. unfold CAPYFS_NAME_MAX. destruct w; [done|]. rewrite zlen_cons in *. pose proof (zlen_nonneg w). lia.
Qed.

Lemma take_component_ok (s cur : list Z) w r : path_ok s -> take_component s cur = Some (w, r) -> path_ok r.
Proof.
  revert cur. induction s as [|c s IH]; intros cur Hp; simpl; [by intros [= _ <-]|]. pose proof Hp as Hp'. apply Forall_cons in Hp as [_ Hp].
  destruct (c =? SLASH); [by intros [= _ <-]|]. destruct (_ <=? _); [done|]. by apply IH.
Qed.

Lemma skip_ok (s : list Z) : path_ok s -> path_ok (skip_slashes s).
Proof.
  induction s as [|c s IH]; [done|]. intros Hp. simpl. destruct (c =? SLASH); [|done]. apply IH. by apply Forall_cons in Hp as [_ Hp].
Qed.

Lemma path_next_ok path : path_ok path -> path_ok (path_next path).2.
Proof.
  intros Hp. unfold path_next. pose proof (skip_ok _ Hp) as Hs. destruct (skip_slashes path) as [|c q]; [done|].
  destruct (take_component (c :: q) []) as [[w r]|] eqn:E; [|done]. by apply skip_ok, (take_component_ok _ _ _ _ Hs E).
Qed.

(** ** Calls of the file system *)
Lemma upd_dents_same v p d : dents v !! p = Some d -> upd_dents (insert p d) v = v.
Proof. intros E. destruct v. unfold upd_dents. cbn in *. by rewrite insert_id. Qed.

Lemma vwp_on_inode {A} v p d nd (m : inode -> M (S := S) (A * inode)) (Q : option A -> vfs S -> Prop) :
  dents v !! p = Some d -> dn_inode d = Some nd ->
  wp (m nd) (fs v) (fun r s => Q (Some r.1) (upd_dents (insert p (set_dn_inode (Some r.2) d)) (set_fs s v))) -> vwp (on_inode p m) v Q.
Proof.
  intros Hd Hi H. unfold on_inode. apply vwp_bind. eapply vwp_read; [exact Hd|]. rewrite Hi. apply vwp_bind, vwp_lift.
  eapply wp_mono; [exact H|]. intros [r nd'] s HQ. apply vwp_bind. eapply vwp_mod; [exact Hd|]. by apply vwp_ret.
Qed.

(** When the inode comes back as it was, the dentry is as it was. *)
Lemma vwp_on_inode_same {A} v p d nd (m : inode -> M (S := S) (A * inode)) (Q : option A -> vfs S -> Prop) :
  dents v !! p = Some d -> dn_inode d = Some nd ->
  wp (m nd) (fs v) (fun r s => r.2 = nd /\ Q (Some r.1) (set_fs s v)) -> vwp (on_inode p m) v Q.
Proof.
  intros Hd Hi H. eapply vwp_on_inode; [exact Hd | exact Hi |]. eapply wp_mono; [exact H|]. intros [r nd'] s [-> HQ]. cbn [fst snd] in *.
  replace (set_dn_inode (Some nd) d) with d by (rewrite <- Hi; by destruct d). by rewrite upd_dents_same.
Qed.

Lemma handle_vnode a c : inode_range c -> handle mnt a (vnode a c).
Proof. intros H. by split_and!; try apply H. Qed.

Lemma resized_vnode a c : resized a (vnode a c) = vnode a c.
Proof. done. Qed.

Lemma wp_lookup_vnode a s j w (Q : Z * option inode * inode -> fsys S -> Prop) : mounted a s -> inode_range j -> name_ok w ->
  (forall i c s', lists a j i w c -> mounted a s' -> Q (0, Some (vnode a c), vnode a j) s') ->
  (forall s', (forall i c, ~ lists a j i w c) -> mounted a s' -> Q (-1, None, vnode a j) s') -> wp (capyfs_lookup (vnode a j) w) s Q.
Proof.
  intros (Hd & Hok & Hm) Hj Hw HS HN. destruct (is_dir (a_inode a j)) eqn:Ed.
  - eapply wp_mono; [apply (wp_lookup mnt count Hlay [] a s (vnode a j) w Hd pins_free1 Hok (handle_vnode a j Hj) Ed Hw Hm)|].
    intros r s' (H1 & H2 & [(i & c & Hl & ->) | [Hno ->]]); [by eapply HS | by apply HN].
  - unfold capyfs_lookup. change (is_dir_inode (vnode a j)) with (is_dir (a_inode a j)). rewrite Ed. cbn [negb]. apply wp_ret, HN; [|done].
    intros i c (_ & E & _). congruence.
Qed.

Lemma coherent_fs a v root kids s : coherent a v root kids -> mounted a s -> coherent a (set_fs s v) root kids.
Proof. intros [] H. by constructor. Qed.

(** ** One step: the child, found or made *)
Lemma name_copy name : name_ok name -> copy_name name = name.
Proof. intros [_ H]. unfold copy_name, VFS_NAME_MAX, CAPYFS_NAME_MAX in *. apply ztake_all. lia. Qed.

Lemma vwp_add_dentry {A} a v root kids P dP i name x (k : option Z -> V A) (Q : A -> vfs S -> Prop) : coherent a v root kids -> dents v !! P = Some dP ->
  lists a (ino dP) i name x -> name_ok name -> (forall q dq, dents v !! q = Some dq -> ino dq <> x) ->
  (forall p d kids' v', coherent a v' root kids' -> keeps v v' -> g_vfs_last_error v' = g_vfs_last_error v -> dents v' !! p = Some d -> ino d = x ->
     vwp (k (Some p)) v' Q) ->
  vwp (vbind (dentry_alloc name (vnode a x) (Some P)) (fun child =>
         match child with
         | None => k None
         | Some c => vbind (dentry_attach_child (Some P) child) (fun _ => k (Some c))
         end)) v Q.
Proof.
  intros [Hroot T Sh Hfs Hbrk Hfiles He] HP Hl Hn Hno HQ. pose proof Hfs as (Hdsk & Hok & Hm).
  destruct (fo_child _ _ Hok _ _ _ _ Hl) as [Hx Hxu].
  assert (Hp : dents v !! brk v = None).
  { destruct (dents v !! brk v) eqn:E; [|done]. pose proof (Hbrk (brk v) ltac:(left; by eexists)). lia. }
  apply vwp_bind. unfold dentry_alloc. apply vwp_bind, vwp_new_addr; [done|]. unfold vwp at 1. rewrite name_copy by done.
  set (p := brk v) in *. set (f := mkDentry name (Some P) None None (Some (vnode a x)) 1).
  assert (HPp : P <> p) by congruence.
  apply vwp_bind. unfold dentry_attach_child. apply vwp_bind. eapply (vwp_read _ P dP); [cbn; by rewrite lookup_insert_ne|].
  apply vwp_bind. eapply (vwp_mod _ p f); [cbn; by rewrite lookup_insert_eq|]. eapply (vwp_mod _ P dP); [cbn; by rewrite !lookup_insert_ne by done|].
  set (v' := upd_dents _ _).
  assert (ED : dents v' = attached (dents v) P dP p f).
  { unfold v', attached. cbn. by rewrite insert_insert_eq. }
  assert (HD : forall q dq, dents v !! q = Some dq -> exists d', dents v' !! q = Some d' /\ labels d' = labels dq /\ dn_refcount d' = dn_refcount dq).
  { intros q dq Hq. rewrite ED. unfold attached. destruct (decide (q = P)) as [->|Hne].
    - rewrite lookup_insert_eq. rewrite HP in Hq. injection Hq as ->. by eexists.
    - rewrite lookup_insert_ne by done. rewrite lookup_insert_ne by congruence. by exists dq. }
  assert (Hp' : exists d, dents v' !! p = Some d /\ ino d = x).
  { rewrite ED. unfold attached. rewrite lookup_insert_ne, lookup_insert_eq by done. by eexists. }
  destruct Hp' as (d & Hd & Ex). eapply (HQ p d _ v'); [| constructor; try done; exact HD | done | exact Hd | exact Ex].
  constructor; try done.
  - rewrite ED. apply (tree_add root (dents v) kids P dP p f T HP Hp); done.
  - rewrite ED. by eapply shown_add.
  - intros q Hq. change (brk v') with (brk v + 1). destruct (decide (q = p)) as [->|Hne]; [unfold p; lia|].
    assert (is_Some (dents v !! q) \/ is_Some (files v !! q)) as Hq'.
    { destruct Hq as [[dq Hq]|Hq]; [left | by right]. rewrite ED in Hq. unfold attached in Hq. destruct (decide (q = P)) as [->|]; [by eexists|].
      rewrite !lookup_insert_ne in Hq by done. by eexists. }
    specialize (Hbrk q Hq'). lia.
  - intros g fl Hg. destruct (Hfiles g fl Hg) as [(q & Hq & [dq Hdq]) Hpos]. split; [|done]. exists q. split; [done|]. destruct (HD q dq Hdq) as (? & ? & _). by eexists.
Qed.

(** ** The loop *)
Lemma vwp_resolve_loop fuel : forall po path cur a v root kids d, coherent a v root kids -> path_ok path -> (length path < fuel)%nat ->
  dents v !! cur = Some d ->
  vwp (resolve_loop fuel path cur po) v (fun r v' => exists kids', coherent a v' root kids' /\ keeps v v' /\
    answer po a (ino d) (components path) v' r /\ (is_Some r.1 -> g_vfs_last_error v' = g_vfs_last_error v)).
Proof.
  induction fuel as [|fuel IH]; intros po path cur a v root kids d Hco Hpath Hfuel Hd; [lia|]. cbn [resolve_loop].
  pose proof (path_next_spec path) as Hnext. pose proof (path_next_ok path Hpath) as Hrest_ok.
  destruct (path_next path) as [[res w] rest]. cbn [snd] in Hrest_ok. destruct (components path) as [|w' ws] eqn:Ec.
  { subst res. cbn [Z.ltb Z.eqb Z.compare]. apply vwp_ret. exists kids. split_and!; [done | apply vkeeps_refl | | done]. exists d. split; [done | constructor]. }
  destruct (Z.leb_spec (zlen w') 31) as [Hw|Hw].
  2: { subst res. cbn [Z.ltb Z.compare]. apply vwp_bind, vwp_set_error; [done|]. apply vwp_ret. exists kids.
       split_and!; [by apply coherent_error | by apply keeps_error, vkeeps_refl | by constructor | by intros [? ?]]. }
  destruct Hnext as (-> & -> & Ews & Hlen & Hend). cbn [Z.ltb Z.eqb Z.compare]. pose proof (word_ok path w' ws Hpath Ec Hw) as Hwok.
  apply vwp_if.
  { intros E. apply andb_true_iff in E as [-> E]. apply bool_decide_eq_true in E. pose proof (proj1 Hend E) as ->. apply vwp_ret. exists kids.
    split_and!; [done | apply vkeeps_refl | | done]. exists d. split; [done|]. rewrite name_copy by done. by constructor. }
  intros Elast. assert (Hmore : po = true -> ws <> []).
  { intros -> Ew. apply andb_false_iff in Elast as [|E]; [done|]. apply bool_decide_eq_false in E. by apply E, Hend. }
  pose proof Hco as [Hroot T Sh Hfs Hbrk Hfiles He]. pose proof Hfs as (_ & Hok & _).
  apply vwp_bind. eapply vwp_lookup_child; [exact Hd | by eapply (tr_kids _ _ _ T) |]. intros r Hr.
  pose proof (first_kid _ _ _ _ _ _ _ _ Hok T Sh Hd Hr) as Hkid. destruct r as [c|].
  { destruct Hkid as (dc & i & l1 & l2 & _ & Hdc & _ & Hl & _).
    eapply vwp_mono; [apply (IH po rest c a v root kids dc); try done; lia|]. intros r v' (kids' & H1 & H2 & H3 & H4). exists kids'. split_and!; try done.
    rewrite Ews in H3. unfold answer in *. destruct r.1 as [p|]; [destruct H3 as (dp & ? & ?); exists dp; split; [done|]|]; by eapply re_step. }
  destruct (sh_node _ _ _ Sh cur d Hd) as (Hino & Hj & Hju).
  apply vwp_bind. eapply vwp_on_inode_same; [exact Hd | exact Hino |]. eapply wp_lookup_vnode; [exact Hfs | exact Hj | exact Hwok | |].
  - intros i c s' Hl Hs'. split; [done|]. cbn [fst snd]. cbv iota beta. cbn [Z.eqb].
    pose proof (coherent_fs _ _ _ _ s' Hco Hs') as Hco'.
    eapply (vwp_add_dentry a (set_fs s' v) root kids cur d i w' c (fun child => match child with
       | Some c => resolve_loop fuel rest c po
       | None => vbind (vfs_set_error VFS_ERR_NO_MEMORY) (fun _ => vret (None, [])) end)); [exact Hco' | exact Hd | exact Hl | exact Hwok | |].
    { intros q dq Hq. by apply (Hkid i c q dq Hl). }
    intros p dp kids' v' Hc' Hk' Hgerr Hp Ex. eapply vwp_mono; [apply (IH po rest p a v' root kids' dp); try done; lia|].
    intros r v2 (kids2 & H1 & H2 & H3 & H4). exists kids2. split_and!; try done.
    + apply (vkeeps_trans _ v' _); [|done]. destruct Hk'. by constructor.
    + rewrite Ews, Ex in H3. unfold answer in *. destruct r.1 as [q|]; [destruct H3 as (dq & ? & ?); exists dq; split; [done|]|]; by eapply re_step.
    + intros Hr'. rewrite H4 by done. exact Hgerr.
  - intros s' Hno Hs'. split; [done|]. cbn [fst snd Z.eqb]. cbv iota beta. apply vwp_bind, vwp_set_error; [done|]. apply vwp_ret. exists kids.
    split_and!; [apply coherent_error; [done|]; by apply coherent_fs | apply keeps_error, keeps_fs | by constructor | by intros [? ?]].
Qed.
End resolve.
