(* ===== verification/VfsOps.v ===== *)
(** * The operations of the virtual file system

    For each operation the disk it leaves and the return value, on every branch, and
    that the cache stays [coherent]. *)
From stdpp Require Import strings.
From S2P Require Import Prelude Buffers CapyFs CapyFsDisk CapyFsFile CapyFsDir CapyFsTree CapyFsMove CapyFsFormat CapyFsSystem Vfs VfsCache VfsResolve.
Local Open Scope capy_scope.

#[local] Opaque le_bytes.

Section ops.
Context {S : Type} `{!Buffers S} (mnt : capyfs_mount) (count : Z) `{!BufferSpec (S := S) (m_dev mnt) count}.
Context (Hlay : layout_ok (super mnt) count).
Implicit Types (v : vfs S) (a : adisk) (D : gmap Z dentry) (p q root i j c x dir : Z) (d : dentry) (name : list Z) (path : list Z) (kids : Z -> list Z)
  (u : option user_record).
Local Abbreviation lists := (lists mnt).
Local Abbreviation fs_ok := (fs_ok mnt).
Local Abbreviation vnode := (vnode mnt).
Local Abbreviation inode_range := (inode_range mnt).
Local Abbreviation mounted := (mounted mnt count).
Local Abbreviation shown_by := (shown_by mnt).
Local Abbreviation coherent := (coherent mnt count).
Local Abbreviation resolves := (resolves mnt).

(** The disk changes from [a] to [a'] and dentry [p] gets the new inode. *)
Lemma shown_change a a' root D p d : shown_by a root D -> D !! p = Some d ->
  (forall q dq, D !! q = Some dq -> a_iused a' (ino dq) = true) ->
  (forall q dq, D !! q = Some dq -> q <> p -> a_inode a' (ino dq) = a_inode a (ino dq)) ->
  (forall q dq r dr i nm, D !! q = Some dq -> D !! r = Some dr -> lists a (ino dq) i nm (ino dr) -> exists i', lists a' (ino dq) i' nm (ino dr)) ->
  shown_by a' root (<[p := set_dn_inode (Some (vnode a' (ino d))) d]> D).
Proof.
  intros Sh Hp Hu Hin Hl. set (d' := set_dn_inode _ d).
  assert (Hcase : forall q dq, <[p := d']> D !! q = Some dq -> exists d0, D !! q = Some d0 /\ ino dq = ino d0 /\ dn_name dq = dn_name d0 /\ dn_parent dq = dn_parent d0 /\
    dn_inode dq = Some (vnode a' (ino d0))).
  { intros q dq [[<- <-]|[Hne Hq]]%lookup_insert_Some; [by exists d|]. exists dq. destruct (sh_node _ _ _ _ Sh q dq Hq) as (E & _). split_and!; try done.
    rewrite E. f_equal. unfold CapyFsTree.vnode. by rewrite (Hin q dq Hq). }
  constructor.
  - destruct (sh_root _ _ _ _ Sh) as (d0 & Hd0 & E). destruct (decide (root = p)) as [->|Hne].
    + exists d'. rewrite lookup_insert_eq. split; [done|]. rewrite Hp in Hd0. injection Hd0 as ->. exact E.
    + exists d0. by rewrite lookup_insert_ne.
  - intros q dq Hq. destruct (Hcase q dq Hq) as (d0 & Hd0 & E & _ & _ & Ei). destruct (sh_node _ _ _ _ Sh q d0 Hd0) as (_ & Hr & _).
    rewrite E. split; [done|]. split; [exact Hr | by eapply Hu].
  - intros q dq r dr Hq Hpar Hr. destruct (Hcase q dq Hq) as (d0 & Hd0 & E & En & Ep & _), (Hcase r dr Hr) as (r0 & Hr0 & Er & _).
    rewrite Ep in Hpar. destruct (sh_link _ _ _ _ Sh q d0 r r0 Hd0 Hpar Hr0) as (Hn & k & Hk). rewrite En, E, Er. split; [done|]. by eapply Hl.
  - intros q r dq dr Hq Hr E. destruct (Hcase q dq Hq) as (d0 & Hd0 & Eq & _), (Hcase r dr Hr) as (r0 & Hr0 & Er & _).
    apply (sh_inj _ _ _ _ Sh q r d0 r0); congruence.
Qed.

(** *** What the changes of the disk keep *)
Lemma unchanged_lists a a' j i nm c : fs_ok a -> unchanged mnt a a' -> a_iused a j = true -> lists a j i nm c -> lists a' j i nm c.
Proof.
  intros Hok U Hu (Hr & Hd & Hi & He). pose proof (fo_count _ _ Hok j Hr Hd). split_and!; try apply Hr; rewrite ?(un_inode _ _ _ U) by done; try done; try lia.
  rewrite <- He. apply entry_fblock; [|lia]. intros lb Hlb. by apply (un_fblock _ _ _ U).
Qed.

Lemma written_lists a a' f pos src k j i nm c : fs_ok a -> file_written mnt f pos src k a a' -> is_dir (a_inode a f) = false ->
  lists a j i nm c -> lists a' j i nm c.
Proof.
  intros Hok W Hf (Hr & Hd & Hi & He). assert (Hne : j <> f) by congruence. pose proof (fo_count _ _ Hok j Hr Hd).
  split_and!; try apply Hr; rewrite ?(fw_inode _ _ _ _ _ _ _ W) by done; try done; try lia.
  rewrite <- He. apply entry_fblock; [|lia]. intros lb Hlb. by apply (fw_other _ _ _ _ _ _ _ W).
Qed.

Lemma meta_lists a f m j i nm c : fs_ok a -> inode_range f -> meta_ok (Some m) -> lists a j i nm c -> lists (set_inode f (with_meta m (a_inode a f)) a) j i nm c.
Proof.
  intros Hok Hf (Hu & Hg & Hp) (Hr & Hd & Hi & He). pose proof (wf_inode _ _ (fo_wf _ _ Hok) f Hf) as Ho.
  assert (Hok' : inode_ok (with_meta m (a_inode a f))) by (destruct Ho; by constructor).
  destruct (inode_fields mnt a f (with_meta m (a_inode a f)) (fo_wf _ _ Hok) Hf Hok' eq_refl eq_refl) as (_ & _ & Hfb).
  pose proof (fo_count _ _ Hok j Hr Hd).
  assert (E : is_dir (a_inode (set_inode f (with_meta m (a_inode a f)) a) j) = is_dir (a_inode a j) /\
    dcount (a_inode (set_inode f (with_meta m (a_inode a f)) a) j) = dcount (a_inode a j)).
  { destruct (Z.eq_dec j f) as [->|Hne]; [by rewrite a_inode_set | by rewrite a_inode_other]. }
  destruct E as [E1 E2]. split_and!; rewrite ?E1, ?E2; try apply Hr; try done; try lia. rewrite <- He. apply entry_fblock; [|lia]. intros lb _. apply Hfb.
Qed.

(** ** Paths *)
Definition path_means (po : bool) a path (r : Z * list Z + Z) : Prop :=
  match path with
  | c :: _ => if c =? SLASH then resolves po a 0 (components path) r else r = inr VFS_ERR_INVALID_PATH
  | [] => r = inr VFS_ERR_INVALID_PATH
  end.

Lemma path_means_fun po a path r r' : fs_ok a -> path_means po a path r -> path_means po a path r' -> r = r'.
Proof.
  intros Hok. unfold path_means. destruct path as [|c path]; [congruence|]. destruct (c =? SLASH); [|congruence]. by apply resolves_fun.
Qed.

(** The dentry found, or the error that is set. *)
Definition found po a path v (r : option Z * list Z) : Prop :=
  match r.1 with
  | Some p => exists d, dents v !! p = Some d /\ path_means po a path (inl (ino d, r.2))
  | None => path_means po a path (inr (g_vfs_last_error v)) /\ 0 < g_vfs_last_error v
  end.

Lemma means_last a path c last : path_means false a path (inl (c, last)) -> last = [].
Proof.
  unfold path_means. destruct path as [|ch rest]; [done|]. destruct (ch =? SLASH); [|done]. generalize (components (ch :: rest)) 0.
  intros ws j Hr. remember (inl (c, last)) as r eqn:Er. induction Hr; try done; [congruence | auto].
Qed.

Lemma resolves_error po a j ws e : resolves po a j ws (inr e) -> 0 < e.
Proof. intros H. remember (inr e) as r. induction H; try done; try (by injection Heqr as <-); auto. Qed.

Lemma vwp_resolve po path a v root kids : coherent a v root kids -> path_ok path ->
  vwp (vfs_resolve (Some path) po) v (fun r v' => exists kids', coherent a v' root kids' /\ keeps v v' /\ found po a path v' r /\
    (is_Some r.1 -> g_vfs_last_error v' = g_vfs_last_error v)).
Proof.
  intros Hco Hp. unfold vfs_resolve. apply vwp_bind, vwp_get_root. rewrite (co_root _ _ _ _ _ _ Hco).
  destruct (sh_root _ _ _ _ (co_shown _ _ _ _ _ _ Hco)) as (d & Hd & Ed).
  assert (Hbad : vwp (vbind (vfs_set_error VFS_ERR_INVALID_PATH) (fun _ => vret (@None Z, @nil Z))) v (fun r v' => exists kids', coherent a v' root kids' /\ keeps v v' /\
    (path_means po a path (inr VFS_ERR_INVALID_PATH) -> found po a path v' r) /\ (is_Some r.1 -> g_vfs_last_error v' = g_vfs_last_error v))).
  { apply vwp_bind, vwp_set_error; [done|]. apply vwp_ret. exists kids.
    split_and!; [by apply coherent_error | by apply keeps_error, vkeeps_refl | by intros | by intros [? ?]]. }
  destruct path as [|ch rest]; cbn [negb].
  { eapply vwp_mono; [exact Hbad|]. intros r v' (k & H1 & H2 & H3 & H4). exists k. split_and!; try done. by apply H3. }
  destruct (Z.eqb_spec ch SLASH) as [->|Hne]; cbn [negb].
  2: { eapply vwp_mono; [exact Hbad|]. intros r v' (k & H1 & H2 & H3 & H4). exists k. split_and!; try done. apply H3.
       unfold path_means. by rewrite (proj2 (Z.eqb_neq ch SLASH) Hne). }
  eapply vwp_mono; [eapply (vwp_resolve_loop mnt count Hlay); [exact Hco | exact Hp | lia | exact Hd]|].
  intros r v' (k & H1 & H2 & H3 & H4). exists k. split_and!; try done. unfold answer, found, path_means in *. rewrite Z.eqb_refl. rewrite Ed in H3.
  destruct r.1 as [q|]; [done|]. split; [done | by eapply resolves_error].
Qed.

Lemma lists_dec a j name : (exists i c, lists a j i name c) \/ (forall i c, ~ lists a j i name c).
Proof.
  destruct (decide (0 <= j < inode_count (super mnt) /\ is_dir (a_inode a j) = true)) as [[Hr Hd]|Hn].
  2: { right. intros i c (Hr & Hd & _). by apply Hn. }
  destruct (decide (Exists (fun i => fst <$> entry a j i = Some name) (seqZ 0 (dcount (a_inode a j))))) as [E|E].
  - left. apply Exists_exists in E as (i & Hi & E). apply elem_of_seqZ in Hi. destruct (entry a j i) as [[nm c]|] eqn:Ee; [|done].
    injection E as <-. exists i, c. split_and!; try done; try apply Hr; lia.
  - right. intros i c (_ & _ & Hi & He). apply E. apply Exists_exists. exists i. split; [apply elem_of_seqZ; lia|]. by rewrite He.
Qed.

(** Where the last word of a path leads. *)
Lemma resolves_last a j ws dir name : resolves true a j ws (inl (dir, name)) -> Forall (fun w => Forall (fun c => 0 < c < 256) w /\ w <> []) ws ->
  (name = [] /\ ws = []) \/
  (name_ok name /\ ((exists i c, lists a dir i name c /\ resolves false a j ws (inl (c, []))) \/
                    ((forall i c, ~ lists a dir i name c) /\ resolves false a j ws (inr VFS_ERR_NOT_FOUND)))).
Proof.
  intros H Hws. remember (inl (dir, name)) as r eqn:Er. revert dir name Er.
  induction H as [j | j w ws Hw | j w Hw _ | j w ws Hw Hpo Hno | j w ws i c r Hw Hpo Hl Hr IH]; intros dir name Er; try done.
  - injection Er as <- <-. by left.
  - injection Er as <- <-. right. apply Forall_singleton in Hws as [Hc Hne]. split.
    { split; [done|]. unfold CAPYFS_NAME_MAX. destruct w; [done|]. rewrite zlen_cons in *. pose proof (zlen_nonneg w). lia. }
    destruct (lists_dec a j w) as [(i & c & Hl)|Hn].
    + left. exists i, c. split; [done|]. eapply re_step; [done | done | exact Hl | constructor].
    + right. split; [done|]. by apply re_none.
  - apply Forall_cons in Hws as [_ Hws]. destruct (IH Hws dir name Er) as [[-> ->]|[Hn H]]; [by destruct Hpo|]. right. split; [done|].
    destruct H as [(k & x & Hx & Hr')|[Hno Hr']]; [left; exists k, x; split; [done|] | right; split; [done|]]; by eapply re_step.
Qed.

(** ** States *)
Lemma same_some {A} (f : dentry -> A) D D' p : same_on f D D' -> is_Some (D' !! p) <-> is_Some (D !! p).
Proof. intros H. specialize (H p). destruct (D' !! p), (D !! p); try done; split; intros; by eexists. Qed.

Lemma coherent_dents a v root kids f : coherent a v root kids -> same_on links (dents v) (f (dents v)) -> same_on labels (dents v) (f (dents v)) ->
  coherent a (upd_dents f v) root kids.
Proof.
  intros [] Hl Hb. constructor; try done.
  - by apply (tree_same _ (dents v)).
  - by apply (shown_same _ _ _ (dents v)).
  - intros p Hp. apply co_brk. destruct Hp as [Hp|Hp]; [left; by apply (same_some links _ _ _ Hl) | by right].
  - intros g fl Hg. destruct (co_files g fl Hg) as [(q & Hq & Hs) Hpos]. split; [|done]. exists q. split; [done|]. by apply (same_some links _ _ _ Hl).
Qed.

Lemma coherent_refcount a v root kids p d n : coherent a v root kids -> dents v !! p = Some d ->
  coherent a (upd_dents (insert p (set_refcount n d)) v) root kids.
Proof. intros H Hd. apply coherent_dents; [done | by eapply same_on_insert..]. Qed.

(** The disk changed under dentry [p]. *)
Lemma coherent_change a a' v root kids p d s : coherent a v root kids -> dents v !! p = Some d -> mounted a' s ->
  (forall q dq, dents v !! q = Some dq -> a_iused a' (ino dq) = true) ->
  (forall q dq, dents v !! q = Some dq -> q <> p -> a_inode a' (ino dq) = a_inode a (ino dq)) ->
  (forall q dq r dr i nm, dents v !! q = Some dq -> dents v !! r = Some dr -> lists a (ino dq) i nm (ino dr) -> exists i', lists a' (ino dq) i' nm (ino dr)) ->
  coherent a' (upd_dents (insert p (set_dn_inode (Some (vnode a' (ino d))) d)) (set_fs s v)) root kids.
Proof.
  intros [] Hd Hs Hu Hin Hl. assert (Hlk : same_on links (dents v) (<[p := set_dn_inode (Some (vnode a' (ino d))) d]> (dents v))) by (by eapply same_on_insert).
  constructor; try done.
  - by apply (tree_same _ (dents v)).
  - by eapply shown_change.
  - intros q Hq. apply co_brk. destruct Hq as [Hq|Hq]; [left; by apply (same_some links _ _ _ Hlk) | by right].
  - intros g fl Hg. destruct (co_files g fl Hg) as [(q & Hq & Hsq) Hpos]. split; [|done]. exists q. split; [done|]. by apply (same_some links _ _ _ Hlk).
Qed.

(** The disk changed and the inode of [p] came back as it was. *)
Lemma coherent_change_same a a' v root kids s : coherent a v root kids -> mounted a' s ->
  (forall q dq, dents v !! q = Some dq -> a_iused a' (ino dq) = true) ->
  (forall q dq, dents v !! q = Some dq -> a_inode a' (ino dq) = a_inode a (ino dq)) ->
  (forall q dq r dr i nm, dents v !! q = Some dq -> dents v !! r = Some dr -> lists a (ino dq) i nm (ino dr) -> exists i', lists a' (ino dq) i' nm (ino dr)) ->
  coherent a' (set_fs s v) root kids.
Proof.
  intros Hco Hs Hu Hin Hl. destruct (sh_root _ _ _ _ (co_shown _ _ _ _ _ _ Hco)) as (d & Hd & _).
  pose proof (coherent_change a a' v root kids root d s Hco Hd Hs Hu (fun q dq H _ => Hin q dq H) Hl) as H.
  destruct (sh_node _ _ _ _ (co_shown _ _ _ _ _ _ Hco) root d Hd) as (E & _).
  replace (set_dn_inode (Some (vnode a' (ino d))) d) with d in H.
  - by rewrite (upd_dents_same (set_fs s v)) in H.
  - unfold CapyFsTree.vnode. rewrite (Hin root d Hd). change (mkInode _ _ _ _ _ _ _) with (vnode a (ino d)). rewrite <- E. by destruct d.
Qed.

Lemma vwp_set_ok v (Q : unit -> vfs S -> Prop) : Q tt (set_last_error VFS_OK v) -> vwp vfs_set_ok v Q.
Proof. done. Qed.

Lemma last_or_set e v : 0 < g_vfs_last_error v -> last_or e v = g_vfs_last_error v.
Proof. intros H. unfold last_or, VFS_OK. by replace (g_vfs_last_error v =? 0) with false by lia. Qed.

Lemma last_or_ok e v : g_vfs_last_error v = 0 -> last_or e v = e.
Proof. intros H. unfold last_or, VFS_OK. by rewrite H. Qed.

(** [vfs_resolve] and the inode of what it finds. *)
Lemma vwp_resolve_inode path a v root kids (Q : option (Z * inode) -> vfs S -> Prop) : coherent a v root kids -> path_ok path ->
  (forall p d kids' v', coherent a v' root kids' -> keeps v v' -> g_vfs_last_error v' = g_vfs_last_error v -> dents v' !! p = Some d ->
     path_means false a path (inl (ino d, [])) -> Q (Some (p, vnode a (ino d))) v') ->
  (forall kids' v', coherent a v' root kids' -> keeps v v' -> 0 < g_vfs_last_error v' -> path_means false a path (inr (g_vfs_last_error v')) -> Q None v') ->
  vwp (resolve_inode (Some path)) v Q.
Proof.
  intros Hco Hp HS HN. unfold resolve_inode. apply vwp_bind. eapply vwp_mono; [by eapply vwp_resolve|].
  intros [[p|] last] v' (kids' & Hc' & Hk & Hf & He); unfold found in Hf; cbn [fst snd] in Hf.
  - destruct Hf as (d & Hd & Hm). pose proof (means_last _ _ _ _ Hm) as ->.
    apply vwp_bind. eapply vwp_read; [exact Hd|]. destruct (sh_node _ _ _ _ (co_shown _ _ _ _ _ _ Hc') p d Hd) as (E & _). rewrite E.
    apply vwp_ret. eapply HS; [exact Hc' | exact Hk | by apply He | exact Hd | exact Hm].
  - destruct Hf as [Hm Hpos]. apply vwp_ret. by eapply HN.
Qed.

Lemma keeps_ok v v' : keeps (set_last_error VFS_OK v) v' -> keeps v v'.
Proof. intros []. by constructor. Qed.

(** ** Looking up *)
Definition ends {A} v root (R : adisk -> A -> vfs S -> Prop) (r : A) (v' : vfs S) : Prop :=
  exists a' kids', coherent a' v' root kids' /\ who v' = who v /\ R a' r v'.

Definition is_open v f fl p d : Prop := files v !! f = Some fl /\ vf_dentry fl = Some p /\ dents v !! p = Some d.

(** Files stay open, on the same inodes. *)
Definition stays_open v v' : Prop := files v' = files v /\ forall f fl p d, is_open v f fl p d -> exists d', dents v' !! p = Some d' /\ ino d' = ino d.

Lemma stays_open_keeps v v' w : keeps v v' -> files w = files v' -> dents w = dents v' -> stays_open v w.
Proof.
  intros K Hf Hd. split; [rewrite Hf; apply K|]. intros f fl p d (_ & _ & Hp). destruct (ke_dents _ _ K p d Hp) as (d' & Hd' & El & _).
  exists d'. rewrite Hd. split; [done | by apply ino_labels].
Qed.

Lemma stays_open_refl v : stays_open v v.
Proof. split; [done|]. intros f fl p d (_ & _ & Hd). by exists d. Qed.

Lemma stays_open_trans v v1 v2 : stays_open v v1 -> stays_open v1 v2 -> stays_open v v2.
Proof.
  intros [F1 O1] [F2 O2]. split; [congruence|]. intros f fl p d Ho. destruct (O1 f fl p d Ho) as (d1 & H1 & E1). destruct Ho as (Hf & Hfl & _).
  destruct (O2 f fl p d1) as (d2 & H2 & E2); [split_and!; [by rewrite F1 | done | done]|]. exists d2. split; [done | congruence].
Qed.

Lemma stays_open_at v v' f fl p d' : stays_open v v' -> is_open v' f fl p d' -> is_Some (dents v !! p) -> exists d, is_open v f fl p d /\ ino d' = ino d.
Proof.
  intros [F O] (Hf & Hfl & Hd') [d Hd]. rewrite F in Hf. exists d. assert (Ho : is_open v f fl p d) by done. split; [done|].
  destruct (O f fl p d Ho) as (d1 & Hd1 & E). congruence.
Qed.

(** The dentry of an inode. *)
Definition dentry_of v p c : Prop := exists d, dents v !! p = Some d /\ ino d = c.

Lemma op_lookup path a v root kids : coherent a v root kids -> path_ok path ->
  vwp (vfs_lookup (Some path) true) v (ends v root (fun a' r v' => a' = a /\ files v' = files v /\
    ((exists p c, r = (0, Some p) /\ dentry_of v' p c /\ path_means false a path (inl (c, []))) \/
     (exists e, r = (- e, None) /\ 0 < e /\ path_means false a path (inr e))))).
Proof.
  intros Hco Hp. unfold vfs_lookup. cbn [negb]. apply vwp_bind, vwp_set_ok, vwp_bind.
  eapply vwp_mono; [eapply vwp_resolve; [apply coherent_error; [|exact Hco]; done | done]|].
  intros [[p|] last] v' (kids' & Hc' & Hk & Hf & He); unfold found in Hf; cbn [fst snd] in Hf; pose proof (keeps_ok _ _ Hk) as Hk'.
  - destruct Hf as (d & Hd & Hm). apply vwp_bind. eapply vwp_mod; [exact Hd|]. apply vwp_bind, vwp_set_ok, vwp_ret. exists a, kids'.
    split_and!; [apply coherent_error; [done|]; by apply coherent_refcount | apply Hk' | done | apply Hk' |]. left. exists p, (ino d). split_and!; [done | |].
    + exists (set_refcount (u32 (dn_refcount d + 1)) d). cbn. by rewrite lookup_insert_eq.
    + by rewrite <- (means_last _ _ _ _ Hm).
  - destruct Hf as [Hm Hpos]. apply vwp_bind, vwp_fail_last; [done | lia |]. rewrite last_or_set by done. apply vwp_ret. exists a, kids'.
    split_and!; [apply coherent_error; [lia | done] | apply Hk' | done | apply Hk' |]. right. by eexists.
Qed.

Lemma op_stat path a v root kids : coherent a v root kids -> path_ok path ->
  vwp (vfs_stat_path (Some path) true) v (ends v root (fun a' r v' => a' = a /\ stays_open v v' /\
    ((exists c, path_means false a path (inl (c, [])) /\ allowed (who v) (vnode a c) VFS_PERM_READ = true /\ r = (0, Some (capyfs_stat_inode (vnode a c)))) \/
     (exists c, path_means false a path (inl (c, [])) /\ allowed (who v) (vnode a c) VFS_PERM_READ = false /\ r = (- VFS_ERR_PERMISSION_DENIED, None)) \/
     (exists e, 0 < e /\ path_means false a path (inr e) /\ r = (- e, None))))).
Proof.
  intros Hco Hp. unfold vfs_stat_path. cbn [negb]. cbv zeta. apply vwp_bind, vwp_set_ok, vwp_bind.
  eapply vwp_resolve_inode; [apply coherent_error; [|exact Hco]; done | done | |].
  - intros p d kids' v' Hc' Hk He Hd Hm. pose proof (keeps_ok _ _ Hk) as Hk'. apply vwp_bind, vwp_get_user. rewrite (ke_who _ _ Hk').
    rewrite !permission_allowed by done. destruct (allowed (who v) (vnode a (ino d)) VFS_PERM_READ) eqn:Ep; cbn [negb].
    + apply vwp_bind, vwp_set_ok, vwp_ret. exists a, kids'. split_and!; [by apply coherent_error | apply Hk' | done | by apply (stays_open_keeps v v') |]. left. by exists (ino d).
    + apply vwp_bind, vwp_fail; [done|]. apply vwp_ret. exists a, kids'. split_and!; [by apply coherent_error | apply Hk' | done | by apply (stays_open_keeps v v') |]. right. left. by exists (ino d).
  - intros kids' v' Hc' Hk Hpos Hm. pose proof (keeps_ok _ _ Hk) as Hk'. apply vwp_bind, vwp_fail_last; [done | lia |]. rewrite last_or_set by done. apply vwp_ret.
    exists a, kids'. split_and!; [apply coherent_error; [lia | done] | apply Hk' | done | by apply (stays_open_keeps v v') |]. right. right. by eexists.
Qed.

(** ** Open files *)
Definition may_open u a c (fl : Z) : bool :=
  negb (truthy (Z.land fl VFS_OPEN_READ) && negb (allowed u (vnode a c) VFS_PERM_READ)) &&
  negb (truthy (Z.land fl VFS_OPEN_WRITE) && negb (allowed u (vnode a c) VFS_PERM_WRITE)).
Definition open_flags (flags : Z) : Z := if truthy flags then flags else VFS_OPEN_READ.

Definition open_result a path flags u v (r : option Z) v' : Prop :=
  (exists p c f, r = Some f /\ path_means false a path (inl (c, [])) /\ may_open u a c (open_flags flags) = true /\ files v !! f = None /\
     files v' = <[f := mkVfile (Some p) 0 (open_flags flags)]> (files v) /\ dentry_of v' p c) \/
  (r = None /\ files v' = files v /\
    ((exists c, path_means false a path (inl (c, [])) /\ may_open u a c (open_flags flags) = false /\ g_vfs_last_error v' = VFS_ERR_PERMISSION_DENIED) \/
     path_means false a path (inr (g_vfs_last_error v')))).

Lemma op_open path flags a v root kids : coherent a v root kids -> path_ok path ->
  vwp (vfs_open (Some path) flags) v (ends v root (fun a' r v' => a' = a /\ open_result a path flags (who v) v r v')).
Proof.
  intros Hco Hp. unfold vfs_open. apply vwp_bind, vwp_set_ok, vwp_bind.
  eapply vwp_resolve_inode; [apply coherent_error; [|exact Hco]; done | done | |].
  2: { intros kids' v' Hc' Hk Hpos Hm. pose proof (keeps_ok _ _ Hk) as Hk'. apply vwp_bind, vwp_fail_last; [done | lia |]. rewrite last_or_set by done. apply vwp_ret.
       exists a, kids'. split_and!; [apply coherent_error; [lia | done] | apply Hk' | done |]. right. split_and!; [done | apply Hk' |]. by right. }
  intros p d kids' v' Hc' Hk He Hd Hm. pose proof (keeps_ok _ _ Hk) as Hk'. cbv zeta. fold (open_flags flags). set (fl := open_flags flags).
  apply vwp_bind, vwp_get_user. rewrite (ke_who _ _ Hk'), !permission_allowed by done.
  assert (Hdeny : may_open (who v) a (ino d) fl = false ->
    vwp (vbind (vfs_set_error VFS_ERR_PERMISSION_DENIED) (fun _ => vret None)) v' (ends v root (fun a' r v' => a' = a /\ open_result a path flags (who v) v r v'))).
  { intros Hno. apply vwp_bind, vwp_set_error; [done|]. apply vwp_ret. exists a, kids'. split_and!; [by apply coherent_error | apply Hk' | done |].
    right. split_and!; [done | apply Hk' |]. left. by exists (ino d). }
  apply vwp_if; [intros E; apply Hdeny; unfold may_open; by rewrite E|]. intros E1.
  apply vwp_if; [intros E; apply Hdeny; unfold may_open; by rewrite E1, E|]. intros E2.
  apply vwp_bind, vwp_new_addr; [apply (co_fs _ _ _ _ _ _ Hc')|]. apply vwp_bind. unfold vwp at 1, put_file.
  apply vwp_bind. eapply vwp_mod; [exact Hd|]. apply vwp_bind, vwp_set_ok, vwp_ret.
  assert (Hf : files v' !! brk v' = None).
  { destruct (files v' !! brk v') eqn:E; [|done]. pose proof (co_brk _ _ _ _ _ _ Hc' (brk v') ltac:(right; by eexists)). lia. }
  exists a, kids'. split_and!; [| apply Hk' | done |].
  - apply coherent_error; [done|]. apply (coherent_refcount _ (upd_files (insert (brk v') (mkVfile (Some p) 0 fl)) (set_brk (brk v' + 1) v'))); [|done].
    destruct Hc'. constructor; try done.
    + intros q Hq. cbn in *. destruct (decide (q = brk v')) as [->|]; [lia|]. rewrite lookup_insert_ne in Hq by done. specialize (co_brk q Hq). lia.
    + intros g gl Hg. cbn in Hg. apply lookup_insert_Some in Hg as [[_ <-]|[_ Hg]]; [|by apply (co_files g gl)]. split; [|done]. exists p. split; [done | by eexists].
  - left. exists p, (ino d), (brk v'). split_and!; try done.
    + unfold may_open. fold fl. by rewrite E1, E2.
    + by rewrite <- (ke_files _ _ Hk').
    + cbn. by rewrite (ke_files _ _ Hk').
    + exists (set_refcount (u32 (dn_refcount d + 1)) d). cbn. by rewrite lookup_insert_eq.
Qed.

(** An open file and its dentry. *)
Lemma open_dentry a v root kids f fl : coherent a v root kids -> files v !! f = Some fl -> exists p d, is_open v f fl p d.
Proof. intros Hco Hf. destruct (co_files _ _ _ _ _ _ Hco f fl Hf) as [(p & Hp & [d Hd]) _]. by exists p, d. Qed.

Lemma coherent_files a v root kids g : coherent a v root kids -> (forall f fl, g (files v) !! f = Some fl -> exists fl0, files v !! f = Some fl0 /\
  vf_dentry fl = vf_dentry fl0 /\ 0 <= vf_position fl < 2 ^ 32) -> coherent a (upd_files g v) root kids.
Proof.
  intros [] Hg. constructor; try done.
  - intros q [Hq|[fl Hq]]; apply co_brk; [by left | right]. destruct (Hg q fl Hq) as (fl0 & ? & _). by eexists.
  - intros f fl Hf. destruct (Hg f fl Hf) as (fl0 & H0 & E & Hpos). split; [|done]. rewrite E. by apply (co_files f fl0).
Qed.

Lemma op_close f fl a v root kids : coherent a v root kids -> files v !! f = Some fl ->
  vwp (vfs_close (Some f)) v (ends v root (fun a' r v' => a' = a /\ r = 0 /\ files v' = delete f (files v))).
Proof.
  intros Hco Hf. destruct (open_dentry _ _ _ _ _ _ Hco Hf) as (p & d & _ & Hp & Hd). unfold vfs_close.
  apply vwp_bind. eapply vwp_read_file; [exact Hf|]. rewrite Hp. apply vwp_bind. eapply vwp_mod; [exact Hd|].
  apply vwp_bind. eapply vwp_free_file; [exact Hf|]. apply vwp_ret. exists a, kids. split_and!; try done.
  apply (coherent_files _ (upd_dents (insert p (dec_refcount d)) v)).
  - apply coherent_dents; [done | |]; (eapply same_on_insert; [exact Hd | unfold dec_refcount; by destruct (truthy _)]).
  - cbn. intros g gl [_ Hg]%lookup_delete_Some. exists gl. split_and!; try done; by apply (co_files _ _ _ _ _ _ Hco g gl).
Qed.

(** What a read returns: the bytes from the position of the file on. *)
Definition read_result a c pos (dst : list Z) size (r : Z * list Z) : Prop :=
  if is_dir (a_inode a c) then r = (if size =? 0 then 0 else -1, dst)
  else r = (readable a c pos size, splice dst 0 (file_bytes a c pos (readable a c pos size))).

Lemma wp_read_vnode a s c (fl : vfile) dst size (Q : (Z * list Z) * inode -> fsys S -> Prop) : mounted a s -> inode_range c ->
  0 <= vf_position fl < 2 ^ 32 -> 0 <= size <= zlen dst ->
  (forall r s', mounted a s' -> read_result a c (vf_position fl) dst size r -> Q (r, vnode a c) s') ->
  wp (bind (capyfs_read (opened_file fl (vnode a c)) (Some dst) size) (fun '(k, dst, nd') => ret ((k, dst), default (vnode a c) nd'))) s Q.
Proof.
  intros Hmt Hc Hpos Hsz HQ. pose proof Hmt as (Hd & Hok & Hm). apply wp_bind. unfold read_result in HQ.
  destruct (Z.eq_dec size 0) as [->|Hne].
  - unfold capyfs_read. cbn [Z.eqb default f_inode opened_file]. apply wp_ret, wp_ret. cbn [default]. apply HQ; [done|].
    destruct (is_dir _); [done|].
    assert (E : readable a c (vf_position fl) 0 = 0) by (unfold readable; lia). rewrite E.
    change (file_bytes a c (vf_position fl) 0) with (@nil Z). pose proof (zlen_nonneg dst). by rewrite splice_nil by lia.
  - replace (size =? 0) with false in HQ by lia. destruct (is_dir (a_inode a c)) eqn:Ed.
    + unfold capyfs_read. cbn [default f_inode opened_file]. replace (size =? 0) with false by lia.
      change (truthy (Z.land (i_mode (vnode a c)) VFS_MODE_DIR)) with (is_dir (a_inode a c)). rewrite Ed. apply wp_ret, wp_ret. by apply HQ.
    + eapply wp_mono; [apply (wp_read mnt count Hlay [] s a (opened_file fl (vnode a c)) (vnode a c) dst size Hd pins_free1 (fo_wf _ _ Hok)); try done; try lia|].
      intros r s' (-> & H1 & H2). apply wp_ret. cbn [default]. apply HQ; [|done]. split_and!; [done | done | congruence].
Qed.

Lemma op_read f fl p d dst size a v root kids : coherent a v root kids -> is_open v f fl p d -> 0 <= size <= zlen dst ->
  vwp (vfs_read (Some f) (Some dst) size) v (ends v root (fun a' r v' => a' = a /\ read_result a (ino d) (vf_position fl) dst size r /\
    files v' = <[f := advance r.1 fl]> (files v) /\ dents v' = dents v)).
Proof.
  intros Hco (Hf & Hp & Hd) Hsz. unfold vfs_read. apply vwp_bind. eapply vwp_read_file; [exact Hf|]. rewrite Hp.
  destruct (sh_node _ _ _ _ (co_shown _ _ _ _ _ _ Hco) p d Hd) as (E & Hr & _). destruct (co_files _ _ _ _ _ _ Hco f fl Hf) as [_ Hpos].
  apply vwp_bind. eapply vwp_on_inode_same; [exact Hd | exact E |].
  eapply wp_read_vnode; [apply (co_fs _ _ _ _ _ _ Hco) | exact Hr | exact Hpos | exact Hsz |]. intros [k dst'] s' Hs' Hres. split; [done|]. cbn [fst snd].
  apply vwp_bind. unfold vwp at 1, put_file. apply vwp_ret. exists a, kids. split_and!; try done.
  apply (coherent_files _ (set_fs s' v)); [by apply coherent_fs|]. cbn. intros g gl [[<- <-]|[_ Hg]]%lookup_insert_Some.
  - exists fl. unfold advance. destruct (0 <? k); split_and!; try done; apply u32_range || apply Hpos.
  - exists gl. split_and!; try done; by apply (co_files _ _ _ _ _ _ Hco g gl).
Qed.

(** What a write did. *)
Definition write_result a c pos (src : list Z) size k a' : Prop :=
  (is_dir (a_inode a c) = true \/ size = 0) /\ k = (if size =? 0 then 0 else -1) /\ a' = a \/
  is_dir (a_inode a c) = false /\ 0 < size /\ file_written mnt c pos src k a a' /\ 0 <= k <= size /\
    (k = 0 \/ pos + k <= MAX_FILE) /\ (k < size -> MAX_FILE <= pos + k \/ full mnt a').

Lemma vnode_written a a' c pos src k : file_written mnt c pos src k a a' -> set_i_size (d_size (a_inode a' c)) (vnode a c) = vnode a' c.
Proof.
  intros W. pose proof (fw_meta _ _ _ _ _ _ _ W) as E. unfold imeta in E. injection E as E1 _ E2 E3 E4 E5 _.
  unfold CapyFsTree.vnode, set_i_size. cbn. cbn [set_d_size d_mode d_uid d_gid d_perm] in *. by rewrite E1, E3, E4, E5.
Qed.

Lemma wp_write_vnode a s c (fl : vfile) src size (Q : Z * inode -> fsys S -> Prop) : mounted a s -> inode_range c ->
  0 <= vf_position fl < 2 ^ 32 -> 0 <= size <= zlen src -> bytes_ok src ->
  (forall k a' s', mounted a' s' -> write_result a c (vf_position fl) src size k a' -> Q (k, vnode a' c) s') ->
  wp (bind (capyfs_write (opened_file fl (vnode a c)) (Some src) size) (fun '(k, nd') => ret (k, default (vnode a c) nd'))) s Q.
Proof.
  intros Hmt Hc Hpos Hsz Hsb HQ. pose proof Hmt as (Hd & Hok & Hm). apply wp_bind.
  assert (Hsame : forall k, (is_dir (a_inode a c) = true \/ size = 0) -> k = (if size =? 0 then 0 else -1) -> Q (k, vnode a c) s).
  { intros k H1 H2. apply (HQ k a s Hmt). by left. }
  unfold capyfs_write. rewrite bool_decide_eq_false_2 by done. cbn [andb].
  destruct (Z.eqb_spec size 0) as [->|Hne].
  { apply wp_ret, wp_ret. apply Hsame; auto. }
  cbn [f_inode opened_file]. change (truthy (Z.land (i_mode (vnode a c)) VFS_MODE_DIR)) with (is_dir (a_inode a c)).
  destruct (is_dir (a_inode a c)) eqn:Ed.
  { apply wp_ret, wp_ret. apply Hsame; auto. }
  pose proof (wp_write mnt count Hlay [] s a (opened_file fl (vnode a c)) (vnode a c) src size Hd pins_free (fo_wf _ _ Hok) eq_refl Hc Ed eq_refl Hpos
    ltac:(lia) Hsb) as Hw.
  unfold capyfs_write in Hw. rewrite bool_decide_eq_false_2 in Hw by done. cbn [andb] in Hw. replace (size =? 0) with false in Hw by lia.
  cbn [f_inode opened_file] in Hw. change (truthy (Z.land (i_mode (vnode a c)) VFS_MODE_DIR)) with (is_dir (a_inode a c)) in Hw. rewrite Ed in Hw.
  eapply wp_mono; [exact Hw|]. intros r s' (k & a' & -> & H1 & H2 & W & Hk & Hkm & Hst). apply wp_ret. cbn [default i_ino CapyFsTree.vnode].
  change (i_ino (vnode a c)) with c in W. erewrite vnode_written by exact W. apply HQ.
  - split_and!; [done | | congruence]. eapply (fs_ok_written mnt); [exact Hok | exact W | done | apply (zero_range mnt count Hlay) | done].
  - right. by split_and!; try apply Hk; try done; try lia.
Qed.

Lemma op_write f fl p d src size a v root kids : coherent a v root kids -> is_open v f fl p d -> 0 <= size <= zlen src -> bytes_ok src ->
  vwp (vfs_write (Some f) (Some src) size) v (ends v root (fun a' k v' =>
    if truthy (Z.land (vf_flags fl) VFS_OPEN_WRITE) then
      write_result a (ino d) (vf_position fl) src size k a' /\ files v' = <[f := advance k fl]> (files v) /\
      (forall q dq, dents v !! q = Some dq -> exists dq', dents v' !! q = Some dq' /\ dn_parent dq' = dn_parent dq /\ ino dq' = ino dq)
    else k = -1 /\ a' = a /\ v' = v)).
Proof.
  intros Hco (Hf & Hp & Hd) Hsz Hsb. unfold vfs_write. apply vwp_bind. eapply vwp_read_file; [exact Hf|]. rewrite Hp.
  destruct (sh_node _ _ _ _ (co_shown _ _ _ _ _ _ Hco) p d Hd) as (E & Hr & _). destruct (co_files _ _ _ _ _ _ Hco f fl Hf) as [_ Hpos].
  apply vwp_bind. eapply vwp_read; [exact Hd|]. rewrite E. destruct (truthy (Z.land (vf_flags fl) VFS_OPEN_WRITE)) eqn:Efl; cbn [negb].
  2: { apply vwp_ret. exists a, kids. by split_and!. }
  apply vwp_bind. eapply vwp_on_inode; [exact Hd | exact E |].
  eapply wp_write_vnode; [apply (co_fs _ _ _ _ _ _ Hco) | exact Hr | exact Hpos | exact Hsz | exact Hsb |]. intros k a' s' Hs' Hres. cbn [fst snd].
  apply vwp_bind. unfold vwp at 1, put_file. apply vwp_ret. exists a', kids.
  assert (Hkeep : coherent a' (upd_dents (insert p (set_dn_inode (Some (vnode a' (ino d))) d)) (set_fs s' v)) root kids).
  { pose proof (co_fs _ _ _ _ _ _ Hco) as (_ & Hok & _). pose proof (co_shown _ _ _ _ _ _ Hco) as Sh. destruct Hres as [(_ & _ & ->) | (Hdir & _ & W & _)].
    - apply (coherent_change a); try done; [intros q dq Hq; by apply (sh_node _ _ _ _ Sh q) | eauto].
    - apply (coherent_change a); try done.
      + intros q dq Hq. destruct (sh_node _ _ _ _ Sh q dq Hq) as (_ & Hrq & Hu). by rewrite (fw_iused _ _ _ _ _ _ _ W).
      + intros q dq Hq Hne. apply (fw_inode _ _ _ _ _ _ _ W). intros Ei. apply Hne. by apply (sh_inj _ _ _ _ Sh q p dq d).
      + intros q dq r dr i nm _ _ Hl. exists i. eapply written_lists; [exact Hok | exact W | done | exact Hl]. }
  split; [| split; [done | split; [exact Hres | split; [done|]]]].
  - apply (coherent_files _ (upd_dents (insert p (set_dn_inode (Some (vnode a' (ino d))) d)) (set_fs s' v))); [done|].
    cbn. intros g gl [[<- <-]|[_ Hg]]%lookup_insert_Some.
    + exists fl. unfold advance. destruct (0 <? k); split_and!; try done; apply u32_range || apply Hpos.
    + exists gl. split_and!; try done; by apply (co_files _ _ _ _ _ _ Hco g gl).
  - intros q dq Hq. cbn. destruct (decide (q = p)) as [->|]; [rewrite lookup_insert_eq | rewrite lookup_insert_ne by done; by exists dq].
    rewrite Hd in Hq. injection Hq as <-. by eexists.
Qed.

(** ** Metadata *)
Definition set_meta_result a path m (r : Z) a' : Prop :=
  (exists c, r = 0 /\ path_means false a path (inl (c, [])) /\ a' = set_inode c (with_meta m (a_inode a c)) a) \/
  (exists e, 0 < e /\ r = - e /\ path_means false a path (inr e) /\ a' = a).

Lemma op_set_metadata path m a v root kids : coherent a v root kids -> path_ok path -> meta_ok (Some m) ->
  vwp (vfs_set_metadata (Some path) (Some m)) v (ends v root (fun a' r v' => files v' = files v /\ set_meta_result a path m r a')).
Proof.
  intros Hco Hp Hm. unfold vfs_set_metadata. apply vwp_bind, vwp_set_ok, vwp_bind.
  eapply vwp_resolve_inode; [apply coherent_error; [|exact Hco]; done | done | |].
  2: { intros kids' v' Hc' Hk Hpos Hmn. pose proof (keeps_ok _ _ Hk) as Hk'. apply vwp_fail_last; [done | lia |]. rewrite last_or_set by done.
       exists a, kids'. split_and!; [apply coherent_error; [lia | done] | apply Hk' | apply Hk' |]. right. by eexists. }
  intros p d kids' v' Hc' Hk He Hd Hmn. pose proof (keeps_ok _ _ Hk) as Hk'. pose proof (co_shown _ _ _ _ _ _ Hc') as Sh.
  destruct (sh_node _ _ _ _ Sh p d Hd) as (Ei & Hr & Hu). pose proof (co_fs _ _ _ _ _ _ Hc') as (Hdsk & Hok & Hmem).
  apply vwp_bind. eapply vwp_on_inode; [exact Hd | exact Ei |].
  eapply wp_mono; [apply (wp_set_metadata mnt count Hlay [] a (fs v') (vnode a (ino d)) m Hdsk pins_free1 Hok Hr eq_refl Hm)|].
  intros r s' (-> & Hm' & H1 & H2). cbn [fst snd]. change (i_ino (vnode a (ino d))) with (ino d) in H1, H2. cbv zeta in H1, H2.
  set (a' := set_inode (ino d) (with_meta m (a_inode a (ino d))) a) in *.
  assert (Ev : set_i_meta (meta_uid m) (meta_gid m) (meta_perm m) (vnode a (ino d)) = vnode a' (ino d)).
  { unfold CapyFsTree.vnode, a'. by rewrite a_inode_set. }
  rewrite Ev. set (d' := set_dn_inode (Some (vnode a' (ino d))) d).
  assert (Hc2 : coherent a' (upd_dents (insert p d') (set_fs s' v')) root kids').
  { apply (coherent_change a); try done.
    - split_and!; [done | done | congruence].
    - intros q dq Hq. by apply (sh_node _ _ _ _ Sh q dq Hq).
    - intros q dq Hq Hne. unfold a'. rewrite a_inode_other; [done|]. intros E. apply Hne. by apply (sh_inj _ _ _ _ Sh q p dq d).
    - intros q dq r dr i nm _ _ Hl. exists i. by apply meta_lists. }
  apply vwp_bind. eapply (vwp_mod _ p d'); [cbn; by rewrite lookup_insert_eq|]. cbn [negb Z.eqb]. apply vwp_bind, vwp_set_ok, vwp_ret.
  exists a', kids'. split_and!; [| apply Hk' | apply Hk' | left; by exists (ino d)]. apply coherent_error; [done|].
  apply (coherent_dents _ _ _ _ _ Hc2); (eapply same_on_insert; [cbn; by rewrite lookup_insert_eq | unfold dec_refcount; by destruct (truthy _)]).
Qed.

(** ** Listing *)
Definition listdir_result {C} a path u (cb : list Z -> Z -> C -> Z * C) ctx (r : Z * C) : Prop :=
  (exists c, path_means false a path (inl (c, [])) /\
    (if negb (is_dir (a_inode a c)) then r = (- VFS_ERR_NOT_DIRECTORY, ctx)
     else if negb (allowed u (vnode a c) (Z.lor VFS_PERM_READ VFS_PERM_EXEC)) then r = (- VFS_ERR_PERMISSION_DENIED, ctx)
     else r = (0, visit cb (shown_list a c) ctx))) \/
  (exists e, 0 < e /\ r = (- e, ctx) /\ path_means false a path (inr e)).

Lemma wp_iterate_vnode {C B} a s c (cb : list Z -> Z -> C -> Z * C) ctx (g : Z -> C -> B) (Q : B * inode -> fsys S -> Prop) : mounted a s ->
  inode_range c -> is_dir (a_inode a c) = true ->
  (forall s', mounted a s' -> Q (g 0 (visit cb (shown_list a c) ctx), vnode a c) s') ->
  wp (bind (capyfs_iterate (vnode a c) cb ctx) (fun '(rc, ctx, nd) => ret (g rc ctx, nd))) s Q.
Proof.
  intros (Hd & Hok & Hm) Hc Hdir HQ. apply wp_bind.
  eapply wp_mono; [apply (wp_iterate mnt count Hlay [] a s (vnode a c) cb ctx Hd pins_free1 Hok (handle_vnode mnt a c Hc) Hdir)|].
  intros r s' (H1 & H2 & ->). apply wp_ret. apply HQ. split_and!; [done | done | congruence].
Qed.

Lemma op_listdir {C} path (cb : list Z -> Z -> C -> Z * C) ctx a v root kids : coherent a v root kids -> path_ok path ->
  vwp (vfs_listdir (Some path) cb ctx) v (ends v root (fun a' r v' => a' = a /\ stays_open v v' /\ listdir_result a path (who v) cb ctx r /\
    (r.1 < 0 -> g_vfs_last_error v' = - r.1))).
Proof.
  intros Hco Hp. unfold vfs_listdir. cbv zeta. apply vwp_bind, vwp_set_ok, vwp_bind.
  eapply vwp_resolve_inode; [apply coherent_error; [|exact Hco]; done | done | |].
  2: { intros kids' v' Hc' Hk Hpos Hmn. pose proof (keeps_ok _ _ Hk) as Hk'. apply vwp_bind, vwp_fail_last; [done | lia |]. rewrite last_or_set by done. apply vwp_ret.
       exists a, kids'. split_and!; [apply coherent_error; [lia | done] | apply Hk' | done | by apply (stays_open_keeps v v') | right; by eexists | cbn; lia]. }
  intros p d kids' v' Hc' Hk He Hd Hmn. pose proof (keeps_ok _ _ Hk) as Hk'. destruct (sh_node _ _ _ _ (co_shown _ _ _ _ _ _ Hc') p d Hd) as (Ei & Hr & Hu).
  assert (Hfail : forall e, 0 < e -> listdir_result a path (who v) cb ctx (- e, ctx) ->
    vwp (vbind (vfs_fail e) (fun e => vret (e, ctx))) v' (ends v root (fun a' r v' => a' = a /\ stays_open v v' /\ listdir_result a path (who v) cb ctx r /\
      (r.1 < 0 -> g_vfs_last_error v' = - r.1)))).
  { intros e Hpos Hres. apply vwp_bind, vwp_fail; [lia|]. apply vwp_ret. exists a, kids'.
    split_and!; [apply coherent_error; [lia | done] | apply Hk' | done | by apply (stays_open_keeps v v') | done | cbn; lia]. }
  change (is_dir_inode (vnode a (ino d))) with (is_dir (a_inode a (ino d))). destruct (is_dir (a_inode a (ino d))) eqn:Ed; cbn [negb].
  2: { apply Hfail; [done|]. left. exists (ino d). by rewrite Ed. }
  apply vwp_bind, vwp_get_user. rewrite (ke_who _ _ Hk'). rewrite !permission_allowed by done. destruct (allowed (who v) _ (Z.lor _ _)) eqn:Ep; cbn [negb].
  2: { apply Hfail; [done|]. left. exists (ino d). by rewrite Ed, Ep. }
  apply vwp_bind. eapply vwp_on_inode_same; [exact Hd | exact Ei |].
  eapply (wp_iterate_vnode a (fs v') (ino d) cb ctx (fun rc cx => (rc, cx))); [apply (co_fs _ _ _ _ _ _ Hc') | exact Hr | done |]. intros s' Hs'. split; [done|]. cbn [fst snd negb Z.eqb].
  apply vwp_bind, vwp_set_ok, vwp_ret. exists a, kids'. split_and!; [apply coherent_error; [done | by apply coherent_fs] | apply Hk' | done | by apply (stays_open_keeps v v') | | cbn; lia].
  left. exists (ino d). by rewrite Ed, Ep.
Qed.
End ops.
