(* ===== verification/VfsNames.v ===== *)
(** * The operations that change the name space

    [vfs_create], [vfs_unlink], [vfs_rmdir], [vfs_rename] and [vfs_rmdir_recursive]: the
    disk they leave and the return value on every branch, and that the cache stays
    [coherent]. *)
From stdpp Require Import strings.
From S2P Require Import Prelude Buffers CapyFs CapyFsDisk CapyFsFile CapyFsDir CapyFsTree CapyFsMove CapyFsFormat CapyFsSystem Vfs VfsCache VfsResolve VfsOps.
Local Open Scope capy_scope.

#[local] Opaque le_bytes.

Definition user_ok (u : option user_record) : Prop :=
  match u with Some u => 0 <= ur_uid u < 2 ^ 32 /\ 0 <= ur_gid u < 2 ^ 32 | None => True end.

(** The metadata a new inode gets. *)
Definition new_meta (u : option user_record) (mode : Z) (meta : option vfs_metadata) : vfs_metadata :=
  match meta, u with
  | Some m, _ => m
  | None, Some u => mkMeta (ur_uid u) (ur_gid u) (if truthy (Z.land mode VFS_MODE_DIR) then 493 else 420)
  | None, None => mkMeta 0 0 (if truthy (Z.land mode VFS_MODE_DIR) then 493 else 420)
  end.

Lemma new_meta_is u mode meta : match meta with Some m => m | None => fill_default_metadata u mode end = new_meta u mode meta.
Proof. by destruct meta, u. Qed.

Lemma new_meta_ok u mode meta : user_ok u -> meta_ok meta -> meta_ok (Some (new_meta u mode meta)).
Proof.
  intros Hu Hm. destruct meta as [m|]; [done|]. unfold new_meta.
  destruct u as [u|]; destruct (truthy _); cbn in *; split_and!; lia.
Qed.

Lemma name_ok_ne name : name_ok name -> name <> [].
Proof. intros [_ H] ->. change (zlen []) with 0 in H. lia. Qed.

Section names.
Context {S : Type} `{!Buffers S} (mnt : capyfs_mount) (count : Z) `{!BufferSpec (S := S) (m_dev mnt) count}.
Context (Hlay : layout_ok (super mnt) count).
Implicit Types (v : vfs S) (a : adisk) (D : gmap Z dentry) (p q root i j c x dir : Z) (d : dentry) (name : list Z) (path : list Z) (kids : Z -> list Z)
  (u : option user_record).
Local Abbreviation lists := (lists mnt).
Local Abbreviation fs_ok := (fs_ok mnt).
Local Abbreviation vnode := (vnode mnt).
Local Abbreviation inode_range := (inode_range mnt).
Local Abbreviation mounted := (mounted mnt count).
Local Abbreviation shown_by := (shown_by mnt).
Local Abbreviation coherent := (coherent mnt count).
Local Abbreviation resolves := (resolves mnt).
Local Abbreviation path_means := (path_means mnt).
Local Abbreviation ends := (ends mnt count).
Local Abbreviation created := (created mnt).
Local Abbreviation removed := (removed mnt).
Local Abbreviation unchanged := (unchanged mnt).

Lemma means_split a path dir name : path_ok path -> path_means true a path (inl (dir, name)) ->
  (name = [] /\ path_means false a path (inl (dir, []))) \/
  (name_ok name /\ ((exists i c, lists a dir i name c /\ path_means false a path (inl (c, []))) \/
                    ((forall i c, ~ lists a dir i name c) /\ path_means false a path (inr VFS_ERR_NOT_FOUND)))).
Proof.
  intros Hp. unfold VfsOps.path_means. destruct path as [|ch rest]; [done|]. destruct (ch =? SLASH); [|done]. intros Hr.
  destruct (resolves_last mnt _ _ _ _ _ Hr (components_chars _ Hp)) as [[-> E]|H]; [left | by right].
  split; [done|]. rewrite E in *. inversion Hr; subst; constructor.
Qed.

(** The same dentry later. *)
Lemma keeps_dentry v v' p d : keeps v v' -> dents v !! p = Some d -> exists d', dents v' !! p = Some d' /\ ino d' = ino d /\
  dn_name d' = dn_name d /\ dn_parent d' = dn_parent d.
Proof.
  intros K Hd. destruct (ke_dents _ _ K p d Hd) as (d' & Hd' & E & _). exists d'. split; [done|]. split; [by apply ino_labels|].
  unfold labels in E. by injection E as -> -> _.
Qed.

(** ** Creation *)
Lemma created_coherent a a' v root kids p d s dir name c dk : coherent a v root kids -> dents v !! p = Some d -> ino d = dir ->
  created a a' dir name c dk -> mounted a' s ->
  coherent a' (upd_dents (insert p (set_dn_inode (Some (vnode a' dir)) d)) (set_fs s v)) root kids /\
  (forall q dq, dents v !! q = Some dq -> ino dq <> c).
Proof.
  intros Hco Hd <- Hcr Hs. pose proof (co_shown _ _ _ _ _ _ Hco) as Sh. destruct (cr_fresh _ _ _ _ _ _ _ Hcr) as [Hc Hcu].
  assert (Hno : forall q dq, dents v !! q = Some dq -> ino dq <> c).
  { intros q dq Hq E. destruct (sh_node _ _ _ _ Sh q dq Hq) as (_ & _ & Hu). congruence. }
  split; [|done]. apply (coherent_change mnt count a); try done.
  - intros q dq Hq. destruct (sh_node _ _ _ _ Sh q dq Hq) as (_ & Hr & Hu). rewrite (cr_iused _ _ _ _ _ _ _ Hcr), Hu by done. apply orb_true_r.
  - intros q dq Hq Hne. apply (cr_other _ _ _ _ _ _ _ Hcr); [|by eapply Hno]. intros E. apply Hne. by apply (sh_inj _ _ _ _ Sh q p dq d).
  - intros q dq r dr i nm Hq Hr Hl. destruct (Z.eq_dec (ino dq) (ino d)) as [E|Hne].
    + rewrite E in *. apply (cr_listed _ _ _ _ _ _ _ Hcr). right. by exists i.
    + exists i. apply (cr_lists _ _ _ _ _ _ _ Hcr); [done | by eapply Hno | done].
Qed.

(** The new name is found. *)
Lemma resolves_listed a a' j ws dir name i c : fs_ok a -> (forall j i w x, a_iused a j = true -> lists a j i w x -> exists i', lists a' j i' w x) ->
  lists a' dir i name c -> resolves true a j ws (inl (dir, name)) -> name <> [] -> a_iused a j = true -> resolves false a' j ws (inl (c, [])).
Proof.
  intros Hok Hkept Hl0 H Hn. remember (inl (dir, name)) as r eqn:Er. induction H as [j | | j w Hw Hpo | |j w ws k x r Hw Hpo Hx Hr IH]; try done.
  - injection Er as -> <-. done.
  - intros _. injection Er as -> ->. eapply re_step; [done | done | exact Hl0 | constructor].
  - intros Hu. destruct (Hkept _ _ _ _ Hu Hx) as [k' Hx']. eapply re_step; [done | done | exact Hx' |]. apply IH; [done|]. by apply (fo_child _ _ Hok _ _ _ _ Hx).
Qed.

Lemma means_created a a' path dir name c dk : fs_ok a -> created a a' dir name c dk -> path_means true a path (inl (dir, name)) -> name_ok name ->
  path_means false a' path (inl (c, [])).
Proof.
  intros Hok Hcr. unfold VfsOps.path_means. destruct path as [|ch rest]; [done|]. destruct (ch =? SLASH); [|done]. intros Hr Hn.
  destruct (proj2 (cr_listed _ _ _ _ _ _ _ Hcr name c) (or_introl (conj eq_refl eq_refl))) as [i Hl].
  eapply (resolves_listed a a'); [exact Hok | | exact Hl | exact Hr | by apply name_ok_ne | apply Hok].
  intros j k w x Hu Hx. destruct (Z.eq_dec j dir) as [->|Hjd]; [apply (cr_listed _ _ _ _ _ _ _ Hcr); right; by exists k|].
  exists k. apply (cr_lists _ _ _ _ _ _ _ Hcr); [done | | done]. intros ->. destruct (cr_fresh _ _ _ _ _ _ _ Hcr). congruence.
Qed.

Definition no_room a a' dir : Prop :=
  is_dir (a_inode a dir) = false \/ (forall j, inode_range j -> a_iused a j = true) \/ MAX_ENTRIES <= dcount (a_inode a dir) \/ full mnt a'.

(** What [vfs_create] does: a new inode, or an error and nothing new. *)
Definition vfs_create_result u a path mode meta (r : Z) a' : Prop :=
  (exists dir name c, r = 0 /\ path_means true a path (inl (dir, name)) /\ name_ok name /\
     allowed u (vnode a dir) VFS_PERM_WRITE = true /\ path_means false a path (inr VFS_ERR_NOT_FOUND) /\
     created a a' dir name c (new_disk_inode mode (Some (new_meta u mode meta))) /\ path_means false a' path (inl (c, []))) \/
  (unchanged a a' /\
    ((exists e, 0 < e /\ r = - e /\ path_means true a path (inr e)) \/
     (exists dir, r = - VFS_ERR_INVALID_PATH /\ path_means true a path (inl (dir, []))) \/
     (exists dir name, path_means true a path (inl (dir, name)) /\ name_ok name /\
       ((exists i c, r = - VFS_ERR_ALREADY_EXISTS /\ lists a dir i name c) \/
        ((forall i c, ~ lists a dir i name c) /\
         ((r = - VFS_ERR_PERMISSION_DENIED /\ allowed u (vnode a dir) VFS_PERM_WRITE = false) \/
          (r = - VFS_ERR_IO /\ allowed u (vnode a dir) VFS_PERM_WRITE = true /\ no_room a a' dir))))))).

Lemma wp_create_vnode a s dir name mode m (Q : Z * option inode * inode -> fsys S -> Prop) : mounted a s -> inode_range dir -> a_iused a dir = true ->
  name_ok name -> 0 <= mode < 2 ^ 16 -> meta_ok (Some m) -> (forall i c, ~ lists a dir i name c) ->
  (forall c a' s', created a a' dir name c (new_disk_inode mode (Some m)) -> mounted a' s' -> Q (0, Some (vnode a' c), vnode a' dir) s') ->
  (forall a' s', unchanged a a' -> no_room a a' dir -> mounted a' s' -> Q (-1, None, vnode a dir) s') ->
  wp (capyfs_create_pub (vnode a dir) name mode (Some m)) s Q.
Proof.
  intros Hmt Hdir Hu Hn Hmode Hm Hno HS HN. pose proof Hmt as (Hd & Hok & Hmem). unfold capyfs_create_pub. destruct (is_dir (a_inode a dir)) eqn:Ed.
  - eapply wp_mono; [apply (wp_create mnt count Hlay [] a s (vnode a dir) name mode (Some m) Hd pins_free Hok (handle_vnode mnt a dir Hdir) Ed Hu Hn Hmode Hm Hmem)|].
    intros r s' (a' & H1 & H2 & [(c & -> & _ & Hcr) | (-> & Hun & Hwhy)]).
    + change (i_ino (vnode a dir)) with dir in Hcr. replace (resized a' (vnode a dir)) with (vnode a' dir); [apply HS; [done|]; split_and!; [done | apply Hcr | done]|].
      destruct (cr_dir _ _ _ _ _ _ _ Hcr) as [E1 E2]. unfold owner in E2. injection E2 as E2 E3 E4. unfold CapyFsTree.vnode, resized. cbn. by rewrite E1, E2, E3, E4.
    + apply (HN a'); [done | | split_and!; [done | apply Hun | done]]. change (i_ino (vnode a dir)) with dir in Hwhy. right.
      destruct Hwhy as [(i & x & Hx)|Hwhy]; [by apply Hno in Hx | done].
  - unfold capyfs_create. change (is_dir_inode (vnode a dir)) with (is_dir (a_inode a dir)). rewrite Ed. cbn [negb].
    apply wp_ret, (HN a); [by apply unchanged_refl | by left | done].
Qed.

Lemma op_create path mode meta a v root kids : coherent a v root kids -> path_ok path -> 0 <= mode < 2 ^ 16 -> meta_ok meta -> user_ok (who v) ->
  vwp (vfs_create (Some path) mode meta) v (ends v root (fun a' r v' => files v' = files v /\ vfs_create_result (who v) a path mode meta r a')).
Proof.
  intros Hco Hp Hmode Hmeta Huser. unfold vfs_create. apply vwp_bind, vwp_set_ok, vwp_bind.
  eapply vwp_mono; [eapply (vwp_resolve mnt count Hlay true); [apply coherent_error; [|exact Hco]; done | exact Hp]|].
  intros [[p|] name] v1 (kids1 & Hc1 & Hk1 & Hf1 & He1); unfold found in Hf1; cbn [fst snd] in Hf1; pose proof (keeps_ok _ _ Hk1) as Hk1'.
  2: { destruct Hf1 as [Hm Hpos]. apply vwp_fail_last; [done | lia |]. rewrite last_or_set by done. exists a, kids1.
       split_and!; [apply coherent_error; [lia | done] | apply Hk1' | apply Hk1' |]. right. split; [apply unchanged_refl, (co_fs _ _ _ _ _ _ Hco)|]. left. by eexists. }
  destruct Hf1 as (d & Hd & Hm). specialize (He1 ltac:(by eexists)). cbn [g_vfs_last_error set_last_error] in He1.
  assert (Hun : unchanged a a) by (apply unchanged_refl, (co_fs _ _ _ _ _ _ Hco)).
  destruct (means_split _ _ _ _ Hp Hm) as [[-> _] | [Hn Hcase]].
  { apply vwp_fail; [done|]. exists a, kids1. split_and!; [by apply coherent_error | apply Hk1' | apply Hk1' |]. right. split; [done|]. right. left. by exists (ino d). }
  assert (Ename : exists ch rest, name = ch :: rest) by (pose proof (name_ok_ne _ Hn); destruct name; [done | by eexists _, _]).
  destruct Ename as (ch & rest & Ename). rewrite Ename. rewrite <- Ename.
  apply vwp_bind. eapply vwp_mono; [eapply (vwp_resolve mnt count Hlay false); [exact Hc1 | exact Hp]|].
  assert (Hok : fs_ok a) by apply (co_fs _ _ _ _ _ _ Hco).
  assert (Hret : forall v2 kids2 r, coherent a v2 root kids2 -> keeps v v2 -> (vfs_create_result (who v) a path mode meta r a) ->
     ends v root (fun a' r v' => files v' = files v /\ vfs_create_result (who v) a path mode meta r a') r v2).
  { intros v2 kids2 r Hc Hk Hr. exists a, kids2. split_and!; [done | apply Hk | apply Hk | done]. }
  intros [[x|] l2] v2 (kids2 & Hc2 & Hk2 & Hf2 & He2); unfold found in Hf2; cbn [fst snd] in Hf2; pose proof (vkeeps_trans _ _ _ Hk1' Hk2) as Hk.
  { destruct Hf2 as (dx & Hdx & Hmx). apply vwp_fail; [done|]. eapply Hret; [apply coherent_error; [|exact Hc2]; done | by apply keeps_error |].
    right. split; [done|]. right. right. exists (ino d), name. split_and!; [done | done |]. left.
    destruct Hcase as [(i & c & Hl & _)|[_ Hno]]; [by exists i, c|]. pose proof (path_means_fun mnt _ _ _ _ _ Hok Hmx Hno). done. }
  destruct Hf2 as [Hm2 Hpos].
  destruct Hcase as [(i & c & Hl & Hyes)|[Hno Hnf]]; [pose proof (path_means_fun mnt _ _ _ _ _ Hok Hm2 Hyes); done|].
  pose proof (path_means_fun mnt _ _ _ _ _ Hok Hm2 Hnf) as E. injection E as E.
  apply vwp_bind, vwp_get_error. rewrite E. cbn [negb Z.eqb VFS_ERR_NOT_FOUND Pos.eqb].
  destruct (keeps_dentry _ _ _ _ Hk2 Hd) as (d2 & Hd2 & Ei & _). rewrite <- Ei in Hm, Hno. clear Hd Ei d.
  destruct (sh_node _ _ _ _ (co_shown _ _ _ _ _ _ Hc2) p d2 Hd2) as (Ed & Hr & Hu).
  apply vwp_bind. eapply vwp_read; [exact Hd2|]. rewrite Ed. apply vwp_bind, vwp_get_user. rewrite (ke_who _ _ Hk).
  rewrite !permission_allowed by done. destruct (allowed (who v) (vnode a (ino d2)) VFS_PERM_WRITE) eqn:Eperm; cbn [negb].
  2: { apply vwp_fail; [done|]. eapply Hret; [apply coherent_error; [|exact Hc2]; done | by apply keeps_error |].
       right. split; [done|]. right. right. exists (ino d2), name. split_and!; [done | done |]. right. split; [done|]. by left. }
  cbv zeta. rewrite new_meta_is. apply vwp_bind. eapply vwp_on_inode; [exact Hd2 | exact Ed |].
  eapply wp_create_vnode; [apply (co_fs _ _ _ _ _ _ Hc2) | exact Hr | exact Hu | exact Hn | exact Hmode | by apply new_meta_ok | exact Hno | |].
  2: { intros a' s' Hun' Hwhy Hs'. cbn [fst snd]. apply vwp_fail; [done|].
       replace (set_dn_inode (Some (vnode a (ino d2))) d2) with d2 by (rewrite <- Ed; by destruct d2). rewrite (upd_dents_same (set_fs s' v2)) by done.
       exists a', kids2. split_and!; [|apply Hk | apply Hk |].
       - apply coherent_error; [done|]. pose proof (co_shown _ _ _ _ _ _ Hc2) as Sh. apply (coherent_change_same mnt count a); try done.
         + intros q dq Hq. destruct (sh_node _ _ _ _ Sh q dq Hq) as (_ & Hrq & Huq). by rewrite (un_iused _ _ _ Hun').
         + intros q dq Hq. destruct (sh_node _ _ _ _ Sh q dq Hq) as (_ & Hrq & Huq). by apply (un_inode _ _ _ Hun').
         + intros q dq r dr i nm Hq _ Hl. exists i. destruct (sh_node _ _ _ _ Sh q dq Hq) as (_ & Hrq & Huq). by eapply unchanged_lists.
       - right. split; [done|]. right. right. exists (ino d2), name. split_and!; [done | done |]. right. split; [done|]. by right. }
  intros c a' s' Hcr Hs'. cbn [fst snd]. cbn [negb Z.eqb].
  destruct (created_coherent a a' v2 root kids2 p d2 s' _ name c _ Hc2 Hd2 eq_refl Hcr Hs') as [Hc3 Hfresh].
  destruct (proj2 (cr_listed _ _ _ _ _ _ _ Hcr name c) (or_introl (conj eq_refl eq_refl))) as [i Hl].
  eapply (vwp_add_dentry mnt count a' _ root kids2 p _ i name c (fun child => match child with
    | None => vfs_fail VFS_ERR_NO_MEMORY | Some _ => vbind vfs_set_ok (fun _ => vret 0) end)); [exact Hc3 | cbn; by rewrite lookup_insert_eq | exact Hl | exact Hn | |].
  { cbn. intros q dq [[<- <-]|[_ Hq]]%lookup_insert_Some; [|by apply (Hfresh q)]. by apply (Hfresh p d2). }
  intros p3 d3 kids3 v3 Hc4 Hk4 _ _ _. apply vwp_bind, vwp_set_ok, vwp_ret. exists a', kids3.
  split_and!; [by apply coherent_error | rewrite <- (ke_who _ _ Hk); apply Hk4 | rewrite <- (ke_files _ _ Hk); apply Hk4 |].
  left. exists (ino d2), name, c. split_and!; try done. by eapply means_created.
Qed.

(** ** Removal *)
Lemma shown_drop a a' root D D1 p d q dq i0 name : fs_ok a -> shown_by a root D -> D !! p = Some d -> D !! q = Some dq -> p <> root ->
  lists a (ino dq) i0 name (ino d) -> removed a a' (ino dq) name (ino d) -> same_on labels D D1 -> shown_by a' root (delete p D1).
Proof.
  intros Hok Sh Hp Hq Hpr Hl0 R Hlab. pose proof (shown_same _ _ _ _ _ Hlab Sh) as Sh1.
  destruct (same_on_some _ _ _ _ _ Hlab Hp) as (d1 & Hd1 & E1). apply ino_labels in E1.
  assert (Hne : forall x dx, D1 !! x = Some dx -> x <> p -> ino dx <> ino d).
  { intros x dx Hx Hxp E. apply Hxp. apply (sh_inj _ _ _ _ Sh1 x p dx d1); try done. congruence. }
  constructor.
  - destruct (sh_root _ _ _ _ Sh1) as (d0 & Hd0 & E). exists d0. by rewrite lookup_delete_ne.
  - intros x dx [Hxp Hx]%lookup_delete_Some. destruct (sh_node _ _ _ _ Sh1 x dx Hx) as (E & Hr & Hu). pose proof (Hne x dx Hx ltac:(congruence)) as Hi.
    split; [|split; [exact Hr|]].
    + rewrite E. unfold CapyFsTree.vnode. by rewrite (rm_inode _ _ _ _ _ _ R).
    + rewrite (rm_iused _ _ _ _ _ _ R), Hu by done. by replace (ino dx =? ino d) with false by lia.
  - intros x dx r dr [Hxp Hx]%lookup_delete_Some Hpar [Hrp Hr]%lookup_delete_Some.
    destruct (sh_link _ _ _ _ Sh1 x dx r dr Hx Hpar Hr) as (Hn & i & Hl). split; [done|].
    pose proof (Hne x dx Hx ltac:(congruence)) as Hi. pose proof (Hne r dr Hr ltac:(congruence)) as Hj.
    destruct (Z.eq_dec (ino dr) (ino dq)) as [E|Hd].
    + rewrite E in *. apply (rm_listed _ _ _ _ _ _ R). split; [|by exists i]. intros En. rewrite En in Hl.
      destruct (fo_unique _ _ Hok _ _ _ _ _ _ _ _ Hl Hl0 ltac:(by right)) as [_ ->]. by destruct (lists_fun mnt _ _ _ _ _ _ _ Hl Hl0).
    + exists i. by apply (rm_lists _ _ _ _ _ _ R).
  - intros x y dx dy [_ Hx]%lookup_delete_Some [_ Hy]%lookup_delete_Some. by apply (sh_inj _ _ _ _ Sh1 x y dx dy).
Qed.
Lemma vwp_free_leaf v p d (Q : unit -> vfs S -> Prop) : dents v !! p = Some d -> dn_first_child d = None -> Q tt (upd_dents (delete p) v) ->
  vwp (dentry_free_tree (Some p)) v Q.
Proof.
  intros Hd Hf HQ. unfold dentry_free_tree. apply vwp_bind. unfold vwp at 1, dent_fuel.
  replace (2 * Datatypes.S (size (dents v)))%nat with (Datatypes.S (Datatypes.S (2 * size (dents v)))) by lia. cbn [free_tree].
  apply vwp_bind. eapply vwp_read; [exact Hd|]. rewrite Hf. cbn [free_children]. apply vwp_bind, vwp_ret. by eapply vwp_free.
Qed.

(** The child of that name is the dentry itself. *)
Lemma named_self a root D kids P dP p d c dc : fs_ok a -> tree root D kids -> shown_by a root D -> D !! P = Some dP -> D !! p = Some d ->
  dn_parent d = Some P -> c ∈ kids P -> D !! c = Some dc -> dn_name dc = dn_name d -> c = p.
Proof.
  intros Hok T Sh HP Hp Hpar Hc Hdc En. destruct (kid_entry _ _ _ _ _ _ _ _ T Sh HP Hc) as (dc' & i & Hdc' & _ & _ & Hl & _).
  rewrite Hdc in Hdc'. injection Hdc' as <-. destruct (sh_link _ _ _ _ Sh p d P dP Hp Hpar HP) as (_ & k & Hk). rewrite En in Hl.
  destruct (fo_unique _ _ Hok _ _ _ _ _ _ _ _ Hl Hk ltac:(by right)) as [_ ->]. destruct (lists_fun mnt _ _ _ _ _ _ _ Hl Hk) as [_ E].
  by apply (sh_inj _ _ _ _ Sh c p dc d).
Qed.

Lemma vwp_detach_self v root kids P dP p d (Q : option Z -> vfs S -> Prop) : tree root (dents v) kids ->
  dents v !! P = Some dP -> dents v !! p = Some d -> dn_parent d = Some P ->
  (forall c dc, c ∈ kids P -> dents v !! c = Some dc -> dn_name dc = dn_name d -> c = p) ->
  (forall l1 l2, kids P = l1 ++ p :: l2 -> Q (Some p) (upd_dents (fun D => unlinked D P (last l1) p d) v)) ->
  vwp (dentry_detach_child (Some P) (dn_name d)) v Q.
Proof.
  intros T HP Hp Hpar Hself HQ. unfold dentry_detach_child. apply vwp_bind. eapply vwp_read; [exact HP|].
  apply vwp_bind. unfold vwp at 1, dent_fuel. pose proof (tr_kids _ _ _ T P dP HP) as Hch. pose proof (chain_size _ _ _ Hch) as Hsz.
  eapply vwp_detach_loop; [exact Hch | lia | by eexists | done | |].
  - intros l1 c l2 dc Hk Hdc En _. assert (c = p) as ->.
    { apply (Hself c dc); try done. rewrite Hk. apply elem_of_app. right. left. }
    rewrite Hp in Hdc. injection Hdc as <-. specialize (HQ l1 l2 Hk). by destruct (last l1).
  - intros Hno. exfalso. assert (Hpr : p <> root).
    { intros ->. destruct (tr_root _ _ _ T) as (d0 & Hd0 & E0). congruence. }
    destruct (tr_up _ _ _ T p d Hp Hpr) as (q & Hq & _ & Hin). rewrite Hpar in Hq. injection Hq as <-. by apply (Hno p d Hin Hp).
Qed.

(** A dentry without children leaves the tree and is freed, open or not. *)
Lemma vwp_unlinked a v root kids p d P dP i s (Q : Z -> vfs S -> Prop) : coherent a v root kids -> dents v !! p = Some d -> dn_parent d = Some P ->
  dents v !! P = Some dP -> lists a (ino dP) i (dn_name d) (ino d) -> (forall k nm x, ~ lists a (ino d) k nm x) ->
  (forall l1 l2, kids P = l1 ++ p :: l2 -> kids p = [] -> p <> root ->
     Q 0 (set_last_error VFS_OK (upd_dents (fun D => delete p (unlinked D P (last l1) p d)) (set_fs s v)))) -> vwp (drop_dentry P p) (set_fs s v) Q.
Proof.
  intros [Hroot T Sh Hfs Hbrk Hfiles He] Hp Hpar HP Hl Hleaf HQ. pose proof Hfs as (_ & Hok & _).
  assert (Hpr : p <> root).
  { intros ->. destruct (tr_root _ _ _ T) as (d0 & Hd0 & E0). congruence. }
  assert (Hkids : kids p = []).
  { destruct (kids p) as [|c l] eqn:E; [done|]. destruct (kid_entry mnt a root (dents v) kids p d c T Sh Hp) as (dc & k & _ & _ & _ & Hk & _); [rewrite E; left|].
    by apply Hleaf in Hk. }
  unfold drop_dentry. apply vwp_bind. eapply vwp_read; [exact Hp|]. apply vwp_bind.
  eapply (vwp_detach_self (set_fs s v) root kids P dP p d); try done.
  { intros c dc Hc Hdc En. by apply (named_self a root (dents v) kids P dP p d c dc). }
  intros l1 l2 Hk. specialize (HQ l1 l2 Hk Hkids Hpr).
  destruct (unlinked_spec root (dents v) kids P dP p d l1 l2 T HP Hk Hp) as (_ & Hall & _). destruct (Hall p d Hp) as (d1 & Hd1 & Hf1 & _).
  assert (HpP : p <> P).
  { intros <-. rewrite Hkids in Hk. by destruct l1. }
  assert (Hfc : dn_first_child d1 = None).
  { pose proof (tr_kids _ _ _ T p d Hp) as Hch. rewrite Hkids in Hch. rewrite (Hf1 HpP). exact Hch. }
  apply vwp_bind. eapply vwp_free_leaf; [exact Hd1 | exact Hfc |]. by apply vwp_bind, vwp_set_ok, vwp_ret.
Qed.

Lemma vwp_drop a a' v root kids p d P dP i s (Q : Z -> vfs S -> Prop) : coherent a v root kids -> dents v !! p = Some d -> dn_parent d = Some P ->
  dents v !! P = Some dP -> lists a (ino dP) i (dn_name d) (ino d) -> (forall k nm x, ~ lists a (ino d) k nm x) ->
  removed a a' (ino dP) (dn_name d) (ino d) -> mounted a' s -> (forall f fl, files v !! f = Some fl -> vf_dentry fl <> Some p) ->
  (forall kids' v', coherent a' v' root kids' -> who v' = who v -> stays_open v v' -> Q 0 v') -> vwp (drop_dentry P p) (set_fs s v) Q.
Proof.
  intros Hco Hp Hpar HP Hl Hleaf R Hs Hopen HQ. eapply vwp_unlinked; [done..|]. intros l1 l2 Hk Hkids Hpr.
  destruct Hco as [Hroot T Sh Hfs Hbrk Hfiles He]. pose proof Hfs as (_ & Hok & _).
  destruct (unlinked_spec root (dents v) kids P dP p d l1 l2 T HP Hk Hp) as (Hlab & _).
  pose proof (tree_drop root (dents v) kids P dP p d l1 l2 T HP Hk Hp Hkids) as T'.
  pose proof (shown_drop a a' root (dents v) _ p d P dP i _ Hok Sh Hp HP Hpr Hl R Hlab) as Sh'.
  set (D1 := unlinked (dents v) P (last l1) p d) in *. eapply HQ; [|done|].
  2: { split; [done|]. intros f fl q dq (Hf & Hfl & Hq). destruct (same_on_some _ _ _ _ _ Hlab Hq) as (dq' & Hq' & El). exists dq'. split; [|by apply ino_labels].
       cbn. rewrite lookup_delete_ne; [done|]. intros <-. by apply (Hopen f fl Hf). }
  apply coherent_error; [done|]. constructor; try done.
  - intros q Hq. apply Hbrk. destruct Hq as [[dq Hq]|Hq]; [left | by right]. cbn in Hq. apply lookup_delete_Some in Hq as [_ Hq].
    by apply (same_some labels _ _ _ Hlab).
  - intros f fl Hf. destruct (Hfiles f fl Hf) as [(q & Hq & Hqs) Hpos]. split; [|done]. exists q. split; [done|]. cbn.
    rewrite lookup_delete_ne; [by apply (same_some labels _ _ _ Hlab)|]. intros <-. by apply (Hopen f fl Hf).
Qed.

(** *** Where the path of a dentry leads *)
Lemma resolves_parent a j ws c : resolves false a j ws (inl (c, [])) ->
  ws = [] /\ c = j \/ ws <> [] /\ exists dir i name, lists a dir i name c /\ resolves true a j ws (inl (dir, name)).
Proof.
  intros H. remember (inl (c, [])) as r eqn:Er. induction H as [j | j w ws Hw | j w Hw Hpo | j w ws Hw Hpo Hno | j w ws i x r Hw Hpo Hl Hr IH]; try done.
  - injection Er as <-. by left.
  - right. split; [done|]. destruct (IH Er) as [[-> ->] | (Hne & dir & k & name & Hd & Hr')].
    + exists j, i, w. split; [done | by constructor].
    + exists dir, k, name. split; [done|]. by eapply re_step.
Qed.

Lemma target_parent a v root kids path p d : coherent a v root kids -> dents v !! p = Some d -> path_means false a path (inl (ino d, [])) ->
  p = root /\ dn_parent d = None /\ ino d = 0 \/
  exists P dP i, dn_parent d = Some P /\ dents v !! P = Some dP /\ lists a (ino dP) i (dn_name d) (ino d) /\ name_ok (dn_name d) /\
    path_means true a path (inl (ino dP, dn_name d)).
Proof.
  intros [Hroot T Sh Hfs _ _ _] Hd. pose proof Hfs as (_ & Hok & _). destruct (sh_root _ _ _ _ Sh) as (d0 & Hd0 & E0). unfold VfsOps.path_means.
  destruct path as [|ch rest]; [done|]. destruct (ch =? SLASH); [|done]. intros Hm.
  destruct (resolves_parent _ _ _ _ Hm) as [[_ Ez] | (_ & dir & i & name & Hl & Hr)].
  - left. assert (p = root) as -> by (apply (sh_inj _ _ _ _ Sh p root d d0); congruence). destruct (tr_root _ _ _ T) as (d1 & Hd1 & E1).
    split_and!; congruence.
  - right. assert (Hpr : p <> root).
    { intros ->. rewrite Hd in Hd0. injection Hd0 as ->. apply (lists_nonzero mnt _ _ _ _ _ Hl). exact E0. }
    destruct (tr_up _ _ _ T p d Hd Hpr) as (P & HP & [dP HdP] & _). destruct (sh_link _ _ _ _ Sh p d P dP Hd HP HdP) as (Hn & k & Hk).
    destruct (fo_unique _ _ Hok _ _ _ _ _ _ _ _ Hl Hk ltac:(by left)) as [-> ->]. destruct (lists_fun mnt _ _ _ _ _ _ _ Hl Hk) as [-> _].
    by exists P, dP, k.
Qed.

(** A removed name is not found any more. *)
Lemma resolves_gone a a' dir name c i0 j ws : fs_ok a -> removed a a' dir name c -> lists a dir i0 name c -> (forall k nm x, ~ lists a c k nm x) ->
  resolves true a j ws (inl (dir, name)) -> ws <> [] -> resolves false a' j ws (inr VFS_ERR_NOT_FOUND).
Proof.
  intros Hok R Hl0 Hleaf H. remember (inl (dir, name)) as r eqn:Er.
  induction H as [j | j w ws Hw | j w Hw Hpo | j w ws Hw Hpo Hno | j w ws i x r Hw Hpo Hl Hr IH]; try done.
  - injection Er as -> ->. intros _. apply re_none; [done | done |]. intros k x Hx.
    by destruct (proj1 (rm_listed _ _ _ _ _ _ R name x) (ex_intro _ k Hx)).
  - intros _. specialize (Hpo eq_refl). specialize (IH Er Hpo).
    assert (Hxc : x <> c).
    { intros ->. rewrite Er in Hr. inversion Hr; subst; try done; [by apply Hleaf in Hl0 | by eapply Hleaf]. }
    assert (Hl' : exists k, lists a' j k w x).
    { destruct (Z.eq_dec j dir) as [->|Hjd].
      - apply (rm_listed _ _ _ _ _ _ R). split; [|by exists i]. intros ->.
        destruct (fo_unique _ _ Hok _ _ _ _ _ _ _ _ Hl Hl0 ltac:(by right)) as [_ ->]. by destruct (lists_fun mnt _ _ _ _ _ _ _ Hl Hl0).
      - exists i. apply (rm_lists _ _ _ _ _ _ R); [done | | done]. intros ->. by apply Hleaf in Hl. }
    destruct Hl' as [k Hk]. by eapply re_step.
Qed.

Lemma means_gone a a' path dir name c i : fs_ok a -> removed a a' dir name c -> lists a dir i name c -> (forall k nm x, ~ lists a c k nm x) ->
  path_means true a path (inl (dir, name)) -> name_ok name -> path_means false a' path (inr VFS_ERR_NOT_FOUND).
Proof.
  intros Hok R Hl Hleaf. unfold VfsOps.path_means. destruct path as [|ch rest]; [done|]. destruct (ch =? SLASH); [|done]. intros Hr Hn.
  eapply resolves_gone; try done. intros E. rewrite E in Hr. inversion Hr; subst. by apply (name_ok_ne []).
Qed.

(** *** Unlinking *)
Definition not_open a v path : Prop := forall f fl p d, is_open v f fl p d -> ~ path_means false a path (inl (ino d, [])).

Lemma not_open_at a v v' root kids path p d : coherent a v root kids -> not_open a v path -> keeps v v' -> dents v' !! p = Some d ->
  path_means false a path (inl (ino d, [])) -> forall f fl, files v' !! f = Some fl -> vf_dentry fl <> Some p.
Proof.
  intros Hco Hno K Hd Hm f fl Hf E. rewrite (ke_files _ _ K) in Hf. destruct (co_files _ _ _ _ _ _ Hco f fl Hf) as [(q & Hq & [dq Hdq]) _].
  rewrite E in Hq. injection Hq as <-. destruct (keeps_dentry _ _ _ _ K Hdq) as (d' & Hd' & Ei & _). rewrite Hd in Hd'. injection Hd' as <-.
  apply (Hno f fl p dq); [done|]. by rewrite <- Ei.
Qed.

Lemma vwp_remove_child a v root kids d P dP i (want : bool) (k : option Z -> V Z) (Q : Z -> vfs S -> Prop) : coherent a v root kids ->
  dents v !! P = Some dP -> lists a (ino dP) i (dn_name d) (ino d) -> name_ok (dn_name d) -> removable mnt a want (ino d) ->
  (forall a' s', removed a a' (ino dP) (dn_name d) (ino d) -> mounted a' s' -> vwp (k (Some 0)) (set_fs s' v) Q) ->
  vwp (vbind (on_inode P (fun nd => capyfs_remove nd (dn_name d) want)) k) v Q.
Proof.
  intros Hco HP Hl Hn Hrm HQ. pose proof (co_fs _ _ _ _ _ _ Hco) as (Hd & Hok & Hm). pose proof Hl as (Hr & Hdir & _).
  destruct (sh_node _ _ _ _ (co_shown _ _ _ _ _ _ Hco) P dP HP) as (Ed & _ & _).
  apply vwp_bind. eapply vwp_on_inode_same; [exact HP | exact Ed |].
  eapply wp_mono; [apply (wp_remove mnt count Hlay [] a (fs v) (vnode a (ino dP)) (dn_name d) want Hd pins_free Hok (handle_vnode mnt a _ Hr) Hdir Hn)|].
  intros r s' (a' & H1 & H2 & [(k' & c & -> & Hl' & _ & R) | (_ & _ & Hno)]); [|by destruct (Hno _ _ Hl)].
  change (i_ino (vnode a (ino dP))) with (ino dP) in *. destruct (fo_unique _ _ Hok _ _ _ _ _ _ _ _ Hl' Hl ltac:(by right)) as [_ ->].
  destruct (lists_fun mnt _ _ _ _ _ _ _ Hl' Hl) as [_ ->]. split; [done|]. apply (HQ a' s' R). split_and!; [done | apply R | congruence].
Qed.
(** What a removal leaves: the name is gone, or an error and the same disk. *)
Definition removes u a path (r : Z) a' c : Prop :=
  exists dir i name, r = 0 /\ path_means true a path (inl (dir, name)) /\ lists a dir i name c /\
    allowed u (vnode a dir) VFS_PERM_WRITE = true /\ removed a a' dir name c /\ path_means false a' path (inr VFS_ERR_NOT_FOUND).
Definition denied u a path (r : Z) : Prop :=
  exists dir i name c, r = - VFS_ERR_PERMISSION_DENIED /\ path_means true a path (inl (dir, name)) /\ lists a dir i name c /\
    allowed u (vnode a dir) VFS_PERM_WRITE = false.
Definition bad_path a path (r : Z) : Prop := exists e, 0 < e /\ r = - e /\ path_means false a path (inr e).

Definition vfs_unlink_result u a path (r : Z) a' : Prop :=
  (exists c, path_means false a path (inl (c, [])) /\ is_dir (a_inode a c) = false /\ (removes u a path r a' c \/ denied u a path r /\ a' = a)) \/
  (exists c, path_means false a path (inl (c, [])) /\ is_dir (a_inode a c) = true /\ r = - VFS_ERR_IS_DIRECTORY /\ a' = a) \/
  (bad_path a path r /\ a' = a).

(** [vfs_unlink] up to the dentry it drops. *)
Lemma vwp_unlink path a v root kids (Q : Z -> vfs S -> Prop) : coherent a v root kids -> path_ok path ->
  (forall r kids' v', coherent a v' root kids' -> who v' = who v -> stays_open v v' -> r < 0 -> vfs_unlink_result (who v) a path r a -> Q r v') ->
  (forall kids' v' p d P dP i a' s', coherent a v' root kids' -> keeps v v' -> dents v' !! p = Some d -> path_means false a path (inl (ino d, [])) ->
     is_dir (a_inode a (ino d)) = false -> dn_parent d = Some P -> dents v' !! P = Some dP -> lists a (ino dP) i (dn_name d) (ino d) -> (forall k nm x, ~ lists a (ino d) k nm x) ->
     removed a a' (ino dP) (dn_name d) (ino d) -> mounted a' s' -> removes (who v) a path 0 a' (ino d) -> vwp (drop_dentry P p) (set_fs s' v') Q) ->
  vwp (vfs_unlink (Some path)) v Q.
Proof.
  intros Hco Hp HN HQ. unfold vfs_unlink. apply vwp_bind, vwp_set_ok, vwp_bind.
  eapply (vwp_resolve_inode mnt count Hlay); [apply coherent_error; [|exact Hco]; done | done | |].
  2: { intros kids' v' Hc' Hk Hpos Hm. pose proof (keeps_ok _ _ Hk) as Hk'. apply vwp_fail_last; [done | lia |]. rewrite last_or_set by done.
       eapply HN; [apply coherent_error; [lia | done] | apply Hk' | by apply (stays_open_keeps v v') | lia |]. right. right. split; [by eexists | done]. }
  intros p d kids' v' Hc' Hk He Hd Hm. pose proof (keeps_ok _ _ Hk) as Hk'. pose proof (co_fs _ _ _ _ _ _ Hc') as (_ & Hok & _).
  change (is_dir_inode (vnode a (ino d))) with (is_dir (a_inode a (ino d))). destruct (is_dir (a_inode a (ino d))) eqn:Ed.
  { apply vwp_fail; [done|]. eapply HN; [by apply coherent_error | apply Hk' | by apply (stays_open_keeps v v') | done |]. right. left. by exists (ino d). }
  destruct (target_parent _ _ _ _ _ _ _ Hc' Hd Hm) as [(_ & _ & E0) | (P & dP & i & Hpar & HP & Hl & Hn & Hmp)].
  { rewrite E0, (fo_rootdir _ _ Hok) in Ed. done. }
  apply vwp_bind. eapply vwp_read; [exact Hd|]. rewrite Hpar. destruct (dn_name d) as [|ch rest] eqn:En; [by apply name_ok_ne in Hn|].
  rewrite <- En in *. apply vwp_bind. eapply vwp_read; [exact HP|]. apply vwp_bind, vwp_get_user. rewrite (ke_who _ _ Hk').
  destruct (sh_node _ _ _ _ (co_shown _ _ _ _ _ _ Hc') P dP HP) as (EP & _ & _). rewrite EP.
  rewrite !permission_allowed by done. destruct (allowed (who v) (vnode a (ino dP)) VFS_PERM_WRITE) eqn:Eperm; cbn [negb].
  2: { apply vwp_fail; [done|]. eapply HN; [by apply coherent_error | apply Hk' | by apply (stays_open_keeps v v') | done |]. left. exists (ino d).
       split_and!; [done | done |]. right. split; [by exists (ino dP), i, (dn_name d), (ino d) | done]. }
  assert (Hleaf : forall k nm x, ~ lists a (ino d) k nm x) by (intros k nm x (_ & Hx & _); congruence).
  eapply vwp_remove_child; [exact Hc' | exact HP | exact Hl | exact Hn | by split |]. intros a' s' R Hs'. cbn [negb Z.eqb].
  eapply (HQ kids' v' p d P dP i a' s'); try done. exists (ino dP), i, (dn_name d). split_and!; try done. eapply means_gone; try done.
Qed.

Lemma op_unlink path a v root kids : coherent a v root kids -> path_ok path -> not_open a v path ->
  vwp (vfs_unlink (Some path)) v (ends v root (fun a' r v' => stays_open v v' /\ vfs_unlink_result (who v) a path r a')).
Proof.
  intros Hco Hp Hopen. apply (vwp_unlink path a v root kids); [done | done | |].
  - intros r kids' v' Hc Hw Hf _ H. by exists a, kids'.
  - intros kids' v' p d P dP i a' s' Hc Hk Hd Hm Ed Hpar HP Hl Hleaf R Hs' Hrm.
    eapply (vwp_drop a a' v' root kids' p d P dP i s'); try done; [by apply (not_open_at a v v' root kids path p d)|]. intros kids2 v2 Hc2 Ew Ef.
    exists a', kids2. split_and!; [done | rewrite Ew; apply Hk | eapply stays_open_trans; [by apply (stays_open_keeps v v') | done] |]. left. exists (ino d). split_and!; [done | done | by left].
Qed.

(** The dentry of an open file is freed all the same. *)
Lemma op_unlink_open path a v root kids f fl p d : coherent a v root kids -> path_ok path -> is_open v f fl p d -> path_means false a path (inl (ino d, [])) ->
  vwp (vfs_unlink (Some path)) v (fun r v' => r < 0 /\ ends v root (fun a' r v' => stays_open v v' /\ vfs_unlink_result (who v) a path r a') r v' \/
    r = 0 /\ files v' = files v /\ dents v' !! p = None).
Proof.
  intros Hco Hp (Hf & Hfl & Hd) Hm. apply (vwp_unlink path a v root kids); [done | done | |].
  - intros r kids' v' Hc Hw Hfs Hr H. left. split; [done|]. by exists a, kids'.
  - intros kids' v' q dq P dP i a' s' Hc Hk Hdq Hmq Ed Hpar HP Hl Hleaf R Hs' Hrm. pose proof (co_fs _ _ _ _ _ _ Hc) as (_ & Hok & _).
    assert (q = p) as ->.
    { destruct (keeps_dentry _ _ _ _ Hk Hd) as (d' & Hd' & Ei & _). pose proof (path_means_fun mnt _ _ _ _ _ Hok Hm Hmq) as E. injection E as E.
      apply (sh_inj _ _ _ _ (co_shown _ _ _ _ _ _ Hc) q p dq d'); congruence. }
    eapply (vwp_unlinked a v' root kids' p dq P dP i s'); try done. intros l1 l2 _ _ _. right. split; [done|]. split; [apply Hk|]. cbn. by rewrite lookup_delete_eq.
Qed.

(** *** Removing a directory *)
Lemma shown_listed a dir i : fs_ok a -> inode_range dir -> is_dir (a_inode a dir) = true -> 0 <= i < dcount (a_inode a dir) ->
  match shown a dir i with
  | Some (f, mode) => exists nm c, lists a dir i nm c /\ cstr f = nm /\ mode = d_mode (a_inode a c)
  | None => entry a dir i = None
  end.
Proof.
  intros Hok Hr Hd Hi. unfold shown. cbv zeta. destruct (Z.eqb_spec (de_ino (dent a dir i)) 0) as [E|E]; cbn [orb].
  { unfold entry, listing. by rewrite E. }
  assert (Hl : lists a dir i (cstr (de_name (dent a dir i))) (de_ino (dent a dir i))).
  { split_and!; try apply Hr; try done; try lia. unfold entry, listing. by replace (de_ino (dent a dir i) =? 0) with false by lia. }
  pose proof (fo_name _ _ Hok _ _ _ _ Hl) as Hn. apply name_ok_ne in Hn. destruct (de_name (dent a dir i)) as [|ch rest] eqn:En; [by destruct Hn|].
  change ((ch :: rest).[0]) with ch. destruct (Z.eqb_spec ch 0) as [->|Hc]; [by destruct Hn|]. by eexists _, _.
Qed.

Lemma stop_after_one es : visit vfs_iter_stop_after_one es 0 = match es with [] => 0 | _ => 1 end.
Proof. by destruct es as [|[f m] es]. Qed.

Lemma shown_list_listed a dir e : fs_ok a -> inode_range dir -> is_dir (a_inode a dir) = true -> e ∈ shown_list a dir ->
  exists i nm c, lists a dir i nm c /\ cstr e.1 = nm /\ e.2 = d_mode (a_inode a c).
Proof.
  intros Hok Hr Hd He. apply list_elem_of_omap in He as (i & Hi & Es). apply elem_of_seqZ in Hi.
  pose proof (shown_listed a dir i Hok Hr Hd ltac:(lia)) as H. rewrite Es in H. destruct e as [f mode], H as (nm & c & ? & ? & ?). by exists i, nm, c.
Qed.

Lemma shown_empty a dir : fs_ok a -> inode_range dir -> is_dir (a_inode a dir) = true ->
  (shown_list a dir = [] <-> forall i nm c, ~ lists a dir i nm c).
Proof.
  intros Hok Hr Hd. assert (Hin : forall i, 0 <= i < dcount (a_inode a dir) <-> i ∈ seqZ 0 (dcount (a_inode a dir))) by (intros; rewrite elem_of_seqZ; lia).
  split.
  - intros E i nm c (_ & _ & Hi & He). pose proof (shown_listed a dir i Hok Hr Hd Hi) as H. destruct (shown a dir i) as [e|] eqn:Es; [|congruence].
    assert (Hx : e ∈ shown_list a dir) by (apply list_elem_of_omap; exists i; split; [by apply Hin | done]). rewrite E in Hx. by apply elem_of_nil in Hx.
  - intros Hno. destruct (shown_list a dir) as [|e es] eqn:E; [done|]. exfalso.
    destruct (shown_list_listed a dir e Hok Hr Hd ltac:(rewrite E; left)) as (i & nm & c & Hl & _). by apply Hno in Hl.
Qed.

Lemma vwp_has_entries a v root kids p d (Q : Z -> vfs S -> Prop) : coherent a v root kids -> dents v !! p = Some d -> is_dir (a_inode a (ino d)) = true ->
  (forall s', mounted a s' -> Q (match shown_list a (ino d) with [] => 0 | _ => 1 end) (set_fs s' v)) -> vwp (vfs_directory_has_entries p) v Q.
Proof.
  intros Hco Hd Hdir HQ. destruct (sh_node _ _ _ _ (co_shown _ _ _ _ _ _ Hco) p d Hd) as (Ed & Hr & _). unfold vfs_directory_has_entries.
  apply vwp_bind. eapply vwp_on_inode_same; [exact Hd | exact Ed |].
  eapply (wp_iterate_vnode mnt count Hlay a (fs v) (ino d) vfs_iter_stop_after_one 0 (fun rc found => found)); [apply (co_fs _ _ _ _ _ _ Hco) | exact Hr | done |].
  intros s' Hs'. split; [done|]. apply vwp_ret. cbn [fst default from_option id]. rewrite stop_after_one. by apply HQ.
Qed.

Definition vfs_rmdir_result u a path (r : Z) a' : Prop :=
  (exists c, path_means false a path (inl (c, [])) /\ is_dir (a_inode a c) = true /\
    (removes u a path r a' c /\ (forall i nm x, ~ lists a c i nm x) \/
     a' = a /\ (denied u a path r \/ c = 0 /\ r = - VFS_ERR_INVALID_PATH \/ r = - VFS_ERR_DIR_NOT_EMPTY /\ exists i nm x, lists a c i nm x))) \/
  (exists c, path_means false a path (inl (c, [])) /\ is_dir (a_inode a c) = false /\ r = - VFS_ERR_NOT_DIRECTORY /\ a' = a) \/
  (bad_path a path r /\ a' = a).

Lemma op_rmdir path a v root kids : coherent a v root kids -> path_ok path -> not_open a v path ->
  vwp (vfs_rmdir (Some path)) v (ends v root (fun a' r v' => stays_open v v' /\ vfs_rmdir_result (who v) a path r a')).
Proof.
  intros Hco Hp Hopen. unfold vfs_rmdir. apply vwp_bind, vwp_set_ok, vwp_bind.
  eapply (vwp_resolve_inode mnt count Hlay); [apply coherent_error; [|exact Hco]; done | done | |].
  2: { intros kids' v' Hc' Hk Hpos Hm. pose proof (keeps_ok _ _ Hk) as Hk'. apply vwp_fail_last; [done | lia |]. rewrite last_or_set by done.
       exists a, kids'. split_and!; [apply coherent_error; [lia | done] | apply Hk' | by apply (stays_open_keeps v v') |]. right. right. split; [by eexists | done]. }
  intros p d kids' v' Hc' Hk He Hd Hm. pose proof (keeps_ok _ _ Hk) as Hk'. pose proof (co_fs _ _ _ _ _ _ Hc') as (_ & Hok & _).
  change (is_dir_inode (vnode a (ino d))) with (is_dir (a_inode a (ino d))). destruct (is_dir (a_inode a (ino d))) eqn:Ed; cbn [negb].
  2: { apply vwp_fail; [done|]. exists a, kids'. split_and!; [by apply coherent_error | apply Hk' | by apply (stays_open_keeps v v') |]. right. left. by exists (ino d). }
  assert (Hfail : forall s e, 0 < e -> mounted a s -> denied (who v) a path (- e) \/ ino d = 0 /\ - e = - VFS_ERR_INVALID_PATH \/ - e = - VFS_ERR_DIR_NOT_EMPTY /\ (exists i nm x, lists a (ino d) i nm x) ->
    vwp (vfs_fail e) (set_fs s v') (ends v root (fun a' r v' => stays_open v v' /\ vfs_rmdir_result (who v) a path r a'))).
  { intros s e Hpos Hs Hwhy. apply vwp_fail; [lia|]. exists a, kids'. split_and!; [apply coherent_error; [lia|]; by apply coherent_fs | apply Hk' | by apply (stays_open_keeps v v') |].
    left. exists (ino d). split_and!; [done | done |]. by right. }
  assert (Esame : set_fs (fs v') v' = v') by (by destruct v').
  pose proof (co_fs _ _ _ _ _ _ Hc') as Hmt.
  apply vwp_bind. eapply vwp_read; [exact Hd|].
  destruct (target_parent _ _ _ _ _ _ _ Hc' Hd Hm) as [(_ & Hpar & E0) | (P & dP & i & Hpar & HP & Hl & Hn & Hmp)]; rewrite Hpar.
  { rewrite <- Esame. apply Hfail; [done | done |]. auto. }
  destruct (dn_name d) as [|ch rest] eqn:En; [by apply name_ok_ne in Hn|].
  rewrite <- En in *. apply vwp_bind. eapply vwp_read; [exact HP|]. apply vwp_bind, vwp_get_user. rewrite (ke_who _ _ Hk').
  destruct (sh_node _ _ _ _ (co_shown _ _ _ _ _ _ Hc') P dP HP) as (EP & _ & _). rewrite EP.
  rewrite !permission_allowed by done. destruct (allowed (who v) (vnode a (ino dP)) VFS_PERM_WRITE) eqn:Eperm; cbn [negb].
  2: { rewrite <- Esame. apply Hfail; [done | done |]. left. by exists (ino dP), i, (dn_name d), (ino d). }
  destruct (sh_node _ _ _ _ (co_shown _ _ _ _ _ _ Hc') p d Hd) as (_ & Hr & _).
  apply vwp_bind. eapply vwp_has_entries; [exact Hc' | exact Hd | exact Ed |]. intros s1 Hs1. pose proof (shown_empty a (ino d) Hok Hr Ed) as Hemp.
  destruct (shown_list a (ino d)) as [|e es] eqn:Es; cbn [truthy Z.eqb negb].
  2: { apply Hfail; [done | done |]. right. right. split; [done|]. pose proof (shown_list_listed a (ino d) e Hok Hr Ed ltac:(rewrite Es; left)) as H. naive_solver. }
  pose proof (proj1 Hemp eq_refl) as Hleaf. pose proof (coherent_fs mnt count a v' root kids' s1 Hc' Hs1) as Hc1.
  eapply vwp_remove_child; [exact Hc1 | exact HP | exact Hl | exact Hn | by split |]. intros a' s' R Hs'. cbn [negb Z.eqb].
  eapply (vwp_drop a a' _ root kids' p d P dP i s' _ Hc1); try done; [by apply (not_open_at a v v' root kids path p d)|]. intros kids2 v2 Hc2 Ew Ef.
  exists a', kids2. split_and!; [done | rewrite Ew; apply Hk' | eapply stays_open_trans; [by apply (stays_open_keeps v v') | done] |]. left. exists (ino d). split_and!; [done | done |]. left.
  split; [|done]. exists (ino dP), i, (dn_name d). split_and!; try done. eapply means_gone; try done.
Qed.
(** ** Renaming

    What a rename changes on the disk, as the dentries see it. *)
Record name_moved a a' src sname dst dname c : Prop := {
  nm_kept j nm x : (exists i, lists a j i nm x) -> ~ (j = src /\ nm = sname) -> exists i, lists a' j i nm x;
  nm_new : exists i, lists a' dst i dname c;
  nm_inode j : j <> dst -> a_inode a' j = a_inode a j;
  nm_iused j : inode_range j -> a_iused a' j = a_iused a j }.

Lemma shown_move a a' root D Dm P dP Q dQ c dc sname dname i : fs_ok a -> shown_by a root D -> D !! P = Some dP -> D !! Q = Some dQ -> D !! c = Some dc ->
  c <> root -> lists a (ino dP) i sname (ino dc) -> name_ok dname -> name_moved a a' (ino dP) sname (ino dQ) dname (ino dc) ->
  let D2 := <[Q := set_dn_inode (Some (vnode a' (ino dQ))) dQ]> D in
  (forall x, x <> c -> labels <$> Dm !! x = labels <$> D2 !! x) -> (forall d2, D2 !! c = Some d2 -> labels <$> Dm !! c = Some (dname, Some Q, dn_inode d2)) ->
  shown_by a' root Dm.
Proof.
  intros Hok Sh HP HQ Hc Hcr Hli Hn [Hkept [k Hnew] Hin Hu] D2 Hlab Hlc.
  assert (H2 : forall x dx, D2 !! x = Some dx -> exists d0, D !! x = Some d0 /\ dn_name dx = dn_name d0 /\ dn_parent dx = dn_parent d0 /\
    dn_inode dx = Some (vnode a' (ino d0))).
  { intros x dx [[<- <-]|[Hne Hx]]%lookup_insert_Some; [by exists dQ|]. exists dx. destruct (sh_node _ _ _ _ Sh x dx Hx) as (E & _). split_and!; try done.
    rewrite E. f_equal. unfold CapyFsTree.vnode. rewrite Hin; [done|]. intros Ei. apply Hne. symmetry. by apply (sh_inj _ _ _ _ Sh x Q dx dQ). }
  assert (H2' : forall x d0, D !! x = Some d0 -> is_Some (D2 !! x)).
  { intros x d0 Hx. unfold D2. destruct (decide (x = Q)) as [->|]; [rewrite lookup_insert_eq | rewrite lookup_insert_ne by done]; by eexists. }
  assert (Hm : forall x dx, Dm !! x = Some dx -> exists d0, D !! x = Some d0 /\ ino dx = ino d0 /\ dn_inode dx = Some (vnode a' (ino d0)) /\
    (x <> c -> dn_name dx = dn_name d0 /\ dn_parent dx = dn_parent d0) /\ (x = c -> dn_name dx = dname /\ dn_parent dx = Some Q)).
  { intros x dx Hx. destruct (decide (x = c)) as [->|Hxc].
    - destruct (H2' c dc Hc) as [d2 Hd2]. specialize (Hlc d2 Hd2). rewrite Hx in Hlc. cbn in Hlc. unfold labels in Hlc. injection Hlc as E1 E2 E3.
      destruct (H2 c d2 Hd2) as (d0 & H0 & _ & _ & E). rewrite E in E3. exists d0. unfold ino at 1. rewrite E3. by split_and!.
    - specialize (Hlab x Hxc). rewrite Hx in Hlab. destruct (D2 !! x) as [d2|] eqn:Hd2; [|done]. cbn in Hlab. unfold labels in Hlab. injection Hlab as E1 E2 E3.
      destruct (H2 x d2 Hd2) as (d0 & H0 & En & Ep & E). rewrite E in E3. exists d0. unfold ino at 1. rewrite E3. split_and!; try done; intros ?; first [congruence | split; congruence]. }
  constructor.
  - destruct (sh_root _ _ _ _ Sh) as (d0 & Hd0 & E). destruct (H2' root d0 Hd0) as [d2 Hd2]. specialize (Hlab root ltac:(congruence)). rewrite Hd2 in Hlab.
    destruct (Dm !! root) as [dr|] eqn:Er; [|done]. exists dr. split; [done|]. destruct (Hm root dr Er) as (d1 & H1 & -> & _). congruence.
  - intros x dx Hx. destruct (Hm x dx Hx) as (d0 & H0 & E & Ei & _). destruct (sh_node _ _ _ _ Sh x d0 H0) as (_ & Hr & Hiu). rewrite E.
    split; [done|]. split; [exact Hr|]. by rewrite Hu.
  - intros x dx q dq Hx Hpar Hq. destruct (Hm x dx Hx) as (d0 & H0 & E & _ & Ho & Hc'), (Hm q dq Hq) as (q0 & Hq0 & Eq & _). rewrite E, Eq.
    destruct (decide (x = c)) as [->|Hxc].
    + destruct (Hc' eq_refl) as [-> Ep]. assert (q = Q) as -> by congruence. split; [done|]. exists k. congruence.
    + destruct (Ho Hxc) as [-> Ep]. rewrite Hpar in Ep. destruct (sh_link _ _ _ _ Sh x d0 q q0 H0 (eq_sym Ep) Hq0) as (Hnx & i' & Hl). split; [done|].
      apply Hkept; [by exists i'|]. intros [E1 E2]. rewrite E1, E2 in Hl. destruct (fo_unique _ _ Hok _ _ _ _ _ _ _ _ Hl Hli ltac:(by right)) as [_ ->].
      destruct (lists_fun mnt _ _ _ _ _ _ _ Hl Hli) as [_ Ei]. apply Hxc. by apply (sh_inj _ _ _ _ Sh x c d0 dc).
  - intros x y dx dy Hx Hy E. destruct (Hm x dx Hx) as (d0 & H0 & E0 & _), (Hm y dy Hy) as (d1 & H1 & E1 & _). apply (sh_inj _ _ _ _ Sh x y d0 d1); congruence.
Qed.

Lemma vwp_move v root kids P dP c dc Q name l1 l2 (Post : unit -> vfs S -> Prop) : tree root (dents v) kids -> dents v !! P = Some dP -> kids P = l1 ++ c :: l2 ->
  dents v !! c = Some dc -> is_Some (dents v !! Q) -> Post tt (upd_dents (fun D => moved_to D P c dc (last l1) Q name) v) ->
  vwp (vbind (mod_dentry c (fun d => set_parent (Some Q) (set_name name d))) (fun _ => dentry_attach_child (Some Q) (Some c)))
    (upd_dents (fun D => unlinked D P (last l1) c dc) v) Post.
Proof.
  intros T HP Hk Hc [dQ HQ] HPost. destruct (unlinked_spec root (dents v) kids P dP c dc l1 l2 T HP Hk Hc) as (Hlab & _ & _).
  destruct (same_on_some _ _ _ _ _ Hlab Hc) as (c1 & Hc1 & _). destruct (same_on_some _ _ _ _ _ Hlab HQ) as (q1 & Hq1 & _).
  unfold moved_to in HPost. unfold upd_dents in HPost at 1. cbv zeta in HPost. set (D1 := unlinked (dents v) P (last l1) c dc) in *. rewrite Hc1 in HPost.
  apply vwp_bind. eapply (vwp_mod _ c c1); [exact Hc1|]. unfold dentry_attach_child. set (c2 := set_parent (Some Q) (set_name name c1)) in *.
  assert (exists q2 : dentry, <[c := c2]> D1 !! Q = Some q2) as [q2 Hq2].
  { destruct (decide (Q = c)) as [->|]; [rewrite lookup_insert_eq | rewrite lookup_insert_ne by done]; by eexists. }
  apply vwp_bind. eapply (vwp_read _ Q q2); [exact Hq2|]. rewrite Hq2, lookup_insert_eq in HPost.
  apply vwp_bind. eapply (vwp_mod _ c c2); [cbn; by rewrite lookup_insert_eq|]. cbn [dents upd_dents].
  assert (exists q3 : dentry, <[c := set_next_sibling (dn_first_child q2) c2]> (<[c := c2]> D1) !! Q = Some q3) as [q3 Hq3].
  { destruct (decide (Q = c)) as [->|]; [rewrite lookup_insert_eq | rewrite lookup_insert_ne by done]; by eexists. }
  rewrite Hq3 in HPost. eapply (vwp_mod _ Q q3); [exact Hq3|]. exact HPost.
Qed.
Lemma renamed_name_moved a a' src sname dst dname c : renamed mnt a a' src sname dst dname c -> name_moved a a' src sname dst dname c.
Proof.
  intros R. constructor.
  - intros j nm x Hx Hne. apply (rn_lists _ _ _ _ _ _ _ _ R). by right.
  - apply (rn_lists _ _ _ _ _ _ _ _ R). by left.
  - apply R.
  - apply R.
Qed.

Lemma same_name_moved a dir i name c : lists a dir i name c -> name_moved a a dir name dir name c.
Proof. intros Hl. constructor; try done. by exists i. Qed.

Definition moved_name a a' src sname dst dname c : Prop :=
  src = dst /\ sname = dname /\ a' = a \/ renamed mnt a a' src sname dst dname c.

(** Why a rename into directory [dst] fails. *)
Definition no_place a a' src dst : Prop :=
  is_dir (a_inode a dst) = false \/ src <> dst /\ (MAX_ENTRIES <= dcount (a_inode a dst) \/ full mnt a').

Lemma vwp_rename_inodes a v root kids P dP Q dQ sname dname i c (Post : option Z -> vfs S -> Prop) : coherent a v root kids ->
  dents v !! P = Some dP -> dents v !! Q = Some dQ -> lists a (ino dP) i sname c -> name_ok sname -> name_ok dname ->
  (ino dP = ino dQ /\ sname = dname) \/ (forall k x, ~ lists a (ino dQ) k dname x) ->
  (forall a' s', moved_name a a' (ino dP) sname (ino dQ) dname c -> name_moved a a' (ino dP) sname (ino dQ) dname c -> mounted a' s' ->
     Post (Some 0) (upd_dents (insert Q (set_dn_inode (Some (vnode a' (ino dQ))) dQ)) (set_fs s' v))) ->
  (forall a' s', unchanged a a' -> no_place a a' (ino dP) (ino dQ) -> mounted a' s' -> Post (Some (-1)) (set_fs s' v)) ->
  vwp (rename_inodes P sname Q dname) v Post.
Proof.
  intros Hco HP HQ Hl Hsn Hdn Hfree HS HN. pose proof (co_fs _ _ _ _ _ _ Hco) as Hmt. pose proof Hmt as (Hd & Hok & Hm).
  pose proof (co_shown _ _ _ _ _ _ Hco) as Sh. destruct (sh_node _ _ _ _ Sh P dP HP) as (EP & HPr & _), (sh_node _ _ _ _ Sh Q dQ HQ) as (EQ & HQr & _).
  unfold rename_inodes. apply vwp_bind. eapply vwp_read; [exact HP|]. apply vwp_bind. eapply vwp_read; [exact HQ|]. rewrite EP, EQ.
  apply vwp_bind, vwp_lift.
  assert (Hend : forall rc si di s', (P = Q -> si = di) ->
    Post (Some rc) (upd_dents (fun D => <[Q := set_dn_inode (Some di) dQ]> (<[P := set_dn_inode (Some si) dP]> D)) (set_fs s' v)) ->
    vwp (vbind (mod_dentry P (set_dn_inode (Some si))) (fun _ => vbind (if P =? Q then vret tt else mod_dentry Q (set_dn_inode (Some di))) (fun _ => vret (Some rc)))) (set_fs s' v) Post).
  { intros rc si di s' Hsd HPost. apply vwp_bind. eapply (vwp_mod _ P dP); [exact HP|]. apply vwp_bind. destruct (Z.eqb_spec P Q) as [->|Hne].
    - apply vwp_ret, vwp_ret. rewrite HP in HQ. injection HQ as <-. pose proof (Hsd eq_refl) as ->. unfold upd_dents in HPost |- *. cbn in *.
      by rewrite insert_insert_eq in HPost.
    - eapply (vwp_mod _ Q dQ); [cbn; by rewrite lookup_insert_ne|]. apply vwp_ret. exact HPost. }
  assert (Hid : forall x d, dents v !! x = Some d -> forall nd, dn_inode d = Some nd -> <[x := set_dn_inode (Some nd) d]> (dents v) = dents v).
  { intros x d Hx nd E. replace (set_dn_inode (Some nd) d) with d by (rewrite <- E; by destruct d). by apply insert_id. }
  assert (HPQ : P = Q -> vnode a (ino dP) = vnode a (ino dQ)) by (intros <-; rewrite HP in HQ; by injection HQ as <-).
  assert (Hsame : forall s', Post (Some (-1)) (set_fs s' v) ->
    Post (Some (-1)) (upd_dents (fun D => <[Q := set_dn_inode (Some (vnode a (ino dQ))) dQ]> (<[P := set_dn_inode (Some (vnode a (ino dP))) dP]> D)) (set_fs s' v))).
  { intros s' H. unfold upd_dents. cbn. rewrite (Hid P dP HP _ EP), (Hid Q dQ HQ _ EQ). exact H. }
  destruct (is_dir (a_inode a (ino dQ))) eqn:Ed.
  2: { unfold capyfs_rename_inode. change (is_dir_inode (vnode a (ino dQ))) with (is_dir (a_inode a (ino dQ))). rewrite Ed. cbn [negb]. rewrite orb_true_r.
       apply wp_ret, Hend, Hsame; [done|]. by apply (HN a); [apply unchanged_refl | left |]. }
  pose proof Hl as (_ & Hsd & _).
  eapply wp_mono; [apply (wp_rename mnt count Hlay [] a (fs v) (vnode a (ino dP)) (vnode a (ino dQ)) sname dname Hd pins_free Hok
    (handle_vnode mnt a _ HPr) (handle_vnode mnt a _ HQr) Hsd Ed Hsn Hdn ltac:(intros E Hne; destruct Hfree as [[]|Hfree]; done))|].
  intros [[rc si] di] s' (a' & H1 & H2 & [(k & c' & Hrc & Hsi & Hdi & Hl' & Hmv) | (E & Hun & Hwhy)]); cbn [fst snd] in *.
  2: { injection E as -> -> ->. apply Hend, Hsame; [done|]. apply (HN a'); [done | | split_and!; [done | apply Hun | congruence]].
       right. destruct Hwhy as [Hno|(Hne & [(k & x & Hx)|Hwhy])]; [by apply Hno in Hl | | done].
       destruct Hfree as [[? _]|Hfree]; [done | by apply Hfree in Hx]. }
  change (i_ino (vnode a (ino dP))) with (ino dP) in *. change (i_ino (vnode a (ino dQ))) with (ino dQ) in *.
  destruct (fo_unique _ _ Hok _ _ _ _ _ _ _ _ Hl' Hl ltac:(by right)) as [_ ->]. destruct (lists_fun mnt _ _ _ _ _ _ _ Hl' Hl) as [_ ->]. subst rc.
  assert (Hnm : name_moved a a' (ino dP) sname (ino dQ) dname c).
  { destruct Hmv as [(E1 & E2 & ->)|R]; [|by apply renamed_name_moved]. rewrite <- E1, <- E2. by eapply same_name_moved. }
  assert (Hv : forall x, a_inode a' x = a_inode a x -> vnode a x = vnode a' x) by (intros x E; unfold CapyFsTree.vnode; by rewrite E).
  assert (Hvr : forall x, a_inode a' x = a_inode a x -> resized a' (vnode a x) = vnode a' x).
  { intros x E. unfold resized, CapyFsTree.vnode, set_i_size. cbn. by rewrite E. }
  assert (Edi : di = vnode a' (ino dQ)).
  { destruct Hdi as [[-> E]|[Hne ->]]; [by apply Hv|]. destruct Hmv as [(E1 & _)|R]; [done|].
    destruct (rn_dir _ _ _ _ _ _ _ _ R) as [E1 E2]. unfold owner in E2. injection E2 as E2 E3 E4. unfold resized, CapyFsTree.vnode. cbn. by rewrite E1, E2, E3, E4. }
  assert (Esi : si = vnode a' (ino dP)).
  { assert (E : a_inode a' (ino dP) = a_inode a (ino dP)).
    { destruct (Z.eq_dec (ino dP) (ino dQ)) as [E|Hne]; [|by apply (nm_inode _ _ _ _ _ _ _ Hnm)]. rewrite E. by destruct Hdi as [[_ ?]|[? _]]. }
    destruct Hsi as [->| ->]; [by apply Hv | by apply Hvr]. }
  assert (Hino : P <> Q -> ino dP <> ino dQ) by (intros Hne E; apply Hne; by apply (sh_inj _ _ _ _ Sh P Q dP dQ)).
  specialize (HS a' s' Hmv Hnm ltac:(split_and!; [done | | congruence]; destruct Hmv as [(_ & _ & ->)|R]; [done | apply R])).
  rewrite Edi. apply Hend.
  - intros <-. rewrite HP in HQ. by injection HQ as <-.
  - unfold upd_dents in HS |- *. cbn in *. destruct (decide (P = Q)) as [->|Hne].
    + rewrite HP in HQ. injection HQ as <-. rewrite Esi, insert_insert_eq. exact HS.
    + rewrite (Hid P dP HP si); [exact HS|]. rewrite Esi, EP. f_equal. apply Hv. apply (nm_inode _ _ _ _ _ _ _ Hnm). by apply Hino.
Qed.
Definition vfs_rename_result u a src dst (r : Z) a' : Prop :=
  (exists sdir i sname c ddir dname, r = 0 /\ path_means true a src (inl (sdir, sname)) /\ lists a sdir i sname c /\
     path_means true a dst (inl (ddir, dname)) /\ name_ok dname /\ allowed u (vnode a sdir) VFS_PERM_WRITE = true /\
     allowed u (vnode a ddir) VFS_PERM_WRITE = true /\ moved_name a a' sdir sname ddir dname c) \/
  (unchanged a a' /\
    ((exists e, 0 < e /\ r = - e /\ path_means true a dst (inr e)) \/
     ((exists t, path_means true a dst (inl t)) /\ (bad_path a src r \/ path_means false a src (inl (0, [])) /\ r = - VFS_ERR_NOT_FOUND)) \/
     (exists dir, r = - VFS_ERR_INVALID_PATH /\ path_means true a dst (inl (dir, []))) \/
     (exists c x, r = - VFS_ERR_ALREADY_EXISTS /\ path_means false a src (inl (c, [])) /\ path_means false a dst (inl (x, [])) /\ c <> x) \/
     (exists sdir sname ddir dname, path_means true a src (inl (sdir, sname)) /\ path_means true a dst (inl (ddir, dname)) /\ name_ok dname /\
       (r = - VFS_ERR_PERMISSION_DENIED /\ (allowed u (vnode a sdir) VFS_PERM_WRITE = false \/
          allowed u (vnode a ddir) VFS_PERM_WRITE = false) \/
        r = - VFS_ERR_IO /\ no_place a a' sdir ddir)))).

(** The end of a rename: the dentry goes to its new place. *)
Lemma vwp_rename_end a a' v root kids P dP Q dQ c dc dname i s (Post : Z -> vfs S -> Prop) : coherent a v root kids -> dents v !! P = Some dP ->
  dents v !! Q = Some dQ -> dents v !! c = Some dc -> dn_parent dc = Some P -> lists a (ino dP) i (dn_name dc) (ino dc) -> name_ok dname ->
  name_moved a a' (ino dP) (dn_name dc) (ino dQ) dname (ino dc) -> mounted a' s ->
  (forall kids' v', coherent a' v' root kids' -> who v' = who v -> files v' = files v -> Post 0 v') ->
  vwp (vbind (dentry_detach_child (Some P) (dn_name dc)) (fun child =>
         vbind (match child with
                | Some c => vbind (mod_dentry c (fun d => set_parent (Some Q) (set_name (copy_name dname) d))) (fun _ => dentry_attach_child (Some Q) child)
                | None => vret tt
                end) (fun _ => vbind vfs_set_ok (fun _ => vret 0))))
    (upd_dents (insert Q (set_dn_inode (Some (vnode a' (ino dQ))) dQ)) (set_fs s v)) Post.
Proof.
  intros [Hroot T Sh Hfs Hbrk Hfiles He] HP HQ Hc Hpar Hl Hn Hmv Hs HPost. pose proof Hfs as (_ & Hok & _).
  assert (Hcr : c <> root).
  { intros ->. destruct (tr_root _ _ _ T) as (d0 & Hd0 & E0). congruence. }
  set (dQ2 := set_dn_inode _ dQ). set (v2 := upd_dents _ _). set (D2 := <[Q := dQ2]> (dents v)).
  assert (Hlk : same_on links (dents v) D2) by (by eapply same_on_insert).
  assert (T2 : tree root D2 kids) by (by apply (tree_same _ (dents v))).
  assert (H2 : forall x dx, dents v !! x = Some dx -> exists d2, D2 !! x = Some d2 /\ dn_name d2 = dn_name dx /\ dn_parent d2 = dn_parent dx).
  { intros x dx Hx. unfold D2. destruct (decide (x = Q)) as [->|]; [rewrite lookup_insert_eq | rewrite lookup_insert_ne by done; by exists dx].
    rewrite HQ in Hx. injection Hx as <-. by eexists. }
  destruct (H2 P dP HP) as (dP2 & HP2 & _). destruct (H2 c dc Hc) as (dc2 & Hc2 & En & Ep).
  assert (HQ2 : is_Some (D2 !! Q)) by (unfold D2; rewrite lookup_insert_eq; by eexists).
  apply vwp_bind. rewrite <- En. eapply (vwp_detach_self v2 root kids P dP2 c dc2); [exact T2 | exact HP2 | exact Hc2 | congruence | |].
  { intros x dx Hx Hdx Ex. destruct (kid_entry mnt a root (dents v) kids P dP x T Sh HP Hx) as (x0 & _ & Hx0 & _ & _ & _ & _).
    destruct (H2 x x0 Hx0) as (x2 & Hx2 & En2 & _). change (dents v2) with D2 in Hdx. rewrite Hdx in Hx2. injection Hx2 as <-.
    apply (named_self a root (dents v) kids P dP c dc x x0); try done. congruence. }
  intros l1 l2 Hk. apply vwp_bind. eapply (vwp_move v2 root kids P dP2 c dc2 Q _ l1 l2); [exact T2 | exact HP2 | exact Hk | exact Hc2 | exact HQ2 |].
  apply vwp_bind, vwp_set_ok, vwp_ret. rewrite (name_copy dname Hn).
  destruct (tree_move root D2 kids P dP2 c dc2 l1 l2 Q dname T2 HP2 Hk Hc2 HQ2) as (T3 & Hlab & Hlc).
  change (dents v2) with D2. set (Dm := moved_to D2 P c dc2 (last l1) Q dname) in *.
  assert (Sh3 : shown_by a' root Dm).
  { apply (shown_move a a' root (dents v) Dm P dP Q dQ c dc (dn_name dc) dname i); try done. intros d2 Hd2.
    change (D2 !! c = Some d2) in Hd2. rewrite Hc2 in Hd2. by injection Hd2 as <-. }
  assert (Hdom : forall x, is_Some (Dm !! x) <-> is_Some (dents v !! x)).
  { intros x. rewrite <- (same_some links _ _ x Hlk). destruct (decide (x = c)) as [->|Hne].
    - rewrite Hc2. destruct (Dm !! c); [split; intros; by eexists | done].
    - specialize (Hlab x Hne). destruct (Dm !! x), (D2 !! x); try done; split; intros; by eexists. }
  eapply HPost; [|done|done]. apply coherent_error; [done|]. constructor; try done.
  - intros q [Hq|Hq]; apply Hbrk; [left; by apply Hdom | by right].
  - intros f fl Hf. destruct (Hfiles f fl Hf) as [(q & Hq & Hqs) Hpos]. split; [|done]. exists q. split; [done|]. by apply Hdom.
Qed.
(** The part of [vfs_rename] after both paths led somewhere. *)
Lemma vwp_rename_tail u src dst a v root kids p d P dP i Q dQ dname (Post : Z -> vfs S -> Prop) : coherent a v root kids -> who v = u ->
  dents v !! p = Some d -> dn_parent d = Some P -> dents v !! P = Some dP -> lists a (ino dP) i (dn_name d) (ino d) -> name_ok (dn_name d) ->
  path_means true a src (inl (ino dP, dn_name d)) -> dents v !! Q = Some dQ -> path_means true a dst (inl (ino dQ, dname)) -> name_ok dname ->
  (ino dP = ino dQ /\ dn_name d = dname) \/ (forall k x, ~ lists a (ino dQ) k dname x) ->
  (forall r a' kids' v', coherent a' v' root kids' -> who v' = who v -> files v' = files v -> vfs_rename_result u a src dst r a' -> Post r v') ->
  vwp (vbind (read_dentry P) (fun sp => vbind (read_dentry Q) (fun dp => vbind get_user (fun user =>
    if negb (inode_has_permission user (dn_inode sp) VFS_PERM_WRITE) || negb (inode_has_permission user (dn_inode dp) VFS_PERM_WRITE)
    then vfs_fail VFS_ERR_PERMISSION_DENIED else
    vbind (read_dentry p) (fun sn => vbind (rename_inodes P (dn_name sn) Q dname) (fun rc =>
    match rc with
    | None => vfs_fail VFS_ERR_UNSUPPORTED
    | Some rc =>
        if negb (rc =? 0) then vfs_fail VFS_ERR_IO else
        vbind (dentry_detach_child (Some P) (dn_name sn)) (fun child =>
         vbind (match child with
                | Some c => vbind (mod_dentry c (fun d => set_parent (Some Q) (set_name (copy_name dname) d))) (fun _ => dentry_attach_child (Some Q) child)
                | None => vret tt
                end) (fun _ => vbind vfs_set_ok (fun _ => vret 0)))
    end)))))) v Post.
Proof.
  intros Hco Hu Hd Hpar HP Hl Hns Hms HQ Hmd Hn Hfree HPost. pose proof (co_fs _ _ _ _ _ _ Hco) as (_ & Hok & _).
  destruct (sh_node _ _ _ _ (co_shown _ _ _ _ _ _ Hco) P dP HP) as (EP & _ & _), (sh_node _ _ _ _ (co_shown _ _ _ _ _ _ Hco) Q dQ HQ) as (EQ & _ & _).
  apply vwp_bind. eapply vwp_read; [exact HP|]. apply vwp_bind. eapply vwp_read; [exact HQ|]. apply vwp_bind, vwp_get_user. rewrite EP, EQ, Hu.
  rewrite !permission_allowed by done. destruct (allowed u (vnode a (ino dP)) VFS_PERM_WRITE && allowed u (vnode a (ino dQ)) VFS_PERM_WRITE) eqn:Eperm.
  2: { rewrite <- negb_andb, Eperm. cbn [negb]. apply vwp_fail; [done|]. eapply (HPost _ a); [by apply coherent_error | done | done |]. right.
       split; [by apply unchanged_refl|]. do 4 right. exists (ino dP), (dn_name d), (ino dQ), dname. split_and!; [done | done | done |]. left. split; [done|].
       by apply andb_false_iff. }
  rewrite <- negb_andb, Eperm. apply andb_true_iff in Eperm as [Ep1 Ep2]. cbn [negb].
  apply vwp_bind. eapply vwp_read; [exact Hd|]. apply vwp_bind.
  eapply (vwp_rename_inodes a v root kids P dP Q dQ); [exact Hco | exact HP | exact HQ | exact Hl | exact Hns | exact Hn | exact Hfree | |].
  - intros a' s' Hmv Hnm Hs'. cbn [negb Z.eqb]. eapply (vwp_rename_end a a' v root kids P dP Q dQ p d dname i s'); try done.
    intros kids' v' Hc' Ew Ef. eapply HPost; [exact Hc' | exact Ew | exact Ef |]. left. by exists (ino dP), i, (dn_name d), (ino d), (ino dQ), dname.
  - intros a' s' Hun Hwhy Hs'. cbn [negb Z.eqb]. apply vwp_fail; [done|]. eapply (HPost _ a'); [|done|done|].
    + apply coherent_error; [done|]. pose proof (co_shown _ _ _ _ _ _ Hco) as Sh. apply (coherent_change_same mnt count a); try done.
      * intros q dq Hq. destruct (sh_node _ _ _ _ Sh q dq Hq) as (_ & Hrq & Huq). by rewrite (un_iused _ _ _ Hun).
      * intros q dq Hq. destruct (sh_node _ _ _ _ Sh q dq Hq) as (_ & Hrq & Huq). by apply (un_inode _ _ _ Hun).
      * intros q dq r dr k nm Hq _ Hlq. exists k. destruct (sh_node _ _ _ _ Sh q dq Hq) as (_ & Hrq & Huq). by eapply unchanged_lists.
    + right. split; [done|]. do 4 right. exists (ino dP), (dn_name d), (ino dQ), dname. split_and!; [done | done | done |]. by right.
Qed.

Lemma op_rename src dst a v root kids : coherent a v root kids -> path_ok src -> path_ok dst ->
  vwp (vfs_rename (Some src) (Some dst)) v (ends v root (fun a' r v' => files v' = files v /\ vfs_rename_result (who v) a src dst r a')).
Proof.
  intros Hco Hps Hpd. pose proof (co_fs _ _ _ _ _ _ Hco) as (_ & Hok & _). pose proof (unchanged_refl mnt a Hok) as Hun.
  unfold vfs_rename. apply vwp_bind, vwp_set_ok, vwp_bind.
  eapply vwp_mono; [eapply (vwp_resolve mnt count Hlay false); [apply coherent_error; [|exact Hco]; done | exact Hps]|].
  intros [op l1] v1 (kids1 & Hc1 & Hk1 & Hf1 & He1). pose proof (keeps_ok _ _ Hk1) as Hk1'. unfold found in Hf1. cbn [fst snd] in Hf1.
  set (up := match op with Some p => match dents v1 !! p with Some d => dn_parent d | None => None end | None => None end).
  apply vwp_bind. match goal with |- vwp _ _ ?K => assert (Hup : K up v1) end.
  2: { destruct op as [p|]; [|by apply vwp_ret]. destruct Hf1 as (d & Hd & _). apply vwp_bind. eapply vwp_read; [exact Hd|]. apply vwp_ret.
       unfold up in Hup. by rewrite Hd in Hup. }
  apply vwp_bind. eapply vwp_mono; [eapply (vwp_resolve mnt count Hlay true); [exact Hc1 | exact Hpd]|].
  intros [oq dname] v2 (kids2 & Hc2 & Hk2 & Hf2 & He2). unfold found in Hf2. cbn [fst snd] in Hf2, He2. pose proof (vkeeps_trans _ _ _ Hk1' Hk2) as Hk.
  assert (Hfail : forall v3 kids3 e, 0 < e -> coherent a v3 root kids3 -> keeps v v3 -> vfs_rename_result (who v) a src dst (- e) a ->
    vwp (vfs_fail e) v3 (ends v root (fun a' r v' => files v' = files v /\ vfs_rename_result (who v) a src dst r a'))).
  { intros v3 kids3 e Hpos Hc Hkv Hr. apply vwp_fail; [lia|]. exists a, kids3. split_and!; [apply coherent_error; [lia | done] | apply Hkv | apply Hkv | done]. }
  assert (Hlast : forall e, 0 < e -> vfs_rename_result (who v) a src dst (- last_or e v2) a ->
    vwp (vfs_fail_last_or e) v2 (ends v root (fun a' r v' => files v' = files v /\ vfs_rename_result (who v) a src dst r a'))).
  { intros e Hpos Hr. pose proof (co_error _ _ _ _ _ _ Hc2) as He. apply vwp_fail_last; [lia | done |]. exists a, kids2.
    split_and!; [apply coherent_error; [unfold last_or; destruct (negb _); lia | done] | apply Hk | apply Hk | done]. }
  assert (Edst : oq = None -> vfs_rename_result (who v) a src dst (- g_vfs_last_error v2) a /\ forall e, last_or e v2 = g_vfs_last_error v2).
  { intros ->. destruct Hf2 as [Hm Hpos]. split; [|intros; by apply last_or_set]. right. split; [done|]. left. by eexists. }
  destruct op as [p|].
  2: { subst up. destruct Hf1 as [Hm1 Hpos1]. apply Hlast; [done|]. destruct oq as [q|].
       - destruct Hf2 as (dq & _ & Hmq). rewrite (He2 ltac:(by eexists)) in *. rewrite last_or_set by (rewrite He2; [done | by eexists]).
         right. split; [done|]. right. left. split; [by eexists|]. left. exists (g_vfs_last_error v1). split_and!; [done | | done]. by rewrite He2 by (by eexists).
       - destruct (Edst eq_refl) as [Hr E]. by rewrite E. }
  destruct Hf1 as (d0 & Hd0 & Hm0). pose proof (means_last mnt _ _ _ _ Hm0) as ->. specialize (He1 ltac:(by eexists)). cbn [g_vfs_last_error set_last_error] in He1.
  unfold up. rewrite Hd0. destruct (keeps_dentry _ _ _ _ Hk2 Hd0) as (d & Hd & Ei & En & Ep). rewrite <- Ei in Hm0. rewrite <- Ep. clear up Hd0 Ei En Ep d0.
  destruct (target_parent _ _ _ _ _ _ _ Hc2 Hd Hm0) as [(_ & Hpar & E0) | (P & dP & i & Hpar & HP & Hl & Hns & Hms)]; rewrite Hpar.
  { apply Hlast; [done|]. destruct oq as [q|]; [|destruct (Edst eq_refl) as [Hr E]; by rewrite E]. destruct Hf2 as (dq & _ & Hmq).
    rewrite last_or_ok by (rewrite He2; [done | by eexists]). right. split; [done|]. right. left. split; [by eexists|]. right. by rewrite <- E0. }
  destruct oq as [q|].
  2: { apply Hlast; [done|]. destruct (Edst eq_refl) as [Hr E]. by rewrite E. }
  destruct Hf2 as (dq & Hdq & Hmq). specialize (He2 ltac:(by eexists)). destruct (means_split _ _ _ _ Hpd Hmq) as [[-> _] | [Hn Hcase]].
  { apply Hlast; [done|]. rewrite last_or_ok by (rewrite He2; exact He1). right. split; [done|]. do 2 right. left. by exists (ino dq). }
  destruct dname as [|ch rest] eqn:Edn; [by apply name_ok_ne in Hn|]. rewrite <- Edn in *.
  apply vwp_bind. eapply vwp_mono; [eapply (vwp_resolve mnt count Hlay false); [exact Hc2 | exact Hpd]|].
  intros [ox l3] v3 (kids3 & Hc3 & Hk3 & Hf3 & He3). unfold found in Hf3. cbn [fst snd] in Hf3, He3. pose proof (vkeeps_trans _ _ _ Hk Hk3) as Hkk.
  destruct (keeps_dentry _ _ _ _ Hk3 Hd) as (d' & Hd' & Ei & En & Ep), (keeps_dentry _ _ _ _ Hk3 HP) as (dP' & HP' & EiP & _),
    (keeps_dentry _ _ _ _ Hk3 Hdq) as (dq' & Hdq' & Eiq & _). rewrite <- Ei, <- En, <- EiP in Hl. rewrite <- EiP, <- En in Hms. rewrite <- Eiq in Hmq, Hcase.
  rewrite <- En in Hns. rewrite <- Ep in Hpar. rewrite <- Ei in Hm0. clear Hd HP Hdq Ei En Ep EiP Eiq d dP dq.
  destruct ox as [x|].
  - destruct Hf3 as (dx & Hdx & Hmx). pose proof (means_last mnt _ _ _ _ Hmx) as ->. rewrite bool_decide_eq_true_2 by (by eexists). cbn [andb].
    destruct (decide (x = p)) as [->|Hne].
    2: { rewrite bool_decide_eq_false_2 by congruence. cbn [negb]. eapply Hfail; [done | exact Hc3 | exact Hkk |]. right. split; [done|]. do 3 right. left.
         exists (ino d'), (ino dx). split_and!; [done | done | done |]. intros E. apply Hne. symmetry. by apply (sh_inj _ _ _ _ (co_shown _ _ _ _ _ _ Hc3) p x d' dx). }
    rewrite bool_decide_eq_true_2 by done. cbn [negb]. apply vwp_bind, vwp_get_error. rewrite bool_decide_eq_false_2 by done. cbn [andb].
    rewrite Hd' in Hdx. injection Hdx as <-.
    eapply (vwp_rename_tail (who v) src dst a v3 root kids3 p d' P dP' i q dq' dname); try done; [by rewrite (ke_who _ _ Hkk) | |].
    + left. destruct Hcase as [(k & c & Hlc & Hyes)|[_ Hno]]; [|pose proof (path_means_fun mnt _ _ _ _ _ Hok Hmx Hno); done].
      pose proof (path_means_fun mnt _ _ _ _ _ Hok Hmx Hyes) as E. injection E as <-.
      destruct (fo_unique _ _ Hok _ _ _ _ _ _ _ _ Hlc Hl ltac:(by left)) as [E ->]. split; [done|]. rewrite E in Hlc. by destruct (lists_fun mnt _ _ _ _ _ _ _ Hlc Hl).
    + intros r a' kids' v' Hc' Ew Ef Hr. exists a', kids'. split_and!; [done | rewrite Ew; apply Hkk | rewrite Ef; apply Hkk | done].
  - destruct Hf3 as [Hm3 _]. rewrite (bool_decide_eq_false_2 (is_Some None)) by (by intros []). cbn [andb]. apply vwp_bind, vwp_get_error.
    destruct Hcase as [(k & c & Hlc & Hyes)|[Hno Hnf]]; [pose proof (path_means_fun mnt _ _ _ _ _ Hok Hm3 Hyes); done|].
    pose proof (path_means_fun mnt _ _ _ _ _ Hok Hm3 Hnf) as E. injection E as E. rewrite E, bool_decide_eq_true_2 by done. cbn [andb negb Z.eqb VFS_ERR_NOT_FOUND Pos.eqb].
    eapply (vwp_rename_tail (who v) src dst a v3 root kids3 p d' P dP' i q dq' dname); try done; [by rewrite (ke_who _ _ Hkk) | by right |].
    intros r a' kids' v' Hc' Ew Ef Hr. exists a', kids'. split_and!; [done | rewrite Ew; apply Hkk | rewrite Ef; apply Hkk | done].
Qed.
End names.
