(* ===== verification/VfsRemoval.v ===== *)
(** * Removing a tree

    [vfs_rmdir_recursive] ends, and removes only what lies below the directory. *)
From stdpp Require Import strings.
From S2P Require Import Prelude Buffers CapyFs CapyFsDisk CapyFsFile CapyFsDir CapyFsTree CapyFsMove CapyFsFormat CapyFsSystem Vfs VfsCache VfsResolve VfsOps VfsNames.
Local Open Scope capy_scope.

#[local] Opaque le_bytes.

(** ** Joining paths *)
Lemma words_join cur p q : words cur (p ++ SLASH :: q) = words cur p ++ words [] q.
Proof.
  revert cur. induction p as [|c p IH]; intros cur; cbn [app words].
  - rewrite Z.eqb_refl. by destruct cur.
  - destruct (c =? SLASH); [destruct cur; [done|]; cbn [app]; by rewrite IH | apply IH].
Qed.

Lemma components_join p q : components (p ++ SLASH :: q) = components p ++ components q.
Proof. apply words_join. Qed.

(** What is appended to a buffer with room for [n] bytes. *)
Lemma push_chars n l : forall out r, foldl (push_char n) out l = Some r -> exists o, out = Some o /\ r = o ++ l /\ (l <> [] -> zlen r < n).
Proof.
  induction l as [|c l IH]; intros out r; cbn [foldl]; [intros ->; exists r; by rewrite app_nil_r|].
  intros E. apply IH in E as (o & E & -> & Hl). destruct out as [o0|]; [|done]. cbn [push_char] in E.
  destruct (Z.leb_spec n (zlen o0 + 1)) as [|Hn]; [done|]. injection E as <-. exists o0. rewrite <- app_assoc. split_and!; [done | done |]. intros _.
  destruct l as [|c' l']; [cbn [app]; rewrite zlen_app; change (zlen [c]) with 1; lia|]. specialize (Hl ltac:(done)). by rewrite <- app_assoc in Hl.
Qed.

Lemma join_spec dir name n p : vfs_join_child_path dir name n = Some p -> 1 < zlen dir -> name <> [] ->
  zlen p < n /\ zlen dir < zlen p /\ (p = dir ++ SLASH :: name \/ exists dir', dir = dir' ++ [SLASH] /\ p = dir' ++ SLASH :: name).
Proof.
  unfold vfs_join_child_path. destruct (n =? 0); [done|]. intros E Hd Hn. pose proof (zlen_nonneg name) as Hz.
  assert (Hpos : 0 < zlen name) by (destruct name; [done | rewrite zlen_cons; pose proof (zlen_nonneg name); lia]).
  destruct (foldl (push_char n) (Some []) dir) as [out|] eqn:E1; [|done]. apply push_chars in E1 as (o & [= <-] & -> & _). cbn [app] in E.
  replace (1 <? zlen dir) with true in E by lia. cbn [andb] in E. destruct (Z.eqb_spec (dir.[zlen dir - 1]) SLASH) as [El|El]; cbn [negb] in E.
  - apply push_chars in E as (o & [= <-] & -> & Hl). specialize (Hl Hn). split; [done|]. rewrite zlen_app. split; [lia|]. right.
    destruct (last dir) as [c|] eqn:Ec; [|apply last_None in Ec as ->; by vm_compute in Hd]. apply last_Some in Ec as [dir' ->]. exists dir'.
    assert (c = SLASH) as ->.
    { rewrite <- El. rewrite zlen_app. change (zlen [c]) with 1. rewrite aget_app_r by lia. by replace (zlen dir' + 1 - 1 - zlen dir') with 0 by lia. }
    split; [done|]. by rewrite <- app_assoc.
  - apply push_chars in E as (o & E & -> & Hl). specialize (Hl Hn). split; [done|]. cbn [push_char] in E. destruct (_ <=? _); [done|]. injection E as <-.
    rewrite !zlen_app. change (zlen [SLASH]) with 1. split; [lia|]. left. by rewrite <- app_assoc.
Qed.

Lemma join_components dir name n p : vfs_join_child_path dir name n = Some p -> 1 < zlen dir -> name <> [] ->
  components p = components dir ++ components name.
Proof.
  intros E Hd Hn. destruct (join_spec _ _ _ _ E Hd Hn) as (_ & _ & [-> | (dir' & -> & ->)]); [apply components_join|].
  rewrite !components_join. by rewrite app_nil_r.
Qed.

Section removal.
Context {S : Type} `{!Buffers S} (mnt : capyfs_mount) (count : Z) `{!BufferSpec (S := S) (m_dev mnt) count}.
Context (Hlay : layout_ok (super mnt) count).
Implicit Types (v : vfs S) (a : adisk) (p q root i j c x dir lb : Z) (d : dentry) (name : list Z) (path : list Z) (kids : Z -> list Z)
  (u : option user_record) (B : Z -> Prop).
Local Abbreviation lists := (lists mnt).
Local Abbreviation fs_ok := (fs_ok mnt).
Local Abbreviation inode_range := (inode_range mnt).
Local Abbreviation coherent := (coherent mnt count).
Local Abbreviation resolves := (resolves mnt).
Local Abbreviation path_means := (path_means mnt).
Local Abbreviation ends := (ends mnt count).
Local Abbreviation removed := (removed mnt).

(** ** What lies below an inode *)
Inductive below a : Z -> Z -> Prop :=
| below_self c : below a c c
| below_entry c i nm x y : lists a c i nm x -> below a x y -> below a c y.

Lemma below_trans a x y z : below a x y -> below a y z -> below a x z.
Proof. induction 1 as [|c i nm x y Hl _ IH]; [done|]. intros H. eapply below_entry; [exact Hl | by apply IH]. Qed.

(** Inodes of [B] may be gone, all else is as it was. *)
Record pruned B a a' : Prop := {
  pr_sub j i nm x : lists a' j i nm x -> exists i', lists a j i' nm x;
  pr_lists j i nm x : lists a j i nm x -> ~ B x -> exists i', lists a' j i' nm x;
  pr_iused j : inode_range j -> ~ B j -> a_iused a' j = a_iused a j;
  pr_gone j : inode_range j -> a_iused a' j = true -> a_iused a j = true;
  pr_inode j : ~ B j -> a_inode a' j = a_inode a j;
  pr_data j lb : inode_range j -> lb_range lb -> ~ B j -> is_dir (a_inode a j) = false -> fblock a' j lb = fblock a j lb }.

Lemma pruned_refl B a : pruned B a a.
Proof. constructor; eauto. Qed.

Lemma pruned_trans B B' a a1 a2 : pruned B a a1 -> pruned B' a1 a2 -> (forall x, B' x -> B x) -> pruned B a a2.
Proof.
  intros P P' Hsub. assert (Hn : forall x, ~ B x -> ~ B' x) by eauto. constructor.
  - intros j i nm x Hl. destruct (pr_sub _ _ _ P' _ _ _ _ Hl) as [i' Hl']. by apply (pr_sub _ _ _ P j i').
  - intros j i nm x Hl Hx. destruct (pr_lists _ _ _ P _ _ _ _ Hl Hx) as [i' Hl']. apply (pr_lists _ _ _ P' j i'); auto.
  - intros j Hj Hx. rewrite (pr_iused _ _ _ P'), (pr_iused _ _ _ P); auto.
  - intros j Hj Hu. apply (pr_gone _ _ _ P); [done|]. by apply (pr_gone _ _ _ P').
  - intros j Hx. rewrite (pr_inode _ _ _ P'), (pr_inode _ _ _ P); auto.
  - intros j lb Hj Hlb Hx Hd. rewrite (pr_data _ _ _ P'); auto; [by apply (pr_data _ _ _ P)|]. by rewrite (pr_inode _ _ _ P).
Qed.

Lemma pruned_below a a' x y B : pruned B a a' -> below a' x y -> below a x y.
Proof.
  intros P. induction 1 as [|c i nm x y Hl _ IH]; [constructor|]. destruct (pr_sub _ _ _ P _ _ _ _ Hl) as [i' Hl']. by eapply below_entry.
Qed.

Lemma removed_pruned a a' dir i0 name c : fs_ok a -> lists a dir i0 name c -> (forall k nm x, ~ lists a c k nm x) -> removed a a' dir name c ->
  pruned (fun x => x = c) a a'.
Proof.
  intros Hok Hl0 Hleaf R. constructor.
  - intros j i nm x Hl. destruct (Z.eq_dec j c) as [->|Hjc]; [by apply (rm_gone _ _ _ _ _ _ R) in Hl|].
    destruct (Z.eq_dec j dir) as [->|Hjd]; [|exists i; by apply (rm_lists _ _ _ _ _ _ R)].
    by destruct (proj1 (rm_listed _ _ _ _ _ _ R nm x) (ex_intro _ i Hl)).
  - intros j i nm x Hl Hx. destruct (Z.eq_dec j c) as [->|Hjc]; [by apply Hleaf in Hl|].
    destruct (Z.eq_dec j dir) as [->|Hjd]; [|exists i; by apply (rm_lists _ _ _ _ _ _ R)].
    apply (rm_listed _ _ _ _ _ _ R). split; [|by exists i]. intros ->. apply Hx.
    destruct (fo_unique _ _ Hok _ _ _ _ _ _ _ _ Hl Hl0 ltac:(by right)) as [_ ->]. by destruct (lists_fun mnt _ _ _ _ _ _ _ Hl Hl0).
  - intros j Hj Hx. rewrite (rm_iused _ _ _ _ _ _ R) by done. by replace (j =? c) with false by lia.
  - intros j Hj. rewrite (rm_iused _ _ _ _ _ _ R) by done. by intros [_ ?]%andb_true_iff.
  - intros j Hx. by apply (rm_inode _ _ _ _ _ _ R).
  - intros j lb Hj Hlb Hx Hd. apply (rm_fblock _ _ _ _ _ _ R); try done. intros ->. destruct Hl0 as (_ & Hd' & _). congruence.
Qed.

(** *** Paths on a pruned disk *)
Lemma resolves_app a j ws1 ws2 t : resolves false a j (ws1 ++ ws2) (inl (t, [])) ->
  exists c, resolves false a j ws1 (inl (c, [])) /\ resolves false a c ws2 (inl (t, [])).
Proof.
  revert j. induction ws1 as [|w ws1 IH]; intros j; cbn [app]; [intros H; exists j; split; [constructor | done]|].
  intros H. inversion H as [| | |? ? ? ? ? |? ? ? i c r Hw Hpo Hl Hr]; subst; [done|]. destruct (IH c Hr) as (x & Hx & Ht). exists x. split; [|done]. by eapply re_step.
Qed.

Lemma resolves_below a j ws t : resolves false a j ws (inl (t, [])) -> below a j t.
Proof.
  intros H. remember (inl (t, [])) as r eqn:Er. induction H as [j | | | |j w ws i c r Hw Hpo Hl Hr IH]; try done; [injection Er as <-; constructor|].
  eapply below_entry; [exact Hl | by apply IH].
Qed.

Lemma resolves_sub B a a' j ws t : pruned B a a' -> resolves false a' j ws (inl (t, [])) -> resolves false a j ws (inl (t, [])).
Proof. intros P. apply resolves_kept. intros j' i w x. apply (pr_sub _ _ _ P). Qed.

Lemma child_below B a a1 path name n path' c t : fs_ok a -> pruned B a a1 -> path_means false a path (inl (c, [])) ->
  vfs_join_child_path path name n = Some path' -> 1 < zlen path -> name <> [] -> path_means false a1 path' (inl (t, [])) -> below a c t.
Proof.
  intros Hok P Hm Hj Hlen Hn Hm'. pose proof (join_components _ _ _ _ Hj Hlen Hn) as Ec. unfold VfsOps.path_means in Hm, Hm'.
  destruct path as [|ch rest]; [done|]. destruct (ch =? SLASH); [|done]. destruct path' as [|ch' rest']; [done|]. destruct (ch' =? SLASH); [|done].
  rewrite Ec in Hm'. apply (resolves_sub _ _ _ _ _ _ P), resolves_app in Hm' as (x & Hx & Ht).
  pose proof (resolves_fun mnt _ _ _ _ _ _ Hok Hm Hx) as E. injection E as <-. by apply resolves_below in Ht.
Qed.

(** ** The operations *)
Definition prunes a path a' : Prop := a' = a \/ exists c, path_means false a path (inl (c, [])) /\ pruned (below a c) a a'.

Lemma removes_prunes u a path r a' c : fs_ok a -> path_ok path -> path_means false a path (inl (c, [])) -> (forall k nm x, ~ lists a c k nm x) ->
  removes mnt u a path r a' c -> prunes a path a'.
Proof.
  intros Hok Hp Hm Hleaf (dir & i & name & _ & _ & Hl & _ & R & _). right. exists c. split; [done|].
  eapply (pruned_trans (below a c)); [apply pruned_refl | by eapply removed_pruned |]. intros x ->. constructor.
Qed.

Lemma unlink_prunes u a path r a' : fs_ok a -> path_ok path -> vfs_unlink_result mnt u a path r a' -> prunes a path a' /\ r <= 0.
Proof.
  intros Hok Hp [(c & Hm & Hd & [Hr|[(? & ? & ? & ? & -> & _) ->]]) | [(c & _ & _ & -> & ->) | [(e & ? & -> & _) ->]]];
    try (split; [by left | unfold VFS_ERR_PERMISSION_DENIED, VFS_ERR_IS_DIRECTORY; lia]).
  split; [|destruct Hr as (? & ? & ? & -> & _); lia]. eapply removes_prunes; try done. intros k nm x (_ & Hx & _). congruence.
Qed.

Lemma rmdir_prunes u a path r a' : fs_ok a -> path_ok path -> vfs_rmdir_result mnt u a path r a' ->
  prunes a path a' /\ r <= 0 /\ (r = 0 -> path_means false a' path (inr VFS_ERR_NOT_FOUND)).
Proof.
  intros Hok Hp [(c & Hm & Hd & [[Hr Hleaf]|[-> Hr]]) | [(c & _ & _ & -> & ->) | [(e & ? & -> & _) ->]]].
  - split; [by eapply removes_prunes|]. destruct Hr as (? & ? & ? & -> & _ & _ & _ & _ & Hg). split; [lia | done].
  - split; [by left|]. destruct Hr as [(? & ? & ? & ? & -> & _)|[[_ ->]|[-> _]]]; split; done.
  - split; [by left|]. split; done.
  - split; [by left|]. split; [lia|]. lia.
Qed.

(** *** The children collected *)
Definition child_ok (e : list Z * Z) : Prop := name_ok e.1.

Lemma collected es l : Forall (fun e : list Z * Z => name_ok (cstr e.1)) es -> Forall child_ok (rc_children l) ->
  Forall child_ok (rc_children (visit vfs_recursive_collect_child es l)).
Proof.
  revert l. induction es as [|[f m] es IH]; intros l; [done|]. intros [Hf Hes]%Forall_cons Hl. cbn [visit fst snd].
  unfold vfs_recursive_collect_child at 1. destruct (_ || _); [cbn [negb Z.eqb]; by apply IH|]. destruct (_ <=? _); [done|]. cbn [negb Z.eqb].
  apply IH; [done|]. cbn [rc_children]. apply Forall_app. split; [done|]. apply Forall_singleton. unfold child_ok. cbn [fst].
  by rewrite name_copy.
Qed.

Lemma means_range a path c : fs_ok a -> path_means false a path (inl (c, [])) -> inode_range c.
Proof.
  intros Hok. unfold VfsOps.path_means. destruct path as [|ch rest]; [done|]. destruct (ch =? SLASH); [|done].
  assert (H : forall j ws, resolves false a j ws (inl (c, [])) -> inode_range j -> inode_range c); [|intros Hr; by apply (H _ _ Hr), (zero_range mnt count Hlay)].
  intros j ws H. remember (inl (c, [])) as r eqn:Er. induction H as [j | | | |j w ws i x r Hw Hpo Hl Hr IH]; try done; [by injection Er as <-|].
  intros _. apply IH; [done|]. by apply (fo_child _ _ Hok _ _ _ _ Hl).
Qed.

(** ** The recursion *)

(** No open file is [c] or below it. *)
Definition clear a c v : Prop := forall f fl p d, is_open v f fl p d -> ~ below a c (ino d).
Definition nothing_open_below a v path : Prop := forall c, path_means false a path (inl (c, [])) -> clear a c v.

Definition removal_ok (recurse : list Z -> V (S := S) Z) path : Prop := forall a v root kids, coherent a v root kids -> path_ok path -> nothing_open_below a v path ->
  vwp (recurse path) v (ends v root (fun a' r v' => stays_open v v' /\ prunes a path a' /\ r <= 0)).

Lemma below_not_open a v path : nothing_open_below a v path -> not_open mnt a v path.
Proof. intros H f fl p d Ho Hm. eapply H; [exact Hm | exact Ho | constructor]. Qed.

Lemma clear_stays a c v v' a1 root kids : coherent a1 v root kids -> clear a c v -> stays_open v v' -> clear a c v'.
Proof.
  intros Hco Hc St f fl p d' Ho. destruct (co_files _ _ _ _ _ _ Hco f fl) as [(q & Hq & Hs) _]; [destruct St as [<- _]; apply Ho|].
  pose proof (proj1 (proj2 Ho)) as Hp. rewrite Hp in Hq. injection Hq as <-. destruct (stays_open_at v v' f fl p d' St Ho Hs) as (d & Ho' & ->). by apply (Hc f fl p d).
Qed.

Lemma join_ok path name (cp : list Z) : vfs_join_child_path path name VFS_RMDIR_RECURSIVE_PATH_MAX = Some cp -> 1 < zlen path -> path_ok path -> name_ok name ->
  path_ok cp /\ zlen path < zlen cp < 256.
Proof.
  intros Hj Hlen Hp Hn. destruct (join_spec _ _ _ _ Hj Hlen (name_ok_ne _ Hn)) as (H1 & H2 & Hc). split; [|done].
  unfold path_ok in *. destruct Hc as [-> | (dir' & -> & ->)].
  - apply Forall_app. split; [done|]. constructor; [done | apply Hn].
  - apply Forall_app in Hp as [Hp _]. apply Forall_app. split; [done|]. constructor; [done | apply Hn].
Qed.

Lemma op_remove_children (recurse : list Z -> V (S := S) Z) path c a (children : list (list Z * Z)) : fs_ok a -> path_ok path -> 1 < zlen path ->
  path_means false a path (inl (c, [])) -> Forall child_ok children -> (forall cp, zlen path < zlen cp < 256 -> removal_ok recurse cp) ->
  forall a1 v root kids, coherent a1 v root kids -> pruned (below a c) a a1 -> clear a c v ->
  vwp (remove_children recurse path children) v (ends v root (fun a2 r v' => stays_open v v' /\ pruned (below a c) a a2 /\ r <= 0)).
Proof.
  intros Hok Hp Hlen Hm Hch Hrec. induction children as [|[name mode] children IH]; intros a1 v root kids Hco P Hf; cbn [remove_children].
  { apply vwp_ret. exists a1, kids. split_and!; [done | done | by apply stays_open_refl | done | done]. }
  apply Forall_cons in Hch as [Hn Hch]. unfold child_ok in Hn. cbn [fst] in Hn.
  assert (Hone : vwp (remove_child recurse path (name, mode)) v (ends v root (fun a2 r v' => stays_open v v' /\ pruned (below a c) a a2 /\ r <= 0))).
  { unfold remove_child. cbn [fst snd]. destruct (vfs_join_child_path path name VFS_RMDIR_RECURSIVE_PATH_MAX) as [cp|] eqn:Ej.
    2: { apply vwp_fail; [done|]. exists a1, kids. split_and!; [by apply coherent_error | done | exact (stays_open_refl v) | done | done]. }
    destruct (join_ok _ _ _ Ej Hlen Hp Hn) as [Hpp Hlp].
    assert (Hin : forall a2, prunes a1 cp a2 -> pruned (below a c) a a2).
    { intros a2 [->|(t & Ht & P2)]; [done|]. eapply pruned_trans; [exact P | exact P2 |]. intros x Hx.
      eapply below_trans; [eapply child_below; [exact Hok | exact P | exact Hm | exact Ej | done | by apply name_ok_ne | exact Ht] |].
      by eapply pruned_below. }
    assert (Hap : nothing_open_below a1 v cp).
    { intros t Ht f fl p d Ho Hb. apply (Hf f fl p d Ho). eapply below_trans; [|by eapply pruned_below].
      eapply child_below; [exact Hok | exact P | exact Hm | exact Ej | done | by apply name_ok_ne | exact Ht]. }
    destruct (truthy (Z.land mode VFS_MODE_DIR)).
    - eapply vwp_mono; [eapply (Hrec cp Hlp); [exact Hco | exact Hpp | exact Hap]|]. intros r v' (a2 & kids2 & Hc2 & Hw & Hf2 & Hpr & Hr).
      exists a2, kids2. split_and!; try done. by apply Hin.
    - pose proof (co_fs _ _ _ _ _ _ Hco) as (_ & Hok1 & _).
      eapply vwp_mono; [eapply (op_unlink mnt count Hlay); [exact Hco | exact Hpp | by apply below_not_open]|]. intros r v' (a2 & kids2 & Hc2 & Hw & Hf2 & Hr).
      destruct (unlink_prunes _ _ _ _ _ Hok1 Hpp Hr) as [Hpr Hneg]. exists a2, kids2. split_and!; [done | done | done | by apply Hin | done]. }
  apply vwp_bind. eapply vwp_mono; [exact Hone|]. intros r v' (a2 & kids2 & Hc2 & Hw & Hf2 & Hpr & Hr). destruct (Z.eqb_spec r 0) as [->|Hne]; cbn [negb].
  - eapply vwp_mono; [eapply IH; [exact Hch | exact Hc2 | exact Hpr | by apply (clear_stays a c v v' a1 root kids Hco)]|]. intros r v2 (a3 & kids3 & Hc3 & Hw3 & H3 & H4 & H5). exists a3, kids3.
    split_and!; [done | congruence | by eapply stays_open_trans | done | done].
  - apply vwp_ret. exists a2, kids2. by split_and!.
Qed.

Lemma op_rmdir_recursive fuel path a v root kids : coherent a v root kids -> path_ok path -> nothing_open_below a v path -> (0 < fuel)%nat -> 256 < zlen path + Z.of_nat fuel ->
  vwp (rmdir_recursive fuel path) v (ends v root (fun a' r v' => stays_open v v' /\ prunes a path a' /\ r <= 0 /\
    (r = 0 -> path_means false a' path (inr VFS_ERR_NOT_FOUND)))).
Proof.
  revert path a v root kids. induction fuel as [|fuel IH]; intros path a v root kids Hco Hp Hf Hpos Hfuel; [lia|]. cbn [rmdir_recursive].
  apply vwp_bind, vwp_set_ok.
  assert (Hco0 : coherent a (set_last_error VFS_OK v) root kids) by (by apply coherent_error).
  set (v0 := set_last_error VFS_OK v) in *.
  set (Post := fun a' r v' => stays_open v v' /\ prunes a path a' /\ r <= 0 /\ (r = 0 -> path_means false a' path (inr VFS_ERR_NOT_FOUND))).
  assert (Hfail : forall e v1 kids1, 0 < e -> coherent a v1 root kids1 -> who v1 = who v -> stays_open v v1 -> vwp (vfs_fail e) v1 (ends v root Post)).
  { intros e v1 kids1 He Hc Hw Hf1. apply vwp_fail; [lia|]. exists a, kids1. split_and!; [apply coherent_error; [lia | done] | done |].
    split_and!; [done | by left | lia | lia]. }
  pose proof (stays_open_refl v0 : stays_open v v0) as St0.
  destruct path as [|ch rest]; [by eapply Hfail|]. destruct (ch =? SLASH); cbn [negb]; [|by eapply Hfail].
  destruct rest as [|c2 rest]; [rewrite bool_decide_eq_true_2 by done; by eapply Hfail|]. rewrite bool_decide_eq_false_2 by done. set (path := ch :: c2 :: rest) in *.
  assert (Hlen : 1 < zlen path) by (unfold path; rewrite !zlen_cons; pose proof (zlen_nonneg rest); lia).
  apply vwp_bind. eapply vwp_mono; [by eapply (op_stat mnt count Hlay)|]. intros [rc st] v1 (a1 & kids1 & Hc1 & Hw1 & -> & Hf1 & Hst).
  change (who v1 = who v) in Hw1. change (stays_open v v1) in Hf1. pose proof (co_error _ _ _ _ _ _ Hc1) as He1.
  assert (Hlast : vwp (vfs_fail_last_or VFS_ERR_NOT_FOUND) v1 (ends v root Post)).
  { apply vwp_fail_last; [done | done |]. exists a, kids1.
    assert (Hl : 0 < last_or VFS_ERR_NOT_FOUND v1) by (unfold last_or, VFS_OK, VFS_ERR_NOT_FOUND; destruct (Z.eqb_spec (g_vfs_last_error v1) 0); cbn [negb]; lia).
    split_and!; [apply coherent_error; [lia | done] | done |]. split_and!; [done | by left | lia | lia]. }
  destruct Hst as [(c & Hm & _ & E) | [(c & _ & _ & E) | (e & Hpe & _ & E)]]; injection E as -> ->.
  2: { exact Hlast. }
  2: { replace (- e =? 0) with false by lia. exact Hlast. }
  cbn [Z.eqb]. destruct (truthy (Z.land (st_mode _) VFS_MODE_DIR)); cbn [negb]; [|by eapply Hfail].
  apply vwp_bind, vwp_lift. unfold wp, kalloc. rewrite (proj2 (proj2 (co_fs _ _ _ _ _ _ Hc1))). cbn [negb].
  replace (set_fs (fs v1) v1) with v1 by (by destruct v1).
  pose proof (co_fs _ _ _ _ _ _ Hc1) as (_ & Hok & _).
  apply vwp_bind. eapply vwp_mono; [by eapply (op_listdir mnt count Hlay)|]. intros [lrc l] v2 (a2 & kids2 & Hc2 & Hw2 & -> & Hf2 & Hl & Hlerr). cbn [fst snd] in *.
  destruct (Z.eqb_spec lrc 0) as [->|Hne]; cbn [negb].
  2: { apply vwp_bind, vwp_get_error. pose proof (co_error _ _ _ _ _ _ Hc2) as He2.
       eapply Hfail; [|exact Hc2 | congruence | by eapply stays_open_trans].
       destruct (rc_overflow l); [done|]. unfold VFS_OK. destruct (Z.eqb_spec (g_vfs_last_error v2) 0); cbn [negb]; [done | lia]. }
  assert (Hch : Forall child_ok (rc_children l)).
  { destruct Hl as [(x & Hx & Hl)|(e & Hpe & E & _)]; [|injection E as E _; lia].
    destruct (is_dir (a_inode a x)) eqn:Ed; cbn [negb] in Hl; [|done]. destruct (allowed _ _ _); cbn [negb] in Hl; [|done]. injection Hl as ->.
    apply collected; [|apply Forall_nil_2]. apply Forall_forall. intros e He.
    pose proof (path_means_fun mnt _ _ _ _ _ Hok Hm Hx) as Ex. injection Ex as <-.
    assert (Hr : inode_range c) by (by eapply means_range).
    destruct (shown_list_listed mnt a c e Hok Hr Ed He) as (i & nm & y & Hly & -> & _). by apply (fo_name _ _ Hok _ _ _ _ Hly). }
  pose proof (stays_open_trans _ _ _ Hf1 Hf2) as St2. assert (Hclear : clear a c v2) by (by apply (clear_stays a c v v2 a root kids Hco (Hf c Hm))).
  apply vwp_bind. eapply vwp_mono.
  { eapply (op_remove_children (rmdir_recursive fuel) path c a (rc_children l) Hok Hp Hlen Hm Hch); [|exact Hc2 | apply pruned_refl | exact Hclear]. 
    intros cp Hlp a0 v3 root3 kids3 Hc3 Hpp Hf3. eapply vwp_mono; [eapply IH; [exact Hc3 | exact Hpp | exact Hf3 | lia | lia]|].
    intros r v4 (a4 & kids4 & H4 & H5 & H6 & H7 & H8 & _). exists a4, kids4. by split_and!. }
  intros r v3 (a3 & kids3 & Hc3 & Hw3 & Hf3 & P3 & Hr3). pose proof (stays_open_trans _ _ _ St2 Hf3) as St3.
  destruct (Z.eqb_spec r 0) as [->|Hr0]; cbn [negb].
  2: { apply vwp_ret. exists a3, kids3. split_and!; [done | congruence |]. split_and!; [done | right; by exists c | done | done]. }
  pose proof (co_fs _ _ _ _ _ _ Hc3) as (_ & Hok3 & _).
  assert (Hsame : forall t, path_means false a3 path (inl (t, [])) -> t = c).
  { intros t Ht. unfold VfsOps.path_means in Ht, Hm. unfold path in *. destruct (ch =? SLASH); [|done]. apply (resolves_sub _ _ _ _ _ _ P3) in Ht.
    pose proof (resolves_fun mnt _ _ _ _ _ _ Hok Hm Ht) as E. by injection E as ->. }
  assert (Hno3 : not_open mnt a3 v3 path).
  { intros f fl p d Ho Ht%Hsame. apply (clear_stays a c v v3 a root kids Hco (Hf c Hm) St3 f fl p d Ho). rewrite Ht. constructor. }
  eapply vwp_mono; [eapply (op_rmdir mnt count Hlay); [exact Hc3 | exact Hp | exact Hno3]|]. intros r v4 (a4 & kids4 & Hc4 & Hw4 & Hf4 & Hres).
  destruct (rmdir_prunes _ _ _ _ _ Hok3 Hp Hres) as (Hpr & Hneg & Hgone). exists a4, kids4. split_and!; [done | congruence |]. split_and!; [by eapply stays_open_trans | | done | done].
  right. exists c. split; [done|]. destruct Hpr as [->|(t & Ht & P4)]; [done|]. eapply pruned_trans; [exact P3 | exact P4 |]. intros x Hx.
  rewrite (Hsame t Ht) in Hx. by eapply pruned_below.
Qed.
End removal.
