(* ===== verification/VfsSystem.v ===== *)
(** * The virtual file system as a whole

    The calls as steps of a machine that starts from a mounted CAPYFS, and the theorems:
    no sequence of calls that removes nothing open touches freed memory or loops, paths
    mean what the disk says whatever is cached, and what each operation does to the name
    space and the files; removing a file that is open leaves its next use wild.  At the
    end, runs in which the code does less than it means to.

    All of it is over the interface [BufferSpec], that is a device that works, and with
    every request for memory granted; with a failing device or none of the memory an
    operation may return an error with part of its work done. *)
From stdpp Require Import strings.
From S2P Require Import Prelude BlockDevice Storage BufferCache BufferCoherence Buffers CapyFs CapyFsDisk CapyFsFile CapyFsDir CapyFsTree CapyFsMove CapyFsFormat CapyFsSystem Vfs VfsCache VfsResolve VfsOps VfsNames VfsRemoval.
Local Open Scope capy_scope.

#[local] Opaque le_bytes.

Section machine.
Context {S : Type} `{!Buffers S}.
Implicit Types (v : vfs S) (path : list Z) (f : Z).

(** The dentry of the path is that of an open file. *)
Definition in_use v path : Prop :=
  match vfs_resolve (Some path) false v with
  | Ok (Some p, _) _ => exists f fl, files v !! f = Some fl /\ vf_dentry fl = Some p
  | _ => False
  end.

(** [r] is [p] or a dentry above it. *)
Inductive above v (r : Z) : Z -> Prop :=
| above_self : above v r r
| above_parent p d q : dents v !! p = Some d -> dn_parent d = Some q -> above v r q -> above v r p.

(** A file is open whose dentry is that of the path or one below it. *)
Definition open_below v path : Prop :=
  match vfs_resolve (Some path) false v with
  | Ok (Some r, _) v1 => exists f fl p, files v !! f = Some fl /\ vf_dentry fl = Some p /\ above v1 r p
  | _ => False
  end.

Definition forget {A} (o : outcome A (vfs S)) : outcome unit (vfs S) := match o with Ok _ v => Ok tt v | Wild => Wild | Spin => Spin end.

(** A call of the interface.  What is removed is not open, and no file is open in a
    directory tree that is removed. *)
Inductive vfs_call v : outcome unit (vfs S) -> Prop :=
| vcall_lookup path : path_ok path -> vfs_call v (forget (vfs_lookup (Some path) true v))
| vcall_create path mode meta : path_ok path -> 0 <= mode < 2 ^ 16 -> meta_ok meta -> vfs_call v (forget (vfs_create (Some path) mode meta v))
| vcall_open path flags : path_ok path -> vfs_call v (forget (vfs_open (Some path) flags v))
| vcall_close f : is_Some (files v !! f) -> vfs_call v (forget (vfs_close (Some f) v))
| vcall_read f dst size : is_Some (files v !! f) -> 0 <= size <= zlen dst -> vfs_call v (forget (vfs_read (Some f) (Some dst) size v))
| vcall_write f src size : is_Some (files v !! f) -> 0 <= size <= zlen src -> bytes_ok src -> vfs_call v (forget (vfs_write (Some f) (Some src) size v))
| vcall_listdir {C} path (cb : list Z -> Z -> C -> Z * C) ctx : path_ok path -> vfs_call v (forget (vfs_listdir (Some path) cb ctx v))
| vcall_unlink path : path_ok path -> ~ in_use v path -> vfs_call v (forget (vfs_unlink (Some path) v))
| vcall_rmdir path : path_ok path -> ~ in_use v path -> vfs_call v (forget (vfs_rmdir (Some path) v))
| vcall_rmdir_recursive path : path_ok path -> ~ open_below v path -> vfs_call v (forget (vfs_rmdir_recursive (Some path) v))
| vcall_rename src dst : path_ok src -> path_ok dst -> vfs_call v (forget (vfs_rename (Some src) (Some dst) v))
| vcall_stat path : path_ok path -> vfs_call v (forget (vfs_stat_path (Some path) true v))
| vcall_set_metadata path m : path_ok path -> meta_ok (Some m) -> vfs_call v (forget (vfs_set_metadata (Some path) (Some m) v))
| vcall_login u : user_ok u -> vfs_call v (Ok tt (mkVfs (root_sb v) (g_vfs_last_error v) u (dents v) (files v) (brk v) (fs v))).

Definition vfs_moves v v' : Prop := vfs_call v (Ok tt v').

(** The dentry that a mount of CAPYFS makes, and the state after [vfs_mount_root]. *)
Definition root_dentry (nd : inode) : dentry := mkDentry [SLASH] None None None (Some nd) 1.
Definition unmounted_vfs (u : option user_record) (nd : inode) (s : fsys S) : vfs S := mkVfs None 0 u {[ 0 := root_dentry nd ]} ∅ 1 s.
Definition vfs_boot (u : option user_record) (nd : inode) (s : fsys S) : vfs S := mkVfs (Some 0) 0 u {[ 0 := root_dentry nd ]} ∅ 1 s.

Lemma vfs_boots u nd s : vbind vfs_init (fun _ => vfs_mount_root (Some 0)) (unmounted_vfs u nd s) = Ok 0 (vfs_boot u nd s).
Proof. done. Qed.
End machine.

Section system.
Context {S : Type} `{!Buffers S} (mnt : capyfs_mount) (count : Z) `{!BufferSpec (S := S) (m_dev mnt) count}.
Context (Hlay : layout_ok (super mnt) count).
Implicit Types (v : vfs S) (a : adisk) (path src dst : list Z) (c i j x : Z) (u : option user_record).
Local Abbreviation lists := (lists mnt).
Local Abbreviation vnode := (vnode mnt).
Local Abbreviation path_means := (path_means mnt).

(** A state between two calls, of disk [a]. *)
Definition ready a v : Prop := exists root kids, coherent mnt count a v root kids.

Lemma boot_ready a u s : mounted mnt count a s -> ready a (vfs_boot u (vnode a 0) s).
Proof.
  intros Hmt. exists 0, (fun _ => []). pose proof Hmt as (_ & Hok & _).
  assert (Hone : forall p d, ({[ 0 := root_dentry (vnode a 0) ]} : gmap Z dentry) !! p = Some d -> p = 0 /\ d = root_dentry (vnode a 0)).
  { intros p d [<- <-]%lookup_singleton_Some. done. }
  constructor; cbn [vfs_boot root_sb dents files fs brk g_vfs_last_error]; try done.
  - constructor.
    + exists (root_dentry (vnode a 0)). split; [apply lookup_singleton_eq | done].
    + by intros p d [-> ->]%Hone.
    + by intros p d [-> ->]%Hone.
    + by intros q p d _ ?%elem_of_nil.
  - constructor.
    + exists (root_dentry (vnode a 0)). split; [apply lookup_singleton_eq | done].
    + intros p d [-> ->]%Hone. split; [done|]. split; [apply (zero_range mnt count Hlay) | apply Hok].
    + by intros p d q dq [-> ->]%Hone.
    + by intros p q d d' [-> _]%Hone [-> _]%Hone.
  - intros p [[d Hp]|[fl Hp]]; [by apply Hone in Hp as [-> _] | by rewrite lookup_empty in Hp].
Qed.

Lemma ready_run {A} a v (m : V (S := S) A) (R : adisk -> A -> vfs S -> Prop) : ready a v ->
  (forall root kids, coherent mnt count a v root kids -> vwp m v (ends mnt count v root R)) ->
  exists r v' a', m v = Ok r v' /\ ready a' v' /\ who v' = who v /\ R a' r v'.
Proof.
  intros (root & kids & Hco) H. destruct (vwp_elim _ _ _ (H root kids Hco)) as (r & v' & E & a' & kids' & Hc' & Hw & HR).
  exists r, v', a'. split_and!; try done. by exists root, kids'.
Qed.

Lemma unused a v root kids path : coherent mnt count a v root kids -> path_ok path -> ~ in_use v path -> not_open mnt a v path.
Proof.
  intros Hco Hp Hno f fl p d (Hf & Hfl & Hd) Hm. apply Hno. unfold in_use. pose proof (co_fs _ _ _ _ _ _ Hco) as (_ & Hok & _).
  destruct (vwp_elim _ _ _ (vwp_resolve mnt count Hlay false path a v root kids Hco Hp)) as ([r l] & v' & E & kids' & Hc' & Hk & Hfd & _).
  rewrite E. unfold found in Hfd. cbn [fst snd] in Hfd. destruct r as [q|].
  - destruct Hfd as (dq & Hq & Hmq). exists f, fl. split; [done|]. destruct (keeps_dentry _ _ _ _ Hk Hd) as (d' & Hd' & Ei & _).
    pose proof (path_means_fun mnt _ _ _ _ _ Hok Hm Hmq) as Eq. injection Eq as Eq _.
    rewrite Hfl. f_equal. apply (sh_inj _ _ _ _ (co_shown _ _ _ _ _ _ Hc') p q d' dq); try done. congruence.
  - destruct Hfd as [Hmq _]. pose proof (path_means_fun mnt _ _ _ _ _ Hok Hm Hmq). done.
Qed.

(** Below an inode on the disk is below its dentry in the tree. *)
Lemma below_snoc a b (P : Z -> Prop) : P b -> (forall x i nm y, below mnt a b x -> P x -> lists a x i nm y -> P y) -> forall y, below mnt a b y -> P y.
Proof.
  intros H0 Hstep y Hb. assert (H : forall c z, below mnt a c z -> below mnt a b c -> P c -> P z).
  { induction 1 as [|c i nm x z Hl _ IH]; [done|]. intros Hbc Hc. apply IH; [|by eapply Hstep]. eapply (below_trans mnt); [exact Hbc|]. eapply below_entry; [exact Hl | constructor]. }
  apply (H b y); [done | constructor | done].
Qed.

Lemma below_above a v root kids r dr : coherent mnt count a v root kids -> dents v !! r = Some dr -> forall y, below mnt a (ino dr) y ->
  forall p d, dents v !! p = Some d -> ino d = y -> above v r p.
Proof.
  intros Hco Hr. pose proof (co_fs _ _ _ _ _ _ Hco) as (_ & Hok & _). apply (below_snoc a (ino dr) (fun y => forall p d, dents v !! p = Some d -> ino d = y -> above v r p)).
  - intros p d Hd E. rewrite (sh_inj _ _ _ _ (co_shown _ _ _ _ _ _ Hco) p r d dr Hd Hr E). constructor.
  - intros x i nm y _ IH Hl p d Hd Ey. destruct (sh_root _ _ _ _ (co_shown _ _ _ _ _ _ Hco)) as (d0 & Hd0 & E0).
    assert (Hpr : p <> root). { intros ->. rewrite Hd in Hd0. injection Hd0 as ->. apply (lists_nonzero mnt _ _ _ _ _ Hl). congruence. }
    destruct (tr_up _ _ _ (co_tree _ _ _ _ _ _ Hco) p d Hd Hpr) as (q & Hq & [dq Hdq] & _).
    destruct (sh_link _ _ _ _ (co_shown _ _ _ _ _ _ Hco) p d q dq Hd Hq Hdq) as (_ & k & Hk). rewrite Ey in Hk.
    destruct (fo_unique _ _ Hok _ _ _ _ _ _ _ _ Hl Hk ltac:(by left)) as [-> _]. eapply above_parent; [exact Hd | exact Hq | by apply (IH q dq)].
Qed.

Lemma nothing_below a v root kids path : coherent mnt count a v root kids -> path_ok path -> ~ open_below v path -> nothing_open_below mnt a v path.
Proof.
  intros Hco Hp Hno c Hm f fl p d (Hf & Hfl & Hd) Hb. apply Hno. unfold open_below. pose proof (co_fs _ _ _ _ _ _ Hco) as (_ & Hok & _).
  destruct (vwp_elim _ _ _ (vwp_resolve mnt count Hlay false path a v root kids Hco Hp)) as ([r l] & v' & E & kids' & Hc' & Hk & Hfd & _).
  rewrite E. unfold found in Hfd. cbn [fst snd] in Hfd. destruct r as [q|].
  - destruct Hfd as (dq & Hq & Hmq). exists f, fl, p. split; [done|]. split; [done|]. destruct (keeps_dentry _ _ _ _ Hk Hd) as (d' & Hd' & Ei & _).
    pose proof (path_means_fun mnt _ _ _ _ _ Hok Hm Hmq) as Eq. injection Eq as Eq _. apply (below_above a v' root kids' q dq Hc' Hq (ino d)) with d'; [by rewrite <- Eq | done | done].
  - destruct Hfd as [Hmq _]. by pose proof (path_means_fun mnt _ _ _ _ _ Hok Hm Hmq).
Qed.

(** ** Every call *)
Lemma call_ready a v o : ready a v -> user_ok (who v) -> vfs_call v o -> exists v' a', o = Ok tt v' /\ ready a' v' /\ user_ok (who v').
Proof.
  intros Hv Hu Hc.
  assert (Hrun : forall {A} (m : V (S := S) A) (R : adisk -> A -> vfs S -> Prop),
    (forall root kids, coherent mnt count a v root kids -> vwp m v (ends mnt count v root R)) -> exists v' a', forget (m v) = Ok tt v' /\ ready a' v' /\ user_ok (who v')).
  { intros A m R H. destruct (ready_run a v m R Hv H) as (r & v' & a' & -> & Hr & Hw & _). exists v', a'. split_and!; [done | done | by rewrite Hw]. }
  assert (Hopen : forall f, is_Some (files v !! f) -> exists fl, forall root kids, coherent mnt count a v root kids -> exists p d, is_open v f fl p d).
  { intros f [fl Hf]. exists fl. intros root kids Hco. by eapply open_dentry. }
  destruct Hc as [path Hp | path mode meta Hp Hm Hme | path flags Hp | f [fl Hf] | f dst size Hf Hsz | f src size Hf Hsz Hsb | C path cb ctx Hp |
    path Hp Hno | path Hp Hno | path Hp Hf | src dst Hps Hpd | path Hp | path m Hp Hm | u Hul].
  - eapply Hrun. intros root kids Hco. exact (op_lookup mnt count Hlay path a v root kids Hco Hp).
  - eapply Hrun. intros root kids Hco. exact (op_create mnt count Hlay path mode meta a v root kids Hco Hp Hm Hme Hu).
  - eapply Hrun. intros root kids Hco. exact (op_open mnt count Hlay path flags a v root kids Hco Hp).
  - eapply Hrun. intros root kids Hco. exact (op_close mnt count f fl a v root kids Hco Hf).
  - destruct Hv as (root & kids & Hco). destruct (Hopen f Hf) as [fl Hfl]. destruct (Hfl root kids Hco) as (p & d & Ho).
    destruct (vwp_elim _ _ _ (op_read mnt count Hlay f fl p d dst size a v root kids Hco Ho Hsz)) as (r & v' & E & a' & kids' & Hc' & Hw & _).
    exists v', a'. rewrite E. split_and!; [done | by exists root, kids' | by rewrite Hw].
  - destruct Hv as (root & kids & Hco). destruct (Hopen f Hf) as [fl Hfl]. destruct (Hfl root kids Hco) as (p & d & Ho).
    destruct (vwp_elim _ _ _ (op_write mnt count Hlay f fl p d src size a v root kids Hco Ho Hsz Hsb)) as (r & v' & E & a' & kids' & Hc' & Hw & _).
    exists v', a'. rewrite E. split_and!; [done | by exists root, kids' | by rewrite Hw].
  - eapply Hrun. intros root kids Hco. exact (op_listdir mnt count Hlay path cb ctx a v root kids Hco Hp).
  - eapply Hrun. intros root kids Hco. exact (op_unlink mnt count Hlay path a v root kids Hco Hp (unused a v root kids path Hco Hp Hno)).
  - eapply Hrun. intros root kids Hco. exact (op_rmdir mnt count Hlay path a v root kids Hco Hp (unused a v root kids path Hco Hp Hno)).
  - eapply Hrun. intros root kids Hco. unfold vfs_rmdir_recursive. apply (op_rmdir_recursive mnt count Hlay _ path a v root kids Hco Hp (nothing_below a v root kids path Hco Hp Hf)); [lia|].
    unfold recursion_fuel, VFS_RMDIR_RECURSIVE_PATH_MAX. pose proof (zlen_nonneg path). lia.
  - eapply Hrun. intros root kids Hco. exact (op_rename mnt count Hlay src dst a v root kids Hco Hps Hpd).
  - eapply Hrun. intros root kids Hco. exact (op_stat mnt count Hlay path a v root kids Hco Hp).
  - eapply Hrun. intros root kids Hco. exact (op_set_metadata mnt count Hlay path m a v root kids Hco Hp Hm).
  - destruct Hv as (root & kids & []). eexists _, a. split_and!; [done | | done]. exists root, kids. by constructor.
Qed.

Lemma star_ready a v v' : ready a v -> user_ok (who v) -> star vfs_moves v v' -> exists a', ready a' v' /\ user_ok (who v').
Proof.
  intros Hr Hu Hs. revert a Hr Hu. induction Hs as [v | v v1 v2 Hm _ IH]; intros a Hr Hu; [by exists a|].
  destruct (call_ready a v _ Hr Hu Hm) as (v' & a' & E & Hr' & Hu'). injection E as <-. by apply (IH a').
Qed.

(** ** What the calls do *)

(** C9. A path means what the disk says, whatever the cache of dentries holds: a lookup
    returns a dentry of the inode that the walk from the root over the directory
    entries leads to, or the error of that walk, and changes nothing on the disk.  (The
    device works and memory is granted, here and below.) *)
Theorem vfs_lookup_correct a v path : ready a v -> path_ok path ->
  exists r v', vfs_lookup (Some path) true v = Ok r v' /\ ready a v' /\ files v' = files v /\
    ((exists p c, r = (0, Some p) /\ dentry_of v' p c /\ path_means false a path (inl (c, []))) \/
     (exists e, r = (- e, None) /\ 0 < e /\ path_means false a path (inr e))).
Proof.
  intros Hr Hp. destruct (ready_run a v _ _ Hr (fun root kids Hco => op_lookup mnt count Hlay path a v root kids Hco Hp)) as (r & v' & a' & E & Hr' & _ & -> & Hf & H).
  by exists r, v'.
Qed.

(** C15. Creation makes a new inode with the mode asked for, the owner given or else the
    user of the session, lists it under the last word of the path and leaves all else
    as it was; afterwards the path leads to it.  On failure nothing in use changes,
    and the return value tells the first of these that holds: a bad path, no name, a
    name that is taken, a directory not writable, a parent that is a file or no room.
    The device works and every request for memory is granted. *)
Theorem vfs_create_correct a v path mode meta : ready a v -> path_ok path -> 0 <= mode < 2 ^ 16 -> meta_ok meta -> user_ok (who v) ->
  exists r v' a', vfs_create (Some path) mode meta v = Ok r v' /\ ready a' v' /\ files v' = files v /\ vfs_create_result mnt (who v) a path mode meta r a'.
Proof.
  intros Hr Hp Hm Hme Hu.
  destruct (ready_run a v _ _ Hr (fun root kids Hco => op_create mnt count Hlay path mode meta a v root kids Hco Hp Hm Hme Hu)) as (r & v' & a' & E & Hr' & _ & Hf & H).
  by exists r, v', a'.
Qed.

(** C14. Unlinking a file that is not open succeeds exactly when the path leads to a file
    and its directory is writable: the name and the inode are gone and nothing else,
    and the path leads nowhere.  Otherwise the files stay as they were.  The device works
    and memory is granted: a write that fails half way leaves a part removed. *)
Theorem vfs_unlink_correct a v path : ready a v -> path_ok path -> ~ in_use v path ->
  exists r v' a', vfs_unlink (Some path) v = Ok r v' /\ ready a' v' /\ files v' = files v /\ vfs_unlink_result mnt (who v) a path r a'.
Proof.
  intros Hr Hp Hno.
  destruct (ready_run a v _ _ Hr (fun root kids Hco => op_unlink mnt count Hlay path a v root kids Hco Hp (unused a v root kids path Hco Hp Hno)))
    as (r & v' & a' & E & Hr' & _ & [Hf _] & H). by exists r, v', a'.
Qed.

(** [vfs_rmdir] removes a directory exactly when the path leads to one that is empty,
    not the root and not open, in a writable directory; otherwise the disk stays as it
    was and the return value says which of these failed. *)
Theorem vfs_rmdir_correct a v path : ready a v -> path_ok path -> ~ in_use v path ->
  exists r v' a', vfs_rmdir (Some path) v = Ok r v' /\ ready a' v' /\ files v' = files v /\ vfs_rmdir_result mnt (who v) a path r a'.
Proof.
  intros Hr Hp Hno.
  destruct (ready_run a v _ _ Hr (fun root kids Hco => op_rmdir mnt count Hlay path a v root kids Hco Hp (unused a v root kids path Hco Hp Hno)))
    as (r & v' & a' & E & Hr' & _ & [Hf _] & H). by exists r, v', a'.
Qed.

(** C20. A rename moves the entry the first path names to the name and directory of the
    second one, both writable, and changes no other entry; open files stay open.  On
    failure nothing in use changes, and the return value tells what failed. *)
Theorem vfs_rename_correct a v src dst : ready a v -> path_ok src -> path_ok dst ->
  exists r v' a', vfs_rename (Some src) (Some dst) v = Ok r v' /\ ready a' v' /\ files v' = files v /\ vfs_rename_result mnt (who v) a src dst r a'.
Proof.
  intros Hr Hp Hp'.
  destruct (ready_run a v _ _ Hr (fun root kids Hco => op_rename mnt count Hlay src dst a v root kids Hco Hp Hp')) as (r & v' & a' & E & Hr' & _ & Hf & H).
  by exists r, v', a'.
Qed.

(** C25. While no file is open at the path or below it, removing a tree ends, and removes at
    most what lies below the directory: every other inode stays in use with its contents,
    owner and entries, and open files stay open.  If it returns 0 the path leads nowhere. *)
Theorem vfs_rmdir_recursive_prunes a v path : ready a v -> path_ok path -> ~ open_below v path ->
  exists r v' a', vfs_rmdir_recursive (Some path) v = Ok r v' /\ ready a' v' /\ stays_open v v' /\ prunes mnt a path a' /\ r <= 0 /\
    (r = 0 -> path_means false a' path (inr VFS_ERR_NOT_FOUND)).
Proof.
  intros Hr Hp Hf. pose proof (zlen_nonneg path).
  destruct (ready_run a v _ _ Hr (fun root kids Hco => op_rmdir_recursive mnt count Hlay (Datatypes.S recursion_fuel) path a v root kids Hco Hp (nothing_below a v root kids path Hco Hp Hf)
    ltac:(lia) ltac:(unfold recursion_fuel, VFS_RMDIR_RECURSIVE_PATH_MAX; lia))) as (r & v' & a' & E & Hr' & _ & H0 & H1 & H2 & H3).
  by exists r, v', a'.
Qed.

(** C24. A file is opened only if the path leads to an inode whose permissions let the
    user read it, when the flags ask for reading, and write it, when they ask for
    writing.  It then stands at position 0 of that inode; otherwise no file is open
    that was not, and the error is set. *)
Theorem vfs_open_checked a v path flags : ready a v -> path_ok path ->
  exists r v', vfs_open (Some path) flags v = Ok r v' /\ ready a v' /\ open_result mnt a path flags (who v) v r v'.
Proof.
  intros Hr Hp. destruct (ready_run a v _ _ Hr (fun root kids Hco => op_open mnt count Hlay path flags a v root kids Hco Hp)) as (r & v' & a' & E & Hr' & _ & -> & H).
  by exists r, v'.
Qed.

(** An open that is allowed. *)
Lemma open_allowed a v path flags c : ready a v -> path_ok path -> path_means false a path (inl (c, [])) -> may_open mnt (who v) a c (open_flags flags) = true ->
  exists f v' p d, vfs_open (Some path) flags v = Ok (Some f) v' /\ ready a v' /\ who v' = who v /\
    is_open v' f (mkVfile (Some p) 0 (open_flags flags)) p d /\ ino d = c.
Proof.
  intros Hr Hp Hm Hmay. pose proof Hr as (root0 & kids0 & Hco0). pose proof (co_fs _ _ _ _ _ _ Hco0) as (_ & Hok & _).
  destruct (ready_run a v _ _ Hr (fun root kids Hco => op_open mnt count Hlay path flags a v root kids Hco Hp)) as (r & v' & a' & E & Hr' & Hw & -> & Hres).
  destruct Hres as [(p & c' & f & -> & Hm' & _ & _ & Hf & d & Hd & Hi) | (_ & _ & [(c' & Hm' & Hno & _)|Hm'])].
  - pose proof (path_means_fun mnt _ _ _ _ _ Hok Hm Hm') as Ec. injection Ec as <-. exists f, v', p, d. split_and!; try done.
    split_and!; [by rewrite Hf, lookup_insert_eq | done | done].
  - pose proof (path_means_fun mnt _ _ _ _ _ Hok Hm Hm') as Ec. injection Ec as <-. congruence.
  - pose proof (path_means_fun mnt _ _ _ _ _ Hok Hm Hm'). done.
Qed.

Lemma permission_written a a' c pos src k u needed : file_written mnt c pos src k a a' ->
  allowed u (vnode a' c) needed = allowed u (vnode a c) needed /\ is_dir (a_inode a' c) = is_dir (a_inode a c).
Proof.
  intros W. pose proof (fw_meta _ _ _ _ _ _ _ W) as E. unfold imeta in E. cbn [set_d_size d_mode d_uid d_gid d_perm] in E. injection E as E1 _ _ E3 E4 E5 _.
  unfold is_dir, allowed, class_shift, CapyFsTree.vnode. cbn [i_uid i_gid i_perm ur_uid ur_gid]. by rewrite E1, E3, E4, E5.
Qed.

(** C13. What is written to a file is there when the file is opened again: for a user
    allowed to read and write it, opening, writing, closing and opening again all
    succeed, and a read returns the bytes the write stored, which are all of them
    unless the disk is full or the file has its largest size. *)
Theorem vfs_write_reopen_read a v path c src size dst : ready a v -> path_ok path -> path_means false a path (inl (c, [])) ->
  is_dir (a_inode a c) = false -> allowed (who v) (vnode a c) VFS_PERM_READ = true ->
  allowed (who v) (vnode a c) VFS_PERM_WRITE = true -> 0 < size <= zlen src -> bytes_ok src -> size <= zlen dst ->
  exists f v1 k v2 v3 g v4 dst' v5 a', vfs_open (Some path) VFS_OPEN_WRITE v = Ok (Some f) v1 /\ vfs_write (Some f) (Some src) size v1 = Ok k v2 /\
    vfs_close (Some f) v2 = Ok 0 v3 /\ vfs_open (Some path) VFS_OPEN_READ v3 = Ok (Some g) v4 /\ vfs_read (Some g) (Some dst) k v4 = Ok (k, dst') v5 /\
    ready a' v5 /\ 0 <= k <= size /\ sub_bytes dst' 0 k = sub_bytes src 0 k /\ (k < size -> MAX_FILE <= k \/ full mnt a').
Proof.
  intros Hr Hp Hm Hdir Hpr Hpw Hsz Hsb Hdst. pose proof Hr as (root0 & kids0 & Hco0). pose proof (co_fs _ _ _ _ _ _ Hco0) as (_ & Hok & _).
  destruct (open_allowed a v path VFS_OPEN_WRITE c Hr Hp Hm) as (f & v1 & p & d & E1 & Hr1 & Hw1 & Ho1 & Hi1).
  { unfold may_open. change (open_flags VFS_OPEN_WRITE) with VFS_OPEN_WRITE. cbn [truthy]. by rewrite Hpw. }
  change (open_flags VFS_OPEN_WRITE) with VFS_OPEN_WRITE in *. set (fl := mkVfile (Some p) 0 VFS_OPEN_WRITE) in *.
  destruct (ready_run a v1 _ _ Hr1 (fun root kids Hco => op_write mnt count Hlay f fl p d src size a v1 root kids Hco Ho1 ltac:(lia) Hsb))
    as (k & v2 & a2 & E2 & Hr2 & Hw2 & Hres).
  change (truthy (Z.land (vf_flags fl) VFS_OPEN_WRITE)) with true in Hres. destruct Hres as (Hres & Hf2 & _). rewrite Hi1 in Hres. change (vf_position fl) with 0 in Hres.
  destruct Hres as [([?|?] & _)|(_ & _ & W & Hk & Hkm & Hst)]; [congruence | lia |].
  assert (Hf : files v2 !! f = Some (advance k fl)) by (by rewrite Hf2, lookup_insert_eq).
  destruct (ready_run a2 v2 _ _ Hr2 (fun root kids Hco => op_close mnt count f _ a2 v2 root kids Hco Hf)) as (r3 & v3 & a3 & E3 & Hr3 & Hw3 & -> & -> & _).
  destruct (permission_written a a2 c 0 src k (who v) VFS_PERM_READ W) as [Ep Ed].
  assert (Hm2 : path_means false a2 path (inl (c, []))).
  { revert Hm. unfold VfsOps.path_means. destruct path as [|ch rest]; [done|]. destruct (ch =? SLASH); [|done]. apply resolves_kept.
    intros j i w x Hl. exists i. by eapply (written_lists mnt). }
  destruct (open_allowed a2 v3 path VFS_OPEN_READ c Hr3 Hp Hm2) as (g & v4 & q & dq & E4 & Hr4 & Hw4 & Ho4 & Hi4).
  { unfold may_open. change (open_flags VFS_OPEN_READ) with VFS_OPEN_READ. rewrite Hw3, Hw2, Hw1. cbn [truthy]. by rewrite Ep, Hpr. }
  destruct (ready_run a2 v4 _ _ Hr4 (fun root kids Hco => op_read mnt count Hlay g _ q dq dst k a2 v4 root kids Hco Ho4 ltac:(lia)))
    as ([k5 dst5] & v5 & a5 & E5 & Hr5 & _ & -> & Hres & _).
  unfold read_result in Hres. rewrite Hi4, Ed, Hdir in Hres. cbn [vf_position] in Hres. injection Hres as -> ->.
  exists f, v1, k, v2, v3, g, v4. destruct (Z.eq_dec k 0) as [->|Hk0].
  - assert (Er : readable a2 c 0 0 = 0) by (unfold readable; lia). rewrite Er in E5. eexists _, v5, a2. split_and!; try done; try lia.
  - destruct (written_read mnt a a2 c 0 src k dst W ltac:(lia) ltac:(lia) ltac:(lia) ltac:(lia)) as [Er Hb]. rewrite Er in E5, Hb.
    eexists _, v5, a2. split_and!; try done; try lia.
Qed.
(** C40. Unlinking a file that is open succeeds whenever its directory is writable: the dentry
    that the open file points to is freed, and every later read and the close through
    that file use it after that. *)
Theorem vfs_unlink_open_use_after_free a v path f fl p d : ready a v -> path_ok path -> is_open v f fl p d ->
  path_means false a path (inl (ino d, [])) -> is_dir (a_inode a (ino d)) = false ->
  exists r v', vfs_unlink (Some path) v = Ok r v' /\
    (denied mnt (who v) a path r \/
     r = 0 /\ files v' !! f = Some fl /\ dents v' !! p = None /\ (forall buf size, vfs_read (Some f) buf size v' = Wild) /\ vfs_close (Some f) v' = Wild).
Proof.
  intros (root & kids & Hco) Hp Ho Hm Hd. pose proof (co_fs _ _ _ _ _ _ Hco) as (_ & Hok & _).
  destruct (vwp_elim _ _ _ (op_unlink_open mnt count Hlay path a v root kids f fl p d Hco Hp Ho Hm)) as (r & v' & E & H). exists r, v'. split; [done|].
  destruct H as [(Hr & a' & kids' & _ & _ & _ & Hres)|(-> & Hf & Hn)].
  - left. destruct Hres as [(c & _ & _ & [(? & ? & ? & -> & _)|[H _]])|[(c & Hmc & Hdc & _)|[(e & _ & _ & Hme) _]]]; [lia | done | |].
    + pose proof (path_means_fun mnt _ _ _ _ _ Hok Hm Hmc) as Ec. injection Ec as Ec. congruence.
    + by pose proof (path_means_fun mnt _ _ _ _ _ Hok Hm Hme).
  - right. destruct Ho as (Hfl & Hdn & _). assert (Hfile : files v' !! f = Some fl) by (by rewrite Hf). split_and!; [done | done | done | |].
    + intros buf size. unfold vfs_read, vbind, read_file. rewrite Hfile, Hdn. unfold on_inode, vbind, read_dentry. by rewrite Hn.
    + unfold vfs_close, vbind, read_file. rewrite Hfile, Hdn. unfold mod_dentry. by rewrite Hn.
Qed.
End system.

(** ** From the mount on *)
Section start.
Context {S : Type} `{!Buffers S} (dev count : Z) `{!BufferSpec (S := S) dev count} `{!BufferRaw (S := S) dev count}.
Context (inodes blocks addr : Z) (Hfmt : format_ok inodes blocks) (Hcount : blocks <= count < 2 ^ 32).
Context (hook : Z -> list Z -> M (S := S) unit) (Hhook : forall start sb s, (hook start sb s).2 = s).
Local Abbreviation mnt := (the_mount dev inodes blocks addr).

(** C2. From the mount of a formatted disk on, calls by whatever users, in any order, touch no
    freed dentry or file and do not run for ever, as long as no path of an open file is
    unlinked or removed, no tree is removed with a file open in it, and files are used
    between their open and their close.  The cache of dentries always agrees with the
    disk: every dentry shows its inode as it is there, its name is an entry of its
    parent's directory, and no two show the same inode.  The device works, memory is
    granted, and the mount hook leaves the disk alone. *)
Theorem vfs_stays_safe u s : user_ok u -> startable dev count s ->
  forall v, star vfs_moves (vfs_boot u (root_inode mnt) (format_and_mount dev count inodes blocks addr hook s).2) v ->
  (exists a, ready mnt count a v) /\ forall o, vfs_call v o -> exists v', o = Ok tt v'.
Proof.
  intros Hu Hs v Hstar. pose proof (start_ok dev count inodes blocks addr Hfmt Hcount hook Hhook s Hs) as H.
  destruct (format_and_mount dev count inodes blocks addr hook s) as [[rc r] s1]. destruct H as (_ & _ & Hlay & a & Ha & _ & Hv). cbn [snd] in Hstar.
  rewrite <- Hv in Hstar. pose proof (boot_ready mnt count Hlay a u s1 Ha) as Hb.
  destruct (star_ready mnt count Hlay a _ v Hb Hu Hstar) as (a' & Hr & Hu'). split; [by exists a'|].
  intros o Ho. destruct (call_ready mnt count Hlay a' v o Hr Hu' Ho) as (v' & _ & -> & _). by exists v'.
Qed.
End start.

(** ** At the device of forty blocks *)
#[local] Existing Instance small_disk.
#[local] Existing Instance small_reliable_disk.
#[local] Existing Instance small_env.
#[local] Existing Instance small_reliable.
#[local] Existing Instance small_buffers.
#[local] Existing Instance small_spec.
#[local] Existing Instance small_raw.

Local Notation disk_state := (cache * list (list Z))%type.
Local Notation fresh_disk := (format_and_mount 1 40 16 40 7 no_hook booted).2.
Local Notation fresh_vfs u := (vfs_boot u (root_inode (the_mount 1 16 40 7)) fresh_disk : vfs disk_state).
Definition result_of {A B} (d : A) (o : outcome A B) : A := match o with Ok r _ => r | _ => d end.
Definition after {A} (o : outcome A (vfs disk_state)) : vfs disk_state := match o with Ok _ v => v | _ => fresh_vfs None end.
Definition by_user (u : option user_record) (v : vfs disk_state) : vfs disk_state :=
  mkVfs (root_sb v) (g_vfs_last_error v) u (dents v) (files v) (brk v) (fs v).

Definition path_a : list Z := [47; 97].
Definition path_ab : list Z := [47; 97; 47; 98].
Definition path_abc : list Z := [47; 97; 47; 98; 47; 99].
Definition with_a : vfs disk_state := after (vfs_create (Some path_a) VFS_MODE_FILE None (fresh_vfs None)).

Lemma path_a_ok : path_ok path_a.
Proof. repeat constructor. Qed.

Lemma path_ab_ok : path_ok path_ab.
Proof. repeat constructor. Qed.

Lemma fresh_ready u : layout_ok (super small_mount) 40 /\ exists a, ready small_mount 40 a (fresh_vfs u).
Proof.
  destruct fresh_root as [Hl (a & Ha & Hv)]. split; [exact Hl|]. exists a. replace (root_inode (the_mount 1 16 40 7)) with (vnode small_mount a 0) by exact Hv. by apply boot_ready.
Qed.

Lemma no_files v path : files v = ∅ -> ~ in_use (S := disk_state) v path.
Proof.
  intros E. unfold in_use. destruct (vfs_resolve (Some path) false v) as [[[p|] l] v'| |]; [|by intros []..].
  intros (f & fl & Hf & _). by rewrite E, lookup_empty in Hf.
Qed.

Lemma none_below v path : files v = ∅ -> ~ open_below (S := disk_state) v path.
Proof.
  intros E. unfold open_below. destruct (vfs_resolve (Some path) false v) as [[[p|] l] v'| |]; [|by intros []..].
  intros (f & fl & q & Hf & _). by rewrite E, lookup_empty in Hf.
Qed.

Lemma with_a_ready : layout_ok (super small_mount) 40 /\ exists a c, ready small_mount 40 a with_a /\ who with_a = None /\ files with_a = ∅ /\
  path_means small_mount false a path_a (inl (c, [])) /\ is_dir (a_inode a c) = false.
Proof.
  destruct (fresh_ready None) as [Hl [a Hr]]. split; [exact Hl|].
  destruct (ready_run small_mount 40 a _ _ _ Hr (fun root kids Hco => op_create small_mount 40 Hl path_a VFS_MODE_FILE None a _ root kids Hco path_a_ok ltac:(done) I I))
    as (r & v' & a' & E & Hr' & Hw & Hf & Hres).
  assert (Ez : result_of 1 (vfs_create (Some path_a) VFS_MODE_FILE None (fresh_vfs None)) = 0) by (vm_compute; reflexivity).
  unfold with_a. rewrite E in *. cbn [result_of after] in *. subst r. destruct Hres as [(dir & name & c & _ & _ & _ & _ & _ & Hcr & Hm) | (_ & H)].
  - exists a', c. split; [exact Hr'|]. split; [exact Hw|]. split; [exact Hf|]. split; [exact Hm|]. by rewrite (cr_inode _ _ _ _ _ _ _ Hcr).
  - exfalso. destruct H as [(e & He & H & _)|[(dir & H & _)|(dir & name & _ & _ & [(i & c & H & _)|(_ & [[H _]|[H _]])])]]; [lia | vm_compute in H; done..].
Qed.

Lemma with_a_move : vfs_moves (fresh_vfs None) with_a.
Proof.
  destruct (fresh_ready None) as [Hl [a Hr]].
  destruct (ready_run small_mount 40 a _ _ _ Hr (fun root kids Hco => op_create small_mount 40 Hl path_a VFS_MODE_FILE None a _ root kids Hco path_a_ok ltac:(done) I I))
    as (r & v' & a' & E & _).
  assert (H : vfs_call (fresh_vfs None) (forget (vfs_create (Some path_a) VFS_MODE_FILE None (fresh_vfs None)))).
  { apply vcall_create; [exact path_a_ok | split; vm_compute; [discriminate | reflexivity] | exact I]. }
  unfold vfs_moves, with_a. rewrite E in *. exact H.
Qed.

(** *** The theorems at this state *)
Lemma vfs_stays_safe_witness : (exists a, ready small_mount 40 a with_a) /\ forall o, vfs_call with_a o -> exists v', o = Ok tt v'.
Proof.
  apply (vfs_stays_safe 1 40 16 40 7 small_format_ok ltac:(lia) no_hook ltac:(done) None booted I booted_startable).
  apply star_one. exact with_a_move.
Defined.

Lemma vfs_lookup_correct_witness : exists a, ready small_mount 40 a with_a /\
  exists r v', vfs_lookup (Some path_a) true with_a = Ok r v' /\ ready small_mount 40 a v' /\ files v' = files with_a /\
    ((exists p c, r = (0, Some p) /\ dentry_of v' p c /\ path_means small_mount false a path_a (inl (c, []))) \/
     (exists e, r = (- e, None) /\ 0 < e /\ path_means small_mount false a path_a (inr e))).
Proof.
  destruct with_a_ready as [Hl (a & c & Hr & _)]. exists a. split; [exact Hr|]. apply (vfs_lookup_correct small_mount 40 Hl a with_a path_a Hr path_a_ok).
Defined.

Lemma vfs_create_correct_witness : exists a, ready small_mount 40 a (fresh_vfs None) /\
  exists r v' a', vfs_create (Some path_a) VFS_MODE_DIR None (fresh_vfs None) = Ok r v' /\ ready small_mount 40 a' v' /\ files v' = files (fresh_vfs None) /\
    vfs_create_result small_mount None a path_a VFS_MODE_DIR None r a'.
Proof.
  destruct (fresh_ready None) as [Hl [a Hr]]. exists a. split; [exact Hr|].
  apply (vfs_create_correct small_mount 40 Hl a (fresh_vfs None) path_a VFS_MODE_DIR None Hr path_a_ok); [split; vm_compute; done | exact I | exact I].
Defined.

Lemma vfs_unlink_correct_witness : exists a, ready small_mount 40 a with_a /\
  exists r v' a', vfs_unlink (Some path_a) with_a = Ok r v' /\ ready small_mount 40 a' v' /\ files v' = files with_a /\
    vfs_unlink_result small_mount (who with_a) a path_a r a'.
Proof.
  destruct with_a_ready as [Hl (a & c & Hr & _ & Hf & _)]. exists a. split; [exact Hr|].
  apply (vfs_unlink_correct small_mount 40 Hl a with_a path_a Hr path_a_ok). by apply no_files.
Defined.

Lemma vfs_rmdir_correct_witness : exists a, ready small_mount 40 a with_a /\
  exists r v' a', vfs_rmdir (Some path_a) with_a = Ok r v' /\ ready small_mount 40 a' v' /\ files v' = files with_a /\
    vfs_rmdir_result small_mount (who with_a) a path_a r a'.
Proof.
  destruct with_a_ready as [Hl (a & c & Hr & _ & Hf & _)]. exists a. split; [exact Hr|].
  apply (vfs_rmdir_correct small_mount 40 Hl a with_a path_a Hr path_a_ok). by apply no_files.
Defined.

Lemma vfs_rename_correct_witness : exists a, ready small_mount 40 a with_a /\
  exists r v' a', vfs_rename (Some path_a) (Some path_ab) with_a = Ok r v' /\ ready small_mount 40 a' v' /\ files v' = files with_a /\
    vfs_rename_result small_mount (who with_a) a path_a path_ab r a'.
Proof.
  destruct with_a_ready as [Hl (a & c & Hr & _)]. exists a. split; [exact Hr|].
  apply (vfs_rename_correct small_mount 40 Hl a with_a path_a path_ab Hr path_a_ok path_ab_ok).
Defined.

(** A directory with a file in it. *)
Definition with_tree : vfs disk_state := after (vfs_create (Some path_ab) VFS_MODE_FILE None (after (vfs_create (Some path_a) VFS_MODE_DIR None (fresh_vfs None)))).

Lemma created_ready (Hl : layout_ok (super small_mount) 40) a v path mode : ready small_mount 40 a v -> path_ok path -> 0 <= mode < 2 ^ 16 -> user_ok (who v) ->
  exists a', ready small_mount 40 a' (after (vfs_create (Some path) mode None v)) /\ who (after (vfs_create (Some path) mode None v)) = who v /\ files (after (vfs_create (Some path) mode None v)) = files v.
Proof.
  intros Hr Hp Hm Hu. destruct (ready_run small_mount 40 a _ _ _ Hr (fun root kids Hco => op_create small_mount 40 Hl path mode None a _ root kids Hco Hp Hm I Hu))
    as (r & v' & a' & E & Hr' & Hw & Hf & _). rewrite E. by exists a'.
Qed.

Lemma with_tree_ready : layout_ok (super small_mount) 40 /\ exists a, ready small_mount 40 a with_tree /\ files with_tree = ∅.
Proof.
  destruct (fresh_ready None) as [Hl [a Hr]]. split; [exact Hl|].
  assert (Hd : 0 <= VFS_MODE_DIR < 2 ^ 16) by done. assert (Hm : 0 <= VFS_MODE_FILE < 2 ^ 16) by done.
  assert (Hu : forall v : vfs disk_state, who v = None -> user_ok (who v)) by (intros v ->; exact I).
  assert (H0 : who (fresh_vfs None) = None /\ files (fresh_vfs None) = ∅) by (split; reflexivity). unfold with_tree.
  revert Hr H0. generalize (fresh_vfs None). intros v0 Hr [Hw Hf].
  destruct (created_ready Hl a v0 path_a VFS_MODE_DIR Hr path_a_ok Hd (Hu v0 Hw)) as (a1 & Hr1 & Hw1 & Hf1).
  destruct (created_ready Hl a1 _ path_ab VFS_MODE_FILE Hr1 path_ab_ok Hm (Hu _ (eq_trans Hw1 Hw))) as (a2 & Hr2 & _ & Hf2).
  exists a2. split; [exact Hr2 | exact (eq_trans Hf2 (eq_trans Hf1 Hf))].
Qed.
Lemma vfs_rmdir_recursive_prunes_witness : exists a, ready small_mount 40 a with_tree /\
  exists v' a', vfs_rmdir_recursive (Some path_a) with_tree = Ok 0 v' /\ ready small_mount 40 a' v' /\ prunes small_mount a path_a a' /\
    path_means small_mount false a' path_a (inr VFS_ERR_NOT_FOUND).
Proof.
  destruct with_tree_ready as [Hl (a & Hr & Hf)]. exists a. split; [exact Hr|].
  destruct (vfs_rmdir_recursive_prunes small_mount 40 Hl a with_tree path_a Hr path_a_ok (none_below with_tree path_a Hf)) as (r & v' & a' & E & Hr' & _ & Hpr & _ & Hz).
  assert (Er : result_of 1 (vfs_rmdir_recursive (Some path_a) with_tree) = 0) by (vm_compute; reflexivity). rewrite E in Er. cbn [result_of] in Er. subst r.
  exists v', a'. split; [exact E|]. split; [exact Hr'|]. split; [exact Hpr | by apply Hz].
Defined.

Lemma vfs_open_checked_witness : exists a, ready small_mount 40 a with_a /\
  exists r v', vfs_open (Some path_a) VFS_OPEN_READ with_a = Ok r v' /\ ready small_mount 40 a v' /\
    open_result small_mount a path_a VFS_OPEN_READ (who with_a) with_a r v'.
Proof.
  destruct with_a_ready as [Hl (a & c & Hr & _)]. exists a. split; [exact Hr|]. apply (vfs_open_checked small_mount 40 Hl a with_a path_a VFS_OPEN_READ Hr path_a_ok).
Defined.

(** [path_a] opened for reading. *)
Definition with_open : vfs disk_state := after (vfs_open (Some path_a) VFS_OPEN_READ with_a).
Lemma with_open_ready : layout_ok (super small_mount) 40 /\ exists a p d, ready small_mount 40 a with_open /\ who with_open = None /\
  is_open with_open 2 (mkVfile (Some p) 0 VFS_OPEN_READ) p d /\ path_means small_mount false a path_a (inl (ino d, [])) /\ is_dir (a_inode a (ino d)) = false.
Proof.
  destruct with_a_ready as [Hl (a & c & Hr & Hw & _ & Hm & Hd)]. split; [exact Hl|].
  destruct (open_allowed small_mount 40 Hl a with_a path_a VFS_OPEN_READ c Hr path_a_ok Hm) as (f & v1 & p & d & E & Hr1 & Hw1 & Ho & Hi); [by rewrite Hw|].
  assert (Ef : result_of None (vfs_open (Some path_a) VFS_OPEN_READ with_a) = Some 2) by (vm_compute; reflexivity).
  unfold with_open. rewrite E in *. cbn [result_of after] in *. injection Ef as ->. exists a, p, d. rewrite Hi. split; [exact Hr1|]. split; [congruence|]. split; [exact Ho|]. by split.
Qed.
Lemma vfs_unlink_open_use_after_free_witness : vfs_close (Some 2) (after (vfs_unlink (Some path_a) with_open)) = Wild.
Proof.
  destruct with_open_ready as [Hl (a & p & d & Hr & _ & Ho & Hm & Hd)].
  destruct (vfs_unlink_open_use_after_free small_mount 40 Hl a with_open path_a 2 _ p d Hr path_a_ok Ho Hm Hd) as (r & v' & E & H).
  assert (Er : result_of 1 (vfs_unlink (Some path_a) with_open) = 0) by (vm_compute; reflexivity). rewrite E in *. cbn [result_of after] in *. subst r.
  destruct H as [(dir & i & name & c & H & _)|(_ & _ & _ & _ & H)]; [discriminate H | exact H].
Defined.

Lemma vfs_write_reopen_read_witness : exists a, ready small_mount 40 a with_a /\
  exists f v1 k v2 v3 g v4 dst' v5 a', vfs_open (Some path_a) VFS_OPEN_WRITE with_a = Ok (Some f) v1 /\ vfs_write (Some f) (Some (zrep 20 9)) 20 v1 = Ok k v2 /\
    vfs_close (Some f) v2 = Ok 0 v3 /\ vfs_open (Some path_a) VFS_OPEN_READ v3 = Ok (Some g) v4 /\ vfs_read (Some g) (Some (zrep 20 0)) k v4 = Ok (k, dst') v5 /\
    ready small_mount 40 a' v5 /\ 0 <= k <= 20 /\ sub_bytes dst' 0 k = sub_bytes (zrep 20 9) 0 k /\ (k < 20 -> MAX_FILE <= k \/ full small_mount a').
Proof.
  destruct with_a_ready as [Hl (a & c & Hr & Hw & _ & Hm & Hd)]. exists a. split; [exact Hr|].
  assert (Hp : forall needed, allowed (who with_a) (vnode small_mount a c) needed = true) by (rewrite Hw; reflexivity).
  refine (vfs_write_reopen_read small_mount 40 Hl a with_a path_a c (zrep 20 9) 20 (zrep 20 0) Hr path_a_ok Hm Hd (Hp _) (Hp _) _ _ _).
  - split; [reflexivity | vm_compute; discriminate].
  - apply zrep_ok. split; [vm_compute; discriminate | reflexivity].
  - vm_compute. discriminate.
Defined.

(** ** Where the code does less *)
Definition path_b : list Z := [47; 98].
Definition bytes_of (r : Z * list Z) : list Z := sub_bytes r.2 0 r.1.

(** Nothing keeps a directory from being moved below itself: the rename succeeds, and
    then neither the old nor the new path leads to it, while its inode stays in use. *)
Example rename_below_itself :
  let v1 := after (vfs_create (Some path_a) VFS_MODE_DIR None (fresh_vfs None)) in
  let v2 := after (vfs_create (Some path_ab) VFS_MODE_DIR None v1) in
  let v3 := after (vfs_rename (Some path_a) (Some path_abc) v2) in
  result_of 1 (vfs_create (Some path_ab) VFS_MODE_DIR None v1) = 0 /\ result_of 1 (vfs_rename (Some path_a) (Some path_abc) v2) = 0 /\
  result_of (1, None) (vfs_lookup (Some path_a) true v3) = (- VFS_ERR_NOT_FOUND, None) /\
  result_of (1, None) (vfs_lookup (Some path_abc) true v3) = (- VFS_ERR_NOT_FOUND, None).
Proof. vm_compute. done. Qed.

(** Reading does not look at how the file was opened: a user who may write a file but
    not read it, and whom [vfs_open] refuses to open it for reading, opens it for
    writing and reads it. *)
Example read_ignores_open_flags :
  let u := Some (mkUser 5 5) in
  let v1 := after (vfs_create (Some path_b) VFS_MODE_FILE (Some (mkMeta 5 5 128)) (fresh_vfs None)) in
  let v2 := after (vfs_open (Some path_b) VFS_OPEN_WRITE v1) in
  let v3 := by_user u (after (vfs_write (Some 2) (Some [7; 8; 9]) 3 v2)) in
  let v4 := after (vfs_open (Some path_b) VFS_OPEN_READ v3) in
  let v5 := after (vfs_open (Some path_b) VFS_OPEN_WRITE v4) in
  result_of (Some 0) (vfs_open (Some path_b) VFS_OPEN_READ v3) = None /\ g_vfs_last_error v4 = VFS_ERR_PERMISSION_DENIED /\
  result_of None (vfs_open (Some path_b) VFS_OPEN_WRITE v4) = Some 3 /\
  bytes_of (result_of (0, []) (vfs_read (Some 3) (Some (zrep 8 0)) 8 v5)) = [7; 8; 9].
Proof. vm_compute. done. Qed.
