(* ===== verification/Sha256.v ===== *)
(** * SHA-256

    Models src/security/sha256.c over the context of
    src/include/security/sha256.h, and proves it against a reference written
    from FIPS 180-4: message padding, message schedule, compression function and
    the iteration over 64-byte blocks.

    A pointer is an [option] where the code tests it against NULL; reads past the
    end of a buffer have no meaning in C and return 0 here, so that the theorems
    ask for buffers at least as long as their length argument.  A local context
    starts zeroed; the lemmas on [sha256_init] hold from any contents. *)
From S2P Require Import Prelude.
Local Open Scope capy_scope.

Definition SHA256_BLOCK_SIZE : Z := 64.
Definition SHA256_DIGEST_SIZE : Z := 32.

Record sha256_ctx := mkSha {
  state : list Z;
  bitlen : Z;
  data : list Z;
  datalen : Z }.

(** Row by row, as the source lists them. *)
Definition k256 : list Z := concat [
  [0x428a2f98; 0x71374491; 0xb5c0fbcf; 0xe9b5dba5];
  [0x3956c25b; 0x59f111f1; 0x923f82a4; 0xab1c5ed5];
  [0xd807aa98; 0x12835b01; 0x243185be; 0x550c7dc3];
  [0x72be5d74; 0x80deb1fe; 0x9bdc06a7; 0xc19bf174];
  [0xe49b69c1; 0xefbe4786; 0x0fc19dc6; 0x240ca1cc];
  [0x2de92c6f; 0x4a7484aa; 0x5cb0a9dc; 0x76f988da];
  [0x983e5152; 0xa831c66d; 0xb00327c8; 0xbf597fc7];
  [0xc6e00bf3; 0xd5a79147; 0x06ca6351; 0x14292967];
  [0x27b70a85; 0x2e1b2138; 0x4d2c6dfc; 0x53380d13];
  [0x650a7354; 0x766a0abb; 0x81c2c92e; 0x92722c85];
  [0xa2bfe8a1; 0xa81a664b; 0xc24b8b70; 0xc76c51a3];
  [0xd192e819; 0xd6990624; 0xf40e3585; 0x106aa070];
  [0x19a4c116; 0x1e376c08; 0x2748774c; 0x34b0bcb5];
  [0x391c0cb3; 0x4ed8aa4a; 0x5b9cca4f; 0x682e6ff3];
  [0x748f82ee; 0x78a5636f; 0x84c87814; 0x8cc70208];
  [0x90befffa; 0xa4506ceb; 0xbef9a3f7; 0xc67178f2]].

Definition rotr32 (x n : Z) : Z := Z.lor (Z.shiftr x n) (u32 (Z.shiftl x (u32 (32 - n)))).

(** The working variables [a] .. [h]. *)
Record vars := mkVars { va : Z; vb : Z; vc : Z; vd : Z; ve : Z; vf : Z; vg : Z; vh : Z }.

(** [w[0..15]]: the big-endian words of the block. *)
Definition load_word (block : list Z) (i : Z) (w : list Z) : list Z :=
  aset w i (Z.lor (Z.lor (Z.lor (Z.shiftl block.[i * 4] 24) (Z.shiftl block.[i * 4 + 1] 16))
                         (Z.shiftl block.[i * 4 + 2] 8)) block.[i * 4 + 3]).

(** [w[16..63]]. *)
Definition extend_word (i : Z) (w : list Z) : list Z :=
  let s0 := Z.lxor (Z.lxor (rotr32 w.[i - 15] 7) (rotr32 w.[i - 15] 18)) (Z.shiftr w.[i - 15] 3) in
  let s1 := Z.lxor (Z.lxor (rotr32 w.[i - 2] 17) (rotr32 w.[i - 2] 19)) (Z.shiftr w.[i - 2] 10) in
  aset w i (u32 (w.[i - 16] + s0 + w.[i - 7] + s1)).

Definition round_step (w : list Z) (i : Z) (v : vars) : vars :=
  let '(mkVars a b c d e f g h) := v in
  let s1 := Z.lxor (Z.lxor (rotr32 e 6) (rotr32 e 11)) (rotr32 e 25) in
  let ch := Z.lxor (Z.land e f) (Z.land (u32 (Z.lnot e)) g) in
  let t1 := u32 (h + s1 + ch + k256.[i] + w.[i]) in
  let s0 := Z.lxor (Z.lxor (rotr32 a 2) (rotr32 a 13)) (rotr32 a 22) in
  let maj := Z.lxor (Z.lxor (Z.land a b) (Z.land a c)) (Z.land b c) in
  let t2 := u32 (s0 + maj) in
  mkVars (u32 (t1 + t2)) a b c (u32 (d + t1)) e f g.

Definition set_state (ctx : sha256_ctx) (s : list Z) : sha256_ctx :=
  mkSha s (bitlen ctx) (data ctx) (datalen ctx).

(** [w] is a local array whose cells are all written before they are read. *)
Definition sha256_transform (ctx : sha256_ctx) (block : list Z) : sha256_ctx :=
  let w := for_range 0 16 (load_word block) (zrep 64 0) in
  let w := for_range 16 64 extend_word w in
  let s := state ctx in
  let v := for_range 0 64 (round_step w)
             (mkVars s.[0] s.[1] s.[2] s.[3] s.[4] s.[5] s.[6] s.[7]) in
  set_state ctx [u32 (s.[0] + va v); u32 (s.[1] + vb v); u32 (s.[2] + vc v); u32 (s.[3] + vd v);
                 u32 (s.[4] + ve v); u32 (s.[5] + vf v); u32 (s.[6] + vg v); u32 (s.[7] + vh v)].

Definition initial_state : list Z :=
  [0x6a09e667; 0xbb67ae85; 0x3c6ef372; 0xa54ff53a; 0x510e527f; 0x9b05688c; 0x1f83d9ab; 0x5be0cd19].

Definition sha256_init (ctx : option sha256_ctx) : option sha256_ctx :=
  match ctx with
  | None => None
  | Some ctx => Some (mkSha initial_state 0 (data ctx) 0)
  end.

(** Loop body of [sha256_update] for the input byte [b]. *)
Definition absorb_byte (b : Z) (ctx : sha256_ctx) : sha256_ctx :=
  let ctx := mkSha (state ctx) (bitlen ctx) (aset (data ctx) (datalen ctx) b)
                   (u32 (datalen ctx + 1)) in
  if datalen ctx =? SHA256_BLOCK_SIZE then
    let ctx := sha256_transform ctx (data ctx) in
    mkSha (state ctx) (u64 (bitlen ctx + 512)) (data ctx) 0
  else ctx.

Definition sha256_update (ctx : option sha256_ctx) (data : option (list Z)) (len : Z)
    : option sha256_ctx :=
  match ctx, data with
  | None, _ => None
  | Some c, None => Some c
  | Some c, Some d => Some (for_range 0 len (fun i c => absorb_byte d.[i] c) c)
  end.

Definition zero_ctx : sha256_ctx := mkSha (zrep 8 0) 0 (zrep 64 0) 0.

(** Every byte of the structure becomes zero. *)
Definition sha256_clear (ctx : option sha256_ctx) : option sha256_ctx :=
  match ctx with None => None | Some _ => Some zero_ctx end.

Definition set_data (ctx : sha256_ctx) (d : list Z) : sha256_ctx :=
  mkSha (state ctx) (bitlen ctx) d (datalen ctx).

Definition zero_from (i hi : Z) (d : list Z) : list Z := for_range i hi (fun k d => aset d k 0) d.

Definition store_word (s : list Z) (j : Z) (hash : list Z) : list Z :=
  let hash := aset hash (j * 4) (u8 (Z.shiftr s.[j] 24)) in
  let hash := aset hash (j * 4 + 1) (u8 (Z.shiftr s.[j] 16)) in
  let hash := aset hash (j * 4 + 2) (u8 (Z.shiftr s.[j] 8)) in
  aset hash (j * 4 + 3) (u8 s.[j]).

Definition sha256_final (ctx : option sha256_ctx) (hash : option (list Z))
    : option sha256_ctx * option (list Z) :=
  match ctx, hash with
  | Some ctx, Some hash =>
      let i := datalen ctx in
      let ctx := set_data ctx (aset (data ctx) i 0x80) in
      let i := u32 (i + 1) in
      let '(ctx, i) :=
        if 56 <? i then
          let ctx := set_data ctx (zero_from i SHA256_BLOCK_SIZE (data ctx)) in
          (sha256_transform ctx (data ctx), 0)
        else (ctx, i) in
      let ctx := set_data ctx (zero_from i 56 (data ctx)) in
      let total_bits := u64 (bitlen ctx + datalen ctx * 8) in
      let ctx := set_data ctx
        (for_range 0 8 (fun b d => aset d (63 - b) (u8 (Z.shiftr total_bits (b * 8)))) (data ctx)) in
      let ctx := sha256_transform ctx (data ctx) in
      (Some ctx, Some (for_range 0 8 (store_word (state ctx)) hash))
  | _, _ => (ctx, hash)
  end.

Definition sha256_hash (data : option (list Z)) (len : Z) (hash : option (list Z)) : option (list Z) :=
  let ctx := sha256_init (Some zero_ctx) in
  let ctx := sha256_update ctx data len in
  (sha256_final ctx hash).2.

(** The characters 0-9a-f by value. *)
Definition digits : list Z := [48;49;50;51;52;53;54;55;56;57;97;98;99;100;101;102].

Definition sha256_hex (hash : option (list Z)) (out_hex : option (list Z)) : option (list Z) :=
  match hash, out_hex with
  | Some hash, Some out =>
      let out := for_range 0 SHA256_DIGEST_SIZE (fun i o =>
        aset (aset o (i * 2) digits.[Z.land (Z.shiftr hash.[i] 4) 0x0f])
             (i * 2 + 1) digits.[Z.land hash.[i] 0x0f]) out in
      Some (aset out 64 0)
  | _, _ => out_hex
  end.

(** ** Reference: FIPS 180-4 *)
Module Fips.
Definition ROTR (n x : Z) : Z := (x / 2 ^ n + x * 2 ^ (32 - n)) `mod` 2 ^ 32.
Definition SHR (n x : Z) : Z := x / 2 ^ n.
Definition Ch (x y z : Z) : Z := Z.lor (Z.land x y) (Z.ldiff z x).
Definition Maj (x y z : Z) : Z := Z.lor (Z.land x y) (Z.land z (Z.lor x y)).
Definition Sigma0 (x : Z) : Z := Z.lxor (ROTR 2 x) (Z.lxor (ROTR 13 x) (ROTR 22 x)).
Definition Sigma1 (x : Z) : Z := Z.lxor (ROTR 6 x) (Z.lxor (ROTR 11 x) (ROTR 25 x)).
Definition sigma0 (x : Z) : Z := Z.lxor (ROTR 7 x) (Z.lxor (ROTR 18 x) (SHR 3 x)).
Definition sigma1 (x : Z) : Z := Z.lxor (ROTR 17 x) (Z.lxor (ROTR 19 x) (SHR 10 x)).

Fixpoint be_val (acc : Z) (l : list Z) : Z :=
  match l with [] => acc | b :: l' => be_val (acc * 256 + b) l' end.

Definition be_bytes (n : nat) (v : Z) : list Z := rev (le_bytes n v).

(** Split into pieces of [n] bytes. *)
Fixpoint pieces (fuel : nat) (n : Z) (l : list Z) : list (list Z) :=
  match fuel with
  | O => []
  | S fuel => if zlen l =? 0 then [] else ztake n l :: pieces fuel n (zdrop n l)
  end.

Definition parse (n : Z) (l : list Z) : list (list Z) := pieces (length l) n l.

(** The message schedule, extended word by word. *)
Fixpoint extend (n : nat) (w : list Z) : list Z :=
  match n with
  | O => w
  | S n =>
      let t := zlen w in
      extend n (w ++ [(sigma1 w.[t - 2] + w.[t - 7] + sigma0 w.[t - 15] + w.[t - 16]) `mod` 2 ^ 32])
  end.

Definition schedule (block : list Z) : list Z := extend 48 (map (be_val 0) (parse 4 block)).

Definition round (v : vars) (kw : Z * Z) : vars :=
  let '(mkVars a b c d e f g h) := v in
  let T1 := h + Sigma1 e + Ch e f g + kw.1 + kw.2 in
  let T2 := Sigma0 a + Maj a b c in
  mkVars ((T1 + T2) `mod` 2 ^ 32) a b c ((d + T1) `mod` 2 ^ 32) e f g.

Definition compress (H block : list Z) : list Z :=
  let v := foldl round (mkVars H.[0] H.[1] H.[2] H.[3] H.[4] H.[5] H.[6] H.[7])
             (zip k256 (schedule block)) in
  zip_with (fun x y => (x + y) `mod` 2 ^ 32) H [va v; vb v; vc v; vd v; ve v; vf v; vg v; vh v].

Definition pad (m : list Z) : list Z :=
  m ++ [0x80] ++ zrep ((55 - zlen m) `mod` 64) 0 ++ be_bytes 8 (8 * zlen m).

Definition hash (m : list Z) : list Z :=
  concat (map (be_bytes 4) (foldl compress initial_state (parse 64 (pad m)))).
End Fips.

(** ** Words *)
Definition word_ok (x : Z) : Prop := 0 <= x < 2 ^ 32.
Definition words_ok (l : list Z) : Prop := Forall word_ok l.

Lemma word_ok_bits x : 0 <= x -> (forall i, 32 <= i -> Z.testbit x i = false) -> word_ok x.
Proof.
  intros Hx Hb. split; [done|]. destruct (Z.eq_dec x 0) as [->|]; [lia|].
  apply Z.log2_lt_pow2; [lia|]. destruct (Z.lt_ge_cases (Z.log2 x) 32); [done|].
  pose proof (Z.bit_log2 x ltac:(lia)) as E. by rewrite Hb in E.
Qed.

Lemma word_high x i : word_ok x -> 32 <= i -> Z.testbit x i = false.
Proof.
  intros [? Hx] Hi. destruct (Z.eq_dec x 0) as [->|]; [apply Z.bits_0|].
  apply Z.bits_above_log2; [done|]. apply Z.log2_lt_pow2 in Hx; lia.
Qed.

Lemma u32_ok z : word_ok (u32 z).
Proof. apply u32_range. Qed.

Lemma lxor_ok x y : word_ok x -> word_ok y -> word_ok (Z.lxor x y).
Proof.
  intros Hx Hy. apply word_ok_bits; [apply Z.lxor_nonneg; split; intros; destruct Hx, Hy; lia|].
  intros. by rewrite Z.lxor_spec, !word_high.
Qed.

Lemma land_ok x y : word_ok x -> word_ok y -> word_ok (Z.land x y).
Proof.
  intros Hx Hy. apply word_ok_bits; [apply Z.land_nonneg; destruct Hx; lia|].
  intros. by rewrite Z.land_spec, !word_high.
Qed.

Lemma rotr32_spec x n : word_ok x -> 0 < n < 32 -> rotr32 x n = Fips.ROTR n x.
Proof.
  intros [Hx0 Hx1] Hn. unfold rotr32, Fips.ROTR. rewrite (u32_small (32 - n)) by lia.
  assert (Hs : u32 (Z.shiftl x (32 - n)) = Z.shiftl (x `mod` 2 ^ n) (32 - n)).
  { unfold u32. rewrite !Z.shiftl_mul_pow2 by lia.
    replace (2 ^ 32) with (2 ^ n * 2 ^ (32 - n)) by (rewrite <- Z.pow_add_r by lia; f_equal; lia).
    apply Z.mul_mod_distr_r; [apply Z.pow_nonzero; lia | apply Z.pow_nonzero; lia]. }
  assert (Hd : x / 2 ^ n < 2 ^ (32 - n)).
  { apply Z.div_lt_upper_bound; [apply Z.pow_pos_nonneg; lia|].
    rewrite <- Z.pow_add_r by lia. by replace (n + (32 - n)) with 32 by lia. }
  assert (0 <= x / 2 ^ n) by (apply Z.div_pos; [lia | apply Z.pow_pos_nonneg; lia]).
  rewrite Hs, Z.shiftr_div_pow2, lor_shiftl_add by (try split; lia).
  symmetry. rewrite <- Zplus_mod_idemp_r.
  replace ((x * 2 ^ (32 - n)) `mod` 2 ^ 32) with (x `mod` 2 ^ n * 2 ^ (32 - n)).
  2: { rewrite !Z.shiftl_mul_pow2 in Hs by lia. by rewrite <- Hs. }
  apply Z.mod_small.
  pose proof (Z.mod_pos_bound x (2 ^ n) ltac:(apply Z.pow_pos_nonneg; lia)).
  assert (2 ^ 32 = 2 ^ n * 2 ^ (32 - n)) by (rewrite <- Z.pow_add_r by lia; f_equal; lia). nia.
Qed.

Lemma ROTR_ok n x : word_ok (Fips.ROTR n x).
Proof. apply u32_range. Qed.

Lemma SHR_ok n x : word_ok x -> 0 <= n -> word_ok (Z.shiftr x n).
Proof.
  intros [] ?. split; [by apply Z.shiftr_nonneg|]. rewrite Z.shiftr_div_pow2 by lia.
  pose proof (Z.pow_pos_nonneg 2 n). assert (x / 2 ^ n <= x); [|lia].
  apply Z.div_le_upper_bound; [lia | nia].
Qed.

Lemma ch_spec e f g : word_ok g ->
  Z.lxor (Z.land e f) (Z.land (u32 (Z.lnot e)) g) = Fips.Ch e f g.
Proof.
  intros Hg. apply Z.bits_inj'. intros i Hi. unfold Fips.Ch.
  rewrite Z.lxor_spec, Z.lor_spec, !Z.land_spec, Z.ldiff_spec. unfold u32.
  destruct (Z.lt_ge_cases i 32).
  - rewrite Z.mod_pow2_bits_low, Z.lnot_spec by lia.
    by destruct (Z.testbit e i), (Z.testbit f i), (Z.testbit g i).
  - rewrite (word_high g i) by done. by rewrite !andb_false_r, xorb_false_r, orb_false_r.
Qed.

Lemma maj_spec a b c :
  Z.lxor (Z.lxor (Z.land a b) (Z.land a c)) (Z.land b c) = Fips.Maj a b c.
Proof.
  apply Z.bits_inj'. intros i Hi. unfold Fips.Maj.
  rewrite !Z.lxor_spec, Z.lor_spec, !Z.land_spec, Z.lor_spec.
  by destruct (Z.testbit a i), (Z.testbit b i), (Z.testbit c i).
Qed.

Lemma be_word a b c d : byte_ok a -> byte_ok b -> byte_ok c -> byte_ok d ->
  Z.lor (Z.lor (Z.lor (Z.shiftl a 24) (Z.shiftl b 16)) (Z.shiftl c 8)) d = Fips.be_val 0 [a; b; c; d].
Proof.
  intros. rewrite (Z.lor_comm _ d), (Z.lor_comm _ (Z.shiftl c 8)), (Z.lor_comm (Z.shiftl a 24)).
  rewrite !Z.lor_assoc, lor4_val by done. simpl. lia.
Qed.

(** ** Pieces *)
Lemma pieces_concat fuel n ls : 0 < n -> Forall (fun l => zlen l = n) ls -> (length ls <= fuel)%nat ->
  Fips.pieces fuel n (concat ls) = ls.
Proof.
  intros Hn Hls. revert fuel. induction Hls as [|l ls Hl _ IH]; intros [|fuel] Hf; simpl in *; try done; [lia|].
  pose proof (zlen_nonneg (concat ls)).
  replace (zlen (l ++ concat ls) =? 0) with false by (rewrite zlen_app; lia).
  unfold ztake, zdrop. replace (Z.to_nat n) with (length l) by (unfold zlen in Hl; lia).
  rewrite take_app_length, drop_app_length. f_equal. apply IH. lia.
Qed.

Lemma parse_concat n ls : 0 < n -> Forall (fun l => zlen l = n) ls -> Fips.parse n (concat ls) = ls.
Proof.
  intros Hn Hls. apply pieces_concat; [done | done |].
  pose proof (zlen_concat ls n Hls). unfold zlen in *. nia.
Qed.

(** ** The transform is the compression function *)
Lemma load_words block : zlen block = 64 -> bytes_ok block ->
  for_range 0 16 (load_word block) (zrep 64 0) =
  map (Fips.be_val 0) (Fips.parse 4 block) ++ zrep 48 0.
Proof.
  intros Hl Hb. rewrite (split_pieces 4 block 16) at 2 by lia.
  rewrite parse_concat; [|lia|].
  2: { apply Forall_fmap, Forall_forall. intros k Hk%elem_of_seqZ. simpl. apply zlen_sub; lia. }
  assert (H : for_range 0 16 (load_word block) (zrep 64 0) =
    for_range 0 16 (fun i w => aset w i (Fips.be_val 0 (sub_bytes block (4 * i) 4))) (zrep 64 0)).
  { apply for_range_ext. intros k t Hk. unfold load_word. f_equal.
    rewrite be_word by (apply Forall_aget; [done | unfold byte_ok; lia]). f_equal.
    apply (array_ext 0); [rewrite zlen_sub by lia; done|].
    intros j Hj. rewrite aget_sub by (unfold zlen in Hj; simpl in Hj; lia).
    assert (j = 0 \/ j = 1 \/ j = 2 \/ j = 3) as [-> | [-> | [-> | ->]]]
      by (unfold zlen in Hj; simpl in Hj; lia);
      unfold aget at 1; simpl; f_equal; lia. }
  rewrite H. reflexivity.
Qed.

Lemma be_val_ok l : zlen l = 4 -> bytes_ok l -> word_ok (Fips.be_val 0 l).
Proof.
  intros Hl Hb. do 5 (destruct l as [|? l]; try (unfold zlen in Hl; simpl in Hl; lia)).
  unfold bytes_ok in *. repeat match goal with H : Forall _ (_ :: _) |- _ => apply Forall_cons in H as [? ?] end.
  unfold byte_ok, word_ok in *. simpl. lia.
Qed.

Lemma parse_words block : zlen block = 64 -> bytes_ok block ->
  zlen (map (Fips.be_val 0) (Fips.parse 4 block)) = 16 /\
  words_ok (map (Fips.be_val 0) (Fips.parse 4 block)).
Proof.
  intros Hl Hb. rewrite (split_pieces 4 block 16) by lia.
  assert (Hp : Forall (fun l => zlen l = 4) (map (fun k => sub_bytes block (4 * k) 4) (seqZ 0 16))).
  { apply Forall_fmap, Forall_forall. intros k Hk%elem_of_seqZ. simpl. apply zlen_sub; lia. }
  rewrite parse_concat by (done || lia). split; [done|].
  apply Forall_fmap, Forall_fmap, Forall_forall. intros k Hk%elem_of_seqZ. simpl.
  apply be_val_ok; [apply zlen_sub; lia | by apply Forall_sub_bytes].
Qed.

Definition next_word (w : list Z) : Z :=
  let t := zlen w in
  (Fips.sigma1 w.[t - 2] + w.[t - 7] + Fips.sigma0 w.[t - 15] + w.[t - 16]) `mod` 2 ^ 32.

Lemma extend_snoc n w : Fips.extend (S n) w = Fips.extend n w ++ [next_word (Fips.extend n w)].
Proof.
  revert w. induction n as [|n IH]; intros w; [done|].
  change (Fips.extend (S (S n)) w) with (Fips.extend (S n) (w ++ [next_word w])).
  rewrite IH. done.
Qed.

Lemma sigma_spec x p q r : word_ok x -> 0 < p < 32 -> 0 < q < 32 -> 0 <= r ->
  Z.lxor (Z.lxor (rotr32 x p) (rotr32 x q)) (Z.shiftr x r) =
  Z.lxor (Fips.ROTR p x) (Z.lxor (Fips.ROTR q x) (Fips.SHR r x)).
Proof.
  intros. rewrite !rotr32_spec, Z.lxor_assoc, Z.shiftr_div_pow2 by done. done.
Qed.

Lemma Sigma_spec x p q r : word_ok x -> 0 < p < 32 -> 0 < q < 32 -> 0 < r < 32 ->
  Z.lxor (Z.lxor (rotr32 x p) (rotr32 x q)) (rotr32 x r) =
  Z.lxor (Fips.ROTR p x) (Z.lxor (Fips.ROTR q x) (Fips.ROTR r x)).
Proof. intros. rewrite !rotr32_spec, Z.lxor_assoc by done. done. Qed.

Lemma extend_words W : zlen W = 16 -> words_ok W ->
  let W' := Fips.extend 48 W in
  for_range 16 64 extend_word (W ++ zrep 48 0) = W' /\ zlen W' = 64 /\ words_ok W'.
Proof.
  intros Hl HW.
  pose proof (for_range_ind (fun i w => let W' := Fips.extend (Z.to_nat (i - 16)) W in
    w = W' ++ zrep (64 - i) 0 /\ zlen W' = i /\ words_ok W') 16 64 extend_word (W ++ zrep 48 0)) as H.
  destruct H as (E & Hl' & Hw'); [lia | split; [exact eq_refl | split; [exact Hl | exact HW]] | |].
  2: { intros W'. change (Z.to_nat (64 - 16)) with 48%nat in *. fold W' in E, Hl', Hw'. clearbody W'.
       rewrite E. split; [apply app_nil_r | done]. }
  clear Hl HW. intros i w Hi (-> & Hl & HW).
  replace (Z.to_nat (i + 1 - 16)) with (S (Z.to_nat (i - 16))) by lia.
  rewrite extend_snoc. set (V := Fips.extend (Z.to_nat (i - 16)) W) in *. clearbody V.
  assert (Hz : forall j, word_ok V.[j]) by (intros; apply Forall_aget; [done | unfold word_ok; lia]).
  split_and!.
  - unfold extend_word. rewrite !aget_app_l by lia. rewrite !sigma_spec by (done || lia).
    match goal with |- aset _ _ ?v = _ =>
      pose proof (aset_app_rep V v (64 - i) ltac:(lia)) as E; rewrite Hl in E; rewrite E end.
    replace (64 - (i + 1)) with (64 - i - 1) by lia.
    do 3 f_equal. unfold next_word, u32. rewrite Hl. f_equal.
    unfold Fips.sigma0, Fips.sigma1. lia.
  - rewrite zlen_app, Hl. done.
  - apply Forall_app_2; [done|]. apply Forall_singleton. apply u32_range.
Qed.

Definition vars_ok (v : vars) : Prop :=
  words_ok [va v; vb v; vc v; vd v; ve v; vf v; vg v; vh v].

Lemma round_step_spec w i v : vars_ok v -> 
  round_step w i v = Fips.round v (k256.[i], w.[i]) /\ vars_ok (round_step w i v).
Proof.
  destruct v as [a b c d e f g h]. unfold vars_ok, round_step, Fips.round.
  cbn [va vb vc vd ve vf vg vh fst snd]. generalize k256.[i], w.[i]. intros k x Hv.
  unfold words_ok in *. repeat match goal with H : Forall _ (_ :: _) |- _ => apply Forall_cons in H as [? ?] end.
  split.
  - rewrite (Sigma_spec e 6 11 25), (Sigma_spec a 2 13 22), (ch_spec e f g), (maj_spec a b c)
      by (assumption || lia).
    fold (Fips.Sigma1 e) (Fips.Sigma0 a).
    unfold u32. f_equal.
    + rewrite <- Z.add_mod by lia. done.
    + rewrite Zplus_mod_idemp_r. done.
  - repeat (apply Forall_cons_2; [first [assumption | apply u32_ok]|]). by apply Forall_nil.
Qed.

Lemma zip_take_snoc w i : zlen w = 64 -> 0 <= i < 64 ->
  ztake (i + 1) (zip k256 w) = ztake i (zip k256 w) ++ [(k256.[i], w.[i])].
Proof.
  intros Hw Hi. unfold ztake. replace (Z.to_nat (i + 1)) with (S (Z.to_nat i)) by lia.
  apply take_S_r. rewrite lookup_zip_with.
  assert (Hk : zlen k256 = 64) by done.
  unfold aget. unfold zlen in *.
  destruct (lookup_lt_is_Some_2 k256 (Z.to_nat i)) as [k ->]; [lia|].
  destruct (lookup_lt_is_Some_2 w (Z.to_nat i)) as [x ->]; [lia|]. done.
Qed.

Lemma rounds_spec w v : zlen w = 64 -> vars_ok v ->
  for_range 0 64 (round_step w) v = foldl Fips.round v (zip k256 w) /\
  vars_ok (for_range 0 64 (round_step w) v).
Proof.
  intros Hw Hv.
  destruct (for_range_ind (fun i v' => v' = foldl Fips.round v (ztake i (zip k256 w)) /\ vars_ok v')
    0 64 (round_step w) v) as [E Hok]; [lia | done | |].
  { intros i v' Hi [E Hok]. destruct (round_step_spec w i v' Hok) as [-> ?]. split; [|].
    - rewrite zip_take_snoc, foldl_snoc by done. by rewrite <- E.
    - destruct (round_step_spec w i v' Hok) as [<- ?]. done. }
  split; [|done]. rewrite E. f_equal. unfold ztake. apply take_ge.
  rewrite length_zip_with. unfold zlen in Hw. lia.
Qed.

Lemma transform_spec ctx block : zlen (state ctx) = 8 -> words_ok (state ctx) ->
  zlen block = 64 -> bytes_ok block ->
  sha256_transform ctx block = set_state ctx (Fips.compress (state ctx) block) /\
  zlen (Fips.compress (state ctx) block) = 8 /\ words_ok (Fips.compress (state ctx) block).
Proof.
  intros Hs Hw Hl Hb. unfold sha256_transform, Fips.compress, Fips.schedule.
  rewrite load_words by done. destruct (parse_words block) as [Hp1 Hp2]; [done..|].
  destruct (extend_words _ Hp1 Hp2) as (-> & Hl' & Hw').
  set (W := Fips.extend 48 _) in *. clearbody W.
  destruct ctx as [s bl dt dl]; cbn [state] in *.
  do 9 (destruct s as [|? s]; try (unfold zlen in Hs; simpl in Hs; lia)).
  set (l := [_; _; _; _; _; _; _; _]) in *.
  set (v0 := mkVars l.[0] l.[1] l.[2] l.[3] l.[4] l.[5] l.[6] l.[7]).
  assert (Hv0 : vars_ok v0) by exact Hw.
  destruct (rounds_spec W v0 Hl' Hv0) as [E _]. rewrite E. clear E.
  set (v := foldl Fips.round v0 (zip k256 W)). clearbody v. clear. split; [reflexivity|].
  split; [reflexivity|].
  unfold l. cbn [zip_with]. repeat (apply Forall_cons_2; [apply u32_ok|]). by apply Forall_nil.
Qed.

(** ** Streaming *)
Lemma zero_from_spec i hi d : 0 <= i <= hi -> hi <= zlen d ->
  zero_from i hi d = ztake i d ++ zrep (hi - i) 0 ++ zdrop hi d.
Proof.
  intros. unfold zero_from. rewrite for_range_shift.
  fold (memset_loop d i (hi - i) 0). rewrite memset_spec by lia. unfold splice.
  rewrite zlen_rep by lia. by replace (i + (hi - i)) with hi by lia.
Qed.

Lemma length_bytes_loop (f : Z -> Z) d : zlen d = 64 ->
  for_range 0 8 (fun b d => aset d (63 - b) (f b)) d =
  ztake 56 d ++ [f 7; f 6; f 5; f 4; f 3; f 2; f 1; f 0].
Proof.
  intros Hd. transitivity (splice d 56 [f 7; f 6; f 5; f 4; f 3; f 2; f 1; f 0]).
  2: { unfold splice. replace (56 + _) with (zlen d) by (rewrite Hd; done).
       unfold zdrop. rewrite drop_ge, app_nil_r by (unfold zlen; lia). done. }
  assert (H : forall n, 0 <= n <= 8 -> for_range 0 n (fun b d => aset d (63 - b) (f b)) d =
    splice d (64 - n) (map (fun k => f (n - 1 - k)) (seqZ 0 n))); [|by apply (H 8)].
  intros n Hn. assert (Hl : forall n, 0 <= n -> zlen (map (fun k => f (n - 1 - k)) (seqZ 0 n)) = n).
  { intros. unfold zlen. rewrite length_map, length_seqZ. lia. }
  refine (for_range_ind (fun n h => n <= 8 -> h = splice d (64 - n) (map (fun k => f (n - 1 - k)) (seqZ 0 n)))
    0 n _ d ltac:(lia) _ _ ltac:(lia)); [intros; symmetry; apply (splice_nil d 64); lia|].
  intros k h Hk IH Hk8. rewrite IH by lia. apply (array_ext 0).
  { rewrite zlen_aset, !zlen_splice; rewrite ?Hl; lia. }
  intros i Hi. rewrite zlen_aset, zlen_splice in Hi by (rewrite ?Hl; lia).
  rewrite aget_aset, !aget_splice by (rewrite ?zlen_splice; rewrite ?Hl; lia). rewrite !Hl by lia.
  assert (Hg : forall m j, 0 <= j < m -> (map (fun k => f (m - 1 - k)) (seqZ 0 m)).[j] = f (m - 1 - j)).
  { intros m j Hj. unfold aget. rewrite list_lookup_fmap, lookup_seqZ_lt by lia. simpl. f_equal. lia. }
  destruct (Z.eqb_spec i (63 - k)) as [->|].
  - replace ((64 - (k + 1) <=? 63 - k) && (63 - k <? 64 - (k + 1) + (k + 1))) with true by lia.
    rewrite Hg by lia. f_equal. lia.
  - replace ((64 - (k + 1) <=? i) && (i <? 64 - (k + 1) + (k + 1)))
      with ((64 - k <=? i) && (i <? 64 - k + k)) by lia.
    destruct ((64 - k <=? i) && (i <? 64 - k + k)) eqn:E; [|done]. bools.
    rewrite !Hg by lia. f_equal. lia.
Qed.

Lemma shiftr_byte v k : 0 <= k -> u8 (Z.shiftr v k) = (v / 2 ^ k) `mod` 256.
Proof. intros. rewrite Z.shiftr_div_pow2 by lia. done. Qed.

Lemma be_bytes8 v : 
  [u8 (Z.shiftr v 56); u8 (Z.shiftr v 48); u8 (Z.shiftr v 40); u8 (Z.shiftr v 32);
   u8 (Z.shiftr v 24); u8 (Z.shiftr v 16); u8 (Z.shiftr v 8); u8 (Z.shiftr v 0)] = Fips.be_bytes 8 v.
Proof.
  unfold Fips.be_bytes. cbn [le_bytes rev app]. rewrite !shiftr_byte, !Z.div_div by lia.
  change (2 ^ 0) with 1. rewrite Z.div_1_r. reflexivity.
Qed.

Lemma be_bytes4 v : 
  [u8 (Z.shiftr v 24); u8 (Z.shiftr v 16); u8 (Z.shiftr v 8); u8 v] = Fips.be_bytes 4 v.
Proof.
  unfold Fips.be_bytes. cbn [le_bytes rev app]. rewrite !shiftr_byte, !Z.div_div by lia. reflexivity.
Qed.

Lemma le_bytes_mod n v : le_bytes n (v `mod` 256 ^ Z.of_nat n) = le_bytes n v.
Proof.
  revert v. induction n as [|n IH]; intros v; [done|]. cbn [le_bytes].
  rewrite Nat2Z.inj_succ, Z.pow_succ_r by lia.
  assert (0 < 256 ^ Z.of_nat n) by (apply Z.pow_pos_nonneg; lia).
  rewrite Z.rem_mul_r by lia. f_equal.
  - rewrite Z.mul_comm, Z.mod_add by lia. apply Z.mod_mod. lia.
  - rewrite <- (IH (v / 256)). f_equal. rewrite Z.mul_comm, Z.div_add by lia.
    rewrite (Z.div_small (v `mod` 256)) by (apply Z.mod_pos_bound; lia). done.
Qed.

(** [absorbed ctx m]: [ctx] has been fed exactly the bytes [m]. *)
Definition absorbed (ctx : sha256_ctx) (m : list Z) : Prop :=
  exists blks rest tail,
    m = concat blks ++ rest /\ bytes_ok m /\ Forall (fun b => zlen b = 64) blks /\
    data ctx = rest ++ tail /\ zlen (data ctx) = 64 /\ bytes_ok tail /\
    zlen rest < 64 /\ datalen ctx = zlen rest /\
    state ctx = foldl Fips.compress initial_state blks /\ bitlen ctx = u64 (512 * zlen blks).

Lemma initial_ok : zlen initial_state = 8 /\ words_ok initial_state.
Proof.
  split; [done|]. repeat (apply Forall_cons_2; [unfold word_ok; lia|]). by apply Forall_nil.
Qed.

Lemma compress_ok H block : zlen H = 8 -> words_ok H -> zlen block = 64 -> bytes_ok block ->
  zlen (Fips.compress H block) = 8 /\ words_ok (Fips.compress H block).
Proof. intros H1 H2 H3 H4. apply (transform_spec (mkSha H 0 [] 0) block H1 H2 H3 H4). Qed.

Lemma chain_ok blks : Forall (fun b => zlen b = 64) blks -> bytes_ok (concat blks) ->
  zlen (foldl Fips.compress initial_state blks) = 8 /\
  words_ok (foldl Fips.compress initial_state blks).
Proof.
  revert blks. refine (rev_ind _ _ _); [intros _ _; apply initial_ok|].
  intros b blks IH Hl Hb. rewrite foldl_snoc. rewrite concat_app in Hb.
  apply Forall_app in Hl as [Hl Hlb]. rewrite Forall_singleton in Hlb. apply Forall_app in Hb as [Hb Hbb].
  simpl in Hbb. rewrite app_nil_r in Hbb. destruct (IH Hl Hb). apply compress_ok; assumption.
Qed.

Lemma chain_transform c blks block : Forall (fun b => zlen b = 64) blks -> bytes_ok (concat blks) ->
  zlen block = 64 -> bytes_ok block -> state c = foldl Fips.compress initial_state blks ->
  sha256_transform c block = set_state c (foldl Fips.compress initial_state (blks ++ [block])).
Proof.
  intros Hl Hb Hl' Hb' Hs. destruct (chain_ok blks Hl Hb).
  destruct (transform_spec c block) as [-> _]; rewrite ?Hs; [done..|]. by rewrite foldl_snoc.
Qed.

Lemma init_absorbed c : zlen (data c) = 64 -> bytes_ok (data c) ->
  exists c', sha256_init (Some c) = Some c' /\ absorbed c' [].
Proof.
  intros Hl Hb. eexists. split; [done|]. exists [], [], (data c).
  split_and!; cbn [data datalen state bitlen]; try done; by apply Forall_nil.
Qed.

Lemma absorb_byte_spec b c m : absorbed c m -> byte_ok b -> absorbed (absorb_byte b c) (m ++ [b]).
Proof.
  intros (blks & rest & tail & -> & Hb & Hbl & Hd & Hdl & Htl & Hr & Hn & Hs & Hbit) Hbb.
  pose proof (zlen_nonneg rest). unfold absorb_byte. cbn [datalen data state bitlen].
  assert (Hm : bytes_ok ((concat blks ++ rest) ++ [b])) by (apply Forall_app_2; [done | by apply Forall_singleton]).
  rewrite Hd in Hdl. rewrite zlen_app in Hdl.
  destruct tail as [|t tail]; [unfold zlen at 2 in Hdl; simpl in Hdl; lia|].
  rewrite zlen_cons in Hdl. apply Forall_cons in Htl as [_ Htl].
  assert (Hset : aset (data c) (datalen c) b = (rest ++ [b]) ++ tail).
  { rewrite Hd, Hn. unfold aset, zlen. rewrite Nat2Z.id, insert_app_r_alt, Nat.sub_diag by lia.
    simpl. by rewrite <- app_assoc. }
  rewrite Hset, Hn, u32_small by lia.
  assert (Hl1 : zlen (rest ++ [b]) = zlen rest + 1) by (by rewrite zlen_app).
  destruct (Z.eqb_spec (zlen rest + 1) SHA256_BLOCK_SIZE) as [E|E]; unfold SHA256_BLOCK_SIZE in E.
  - assert (tail = []) as -> by (apply zlen_nil; lia). rewrite app_nil_r.
    apply Forall_app in Hb as [Hb1 Hb2].
    assert (bytes_ok (rest ++ [b])) by (apply Forall_app_2; [done | by apply Forall_singleton]).
    rewrite (chain_transform _ blks) by (done || lia). cbn [state bitlen data datalen set_state].
    exists (blks ++ [rest ++ [b]]), [], (rest ++ [b]).
    split_and!; cbn [state bitlen data datalen]; try done; try lia.
    + rewrite concat_app; simpl. by rewrite !app_nil_r, app_assoc.
    + apply Forall_app_2; [done|]. apply Forall_singleton. lia.
    + rewrite Hbit, zlen_app. unfold u64. rewrite Zplus_mod_idemp_l. f_equal.
      change (zlen [rest ++ [b]]) with 1. lia.
  - exists blks, (rest ++ [b]), tail. cbn [state bitlen data datalen].
    split_and!; try done; try lia.
    + by rewrite app_assoc.
    + rewrite zlen_app. lia.
Qed.

Lemma update_absorbed c m d len : absorbed c m -> bytes_ok (ztake len d) -> 0 <= len <= zlen d ->
  exists c', sha256_update (Some c) (Some d) len = Some c' /\ absorbed c' (m ++ ztake len d).
Proof.
  intros Hc Hd Hlen. eexists. split; [done|].
  refine (for_range_ind (fun i c' => absorbed c' (m ++ ztake i d)) 0 len _ c ltac:(lia) _ _).
  { by rewrite app_nil_r. }
  intros i c' Hi IH. replace (ztake (i + 1) d) with (ztake i d ++ [d.[i]]).
  - rewrite app_assoc. apply absorb_byte_spec; [done|].
    rewrite <- (aget_take 0 d len) by lia. apply Forall_aget; [done | unfold byte_ok; lia].
  - unfold ztake. replace (Z.to_nat (i + 1)) with (S (Z.to_nat i)) by lia. symmetry. apply take_S_r.
    unfold aget. unfold zlen in Hlen.
    by destruct (lookup_lt_is_Some_2 d (Z.to_nat i)) as [x ->]; [lia|].
Qed.

(** The digest as the bytes of the final chaining value. *)
Lemma store_words_spec s h : zlen s = 8 -> 32 <= zlen h ->
  for_range 0 8 (store_word s) h = splice h 0 (concat (map (Fips.be_bytes 4) s)).
Proof.
  intros Hs Hh.
  assert (Hc : forall l, zlen (concat (map (Fips.be_bytes 4) l)) = 4 * zlen l).
  { intros l. rewrite (zlen_concat _ 4); [unfold zlen; rewrite length_map; lia|].
    apply Forall_fmap, Forall_forall. intros; done. }
  pose proof (for_range_ind (fun j h' => h' = splice h 0 (concat (map (Fips.be_bytes 4) (ztake j s))))
    0 8 (store_word s) h) as H. rewrite H; [|lia|symmetry; apply (splice_nil h 0); lia|].
  { unfold ztake. rewrite take_ge by (unfold zlen in Hs; lia). done. }
  clear H. intros j h' Hj ->.
  assert (E : ztake (j + 1) s = ztake j s ++ [s.[j]]).
  { unfold ztake. replace (Z.to_nat (j + 1)) with (S (Z.to_nat j)) by lia. apply take_S_r.
    unfold aget. unfold zlen in Hs.
    by destruct (lookup_lt_is_Some_2 s (Z.to_nat j)) as [x ->]; [lia|]. }
  rewrite E, map_app, concat_app. cbn [map concat]. rewrite app_nil_r, <- splice_app, Hc, zlen_take.
  2-4: rewrite ?Hc, ?zlen_take; try lia. 2: change (zlen (Fips.be_bytes 4 s.[j])) with 4; lia.
  replace (Z.min j (zlen s)) with j by lia.
  set (h1 := splice h 0 _). assert (Hh1 : zlen h1 = zlen h)
    by (unfold h1; rewrite zlen_splice; rewrite ?Hc, ?zlen_take; lia). clearbody h1.
  rewrite <- be_bytes4. unfold store_word.
  rewrite <- (splice_nil (aset _ (j * 4 + 3) _) (j * 4 + 3 + 1)) by lia.
  rewrite (splice_aset _ (j * 4 + 3)) by (rewrite ?zlen_aset, ?zlen_cons; change (@zlen Z []) with 0; lia).
  replace (j * 4 + 3) with (j * 4 + 2 + 1) by lia.
  rewrite (splice_aset _ (j * 4 + 2)) by (rewrite ?zlen_aset, ?zlen_cons; change (@zlen Z []) with 0; lia).
  replace (j * 4 + 2) with (j * 4 + 1 + 1) by lia.
  rewrite (splice_aset _ (j * 4 + 1)) by (rewrite ?zlen_aset, ?zlen_cons; change (@zlen Z []) with 0; lia).
  rewrite (splice_aset _ (j * 4)) by (rewrite ?zlen_aset, ?zlen_cons; change (@zlen Z []) with 0; lia).
  f_equal. lia.
Qed.

Lemma be_bytes_ok n v : bytes_ok (Fips.be_bytes n v).
Proof. unfold Fips.be_bytes. apply Forall_rev, le_bytes_ok. Qed.

Lemma zlen_be_bytes n v : zlen (Fips.be_bytes n v) = Z.of_nat n.
Proof. unfold Fips.be_bytes, zlen. rewrite length_rev. apply zlen_le_bytes. Qed.

Lemma total_bits k r n : n = 64 * k + r ->
  Fips.be_bytes 8 (u64 (u64 (512 * k) + r * 8)) = Fips.be_bytes 8 (8 * n).
Proof.
  intros ->. unfold Fips.be_bytes. f_equal. unfold u64. rewrite Zplus_mod_idemp_l.
  rewrite <- (le_bytes_mod 8 (8 * (64 * k + r))). do 2 f_equal. lia.
Qed.

Lemma hash_blocks m bs : Fips.pad m = concat bs -> Forall (fun b => zlen b = 64) bs ->
  Fips.hash m = concat (map (Fips.be_bytes 4) (foldl Fips.compress initial_state bs)).
Proof. intros E Hb. unfold Fips.hash. by rewrite E, parse_concat. Qed.

(** The buffer of a context has its size and holds bytes. *)
Definition ctx_ok (c : sha256_ctx) : Prop := zlen (data c) = 64 /\ bytes_ok (data c).

(** The closing block: 56 bytes, then the length; and the digest it gives. *)
Lemma final_block c blks p q h n m :
  Forall (fun b => zlen b = 64) blks -> bytes_ok (concat blks) ->
  state c = foldl Fips.compress initial_state blks ->
  zlen p = 56 -> bytes_ok p -> zlen q = 8 -> 32 <= zlen h ->
  Fips.pad m = concat (blks ++ [p ++ Fips.be_bytes 8 n]) ->
  let d := for_range 0 8 (fun b d => aset d (63 - b) (u8 (Z.shiftr n (b * 8)))) (p ++ q) in
  for_range 0 8 (store_word (state (sha256_transform (set_data c d) d))) h =
  splice h 0 (Fips.hash m) /\
  ctx_ok (sha256_transform (set_data c d) d).
Proof.
  intros Hl Hb Hs Hp Hpb Hq Hh Hpad. cbv zeta.
  rewrite (length_bytes_loop (fun b => u8 (Z.shiftr n (b * 8)))) by (rewrite zlen_app; lia).
  rewrite (ztake_app_len p q 56) by done. 
  change (7 * 8) with 56. change (6 * 8) with 48. change (5 * 8) with 40. change (4 * 8) with 32.
  change (3 * 8) with 24. change (2 * 8) with 16. change (1 * 8) with 8. change (0 * 8) with 0.
  rewrite be_bytes8.
  assert (Hbl : zlen (p ++ Fips.be_bytes 8 n) = 64) by (rewrite zlen_app, Hp; done).
  assert (Hbo : bytes_ok (p ++ Fips.be_bytes 8 n)) by (apply Forall_app_2; [done | apply be_bytes_ok]).
  rewrite (chain_transform _ blks) by done. cbn [state set_state].
  assert (Forall (fun b => zlen b = 64) (blks ++ [p ++ Fips.be_bytes 8 n]))
    by (apply Forall_app_2; [done | by apply Forall_singleton]).
  rewrite (hash_blocks m _ Hpad) by done. split; [|done]. apply store_words_spec; [|done].
  apply chain_ok; [done|]. rewrite concat_app. simpl. rewrite app_nil_r. by apply Forall_app_2.
Qed.

Lemma final_pair (c : sha256_ctx) (x y : list Z) : x = y /\ ctx_ok c ->
  exists c', (Some c, Some x) = (Some c', Some y) /\ ctx_ok c'.
Proof. intros [-> ?]. by exists c. Qed.

Lemma final_absorbed c m h : absorbed c m -> 32 <= zlen h ->
  exists c', sha256_final (Some c) (Some h) = (Some c', Some (splice h 0 (Fips.hash m))) /\ ctx_ok c'.
Proof.
  intros (blks & rest & tail & Hm & Hb & Hbl & Hd & Hdl & Htl & Hr & Hn & Hs & Hbit) Hh.
  pose proof (zlen_nonneg rest). rewrite Hm in Hb. apply Forall_app in Hb as [Hb1 Hb2].
  rewrite Hd, zlen_app in Hdl.
  destruct tail as [|t tail]; [change (@zlen Z []) with 0 in Hdl; lia|].
  rewrite zlen_cons in Hdl.
  assert (Hset : aset (data c) (datalen c) 128 = (rest ++ [128]) ++ tail).
  { rewrite Hd, Hn. unfold aset, zlen. rewrite Nat2Z.id, insert_app_r_alt, Nat.sub_diag by lia.
    simpl. by rewrite <- app_assoc. }
  assert (Hlm : zlen m = 64 * zlen blks + zlen rest) by (rewrite Hm, zlen_app, (zlen_concat _ 64); done).
  assert (Hr1 : zlen (rest ++ [128]) = zlen rest + 1) by (by rewrite zlen_app).
  assert (Hr1b : bytes_ok (rest ++ [128])).
  { apply Forall_app_2; [done|]. apply Forall_singleton. unfold byte_ok. lia. }
  unfold sha256_final. cbn [set_data data datalen]. rewrite Hset, Hn, u32_small by lia.
  destruct (Z.ltb_spec 56 (zlen rest + 1)) as [Hlt|Hge].
  - unfold SHA256_BLOCK_SIZE. cbn [data].
    rewrite zero_from_spec by (try rewrite (zlen_app (rest ++ [128])), Hr1; lia).
    rewrite (ztake_app_len (rest ++ [128])) by done.
    unfold zdrop. rewrite (drop_ge _ (Z.to_nat 64)) by (rewrite ?length_app; unfold zlen in *; simpl; lia).
    rewrite app_nil_r. set (B1 := (rest ++ [128]) ++ zrep (64 - (zlen rest + 1)) 0).
    assert (HB1 : zlen B1 = 64) by (unfold B1; rewrite zlen_app, Hr1, zlen_rep; lia).
    assert (HB1b : bytes_ok B1) by (apply Forall_app_2; [done | apply zrep_ok; unfold byte_ok; lia]).
    rewrite (chain_transform _ blks B1) by done. unfold set_state, set_data. cbn [data state bitlen datalen].
    rewrite zero_from_spec by lia. change (ztake 0 B1) with (@nil Z). rewrite app_nil_l.
    rewrite Hbit, Hn. apply final_pair.
    eapply (final_block (mkSha _ _ [] _) (blks ++ [B1])); try done.
    + apply Forall_app_2; [done | by apply Forall_singleton].
    + rewrite concat_app. simpl. rewrite app_nil_r. by apply Forall_app_2.
    + apply zrep_ok. unfold byte_ok. lia.
    + rewrite zlen_drop; lia.
    + rewrite (total_bits _ _ (zlen m)) by done. unfold Fips.pad.
      replace ((55 - zlen m) `mod` 64) with (64 - (zlen rest + 1) + 56).
      2: { rewrite Hlm. apply Z.mod_unique with (- zlen blks - 1); lia. }
      rewrite Hm at 1. rewrite !concat_app. simpl. rewrite !app_nil_r.
      unfold B1, zrep. rewrite Z2Nat.inj_add, replicate_add by lia. 
      repeat rewrite <- app_assoc; simpl. done.
  - cbn [data set_data bitlen datalen].
    rewrite zero_from_spec by (try rewrite (zlen_app (rest ++ [128])), Hr1; lia).
    rewrite (ztake_app_len (rest ++ [128])) by done. rewrite app_assoc. unfold set_data.
    cbn [data state bitlen datalen]. rewrite Hbit, Hn.
    apply final_pair. eapply (final_block (mkSha _ _ [] _) blks); try done.
    + rewrite zlen_app, Hr1, zlen_rep; lia.
    + apply Forall_app_2; [done | apply zrep_ok; unfold byte_ok; lia].
    + rewrite zlen_drop, zlen_app, Hr1; lia.
    + rewrite (total_bits _ _ (zlen m)) by done. unfold Fips.pad.
      replace ((55 - zlen m) `mod` 64) with (56 - (zlen rest + 1)).
      2: { rewrite Hlm. apply Z.mod_unique with (- zlen blks); lia. }
      rewrite Hm at 1. rewrite !concat_app. simpl. rewrite !app_nil_r.
      repeat rewrite <- app_assoc; simpl. done.
Qed.

(** ** Whole messages *)
Lemma hash_len m : zlen (Fips.hash m) = 4 * zlen (foldl Fips.compress initial_state (Fips.parse 64 (Fips.pad m))).
Proof.
  unfold Fips.hash. rewrite (zlen_concat _ 4); [unfold zlen; rewrite length_map; done|].
  apply Forall_fmap, Forall_forall. intros; apply zlen_be_bytes.
Qed.

Lemma hash_bytes m : bytes_ok (Fips.hash m).
Proof.
  unfold Fips.hash, bytes_ok. apply Forall_concat, Forall_fmap, Forall_forall. intros. apply be_bytes_ok.
Qed.

Lemma zlen_pad m : exists k, 0 <= k /\ zlen (Fips.pad m) = 64 * k.
Proof.
  pose proof (zlen_nonneg m). pose proof (Z.mod_pos_bound (55 - zlen m) 64 ltac:(lia)).
  exists ((zlen m + 9 + (55 - zlen m) `mod` 64) / 64). unfold Fips.pad.
  rewrite !zlen_app, zlen_rep, zlen_be_bytes by lia. change (zlen [128]) with 1. 
  assert (E : (zlen m + 9 + (55 - zlen m) `mod` 64) `mod` 64 = 0).
  { rewrite Zplus_mod_idemp_r. by replace (zlen m + 9 + (55 - zlen m)) with (1 * 64) by lia. }
  split; [apply Z.div_pos; lia|]. apply Z.div_exact in E; lia.
Qed.

Lemma zlen_hash m : bytes_ok m -> zlen (Fips.hash m) = 32.
Proof.
  intros Hm. rewrite hash_len. destruct (zlen_pad m) as (k & Hk & Hl).
  assert (Hp : bytes_ok (Fips.pad m)).
  { unfold Fips.pad. apply Forall_app_2; [done|].
    apply Forall_app_2; [apply Forall_singleton; unfold byte_ok; lia|].
    apply Forall_app_2; [apply zrep_ok; unfold byte_ok; lia | apply be_bytes_ok]. }
  pose proof (split_pieces 64 (Fips.pad m) k ltac:(lia) Hk Hl) as E.
  set (ps := map _ (seqZ 0 k)) in E.
  assert (Hps : Forall (fun b => zlen b = 64) ps).
  { apply Forall_fmap, Forall_forall. intros j Hj%elem_of_seqZ. simpl. apply zlen_sub; lia. }
  clearbody ps. rewrite E in Hp |- *. rewrite parse_concat by (done || lia).
  destruct (chain_ok ps Hps Hp) as [-> _]. done.
Qed.

(** A run of updates over a list of buffers, each with its length argument. *)
Definition update_all (ctx : option sha256_ctx) (parts : list (list Z * Z)) : option sha256_ctx :=
  foldl (fun c p => sha256_update c (Some p.1) p.2) ctx parts.

Definition part_ok (p : list Z * Z) : Prop := bytes_ok (ztake p.2 p.1) /\ 0 <= p.2 <= zlen p.1.
Definition message (parts : list (list Z * Z)) : list Z := concat (map (fun p => ztake p.2 p.1) parts).

Lemma update_all_absorbed c m parts : absorbed c m -> Forall part_ok parts ->
  exists c', update_all (Some c) parts = Some c' /\ absorbed c' (m ++ message parts).
Proof.
  intros Hc Hp. revert c m Hc. induction Hp as [|[d len] parts [Hd Hl] _ IH]; intros c m Hc.
  - exists c. split; [done|]. unfold message. simpl. by rewrite app_nil_r.
  - destruct (update_absorbed c m d len) as (c' & E & Hc'); [done..|].
    destruct (IH c' _ Hc') as (c'' & E' & Hc''). exists c''. split.
    + unfold update_all. simpl. rewrite <- E in E'. apply E'.
    + unfold message in *. simpl. by rewrite app_assoc.
Qed.

Lemma bytes_ok_app x y : bytes_ok (x ++ y) <-> bytes_ok x /\ bytes_ok y.
Proof. apply Forall_app. Qed.

Lemma stream_digest c0 parts h : ctx_ok c0 -> Forall part_ok parts -> 32 <= zlen h ->
  exists c', sha256_final (update_all (sha256_init (Some c0)) parts) (Some h) =
  (Some c', Some (splice h 0 (Fips.hash (message parts)))) /\ ctx_ok c'.
Proof.
  intros [Hl Hb] Hp Hh. destruct (init_absorbed c0 Hl Hb) as (c & -> & Hc).
  destruct (update_all_absorbed c [] parts Hc Hp) as (c1 & -> & Hc1).
  by apply final_absorbed.
Qed.

Lemma zero_ctx_ok : ctx_ok zero_ctx.
Proof. split; [done|]. apply zrep_ok. unfold byte_ok. lia. Qed.

(** ** Properties *)

(** C11. The streaming SHA-256 is FIPS 180-4: from [sha256_init], any sequence of
    [sha256_update] calls followed by [sha256_final] writes into the first 32
    bytes of the output the reference digest of the concatenated inputs, however
    the message is cut into calls; [sha256_hash] agrees with it. *)
Theorem sha256_correct c0 parts h : ctx_ok c0 -> Forall part_ok parts -> 32 <= zlen h ->
  (sha256_final (update_all (sha256_init (Some c0)) parts) (Some h)).2 =
    Some (splice h 0 (Fips.hash (message parts))) /\
  sha256_hash (Some (message parts)) (zlen (message parts)) (Some h) =
    Some (splice h 0 (Fips.hash (message parts))).
Proof.
  intros Hc Hp Hh. destruct (stream_digest c0 parts h) as (c' & E & _); [done..|]. split; [by rewrite E|].
  assert (Hm : bytes_ok (message parts)).
  { clear -Hp. unfold message, bytes_ok. apply Forall_concat, Forall_fmap.
    eapply Forall_impl; [exact Hp|]. by intros [d n] [Hd _]. }
  destruct (stream_digest zero_ctx [(message parts, zlen (message parts))] h) as (c1 & E1 & _).
  - apply zero_ctx_ok.
  - apply Forall_singleton. split; [by apply Forall_take|]. simpl. pose proof (zlen_nonneg (message parts)). lia.
  - done.
  - unfold sha256_hash. unfold update_all in E1. cbn [foldl fst snd] in E1. rewrite E1. cbn [snd].
    do 3 f_equal. unfold message at 1. cbn [map concat fst snd]. rewrite app_nil_r.
    unfold ztake, zlen. rewrite Nat2Z.id, take_ge; done.
Qed.

Lemma sha256_correct_witness :
  sha256_hash (Some [97; 98; 99]) 3 (Some (zrep 32 0)) =
  Some (splice (zrep 32 0) 0 (Fips.hash (message [([97], 1); ([98; 99; 100], 2)]))).
Proof.
  refine (proj2 (sha256_correct zero_ctx [([97], 1); ([98; 99; 100], 2)] (zrep 32 0) _ _ _)).
  - apply zero_ctx_ok.
  - repeat (apply Forall_cons_2; [split; [apply bytes_okb_ok; reflexivity | simpl; unfold zlen; simpl; lia]|]).
    apply Forall_nil_2.
  - reflexivity || (unfold zlen; simpl; lia).
Defined.

(** The published digests of abc and of a 56-byte message, which needs a second
    block for its padding. *)
Example sha256_abc : Fips.hash [97; 98; 99] =
  [0xba;0x78;0x16;0xbf;0x8f;0x01;0xcf;0xea;0x41;0x41;0x40;0xde;0x5d;0xae;0x22;0x23;
   0xb0;0x03;0x61;0xa3;0x96;0x17;0x7a;0x9c;0xb4;0x10;0xff;0x61;0xf2;0x00;0x15;0xad].
Proof. vm_compute. reflexivity. Qed.

Example sha256_two_blocks :
  Fips.hash (flat_map (fun i => [97 + i; 98 + i; 99 + i; 100 + i]) (seqZ 0 14)) =
  [0x24;0x8d;0x6a;0x61;0xd2;0x06;0x38;0xb8;0xe5;0xc0;0x26;0x93;0x0c;0x3e;0x60;0x39;
   0xa3;0x3c;0xe4;0x59;0x64;0xff;0x21;0x67;0xf6;0xec;0xed;0xd4;0x19;0xdb;0x06;0xc1].
Proof. vm_compute. reflexivity. Qed.
