(* ===== verification/Crypt.v ===== *)
(** * HMAC-SHA256 and the key derivation functions

    Models src/security/crypt.c, crypt_kdf.c and crypt_hkdf.c, and proves
    them against references written from RFC 2104 (HMAC), RFC 8018 (PBKDF2) and
    RFC 5869 (HKDF).

    The functions wipe their secret locals before they return: the result of a
    definition carries, next to the outputs, what the frame holds at the return,
    so that the wipes can be stated.  A local that is not yet written reads as
    zero.  [argon2id_hash] (src/security/argon2.c) is an argument of the
    definition that calls it. *)
From S2P Require Import Prelude Sha256.
Local Open Scope capy_scope.

Definition CRYPT_KEY_SIZE : Z := 32.

Definition crypt_secure_clear (ptr : list Z) (len : Z) : list Z := memset_loop ptr 0 len 0.

(** ** HMAC *)

(** Hash a key longer than a block: the context, the digest buffer, and the key
    and length used from then on. *)
Definition shorten_key (ctx : option sha256_ctx) (hashed key : list Z) (key_len : Z)
    : option sha256_ctx * list Z * list Z * Z :=
  if SHA256_BLOCK_SIZE <? key_len then
    let ctx := sha256_init ctx in
    let ctx := sha256_update ctx (Some key) key_len in
    let '(ctx, h) := sha256_final ctx (Some hashed) in
    (ctx, default hashed h, default hashed h, SHA256_DIGEST_SIZE)
  else (ctx, hashed, key, key_len).

(** Key byte [i], zero-extended, as the pad loops read it. *)
Definition key_at (key : list Z) (key_len i : Z) : Z := if i <? key_len then key.[i] else 0.

Record hmac_frame := mkFrame {
  f_ctx : option sha256_ctx;
  f_key_ctx : option sha256_ctx;
  f_kopad : list Z;
  f_kipad : list Z;
  f_key_hash : list Z }.

Definition crypt_hmac_sha256_internal (key : list Z) (key_len : Z) (data : option (list Z))
    (data_len : Z) (out : option (list Z)) : option (list Z) * hmac_frame :=
  let key_ctx_used := SHA256_BLOCK_SIZE <? key_len in
  let '(key_ctx, key_hash, key, key_len) :=
    shorten_key (Some zero_ctx) (zrep SHA256_DIGEST_SIZE 0) key key_len in
  let '(kipad, kopad) := for_range 0 SHA256_BLOCK_SIZE (fun i p =>
      let kc := key_at key key_len i in
      (aset p.1 i (Z.lxor kc 0x36), aset p.2 i (Z.lxor kc 0x5c)))
    (zrep SHA256_BLOCK_SIZE 0, zrep SHA256_BLOCK_SIZE 0) in
  let ctx := sha256_init (Some zero_ctx) in
  let ctx := sha256_update ctx (Some kipad) SHA256_BLOCK_SIZE in
  let ctx := sha256_update ctx data data_len in
  let '(ctx, out) := sha256_final ctx out in
  let ctx := sha256_init ctx in
  let ctx := sha256_update ctx (Some kopad) SHA256_BLOCK_SIZE in
  let ctx := sha256_update ctx out SHA256_DIGEST_SIZE in
  let '(ctx, out) := sha256_final ctx out in
  (out, mkFrame (sha256_clear ctx) (if key_ctx_used then sha256_clear key_ctx else key_ctx)
          (crypt_secure_clear kopad SHA256_BLOCK_SIZE) (crypt_secure_clear kipad SHA256_BLOCK_SIZE)
          (crypt_secure_clear key_hash SHA256_DIGEST_SIZE)).

Definition crypt_constant_time_compare (a b : list Z) (len : Z) : Z :=
  let diff := for_range 0 len (fun i diff => Z.lor diff (Z.lxor a.[i] b.[i])) 0 in
  if diff =? 0 then 0 else -1.

Definition fill_pad (key : list Z) (key_len x : Z) (k_pad : list Z) : list Z :=
  for_range 0 SHA256_BLOCK_SIZE (fun i p => aset p i (Z.lxor (key_at key key_len i) x)) k_pad.

(** One context and one pad are used for all three hashes. *)
Definition crypt_hmac_sha256 (key : list Z) (key_len : Z) (data : option (list Z))
    (data_len : Z) (out : option (list Z)) : option (list Z) * (option sha256_ctx * list Z * list Z) :=
  let '(ctx, tk, key, key_len) :=
    shorten_key (Some zero_ctx) (zrep SHA256_DIGEST_SIZE 0) key key_len in
  let k_pad := fill_pad key key_len 0x36 (zrep SHA256_BLOCK_SIZE 0) in
  let ctx := sha256_init ctx in
  let ctx := sha256_update ctx (Some k_pad) SHA256_BLOCK_SIZE in
  let ctx := sha256_update ctx data data_len in
  let '(ctx, out) := sha256_final ctx out in
  let k_pad := fill_pad key key_len 0x5c k_pad in
  let ctx := sha256_init ctx in
  let ctx := sha256_update ctx (Some k_pad) SHA256_BLOCK_SIZE in
  let ctx := sha256_update ctx out SHA256_DIGEST_SIZE in
  let '(ctx, out) := sha256_final ctx out in
  (out, (sha256_clear ctx, crypt_secure_clear k_pad SHA256_BLOCK_SIZE,
         crypt_secure_clear tk SHA256_DIGEST_SIZE)).

(** ** PBKDF2 *)
Definition hmac_u (password : list Z) (password_len : Z) (data : list Z) (len : Z) (u : list Z) : list Z :=
  default u (crypt_hmac_sha256_internal password password_len (Some data) len (Some u)).1.

Record pbkdf2_frame := mkPb { p_u : list Z; p_t : list Z; p_salt_block : list Z }.

Definition xor_into (t u : list Z) : list Z :=
  for_range 0 SHA256_DIGEST_SIZE (fun j t => aset t j (Z.lxor t.[j] u.[j])) t.

(** [salt_block]: the salt, cut to 60 bytes, and the block index. *)
Definition fill_salt_block (salt : list Z) (sb_len i : Z) (sb : list Z) : list Z :=
  let sb := memcpy_loop sb 0 salt 0 sb_len in
  let sb := aset sb (sb_len + 0) (u8 (Z.shiftr i 24)) in
  let sb := aset sb (sb_len + 1) (u8 (Z.shiftr i 16)) in
  let sb := aset sb (sb_len + 2) (u8 (Z.shiftr i 8)) in
  aset sb (sb_len + 3) (u8 i).

(** The chain [U_1 .. U_c] and its running xor. *)
Definition iterate_block (password : list Z) (password_len iterations : Z) (u t : list Z)
    : list Z * list Z :=
  for_range 1 iterations (fun _ ut =>
    let u := hmac_u password password_len ut.1 SHA256_DIGEST_SIZE ut.1 in
    (u, xor_into ut.2 u)) (u, t).

(** One round of the outer loop; [salt_len + 4] is below [2 ^ 64]. *)
Definition pbkdf2_block (password : list Z) (password_len : Z) (salt : list Z)
    (salt_len iterations out_len i : Z) (s : list Z * pbkdf2_frame) : list Z * pbkdf2_frame :=
  let '(out, mkPb u t sb) := s in
  let sb_len := if SHA256_BLOCK_SIZE <? u64 (salt_len + 4) then SHA256_BLOCK_SIZE - 4 else salt_len in
  let sb := fill_salt_block salt sb_len i sb in
  let u := hmac_u password password_len sb (sb_len + 4) u in
  let t := memcpy_loop t 0 u 0 SHA256_DIGEST_SIZE in
  let '(u, t) := iterate_block password password_len iterations u t in
  let offset := u32 ((i - 1) * SHA256_DIGEST_SIZE) in
  let to_copy := if out_len <? offset + SHA256_DIGEST_SIZE then u64 (out_len - offset)
                 else SHA256_DIGEST_SIZE in
  (memcpy_loop out offset t 0 to_copy, mkPb u t sb).

Definition pbkdf2_hmac_sha256 (password : list Z) (password_len : Z) (salt : list Z)
    (salt_len iterations : Z) (out : list Z) (out_len : Z) : list Z * pbkdf2_frame :=
  let blocks := u32 (u64 (out_len + SHA256_DIGEST_SIZE - 1) / SHA256_DIGEST_SIZE) in
  let '(out, mkPb u t sb) :=
    for_range 1 (blocks + 1) (pbkdf2_block password password_len salt salt_len iterations out_len)
      (out, mkPb (zrep SHA256_DIGEST_SIZE 0) (zrep SHA256_DIGEST_SIZE 0) (zrep SHA256_BLOCK_SIZE 0)) in
  (out, mkPb (crypt_secure_clear u SHA256_DIGEST_SIZE) (crypt_secure_clear t SHA256_DIGEST_SIZE)
             (crypt_secure_clear sb SHA256_BLOCK_SIZE)).

Definition crypt_pbkdf2_sha256 (password : option (list Z)) (password_len : Z)
    (salt : option (list Z)) (salt_len iterations : Z) (out : option (list Z)) (out_len : Z)
    : option (list Z) :=
  match password, salt, out with
  | Some p, Some s, Some o =>
      if (out_len =? 0) || (iterations =? 0) then out
      else Some (pbkdf2_hmac_sha256 p password_len s salt_len iterations o out_len).1
  | _, _, _ => out
  end.

(** [while (password[n]) n++]; the string ends at its first zero byte. *)
Fixpoint strlen (fuel : nat) (s : list Z) (n : Z) : Z :=
  match fuel with
  | O => n
  | S fuel => if s.[n] =? 0 then n else strlen fuel s (n + 1)
  end.

Definition c_strlen (s : list Z) : Z := strlen (length s) s 0.

(** [key1] and [key2] from the two halves of [derived]. *)
Definition split_keys (derived key1 key2 : list Z) : list Z * list Z :=
  for_range 0 CRYPT_KEY_SIZE (fun i k =>
    (aset k.1 i derived.[i], aset k.2 i derived.[i + CRYPT_KEY_SIZE])) (key1, key2).

Definition crypt_derive_xts_keys (password salt : option (list Z)) (salt_len iterations : Z)
    (key1 key2 : option (list Z)) : option (list Z) * option (list Z) :=
  match password, salt, key1, key2 with
  | Some p, Some s, Some k1, Some k2 =>
      if iterations =? 0 then (key1, key2) else
      let derived := (pbkdf2_hmac_sha256 p (c_strlen p) s salt_len iterations
                        (zrep (CRYPT_KEY_SIZE * 2) 0) (CRYPT_KEY_SIZE * 2)).1 in
      let '(k1, k2) := split_keys derived k1 k2 in
      (Some k1, Some k2)
  | _, _, _, _ => (key1, key2)
  end.

Definition ARGON2_MIN_T_COST : Z := 1.
Definition ARGON2_MIN_M_COST : Z := 8.

(** [argon2 pw len salt len t m] is the return code of [argon2id_hash] and the
    64 bytes left in [derived]; [mem_ok] says whether the work memory is granted. *)
Definition crypt_derive_xts_keys_argon2id
    (argon2 : list Z -> Z -> list Z -> Z -> Z -> Z -> Z * list Z) (mem_ok : bool)
    (password salt : option (list Z)) (salt_len t_cost m_cost : Z)
    (key1 key2 : option (list Z)) : Z * option (list Z) * option (list Z) :=
  let key1 := (fun k => crypt_secure_clear k CRYPT_KEY_SIZE) <$> key1 in
  let key2 := (fun k => crypt_secure_clear k CRYPT_KEY_SIZE) <$> key2 in
  match password, salt, key1, key2 with
  | Some p, Some s, Some k1, Some k2 =>
      if (t_cost <? ARGON2_MIN_T_COST) || (m_cost <? ARGON2_MIN_M_COST) then (-1, key1, key2) else
      if salt_len <? 8 then (-1, key1, key2) else
      if negb mem_ok then (-1, key1, key2) else
      let '(rc, derived) := argon2 p (c_strlen p) s salt_len t_cost m_cost in
      if negb (rc =? 0) then (-1, key1, key2) else
      let '(k1, k2) := split_keys derived k1 k2 in
      (0, Some k1, Some k2)
  | _, _, _, _ => (-1, key1, key2)
  end.

(** ** HKDF *)
Record hkdf_hmac_ctx := mkHk { inner : option sha256_ctx; kopad : list Z }.

Definition hkdf_hmac_begin (key : list Z) (key_len : Z) : hkdf_hmac_ctx :=
  let '(_, _, key, key_len) := shorten_key (Some zero_ctx) (zrep SHA256_DIGEST_SIZE 0) key key_len in
  let '(kipad, kopad) := for_range 0 SHA256_BLOCK_SIZE (fun i p =>
      let kc := key_at key key_len i in
      (aset p.1 i (Z.lxor kc 0x36), aset p.2 i (Z.lxor kc 0x5c)))
    (zrep SHA256_BLOCK_SIZE 0, zrep SHA256_BLOCK_SIZE 0) in
  let inner := sha256_init (Some zero_ctx) in
  mkHk (sha256_update inner (Some kipad) SHA256_BLOCK_SIZE) kopad.

Definition hkdf_hmac_update (ctx : hkdf_hmac_ctx) (data : option (list Z)) (data_len : Z)
    : hkdf_hmac_ctx :=
  match data with
  | None => ctx
  | Some _ => if data_len =? 0 then ctx
              else mkHk (sha256_update (inner ctx) data data_len) (kopad ctx)
  end.

(** The MAC, and the context as it is left. *)
Definition hkdf_hmac_end (ctx : hkdf_hmac_ctx) (out : option (list Z))
    : option (list Z) * hkdf_hmac_ctx :=
  let '(inner, out) := sha256_final (inner ctx) out in
  let outer := sha256_init (Some zero_ctx) in
  let outer := sha256_update outer (Some (kopad ctx)) SHA256_BLOCK_SIZE in
  let outer := sha256_update outer out SHA256_DIGEST_SIZE in
  let '(_, out) := sha256_final outer out in
  (out, mkHk (sha256_clear inner) (crypt_secure_clear (kopad ctx) SHA256_BLOCK_SIZE)).

Definition crypt_hkdf_sha256_extract (salt : option (list Z)) (salt_len : Z)
    (ikm : option (list Z)) (ikm_len : Z) (prk : option (list Z)) : Z * option (list Z) :=
  match prk with
  | None => (-1, None)
  | Some _ =>
      let '(effective_salt, effective_salt_len) :=
        match salt with
        | Some s => if salt_len =? 0 then (zrep SHA256_DIGEST_SIZE 0, SHA256_DIGEST_SIZE) else (s, salt_len)
        | None => (zrep SHA256_DIGEST_SIZE 0, SHA256_DIGEST_SIZE)
        end in
      let '(effective_ikm, effective_ikm_len) :=
        match ikm with Some i => (i, ikm_len) | None => ([0], 0) end in
      (0, (crypt_hmac_sha256_internal effective_salt effective_salt_len (Some effective_ikm)
             effective_ikm_len prk).1)
  end.

(** The [while] loop: the return code, [out] and [t_prev]. *)
Fixpoint expand_loop (fuel : nat) (prk : list Z) (prk_len : Z) (info : option (list Z))
    (info_len out_len : Z) (t_prev : list Z) (t_prev_len produced counter : Z) (out : list Z)
    : option (Z * list Z * list Z) :=
  match fuel with
  | O => None
  | S fuel =>
      if negb (produced <? out_len) then Some (0, out, crypt_secure_clear t_prev SHA256_DIGEST_SIZE) else
      if 255 <? counter then Some (-1, out, crypt_secure_clear t_prev SHA256_DIGEST_SIZE) else
      let hctx := hkdf_hmac_begin prk prk_len in
      let hctx := if 0 <? t_prev_len then hkdf_hmac_update hctx (Some t_prev) t_prev_len else hctx in
      let hctx := match info with
                  | Some _ => if 0 <? info_len then hkdf_hmac_update hctx info info_len else hctx
                  | None => hctx
                  end in
      let hctx := hkdf_hmac_update hctx (Some [u8 counter]) 1 in
      let t_prev := default t_prev (hkdf_hmac_end hctx (Some t_prev)).1 in
      let chunk := if out_len <? produced + SHA256_DIGEST_SIZE then out_len - produced
                   else SHA256_DIGEST_SIZE in
      let out := memcpy_loop out produced t_prev 0 chunk in
      expand_loop fuel prk prk_len info info_len out_len t_prev SHA256_DIGEST_SIZE
        (produced + chunk) (counter + 1) out
  end.

(** The counter check ends the loop after at most 256 tests. *)
Definition expand_fuel : nat := 257.

Definition crypt_hkdf_sha256_expand (prk : option (list Z)) (prk_len : Z) (info : option (list Z))
    (info_len : Z) (out : option (list Z)) (out_len : Z) : option (Z * option (list Z) * list Z) :=
  match prk, out with
  | Some k, Some o =>
      if out_len =? 0 then Some (0, out, []) else
      if 255 * SHA256_DIGEST_SIZE <? out_len then Some (-1, out, []) else
      if prk_len <? SHA256_DIGEST_SIZE then Some (-1, out, []) else
      match expand_loop expand_fuel k prk_len info info_len out_len (zrep SHA256_DIGEST_SIZE 0) 0 0 1 o with
      | Some (rc, o, t) => Some (rc, Some o, t)
      | None => None
      end
  | _, _ => Some (-1, out, [])
  end.

Definition crypt_hkdf_sha256 (salt : option (list Z)) (salt_len : Z) (ikm : option (list Z))
    (ikm_len : Z) (info : option (list Z)) (info_len : Z) (out : option (list Z)) (out_len : Z)
    : option (Z * option (list Z)) :=
  let '(rc, prk) := crypt_hkdf_sha256_extract salt salt_len ikm ikm_len
                      (Some (zrep SHA256_DIGEST_SIZE 0)) in
  if negb (rc =? 0) then Some (rc, out) else
  match crypt_hkdf_sha256_expand prk SHA256_DIGEST_SIZE info info_len out out_len with
  | Some (rc, out, _) => Some (rc, out)
  | None => None
  end.

(** ** References *)

(** RFC 2104. *)
Definition hmac_key (k : list Z) : list Z :=
  let k := if 64 <? zlen k then Fips.hash k else k in k ++ zrep (64 - zlen k) 0.

Definition HMAC (k m : list Z) : list Z :=
  Fips.hash (map (fun b => Z.lxor b 0x5c) (hmac_key k) ++
    Fips.hash (map (fun b => Z.lxor b 0x36) (hmac_key k) ++ m)).

(** RFC 8018: [U] chains from its first value, [F] xors [c] of them. *)
Definition xor_bytes (x y : list Z) : list Z := zip_with Z.lxor x y.

Fixpoint F (p : list Z) (c : nat) (u : list Z) : list Z :=
  match c with
  | O => u
  | S c => xor_bytes u (F p c (HMAC p u))
  end.

Definition pbkdf2_T (p s : list Z) (c : Z) (i : Z) : list Z :=
  F p (Z.to_nat (c - 1)) (HMAC p (s ++ Fips.be_bytes 4 i)).

Definition PBKDF2 (p s : list Z) (c dk_len : Z) : list Z :=
  ztake dk_len (concat (map (pbkdf2_T p s c) (seqZ 1 ((dk_len + 31) / 32)))).

(** RFC 5869: [T(1) | T(2) | ...] from [T(i - 1)]. *)
Fixpoint okm (prk info : list Z) (n : nat) (i : Z) (prev : list Z) : list Z :=
  match n with
  | O => []
  | S n => let t := HMAC prk (prev ++ info ++ [i]) in t ++ okm prk info n (i + 1) t
  end.

Definition HKDF_Extract (salt ikm : list Z) : list Z :=
  HMAC (if zlen salt =? 0 then zrep 32 0 else salt) ikm.

Definition HKDF_Expand (prk info : list Z) (l : Z) : list Z :=
  ztake l (okm prk info (Z.to_nat ((l + 31) / 32)) 1 []).

(** ** Loops over two buffers, and fills *)
Lemma secure_clear_all p n : zlen p = n -> crypt_secure_clear p n = zrep n 0.
Proof.
  intros Hp. pose proof (zlen_nonneg p). unfold crypt_secure_clear.
  rewrite memset_spec by lia. rewrite splice_all; [done|]. rewrite zlen_rep; lia.
Qed.

(** ** HMAC *)
Lemma key_ztake key n : bytes_ok key -> 0 <= n <= zlen key ->
  bytes_ok (ztake n key) /\ zlen (ztake n key) = n.
Proof. intros. split; [by apply Forall_take | rewrite zlen_take; lia]. Qed.

Lemma hash1 c0 d n o : ctx_ok c0 -> bytes_ok (ztake n d) -> 0 <= n <= zlen d -> 32 <= zlen o ->
  exists c1, sha256_final (sha256_update (sha256_init (Some c0)) (Some d) n) (Some o) =
  (Some c1, Some (splice o 0 (Fips.hash (ztake n d)))) /\ ctx_ok c1.
Proof.
  intros Hc Hd Hn Ho. destruct (stream_digest c0 [(d, n)] o) as (c1 & E & Hc1); [done | | done |].
  { apply Forall_singleton. done. }
  exists c1. split; [|done]. unfold update_all, message in E. cbn [foldl map concat fst snd] in E.
  by rewrite app_nil_r in E.
Qed.

Lemma hash2 c0 pad d n o : ctx_ok c0 -> zlen pad = 64 -> bytes_ok pad ->
  bytes_ok (ztake n d) -> 0 <= n <= zlen d -> 32 <= zlen o ->
  exists c1, sha256_final (sha256_update (sha256_update (sha256_init (Some c0)) (Some pad)
    SHA256_BLOCK_SIZE) (Some d) n) (Some o) =
  (Some c1, Some (splice o 0 (Fips.hash (pad ++ ztake n d)))) /\ ctx_ok c1.
Proof.
  intros Hc Hp Hpb Hd Hn Ho.
  destruct (stream_digest c0 [(pad, SHA256_BLOCK_SIZE); (d, n)] o) as (c1 & E & Hc1); [done | | done |].
  { repeat apply Forall_cons_2; [split; [by apply Forall_take|]; simpl; unfold SHA256_BLOCK_SIZE; lia | done | by apply Forall_nil]. }
  exists c1. split; [|done]. unfold update_all, message in E. cbn [foldl map concat fst snd] in E.
  rewrite app_nil_r in E. replace (ztake SHA256_BLOCK_SIZE pad) with pad in E; [done|].
  symmetry. apply ztake_all. unfold SHA256_BLOCK_SIZE. lia.
Qed.

(** The key as the pad loops see it. *)
Lemma shorten_spec key n : bytes_ok key -> 0 <= n <= zlen key ->
  exists c kh k' n', shorten_key (Some zero_ctx) (zrep SHA256_DIGEST_SIZE 0) key n = (Some c, kh, k', n') /\
  ctx_ok c /\ zlen kh = 32 /\ (n <= 64 -> c = zero_ctx /\ kh = zrep 32 0) /\
  map (key_at k' n') (seqZ 0 64) = hmac_key (ztake n key).
Proof.
  intros Hk Hn. destruct (key_ztake key n Hk Hn) as [Hkb Hkl].
  assert (Hext : forall k m, 0 <= m <= 64 -> m <= zlen k ->
    map (key_at k m) (seqZ 0 64) = ztake m k ++ zrep (64 - m) 0).
  { intros k m Hm Hmk. apply (array_ext 0).
    { rewrite zlen_map_seqZ, zlen_app, zlen_take, zlen_rep; lia. }
    intros i Hi. rewrite zlen_map_seqZ in Hi by lia. rewrite aget_map_seqZ by lia. unfold key_at.
    destruct (Z.ltb_spec i m).
    - rewrite aget_app_l, aget_take by (rewrite ?zlen_take; lia). done.
    - rewrite aget_app_r, aget_rep by (rewrite ?zlen_take; lia). done. }
  unfold shorten_key, hmac_key. rewrite Hkl. unfold SHA256_BLOCK_SIZE.
  destruct (Z.ltb_spec 64 n).
  - destruct (hash1 zero_ctx key n (zrep SHA256_DIGEST_SIZE 0)) as (c & E & Hc);
      [apply zero_ctx_ok | done | done | done |].
    rewrite E. cbn [from_option id]. pose proof (zlen_hash _ Hkb) as Hh.
    rewrite splice_all by (rewrite Hh; done).
    eexists c, _, _, _. split; [done|]. split_and!; [done | done | lia |].
    rewrite Hext by (unfold SHA256_DIGEST_SIZE; lia). unfold SHA256_DIGEST_SIZE. rewrite Hh. f_equal.
    apply ztake_all. lia.
  - eexists _, _, _, _. split; [done|]. split_and!; [apply zero_ctx_ok | done | done |].
    rewrite Hext, Hkl by lia. done.
Qed.

Lemma hmac_key_ok k : bytes_ok k -> bytes_ok (hmac_key k) /\ zlen (hmac_key k) = 64.
Proof.
  intros Hk. unfold hmac_key. cbv zeta. set (k' := if 64 <? zlen k then Fips.hash k else k).
  assert (Hk' : bytes_ok k' /\ zlen k' <= 64).
  { unfold k'. destruct (Z.ltb_spec 64 (zlen k)); [|done].
    split; [apply hash_bytes | rewrite zlen_hash by done; lia]. }
  destruct Hk' as [? ?]. pose proof (zlen_nonneg k'). split.
  - apply Forall_app_2; [done | apply zrep_ok; unfold byte_ok; lia].
  - rewrite zlen_app, zlen_rep; lia.
Qed.

Lemma pad_ok k x : bytes_ok k -> byte_ok x ->
  bytes_ok (map (fun b => Z.lxor b x) (hmac_key k)) /\ zlen (map (fun b => Z.lxor b x) (hmac_key k)) = 64.
Proof.
  intros Hk Hx. destruct (hmac_key_ok k Hk) as [Hb Hl]. split.
  - apply bytes_map; [|done]. intros. by apply byte_lxor.
  - unfold zlen. rewrite length_map. apply Hl.
Qed.

Lemma fill_pad_spec k' n' k x p : map (key_at k' n') (seqZ 0 64) = hmac_key k -> zlen p = 64 ->
  fill_pad k' n' x p = map (fun b => Z.lxor b x) (hmac_key k).
Proof.
  intros E Hp. unfold fill_pad, SHA256_BLOCK_SIZE.
  rewrite (fill_loop_spec (fun i => Z.lxor (key_at k' n' i) x)) by lia.
  rewrite splice_all by (rewrite zlen_map_seqZ; lia). rewrite <- E, map_map. done.
Qed.

(** The two hashes of an HMAC, from contexts in any state. *)
Lemma inner_hash c0 k d n o : ctx_ok c0 -> bytes_ok k -> bytes_ok (ztake n d) -> 0 <= n <= zlen d -> 32 <= zlen o ->
  let ip := map (fun b => Z.lxor b 0x36) (hmac_key k) in
  exists c1, sha256_final (sha256_update (sha256_update (sha256_init (Some c0)) (Some ip)
      SHA256_BLOCK_SIZE) (Some d) n) (Some o) =
    (Some c1, Some (splice o 0 (Fips.hash (ip ++ ztake n d)))) /\ ctx_ok c1.
Proof.
  intros Hc Hk Hd Hn Ho. destruct (pad_ok k 0x36) as [? ?]; [done | unfold byte_ok; lia|].
  by apply hash2.
Qed.

Lemma outer_hash c0 k h o : ctx_ok c0 -> bytes_ok k -> bytes_ok h -> zlen h = 32 -> 32 <= zlen o ->
  let op := map (fun b => Z.lxor b 0x5c) (hmac_key k) in
  exists c1, sha256_final (sha256_update (sha256_update (sha256_init (Some c0)) (Some op)
      SHA256_BLOCK_SIZE) (Some (splice o 0 h)) SHA256_DIGEST_SIZE) (Some (splice o 0 h)) =
    (Some c1, Some (splice o 0 (Fips.hash (op ++ h)))) /\ ctx_ok c1.
Proof.
  intros Hc Hk Hh Hl Ho. cbv zeta.
  destruct (pad_ok k 0x5c) as [Hop1 Hop2]; [done | unfold byte_ok; lia|].
  set (op := map _ _) in *. clearbody op.
  assert (Ht : ztake SHA256_DIGEST_SIZE (splice o 0 h) = h).
  { pose proof (sub_splice_same o 0 h ltac:(lia) ltac:(lia)) as E. rewrite Hl in E. apply E. }
  assert (Hz : zlen (splice o 0 h) = zlen o) by (apply zlen_splice; lia).
  destruct (hash2 c0 op (splice o 0 h) SHA256_DIGEST_SIZE (splice o 0 h) Hc Hop2 Hop1) as (c1 & E & Hc1).
  { by rewrite Ht. } { rewrite Hz. unfold SHA256_DIGEST_SIZE. lia. } { lia. }
  exists c1. split; [|done]. rewrite E, Ht. do 2 f_equal.
  assert (Hob : bytes_ok (op ++ h)) by (by apply Forall_app_2). pose proof (zlen_hash _ Hob) as Hhl.
  apply (array_ext 0); [rewrite !zlen_splice; lia|].
  intros i Hi. rewrite !zlen_splice in Hi by lia. rewrite !aget_splice by lia. rewrite Hhl, Hl. by destr_if.
Qed.

Definition frame_clean (f : hmac_frame) : Prop :=
  f = mkFrame (Some zero_ctx) (Some zero_ctx) (zrep 64 0) (zrep 64 0) (zrep 32 0).

Lemma hmac_internal_spec key kn d n o : bytes_ok key -> 0 <= kn <= zlen key ->
  bytes_ok (ztake n d) -> 0 <= n <= zlen d -> 32 <= zlen o ->
  exists f, crypt_hmac_sha256_internal key kn (Some d) n (Some o) =
    (Some (splice o 0 (HMAC (ztake kn key) (ztake n d))), f) /\ frame_clean f.
Proof.
  intros Hk Hkn Hd Hn Ho. unfold crypt_hmac_sha256_internal.
  destruct (shorten_spec key kn Hk Hkn) as (c & kh & k' & n' & -> & Hc & Hkh & Hsmall & Hpad).
  destruct (key_ztake key kn Hk Hkn) as [Hkb _]. set (k := ztake kn key) in *.
  destruct (pad_ok k 0x36) as [Hi1 Hi2]; [done | unfold byte_ok; lia|].
  destruct (pad_ok k 0x5c) as [Ho1 Ho2]; [done | unfold byte_ok; lia|].
  rewrite (for_range_pair 0 SHA256_BLOCK_SIZE (fun i p => aset p i (Z.lxor (key_at k' n' i) 0x36))
    (fun i p => aset p i (Z.lxor (key_at k' n' i) 0x5c))).
  fold (fill_pad k' n' 0x36 (zrep SHA256_BLOCK_SIZE 0)) (fill_pad k' n' 0x5c (zrep SHA256_BLOCK_SIZE 0)).
  rewrite !(fill_pad_spec k' n' k) by done.
  destruct (inner_hash zero_ctx k d n o zero_ctx_ok) as (c1 & -> & Hc1); [done..|].
  destruct (outer_hash c1 k (Fips.hash (map (fun b => Z.lxor b 0x36) (hmac_key k) ++ ztake n d)) o)
    as (c2 & -> & Hc2); [done | done | apply hash_bytes | | done |].
  { apply zlen_hash. apply Forall_app_2; [done | done]. }
  eexists. split; [done|]. unfold frame_clean.
  rewrite !secure_clear_all by done. simpl. f_equal. unfold SHA256_BLOCK_SIZE.
  destruct (Z.ltb_spec 64 kn); [done|]. by destruct Hsmall as [-> _].
Qed.

Lemma hmac_public_spec key kn d n o : bytes_ok key -> 0 <= kn <= zlen key ->
  bytes_ok (ztake n d) -> 0 <= n <= zlen d -> 32 <= zlen o ->
  crypt_hmac_sha256 key kn (Some d) n (Some o) =
    (Some (splice o 0 (HMAC (ztake kn key) (ztake n d))), (Some zero_ctx, zrep 64 0, zrep 32 0)).
Proof.
  intros Hk Hkn Hd Hn Ho. unfold crypt_hmac_sha256.
  destruct (shorten_spec key kn Hk Hkn) as (c & kh & k' & n' & -> & Hc & Hkh & Hsmall & Hpad).
  destruct (key_ztake key kn Hk Hkn) as [Hkb _]. set (k := ztake kn key) in *.
  destruct (pad_ok k 0x36) as [Hi1 Hi2]; [done | unfold byte_ok; lia|].
  destruct (pad_ok k 0x5c) as [Ho1 Ho2]; [done | unfold byte_ok; lia|].
  rewrite !(fill_pad_spec k' n' k) by done.
  destruct (inner_hash c k d n o Hc) as (c1 & -> & Hc1); [done..|].
  destruct (outer_hash c1 k (Fips.hash (map (fun b => Z.lxor b 0x36) (hmac_key k) ++ ztake n d)) o)
    as (c2 & -> & Hc2); [done | done | apply hash_bytes | | done |].
  { apply zlen_hash. apply Forall_app_2; [done | done]. }
  by rewrite !secure_clear_all by done.
Qed.

Lemma HMAC_ok k m : bytes_ok k -> bytes_ok m -> zlen (HMAC k m) = 32 /\ bytes_ok (HMAC k m).
Proof.
  intros Hk Hm. split; [|apply hash_bytes]. apply zlen_hash, Forall_app_2; [|apply hash_bytes].
  apply pad_ok; [done | unfold byte_ok; lia].
Qed.

(** ** Comparison *)
Lemma compare_spec a b n : bytes_ok a -> bytes_ok b -> 0 <= n -> n <= zlen a -> n <= zlen b ->
  crypt_constant_time_compare a b n = if bool_decide (ztake n a = ztake n b) then 0 else -1.
Proof.
  intros Ha Hb Hn Hna Hnb. unfold crypt_constant_time_compare.
  assert (H : for_range 0 n (fun i diff => Z.lor diff (Z.lxor a.[i] b.[i])) 0 = 0 <->
    forall i, 0 <= i < n -> a.[i] = b.[i]).
  { refine (for_range_ind (fun m diff => diff = 0 <-> forall i, 0 <= i < m -> a.[i] = b.[i]) 0 n _ 0
      ltac:(lia) _ _); [split; [lia | done]|].
    intros i diff Hi IH. rewrite Z.lor_eq_0_iff, IH, Z.lxor_eq_0_iff. split.
    - intros [H1 H2] j Hj. destruct (Z.eq_dec j i) as [->|]; [done | apply H1; lia].
    - intros H. split; [intros j Hj; apply H; lia | apply H; lia]. }
  destruct (Z.eqb_spec (for_range 0 n (fun i diff => Z.lor diff (Z.lxor a.[i] b.[i])) 0) 0) as [E|E].
  - rewrite bool_decide_eq_true_2; [done|]. apply (array_ext 0); [rewrite !zlen_take; lia|].
    intros i Hi. rewrite zlen_take in Hi by lia. rewrite !aget_take by lia. apply H; [done | lia].
  - rewrite bool_decide_eq_false_2; [done|]. intros Heq. apply E, H. intros i Hi.
    rewrite <- (aget_take 0 a n), <- (aget_take 0 b n), Heq by lia. done.
Qed.

(** ** PBKDF2 *)
Lemma xor_len x y : zlen x = zlen y -> zlen (xor_bytes x y) = zlen x.
Proof. unfold zlen, xor_bytes. rewrite length_zip_with. lia. Qed.

Lemma xor_assoc x y z : xor_bytes (xor_bytes x y) z = xor_bytes x (xor_bytes y z).
Proof.
  revert y z. induction x as [|a x IH]; intros [|b y] [|c z]; try done. simpl.
  f_equal; [apply Z.lxor_assoc | apply IH].
Qed.

Lemma xor_zero n x : zlen x = n -> xor_bytes (zrep n 0) x = x.
Proof.
  intros <-. unfold zrep, zlen. rewrite Nat2Z.id. induction x as [|a x IH]; [done|]. simpl.
  by rewrite IH.
Qed.

Lemma aget_xor x y i : zlen x = zlen y -> 0 <= i < zlen x -> (xor_bytes x y).[i] = Z.lxor x.[i] y.[i].
Proof.
  intros Hl Hi. unfold aget, xor_bytes. rewrite lookup_zip_with. unfold zlen in *.
  destruct (lookup_lt_is_Some_2 x (Z.to_nat i)) as [a ->]; [lia|].
  destruct (lookup_lt_is_Some_2 y (Z.to_nat i)) as [b ->]; [lia|]. done.
Qed.

Lemma xor_into_spec t u : zlen t = 32 -> zlen u = 32 -> xor_into t u = xor_bytes t u.
Proof.
  intros Ht Hu. unfold xor_into, SHA256_DIGEST_SIZE.
  pose proof (for_range_ind (fun j t' => zlen t' = 32 /\ forall i, 0 <= i < 32 ->
    t'.[i] = if i <? j then Z.lxor t.[i] u.[i] else t.[i]) 0 32
    (fun j t => aset t j (Z.lxor t.[j] u.[j])) t) as H.
  destruct H as [Hl Hg]; [lia | | |].
  - split; [done|]. intros i Hi. by replace (i <? 0) with false by lia.
  - intros j t' Hj [Hl Hg]. split; [by rewrite zlen_aset|]. intros i Hi.
    rewrite aget_aset by lia. destruct (Z.eqb_spec i j) as [->|].
    + rewrite Hg by lia. replace (j <? j) with false by lia. by replace (j <? j + 1) with true by lia.
    + rewrite Hg by lia. by replace (i <? j + 1) with (i <? j) by lia.
  - apply (array_ext 0); [rewrite xor_len; lia|]. intros i Hi. rewrite Hg, aget_xor by lia.
    by replace (i <? 32) with true by lia.
Qed.

Section pbkdf2.
Context (p : list Z) (pn : Z) (Hp : bytes_ok p) (Hpn : 0 <= pn <= zlen p).
Local Abbreviation P := (ztake pn p).

Lemma hmac_u_spec d n u : bytes_ok (ztake n d) -> 0 <= n <= zlen d -> zlen u = 32 ->
  hmac_u p pn d n u = HMAC P (ztake n d).
Proof.
  intros Hd Hn Hu. unfold hmac_u.
  destruct (hmac_internal_spec p pn d n u) as (f & -> & _); [done.. | lia |]. cbn [fst from_option id].
  apply splice_all. rewrite Hu. apply HMAC_ok; [by apply Forall_take | done].
Qed.

Lemma F_ok n u : bytes_ok u -> zlen u = 32 -> zlen (F P n u) = 32.
Proof.
  revert u. induction n as [|n IH]; intros u Hb Hl; [done|]. simpl.
  destruct (HMAC_ok P u) as [? ?]; [by apply Forall_take | done|].
  rewrite xor_len; [done|]. rewrite IH; done.
Qed.

Definition iter_step (ut : list Z * list Z) : list Z * list Z :=
  let u := hmac_u p pn ut.1 SHA256_DIGEST_SIZE ut.1 in (u, xor_into ut.2 u).

Lemma iter_step_spec u x : bytes_ok u -> zlen u = 32 -> zlen x = 32 ->
  iter_step (u, xor_bytes x u) = (HMAC P u, xor_bytes (xor_bytes x u) (HMAC P u)).
Proof.
  intros Hb Hl Hx. unfold iter_step. cbn [fst snd].
  assert (E : ztake SHA256_DIGEST_SIZE u = u) by (apply ztake_all; rewrite Hl; reflexivity).
  assert (H : hmac_u p pn u SHA256_DIGEST_SIZE u = HMAC P u).
  { rewrite <- E at 3. apply hmac_u_spec; [by rewrite E | rewrite Hl; done | done]. }
  rewrite H. f_equal. apply xor_into_spec; [rewrite xor_len; lia|].
  apply HMAC_ok; [by apply Forall_take | done].
Qed.

Lemma F_S k n u : F k (S n) u = xor_bytes u (F k n (HMAC k u)).
Proof. reflexivity. Qed.

Lemma iterate_n n i u x : bytes_ok u -> zlen u = 32 -> zlen x = 32 ->
  let r := for_n n i (fun _ => iter_step) (u, xor_bytes x u) in
  zlen r.1 = 32 /\ r.2 = xor_bytes x (F P n u).
Proof.
  revert i u x. induction n as [|n IH]; intros i u x Hb Hl Hx; [split; [exact Hl | reflexivity]|].
  destruct (HMAC_ok P u) as [Hl' Hb']; [by apply Forall_take | exact Hb|].
  assert (E : for_n (S n) i (fun _ => iter_step) (u, xor_bytes x u) =
    for_n n (i + 1) (fun _ => iter_step) (HMAC P u, xor_bytes (xor_bytes x u) (HMAC P u))).
  { rewrite for_n_S. f_equal. by apply iter_step_spec. }
  cbv zeta. rewrite E, F_S, <- (xor_assoc x u).
  apply IH; [exact Hb' | exact Hl' | rewrite xor_len; lia].
Qed.

Lemma iterate_spec c u x : 1 <= c -> bytes_ok u -> zlen u = 32 -> zlen x = 32 ->
  let r := iterate_block p pn c u (xor_bytes x u) in
  zlen r.1 = 32 /\ r.2 = xor_bytes x (F P (Z.to_nat (c - 1)) u).
Proof. intros Hc Hb Hl Hx. apply (iterate_n _ 1 u x Hb Hl Hx). Qed.

Lemma salt_block_spec s sn i sb : zlen sb = 64 -> 0 <= sn <= 60 -> sn <= zlen s ->
  zlen (fill_salt_block s sn i sb) = 64 /\
  ztake (sn + 4) (fill_salt_block s sn i sb) = ztake sn s ++ Fips.be_bytes 4 i.
Proof.
  intros Hl Hn Hs. unfold fill_salt_block. rewrite !zlen_aset, memcpy_spec by lia.
  assert (Hz : zlen (sub_bytes s 0 sn) = sn) by (apply zlen_sub; lia).
  split; [rewrite zlen_splice; lia|].
  rewrite <- be_bytes4.
  rewrite <- (splice_nil (aset _ (sn + 3) _) (sn + 3 + 1)) by lia.
  rewrite (splice_aset _ (sn + 3)) by (rewrite ?zlen_aset, ?zlen_splice, ?zlen_cons; change (@zlen Z []) with 0; lia).
  replace (sn + 3) with (sn + 2 + 1) by lia.
  rewrite (splice_aset _ (sn + 2)) by (rewrite ?zlen_aset, ?zlen_splice, ?zlen_cons; change (@zlen Z []) with 0; lia).
  replace (sn + 2) with (sn + 1 + 1) by lia.
  rewrite (splice_aset _ (sn + 1)) by (rewrite ?zlen_aset, ?zlen_splice, ?zlen_cons; change (@zlen Z []) with 0; lia).
  rewrite Z.add_0_r.
  rewrite (splice_aset _ sn) by (rewrite ?zlen_aset, ?zlen_splice, ?zlen_cons; change (@zlen Z []) with 0; lia).
  set (l4 := [_; _; _; _]). assert (Hl4 : zlen l4 = 4) by done. clearbody l4.
  pose proof (splice_app sb (sub_bytes s 0 sn) l4 0 ltac:(lia) ltac:(lia)) as E. rewrite Hz, Z.add_0_l in E.
  rewrite E. pose proof (sub_splice_same sb 0 (sub_bytes s 0 sn ++ l4)) as E2.
  rewrite zlen_app, Hz, Hl4 in E2. apply E2; lia.
Qed.

Context (s : list Z) (sn c : Z) (Hs : bytes_ok s) (Hsn : 0 <= sn <= zlen s) (Hsn64 : sn < 2 ^ 63)
  (Hc : 1 <= c).
Local Abbreviation S60 := (ztake (Z.min sn 60) s).

Lemma pbkdf2_T_len i : zlen (pbkdf2_T P S60 c i) = 32.
Proof.
  assert (bytes_ok P) by (by apply Forall_take).
  assert (bytes_ok (S60 ++ Fips.be_bytes 4 i)) by (apply Forall_app_2; [by apply Forall_take | apply be_bytes_ok]).
  destruct (HMAC_ok P (S60 ++ Fips.be_bytes 4 i)) as [? ?]; [done..|]. by apply F_ok.
Qed.

Lemma block_spec n i out u t sb : zlen u = 32 -> zlen t = 32 -> zlen sb = 64 -> 1 <= i ->
  (i - 1) * 32 < n < 2 ^ 32 -> n <= zlen out ->
  exists u' t' sb', pbkdf2_block p pn s sn c n i (out, mkPb u t sb) =
    (splice out ((i - 1) * 32) (ztake (n - (i - 1) * 32) (pbkdf2_T P S60 c i)), mkPb u' t' sb') /\
    zlen u' = 32 /\ zlen t' = 32 /\ zlen sb' = 64.
Proof.
  intros Hu Ht Hsb Hi Hn Ho. unfold pbkdf2_block, SHA256_BLOCK_SIZE.
  rewrite u64_small by lia.
  replace (if 64 <? sn + 4 then 64 - 4 else sn) with (Z.min sn 60) by (destruct (Z.ltb_spec 64 (sn + 4)); lia).
  destruct (salt_block_spec s (Z.min sn 60) i sb) as [Hb1 Hb2]; [done | lia | lia |].
  set (sb1 := fill_salt_block _ _ _ _) in *. clearbody sb1.
  assert (bytes_ok P) by (by apply Forall_take).
  assert (Hbs : bytes_ok (S60 ++ Fips.be_bytes 4 i)) by (apply Forall_app_2; [by apply Forall_take | apply be_bytes_ok]).
  destruct (HMAC_ok P (S60 ++ Fips.be_bytes 4 i)) as [Hh1 Hh2]; [done..|].
  rewrite hmac_u_spec, Hb2 by (rewrite ?Hb2; done || lia).
  set (u1 := HMAC P (S60 ++ Fips.be_bytes 4 i)) in *.
  assert (Hcp : memcpy_loop t 0 u1 0 SHA256_DIGEST_SIZE = xor_bytes (zrep 32 0) u1).
  { unfold SHA256_DIGEST_SIZE. rewrite memcpy_spec, xor_zero by lia.
    rewrite <- Hh1 at 1. rewrite sub_bytes_all. apply splice_all. lia. }
  rewrite Hcp. destruct (iterate_spec c u1 (zrep 32 0)) as [E1 E2]; [done..|].
  destruct (iterate_block _ _ _ _ _) as [u2 t2]. cbn [fst snd] in E1, E2.
  pose proof (pbkdf2_T_len i) as HT. assert (E3 : t2 = pbkdf2_T P S60 c i).
  { rewrite E2. apply xor_zero. exact HT. }
  rewrite E3. clear E2 E3 t2. unfold SHA256_DIGEST_SIZE. rewrite u32_small by lia.
  exists u2, (pbkdf2_T P S60 c i), sb1. split_and!; try done. f_equal.
  set (off := (i - 1) * 32) in *.
  replace (if n <? off + 32 then u64 (n - off) else 32) with (Z.min (n - off) 32).
  2: { destruct (Z.ltb_spec n (off + 32)); [rewrite u64_small; lia | lia]. }
  rewrite memcpy_spec by lia. f_equal. generalize dependent (pbkdf2_T P S60 c i). intros T HT.
  unfold sub_bytes. change (zdrop 0 ?l) with l.
  destruct (Z.le_gt_cases (n - off) 32); [by rewrite Z.min_l by lia|].
  rewrite Z.min_r by lia. by rewrite !ztake_all by lia.
Qed.

Lemma T_concat_len m : 0 <= m -> zlen (concat (map (pbkdf2_T P S60 c) (seqZ 1 m))) = 32 * m.
Proof.
  intros Hm. rewrite (zlen_concat _ 32); [by rewrite zlen_map_seqZ by lia|].
  apply Forall_fmap, Forall_forall. intros i _. apply pbkdf2_T_len.
Qed.

Lemma blocks_loop n out : 1 <= n < 2 ^ 32 -> n <= zlen out ->
  let m := (n + 31) / 32 in
  exists u t sb, for_range 1 (m + 1) (pbkdf2_block p pn s sn c n)
      (out, mkPb (zrep 32 0) (zrep 32 0) (zrep 64 0)) =
    (splice out 0 (PBKDF2 P S60 c n), mkPb u t sb) /\ zlen u = 32 /\ zlen t = 32 /\ zlen sb = 64.
Proof.
  intros Hn Ho m. assert (Hm : 32 * m < n + 32 /\ n <= 32 * m /\ 1 <= m).
  { unfold m. pose proof (Z.div_mod (n + 31) 32 ltac:(lia)). pose proof (Z.mod_pos_bound (n + 31) 32). lia. }
  set (X := fun i => ztake n (concat (map (pbkdf2_T P S60 c) (seqZ 1 (i - 1))))).
  assert (EX : PBKDF2 P S60 c n = X (m + 1)).
  { unfold PBKDF2, X. by replace (m + 1 - 1) with m by lia. }
  rewrite EX. refine (for_range_ind (fun i st => exists u t sb, st = (splice out 0 (X i), mkPb u t sb) /\
    zlen u = 32 /\ zlen t = 32 /\ zlen sb = 64) 1 (m + 1) (pbkdf2_block p pn s sn c n) _ _ _ _); [lia | |].
  { exists (zrep 32 0), (zrep 32 0), (zrep 64 0). split_and!; try done. f_equal.
    assert (X 1 = []) as -> by (unfold X; simpl; apply take_nil). by rewrite splice_nil by lia. }
  intros i st Hi (u & t & sb & -> & Hu & Ht & Hsb).
  assert (HX : forall k, 1 <= k -> zlen (X k) = Z.min n (32 * (k - 1))).
  { intros k Hk. unfold X. rewrite zlen_take, T_concat_len by lia. done. }
  destruct (block_spec n i (splice out 0 (X i)) u t sb) as (u' & t' & sb' & -> & ?); try done; [lia | lia | |].
  { rewrite zlen_splice; rewrite ?HX; lia. }
  exists u', t', sb'. split; [|done]. f_equal.
  pose proof (pbkdf2_T_len i) as HT. pose proof (HX i ltac:(lia)) as HXi. rewrite Z.min_r in HXi by lia.
  replace ((i - 1) * 32) with (0 + zlen (X i)) by lia. rewrite HXi at 2.
  rewrite splice_app; [|lia|].
  2: { rewrite zlen_take; lia. }
  f_equal. unfold X. replace (i + 1 - 1) with (i - 1 + 1) by lia. rewrite seqZ_snoc by lia.
  rewrite map_app, concat_app. cbn [map concat]. rewrite app_nil_r. replace (1 + (i - 1)) with i by lia.
  pose proof (T_concat_len (i - 1)) as Hcl. generalize dependent (pbkdf2_T P S60 c i).
  generalize dependent (concat (map (pbkdf2_T P S60 c) (seqZ 1 (i - 1)))). intros Y HY T HT.
  unfold ztake. rewrite take_app. unfold zlen in *. rewrite take_ge by lia. f_equal. f_equal. lia.
Qed.

Lemma pbkdf2_spec n out : 1 <= n < 2 ^ 32 -> n <= zlen out ->
  pbkdf2_hmac_sha256 p pn s sn c out n =
  (splice out 0 (PBKDF2 P S60 c n), mkPb (zrep 32 0) (zrep 32 0) (zrep 64 0)).
Proof.
  intros Hn Ho. unfold pbkdf2_hmac_sha256, SHA256_DIGEST_SIZE, SHA256_BLOCK_SIZE.
  replace (n + 32 - 1) with (n + 31) by lia. rewrite (u64_small (n + 31)) by lia.
  assert (0 <= (n + 31) / 32 < 2 ^ 32).
  { split; [apply Z.div_pos; lia | apply Z.div_lt_upper_bound; lia]. }
  rewrite u32_small by done.
  destruct (blocks_loop n out Hn Ho) as (u & t & sb & -> & Hu & Ht & Hsb).
  by rewrite !secure_clear_all.
Qed.
End pbkdf2.

(** ** HKDF *)
Definition hk_absorbed (h : hkdf_hmac_ctx) (k m : list Z) : Prop :=
  exists c, inner h = Some c /\
    absorbed c (map (fun b => Z.lxor b 0x36) (hmac_key k) ++ m) /\
    kopad h = map (fun b => Z.lxor b 0x5c) (hmac_key k).

Lemma hk_begin key kn : bytes_ok key -> 0 <= kn <= zlen key ->
  hk_absorbed (hkdf_hmac_begin key kn) (ztake kn key) [].
Proof.
  intros Hk Hkn. unfold hkdf_hmac_begin.
  destruct (shorten_spec key kn Hk Hkn) as (c & kh & k' & n' & -> & Hc & Hkh & Hsmall & Hpad).
  destruct (key_ztake key kn Hk Hkn) as [Hkb _]. set (k := ztake kn key) in *.
  destruct (pad_ok k 0x36) as [Hi1 Hi2]; [done | unfold byte_ok; lia|].
  rewrite (for_range_pair 0 SHA256_BLOCK_SIZE (fun i p => aset p i (Z.lxor (key_at k' n' i) 0x36))
    (fun i p => aset p i (Z.lxor (key_at k' n' i) 0x5c))).
  fold (fill_pad k' n' 0x36 (zrep SHA256_BLOCK_SIZE 0)) (fill_pad k' n' 0x5c (zrep SHA256_BLOCK_SIZE 0)).
  rewrite !(fill_pad_spec k' n' k) by done.
  destruct (init_absorbed zero_ctx) as (c0 & -> & Hc0); [apply zero_ctx_ok..|].
  set (ip := map _ (hmac_key k)) in *. set (op := map _ (hmac_key k)).
  assert (E : ztake SHA256_BLOCK_SIZE ip = ip) by (apply ztake_all; rewrite Hi2; reflexivity).
  destruct (update_absorbed c0 [] ip SHA256_BLOCK_SIZE Hc0) as (c1 & -> & Hc1);
    [by rewrite E | rewrite Hi2; done |].
  exists c1. rewrite E in Hc1. split_and!; [done | by rewrite app_nil_r | done].
Qed.

Lemma hk_update h k m d n : hk_absorbed h k m -> bytes_ok (ztake n d) -> 0 <= n <= zlen d ->
  hk_absorbed (hkdf_hmac_update h (Some d) n) k (m ++ ztake n d).
Proof.
  intros (c & Hi & Ha & Hko) Hd Hn. unfold hkdf_hmac_update.
  destruct (Z.eqb_spec n 0) as [->|].
  - exists c. change (ztake 0 d) with (@nil Z). rewrite app_nil_r. done.
  - destruct (update_absorbed c _ d n Ha Hd Hn) as (c' & E & Hc'). exists c'. cbn [inner kopad].
    rewrite Hi. split_and!; [done | by rewrite app_assoc | done].
Qed.

Lemma hk_end h k m o : hk_absorbed h k m -> bytes_ok k -> bytes_ok m -> zlen o = 32 ->
  hkdf_hmac_end h (Some o) = (Some (HMAC k m), mkHk (Some zero_ctx) (zrep 64 0)).
Proof.
  intros (c & Hi & Ha & Hko) Hk Hm Ho. unfold hkdf_hmac_end. rewrite Hi, Hko.
  destruct (final_absorbed c _ o Ha) as (c1 & -> & _); [lia|].
  destruct (pad_ok k 0x36) as [Hi1 Hi2]; [done | unfold byte_ok; lia|].
  destruct (pad_ok k 0x5c) as [Ho1 Ho2]; [done | unfold byte_ok; lia|].
  set (ip := map _ (hmac_key k)) in *.
  assert (Hl : zlen (Fips.hash (ip ++ m)) = 32) by (apply zlen_hash; by apply Forall_app_2).
  destruct (outer_hash zero_ctx k (Fips.hash (ip ++ m)) o zero_ctx_ok Hk (hash_bytes _) Hl)
    as (c2 & -> & _); [lia|].
  rewrite secure_clear_all by done. f_equal. f_equal. apply splice_all.
  rewrite Ho. apply zlen_hash. apply Forall_app_2; [done | apply hash_bytes].
Qed.

Section expand.
Context (prk : list Z) (kn : Z) (Hk : bytes_ok prk) (Hkn : 0 <= kn <= zlen prk)
  (info : option (list Z)) (info_len : Z)
  (Hinfo : match info with Some d => bytes_ok (ztake info_len d) /\ 0 <= info_len <= zlen d | None => True end).

Definition info_bytes : list Z := match info with Some d => ztake info_len d | None => [] end.

Lemma info_bytes_ok : bytes_ok info_bytes.
Proof. unfold info_bytes. destruct info; [by destruct Hinfo | by apply Forall_nil]. Qed.

(** One round of the loop computes [T(counter)]. *)
Lemma expand_round t_prev tl counter : zlen t_prev = 32 -> bytes_ok t_prev -> tl = 0 \/ tl = 32 ->
  1 <= counter <= 255 ->
  let hctx := hkdf_hmac_begin prk kn in
  let hctx := if 0 <? tl then hkdf_hmac_update hctx (Some t_prev) tl else hctx in
  let hctx := match info with
              | Some _ => if 0 <? info_len then hkdf_hmac_update hctx info info_len else hctx
              | None => hctx
              end in
  let hctx := hkdf_hmac_update hctx (Some [u8 counter]) 1 in
  hkdf_hmac_end hctx (Some t_prev) =
  (Some (HMAC (ztake kn prk) (ztake tl t_prev ++ info_bytes ++ [counter])), mkHk (Some zero_ctx) (zrep 64 0)).
Proof.
  intros Hl Hb Htl Hc. cbv zeta. rewrite u8_small by lia.
  set (h1 := if 0 <? tl then _ else _).
  assert (H1 : hk_absorbed h1 (ztake kn prk) (ztake tl t_prev)).
  { unfold h1. pose proof (hk_begin prk kn Hk Hkn) as H0. destruct Htl as [-> | ->]; simpl.
    - apply H0.
    - apply (hk_update _ _ [] t_prev 32 H0); [by apply Forall_take | lia]. }
  clearbody h1.
  set (h2 := match info with Some _ => _ | None => _ end).
  assert (H2 : hk_absorbed h2 (ztake kn prk) (ztake tl t_prev ++ info_bytes)).
  { unfold h2, info_bytes. destruct info as [d|]; [|by rewrite app_nil_r]. destruct Hinfo as [Hd Hn].
    destruct (Z.ltb_spec 0 info_len); [by apply hk_update|].
    replace info_len with 0 by lia. change (ztake 0 d) with (@nil Z). by rewrite app_nil_r. }
  clearbody h2. assert (Hcb : bytes_ok [counter]) by (apply Forall_singleton; unfold byte_ok; lia).
  pose proof (hk_update _ _ _ [counter] 1 H2 Hcb ltac:(done)) as H3.
  change (ztake 1 [counter]) with [counter] in H3. rewrite <- app_assoc in H3.
  apply (hk_end _ _ _ _ H3); [by apply Forall_take | | done].
  apply Forall_app_2; [by apply Forall_take|]. apply Forall_app_2; [apply info_bytes_ok | done].
Qed.

Lemma expand_loop_spec out_len n fuel t_prev tl produced counter out : (n < fuel)%nat ->
  0 <= produced <= out_len -> out_len <= zlen out ->
  out_len - produced <= 32 * Z.of_nat n < out_len - produced + 32 ->
  1 <= counter -> counter + Z.of_nat n <= 256 ->
  zlen t_prev = 32 -> bytes_ok t_prev -> tl = 0 \/ tl = 32 ->
  expand_loop fuel prk kn info info_len out_len t_prev tl produced counter out =
  Some (0, splice out produced (ztake (out_len - produced)
      (okm (ztake kn prk) info_bytes n counter (ztake tl t_prev))), zrep 32 0).
Proof.
  revert fuel t_prev tl produced counter out.
  induction n as [|n IH]; intros [|fuel] t_prev tl produced counter out Hf Hp Ho Hn Hc Hc' Hl Hb Htl; try lia.
  - cbn [expand_loop okm]. replace (produced <? out_len) with false by lia. cbn [negb].
    rewrite secure_clear_all by done. unfold ztake. rewrite take_nil, splice_nil by lia. done.
  - cbn [expand_loop]. replace (produced <? out_len) with true by lia. cbn [negb].
    replace (255 <? counter) with false by lia.
    pose proof (expand_round t_prev tl counter Hl Hb Htl ltac:(lia)) as Er. cbv zeta in Er. rewrite Er.
    cbn [fst from_option id]. clear Er. cbn [okm]. cbv zeta.
    set (K := ztake kn prk). assert (HK : bytes_ok K) by (by apply Forall_take).
    assert (Hm : bytes_ok (ztake tl t_prev ++ info_bytes ++ [counter])).
    { apply Forall_app_2; [by apply Forall_take|]. apply Forall_app_2; [apply info_bytes_ok|].
      apply Forall_singleton. unfold byte_ok. lia. }
    destruct (HMAC_ok K _ HK Hm) as [HTl HTb]. set (T := HMAC K _) in *. clearbody T.
    unfold SHA256_DIGEST_SIZE.
    replace (if out_len <? produced + 32 then out_len - produced else 32) with (Z.min (out_len - produced) 32)
      by (destruct (Z.ltb_spec out_len (produced + 32)); lia).
    set (ch := Z.min (out_len - produced) 32). assert (Hch : 0 < ch <= 32) by (unfold ch; lia).
    rewrite memcpy_spec by (unfold ch in *; lia). change (sub_bytes T 0 ch) with (ztake ch T).
    assert (Hzt : zlen (ztake ch T) = ch) by (rewrite zlen_take; lia).
    assert (Hlen : zlen (splice out produced (ztake ch T)) = zlen out) by (apply zlen_splice; unfold ch in *; lia).
    rewrite IH; [ | lia | unfold ch in *; lia | lia | unfold ch in *; lia | lia | lia | done | done | by right].
    rewrite (ztake_all T 32) by lia. do 3 f_equal. set (R := okm K info_bytes n (counter + 1) T).
    replace (ztake (out_len - produced) (T ++ R)) with (ztake ch T ++ ztake (out_len - (produced + ch)) R).
    2: { unfold ztake. rewrite take_app. unfold zlen in HTl. f_equal.
         - destruct (Z.le_gt_cases (out_len - produced) 32); unfold ch; [by rewrite Z.min_l by lia|].
           by rewrite Z.min_r, !take_ge by lia.
         - f_equal. unfold ch. lia. }
    rewrite <- Hzt at 2. apply splice_app; [lia|]. rewrite Hzt.
    assert (zlen (ztake (out_len - (produced + ch)) R) <= out_len - (produced + ch))
      by (rewrite zlen_take; unfold ch; lia).
    unfold ch in *. lia.
Qed.
End expand.

(** ** Properties *)

(** C30. Both HMAC routines are RFC 2104 on every key and message: they write into
    the first 32 bytes of [out] the HMAC of the first [key_len] key bytes and the
    first [data_len] data bytes, keys longer than a block being hashed first, they
    agree with each other, and when they return the contexts, the pads and the
    hashed key are all zero. *)
Theorem hmac_sha256_correct key kn d n o : bytes_ok key -> 0 <= kn <= zlen key ->
  bytes_ok (ztake n d) -> 0 <= n <= zlen d -> 32 <= zlen o ->
  (crypt_hmac_sha256_internal key kn (Some d) n (Some o)).1 =
    Some (splice o 0 (HMAC (ztake kn key) (ztake n d))) /\
  frame_clean (crypt_hmac_sha256_internal key kn (Some d) n (Some o)).2 /\
  crypt_hmac_sha256 key kn (Some d) n (Some o) =
    (Some (splice o 0 (HMAC (ztake kn key) (ztake n d))), (Some zero_ctx, zrep 64 0, zrep 32 0)).
Proof.
  intros. destruct (hmac_internal_spec key kn d n o) as (f & -> & Hf); [done..|].
  split_and!; [done | done | by apply hmac_public_spec].
Qed.

(** "Jefe", "what do ya want for nothing?" (RFC 4231, test case 2). *)
Lemma hmac_rfc4231 :
  HMAC [74;101;102;101] [119;104;97;116;32;100;111;32;121;97;32;119;97;110;116;32;102;111;114;32;
                         110;111;116;104;105;110;103;63] =
  [0x5b;0xdc;0xc1;0x46;0xbf;0x60;0x75;0x4e;0x6a;0x04;0x24;0x26;0x08;0x95;0x75;0xc7;
   0x5a;0x00;0x3f;0x08;0x9d;0x27;0x39;0x83;0x9d;0xec;0x58;0xb9;0x64;0xec;0x38;0x43].
Proof. vm_compute. reflexivity. Qed.

Lemma hmac_sha256_correct_witness :
  (crypt_hmac_sha256 [74;101;102;101] 4 (Some [119;104]) 2 (Some (zrep 32 0))).1 =
  Some (splice (zrep 32 0) 0 (HMAC (ztake 4 [74;101;102;101]) (ztake 2 [119;104]))).
Proof.
  refine (f_equal fst (proj2 (proj2 (hmac_sha256_correct [74;101;102;101] 4 [119;104] 2 (zrep 32 0) _ _ _ _ _)))).
  - apply bytes_okb_ok. reflexivity.
  - split; discriminate.
  - apply bytes_okb_ok. reflexivity.
  - split; discriminate.
  - discriminate.
Defined.

Lemma split_keys_spec der k1 k2 : zlen der = 64 -> zlen k1 = 32 -> zlen k2 = 32 ->
  split_keys der k1 k2 = (ztake 32 der, zdrop 32 der).
Proof.
  intros Hd H1 H2. unfold split_keys, CRYPT_KEY_SIZE.
  rewrite (for_range_pair 0 32 (fun i k => aset k i der.[i]) (fun i k => aset k i der.[i + 32])).
  rewrite (fill_loop_spec (fun i => der.[i])), (fill_loop_spec (fun i => der.[i + 32])) by lia.
  rewrite !splice_all by (rewrite zlen_map_seqZ; lia).
  f_equal; apply (array_ext 0); rewrite ?zlen_map_seqZ, ?zlen_take, ?zlen_drop by lia; try lia.
  - intros i Hi. rewrite aget_map_seqZ, aget_take by lia. done.
  - intros i Hi. rewrite aget_map_seqZ, aget_drop by lia. f_equal. lia.
Qed.

Lemma strlen_spec fuel t r n : Forall (fun c => c <> 0) t -> 0 <= n <= zlen t ->
  zlen t - n < Z.of_nat fuel -> strlen fuel (t ++ 0 :: r) n = zlen t.
Proof.
  intros Ht. revert n. induction fuel as [|fuel IH]; intros n Hn Hf; [lia|]. simpl.
  destruct (Z.eqb_spec (t ++ 0 :: r).[n] 0) as [E|E].
  - destruct (Z.eq_dec n (zlen t)) as [->|]; [done|]. rewrite aget_app_l in E by lia.
    unfold aget in E. unfold zlen in *.
    destruct (lookup_lt_is_Some_2 t (Z.to_nat n)) as [x Hx]; [lia|]. rewrite Hx in E. simpl in E.
    by apply (Forall_lookup_1 _ _ _ _ Ht) in Hx.
  - destruct (Z.eq_dec n (zlen t)) as [->|]; [|apply IH; lia].
    rewrite aget_app_r in E by lia. by rewrite Z.sub_diag in E.
Qed.

Lemma c_strlen_spec t r : Forall (fun c => c <> 0) t -> c_strlen (t ++ 0 :: r) = zlen t.
Proof.
  intros Ht. unfold c_strlen. pose proof (zlen_nonneg t). apply strlen_spec; [done | lia |].
  rewrite length_app. simpl. unfold zlen. lia.
Qed.

Lemma pbkdf2_len p s c n : 1 <= n -> zlen (concat (map (pbkdf2_T p s c) (seqZ 1 ((n + 31) / 32)))) = 32 * ((n + 31) / 32) ->
  zlen (PBKDF2 p s c n) = n.
Proof.
  intros Hn Hl. unfold PBKDF2. rewrite zlen_take, Hl by lia.
  pose proof (Z.div_mod (n + 31) 32 ltac:(lia)). pose proof (Z.mod_pos_bound (n + 31) 32). lia.
Qed.

(** PBKDF2-HMAC-SHA256: [crypt_pbkdf2_sha256] writes the RFC 8018 output for
    any number of iterations and any output length below [2 ^ 32], with the salt
    cut to its first 60 bytes; [crypt_derive_xts_keys] takes the password up to
    its terminating zero and returns the two halves of a 64-byte output. *)
Theorem pbkdf2_correct p pn s sn c o n t r k1 k2 : bytes_ok p -> 0 <= pn <= zlen p ->
  bytes_ok s -> 0 <= sn <= zlen s -> sn < 2 ^ 63 -> 1 <= c -> 1 <= n < 2 ^ 32 -> n <= zlen o ->
  Forall (fun c => c <> 0) t -> bytes_ok (t ++ 0 :: r) -> zlen k1 = 32 -> zlen k2 = 32 ->
  let salt := ztake (Z.min sn 60) s in
  crypt_pbkdf2_sha256 (Some p) pn (Some s) sn c (Some o) n =
    Some (splice o 0 (PBKDF2 (ztake pn p) salt c n)) /\
  crypt_derive_xts_keys (Some (t ++ 0 :: r)) (Some s) sn c (Some k1) (Some k2) =
    (Some (ztake 32 (PBKDF2 t salt c 64)), Some (zdrop 32 (PBKDF2 t salt c 64))).
Proof.
  intros Hp Hpn Hs Hsn Hsn' Hc Hn Ho Ht Htr H1 H2 salt. split.
  - unfold crypt_pbkdf2_sha256. replace ((n =? 0) || (c =? 0)) with false by lia.
    by rewrite pbkdf2_spec by (done || lia).
  - unfold crypt_derive_xts_keys. replace (c =? 0) with false by lia. rewrite c_strlen_spec by done.
    pose proof (zlen_nonneg t). pose proof (zlen_nonneg r).
    assert (Hlt : 0 <= zlen t <= zlen (t ++ 0 :: r)) by (rewrite zlen_app, zlen_cons; lia).
    rewrite (pbkdf2_spec (t ++ 0 :: r) (zlen t)) by (done || (unfold CRYPT_KEY_SIZE; done)).
    rewrite (ztake_app_len t) by done. cbn [fst].
    assert (HPl : zlen (PBKDF2 t salt c 64) = 64).
    { apply pbkdf2_len; [lia|]. rewrite <- (ztake_app_len t (0 :: r) (zlen t)) by done.
      apply T_concat_len; try done. }
    change (CRYPT_KEY_SIZE * 2) with 64. fold salt. rewrite splice_all by (rewrite HPl; done).
    by rewrite split_keys_spec.
Qed.

Lemma pbkdf2_correct_witness :
  crypt_pbkdf2_sha256 (Some [112;119]) 2 (Some [1;2;3]) 3 2 (Some (zrep 8 0)) 8 =
  Some (splice (zrep 8 0) 0 (PBKDF2 (ztake 2 [112;119]) (ztake (Z.min 3 60) [1;2;3]) 2 8)).
Proof.
  refine (proj1 (pbkdf2_correct [112;119] 2 [1;2;3] 3 2 (zrep 8 0) 8 [] [] (zrep 32 0) (zrep 32 0)
    _ _ _ _ _ _ _ _ _ _ _ _)); try reflexivity; try (split; discriminate); try discriminate;
    try (apply bytes_okb_ok; reflexivity); try (split; [discriminate | reflexivity]); apply Forall_nil_2.
Defined.

(** What an optional buffer and its length stand for. *)
Definition opt_bytes (b : option (list Z)) (n : Z) : list Z :=
  match b with Some d => ztake n d | None => [] end.

Definition opt_ok (b : option (list Z)) (n : Z) : Prop :=
  match b with Some d => bytes_ok d /\ 0 <= n <= zlen d | None => True end.

Lemma extract_spec salt sn ikm kn prk : opt_ok salt sn -> opt_ok ikm kn -> zlen prk = 32 ->
  crypt_hkdf_sha256_extract salt sn ikm kn (Some prk) =
  (0, Some (HKDF_Extract (opt_bytes salt sn) (opt_bytes ikm kn))).
Proof.
  intros Hs Hi Hp. unfold crypt_hkdf_sha256_extract, HKDF_Extract.
  set (es := match salt with Some _ => _ | None => _ end).
  assert (He : bytes_ok es.1 /\ 0 <= es.2 <= zlen es.1 /\
    ztake es.2 es.1 = if zlen (opt_bytes salt sn) =? 0 then zrep 32 0 else opt_bytes salt sn).
  { assert (Hz : bytes_ok (zrep 32 0)) by (apply zrep_ok; unfold byte_ok; lia).
    unfold es. destruct salt as [d|]; [|done]. destruct Hs as [Hd Hn].
    assert (Hl : zlen (opt_bytes (Some d) sn) = sn) by (unfold opt_bytes; rewrite zlen_take; lia).
    rewrite Hl. destruct (Z.eqb_spec sn 0) as [->|]; done. }
  destruct es as [es en]. cbn [fst snd] in He. destruct He as (He1 & He2 & He3).
  set (ei := match ikm with Some _ => _ | None => _ end).
  assert (Hei : bytes_ok (ztake ei.2 ei.1) /\ 0 <= ei.2 <= zlen ei.1 /\ ztake ei.2 ei.1 = opt_bytes ikm kn).
  { unfold ei. destruct ikm as [d|]; cbn [fst snd opt_bytes].
    - destruct Hi as [Hd Hn]. split; [by apply Forall_take | done].
    - split; [by apply Forall_nil | done]. }
  destruct ei as [ei in_]. cbn [fst snd] in Hei. destruct Hei as (Hi1 & Hi2 & Hi3).
  destruct (hmac_internal_spec es en ei in_ prk) as (f & -> & _); try done; [lia|].
  cbn [fst]. rewrite He3, Hi3. f_equal. f_equal. apply splice_all. rewrite Hp.
  rewrite <- He3, <- Hi3. apply HMAC_ok; [by apply Forall_take | done].
Qed.

(** HKDF-SHA256 always returns, and returns what RFC 5869 defines: 0 and an
    untouched buffer for an empty request, -1 and an untouched buffer above 255
    blocks, and otherwise 0 with the first [out_len] output bytes equal to
    Expand(Extract(salt, ikm), info), an absent salt being 32 zero bytes. *)
Theorem hkdf_correct salt sn ikm kn info fn o l : opt_ok salt sn -> opt_ok ikm kn -> opt_ok info fn ->
  0 <= l <= zlen o ->
  crypt_hkdf_sha256 salt sn ikm kn info fn (Some o) l =
  if l =? 0 then Some (0, Some o)
  else if 255 * 32 <? l then Some (-1, Some o)
  else Some (0, Some (splice o 0 (HKDF_Expand (HKDF_Extract (opt_bytes salt sn) (opt_bytes ikm kn))
                                    (opt_bytes info fn) l))).
Proof.
  intros Hs Hi Hf Hl. unfold crypt_hkdf_sha256.
  rewrite extract_spec by done. cbn [Z.eqb negb]. set (prk := HKDF_Extract _ _).
  assert (Hprk : zlen prk = 32 /\ bytes_ok prk).
  { apply HMAC_ok.
    - destr_if; [apply zrep_ok; unfold byte_ok; lia|]. destruct salt; [apply Forall_take, Hs | by apply Forall_nil].
    - destruct ikm; [apply Forall_take, Hi | by apply Forall_nil]. }
  clearbody prk. destruct Hprk as [Hp1 Hp2]. unfold crypt_hkdf_sha256_expand, SHA256_DIGEST_SIZE.
  destruct (Z.eqb_spec l 0); [done|]. destruct (Z.ltb_spec (255 * 32) l); [done|].
  change (32 <? 32) with false. cbv iota.
  pose proof (Z.div_mod (l + 31) 32 ltac:(lia)). pose proof (Z.mod_pos_bound (l + 31) 32).
  assert (Hz : bytes_ok (zrep 32 0)) by (apply zrep_ok; unfold byte_ok; lia).
  rewrite (expand_loop_spec prk 32 Hp2 ltac:(lia) info fn) with (n := Z.to_nat ((l + 31) / 32)).
  - rewrite Z.sub_0_r, (ztake_all prk 32) by lia. done.
  - destruct info; [|done]. destruct Hf. split; [by apply Forall_take | done].
  - unfold expand_fuel. lia.
  - lia.
  - lia.
  - lia.
  - lia.
  - lia.
  - done.
  - done.
  - by left.
Qed.

Lemma hkdf_correct_witness :
  crypt_hkdf_sha256 (Some [1;2]) 2 None 0 (Some [7]) 1 (Some (zrep 40 0)) 40 =
  Some (0, Some (splice (zrep 40 0) 0 (HKDF_Expand (HKDF_Extract [1;2] []) [7] 40))).
Proof.
  refine (hkdf_correct (Some [1;2]) 2 None 0 (Some [7]) 1 (zrep 40 0) 40 _ _ _ _).
  - split; [apply bytes_okb_ok; reflexivity | split; discriminate].
  - exact I.
  - split; [apply bytes_okb_ok; reflexivity | split; discriminate].
  - split; discriminate.
Defined.

(** The Argon2id key derivation fails closed, whatever the hash does: unless it
    returns 0 both keys are all zero; when it returns 0 the salt has at least 8
    bytes, the costs are at least the minimum, the hash succeeded and the keys are
    the two halves of its output. *)
Theorem argon2id_keys_fail_closed argon2 mem_ok pw s sn tc mc k1 k2 :
  zlen k1 = 32 -> zlen k2 = 32 -> (forall a b c d e f, zlen (argon2 a b c d e f).2 = 64) ->
  let '(rc, k1', k2') :=
    crypt_derive_xts_keys_argon2id argon2 mem_ok pw s sn tc mc (Some k1) (Some k2) in
  (rc = -1 /\ k1' = Some (zrep 32 0) /\ k2' = Some (zrep 32 0)) \/
  (rc = 0 /\ 8 <= sn /\ ARGON2_MIN_T_COST <= tc /\ ARGON2_MIN_M_COST <= mc /\ mem_ok = true /\
   exists p salt der, pw = Some p /\ s = Some salt /\
     argon2 p (c_strlen p) salt sn tc mc = (0, der) /\
     k1' = Some (ztake 32 der) /\ k2' = Some (zdrop 32 der)).
Proof.
  intros H1 H2 Ha. unfold crypt_derive_xts_keys_argon2id. cbn [fmap option_fmap option_map].
  unfold CRYPT_KEY_SIZE. rewrite !secure_clear_all by done.
  destruct pw as [p|]; [|by left]. destruct s as [salt|]; [|by left].
  destruct ((tc <? ARGON2_MIN_T_COST) || (mc <? ARGON2_MIN_M_COST)) eqn:Ec; [by left|].
  destruct (Z.ltb_spec sn 8); [by left|]. destruct mem_ok; [|by left]. cbn [negb].
  pose proof (Ha p (c_strlen p) salt sn tc mc) as Hd.
  destruct (argon2 p (c_strlen p) salt sn tc mc) as [rc der] eqn:E. cbn [snd] in Hd.
  destruct (Z.eqb_spec rc 0) as [->|]; [|by left]. cbn [negb]. rewrite split_keys_spec by done.
  right. bools. split_and!; try done; try lia. by exists p, salt, der.
Qed.

Lemma argon2id_keys_fail_closed_witness :
  let '(rc, k1', k2') :=
    crypt_derive_xts_keys_argon2id (fun _ _ _ _ _ _ => (0, zrep 64 9)) true (Some [120; 0]) (Some (zrep 8 5))
      8 1 8 (Some (zrep 32 1)) (Some (zrep 32 2)) in
  (rc = -1 /\ k1' = Some (zrep 32 0) /\ k2' = Some (zrep 32 0)) \/
  (rc = 0 /\ 8 <= 8 /\ ARGON2_MIN_T_COST <= 1 /\ ARGON2_MIN_M_COST <= 8 /\ true = true /\
   exists p salt der, Some [120; 0] = Some p /\ Some (zrep 8 5) = Some salt /\
     (0, zrep 64 9) = (0, der) /\
     k1' = Some (ztake 32 der) /\ k2' = Some (zdrop 32 der)).
Proof.
  refine (argon2id_keys_fail_closed (fun _ _ _ _ _ _ => (0, zrep 64 9)) true (Some [120; 0])
    (Some (zrep 8 5)) 8 1 8 (zrep 32 1) (zrep 32 2) _ _ _); reflexivity.
Defined.
