(* ===== verification/AesXts.v ===== *)
(** * AES-256-XTS block device encryption

    Models src/security/crypt_aes_xts.c: the AES-256 cipher and its inverse,
    the key expansion, the XTS mode over a 4096-byte block, and the block device
    that encrypts what it writes to a lower device and decrypts what it reads.

    The world of the encrypting device is the scratch buffer of its context and
    the world of the lower device.  The spin flag [operation_busy] is free on
    entry of every sequential call and is not part of the state; klog lines are
    output only; the wipe of a 16-byte cipher local has no effect on the result. *)
From Stdlib Require Import String Btauto.
From S2P Require Import Prelude BlockDevice Storage Sha256 Crypt.
Local Open Scope capy_scope.

Definition AES_BLOCKLEN : Z := 16.
Definition AES_256_KEYLEN : Z := 32.
Definition AES_256_ROUNDKEY_SIZE : Z := 240.
Definition AES_256_NR : Z := 14.
Definition CRYPT_MAX_BLOCK_SIZE : Z := 4096.

Definition sbox : list Z := [
  0x63; 0x7c; 0x77; 0x7b; 0xf2; 0x6b; 0x6f; 0xc5; 0x30; 0x01; 0x67; 0x2b; 0xfe; 0xd7; 0xab; 0x76;
  0xca; 0x82; 0xc9; 0x7d; 0xfa; 0x59; 0x47; 0xf0; 0xad; 0xd4; 0xa2; 0xaf; 0x9c; 0xa4; 0x72; 0xc0;
  0xb7; 0xfd; 0x93; 0x26; 0x36; 0x3f; 0xf7; 0xcc; 0x34; 0xa5; 0xe5; 0xf1; 0x71; 0xd8; 0x31; 0x15;
  0x04; 0xc7; 0x23; 0xc3; 0x18; 0x96; 0x05; 0x9a; 0x07; 0x12; 0x80; 0xe2; 0xeb; 0x27; 0xb2; 0x75;
  0x09; 0x83; 0x2c; 0x1a; 0x1b; 0x6e; 0x5a; 0xa0; 0x52; 0x3b; 0xd6; 0xb3; 0x29; 0xe3; 0x2f; 0x84;
  0x53; 0xd1; 0x00; 0xed; 0x20; 0xfc; 0xb1; 0x5b; 0x6a; 0xcb; 0xbe; 0x39; 0x4a; 0x4c; 0x58; 0xcf;
  0xd0; 0xef; 0xaa; 0xfb; 0x43; 0x4d; 0x33; 0x85; 0x45; 0xf9; 0x02; 0x7f; 0x50; 0x3c; 0x9f; 0xa8;
  0x51; 0xa3; 0x40; 0x8f; 0x92; 0x9d; 0x38; 0xf5; 0xbc; 0xb6; 0xda; 0x21; 0x10; 0xff; 0xf3; 0xd2;
  0xcd; 0x0c; 0x13; 0xec; 0x5f; 0x97; 0x44; 0x17; 0xc4; 0xa7; 0x7e; 0x3d; 0x64; 0x5d; 0x19; 0x73;
  0x60; 0x81; 0x4f; 0xdc; 0x22; 0x2a; 0x90; 0x88; 0x46; 0xee; 0xb8; 0x14; 0xde; 0x5e; 0x0b; 0xdb;
  0xe0; 0x32; 0x3a; 0x0a; 0x49; 0x06; 0x24; 0x5c; 0xc2; 0xd3; 0xac; 0x62; 0x91; 0x95; 0xe4; 0x79;
  0xe7; 0xc8; 0x37; 0x6d; 0x8d; 0xd5; 0x4e; 0xa9; 0x6c; 0x56; 0xf4; 0xea; 0x65; 0x7a; 0xae; 0x08;
  0xba; 0x78; 0x25; 0x2e; 0x1c; 0xa6; 0xb4; 0xc6; 0xe8; 0xdd; 0x74; 0x1f; 0x4b; 0xbd; 0x8b; 0x8a;
  0x70; 0x3e; 0xb5; 0x66; 0x48; 0x03; 0xf6; 0x0e; 0x61; 0x35; 0x57; 0xb9; 0x86; 0xc1; 0x1d; 0x9e;
  0xe1; 0xf8; 0x98; 0x11; 0x69; 0xd9; 0x8e; 0x94; 0x9b; 0x1e; 0x87; 0xe9; 0xce; 0x55; 0x28; 0xdf;
  0x8c; 0xa1; 0x89; 0x0d; 0xbf; 0xe6; 0x42; 0x68; 0x41; 0x99; 0x2d; 0x0f; 0xb0; 0x54; 0xbb; 0x16].

Definition rsbox : list Z := [
  0x52; 0x09; 0x6a; 0xd5; 0x30; 0x36; 0xa5; 0x38; 0xbf; 0x40; 0xa3; 0x9e; 0x81; 0xf3; 0xd7; 0xfb;
  0x7c; 0xe3; 0x39; 0x82; 0x9b; 0x2f; 0xff; 0x87; 0x34; 0x8e; 0x43; 0x44; 0xc4; 0xde; 0xe9; 0xcb;
  0x54; 0x7b; 0x94; 0x32; 0xa6; 0xc2; 0x23; 0x3d; 0xee; 0x4c; 0x95; 0x0b; 0x42; 0xfa; 0xc3; 0x4e;
  0x08; 0x2e; 0xa1; 0x66; 0x28; 0xd9; 0x24; 0xb2; 0x76; 0x5b; 0xa2; 0x49; 0x6d; 0x8b; 0xd1; 0x25;
  0x72; 0xf8; 0xf6; 0x64; 0x86; 0x68; 0x98; 0x16; 0xd4; 0xa4; 0x5c; 0xcc; 0x5d; 0x65; 0xb6; 0x92;
  0x6c; 0x70; 0x48; 0x50; 0xfd; 0xed; 0xb9; 0xda; 0x5e; 0x15; 0x46; 0x57; 0xa7; 0x8d; 0x9d; 0x84;
  0x90; 0xd8; 0xab; 0x00; 0x8c; 0xbc; 0xd3; 0x0a; 0xf7; 0xe4; 0x58; 0x05; 0xb8; 0xb3; 0x45; 0x06;
  0xd0; 0x2c; 0x1e; 0x8f; 0xca; 0x3f; 0x0f; 0x02; 0xc1; 0xaf; 0xbd; 0x03; 0x01; 0x13; 0x8a; 0x6b;
  0x3a; 0x91; 0x11; 0x41; 0x4f; 0x67; 0xdc; 0xea; 0x97; 0xf2; 0xcf; 0xce; 0xf0; 0xb4; 0xe6; 0x73;
  0x96; 0xac; 0x74; 0x22; 0xe7; 0xad; 0x35; 0x85; 0xe2; 0xf9; 0x37; 0xe8; 0x1c; 0x75; 0xdf; 0x6e;
  0x47; 0xf1; 0x1a; 0x71; 0x1d; 0x29; 0xc5; 0x89; 0x6f; 0xb7; 0x62; 0x0e; 0xaa; 0x18; 0xbe; 0x1b;
  0xfc; 0x56; 0x3e; 0x4b; 0xc6; 0xd2; 0x79; 0x20; 0x9a; 0xdb; 0xc0; 0xfe; 0x78; 0xcd; 0x5a; 0xf4;
  0x1f; 0xdd; 0xa8; 0x33; 0x88; 0x07; 0xc7; 0x31; 0xb1; 0x12; 0x10; 0x59; 0x27; 0x80; 0xec; 0x5f;
  0x60; 0x51; 0x7f; 0xa9; 0x19; 0xb5; 0x4a; 0x0d; 0x2d; 0xe5; 0x7a; 0x9f; 0x93; 0xc9; 0x9c; 0xef;
  0xa0; 0xe0; 0x3b; 0x4d; 0xae; 0x2a; 0xf5; 0xb0; 0xc8; 0xeb; 0xbb; 0x3c; 0x83; 0x53; 0x99; 0x61;
  0x17; 0x2b; 0x04; 0x7e; 0xba; 0x77; 0xd6; 0x26; 0xe1; 0x69; 0x14; 0x63; 0x55; 0x21; 0x0c; 0x7d].

Definition Rcon : list Z := [
  0x8d; 0x01; 0x02; 0x04; 0x08; 0x10; 0x20; 0x40; 0x80; 0x1b; 0x36; 0x6c; 0xd8; 0xab; 0x4d; 0x9a;
  0x2f; 0x5e; 0xbc; 0x63; 0xc6; 0x97; 0x35; 0x6a; 0xd4; 0xb3; 0x7d; 0xfa; 0xef; 0xc5; 0x91; 0x39;
  0x72; 0xe4; 0xd3; 0xbd; 0x61; 0xc2; 0x9f; 0x25; 0x4a; 0x94; 0x33; 0x66; 0xcc; 0x83; 0x1d; 0x3a;
  0x74; 0xe8; 0xcb; 0x8d; 0x01; 0x02; 0x04; 0x08; 0x10; 0x20; 0x40; 0x80; 0x1b; 0x36; 0x6c; 0xd8;
  0xab; 0x4d; 0x9a; 0x2f; 0x5e; 0xbc; 0x63; 0xc6; 0x97; 0x35; 0x6a; 0xd4; 0xb3; 0x7d; 0xfa; 0xef;
  0xc5; 0x91; 0x39; 0x72; 0xe4; 0xd3; 0xbd; 0x61; 0xc2; 0x9f; 0x25; 0x4a; 0x94; 0x33; 0x66; 0xcc;
  0x83; 0x1d; 0x3a; 0x74; 0xe8; 0xcb; 0x8d; 0x01; 0x02; 0x04; 0x08; 0x10; 0x20; 0x40; 0x80; 0x1b;
  0x36; 0x6c; 0xd8; 0xab; 0x4d; 0x9a; 0x2f; 0x5e; 0xbc; 0x63; 0xc6; 0x97; 0x35; 0x6a; 0xd4; 0xb3;
  0x7d; 0xfa; 0xef; 0xc5; 0x91; 0x39; 0x72; 0xe4; 0xd3; 0xbd; 0x61; 0xc2; 0x9f; 0x25; 0x4a; 0x94;
  0x33; 0x66; 0xcc; 0x83; 0x1d; 0x3a; 0x74; 0xe8; 0xcb; 0x8d; 0x01; 0x02; 0x04; 0x08; 0x10; 0x20;
  0x40; 0x80; 0x1b; 0x36; 0x6c; 0xd8; 0xab; 0x4d; 0x9a; 0x2f; 0x5e; 0xbc; 0x63; 0xc6; 0x97; 0x35;
  0x6a; 0xd4; 0xb3; 0x7d; 0xfa; 0xef; 0xc5; 0x91; 0x39; 0x72; 0xe4; 0xd3; 0xbd; 0x61; 0xc2; 0x9f;
  0x25; 0x4a; 0x94; 0x33; 0x66; 0xcc; 0x83; 0x1d; 0x3a; 0x74; 0xe8; 0xcb; 0x8d; 0x01; 0x02; 0x04;
  0x08; 0x10; 0x20; 0x40; 0x80; 0x1b; 0x36; 0x6c; 0xd8; 0xab; 0x4d; 0x9a; 0x2f; 0x5e; 0xbc; 0x63;
  0xc6; 0x97; 0x35; 0x6a; 0xd4; 0xb3; 0x7d; 0xfa; 0xef; 0xc5; 0x91; 0x39; 0x72; 0xe4; 0xd3; 0xbd;
  0x61; 0xc2; 0x9f; 0x25; 0x4a; 0x94; 0x33; 0x66; 0xcc; 0x83; 0x1d; 0x3a; 0x74; 0xe8; 0xcb].

Definition xtime (x : Z) : Z := u8 (Z.lxor (Z.shiftl x 1) (Z.shiftr x 7 * 0x1b)).

(** [y] has eight bits, so the loop ends after at most eight rounds. *)
Fixpoint multiply_loop (fuel : nat) (x y result : Z) : Z :=
  match fuel with
  | O => result
  | S fuel =>
      if y =? 0 then result else
      let result := if negb (Z.land y 1 =? 0) then Z.lxor result x else result in
      multiply_loop fuel (xtime x) (Z.shiftr y 1) result
  end.

Definition multiply (x y : Z) : Z := multiply_loop 8 x y 0.

(** One word of the key schedule, with [tempa] as four variables. *)
Definition expand_word (i : Z) (rk : list Z) : list Z :=
  let t0 := rk.[(i - 1) * 4 + 0] in
  let t1 := rk.[(i - 1) * 4 + 1] in
  let t2 := rk.[(i - 1) * 4 + 2] in
  let t3 := rk.[(i - 1) * 4 + 3] in
  let '(t0, t1, t2, t3) :=
    if i `mod` 8 =? 0 then (Z.lxor sbox.[t1] Rcon.[i / 8], sbox.[t2], sbox.[t3], sbox.[t0])
    else if i `mod` 8 =? 4 then (sbox.[t0], sbox.[t1], sbox.[t2], sbox.[t3])
    else (t0, t1, t2, t3) in
  let rk := aset rk (i * 4 + 0) (Z.lxor rk.[(i - 8) * 4 + 0] t0) in
  let rk := aset rk (i * 4 + 1) (Z.lxor rk.[(i - 8) * 4 + 1] t1) in
  let rk := aset rk (i * 4 + 2) (Z.lxor rk.[(i - 8) * 4 + 2] t2) in
  aset rk (i * 4 + 3) (Z.lxor rk.[(i - 8) * 4 + 3] t3).

Definition copy_word (key : list Z) (i : Z) (rk : list Z) : list Z :=
  let rk := aset rk (i * 4 + 0) key.[i * 4 + 0] in
  let rk := aset rk (i * 4 + 1) key.[i * 4 + 1] in
  let rk := aset rk (i * 4 + 2) key.[i * 4 + 2] in
  aset rk (i * 4 + 3) key.[i * 4 + 3].

(** [round_key] starts from the zeroed structure of [crypt_init]. *)
Definition aes_key_expand (round_key key : list Z) : list Z :=
  let rk := for_range 0 8 (copy_word key) round_key in
  for_range 8 (4 * (AES_256_NR + 1)) expand_word rk.

(** [off] is where the round key starts in the schedule. *)
Definition add_round_key (state : list Z) (rk : list Z) (off : Z) : list Z :=
  for_range 0 16 (fun i s => aset s i (Z.lxor s.[i] rk.[off + i])) state.

(** [sub_bytes] and [inv_sub_bytes] of the source. *)
Definition aes_sub_bytes (state : list Z) : list Z :=
  for_range 0 16 (fun i s => aset s i sbox.[s.[i]]) state.

Definition inv_sub_bytes (state : list Z) : list Z :=
  for_range 0 16 (fun i s => aset s i rsbox.[s.[i]]) state.

Definition shift_rows (state : list Z) : list Z :=
  let temp := state.[1] in
  let state := aset state 1 state.[5] in
  let state := aset state 5 state.[9] in
  let state := aset state 9 state.[13] in
  let state := aset state 13 temp in
  let temp := state.[2] in
  let state := aset state 2 state.[10] in
  let state := aset state 10 temp in
  let temp := state.[6] in
  let state := aset state 6 state.[14] in
  let state := aset state 14 temp in
  let temp := state.[3] in
  let state := aset state 3 state.[15] in
  let state := aset state 15 state.[11] in
  let state := aset state 11 state.[7] in
  aset state 7 temp.

Definition inv_shift_rows (state : list Z) : list Z :=
  let temp := state.[13] in
  let state := aset state 13 state.[9] in
  let state := aset state 9 state.[5] in
  let state := aset state 5 state.[1] in
  let state := aset state 1 temp in
  let temp := state.[2] in
  let state := aset state 2 state.[10] in
  let state := aset state 10 temp in
  let temp := state.[6] in
  let state := aset state 6 state.[14] in
  let state := aset state 14 temp in
  let temp := state.[3] in
  let state := aset state 3 state.[7] in
  let state := aset state 7 state.[11] in
  let state := aset state 11 state.[15] in
  aset state 15 temp.

Definition mix_column (i : Z) (state : list Z) : list Z :=
  let a0 := state.[i * 4 + 0] in
  let a1 := state.[i * 4 + 1] in
  let a2 := state.[i * 4 + 2] in
  let a3 := state.[i * 4 + 3] in
  let state := aset state (i * 4 + 0) (Z.lxor (Z.lxor (Z.lxor (multiply a0 2) (multiply a1 3)) a2) a3) in
  let state := aset state (i * 4 + 1) (Z.lxor (Z.lxor (Z.lxor a0 (multiply a1 2)) (multiply a2 3)) a3) in
  let state := aset state (i * 4 + 2) (Z.lxor (Z.lxor (Z.lxor a0 a1) (multiply a2 2)) (multiply a3 3)) in
  aset state (i * 4 + 3) (Z.lxor (Z.lxor (Z.lxor (multiply a0 3) a1) a2) (multiply a3 2)).

Definition mix_columns (state : list Z) : list Z := for_range 0 4 mix_column state.

Definition inv_mix_column (i : Z) (state : list Z) : list Z :=
  let a0 := state.[i * 4 + 0] in
  let a1 := state.[i * 4 + 1] in
  let a2 := state.[i * 4 + 2] in
  let a3 := state.[i * 4 + 3] in
  let state := aset state (i * 4 + 0) (Z.lxor (Z.lxor (Z.lxor (multiply a0 0x0e) (multiply a1 0x0b)) (multiply a2 0x0d)) (multiply a3 0x09)) in
  let state := aset state (i * 4 + 1) (Z.lxor (Z.lxor (Z.lxor (multiply a0 0x09) (multiply a1 0x0e)) (multiply a2 0x0b)) (multiply a3 0x0d)) in
  let state := aset state (i * 4 + 2) (Z.lxor (Z.lxor (Z.lxor (multiply a0 0x0d) (multiply a1 0x09)) (multiply a2 0x0e)) (multiply a3 0x0b)) in
  aset state (i * 4 + 3) (Z.lxor (Z.lxor (Z.lxor (multiply a0 0x0b) (multiply a1 0x0d)) (multiply a2 0x09)) (multiply a3 0x0e)).

Definition inv_mix_columns (state : list Z) : list Z := for_range 0 4 inv_mix_column state.

Definition encrypt_round (rk : list Z) (round : Z) (state : list Z) : list Z :=
  add_round_key (mix_columns (shift_rows (aes_sub_bytes state))) rk (round * 16).

(** The 16-byte local starts with arbitrary contents and is filled first. *)
Definition aes_encrypt_block (rk input output : list Z) : list Z :=
  let state := memcpy_loop (zrep 16 0) 0 input 0 16 in
  let state := add_round_key state rk 0 in
  let state := for_range 1 AES_256_NR (encrypt_round rk) state in
  let state := aes_sub_bytes state in
  let state := shift_rows state in
  let state := add_round_key state rk (AES_256_NR * 16) in
  memcpy_loop output 0 state 0 16.

Definition decrypt_round (rk : list Z) (round : Z) (state : list Z) : list Z :=
  inv_mix_columns (add_round_key (inv_sub_bytes (inv_shift_rows state)) rk (round * 16)).

(** The rounds run from 13 down to 1. *)
Definition aes_decrypt_block (rk input output : list Z) : list Z :=
  let state := memcpy_loop (zrep 16 0) 0 input 0 16 in
  let state := add_round_key state rk (AES_256_NR * 16) in
  let state := for_range 0 (AES_256_NR - 1) (fun k => decrypt_round rk (AES_256_NR - 1 - k)) state in
  let state := inv_shift_rows state in
  let state := inv_sub_bytes state in
  let state := add_round_key state rk 0 in
  memcpy_loop output 0 state 0 16.

(** ** XTS *)
Definition set_block_number (tweak : list Z) (block_no : Z) : list Z :=
  let tweak := for_range 0 16 (fun i t => aset t i 0) tweak in
  (for_range 0 4 (fun i tb =>
     (aset tb.1 i (u8 (Z.land tb.2 0xFF)), Z.shiftr tb.2 8)) (tweak, block_no)).1.

Definition gf_mulx (tweak : list Z) : list Z :=
  let '(tweak, carry) := for_range 0 16 (fun i tc =>
      let new_carry := u8 (Z.shiftr tc.1.[i] 7) in
      (aset tc.1 i (u8 (Z.lor (Z.shiftl tc.1.[i] 1) tc.2)), new_carry)) (tweak, 0) in
  if negb (carry =? 0) then aset tweak 0 (Z.lxor tweak.[0] 0x87) else tweak.

(** One 16-byte block: [output] and the tweak. *)
Definition xts_step (data_ctx : list Z) (input : list Z) (encrypt : bool) (i : Z)
    (ot : list Z * list Z) : list Z * list Z :=
  let '(output, tweak) := ot in
  let buffer := for_range 0 16 (fun j b => aset b j (Z.lxor input.[i * 16 + j] tweak.[j])) (zrep 16 0) in
  let buffer := if encrypt then aes_encrypt_block data_ctx buffer buffer
                else aes_decrypt_block data_ctx buffer buffer in
  let output := for_range 0 16 (fun j o => aset o (i * 16 + j) (Z.lxor buffer.[j] tweak.[j])) output in
  (output, gf_mulx tweak).

Definition xts_crypt (block_size : Z) (data_ctx tweak_ctx : list Z) (block_no : Z)
    (input output : list Z) (encrypt : bool) : list Z :=
  let tweak := set_block_number (zrep 16 0) block_no in
  let tweak := aes_encrypt_block tweak_ctx tweak tweak in
  let blocks := block_size / AES_BLOCKLEN in
  (for_range 0 blocks (xts_step data_ctx input encrypt) (output, tweak)).1.

(** ** The block device *)
Record crypt_device (W : Type) := mkCrypt {
  c_block_size : Z;
  c_block_count : Z;
  c_lower : option (block_device W);
  c_data_ctx : list Z;
  c_tweak_ctx : list Z }.
Arguments mkCrypt {W}.
Arguments c_block_size {W}.
Arguments c_block_count {W}.
Arguments c_lower {W}.
Arguments c_data_ctx {W}.
Arguments c_tweak_ctx {W}.

Section adapter.
Context {W : Type} (crypt : crypt_device W).

Definition crypt_read_block (block_no : Z) (buffer : list Z) (w : list Z * W)
    : Z * list Z * (list Z * W) :=
  if negb (c_block_size crypt =? CRYPT_MAX_BLOCK_SIZE) then (-1, buffer, w) else
  let '(rc, temp, w) := block_device_read (c_lower crypt) block_no w.1 w.2 in
  if negb (rc =? 0) then (-1, buffer, (crypt_secure_clear temp CRYPT_MAX_BLOCK_SIZE, w)) else
  let buffer := xts_crypt (c_block_size crypt) (c_data_ctx crypt) (c_tweak_ctx crypt)
                  block_no temp buffer false in
  (0, buffer, (crypt_secure_clear temp CRYPT_MAX_BLOCK_SIZE, w)).

Definition crypt_write_block (block_no : Z) (buffer : list Z) (w : list Z * W) : Z * (list Z * W) :=
  if negb (c_block_size crypt =? CRYPT_MAX_BLOCK_SIZE) then (-1, w) else
  let temp := xts_crypt (c_block_size crypt) (c_data_ctx crypt) (c_tweak_ctx crypt)
                block_no buffer w.1 true in
  let '(result, w) := block_device_write (c_lower crypt) block_no temp w.2 in
  (result, (crypt_secure_clear temp CRYPT_MAX_BLOCK_SIZE, w)).

Definition crypt_flush_ex (w : list Z * W) : block_io_error_class * (list Z * W) :=
  match c_lower crypt with
  | None => (BLOCK_IO_ERR_PERMANENT, w)
  | Some _ => let '(cls, w') := block_device_flush_once_ex (c_lower crypt) w.2 in (cls, (w.1, w'))
  end.

Definition crypt_ops : block_device_ops (list Z * W) :=
  mkOps (Some crypt_read_block) (Some crypt_write_block) None None None None
    (if block_device_supports_flush (c_lower crypt) then Some crypt_flush_ex else None).
End adapter.

(** [mem_ok] says whether the context is granted; its scratch buffer starts zeroed. *)
Definition crypt_init {W} (mem_ok : bool) (lower : option (block_device W)) (key1 key2 : option (list Z))
    : option (crypt_device W * block_device (list Z * W)) :=
  match lower, key1, key2 with
  | Some l, Some k1, Some k2 =>
      if negb (dev_block_size l =? CRYPT_MAX_BLOCK_SIZE) then None else
      if negb mem_ok then None else
      let crypt := mkCrypt (dev_block_size l) (dev_block_count l) lower
        (aes_key_expand (zrep AES_256_ROUNDKEY_SIZE 0) k1)
        (aes_key_expand (zrep AES_256_ROUNDKEY_SIZE 0) k2) in
      Some (crypt, mkDev "crypt" (dev_block_size l) (dev_block_count l) (Some (crypt_ops crypt)))
  | _, _, _ => None
  end.

(** The memory of the context when it is given back; [ours] says whether the
    device's operations are those of this file. *)
Definition crypt_free {W} (ours : bool) (crypt : crypt_device W) (scratch : list Z)
    : crypt_device W * list Z :=
  if negb ours then (crypt, scratch) else
  (mkCrypt 0 0 None (crypt_secure_clear (c_data_ctx crypt) AES_256_ROUNDKEY_SIZE)
     (crypt_secure_clear (c_tweak_ctx crypt) AES_256_ROUNDKEY_SIZE),
   crypt_secure_clear scratch CRYPT_MAX_BLOCK_SIZE).

(** ** Arithmetic in GF(2^8) *)

(** Equality of two xor sums, bit by bit. *)
Ltac xor_eq :=
  apply Z.bits_inj'; intros i Hi; rewrite ?Z.lxor_spec, ?Z.bits_0;
  repeat match goal with |- context [Z.testbit ?a i] => destruct (Z.testbit a i) end; reflexivity.

Lemma byte_bits x y : byte_ok x -> byte_ok y ->
  (forall i, 0 <= i < 8 -> Z.testbit x i = Z.testbit y i) -> x = y.
Proof.
  intros Hx Hy H. apply Z.bits_inj'. intros i Hi. destruct (Z.lt_ge_cases i 8); [apply H; lia|].
  assert (Hh : forall z, byte_ok z -> Z.testbit z i = false).
  { intros z [Hz Hz']. destruct (Z.eq_dec z 0) as [->|]; [apply Z.bits_0|].
    apply Z.bits_above_log2; [done|]. assert (Z.log2 z < 8) by (apply Z.log2_lt_pow2; lia). lia. }
  by rewrite !Hh.
Qed.

Lemma top_bit x : byte_ok x -> Z.shiftr x 7 = if Z.testbit x 7 then 1 else 0.
Proof.
  intros [Hx Hx']. rewrite Z.shiftr_div_pow2 by lia. change (2 ^ 7) with 128.
  rewrite Z.testbit_odd, Z.shiftr_div_pow2 by lia. change (2 ^ 7) with 128.
  assert (x / 128 = 0 \/ x / 128 = 1) as [-> | ->]; [|done..].
  assert (0 <= x / 128 < 2) by (split; [apply Z.div_pos; lia | apply Z.div_lt_upper_bound; lia]). lia.
Qed.

Lemma xtime_byte x : byte_ok (xtime x).
Proof. apply u8_range. Qed.

Lemma xtime_lxor x y : byte_ok x -> byte_ok y -> xtime (Z.lxor x y) = Z.lxor (xtime x) (xtime y).
Proof.
  intros Hx Hy. unfold xtime. rewrite !top_bit by (try apply byte_lxor; done).
  rewrite Z.shiftl_lxor, !u8_lxor, Z.lxor_spec.
  set (a := u8 (Z.shiftl x 1)). set (b := u8 (Z.shiftl y 1)).
  destruct (Z.testbit x 7), (Z.testbit y 7); cbn [xorb]; rewrite ?Z.mul_0_l, ?Z.mul_1_l;
    change (u8 0) with 0; change (u8 27) with 27; clearbody a b; generalize 27; intros c.
  all: xor_eq.
Qed.

Lemma multiply_loop_lxor n x1 x2 y r1 r2 : byte_ok x1 -> byte_ok x2 ->
  multiply_loop n (Z.lxor x1 x2) y (Z.lxor r1 r2) =
  Z.lxor (multiply_loop n x1 y r1) (multiply_loop n x2 y r2).
Proof.
  revert x1 x2 y r1 r2. induction n as [|n IH]; intros x1 x2 y r1 r2 H1 H2; [done|].
  cbn [multiply_loop]. destruct (y =? 0); [done|]. rewrite xtime_lxor by done.
  destruct (negb (Z.land y 1 =? 0)); rewrite <- IH by apply xtime_byte; [|done]. f_equal.
  xor_eq.
Qed.

Lemma multiply_lxor x1 x2 k : byte_ok x1 -> byte_ok x2 ->
  multiply (Z.lxor x1 x2) k = Z.lxor (multiply x1 k) (multiply x2 k).
Proof. intros. apply (multiply_loop_lxor 8 x1 x2 k 0 0); done. Qed.

Lemma multiply_loop_byte n x y r : byte_ok x -> byte_ok r -> byte_ok (multiply_loop n x y r).
Proof.
  revert x y r. induction n as [|n IH]; intros x y r Hx Hr; [done|]. cbn [multiply_loop].
  destruct (y =? 0); [done|]. apply IH; [apply xtime_byte|]. destr_if; [by apply byte_lxor | done].
Qed.

Lemma multiply_byte x k : byte_ok x -> byte_ok (multiply x k).
Proof. intros. apply multiply_loop_byte; [done | unfold byte_ok; lia]. Qed.

(** A property of one byte, checked on all 256. *)
Definition all_bytes (f : Z -> bool) : bool := forallb f (seqZ 0 256).

Lemma all_bytes_spec f x : all_bytes f = true -> byte_ok x -> f x = true.
Proof.
  unfold all_bytes. rewrite forallb_forall. intros H Hx. apply H. apply list_elem_of_In, elem_of_seqZ.
  unfold byte_ok in Hx. lia.
Qed.

(** The matrix of [inv_mix_column] times the one of [mix_column], entry by entry:
    [combine4] is an entry's sum of products applied to a byte. *)
Definition combine4 (k0 k1 k2 k3 m0 m1 m2 m3 x : Z) : Z :=
  Z.lxor (Z.lxor (Z.lxor (multiply (multiply x m0) k0) (multiply (multiply x m1) k1))
    (multiply (multiply x m2) k2)) (multiply (multiply x m3) k3).

Definition mix_check (x : Z) : bool :=
    (combine4 0x0e 0x0b 0x0d 0x09 2 1 1 3 x =? x) &&
    (combine4 0x0e 0x0b 0x0d 0x09 3 2 1 1 x =? 0) && (combine4 0x0e 0x0b 0x0d 0x09 1 3 2 1 x =? 0) &&
    (combine4 0x0e 0x0b 0x0d 0x09 1 1 3 2 x =? 0) &&
    (combine4 0x09 0x0e 0x0b 0x0d 2 1 1 3 x =? 0) && (combine4 0x09 0x0e 0x0b 0x0d 3 2 1 1 x =? x) &&
    (combine4 0x09 0x0e 0x0b 0x0d 1 3 2 1 x =? 0) && (combine4 0x09 0x0e 0x0b 0x0d 1 1 3 2 x =? 0) &&
    (combine4 0x0d 0x09 0x0e 0x0b 2 1 1 3 x =? 0) && (combine4 0x0d 0x09 0x0e 0x0b 3 2 1 1 x =? 0) &&
    (combine4 0x0d 0x09 0x0e 0x0b 1 3 2 1 x =? x) && (combine4 0x0d 0x09 0x0e 0x0b 1 1 3 2 x =? 0) &&
    (combine4 0x0b 0x0d 0x09 0x0e 2 1 1 3 x =? 0) && (combine4 0x0b 0x0d 0x09 0x0e 3 2 1 1 x =? 0) &&
    (combine4 0x0b 0x0d 0x09 0x0e 1 3 2 1 x =? 0) && (combine4 0x0b 0x0d 0x09 0x0e 1 1 3 2 x =? x) &&
    (multiply x 1 =? x).

Lemma inv_mix_table : all_bytes mix_check = true.
Proof. vm_compute. reflexivity. Qed.

Lemma multiply_1 x : byte_ok x -> multiply x 1 = x.
Proof.
  intros Hx. pose proof (all_bytes_spec mix_check x inv_mix_table Hx) as H. unfold mix_check in H.
  apply andb_true_iff in H as [_ H]. by apply Z.eqb_eq in H.
Qed.

(** ** Each layer of the cipher and its inverse *)
Definition st_ok (s : list Z) : Prop := zlen s = 16 /\ bytes_ok s.

Ltac dest16 s H :=
  do 16 (destruct s as [|? s]; [exfalso; unfold zlen in H; simpl in H; lia|]);
  destruct s; [|exfalso; unfold zlen in H; simpl in H; lia].

Lemma ark_eq s rk off : zlen s = 16 ->
  add_round_key s rk off = xor_bytes s (map (fun i => rk.[off + i]) (seqZ 0 16)).
Proof. intros H. dest16 s H. reflexivity. Qed.

Lemma map_loop (f : Z -> Z) s : zlen s = 16 -> for_range 0 16 (fun i s => aset s i (f s.[i])) s = map f s.
Proof. intros H. dest16 s H. reflexivity. Qed.

Lemma xor_involutive s k : (length s <= length k)%nat -> xor_bytes (xor_bytes s k) k = s.
Proof.
  revert k. induction s as [|a s IH]; intros [|b k] Hl; simpl in *; try done; [lia|].
  rewrite IH by lia. f_equal. by rewrite Z.lxor_assoc, Z.lxor_nilpotent, Z.lxor_0_r.
Qed.

Lemma xor_bytes_ok x y : bytes_ok x -> bytes_ok y -> bytes_ok (xor_bytes x y).
Proof.
  intros Hx. revert y. induction Hx as [|a x Ha _ IH]; intros [|b y] Hy; try by apply Forall_nil.
  apply Forall_cons in Hy as [Hb Hy]. apply Forall_cons. split; [by apply byte_lxor | by apply IH].
Qed.

Lemma rk_ok rk off : bytes_ok rk -> bytes_ok (map (fun i => rk.[off + i]) (seqZ 0 16)).
Proof.
  intros Hr. apply Forall_fmap, Forall_forall. intros i _.
  apply (Forall_aget byte_ok 0 rk (off + i)); [done | unfold byte_ok; lia].
Qed.

Lemma ark_ok s rk off : st_ok s -> bytes_ok rk -> st_ok (add_round_key s rk off).
Proof.
  intros [Hl Hb] Hr. rewrite ark_eq by done. split; [rewrite xor_len; done|].
  apply xor_bytes_ok; [done | by apply rk_ok].
Qed.

Lemma ark_inv s rk off : zlen s = 16 -> add_round_key (add_round_key s rk off) rk off = s.
Proof.
  intros Hl. rewrite (ark_eq s) by done. rewrite ark_eq by (rewrite xor_len; done).
  apply xor_involutive. unfold zlen in Hl. rewrite length_map, length_seqZ. lia.
Qed.

Lemma sbox_table : all_bytes (fun x => (rsbox.[sbox.[x]] =? x) && (0 <=? sbox.[x]) && (sbox.[x] <? 256)) = true.
Proof. vm_compute. reflexivity. Qed.

Lemma sbox_inv x : byte_ok x -> rsbox.[sbox.[x]] = x /\ byte_ok sbox.[x].
Proof.
  intros Hx. pose proof (all_bytes_spec _ x sbox_table Hx) as H. cbn beta in H. bools. done.
Qed.

Lemma sub_ok s : st_ok s -> st_ok (aes_sub_bytes s).
Proof.
  intros [Hl Hb]. unfold aes_sub_bytes. rewrite (map_loop (fun b => sbox.[b])) by done. split.
  - unfold zlen in *. by rewrite length_map.
  - apply bytes_map; [|done]. intros b Hbb. by apply sbox_inv.
Qed.

Lemma sub_inv s : st_ok s -> inv_sub_bytes (aes_sub_bytes s) = s.
Proof.
  intros Hs. pose proof (sub_ok s Hs) as [Hl' _]. destruct Hs as [Hl Hb]. unfold inv_sub_bytes.
  rewrite (map_loop (fun b => rsbox.[b])) by done.
  unfold aes_sub_bytes. rewrite (map_loop (fun b => sbox.[b])) by done.
  rewrite map_map. clear Hl Hl'. induction Hb as [|b s Hbb _ IH]; [done|]. simpl. rewrite IH.
  f_equal. by apply sbox_inv.
Qed.

Lemma shift_ok s : st_ok s -> st_ok (shift_rows s).
Proof.
  intros [Hl Hb]. dest16 s Hl. unfold bytes_ok in Hb.
  repeat match goal with H : Forall _ (_ :: _) |- _ => apply Forall_cons in H as [? ?] end.
  split; [reflexivity|]. repeat (apply Forall_cons_2; [assumption|]). by apply Forall_nil.
Qed.

Lemma shift_inv s : zlen s = 16 -> inv_shift_rows (shift_rows s) = s.
Proof. intros H. dest16 s H. reflexivity. Qed.

(** One column of [mix_columns]. *)
Definition mixcol (a0 a1 a2 a3 : Z) : list Z :=
  [Z.lxor (Z.lxor (Z.lxor (multiply a0 2) (multiply a1 3)) a2) a3;
   Z.lxor (Z.lxor (Z.lxor a0 (multiply a1 2)) (multiply a2 3)) a3;
   Z.lxor (Z.lxor (Z.lxor a0 a1) (multiply a2 2)) (multiply a3 3);
   Z.lxor (Z.lxor (Z.lxor (multiply a0 3) a1) a2) (multiply a3 2)].

Definition dot (k0 k1 k2 k3 a0 a1 a2 a3 : Z) : Z :=
  Z.lxor (Z.lxor (Z.lxor (multiply a0 k0) (multiply a1 k1)) (multiply a2 k2)) (multiply a3 k3).

Lemma mix_columns_eq a b c d e f g h i j k l m n o p :
  mix_columns [a;b;c;d;e;f;g;h;i;j;k;l;m;n;o;p] =
  mixcol a b c d ++ mixcol e f g h ++ mixcol i j k l ++ mixcol m n o p.
Proof. reflexivity. Qed.

Definition invcol (a0 a1 a2 a3 : Z) : list Z :=
  [dot 0x0e 0x0b 0x0d 0x09 a0 a1 a2 a3; dot 0x09 0x0e 0x0b 0x0d a0 a1 a2 a3;
   dot 0x0d 0x09 0x0e 0x0b a0 a1 a2 a3; dot 0x0b 0x0d 0x09 0x0e a0 a1 a2 a3].

Lemma inv_mix_columns_eq a b c d e f g h i j k l m n o p :
  inv_mix_columns [a;b;c;d;e;f;g;h;i;j;k;l;m;n;o;p] =
  invcol a b c d ++ invcol e f g h ++ invcol i j k l ++ invcol m n o p.
Proof. reflexivity. Qed.

Lemma xor4_byte a b c d : byte_ok a -> byte_ok b -> byte_ok c -> byte_ok d ->
  byte_ok (Z.lxor (Z.lxor (Z.lxor a b) c) d).
Proof. intros. by repeat apply byte_lxor. Qed.

Lemma multiply_xor4 a b c d k : byte_ok a -> byte_ok b -> byte_ok c -> byte_ok d ->
  multiply (Z.lxor (Z.lxor (Z.lxor a b) c) d) k =
  Z.lxor (Z.lxor (Z.lxor (multiply a k) (multiply b k)) (multiply c k)) (multiply d k).
Proof. intros. by rewrite !multiply_lxor by (repeat apply byte_lxor; done). Qed.

(** Summing a 4x4 table by rows or by columns. *)
Lemma xor_transpose a0 a1 a2 a3 b0 b1 b2 b3 c0 c1 c2 c3 d0 d1 d2 d3 :
  let x4 := fun a b c d => Z.lxor (Z.lxor (Z.lxor a b) c) d in
  x4 (x4 a0 a1 a2 a3) (x4 b0 b1 b2 b3) (x4 c0 c1 c2 c3) (x4 d0 d1 d2 d3) =
  x4 (x4 a0 b0 c0 d0) (x4 a1 b1 c1 d1) (x4 a2 b2 c2 d2) (x4 a3 b3 c3 d3).
Proof.
  cbv zeta beta. apply Z.bits_inj'. intros i Hi. rewrite !Z.lxor_spec.
  repeat match goal with |- context [Z.testbit ?a i] => generalize (Z.testbit a i); intros ? end. btauto.
Qed.

Lemma mixcol_dot a0 a1 a2 a3 : byte_ok a0 -> byte_ok a1 -> byte_ok a2 -> byte_ok a3 ->
  mixcol a0 a1 a2 a3 = [dot 2 3 1 1 a0 a1 a2 a3; dot 1 2 3 1 a0 a1 a2 a3;
                        dot 1 1 2 3 a0 a1 a2 a3; dot 3 1 1 2 a0 a1 a2 a3].
Proof. intros. unfold mixcol, dot. by rewrite !multiply_1. Qed.

Lemma dot_combine k0 k1 k2 k3 a0 a1 a2 a3 : byte_ok a0 -> byte_ok a1 -> byte_ok a2 -> byte_ok a3 ->
  dot k0 k1 k2 k3 (dot 2 3 1 1 a0 a1 a2 a3) (dot 1 2 3 1 a0 a1 a2 a3)
    (dot 1 1 2 3 a0 a1 a2 a3) (dot 3 1 1 2 a0 a1 a2 a3) =
  Z.lxor (Z.lxor (Z.lxor (combine4 k0 k1 k2 k3 2 1 1 3 a0) (combine4 k0 k1 k2 k3 3 2 1 1 a1))
    (combine4 k0 k1 k2 k3 1 3 2 1 a2)) (combine4 k0 k1 k2 k3 1 1 3 2 a3).
Proof.
  intros. unfold combine4, dot. rewrite !multiply_xor4 by (by apply multiply_byte).
  apply xor_transpose.
Qed.

(** The entries of the product of the two matrices. *)
Lemma inv_mix_entries x : byte_ok x ->
  let c := fun r i => match r, i with
    | 0, 0 => combine4 0x0e 0x0b 0x0d 0x09 2 1 1 3 x | 0, 1 => combine4 0x0e 0x0b 0x0d 0x09 3 2 1 1 x
    | 0, 2 => combine4 0x0e 0x0b 0x0d 0x09 1 3 2 1 x | 0, _ => combine4 0x0e 0x0b 0x0d 0x09 1 1 3 2 x
    | 1, 0 => combine4 0x09 0x0e 0x0b 0x0d 2 1 1 3 x | 1, 1 => combine4 0x09 0x0e 0x0b 0x0d 3 2 1 1 x
    | 1, 2 => combine4 0x09 0x0e 0x0b 0x0d 1 3 2 1 x | 1, _ => combine4 0x09 0x0e 0x0b 0x0d 1 1 3 2 x
    | 2, 0 => combine4 0x0d 0x09 0x0e 0x0b 2 1 1 3 x | 2, 1 => combine4 0x0d 0x09 0x0e 0x0b 3 2 1 1 x
    | 2, 2 => combine4 0x0d 0x09 0x0e 0x0b 1 3 2 1 x | 2, _ => combine4 0x0d 0x09 0x0e 0x0b 1 1 3 2 x
    | _, 0 => combine4 0x0b 0x0d 0x09 0x0e 2 1 1 3 x | _, 1 => combine4 0x0b 0x0d 0x09 0x0e 3 2 1 1 x
    | _, 2 => combine4 0x0b 0x0d 0x09 0x0e 1 3 2 1 x | _, _ => combine4 0x0b 0x0d 0x09 0x0e 1 1 3 2 x
    end in
  (c 0 0 = x /\ c 0 1 = 0 /\ c 0 2 = 0 /\ c 0 3 = 0) /\ (c 1 0 = 0 /\ c 1 1 = x /\ c 1 2 = 0 /\ c 1 3 = 0) /\
  (c 2 0 = 0 /\ c 2 1 = 0 /\ c 2 2 = x /\ c 2 3 = 0) /\ (c 3 0 = 0 /\ c 3 1 = 0 /\ c 3 2 = 0 /\ c 3 3 = x).
Proof.
  intros Hx. pose proof (all_bytes_spec mix_check x inv_mix_table Hx) as H. unfold mix_check in H.
  bools. cbv beta zeta iota. split_and!; assumption.
Qed.

Lemma invcol_mixcol a0 a1 a2 a3 : byte_ok a0 -> byte_ok a1 -> byte_ok a2 -> byte_ok a3 ->
  match mixcol a0 a1 a2 a3 with
  | [c0; c1; c2; c3] => invcol c0 c1 c2 c3 = [a0; a1; a2; a3]
  | _ => False
  end.
Proof.
  intros H0 H1 H2 H3. rewrite mixcol_dot by done. unfold invcol. rewrite !dot_combine by done.
  pose proof (inv_mix_entries a0 H0) as E0. pose proof (inv_mix_entries a1 H1) as E1.
  pose proof (inv_mix_entries a2 H2) as E2. pose proof (inv_mix_entries a3 H3) as E3.
  cbv beta zeta iota in E0, E1, E2, E3. destruct_and!.
  repeat match goal with H : combine4 _ _ _ _ _ _ _ _ _ = _ |- _ => rewrite H; clear H end.
  by rewrite ?Z.lxor_0_l, ?Z.lxor_0_r.
Qed.

Lemma mixcol_bytes a0 a1 a2 a3 : byte_ok a0 -> byte_ok a1 -> byte_ok a2 -> byte_ok a3 ->
  bytes_ok (mixcol a0 a1 a2 a3).
Proof.
  intros. unfold mixcol. repeat (apply Forall_cons_2; [apply xor4_byte; try apply multiply_byte; done|]).
  by apply Forall_nil.
Qed.

Ltac split_bytes Hb :=
  unfold bytes_ok in Hb; repeat match goal with H : Forall _ (_ :: _) |- _ => apply Forall_cons in H as [? ?] end.

Lemma mix_ok s : st_ok s -> st_ok (mix_columns s).
Proof.
  intros [Hl Hb]. dest16 s Hl. split_bytes Hb. rewrite mix_columns_eq. split; [reflexivity|].
  repeat apply Forall_app_2; by apply mixcol_bytes.
Qed.

Lemma mix_inv s : st_ok s -> inv_mix_columns (mix_columns s) = s.
Proof.
  intros [Hl Hb]. dest16 s Hl. split_bytes Hb. rewrite mix_columns_eq.
  match goal with |- inv_mix_columns (mixcol ?a ?b ?c ?d ++ mixcol ?e ?f ?g ?h ++ mixcol ?i ?j ?k ?l ++ mixcol ?m ?n ?o ?p) = _ =>
    pose proof (invcol_mixcol a b c d ltac:(done) ltac:(done) ltac:(done) ltac:(done)) as E1;
    pose proof (invcol_mixcol e f g h ltac:(done) ltac:(done) ltac:(done) ltac:(done)) as E2;
    pose proof (invcol_mixcol i j k l ltac:(done) ltac:(done) ltac:(done) ltac:(done)) as E3;
    pose proof (invcol_mixcol m n o p ltac:(done) ltac:(done) ltac:(done) ltac:(done)) as E4 end.
  unfold mixcol in *. cbn [app]. rewrite inv_mix_columns_eq, E1, E2, E3, E4. reflexivity.
Qed.

(** ** The cipher *)
Lemma round_ok rk r s : bytes_ok rk -> st_ok s -> st_ok (encrypt_round rk r s).
Proof. intros. unfold encrypt_round. apply ark_ok; [|done]. by apply mix_ok, shift_ok, sub_ok. Qed.

(** A decryption round, from the shifted and substituted state, undoes a round. *)
Lemma round_inv rk r s : bytes_ok rk -> st_ok s ->
  decrypt_round rk r (shift_rows (aes_sub_bytes (encrypt_round rk r s))) = shift_rows (aes_sub_bytes s).
Proof.
  intros Hr Hs. pose proof (round_ok rk r s Hr Hs) as Hok. unfold decrypt_round.
  rewrite shift_inv by (apply sub_ok, Hok). rewrite sub_inv by done.
  unfold encrypt_round. rewrite ark_inv by (apply mix_ok, shift_ok, sub_ok, Hs).
  apply mix_inv. by apply shift_ok, sub_ok.
Qed.

Definition enc_state (rk s : list Z) (r : Z) : list Z := for_range 1 (r + 1) (encrypt_round rk) s.

Lemma enc_state_ok rk s r : bytes_ok rk -> st_ok s -> 0 <= r -> st_ok (enc_state rk s r).
Proof.
  intros Hr Hs Hle. unfold enc_state.
  apply (for_range_ind (fun _ s => st_ok s) 1 (r + 1)); [lia | done |]. intros. by apply round_ok.
Qed.

Definition cipher (rk s : list Z) : list Z :=
  add_round_key (shift_rows (aes_sub_bytes
    (for_range 1 AES_256_NR (encrypt_round rk) (add_round_key s rk 0)))) rk (AES_256_NR * 16).

Definition inv_cipher (rk s : list Z) : list Z :=
  add_round_key (inv_sub_bytes (inv_shift_rows
    (for_range 0 (AES_256_NR - 1) (fun k => decrypt_round rk (AES_256_NR - 1 - k))
      (add_round_key s rk (AES_256_NR * 16))))) rk 0.

Lemma cipher_ok rk s : bytes_ok rk -> st_ok s -> st_ok (cipher rk s).
Proof.
  intros Hr Hs. unfold cipher. apply ark_ok; [|done].
  apply shift_ok, sub_ok. apply (for_range_ind (fun _ s => st_ok s) 1 AES_256_NR); [done | by apply ark_ok |].
  intros. by apply round_ok.
Qed.

Lemma cipher_inv rk s : bytes_ok rk -> st_ok s -> inv_cipher rk (cipher rk s) = s.
Proof.
  intros Hr Hs. unfold inv_cipher, cipher. pose proof (ark_ok s rk 0 Hs Hr) as H0.
  set (s0 := add_round_key s rk 0) in *.
  assert (HS : forall r, 0 <= r -> st_ok (enc_state rk s0 r)) by (intros; by apply enc_state_ok).
  assert (E14 : for_range 1 AES_256_NR (encrypt_round rk) s0 = enc_state rk s0 13).
  { unfold enc_state. by replace (13 + 1) with AES_256_NR by done. }
  rewrite E14. clear E14. replace (AES_256_NR - 1) with 13 by done.
  rewrite ark_inv by (apply shift_ok, sub_ok, HS; lia).
  pose proof (for_range_ind (fun k t => t = shift_rows (aes_sub_bytes (enc_state rk s0 (13 - k)))) 0 13
    (fun k => decrypt_round rk (13 - k)) (shift_rows (aes_sub_bytes (enc_state rk s0 13)))) as H.
  rewrite H; [|lia | done |].
  - change (enc_state rk s0 (13 - 13)) with s0. rewrite shift_inv by (apply sub_ok, H0).
    rewrite sub_inv by done. unfold s0. apply ark_inv, Hs.
  - intros k t Hk ->. replace (enc_state rk s0 (13 - k)) with
      (encrypt_round rk (13 - k) (enc_state rk s0 (13 - (k + 1)))).
    + apply round_inv; [done | apply HS; lia].
    + unfold enc_state. replace (13 - (k + 1) + 1) with (13 - k) by lia. by rewrite for_range_snoc by lia.
Qed.

Lemma copy16 dst src : 16 <= zlen dst -> zlen src = 16 -> memcpy_loop dst 0 src 0 16 = splice dst 0 src.
Proof. intros Hd Hs. rewrite memcpy_spec by lia. f_equal. rewrite <- Hs. apply sub_bytes_all. Qed.

Lemma encrypt_block_eq rk s o : bytes_ok rk -> st_ok s -> 16 <= zlen o ->
  aes_encrypt_block rk s o = splice o 0 (cipher rk s).
Proof.
  intros Hr Hs Ho. destruct (cipher_ok rk s Hr Hs) as [Hc _]. destruct Hs as [Hl _]. revert Hc.
  assert (E : memcpy_loop (zrep 16 0) 0 s 0 16 = s) by (rewrite copy16, splice_all; done).
  unfold aes_encrypt_block, cipher. cbv zeta. rewrite E.
  generalize (add_round_key (shift_rows (aes_sub_bytes
    (for_range 1 AES_256_NR (encrypt_round rk) (add_round_key s rk 0)))) rk (AES_256_NR * 16)).
  intros c Hc. by apply copy16.
Qed.

Lemma inv_shift_len s : zlen s = 16 -> zlen (inv_shift_rows s) = 16.
Proof. intros H. dest16 s H. reflexivity. Qed.

Lemma inv_sub_len s : zlen s = 16 -> zlen (inv_sub_bytes s) = 16.
Proof. intros H. dest16 s H. reflexivity. Qed.

Lemma ark_len s rk o : zlen s = 16 -> zlen (add_round_key s rk o) = 16.
Proof. intros H. dest16 s H. reflexivity. Qed.

Lemma inv_mix_len s : zlen s = 16 -> zlen (inv_mix_columns s) = 16.
Proof. intros H. dest16 s H. reflexivity. Qed.

Lemma inv_cipher_len rk s : zlen s = 16 -> zlen (inv_cipher rk s) = 16.
Proof.
  intros Hl. unfold inv_cipher. apply ark_len, inv_sub_len, inv_shift_len.
  apply (for_range_ind (fun _ s => zlen s = 16) 0 (AES_256_NR - 1)); [done | by apply ark_len |].
  intros k t _ Ht. unfold decrypt_round. by apply inv_mix_len, ark_len, inv_sub_len, inv_shift_len.
Qed.

Lemma decrypt_block_eq rk s o : zlen s = 16 -> 16 <= zlen o ->
  aes_decrypt_block rk s o = splice o 0 (inv_cipher rk s).
Proof.
  intros Hl Ho. pose proof (inv_cipher_len rk s Hl) as Hc. revert Hc.
  assert (E : memcpy_loop (zrep 16 0) 0 s 0 16 = s) by (rewrite copy16, splice_all; done).
  unfold aes_decrypt_block, inv_cipher. cbv zeta. rewrite E.
  generalize (add_round_key (inv_sub_bytes (inv_shift_rows
    (for_range 0 (AES_256_NR - 1) (fun k => decrypt_round rk (AES_256_NR - 1 - k))
      (add_round_key s rk (AES_256_NR * 16))))) rk 0).
  intros c Hc. by apply copy16.
Qed.

(** ** Key schedule *)
Lemma Rcon_ok : bytes_ok Rcon.
Proof. apply bytes_okb_ok. reflexivity. Qed.

Lemma expand_word_ok i rk : bytes_ok rk -> bytes_ok (expand_word i rk).
Proof.
  intros Hr. unfold expand_word.
  pose proof (fun k => aget_byte rk k Hr) as Hg. pose proof (fun b H => proj2 (sbox_inv b H)) as Hs.
  set (q := if _ =? 0 then _ else _).
  assert (Hq : byte_ok q.1.1.1 /\ byte_ok q.1.1.2 /\ byte_ok q.1.2 /\ byte_ok q.2).
  { unfold q. repeat destr_if; cbn [fst snd]; split_and!; try apply byte_lxor; auto using aget_byte, Rcon_ok. }
  destruct q as [[[t0 t1] t2] t3]. cbn [fst snd] in Hq. destruct Hq as (? & ? & ? & ?). cbv zeta.
  repeat (apply aset_byte || apply byte_lxor || apply aget_byte); done.
Qed.

Lemma aes_key_expand_ok rk key : bytes_ok rk -> bytes_ok key -> bytes_ok (aes_key_expand rk key).
Proof.
  intros Hr Hk. unfold aes_key_expand.
  apply (for_range_ind (fun _ rk => bytes_ok rk) 8); [done | | intros; by apply expand_word_ok].
  apply (for_range_ind (fun _ rk => bytes_ok rk) 0); [done | done |].
  intros i s _ Hs. unfold copy_word. cbv zeta. repeat (apply aset_byte || apply aget_byte); done.
Qed.

(** ** XTS *)
Lemma xor_loop (input t : list Z) o : 0 <= o -> o + 16 <= zlen input -> zlen t = 16 ->
  for_range 0 16 (fun j b => aset b j (Z.lxor input.[o + j] t.[j])) (zrep 16 0) =
  xor_bytes (sub_bytes input o 16) t.
Proof.
  intros Ho Hi Ht. rewrite (fill_loop_spec (fun j => Z.lxor input.[o + j] t.[j])) by (rewrite ?zlen_rep; lia).
  rewrite splice_all by (rewrite zlen_map_seqZ by lia; done).
  assert (zlen (sub_bytes input o 16) = 16) by (apply zlen_sub; lia).
  apply (array_ext 0); [rewrite zlen_map_seqZ, xor_len; lia|].
  intros i Hr. rewrite zlen_map_seqZ in Hr by lia.
  rewrite aget_map_seqZ, aget_xor, aget_sub by lia. done.
Qed.

Lemma store_xor_loop (out b t : list Z) o : 0 <= o -> o + 16 <= zlen out -> zlen b = 16 -> zlen t = 16 ->
  for_range 0 16 (fun j out => aset out (o + j) (Z.lxor b.[j] t.[j])) out = splice out o (xor_bytes b t).
Proof.
  intros Ho Hf Hb Ht. destruct (store_loop_spec (fun j => Z.lxor b.[j] t.[j]) out o 16) as [Hl Hg]; [lia..|].
  assert (zlen (xor_bytes b t) = 16) by (rewrite xor_len; lia).
  apply (array_ext 0); [rewrite Hl, zlen_splice; lia|].
  intros i Hi. rewrite Hg, aget_splice by lia. replace (o + zlen (xor_bytes b t)) with (o + 16) by lia.
  destr_if; [|done]. bools. rewrite aget_xor by lia. done.
Qed.

(** What XTS does to one 16-byte block under tweak [t]. *)
Definition xts_block (f : list Z -> list Z) (t p : list Z) : list Z := xor_bytes (f (xor_bytes p t)) t.

Definition dir (rk : list Z) (encrypt : bool) : list Z -> list Z :=
  if encrypt then cipher rk else inv_cipher rk.

Lemma dir_true rk s : dir rk true s = cipher rk s.
Proof. reflexivity. Qed.

Lemma dir_false rk s : dir rk false s = inv_cipher rk s.
Proof. reflexivity. Qed.

Lemma dir_len rk e s : bytes_ok rk -> (e = true -> bytes_ok s) -> zlen s = 16 -> zlen (dir rk e s) = 16.
Proof.
  intros Hr He Hl. destruct e.
  - rewrite dir_true. by apply cipher_ok; [|split; [|apply He]].
  - rewrite dir_false. by apply inv_cipher_len.
Qed.

Lemma encrypt_self rk b : bytes_ok rk -> st_ok b -> aes_encrypt_block rk b b = cipher rk b.
Proof.
  intros Hr Hs. pose proof (cipher_ok rk b Hr Hs) as [Hc _]. destruct Hs as [Hl Hb].
  rewrite encrypt_block_eq by (done || lia). apply splice_all. lia.
Qed.

Lemma decrypt_self rk b : zlen b = 16 -> aes_decrypt_block rk b b = inv_cipher rk b.
Proof.
  intros Hl. pose proof (inv_cipher_len rk b Hl) as Hc.
  rewrite decrypt_block_eq by lia. apply splice_all. lia.
Qed.

Lemma dir_block rk e b : bytes_ok rk -> (e = true -> bytes_ok b) -> zlen b = 16 ->
  (if e then aes_encrypt_block rk b b else aes_decrypt_block rk b b) = dir rk e b.
Proof.
  intros Hr He Hb. destruct e.
  - rewrite dir_true, encrypt_self by (done || (split; auto)). reflexivity.
  - rewrite dir_false, decrypt_self by done. reflexivity.
Qed.

Lemma xts_step_spec rk input e i out t : bytes_ok rk -> (e = true -> bytes_ok input) -> st_ok t ->
  0 <= i -> i * 16 + 16 <= zlen input -> i * 16 + 16 <= zlen out ->
  xts_step rk input e i (out, t) =
  (splice out (i * 16) (xts_block (dir rk e) t (sub_bytes input (i * 16) 16)), gf_mulx t).
Proof.
  intros Hr He [Ht Htb] Hi Hin Hout. unfold xts_step, xts_block. rewrite xor_loop by lia.
  assert (Hs : zlen (sub_bytes input (i * 16) 16) = 16) by (apply zlen_sub; lia).
  assert (Hb : zlen (xor_bytes (sub_bytes input (i * 16) 16) t) = 16) by (rewrite xor_len; lia).
  assert (Hbb : e = true -> bytes_ok (xor_bytes (sub_bytes input (i * 16) 16) t)).
  { intros Et. apply xor_bytes_ok; [|done]. apply Forall_sub_bytes, He, Et. }
  generalize dependent (xor_bytes (sub_bytes input (i * 16) 16) t). intros b Hb Hbb.
  rewrite dir_block by done. pose proof (dir_len rk e b Hr Hbb Hb) as Hd.
  generalize dependent (dir rk e b). intros d Hd. by rewrite store_xor_loop by lia.
Qed.

Lemma gf_mulx_ok t : st_ok t -> st_ok (gf_mulx t).
Proof.
  intros [Hl Hb]. unfold gf_mulx.
  pose proof (for_range_ind (fun _ (tc : list Z * Z) => zlen tc.1 = 16 /\ bytes_ok tc.1) 0 16 (fun i tc =>
      let new_carry := u8 (Z.shiftr tc.1.[i] 7) in
      (aset tc.1 i (u8 (Z.lor (Z.shiftl tc.1.[i] 1) tc.2)), new_carry)) (t, 0)) as H.
  destruct (for_range _ _ _ (t, 0)) as [t' c]. cbn [fst snd] in H. destruct H as [Hl' Hb']; [lia | done | |].
  { intros i s _ [H1 H2]. cbn [fst snd]. rewrite zlen_aset. split; [done | apply aset_byte; [done | apply u8_range]]. }
  destr_if; [|done]. split; [by rewrite zlen_aset|]. apply aset_byte; [done|].
  apply byte_lxor; [by apply aget_byte | unfold byte_ok; lia].
Qed.

(** Doubling in GF(2^128) modulo x^128 + x^7 + x^2 + x + 1, on numbers. *)
Definition gf_double (x : Z) : Z := if x <? 2 ^ 127 then 2 * x else Z.lxor (2 * x - 2 ^ 128) 0x87.

Lemma le_val_snoc l b : le_val (l ++ [b]) = le_val l + b * 256 ^ zlen l.
Proof.
  induction l as [|a l IH]; [change (zlen (@nil Z)) with 0; cbn [le_val app]; lia|].
  cbn [app le_val]. rewrite IH, zlen_cons, (Z.pow_add_r 256 1) by (pose proof (zlen_nonneg l); lia). lia.
Qed.

Lemma ztake_snoc (l : list Z) i : 0 <= i < zlen l -> ztake (i + 1) l = ztake i l ++ [l.[i]].
Proof.
  intros Hi. unfold ztake, aget, zlen in *. destruct (lookup_lt_is_Some_2 l (Z.to_nat i)) as [x E]; [lia|].
  rewrite E. replace (Z.to_nat (i + 1)) with (S (Z.to_nat i)) by lia. by rewrite (take_S_r _ _ x).
Qed.

Lemma ztake_aset_same (l : list Z) i v : 0 <= i -> ztake i (aset l i v) = ztake i l.
Proof. intros. unfold ztake, aset. rewrite take_insert_ge by lia. done. Qed.

(** The shifted byte with the carry of the byte before. *)
Lemma shift_byte b c : byte_ok b -> 0 <= c <= 1 ->
  u8 (Z.lor (Z.shiftl b 1) c) + 256 * u8 (Z.shiftr b 7) = 2 * b + c /\ 0 <= u8 (Z.shiftr b 7) <= 1.
Proof.
  intros Hb Hc. unfold byte_ok in Hb. rewrite Z.lor_comm, lor_shiftl_add by lia.
  rewrite Z.shiftr_div_pow2 by lia. unfold u8. change (2 ^ 8) with 256. change (2 ^ 1) with 2. change (2 ^ 7) with 128.
  split; Z.to_euclidean_division_equations; lia.
Qed.

Lemma shift_loop t : st_ok t ->
  let '(r, c) := for_range 0 16 (fun i tc =>
      let new_carry := u8 (Z.shiftr tc.1.[i] 7) in
      (aset tc.1 i (u8 (Z.lor (Z.shiftl tc.1.[i] 1) tc.2)), new_carry)) (t, 0) in
  zlen r = 16 /\ bytes_ok r /\ 0 <= c <= 1 /\ le_val r + c * 256 ^ 16 = 2 * le_val t.
Proof.
  intros [Hl Hb].
  pose proof (for_range_ind (fun i (tc : list Z * Z) => zlen tc.1 = 16 /\ bytes_ok tc.1 /\ 0 <= tc.2 <= 1 /\
    (forall k, i <= k -> tc.1.[k] = t.[k]) /\
    le_val (ztake i tc.1) + tc.2 * 256 ^ i = 2 * le_val (ztake i t)) 0 16 (fun i tc =>
      let new_carry := u8 (Z.shiftr tc.1.[i] 7) in
      (aset tc.1 i (u8 (Z.lor (Z.shiftl tc.1.[i] 1) tc.2)), new_carry)) (t, 0)) as H.
  destruct (for_range _ _ _ (t, 0)) as [r c]. cbn [fst snd] in H. destruct H as (H1 & H0 & H2 & _ & H3); [lia | done | |].
  - intros i [r' c'] Hi (H1 & H0 & H2 & H3 & H4). cbn [fst snd] in *. rewrite (H3 i) by lia.
    destruct (shift_byte t.[i] c' (aget_byte _ _ Hb) H2) as [Es Hc]. set (b := u8 (Z.lor _ _)) in *. set (d := u8 (Z.shiftr _ _)) in *.
    split; [by rewrite zlen_aset|]. split; [by apply aset_byte, u8_range|]. split; [done|]. split.
    + intros k Hk. rewrite aget_aset_ne by lia. apply H3. lia.
    + rewrite !ztake_snoc by (rewrite ?zlen_aset; lia). rewrite aget_aset_eq, ztake_aset_same by lia.
      rewrite !le_val_snoc, !zlen_take, Z.min_l, Z.min_l, Z.pow_add_r by lia. nia.
  - do 3 (split; [done|]). by rewrite !ztake_all in H3 by lia.
Qed.

Lemma le_val_lxor l : 0 < zlen l -> bytes_ok l -> le_val (aset l 0 (Z.lxor l.[0] 0x87)) = Z.lxor (le_val l) 0x87.
Proof.
  intros Hl Hb. destruct l as [|b l]; [done|]. inversion Hb as [|? ? H1 H2]; subst.
  change (le_val (aset (b :: l) 0 (Z.lxor (b :: l).[0] 0x87))) with (Z.lxor b 0x87 + 256 * le_val l).
  change (le_val (b :: l)) with (b + 256 * le_val l).
  pose proof (le_val_range l H2) as Hr. assert (Hx : byte_ok (Z.lxor b 0x87)) by (apply byte_lxor; [done | unfold byte_ok; lia]).
  replace (256 * le_val l) with (le_val l * 2 ^ 8) by lia. unfold byte_ok in *. rewrite <- !lor_shiftl_add by lia.
  apply Z.bits_inj'. intros k Hk. rewrite Z.lxor_spec, !Z.lor_spec, Z.lxor_spec, !Z.shiftl_spec by lia.
  destruct (Z.lt_ge_cases k 8).
  - rewrite (Z.testbit_neg_r _ (k - 8)) by lia. by rewrite !orb_false_r.
  - assert (G : forall z, 0 <= z < 256 -> Z.testbit z k = false).
    { intros z Hz. apply Z.bits_above_log2; [lia|]. destruct (Z.eq_dec z 0) as [->|]; [cbn; lia|].
      enough (Z.log2 z < 8) by lia. apply Z.log2_lt_pow2; lia. }
    rewrite (G b), (G 0x87) by lia. cbn. by rewrite xorb_false_r.
Qed.

(** The byte-wise doubling is the doubling of the field. *)
Lemma gf_mulx_double t : st_ok t -> le_val (gf_mulx t) = gf_double (le_val t).
Proof.
  intros Ht. pose proof (shift_loop t Ht) as H. unfold gf_mulx, gf_double.
  destruct (for_range _ _ _ (t, 0)) as [r c]. destruct H as (H1 & H0 & H2 & H3).
  pose proof (le_val_range r H0) as Hr. rewrite H1 in Hr. change (256 ^ 16) with (2 ^ 128) in *.
  destruct (Z.eqb_spec c 0) as [->|Hc]; cbn [negb].
  - replace (_ <? _) with true by lia. lia.
  - rewrite le_val_lxor by (done || lia). replace (_ <? _) with false by lia. f_equal. lia.
Qed.

Lemma gf_double_range x : 0 <= x < 2 ^ 128 -> 0 <= gf_double x < 2 ^ 128.
Proof.
  intros Hx. pose proof (gf_mulx_double (le_bytes 16 x)) as E.
  assert (Hs : st_ok (le_bytes 16 x)) by (split; [apply zlen_le_bytes | apply le_bytes_ok]).
  rewrite le_val_bytes in E by exact Hx. rewrite <- (E Hs). destruct (gf_mulx_ok _ Hs) as [Hl Hb].
  pose proof (le_val_range _ Hb) as Hr. by rewrite Hl in Hr.
Qed.

(** The tweak of the i-th unit of a block. *)
Definition tweak_at (t : list Z) (i : Z) : list Z := le_bytes 16 (Nat.iter (Z.to_nat i) gf_double (le_val t)).

Lemma tweak_range t i : st_ok t -> 0 <= Nat.iter i gf_double (le_val t) < 2 ^ 128.
Proof.
  intros [Hl Hb]. induction i as [|i IH]; [|by apply gf_double_range].
  pose proof (le_val_range t Hb) as Hr. by rewrite Hl in Hr.
Qed.

Lemma tweak_at_ok t i : st_ok (tweak_at t i).
Proof. split; [apply zlen_le_bytes | apply le_bytes_ok]. Qed.

Lemma st_ok_val t : st_ok t -> le_bytes 16 (le_val t) = t.
Proof.
  intros [Hl Hb]. rewrite <- (le_bytes_val t Hb) at 2. f_equal. unfold zlen in Hl. lia.
Qed.

Lemma tweak_at_0 t : st_ok t -> tweak_at t 0 = t.
Proof. apply st_ok_val. Qed.

Lemma tweak_at_S t i : st_ok t -> 0 <= i -> tweak_at t (i + 1) = gf_mulx (tweak_at t i).
Proof.
  intros Ht Hi. rewrite <- (st_ok_val (gf_mulx (tweak_at t i))) by apply gf_mulx_ok, tweak_at_ok.
  rewrite gf_mulx_double by apply tweak_at_ok. unfold tweak_at.
  rewrite le_val_bytes by (apply (tweak_range t _ Ht)). by replace (Z.to_nat (i + 1)) with (S (Z.to_nat i)) by lia.
Qed.

Lemma xts_block_len rk e t p : bytes_ok rk -> (e = true -> bytes_ok p) -> st_ok t -> zlen p = 16 ->
  zlen (xts_block (dir rk e) t p) = 16.
Proof.
  intros Hr He [Ht Htb] Hp. unfold xts_block.
  assert (Hd : zlen (dir rk e (xor_bytes p t)) = 16).
  { apply dir_len; [done | | rewrite xor_len; lia]. intros Et. apply xor_bytes_ok; auto. }
  rewrite xor_len; lia.
Qed.

(** The loop computes the concatenation of the transformed blocks. *)
Lemma xts_loop rk input e n out t : bytes_ok rk -> (e = true -> bytes_ok input) -> st_ok t ->
  0 <= n -> zlen input = 16 * n -> zlen out = 16 * n ->
  (for_range 0 n (xts_step rk input e) (out, t)).1 =
  concat (map (fun i => xts_block (dir rk e) (tweak_at t i) (sub_bytes input (16 * i) 16)) (seqZ 0 n)).
Proof.
  intros Hr He Ht Hn Hin Hout.
  set (blk := fun i => xts_block (dir rk e) (tweak_at t i) (sub_bytes input (16 * i) 16)).
  assert (Hlen : forall i, 0 <= i < n -> zlen (blk i) = 16).
  { intros i Hi. apply xts_block_len; [done | | by apply tweak_at_ok | apply zlen_sub; lia].
    intros Et. apply Forall_sub_bytes. exact (He Et). }
  assert (Hc : forall k, 0 <= k <= n -> zlen (concat (map blk (seqZ 0 k))) = 16 * k).
  { intros k Hk. rewrite (zlen_concat _ 16); [by rewrite zlen_map_seqZ by lia|].
    apply Forall_fmap, Forall_forall. intros i Hi%elem_of_seqZ. apply Hlen. lia. }
  pose proof (for_range_ind (fun i (ot : list Z * list Z) =>
    ot = (splice out 0 (concat (map blk (seqZ 0 i))), tweak_at t i)) 0 n (xts_step rk input e) (out, t)) as H.
  rewrite H; [|lia| |].
  - cbn [fst]. apply splice_all. rewrite Hc; lia.
  - by rewrite tweak_at_0.
  - intros i ot Hi ->.
    rewrite xts_step_spec by (first [exact Hr | exact He | apply tweak_at_ok | lia
      | rewrite zlen_splice; rewrite ?Hc; lia]).
    rewrite tweak_at_S by (done || lia). f_equal. rewrite seqZ_snoc, map_app, concat_app by lia. cbn [map concat].
    rewrite app_nil_r, Z.add_0_l, <- splice_app, Hc by (rewrite ?Hc, ?Hlen by lia; lia).
    f_equal; [lia|]. unfold blk. do 2 f_equal. lia.
Qed.
#[local] Opaque cipher inv_cipher.

Lemma xts_block_inv rk t p : bytes_ok rk -> st_ok t -> st_ok p ->
  xts_block (dir rk false) t (xts_block (dir rk true) t p) = p /\ bytes_ok (xts_block (dir rk true) t p).
Proof.
  intros Hr [Ht Htb] [Hp Hpb]. unfold xts_block. rewrite dir_true, dir_false.
  assert (Hs : st_ok (xor_bytes p t)) by (split; [rewrite xor_len; lia | by apply xor_bytes_ok]).
  pose proof (cipher_ok rk _ Hr Hs) as [Hc Hcb]. pose proof (cipher_inv rk _ Hr Hs) as Hi.
  generalize dependent (cipher rk (xor_bytes p t)). intros c Hc Hcb Hi.
  rewrite (xor_involutive c t) by (unfold zlen in *; lia). rewrite Hi.
  split; [apply xor_involutive; unfold zlen in *; lia | exact (xor_bytes_ok c t Hcb Htb)].
Qed.

Lemma zero_tweak_ok t : zlen t = 16 -> bytes_ok t -> st_ok (for_range 0 16 (fun i t => aset t i 0) t).
Proof.
  intros Hl Hb. apply (for_range_ind (fun _ t => st_ok t) 0 16); [lia | split; [exact Hl | exact Hb] |].
  intros i s _ [Hl' Hb']. split; [rewrite zlen_aset; exact Hl' | apply aset_byte; [exact Hb' | apply byte0]].
Qed.

Lemma set_block_ok t n : zlen t = 16 -> bytes_ok t -> st_ok (set_block_number t n).
Proof.
  intros Hl Hb. pose proof (zero_tweak_ok t Hl Hb) as H0. unfold set_block_number. cbv zeta.
  revert H0. generalize (for_range 0 16 (fun i t => aset t i 0) t). intros t0 H0.
  apply (for_range_ind (fun _ tb => st_ok tb.1) 0 4); [lia | exact H0 |].
  intros i tb _ [Hl' Hb']. split; cbn [fst];
    [rewrite zlen_aset; exact Hl' | apply aset_byte; [exact Hb' | apply u8_range]].
Qed.

Lemma block_tweak_ok tk n : bytes_ok tk -> st_ok (cipher tk (set_block_number (zrep 16 0) n)) /\
  aes_encrypt_block tk (set_block_number (zrep 16 0) n) (set_block_number (zrep 16 0) n) =
    cipher tk (set_block_number (zrep 16 0) n).
Proof.
  intros Hk. assert (Hs : st_ok (set_block_number (zrep 16 0) n)).
  { apply set_block_ok; [reflexivity | apply zrep_ok, byte0]. }
  generalize dependent (set_block_number (zrep 16 0) n). intros t Ht.
  exact (conj (cipher_ok tk t Hk Ht) (encrypt_self tk t Hk Ht)).
Qed.

Section xts.
Context (dk tk : list Z) (Hdk : bytes_ok dk) (Htk : bytes_ok tk).

Definition block_tweak (n : Z) : list Z := cipher tk (set_block_number (zrep 16 0) n).

(** The XTS encryption of a 4096-byte block. *)
Definition xts_encrypt (n : Z) (p : list Z) : list Z :=
  concat (map (fun i => xts_block (dir dk true) (tweak_at (block_tweak n) i) (sub_bytes p (16 * i) 16)) (seqZ 0 256)).

Lemma xts_crypt_encrypt n p o : zlen p = 4096 -> bytes_ok p -> zlen o = 4096 ->
  xts_crypt 4096 dk tk n p o true = xts_encrypt n p.
Proof.
  intros Hp Hb Ho. unfold xts_crypt. destruct (block_tweak_ok tk n Htk) as [Hok ->].
  change (4096 / AES_BLOCKLEN) with 256. by apply (xts_loop dk p true 256 o).
Qed.

Lemma xts_encrypt_pieces n p : zlen p = 4096 -> bytes_ok p ->
  Forall (fun l => zlen l = 16 /\ bytes_ok l)
    (map (fun i => xts_block (dir dk true) (tweak_at (block_tweak n) i) (sub_bytes p (16 * i) 16)) (seqZ 0 256)).
Proof.
  intros Hp Hb. destruct (block_tweak_ok tk n Htk) as [Hok _].
  apply Forall_fmap, Forall_forall. intros i Hi%elem_of_seqZ.
  assert (Hs : st_ok (sub_bytes p (16 * i) 16)) by (split; [apply zlen_sub; lia | by apply Forall_sub_bytes]).
  pose proof (tweak_at_ok (block_tweak n) i) as Ht. split.
  - apply (xts_block_len dk true); [done | intros _; apply Hs | done | apply Hs].
  - apply (xts_block_inv dk _ _ Hdk Ht Hs).
Qed.

Lemma xts_encrypt_len n p : zlen p = 4096 -> bytes_ok p -> zlen (xts_encrypt n p) = 4096.
Proof.
  intros Hp Hb. unfold xts_encrypt. rewrite (zlen_concat _ 16); [done|].
  eapply Forall_impl; [apply xts_encrypt_pieces; done|]. by intros l [? _].
Qed.

Lemma xts_crypt_decrypt n p o : zlen p = 4096 -> bytes_ok p -> zlen o = 4096 ->
  xts_crypt 4096 dk tk n (xts_encrypt n p) o false = p.
Proof.
  intros Hp Hb Ho. pose proof (xts_encrypt_len n p Hp Hb) as Hl. unfold xts_crypt.
  destruct (block_tweak_ok tk n Htk) as [Hok ->]. change (4096 / AES_BLOCKLEN) with 256.
  rewrite (xts_loop dk (xts_encrypt n p) false 256 o) by done.
  transitivity (concat (map (fun i => sub_bytes p (16 * i) 16) (seqZ 0 256))).
  2: { symmetry. apply split_pieces; [lia | lia | exact Hp]. }
  apply (f_equal (@concat Z)). apply map_ext_in.
  intros i Hi%list_elem_of_In%elem_of_seqZ. unfold xts_encrypt. rewrite sub_concat; [|lia| |].
  - set (f := fun i => _).
    assert (E : aget [] (map f (seqZ 0 256)) i = f i).
    { unfold aget. rewrite list_lookup_fmap, lookup_seqZ_lt by lia. simpl. f_equal. lia. }
    rewrite E. unfold f. fold (block_tweak n).
    apply xts_block_inv; [done | by apply tweak_at_ok |].
    split; [apply zlen_sub; lia | by apply Forall_sub_bytes].
  - eapply Forall_impl; [apply xts_encrypt_pieces; done|]. by intros l [? _].
  - rewrite zlen_map_seqZ; lia.
Qed.
End xts.

Lemma crypt_init_inv {W} mem_ok (lower : option (block_device W)) k1 k2 c dev :
  crypt_init mem_ok lower k1 k2 = Some (c, dev) ->
  exists l a b, lower = Some l /\ k1 = Some a /\ k2 = Some b /\ dev_block_size l = 4096 /\
    c = mkCrypt 4096 (dev_block_count l) (Some l)
          (aes_key_expand (zrep 240 0) a) (aes_key_expand (zrep 240 0) b) /\
    dev = mkDev "crypt" 4096 (dev_block_count l) (Some (crypt_ops c)).
Proof.
  unfold crypt_init. destruct lower as [l|], k1 as [a|], k2 as [b|]; try done.
  destruct (Z.eqb_spec (dev_block_size l) CRYPT_MAX_BLOCK_SIZE) as [E|]; [|done].
  destruct mem_ok; [|done]. cbn [negb]. intros H. injection H as <- <-. rewrite E.
  by exists l, a, b.
Qed.

Section device.
Context {W : Type} (l : block_device W) `{!DiskSpec l} (dk tk : list Z).
Context (Hbs : dev_block_size l = 4096) (Hdk : bytes_ok dk) (Htk : bytes_ok tk).

Local Abbreviation c := (mkCrypt 4096 (dev_block_count l) (Some l) dk tk).
Local Abbreviation zeros := (zrep 4096 0).

Lemma crypt_write_spec n data w : disk_inv w -> 0 <= n -> zlen data = 4096 -> bytes_ok data ->
  let '(rc, (sc, w')) := crypt_write_block c n data (zeros, w) in
  sc = zeros /\ disk_inv w' /\ (forall m, 0 <= m -> m <> n -> disk_view w' m = disk_view w m) /\
  (rc = 0 -> disk_view w' n = xts_encrypt dk tk n data) /\
  (ReliableDisk l -> n < dev_block_count l -> rc = 0).
Proof.
  intros Hw Hn Hd Hb. unfold crypt_write_block. cbn [c_block_size c_data_ctx c_tweak_ctx c_lower fst snd].
  change (negb (4096 =? CRYPT_MAX_BLOCK_SIZE)) with false. cbv iota.
  rewrite xts_crypt_encrypt by done. pose proof (xts_encrypt_len dk tk Hdk Htk n data Hd Hb) as Hx.
  generalize dependent (xts_encrypt dk tk n data). intros x Hx.
  pose proof (disk_write w n x Hw Hn ltac:(lia)) as H.
  assert (Hr : ReliableDisk l -> n < dev_block_count l -> (block_device_write (Some l) n x w).1 = 0).
  { intros R Hc. apply reliable_write; [done | lia | lia]. }
  destruct (block_device_write (Some l) n x w) as [rc w']. cbn [fst] in Hr.
  destruct H as (Hi & Hm & H0 & _). rewrite secure_clear_all by done. split_and!; try done.
  intros E. by apply H0.
Qed.

Lemma crypt_read_spec n data buf w : disk_inv w -> 0 <= n -> zlen data = 4096 -> bytes_ok data ->
  zlen buf = 4096 -> disk_view w n = xts_encrypt dk tk n data ->
  let '(rc, buf', (sc, w')) := crypt_read_block c n buf (zeros, w) in
  sc = zeros /\ disk_inv w' /\ disk_view w' = disk_view w /\
  (rc = 0 -> buf' = data) /\ (rc <> 0 -> buf' = buf) /\
  (ReliableDisk l -> n < dev_block_count l -> rc = 0).
Proof.
  intros Hw Hn Hd Hb Hbuf Hv. unfold crypt_read_block. cbn [c_block_size c_data_ctx c_tweak_ctx c_lower fst snd].
  change (negb (4096 =? CRYPT_MAX_BLOCK_SIZE)) with false. cbv iota.
  pose proof (disk_read w n zeros Hw Hn ltac:(done)) as H.
  assert (Hr : ReliableDisk l -> n < dev_block_count l -> (block_device_read (Some l) n zeros w).1.1 = 0).
  { intros R Hc. apply reliable_read; [done | lia | done]. }
  destruct (block_device_read (Some l) n zeros w) as [[rc t] w']. cbn [fst] in Hr.
  destruct H as (Hi & Hl & Hm & H0). change (zlen zeros) with 4096 in Hl.
  unfold CRYPT_MAX_BLOCK_SIZE. rewrite !secure_clear_all by done.
  destruct (Z.eqb_spec rc 0) as [->|]; cbn [negb].
  - destruct (H0 eq_refl) as [_ ->]. rewrite Hv, xts_crypt_decrypt by done.
    split_and!; done.
  - split_and!; try done. intros R Hc. by specialize (Hr R Hc).
Qed.
End device.

(** ** Properties *)

(** C31. The AES-256 routines are inverse to each other on every block under every
    round-key schedule of bytes: decrypting what [aes_encrypt_block] wrote gives
    the 16 input bytes back, whatever the output buffers held. *)
Theorem aes_decrypt_encrypt rk key input o1 o2 : bytes_ok rk -> bytes_ok key -> st_ok input ->
  zlen o1 = 16 -> zlen o2 = 16 ->
  let ctx := aes_key_expand rk key in
  aes_decrypt_block ctx (aes_encrypt_block ctx input o1) o2 = input.
Proof.
  intros Hr Hk Hi H1 H2 ctx. assert (Hc : bytes_ok ctx) by (by apply aes_key_expand_ok).
  clearbody ctx. pose proof (cipher_ok ctx input Hc Hi) as [Hl _].
  rewrite encrypt_block_eq by (done || lia). rewrite splice_all by lia.
  rewrite decrypt_block_eq by lia. rewrite cipher_inv by done. apply splice_all. destruct Hi. lia.
Qed.

(** The published example of FIPS 197, appendix C.3. *)
Definition fips197_key : list Z := seqZ 0 32.
Definition fips197_plain : list Z := map (fun i => 17 * i) (seqZ 0 16).

Example aes256_fips197 :
  aes_encrypt_block (aes_key_expand (zrep 240 0) fips197_key) fips197_plain (zrep 16 0) =
  [0x8e;0xa2;0xb7;0xca;0x51;0x67;0x45;0xbf;0xea;0xfc;0x49;0x90;0x4b;0x49;0x60;0x89].
Proof. vm_compute. reflexivity. Qed.

Lemma aes_decrypt_encrypt_witness :
  aes_decrypt_block (aes_key_expand (zrep 240 0) fips197_key)
    (aes_encrypt_block (aes_key_expand (zrep 240 0) fips197_key) fips197_plain (zrep 16 0)) (zrep 16 7) =
  fips197_plain.
Proof.
  refine (aes_decrypt_encrypt (zrep 240 0) fips197_key fips197_plain (zrep 16 0) (zrep 16 7) _ _ _ _ _).
  - apply bytes_okb_ok. reflexivity.
  - apply bytes_okb_ok. reflexivity.
  - split; [reflexivity | apply bytes_okb_ok; reflexivity].
  - reflexivity.
  - reflexivity.
Defined.

(** C18. The encrypting device is transparent and confined, over any lower device
    that meets the block interface and may fail: a write through it leaves the
    other blocks of the lower device unchanged and, when it returns 0, has stored
    the AES-XTS ciphertext of the block; a read after it returns the data that was
    written, or fails and leaves the caller's buffer unchanged; over a reliable
    lower device both return 0; and the scratch buffer is all zero after each. *)
Theorem crypt_device_write_read {W} (l : block_device W) `{!DiskSpec l} mem_ok k1 k2 c dev w n data buf :
  crypt_init mem_ok (Some l) (Some k1) (Some k2) = Some (c, dev) -> bytes_ok k1 -> bytes_ok k2 ->
  disk_inv w -> 0 <= n < dev_block_count l -> zlen data = 4096 -> bytes_ok data -> zlen buf = 4096 ->
  let '(rc, (sc, w1)) := block_device_write (Some dev) n data (zrep 4096 0, w) in
  sc = zrep 4096 0 /\ disk_inv w1 /\
  (forall m, 0 <= m -> m <> n -> disk_view w1 m = disk_view w m) /\
  (ReliableDisk l -> rc = 0) /\
  (rc = 0 -> disk_view w1 n = xts_encrypt (c_data_ctx c) (c_tweak_ctx c) n data /\
    let '(rc2, buf', (sc2, w2)) := block_device_read (Some dev) n buf (sc, w1) in
    sc2 = zrep 4096 0 /\ disk_view w2 = disk_view w1 /\
    (rc2 = 0 -> buf' = data) /\ (rc2 <> 0 -> buf' = buf) /\ (ReliableDisk l -> rc2 = 0)).
Proof.
  intros Hi H1 H2 Hw Hn Hd Hb Hbuf.
  destruct (crypt_init_inv _ _ _ _ _ _ Hi) as (l' & a & b & E1 & E2 & E3 & Hbs & -> & ->).
  injection E1 as <-. injection E2 as <-. injection E3 as <-. clear Hi. cbn [c_data_ctx c_tweak_ctx].
  assert (Hz : bytes_ok (zrep 240 0)) by (apply zrep_ok, byte0).
  pose proof (aes_key_expand_ok _ _ Hz H1) as Hdk. pose proof (aes_key_expand_ok _ _ Hz H2) as Htk.
  generalize dependent (aes_key_expand (zrep 240 0) k1). intros dk Hdk.
  generalize dependent (aes_key_expand (zrep 240 0) k2). intros tk Htk.
  unfold block_device_write, block_device_read, crypt_ops.
  cbn [dev_ops dev_block_count op_write_block_ex op_write_block op_read_block_ex op_read_block].
  replace (dev_block_count l <=? n) with false by lia.
  pose proof (crypt_write_spec l dk tk Hbs Hdk Htk n data w Hw ltac:(lia) Hd Hb) as H.
  destruct (crypt_write_block _ n data (zrep 4096 0, w)) as [rc [sc w1]].
  destruct H as (-> & Hi & Hm & H0 & Hr). split_and!; try done; [intros R; apply Hr; [done | lia]|].
  intros E. specialize (H0 E). split; [done|].
  pose proof (crypt_read_spec l dk tk Hbs Hdk Htk n data buf w1 Hi ltac:(lia) Hd Hb Hbuf H0) as H.
  destruct (crypt_read_block _ n buf (zrep 4096 0, w1)) as [[rc2 buf'] [sc2 w2]].
  destruct H as (-> & _ & Hv & Ha & Hb2 & Hr2). split_and!; try done. intros R. apply Hr2; [done | lia].
Qed.

Definition demo_lower : block_device (list (list Z)) := mem_dev 4096 2.
Definition demo_world : list (list Z) := [zrep 4096 0; zrep 4096 0].

Lemma demo_init : exists c dev,
  crypt_init true (Some demo_lower) (Some fips197_key) (Some fips197_key) = Some (c, dev).
Proof. eexists _, _. reflexivity. Qed.

Definition demo_spec : DiskSpec demo_lower :=
  mem_spec 4096 ltac:(lia) 2 ltac:(lia).

Lemma demo_reliable : ReliableDisk demo_lower (DiskSpec0 := demo_spec).
Proof. apply mem_reliable. Qed.

Lemma crypt_demo_world_ok : disk_inv (DiskSpec := demo_spec) demo_world.
Proof.
  split; [reflexivity|]. repeat apply Forall_cons_2; [| |apply Forall_nil_2]; rewrite zlen_rep; lia.
Qed.

Definition demo_data : list Z := zrep 4096 5.

Lemma demo_bytes : bytes_ok fips197_key /\ bytes_ok demo_data /\ zlen demo_data = 4096.
Proof.
  split_and!; [apply bytes_okb_ok; reflexivity | apply zrep_ok; unfold byte_ok; lia | apply zlen_rep; lia].
Qed.

Lemma demo_block : 0 <= 1 < dev_block_count demo_lower.
Proof. simpl. lia. Qed.

Lemma crypt_device_write_read_witness : exists c dev,
  crypt_init true (Some demo_lower) (Some fips197_key) (Some fips197_key) = Some (c, dev) /\
  let '(rc, (sc, w1)) := block_device_write (Some dev) 1 demo_data (zrep 4096 0, demo_world) in
  rc = 0 /\ sc = zrep 4096 0.
Proof.
  destruct demo_init as (c & dev & E). exists c, dev. split; [exact E|].
  destruct demo_bytes as (Hk & Hd & Hl).
  pose proof (crypt_device_write_read demo_lower (DiskSpec0 := demo_spec) true fips197_key fips197_key c dev
    demo_world 1 demo_data demo_data E Hk Hk crypt_demo_world_ok demo_block Hl Hd Hl) as H.
  destruct (block_device_write (Some dev) 1 demo_data (zrep 4096 0, demo_world)) as [rc [sc w1]].
  destruct H as (Hs & _ & _ & Hr & _). split; [|exact Hs].
  exact (Hr demo_reliable).
Defined.
