(* ===== verification/Journal.v ===== *)
(** * The metadata journal

    Models src/fs/journal/journal.c over the structures of
    src/include/fs/journal.h: formatting, opening, the transaction operations,
    the commit protocol, replay with and without authentication, checkpoints and
    the occupancy figures.

    The device of the journal is the section's [dev]; a step runs over the world
    of that device and the outcomes of the coming [kmalloc] calls ([true]: the
    memory is granted; an exhausted list grants every request).  Memory obtained
    from [kmalloc] starts with arbitrary contents, taken to be zero: every cell is
    written before it is used.  The journal and the transaction are live objects,
    so the tests of their pointers against NULL have no counterpart; buffers that
    are tested are [option]s.  A structure read from or written to a block goes
    through its little-endian byte image. *)
From S2P Require Import Prelude BlockDevice Sha256 Crypt.
Local Open Scope capy_scope.

Definition JOURNAL_MAGIC : Z := 0x4A524E4C.
Definition JOURNAL_VERSION : Z := 1.
Definition JOURNAL_VERSION_AUTH : Z := 2.
Definition JOURNAL_ENTRY_MAX_BLOCKS : Z := 16.
Definition JOURNAL_HMAC_TAG_SIZE : Z := 16.
Definition JOURNAL_HMAC_KEY_MAX : Z := 32.
Definition JOURNAL_ENTRY_FLAG_HMAC : Z := 1.
Definition JOURNAL_ENTRY_WRITE_META : Z := 4.
Definition JOURNAL_ENTRY_COMMIT : Z := 7.

(** The characters of "CAPYJRNL2", without the terminating zero. *)
Definition JOURNAL_HMAC_DOMAIN : list Z := [67; 65; 80; 89; 74; 82; 78; 76; 50].

Record journal_superblock := mkSb {
  sb_magic : Z;
  sb_version : Z;
  sb_block_size : Z;
  sb_block_count : Z;
  sb_head : Z;
  sb_tail : Z;
  sb_sequence : Z;
  sb_checksum : Z;
  sb_reserved : list Z }.

Record journal_entry_header := mkHdr {
  h_magic : Z;
  h_type : Z;
  h_sequence : Z;
  h_block_count : Z;
  h_data_size : Z;
  h_checksum : Z;
  h_flags : Z }.

Record journal_block_ref := mkRef { target_block : Z; r_offset : Z; r_length : Z }.

Record journal := mkJ {
  start_block : Z;
  j_block_count : Z;
  sb : journal_superblock;
  current_sequence : Z;
  dirty : bool;
  replaying : bool;
  buffer_size : Z;
  hmac_key : list Z;
  hmac_key_len : Z }.

Record journal_transaction := mkTxn {
  t_sequence : Z;
  refs : list journal_block_ref;
  ref_count : Z;
  data_buffer : option (list Z);
  data_used : Z;
  committed : bool }.

(** ** Byte images *)

(** 64 bytes; [reserved] is its 28 bytes. *)
Definition sb_bytes (s : journal_superblock) : list Z :=
  le_bytes 4 (sb_magic s) ++ le_bytes 4 (sb_version s) ++ le_bytes 4 (sb_block_size s) ++
  le_bytes 4 (sb_block_count s) ++ le_bytes 4 (sb_head s) ++ le_bytes 4 (sb_tail s) ++
  le_bytes 8 (sb_sequence s) ++ le_bytes 4 (sb_checksum s) ++ sb_reserved s.

Definition sb_size : Z := 64.

Definition field (b : list Z) (off n : Z) : Z := le_val (sub_bytes b off n).

Definition sb_of_bytes (b : list Z) : journal_superblock :=
  mkSb (field b 0 4) (field b 4 4) (field b 8 4) (field b 12 4) (field b 16 4) (field b 20 4)
    (field b 24 8) (field b 32 4) (sub_bytes b 36 28).

(** 32 bytes. *)
Definition hdr_bytes (h : journal_entry_header) : list Z :=
  le_bytes 4 (h_magic h) ++ le_bytes 4 (h_type h) ++ le_bytes 8 (h_sequence h) ++
  le_bytes 4 (h_block_count h) ++ le_bytes 4 (h_data_size h) ++ le_bytes 4 (h_checksum h) ++
  le_bytes 4 (h_flags h).

Definition hdr_size : Z := 32.

Definition hdr_of_bytes (b : list Z) : journal_entry_header :=
  mkHdr (field b 0 4) (field b 4 4) (field b 8 8) (field b 16 4) (field b 20 4) (field b 24 4)
    (field b 28 4).

(** 16 bytes. *)
Definition ref_bytes (r : journal_block_ref) : list Z :=
  le_bytes 8 (target_block r) ++ le_bytes 4 (r_offset r) ++ le_bytes 4 (r_length r).

Definition ref_size : Z := 16.

Definition ref_of_bytes (b : list Z) : journal_block_ref :=
  mkRef (field b 0 8) (field b 8 4) (field b 12 4).

Definition zero_ref : journal_block_ref := mkRef 0 0 0.

Definition refs_bytes (l : list journal_block_ref) : list Z := concat (map ref_bytes l).

(** ** Checksums and tags *)
Definition journal_zero_bytes (buf : list Z) (len : Z) : list Z :=
  for_range 0 len (fun i b => aset b i 0) buf.

Definition journal_constant_time_eq (a b : list Z) (len : Z) : bool :=
  for_range 0 len (fun i diff => Z.lor diff (u8 (Z.lxor a.[i] b.[i]))) 0 =? 0.

Definition crc_bit (crc : Z) : Z :=
  Z.lxor (Z.shiftr crc 1) (Z.land 0xEDB88320 (u32 (- Z.land crc 1))).

Definition journal_crc32 (data : list Z) (len : Z) : Z :=
  let crc := for_range 0 len (fun i crc =>
      for_range 0 8 (fun _ => crc_bit) (Z.lxor crc data.[i])) 0xFFFFFFFF in
  u32 (Z.lnot crc).

(** [header_buf], as its three loops append to it. *)
Definition hmac_header (sequence block_count : Z) : list Z :=
  JOURNAL_HMAC_DOMAIN ++
  map (fun i => u8 (Z.land (Z.shiftr sequence (i * 8)) 0xFF)) (seqZ 0 8) ++
  map (fun i => u8 (Z.land (Z.shiftr block_count (i * 8)) 0xFF)) (seqZ 0 4).

Definition hmac_message (sequence block_count : Z) (refs : list journal_block_ref)
    (payload : option (list Z)) (payload_len : Z) : list Z :=
  hmac_header sequence block_count ++
  ztake (block_count * ref_size) (refs_bytes refs) ++
  match payload with Some p => ztake payload_len p | None => [] end.

(** ** Steps over the device and the memory *)
Section journal.
Context {W : Type} (dev : block_device W).

Definition world : Type := W * list bool.
Definition M (A : Type) : Type := world -> A * world.

Definition ret {A} (a : A) : M A := fun w => (a, w).
Definition bind {A B} (m : M A) (k : A -> M B) : M B := fun w => let '(a, w) := m w in k a w.
#[local] Notation "'let*' x := m 'in' k" := (bind m (fun x => k)) (at level 200, x pattern, right associativity).

Definition kmalloc : M bool := fun w =>
  match w.2 with
  | [] => (true, w)
  | b :: mem => (b, (w.1, mem))
  end.

(** A fresh buffer, or [None]. *)
Definition kmalloc_buf (n : Z) : M (option (list Z)) :=
  let* ok := kmalloc in ret (if ok then Some (zrep n 0) else None).

Definition dev_read (n : Z) (buf : list Z) : M (Z * list Z) := fun w =>
  let '(rc, b, d) := block_device_read (Some dev) n buf w.1 in ((rc, b), (d, w.2)).

Definition dev_write (n : Z) (data : list Z) : M Z := fun w =>
  let '(rc, d) := block_device_write (Some dev) n data w.1 in (rc, (d, w.2)).

Local Abbreviation bs := (dev_block_size dev).

Definition journal_read_block (j : journal) (block : Z) (buf : list Z) : M (Z * list Z) :=
  dev_read (u32 (u64 (start_block j + block))) buf.

Definition journal_write_block (j : journal) (block : Z) (buf : list Z) : M Z :=
  dev_write (u32 (u64 (start_block j + block))) buf.

Definition journal_compute_hmac (j : journal) (sequence block_count : Z)
    (refs : list journal_block_ref) (payload : option (list Z)) (payload_len : Z) : M (list Z) :=
  let total := 21 + block_count * ref_size + payload_len in
  let* ok := kmalloc in
  if negb ok then ret (zrep JOURNAL_HMAC_TAG_SIZE 0) else
  let scratch := hmac_message sequence block_count refs payload payload_len in
  let mac := (crypt_hmac_sha256 (hmac_key j) (hmac_key_len j) (Some scratch) total
                (Some (zrep SHA256_DIGEST_SIZE 0))).1 in
  ret (ztake JOURNAL_HMAC_TAG_SIZE (default [] mac)).

Definition set_sb (j : journal) (s : journal_superblock) : journal :=
  mkJ (start_block j) (j_block_count j) s (current_sequence j) (dirty j) (replaying j)
    (buffer_size j) (hmac_key j) (hmac_key_len j).

Definition set_checksum (s : journal_superblock) (c : Z) : journal_superblock :=
  mkSb (sb_magic s) (sb_version s) (sb_block_size s) (sb_block_count s) (sb_head s) (sb_tail s)
    (sb_sequence s) c (sb_reserved s).

Definition set_head (j : journal) (h : Z) : journal :=
  let s := sb j in
  set_sb j (mkSb (sb_magic s) (sb_version s) (sb_block_size s) (sb_block_count s) h (sb_tail s)
    (sb_sequence s) (sb_checksum s) (sb_reserved s)).

(** [tail = head; sequence++]. *)
Definition retire (s : journal_superblock) : journal_superblock :=
  mkSb (sb_magic s) (sb_version s) (sb_block_size s) (sb_block_count s) (sb_head s) (sb_head s)
    (u64 (sb_sequence s + 1)) (sb_checksum s) (sb_reserved s).

(** The checksum covers the 32 bytes before it. *)
Definition checksummed (s : journal_superblock) : journal_superblock :=
  set_checksum s (journal_crc32 (sb_bytes s) (sb_size - 4 - 28)).

Definition set_key (j : journal) (k : list Z) (n : Z) : journal :=
  mkJ (start_block j) (j_block_count j) (sb j) (current_sequence j) (dirty j) (replaying j)
    (buffer_size j) k n.

Definition set_run (j : journal) (seq : Z) (d r : bool) : journal :=
  mkJ (start_block j) (j_block_count j) (sb j) seq d r (buffer_size j) (hmac_key j) (hmac_key_len j).

(** The superblock in a zeroed block.  [journal_replay] and [journal_checkpoint]
    copy 64 bytes without the bound on the block, which holds for any block of at
    least 64 bytes. *)
Definition sb_block (s : journal_superblock) : list Z :=
  let n := Z.min sb_size bs in memcpy_loop (zrep bs 0) 0 (sb_bytes s) 0 n.

Definition zero_area (j : journal) (zero : list Z) : M unit := fun w =>
  (tt, for_range 0 (j_block_count j) (fun i w => (journal_write_block j i zero w).2) w).

Definition journal_format_with_version (j : journal) (start block_count version : Z)
    : M (Z * journal) :=
  if block_count <? 4 then ret (-1, j) else
  let s := sb j in
  let j := mkJ start block_count
    (mkSb JOURNAL_MAGIC version bs (u32 (block_count - 1)) 0 0 1 (sb_checksum s) (sb_reserved s))
    (current_sequence j) (dirty j) (replaying j) (buffer_size j) (hmac_key j) (hmac_key_len j) in
  let* zero := kmalloc_buf bs in
  match zero with
  | None => ret (-1, j)
  | Some zero =>
      let* _ := zero_area j zero in
      let j := set_sb j (checksummed (sb j)) in
      let* sb_buf := kmalloc_buf bs in
      match sb_buf with
      | None => ret (-1, j)
      | Some _ =>
          let* r := journal_write_block j 0 (sb_block (sb j)) in
          ret (r, set_run j (sb_sequence (sb j)) false false)
      end
  end.

Definition cleared_key (j : journal) : journal :=
  set_key j (journal_zero_bytes (hmac_key j) JOURNAL_HMAC_KEY_MAX) 0.

Definition stored_key (j : journal) (key : list Z) (key_len : Z) : journal :=
  set_key j (memcpy_loop (journal_zero_bytes (hmac_key j) JOURNAL_HMAC_KEY_MAX) 0 key 0 key_len) key_len.

Definition journal_format (j : journal) (start block_count : Z) : M (Z * journal) :=
  let* (r, j) := journal_format_with_version j start block_count JOURNAL_VERSION in
  ret (r, if r =? 0 then cleared_key j else j).

Definition journal_format_authenticated (j : journal) (start block_count : Z)
    (key : option (list Z)) (key_len : Z) : M (Z * journal) :=
  match key with
  | None => ret (-1, j)
  | Some k =>
      if (key_len =? 0) || (JOURNAL_HMAC_KEY_MAX <? key_len) then ret (-1, j) else
      let* (r, j) := journal_format_with_version j start block_count JOURNAL_VERSION_AUTH in
      if negb (r =? 0) then ret (r, j) else ret (0, stored_key j k key_len)
  end.

Definition journal_set_hmac_key (j : journal) (key : option (list Z)) (key_len : Z) : Z * journal :=
  match key with
  | None => (0, cleared_key j)
  | Some k =>
      if key_len =? 0 then (0, cleared_key j) else
      if JOURNAL_HMAC_KEY_MAX <? key_len then (-1, j) else (0, stored_key j k key_len)
  end.

Definition journal_is_authenticated (j : journal) : bool :=
  (sb_version (sb j) =? JOURNAL_VERSION_AUTH) && (0 <? hmac_key_len j).

Definition journal_init (j : journal) (start block_count : Z) : M (Z * journal) :=
  let j := cleared_key (mkJ start block_count (sb j) (current_sequence j) false false
             (buffer_size j) (hmac_key j) (hmac_key_len j)) in
  let* sb_buf := kmalloc_buf bs in
  match sb_buf with
  | None => ret (-1, j)
  | Some sb_buf =>
      let* (r, sb_buf) := journal_read_block j 0 sb_buf in
      if negb (r =? 0) then ret (-1, j) else
      let j := set_sb j (sb_of_bytes sb_buf) in
      if negb (sb_magic (sb j) =? JOURNAL_MAGIC) then ret (-1, j) else
      if negb (sb_version (sb j) =? JOURNAL_VERSION) && negb (sb_version (sb j) =? JOURNAL_VERSION_AUTH)
      then ret (-1, j) else
      let j := mkJ (start_block j) (j_block_count j) (sb j) (sb_sequence (sb j)) (dirty j) (replaying j)
                 bs (hmac_key j) (hmac_key_len j) in
      let* ok := kmalloc in
      ret (if ok then 0 else -1, j)
  end.

Definition journal_needs_replay (j : journal) : bool := negb (sb_head (sb j) =? sb_tail (sb j)).

Definition journal_extract_commit_tag (commit_block : list Z) : list Z :=
  sub_bytes commit_block hdr_size JOURNAL_HMAC_TAG_SIZE.

(** The position after [pos] in the ring. *)
Definition next_pos (j : journal) (pos : Z) : Z := u32 (pos + 1) `mod` sb_block_count (sb j).

Definition ring_block (pos : Z) : Z := u32 (1 + pos).

(** ** Replay *)

(** The buffers of a replay: [buf], [commit_buf] and [staged_payload]. *)
Record replay_bufs := mkBufs { rb_buf : list Z; rb_commit : list Z; rb_staged : list Z }.

(** [refs_copy]: the first [n] references that follow the header in [buf]. *)
Definition refs_of_block (buf : list Z) (n : Z) : list journal_block_ref :=
  map (fun i => ref_of_bytes (sub_bytes buf (hdr_size + i * ref_size) ref_size)) (seqZ 0 n).

(** The legacy path: each data block goes to its target as soon as it is read.
    [inr] is the early end of the loop. *)
Definition legacy_step (j : journal) (refs : list journal_block_ref) (b : Z) (data_pos : Z) : M (Z + Z) :=
  if data_pos =? sb_head (sb j) then ret (inr data_pos) else
  let* data_buf := kmalloc_buf bs in
  match data_buf with
  | None => ret (inr data_pos)
  | Some data_buf =>
      let* (r, data_buf) := journal_read_block j (ring_block data_pos) data_buf in
      let* _ := if r =? 0 then dev_write (u32 (target_block (nth (Z.to_nat b) refs zero_ref))) data_buf
                else ret 0 in
      ret (inl (next_pos j data_pos))
  end.

Fixpoint legacy_loop (n : nat) (j : journal) (refs : list journal_block_ref) (b data_pos : Z) : M Z :=
  match n with
  | O => ret data_pos
  | S n =>
      let* r := legacy_step j refs b data_pos in
      match r with
      | inl data_pos => legacy_loop n j refs (b + 1) data_pos
      | inr data_pos => ret data_pos
      end
  end.

(** The staging loop: the staged payload, the number of staged blocks, the
    position after them and [read_ok]. *)
Fixpoint stage_loop (n : nat) (j : journal) (b data_pos : Z) (staged : list Z) (staged_blocks : Z)
    : M (list Z * Z * Z * bool) :=
  match n with
  | O => ret (staged, staged_blocks, data_pos, true)
  | S n =>
      if data_pos =? sb_head (sb j) then ret (staged, staged_blocks, data_pos, true) else
      let* (r, d) := journal_read_block j (ring_block data_pos) (sub_bytes staged (b * bs) bs) in
      let staged := splice staged (b * bs) d in
      if negb (r =? 0) then ret (staged, staged_blocks, data_pos, false) else
      stage_loop n j (b + 1) (next_pos j data_pos) staged (staged_blocks + 1)
  end.

(** The staged blocks go to their targets. *)
Fixpoint apply_loop (n : nat) (refs : list journal_block_ref) (b : Z) (staged : list Z) : M unit :=
  match n with
  | O => ret tt
  | S n =>
      let* _ := dev_write (u32 (target_block (nth (Z.to_nat b) refs zero_ref)))
                  (sub_bytes staged (b * bs) bs) in
      apply_loop n refs (b + 1) staged
  end.

(** The commit block that must follow an authenticated entry. *)
Definition commit_matches (hdr commit_hdr : journal_entry_header) : bool :=
  (h_magic commit_hdr =? JOURNAL_MAGIC) && (h_type commit_hdr =? JOURNAL_ENTRY_COMMIT) &&
  (h_sequence commit_hdr =? h_sequence hdr) &&
  negb (Z.land (h_flags commit_hdr) JOURNAL_ENTRY_FLAG_HMAC =? 0).

(** The authenticated path for the entry at [pos]: [inl] the next position, or
    [inr false] when [integrity_ok] was cleared. *)
Definition auth_entry (j : journal) (hdr : journal_entry_header) (refs : list journal_block_ref)
    (blk_count data_pos : Z) (rb : replay_bufs) : M (Z * replay_bufs + bool) :=
  let* (staged, staged_blocks, data_pos, read_ok) :=
    stage_loop (Z.to_nat blk_count) j 0 data_pos (rb_staged rb) 0 in
  if negb read_ok || negb (staged_blocks =? blk_count) then ret (inr false) else
  if data_pos =? sb_head (sb j) then ret (inr false) else
  let* (r, commit_buf) := journal_read_block j (ring_block data_pos) (rb_commit rb) in
  if negb (r =? 0) then ret (inr false) else
  if negb (commit_matches hdr (hdr_of_bytes commit_buf)) then ret (inr false) else
  let stored_tag := journal_extract_commit_tag commit_buf in
  let payload_len := u32 (staged_blocks * bs) in
  let* expected_tag := journal_compute_hmac j (h_sequence hdr) blk_count refs (Some staged) payload_len in
  if negb (journal_constant_time_eq stored_tag expected_tag JOURNAL_HMAC_TAG_SIZE) then ret (inr false) else
  let* _ := apply_loop (Z.to_nat staged_blocks) refs 0 staged in
  ret (inl (next_pos j data_pos, mkBufs (rb_buf rb) commit_buf staged)).

(** One round of the replay loop at a position other than the head: [inl] the next
    position and buffers, [inr] the integrity flag at a [break]. *)
Definition replay_step (j : journal) (authenticated : bool) (pos : Z) (rb : replay_bufs)
    : M (Z * replay_bufs + bool) :=
  let* (r, buf) := journal_read_block j (ring_block pos) (rb_buf rb) in
  let rb := mkBufs buf (rb_commit rb) (rb_staged rb) in
  if negb (r =? 0) then ret (inr true) else
  let hdr := hdr_of_bytes buf in
  if negb (h_magic hdr =? JOURNAL_MAGIC) then ret (inr true) else
  if h_type hdr =? JOURNAL_ENTRY_COMMIT then ret (inl (next_pos j pos, rb)) else
  if (h_type hdr =? JOURNAL_ENTRY_WRITE_META) && (0 <? h_block_count hdr) then
    let blk_count := Z.min (h_block_count hdr) JOURNAL_ENTRY_MAX_BLOCKS in
    let refs := refs_of_block buf blk_count in
    let data_pos := next_pos j pos in
    if negb authenticated then
      let* data_pos := legacy_loop (Z.to_nat blk_count) j refs 0 data_pos in
      ret (inl (data_pos, rb))
    else auth_entry j hdr refs blk_count data_pos rb
  else ret (inl (next_pos j pos, rb)).

(** The [while] loop; [None] when the fuel runs out. *)
Fixpoint replay_loop (fuel : nat) (j : journal) (authenticated : bool) (pos : Z) (rb : replay_bufs)
    : M (option bool) :=
  if pos =? sb_head (sb j) then ret (Some true) else
  match fuel with
  | O => ret None
  | S fuel =>
      let* r := replay_step j authenticated pos rb in
      match r with
      | inl (pos, rb) => replay_loop fuel j authenticated pos rb
      | inr ok => ret (Some ok)
      end
  end.

(** The buffers [commit_buf] and [staged_payload] are only needed, and only
    requested, with authentication. *)
Definition replay_alloc (authenticated : bool) (buf : list Z) : M (option replay_bufs) :=
  if negb authenticated then ret (Some (mkBufs buf [] [])) else
  let* commit_buf := kmalloc_buf bs in
  let* staged := kmalloc_buf (JOURNAL_ENTRY_MAX_BLOCKS * bs) in
  ret (match commit_buf, staged with
       | Some c, Some s => Some (mkBufs buf c s)
       | _, _ => None
       end).

(** The return code is [None] when the fuel runs out. *)
Definition journal_replay (fuel : nat) (j : journal) : M (option Z * journal) :=
  if negb (journal_needs_replay j) then ret (Some 0, j) else
  if (sb_version (sb j) =? JOURNAL_VERSION_AUTH) && (hmac_key_len j =? 0) then ret (Some (-1), j) else
  let authenticated := journal_is_authenticated j in
  let* buf := kmalloc_buf bs in
  match buf with
  | None => ret (Some (-1), set_run j (current_sequence j) (dirty j) false)
  | Some buf =>
      let* rb := replay_alloc authenticated buf in
      match rb with
      | None => ret (Some (-1), set_run j (current_sequence j) (dirty j) false)
      | Some rb =>
          let* ok := replay_loop fuel j authenticated (sb_tail (sb j)) rb in
          match ok with
          | None => ret (None, j)
          | Some integrity_ok =>
              let j := set_sb j (retire (sb j)) in
              let* sb_buf := kmalloc_buf bs in
              let* _ := match sb_buf with
                        | Some _ => journal_write_block j 0 (sb_block (sb j))
                        | None => ret 0
                        end in
              ret (Some (if integrity_ok then 0 else -1),
                   set_run j (sb_sequence (sb j)) (dirty j) false)
          end
      end
  end.

(** ** Transactions *)
Definition journal_begin (j : journal) (txn : journal_transaction) : Z * journal * journal_transaction :=
  (0, set_run j (u64 (current_sequence j + 1)) (dirty j) (replaying j),
   mkTxn (current_sequence j) (refs txn) 0 None 0 false).

Definition set_ref (l : list journal_block_ref) (i : Z) (r : journal_block_ref) : list journal_block_ref :=
  aset l i r.

Definition journal_log_block (txn : journal_transaction) (target : Z) (data : option (list Z))
    (offset length : Z) : M (Z * journal_transaction) :=
  match data with
  | None => ret (-1, txn)
  | Some src =>
      if JOURNAL_ENTRY_MAX_BLOCKS <=? ref_count txn then ret (-1, txn) else
      let txn := mkTxn (t_sequence txn) (set_ref (refs txn) (ref_count txn) (mkRef target offset length))
                   (ref_count txn + 1) (data_buffer txn) (data_used txn) (committed txn) in
      let* buf := match data_buffer txn with
                  | Some b => ret (Some b)
                  | None => kmalloc_buf (JOURNAL_ENTRY_MAX_BLOCKS * bs)
                  end in
      match buf with
      | None => ret (-1, txn)
      | Some buf =>
          let o := (ref_count txn - 1) * bs in
          let buf := for_range 0 bs (fun i b => aset b (o + i) (if i <? length then src.[i] else 0)) buf in
          ret (0, mkTxn (t_sequence txn) (refs txn) (ref_count txn) (Some buf)
                    (u32 (data_used txn + bs)) (committed txn))
      end
  end.

(** Blocks in use, from the head and the tail of the ring. *)
Definition ring_used (s : journal_superblock) : Z :=
  if sb_tail s <=? sb_head s then u32 (sb_head s - sb_tail s)
  else u32 (sb_block_count s - sb_tail s + sb_head s).

(** An entry block: the header, what follows it, and zeros; then the checksum of
    the block with a zero checksum field. *)
Definition entry_block (h : journal_entry_header) (rest : list Z) : list Z :=
  let buf := splice (splice (zrep bs 0) 0 (hdr_bytes h)) hdr_size rest in
  splice buf 24 (le_bytes 4 (journal_crc32 buf bs)).

(** Write at the head and advance it. *)
Definition append_block (j : journal) (b : list Z) : M journal :=
  let* _ := journal_write_block j (ring_block (sb_head (sb j))) b in
  ret (set_head j (next_pos j (sb_head (sb j)))).

Fixpoint append_data (n : nat) (j : journal) (i : Z) (buf : list Z) : M journal :=
  match n with
  | O => ret j
  | S n =>
      let* j := append_block j (sub_bytes buf (i * bs) bs) in
      append_data n j (i + 1) buf
  end.

Definition meta_block (txn : journal_transaction) : list Z :=
  entry_block (mkHdr JOURNAL_MAGIC JOURNAL_ENTRY_WRITE_META (t_sequence txn) (ref_count txn)
                 (data_used txn) 0 0)
    (ztake (ref_count txn * ref_size) (refs_bytes (refs txn))).

Definition commit_block (seq flags : Z) (tag : list Z) : list Z :=
  entry_block (mkHdr JOURNAL_MAGIC JOURNAL_ENTRY_COMMIT seq 0 0 0 flags) tag.

(** The flags and the tag of the commit block. *)
Definition commit_tag (j : journal) (txn : journal_transaction) : M (Z * list Z) :=
  if negb (journal_is_authenticated j) then ret (0, []) else
  let payload := if 0 <? ref_count txn then data_buffer txn else None in
  let payload_len := if 0 <? ref_count txn then u32 (ref_count txn * bs) else 0 in
  let* tag := journal_compute_hmac j (t_sequence txn) (ref_count txn) (refs txn) payload payload_len in
  ret (JOURNAL_ENTRY_FLAG_HMAC, tag).

Definition end_txn (txn : journal_transaction) (c : bool) (n : Z) : journal_transaction :=
  mkTxn (t_sequence txn) (refs txn) n None (data_used txn) c.

Definition journal_commit (j : journal) (txn : journal_transaction)
    : M (Z * journal * journal_transaction) :=
  if committed txn then ret (-1, j, txn) else
  let needed := 1 + ref_count txn + 1 in
  let avail := u32 (sb_block_count (sb j) - ring_used (sb j) - 1) in
  if avail <? needed then ret (-1, j, txn) else
  let* ok := kmalloc in
  if negb ok then ret (-1, j, txn) else
  let* j := append_block j (meta_block txn) in
  let* j := append_data (Z.to_nat (ref_count txn)) j 0 (default [] (data_buffer txn)) in
  let* (flags, tag) := commit_tag j txn in
  let* j := append_block j (commit_block (t_sequence txn) flags tag) in
  let j := set_run j (current_sequence j) true (replaying j) in
  let* sb_buf := kmalloc_buf bs in
  let* _ := match sb_buf with
            | Some _ => journal_write_block j 0 (sb_block (sb j))
            | None => ret 0
            end in
  ret (0, j, end_txn txn true (ref_count txn)).

Definition journal_abort (txn : journal_transaction) : Z * journal_transaction :=
  (0, end_txn txn false 0).

Definition journal_checkpoint (j : journal) : M (Z * journal) :=
  if negb (dirty j) then ret (0, j) else
  let j := set_sb j (checksummed (retire (sb j))) in
  let* sb_buf := kmalloc_buf bs in
  match sb_buf with
  | None => ret (-1, j)
  | Some _ =>
      let* r := journal_write_block j 0 (sb_block (sb j)) in
      ret (r, set_run j (sb_sequence (sb j)) false (replaying j))
  end.

(** The two figures [*used] and [*free_count]. *)
Definition journal_stats (j : journal) : Z * Z :=
  let u := ring_used (sb j) in (u, u32 (sb_block_count (sb j) - u - 1)).
End journal.
