(* ===== verification/JournalCrash.v ===== *)
(** * Crash atomicity of the journal

    The blocks of the ring as an encoding of the transactions that wait for
    replay, the replay of such a ring, the sequence of block writes a commit makes,
    and what is left of it when the machine stops after any of them. *)
From Stdlib Require Import String.
From S2P Require Import Prelude BlockDevice Storage Sha256 Crypt Journal.
Local Open Scope capy_scope.

#[local] Opaque le_bytes.

(** ** Byte images *)
Lemma field_le n v y k : k = Z.of_nat n -> 0 <= v < 256 ^ k -> field (le_bytes n v ++ y) 0 k = v.
Proof.
  intros -> Hv. unfold field. rewrite sub_app_all by (by rewrite zlen_le_bytes). by apply le_val_bytes.
Qed.

Lemma field_skip n v y off k : Z.of_nat n <= off -> field (le_bytes n v ++ y) off k = field y (off - Z.of_nat n) k.
Proof. intros. unfold field. rewrite sub_app_r by (rewrite zlen_le_bytes; lia). by rewrite zlen_le_bytes. Qed.

(** Read the fields of an image one by one. *)
Ltac fields :=
  repeat (rewrite field_skip by (cbn; lia); simpl Z.of_nat; simpl Z.sub); first [apply field_le; cbn; lia | idtac].

Record hdr_ok (h : journal_entry_header) : Prop := {
  ho_magic : 0 <= h_magic h < 2 ^ 32; ho_type : 0 <= h_type h < 2 ^ 32;
  ho_seq : 0 <= h_sequence h < 2 ^ 64; ho_count : 0 <= h_block_count h < 2 ^ 32;
  ho_size : 0 <= h_data_size h < 2 ^ 32; ho_sum : 0 <= h_checksum h < 2 ^ 32;
  ho_flags : 0 <= h_flags h < 2 ^ 32 }.

Lemma hdr_len h : zlen (hdr_bytes h) = 32.
Proof. unfold hdr_bytes. by rewrite !zlen_app, !zlen_le_bytes. Qed.

Lemma hdr_roundtrip h y : hdr_ok h -> hdr_of_bytes (hdr_bytes h ++ y) = h.
Proof.
  intros []. destruct h as [a b c d e f g]; simpl in *. unfold hdr_of_bytes, hdr_bytes. simpl.
  rewrite <- !app_assoc. f_equal; fields; reflexivity.
Qed.

Record sb_ok (s : journal_superblock) : Prop := {
  so_magic : 0 <= sb_magic s < 2 ^ 32; so_version : 0 <= sb_version s < 2 ^ 32;
  so_bsize : 0 <= sb_block_size s < 2 ^ 32; so_count : 0 <= sb_block_count s < 2 ^ 32;
  so_head : 0 <= sb_head s < 2 ^ 32; so_tail : 0 <= sb_tail s < 2 ^ 32;
  so_seq : 0 <= sb_sequence s < 2 ^ 64; so_sum : 0 <= sb_checksum s < 2 ^ 32;
  so_res : zlen (sb_reserved s) = 28 }.

Lemma sb_len s : zlen (sb_reserved s) = 28 -> zlen (sb_bytes s) = 64.
Proof. intros. unfold sb_bytes. rewrite !zlen_app, !zlen_le_bytes. lia. Qed.

Lemma sb_roundtrip s y : sb_ok s -> sb_of_bytes (sb_bytes s ++ y) = s.
Proof.
  intros []. destruct s as [a b c d e f g h r]; simpl in *. unfold sb_of_bytes, sb_bytes. simpl.
  rewrite <- !app_assoc. f_equal; try (fields; reflexivity).
  do 8 (rewrite sub_app_r by (rewrite zlen_le_bytes; simpl; lia); rewrite zlen_le_bytes; simpl Z.of_nat; simpl Z.sub).
  by apply sub_app_all.
Qed.

Record ref_ok (r : journal_block_ref) : Prop := {
  ro_target : 0 <= target_block r < 2 ^ 64; ro_offset : 0 <= r_offset r < 2 ^ 32;
  ro_length : 0 <= r_length r < 2 ^ 32 }.

Lemma ref_len r : zlen (ref_bytes r) = 16.
Proof. unfold ref_bytes. by rewrite !zlen_app, !zlen_le_bytes. Qed.

Lemma ref_roundtrip r y : ref_ok r -> ref_of_bytes (ref_bytes r ++ y) = r.
Proof.
  intros []. destruct r as [a b c]; simpl in *. unfold ref_of_bytes, ref_bytes. simpl.
  rewrite <- !app_assoc. f_equal; fields; reflexivity.
Qed.

Lemma zlen_refs_bytes l : zlen (refs_bytes l) = 16 * zlen l.
Proof.
  unfold refs_bytes. rewrite (zlen_concat _ 16); [unfold zlen; by rewrite length_map|].
  apply Forall_fmap, Forall_forall. intros; apply ref_len.
Qed.

(** The references decode from where they were stored. *)
Lemma refs_decode l n : n = zlen l -> Forall ref_ok l ->
  map (fun i => ref_of_bytes (sub_bytes (refs_bytes l) (i * ref_size) ref_size)) (seqZ 0 n) = l.
Proof.
  intros -> Hl. apply (array_ext zero_ref); [rewrite zlen_map_seqZ; [done | apply zlen_nonneg]|].
  intros i Hi. rewrite zlen_map_seqZ in Hi by apply zlen_nonneg.
  unfold aget at 1. rewrite list_lookup_fmap, lookup_seqZ_lt by lia. simpl.
  unfold ref_size, refs_bytes. replace ((0 + Z.of_nat (Z.to_nat i)) * 16) with (16 * i) by lia.
  rewrite sub_concat; [|lia| |unfold zlen in *; rewrite length_map; lia].
  2: { apply Forall_fmap, Forall_forall. intros; apply ref_len. }
  assert (E : aget [] (map ref_bytes l) i = ref_bytes (aget zero_ref l i) /\ ref_ok (aget zero_ref l i)).
  { unfold aget. rewrite list_lookup_fmap. unfold zlen in Hi.
    destruct (lookup_lt_is_Some_2 l (Z.to_nat i)) as [r E]; [lia|]. rewrite E. simpl.
    split; [done|]. by apply (Forall_lookup_1 _ _ _ _ Hl E). }
  destruct E as [-> Hok]. rewrite <- (app_nil_r (ref_bytes _)). by apply ref_roundtrip.
Qed.

(** ** Entry blocks *)
Section blocks.
Context {W : Type} (dev : block_device W) `{!DiskSpec dev}.
Local Abbreviation bs := (dev_block_size dev).
Context (Hbs : 512 <= bs <= 65536).

Lemma entry_block_len h rest : zlen rest <= 256 -> zlen (entry_block dev h rest) = bs.
Proof.
  intros Hr. pose proof (zlen_nonneg rest). unfold entry_block, hdr_size.
  assert (H1 : zlen (splice (zrep bs 0) 0 (hdr_bytes h)) = bs)
    by (rewrite zlen_splice; rewrite ?hdr_len, ?zlen_rep; lia).
  assert (H2 : zlen (splice (splice (zrep bs 0) 0 (hdr_bytes h)) 32 rest) = bs) by (rewrite zlen_splice; lia).
  rewrite zlen_splice; rewrite ?zlen_le_bytes; simpl; lia.
Qed.

(** What is stored in a block apart from its checksum. *)
Lemma entry_block_sub h rest off n : zlen rest <= 256 -> 0 <= off -> 0 <= n ->
  (off + n <= 24 \/ 28 <= off /\ off + n <= 32) ->
  sub_bytes (entry_block dev h rest) off n = sub_bytes (hdr_bytes h) off n.
Proof.
  intros Hr Ho Hn Hc. pose proof (zlen_nonneg rest). unfold entry_block, hdr_size.
  assert (H1 : zlen (splice (zrep bs 0) 0 (hdr_bytes h)) = bs)
    by (rewrite zlen_splice; rewrite ?hdr_len, ?zlen_rep; lia).
  assert (H2 : zlen (splice (splice (zrep bs 0) 0 (hdr_bytes h)) 32 rest) = bs) by (rewrite zlen_splice; lia).
  rewrite sub_splice_other by (rewrite ?zlen_le_bytes; simpl; lia).
  rewrite sub_splice_other by lia.
  rewrite sub_splice_in by (rewrite ?hdr_len, ?zlen_rep; lia). f_equal. lia.
Qed.

Lemma entry_block_rest h rest off n : zlen rest <= 256 -> 32 <= off -> 0 <= n -> off + n <= 32 + zlen rest ->
  sub_bytes (entry_block dev h rest) off n = sub_bytes rest (off - 32) n.
Proof.
  intros Hr Ho Hn Hc. pose proof (zlen_nonneg rest). unfold entry_block, hdr_size.
  assert (H1 : zlen (splice (zrep bs 0) 0 (hdr_bytes h)) = bs)
    by (rewrite zlen_splice; rewrite ?hdr_len, ?zlen_rep; lia).
  assert (H2 : zlen (splice (splice (zrep bs 0) 0 (hdr_bytes h)) 32 rest) = bs) by (rewrite zlen_splice; lia).
  rewrite sub_splice_other by (rewrite ?zlen_le_bytes; simpl; lia).
  rewrite sub_splice_in by lia. done.
Qed.

Lemma entry_block_hdr h rest : zlen rest <= 256 -> hdr_ok h ->
  let h' := hdr_of_bytes (entry_block dev h rest) in
  h_magic h' = h_magic h /\ h_type h' = h_type h /\ h_sequence h' = h_sequence h /\
  h_block_count h' = h_block_count h /\ h_flags h' = h_flags h.
Proof.
  intros Hr Hh. cbv zeta. pose proof (hdr_roundtrip h [] Hh) as E. rewrite app_nil_r in E.
  unfold hdr_of_bytes, field in *. cbn [h_magic h_type h_sequence h_block_count h_flags].
  rewrite !entry_block_sub by (done || lia).
  exact (conj (f_equal h_magic E) (conj (f_equal h_type E) (conj (f_equal h_sequence E)
    (conj (f_equal h_block_count E) (f_equal h_flags E))))).
Qed.

Lemma sb_block_eq s : zlen (sb_reserved s) = 28 ->
  (exists y, sb_block dev s = sb_bytes s ++ y) /\ zlen (sb_block dev s) = bs.
Proof.
  intros Hr. pose proof (sb_len s Hr) as Hl. unfold sb_block, sb_size. cbv zeta. rewrite Z.min_l by lia.
  assert (Hz : zlen (zrep bs 0) = bs) by (apply zlen_rep; lia).
  rewrite memcpy_spec by lia. rewrite <- Hl, sub_bytes_all. split; [|rewrite zlen_splice; lia].
  exists (zdrop (0 + zlen (sb_bytes s)) (zrep bs 0)). done.
Qed.
End blocks.

(** ** What a sequence of writes shows *)
Section shows.
Context {W : Type} (dev : block_device W) `{!DiskSpec dev}.
Local Abbreviation bs := (dev_block_size dev).

(** A write beyond the device has no effect. *)
Definition upd (v : Z -> list Z) (a : Z * list Z) : Z -> list Z :=
  fun m => if (m =? a.1) && (a.1 <? dev_block_count dev) then a.2 else v m.

Definition view_eq (v v' : Z -> list Z) : Prop := forall n, 0 <= n -> v n = v' n.

(** From [w] to [w'] the disk changes exactly by the writes [ws], in this order. *)
Definition shows (w : W) (ws : list (Z * list Z)) (w' : W) : Prop :=
  disk_inv w' /\ view_eq (disk_view w') (foldl upd (disk_view w) ws).

Lemma foldl_upd_eq ws : forall v v', view_eq v v' -> view_eq (foldl upd v ws) (foldl upd v' ws).
Proof.
  induction ws as [|a ws IH]; intros v v' Hv; [done|]. apply IH. intros n Hn. unfold upd. by rewrite (Hv n Hn).
Qed.

Lemma shows_refl w : disk_inv w -> shows w [] w.
Proof. by split. Qed.

Lemma shows_app w ws w1 ws' w2 : shows w ws w1 -> shows w1 ws' w2 -> shows w (ws ++ ws') w2.
Proof.
  intros [? E1] [? E2]. split; [done|]. intros n Hn. rewrite foldl_app, (E2 n Hn).
  by apply foldl_upd_eq.
Qed.

Lemma shows_read w n buf : disk_inv w -> 0 <= n -> zlen buf = bs ->
  let '(rc, buf', w') := block_device_read (Some dev) n buf w in
  shows w [] w' /\ zlen buf' = bs /\ (rc = 0 -> buf' = disk_view w n).
Proof.
  intros Hw Hn Hb. pose proof (disk_read w n buf Hw Hn Hb) as H.
  destruct (block_device_read _ _ _ _) as [[rc b'] w']. destruct H as (Hi & Hl & Hv & Hr).
  split_and!; [split; [done|]; by rewrite Hv | lia | by intros ?; apply Hr].
Qed.

Lemma shows_write `{!ReliableDisk dev} w n data : disk_inv w -> 0 <= n -> zlen data = bs ->
  shows w [(n, data)] (block_device_write (Some dev) n data w).2.
Proof.
  intros Hw Hn Hd. pose proof (disk_write w n data Hw Hn Hd) as H.
  pose proof (fun Hc => reliable_write w n data Hw (conj Hn Hc) Hd) as Hr.
  destruct (block_device_write _ _ _ _) as [rc w']. destruct H as (Hi & Ho & Hs & Hout). simpl in *.
  split; [done|]. intros m Hm. simpl. unfold upd. simpl.
  destruct (Z.ltb_spec n (dev_block_count dev)).
  - destruct (Z.eqb_spec m n) as [->|]; simpl; [by apply Hs, Hr | by apply Ho].
  - rewrite andb_false_r. by rewrite Hout.
Qed.

(** The blocks that no write addresses keep their contents. *)
Lemma foldl_upd_other ws v n : Forall (fun a => a.1 <> n) ws -> foldl upd v ws n = v n.
Proof.
  revert v. induction ws as [|a ws IH]; intros v Hf; [done|]. inversion Hf; subst. simpl. rewrite IH by done.
  unfold upd. by replace (n =? a.1) with false by lia.
Qed.

Lemma shows_other w ws w' n : shows w ws w' -> 0 <= n -> Forall (fun a => a.1 <> n) ws ->
  disk_view w' n = disk_view w n.
Proof. intros [_ E] Hn Hf. rewrite (E n Hn). by apply foldl_upd_other. Qed.
End shows.

(** ** Positions of the ring *)
Section positions.
Context (bc : Z) (Hbc : 0 < bc < 2 ^ 32).

Definition step_pos (p : Z) : Z := u32 (p + 1) `mod` bc.

(** [r] steps lead from [p] to [h]. *)
Definition left (h p r : Z) : Prop := 0 <= p < bc /\ 0 <= r < bc /\ h = (p + r) `mod` bc.

Lemma step_pos_range p : 0 <= step_pos p < bc.
Proof. apply Z.mod_pos_bound. lia. Qed.

Lemma step_pos_eq p : 0 <= p < bc -> step_pos p = (p + 1) `mod` bc.
Proof. intros. unfold step_pos. rewrite u32_small; [done | lia]. Qed.

Lemma left_zero h p r : left h p r -> (p =? h) = (r =? 0).
Proof.
  intros (Hp & Hr & ->). destruct (Z.eqb_spec r 0) as [->|Hne].
  - rewrite Z.add_0_r, Z.mod_small by lia. apply Z.eqb_refl.
  - apply Z.eqb_neq. intros E. destruct (Z.lt_ge_cases (p + r) bc).
    + rewrite Z.mod_small in E; lia.
    + rewrite <- (Z.mod_unique (p + r) bc 1 (p + r - bc)) in E; lia.
Qed.

Lemma left_step h p r : left h p r -> 0 < r -> left h (step_pos p) (r - 1).
Proof.
  intros (Hp & Hr & ->) H0. split_and!; try lia; [apply step_pos_range..|].
  rewrite step_pos_eq by done. rewrite Zplus_mod_idemp_l. f_equal. lia.
Qed.

Lemma left_exists h p : 0 <= h < bc -> 0 <= p < bc -> exists r, left h p r.
Proof.
  intros. exists ((h - p) `mod` bc). pose proof (Z.mod_pos_bound (h - p) bc ltac:(lia)). split_and!; try lia.
  rewrite Zplus_mod_idemp_r. replace (p + (h - p)) with h by lia. by rewrite Z.mod_small.
Qed.

(** The blocks of the ring from [p] on. *)
Fixpoint ring_at (v : Z -> list Z) (p : Z) (l : list (list Z)) : Prop :=
  match l with
  | [] => True
  | b :: l => v p = b /\ ring_at v (step_pos p) l
  end.

Definition walk (p : Z) (n : nat) : Z := Nat.iter n step_pos p.

Lemma walk_S p n : walk p (S n) = walk (step_pos p) n.
Proof. unfold walk. by rewrite Nat.iter_succ_r. Qed.

Lemma ring_at_app v l : forall p l', ring_at v p (l ++ l') <-> ring_at v p l /\ ring_at v (walk p (length l)) l'.
Proof.
  induction l as [|b l IH]; intros p l'; [simpl; tauto|].
  cbn [app ring_at length]. rewrite walk_S, IH. tauto.
Qed.

Lemma left_walk h n : forall p r, left h p r -> Z.of_nat n <= r -> left h (walk p n) (r - Z.of_nat n).
Proof.
  induction n as [|n IH]; intros p r Hl Hn; [change (left h p (r - 0)); by rewrite Z.sub_0_r|].
  rewrite walk_S. replace (r - Z.of_nat (S n)) with (r - 1 - Z.of_nat n) by lia.
  apply IH; [apply left_step; [done | lia] | lia].
Qed.

Lemma walk_eq n p : 0 <= p < bc -> walk p n = (p + Z.of_nat n) `mod` bc.
Proof.
  intros Hp. induction n as [|n IH]; [simpl; by rewrite Z.add_0_r, Z.mod_small|].
  change (walk p (S n)) with (step_pos (walk p n)). rewrite step_pos_eq by (rewrite IH; apply Z.mod_pos_bound; lia).
  rewrite IH, Zplus_mod_idemp_l. f_equal. lia.
Qed.

Lemma ring_at_ext v v' l : forall p, 0 <= p < bc -> (forall q, 0 <= q < bc -> v q = v' q) ->
  ring_at v p l -> ring_at v' p l.
Proof.
  induction l as [|b l IH]; intros p Hp Hv; [done|]. intros [E H]. split; [by rewrite <- Hv|].
  apply IH; [apply step_pos_range | done | done].
Qed.
End positions.

Lemma ring_at_inj bc v l : forall p l', ring_at bc v p l -> ring_at bc v p l' -> length l = length l' -> l = l'.
Proof.
  induction l as [|b l IH]; intros p [|b' l'] H H' Hl; try done.
  destruct H as [<- H], H' as [<- H']. f_equal. apply (IH (step_pos bc p)); [done | done | by injection Hl].
Qed.

(** ** Transactions on the ring *)
Record jtx := mkTx { x_seq : Z; x_refs : list journal_block_ref; x_blocks : list (list Z) }.

(** The block writes a transaction asks for. *)
Definition tx_writes (x : jtx) : list (Z * list Z) :=
  zip_with (fun r b => (u32 (target_block r), b)) (x_refs x) (x_blocks x).

Definition txs_writes (l : list jtx) : list (Z * list Z) := concat (map tx_writes l).

Section entries.
Context {W : Type} (dev : block_device W) (j : journal).
Local Abbreviation bs := (dev_block_size dev).
Local Abbreviation bc := (sb_block_count (sb j)).

(** The journal's blocks: the superblock and the ring. *)
Definition in_area (n : Z) : Prop := start_block j <= n < start_block j + 1 + bc.

Record area_ok : Prop := {
  ao_start : 0 <= start_block j;
  ao_count : 0 < bc;
  ao_end : start_block j + 1 + bc <= dev_block_count dev;
  ao_head : 0 <= sb_head (sb j) < bc;
  ao_tail : 0 <= sb_tail (sb j) < bc }.

(** The ring as the disk has it. *)
Definition ring_view (v : Z -> list Z) (p : Z) : list Z := v (start_block j + 1 + p).

Record tx_ok (x : jtx) : Prop := {
  xo_seq : 0 <= x_seq x < 2 ^ 64;
  xo_refs : Forall ref_ok (x_refs x);
  xo_len : length (x_refs x) = length (x_blocks x);
  xo_max : zlen (x_refs x) <= JOURNAL_ENTRY_MAX_BLOCKS;
  xo_blocks : Forall (fun b => zlen b = bs) (x_blocks x);
  xo_out : Forall (fun a => ~ in_area a.1) (tx_writes x) }.

(** The tag that authenticates a transaction under the key of the journal. *)
Definition entry_tag (seq : Z) (refs : list journal_block_ref) (blocks : list (list Z)) : list Z :=
  let n := zlen refs in
  let msg := hmac_message seq n refs (Some (concat blocks)) (n * bs) in
  ztake JOURNAL_HMAC_TAG_SIZE (default [] (crypt_hmac_sha256 (hmac_key j) (hmac_key_len j) (Some msg)
    (21 + n * ref_size + n * bs) (Some (zrep SHA256_DIGEST_SIZE 0))).1).

Definition meta_is (x : jtx) (m : list Z) : Prop :=
  let h := hdr_of_bytes m in
  h_magic h = JOURNAL_MAGIC /\ h_type h = JOURNAL_ENTRY_WRITE_META /\ h_sequence h = x_seq x /\
  h_block_count h = zlen (x_refs x) /\ refs_of_block m (zlen (x_refs x)) = x_refs x.

(** Memory cells are bytes, on which [u8] is the identity. *)
Definition tag_is (x : jtx) (c : list Z) : Prop :=
  map u8 (journal_extract_commit_tag c) = map u8 (entry_tag (x_seq x) (x_refs x) (x_blocks x)).

Definition commit_is (auth : bool) (x : jtx) (c : list Z) : Prop :=
  let h := hdr_of_bytes c in
  h_magic h = JOURNAL_MAGIC /\ h_type h = JOURNAL_ENTRY_COMMIT /\ h_sequence h = x_seq x /\
  (auth = true -> Z.land (h_flags h) JOURNAL_ENTRY_FLAG_HMAC <> 0 /\ tag_is x c).

(** The blocks that record a transaction. *)
Definition is_entry (auth : bool) (x : jtx) (l : list (list Z)) : Prop :=
  exists m c, l = m :: x_blocks x ++ [c] /\ meta_is x m /\ commit_is auth x c.

Fixpoint entries (auth : bool) (txs : list jtx) (l : list (list Z)) : Prop :=
  match txs with
  | [] => l = []
  | x :: txs => exists e r, l = e ++ r /\ is_entry auth x e /\ entries auth txs r
  end.

Lemma entries_snoc auth txs : forall l x e, entries auth txs l -> is_entry auth x e ->
  entries auth (txs ++ [x]) (l ++ e).
Proof.
  induction txs as [|y txs IH]; intros l x e Hl He; simpl in *.
  - subst l. exists e, []. by rewrite app_nil_r.
  - destruct Hl as (e1 & r & -> & He1 & Hr). exists e1, (r ++ e). rewrite app_assoc. split_and!; auto.
Qed.
End entries.

(** ** Tags *)
Lemma journal_eq_spec a b n : zlen a = n -> zlen b = n ->
  journal_constant_time_eq a b n = bool_decide (map u8 a = map u8 b).
Proof.
  intros Ha Hb. unfold journal_constant_time_eq. pose proof (zlen_nonneg a) as Hn.
  assert (H : for_range 0 n (fun i diff => Z.lor diff (u8 (Z.lxor a.[i] b.[i]))) 0 = 0 <->
    forall i, 0 <= i < n -> u8 a.[i] = u8 b.[i]).
  { refine (for_range_ind (fun m diff => diff = 0 <-> forall i, 0 <= i < m -> u8 a.[i] = u8 b.[i]) 0 n _ 0
      ltac:(lia) _ _); [split; [lia | done]|].
    intros i diff Hi IH. rewrite u8_lxor, Z.lor_eq_0_iff, IH, Z.lxor_eq_0_iff. split.
    - intros [H1 H2] k Hk. destruct (Z.eq_dec k i) as [->|]; [done | apply H1; lia].
    - intros H. split; [intros k Hk; apply H; lia | apply H; lia]. }
  assert (G : forall l i, (map u8 l).[i] = u8 l.[i]).
  { intros l i. unfold aget. rewrite list_lookup_fmap. by destruct (l !! Z.to_nat i). }
  apply eq_bool_prop_intro. rewrite Is_true_true, bool_decide_spec, Z.eqb_eq, H. split.
  - intros E. apply (array_ext 0); [unfold zlen in *; rewrite !length_map; lia|].
    intros i Hi. rewrite !G. apply E. unfold zlen in *. rewrite length_map in Hi. lia.
  - intros E i _. by rewrite <- !G, E.
Qed.

Lemma final_len c h : exists c' h', sha256_final c (Some h) = (c', Some h') /\ zlen h' = zlen h.
Proof.
  unfold sha256_final. destruct c as [c|]; [|by exists None, h].
  destruct (if 56 <? u32 (datalen c + 1) then _ else _) as [c1 i]. eexists _, _. split; [reflexivity|].
  apply (for_range_ind (fun _ h' => zlen h' = zlen h)); [done | done |].
  intros i' h' _ E. unfold store_word. by rewrite !zlen_aset.
Qed.

Lemma hmac_len k kn d n o : exists o', (crypt_hmac_sha256 k kn d n (Some o)).1 = Some o' /\ zlen o' = zlen o.
Proof.
  unfold crypt_hmac_sha256. destruct (shorten_key _ _ _ _) as [[[c tk] k'] kn'].
  match goal with |- context [sha256_final ?c (Some o)] => destruct (final_len c o) as (c1 & o1 & -> & E1) end.
  match goal with |- context [sha256_final ?c (Some o1)] => destruct (final_len c o1) as (c2 & o2 & -> & E2) end.
  exists o2. split; [done | lia].
Qed.

Lemma zlen_mapl {A B} (f : A -> B) l : zlen (map f l) = zlen l.
Proof. unfold zlen. by rewrite length_map. Qed.

Lemma refs_take l n : 0 <= n <= zlen l -> ztake (n * ref_size) (refs_bytes l) = refs_bytes (ztake n l).
Proof.
  intros Hl. unfold refs_bytes, ref_size.
  rewrite <- (take_drop (Z.to_nat n) l) at 1. rewrite map_app, concat_app.
  apply ztake_app_len. change (n * 16 = zlen (refs_bytes (take (Z.to_nat n) l))). rewrite zlen_refs_bytes.
  unfold zlen in *. rewrite length_take. lia.
Qed.

Lemma hmac_message_eq seq n refs1 refs2 p1 p2 m : 0 <= n <= zlen refs1 -> 0 <= n <= zlen refs2 ->
  ztake n refs1 = ztake n refs2 -> ztake m p1 = ztake m p2 ->
  hmac_message seq n refs1 (Some p1) m = hmac_message seq n refs2 (Some p2) m.
Proof.
  intros H1 H2 Er Ep. unfold hmac_message. rewrite Ep. do 2 f_equal.
  by rewrite !refs_take, Er.
Qed.

(** ** Replay on a device that does not fail *)
Section replay.
Context {W : Type} (dev : block_device W) `{!DiskSpec dev, !ReliableDisk dev} (j : journal).
Local Abbreviation bs := (dev_block_size dev).
Local Abbreviation bc := (sb_block_count (sb j)).
Local Abbreviation rv w := (ring_view j (disk_view w)).
Local Abbreviation head := (sb_head (sb j)).
Context (Hbs : 512 <= bs <= 65536) (Ha : area_ok dev j).

Lemma bc_range : 0 < bc < 2 ^ 32.
Proof. destruct Ha. pose proof (disk_count (dev := dev)). lia. Qed.

Lemma ring_index p : 0 <= p < bc -> u32 (u64 (start_block j + ring_block p)) = start_block j + 1 + p.
Proof.
  intros Hp. destruct Ha. pose proof (disk_count (dev := dev)). unfold ring_block.
  rewrite (u32_small (1 + p)) by lia. rewrite u64_small by lia. rewrite u32_small; lia.
Qed.

Lemma read_ring p buf w mem : 0 <= p < bc -> disk_inv w -> zlen buf = bs ->
  exists w', journal_read_block dev j (ring_block p) buf (w, mem) = ((0, rv w p), (w', mem)) /\
    shows dev w [] w' /\ zlen (rv w p) = bs.
Proof.
  intros Hp Hw Hb. destruct Ha. unfold journal_read_block, dev_read. cbn [fst snd]. rewrite ring_index by done.
  pose proof (shows_read dev w (start_block j + 1 + p) buf Hw ltac:(lia) Hb) as H.
  pose proof (reliable_read w (start_block j + 1 + p) buf Hw ltac:(lia) Hb) as Hr.
  destruct (block_device_read _ _ _ _) as [[rc b'] w']. simpl in Hr. destruct H as (Hs & Hl & He).
  subst rc. specialize (He eq_refl). subst b'. by exists w'.
Qed.

Lemma write_any n data w mem : disk_inv w -> 0 <= n -> zlen data = bs ->
  exists rc w', dev_write dev n data (w, mem) = (rc, (w', mem)) /\ shows dev w [(n, data)] w'.
Proof.
  intros Hw Hn Hd. unfold dev_write. cbn [fst snd].
  pose proof (shows_write dev w n data Hw Hn Hd) as H.
  destruct (block_device_write _ _ _ _) as [rc w']. by exists rc, w'.
Qed.

(** Writes outside the area leave the ring as it is. *)
Lemma ring_kept w ws w' : shows dev w ws w' -> Forall (fun a => ~ in_area j a.1) ws ->
  forall q, 0 <= q < bc -> rv w' q = rv w q.
Proof.
  intros Hs Hf q Hq. destruct Ha. apply (shows_other dev w ws w'); [done | lia|].
  eapply Forall_impl; [exact Hf|]. intros a Hn E. apply Hn. unfold in_area. simpl in *. lia.
Qed.

Lemma ring_at_kept w ws w' p l : shows dev w ws w' -> Forall (fun a => ~ in_area j a.1) ws -> 0 <= p < bc ->
  ring_at bc (rv w) p l -> ring_at bc (rv w') p l.
Proof. intros Hs Hf Hp. apply ring_at_ext; [apply bc_range | done|]. intros q Hq. symmetry. by apply (ring_kept w ws). Qed.

Lemma sub_slot (staged : list Z) m ls b : ztake m staged = concat ls -> Forall (fun x => zlen x = bs) ls ->
  0 <= b < zlen ls -> zlen ls * bs <= m -> sub_bytes staged (b * bs) bs = aget [] ls b.
Proof.
  intros E Hf Hb Hm. pose proof (disk_size (dev := dev)).
  rewrite <- (sub_concat bs b ls) by (done || lia). rewrite <- E.
  change (ztake m staged) with (sub_bytes staged 0 m) at 1.
  rewrite sub_bytes_sub by nia. f_equal. lia.
Qed.

(** Nothing staged. *)
#[local] Ltac no_blocks w staged :=
  exists [], staged, w; change (zlen (@nil (list Z))) with 0; rewrite !Z.add_0_r, app_nil_r;
  split_and!; [reflexivity | lia | exact I | by constructor | reflexivity | assumption | by apply shows_refl].

(** The staging loop fills its slots with the blocks that follow on the ring. *)
Lemma stage_run n : forall b p r staged k0 w done_, disk_inv w -> left bc head p r ->
  zlen done_ = b -> Forall (fun x => zlen x = bs) done_ -> ztake (b * bs) staged = concat done_ ->
  (b + Z.of_nat n) * bs <= zlen staged ->
  exists l staged' w', stage_loop dev n j b p staged k0 (w, [] : list bool) =
      ((staged', k0 + zlen l, walk bc p (length l), true), (w', [] : list bool)) /\
    zlen l = Z.min (Z.of_nat n) r /\ ring_at bc (rv w) p l /\ Forall (fun x => zlen x = bs) l /\
    zlen staged' = zlen staged /\ ztake ((b + zlen l) * bs) staged' = concat (done_ ++ l) /\ shows dev w [] w'.
Proof.
  induction n as [|n IH]; intros b p r staged k0 w done_ Hw Hl Hd Hf Hs Hn.
  - destruct Hl as (? & ? & _). no_blocks w staged.
  - cbn [stage_loop]. pose proof (zlen_nonneg done_). rewrite (left_zero bc head p r Hl).
    destruct (Z.eqb_spec r 0) as [Hr|Hr].
    { no_blocks w staged. }
    destruct (Hl) as (Hp & Hr0 & _).
    assert (Hsub : zlen (sub_bytes staged (b * bs) bs) = bs) by (apply zlen_sub; nia).
    destruct (read_ring p _ w [] Hp Hw Hsub) as (w1 & E1 & S1 & L1).
    unfold bind. rewrite E1. cbn beta iota zeta. rewrite Z.eqb_refl. cbn [negb].
    assert (Hsp : zlen (splice staged (b * bs) (rv w p)) = zlen staged) by (rewrite zlen_splice; nia).
    assert (Htk : ztake ((b + 1) * bs) (splice staged (b * bs) (rv w p)) = concat (done_ ++ [rv w p])).
    { rewrite concat_app. cbn [concat]. rewrite app_nil_r, <- Hs. unfold splice. rewrite app_assoc.
      apply ztake_app_len. rewrite zlen_app, zlen_take by nia. nia. }
    destruct (IH (b + 1) (next_pos j p) (r - 1) (splice staged (b * bs) (rv w p)) (k0 + 1) w1 (done_ ++ [rv w p]) (proj1 S1))
      as (l & st & w2 & E2 & Hll & Hra & Hfl & Hst & Hc & S2).
    + apply left_step; [apply bc_range | done | lia].
    + rewrite zlen_app, zlen_cons. change (zlen (@nil (list Z))) with 0. lia.
    + apply Forall_app_2; [done | by apply Forall_singleton].
    + done.
    + nia.
    + exists (rv w p :: l), st, w2. rewrite E2. split_and!.
      * rewrite zlen_cons. cbn [length]. rewrite walk_S, Z.add_assoc. reflexivity.
      * rewrite zlen_cons. lia.
      * split; [done|]. revert Hra. apply ring_at_ext; [apply bc_range | apply step_pos_range, bc_range|].
        by apply (ring_kept w [] w1).
      * by apply Forall_cons_2.
      * congruence.
      * rewrite zlen_cons. replace (b + (1 + zlen l)) with (b + 1 + zlen l) by lia. rewrite Hc, <- app_assoc. done.
      * apply (shows_app dev w [] w1 [] w2); done.
Qed.
Local Abbreviation writes_of refs ls := (zip_with (fun r b => (u32 (target_block r), b)) refs ls).

Lemma drop_nth (refs : list journal_block_ref) b : 0 <= b < zlen refs ->
  drop (Z.to_nat b) refs = nth (Z.to_nat b) refs zero_ref :: drop (Z.to_nat (b + 1)) refs.
Proof.
  intros Hb. destruct (lookup_lt_is_Some_2 refs (Z.to_nat b)) as [x E]; [unfold zlen in Hb; lia|].
  rewrite (drop_S _ x) by done. replace (Z.to_nat (b + 1)) with (S (Z.to_nat b)) by lia.
  by rewrite nth_lookup, E.
Qed.

Lemma u32_nonneg z : 0 <= u32 z.
Proof. pose proof (u32_range z). lia. Qed.

(** The apply loop writes every staged block to its target. *)
Lemma apply_run ls : forall b refs staged done_ w, disk_inv w -> zlen done_ = b ->
  Forall (fun x => zlen x = bs) (done_ ++ ls) -> ztake ((b + zlen ls) * bs) staged = concat (done_ ++ ls) ->
  b + zlen ls = zlen refs ->
  exists w', apply_loop dev (length ls) refs b staged (w, []) = (tt, (w', [])) /\
    shows dev w (writes_of (drop (Z.to_nat b) refs) ls) w'.
Proof.
  induction ls as [|x ls IH]; intros b refs staged done_ w Hw Hd Hf Hs Hl.
  { exists w. split; [done|]. destruct (drop _ refs); by apply shows_refl. }
  pose proof (zlen_nonneg done_). pose proof (zlen_nonneg ls). rewrite zlen_cons in *.
  cbn [length apply_loop]. unfold bind at 1.
  rewrite (sub_slot staged _ _ b Hs Hf) by (rewrite zlen_app, zlen_cons; lia).
  rewrite (aget_app_r [] done_ (x :: ls)) by lia. rewrite Hd, Z.sub_diag. change (aget [] (x :: ls) 0) with x.
  assert (Hx : zlen x = bs) by (apply Forall_app in Hf as [_ Hf]; by inversion Hf).
  rewrite drop_nth by lia. set (t := nth (Z.to_nat b) refs zero_ref).
  destruct (write_any (u32 (target_block t)) x w [] Hw (u32_nonneg _) Hx) as (rc & w1 & -> & S1).
  destruct (IH (b + 1) refs staged (done_ ++ [x]) w1 (proj1 S1)) as (w2 & E2 & S2).
  - rewrite zlen_app, zlen_cons. change (zlen (@nil (list Z))) with 0. lia.
  - by rewrite <- app_assoc.
  - rewrite <- app_assoc. replace (b + 1 + zlen ls) with (b + (1 + zlen ls)) by lia. done.
  - lia.
  - exists w2. rewrite E2. split; [done|]. by apply (shows_app dev w [_] w1 _ w2).
Qed.

(** The legacy loop writes the blocks that follow on the ring to their targets. *)
Lemma legacy_run ls : forall b refs p r w, disk_inv w -> left bc head p r -> zlen ls <= r -> 0 <= b ->
  ring_at bc (rv w) p ls -> b + zlen ls = zlen refs ->
  Forall (fun a => ~ in_area j a.1) (writes_of (drop (Z.to_nat b) refs) ls) ->
  exists w', legacy_loop dev (length ls) j refs b p (w, []) = (walk bc p (length ls), (w', [])) /\
    shows dev w (writes_of (drop (Z.to_nat b) refs) ls) w'.
Proof.
  induction ls as [|x ls IH]; intros b refs p r w Hw Hp Hr Hb Hra Hl Hout.
  { exists w. split; [done|]. destruct (drop _ refs); by apply shows_refl. }
  pose proof (zlen_nonneg ls). rewrite zlen_cons in *. destruct Hra as [Hx Hra].
  cbn [length legacy_loop]. unfold legacy_step. rewrite (left_zero bc head p r Hp).
  replace (r =? 0) with false by lia. unfold kmalloc_buf, kmalloc, bind, ret. cbn beta iota zeta delta [fst snd].
  pose proof (disk_size (dev := dev)).
  destruct (read_ring p (zrep bs 0) w [] (proj1 Hp) Hw ltac:(apply zlen_rep; lia)) as (w1 & -> & S1 & L1).
  cbn beta iota. rewrite Z.eqb_refl. rewrite drop_nth in * by lia. set (t := nth (Z.to_nat b) refs zero_ref) in *.
  inversion Hout as [|? ? Ho1 Ho2]; subst.
  destruct (write_any (u32 (target_block t)) (rv w p) w1 [] (proj1 S1) (u32_nonneg _) L1) as (rc & w2 & -> & S2).
  cbn beta iota. pose proof (shows_app _ _ _ _ _ _ S1 S2) as S12. cbn [app] in S12.
  destruct (IH (b + 1) refs (next_pos j p) (r - 1) w2 (proj1 S2)) as (w3 & E3 & S3); try done; try lia.
  - apply left_step; [apply bc_range | done | lia].
  - revert Hra. apply (ring_at_kept w _ w2 _ _ S12); [by apply Forall_singleton | apply step_pos_range, bc_range].
  - exists w3. rewrite E3, walk_S. split; [done|]. by apply (shows_app dev w [_] w2 _ w3).
Qed.

(** The conditions under which the authenticated path applies an entry. *)
Definition entry_verified (hdr : journal_entry_header) (refs : list journal_block_ref) (ls : list (list Z))
    (c : list Z) : Prop :=
  commit_matches hdr (hdr_of_bytes c) = true /\
  map u8 (journal_extract_commit_tag c) = map u8 (entry_tag dev j (h_sequence hdr) refs ls).

Definition bufs_ok (auth : bool) (rb : replay_bufs) : Prop :=
  zlen (rb_buf rb) = bs /\
  (auth = true -> zlen (rb_commit rb) = bs /\ zlen (rb_staged rb) = JOURNAL_ENTRY_MAX_BLOCKS * bs).

Lemma zlen_tag seq refs ls : zlen (entry_tag dev j seq refs ls) = JOURNAL_HMAC_TAG_SIZE.
Proof.
  unfold entry_tag. cbv zeta.
  match goal with |- context [crypt_hmac_sha256 ?a ?b ?c ?d (Some ?o)] => destruct (hmac_len a b c d o) as (t & -> & E) end.
  cbn [from_option id]. rewrite zlen_take, E; [|done]. by unfold SHA256_DIGEST_SIZE; rewrite zlen_rep.
Qed.

Lemma auth_run hdr refs n p r w rb : zlen refs = n -> 0 < n <= JOURNAL_ENTRY_MAX_BLOCKS -> left bc head p r ->
  disk_inv w -> bufs_ok true rb ->
  exists ls rb' w' res, auth_entry dev j hdr refs n p rb (w, []) = (res, (w', [])) /\
    zlen ls = Z.min n r /\ ring_at bc (rv w) p ls /\ Forall (fun x => zlen x = bs) ls /\ bufs_ok true rb' /\
    let ok := n < r /\ entry_verified hdr refs ls (rv w (walk bc p (Z.to_nat n))) in
    (ok /\ res = inl (walk bc p (S (Z.to_nat n)), rb') /\ shows dev w (writes_of refs ls) w' \/
     ~ ok /\ res = inr false /\ shows dev w [] w').
Proof.
  intros Hn Hn16 Hp Hw Hrb. pose proof Hrb as [Hb Hb2]. specialize (Hb2 eq_refl). destruct Hb2 as [Hc Hs]. unfold JOURNAL_ENTRY_MAX_BLOCKS in *.
  destruct (stage_run (Z.to_nat n) 0 p r (rb_staged rb) 0 w [] Hw Hp) as
    (ls & staged & w1 & E1 & Hl & Hra & Hf & Hz & Hcc & S1); try done; [rewrite Hs, Z2Nat.id; nia|].
  unfold auth_entry. unfold bind at 1. rewrite E1. cbn beta iota. rewrite Z.add_0_l in *. cbn [app negb orb] in *.
  rewrite Z2Nat.id in Hl by lia. exists ls.
  destruct (Z.eqb_spec (zlen ls) n) as [El|El]; cbn [negb].
  2: { exists rb, w1, (inr false). split_and!; try done. right. split_and!; [lia | done | done]. }
  assert (En : length ls = Z.to_nat n) by (unfold zlen in El; lia).
  pose proof (left_walk bc bc_range head (length ls) p r Hp ltac:(unfold zlen in *; lia)) as Hq.
  rewrite (left_zero bc head _ _ Hq), En in *. rewrite Z2Nat.id in * by lia.
  destruct (Z.eqb_spec (r - n) 0).
  { exists rb, w1, (inr false). split_and!; try done. right. split_and!; [lia | done | done]. }
  set (q := walk bc p (Z.to_nat n)) in *. unfold bind at 1.
  destruct (read_ring q (rb_commit rb) w1 [] (proj1 Hq) (proj1 S1) Hc) as (w2 & -> & S2 & L2).
  cbn beta iota. rewrite Z.eqb_refl. cbn [negb]. rewrite (ring_kept w [] w1) in * by (done || apply Hq).
  set (c := rv w q) in *. pose proof (shows_app _ _ _ _ _ _ S1 S2) as S12. cbn [app] in S12.
  destruct (commit_matches hdr (hdr_of_bytes c)) eqn:Ecm; cbn [negb].
  2: { exists rb, w2, (inr false). split_and!; try done. right. split_and!; [|done | done]. intros [_ [H _]]. congruence. }
  assert (Epl : u32 (n * bs) = n * bs) by (apply u32_small; nia).
  assert (Ehm : journal_compute_hmac j (h_sequence hdr) n refs (Some staged) (n * bs) (w2, [] : list bool) =
    (entry_tag dev j (h_sequence hdr) refs ls, (w2, []))).
  { unfold journal_compute_hmac, bind, kmalloc, ret, entry_tag. cbn beta iota zeta delta [fst snd negb].
    rewrite Hn. rewrite (hmac_message_eq _ n refs refs staged (concat ls)); try done; [lia | lia|].
    rewrite El in Hcc. rewrite Hcc. symmetry. apply ztake_all. rewrite (zlen_concat _ bs) by done. nia. }
  rewrite El, Epl. unfold bind at 1. rewrite Ehm. cbn beta iota.
  rewrite journal_eq_spec; [|unfold journal_extract_commit_tag, hdr_size; apply zlen_sub; unfold JOURNAL_HMAC_TAG_SIZE; lia
    |apply zlen_tag].
  case_bool_decide as Et; cbn [negb].
  2: { exists rb, w2, (inr false). split_and!; try done; [lia|]. right. split_and!; [|done | done]. intros [_ [_ H]]. done. }
  destruct (apply_run ls 0 refs staged [] w2 (proj1 S12)) as (w3 & E3 & S3); try done; [rewrite El; lia|].
  rewrite En in E3. unfold bind at 1. rewrite E3. cbn beta iota.
  exists (mkBufs (rb_buf rb) c staged), w3. eexists. do 4 (split; [done || lia|]). split.
  { split; [done|]. intros _. split; [done|]. cbn [rb_staged]. rewrite Hz. exact Hs. }
  left. split; [split; [lia | by split]|]. split; [done|]. by apply (shows_app dev w [] w2 _ w3).
Qed.

Lemma loop_step fuel auth p r rb w p' rb' w' : left bc head p r -> 0 < r ->
  replay_step dev j auth p rb (w, []) = (inl (p', rb'), (w', [])) ->
  replay_loop dev (S fuel) j auth p rb (w, []) = replay_loop dev fuel j auth p' rb' (w', []).
Proof.
  intros Hp Hr E. cbn [replay_loop]. rewrite (left_zero bc head p r Hp). replace (r =? 0) with false by lia.
  unfold bind. by rewrite E.
Qed.

(** A round reads the block at its position first. *)
Lemma step_read auth p r rb w : left bc head p r -> disk_inv w -> bufs_ok auth rb ->
  exists w1, shows dev w [] w1 /\ bufs_ok auth (mkBufs (rv w p) (rb_commit rb) (rb_staged rb)) /\
    replay_step dev j auth p rb (w, []) =
    (let rb := mkBufs (rv w p) (rb_commit rb) (rb_staged rb) in
     let hdr := hdr_of_bytes (rv w p) in
     if negb (h_magic hdr =? JOURNAL_MAGIC) then ret (inr true) else
     if h_type hdr =? JOURNAL_ENTRY_COMMIT then ret (inl (next_pos j p, rb)) else
     if (h_type hdr =? JOURNAL_ENTRY_WRITE_META) && (0 <? h_block_count hdr) then
       let n := Z.min (h_block_count hdr) JOURNAL_ENTRY_MAX_BLOCKS in
       let refs := refs_of_block (rv w p) n in
       if negb auth then
         bind (legacy_loop dev (Z.to_nat n) j refs 0 (next_pos j p)) (fun q => ret (inl (q, rb)))
       else auth_entry dev j hdr refs n (next_pos j p) rb
     else ret (inl (next_pos j p, rb))) (w1, []).
Proof.
  intros Hp Hw [Hb Hb2]. destruct (read_ring p (rb_buf rb) w [] (proj1 Hp) Hw Hb) as (w1 & E1 & S1 & L1).
  exists w1. split; [done|]. split; [by split|]. unfold replay_step. unfold bind at 1. by rewrite E1.
Qed.

(** A commit block on its own is skipped. *)
Lemma commit_round auth p r rb w x : left bc head p r -> 0 < r -> disk_inv w -> bufs_ok auth rb ->
  commit_is dev j auth x (rv w p) ->
  exists rb' w', shows dev w [] w' /\ bufs_ok auth rb' /\ forall fuel,
    replay_loop dev (S fuel) j auth p rb (w, []) = replay_loop dev fuel j auth (step_pos bc p) rb' (w', []).
Proof.
  intros Hp Hr Hw Hb (Em & Et & _). destruct (step_read auth p r rb w Hp Hw Hb) as (w1 & S1 & Hb1 & E).
  cbv zeta in E. rewrite Em, Et in E. cbn [negb] in E. rewrite !Z.eqb_refl in E. cbn [negb] in E.
  eexists _, w1. split; [done|]. split; [exact Hb1|]. intros fuel. by apply (loop_step fuel auth p r).
Qed.

(** The replay of the blocks of one transaction makes its writes. *)
Lemma replay_entry auth x l p r w rb : is_entry dev j auth x l -> tx_ok dev j x -> left bc head p r ->
  zlen l <= r -> ring_at bc (rv w) p l -> disk_inv w -> bufs_ok auth rb ->
  exists k rb' w', (k <= length l)%nat /\ shows dev w (tx_writes x) w' /\ bufs_ok auth rb' /\
    forall fuel, replay_loop dev (k + fuel) j auth p rb (w, []) =
      replay_loop dev fuel j auth (walk bc p (length l)) rb' (w', []).
Proof.
  intros (m & c & -> & Hm & Hc) [Hxs Hxr Hxl Hxm Hxb Hxo] Hp Hl Hra Hw Hb.
  rewrite zlen_cons, zlen_app, zlen_cons in Hl. change (zlen (@nil (list Z))) with 0 in Hl.
  pose proof (zlen_nonneg (x_blocks x)) as Hn0.
  assert (Exl : zlen (x_refs x) = zlen (x_blocks x)) by (unfold zlen; lia).
  destruct Hra as [Epm Hra]. apply ring_at_app in Hra as [Hrb [Epc _]]; [|apply bc_range].
  assert (Hp1 : left bc head (step_pos bc p) (r - 1)) by (apply left_step; [apply bc_range | done | lia]). fold (next_pos j p) in Hp1.
  pose proof (left_walk bc bc_range head (length (x_blocks x)) _ _ Hp1 ltac:(unfold zlen in *; lia)) as Hpc.
  destruct (step_read auth p r rb w Hp Hw Hb) as (w1 & S1 & Hb1 & E). rewrite Epm in *.
  destruct Hm as (Mm & Mt & Ms & Mc & Mr). cbv zeta in E. rewrite Mm, Mt, Mc in E.
  change (JOURNAL_ENTRY_WRITE_META =? JOURNAL_ENTRY_COMMIT) with false in E. rewrite !Z.eqb_refl in E. cbn [negb andb] in E.
  rewrite Z.min_l, Mr in E by lia.
  assert (Ew : S (S (length (x_blocks x))) = length (m :: x_blocks x ++ [c])) by (cbn [length]; rewrite length_app; cbn; lia).
  rewrite <- Ew. clear Ew.
  rewrite (walk_S bc p). set (n := length (x_blocks x)) in *. set (p1 := step_pos bc p) in *.
  change (next_pos j p) with p1 in *. set (rbm := mkBufs m _ _) in *.
  assert (two : forall w2, replay_step dev j auth p rb (w, []) = (inl (walk bc p1 n, rbm), (w2, [])) ->
    shows dev w (tx_writes x) w2 -> exists k rb' w', (k <= S (S n))%nat /\ shows dev w (tx_writes x) w' /\
    bufs_ok auth rb' /\ forall fuel, replay_loop dev (k + fuel) j auth p rb (w, []) =
      replay_loop dev fuel j auth (walk bc p1 (S n)) rb' (w', [])).
  { intros w2 E2 S2. assert (Hc2 : commit_is dev j auth x (rv w2 (walk bc p1 n)))
      by (rewrite (ring_kept w (tx_writes x) w2 S2 Hxo _ (proj1 Hpc)); by rewrite Epc).
    destruct (commit_round auth _ _ rbm w2 x Hpc ltac:(unfold n, zlen in *; lia) (proj1 S2) Hb1 Hc2) as
      (rb3 & w3 & S3 & Hb3 & E3). exists 2%nat, rb3, w3. split; [lia|]. split; [|split; [done|]].
    - rewrite <- (app_nil_r (tx_writes x)). by apply (shows_app dev w _ w2 [] w3).
    - intros fuel. cbn [Nat.add]. rewrite (loop_step _ auth p r rb w _ _ _ Hp ltac:(lia) E2). apply E3. }
  destruct (Z.ltb_spec 0 (zlen (x_refs x))) as [Hpos|Hz].
  2: { assert (E0 : x_blocks x = []) by (apply zlen_nil; lia).
    apply (two w1); [rewrite E; unfold n; by rewrite E0|].
    unfold tx_writes. rewrite E0. by destruct (x_refs x). }
  replace (Z.to_nat (zlen (x_refs x))) with n in E by (unfold n, zlen; lia).
  destruct auth; cbn [negb] in E.
  - clear two. destruct (auth_run (hdr_of_bytes m) (x_refs x) _ p1 _ w1 rbm eq_refl ltac:(lia) Hp1 (proj1 S1) Hb1)
      as (ls & rb' & w2 & res & E2 & Hll & Hrl & Hfl & Hb2 & Hres).
    apply (ring_at_ext bc bc_range _ (rv w)) in Hrl; [|apply Hp1|by apply (ring_kept w [] w1)].
    assert (ls = x_blocks x) as -> by (apply (ring_at_inj bc (rv w) ls p1); [done | done | unfold zlen in *; lia]).
    replace (Z.to_nat (zlen (x_refs x))) with n in Hres by (unfold n, zlen; lia).
    rewrite (ring_kept w [] w1 S1 ltac:(done) _ (proj1 Hpc)), Epc in Hres.
    destruct Hres as [(_ & -> & S2) | (Hno & _)].
    + exists 1%nat, rb', w2. split; [lia|]. split; [by apply (shows_app dev w [] w1 _ w2)|]. split; [done|].
      intros fuel. cbn [Nat.add]. apply (loop_step fuel true p r); [done | lia|]. by rewrite E.
    + destruct Hno. split; [unfold n, zlen in *; lia|]. destruct Hc as (Cm & Ct & Cs & Ch). destruct (Ch eq_refl) as [Cf Cg].
      split; [|unfold tag_is in Cg; by rewrite Ms].
      unfold commit_matches. rewrite Cm, Ct, Cs, Ms, !Z.eqb_refl. cbn [andb]. by apply negb_true_iff, Z.eqb_neq.
  - destruct (legacy_run (x_blocks x) 0 (x_refs x) p1 _ w1 (proj1 S1) Hp1 ltac:(lia) ltac:(lia)) as (w2 & E2 & S2);
      [|lia|done|].
    { revert Hrb. apply ring_at_ext; [apply bc_range | apply Hp1|].
      intros q Hq. symmetry. by apply (ring_kept w [] w1). }
    apply (two w2); [|by apply (shows_app dev w [] w1 _ w2)].
    rewrite E. fold n in E2. unfold bind. by rewrite E2.
Qed.

Lemma txs_out txs : Forall (tx_ok dev j) txs -> Forall (fun a => ~ in_area j a.1) (txs_writes txs).
Proof.
  intros H. apply Forall_concat, Forall_fmap. eapply Forall_impl; [exact H|]. by intros x [].
Qed.

(** The replay loop makes the writes of all the transactions, in order. *)
Lemma replay_all auth txs : forall l p w rb fuel, entries dev j auth txs l -> Forall (tx_ok dev j) txs ->
  left bc head p (zlen l) -> ring_at bc (rv w) p l -> disk_inv w -> bufs_ok auth rb -> (length l <= fuel)%nat ->
  exists w', replay_loop dev fuel j auth p rb (w, []) = (Some true, (w', [])) /\ shows dev w (txs_writes txs) w'.
Proof.
  induction txs as [|x txs IH]; intros l p w rb fuel He Hok Hp Hra Hw Hb Hf; cbn [entries] in He.
  { subst l. exists w. split; [|by apply shows_refl]. pose proof (left_zero bc head p _ Hp) as E.
    destruct fuel; cbn [replay_loop]; by rewrite E. }
  destruct He as (e & l' & -> & He & Hl'). inversion Hok as [|? ? Hx Hxs]; subst.
  rewrite zlen_app in Hp. pose proof (zlen_nonneg l'). rewrite length_app in Hf.
  apply ring_at_app in Hra as [Hr1 Hr2]; [|apply bc_range].
  destruct (replay_entry auth x e p _ w rb He Hx Hp ltac:(lia) Hr1 Hw Hb) as (k & rb1 & w1 & Hk & S1 & Hb1 & E1).
  destruct (IH l' (walk bc p (length e)) w1 rb1 (fuel - k)%nat) as (w2 & E2 & S2); try done; [| |apply S1|lia|].
  - pose proof (left_walk bc bc_range head (length e) p _ Hp ltac:(unfold zlen in *; lia)) as H'.
    by replace (zlen l') with (zlen e + zlen l' - Z.of_nat (length e)) by (unfold zlen; lia).
  - apply (ring_at_kept w (tx_writes x) w1); [done | by destruct Hx | | done].
    apply (left_walk bc bc_range head (length e) p _ Hp). unfold zlen in *; lia.
  - exists w2. replace fuel with (k + (fuel - k))%nat by lia. rewrite E1, E2. split; [done|].
    by apply (shows_app dev w _ w1 _ w2).
Qed.

Lemma alloc_run auth b : zlen b = bs -> exists rb, bufs_ok auth rb /\
  forall w, replay_alloc dev auth b (w, []) = (Some rb, (w, [])).
Proof.
  intros Hb. destruct auth.
  - exists (mkBufs b (zrep bs 0) (zrep (JOURNAL_ENTRY_MAX_BLOCKS * bs) 0)). split; [|done].
    split; [done|]. intros _. cbn [rb_commit rb_staged]. unfold JOURNAL_ENTRY_MAX_BLOCKS. rewrite !zlen_rep; lia.
  - exists (mkBufs b [] []). split; [by split|]. done.
Qed.

Lemma write_super s w : zlen (sb_reserved s) = 28 -> disk_inv w -> exists rc w',
  journal_write_block dev j 0 (sb_block dev s) (w, []) = (rc, (w', [])) /\
  shows dev w [(start_block j, sb_block dev s)] w'.
Proof.
  intros Hs Hw. pose proof (disk_count (dev := dev)). destruct Ha.
  unfold journal_write_block. rewrite Z.add_0_r, u64_small, u32_small by lia.
  apply write_any; [done | lia | by apply sb_block_eq].
Qed.

(** The replay of an unclean journal that holds [txs]. *)
Lemma replay_run auth txs l w fuel : journal_is_authenticated j = auth ->
  (sb_version (sb j) = JOURNAL_VERSION_AUTH -> 0 < hmac_key_len j) -> zlen (sb_reserved (sb j)) = 28 ->
  entries dev j auth txs l -> Forall (tx_ok dev j) txs -> left bc head (sb_tail (sb j)) (zlen l) ->
  ring_at bc (rv w) (sb_tail (sb j)) l -> disk_inv w -> (length l <= fuel)%nat ->
  exists ws w', (journal_replay dev fuel j (w, [])).1.1 = Some 0 /\
    (journal_replay dev fuel j (w, [])).2 = (w', []) /\
    shows dev w (txs_writes txs ++ ws) w' /\ Forall (fun a => in_area j a.1) ws.
Proof.
  intros Hau Hk Hsb He Hok Hp Hra Hw Hf. unfold journal_replay, journal_needs_replay. rewrite negb_involutive.
  rewrite Z.eqb_sym, (left_zero bc head _ _ Hp). destruct (Z.eqb_spec (zlen l) 0) as [Hl|Hl].
  { apply zlen_nil in Hl as ->. destruct txs as [|x txs]; [|by destruct He as ([|] & ? & ? & (? & ? & ? & _) & _)].
    exists [], w. split_and!; done. }
  replace ((sb_version (sb j) =? JOURNAL_VERSION_AUTH) && (hmac_key_len j =? 0)) with false.
  2: { symmetry. apply andb_false_iff. destruct (Z.eqb_spec (sb_version (sb j)) JOURNAL_VERSION_AUTH) as [Hv|]; [|by left].
    right. specialize (Hk Hv). lia. }
  rewrite Hau. unfold kmalloc_buf, kmalloc, bind, ret. cbn beta iota zeta delta [fst snd].
  destruct (alloc_run auth (zrep bs 0)) as (rb & Hb & Er); [apply zlen_rep; lia|]. rewrite Er. clear Er.
  destruct (replay_all auth txs l (sb_tail (sb j)) w rb fuel) as (w1 & -> & S1); try done.
  destruct (write_super (retire (sb j)) w1 Hsb (proj1 S1)) as (rc & w2 & E2 & S2).
  change (journal_write_block dev (set_sb j (retire (sb j))) 0) with (journal_write_block dev j 0).
  cbn [sb set_sb]. cbn beta iota zeta delta [fst snd]. rewrite E2. exists [(start_block j, sb_block dev (retire (sb j)))], w2. split_and!; try done.
  - by apply (shows_app dev w _ w1 _ w2).
  - apply Forall_singleton. unfold in_area. cbn [fst]. destruct Ha. lia.
Qed.
End replay.

(** ** The writes of a commit *)
Section commit.
Context {W : Type} (dev : block_device W).
Local Abbreviation bs := (dev_block_size dev).

(** Write blocks one by one, whatever the device answers. *)
Definition run_writes (ws : list (Z * list Z)) (w : W) : W :=
  foldl (fun w a => (block_device_write (Some dev) a.1 a.2 w).2) w ws.

Definition ring_index_of (j : journal) (p : Z) : Z := u32 (u64 (start_block j + ring_block p)).

(** The writes of [l] to the ring from position [p] on. *)
Fixpoint ring_writes (j : journal) (p : Z) (l : list (list Z)) : list (Z * list Z) :=
  match l with
  | [] => []
  | b :: l => (ring_index_of j p, b) :: ring_writes j (next_pos j p) l
  end.

Lemma ring_writes_app j l : forall p l', ring_writes j p (l ++ l') =
  ring_writes j p l ++ ring_writes j (walk (sb_block_count (sb j)) p (length l)) l'.
Proof.
  induction l as [|b l IH]; intros p l'; [done|]. cbn [app ring_writes length]. by rewrite IH, walk_S.
Qed.

Lemma ring_writes_ext j j' l : start_block j' = start_block j -> sb_block_count (sb j') = sb_block_count (sb j) ->
  forall p, ring_writes j' p l = ring_writes j p l.
Proof.
  intros E1 E2. induction l as [|b l IH]; intros p; [done|]. cbn [ring_writes].
  unfold ring_index_of, next_pos. by rewrite E1, E2, IH.
Qed.

Lemma append_run j b w mem : append_block dev j b (w, mem) =
  (set_head j (next_pos j (sb_head (sb j))), (run_writes (ring_writes j (sb_head (sb j)) [b]) w, mem)).
Proof.
  unfold append_block, journal_write_block, dev_write, bind, ret. cbn [fst snd run_writes ring_writes foldl].
  unfold ring_index_of. by destruct (block_device_write _ _ _ _).
Qed.

Definition slots (buf : list Z) (i : Z) (n : nat) : list (list Z) :=
  map (fun k => sub_bytes buf (k * bs) bs) (seqZ i (Z.of_nat n)).

Lemma slots_S buf i n : slots buf i (S n) = sub_bytes buf (i * bs) bs :: slots buf (i + 1) n.
Proof. unfold slots. rewrite seqZ_cons by lia. cbn [map]. do 3 f_equal; lia. Qed.

Lemma length_slots buf i n : length (slots buf i n) = n.
Proof. unfold slots. rewrite length_map, length_seqZ. lia. Qed.

Lemma set_head_head j h h' : set_head (set_head j h) h' = set_head j h'.
Proof. done. Qed.

Lemma head_set_head j h : sb_head (sb (set_head j h)) = h.
Proof. done. Qed.

Lemma count_set_head j h : sb_block_count (sb (set_head j h)) = sb_block_count (sb j).
Proof. done. Qed.

Lemma append_data_run n : forall j i buf w mem, append_data dev n j i buf (w, mem) =
  (set_head j (walk (sb_block_count (sb j)) (sb_head (sb j)) n),
   (run_writes (ring_writes j (sb_head (sb j)) (slots buf i n)) w, mem)).
Proof.
  induction n as [|n IH]; intros j i buf w mem; [by destruct j as [? ? [] ? ? ? ? ? ?]|].
  cbn [append_data]. unfold bind. rewrite append_run, IH, slots_S, walk_S. cbn [ring_writes run_writes foldl].
  f_equal. f_equal. unfold run_writes. by rewrite (ring_writes_ext j).
Qed.

(** The commit block, and the journal after the commit. *)
Definition final_commit (j : journal) (txn : journal_transaction) : list Z :=
  if journal_is_authenticated j then
    let pl := if 0 <? ref_count txn then u32 (ref_count txn * bs) else 0 in
    let msg := hmac_message (t_sequence txn) (ref_count txn) (refs txn)
                 (if 0 <? ref_count txn then data_buffer txn else None) pl in
    commit_block dev (t_sequence txn) JOURNAL_ENTRY_FLAG_HMAC
      (ztake JOURNAL_HMAC_TAG_SIZE (default [] (crypt_hmac_sha256 (hmac_key j) (hmac_key_len j) (Some msg)
        (21 + ref_count txn * ref_size + pl) (Some (zrep SHA256_DIGEST_SIZE 0))).1))
  else commit_block dev (t_sequence txn) 0 [].

Definition entry_blocks (j : journal) (txn : journal_transaction) : list (list Z) :=
  meta_block dev txn :: slots (default [] (data_buffer txn)) 0 (Z.to_nat (ref_count txn)) ++ [final_commit j txn].

Definition committed_journal (j : journal) (txn : journal_transaction) : journal :=
  set_run (set_head j (walk (sb_block_count (sb j)) (sb_head (sb j)) (S (S (Z.to_nat (ref_count txn))))))
    (current_sequence j) true (replaying j).

Definition commit_writes (j : journal) (txn : journal_transaction) : list (Z * list Z) :=
  ring_writes j (sb_head (sb j)) (entry_blocks j txn) ++
  [(u32 (u64 (start_block j + 0)), sb_block dev (sb (committed_journal j txn)))].

Lemma commit_tag_run j h txn w : exists f t, commit_tag dev (set_head j h) txn (w, []) = ((f, t), (w, [])) /\
  commit_block dev (t_sequence txn) f t = final_commit j txn.
Proof.
  unfold commit_tag, final_commit. change (journal_is_authenticated (set_head j h)) with (journal_is_authenticated j).
  destruct (journal_is_authenticated j); cbn [negb]; [|by eexists _, _].
  unfold journal_compute_hmac, bind, kmalloc, ret. cbn beta iota zeta delta [fst snd negb].
  by eexists _, _.
Qed.

(** A commit that has room makes exactly these writes and returns 0. *)
Lemma commit_run j txn w : committed txn = false ->
  ref_count txn + 2 <= u32 (sb_block_count (sb j) - ring_used (sb j) - 1) ->
  journal_commit dev j txn (w, []) =
    ((0, committed_journal j txn, end_txn txn true (ref_count txn)), (run_writes (commit_writes j txn) w, [])).
Proof.
  intros Hc Hr. unfold journal_commit. rewrite Hc. cbv zeta.
  replace (_ <? 1 + ref_count txn + 1) with false by lia.
  unfold bind at 1, kmalloc at 1. cbn beta iota zeta delta [fst snd negb].
  unfold bind at 1. rewrite append_run. cbn beta iota. unfold bind at 1. rewrite append_data_run. cbn beta iota.
  rewrite set_head_head, head_set_head, count_set_head.
  set (n := Z.to_nat (ref_count txn)). set (h2 := walk _ _ n). set (bl := slots _ 0 n).
  set (w2 := run_writes (ring_writes (set_head j _) _ bl) _).
  destruct (commit_tag_run j h2 txn w2) as (f & t & E & Ec).
  unfold bind at 1. rewrite E. cbn beta iota. rewrite Ec. unfold bind at 1. rewrite append_run. cbn beta iota.
  rewrite set_head_head, head_set_head. subst w2.
  rewrite !(ring_writes_ext j (set_head j _)) by done.
  unfold bind, kmalloc_buf, kmalloc, bind, ret. cbn beta iota zeta delta [fst snd negb].
  unfold journal_write_block, dev_write. cbn beta iota zeta delta [fst snd].
  assert (Eh : next_pos (set_head j h2) h2 = walk (sb_block_count (sb j)) (sb_head (sb j)) (S (S n)))
    by (rewrite walk_S; done). rewrite Eh.
  assert (Ew : commit_writes j txn = ring_writes j (sb_head (sb j)) [meta_block dev txn] ++
    ring_writes j (next_pos j (sb_head (sb j))) bl ++ ring_writes j h2 [final_commit j txn] ++
    [(u32 (u64 (start_block j + 0)), sb_block dev (sb (committed_journal j txn)))]).
  { unfold commit_writes, entry_blocks. fold n. fold bl. cbn [app ring_writes]. f_equal.
    rewrite ring_writes_app, <- app_assoc. unfold bl at 2. by rewrite length_slots. }
  rewrite Ew. unfold run_writes. rewrite !foldl_app. 
  generalize (foldl (fun w a => (block_device_write (Some dev) a.1 a.2 w).2)
    (foldl (fun w a => (block_device_write (Some dev) a.1 a.2 w).2)
      (foldl (fun w a => (block_device_write (Some dev) a.1 a.2 w).2) w (ring_writes j (sb_head (sb j)) [meta_block dev txn]))
      (ring_writes j (next_pos j (sb_head (sb j))) bl)) (ring_writes j h2 [final_commit j txn])). intros w3.
  cbn [foldl fst snd]. unfold committed_journal. fold n.
  generalize (walk (sb_block_count (sb j)) (sb_head (sb j)) (S (S n))). intros h3. clear.
  cbn [set_run set_head set_sb start_block current_sequence replaying sb].
  by destruct (block_device_write _ _ _ _).
Qed.
End commit.

(** ** What a transaction object records *)
Section recorded.
Context {W : Type} (dev : block_device W) (j : journal).
Local Abbreviation bs := (dev_block_size dev).
Context (Hbs : 512 <= bs <= 65536).

(** The open transaction [txn] holds [x]. *)
Record txn_is (txn : journal_transaction) (x : jtx) : Prop := {
  ti_open : committed txn = false;
  ti_seq : t_sequence txn = x_seq x;
  ti_count : ref_count txn = zlen (x_refs x);
  ti_len : zlen (refs txn) = JOURNAL_ENTRY_MAX_BLOCKS;
  ti_refs : ztake (ref_count txn) (refs txn) = x_refs x;
  ti_blocks : slots dev (default [] (data_buffer txn)) 0 (Z.to_nat (ref_count txn)) = x_blocks x;
  ti_data : 0 < ref_count txn -> is_Some (data_buffer txn);
  ti_buf b : data_buffer txn = Some b -> zlen b = JOURNAL_ENTRY_MAX_BLOCKS * bs;
  ti_used : 0 <= data_used txn < 2 ^ 32 }.

Lemma concat_slots b n : (Z.of_nat n) * bs <= zlen b -> concat (slots dev b 0 n) = ztake (Z.of_nat n * bs) b.
Proof.
  intros H. induction n as [|n IH]; [done|]. unfold slots in *.
  replace (Z.of_nat (S n)) with (Z.of_nat n + 1) in * by lia. rewrite seqZ_snoc by lia.
  rewrite map_app, concat_app, IH by nia. cbn [map concat]. rewrite app_nil_r, Z.add_0_l.
  unfold sub_bytes, ztake, zdrop, zlen in *.
  replace (Z.to_nat ((Z.of_nat n + 1) * bs)) with (Z.to_nat (Z.of_nat n * bs) + Z.to_nat bs)%nat by nia.
  by rewrite take_take_drop.
Qed.

Lemma meta_recorded txn x : txn_is txn x -> tx_ok dev j x -> meta_is x (meta_block dev txn).
Proof.
  intros [] []. unfold JOURNAL_ENTRY_MAX_BLOCKS in *. pose proof (zlen_nonneg (x_refs x)).
  unfold meta_block. rewrite refs_take, ti_refs0 by lia.
  assert (Hz : zlen (refs_bytes (x_refs x)) = 16 * zlen (x_refs x)) by apply zlen_refs_bytes.
  set (h := mkHdr _ _ _ _ _ _ _).
  destruct (entry_block_hdr dev Hbs h (refs_bytes (x_refs x))) as (E1 & E2 & E3 & E4 & _); [lia| |].
  { constructor; cbn -[Z.pow]; unfold JOURNAL_MAGIC, JOURNAL_ENTRY_WRITE_META; lia. }
  unfold meta_is. cbv zeta. rewrite E1, E2, E3, E4. split_and!; try done.
  rewrite <- (refs_decode (x_refs x) (zlen (x_refs x))) at 3 by done. unfold refs_of_block.
  apply map_ext_in. intros i Hi. apply list_elem_of_In, elem_of_seqZ in Hi.
  f_equal. unfold hdr_size, ref_size. rewrite entry_block_rest; [|done|lia..]. f_equal. lia.
Qed.

Lemma commit_recorded auth txn x : journal_is_authenticated j = auth -> txn_is txn x -> tx_ok dev j x ->
  commit_is dev j auth x (final_commit dev j txn).
Proof.
  intros Hau [] []. unfold JOURNAL_ENTRY_MAX_BLOCKS in *. pose proof (zlen_nonneg (x_refs x)).
  unfold final_commit. rewrite Hau.
  set (tag := ztake JOURNAL_HMAC_TAG_SIZE _).
  assert (Et : tag = entry_tag dev j (x_seq x) (x_refs x) (x_blocks x)).
  { subst tag. unfold entry_tag. rewrite ti_count0, ti_seq0. destruct (Z.ltb_spec 0 (zlen (x_refs x))).
    - rewrite ti_count0 in *. destruct (ti_data0 ltac:(lia)) as (b & Eb). pose proof (ti_buf0 b Eb) as Lb. rewrite Eb in *. cbn [from_option id] in *.
      rewrite u32_small by nia. rewrite (hmac_message_eq _ _ _ (x_refs x) b (concat (x_blocks x))); try done; try lia.
      + rewrite ti_refs0. symmetry. by apply ztake_all.
      + rewrite <- ti_blocks0, concat_slots by nia. rewrite Z2Nat.id by lia. symmetry. apply ztake_all.
        rewrite zlen_take; nia.
    - assert (E0 : x_refs x = []) by (apply zlen_nil; lia).
      assert (E1 : x_blocks x = []) by (apply length_zero_iff_nil; rewrite <- xo_len0; by rewrite E0).
      rewrite E0, E1. done. }
  assert (Hl : zlen tag = 16) by (rewrite Et; apply zlen_tag). clearbody tag.
  assert (Hh : forall f t, zlen t <= 256 -> 0 <= f < 2 ^ 32 -> let h := hdr_of_bytes (commit_block dev (t_sequence txn) f t) in
    h_magic h = JOURNAL_MAGIC /\ h_type h = JOURNAL_ENTRY_COMMIT /\ h_sequence h = x_seq x /\ h_flags h = f).
  { intros f t Ht Hf. destruct (entry_block_hdr dev Hbs (mkHdr JOURNAL_MAGIC JOURNAL_ENTRY_COMMIT (t_sequence txn) 0 0 0 f) t Ht)
      as (E1 & E2 & E3 & _ & E5).
    { constructor; cbn -[Z.pow]; unfold JOURNAL_MAGIC, JOURNAL_ENTRY_COMMIT; lia. }
    cbv zeta. unfold commit_block. rewrite E1, E2, E3, E5. by rewrite <- ti_seq0. }
  destruct auth.
  - destruct (Hh JOURNAL_ENTRY_FLAG_HMAC tag ltac:(lia) ltac:(done)) as (E1 & E2 & E3 & E4).
    unfold commit_is. cbv zeta. rewrite E1, E2, E3, E4. split_and!; try done. intros _. split; [done|].
    unfold tag_is, journal_extract_commit_tag, commit_block, JOURNAL_HMAC_TAG_SIZE, hdr_size.
    rewrite entry_block_rest by (done || lia). rewrite <- Et, <- Hl. by rewrite Z.sub_diag, sub_bytes_all.
  - destruct (Hh 0 [] ltac:(done) ltac:(done)) as (E1 & E2 & E3 & E4). unfold commit_is. cbv zeta.
    rewrite E1, E2, E3. split_and!; done.
Qed.

Lemma entry_recorded auth txn x : journal_is_authenticated j = auth -> txn_is txn x -> tx_ok dev j x ->
  is_entry dev j auth x (entry_blocks dev j txn).
Proof.
  intros Ha Ht Hx. exists (meta_block dev txn), (final_commit dev j txn).
  split; [|split; [by apply meta_recorded | by apply commit_recorded]].
  unfold entry_blocks. by rewrite (ti_blocks _ _ Ht).
Qed.
End recorded.

(** ** A machine that stops *)
Section crash.
Context {W : Type} (dev : block_device W) `{!DiskSpec dev, !ReliableDisk dev}.
Local Abbreviation bs := (dev_block_size dev).
Context (Hbs : 512 <= bs <= 65536).

(** Only the first [k] writes reach the medium: the state is [(k, w)]. *)
Definition crash_write (n : Z) (data : list Z) (s : nat * W) : Z * (nat * W) :=
  match s.1 with
  | O => (0, s)
  | S k => let '(rc, w) := block_device_write (Some dev) n data s.2 in (rc, (k, w))
  end.

Definition crash_read (n : Z) (b : list Z) (s : nat * W) : Z * list Z * (nat * W) :=
  let '(rc, b, w) := block_device_read (Some dev) n b s.2 in (rc, b, (s.1, w)).

Definition crash_dev : block_device (nat * W) :=
  mkDev (dev_name dev) bs (dev_block_count dev)
    (Some (mkOps (Some crash_read) (Some crash_write) None None None None None)).

Definition block_ok (a : Z * list Z) : Prop := 0 <= a.1 < dev_block_count dev /\ zlen a.2 = bs.

Lemma crash_write_eq n b s : n < dev_block_count dev -> block_device_write (Some crash_dev) n b s = crash_write n b s.
Proof.
  intros H. cbn [block_device_write crash_dev dev_ops dev_block_count op_write_block_ex op_write_block].
  by replace (dev_block_count dev <=? n) with false by lia.
Qed.

Lemma run_writes_crash ws : forall k w, Forall block_ok ws ->
  run_writes crash_dev ws (k, w) = ((k - length ws)%nat, run_writes dev (take k ws) w).
Proof.
  induction ws as [|a ws IH]; intros k w Hf; [cbn; by rewrite Nat.sub_0_r, take_nil|].
  inversion Hf as [|? ? [Ha Hl] Hf']; subst. unfold run_writes. cbn [foldl].
  rewrite (crash_write_eq a.1 a.2 (k, w)) by lia. unfold crash_write. cbn [fst snd]. destruct k as [|k].
  - etrans; [apply (IH 0%nat w Hf')|]. by rewrite take_0.
  - cbn [take length Nat.sub]. destruct (block_device_write (Some dev) a.1 a.2 w) as [rc w1] eqn:E1. cbn [snd].
    etrans; [apply (IH k w1 Hf')|]. unfold run_writes. cbn [foldl]. by rewrite E1.
Qed.

Lemma shows_run ws : forall w, disk_inv w -> Forall block_ok ws -> shows dev w ws (run_writes dev ws w).
Proof.
  induction ws as [|a ws IH]; intros w Hw Hf; [by apply shows_refl|].
  inversion Hf as [|? ? [Ha Hl] Hf']; subst. cbn [run_writes foldl].
  pose proof (shows_write dev w a.1 a.2 Hw ltac:(lia) Hl) as S1. rewrite <- surjective_pairing in S1.
  exact (shows_app dev w [a] _ ws _ S1 (IH _ (proj1 S1) Hf')).
Qed.

Context (j : journal) (Ha : area_ok dev j).
Local Abbreviation bc := (sb_block_count (sb j)).

Lemma ring_index_eq p : 0 <= p < bc -> ring_index_of j p = start_block j + 1 + p.
Proof. intros. unfold ring_index_of. by apply (ring_index dev). Qed.

Lemma ring_writes_where l : forall p, 0 <= p < bc ->
  Forall (fun a => exists i, (i < length l)%nat /\ a.1 = start_block j + 1 + walk bc p i) (ring_writes j p l).
Proof.
  induction l as [|b l IH]; intros p Hp; [constructor|]. cbn [ring_writes length]. constructor.
  - exists 0%nat. split; [lia|]. by apply ring_index_eq.
  - eapply Forall_impl; [apply IH, step_pos_range, (bc_range dev j Ha)|].
    intros a (i & Hi & E). exists (S i). split; [lia|]. by rewrite E, walk_S.
Qed.

Lemma ring_writes_ok l p : 0 <= p < bc -> Forall (fun b => zlen b = bs) l -> Forall block_ok (ring_writes j p l).
Proof.
  revert p. induction l as [|b l IH]; intros p Hp Hf; [constructor|]. inversion Hf; subst. cbn [ring_writes]. constructor.
  - split; [|done]. cbn [fst]. rewrite ring_index_eq by done. destruct Ha. lia.
  - apply IH; [apply step_pos_range, (bc_range dev j Ha) | done].
Qed.

(** Two positions less than the ring apart are different. *)
Lemma walk_ne p a b : 0 <= p < bc -> (a < b)%nat -> Z.of_nat b < bc -> walk bc p a <> walk bc p b.
Proof.
  intros Hp Hab Hb. pose proof (bc_range dev j Ha) as Hbc. rewrite !(walk_eq bc Hbc) by done. intros E.
  pose proof (Z.div_mod (p + Z.of_nat a) bc ltac:(lia)). pose proof (Z.div_mod (p + Z.of_nat b) bc ltac:(lia)).
  assert (bc * ((p + Z.of_nat b) / bc - (p + Z.of_nat a) / bc) = Z.of_nat b - Z.of_nat a) by lia.
  assert ((p + Z.of_nat b) / bc - (p + Z.of_nat a) / bc <= 0 \/ 1 <= (p + Z.of_nat b) / bc - (p + Z.of_nat a) / bc) by lia.
  nia.
Qed.

(** The ring holds what was written to it. *)
Lemma ring_written l : forall p v, 0 <= p < bc -> zlen l <= bc ->
  ring_at bc (ring_view j (foldl (upd dev) v (ring_writes j p l))) p l.
Proof.
  induction l as [|b l IH]; intros p v Hp Hl; [done|]. rewrite zlen_cons in Hl. cbn [ring_writes foldl ring_at].
  split; [|apply IH; [apply step_pos_range, (bc_range dev j Ha) | lia]].
  unfold ring_view. rewrite foldl_upd_other.
  - unfold upd. cbn [fst snd]. rewrite ring_index_eq by done. destruct Ha.
    rewrite Z.eqb_refl. by replace (_ <? _) with true by lia.
  - eapply Forall_impl; [apply ring_writes_where, step_pos_range, (bc_range dev j Ha)|].
    intros a (i & Hi & E). change (next_pos j p) with (step_pos bc p) in E. rewrite E, <- walk_S. pose proof (walk_ne p 0 (S i) Hp ltac:(lia)) as H.
    unfold zlen in Hl. specialize (H ltac:(lia)). cbn in H |- *. lia.
Qed.

(** Writes after the occupied part of the ring do not touch it. *)
Lemma ring_untouched l ws p v n : ring_at bc (ring_view j v) p l -> 0 <= p < bc -> zlen l + Z.of_nat n < bc + 1 ->
  Forall (fun a => a.1 = start_block j \/ exists i, (i < n)%nat /\ a.1 = start_block j + 1 + walk bc p (length l + i)) ws ->
  ring_at bc (ring_view j (foldl (upd dev) v ws)) p l.
Proof.
  intros Hr Hp Hn Hf. assert (G : forall i, (i < length l)%nat ->
    ring_view j (foldl (upd dev) v ws) (walk bc p i) = ring_view j v (walk bc p i)).
  { intros i Hi. unfold ring_view. apply foldl_upd_other. eapply Forall_impl; [exact Hf|].
    pose proof (bc_range dev j Ha) as Hbc. pose proof (walk_eq bc Hbc i p Hp) as Ew.
    pose proof (Z.mod_pos_bound (p + Z.of_nat i) bc ltac:(lia)).
    intros a [E | (k & Hk & E)] E'; [lia|].
    apply (walk_ne p i (length l + k) Hp ltac:(lia)); [unfold zlen in Hn; lia|]. lia. }
  clear Hf Hn. revert p Hp Hr G. induction l as [|b l IH]; intros p Hp Hr G; [done|].
  destruct Hr as [Hb Hr]. split; [rewrite <- Hb; apply (G 0%nat); cbn; lia|].
  apply IH; [apply step_pos_range, (bc_range dev j Ha) | done|].
  intros i Hi. rewrite <- walk_S. apply G. cbn. lia.
Qed.

(** The transactions that a disk with the contents [v] holds for the journal [j]. *)
Definition on_disk (auth : bool) (j : journal) (v : Z -> list Z) (txs : list jtx) : Prop :=
  Forall (tx_ok dev j) txs /\ sub_bytes (v (start_block j)) 0 sb_size = sb_bytes (sb j) /\
  exists l, entries dev j auth txs l /\ ring_at (sb_block_count (sb j)) (ring_view j v) (sb_tail (sb j)) l /\
    left (sb_block_count (sb j)) (sb_head (sb j)) (sb_tail (sb j)) (zlen l).

Lemma ring_used_eq l : left bc (sb_head (sb j)) (sb_tail (sb j)) l -> ring_used (sb j) = l.
Proof.
  intros (Hp & Hr & Eh). pose proof (bc_range dev j Ha). unfold ring_used.
  destruct (Z.lt_ge_cases (sb_tail (sb j) + l) bc).
  - rewrite Z.mod_small in Eh by lia. rewrite Eh. replace (_ <=? _) with true by lia. rewrite u32_small; lia.
  - rewrite <- (Z.mod_unique (sb_tail (sb j) + l) bc 1 (sb_tail (sb j) + l - bc)) in Eh by lia. rewrite Eh.
    replace (_ <=? _) with false by lia. rewrite u32_small; lia.
Qed.

Lemma entry_blocks_len txn x : txn_is dev txn x -> tx_ok dev j x ->
  Forall (fun b => zlen b = bs) (entry_blocks dev j txn) /\ zlen (entry_blocks dev j txn) = ref_count txn + 2.
Proof.
  intros [] []. unfold JOURNAL_ENTRY_MAX_BLOCKS in *. pose proof (zlen_nonneg (x_refs x)). unfold entry_blocks. split.
  - constructor; [|apply Forall_app_2; [by rewrite ti_blocks0 | apply Forall_singleton]].
    + unfold meta_block. apply entry_block_len; [done|]. rewrite refs_take, zlen_refs_bytes, zlen_take by lia. lia.
    + unfold final_commit, commit_block. destruct (journal_is_authenticated j); apply entry_block_len; try done.
      rewrite zlen_take by done. unfold JOURNAL_HMAC_TAG_SIZE. lia.
  - rewrite zlen_cons, zlen_app, zlen_cons. change (zlen (@nil (list Z))) with 0.
    rewrite ti_blocks0. unfold zlen in *. lia.
Qed.

Lemma sb_sub s : zlen (sb_reserved s) = 28 -> sub_bytes (sb_block dev s) 0 sb_size = sb_bytes s.
Proof.
  intros H. destruct (sb_block_eq dev Hbs s H) as ((y & ->) & _).
  apply sub_app_all. by rewrite sb_len.
Qed.

Lemma committed_area txn : area_ok dev (committed_journal j txn).
Proof.
  destruct Ha. constructor; try done. unfold committed_journal. cbn [sb set_run set_head set_sb sb_head sb_block_count].
  rewrite walk_eq by (apply (bc_range dev j Ha) || done). by apply Z.mod_pos_bound.
Qed.

Lemma entries_committed auth txn txs : forall l, entries dev j auth txs l ->
  entries dev (committed_journal j txn) auth txs l.
Proof. induction txs as [|x txs IH]; intros l H; [done|]. destruct H as (e & r & ? & ? & ?). exists e, r. auto. Qed.

Lemma tx_ok_committed txn x : tx_ok dev j x -> tx_ok dev (committed_journal j txn) x.
Proof. by intros []. Qed.

Lemma commit_writes_ok txn x : zlen (sb_reserved (sb j)) = 28 -> txn_is dev txn x -> tx_ok dev j x ->
  Forall block_ok (commit_writes dev j txn).
Proof.
  intros Hres Ht Hx. destruct (entry_blocks_len txn x Ht Hx) as [Hef _]. unfold commit_writes.
  pose proof (disk_count (dev := dev)). destruct Ha as [? ? ? Hh ?]. apply Forall_app_2; [by apply ring_writes_ok | apply Forall_singleton].
  rewrite Z.add_0_r, u64_small, u32_small by lia. split; [cbn [fst]; lia | by apply sb_block_eq].
Qed.

(** What a commit cut off after [k] writes leaves on the disk. *)
Lemma commit_cut auth txs txn x k w : disk_inv w -> journal_is_authenticated j = auth -> zlen (sb_reserved (sb j)) = 28 ->
  txn_is dev txn x -> tx_ok dev j x -> on_disk auth j (disk_view w) txs ->
  ref_count txn + 2 <= u32 (bc - ring_used (sb j) - 1) ->
  let n := S (length (entry_blocks dev j txn)) in
  let w' := run_writes dev (take k (commit_writes dev j txn)) w in
  disk_inv w' /\ (forall m, 0 <= m -> ~ in_area j m -> disk_view w' m = disk_view w m) /\
  if bool_decide (k < n)%nat then on_disk auth j (disk_view w') txs
  else on_disk auth (committed_journal j txn) (disk_view w') (txs ++ [x]).
Proof.
  intros Hw Hau Hres Ht Hx (Hok & Hs & l & He & Hr & Hl) Hroom n w'.
  pose proof (bc_range dev j Ha) as Hbc. pose proof (disk_count (dev := dev)) as Hdc.
  destruct (entry_blocks_len txn x Ht Hx) as [Hef Hel].
  pose proof (ao_head _ _ Ha) as Hhd. pose proof (ao_tail _ _ Ha) as Htl. pose proof (ao_end _ _ Ha). pose proof (ao_start _ _ Ha).
  rewrite (ring_used_eq _ Hl), u32_small in Hroom by (destruct Hl as (_ & ? & _); lia).
  assert (Eh : sb_head (sb j) = walk bc (sb_tail (sb j)) (length l)) by (rewrite walk_eq by done; apply Hl).
  set (rw := ring_writes j (sb_head (sb j)) (entry_blocks dev j txn)).
  assert (Ecw : commit_writes dev j txn = rw ++ [(start_block j, sb_block dev (sb (committed_journal j txn)))]).
  { unfold commit_writes. by rewrite Z.add_0_r, u64_small, u32_small by lia. }
  assert (Hlr : length rw = length (entry_blocks dev j txn)).
  { unfold rw. clear. generalize (sb_head (sb j)). induction (entry_blocks dev j txn) as [|b bl IH]; intros h; [done|].
    cbn [ring_writes length]. by rewrite IH. }
  assert (Hrw : Forall (fun a => exists i, (i < length (entry_blocks dev j txn))%nat /\
      a.1 = start_block j + 1 + walk bc (sb_tail (sb j)) (length l + i)) rw).
  { eapply Forall_impl; [by apply ring_writes_where|]. intros a (i & Hi & E). exists i. split; [done|].
    rewrite E, Eh, !walk_eq; try done; [|by rewrite walk_eq; [apply Z.mod_pos_bound; lia | done | done]].
    rewrite Zplus_mod_idemp_l. do 2 f_equal. lia. }
  set (sw := (start_block j, sb_block dev (sb (committed_journal j txn)))) in *.
  assert (Hwk : forall i, 0 <= walk bc (sb_tail (sb j)) i < bc) by (intros i; rewrite walk_eq by done; apply Z.mod_pos_bound; lia).
  pose proof (commit_writes_ok txn x Hres Ht Hx) as Hbo.
  pose proof (shows_run (take k (commit_writes dev j txn)) w Hw (Forall_take _ _ _ Hbo)) as Hsh. fold w' in Hsh.
  assert (Hin : Forall (fun a => in_area j a.1) (commit_writes dev j txn)).
  { rewrite Ecw. apply Forall_app_2; [|apply Forall_singleton; unfold in_area; cbn [fst sw]; lia].
    eapply Forall_impl; [exact Hrw|]. intros a (i & _ & E). unfold in_area. specialize (Hwk (length l + i)%nat). lia. }
  split; [apply Hsh|]. split.
  { intros m Hm Hma. apply (shows_other dev w _ w' m Hsh Hm).
    eapply Forall_impl; [apply Forall_take, Hin|]. intros a Hia E. by subst m. }
  assert (Hvw : forall p l', 0 <= p < bc -> ring_at bc (ring_view j (foldl (upd dev) (disk_view w) (take k (commit_writes dev j txn)))) p l' ->
    ring_at bc (ring_view j (disk_view w')) p l').
  { intros p l' Hp. apply ring_at_ext; [done | done|]. intros q Hq. symmetry. apply Hsh. lia. }
  assert (Hmem : forall m, Forall (fun a => a.1 = start_block j \/ exists i, (i < length (entry_blocks dev j txn))%nat /\
      a.1 = start_block j + 1 + walk bc (sb_tail (sb j)) (length l + i)) (take m (commit_writes dev j txn))).
  { intros m. apply Forall_take. rewrite Ecw. apply Forall_app_2; [|apply Forall_singleton; by left].
    eapply Forall_impl; [exact Hrw|]. intros a E. by right. }
  pose proof (ring_untouched l _ _ _ (length (entry_blocks dev j txn)) Hr Htl ltac:(unfold zlen in *; lia) (Hmem k)) as Hun.
  case_bool_decide as Hk.
  - split; [done|]. split; [|exists l; split_and!; try done; by apply Hvw].
    rewrite <- Hs. f_equal. apply (shows_other dev w _ w' _ Hsh H0).
    rewrite Ecw, take_app_le by lia. apply Forall_take. eapply Forall_impl; [exact Hrw|].
    intros a (i & _ & E). specialize (Hwk (length l + i)%nat). lia.
  - destruct Hsh as [_ Hsh]. rewrite take_ge in Hsh, Hvw, Hun by (rewrite Ecw, length_app, Hlr; subst n; cbn [length]; lia).
    split; [|split].
    + apply Forall_app_2; [|apply Forall_singleton; by apply tx_ok_committed].
      eapply Forall_impl; [exact Hok|]. apply tx_ok_committed.
    + change (start_block (committed_journal j txn)) with (start_block j).
      rewrite <- (sb_sub (sb (committed_journal j txn))) by done. f_equal.
      rewrite (Hsh _ H0), Ecw, foldl_snoc. unfold upd at 1, sw. cbn [fst snd].
      rewrite Z.eqb_refl. by replace (start_block j <? dev_block_count dev) with true by lia.
    + change (sb_block_count (sb (committed_journal j txn))) with bc.
      change (sb_tail (sb (committed_journal j txn))) with (sb_tail (sb j)).
      exists (l ++ entry_blocks dev j txn). split_and!.
      * apply entries_committed, entries_snoc; [done | by apply entry_recorded].
      * apply Hvw; [done|]. apply ring_at_app; [done|]. split; [done|]. rewrite <- Eh.
        rewrite Ecw, foldl_snoc. apply (ring_at_ext bc Hbc (ring_view j (foldl (upd dev) (disk_view w) rw))); [done| |].
        { intros q Hq. unfold ring_view, upd, sw. cbn [fst snd]. by replace (start_block j + 1 + q =? start_block j) with false by lia. }
        apply ring_written; [done | pose proof (zlen_nonneg l); lia].
      * rewrite zlen_app. unfold committed_journal. cbn [sb set_run set_head set_sb sb_head sb_block_count sb_tail].
        split_and!; try lia; [|]; rewrite ?Eh.
        { pose proof (zlen_nonneg l). pose proof (zlen_nonneg (entry_blocks dev j txn)). lia. }
        rewrite !walk_eq by (done || apply Z.mod_pos_bound; lia).
        rewrite Zplus_mod_idemp_l. f_equal. rewrite Hel. pose proof (zlen_nonneg (x_refs x)). destruct Ht. unfold zlen in *. lia.
Qed.
End crash.

(** ** Opening the journal *)
Section opening.
Context {W : Type} (dev : block_device W) `{!DiskSpec dev, !ReliableDisk dev}.
Local Abbreviation bs := (dev_block_size dev).
Context (Hbs : 512 <= bs <= 65536).

Lemma zero_key k : zlen k = JOURNAL_HMAC_KEY_MAX -> journal_zero_bytes k JOURNAL_HMAC_KEY_MAX = zrep 32 0.
Proof.
  intros Hk. unfold journal_zero_bytes, JOURNAL_HMAC_KEY_MAX in *.
  rewrite (fill_loop_spec (fun _ => 0)), splice_all by (rewrite ?zlen_map_seqZ; lia). reflexivity.
Qed.

(** A device block that starts with the superblock [s] opens as a journal with it. *)
Lemma init_run j0 w s start count : disk_inv w -> 0 <= start < dev_block_count dev ->
  sub_bytes (disk_view w start) 0 sb_size = sb_bytes s -> sb_ok s -> sb_magic s = JOURNAL_MAGIC ->
  sb_version s = JOURNAL_VERSION \/ sb_version s = JOURNAL_VERSION_AUTH -> zlen (hmac_key j0) = JOURNAL_HMAC_KEY_MAX ->
  exists w', journal_init dev j0 start count (w, []) =
    ((0, mkJ start count s (sb_sequence s) false false bs (zrep 32 0) 0), (w', [])) /\ shows dev w [] w'.
Proof.
  intros Hw Hst Hs Hok Hm Hv Hk. unfold journal_init, kmalloc_buf, kmalloc, bind, ret.
  cbn beta iota zeta delta [fst snd]. unfold journal_read_block, dev_read. cbn [fst snd].
  pose proof (disk_count (dev := dev)). unfold cleared_key, set_key. cbn [start_block]. rewrite Z.add_0_r, u64_small, u32_small by lia.
  pose proof (shows_read dev w start (zrep bs 0) Hw ltac:(lia) ltac:(apply zlen_rep; lia)) as H1.
  pose proof (reliable_read w start (zrep bs 0) Hw Hst ltac:(apply zlen_rep; lia)) as H2.
  destruct (block_device_read _ _ _ _) as [[rc b] w1]. cbn [fst snd] in H2. subst rc. destruct H1 as (S1 & Hl & Hb).
  rewrite (Hb eq_refl). exists w1. split; [|done]. cbn beta iota zeta delta [fst snd negb Z.eqb].
  assert (Es : sb_of_bytes (disk_view w start) = s).
  { pose proof (sb_roundtrip s [] Hok) as E. rewrite app_nil_r in E. etrans; [|exact E]. rewrite <- Hs.
    unfold sb_of_bytes, field, sb_size. by rewrite !sub_bytes_sub by lia. }
  unfold set_sb. cbn [hmac_key hmac_key_len start_block j_block_count current_sequence dirty replaying buffer_size sb].
  rewrite Es, Hm, Z.eqb_refl. cbn [negb].
  replace (negb (sb_version s =? JOURNAL_VERSION) && negb (sb_version s =? JOURNAL_VERSION_AUTH)) with false.
  2: { symmetry. apply andb_false_iff. destruct Hv as [-> | ->]; [left | right]; done. }
  by rewrite zero_key.
Qed.
End opening.
