(* ===== verification/JournalMount.v ===== *)
(** * The journal of a mounted file system

    Models src/fs/capyfs/capyfs_journal_integration.c: the root secret and the
    key of a volume, the table of mounted journals, the mount hook, journaled
    metadata writes, the checkpoint hook and the release of a slot.  The log
    messages have no counterpart.

    A device is known by its address; the block device it stands for is the
    section's [dev].  The last part composes the hooks with the journal: a machine
    that stops during a journaled write, and the mount that follows. *)
From Stdlib Require Import String.
From S2P Require Import Prelude BlockDevice Storage Sha256 Crypt Journal JournalCrash.
Local Open Scope capy_scope.

Definition CAPYFS_JOURNAL_BLOCKS : Z := 32.
Definition CAPYFS_JOURNAL_ROOT_SECRET_MAX : Z := 64.
Definition CAPYFS_JOURNAL_MAX_MOUNTS : Z := 4.

Inductive capyfs_journal_recovery_cause : Type :=
  | CAPYFS_JOURNAL_RECOVERY_NONE
  | CAPYFS_JOURNAL_RECOVERY_WAL_REPLAY
  | CAPYFS_JOURNAL_RECOVERY_WAL_REPLAY_FAILED
  | CAPYFS_JOURNAL_RECOVERY_FORMAT.

Definition capyfs_journal_recovery_cause_label (c : capyfs_journal_recovery_cause) : string :=
  match c with
  | CAPYFS_JOURNAL_RECOVERY_WAL_REPLAY => "wal-replay"
  | CAPYFS_JOURNAL_RECOVERY_WAL_REPLAY_FAILED => "wal-replay-failed"
  | CAPYFS_JOURNAL_RECOVERY_FORMAT => "first-mount-format"
  | CAPYFS_JOURNAL_RECOVERY_NONE => "none"
  end.

Record capyfs_journal_slot := mkSlot { s_dev : option Z; jrnl : journal; active : bool }.

(** The file's static variables. *)
Record jmounts := mkMounts {
  g_cause : capyfs_journal_recovery_cause;
  g_secret : list Z;
  g_secret_len : Z;
  g_slots : list capyfs_journal_slot }.

Definition zero_journal : journal :=
  mkJ 0 0 (mkSb 0 0 0 0 0 0 0 0 (zrep 28 0)) 0 false false 0 (zrep 32 0) 0.
Definition zero_slot : capyfs_journal_slot := mkSlot None zero_journal false.

(** The state at boot. *)
Definition mounts_init : jmounts :=
  mkMounts CAPYFS_JOURNAL_RECOVERY_NONE (zrep CAPYFS_JOURNAL_ROOT_SECRET_MAX 0) 0
    (zrep CAPYFS_JOURNAL_MAX_MOUNTS zero_slot).

Definition capyfs_journal_last_recovery_cause (g : jmounts) : capyfs_journal_recovery_cause := g_cause g.

Definition set_cause (g : jmounts) (c : capyfs_journal_recovery_cause) : jmounts :=
  mkMounts c (g_secret g) (g_secret_len g) (g_slots g).

Definition set_slot (g : jmounts) (i : Z) (s : capyfs_journal_slot) : jmounts :=
  mkMounts (g_cause g) (g_secret g) (g_secret_len g) (aset (g_slots g) i s).

Definition set_secret (g : jmounts) (s : list Z) (n : Z) : jmounts :=
  mkMounts (g_cause g) s n (g_slots g).

Definition capyfs_journal_clear_root_secret (g : jmounts) : jmounts :=
  set_secret g (for_range 0 CAPYFS_JOURNAL_ROOT_SECRET_MAX (fun i s => aset s i 0) (g_secret g)) 0.

Definition capyfs_journal_install_root_secret (g : jmounts) (secret : option (list Z)) (len : Z) : jmounts :=
  match secret with
  | None => capyfs_journal_clear_root_secret g
  | Some secret =>
      if (len =? 0) || (CAPYFS_JOURNAL_ROOT_SECRET_MAX <? len) then capyfs_journal_clear_root_secret g else
      let s := for_range 0 len (fun i s => aset s i secret.[i]) (g_secret g) in
      let s := for_range len CAPYFS_JOURNAL_ROOT_SECRET_MAX (fun i s => aset s i 0) s in
      set_secret g s len
  end.

Definition capyfs_journal_root_secret_installed (g : jmounts) : bool := 0 <? g_secret_len g.

(** The number of bytes written, and [out]. *)
Definition derive_volume_hmac_key (g : jmounts) (super_bytes : option (list Z)) (super_len : Z)
    (out : option (list Z)) (out_max : Z) : Z * option (list Z) :=
  match out with
  | None => (0, out)
  | Some o =>
      if out_max =? 0 then (0, out) else
      if g_secret_len g =? 0 then (0, out) else
      match super_bytes with
      | None => (0, out)
      | Some super =>
          if super_len =? 0 then (0, out) else
          let digest := default [] (crypt_hmac_sha256 (g_secret g) (g_secret_len g) (Some super) super_len
                          (Some (zrep SHA256_DIGEST_SIZE 0))).1 in
          let copy := if out_max <? SHA256_DIGEST_SIZE then out_max else SHA256_DIGEST_SIZE in
          (copy, Some (for_range 0 copy (fun i o => aset o i digest.[i]) o))
      end
  end.

Definition slot_at (g : jmounts) (i : Z) : capyfs_journal_slot := aget zero_slot (g_slots g) i.

Definition slot_of (d : Z) (s : capyfs_journal_slot) : bool :=
  active s && bool_decide (s_dev s = Some d).

(** The index of the slot; [None] is NULL. *)
Definition journal_slot_for (g : jmounts) (dev : option Z) : option Z :=
  match dev with
  | None => None
  | Some d =>
      match until_range 0 CAPYFS_JOURNAL_MAX_MOUNTS (fun i _ =>
        if negb (slot_of d (slot_at g i)) then inl tt else inr i) tt with
      | inr i => Some i
      | inl _ => None
      end
  end.

Definition journal_slot_alloc (g : jmounts) (dev : option Z) : option Z * jmounts :=
  match until_range 0 CAPYFS_JOURNAL_MAX_MOUNTS (fun i _ =>
    if active (slot_at g i) then inl tt else inr i) tt with
  | inr i => (Some i, set_slot g i (mkSlot dev (jrnl (slot_at g i)) true))
  | inl _ => (None, g)
  end.

(** [slot->jrnl = j]. *)
Definition set_jrnl (g : jmounts) (i : Z) (j : journal) : jmounts :=
  set_slot g i (mkSlot (s_dev (slot_at g i)) j (active (slot_at g i))).

Definition set_inactive (g : jmounts) (i : Z) : jmounts :=
  set_slot g i (mkSlot (s_dev (slot_at g i)) (jrnl (slot_at g i)) false).

Definition capyfs_journal_active (g : jmounts) (dev : option Z) : bool :=
  bool_decide (is_Some (journal_slot_for g dev)).

Definition capyfs_journal_stats (g : jmounts) (dev : option Z) : Z * Z :=
  match journal_slot_for g dev with
  | None => (0, 0)
  | Some i => journal_stats (jrnl (slot_at g i))
  end.

Definition capyfs_journal_release_slot (g : jmounts) (dev : option Z) : jmounts :=
  match journal_slot_for g dev with
  | None => g
  | Some i => set_slot g i (mkSlot None (jrnl (slot_at g i)) false)
  end.

Section hooks.
Context {W : Type} (dev : block_device W).
#[local] Notation "'let*' x := m 'in' k" := (bind m (fun x => k)) (at level 200, x pattern, right associativity).

(** The first mount of a volume without a journal. *)
Definition mount_format (g : jmounts) (i start : Z) (key : list Z) (key_len : Z) : M (W := W) jmounts :=
  let j := jrnl (slot_at g i) in
  let* (rc, j) :=
    if 0 <? key_len then journal_format_authenticated dev j start CAPYFS_JOURNAL_BLOCKS (Some key) key_len
    else journal_format dev j start CAPYFS_JOURNAL_BLOCKS in
  let g := set_jrnl g i j in
  ret (if negb (rc =? 0) then set_inactive g i else set_cause g CAPYFS_JOURNAL_RECOVERY_FORMAT).

(** The key of an authenticated journal is installed before its replay. *)
Definition mount_key (j : journal) (key : list Z) (key_len : Z) : journal :=
  if journal_is_authenticated j || (2 <=? sb_version (sb j)) then
    if key_len =? 0 then j else (journal_set_hmac_key j (Some key) key_len).2
  else j.

(** [None]: the replay ran out of fuel. *)
Definition mount_replay (fuel : nat) (g : jmounts) (i : Z) : M (W := W) (option jmounts) :=
  let j := jrnl (slot_at g i) in
  if negb (journal_needs_replay j) then ret (Some g) else
  let* (rc, j) := journal_replay dev fuel j in
  let g := set_jrnl g i j in
  ret (match rc with
       | None => None
       | Some rc => Some (set_cause g (if negb (rc =? 0) then CAPYFS_JOURNAL_RECOVERY_WAL_REPLAY_FAILED
                                       else CAPYFS_JOURNAL_RECOVERY_WAL_REPLAY))
       end).

(** The hook returns 0 on every path. *)
Definition capyfs_journal_mount_hook (fuel : nat) (g : jmounts) (d : option Z) (data_start : Z)
    (super_bytes : option (list Z)) (super_len : Z) : M (W := W) (option jmounts) :=
  let g := set_cause g CAPYFS_JOURNAL_RECOVERY_NONE in
  match d with
  | None => ret (Some g)
  | Some _ =>
      if data_start <? CAPYFS_JOURNAL_BLOCKS + 2 then ret (Some g) else
      let '(slot, g) := journal_slot_alloc g d in
      match slot with
      | None => ret (Some g)
      | Some i =>
          let '(key_len, key) := derive_volume_hmac_key g super_bytes super_len
            (Some (zrep JOURNAL_HMAC_KEY_MAX 0)) JOURNAL_HMAC_KEY_MAX in
          let key := default [] key in
          let start := data_start - CAPYFS_JOURNAL_BLOCKS in
          let* (rc, j) := journal_init dev (jrnl (slot_at g i)) start CAPYFS_JOURNAL_BLOCKS in
          let g := set_jrnl g i j in
          if negb (rc =? 0) then
            let* g := mount_format g i start key key_len in ret (Some g)
          else mount_replay fuel (set_jrnl g i (mount_key j key key_len)) i
      end
  end.

(** The transaction object is on the stack, with arbitrary contents [t0]. *)
Definition capyfs_journal_write_metadata (g : jmounts) (d : option Z) (target_block : Z)
    (data : option (list Z)) (data_len : Z) (t0 : journal_transaction) : M (W := W) (Z * jmounts) :=
  match journal_slot_for g d with
  | None => ret (0, g)
  | Some i =>
      let '(_, j, txn) := journal_begin (jrnl (slot_at g i)) t0 in
      let* (r, txn) := journal_log_block dev txn target_block data 0 data_len in
      if negb (r =? 0) then ret (-1, set_jrnl g i j) else
      let* (r, j, _) := journal_commit dev j txn in
      ret (if negb (r =? 0) then -1 else 0, set_jrnl g i j)
  end.

Definition capyfs_journal_checkpoint_hook (g : jmounts) (d : option Z) : M (W := W) (Z * jmounts) :=
  match journal_slot_for g d with
  | None => ret (0, g)
  | Some i =>
      let* (r, j) := journal_checkpoint dev (jrnl (slot_at g i)) in
      ret (r, set_jrnl g i j)
  end.
End hooks.

(** ** Mounting after a crash *)
Section recovery.
Context {W : Type} (dev : block_device W) `{!DiskSpec dev, !ReliableDisk dev}.
Local Abbreviation bs := (dev_block_size dev).
Context (Hbs : 512 <= bs <= 65536).

(** The key of the volume, as the mount hook derives it. *)
Definition volume_key (g : jmounts) (super : option (list Z)) (n : Z) : Z * option (list Z) :=
  derive_volume_hmac_key g super n (Some (zrep JOURNAL_HMAC_KEY_MAX 0)) JOURNAL_HMAC_KEY_MAX.

Lemma volume_key_cases g super n : exists k, volume_key g super n = (0, Some k) \/
  volume_key g super n = (32, Some k) /\ zlen k = 32.
Proof.
  unfold volume_key, derive_volume_hmac_key. change (JOURNAL_HMAC_KEY_MAX =? 0) with false. cbv iota.
  destruct (g_secret_len g =? 0); [eexists; by left|]. destruct super as [b|]; [|eexists; by left].
  destruct (n =? 0); [eexists; by left|]. eexists. right. split; [reflexivity|].
  apply (for_range_ind (fun _ o => zlen o = 32)); [done | done |]. intros i o _ H. by rewrite zlen_aset.
Qed.

(** The journal [j] is one the hook opens with this key. *)
Record journal_ok (auth : bool) (j : journal) (key : Z * option (list Z)) : Prop := {
  jo_area : area_ok dev j;
  jo_sb : sb_ok (sb j);
  jo_magic : sb_magic (sb j) = JOURNAL_MAGIC;
  jo_version : sb_version (sb j) = if auth then JOURNAL_VERSION_AUTH else JOURNAL_VERSION;
  jo_key : auth = true -> key = (hmac_key_len j, Some (hmac_key j)) /\ hmac_key_len j <> 0 }.

Lemma entries_key j j' auth txs : (auth = true -> hmac_key j' = hmac_key j /\ hmac_key_len j' = hmac_key_len j) ->
  forall l, entries dev j auth txs l -> entries dev j' auth txs l.
Proof.
  intros Hk. induction txs as [|x txs IH]; intros l H; [done|].
  destruct H as (e & r & -> & (m & c & -> & Hm & Hc) & Hr). exists (m :: x_blocks x ++ [c]), r.
  split; [done|]. split; [|by apply IH]. exists m, c. split; [done|]. split; [done|].
  destruct Hc as (H1 & H2 & H3 & H4). split_and!; try done. intros Ha. destruct (H4 Ha) as [H5 H6]. split; [done|].
  destruct (Hk Ha) as [E1 E2]. unfold tag_is, entry_tag in *. by rewrite E1, E2.
Qed.

Lemma copied_key k : zlen k = 32 -> memcpy_loop (journal_zero_bytes (zrep 32 0) JOURNAL_HMAC_KEY_MAX) 0 k 0 32 = k.
Proof.
  intros Hk. rewrite zero_key by done. rewrite memcpy_spec by (rewrite ?zlen_rep; lia).
  replace (sub_bytes k 0 32) with k by (by rewrite <- Hk, sub_bytes_all). apply splice_all. by rewrite zlen_rep.
Qed.

(** The journal after it was opened and its key installed. *)
Lemma opened_key auth j g super n start count seq : journal_ok auth j (volume_key g super n) ->
  let j1 := mount_key (mkJ start count (sb j) seq false false bs (zrep 32 0) 0)
              (default [] (volume_key g super n).2) (volume_key g super n).1 in
  start_block j1 = start /\ sb j1 = sb j /\ journal_is_authenticated j1 = auth /\
  (sb_version (sb j1) = JOURNAL_VERSION_AUTH -> 0 < hmac_key_len j1) /\
  (auth = true -> hmac_key j1 = hmac_key j /\ hmac_key_len j1 = hmac_key_len j).
Proof.
  intros [_ _ _ Hv Hk]. cbv zeta. set (key := volume_key g super n) in *. unfold mount_key.
  unfold journal_is_authenticated. cbn [sb hmac_key_len]. rewrite Hv, andb_false_r. cbn [orb]. destruct auth.
  - destruct (Hk eq_refl) as [Ek Hne]. destruct (volume_key_cases g super n) as (k & [E'|[E' Hz]]); fold key in E';
      rewrite Ek in E'; [congruence|]. injection E' as En Ekk. rewrite Ek. cbn [fst snd from_option id].
    rewrite En, Ekk in *. change (2 <=? JOURNAL_VERSION_AUTH) with true. change (32 =? 0) with false. cbv iota.
    unfold journal_set_hmac_key. change (32 =? 0) with false. change (JOURNAL_HMAC_KEY_MAX <? 32) with false. cbv iota.
    unfold stored_key. cbn [snd hmac_key set_key hmac_key_len sb start_block].
    rewrite copied_key, Hv by done. split_and!; done.
  - change (2 <=? JOURNAL_VERSION) with false. cbv iota. split_and!; try done; cbn [sb start_block]; by rewrite Hv.
Qed.

(** The slot table: four slots with room for a key each. *)
Definition mounts_ok (g : jmounts) : Prop :=
  zlen (g_slots g) = CAPYFS_JOURNAL_MAX_MOUNTS /\
  Forall (fun s => zlen (hmac_key (jrnl s)) = JOURNAL_HMAC_KEY_MAX) (g_slots g).

Definition has_free_slot (g : jmounts) : Prop :=
  exists i, 0 <= i < CAPYFS_JOURNAL_MAX_MOUNTS /\ active (slot_at g i) = false.

Lemma slot_alloc_free g d : mounts_ok g -> has_free_slot g -> exists i, 0 <= i < CAPYFS_JOURNAL_MAX_MOUNTS /\
  journal_slot_alloc g d = (Some i, set_slot g i (mkSlot d (jrnl (slot_at g i)) true)).
Proof.
  intros Hg (i & Hi & Hf). unfold journal_slot_alloc.
  pose proof (until_find (fun i => active (slot_at g i)) 0 CAPYFS_JOURNAL_MAX_MOUNTS) as H.
  destruct (until_range _ _ _ _) as [[]|k].
  - specialize (H i ltac:(lia)). by rewrite Hf in H.
  - exists k. split; [lia | done].
Qed.

Lemma slot_at_set g i s : mounts_ok g -> 0 <= i < CAPYFS_JOURNAL_MAX_MOUNTS -> slot_at (set_slot g i s) i = s.
Proof. intros [Hl _] Hi. unfold slot_at, set_slot. cbn [g_slots]. apply aget_aset_eq. lia. Qed.

Lemma mounts_ok_set g i s : mounts_ok g -> zlen (hmac_key (jrnl s)) = JOURNAL_HMAC_KEY_MAX -> mounts_ok (set_slot g i s).
Proof. intros [Hl Hf] Hs. split; cbn [set_slot g_slots]; [by rewrite zlen_aset | by apply Forall_aset]. Qed.

Lemma slot_key g i : mounts_ok g -> zlen (hmac_key (jrnl (slot_at g i))) = JOURNAL_HMAC_KEY_MAX.
Proof.
  intros [_ Hf]. unfold slot_at.
  by apply (Forall_aget (fun s => zlen (hmac_key (jrnl s)) = JOURNAL_HMAC_KEY_MAX) zero_slot _ i Hf).
Qed.

(** Mounting a volume whose disk holds [txs] for [j] applies them. *)
Lemma mount_run auth j g d data_start super n txs w fuel : mounts_ok g -> has_free_slot g ->
  journal_ok auth j (volume_key g super n) -> CAPYFS_JOURNAL_BLOCKS + 2 <= data_start ->
  start_block j = data_start - CAPYFS_JOURNAL_BLOCKS -> on_disk dev auth j (disk_view w) txs -> disk_inv w ->
  sb_block_count (sb j) <= Z.of_nat fuel ->
  exists g' w' ws, capyfs_journal_mount_hook dev fuel g (Some d) data_start super n (w, []) = (Some g', (w', [])) /\
    shows dev w (txs_writes txs ++ ws) w' /\ Forall (fun a => in_area j a.1) ws /\
    g_cause g' <> CAPYFS_JOURNAL_RECOVERY_WAL_REPLAY_FAILED.
Proof.
  intros Hg Hfree Hj Hds Hst (Hok & Hs & l & He & Hr & Hl) Hw Hf. pose proof (disk_count (dev := dev)) as Hdc.
  unfold capyfs_journal_mount_hook. replace (_ <? _) with false by lia.
  destruct (slot_alloc_free (set_cause g CAPYFS_JOURNAL_RECOVERY_NONE) (Some d) Hg Hfree) as (i & Hi & ->).
  set (g1 := set_slot _ i _). assert (Hg1 : mounts_ok g1) by (apply mounts_ok_set; [done | by apply (slot_key g)]).
  change (derive_volume_hmac_key g1 super n (Some (zrep JOURNAL_HMAC_KEY_MAX 0)) JOURNAL_HMAC_KEY_MAX) with (volume_key g super n).
  pose proof (opened_key auth j g super n (start_block j) CAPYFS_JOURNAL_BLOCKS (sb_sequence (sb j)) Hj) as Hop.
  destruct (volume_key g super n) as [kl key]. cbn [fst snd] in Hop. cbv zeta in Hop.
  destruct Hj as [Ha Hsb Hm Hv _]. rewrite <- Hst.
  destruct (init_run dev Hbs (jrnl (slot_at g1 i)) w (sb j) (start_block j) CAPYFS_JOURNAL_BLOCKS Hw) as (w1 & Ei & S1);
    try done; [destruct Ha; lia | destruct auth; [by right | by left] | by apply slot_key|].
  unfold bind at 1. rewrite Ei. cbn beta iota. change (negb (0 =? 0)) with false. cbv iota.
  set (j1 := mount_key _ _ _) in *. destruct Hop as (E1 & E2 & Hau & Hk & Hkey). unfold mount_replay.
  assert (Hsl : jrnl (slot_at (set_jrnl (set_jrnl g1 i (mkJ (start_block j) CAPYFS_JOURNAL_BLOCKS (sb j) (sb_sequence (sb j)) false false bs (zrep 32 0) 0)) i j1) i) = j1).
  { unfold set_jrnl at 1. rewrite slot_at_set; [done| |done]. by apply mounts_ok_set. }
  rewrite Hsl. clear Hsl. unfold journal_needs_replay. rewrite E2, Z.eqb_sym, (left_zero _ _ _ _ Hl), negb_involutive.
  assert (Ha1 : area_ok dev j1) by (destruct Ha; constructor; rewrite ?E1, ?E2; done).
  destruct (replay_run dev j1 Hbs Ha1 auth txs l w1 fuel) as (ws & w2 & R1 & R2 & R3 & R4); try exact Hk; rewrite ?E2; try done.
  - by destruct Hsb.
  - by apply (entries_key j).
  - eapply Forall_impl; [exact Hok|]. intros x []. constructor; try done.
    unfold in_area in *. by rewrite E1, E2.
  - revert Hr. apply ring_at_ext; [by apply (bc_range dev j) | by destruct Ha|].
    intros q Hq. unfold ring_view. rewrite E1. destruct Ha. symmetry. by apply (shows_other dev w [] w1); [|lia|].
  - apply S1.
  - destruct Hl as (_ & ? & _). unfold zlen in *. lia.
  - pose proof (shows_app dev w [] w1 _ w2 S1 R3) as S2. cbn [app] in S2.
    unfold in_area in R4. rewrite E1, E2 in R4.
    unfold bind, ret. revert R1 R2. destruct (Z.eqb_spec (zlen l) 0) as [E0|E0].
    + apply zlen_nil in E0 as ->. destruct txs as [|x txs]; [|by destruct He as ([|] & ? & ? & (? & ? & ? & _) & _)].
      intros _ _. eexists _, w1, []. split; [reflexivity|]. split_and!; try done.
    + destruct (journal_replay dev fuel j1 (w1, [])) as [[rc j2] w3]. cbn [fst snd]. intros -> ->.
      eexists _, w2, ws. split; [reflexivity|]. split; [done|]. split; [done|]. done.
Qed.

Lemma commit_no_room (d : block_device (nat * W)) j txn s : committed txn = false ->
  u32 (sb_block_count (sb j) - ring_used (sb j) - 1) < ref_count txn + 2 ->
  journal_commit d j txn s = ((-1, j, txn), s).
Proof.
  intros Hc Hr. unfold journal_commit. rewrite Hc. cbv zeta.
  by replace (_ <? 1 + ref_count txn + 1) with true by lia.
Qed.

(** A commit of which the first [k] block writes reach the disk. *)
Lemma commit_crash auth txs txn x k w j : area_ok dev j -> disk_inv w -> journal_is_authenticated j = auth ->
  zlen (sb_reserved (sb j)) = 28 -> txn_is dev txn x -> tx_ok dev j x -> on_disk dev auth j (disk_view w) txs ->
  let '(rc, _, _, ((_, w'), _)) := journal_commit (crash_dev dev) j txn ((k, w), []) in
  disk_inv w' /\ (forall m, 0 <= m -> ~ in_area j m -> disk_view w' m = disk_view w m) /\
  if bool_decide (rc = 0 /\ ref_count txn + 3 <= Z.of_nat k)
  then on_disk dev auth (committed_journal j txn) (disk_view w') (txs ++ [x])
  else on_disk dev auth j (disk_view w') txs.
Proof.
  intros Ha Hw Hau Hres Ht Hx Hd.
  destruct (Z.lt_ge_cases (u32 (sb_block_count (sb j) - ring_used (sb j) - 1)) (ref_count txn + 2)) as [Hn|Hn].
  { rewrite commit_no_room; [|by destruct Ht | done]. split; [done|]. split; [done|]. rewrite bool_decide_eq_false_2; [done|]. by intros []. }
  rewrite (commit_run (crash_dev dev)); [|by destruct Ht | done].
  change (commit_writes (crash_dev dev) j txn) with (commit_writes dev j txn).
  pose proof (commit_cut dev Hbs j Ha auth txs txn x k w Hw Hau Hres Ht Hx Hd Hn) as Hcut. cbv zeta in Hcut.
  destruct (entry_blocks_len dev Hbs j txn x Ht Hx) as [Hf Hl].
  rewrite (run_writes_crash dev _ k w (commit_writes_ok dev Hbs j Ha txn x Hres Ht Hx)). cbn [fst snd].
  destruct Hcut as (H1 & H2 & H3). split; [done|]. split; [done|].
  replace (bool_decide (0 = 0 /\ ref_count txn + 3 <= Z.of_nat k)) with
    (negb (bool_decide (k < S (length (entry_blocks dev j txn)))%nat)) by
    (case_bool_decide; case_bool_decide; unfold zlen in *; cbn; lia || done).
  by destruct (bool_decide _).
Qed.

Lemma opened_auth auth j g super n : journal_ok auth j (volume_key g super n) -> journal_is_authenticated j = auth.
Proof.
  intros [_ _ _ Hv Hk]. unfold journal_is_authenticated. rewrite Hv. destruct auth; [|done].
  destruct (Hk eq_refl) as [E Hne]. destruct (volume_key_cases g super n) as (k & [E'|[E' _]]); rewrite E in E'; [congruence|].
  injection E' as -> _. done.
Qed.
End recovery.

(** C7. A commit is atomic across a crash: whichever of its block writes is the last
    one to reach the disk, the next mount succeeds and leaves the blocks outside the
    journal as the transactions committed before put them, followed by this one
    exactly when the commit returned 0 and all its writes (one per entry block, and
    the superblock) were made.  With and without authentication; up to the crash the
    device works, and every request for memory is granted. *)
Theorem journal_commit_crash_atomic {W : Type} (dev : block_device W) `{!DiskSpec dev, !ReliableDisk dev}
    auth j txn x txs w k g d data_start super n fuel :
  512 <= dev_block_size dev <= 65536 ->
  journal_ok dev auth j (volume_key g super n) ->
  CAPYFS_JOURNAL_BLOCKS + 2 <= data_start -> start_block j = data_start - CAPYFS_JOURNAL_BLOCKS ->
  mounts_ok g -> has_free_slot g -> sb_block_count (sb j) <= Z.of_nat fuel ->
  disk_inv w -> on_disk dev auth j (disk_view w) txs -> txn_is dev txn x -> tx_ok dev j x ->
  let '(rc, _, _, ((_, w1), _)) := journal_commit (crash_dev dev) j txn ((k, w), []) in
  let survive := if bool_decide (rc = 0 /\ ref_count txn + 3 <= Z.of_nat k) then txs ++ [x] else txs in
  exists g' w2, capyfs_journal_mount_hook dev fuel g (Some d) data_start super n (w1, []) = (Some g', (w2, [])) /\
    g_cause g' <> CAPYFS_JOURNAL_RECOVERY_WAL_REPLAY_FAILED /\
    forall m, 0 <= m -> ~ in_area j m -> disk_view w2 m = foldl (upd dev) (disk_view w) (txs_writes survive) m.
Proof.
  intros Hbs Hj Hds Hst Hg Hfree Hf Hw Hd Ht Hx. pose proof (opened_auth dev auth j g super n Hj) as Hau.
  pose proof (commit_crash dev Hbs auth txs txn x k w j (jo_area _ _ _ _ Hj) Hw Hau (so_res _ (jo_sb _ _ _ _ Hj)) Ht Hx Hd) as Hc.
  destruct (journal_commit _ _ _ _) as [[[rc jc] tc] [[k1 w1] mem]]. destruct Hc as (Hw1 & Hout & Hdisk).
  set (survive := if bool_decide _ then _ else _). cbv zeta.
  assert (exists jr, journal_ok dev auth jr (volume_key g super n) /\ start_block jr = start_block j /\
    sb_block_count (sb jr) = sb_block_count (sb j) /\ on_disk dev auth jr (disk_view w1) survive)
    as (jr & Hjr & E1 & E2 & Hdr).
  { unfold survive. destruct (bool_decide _); [|by exists j]. exists (committed_journal j txn). split_and!; try done.
    destruct Hj as [Ha [] ? ? ?]. pose proof (committed_area dev j Ha txn) as Hca. constructor; try done. constructor; try done.
    destruct Hca as [_ _ _ Hh _]. pose proof (bc_range dev j Ha). cbn in Hh |- *. lia. }
  destruct (mount_run dev Hbs auth jr g d data_start super n survive w1 fuel Hg Hfree Hjr Hds) as (g' & w2 & ws & E & [_ Hv] & Hin & Hcause);
    [congruence | done | done | lia|].
  exists g', w2. split; [done|]. split; [done|]. intros m Hm Hma. rewrite (Hv m Hm), foldl_app, foldl_upd_other.
  - revert m Hm Hma. clear -Hout. induction (txs_writes survive) as [|a l IH] using rev_ind; intros m Hm Hma; [by apply Hout|].
    rewrite !foldl_snoc. unfold upd. by rewrite IH.
  - eapply Forall_impl; [exact Hin|]. intros a Hia E0. apply Hma. unfold in_area in *. by rewrite <- E0, <- E1, <- E2.
Qed.

(** A volume of 40 blocks whose journal was formatted, with a key, by the mount hook. *)
Definition demo_volume : block_device (list (list Z)) := mem_dev 512 40.
#[export] Instance demo_volume_spec : DiskSpec demo_volume := mem_spec 512 ltac:(lia) 40 ltac:(lia).
#[export] Instance demo_volume_reliable : ReliableDisk demo_volume := mem_reliable 512 ltac:(lia) 40 ltac:(lia).
Definition demo_boot : jmounts := capyfs_journal_install_root_secret mounts_init (Some [1; 2; 3]) 3.
Definition demo_mounted : option jmounts * world (W := list (list Z)) :=
  capyfs_journal_mount_hook demo_volume 31 demo_boot (Some 1) 34 (Some [7; 7]) 2 (zrep 40 (zrep 512 0), []).
Definition demo_journal : journal := jrnl (slot_at (default demo_boot demo_mounted.1) 0).
Definition demo_disk : list (list Z) := demo_mounted.2.1.
Definition demo_txn : journal_transaction :=
  (journal_log_block demo_volume (journal_begin demo_journal (mkTxn 0 (zrep 16 zero_ref) 0 None 0 false)).2
     35 (Some [5; 6]) 0 2 (demo_disk, [])).1.2.
Definition demo_tx : jtx := mkTx 1 [mkRef 35 0 2] [[5; 6] ++ zrep 510 0].

Lemma demo_disk_ok : disk_inv (dev := demo_volume) demo_disk.
Proof. split; [by vm_compute|]. apply Forall_forall. intros b Hb. revert b Hb. apply Forall_forall. vm_compute. repeat constructor. Qed.

Lemma demo_journal_ok : journal_ok demo_volume true demo_journal (volume_key demo_boot (Some [7; 7]) 2).
Proof.
  constructor.
  - constructor; vm_compute; intuition discriminate.
  - constructor; vm_compute; intuition discriminate.
  - by vm_compute.
  - by vm_compute.
  - intros _. split; [by vm_compute | by vm_compute].
Qed.

Lemma demo_on_disk : on_disk demo_volume true demo_journal (disk_view (dev := demo_volume) demo_disk) [].
Proof. split; [done|]. split; [by vm_compute|]. exists []. split; [done|]. split; [done|]. vm_compute. intuition discriminate. Qed.

Lemma demo_txn_is : txn_is demo_volume demo_txn demo_tx.
Proof.
  constructor; try by vm_compute.
  - intros _. vm_compute. by eexists.
  - intros b E. vm_compute in E. by injection E as <-.
Qed.

Lemma demo_tx_ok : tx_ok demo_volume demo_journal demo_tx.
Proof.
  constructor; try by vm_compute.
  - apply Forall_singleton. constructor; vm_compute; intuition discriminate.
  - by apply Forall_singleton.
  - apply Forall_singleton. vm_compute. intuition.
Qed.

Lemma demo_mounts_ok : mounts_ok demo_boot /\ has_free_slot demo_boot.
Proof. split; [split; [done | repeat constructor] | by exists 0]. Qed.

Lemma demo_journal_start : start_block demo_journal = 34 - CAPYFS_JOURNAL_BLOCKS /\
  sb_block_count (sb demo_journal) <= Z.of_nat 31.
Proof. split; vm_compute; [done | discriminate]. Qed.

(** Three of the four writes reach the disk: the transaction is absent after the mount. *)
Lemma journal_commit_crash_atomic_witness :
  let '(rc, _, _, ((_, w1), _)) := journal_commit (crash_dev demo_volume) demo_journal demo_txn ((3%nat, demo_disk), []) in
  let survive := if bool_decide (rc = 0 /\ ref_count demo_txn + 3 <= Z.of_nat 3) then [] ++ [demo_tx] else [] in
  exists g' w2, capyfs_journal_mount_hook demo_volume 31 demo_boot (Some 1) 34 (Some [7; 7]) 2 (w1, []) = (Some g', (w2, [])) /\
    g_cause g' <> CAPYFS_JOURNAL_RECOVERY_WAL_REPLAY_FAILED /\
    forall m, 0 <= m -> ~ in_area demo_journal m ->
      disk_view (dev := demo_volume) w2 m = foldl (upd demo_volume) (disk_view (dev := demo_volume) demo_disk) (txs_writes survive) m.
Proof.
  exact (journal_commit_crash_atomic demo_volume true demo_journal demo_txn demo_tx [] demo_disk 3%nat demo_boot 1 34
    (Some [7; 7]) 2 31%nat ltac:(vm_compute; intuition discriminate) demo_journal_ok ltac:(done) (proj1 demo_journal_start)
    (proj1 demo_mounts_ok) (proj2 demo_mounts_ok) (proj2 demo_journal_start) demo_disk_ok demo_on_disk demo_txn_is demo_tx_ok).
Defined.
