(* ===== verification/JournalSafety.v ===== *)
(** * Replay of an arbitrary disk

    Nothing is assumed of the contents of the journal here: replay ends when the
    head and the tail of the superblock lie in the ring, on any device and whatever
    memory is available; with a key it only writes what a tag vouches for; and the
    two ways around these guarantees that the code leaves open.  Also the building
    of a transaction. *)
From S2P Require Import Prelude BlockDevice Storage Sha256 Crypt Journal JournalCrash JournalMount.
Local Open Scope capy_scope.

(** ** Termination *)
Section termination.
Context {W : Type} (dev : block_device W) (j : journal).
Local Abbreviation bc := (sb_block_count (sb j)).
Local Abbreviation head := (sb_head (sb j)).
Context (Hbc : 0 < bc < 2 ^ 32).

(** From [p] the head is at most [r] steps away. *)
Definition within (p r : Z) : Prop := exists r', r' <= r /\ left bc head p r'.

Lemma within_step p r : left bc head p r -> 0 < r -> within (next_pos j p) (r - 1).
Proof. intros Hl Hr. exists (r - 1). split; [lia|]. by apply left_step. Qed.

Lemma within_le p r r' : within p r -> r <= r' -> within p r'.
Proof. intros (a & ? & ?) ?. exists a. split; [lia | done]. Qed.

Lemma bind_inv {A B} (m : M (W := W) A) (k : A -> M B) w b w' : bind m k w = (b, w') ->
  exists a w1, m w = (a, w1) /\ k a w1 = (b, w').
Proof. unfold bind. destruct (m w) as [a w1]. by exists a, w1. Qed.

Lemma legacy_progress n : forall refs b p r w q w', left bc head p r ->
  legacy_loop dev n j refs b p w = (q, w') -> within q r.
Proof.
  induction n as [|n IH]; intros refs b p r w q w' Hl E; cbn [legacy_loop] in E.
  { injection E as <- <-. by exists r. }
  apply bind_inv in E as (s & w1 & E1 & E2). unfold legacy_step in E1. rewrite (left_zero bc head p r Hl) in E1.
  destruct (Z.eqb_spec r 0) as [Hr|Hr].
  { injection E1 as <- <-. injection E2 as <- <-. by exists r. }
  apply bind_inv in E1 as (buf & w2 & _ & E1). destruct buf as [buf|].
  - apply bind_inv in E1 as ([rc d] & w3 & _ & E1). apply bind_inv in E1 as (x & w4 & _ & E1).
    injection E1 as <- <-. destruct (Hl) as (_ & Hr0 & _).
    apply (within_le q (r - 1)); [|lia]. apply (IH _ _ _ _ _ _ _ (left_step bc Hbc head p r Hl ltac:(lia)) E2).
  - injection E1 as <- <-. injection E2 as <- <-. by exists r.
Qed.

Lemma stage_progress n : forall b p r st k w st' k' q ok w', left bc head p r ->
  stage_loop dev n j b p st k w = ((st', k', q, ok), w') -> within q r.
Proof.
  induction n as [|n IH]; intros b p r st k w st' k' q ok w' Hl E; cbn [stage_loop] in E.
  { injection E as <- <- <- <- <-. by exists r. }
  rewrite (left_zero bc head p r Hl) in E. destruct (Z.eqb_spec r 0) as [Hr|Hr].
  { injection E as <- <- <- <- <-. by exists r. }
  destruct (Hl) as (_ & Hr0 & _).
  apply bind_inv in E as ([rc d] & w1 & _ & E). destruct (negb (rc =? 0)).
  - injection E as <- <- <- <- <-. by exists r.
  - apply (within_le q (r - 1)); [|lia]. apply (IH _ _ _ _ _ _ _ _ _ _ _ (left_step bc Hbc head p r Hl ltac:(lia)) E).
Qed.

(** The authenticated path leaves an entry at a position after its commit block. *)
Lemma auth_progress hdr refs n p r rb w q rb' w' : left bc head p r ->
  auth_entry dev j hdr refs n p rb w = (inl (q, rb'), w') -> within q (r - 1).
Proof.
  intros Hl E. unfold auth_entry in E.
  apply bind_inv in E as ([[[st k] p1] ok] & w1 & E1 & E). pose proof (stage_progress _ _ _ _ _ _ _ _ _ _ _ _ Hl E1) as (r1 & Hr1 & Hl1).
  destruct (negb ok || negb (k =? n)); [done|]. rewrite (left_zero bc head p1 r1 Hl1) in E.
  destruct (Z.eqb_spec r1 0); [done|]. destruct (Hl1) as (_ & Hr0 & _).
  apply bind_inv in E as ([rc c] & w2 & _ & E). destruct (negb (rc =? 0)); [done|].
  destruct (negb (commit_matches _ _)); [done|].
  apply bind_inv in E as (t & w3 & _ & E). destruct (negb (journal_constant_time_eq _ _ _)); [done|].
  apply bind_inv in E as ([] & w4 & _ & E). injection E as <- <- <-.
  apply (within_le _ (r1 - 1)); [|lia]. apply within_step; [done | lia].
Qed.

(** Every round of the replay loop moves on. *)
Lemma replay_progress auth p r rb w q rb' w' : left bc head p r -> 0 < r ->
  replay_step dev j auth p rb w = (inl (q, rb'), w') -> within q (r - 1).
Proof.
  intros Hl Hr E. unfold replay_step in E. pose proof (left_step bc Hbc head p r Hl Hr) as Hl1.
  fold (next_pos j p) in Hl1. assert (Hs : within (next_pos j p) (r - 1)) by (by exists (r - 1)).
  apply bind_inv in E as ([rc b] & w1 & _ & E).
  destruct (negb (rc =? 0)); [done|]. destruct (negb (_ =? JOURNAL_MAGIC)); [done|].
  destruct (_ =? JOURNAL_ENTRY_COMMIT); [by injection E as <- <- <-|].
  destruct (_ && _); [|by injection E as <- <- <-]. destruct (negb auth).
  - apply bind_inv in E as (q1 & w2 & E1 & E). injection E as <- <- <-. apply (legacy_progress _ _ _ _ _ _ _ _ Hl1 E1).
  - apply auth_progress with (r := r - 1) in E; [|done]. apply (within_le _ _ _ E). lia.
Qed.

Lemma loop_ends fuel : forall auth p r rb w, left bc head p r -> r <= Z.of_nat fuel ->
  is_Some (replay_loop dev fuel j auth p rb w).1.
Proof.
  induction fuel as [|fuel IH]; intros auth p r rb w Hl Hr; cbn [replay_loop]; rewrite (left_zero bc head p r Hl);
    destruct (Z.eqb_spec r 0) as [E0|E0]; try by eexists.
  { destruct Hl as (_ & ? & _). lia. }
  unfold bind. destruct (replay_step dev j auth p rb w) as [[[q rb']|ok] w1] eqn:E; [|by eexists].
  assert (H0 : 0 < r) by (destruct Hl as (_ & ? & _); lia).
  destruct (replay_progress _ _ _ _ _ _ _ _ Hl H0 E) as (r' & Hr' & Hl'). apply (IH _ _ r'); [done | lia].
Qed.
End termination.

(** C33. Replay ends: on every device, with every content of the ring and every
    outcome of the memory requests, after at most as many rounds as the ring has
    blocks, provided the superblock's head and tail lie in the ring. *)
Theorem journal_replay_terminates {W : Type} (dev : block_device W) j fuel w :
  0 <= sb_head (sb j) < sb_block_count (sb j) -> 0 <= sb_tail (sb j) < sb_block_count (sb j) ->
  sb_block_count (sb j) < 2 ^ 32 -> sb_block_count (sb j) <= Z.of_nat fuel ->
  is_Some (journal_replay dev fuel j w).1.1.
Proof.
  intros Hh Ht Hb Hf. unfold journal_replay.
  destruct (negb (journal_needs_replay j)); [by eexists|]. destruct (_ && _); [by eexists|].
  destruct (left_exists (sb_block_count (sb j)) ltac:(lia) (sb_head (sb j)) (sb_tail (sb j)) Hh Ht) as (r & Hl).
  assert (Hr : r <= Z.of_nat fuel) by (destruct Hl as (_ & ? & _); lia).
  unfold bind at 1. destruct (kmalloc_buf _ w) as [[buf|] w1]; [|by eexists].
  unfold bind at 1. destruct (replay_alloc dev _ buf w1) as [[rb|] w2]; [|by eexists].
  unfold bind at 1. pose proof (loop_ends dev j ltac:(lia) fuel (journal_is_authenticated j) _ r rb w2 Hl Hr) as [ok E].
  destruct (replay_loop _ _ _ _ _ _ _) as [ok' w3]. cbn [fst] in E. subst ok'.
  unfold bind. repeat (case_match; simpl in *; simplify_eq); by eexists.
Qed.

Lemma journal_replay_terminates_witness : is_Some (journal_replay demo_volume 31 demo_journal (demo_disk, [false])).1.1.
Proof.
  apply (journal_replay_terminates demo_volume demo_journal 31 (demo_disk, [false])); vm_compute; intuition discriminate.
Defined.

(** ** A head outside the ring *)
Section spinning.
Context {W : Type} (dev : block_device W) `{!DiskSpec dev, !ReliableDisk dev} (j : journal).
Local Abbreviation bs := (dev_block_size dev).
Local Abbreviation bc := (sb_block_count (sb j)).
Context (Hbs : 512 <= bs <= 65536) (Hst : 0 <= start_block j) (Hbc : 0 < bc)
  (Hend : start_block j + 1 + bc <= dev_block_count dev) (Hhead : bc <= sb_head (sb j)).

(** Every block of the ring reads as a commit block. *)
Definition all_commits (w : W) : Prop := forall q, 0 <= q < bc ->
  h_magic (hdr_of_bytes (ring_view j (disk_view w) q)) = JOURNAL_MAGIC /\
  h_type (hdr_of_bytes (ring_view j (disk_view w) q)) = JOURNAL_ENTRY_COMMIT.

Lemma spin_loop fuel : forall auth p rb w, 0 <= p < bc -> disk_inv w -> all_commits w -> zlen (rb_buf rb) = bs ->
  (replay_loop dev fuel j auth p rb (w, [])).1 = None.
Proof.
  induction fuel as [|fuel IH]; intros auth p rb w Hp Hw Hall Hb; cbn [replay_loop];
    replace (p =? sb_head (sb j)) with false by lia; [done|].
  assert (Ha : area_ok dev (set_head (set_sb j (mkSb (sb_magic (sb j)) (sb_version (sb j)) (sb_block_size (sb j)) bc
    (sb_head (sb j)) 0 (sb_sequence (sb j)) (sb_checksum (sb j)) (sb_reserved (sb j)))) 0)).
  { constructor; cbn [start_block sb set_head set_sb sb_block_count sb_head sb_tail]; lia. }
  destruct (read_ring dev _ Ha p (rb_buf rb) w [] Hp Hw Hb) as (w1 & E1 & S1 & L1).
  change (journal_read_block dev j (ring_block p) (rb_buf rb) (w, []) = (0, ring_view j (disk_view w) p, (w1, []))) in E1.
  change (zlen (ring_view j (disk_view w) p) = bs) in L1.
  unfold replay_step. unfold bind at 1. unfold bind at 1. rewrite E1. cbn beta iota.
  destruct (Hall p Hp) as [Hm Ht]. change (negb (0 =? 0)) with false. cbv iota zeta.
  rewrite Hm, Ht. change (negb (JOURNAL_MAGIC =? JOURNAL_MAGIC)) with false. rewrite Z.eqb_refl. cbv iota. unfold ret at 1.
  apply IH; [apply step_pos_range; pose proof (disk_count (dev := dev)); lia | apply S1 | | done].
  intros q Hq. unfold ring_view. rewrite (shows_other dev w [] w1 _ S1) by (done || lia). by apply Hall.
Qed.
End spinning.

(** The head of the superblock is not checked: when it lies outside the ring and
    the ring holds commit blocks only, replay of a journal without a key never
    returns, whatever the number of rounds. *)
Theorem journal_replay_unchecked_head_spins {W : Type} (dev : block_device W) `{!DiskSpec dev, !ReliableDisk dev} j w fuel :
  512 <= dev_block_size dev <= 65536 -> 0 <= start_block j -> sb_version (sb j) = JOURNAL_VERSION ->
  start_block j + 1 + sb_block_count (sb j) <= dev_block_count dev ->
  0 <= sb_tail (sb j) < sb_block_count (sb j) -> sb_block_count (sb j) <= sb_head (sb j) ->
  disk_inv w -> all_commits dev j w ->
  (journal_replay dev fuel j (w, [])).1.1 = None.
Proof.
  intros Hbs Hst Hv Hend Ht Hh Hw Hall. unfold journal_replay, journal_needs_replay, journal_is_authenticated.
  rewrite Hv. replace (sb_head (sb j) =? sb_tail (sb j)) with false by lia.
  change (JOURNAL_VERSION =? JOURNAL_VERSION_AUTH) with false. cbn [negb andb].
  unfold kmalloc_buf, kmalloc, bind, ret. cbn beta iota zeta delta [fst snd replay_alloc negb ret].
  pose proof (spin_loop dev j Hst ltac:(lia) Hend Hh fuel false (sb_tail (sb j)) (mkBufs (zrep (dev_block_size dev) 0) [] []) w Ht Hw Hall
    ltac:(apply zlen_rep; lia)) as E.
  destruct (replay_loop _ _ _ _ _ _ _) as [r w1]. cbn [fst] in E. by subst r.
Qed.

(** A ring of two commit blocks with a head of 9. *)
Definition spin_journal : journal := mkJ 0 3 (mkSb JOURNAL_MAGIC JOURNAL_VERSION 512 2 9 0 1 0 (zrep 28 0)) 1 false false 512 (zrep 32 0) 0.
Definition spin_volume : block_device (list (list Z)) := mem_dev 512 3.
#[local] Instance spin_volume_spec : DiskSpec spin_volume := mem_spec 512 ltac:(lia) 3 ltac:(lia).
#[local] Instance spin_volume_reliable : ReliableDisk spin_volume := mem_reliable 512 ltac:(lia) 3 ltac:(lia).
Definition spin_disk : list (list Z) :=
  [sb_block spin_volume (sb spin_journal); commit_block spin_volume 1 0 []; commit_block spin_volume 1 0 []].

Lemma spin_disk_ok : disk_inv (dev := spin_volume) spin_disk /\ all_commits spin_volume spin_journal spin_disk.
Proof.
  split; [split; [done | by repeat constructor; vm_compute]|]. intros q Hq.
  assert (q = 0 \/ q = 1) as [-> | ->] by (cbn in Hq; lia); by vm_compute.
Qed.

Lemma journal_replay_unchecked_head_spins_witness :
  (journal_replay spin_volume 1000 spin_journal (spin_disk, [])).1.1 = None.
Proof.
  apply (journal_replay_unchecked_head_spins spin_volume spin_journal spin_disk 1000); try (cbn; lia); try done.
  - apply spin_disk_ok.
  - apply spin_disk_ok.
Defined.

(** ** Authenticity *)
Section authentic.
Context {W : Type} (dev : block_device W) `{!DiskSpec dev, !ReliableDisk dev} (j : journal).
Local Abbreviation bs := (dev_block_size dev).
Local Abbreviation bc := (sb_block_count (sb j)).
Local Abbreviation rv w := (ring_view j (disk_view w)).

(** The ring holds at [p] the transaction [x], followed by a commit block whose tag
    is the one of [x] under the key of the journal. *)
Definition vouched (v : Z -> list Z) (p : Z) (x : jtx) : Prop :=
  exists c, zlen (x_refs x) = zlen (x_blocks x) /\
    x_refs x = refs_of_block (v p) (zlen (x_refs x)) /\
    x_seq x = h_sequence (hdr_of_bytes (v p)) /\
    ring_at bc v (step_pos bc p) (x_blocks x ++ [c]) /\ tag_is dev j x c.

(** From [w] to [w'] the disk changes only by the writes of vouched transactions. *)
Inductive applied : W -> W -> Prop :=
  | applied_nothing w w' : shows dev w [] w' -> applied w w'
  | applied_entry w p x w1 w2 : 0 <= p < bc -> vouched (rv w) p x ->
      shows dev w (tx_writes x) w1 -> applied w1 w2 -> applied w w2.

Context (Hbs : 512 <= bs <= 65536) (Ha : area_ok dev j).

Lemma applied_read w w1 w2 : shows dev w [] w1 -> applied w1 w2 -> applied w w2.
Proof.
  intros S1 Hap. revert S1. destruct Hap as [w1 w2 S2 | w1 p x w3 w2 Hp Hv S2 Hap]; intros S1.
  - apply applied_nothing. by apply (shows_app dev w [] w1 [] w2).
  - apply (applied_entry w p x w3 w2 Hp); [|by apply (shows_app dev w [] w1 _ w3) | done].
    assert (E : forall q, 0 <= q < bc -> rv w1 q = rv w q) by (by apply (ring_kept dev j Ha w [] w1)).
    destruct Hv as (c & H1 & H2 & H3 & H4 & H5). exists c. rewrite <- !(E p Hp). split_and!; try done.
    revert H4. apply ring_at_ext; [by apply (bc_range dev) | apply step_pos_range, (bc_range dev j Ha) | done].
Qed.

Lemma zlen_refs_of b n : 0 <= n -> zlen (refs_of_block b n) = n.
Proof. intros. unfold refs_of_block. by apply zlen_map_seqZ. Qed.

Lemma auth_loop fuel : forall p r w rb, left bc (sb_head (sb j)) p r -> disk_inv w -> bufs_ok dev true rb ->
  exists res w', replay_loop dev fuel j true p rb (w, []) = (res, (w', [])) /\ applied w w'.
Proof.
  induction fuel as [|fuel IH]; intros p r w rb Hl Hw Hb; cbn [replay_loop]; rewrite (left_zero _ _ p r Hl);
    destruct (Z.eqb_spec r 0) as [E0|E0];
    try (eexists _, w; split; [reflexivity | by apply applied_nothing, shows_refl]).
  destruct (step_read dev j Ha true p r rb w Hl Hw Hb) as (w1 & S1 & Hb1 & E). unfold bind at 1. rewrite E. clear E.
  assert (H0 : 0 < r) by (destruct Hl as (_ & ? & _); lia).
  pose proof (left_step bc (bc_range dev j Ha) _ p r Hl H0) as Hl1. fold (next_pos j p) in Hl1.
  assert (Hnext : exists res w', replay_loop dev fuel j true (next_pos j p)
    (mkBufs (rv w p) (rb_commit rb) (rb_staged rb)) (w1, []) = (res, (w', [])) /\ applied w w').
  { destruct (IH _ _ w1 _ Hl1 (proj1 S1) Hb1) as (res & w2 & E & Hap). exists res, w2. split; [done|].
    by apply (applied_read w w1). }
  cbv zeta. destruct (negb _); [eexists _, w1; split; [reflexivity | by apply applied_nothing]|].
  destruct (_ =? JOURNAL_ENTRY_COMMIT); [exact Hnext|].
  destruct (_ && _) eqn:Em; [|exact Hnext]. cbn [negb]. apply andb_true_iff in Em as [_ Hn]. apply Z.ltb_lt in Hn.
  set (n := Z.min _ _). assert (Hn16 : 0 < n <= JOURNAL_ENTRY_MAX_BLOCKS) by (unfold n, JOURNAL_ENTRY_MAX_BLOCKS; lia).
  destruct (auth_run dev j Hbs Ha (hdr_of_bytes (rv w p)) (refs_of_block (rv w p) n) n (next_pos j p) _ w1 _
    (zlen_refs_of (rv w p) n ltac:(lia)) Hn16 Hl1 (proj1 S1) Hb1) as (ls & rb' & w2 & res & E & Hll & Hrl & Hfl & Hb2 & Hres).
  rewrite E. destruct Hres as [((Hnr & Hver & Htag) & -> & S2) | (_ & -> & S2)].
  2: { eexists _, w2. split; [reflexivity|]. apply applied_nothing. by apply (shows_app dev w [] w1 [] w2). }
  set (x := mkTx (h_sequence (hdr_of_bytes (rv w p))) (refs_of_block (rv w p) n) ls).
  pose proof (left_walk bc (bc_range dev j Ha) (sb_head (sb j)) (S (Z.to_nat n)) (next_pos j p) (r - 1) Hl1 ltac:(lia)) as Hl2.
  destruct (IH _ _ w2 rb' Hl2 (proj1 S2) Hb2) as (res & w3 & E3 & Hap). eexists res, w3. split; [exact E3|].
  apply (applied_read w w1 w3 S1), (applied_entry w1 p x w2 w3); [apply Hl | | exact S2 | done].
  assert (En : zlen (x_refs x) = n) by (by apply zlen_refs_of; lia).
  assert (E1 : forall q, 0 <= q < bc -> rv w1 q = rv w q) by (by apply (ring_kept dev j Ha w [] w1)).
  exists (rv w1 (walk bc (next_pos j p) (Z.to_nat n))).
  rewrite En, (E1 p (proj1 Hl)). split_and!; try done.
  - cbn [x_blocks x]. lia.
  - apply ring_at_app; [by apply (bc_range dev) |]. split; [exact Hrl|]. split; [|done].
    cbn [x_blocks x]. do 2 f_equal. unfold zlen in Hll. lia.
Qed.
End authentic.

(** C23. With a key installed, a device that works and memory granted, replay of an arbitrary
    disk leaves every block as it was but for the writes of transactions that a commit
    block on the ring vouches for with the right tag, and the superblock at the end; what
    it found is reported by the return code. *)
Theorem journal_replay_authentic {W : Type} (dev : block_device W) `{!DiskSpec dev, !ReliableDisk dev} j w fuel :
  512 <= dev_block_size dev <= 65536 -> area_ok dev j -> zlen (sb_reserved (sb j)) = 28 ->
  sb_version (sb j) = JOURNAL_VERSION_AUTH -> 0 <= hmac_key_len j -> disk_inv w -> sb_block_count (sb j) <= Z.of_nat fuel ->
  exists rc w1 w2, (journal_replay dev fuel j (w, [])).1.1 = Some rc /\ (rc = 0 \/ rc = -1) /\
    (journal_replay dev fuel j (w, [])).2 = (w2, []) /\ applied dev j w w1 /\
    (shows dev w1 [] w2 \/ shows dev w1 [(start_block j, sb_block dev (retire (sb j)))] w2).
Proof.
  intros Hbs Ha Hres Hv Hk Hw Hf. unfold journal_replay.
  assert (H0 : applied dev j w w) by (by apply applied_nothing, shows_refl).
  destruct (negb (journal_needs_replay j)); [exists 0, w, w; split_and!; try done; [by left | left; by apply shows_refl]|].
  rewrite Hv. change (JOURNAL_VERSION_AUTH =? JOURNAL_VERSION_AUTH) with true. cbn [andb].
  destruct (Z.eqb_spec (hmac_key_len j) 0); [exists (-1), w, w; split_and!; try done; [by right | left; by apply shows_refl]|].
  assert (Hau : journal_is_authenticated j = true).
  { unfold journal_is_authenticated. rewrite Hv. cbn [andb]. change (JOURNAL_VERSION_AUTH =? JOURNAL_VERSION_AUTH) with true. cbn [andb]. lia. }
  rewrite Hau. unfold kmalloc_buf, kmalloc, bind, ret. cbn beta iota zeta delta [fst snd].
  destruct (alloc_run dev Hbs true (zrep (dev_block_size dev) 0)) as (rb & Hb & ->); [apply zlen_rep; lia|]. cbn beta iota.
  pose proof (bc_range dev j Ha) as Hbc.
  destruct (left_exists _ Hbc _ _ (ao_head _ _ Ha) (ao_tail _ _ Ha)) as (r & Hl).
  destruct (auth_loop dev j Hbs Ha fuel _ r w rb Hl Hw Hb) as (res & w1 & E & Hap).
  destruct (loop_ends dev j Hbc fuel true _ r rb (w, []) Hl) as [ok Eok]; [destruct Hl as (_ & ? & _); lia|].
  rewrite E in *. cbn [fst] in Eok. subst res.
  assert (Hw1 : disk_inv w1) by (clear -Hap; induction Hap as [? ? S | ? ? ? ? ? ? ? S ? IH]; [apply S | done]).
  destruct (write_super dev j Hbs Ha (retire (sb j)) w1 Hres Hw1) as (rc & w2 & E2 & S2).
  change (journal_write_block dev (set_sb j (retire (sb j))) 0) with (journal_write_block dev j 0).
  cbn [sb set_sb]. cbn beta iota zeta delta [fst snd]. rewrite E2.
  exists (if ok then 0 else -1), w1, w2. split_and!; try done; [destruct ok; auto | by right].
Qed.

(** The demonstration volume after a commit. *)
Definition demo_committed : journal * list (list Z) :=
  let '(_, j, _, (w, _)) := journal_commit demo_volume demo_journal demo_txn (demo_disk, []) in (j, w).

Lemma demo_committed_ok : disk_inv (dev := demo_volume) demo_committed.2 /\ area_ok demo_volume demo_committed.1.
Proof.
  split.
  - split; [by vm_compute|]. apply Forall_forall. intros b Hb. revert b Hb. apply Forall_forall. vm_compute. repeat constructor.
  - constructor; vm_compute; intuition discriminate.
Qed.

Lemma journal_replay_authentic_witness :
  exists rc w1 w2, (journal_replay demo_volume 31 demo_committed.1 (demo_committed.2, [])).1.1 = Some rc /\ (rc = 0 \/ rc = -1) /\
    (journal_replay demo_volume 31 demo_committed.1 (demo_committed.2, [])).2 = (w2, []) /\
    applied demo_volume demo_committed.1 demo_committed.2 w1 /\
    (shows demo_volume w1 [] w2 \/
     shows demo_volume w1 [(start_block demo_committed.1, sb_block demo_volume (retire (sb demo_committed.1)))] w2).
Proof.
  apply (journal_replay_authentic demo_volume demo_committed.1 demo_committed.2 31).
  - cbn; lia.
  - apply demo_committed_ok.
  - by vm_compute.
  - by vm_compute.
  - vm_compute; discriminate.
  - apply demo_committed_ok.
  - vm_compute; discriminate.
Defined.

(** The demonstration volume with the tag of the commit block wiped and the data
    block forged. *)
Definition forged_disk : list (list Z) :=
  let w := demo_committed.2 in
  let w := aset w 4 ([66; 66] ++ zrep 510 0) in
  aset w 5 (splice (aget [] w 5) 32 (zrep 16 0)).

(** The tag of a failed memory request is zero, and so can the stored one be:
    with memory for the buffers but not for the message, replay accepts a forged
    entry that it rejects when the memory is there. *)
Theorem journal_replay_accepts_zero_tag_without_memory :
  let replay mem := let '(rc, _, (w, _)) := journal_replay demo_volume 31 demo_committed.1 (forged_disk, mem) in
    (rc, ztake 2 (aget [] w 35)) in
  replay [] = (Some (-1), [0; 0]) /\ replay [true; true; true; false] = (Some 0, [66; 66]).
Proof. split; by vm_compute. Qed.

(** ** Building a transaction *)
Section building.
Context {W : Type} (dev : block_device W).
Local Abbreviation bs := (dev_block_size dev).
Context (Hbs : 512 <= bs <= 65536).

(** The block that stands for [length] bytes of [data]. *)
Definition padded (data : list Z) (length : Z) : list Z :=
  ztake bs (ztake length data ++ zrep bs 0).

Lemma begin_is j t0 : zlen (refs t0) = JOURNAL_ENTRY_MAX_BLOCKS ->
  txn_is dev (journal_begin j t0).2 (mkTx (current_sequence j) [] []).
Proof. intros H. by constructor. Qed.

Lemma block_copy b o data length : 0 <= o -> o + bs <= zlen b -> 0 <= length <= zlen data ->
  for_range 0 bs (fun i b => aset b (o + i) (if i <? length then data.[i] else 0)) b = splice b o (padded data length).
Proof.
  intros Ho Hb Hl. destruct (store_loop_spec (fun i => if i <? length then data.[i] else 0) b o bs Ho ltac:(lia) Hb) as [H1 H2].
  assert (Hp : zlen (padded data length) = bs).
  { unfold padded. rewrite zlen_take, zlen_app, zlen_rep by lia. pose proof (zlen_nonneg (ztake length data)). lia. }
  apply (array_ext 0); [rewrite H1, zlen_splice; lia|]. intros i Hi. rewrite H2, aget_splice, Hp by lia.
  destr_if; [|done]. bools. unfold padded. rewrite aget_take by lia.
  destruct (Z.ltb_spec (i - o) length).
  - rewrite aget_app_l by (rewrite zlen_take; lia). by rewrite aget_take by lia.
  - rewrite aget_app_r by (rewrite zlen_take; lia). rewrite aget_rep; [done|]. rewrite zlen_take; lia.
Qed.

Lemma slots_splice b x n : 0 <= n -> (n + 1) * bs <= zlen b -> zlen x = bs ->
  slots dev (splice b (n * bs) x) 0 (Z.to_nat (n + 1)) = slots dev b 0 (Z.to_nat n) ++ [x].
Proof.
  intros Hn Hb Hx. unfold slots. rewrite !Z2Nat.id by lia. rewrite seqZ_snoc by lia. rewrite map_app. cbn [map]. f_equal.
  - apply map_ext_in. intros i Hi. apply list_elem_of_In, elem_of_seqZ in Hi.
    apply sub_splice_other; nia.
  - f_equal. rewrite Z.add_0_l. pose proof (sub_splice_same b (n * bs) x ltac:(nia) ltac:(nia)) as E. by rewrite Hx in E.
Qed.
End building.

(** A transaction collects what is logged: each logged block adds its reference
    and its bytes padded with zeros to a block, at the end; a seventeenth is refused
    and leaves the transaction as it was. *)
Theorem journal_log_block_records {W : Type} (dev : block_device W) txn x target data offset length w :
  512 <= dev_block_size dev <= 65536 -> txn_is dev txn x -> 0 <= length <= zlen data ->
  let '(rc, txn', w') := journal_log_block dev txn target (Some data) offset length (w, []) in
  w' = (w, []) /\
  if zlen (x_refs x) <? JOURNAL_ENTRY_MAX_BLOCKS
  then rc = 0 /\ txn_is dev txn' (mkTx (x_seq x) (x_refs x ++ [mkRef target offset length])
                                   (x_blocks x ++ [padded dev data length]))
  else rc = -1 /\ txn' = txn.
Proof.
  intros Hbs [] Hl. pose proof (zlen_nonneg (x_refs x)). unfold JOURNAL_ENTRY_MAX_BLOCKS in *. unfold journal_log_block.
  rewrite ti_count. unfold JOURNAL_ENTRY_MAX_BLOCKS. destruct (Z.ltb_spec (zlen (x_refs x)) 16).
  2: { by replace (16 <=? zlen (x_refs x)) with true by lia. }
  replace (16 <=? zlen (x_refs x)) with false by lia. cbv zeta. cbn [data_buffer ref_count refs data_used committed t_sequence].
  assert (exists b, zlen b = 16 * dev_block_size dev /\ slots dev b 0 (Z.to_nat (zlen (x_refs x))) = x_blocks x /\
    (match data_buffer txn with Some b => ret (Some b) | None => kmalloc_buf (16 * dev_block_size dev) end) (w, []) =
    (Some b, (w, []))) as (b & Hb & Hs & E).
  { destruct (data_buffer txn) as [b|] eqn:Ed.
    - exists b. split; [by apply ti_buf|]. split; [by rewrite <- ti_count | done].
    - exists (zrep (16 * dev_block_size dev) 0). split; [apply zlen_rep; lia|]. split; [|done].
      assert (E0 : zlen (x_refs x) <= 0) by (destruct (Z.le_gt_cases (zlen (x_refs x)) 0); [done|]; destruct ti_data; [lia | done]).
      rewrite <- ti_blocks, ti_count. by replace (zlen (x_refs x)) with 0 by lia. }
  unfold bind at 1. rewrite E. cbn beta iota. unfold ret. split; [done|]. split; [done|].
  rewrite Z.add_simpl_r, block_copy by nia.
  assert (Hp : zlen (padded dev data length) = dev_block_size dev).
  { unfold padded. rewrite zlen_take, zlen_app, zlen_rep by lia. pose proof (zlen_nonneg (ztake length data)). lia. }
  constructor; cbn [committed t_sequence ref_count refs data_buffer data_used x_seq x_refs x_blocks from_option id]; try done.
  - rewrite zlen_app, zlen_cons. change (zlen (@nil journal_block_ref)) with 0. lia.
  - unfold set_ref. by rewrite zlen_aset.
  - unfold set_ref, aset, ztake.
    replace (Z.to_nat (zlen (x_refs x) + 1)) with (S (Z.to_nat (zlen (x_refs x)))) by lia.
    rewrite (take_S_r _ _ (mkRef target offset length)) by (apply list_lookup_insert_eq; unfold zlen in *; lia).
    rewrite take_insert_ge by lia. f_equal. rewrite <- ti_count. exact ti_refs.
  - rewrite slots_splice, Hs by (done || nia). done.
  - intros b' [= <-]. rewrite zlen_splice by nia. done.
  - apply u32_range.
Qed.

Lemma journal_log_block_records_witness :
  let '(rc, txn', w') := journal_log_block demo_volume demo_txn 36 (Some [9]) 0 1 (demo_disk, []) in
  w' = (demo_disk, []) /\
  if zlen (x_refs demo_tx) <? JOURNAL_ENTRY_MAX_BLOCKS
  then rc = 0 /\ txn_is demo_volume txn' (mkTx (x_seq demo_tx) (x_refs demo_tx ++ [mkRef 36 0 1])
                                   (x_blocks demo_tx ++ [padded demo_volume [9] 1]))
  else rc = -1 /\ txn' = demo_txn.
Proof.
  exact (journal_log_block_records demo_volume demo_txn demo_tx 36 [9] 0 1 demo_disk ltac:(vm_compute; intuition discriminate)
    demo_txn_is ltac:(vm_compute; intuition discriminate)).
Defined.
